(* ===== verification/_CoqProject ===== *)
-Q . S2P
Prelude.v
Params.v
Mem.v
Str.v
X86.v
Boot.v
Mmu.v
Kalloc.v
Vm.v
VmProofs.v
VmUser.v
VmCopy.v
VmSpec.v
Pipe.v
Disk.v
BlockCache.v
Bio.v
BioProofs.v
Superblock.v
Log.v
LogProofs.v
LogCrash.v
LogTx.v
Machine.v
LogSpec.v
Txn.v
Fs.v
FsBlocks.v
FsInode.v
FsBmap.v
FsIo.v
FsDinode.v
FsIcache.v
FsTrunc.v
FsWrite.v
FsDir.v
FsPath.v
FsCheck.v
FsNames.v
FsLife.v
FsSpec.v
TxnLog.v
FsCrash.v
File.v
Grep.v
Printf.v
Wc.v
Proc.v
ProcProofs.v
ProcSpec.v
Kernel.v
Sysproc.v
Sysfile.v
SysInodes.v
SysCreate.v
SysLink.v
SysUnlink.v
SysCrash.v
Exec.v
ExecMem.v
ExecSpec.v
Trap.v
Spinlock.v
Seg.v
Intr.v
Lapic.v
Console.v
Uart.v
Devsw.v
Kbd.v
Sh.v
ShProofs.v
ShSpec.v
Mp.v
Ide.v
Umalloc.v
Mkfs.v
MkfsProofs.v
MkfsSpec.v
MkfsBoot.v
