(* ===== verification/Prelude.v ===== *)
(** * A verification of xv6

    A shallow embedding of the xv6 kernel (rev9), of its shell, of some of its
    user programs and of mkfs, all under src/xv6-public-xv6-rev9, with the
    theorems that make them correct.  This file holds what all the others
    share; the rest of this comment describes the whole development.

    ** How code is modelled

    A C function is a definition with the name it has in the source, in the
    file named after its source file.  Code with effects is a function in the
    monad [M S A] below, over the state [S] of its component.  It returns
    ([Ok]), gives up the processor in sleep() ([Sleep]), panics ([Panic]) or
    accesses memory outside any object ([Fault]).  A loop that is not
    structural takes fuel and gives [NoFuel] when there is too little of it.
    The fuel is always computed from the input by the definition that starts
    the loop (the length of the string, the number of pages or blocks and two
    or three more), and every theorem that says what a routine gives shows
    [Ok] or the panic itself, so it shows that the fuel suffices.

    A machine integer is a [Z] in the range of its type, and [u32], [s32],
    [u8] are written where C wraps or converts.  Memory is a finite map from
    addresses to bytes (Mem.v).  A pointer into an array of structs is an
    index, a null pointer is 0 or [None], and [struct]s are records.  Code
    between an acquire and the matching release of one lock is one step, and
    where several processors or processes take turns an [Inductive] step
    relation says in which order the steps can come.

    ** The parts

    - Params.v: the constants of param.h, fs.h and traps.h, and elf.h.
    - Mem.v, Str.v: byte memory; string.c ([Str.Kern]) and ulib.c
      ([Str.Ulib]).  memmove, memset, strncmp and safestrcpy do what their
      names say on overlapping and on unaligned arguments.
    - X86.v, Boot.v: port and register accesses of x86.h, and bootmain.c over
      the ports of the disk controller.  The loader puts the segments of the
      kernel where its program headers say.
    - Mmu.v, Kalloc.v: memlayout.h, mmu.h and kalloc.c.  The free list is in
      the free pages themselves; kalloc never gives out a page that somebody
      holds.
    - Vm.v, VmProofs.v, VmUser.v, VmCopy.v, VmSpec.v: vm.c over the memory of
      kalloc.c.  [VmProofs.mmu] is the walk that the hardware makes, and the
      theorems of VmSpec.v say what mappages, setupkvm, allocuvm, deallocuvm,
      freevm, copyuvm and copyout do to it, what pages they take and give
      back, and what they leave on failure.
    - Pipe.v: pipe.c.  [Pipe.pstep] interleaves the calls of any number of
      readers and writers, which sleep and are woken; bytes come out in the
      order in which they went in, each call returns what it did, and only
      calls that cannot go on sleep.
    - Disk.v, BlockCache.v, Bio.v, BioProofs.v: buf.h and memide.c, the
      interface [BlockCache] and its implementation by bio.c over the ring of
      buffers with its pointers.
    - Superblock.v, Log.v, LogProofs.v, LogCrash.v, LogTx.v, Machine.v,
      LogSpec.v: log.c over any block cache.  [LogTx.step] is the system of
      all interleavings of FS calls.  A crash after any disk write of a
      commit, followed by a boot, gives all or nothing of the transaction; a
      crash at any other time gives the last commit; a call that stays within
      its budget is never refused, and the budget is one block short of what
      begin_op means to reserve.  Machine.v boots a concrete disk.
    - Txn.v, TxnLog.v: the interface [Txn] of a transaction with its
      implementation by the abstract state itself, and the one by log.c.
    - Fs.v: all of fs.c over any [Txn].
      FsBlocks.v, FsInode.v, FsBmap.v, FsIo.v, FsDinode.v, FsTrunc.v,
      FsWrite.v, FsSpec.v: blocks and the contents of files.
      [FsInode.fs_ok] is the invariant of a file system: no block belongs to
      two files, and every block of a file is marked in the free map.  The
      theorems say what balloc, bfree, readi, writei and itrunc do to the
      contents of files.
      FsIcache.v, FsDir.v, FsPath.v, FsNames.v, FsLife.v: the inode cache with
      its reference counts, directories, paths, and the creation and removal
      of inodes.  FsCheck.v decides the invariants on a concrete disk.
      FsCrash.v puts fs.c, log.c and bio.c together: a write to a file is
      atomic with respect to crashes.
    - File.v, Kernel.v, Sysproc.v, Sysfile.v, Trap.v: the file table, the
      state of the whole kernel with the fetching of arguments through the
      page table of the caller (syscall.c), the system calls, and trap.
    - SysInodes.v, SysCreate.v, SysLink.v, SysUnlink.v, SysCrash.v: create,
      link and unlink against the tree of names, on every branch, what unlink
      frees on the disk, and the atomicity of create with respect to crashes.
    - Exec.v, ExecMem.v, ExecSpec.v: exec.c.  [ExecSpec.exec_image] says what a
      file and its arguments mean as an address space; exec makes exactly that
      one or leaves the old one as it was.
    - Proc.v, ProcProofs.v, ProcSpec.v: proc.c over the interface [ProcEnv].
      [ProcSpec.sstep] lets processors, processes and interrupts take turns;
      the theorems are about the tree of processes, about wait(), which
      misses no exited child, and about fork in each of its cases.
    - Spinlock.v: spinlock.c, cut at its atomic operations; mutual exclusion
      in every interleaving.
    - Seg.v: the segment, gate and task state descriptors of mmu.h, seginit
      and switchuvm of vm.c and tvinit of trap.c; the theorems decode the
      descriptors as the processor does.
    - Intr.v, Lapic.v: picirq.c, ioapic.c, timer.c and lapic.c with its clock;
      which interrupts reach which processor, and that the date read is one
      that the clock showed.
    - Console.v, Uart.v, Devsw.v, Kbd.v: console.c, uart.c, the console as a
      device of the file system, and kbd.c.  What reaches the line editor is
      a function of the history of the keys.
    - Mp.v, Ide.v: mp.c over byte memory, and ide.c with its queue of linked
      buffers and its port accesses.  In every interleaving of requests and
      interrupts the requests finish in order with the data of the disk.
    - Sh.v, ShProofs.v, ShSpec.v: sh.c.  The parser stops on every line, reads
      back every command that is printed, and what it runs has its three
      descriptors wired as the line says.
    - Grep.v, Printf.v, Wc.v, Umalloc.v: user programs and the user library.
      umalloc.c keeps the blocks that it gives out apart and whole, and
      refuses a request only when no free block is large enough and the kernel
      gives no memory.
    - Mkfs.v, MkfsProofs.v, MkfsSpec.v, MkfsBoot.v: mkfs.c.  The image is a
      consistent file system, and a kernel that boots on it reads back the
      files that went in.

    ** Interfaces

    Components meet in type classes: [Disk] (what bio.c needs of a driver),
    [BlockCache] (what log.c needs of bio.c), [Txn] (what fs.c needs of
    log.c), [DevSw] (what fs.c needs of the console), [ProcEnv] (what proc.c
    needs of memory and files), [Irq] (what trap.c needs of the devices),
    [Linker] and [CpuLayout] (the addresses that the linker chooses).
    Theorems of the client are proved for every instance, and BioProofs.v,
    TxnLog.v, Devsw.v and Kernel.v give the instances of the kernel ([Irq],
    [Linker] and [CpuLayout] stay arguments).  Hardware is a class as well:
    [Ports], [Ports32] and [Mmio] give a device its accesses, and [AtaDisk],
    [IdeDisk], [PicPair], [IoApic], [Lapic], [Rtc] and [Uart] state the
    documented behaviour that a driver relies on.

    ** Side conditions

    - [LogTx.step] takes end_op with its commit as one step, so no other call
      is seen while [committing] is set; the crashes of LogSpec.v do cut the
      commit at each of its disk writes.
    - The budget of a call, [LogTx.op_budget], is MAXOPBLOCKS - 1, because the
      header takes one of the blocks that begin_op counts
      ([LogSpec.log_reservation_one_short]).  Theorems about system calls ask
      for room within it and for enough free blocks.
    - [ProcSpec.sstep] takes exit as one step, although the closing of files
      in it can sleep, and calls fork only while nextpid + 1 is below 2^31.
      Of [ProcEnv] it asks nothing: its operations may fail or fault.
    - [MkfsSpec.mkfs_fits]: distinct names, files that fit, and a root
      directory whose entries do not fill its last block, since mkfs would
      count a block more than it has.
    - [VmSpec.copyout_correct] is about a kernel with no memory at address 0,
      which an address without a page table makes it read.

    ** What is not modelled

    Assembly (bootasm.S, entry.S, entryother.S, swtch.S, trapasm.S, usys.S)
    and the order in which main.c calls the initialization routines; a context
    switch is one step.  Messages on the console, the dump of the process
    table, and the spinning of processors after a panic.  In exec, the call of
    switchuvm, which acts on the processor only, and in trap, lapiceoi.  The
    main functions of grep and wc, and the user programs that are plain
    sequences of system calls or tests (cat, echo, forktest, init, kill, ln,
    ls, mkdir, rm, stressfs, usertests, zombie).  Memory is sequentially
    consistent.  A crash loses what is not on the disk and keeps each block
    whole.  The tables of the BIOS are the contents of memory. *)

From Stdlib Require Export ZArith Lia.
From stdpp Require Export base numbers strings gmap list.

Open Scope Z_scope.

(** ** Running kernel code

    A piece of kernel code is a function from a component's state to one of
    five outcomes.  [Ok] is an ordinary return.  [Sleep chan s] says that the
    running thread called [sleep(chan, lk)] with the component in state [s];
    it runs again from the loop head that called [sleep].  [Panic] is a call
    of [panic], which prints its message and never returns.  [Fault] is an
    access outside the object a pointer points into.  [NoFuel] is the only
    outcome that is not a behaviour of the C code: a loop that is not
    structurally bounded was given too little fuel. *)

Inductive outcome (S A : Type) : Type :=
  | Ok (a : A) (s : S)
  | Sleep (chan : Z) (s : S)
  | Panic (msg : string)
  | Fault
  | NoFuel.
Arguments Ok {S A} _ _.
Arguments Sleep {S A} _ _.
Arguments Panic {S A} _.
Arguments Fault {S A}.
Arguments NoFuel {S A}.

Definition M (S A : Type) : Type := S → outcome S A.

Section monad.
Context {S : Type}.

#[global] Instance M_ret : MRet (M S) := λ A a s, Ok a s.

#[global] Instance M_bind : MBind (M S) := λ A B k m s,
  match m s with
  | Ok a s' => k a s'
  | Sleep c s' => Sleep c s'
  | Panic msg => Panic msg
  | Fault => Fault
  | NoFuel => NoFuel
  end.

Definition get : M S S := λ s, Ok s s.
Definition put (s : S) : M S unit := λ _, Ok tt s.
Definition gets {A} (f : S → A) : M S A := λ s, Ok (f s) s.
Definition modify (f : S → S) : M S unit := λ s, Ok tt (f s).
Definition panic {A} (msg : string) : M S A := λ _, Panic msg.
Definition fault {A} : M S A := λ _, Fault.
Definition nofuel {A} : M S A := λ _, NoFuel.
Definition sleep {A} (chan : Z) : M S A := λ s, Sleep chan s.

(** Reading through a pointer: an absent object is a fault. *)
Definition ofopt {A} (o : option A) : M S A :=
  match o with Some a => mret a | None => fault end.

Lemma bind_ok {A B} (m : M S A) (k : A → M S B) s a s' :
  m s = Ok a s' → (m ≫= k) s = k a s'.
Proof. intros H. unfold mbind, M_bind. by rewrite H. Qed.

Lemma ofopt_step {A B} (o : option A) a (k : A → M S B) s : o = Some a → (x ← ofopt o; k x) s = k a s.
Proof. by intros ->. Qed.

Lemma ret_step {A B} (a : A) (k : A → M S B) s : (mret a ≫= k) s = k a s.
Proof. done. Qed.

Lemma gets_step {A B} (f : S → A) (k : A → M S B) s : (x ← gets f; k x) s = k (f s) s.
Proof. done. Qed.

Lemma modify_step {B} (f : S → S) (k : M S B) s : (modify f;; k) s = k (f s).
Proof. done. Qed.

Lemma bind_panic {A B} (m : M S A) (k : A → M S B) s msg :
  m s = Panic msg → (m ≫= k) s = Panic msg.
Proof. intros H. unfold mbind, M_bind. by rewrite H. Qed.

Lemma bind_sleep {A B} (m : M S A) (k : A → M S B) s c s' :
  m s = Sleep c s' → (m ≫= k) s = Sleep c s'.
Proof. intros H. unfold mbind, M_bind. by rewrite H. Qed.

Lemma bind_ok_inv {A B} (m : M S A) (k : A → M S B) s b s'' :
  (m ≫= k) s = Ok b s'' → ∃ a s', m s = Ok a s' ∧ k a s' = Ok b s''.
Proof. unfold mbind, M_bind. destruct (m s); naive_solver. Qed.

Lemma bind_assoc {A B C} (m : M S A) (f : A → M S B) (g : B → M S C) s :
  ((m ≫= f) ≫= g) s = (m ≫= (λ a, f a ≫= g)) s.
Proof. unfold mbind, M_bind. by destruct (m s). Qed.
End monad.

(** [zoom get set m] runs code of a component on the state that contains it. *)
Definition zoom {S T A} (prj : S → T) (upd : T → S → S) (m : M T A) : M S A := λ s,
  match m (prj s) with
  | Ok a t => Ok a (upd t s)
  | Sleep c t => Sleep c (upd t s)
  | Panic msg => Panic msg
  | Fault => Fault
  | NoFuel => NoFuel
  end.

Lemma zoom_ok {S T A} (prj : S → T) (upd : T → S → S) (m : M T A) s a t :
  m (prj s) = Ok a t → zoom prj upd m s = Ok a (upd t s).
Proof. intros H. unfold zoom. by rewrite H. Qed.

(** Unfolding one monadic step of the goal. *)
Ltac munfold :=
  unfold mret, M_ret, get, put, gets, modify, panic, fault, nofuel, sleep, ofopt in *.
Ltac mstep H := rewrite (bind_ok _ _ _ _ _ H).

(** ** Machine integers *)

Definition u8 (z : Z) : Z := z `mod` 2 ^ 8.
Definition u16 (z : Z) : Z := z `mod` 2 ^ 16.
Definition u32 (z : Z) : Z := z `mod` 2 ^ 32.
(** The conversion of an unsigned value to [int]. *)
Definition s32 (z : Z) : Z := (z + 2 ^ 31) `mod` 2 ^ 32 - 2 ^ 31.
Definition s16 (z : Z) : Z := (z + 2 ^ 15) `mod` 2 ^ 16 - 2 ^ 15.

Lemma u32_range z : 0 ≤ u32 z < 2 ^ 32.
Proof. apply Z.mod_pos_bound. lia. Qed.

Lemma u32_small z : 0 ≤ z < 2 ^ 32 → u32 z = z.
Proof. intros. by apply Z.mod_small. Qed.

Lemma u32_idem z : u32 (u32 z) = u32 z.
Proof. apply u32_small, u32_range. Qed.

Lemma s32_small z : - 2 ^ 31 ≤ z < 2 ^ 31 → s32 z = z.
Proof. intros. unfold s32. rewrite Z.mod_small; lia. Qed.

Lemma s32_u32 z : - 2 ^ 31 ≤ z < 2 ^ 31 → s32 (u32 z) = z.
Proof.
  intros. unfold s32, u32. rewrite Z.add_mod_idemp_l by lia.
  rewrite Z.mod_small; lia.
Qed.

Create HintDb xv6 discriminated.
#[export] Hint Resolve u32_range u32_small u32_idem : xv6.

Lemma land_bit e k : 0 ≤ k → (Z.land e (2 ^ k) =? 0) = negb (Z.testbit e k).
Proof.
  intros Hk. destruct (Z.testbit e k) eqn:E; simpl.
  - apply Z.eqb_neq. intros H. assert (Z.testbit (Z.land e (2 ^ k)) k = false) as H'
      by (rewrite H; apply Z.testbit_0_l).
    by rewrite Z.land_spec, E, Z.pow2_bits_true in H'.
  - apply Z.eqb_eq, Z.bits_inj_0. intros n. rewrite Z.land_spec, Z.pow2_bits_eqb by done.
    destruct (Z.eqb_spec k n) as [->|]; [by rewrite E|by rewrite andb_false_r].
Qed.

Lemma lor_range x y k : 0 ≤ k → 0 ≤ x < 2 ^ k → 0 ≤ y < 2 ^ k → 0 ≤ Z.lor x y < 2 ^ k.
Proof.
  intros Hk Hx Hy. split; [apply Z.lor_nonneg; lia|].
  destruct (decide (Z.lor x y = 0)) as [->|]; [lia|].
  assert (0 ≤ Z.lor x y) by (apply Z.lor_nonneg; lia).
  apply Z.log2_lt_pow2; [lia|]. rewrite Z.log2_lor by lia.
  apply Z.max_lub_lt.
  - destruct (decide (x = 0)) as [->|]; [|by apply Z.log2_lt_pow2; lia].
    destruct (decide (k = 0)) as [->|]; [|simpl; lia].
    assert (y = 0) as -> by lia. by rewrite Z.lor_0_r in n.
  - destruct (decide (y = 0)) as [->|]; [|by apply Z.log2_lt_pow2; lia].
    destruct (decide (k = 0)) as [->|]; [|simpl; lia].
    assert (x = 0) as -> by lia. by rewrite Z.lor_0_r in n.
Qed.

(** ** Replacing a slice of a list *)

Section splice.
Context {A : Type}.
Implicit Types l new : list A.

(** [memmove(l + off, new, length new)] inside the array [l]. *)
Definition splice (off : nat) (new l : list A) : list A :=
  take off l ++ new ++ drop (off + length new) l.

(** The [n] elements of [l] from offset [off]. *)
Definition slice (off n : nat) (l : list A) : list A := take n (drop off l).

Lemma length_splice off new l :
  (off + length new ≤ length l)%nat → length (splice off new l) = length l.
Proof. intros. unfold splice. rewrite !length_app, length_take, length_drop. lia. Qed.

Lemma length_slice off n l :
  (off + n ≤ length l)%nat → length (slice off n l) = n.
Proof. intros. unfold slice. rewrite length_take, length_drop. lia. Qed.

Lemma slice_splice_eq off new l :
  (off ≤ length l)%nat → slice off (length new) (splice off new l) = new.
Proof.
  intros. unfold slice, splice.
  rewrite drop_app_ge by (rewrite length_take; lia).
  rewrite length_take, Nat.min_l, Nat.sub_diag, drop_0 by lia.
  rewrite take_app_le by lia. by rewrite take_ge.
Qed.

Lemma lookup_splice_ne off new l i :
  (off + length new ≤ length l)%nat →
  (i < off ∨ off + length new ≤ i)%nat → splice off new l !! i = l !! i.
Proof.
  intros Hl Hi. unfold splice.
  assert (length (take off l) = off) as Ht by (rewrite length_take; lia).
  destruct (decide (i < off)%nat).
  - rewrite lookup_app_l by lia. by rewrite lookup_take_lt.
  - rewrite lookup_app_r by lia. rewrite lookup_app_r by lia.
    rewrite Ht, lookup_drop. f_equal. lia.
Qed.

Lemma lookup_splice_eq off new l i :
  (off + length new ≤ length l)%nat →
  (off ≤ i < off + length new)%nat → splice off new l !! i = new !! (i - off)%nat.
Proof.
  intros Hl Hi. unfold splice.
  assert (length (take off l) = off) as Ht by (rewrite length_take; lia).
  rewrite lookup_app_r by lia. rewrite lookup_app_l by lia. by rewrite Ht.
Qed.

Lemma lookup_slice off n l i :
  (i < n)%nat → slice off n l !! i = l !! (off + i)%nat.
Proof. intros. unfold slice. by rewrite lookup_take_lt, lookup_drop. Qed.

Lemma lookup_slice_Some off n l i x :
  slice off n l !! i = Some x ↔ l !! (off + i)%nat = Some x ∧ (i < n)%nat.
Proof. unfold slice. by rewrite lookup_take_Some, lookup_drop. Qed.

Lemma slice_ext off n l l' :
  (∀ i, (off ≤ i < off + n)%nat → l !! i = l' !! i) → slice off n l = slice off n l'.
Proof.
  intros H. apply list_eq. intros i. destruct (decide (i < n)%nat).
  - rewrite !lookup_slice by lia. apply H. lia.
  - unfold slice. by rewrite !lookup_take_ge by lia.
Qed.

Lemma slice_add off n1 n2 l : slice off (n1 + n2) l = slice off n1 l ++ slice (off + n1) n2 l.
Proof. unfold slice. by rewrite <- drop_drop, take_take_drop. Qed.

Lemma slice_slice off n off' n' l :
  (off' + n' ≤ n)%nat → slice off' n' (slice off n l) = slice (off + off') n' l.
Proof.
  intros H. unfold slice. rewrite skipn_firstn_comm, take_take, drop_drop. f_equal. lia.
Qed.

(** A slice that does not meet the replaced part is unchanged. *)
Lemma slice_splice_ne off new l off' n :
  (off + length new ≤ length l)%nat →
  (off' + n ≤ off ∨ off + length new ≤ off')%nat →
  slice off' n (splice off new l) = slice off' n l.
Proof. intros. apply slice_ext. intros. apply lookup_splice_ne; lia. Qed.

Lemma splice_all new l : length new = length l → splice 0 new l = new.
Proof. intros H. unfold splice. simpl. rewrite drop_ge by lia. by rewrite app_nil_r. Qed.
End splice.

(** ** Little-endian words (x86 memory layout of [int] and [uint]) *)

Fixpoint le_bytes (n : nat) (z : Z) : list Z :=
  match n with
  | O => []
  | S n => u8 z :: le_bytes n (z / 2 ^ 8)
  end.

Fixpoint le_value (l : list Z) : Z :=
  match l with
  | [] => 0
  | b :: l => b + 2 ^ 8 * le_value l
  end.

Lemma length_le_bytes n z : length (le_bytes n z) = n.
Proof. revert z; induction n; intros; simpl; auto. Qed.

Lemma le_value_bytes n z : le_value (le_bytes n z) = z `mod` 2 ^ (8 * Z.of_nat n).
Proof.
  revert z. induction n as [|n IH]; intros z; simpl le_bytes; simpl le_value.
  - by rewrite Z.mod_1_r.
  - rewrite IH. unfold u8.
    replace (8 * Z.of_nat (S n)) with (8 + 8 * Z.of_nat n) by lia. rewrite Z.pow_add_r by lia.
    by rewrite Z.rem_mul_r by lia.
Qed.

Definition byte_ok (z : Z) : Prop := 0 ≤ z < 2 ^ 8.
#[export] Instance byte_ok_dec z : Decision (byte_ok z).
Proof. unfold byte_ok. apply _. Defined.

Lemma le_bytes_value l : Forall byte_ok l → le_bytes (length l) (le_value l) = l.
Proof.
  induction 1 as [|b l Hb Hl IH]; [done|]. cbn [le_bytes length le_value].
  unfold u8, byte_ok in *. rewrite (Z.mul_comm (2 ^ 8)).
  rewrite Z.mod_add, Z.mod_small, Z.div_add, Z.div_small by lia.
  by rewrite Z.add_0_l, IH.
Qed.

Lemma le_bytes_ok n z : Forall byte_ok (le_bytes n z).
Proof.
  revert z. induction n; intros; simpl; constructor; auto.
  unfold byte_ok, u8. apply Z.mod_pos_bound. lia.
Qed.

Lemma le_value_range l : Forall byte_ok l → 0 ≤ le_value l < 2 ^ (8 * Z.of_nat (length l)).
Proof.
  induction 1 as [|b l Hb Hl IH]; [done|]. simpl length. simpl le_value.
  replace (8 * Z.of_nat (S (length l))) with (8 + 8 * Z.of_nat (length l)) by lia.
  rewrite Z.pow_add_r by lia. unfold byte_ok in *. nia.
Qed.

(** The [i]th 16-bit and 32-bit word of a byte array, and the array with it
    replaced. *)
Definition half_at (l : list Z) (i : nat) : Z := le_value (slice (2 * i) 2 l).
Definition word_at (l : list Z) (i : nat) : Z := le_value (slice (4 * i) 4 l).
Definition set_word (i : nat) (z : Z) (l : list Z) : list Z :=
  splice (4 * i) (le_bytes 4 z) l.

Lemma word_at_range l i : Forall byte_ok l → 0 ≤ word_at l i < 2 ^ 32.
Proof.
  intros Hl. assert (Forall byte_ok (slice (4 * i) 4 l)) as Hs by (by apply Forall_take, Forall_drop).
  pose proof (le_value_range _ Hs) as Hr. unfold word_at. split; [lia|].
  eapply Z.lt_le_trans; [apply Hr|]. apply Z.pow_le_mono_r; [lia|]. unfold slice. rewrite length_take. lia.
Qed.

Lemma length_set_word i z l : (4 * i + 4 ≤ length l)%nat → length (set_word i z l) = length l.
Proof. intros. apply length_splice. rewrite length_le_bytes. lia. Qed.

Lemma word_at_set_word_eq i z l :
  (4 * i + 4 ≤ length l)%nat → word_at (set_word i z l) i = u32 z.
Proof.
  intros. unfold word_at, set_word.
  pose proof (slice_splice_eq (4 * i) (le_bytes 4 z) l) as H'.
  rewrite length_le_bytes in H'. rewrite H' by lia. apply le_value_bytes.
Qed.

Lemma word_at_set_word_ne i j z l :
  (4 * i + 4 ≤ length l)%nat → i ≠ j → word_at (set_word i z l) j = word_at l j.
Proof.
  intros. unfold word_at, set_word.
  rewrite slice_splice_ne; rewrite ?length_le_bytes; [done|lia..].
Qed.

#[export] Hint Resolve length_le_bytes le_bytes_ok : xv6.

(** ** Linked structures

    [path f a l z]: following the link [f] from [a] visits [l] and then [z]. *)

Section path.
Context {N : Type} `{EqDecision N}.
Implicit Types (f g : N → option N) (a b x z : N) (l : list N).

Fixpoint path f a l z : Prop :=
  match l with
  | [] => f a = Some z
  | x :: l => f a = Some x ∧ path f x l z
  end.

(** The node whose link leads out of [a :: l]. *)
Definition last_of a l : N := default a (last l).

Lemma last_of_cons a x l : last_of a (x :: l) = last_of x l.
Proof.
  unfold last_of. destruct l as [|y l]; [done|]. rewrite last_cons_cons.
  destruct (last (y :: l)) eqn:E; [done|]. by apply last_None in E.
Qed.

Lemma last_of_snoc a l x : last_of a (l ++ [x]) = x.
Proof. unfold last_of. by rewrite last_snoc. Qed.

Lemma last_of_elem a l : last_of a l ∈ a :: l.
Proof.
  unfold last_of. destruct (last l) eqn:E; simpl; [|left].
  right. by apply last_Some_elem_of.
Qed.

Lemma path_app f a l1 x l2 z :
  path f a (l1 ++ x :: l2) z ↔ path f a l1 x ∧ path f x l2 z.
Proof. revert a. induction l1 as [|y l1 IH]; intros a; simpl; [done|]. rewrite IH. tauto. Qed.

Lemma path_last f a l z : path f a l z → f (last_of a l) = Some z.
Proof.
  revert a. induction l as [|x l IH]; intros a; [done|].
  intros [_ H]. rewrite last_of_cons. auto.
Qed.

(** The first node of a path, seen from its end. *)
Lemma path_first f a l z : path f a l z → f a = Some (last_of z (reverse l)).
Proof.
  destruct l as [|x l]; [done|]. intros [H _]. by rewrite reverse_cons, last_of_snoc.
Qed.

Lemma path_ext f g a l z :
  (∀ x, x ∈ a :: l → f x = g x) → path f a l z → path g a l z.
Proof.
  revert a. induction l as [|x l IH]; intros a Hfg; simpl.
  - intros <-. symmetry. apply Hfg. left.
  - intros [Ha H]. split; [rewrite <- Ha; symmetry; apply Hfg; left|].
    apply IH; [|done]. intros y Hy. apply Hfg. by right.
Qed.

(** Redirecting the last link. *)
Lemma path_redirect f g a l z z' :
  NoDup (a :: l) → path f a l z → g (last_of a l) = Some z' →
  (∀ x, x ∈ a :: l → x ≠ last_of a l → f x = g x) → path g a l z'.
Proof.
  revert a. induction l as [|x l IH]; intros a Hnd; simpl; [done|].
  intros [Ha H] Hg Hfg. rewrite last_of_cons in *. apply NoDup_cons in Hnd as [Hn Hnd].
  split.
  - rewrite <- Ha. symmetry. apply Hfg; [left|].
    intros ->. apply Hn, last_of_elem.
  - apply IH; [done..|]. intros y Hy. apply Hfg. by right.
Qed.

(** Taking [b] out. *)
Lemma path_unlink f g a l1 b l2 z :
  NoDup (a :: l1 ++ b :: l2) → path f a (l1 ++ b :: l2) z →
  g (last_of a l1) = f b →
  (∀ x, x ∈ a :: l1 ++ l2 → x ≠ last_of a l1 → f x = g x) →
  path g a (l1 ++ l2) z.
Proof.
  intros Hnd [H1 H2]%path_app Hg Hfg.
  assert (NoDup (a :: l1)) as Hnd1.
  { rewrite app_comm_cons in Hnd. by apply NoDup_app in Hnd as (? & _ & _). }
  assert (∀ x, x ∈ l2 → x ≠ last_of a l1) as Hl2.
  { intros x Hx ->. rewrite app_comm_cons in Hnd.
    apply NoDup_app in Hnd as (_ & Hd & _).
    apply (Hd (last_of a l1)); [apply last_of_elem|by right]. }
  destruct l2 as [|y l2].
  - rewrite app_nil_r in *. simpl in H2. eapply path_redirect; [done..| |done].
    by rewrite Hg.
  - destruct H2 as [Hb H2]. apply path_app. split.
    + eapply path_redirect; [done|done|by rewrite Hg|].
      intros x Hx. apply Hfg. set_solver.
    + eapply path_ext; [|done]. intros x Hx. apply Hfg; [set_solver|auto].
Qed.

(** Putting [b] right behind [a]. *)
Lemma path_push f g a b l z :
  path f a l z → b ∉ a :: l → a ∉ l → g a = Some b → g b = f a →
  (∀ x, x ∈ l → f x = g x) → path g a (b :: l) z.
Proof.
  intros H Hb Ha Hga Hgb Hfg. split; [done|].
  destruct l as [|y l]; simpl in *; [congruence|].
  destruct H as [Hy H]. split; [congruence|]. eapply path_ext; [|done]. done.
Qed.

(** Putting [b] at the end. *)
Lemma path_snoc f g a b l z :
  NoDup (a :: l) → path f a l z → b ∉ a :: l →
  g (last_of a l) = Some b → g b = Some z →
  (∀ x, x ∈ a :: l → x ≠ last_of a l → f x = g x) → path g a (l ++ [b]) z.
Proof.
  intros Hnd H Hb Hgl Hgb Hfg. apply path_app. split; [|done].
  eapply path_redirect; eauto.
Qed.
End path.
