(* ===== verification/Params.v ===== *)
(** * Constants and formats of the kernel (param.h, fs.h, traps.h, elf.h)

    Every constant keeps its name and its value.  Sizes that index Rocq lists
    also have a [nat] version, written with a [_n] suffix. *)

From S2P Require Import Prelude.

(** param.h *)
Definition NPROC : Z := 64.
Definition KSTACKSIZE : Z := 4096.
Definition NCPU : Z := 8.
Definition NOFILE : Z := 16.
Definition NFILE : Z := 100.
Definition NINODE : Z := 50.
Definition NDEV : Z := 10.
Definition ROOTDEV : Z := 1.
Definition MAXARG : Z := 32.
Definition MAXOPBLOCKS : Z := 10.
Definition LOGSIZE : Z := MAXOPBLOCKS * 3.
Definition NBUF : Z := MAXOPBLOCKS * 3.
Definition FSSIZE : Z := 1000.

Definition NBUF_n : nat := Z.to_nat NBUF.
Definition LOGSIZE_n : nat := Z.to_nat LOGSIZE.

(** fs.h *)
Definition ROOTINO : Z := 1.
Definition BSIZE : Z := 512.
Definition BSIZE_n : nat := Z.to_nat BSIZE.

(** traps.h *)
Definition T_SYSCALL : Z := 64.
Definition T_IRQ0 : Z := 32.
Definition IRQ_TIMER : Z := 0.
Definition IRQ_KBD : Z := 1.
Definition IRQ_COM1 : Z := 4.
Definition IRQ_IDE : Z := 14.
Definition IRQ_ERROR : Z := 19.
Definition IRQ_SPURIOUS : Z := 31.

(** elf.h: the format of an executable file, struct elfhdr and struct proghdr
    as their bytes. *)
Definition ELF_MAGIC : Z := 0x464C457F.
Definition ELF_PROG_LOAD : Z := 1.

Definition sizeof_elfhdr : Z := 52.
Definition elf_magic (elf : list Z) : Z := word_at elf 0.
Definition elf_entry (elf : list Z) : Z := word_at elf 6.
Definition elf_phoff (elf : list Z) : Z := word_at elf 7.
Definition elf_phnum (elf : list Z) : Z := half_at elf 22.

Definition sizeof_proghdr : Z := 32.
Definition ph_type (ph : list Z) : Z := word_at ph 0.
Definition ph_off (ph : list Z) : Z := word_at ph 1.
Definition ph_vaddr (ph : list Z) : Z := word_at ph 2.
Definition ph_paddr (ph : list Z) : Z := word_at ph 3.
Definition ph_filesz (ph : list Z) : Z := word_at ph 4.
Definition ph_memsz (ph : list Z) : Z := word_at ph 5.
