(* ===== verification/Mem.v ===== *)
(** * Byte-addressed memory

    Memory is a finite map from addresses to bytes; an access outside its
    domain is a [Fault].  The kernel's data (physical pages seen through the
    kernel mapping) and the address space of a user process are both such
    maps.  [char] is signed, as gcc has it on the x86. *)

From S2P Require Import Prelude.

Abbreviation mem := (gmap Z Z).

Definition s8 (z : Z) : Z := (z + 128) `mod` 256 - 128.

(** [*a] for an [uchar *] and for a [char *], and [*a = x]. *)
Definition load8 (a : Z) : M mem Z := λ m,
  match m !! a with Some x => Ok x m | None => Fault end.
Definition loadc (a : Z) : M mem Z := x ← load8 a; mret (s8 x).
Definition store8 (a x : Z) : M mem unit := λ m,
  match m !! a with Some _ => Ok tt (<[a := u8 x]> m) | None => Fault end.

(** 16-bit and 32-bit words, little endian. *)
Definition load16 (a : Z) : M mem Z := x0 ← load8 a; x1 ← load8 (a + 1); mret (le_value [x0; x1]).
Definition load32 (a : Z) : M mem Z :=
  x0 ← load8 a; x1 ← load8 (a + 1); x2 ← load8 (a + 2); x3 ← load8 (a + 3);
  mret (le_value [x0; x1; x2; x3]).
Fixpoint store_bytes (a : Z) (l : list Z) : M mem unit :=
  match l with
  | [] => mret tt
  | x :: l => store8 a x;; store_bytes (a + 1) l
  end.
Definition store16 (a x : Z) : M mem unit := store_bytes a (le_bytes 2 x).
Definition store32 (a x : Z) : M mem unit := store_bytes a (le_bytes 4 x).

(** The [n] bytes at [a]. *)
Fixpoint load_bytes (a : Z) (n : nat) : M mem (list Z) :=
  match n with
  | O => mret []
  | S n => x ← load8 a; l ← load_bytes (a + 1) n; mret (x :: l)
  end.

(** ** Describing memory *)

(** The bytes [l] at [a]. *)
Definition bytes_at (m : mem) (a : Z) (l : list Z) : Prop :=
  ∀ i x, l !! i = Some x → m !! (a + Z.of_nat i) = Some x.

(** [n] accessible bytes at [a]. *)
Definition mapped (m : mem) (a : Z) (n : nat) : Prop :=
  ∀ i, (i < n)%nat → is_Some (m !! (a + Z.of_nat i)).

(** The memory with [l] written at [a]. *)
Fixpoint put_bytes (a : Z) (l : list Z) (m : mem) : mem :=
  match l with
  | [] => m
  | x :: l => <[a := x]> (put_bytes (a + 1) l m)
  end.

(** Memory holds bytes. *)
Definition mem_ok (m : mem) : Prop := ∀ a x, m !! a = Some x → byte_ok x.

(** A NUL-terminated string [l] at [a]. *)
Definition cstr (m : mem) (a : Z) (l : list Z) : Prop :=
  bytes_at m a (l ++ [0]) ∧ Forall (λ x, 0 < x < 256) l.

Lemma lookup_put_bytes a l m x :
  put_bytes a l m !! x =
    if decide (a ≤ x < a + Z.of_nat (length l)) then l !! Z.to_nat (x - a) else m !! x.
Proof.
  revert a. induction l as [|y l IH]; intros a; simpl.
  { destruct (decide _); [lia|done]. }
  destruct (decide (x = a)) as [->|Hne].
  - rewrite lookup_insert_eq, decide_True by lia. by replace (Z.to_nat (a - a)) with 0%nat by lia.
  - rewrite lookup_insert_ne, IH by done.
    destruct (decide (a + 1 ≤ x < a + 1 + Z.of_nat (length l))).
    + rewrite decide_True by lia. by replace (Z.to_nat (x - a)) with (S (Z.to_nat (x - (a + 1)))) by lia.
    + by rewrite decide_False by lia.
Qed.

Lemma lookup_put_bytes_ne a l m x :
  ¬ (a ≤ x < a + Z.of_nat (length l)) → put_bytes a l m !! x = m !! x.
Proof. intros. rewrite lookup_put_bytes. by rewrite decide_False. Qed.

Lemma bytes_at_put a l m : bytes_at (put_bytes a l m) a l.
Proof.
  intros i x Hi. pose proof (lookup_lt_Some _ _ _ Hi). rewrite lookup_put_bytes.
  rewrite decide_True by lia. by replace (Z.to_nat (a + Z.of_nat i - a)) with i by lia.
Qed.

Lemma bytes_at_cons m a x l : bytes_at m a (x :: l) ↔ m !! a = Some x ∧ bytes_at m (a + 1) l.
Proof.
  split.
  - intros H. split; [specialize (H 0%nat x eq_refl); by rewrite Z.add_0_r in H|].
    intros i y Hi. rewrite <- (H (S i) y Hi). f_equal. lia.
  - intros [Hx H] [|i] y Hi; simpl in Hi; [simplify_eq; by rewrite Z.add_0_r|].
    rewrite <- (H i y Hi). f_equal. lia.
Qed.

Lemma bytes_at_app m a l k :
  bytes_at m a (l ++ k) ↔ bytes_at m a l ∧ bytes_at m (a + Z.of_nat (length l)) k.
Proof.
  revert a. induction l as [|x l IH]; intros a; simpl.
  - rewrite Z.add_0_r. split; [by split|tauto].
  - rewrite !bytes_at_cons, IH.
    replace (a + Z.of_nat (S (length l))) with (a + 1 + Z.of_nat (length l)) by lia. tauto.
Qed.

(** The part of a longer slice that starts behind its first bytes. *)
Lemma bytes_at_inner m a b off n off' n' l :
  bytes_at m a (slice off n l) → (off ≤ off')%nat → (off' + n' ≤ off + n)%nat →
  b = a + Z.of_nat (off' - off) → bytes_at m b (slice off' n' l).
Proof.
  intros H Ho Hn -> i x. rewrite lookup_slice_Some. intros [Hx Hi].
  replace (a + Z.of_nat (off' - off) + Z.of_nat i) with (a + Z.of_nat (off' - off + i)) by lia.
  apply H, lookup_slice_Some. split; [|lia]. rewrite <- Hx. f_equal. lia.
Qed.

Lemma bytes_at_put_ne m a l b k :
  bytes_at m a l → a + Z.of_nat (length l) ≤ b ∨ b + Z.of_nat (length k) ≤ a →
  bytes_at (put_bytes b k m) a l.
Proof.
  intros H Hd i x Hx. pose proof (lookup_lt_Some _ _ _ Hx). rewrite lookup_put_bytes_ne by lia. by apply H.
Qed.

Lemma bytes_at_mapped m a l : bytes_at m a l → mapped m a (length l).
Proof. intros H i Hi. destruct (lookup_lt_is_Some_2 l i Hi) as [x Hx]. eauto. Qed.

Lemma bytes_at_inj m a l k : bytes_at m a l → bytes_at m a k → length l = length k → l = k.
Proof.
  revert a k. induction l as [|x l IH]; intros a [|y k]; try done.
  rewrite !bytes_at_cons. intros [E1 H1] [E2 H2] [=]. f_equal; [congruence|]. by eapply IH.
Qed.

Lemma mapped_S m a n : mapped m a (S n) ↔ is_Some (m !! a) ∧ mapped m (a + 1) n.
Proof.
  split.
  - intros H. split; [specialize (H 0%nat ltac:(lia)); by rewrite Z.add_0_r in H|].
    intros i Hi. specialize (H (S i) ltac:(lia)).
    by replace (a + 1 + Z.of_nat i) with (a + Z.of_nat (S i)) by lia.
  - intros [H0 H] [|i] Hi; [by rewrite Z.add_0_r|]. specialize (H i ltac:(lia)).
    by replace (a + Z.of_nat (S i)) with (a + 1 + Z.of_nat i) by lia.
Qed.

Lemma mapped_bytes m a n : mapped m a n → ∃ l, length l = n ∧ bytes_at m a l.
Proof.
  revert a. induction n as [|n IH]; intros a H; [by exists []|].
  apply mapped_S in H as [[x Hx] (l & <- & Hl)%IH]. exists (x :: l).
  split; [done|]. by apply bytes_at_cons.
Qed.

Lemma mapped_insert m a n b x : mapped m a n → mapped (<[b := x]> m) a n.
Proof.
  intros H i Hi. destruct (decide (b = a + Z.of_nat i)) as [->|].
  - rewrite lookup_insert_eq. eauto.
  - rewrite lookup_insert_ne by done. auto.
Qed.

Lemma mem_ok_insert m a x : mem_ok m → byte_ok x → mem_ok (<[a := x]> m).
Proof. intros H Hx b y. rewrite lookup_insert_Some. intros [[_ <-]|[_ ?]]; eauto. Qed.

Lemma mem_ok_put m a l : mem_ok m → Forall byte_ok l → mem_ok (put_bytes a l m).
Proof.
  intros H Hl. revert a. induction Hl as [|x l Hx _ IH]; intros a; [done|]. by apply mem_ok_insert.
Qed.

Lemma mem_ok_bytes m a l : mem_ok m → bytes_at m a l → Forall byte_ok l.
Proof. intros H Hl. apply Forall_lookup. intros i x Hx. eapply H, Hl, Hx. Qed.

Lemma put_bytes_comm a x b l m :
  a + 1 ≤ b ∨ b + Z.of_nat (length l) ≤ a →
  <[a := x]> (put_bytes b l m) = put_bytes b l (<[a := x]> m).
Proof.
  intros H. apply map_eq. intros c. rewrite lookup_put_bytes.
  destruct (decide (a = c)) as [->|].
  - by rewrite !lookup_insert_eq, decide_False by lia.
  - rewrite !lookup_insert_ne by done. by rewrite lookup_put_bytes.
Qed.

(** ** The accesses *)

Lemma u8_small x : 0 ≤ x < 256 → u8 x = x.
Proof. intros. unfold u8. by apply Z.mod_small. Qed.

Lemma load8_ok m a x : m !! a = Some x → load8 a m = Ok x m.
Proof. unfold load8. by intros ->. Qed.

Lemma loadc_ok m a x : m !! a = Some x → loadc a m = Ok (s8 x) m.
Proof. unfold loadc. intros H. by rewrite (bind_ok _ _ _ _ _ (load8_ok _ _ _ H)). Qed.

Lemma store8_ok m a x : is_Some (m !! a) → store8 a x m = Ok tt (<[a := u8 x]> m).
Proof. unfold store8. by intros [? ->]. Qed.

Lemma store_bytes_ok m a l :
  mapped m a (length l) → store_bytes a l m = Ok tt (put_bytes a (u8 <$> l) m).
Proof.
  revert m a. induction l as [|x l IH]; intros m a H; [done|].
  apply mapped_S in H as [Ha Hm]. simpl.
  mstep (store8_ok m a x Ha). rewrite IH by (by apply mapped_insert).
  rewrite put_bytes_comm; [done|lia].
Qed.

Lemma load_bytes_ok m a l : bytes_at m a l → load_bytes a (length l) m = Ok l m.
Proof.
  revert a. induction l as [|x l IH]; intros a H; [done|]. apply bytes_at_cons in H as [Hx Hl].
  cbn [length load_bytes]. mstep (load8_ok _ _ _ Hx). by mstep (IH _ Hl).
Qed.

(** A signed [char] is zero exactly when the byte is, and keeps equality. *)
Lemma s8_inj x y : byte_ok x → byte_ok y → s8 x = s8 y → x = y.
Proof. unfold byte_ok, s8. intros. Z.div_mod_to_equations. lia. Qed.
Lemma s8_0 x : byte_ok x → s8 x = 0 ↔ x = 0.
Proof. unfold byte_ok, s8. intros. split; intros; [Z.div_mod_to_equations; lia|by subst]. Qed.
Lemma u8_s8 x : byte_ok x → u8 (s8 x) = x.
Proof. unfold byte_ok, s8, u8. intros. Z.div_mod_to_equations. lia. Qed.

#[export] Hint Resolve load8_ok loadc_ok store8_ok : xv6.

(** ** Words in memory *)

(** The 32-bit word at [a]. *)
Definition get32 (m : mem) (a : Z) : option Z :=
  x0 ← m !! a; x1 ← m !! (a + 1); x2 ← m !! (a + 2); x3 ← m !! (a + 3);
  Some (le_value [x0; x1; x2; x3]).

Lemma load32_ok m a w : get32 m a = Some w → load32 a m = Ok w m.
Proof.
  unfold get32, load32. intros H.
  destruct (m !! a) as [x0|] eqn:E0; [|done]. mstep (load8_ok _ _ _ E0). cbn in H.
  destruct (m !! (a + 1)) as [x1|] eqn:E1; [|done]. mstep (load8_ok _ _ _ E1). cbn in H.
  destruct (m !! (a + 2)) as [x2|] eqn:E2; [|done]. mstep (load8_ok _ _ _ E2). cbn in H.
  destruct (m !! (a + 3)) as [x3|] eqn:E3; [|done]. mstep (load8_ok _ _ _ E3). by injection H as <-.
Qed.

Lemma u8_le_bytes n x : u8 <$> le_bytes n x = le_bytes n x.
Proof.
  apply list_eq_Forall2, Forall2_fmap_l, Forall2_same_length_lookup_2; [done|].
  intros i y y' Hy Hy'. simplify_eq. apply u8_small.
  pose proof (le_bytes_ok n x) as Hok. rewrite Forall_lookup in Hok. by apply Hok in Hy.
Qed.

Lemma u8_bytes l : Forall byte_ok l → u8 <$> l = l.
Proof.
  induction 1 as [|x l Hx _ IH]; [done|]. rewrite fmap_cons, IH. f_equal. by apply u8_small.
Qed.

Lemma store16_ok m a x : mapped m a 2 → store16 a x m = Ok tt (put_bytes a (le_bytes 2 x) m).
Proof.
  intros Hm. unfold store16. rewrite store_bytes_ok by (by rewrite length_le_bytes). by rewrite u8_le_bytes.
Qed.

Lemma store32_ok m a x : mapped m a 4 → store32 a x m = Ok tt (put_bytes a (le_bytes 4 x) m).
Proof.
  intros Hm. unfold store32. rewrite store_bytes_ok by (by rewrite length_le_bytes).
  by rewrite u8_le_bytes.
Qed.

Lemma get32_bytes m a l : bytes_at m a l → length l = 4%nat → get32 m a = Some (le_value l).
Proof.
  destruct l as [|x0 [|x1 [|x2 [|x3 [|]]]]]; try done. intros H _.
  repeat rewrite bytes_at_cons in H. destruct H as (H0 & H1 & H2 & H3 & _).
  replace (a + 1 + 1) with (a + 2) in * by lia. replace (a + 2 + 1) with (a + 3) in * by lia.
  unfold get32. by rewrite H0, H1, H2, H3.
Qed.

Lemma get32_put_eq m a x : get32 (put_bytes a (le_bytes 4 x) m) a = Some (u32 x).
Proof.
  rewrite (get32_bytes _ _ (le_bytes 4 x)); [|apply bytes_at_put|apply length_le_bytes].
  by rewrite le_value_bytes.
Qed.

Lemma get32_ext m m' a :
  (∀ i, 0 ≤ i < 4 → m' !! (a + i) = m !! (a + i)) → get32 m' a = get32 m a.
Proof.
  intros H. unfold get32. rewrite !(H 1), !(H 2), !(H 3) by lia.
  specialize (H 0 ltac:(lia)). rewrite Z.add_0_r in H. by rewrite H.
Qed.

Lemma get32_put_ne m a b l :
  b + 4 ≤ a ∨ a + Z.of_nat (length l) ≤ b → get32 (put_bytes a l m) b = get32 m b.
Proof. intros H. apply get32_ext. intros i Hi. apply lookup_put_bytes_ne. lia. Qed.

Lemma get32_mapped m a : mapped m a 4 → is_Some (get32 m a).
Proof.
  intros (l & Hlen & Hl)%mapped_bytes. rewrite (get32_bytes _ _ l Hl Hlen). eauto.
Qed.
