(* ===== verification/Str.v ===== *)
(** * Memory and string routines (string.c, ulib.c)

    [Kern] holds the kernel's string.c and [Ulib] the user library's ulib.c.
    Loops that count down an argument recurse on it; loops that look for a
    NUL take fuel, and return the result whenever the fuel exceeds the length
    of the string. *)

From S2P Require Import Prelude Mem.

(** [rep stosb]: [n] bytes [c] at [d]; [rep stosl]: [n] words [x] at [d]. *)
Fixpoint stosb (n : nat) (d c : Z) : M mem unit :=
  match n with
  | O => mret tt
  | S n => store8 d c;; stosb n (d + 1) c
  end.

Fixpoint stosl (n : nat) (d x : Z) : M mem unit :=
  match n with
  | O => mret tt
  | S n => store32 d x;; stosl n (d + 4) x
  end.

(** [while(n-- > 0) *d++ = *s++;] *)
Fixpoint copy_up (n : nat) (d s : Z) : M mem unit :=
  match n with
  | O => mret tt
  | S n => x ← load8 s; store8 d x;; copy_up n (d + 1) (s + 1)
  end.

(** [while(n-- > 0) *--d = *--s;] *)
Fixpoint copy_down (n : nat) (d s : Z) : M mem unit :=
  match n with
  | O => mret tt
  | S n => x ← load8 (s - 1); store8 (d - 1) x;; copy_down n (d - 1) (s - 1)
  end.

(** [for(n = 0; s[n]; n++);] *)
Fixpoint strlen_loop (fuel : nat) (s n : Z) : M mem Z :=
  match fuel with
  | O => nofuel
  | S fuel => c ← loadc (s + n); if c =? 0 then mret n else strlen_loop fuel s (n + 1)
  end.

Module Kern.

Definition memset (dst c n : Z) : M mem Z :=
  (if (Z.rem (s32 dst) 4 =? 0) && (n `mod` 4 =? 0) then
     let c := Z.land c 255 in
     stosl (Z.to_nat (n `div` 4)) dst
       (u32 (Z.lor (Z.lor (Z.lor (Z.shiftl c 24) (Z.shiftl c 16)) (Z.shiftl c 8)) c))
   else stosb (Z.to_nat n) dst c);;
  mret dst.

Fixpoint memcmp_loop (n : nat) (s1 s2 : Z) : M mem Z :=
  match n with
  | O => mret 0
  | S n =>
      x ← load8 s1; y ← load8 s2;
      if x =? y then memcmp_loop n (s1 + 1) (s2 + 1) else mret (x - y)
  end.
Definition memcmp (v1 v2 n : Z) : M mem Z := memcmp_loop (Z.to_nat n) v1 v2.

Definition memmove (dst src n : Z) : M mem Z :=
  (if (src <? dst) && (dst <? src + n)
   then copy_down (Z.to_nat n) (dst + n) (src + n)
   else copy_up (Z.to_nat n) dst src);;
  mret dst.

Definition memcpy (dst src n : Z) : M mem Z := memmove dst src n.

Fixpoint strncmp_loop (n : nat) (p q : Z) : M mem Z :=
  match n with
  | O => mret 0
  | S n' =>
      x ← loadc p;
      if x =? 0 then y ← loadc q; mret (u8 x - u8 y)
      else
        y ← loadc q;
        if x =? y then strncmp_loop n' (p + 1) (q + 1) else mret (u8 x - u8 y)
  end.
Definition strncmp (p q n : Z) : M mem Z := strncmp_loop (Z.to_nat n) p q.

(** The copying loop of [strncpy]; gives the room left and the next
    destination. *)
Fixpoint strncpy_copy (n : nat) (s t : Z) : M mem (nat * Z) :=
  match n with
  | O => mret (0%nat, s)
  | S n =>
      x ← loadc t;
      store8 s x;;
      if x =? 0 then mret (n, s + 1) else strncpy_copy n (s + 1) (t + 1)
  end.
Definition strncpy (s t n : Z) : M mem Z :=
  r ← strncpy_copy (Z.to_nat n) s t;
  stosb r.1 r.2 0;;
  mret s.

Definition safestrcpy (s t n : Z) : M mem Z :=
  if n <=? 0 then mret s
  else
    r ← strncpy_copy (Z.to_nat (n - 1)) s t;
    store8 r.2 0;;
    mret s.

Definition strlen (fuel : nat) (s : Z) : M mem Z := strlen_loop fuel s 0.

End Kern.

Module Ulib.

Fixpoint strcpy_loop (fuel : nat) (s t : Z) : M mem unit :=
  match fuel with
  | O => nofuel
  | S fuel =>
      x ← loadc t;
      store8 s x;;
      if x =? 0 then mret tt else strcpy_loop fuel (s + 1) (t + 1)
  end.
Definition strcpy (fuel : nat) (s t : Z) : M mem Z := strcpy_loop fuel s t;; mret s.

Fixpoint strcmp (fuel : nat) (p q : Z) : M mem Z :=
  match fuel with
  | O => nofuel
  | S fuel =>
      x ← loadc p;
      if x =? 0 then y ← loadc q; mret (u8 x - u8 y)
      else
        y ← loadc q;
        if x =? y then strcmp fuel (p + 1) (q + 1) else mret (u8 x - u8 y)
  end.

Definition strlen (fuel : nat) (s : Z) : M mem Z := n ← strlen_loop fuel s 0; mret (u32 n).

Definition memset (dst c n : Z) : M mem Z := stosb (Z.to_nat n) dst c;; mret dst.

(** The result 0 is the null pointer. *)
Fixpoint strchr (fuel : nat) (s c : Z) : M mem Z :=
  match fuel with
  | O => nofuel
  | S fuel =>
      x ← loadc s;
      if x =? 0 then mret 0 else if x =? c then mret s else strchr fuel (s + 1) c
  end.

(** [gets]: the state also holds the bytes that successive calls of
    [read(0, &c, 1)] will deliver; at the end of them [read] returns 0. *)
Fixpoint gets_loop (n : nat) (buf i : Z) (inp : list Z) : M mem (Z * list Z) :=
  match n with
  | O => mret (i, inp)
  | S n =>
      match inp with
      | [] => mret (i, [])
      | c :: inp =>
          store8 (buf + i) c;;
          if (c =? 10) || (c =? 13) then mret (i + 1, inp) else gets_loop n buf (i + 1) inp
      end
  end.
Definition gets (buf max : Z) (inp : list Z) : M mem (Z * list Z) :=
  r ← gets_loop (Z.to_nat (max - 1)) buf 0 inp;
  store8 (buf + r.1) 0;;
  mret (buf, r.2).

Fixpoint atoi_loop (fuel : nat) (s n : Z) : M mem Z :=
  match fuel with
  | O => nofuel
  | S fuel =>
      c ← loadc s;
      if (48 <=? c) && (c <=? 57) then atoi_loop fuel (s + 1) (s32 (s32 (n * 10) + c - 48)) else mret n
  end.
Definition atoi (fuel : nat) (s : Z) : M mem Z := atoi_loop fuel s 0.

Definition memmove (vdst vsrc n : Z) : M mem Z := copy_up (Z.to_nat n) vdst vsrc;; mret vdst.

End Ulib.

(** ** Block copies and fills *)

Lemma stosb_ok n m d c :
  mapped m d n → stosb n d c m = Ok tt (put_bytes d (replicate n (u8 c)) m).
Proof.
  revert m d. induction n as [|n IH]; intros m d H; [done|].
  apply mapped_S in H as [Hd Hm]. simpl. mstep (store8_ok m d c Hd).
  rewrite IH by (by apply mapped_insert). rewrite put_bytes_comm; [done|lia].
Qed.

Lemma put_bytes_app a l k m :
  put_bytes a (l ++ k) m = put_bytes a l (put_bytes (a + Z.of_nat (length l)) k m).
Proof.
  revert a. induction l as [|x l IH]; intros a; simpl; [by rewrite Z.add_0_r|].
  rewrite IH. do 3 f_equal. lia.
Qed.

Lemma mapped_put m a n b l : mapped m a n → mapped (put_bytes b l m) a n.
Proof.
  revert b. induction l as [|x l IH]; intros b H; simpl; [done|]. by apply mapped_insert, IH.
Qed.

Lemma mapped_app m a i n : mapped m a (i + n) ↔ mapped m a i ∧ mapped m (a + Z.of_nat i) n.
Proof.
  split.
  - intros H. split; [intros j Hj; apply H; lia|]. intros j Hj.
    replace (a + Z.of_nat i + Z.of_nat j) with (a + Z.of_nat (i + j)) by lia. apply H. lia.
  - intros [H1 H2] j Hj. destruct (decide (j < i)%nat); [by apply H1|].
    replace (a + Z.of_nat j) with (a + Z.of_nat i + Z.of_nat (j - i)) by lia. apply H2. lia.
Qed.

Lemma put_bytes_comm2 a l b k m :
  a + Z.of_nat (length l) ≤ b → put_bytes b k (put_bytes a l m) = put_bytes a l (put_bytes b k m).
Proof.
  intros H. apply map_eq. intros c. rewrite !lookup_put_bytes.
  repeat destruct (decide _); try done; lia.
Qed.

Lemma stosl_ok n m d x :
  mapped m d (4 * n) →
  stosl n d x m = Ok tt (put_bytes d (concat (replicate n (le_bytes 4 x))) m).
Proof.
  revert m d. induction n as [|n IH]; intros m d H; [done|].
  replace (4 * S n)%nat with (4 + 4 * n)%nat in H by lia. apply mapped_app in H as [H1 H2].
  change (stosl (S n) d x) with (store32 d x;; stosl n (d + 4) x). unfold store32.
  erewrite bind_ok by (apply store_bytes_ok; rewrite length_le_bytes; exact H1).
  rewrite IH by (by apply mapped_put).
  assert (u8 <$> le_bytes 4 x = le_bytes 4 x) as E.
  { apply list_eq_Forall2, Forall2_fmap_l, Forall2_same_length_lookup_2; [done|].
    intros i y y' Hy Hy'. simplify_eq. apply u8_small.
    pose proof (le_bytes_ok 4 x) as Hok. rewrite Forall_lookup in Hok. by apply Hok in Hy. }
  rewrite E. cbn [replicate concat]. rewrite put_bytes_app, length_le_bytes.
  rewrite put_bytes_comm2 by (rewrite length_le_bytes; lia). done.
Qed.

Lemma bytes_at_insert m a l b x :
  bytes_at m a l → b < a ∨ a + Z.of_nat (length l) ≤ b → bytes_at (<[b := x]> m) a l.
Proof.
  intros H Hb i y Hi. pose proof (lookup_lt_Some _ _ _ Hi).
  rewrite lookup_insert_ne by lia. by apply H.
Qed.

Lemma copy_up_ok m d s l :
  bytes_at m s l → mapped m d (length l) → Forall byte_ok l →
  d ≤ s ∨ s + Z.of_nat (length l) ≤ d →
  copy_up (length l) d s m = Ok tt (put_bytes d l m).
Proof.
  revert m d s. induction l as [|x l IH]; intros m d s Hs Hd Hl Hov; [done|].
  apply bytes_at_cons in Hs as [Hx Hs]. apply mapped_S in Hd as [Hd0 Hd].
  apply Forall_cons in Hl as [Hx8 Hl]. simpl in *.
  mstep (load8_ok m s x Hx). mstep (store8_ok m d x Hd0). rewrite u8_small by exact Hx8.
  rewrite IH; [rewrite put_bytes_comm; [done|lia]| |by apply mapped_insert|done|lia].
  apply bytes_at_insert; [done|lia].
Qed.

Lemma copy_down_ok m d s l :
  bytes_at m s l → mapped m d (length l) → Forall byte_ok l → s ≤ d →
  copy_down (length l) (d + Z.of_nat (length l)) (s + Z.of_nat (length l)) m =
    Ok tt (put_bytes d l m).
Proof.
  revert m. induction l as [|x l IH] using rev_ind; intros m Hs Hd Hl Hsd; [done|].
  apply bytes_at_app in Hs as [Hs Hx]. apply bytes_at_cons in Hx as [Hx _].
  rewrite length_app in *. simpl in *. apply mapped_app in Hd as [Hd Hd0].
  apply mapped_S in Hd0 as [Hd0 _]. apply Forall_app in Hl as [Hl Hx8].
  apply Forall_cons in Hx8 as [Hx8 _].
  replace (length l + 1)%nat with (S (length l)) by lia. cbn [copy_down].
  replace (s + Z.of_nat (S (length l)) - 1) with (s + Z.of_nat (length l)) by lia.
  replace (d + Z.of_nat (S (length l)) - 1) with (d + Z.of_nat (length l)) by lia.
  mstep (load8_ok m _ x Hx). mstep (store8_ok m _ x Hd0). rewrite u8_small by exact Hx8.
  rewrite IH; [|apply bytes_at_insert; [done|lia]|by apply mapped_insert|done|done].
  by rewrite put_bytes_app.
Qed.

Lemma memmove_ok m dst src l :
  bytes_at m src l → mapped m dst (length l) → Forall byte_ok l →
  Kern.memmove dst src (Z.of_nat (length l)) m = Ok dst (put_bytes dst l m).
Proof.
  intros Hs Hd Hl. unfold Kern.memmove. rewrite Nat2Z.id.
  destruct (Z.ltb_spec src dst); simpl; [destruct (Z.ltb_spec dst (src + Z.of_nat (length l)))|].
  - mstep (copy_down_ok m dst src l Hs Hd Hl ltac:(lia)). done.
  - mstep (copy_up_ok m dst src l Hs Hd Hl ltac:(lia)). done.
  - mstep (copy_up_ok m dst src l Hs Hd Hl ltac:(lia)). done.
Qed.

(** the kernel's [memmove] and [memcpy] copy [n] bytes as they were
    before the call, however source and destination overlap, and change
    nothing else. *)
Theorem memmove_correct m dst src l :
  bytes_at m src l → mapped m dst (length l) → Forall byte_ok l →
  ∃ m', Kern.memmove dst src (Z.of_nat (length l)) m = Ok dst m' ∧
    Kern.memcpy dst src (Z.of_nat (length l)) m = Ok dst m' ∧ bytes_at m' dst l ∧
    ∀ a, ¬ (dst ≤ a < dst + Z.of_nat (length l)) → m' !! a = m !! a.
Proof.
  intros Hs Hd Hl. exists (put_bytes dst l m). split; [by apply memmove_ok|].
  split; [by apply memmove_ok|]. split; [apply bytes_at_put|]. apply lookup_put_bytes_ne.
Qed.

(** Six bytes at address 100. *)
Definition ex_mem : mem := put_bytes 100 [97; 98; 99; 100; 101; 102] ∅.

Lemma memmove_correct_witness :
  ∃ m', Kern.memmove 102 100 4 ex_mem = Ok 102 m' ∧ bytes_at m' 102 [97; 98; 99; 100].
Proof.
  destruct (memmove_correct ex_mem 102 100 [97; 98; 99; 100]) as (m' & E & _ & H & _).
  - repeat (apply bytes_at_cons; split; [reflexivity|]). intros i x Hi. done.
  - repeat (apply mapped_S; split; [eexists; reflexivity|]). intros i Hi. lia.
  - repeat constructor; vm_compute; congruence.
  - exists m'. split; [exact E|exact H].
Defined.

(** The user library's [memmove] only copies upwards: it needs a destination
    that does not start inside the source. *)
Lemma user_memmove_ok m dst src l :
  bytes_at m src l → mapped m dst (length l) → Forall byte_ok l →
  dst ≤ src ∨ src + Z.of_nat (length l) ≤ dst →
  Ulib.memmove dst src (Z.of_nat (length l)) m = Ok dst (put_bytes dst l m).
Proof.
  intros Hs Hd Hl Hov. unfold Ulib.memmove. rewrite Nat2Z.id.
  by mstep (copy_up_ok m dst src l Hs Hd Hl Hov).
Qed.

(** Moving three bytes up by one smears the first of them. *)
Lemma user_memmove_smears :
  Ulib.memmove 101 100 3 ex_mem = Ok 101 (put_bytes 101 [97; 97; 97] ex_mem) ∧
  Kern.memmove 101 100 3 ex_mem = Ok 101 (put_bytes 101 [97; 98; 99] ex_mem).
Proof. split; by vm_compute. Qed.

(** ** memset *)

(** The word that [memset] stores has [c] in each of its bytes. *)
Lemma memset_word c :
  byte_ok c →
  le_bytes 4 (u32 (Z.lor (Z.lor (Z.lor (Z.shiftl c 24) (Z.shiftl c 16)) (Z.shiftl c 8)) c)) =
    replicate 4 c.
Proof.
  intros Hc. set (P := λ c, bool_decide (le_bytes 4 (u32 (Z.lor (Z.lor (Z.lor (Z.shiftl c 24)
    (Z.shiftl c 16)) (Z.shiftl c 8)) c)) = replicate 4 c)).
  assert (forallb P (seqZ 0 256) = true) as H by (vm_compute; reflexivity).
  rewrite forallb_forall in H. apply (bool_decide_eq_true_1 _), (H c).
  apply list_elem_of_In, elem_of_seqZ. unfold byte_ok in Hc. lia.
Qed.

Lemma concat_replicate {A} (x : A) n k : concat (replicate n (replicate k x)) = replicate (k * n) x.
Proof.
  induction n as [|n IH]; simpl; [by rewrite Nat.mul_0_r|].
  rewrite IH, <- replicate_add. f_equal. lia.
Qed.

Lemma memset_ok m dst c n :
  0 ≤ n → mapped m dst (Z.to_nat n) →
  Kern.memset dst c n m = Ok dst (put_bytes dst (replicate (Z.to_nat n) (u8 c)) m).
Proof.
  intros Hn Hm. unfold Kern.memset.
  destruct ((Z.rem (s32 dst) 4 =? 0) && (n `mod` 4 =? 0)) eqn:E.
  - apply andb_prop in E as [_ E%Z.eqb_eq].
    assert (Z.land c 255 = u8 c) as -> by apply (Z.land_ones c 8 ltac:(lia)).
    assert (Z.to_nat n = 4 * Z.to_nat (n `div` 4))%nat as En by (Z.div_mod_to_equations; lia).
    rewrite En in *. erewrite bind_ok by (apply stosl_ok; exact Hm).
    rewrite memset_word, concat_replicate by (apply Z.mod_pos_bound; lia). done.
  - by mstep (stosb_ok (Z.to_nat n) m dst c Hm).
Qed.

(** [memset] fills [n] bytes with the low byte of [c] and changes
    nothing else, whether it takes the path that stores words or the one that
    stores bytes. *)
Theorem memset_correct m dst c n :
  0 ≤ n → mapped m dst (Z.to_nat n) →
  ∃ m', Kern.memset dst c n m = Ok dst m' ∧
    ∀ a, m' !! a = if decide (dst ≤ a < dst + n) then Some (u8 c) else m !! a.
Proof.
  intros Hn Hm. eexists. split; [by apply memset_ok|]. intros a.
  rewrite lookup_put_bytes, length_replicate, Z2Nat.id by done.
  destruct (decide _); [|done]. apply lookup_replicate_2. lia.
Qed.

Lemma memset_correct_witness :
  ∃ m' m'', Kern.memset 100 (-1) 4 ex_mem = Ok 100 m' ∧ m' !! 103 = Some 255 ∧ m' !! 104 = Some 101 ∧
    Kern.memset 101 (-1) 3 ex_mem = Ok 101 m'' ∧ m'' !! 100 = Some 97 ∧ m'' !! 101 = Some 255.
Proof.
  destruct (memset_correct ex_mem 100 (-1) 4) as (m' & E & H); [lia|..].
  { repeat (apply mapped_S; split; [eexists; reflexivity|]); intros i Hi; lia. }
  destruct (memset_correct ex_mem 101 (-1) 3) as (m'' & E' & H'); [lia|..].
  { repeat (apply mapped_S; split; [eexists; reflexivity|]); intros i Hi; lia. }
  exists m', m''. rewrite !H, !H'. split; [exact E|]. split; [reflexivity|]. split; [reflexivity|].
  split; [exact E'|]. split; reflexivity.
Defined.

(** ** Comparison *)

(** Lexicographic order of byte strings. *)
Fixpoint lex_lt (l k : list Z) : bool :=
  match l, k with
  | _, [] => false
  | [], _ :: _ => true
  | x :: l, y :: k => (x <? y) || (x =? y) && lex_lt l k
  end.

Lemma cstr_cons m a x l : cstr m a (x :: l) ↔ 0 < x < 256 ∧ m !! a = Some x ∧ cstr m (a + 1) l.
Proof. unfold cstr. simpl. rewrite bytes_at_cons, Forall_cons. tauto. Qed.

Lemma cstr_nil m a : cstr m a [] ↔ m !! a = Some 0.
Proof.
  unfold cstr. simpl. rewrite bytes_at_cons. split; [tauto|]. intros H. split; [|constructor].
  split; [done|]. intros i x Hi. done.
Qed.

Lemma loadc_first m a l :
  cstr m a l → loadc a m = Ok (s8 (default 0 (head l))) m.
Proof.
  destruct l as [|x l]; simpl.
  - intros H%cstr_nil. by apply loadc_ok.
  - intros (_ & H & _)%cstr_cons. by apply loadc_ok.
Qed.

Lemma byte_ok_pos x : 0 < x < 256 → byte_ok x.
Proof. unfold byte_ok. lia. Qed.
#[local] Hint Resolve byte_ok_pos : xv6.

Lemma s8_eqb x y : byte_ok x → byte_ok y → (s8 x =? s8 y) = (x =? y).
Proof.
  intros Hx Hy. destruct (Z.eqb_spec x y) as [->|Hne]; [apply Z.eqb_refl|].
  apply Z.eqb_neq. intros E. by apply Hne, s8_inj.
Qed.

Lemma s8_eqb0 x : byte_ok x → (s8 x =? 0) = (x =? 0).
Proof. intros Hx. apply (s8_eqb x 0 Hx). done. Qed.

Lemma head_byte_ok m a l : cstr m a l → byte_ok (default 0 (head l)).
Proof. destruct l; simpl; [done|]. intros (? & _)%cstr_cons. auto with xv6. Qed.

(** [strncmp] compares the first [n] characters of two strings, as
    unsigned bytes: zero when they agree, negative when the first string
    precedes the second. *)
Theorem strncmp_correct m p q l k n :
  cstr m p l → cstr m q k →
  ∃ r, Kern.strncmp p q n m = Ok r m ∧
    (r = 0 ↔ take (Z.to_nat n) l = take (Z.to_nat n) k) ∧
    (r < 0 ↔ lex_lt (take (Z.to_nat n) l) (take (Z.to_nat n) k) = true).
Proof.
  unfold Kern.strncmp. generalize (Z.to_nat n) as i. clear n. intros i.
  revert p q l k. induction i as [|i IH]; intros p q l k Hp Hq; [by exists 0|].
  pose proof (head_byte_ok _ _ _ Hp) as Bp. pose proof (head_byte_ok _ _ _ Hq) as Bq.
  cbn [Kern.strncmp_loop]. mstep (loadc_first _ _ _ Hp). rewrite s8_eqb0 by done.
  destruct l as [|x l]; simpl in *.
  - mstep (loadc_first _ _ _ Hq). rewrite !u8_s8 by done.
    eexists. split; [reflexivity|]. destruct k as [|y k]; simpl; [done|].
    apply cstr_cons in Hq as (? & _). split; split; intros; (lia || done).
  - apply cstr_cons in Hp as (Rx & Hx & Hp). destruct (Z.eqb_spec x 0); [lia|].
    mstep (loadc_first _ _ _ Hq). rewrite s8_eqb, !u8_s8 by done.
    destruct k as [|y k]; simpl in *.
    + destruct (Z.eqb_spec x 0); [lia|]. eexists. split; [reflexivity|].
      split; split; intros; (lia || done).
    + apply cstr_cons in Hq as (Ry & Hy & Hq). destruct (Z.eqb_spec x y) as [->|Hne].
      * destruct (IH _ _ _ _ Hp Hq) as (r & E & H0 & Hlt). exists r. split; [done|].
        rewrite H0, Hlt, Z.ltb_irrefl. simpl. split; [|done]. split; [by intros ->|by intros [=]].
      * eexists. split; [reflexivity|]. split; [split; [lia|by intros [=]]|].
        rewrite andb_false_l, orb_false_r, Z.ltb_lt. lia.
Qed.

Definition ex_strs : mem := put_bytes 100 [104; 105; 0] (put_bytes 200 [104; 200; 33; 0] ∅).

Lemma strncmp_correct_witness :
  ∃ r, Kern.strncmp 100 200 5 ex_strs = Ok r ex_strs ∧
    (r < 0 ↔ lex_lt [104; 105] [104; 200; 33] = true).
Proof.
  destruct (strncmp_correct ex_strs 100 200 [104; 105] [104; 200; 33] 5) as (r & E & _ & H).
  - repeat (apply cstr_cons; split; [lia|split; [reflexivity|]]). by apply cstr_nil.
  - repeat (apply cstr_cons; split; [lia|split; [reflexivity|]]). by apply cstr_nil.
  - by exists r.
Defined.

(** ** Copies of strings *)

Lemma put_bytes_cstr_ne m s k t l :
  cstr m t l → s + Z.of_nat (length k) ≤ t ∨ t + Z.of_nat (length l) < s →
  cstr (put_bytes s k m) t l.
Proof.
  intros [H Hl] Hov. split; [|done]. intros i x Hi.
  pose proof (lookup_lt_Some _ _ _ Hi) as Hlt. rewrite length_app in Hlt. simpl in Hlt.
  rewrite lookup_put_bytes_ne by lia. by apply H.
Qed.

Lemma cstr_insert_ne m s x t l :
  cstr m t l → s < t ∨ t + Z.of_nat (length l) < s → cstr (<[s := x]> m) t l.
Proof. intros H Hs. apply (put_bytes_cstr_ne m s [x] t l H). simpl. lia. Qed.

(** The copying loop stores the characters and the NUL, as far as [n] goes. *)
Lemma strncpy_copy_ok n m s t l :
  cstr m t l → mapped m s n →
  s + Z.of_nat n ≤ t ∨ t + Z.of_nat (length l) < s →
  Kern.strncpy_copy n s t m =
    Ok ((n - S (length l))%nat, s + Z.of_nat (n `min` S (length l)))
       (put_bytes s (take n (l ++ [0])) m).
Proof.
  revert m s t l. induction n as [|n IH]; intros m s t l Ht Hm Hov.
  { simpl. by rewrite Z.add_0_r. }
  apply mapped_S in Hm as [Hs Hm]. pose proof (head_byte_ok _ _ _ Ht) as B.
  cbn [Kern.strncpy_copy]. mstep (loadc_first _ _ _ Ht).
  mstep (store8_ok m s (s8 (default 0 (head l))) Hs). rewrite u8_s8, s8_eqb0 by done.
  destruct l as [|x l]; simpl in *.
  - unfold mret, M_ret. rewrite Nat.sub_0_r, take_nil, Nat.min_0_r. simpl. done.
  - apply cstr_cons in Ht as (Rx & Hx & Ht). destruct (Z.eqb_spec x 0); [lia|].
    rewrite (IH _ _ _ l); [|apply cstr_insert_ne; [done|lia]|by apply mapped_insert|lia].
    rewrite put_bytes_comm by lia. f_equal. f_equal. lia.
Qed.

(** [safestrcpy] into a buffer of [n > 0] bytes always leaves a
    terminated string there, the longest prefix of the source that fits, and
    writes nothing outside the buffer. *)
Theorem safestrcpy_correct m s t l n :
  0 < n → cstr m t l → mapped m s (Z.to_nat n) →
  s + n ≤ t ∨ t + Z.of_nat (length l) < s →
  ∃ m', Kern.safestrcpy s t n m = Ok s m' ∧ cstr m' s (take (Z.to_nat (n - 1)) l) ∧
    ∀ a, ¬ s ≤ a < s + n → m' !! a = m !! a.
Proof.
  intros Hn Ht Hm Hov. set (k := Z.to_nat (n - 1)).
  replace (Z.to_nat n) with (k + 1)%nat in Hm by lia. apply mapped_app in Hm as [Hm Hm1].
  pose proof (strncpy_copy_ok k m s t l Ht Hm ltac:(lia)) as E.
  set (c := take k (l ++ [0])) in *.
  assert (length c = k `min` S (length l))%nat as Hc.
  { unfold c. rewrite length_take, length_app. simpl. lia. }
  assert (is_Some (put_bytes s c m !! (s + Z.of_nat (k `min` S (length l))))) as Hz.
  { destruct (decide (k ≤ S (length l))%nat).
    - rewrite Nat.min_l by done. rewrite lookup_put_bytes_ne by lia.
      apply mapped_S in Hm1 as [? _]. done.
    - apply (mapped_put m s k s c Hm (k `min` S (length l))%nat). lia. }
  eexists. split; [|split].
  - unfold Kern.safestrcpy. destruct (Z.leb_spec n 0); [lia|]. fold k. mstep E.
    cbn [fst snd]. mstep (store8_ok _ _ 0 Hz). reflexivity.
  - change (u8 0) with 0. rewrite <- Hc. split.
    + intros i x Hi. destruct (decide (i < length (take k l)))%nat as [Hi'|Hi'].
      * rewrite lookup_app_l in Hi by done. apply lookup_take_Some in Hi as [Hi Hik].
        pose proof (lookup_lt_Some _ _ _ Hi). rewrite lookup_insert_ne by lia.
        apply (bytes_at_put s c m). unfold c. apply lookup_take_Some. split; [|done].
        by rewrite lookup_app_l.
      * rewrite lookup_app_r in Hi by lia. apply list_lookup_singleton_Some in Hi as [Hi <-].
        rewrite length_take in *. destruct (decide (k ≤ length l)%nat).
        { replace (s + Z.of_nat i) with (s + Z.of_nat (length c)) by lia. apply lookup_insert_eq. }
        rewrite lookup_insert_ne by lia. apply (bytes_at_put s c m). unfold c.
        apply lookup_take_Some. split; [|lia]. rewrite lookup_app_r by lia.
        by replace (i - length l)%nat with 0%nat by lia.
    + apply Forall_take. apply Ht.
  - intros a Ha. rewrite lookup_insert_ne by lia. apply lookup_put_bytes_ne. lia.
Qed.

Lemma safestrcpy_correct_witness :
  ∃ m', Kern.safestrcpy 100 200 3 ex_strs = Ok 100 m' ∧ cstr m' 100 [104; 200].
Proof.
  destruct (safestrcpy_correct ex_strs 100 200 [104; 200; 33] 3) as (m' & E & H & _).
  - lia.
  - repeat (apply cstr_cons; split; [lia|split; [reflexivity|]]). by apply cstr_nil.
  - repeat (apply mapped_S; split; [eexists; reflexivity|]). intros i Hi. lia.
  - lia.
  - by exists m'.
Defined.

(** [strncpy] fills the whole field: the string, cut or padded with zeros. *)
Lemma strncpy_ok m s t l n :
  cstr m t l → mapped m s (Z.to_nat n) →
  s + Z.of_nat (Z.to_nat n) ≤ t ∨ t + Z.of_nat (length l) < s →
  Kern.strncpy s t n m =
    Ok s (put_bytes s (take (Z.to_nat n) (l ++ replicate (Z.to_nat n) 0)) m).
Proof.
  intros Ht Hm Hov. unfold Kern.strncpy. mstep (strncpy_copy_ok _ _ _ _ _ Ht Hm Hov).
  cbn [fst snd]. set (k := Z.to_nat n) in *.
  assert (k = k `min` S (length l) + (k - S (length l)))%nat as Ek by lia.
  assert (mapped m (s + Z.of_nat (k `min` S (length l))) (k - S (length l))) as Hm2.
  { rewrite Ek in Hm. by apply mapped_app in Hm as [_ ?]. }
  erewrite bind_ok by (apply stosb_ok, mapped_put, Hm2). change (u8 0) with 0.
  unfold mret, M_ret. f_equal.
  assert (length (take k (l ++ [0%Z])) = k `min` S (length l))%nat as Hlen.
  { rewrite length_take, length_app. simpl. lia. }
  rewrite <- Hlen, put_bytes_comm2, <- put_bytes_app by lia. f_equal.
  destruct (decide (k ≤ length l)%nat).
  - rewrite !take_app_le by lia. replace (k - S (length l))%nat with 0%nat by lia.
    by rewrite app_nil_r.
  - rewrite !take_app_ge by lia. rewrite take_replicate, <- app_assoc. f_equal.
    rewrite (take_ge [0]) by (simpl; lia). simpl.
    replace ((k - length l) `min` k)%nat with (S (k - S (length l))) by lia. done.
Qed.

Lemma strlen_loop_ok fuel m s l n :
  cstr m (s + n) l → (length l < fuel)%nat →
  strlen_loop fuel s n m = Ok (n + Z.of_nat (length l)) m.
Proof.
  revert n l. induction fuel as [|fuel IH]; intros n l Hs Hf; [lia|].
  pose proof (head_byte_ok _ _ _ Hs). cbn [strlen_loop]. mstep (loadc_first _ _ _ Hs).
  rewrite s8_eqb0 by done. destruct l as [|x l]; simpl in *; [by rewrite Z.add_0_r|].
  apply cstr_cons in Hs as (Rx & _ & Hs). destruct (Z.eqb_spec x 0); [lia|].
  rewrite (IH _ l); [f_equal; lia|by replace (s + (n + 1)) with (s + n + 1) by lia|lia].
Qed.

Lemma strlen_ok fuel m s l :
  cstr m s l → (length l < fuel)%nat → Kern.strlen fuel s m = Ok (Z.of_nat (length l)) m.
Proof. intros. apply (strlen_loop_ok fuel m s l 0); [by rewrite Z.add_0_r|done]. Qed.

Lemma strcpy_loop_ok fuel m s t l :
  cstr m t l → mapped m s (S (length l)) → (length l < fuel)%nat →
  s + Z.of_nat (length l) < t ∨ t + Z.of_nat (length l) < s →
  Ulib.strcpy_loop fuel s t m = Ok tt (put_bytes s (l ++ [0]) m).
Proof.
  revert m s t l. induction fuel as [|fuel IH]; intros m s t l Ht Hm Hf Hov; [lia|].
  apply mapped_S in Hm as [Hs Hm]. pose proof (head_byte_ok _ _ _ Ht).
  cbn [Ulib.strcpy_loop]. mstep (loadc_first _ _ _ Ht).
  mstep (store8_ok m s (s8 (default 0 (head l))) Hs). rewrite u8_s8, s8_eqb0 by done.
  destruct l as [|x l]; simpl in *; [done|].
  apply cstr_cons in Ht as (Rx & _ & Ht). destruct (Z.eqb_spec x 0); [lia|].
  rewrite (IH _ _ _ l); [by rewrite put_bytes_comm by lia|
    apply cstr_insert_ne; [done|lia]|by apply mapped_insert|lia|lia].
Qed.

(** [strchr] finds the first occurrence, or returns the null pointer. *)
Lemma strchr_ok fuel m s l c :
  cstr m s l → (length l < fuel)%nat → 0 < c < 256 →
  Ulib.strchr fuel s (s8 c) m =
    Ok (match list_find (c =.) l with Some (i, _) => s + Z.of_nat i | None => 0 end) m.
Proof.
  intros Hs Hf Hc. revert s l Hs Hf. induction fuel as [|fuel IH]; intros s l Hs Hf; [lia|].
  pose proof (head_byte_ok _ _ _ Hs). cbn [Ulib.strchr]. mstep (loadc_first _ _ _ Hs).
  rewrite s8_eqb0 by done. destruct l as [|x l]; simpl in *; [done|].
  apply cstr_cons in Hs as (Rx & _ & Hs). destruct (Z.eqb_spec x 0); [lia|].
  rewrite s8_eqb by auto with xv6. destruct (Z.eqb_spec x c) as [->|Hne].
  - rewrite decide_True by done. by rewrite Z.add_0_r.
  - rewrite decide_False by congruence. rewrite (IH _ l) by (done || lia).
    destruct (list_find (c =.) l) as [[i y]|]; simpl; [f_equal; lia|done].
Qed.

(** The characters that [gets] takes: up to and including the first newline
    or carriage return. *)
Fixpoint line_of (inp : list Z) : list Z :=
  match inp with
  | [] => []
  | c :: inp => if (c =? 10) || (c =? 13) then [c] else c :: line_of inp
  end.

Lemma line_of_prefix inp : line_of inp `prefix_of` inp.
Proof.
  induction inp as [|c inp IH]; simpl; [done|].
  destruct (_ || _); [by exists inp|by apply prefix_cons].
Qed.

Lemma gets_loop_ok n m buf i inp :
  mapped m (buf + i) n → Forall byte_ok inp →
  let l := take n (line_of inp) in
  Ulib.gets_loop n buf i inp m =
    Ok (i + Z.of_nat (length l), drop (length l) inp) (put_bytes (buf + i) l m).
Proof.
  revert m i inp. induction n as [|n IH]; intros m i inp Hm Hb; simpl.
  { by rewrite Z.add_0_r, drop_0. }
  apply mapped_S in Hm as [Hi Hm]. destruct inp as [|c inp]; simpl; [by rewrite Z.add_0_r|].
  apply Forall_cons in Hb as [Hc Hb]. mstep (store8_ok m _ c Hi). rewrite u8_small by exact Hc.
  destruct ((c =? 10) || (c =? 13)); simpl; [by rewrite take_nil; simpl; rewrite drop_0|].
  rewrite IH; [|apply mapped_insert; by rewrite Z.add_assoc|done].
  rewrite Z.add_assoc, put_bytes_comm by lia. f_equal. f_equal. lia.
Qed.
