(* ===== verification/X86.v ===== *)
(** * Instructions that C cannot express (x86.h)

    A device is a state that the port instructions change.  What a device
    answers is not part of the program: it is given by an instance of
    [Ports]. *)

From S2P Require Import Prelude Mem.

(** What the device with state [D] does on a byte read, a 32-bit read and a
    byte write of a port. *)
Class Ports (D : Type) := {
  port_in : Z → D → Z * D;
  port_in32 : Z → D → Z * D;
  port_out : Z → Z → D → D;
}.

(** What a device does on a 32-bit write of a port. *)
Class Ports32 (D : Type) := { port_out32 : Z → Z → D → D }.

(** The registers of a device in memory: 32-bit reads and writes. *)
Class Mmio (D : Type) := {
  reg_read : Z → D → Z * D;
  reg_write : Z → Z → D → D;
}.

Section mmio.
Context {D : Type} `{!Mmio D}.

Definition mread (a : Z) : M D Z := λ d, let r := reg_read a d in Ok (u32 r.1) r.2.
Definition mwrite (a x : Z) : M D unit := modify (reg_write a (u32 x)).

Lemma mread_step {B} a (k : Z → M D B) d :
  (x ← mread a; k x) d = k (u32 (reg_read a d).1) (reg_read a d).2.
Proof. reflexivity. Qed.

Lemma mwrite_step {B} a x (k : M D B) d : (mwrite a x;; k) d = k (reg_write a (u32 x) d).
Proof. reflexivity. Qed.

End mmio.

Section ports.
Context {D : Type} `{!Ports D}.

Definition inb (port : Z) : M D Z := λ d, let r := port_in (u16 port) d in Ok (u8 r.1) r.2.
Definition outb (port data : Z) : M D unit := modify (port_out (u16 port) (u8 data)).

(** One round of [rep insl]. *)
Definition inl (port : Z) : M D Z := λ d, let r := port_in32 (u16 port) d in Ok (u32 r.1) r.2.

(** rep insl and rep outsl with a buffer of [cnt] words: what is read, and
    what is written. *)
Fixpoint insl_words (port : Z) (cnt : nat) : M D (list Z) :=
  match cnt with
  | O => mret []
  | S cnt => x ← inl port; l ← insl_words port cnt; mret (le_bytes 4 x ++ l)
  end.
Definition outl `{!Ports32 D} (port x : Z) : M D unit := modify (port_out32 (u16 port) (u32 x)).
Fixpoint outsl `{!Ports32 D} (port : Z) (data : list Z) (cnt : nat) : M D unit :=
  match cnt with
  | O => mret tt
  | S cnt => outl port (le_value (take 4 data));; outsl port (drop 4 data) cnt
  end.

Lemma inb_step {B} port (k : Z → M D B) d :
  (x ← inb port; k x) d = k (u8 (port_in (u16 port) d).1) (port_in (u16 port) d).2.
Proof. reflexivity. Qed.

Lemma outb_step {B} port data (k : M D B) d :
  (outb port data;; k) d = k (port_out (u16 port) (u8 data) d).
Proof. reflexivity. Qed.

End ports.

(** The memory and the devices, as code that runs without paging sees them. *)
Record machine (D : Type) := Mach { mc_ram : mem; mc_dev : D }.
Arguments Mach {D}.
Arguments mc_ram {D}.
Arguments mc_dev {D}.

Section machine.
Context {D : Type} `{!Ports D}.

Definition on_phys {A} : M mem A → M (machine D) A := zoom mc_ram (λ m s, Mach m (mc_dev s)).
Definition on_dev {A} : M D A → M (machine D) A := zoom mc_dev (λ d s, Mach (mc_ram s) d).

(** rep insl: [cnt] words from [port] to [addr]. *)
Fixpoint insl (port addr : Z) (cnt : nat) : M (machine D) unit :=
  match cnt with
  | O => mret tt
  | S cnt => x ← on_dev (inl port); on_phys (store32 addr x);; insl port (u32 (addr + 4)) cnt
  end.

Lemma on_phys_ok {A} (c : M mem A) m d a m' :
  c m = Ok a m' → on_phys c (Mach m d) = Ok a (Mach m' d).
Proof. intros H. unfold on_phys, zoom. cbn. by rewrite H. Qed.

Lemma on_dev_ok {A} (c : M D A) m d a d' :
  c d = Ok a d' → on_dev c (Mach m d) = Ok a (Mach m d').
Proof. intros H. unfold on_dev, zoom. cbn. by rewrite H. Qed.

Lemma inl_step {A} port (k : Z → M (machine D) A) m d :
  (x ← on_dev (inl port); k x) (Mach m d) =
    k (u32 (port_in32 (u16 port) d).1) (Mach m (port_in32 (u16 port) d).2).
Proof. reflexivity. Qed.

End machine.

(** The operand of lgdt and lidt: the limit and the address of the table, in
    16-bit words. *)
Definition table_operand (p size : Z) : list Z := [u16 (size - 1); u16 p; u16 (Z.shiftr (u32 p) 16)].

(** The table that the processor takes from such an operand. *)
Definition table_base (pd : list Z) : option Z :=
  match pd with [_; lo; hi] => Some (lo + Z.shiftl hi 16) | _ => None end.
Definition table_limit (pd : list Z) : option Z := head pd.

Lemma table_operand_base p size : table_base (table_operand p size) = Some (u32 p).
Proof.
  unfold table_base, table_operand. f_equal. rewrite Z.shiftl_mul_pow2, Z.shiftr_div_pow2 by lia.
  unfold u16, u32. rewrite (Z.mod_small (_ `div` _)).
  - Z.div_mod_to_equations. lia.
  - Z.div_mod_to_equations. lia.
Qed.
