(* ===== verification/Boot.v ===== *)
(** * The boot loader (bootmain.c)

    bootmain() reads the kernel's executable file, which starts at sector 1 of
    the disk, through the ports of the disk controller, puts its segments at
    their physical addresses and jumps to the entry point.  [AtaDisk] states
    what the loader relies on of the controller. *)

From Stdlib Require Import Sorted.
From S2P Require Import Prelude Params Mem Str X86.

Definition SECTSIZE : Z := 512.

Section boot.
Context {D : Type} `{!Ports D}.
#[local] Abbreviation B := (M (machine D)).

(** [polls] bounds the number of times that the status is read. *)
Fixpoint waitdisk (polls : nat) : B unit :=
  match polls with
  | O => nofuel
  | S polls => x ← on_dev (inb 0x1F7); if negb (Z.land x 0xC0 =? 0x40) then waitdisk polls else mret tt
  end.

Definition readsect (polls : nat) (dst offset : Z) : B unit :=
  waitdisk polls;;
  on_dev (outb 0x1F2 1);;
  on_dev (outb 0x1F3 offset);;
  on_dev (outb 0x1F4 (Z.shiftr offset 8));;
  on_dev (outb 0x1F5 (Z.shiftr offset 16));;
  on_dev (outb 0x1F6 (Z.lor (Z.shiftr offset 24) 0xE0));;
  on_dev (outb 0x1F7 0x20);;
  waitdisk polls;;
  insl 0x1F0 dst (Z.to_nat (SECTSIZE / 4)).

(** The loop of readseg.  It needs one round for each sector. *)
Fixpoint readseg_loop (polls fuel : nat) (pa epa offset : Z) : B unit :=
  if pa <? epa then
    match fuel with
    | O => nofuel
    | S fuel => readsect polls pa offset;; readseg_loop polls fuel (u32 (pa + SECTSIZE)) epa (u32 (offset + 1))
    end
  else mret tt.

Definition sectors (n : Z) : nat := Z.to_nat ((n + SECTSIZE - 1) / SECTSIZE).

Definition readseg (polls : nat) (pa count offset : Z) : B unit :=
  let epa := u32 (pa + count) in
  let pa := u32 (pa - offset `mod` SECTSIZE) in
  readseg_loop polls (sectors (epa - pa)) pa epa (u32 (offset / SECTSIZE + 1)).

(** The loop over the program headers from [ph] up to [eph]. *)
Fixpoint load_segments (polls fuel : nat) (ph eph : Z) : B unit :=
  if ph <? eph then
    match fuel with
    | O => nofuel
    | S fuel =>
        pa ← on_phys (load32 (ph + 12));
        filesz ← on_phys (load32 (ph + 16));
        off ← on_phys (load32 (ph + 4));
        readseg polls pa filesz off;;
        memsz ← on_phys (load32 (ph + 20));
        filesz ← on_phys (load32 (ph + 16));
        (if filesz <? memsz then on_phys (stosb (Z.to_nat (memsz - filesz)) (u32 (pa + filesz)) 0) else mret tt);;
        load_segments polls fuel (u32 (ph + sizeof_proghdr)) eph
    end
  else mret tt.

(** The address that bootmain() jumps to, or None when it returns. *)
Definition bootmain (polls : nat) : B (option Z) :=
  let elf := 0x10000 in
  readseg polls elf 4096 0;;
  magic ← on_phys (load32 elf);
  if negb (magic =? ELF_MAGIC) then mret None
  else
    phoff ← on_phys (load32 (elf + 28));
    phnum ← on_phys (load16 (elf + 44));
    let ph := u32 (elf + phoff) in
    load_segments polls (Z.to_nat phnum) ph (u32 (ph + sizeof_proghdr * phnum));;
    entry ← on_phys (load32 (elf + 24));
    mret (Some entry).

End boot.

(** ** The disk controller *)

(** What the controller holds: the sectors of the disk, the registers of the
    command block (ports 0x1F2 to 0x1F6) and the bytes that wait to be read
    from the data port. *)
Record ata := Ata { at_sect : Z → option (list Z); at_regs : gmap Z Z; at_data : list Z }.

(** The sector that a command for one sector of disk 0 names. *)
Definition lba_of (r : gmap Z Z) : option Z :=
  n ← r !! 0x1F2; x0 ← r !! 0x1F3; x1 ← r !! 0x1F4; x2 ← r !! 0x1F5; x3 ← r !! 0x1F6;
  if (n =? 1) && (Z.land x3 0xF0 =? 0xE0) then
    Some (x0 + 2 ^ 8 * x1 + 2 ^ 16 * x2 + 2 ^ 24 * Z.land x3 0xF)
  else None.

(** [ata_busy] is how often the status still says that the controller is not
    ready; the other ports may be used when it is ready. *)
Class AtaDisk (D : Type) `{!Ports D} := {
  ata_rep : D → ata → Prop;
  ata_busy : D → nat;
  ata_delay : nat;
  ata_bound d v : ata_rep d v → (ata_busy d ≤ ata_delay)%nat;
  ata_status d v : ata_rep d v →
    let r := port_in 0x1F7 d in
    ata_rep r.2 v ∧
    (Z.land (u8 r.1) 0xC0 = 0x40 ∧ ata_busy r.2 = 0%nat ∨
     Z.land (u8 r.1) 0xC0 ≠ 0x40 ∧ (ata_busy r.2 < ata_busy d)%nat);
  ata_reg d v p x : ata_rep d v → ata_busy d = 0%nat → 0x1F2 ≤ p ≤ 0x1F6 → byte_ok x →
    let d' := port_out p x d in
    ata_rep d' (Ata (at_sect v) (<[p := x]> (at_regs v)) (at_data v)) ∧ ata_busy d' = 0%nat;
  ata_read d v lba s : ata_rep d v → ata_busy d = 0%nat →
    lba_of (at_regs v) = Some lba → at_sect v lba = Some s →
    ata_rep (port_out 0x1F7 0x20 d) (Ata (at_sect v) (at_regs v) s);
  ata_word d v l rest : ata_rep d v → ata_busy d = 0%nat → at_data v = l ++ rest → length l = 4%nat →
    let r := port_in32 0x1F0 d in
    r.1 = le_value l ∧ ata_rep r.2 (Ata (at_sect v) (at_regs v) rest) ∧ ata_busy r.2 = 0%nat;
}.

(** ** Reading sectors *)

Section sectors.
Context {D : Type} `{!Ports D, !AtaDisk D}.

(** The controller serves the disk [sect]. *)
Definition serves (d : D) (sect : Z → option (list Z)) : Prop := ∃ r l, ata_rep d (Ata sect r l).

Lemma waitdisk_ok polls m d v :
  ata_rep d v → (ata_busy d < polls)%nat →
  ∃ d', waitdisk polls (Mach m d) = Ok tt (Mach m d') ∧ ata_rep d' v ∧ ata_busy d' = 0%nat.
Proof.
  revert d. induction polls as [|polls IH]; intros d Hv Hb; [lia|].
  destruct (ata_status d v Hv) as [Hv' Hst]. cbn [waitdisk]. unfold on_dev at 1, zoom.
  unfold mbind, M_bind, inb. cbn [mc_dev mc_ram]. change (u16 0x1F7) with 0x1F7.
  destruct Hst as [[-> Hb']|[Hs Hb']].
  - eexists. by split; [reflexivity|].
  - rewrite (proj2 (Z.eqb_neq _ _) Hs). cbn. apply IH; [done|lia].
Qed.

Lemma reg_step {A} (k : M (machine D) A) m d v p x :
  ata_rep d v → ata_busy d = 0%nat → 0x1F2 ≤ p ≤ 0x1F6 →
  ∃ d', (on_dev (outb p x);; k) (Mach m d) = k (Mach m d') ∧ ata_busy d' = 0%nat ∧
    ata_rep d' (Ata (at_sect v) (<[p := u8 x]> (at_regs v)) (at_data v)).
Proof.
  intros Hv Hb Hp.
  destruct (ata_reg d v p (u8 x) Hv Hb Hp ltac:(apply Z.mod_pos_bound; lia)) as [Hv' Hb'].
  eexists. split; [|by split]. unfold outb. replace (u16 p) with p by (symmetry; apply Z.mod_small; lia).
  reflexivity.
Qed.

Lemma lba_high h : 0 ≤ h < 16 → Z.land (u8 (Z.lor h 0xE0)) 0xF0 = 0xE0 ∧ Z.land (u8 (Z.lor h 0xE0)) 0xF = h.
Proof.
  intros Hh. rewrite <- (Z2Nat.id h) by lia. assert (Z.to_nat h < 16)%nat as Hn by lia.
  clear Hh. generalize dependent (Z.to_nat h). clear h. intros n Hn.
  do 16 (destruct n as [|n]; [by vm_compute|]). lia.
Qed.

(** The registers that readsect programs name its sector. *)
Lemma lba_of_offset offset r :
  0 ≤ offset < 2 ^ 28 →
  lba_of (<[0x1F6 := u8 (Z.lor (Z.shiftr offset 24) 0xE0)]> (<[0x1F5 := u8 (Z.shiftr offset 16)]>
    (<[0x1F4 := u8 (Z.shiftr offset 8)]> (<[0x1F3 := u8 offset]> (<[0x1F2 := 1]> r))))) = Some offset.
Proof.
  intros Ho. unfold lba_of. rewrite !lookup_insert.
  repeat first [rewrite decide_True by reflexivity | rewrite decide_False by discriminate].
  cbn [mbind option_bind].
  rewrite !Z.shiftr_div_pow2 by lia.
  destruct (lba_high (offset / 2 ^ 24)) as [-> ->]; [Z.div_mod_to_equations; lia|].
  cbn [Z.eqb Pos.eqb andb]. f_equal. unfold u8. Z.div_mod_to_equations. lia.
Qed.

Lemma insl_ok n m d v l addr :
  ata_rep d v → ata_busy d = 0%nat → at_data v = l → length l = (4 * n)%nat → Forall byte_ok l →
  0 ≤ addr → addr + 4 * Z.of_nat n < 2 ^ 32 → mapped m addr (4 * n) →
  ∃ d', insl 0x1F0 addr n (Mach m d) = Ok tt (Mach (put_bytes addr l m) d') ∧
    ata_rep d' (Ata (at_sect v) (at_regs v) []) ∧ ata_busy d' = 0%nat.
Proof.
  revert m d v l addr. induction n as [|n IH]; intros m d v l addr Hv Hb Hl Hlen Hok Ha Hhi Hm.
  { destruct l; [|done]. exists d. split; [done|]. destruct v; cbn in *. by subst. }
  rewrite <- (take_drop 4 l) in Hl, Hok. apply Forall_app in Hok as [Hok1 Hok2].
  destruct (ata_word d v (take 4 l) (drop 4 l) Hv Hb Hl ltac:(rewrite length_take; lia)) as (Hw & Hv' & Hb').
  replace (4 * S n)%nat with (4 + 4 * n)%nat in Hm by lia. apply mapped_app in Hm as [Hm1 Hm2].
  cbn [insl]. rewrite inl_step.  change (u16 0x1F0) with 0x1F0.
  mstep (on_phys_ok _ _ (port_in32 0x1F0 d).2 _ _ (store32_ok m addr (u32 (port_in32 0x1F0 d).1) Hm1)).
  rewrite Hw, (u32_small (le_value _)), u32_small by
    (first [lia | pose proof (le_value_range _ Hok1) as Hr; rewrite length_take in Hr;
      replace (4 `min` length l)%nat with 4%nat in Hr by lia; exact Hr]).
  replace (le_bytes 4 (le_value (take 4 l))) with (take 4 l) by
    (rewrite <- (le_bytes_value (take 4 l)) at 1 by done; f_equal; rewrite length_take; lia).
  edestruct (IH (put_bytes addr (take 4 l) m) _ _ (drop 4 l) (addr + 4) Hv' Hb' eq_refl) as (d' & E & Hv'' & Hb'');
    [rewrite length_drop; lia|done|lia|lia|by apply mapped_put|].
  exists d'. split; [|by split]. rewrite E. do 2 f_equal. rewrite <- (take_drop 4 l) at 3.
  rewrite put_bytes_app, length_take. replace (Z.of_nat (4 `min` length l)) with 4 by lia.
  apply put_bytes_comm2. rewrite length_take. lia.
Qed.

Lemma readsect_ok polls m d sect offset s dst :
  serves d sect → (ata_delay < polls)%nat → 0 ≤ offset < 2 ^ 28 →
  sect offset = Some s → Z.of_nat (length s) = SECTSIZE → Forall byte_ok s →
  0 ≤ dst → dst + SECTSIZE < 2 ^ 32 → mapped m dst (length s) →
  ∃ d', readsect polls dst offset (Mach m d) = Ok tt (Mach (put_bytes dst s m) d') ∧ serves d' sect.
Proof.
  intros (r & l & Hv) Hp Ho Hs Hlen Hok Hd Hhi Hm. unfold readsect.
  pose proof (ata_bound d _ Hv) as Hb.
  destruct (waitdisk_ok polls m d _ Hv ltac:(lia)) as (d1 & E1 & Hv1 & Hb1). mstep E1. clear E1 Hb Hv.
  eapply (reg_step _ m) in Hv1 as (d2 & -> & Hb2 & Hv2); [|done|lia]. clear Hb1.
  eapply (reg_step _ m) in Hv2 as (d3 & -> & Hb3 & Hv3); [|done|lia]. clear Hb2.
  eapply (reg_step _ m) in Hv3 as (d4 & -> & Hb4 & Hv4); [|done|lia]. clear Hb3.
  eapply (reg_step _ m) in Hv4 as (d5 & -> & Hb5 & Hv5); [|done|lia]. clear Hb4.
  eapply (reg_step _ m) in Hv5 as (d6 & -> & Hb6 & Hv6); [|done|lia]. clear Hb5. cbn in Hv6.
  apply (ata_read d6 _ offset s) in Hv6; [|done|by apply lba_of_offset|done]. cbn in Hv6.
  mstep (on_dev_ok (outb 0x1F7 0x20) m d6 tt _ eq_refl).
  change (u16 0x1F7) with 0x1F7. change (u8 0x20) with 0x20.
  pose proof (ata_bound _ _ Hv6) as Hb.
  destruct (waitdisk_ok polls m _ _ Hv6 ltac:(lia)) as (d7 & E7 & Hv7 & Hb7). mstep E7.
  change (Z.to_nat (SECTSIZE / 4)) with 128%nat. unfold SECTSIZE in *.
  edestruct (insl_ok 128 m d7 _ s dst Hv7 Hb7 eq_refl) as (d8 & -> & Hv8 & _);
    [lia|done|done|lia|by replace (4 * 128)%nat with (length s) by lia|].
  exists d8. split; [done|]. by eexists _, _.
Qed.

(** The kernel's file [file] starts at sector 1. *)
Definition on_disk (sect : Z → option (list Z)) (file : list Z) : Prop :=
  ∃ n, length file = (Z.to_nat SECTSIZE * n)%nat ∧ Z.of_nat n < 2 ^ 28 - 1 ∧ Forall byte_ok file ∧
    ∀ i, (i < n)%nat →
      sect (Z.of_nat i + 1) = Some (slice (Z.to_nat SECTSIZE * i) (Z.to_nat SECTSIZE) file).

Lemma readseg_loop_ok polls sect file k m d pa epa i :
  serves d sect → on_disk sect file → (ata_delay < polls)%nat →
  (Z.to_nat SECTSIZE * (i + k) ≤ length file)%nat →
  k = sectors (epa - pa) → 0 ≤ pa → epa + SECTSIZE ≤ 2 ^ 32 → mapped m pa (Z.to_nat SECTSIZE * k) →
  ∃ d', serves d' sect ∧ readseg_loop polls k pa epa (Z.of_nat i + 1) (Mach m d) =
    Ok tt (Mach (put_bytes pa (slice (Z.to_nat SECTSIZE * i) (Z.to_nat SECTSIZE * k) file) m) d').
Proof.
  intros Hd Hfile Hp. revert m d pa i Hd. induction k as [|k IH]; intros m d pa i Hd Hlen Hk Hpa Hepa Hm.
  - exists d. split; [done|]. cbn [readseg_loop]. unfold sectors in Hk.
    rewrite (proj2 (Z.ltb_ge pa epa)) by (unfold SECTSIZE in *; Z.div_mod_to_equations; lia).
    by rewrite Nat.mul_0_r.
  - pose proof Hfile as (n & Hn & Hmax & Hok & Hs). cbn [readseg_loop]. unfold sectors in Hk.
    assert (pa < epa) as Hlt by (unfold SECTSIZE in *; Z.div_mod_to_equations; lia).
    rewrite (proj2 (Z.ltb_lt pa epa)) by done. unfold SECTSIZE in *. change (Z.to_nat 512) with 512%nat in *.
    set (s := slice (512 * i) 512 file).
    assert (length s = 512%nat) as Hls by (apply length_slice; lia).
    replace (512 * Datatypes.S k)%nat with (512 + 512 * k)%nat in Hm |- * by lia.
    apply mapped_app in Hm as [Hm1 Hm2].
    destruct (readsect_ok polls m d sect (Z.of_nat i + 1) s pa Hd Hp) as (d1 & E1 & Hd1);
      [lia|apply Hs; lia|by rewrite Hls|by apply Forall_take, Forall_drop|lia|unfold SECTSIZE; lia|by rewrite Hls|].
    mstep E1. rewrite !u32_small by lia. replace (Z.of_nat i + 1 + 1) with (Z.of_nat (i + 1) + 1) by lia.
    destruct (IH (put_bytes pa s m) d1 (pa + 512) (i + 1)%nat) as (d2 & Hd2 & ->);
      [done|lia|unfold sectors, SECTSIZE; Z.div_mod_to_equations; lia|lia|lia|by apply mapped_put|].
    exists d2. split; [done|]. rewrite slice_add, put_bytes_app. fold s. rewrite Hls.
    rewrite put_bytes_comm2 by (rewrite Hls; lia).
    by replace (512 * (i + 1))%nat with (512 * i + 512)%nat by lia.
Qed.

(** Where readseg starts to write and how many bytes it writes. *)
Definition seg_low (pa off : Z) : Z := pa - off `mod` SECTSIZE.
Definition seg_len (count off : Z) : nat := Z.to_nat SECTSIZE * sectors (off `mod` SECTSIZE + count).

Lemma readseg_ok polls sect file m d pa count off :
  serves d sect → on_disk sect file → (ata_delay < polls)%nat →
  0 ≤ off → 0 ≤ count → off + count ≤ Z.of_nat (length file) →
  0 ≤ seg_low pa off → pa + count + SECTSIZE ≤ 2 ^ 32 → mapped m (seg_low pa off) (seg_len count off) →
  ∃ d', serves d' sect ∧ readseg polls pa count off (Mach m d) =
    Ok tt (Mach (put_bytes (seg_low pa off) (slice (Z.to_nat (off - off `mod` SECTSIZE)) (seg_len count off) file) m) d').
Proof.
  intros Hd Hfile Hp Ho Hc Hlen Hlow Hhi Hm. pose proof Hfile as (n & Hn & Hmax & _). unfold readseg.
  fold (seg_low pa off). unfold seg_len, seg_low, SECTSIZE in *. change (Z.to_nat 512) with 512%nat in *.
  rewrite (u32_small (pa + count)), (u32_small (pa - _)) by (Z.div_mod_to_equations; lia).
  replace (pa + count - (pa - off `mod` 512)) with (off `mod` 512 + count) by lia.
  rewrite u32_small by (Z.div_mod_to_equations; lia).
  replace (off / 512 + 1) with (Z.of_nat (Z.to_nat (off / 512)) + 1) by (Z.div_mod_to_equations; lia).
  replace (Z.to_nat (off - off `mod` 512)) with (512 * Z.to_nat (off / 512))%nat by (Z.div_mod_to_equations; lia).
  change 512%nat with (Z.to_nat SECTSIZE) in *. apply readseg_loop_ok; try done.
  - rewrite Hn. apply Nat.mul_le_mono_l. unfold sectors, SECTSIZE in *. Z.div_mod_to_equations. lia.
  - unfold SECTSIZE. f_equal. lia.
Qed.

(** ** Loading the segments *)

(** Memory up to [top]. *)
Definition ram_to (m : mem) (top : Z) : Prop := ∀ a, 0 ≤ a < top → is_Some (m !! a).

(** The program headers of the file. *)
Definition phdr (file : list Z) (i : nat) : list Z :=
  slice (Z.to_nat (elf_phoff file) + Z.to_nat sizeof_proghdr * i) (Z.to_nat sizeof_proghdr) file.
Definition phdrs (file : list Z) : list (list Z) := phdr file <$> seq 0 (Z.to_nat (elf_phnum file)).

(** A segment of the file that fits between the scratch page and [top], with
    the rest of its first and of its last sector. *)
Record seg_ok (file : list Z) (top : Z) (ph : list Z) : Prop := SegOk {
  so_len : length ph = Z.to_nat sizeof_proghdr;
  so_bytes : Forall byte_ok ph;
  so_file : ph_off ph + ph_filesz ph ≤ Z.of_nat (length file);
  so_low : 0x11000 ≤ seg_low (ph_paddr ph) (ph_off ph);
  so_high : seg_low (ph_paddr ph) (ph_off ph) + Z.of_nat (seg_len (ph_filesz ph) (ph_off ph)) ≤ top;
  so_bss : ph_paddr ph + ph_memsz ph ≤ top;
}.

Definition seg_end (ph : list Z) : Z := ph_paddr ph + ph_filesz ph `max` ph_memsz ph.
Definition before (p q : list Z) : Prop := seg_end p ≤ seg_low (ph_paddr q) (ph_off q).

(** The segment is in memory: the bytes of the file, then zeroes. *)
Definition loaded (file : list Z) (m : mem) (ph : list Z) : Prop :=
  bytes_at m (ph_paddr ph) (slice (Z.to_nat (ph_off ph)) (Z.to_nat (ph_filesz ph)) file) ∧
  bytes_at m (ph_paddr ph + ph_filesz ph) (replicate (Z.to_nat (ph_memsz ph - ph_filesz ph)) 0).

Lemma ram_put m top a l : ram_to m top → ram_to (put_bytes a l m) top.
Proof.
  intros H x Hx. rewrite lookup_put_bytes. destruct (decide _); [apply lookup_lt_is_Some; lia|auto].
Qed.

Lemma ram_mapped m top a n : ram_to m top → 0 ≤ a → a + Z.of_nat n ≤ top → mapped m a n.
Proof. intros H Ha Hn i Hi. apply H. lia. Qed.

Lemma get32_word m a l i :
  bytes_at m a l → (4 * i + 4 ≤ length l)%nat → get32 m (a + 4 * Z.of_nat i) = Some (word_at l i).
Proof.
  intros Hl Hi. apply get32_bytes; [|by apply length_slice].
  intros j x. rewrite lookup_slice_Some. intros [Hx Hj]. rewrite <- (Hl _ _ Hx). f_equal. lia.
Qed.

Lemma ram_word {A} m (d : D) a l i (k : Z → M (machine D) A) :
  bytes_at m a l → (4 * i + 4 ≤ length l)%nat →
  (x ← on_phys (load32 (a + 4 * Z.of_nat i)); k x) (Mach m d) = k (word_at l i) (Mach m d).
Proof. intros Hl Hi. by mstep (on_phys_ok _ m d _ _ (load32_ok _ _ _ (get32_word m a l i Hl Hi))). Qed.

Lemma segment_loaded file top m ph :
  seg_ok file top ph →
  let m1 := put_bytes (seg_low (ph_paddr ph) (ph_off ph))
    (slice (Z.to_nat (ph_off ph - ph_off ph `mod` SECTSIZE)) (seg_len (ph_filesz ph) (ph_off ph)) file) m in
  loaded file
    (if ph_filesz ph <? ph_memsz ph then
       put_bytes (ph_paddr ph + ph_filesz ph) (replicate (Z.to_nat (ph_memsz ph - ph_filesz ph)) 0) m1
     else m1) ph.
Proof.
  intros Hs m1. pose proof (word_at_range ph 1 (so_bytes _ _ _ Hs)) as Ho.
  pose proof (word_at_range ph 4 (so_bytes _ _ _ Hs)) as Hf.
  fold (ph_off ph) in Ho. fold (ph_filesz ph) in Hf.
  assert (bytes_at m1 (ph_paddr ph) (slice (Z.to_nat (ph_off ph)) (Z.to_nat (ph_filesz ph)) file)) as H1.
  { eapply bytes_at_inner; [apply bytes_at_put|..]; unfold seg_len, seg_low, sectors, SECTSIZE in *;
      Z.div_mod_to_equations; lia. }
  destruct (Z.ltb_spec (ph_filesz ph) (ph_memsz ph)) as [Hlt|Hge].
  - split; [|apply bytes_at_put]. apply bytes_at_put_ne; [done|]. left. unfold slice. rewrite length_take. lia.
  - split; [done|]. by replace (Z.to_nat (ph_memsz ph - ph_filesz ph)) with 0%nat by lia.
Qed.

Section loading.
Context (polls : nat) (sect : Z → option (list Z)) (file : list Z) (top : Z).
Hypothesis Hfile : on_disk sect file.
Hypothesis Hpolls : (ata_delay < polls)%nat.
Hypothesis Htop : 0x11000 ≤ top ≤ 2 ^ 32 - SECTSIZE.

Lemma load_segment_ok fuel m d a eph ph :
  serves d sect → ram_to m top → seg_ok file top ph →
  bytes_at m a ph → 0 ≤ a → a + sizeof_proghdr ≤ eph → eph ≤ 0x11000 →
  ∃ m' d', load_segments polls (Datatypes.S fuel) a eph (Mach m d) =
      load_segments polls fuel (a + sizeof_proghdr) eph (Mach m' d') ∧
    serves d' sect ∧ ram_to m' top ∧ loaded file m' ph ∧
    ∀ b, b < seg_low (ph_paddr ph) (ph_off ph) → m' !! b = m !! b.
Proof using Hfile Hpolls Htop.
  intros Hd Hram Hs Hph Ha Heph Hscr. pose proof Hs as [Hlen Hok Hin Hlow Hhigh Hbss].
  pose proof (word_at_range ph 1 Hok) as Ho. pose proof (word_at_range ph 4 Hok) as Hf.
  pose proof (word_at_range ph 3 Hok) as Hpa. fold (ph_off ph) in Ho. fold (ph_filesz ph) in Hf.
  fold (ph_paddr ph) in Hpa. pose proof (segment_loaded file top m ph Hs) as Hloaded.
  unfold sizeof_proghdr in *. change (Z.to_nat 32) with 32%nat in Hlen.
  cbn [load_segments]. rewrite (proj2 (Z.ltb_lt _ _)) by lia.
  rewrite (ram_word m d a ph 3), (ram_word m d a ph 4), (ram_word m d a ph 1) by (done || lia).
  fold (ph_off ph) (ph_filesz ph) (ph_paddr ph).
  destruct (readseg_ok polls sect file m d (ph_paddr ph) (ph_filesz ph) (ph_off ph)) as (d' & Hd' & E);
    try done; try lia.
  { unfold seg_low, seg_len, sectors, SECTSIZE in *. Z.div_mod_to_equations. lia. }
  { eapply ram_mapped; [done|lia..]. }
  mstep E. clear E. cbn zeta in Hloaded.
  set (l := slice _ (seg_len _ _) file) in *. set (m1 := put_bytes _ l m) in *.
  assert (bytes_at m1 a ph) as Hph1.
  { apply bytes_at_put_ne; [done|]. left. rewrite Hlen. lia. }
  rewrite (ram_word m1 d' a ph 5), (ram_word m1 d' a ph 4) by (done || lia).
  fold (ph_memsz ph) (ph_filesz ph). unfold sizeof_proghdr. rewrite (u32_small (a + 32)) by lia.
  assert (ph_filesz ph + seg_low (ph_paddr ph) (ph_off ph) ≤ ph_paddr ph + ph_filesz ph) as Hle
    by (unfold seg_low, SECTSIZE; Z.div_mod_to_equations; lia).
  destruct (Z.ltb_spec (ph_filesz ph) (ph_memsz ph)) as [Hlt|Hge].
  - rewrite u32_small by (unfold SECTSIZE in *; lia).
    mstep (on_phys_ok _ _ d' _ _ (stosb_ok (Z.to_nat (ph_memsz ph - ph_filesz ph)) m1
      (ph_paddr ph + ph_filesz ph) 0 ltac:(eapply ram_mapped; [by apply ram_put|lia..]))).
    change (u8 0) with 0. eexists _, _. split; [reflexivity|]. split; [done|].
    split; [by apply ram_put, ram_put|]. split; [exact Hloaded|]. intros b Hb. unfold m1.
    by rewrite !lookup_put_bytes_ne by lia.
  - rewrite ret_step. eexists _, _. split; [reflexivity|]. split; [done|].
    split; [by apply ram_put|]. split; [exact Hloaded|]. intros b Hb. unfold m1.
    by rewrite lookup_put_bytes_ne by lia.
Qed.

Lemma load_segments_ok phs m d a :
  serves d sect → ram_to m top → Forall (seg_ok file top) phs → StronglySorted before phs →
  (∀ i ph, phs !! i = Some ph → bytes_at m (a + sizeof_proghdr * Z.of_nat i) ph) →
  0 ≤ a → a + sizeof_proghdr * Z.of_nat (length phs) ≤ 0x11000 →
  ∃ m' d', load_segments polls (length phs) a (a + sizeof_proghdr * Z.of_nat (length phs)) (Mach m d) =
      Ok tt (Mach m' d') ∧
    Forall (loaded file m') phs ∧
    ∀ b, Forall (λ ph, b < seg_low (ph_paddr ph) (ph_off ph)) phs → m' !! b = m !! b.
Proof using Hfile Hpolls Htop.
  revert m d a. induction phs as [|ph phs IH]; intros m d a Hd Hram Hs Hord Hat Ha Hscr.
  { exists m, d. split; [|done]. cbn [load_segments length]. by rewrite (proj2 (Z.ltb_ge _ _)) by lia. }
  apply Forall_cons in Hs as [Hp Hs]. apply StronglySorted_inv in Hord as [Hord Hfirst].
  cbn [length] in *. unfold sizeof_proghdr in *.
  destruct (load_segment_ok (length phs) m d a (a + 32 * Z.of_nat (Datatypes.S (length phs))) ph)
    as (m1 & d1 & -> & Hd1 & Hram1 & Hl1 & Hk1); try done.
  { specialize (Hat 0%nat ph eq_refl). by rewrite Z.mul_0_r, Z.add_0_r in Hat. }
  { unfold sizeof_proghdr. lia. }
  destruct (IH m1 d1 (a + 32)) as (m2 & d2 & E2 & Hl2 & Hk2); try done; [|lia|lia|].
  { intros i q Hq j x Hx. specialize (Hat (Datatypes.S i) q Hq j x Hx).
    replace (a + 32 + 32 * Z.of_nat i) with (a + 32 * Z.of_nat (Datatypes.S i)) by lia. rewrite Hk1; [done|].
    pose proof (lookup_lt_Some _ _ _ Hq). pose proof (so_low _ _ _ Hp).
    pose proof (so_len _ _ _ (Forall_lookup_1 _ _ _ _ Hs Hq)) as Hlen. change (Z.to_nat sizeof_proghdr) with 32%nat in Hlen.
    pose proof (lookup_lt_Some _ _ _ Hx). lia. }
  exists m2, d2. unfold sizeof_proghdr in *. split.
  { rewrite <- E2. f_equal. lia. }
  assert (∀ b, b < seg_end ph → m2 !! b = m1 !! b) as Hkeep.
  { intros b Hb. apply Hk2. eapply Forall_impl; [exact Hfirst|]. unfold before. intros q Hq. lia. }
  split.
  - constructor; [|done]. pose proof (word_at_range ph 4 (so_bytes _ _ _ Hp)) as Hf. fold (ph_filesz ph) in Hf.
    destruct Hl1 as [H1 H2]. split; intros i x Hx; pose proof (lookup_lt_Some _ _ _ Hx) as Hi;
      (rewrite Hkeep; [eauto|]); unfold seg_end.
    + unfold slice in Hi. rewrite length_take in Hi. lia.
    + rewrite length_replicate in Hi. lia.
  - intros b [Hb Hbs]%Forall_cons. rewrite Hk2, Hk1 by done. done.
Qed.

(** A kernel that the loader can load: an executable file whose headers are in
    its first page, with segments in increasing order. *)
Record kernel_file : Prop := KernelFile {
  kf_page : 4096 ≤ Z.of_nat (length file);
  kf_magic : elf_magic file = ELF_MAGIC;
  kf_table : elf_phoff file + sizeof_proghdr * elf_phnum file ≤ 4096;
  kf_segs : Forall (seg_ok file top) (phdrs file);
  kf_order : StronglySorted before (phdrs file);
}.

Lemma boot_header m d :
  serves d sect → ram_to m top → 4096 ≤ Z.of_nat (length file) →
  ∃ d', serves d' sect ∧
    readseg polls 0x10000 4096 0 (Mach m d) = Ok tt (Mach (put_bytes 0x10000 (slice 0 4096 file) m) d').
Proof using Hfile Hpolls Htop.
  intros Hd Hram Hlen. pose proof (readseg_ok polls sect file m d 0x10000 4096 0 Hd Hfile Hpolls) as H.
  unfold SECTSIZE in *. apply H; try done; try lia.
  apply (ram_mapped m top); [done|by vm_compute|].
  change (seg_low 0x10000 0) with 0x10000. replace (Z.of_nat (seg_len 4096 0)) with 4096 by (vm_compute; done). lia.
Qed.

Lemma ram_half {A} m (d : D) a l i (k : Z → M (machine D) A) :
  bytes_at m a l → (2 * i + 2 ≤ length l)%nat →
  (x ← on_phys (load16 (a + 2 * Z.of_nat i)); k x) (Mach m d) = k (half_at l i) (Mach m d).
Proof using Type.
  clear Hfile Hpolls Htop. intros Hl Hi. unfold half_at.
  destruct (lookup_lt_is_Some_2 l (2 * i)) as [x0 H0]; [lia|].
  destruct (lookup_lt_is_Some_2 l (2 * i + 1)) as [x1 H1]; [lia|].
  replace (slice (2 * i) 2 l) with [x0; x1].
  - apply bind_ok, on_phys_ok. unfold load16. apply Hl in H0, H1.
    replace (a + Z.of_nat (2 * i)) with (a + 2 * Z.of_nat i) in H0 by lia.
    replace (a + Z.of_nat (2 * i + 1)) with (a + 2 * Z.of_nat i + 1) in H1 by lia.
    mstep (load8_ok _ _ _ H0). by mstep (load8_ok _ _ _ H1).
  - unfold slice. rewrite (drop_S _ x0) by done. cbn. replace (Datatypes.S (i + (i + 0))) with (2 * i + 1)%nat by lia.
    by rewrite (drop_S _ x1).
Qed.

Lemma phdr_at m i :
  bytes_at m 0x10000 (slice 0 4096 file) → 0 ≤ elf_phoff file →
  elf_phoff file + sizeof_proghdr * (Z.of_nat i + 1) ≤ 4096 →
  bytes_at m (0x10000 + elf_phoff file + sizeof_proghdr * Z.of_nat i) (phdr file i).
Proof using Type.
  clear Hfile Hpolls Htop. intros Hm Ho Hi. unfold phdr, sizeof_proghdr in *. change (Z.to_nat 32) with 32%nat.
  eapply bytes_at_inner; [exact Hm|lia..].
Qed.

(** The fields of the headers are in the first page. *)
Lemma word_at_page i : (4 * i + 4 ≤ 4096)%nat → word_at (slice 0 4096 file) i = word_at file i.
Proof using Type. intros H. unfold word_at. by rewrite slice_slice. Qed.
Lemma half_at_page i : (2 * i + 2 ≤ 4096)%nat → half_at (slice 0 4096 file) i = half_at file i.
Proof using Type. intros H. unfold half_at. by rewrite slice_slice. Qed.

(** A disk without a kernel: bootmain() returns. *)
Lemma bootmain_no_kernel m d :
  serves d sect → ram_to m top → 4096 ≤ Z.of_nat (length file) → elf_magic file ≠ ELF_MAGIC →
  ∃ s, bootmain polls (Mach m d) = Ok None s.
Proof using Hfile Hpolls Htop.
  intros Hd Hram Hlen Hmagic. unfold bootmain. cbv zeta.
  destruct (boot_header m d Hd Hram Hlen) as (d1 & Hd1 & E1). mstep E1.
  pose proof (bytes_at_put 0x10000 (slice 0 4096 file) m) as Hpage. set (m1 := put_bytes _ _ _) in *.
  rewrite (ram_word m1 d1 0x10000 _ 0 _ Hpage) by (rewrite length_slice; lia).
  rewrite word_at_page by lia. fold (elf_magic file). rewrite (proj2 (Z.eqb_neq _ _)) by done. by eexists.
Qed.

(** C7: the boot loader loads the kernel.  Let the disk hold, from sector 1 on,
    an executable file with its headers in the first page and segments in
    increasing order of addresses above the scratch page.  For every disk
    controller that keeps the [AtaDisk] interface, bootmain() ends with a jump
    to the file's entry point; every segment then has the bytes of the file at
    its physical address, and zeroes up to its size in memory, although
    readseg() writes whole sectors; memory below the scratch page, where the
    loader itself runs, is unchanged. *)
Theorem bootmain_correct m d :
  serves d sect → ram_to m top → kernel_file →
  ∃ m' d', bootmain polls (Mach m d) = Ok (Some (elf_entry file)) (Mach m' d') ∧
    Forall (loaded file m') (phdrs file) ∧ ∀ b, b < 0x10000 → m' !! b = m !! b.
Proof using Hfile Hpolls Htop.
  intros Hd Hram [Hlen Hmagic Htab Hsegs Hord]. unfold bootmain. cbv zeta.
  pose proof Hfile as (_ & _ & _ & Hok & _).
  pose proof (word_at_range file 7 Hok) as Ho. fold (elf_phoff file) in Ho.
  assert (0 ≤ elf_phnum file) as Hn by (apply le_value_range; by apply Forall_take, Forall_drop).
  destruct (boot_header m d Hd Hram Hlen) as (d1 & Hd1 & E1). mstep E1. clear E1.
  pose proof (bytes_at_put 0x10000 (slice 0 4096 file) m) as Hpage.
  assert (length (slice 0 4096 file) = 4096%nat) as Hpl by (rewrite length_slice; lia).
  pose proof (ram_put m top 0x10000 (slice 0 4096 file) Hram) as Hram1.
  set (m1 := put_bytes _ _ m) in *.
  rewrite (ram_word m1 d1 0x10000 _ 0 _ Hpage), word_at_page by lia.
  fold (elf_magic file). rewrite Hmagic, Z.eqb_refl. cbn [negb].
  rewrite (ram_word m1 d1 0x10000 _ 7 _ Hpage), (ram_half m1 d1 0x10000 _ 22 _ Hpage) by lia.
  rewrite word_at_page, half_at_page by lia. fold (elf_phoff file) (elf_phnum file).
  rewrite !u32_small by (unfold sizeof_proghdr in *; lia).
  replace (Z.to_nat (elf_phnum file)) with (length (phdrs file)) by (unfold phdrs; by rewrite length_fmap, length_seq).
  replace (elf_phnum file) with (Z.of_nat (length (phdrs file))) by (unfold phdrs; rewrite length_fmap, length_seq; lia).
  destruct (load_segments_ok (phdrs file) m1 d1 (0x10000 + elf_phoff file)) as (m2 & d2 & E2 & Hl2 & Hk2);
    try done; [|lia|unfold phdrs, sizeof_proghdr in *; rewrite length_fmap, length_seq; lia|].
  { intros i ph Hi. pose proof (lookup_lt_Some _ _ _ Hi) as Hlt. unfold phdrs in Hi, Hlt.
    rewrite length_fmap, length_seq in Hlt. rewrite list_lookup_fmap, lookup_seq_lt in Hi by done.
    injection Hi as <-. apply phdr_at; unfold sizeof_proghdr in *; [done|lia..]. }
  assert (∀ b, b < 0x11000 → m2 !! b = m1 !! b) as Hkeep.
  { intros b Hb. apply Hk2. eapply Forall_impl; [exact Hsegs|]. intros ph Hph. pose proof (so_low _ _ _ Hph). lia. }
  mstep E2. rewrite (ram_word m2 d2 0x10000 (slice 0 4096 file) 6).
  - rewrite word_at_page by lia. eexists _, _. split; [reflexivity|]. split; [done|].
    intros b Hb. rewrite Hkeep by lia. apply lookup_put_bytes_ne. lia.
  - intros i x Hx. pose proof (lookup_lt_Some _ _ _ Hx). rewrite Hkeep by lia. by apply Hpage.
  - lia.
Qed.

End loading.
End sectors.

(** ** A controller, and a kernel to load *)

Module Example.

Record toy := Toy { toy_disk : list (list Z); toy_regs : gmap Z Z; toy_data : list Z; toy_busy : nat }.

Definition toy_sect (d : toy) (z : Z) : option (list Z) := if 0 <=? z then toy_disk d !! Z.to_nat z else None.

(** After a command the controller is busy for two reads of its status. *)
#[export] Instance toy_ports : Ports toy := {|
  port_in p d :=
    if p =? 0x1F7 then
      match toy_busy d with
      | O => (0x40, d)
      | S k => (0x80, Toy (toy_disk d) (toy_regs d) (toy_data d) k)
      end
    else (0, d);
  port_in32 p d :=
    if p =? 0x1F0 then (le_value (take 4 (toy_data d)), Toy (toy_disk d) (toy_regs d) (drop 4 (toy_data d)) (toy_busy d))
    else (0, d);
  port_out p x d :=
    if (0x1F2 <=? p) && (p <=? 0x1F6) then Toy (toy_disk d) (<[p := x]> (toy_regs d)) (toy_data d) (toy_busy d)
    else if (p =? 0x1F7) && (x =? 0x20) then
      match lba_of (toy_regs d) ≫= toy_sect d with
      | Some s => Toy (toy_disk d) (toy_regs d) s 2
      | None => d
      end
    else d;
|}.

#[export] Program Instance toy_ata : AtaDisk toy := {|
  ata_rep d v := v = Ata (toy_sect d) (toy_regs d) (toy_data d) ∧ (toy_busy d ≤ 2)%nat;
  ata_busy := toy_busy;
  ata_delay := 2;
|}.
Next Obligation. by intros d v [_ H]. Qed.
Next Obligation.
  intros [disk r l [|k]] v [-> H]; cbn in *.
  - split; [done|]. by left.
  - split; [split; [done|lia]|]. right. split; [done|lia].
Qed.
Next Obligation.
  intros [disk r l k] v p x [-> H] Hb Hp Hx. cbn in *.
  by rewrite (proj2 (Z.leb_le _ _)), (proj2 (Z.leb_le _ _)) by lia.
Qed.
Next Obligation.
  intros [disk r l k] v lba s [-> H] Hb Hlba Hs. cbn [at_regs at_sect toy_regs] in *.
  assert (lba_of r ≫= toy_sect (Toy disk r l k) = Some s) as E by (rewrite Hlba; exact Hs).
  cbn [port_out toy_ports Z.leb Z.eqb Z.compare Pos.compare Pos.compare_cont Pos.eqb andb toy_regs]. rewrite E.
  split; [done|apply le_n].
Qed.
Next Obligation.
  intros [disk r l' k] v l rest [-> H] Hb Hl Hlen. cbn in *. subst l'.
  rewrite take_app_length', drop_app_length' by done. done.
Qed.

(** A file with two segments; neither starts nor ends at a sector boundary. *)
Definition ex_phdr (off paddr filesz memsz : Z) : list Z :=
  concat (le_bytes 4 <$> [1; off; 0; paddr; filesz; memsz; 0; 0]).
Definition ex_file : list Z :=
  let hdr := concat (le_bytes 4 <$> [ELF_MAGIC; 0; 0; 0; 0; 0; 0x11010; 52; 0; 0; 0; 2; 0]) ++
    ex_phdr 4100 0x11010 600 700 ++ ex_phdr 4800 0x11400 100 300 in
  hdr ++ replicate (4096 - length hdr) 0 ++ ((λ i, Z.of_nat i `mod` 251) <$> seq 0 1024).
Definition ex_toy : toy := Toy (replicate 512 0 :: ((λ i, slice (512 * i) 512 ex_file) <$> seq 0 10)) ∅ [] 1.
Definition ex_ram : mem := put_bytes 0 (replicate (Z.to_nat 0x13000) 7) ∅.

Lemma ex_phys_ok : ram_to ex_ram 0x13000.
Proof.
  unfold ex_ram. generalize 0x13000. intros n a Ha.
  rewrite lookup_put_bytes, length_replicate, decide_True by lia. rewrite lookup_replicate_2 by lia. by eexists.
Qed.

Lemma ex_bytes : forallb (λ x, (0 <=? x) && (x <? 256)) ex_file = true.
Proof. vm_compute. reflexivity. Qed.

Lemma bytes_check l : forallb (λ x, (0 <=? x) && (x <? 256)) l = true → Forall byte_ok l.
Proof.
  intros H. apply Forall_forall. intros x Hx. rewrite forallb_forall in H.
  specialize (H x (proj1 (list_elem_of_In _ _) Hx)). unfold byte_ok. change (2 ^ 8) with 256. lia.
Qed.

Lemma ex_on_disk : on_disk (toy_sect ex_toy) ex_file.
Proof.
  exists 10%nat. split; [by vm_compute|]. split; [lia|]. split; [by apply bytes_check, ex_bytes|].
  intros i Hi. unfold toy_sect. rewrite (proj2 (Z.leb_le _ _)) by lia.
  replace (Z.to_nat (Z.of_nat i + 1)) with (Datatypes.S i) by lia.
  change (((λ i, slice (512 * i) 512 ex_file) <$> seq 0 10) !! i = Some (slice (512 * i) 512 ex_file)).
  by rewrite list_lookup_fmap, lookup_seq_lt.
Qed.

Lemma ex_kernel_file : kernel_file ex_file 0x13000.
Proof.
  assert (phdrs ex_file = [ex_phdr 4100 0x11010 600 700; ex_phdr 4800 0x11400 100 300]) as E by (vm_compute; reflexivity).
  split; [by vm_compute..| |].
  - rewrite E. repeat constructor; try (by vm_compute); by apply bytes_check; vm_compute.
  - rewrite E. repeat constructor. by vm_compute.
Qed.

Lemma bootmain_correct_witness :
  ∃ m d, bootmain 3 (Mach ex_ram ex_toy) = Ok (Some 0x11010) (Mach m d) ∧
    Forall (loaded ex_file m) (phdrs ex_file) ∧ ∀ b, b < 0x10000 → m !! b = ex_ram !! b.
Proof.
  apply (bootmain_correct 3 (toy_sect ex_toy) ex_file 0x13000);
    [apply ex_on_disk|exact (le_n 3)|unfold SECTSIZE; lia| |apply ex_phys_ok|apply ex_kernel_file].
  exists ∅, []. split; [reflexivity|exact (le_S _ _ (le_n 1))].
Defined.

End Example.
