(* ===== verification/Mmu.v ===== *)
(** * Addresses (memlayout.h, mmu.h) *)

From S2P Require Import Prelude.

Definition EXTMEM : Z := 0x100000.
Definition PHYSTOP : Z := 0xE000000.
Definition DEVSPACE : Z := 0xFE000000.
Definition KERNBASE : Z := 0x80000000.
Definition KERNLINK : Z := KERNBASE + EXTMEM.

Definition V2P (a : Z) : Z := u32 (a - KERNBASE).
Definition P2V (a : Z) : Z := u32 (a + KERNBASE).

Definition NPDENTRIES : Z := 1024.
Definition NPTENTRIES : Z := 1024.
Definition PGSIZE : Z := 4096.
Definition PGSIZE_n : nat := Z.to_nat PGSIZE.
Definition PTXSHIFT : Z := 12.
Definition PDXSHIFT : Z := 22.

Definition PDX (va : Z) : Z := Z.land (Z.shiftr (u32 va) PDXSHIFT) 0x3FF.
Definition PTX (va : Z) : Z := Z.land (Z.shiftr (u32 va) PTXSHIFT) 0x3FF.
Definition PGADDR (d t o : Z) : Z := u32 (Z.lor (Z.lor (Z.shiftl d PDXSHIFT) (Z.shiftl t PTXSHIFT)) o).
Definition PGROUNDUP (sz : Z) : Z := Z.land (u32 (sz + PGSIZE - 1)) (Z.lnot (PGSIZE - 1)).
Definition PGROUNDDOWN (a : Z) : Z := Z.land (u32 a) (Z.lnot (PGSIZE - 1)).

Definition PTE_P : Z := 1.
Definition PTE_W : Z := 2.
Definition PTE_U : Z := 4.
Definition PTE_ADDR (pte : Z) : Z := Z.land (u32 pte) (Z.lnot 0xFFF).
Definition PTE_FLAGS (pte : Z) : Z := Z.land (u32 pte) 0xFFF.

(** ** Arithmetic of the macros *)

Lemma land_round x k : 0 ≤ k → Z.land x (Z.lnot (2 ^ k - 1)) = x - x `mod` 2 ^ k.
Proof.
  intros Hk. rewrite <- Z.ldiff_land. replace (2 ^ k - 1) with (Z.ones k) by (rewrite Z.ones_equiv; lia).
  rewrite Z.ldiff_ones_r, Z.shiftr_div_pow2, Z.shiftl_mul_pow2 by done.
  pose proof (Z.div_mod x (2 ^ k)). lia.
Qed.

Lemma PGROUNDDOWN_eq a : 0 ≤ a < 2 ^ 32 → PGROUNDDOWN a = a - a `mod` PGSIZE.
Proof. intros. unfold PGROUNDDOWN. rewrite u32_small by done. apply (land_round a 12). lia. Qed.

Lemma PGROUNDUP_eq a :
  0 ≤ a ≤ 2 ^ 32 - PGSIZE → PGROUNDUP a = (a + PGSIZE - 1) - (a + PGSIZE - 1) `mod` PGSIZE.
Proof.
  intros. unfold PGROUNDUP, PGSIZE in *. rewrite u32_small by lia. apply (land_round _ 12). lia.
Qed.

Lemma PGROUNDUP_spec a :
  0 ≤ a ≤ 2 ^ 32 - PGSIZE →
  a ≤ PGROUNDUP a < a + PGSIZE ∧ PGROUNDUP a `mod` PGSIZE = 0.
Proof.
  intros H. rewrite PGROUNDUP_eq by done. unfold PGSIZE in *.
  Z.div_mod_to_equations. lia.
Qed.

Lemma PTE_split pte :
  0 ≤ pte < 2 ^ 32 → PTE_ADDR pte + PTE_FLAGS pte = pte ∧ PTE_ADDR pte `mod` PGSIZE = 0 ∧
    0 ≤ PTE_FLAGS pte < PGSIZE ∧ 0 ≤ PTE_ADDR pte < 2 ^ 32.
Proof.
  intros H. unfold PTE_ADDR, PTE_FLAGS. rewrite u32_small by done.
  change 0xFFF with (2 ^ 12 - 1). rewrite land_round by lia.
  change (2 ^ 12 - 1) with (Z.ones 12). rewrite Z.land_ones by lia. change (2 ^ 12) with PGSIZE.
  unfold PGSIZE in *. Z.div_mod_to_equations. lia.
Qed.

(** A page address combined with flags gives both back. *)
Lemma PTE_make pa perm :
  0 ≤ pa < 2 ^ 32 → pa `mod` PGSIZE = 0 → 0 ≤ perm < PGSIZE →
  Z.lor pa perm = pa + perm ∧ PTE_ADDR (Z.lor pa perm) = pa ∧ PTE_FLAGS (Z.lor pa perm) = perm.
Proof.
  intros Hpa Ha Hp. assert (Z.lor pa perm = pa + perm) as E.
  { symmetry.
    rewrite <- (Z.lxor_lor pa perm); [apply Z.add_nocarry_lxor|];
      apply Z.bits_inj_0; intros n; rewrite Z.land_spec.
    all: destruct (decide (n < 12));
      [rewrite <- (Z.mod_pow2_bits_low pa 12 n) by lia; by rewrite (Ha : pa `mod` 2 ^ 12 = 0), Z.testbit_0_l
      |rewrite <- (Z.mod_small perm (2 ^ 12)) by (unfold PGSIZE in Hp; lia);
       rewrite Z.mod_pow2_bits_high by lia; by rewrite andb_false_r]. }
  rewrite E. split; [done|].
  destruct (PTE_split (pa + perm)) as (E1 & E2 & E3 & E4); [unfold PGSIZE in *; Z.div_mod_to_equations; lia|].
  unfold PGSIZE in *. Z.div_mod_to_equations. lia.
Qed.

Lemma V2P_P2V a : 0 ≤ a < 2 ^ 32 → V2P (P2V a) = a.
Proof. intros. unfold V2P, P2V, u32, KERNBASE. Z.div_mod_to_equations. lia. Qed.
Lemma P2V_V2P a : 0 ≤ a < 2 ^ 32 → P2V (V2P a) = a.
Proof. intros. unfold V2P, P2V, u32, KERNBASE. Z.div_mod_to_equations. lia. Qed.

Lemma shiftr_land_10 a k : 0 ≤ k → 0 ≤ a → Z.land (Z.shiftr a k) 0x3FF = (a `div` 2 ^ k) `mod` 1024.
Proof.
  intros Hk Ha. change 0x3FF with (Z.ones 10). rewrite Z.land_ones by lia.
  by rewrite Z.shiftr_div_pow2.
Qed.

Lemma PDX_eq va : 0 ≤ va < 2 ^ 32 → PDX va = va `div` 2 ^ 22.
Proof.
  intros. unfold PDX, PDXSHIFT. rewrite u32_small, shiftr_land_10 by lia.
  apply Z.mod_small. Z.div_mod_to_equations. lia.
Qed.

Lemma PTX_eq va : 0 ≤ va < 2 ^ 32 → PTX va = (va `div` 2 ^ 12) `mod` 1024.
Proof. intros. unfold PTX, PTXSHIFT. by rewrite u32_small, shiftr_land_10 by lia. Qed.

Lemma PDX_range va : 0 ≤ va < 2 ^ 32 → 0 ≤ PDX va < 1024.
Proof. intros. rewrite PDX_eq by done. Z.div_mod_to_equations. lia. Qed.
Lemma PTX_range va : 0 ≤ va < 2 ^ 32 → 0 ≤ PTX va < 1024.
Proof. intros. rewrite PTX_eq by done. Z.div_mod_to_equations. lia. Qed.

(** The indices determine the page. *)
Lemma PDX_PTX_inj a b :
  0 ≤ a < 2 ^ 32 → 0 ≤ b < 2 ^ 32 → a `mod` PGSIZE = 0 → b `mod` PGSIZE = 0 →
  PDX a = PDX b → PTX a = PTX b → a = b.
Proof.
  intros Ha Hb Ma Mb. rewrite !PDX_eq, !PTX_eq by done. unfold PGSIZE in *.
  Z.div_mod_to_equations. lia.
Qed.
