(* ===== verification/Kalloc.v ===== *)
(** * Physical page allocator (kalloc.c)

    The free list is threaded through the free pages themselves: the first
    word of a free page points to the next one.  [kmem_ok] relates it to the
    list of the free pages, and [step] is the behaviour of a kernel that frees
    only pages it holds. *)

From S2P Require Import Prelude Mem Str Mmu.

(** [kmem] and the memory it manages; [use_lock] decides whether the lock is
    taken, which a sequential run does not see. *)
Record kstate := KState { use_lock : Z; freelist : Z; ram : mem }.

Definition set_ram (m : mem) (s : kstate) : kstate := KState (use_lock s) (freelist s) m.
Definition on_ram {A} (x : M mem A) : M kstate A := zoom ram set_ram x.

Section kalloc.
(** [end]: the first address after the kernel, from the linker. *)
Context (end_ : Z).

Definition kfree (v : Z) : M kstate unit :=
  if negb (u32 v `mod` PGSIZE =? 0) || (v <? end_) || (PHYSTOP <=? V2P v) then panic "kfree"
  else
    on_ram (Kern.memset v 1 PGSIZE);;
    fl ← gets freelist;
    on_ram (store32 v fl);;
    modify (λ s, KState (use_lock s) v (ram s)).

Definition kalloc : M kstate Z :=
  r ← gets freelist;
  (if r =? 0 then mret tt
   else
     next ← on_ram (load32 r);
     modify (λ s, KState (use_lock s) next (ram s)));;
  mret r.

(** for(; p + PGSIZE <= (char* )vend; p += PGSIZE) kfree(p); *)
Fixpoint freerange_loop (fuel : nat) (p vend : Z) : M kstate unit :=
  match fuel with
  | O => nofuel
  | S fuel =>
      if p + PGSIZE <=? vend then kfree p;; freerange_loop fuel (p + PGSIZE) vend
      else mret tt
  end.

(** One more turn than there are whole pages. *)
Definition freerange (vstart vend : Z) : M kstate unit :=
  let p := PGROUNDUP vstart in
  freerange_loop (S (Z.to_nat ((vend - p) `div` PGSIZE))) p vend.

Definition kinit1 (vstart vend : Z) : M kstate unit :=
  modify (λ s, KState 0 (freelist s) (ram s));; freerange vstart vend.

Definition kinit2 (vstart vend : Z) : M kstate unit :=
  freerange vstart vend;; modify (λ s, KState 1 (freelist s) (ram s)).

(** ** The invariant *)

(** A page that may be allocated. *)
Definition page_ok (p : Z) : Prop :=
  p `mod` PGSIZE = 0 ∧ end_ ≤ p ∧ KERNBASE ≤ p < KERNBASE + PHYSTOP.

(** [p] is the first of the pages [l], linked through their first words. *)
Fixpoint linked (m : mem) (p : Z) (l : list Z) : Prop :=
  match l with
  | [] => p = 0
  | q :: l => p = q ∧ ∃ next, get32 m q = Some next ∧ linked m next l
  end.

Record kmem_ok (s : kstate) (fl : list Z) : Prop := KmemOk {
  ko_linked : linked (ram s) (freelist s) fl;
  ko_nodup : NoDup fl;
  ko_pages : Forall page_ok fl;
  ko_mapped p : page_ok p → mapped (ram s) p PGSIZE_n;
}.

(** The bytes of the page [p]. *)
Definition in_page (p a : Z) : Prop := p ≤ a < p + PGSIZE.

Lemma page_disjoint p q a : page_ok p → page_ok q → in_page p a → in_page q a → p = q.
Proof.
  intros (Hp & _) (Hq & _). unfold in_page, PGSIZE in *. intros. Z.div_mod_to_equations. lia.
Qed.

Lemma page_ok_range p : page_ok p → 0 < p < 2 ^ 32 ∧ p + PGSIZE ≤ 2 ^ 32 ∧ V2P p < PHYSTOP.
Proof.
  intros (Hm & _ & Hr). unfold V2P, KERNBASE, PHYSTOP, PGSIZE in *.
  rewrite u32_small by lia. lia.
Qed.

(** Writing outside the free pages does not disturb the list. *)
Lemma linked_ext m m' p l :
  (∀ q a, q ∈ l → in_page q a → m' !! a = m !! a) → linked m p l → linked m' p l.
Proof.
  revert p. induction l as [|q l IH]; intros p H; [done|]. intros [-> (next & E & Hl)].
  split; [done|]. exists next. split.
  - rewrite <- E. apply get32_ext. intros i Hi. apply (H q); [set_solver|].
    unfold in_page, PGSIZE. lia.
  - apply IH; [|done]. intros q' a Hq'. apply H. set_solver.
Qed.

Lemma kmem_ok_ram s fl m :
  kmem_ok s fl → (∀ q a, q ∈ fl → in_page q a → m !! a = ram s !! a) →
  (∀ a, is_Some (ram s !! a) → is_Some (m !! a)) → kmem_ok (set_ram m s) fl.
Proof.
  intros [] Hm Hd. split; simpl; try done.
  - by eapply linked_ext.
  - intros p Hp i Hi. by apply Hd, ko_mapped0.
Qed.

(** ** The operations *)

Lemma on_ram_ok {A} (x : M mem A) s a m : x (ram s) = Ok a m → on_ram x s = Ok a (set_ram m s).
Proof. intros H. unfold on_ram, zoom. by rewrite H. Qed.

(** What a page holds after [kfree]: the link, and ones. *)
Definition junk_page (next : Z) : list Z := le_bytes 4 next ++ replicate (PGSIZE_n - 4) 1.

Lemma put_junk v next m :
  put_bytes v (le_bytes 4 next) (put_bytes v (replicate PGSIZE_n 1) m) =
    put_bytes v (junk_page next) m.
Proof.
  apply map_eq. intros a. unfold junk_page. rewrite !lookup_put_bytes.
  rewrite length_app, !length_replicate, !length_le_bytes.
  assert (4 ≤ PGSIZE_n)%nat by (unfold PGSIZE_n, PGSIZE; lia).
  destruct (decide (v ≤ a < v + Z.of_nat 4)).
  - rewrite decide_True by lia. rewrite lookup_app_l; [done|]. rewrite length_le_bytes. lia.
  - destruct (decide (v ≤ a < v + Z.of_nat PGSIZE_n)).
    + rewrite decide_True by lia. rewrite lookup_app_r by (rewrite length_le_bytes; lia).
      rewrite length_le_bytes. rewrite !lookup_replicate_2 by lia. done.
    + by rewrite decide_False by lia.
Qed.

Lemma length_junk next : length (junk_page next) = PGSIZE_n.
Proof. unfold junk_page. rewrite length_app, length_le_bytes, length_replicate. unfold PGSIZE_n, PGSIZE. lia. Qed.

(** [kfree] puts a page at the head of the free list. *)
Lemma kfree_ok s fl v :
  kmem_ok s fl → page_ok v → v ∉ fl →
  ∃ m, kfree v s = Ok tt (KState (use_lock s) v m) ∧ kmem_ok (KState (use_lock s) v m) (v :: fl) ∧
    m = put_bytes v (junk_page (freelist s)) (ram s).
Proof.
  intros Hk Hv Hn. pose proof (page_ok_range v Hv) as (Hr & Hr2 & Hphys). pose proof Hv as (Hm & He & _).
  eexists. split; [|split; [|reflexivity]].
  - unfold kfree. rewrite u32_small, Hm by lia.
    destruct (Z.ltb_spec v end_); [lia|]. destruct (Z.leb_spec PHYSTOP (V2P v)); [lia|].
    cbn [Z.eqb negb orb].
    erewrite bind_ok.
    2: { apply on_ram_ok. apply memset_ok; [done|]. by apply (ko_mapped _ _ Hk). }
    change (Z.to_nat PGSIZE) with PGSIZE_n. change (u8 1) with 1.
    unfold gets at 1. unfold mbind at 1, M_bind at 1. cbn [freelist set_ram ram].
    erewrite bind_ok.
    2: { apply on_ram_ok. apply store32_ok. apply mapped_put.
         pose proof (ko_mapped _ _ Hk v Hv) as Hmap. intros i Hi. apply Hmap. unfold PGSIZE_n, PGSIZE. lia. }
    cbn [ram set_ram]. rewrite put_junk. done.
  - split; cbn [ram freelist].
    + split; [done|]. exists (freelist s). split.
      * unfold junk_page. rewrite put_bytes_app, get32_put_eq, u32_small; [done|].
        pose proof (ko_linked _ _ Hk) as Hl. destruct fl as [|q fl]; simpl in Hl; [lia|].
        destruct Hl as [-> _]. pose proof (ko_pages _ _ Hk) as [Hq _]%Forall_cons.
        apply page_ok_range in Hq. lia.
      * eapply linked_ext; [|apply (ko_linked _ _ Hk)]. intros q a Hq Ha.
        apply lookup_put_bytes_ne. rewrite length_junk.
        intros Hin. assert (q = v) as ->; [|done]. apply (page_disjoint q v a); try done.
        { pose proof (ko_pages _ _ Hk) as Hp. rewrite Forall_forall in Hp. by apply Hp. }
    + constructor; [done|apply Hk].
    + constructor; [done|apply Hk].
    + intros p Hp. apply mapped_put. by apply (ko_mapped _ _ Hk).
Qed.

(** [kalloc] takes the head of the free list, or returns 0. *)
Lemma kalloc_ok s fl :
  kmem_ok s fl →
  match fl with
  | [] => kalloc s = Ok 0 s
  | p :: fl' => ∃ next, kalloc s = Ok p (KState (use_lock s) next (ram s)) ∧
      kmem_ok (KState (use_lock s) next (ram s)) fl'
  end.
Proof.
  intros [Hl Hnd Hp Hm]. destruct fl as [|p fl]; simpl in Hl.
  - unfold kalloc. unfold gets at 1. unfold mbind, M_bind. by rewrite Hl.
  - destruct Hl as [E (next & En & Hl)]. apply Forall_cons in Hp as [Hp Hfl].
    apply NoDup_cons in Hnd as [Hn Hnd]. exists next. split.
    + unfold kalloc. unfold gets at 1. unfold mbind at 1, M_bind at 1. rewrite E.
      pose proof (page_ok_range p Hp). destruct (Z.eqb_spec p 0); [lia|].
      rewrite bind_assoc. erewrite bind_ok by (apply on_ram_ok, load32_ok; exact En).
      by destruct s.
    + by split.
Qed.

(** The whole pages from [p] up to [vend]. *)
Definition pages_from (p vend : Z) : list Z :=
  (λ i, p + PGSIZE * i) <$> seqZ 0 ((vend - p) `div` PGSIZE).

Lemma pages_from_cons p vend :
  p + PGSIZE ≤ vend → pages_from p vend = p :: pages_from (p + PGSIZE) vend.
Proof.
  intros H. unfold pages_from.
  assert ((vend - p) `div` PGSIZE = (vend - (p + PGSIZE)) `div` PGSIZE + 1) as ->.
  { replace (vend - p) with (vend - (p + PGSIZE) + 1 * PGSIZE) by lia. by rewrite Z.div_add. }
  assert (0 ≤ (vend - (p + PGSIZE)) `div` PGSIZE) as Hn by (apply Z.div_pos; unfold PGSIZE in *; lia).
  rewrite (seqZ_cons 0) by lia. rewrite fmap_cons, Z.mul_0_r, Z.add_0_r. f_equal.
  set (k := (vend - (p + PGSIZE)) `div` PGSIZE) in *.
  replace (Z.pred (k + 1)) with k by lia.
  rewrite <- (fmap_add_seqZ 1 0), <- list_fmap_compose. apply list_fmap_ext.
  intros ? i _. simpl. lia.
Qed.

Lemma pages_from_nil p vend : vend < p + PGSIZE → pages_from p vend = [].
Proof.
  intros H. unfold pages_from. rewrite seqZ_nil; [done|]. unfold PGSIZE in *.
  Z.div_mod_to_equations. lia.
Qed.

Lemma elem_of_pages_from p vend q : q ∈ pages_from p vend → p ≤ q < vend.
Proof.
  unfold pages_from. intros (i & -> & Hi%elem_of_seqZ)%list_elem_of_fmap.
  unfold PGSIZE in *. Z.div_mod_to_equations. lia.
Qed.

Lemma freerange_loop_ok fuel s fl p vend :
  kmem_ok s fl → Forall page_ok (pages_from p vend) →
  (∀ q, q ∈ pages_from p vend → q ∉ fl) → (length (pages_from p vend) < fuel)%nat →
  ∃ s', freerange_loop fuel p vend s = Ok tt s' ∧ use_lock s' = use_lock s ∧
    kmem_ok s' (reverse (pages_from p vend) ++ fl).
Proof.
  revert s fl p. induction fuel as [|fuel IH]; intros s fl p Hk Hp Hn Hf; [lia|].
  cbn [freerange_loop]. destruct (Z.leb_spec (p + PGSIZE) vend) as [Hle|Hgt].
  - rewrite pages_from_cons in * by done. apply Forall_cons in Hp as [Hp Hps].
    destruct (kfree_ok s fl p Hk Hp (Hn p ltac:(set_solver))) as (m & E & Hk' & _).
    mstep E. destruct (IH _ (p :: fl) (p + PGSIZE) Hk' Hps) as (s' & E' & Hul & Hk'').
    + intros q Hq [->|Hq']%elem_of_cons; [|by apply (Hn q); [set_solver|]].
      apply elem_of_pages_from in Hq. unfold PGSIZE in Hq. lia.
    + simpl in Hf. lia.
    + exists s'. split; [done|]. split; [done|]. by rewrite reverse_cons, <- app_assoc.
  - rewrite pages_from_nil by done. eauto.
Qed.
End kalloc.

(** ** The allocator at work *)

Section system.
Context (end_ : Z).

(** The allocator with the pages that the rest of the kernel holds. *)
Record kconf := KConf { kc_s : kstate; kc_held : gset Z }.

Inductive kstep : kconf → kconf → Prop :=
| kstep_alloc s s' p held :
    kalloc s = Ok p s' → p ≠ 0 → kstep (KConf s held) (KConf s' ({[p]} ∪ held))
| kstep_alloc_none s s' held : kalloc s = Ok 0 s' → kstep (KConf s held) (KConf s' held)
| kstep_free s s' p held :
    p ∈ held → kfree end_ p s = Ok tt s' → kstep (KConf s held) (KConf s' (held ∖ {[p]}))
| kstep_write s p a x held :
    p ∈ held → in_page p a →
    kstep (KConf s held) (KConf (set_ram (<[a := u8 x]> (ram s)) s) held).

(** A freshly initialised allocator with the free pages [ps]. *)
Definition kinitial (ps : gset Z) (c : kconf) : Prop :=
  kc_held c = ∅ ∧ ∃ fl, kmem_ok end_ (kc_s c) fl ∧ list_to_set fl = ps.

Definition kreachable (ps : gset Z) (c : kconf) : Prop := ∃ c0, kinitial ps c0 ∧ rtc kstep c0 c.

(** Every page is either free or held, never both. *)
Definition kinv (ps : gset Z) (c : kconf) : Prop :=
  ∃ fl, kmem_ok end_ (kc_s c) fl ∧ kc_held c ## list_to_set fl ∧
    kc_held c ∪ list_to_set fl = ps ∧ ∀ p, p ∈ kc_held c → page_ok end_ p.

Lemma kstep_inv ps c c' : kstep c c' → kinv ps c → kinv ps c'.
Proof.
  intros Hs (fl & Hk & Hdis & Hall & Hpg). destruct Hs as [s s' p held E Hp|s s' held E|s s' p held Hin E|s p a x held Hin Ha];
    simpl in *.
  - pose proof (kalloc_ok end_ _ _ Hk) as Ha. destruct fl as [|q fl]; [congruence|].
    destruct Ha as (next & E' & Hk'). rewrite E in E'. injection E' as -> ->.
    pose proof (ko_nodup _ _ _ Hk) as [? _]%NoDup_cons. pose proof (ko_pages _ _ _ Hk) as [? _]%Forall_cons.
    exists fl. split; [done|]. simpl in *. set_solver.
  - pose proof (kalloc_ok end_ _ _ Hk) as Ha. destruct fl as [|q fl].
    + rewrite E in Ha. injection Ha as ->. by exists [].
    + destruct Ha as (next & E' & Hk'). rewrite E in E'. injection E' as E0 _.
      pose proof (ko_pages _ _ _ Hk) as [Hq _]%Forall_cons. apply page_ok_range in Hq. lia.
  - destruct (kfree_ok end_ s fl p Hk (Hpg p Hin)) as (m & E' & Hk' & _); [set_solver|].
    rewrite E in E'. injection E' as ->. exists (p :: fl). split; [done|]. simpl.
    split; [set_solver|]. split; [|set_solver]. rewrite <- Hall. apply set_eq. intros q.
    destruct (decide (q = p)); set_solver.
  - exists fl. split; [|done]. apply kmem_ok_ram; [done|..].
    + intros q b Hq Hb. apply lookup_insert_ne. intros <-.
      assert (page_ok end_ q) as Hqo.
      { pose proof (ko_pages _ _ _ Hk) as Hps. rewrite Forall_forall in Hps. by apply Hps. }
      assert (p = q) as -> by (by eapply page_disjoint; eauto). set_solver.
    + intros b [y Hb]. destruct (decide (a = b)) as [->|];
        [rewrite lookup_insert_eq|rewrite lookup_insert_ne by done]; eauto.
Qed.

Lemma kreachable_inv ps c : kreachable ps c → kinv ps c.
Proof.
  intros (c0 & (Hh & fl & Hk & Hfl) & Hr).
  assert (kinv ps c0) as Hi.
  { exists fl. rewrite Hh. split; [done|]. set_solver. }
  clear Hh Hk Hfl fl. induction Hr; eauto using kstep_inv.
Qed.

(** C21: [kalloc] never hands out a page twice.  After any sequence of
    allocations, frees and writes into held pages, it returns a page of the
    pool that nobody holds, without touching memory, and returns 0 only when
    every page of the pool is held. *)
Theorem kalloc_fresh ps s held :
  kreachable ps (KConf s held) →
  ∃ p s', kalloc s = Ok p s' ∧ ram s' = ram s ∧
    (p = 0 ∧ held = ps ∨ p ≠ 0 ∧ page_ok end_ p ∧ p ∈ ps ∧ p ∉ held).
Proof.
  intros (fl & Hk & Hdis & Hall & Hpg)%kreachable_inv. simpl in *.
  pose proof (kalloc_ok end_ _ _ Hk) as Ha. destruct fl as [|p fl].
  - exists 0, s. split; [done|]. split; [done|]. left. simpl in Hall. set_solver.
  - destruct Ha as (next & E & Hk'). eexists p, _. split; [exact E|]. split; [done|]. right.
    pose proof (ko_pages _ _ _ Hk) as [Hp _]%Forall_cons. simpl in *.
    split; [apply page_ok_range in Hp; lia|]. split; [done|]. set_solver.
Qed.

(** [kfree] of a held page returns, makes the page the next one that
    [kalloc] gives out, and changes no byte outside it; for an address that
    is not a page the allocator manages it panics. *)
Theorem kfree_returns_page ps s held p :
  kreachable ps (KConf s held) → 0 ≤ p < 2 ^ 32 →
  (p ∈ held → ∃ s' s'', kfree end_ p s = Ok tt s' ∧ kalloc s' = Ok p s'' ∧
     ∀ a, ¬ in_page p a → ram s' !! a = ram s !! a) ∧
  (p `mod` PGSIZE ≠ 0 ∨ p < end_ ∨ PHYSTOP ≤ V2P p → kfree end_ p s = Panic "kfree").
Proof.
  intros (fl & Hk & Hdis & Hall & Hpg)%kreachable_inv Hr. simpl in *. split.
  - intros Hin. destruct (kfree_ok end_ s fl p Hk (Hpg p Hin)) as (m & E & Hk' & ->); [set_solver|].
    destruct (kalloc_ok end_ _ _ Hk') as (next & E' & _). eexists _, _.
    split; [exact E|]. split; [exact E'|]. intros a Ha. apply lookup_put_bytes_ne.
    rewrite length_junk. exact Ha.
  - intros Hbad. unfold kfree. rewrite u32_small by done.
    destruct (Z.eqb_spec (p `mod` PGSIZE) 0), (Z.ltb_spec p end_), (Z.leb_spec PHYSTOP (V2P p)); try done.
    lia.
Qed.

(** [kinit1] on a range of free memory returns, and puts exactly the
    whole pages of the range on the free list. *)
Theorem kinit1_initial s vstart vend :
  kmem_ok end_ s [] → 0 ≤ vstart ≤ 2 ^ 32 - PGSIZE → end_ ≤ vstart → KERNBASE ≤ vstart →
  vend ≤ KERNBASE + PHYSTOP →
  ∃ s', kinit1 end_ vstart vend s = Ok tt s' ∧
    kinitial (list_to_set (pages_from (PGROUNDUP vstart) vend)) (KConf s' ∅) ∧
    ∀ p, p ∈ pages_from (PGROUNDUP vstart) vend ↔
      p `mod` PGSIZE = 0 ∧ vstart ≤ p ∧ p + PGSIZE ≤ vend.
Proof.
  intros Hk Hv He Hkb Hend. destruct (PGROUNDUP_spec vstart Hv) as [Hup Hal].
  set (p0 := PGROUNDUP vstart) in *.
  assert (∀ p, p ∈ pages_from p0 vend ↔ p `mod` PGSIZE = 0 ∧ vstart ≤ p ∧ p + PGSIZE ≤ vend) as Hpages.
  { intros p. unfold pages_from. rewrite list_elem_of_fmap. setoid_rewrite elem_of_seqZ. split.
    - intros (i & -> & Hi). unfold PGSIZE in *. Z.div_mod_to_equations. lia.
    - intros (Hm & Hlo & Hhi). exists ((p - p0) `div` PGSIZE). unfold PGSIZE in *.
      Z.div_mod_to_equations. lia. }
  assert (Forall (page_ok end_) (pages_from p0 vend)) as Hok.
  { apply Forall_forall. intros p (Hm & Hlo & Hhi)%Hpages. unfold page_ok. split; [done|].
    unfold PGSIZE, KERNBASE, PHYSTOP in *. lia. }
  assert (kmem_ok end_ (KState 0 (freelist s) (ram s)) []) as Hk0 by (by destruct Hk; split).
  destruct (freerange_loop_ok end_ (S (Z.to_nat ((vend - p0) `div` PGSIZE))) _ [] p0 vend Hk0 Hok)
    as (s' & E & _ & Hk'); [set_solver| |].
  { unfold pages_from. rewrite length_fmap, length_seqZ. lia. }
  exists s'. split; [|split; [|done]].
  - unfold kinit1. unfold modify at 1, mbind at 1, M_bind at 1. exact E.
  - split; [done|]. rewrite app_nil_r in Hk'. exists (reverse (pages_from p0 vend)).
    split; [done|]. apply set_eq. intros p. by rewrite !elem_of_list_to_set, elem_of_reverse.
Qed.
End system.

(** ** Two pages of memory *)

Definition ex_end : Z := KERNBASE + PHYSTOP - 2 * PGSIZE.
Definition ex_kstate : kstate := KState 0 0 (put_bytes ex_end (replicate (PGSIZE_n + PGSIZE_n) 0) ∅).

Lemma ex_kstate_ok : kmem_ok ex_end ex_kstate [].
Proof.
  split; [done|constructor|constructor|]. intros p (Hm & He & Hr). cbn [ram ex_kstate].
  pose proof (bytes_at_mapped _ _ _ (bytes_at_put ex_end (replicate (PGSIZE_n + PGSIZE_n) 0) ∅)) as H.
  rewrite length_replicate in H. apply mapped_app in H as [H1 H2].
  assert (p = ex_end ∨ p = ex_end + Z.of_nat PGSIZE_n) as [->| ->];
    [|exact H1|exact H2].
  unfold ex_end, PGSIZE_n, KERNBASE, PHYSTOP, PGSIZE in *. Z.div_mod_to_equations. lia.
Qed.

Lemma kinit1_initial_witness : ∃ s', kinit1 ex_end (ex_end + 1) (ex_end + 2 * PGSIZE) ex_kstate = Ok tt s' ∧
  kinitial ex_end {[ex_end + PGSIZE]} (KConf s' ∅).
Proof.
  destruct (kinit1_initial ex_end ex_kstate (ex_end + 1) (ex_end + 2 * PGSIZE))
    as (s' & E & Hi & _); [apply ex_kstate_ok|vm_compute; intuition congruence..|].
  exists s'. split; [exact E|]. exact Hi.
Defined.

Lemma ex_page : page_ok ex_end ex_end.
Proof. split; [done|]. vm_compute. intuition congruence. Qed.

(** The first page in the pool. *)
Lemma ex_pool : ∃ s, kreachable ex_end {[ex_end]} (KConf s ∅).
Proof.
  destruct (kfree_ok ex_end ex_kstate [] ex_end ex_kstate_ok ex_page) as (m & _ & Hk & _);
    [apply not_elem_of_nil|].
  eexists. eexists. split; [|apply rtc_refl]. split; [done|]. exists [ex_end].
  split; [exact Hk|]. simpl. set_solver.
Qed.

Lemma kalloc_fresh_witness :
  ∃ s p s', kalloc s = Ok p s' ∧ p ≠ 0 ∧ page_ok ex_end p.
Proof.
  destruct ex_pool as (s & Hr).
  destruct (kalloc_fresh ex_end {[ex_end]} s ∅ Hr) as (p & s' & E & _ & [[_ H]|(H & Hp & _)]).
  - exfalso. assert (ex_end ∈ (∅ : gset Z)) by (rewrite H; set_solver). set_solver.
  - exists s, p, s'. split; [exact E|]. split; [exact H|exact Hp].
Defined.

Lemma kfree_returns_page_witness :
  ∃ s s' s'', kfree ex_end ex_end s = Ok tt s' ∧ kalloc s' = Ok ex_end s'' ∧
    kfree ex_end 1 s = Panic "kfree".
Proof.
  destruct ex_pool as (s & c0 & Hi & Hr).
  assert (∃ s', kreachable ex_end {[ex_end]} (KConf s' {[ex_end]})) as (s1 & Hr1).
  { assert (kinv ex_end {[ex_end]} (KConf s ∅)) as (fl & Hk & _ & Hall & _)
      by (apply kreachable_inv; by exists c0).
    simpl in Hall. rewrite (left_id_L ∅ (∪)) in Hall.
    assert (fl = [ex_end]) as ->.
    { pose proof (ko_nodup _ _ _ Hk). 
      destruct fl as [|x fl]; [set_solver|]. assert (x = ex_end) as -> by set_solver.
      destruct fl as [|y fl]; [done|]. assert (y = ex_end) as -> by set_solver.
      apply NoDup_cons in H as [H _]. set_solver. }
    destruct (kalloc_ok ex_end _ _ Hk) as (next & E & _). eexists. exists c0.
    split; [exact Hi|]. eapply rtc_r; [exact Hr|].
    assert (ex_end ≠ 0) as Hne by (vm_compute; congruence).
    pose proof (kstep_alloc ex_end _ _ _ ∅ E Hne) as Hs. rewrite (right_id_L ∅ (∪)) in Hs. exact Hs. }
  destruct (kfree_returns_page ex_end {[ex_end]} s1 {[ex_end]} ex_end Hr1) as [H _];
    [vm_compute; intuition congruence|].
  destruct (kfree_returns_page ex_end {[ex_end]} s1 {[ex_end]} 1 Hr1) as [_ H'];
    [lia|].
  destruct H as (s' & s'' & E & E' & _); [set_solver|].
  exists s1, s', s''. split; [exact E|]. split; [exact E'|]. apply H'. left. vm_compute. congruence.
Defined.
