(* ===== verification/Vm.v ===== *)
(** * Virtual memory (vm.c)

    Page directories and page tables are words in the memory that kalloc.c
    manages; every routine of vm.c that reads or writes them is here.  The
    routines that load hardware registers (seginit, switchuvm) are in Seg.v;
    the messages that allocuvm prints are left out. *)

From S2P Require Import Prelude Mem Str Mmu Kalloc.

Section vm.
(** [end] and [data]: linker symbols. *)
Context (end_ data_ : Z).

(** &pgdir[PDX(va)] and &pgtab[PTX(va)] *)
Definition pde_addr (pgdir va : Z) : Z := pgdir + 4 * PDX va.
Definition pte_addr (pgtab va : Z) : Z := pgtab + 4 * PTX va.

(** The result 0 is the null pointer. *)
Definition walkpgdir (pgdir va : Z) (alloc : bool) : M kstate Z :=
  pde ← on_ram (load32 (pde_addr pgdir va));
  if negb (Z.land pde PTE_P =? 0) then mret (pte_addr (P2V (PTE_ADDR pde)) va)
  else if negb alloc then mret 0
  else
    pgtab ← kalloc;
    if pgtab =? 0 then mret 0
    else
      on_ram (Kern.memset pgtab 0 PGSIZE);;
      on_ram (store32 (pde_addr pgdir va) (Z.lor (Z.lor (Z.lor (V2P pgtab) PTE_P) PTE_W) PTE_U));;
      mret (pte_addr pgtab va).

Fixpoint mappages_loop (fuel : nat) (pgdir a last pa perm : Z) : M kstate Z :=
  match fuel with
  | O => nofuel
  | S fuel =>
      pte ← walkpgdir pgdir a true;
      if pte =? 0 then mret (-1)
      else
        e ← on_ram (load32 pte);
        if negb (Z.land e PTE_P =? 0) then panic "remap"
        else
          on_ram (store32 pte (Z.lor (Z.lor pa perm) PTE_P));;
          if a =? last then mret 0
          else mappages_loop fuel pgdir (u32 (a + PGSIZE)) last (u32 (pa + PGSIZE)) perm
  end.

(** One turn for each page from [a] to [last]. *)
Definition mappages (pgdir va size pa perm : Z) : M kstate Z :=
  let a := PGROUNDDOWN va in
  let last := PGROUNDDOWN (u32 (va + size - 1)) in
  mappages_loop (S (Z.to_nat (u32 (last - a) `div` PGSIZE))) pgdir a last pa perm.

(** virt, phys_start, phys_end, perm *)
Definition kmap : list (Z * Z * Z * Z) :=
  [(KERNBASE, 0, EXTMEM, PTE_W);
   (KERNLINK, V2P KERNLINK, V2P data_, 0);
   (data_, V2P data_, PHYSTOP, PTE_W);
   (DEVSPACE, DEVSPACE, 0, PTE_W)].

Fixpoint setupkvm_loop (pgdir : Z) (ks : list (Z * Z * Z * Z)) : M kstate Z :=
  match ks with
  | [] => mret pgdir
  | (virt, ps, pe, perm) :: ks =>
      r ← mappages pgdir virt (u32 (pe - ps)) ps perm;
      if r <? 0 then mret 0 else setupkvm_loop pgdir ks
  end.

Definition setupkvm : M kstate Z :=
  pgdir ← kalloc;
  if pgdir =? 0 then mret 0
  else
    on_ram (Kern.memset pgdir 0 PGSIZE);;
    if DEVSPACE <? P2V PHYSTOP then panic "PHYSTOP too high"
    else setupkvm_loop pgdir kmap.

(** [init] is the address of the code to load. *)
Definition inituvm (pgdir init sz : Z) : M kstate unit :=
  if PGSIZE <=? sz then panic "inituvm: more than a page"
  else
    mem ← kalloc;
    on_ram (Kern.memset mem 0 PGSIZE);;
    mappages pgdir 0 PGSIZE (V2P mem) (Z.lor PTE_W PTE_U);;
    on_ram (Kern.memmove mem init sz);;
    mret tt.

(** [readi dst off n] stands for readi(ip, dst, off, n) of fs.c, which works
    on more of the kernel's state than the memory that [lift] embeds. *)
Fixpoint loaduvm_loop {K} (lift : ∀ A, M kstate A → M K A) (readi : Z → Z → Z → M K Z)
    (fuel : nat) (pgdir addr offset sz i : Z) : M K Z :=
  match fuel with
  | O => nofuel
  | S fuel =>
      if i <? sz then
        pte ← lift _ (walkpgdir pgdir (u32 (addr + i)) false);
        if pte =? 0 then panic "loaduvm: address should exist"
        else
          e ← lift _ (on_ram (load32 pte));
          let pa := PTE_ADDR e in
          let n := if u32 (sz - i) <? PGSIZE then u32 (sz - i) else PGSIZE in
          r ← readi (P2V pa) (u32 (offset + i)) n;
          if r =? n then loaduvm_loop lift readi fuel pgdir addr offset sz (u32 (i + PGSIZE))
          else mret (-1)
      else mret 0
  end.

Definition loaduvm {K} (lift : ∀ A, M kstate A → M K A) (readi : Z → Z → Z → M K Z)
    (pgdir addr offset sz : Z) : M K Z :=
  if negb (u32 addr `mod` PGSIZE =? 0) then panic "loaduvm: addr must be page aligned"
  else loaduvm_loop lift readi (S (S (Z.to_nat (sz `div` PGSIZE)))) pgdir addr offset sz 0.

Fixpoint deallocuvm_loop (fuel : nat) (pgdir a oldsz : Z) : M kstate unit :=
  match fuel with
  | O => nofuel
  | S fuel =>
      if a <? oldsz then
        pte ← walkpgdir pgdir a false;
        if pte =? 0 then
          deallocuvm_loop fuel pgdir (u32 (u32 (a + (NPTENTRIES - 1) * PGSIZE) + PGSIZE)) oldsz
        else
          e ← on_ram (load32 pte);
          (if negb (Z.land e PTE_P =? 0) then
             let pa := PTE_ADDR e in
             if pa =? 0 then panic "kfree"
             else kfree end_ (P2V pa);; on_ram (store32 pte 0)
           else mret tt);;
          deallocuvm_loop fuel pgdir (u32 (a + PGSIZE)) oldsz
      else mret tt
  end.

Definition deallocuvm (pgdir oldsz newsz : Z) : M kstate Z :=
  if oldsz <=? newsz then mret oldsz
  else
    deallocuvm_loop (S (S (Z.to_nat (oldsz `div` PGSIZE)))) pgdir (PGROUNDUP newsz) oldsz;;
    mret newsz.

Fixpoint allocuvm_loop (fuel : nat) (pgdir a oldsz newsz : Z) : M kstate Z :=
  match fuel with
  | O => nofuel
  | S fuel =>
      if a <? newsz then
        mem ← kalloc;
        if mem =? 0 then deallocuvm pgdir newsz oldsz;; mret 0
        else
          on_ram (Kern.memset mem 0 PGSIZE);;
          r ← mappages pgdir a PGSIZE (V2P mem) (Z.lor PTE_W PTE_U);
          if r <? 0 then deallocuvm pgdir newsz oldsz;; kfree end_ mem;; mret 0
          else allocuvm_loop fuel pgdir (u32 (a + PGSIZE)) oldsz newsz
      else mret newsz
  end.

Definition allocuvm (pgdir oldsz newsz : Z) : M kstate Z :=
  if KERNBASE <=? newsz then mret 0
  else if newsz <? oldsz then mret oldsz
  else allocuvm_loop (S (S (Z.to_nat (newsz `div` PGSIZE)))) pgdir (PGROUNDUP oldsz) oldsz newsz.

(** The loop of freevm over the directory: [n] entries left, from [i] on. *)
Fixpoint freevm_loop (n : nat) (pgdir i : Z) : M kstate unit :=
  match n with
  | O => mret tt
  | S n =>
      e ← on_ram (load32 (pgdir + 4 * i));
      (if negb (Z.land e PTE_P =? 0) then kfree end_ (P2V (PTE_ADDR e)) else mret tt);;
      freevm_loop n pgdir (i + 1)
  end.

Definition freevm (pgdir : Z) : M kstate unit :=
  if pgdir =? 0 then panic "freevm: no pgdir"
  else
    deallocuvm pgdir KERNBASE 0;;
    freevm_loop (Z.to_nat NPDENTRIES) pgdir 0;;
    kfree end_ pgdir.

Definition clearpteu (pgdir uva : Z) : M kstate unit :=
  pte ← walkpgdir pgdir uva false;
  if pte =? 0 then panic "clearpteu"
  else e ← on_ram (load32 pte); on_ram (store32 pte (Z.land e (Z.lnot PTE_U))).

Fixpoint copyuvm_loop (fuel : nat) (pgdir d sz i : Z) : M kstate Z :=
  match fuel with
  | O => nofuel
  | S fuel =>
      if i <? sz then
        pte ← walkpgdir pgdir i false;
        if pte =? 0 then panic "copyuvm: pte should exist"
        else
          e ← on_ram (load32 pte);
          if Z.land e PTE_P =? 0 then panic "copyuvm: page not present"
          else
            mem ← kalloc;
            if mem =? 0 then freevm d;; mret 0
            else
              on_ram (Kern.memmove mem (P2V (PTE_ADDR e)) PGSIZE);;
              r ← mappages d i PGSIZE (V2P mem) (PTE_FLAGS e);
              if r <? 0 then freevm d;; mret 0
              else copyuvm_loop fuel pgdir d sz (u32 (i + PGSIZE))
      else mret d
  end.

Definition copyuvm (pgdir sz : Z) : M kstate Z :=
  d ← setupkvm;
  if d =? 0 then mret 0
  else copyuvm_loop (S (S (Z.to_nat (sz `div` PGSIZE)))) pgdir d sz 0.

Definition uva2ka (pgdir uva : Z) : M kstate Z :=
  pte ← walkpgdir pgdir uva false;
  e ← on_ram (load32 pte);
  if Z.land e PTE_P =? 0 then mret 0
  else if Z.land e PTE_U =? 0 then mret 0
  else mret (P2V (PTE_ADDR e)).

(** [buf] is the bytes still to be copied. *)
Fixpoint copyout_loop (fuel : nat) (pgdir va : Z) (buf : list Z) : M kstate Z :=
  match fuel with
  | O => nofuel
  | S fuel =>
      let len := Z.of_nat (length buf) in
      if 0 <? len then
        let va0 := PGROUNDDOWN va in
        pa0 ← uva2ka pgdir va0;
        if pa0 =? 0 then mret (-1)
        else
          let n := PGSIZE - (va - va0) in
          let n := Z.to_nat (if len <? n then len else n) in
          on_ram (store_bytes (pa0 + (va - va0)) (take n buf));;
          copyout_loop fuel pgdir (u32 (va0 + PGSIZE)) (drop n buf)
      else mret 0
  end.

(** [p] is the [len] bytes at the address that C passes, which lies in the
    kernel's stack or in the memory of the calling process. *)
Definition copyout (pgdir va : Z) (p : list Z) : M kstate Z :=
  copyout_loop (S (length p)) pgdir va p.
End vm.
