(* ===== verification/VmProofs.v ===== *)
(** * Page tables: representation and the lemmas of vm.c

    [mmu] is the walk of the hardware.  [pt_ok] relates a page directory in
    memory to the pages that hold its tables ([tabs], by directory index) and
    to the entries that are present ([ptes], by page address); [vm_ok] adds
    that the allocator does not own those pages, [uvm] that the user part is
    the pages below a size, each backed by a page of its own. *)

From S2P Require Import Prelude Mem Str Mmu Kalloc Vm.

(** ** Bits of an entry *)

Lemma land_P e : (Z.land e PTE_P =? 0) = negb (Z.testbit e 0).
Proof. by apply (land_bit e 0). Qed.
Lemma land_U e : (Z.land e PTE_U =? 0) = negb (Z.testbit e 2).
Proof. by apply (land_bit e 2). Qed.

(** The entry that mappages writes. *)
Definition mkpte (pa perm : Z) : Z := Z.lor (Z.lor pa perm) PTE_P.

(** A page as a physical address, and as an address of the user. *)
Definition frame_ok (a : Z) : Prop := 0 ≤ a < 2 ^ 32 ∧ a `mod` PGSIZE = 0.

Lemma mkpte_ok pa perm :
  frame_ok pa → 0 ≤ perm < PGSIZE →
  u32 (mkpte pa perm) = mkpte pa perm ∧ PTE_ADDR (mkpte pa perm) = pa ∧
  PTE_FLAGS (mkpte pa perm) = Z.lor perm PTE_P ∧ Z.testbit (mkpte pa perm) 0 = true.
Proof.
  intros [Hr Ha] Hp. unfold mkpte. rewrite <- Z.lor_assoc.
  assert (0 ≤ Z.lor perm PTE_P < PGSIZE) as Hp' by (apply (lor_range _ _ 12); unfold PTE_P, PGSIZE in *; lia).
  destruct (PTE_make pa (Z.lor perm PTE_P)) as (E1 & E2 & E3); try done.
  split; [|split; [done|split; [done|]]].
  - apply u32_small. rewrite E1. unfold PGSIZE in *. Z.div_mod_to_equations. lia.
  - rewrite !Z.lor_spec. change (Z.testbit PTE_P 0) with true. by rewrite !orb_true_r.
Qed.

Lemma V2P_frame end_ p : page_ok end_ p → frame_ok (V2P p) ∧ P2V (V2P p) = p.
Proof.
  intros Hp. pose proof (page_ok_range _ _ Hp) as (? & ? & ?). destruct Hp as (Hm & _ & Hr).
  split; [|apply P2V_V2P; lia]. unfold frame_ok, V2P, KERNBASE, PHYSTOP, PGSIZE in *.
  rewrite u32_small by lia. split; [lia|]. Z.div_mod_to_equations. lia.
Qed.

Lemma testbit_flags e k : 0 ≤ k < 12 → Z.testbit (PTE_FLAGS e) k = Z.testbit e k.
Proof.
  intros Hk. unfold PTE_FLAGS. change 0xFFF with (Z.ones 12). rewrite Z.land_spec, Z.testbit_ones_nonneg by lia.
  rewrite (proj2 (Z.ltb_lt k 12)) by lia. rewrite andb_true_r. apply Z.mod_pow2_bits_low. lia.
Qed.

(** The permissions of an entry. *)
Lemma mkpte_bit pa perm k : frame_ok pa → 0 ≤ perm < PGSIZE → 0 < k < 12 → Z.testbit (mkpte pa perm) k = Z.testbit perm k.
Proof.
  intros Hf Hperm Hk. destruct (mkpte_ok _ _ Hf Hperm) as (_ & _ & E & _).
  rewrite <- testbit_flags, E, Z.lor_spec by lia. change PTE_P with (2 ^ 0).
  rewrite Z.pow2_bits_false by lia. by rewrite orb_false_r.
Qed.

(** ** The hardware walk *)

(** The present entry for [va], if there is one. *)
Definition mmu (m : mem) (pgdir va : Z) : option Z :=
  pde ← get32 m (pgdir + 4 * (va `div` 2 ^ 22));
  if Z.testbit pde 0 then
    pte ← get32 m (P2V (PTE_ADDR pde) + 4 * ((va `div` 2 ^ 12) `mod` 1024));
    if Z.testbit pte 0 then Some pte else None
  else None.

(** The kernel's address of the page of an entry. *)
Definition frame (e : Z) : Z := P2V (PTE_ADDR e).

(** The byte that the process sees at [va]. *)
Definition ubyte (m : mem) (pgdir va : Z) : option Z :=
  e ← mmu m pgdir va; m !! (frame e + va `mod` PGSIZE).

(** ** Representation *)

Section rep.
Context (end_ : Z).

(** [p] is the directory or one of its tables. *)
Definition pt_page (pgdir : Z) (tabs : gmap Z Z) (p : Z) : Prop := p = pgdir ∨ ∃ d, tabs !! d = Some p.

Record pt_ok (m : mem) (pgdir : Z) (tabs ptes : gmap Z Z) : Prop := PtOk {
  po_dir : page_ok end_ pgdir;
  po_tab d t : tabs !! d = Some t → 0 ≤ d < 1024 ∧ page_ok end_ t ∧ t ≠ pgdir;
  po_inj d d' t : tabs !! d = Some t → tabs !! d' = Some t → d = d';
  po_pde d : 0 ≤ d < 1024 → ∃ e, get32 m (pgdir + 4 * d) = Some e ∧
    match tabs !! d with
    | Some t => Z.testbit e 0 = true ∧ frame e = t ∧ Z.testbit e 1 = true ∧ Z.testbit e 2 = true
    | None => Z.testbit e 0 = false
    end;
  po_pte va e : ptes !! va = Some e ↔ frame_ok va ∧ ∃ t, tabs !! PDX va = Some t ∧
    get32 m (t + 4 * PTX va) = Some e ∧ Z.testbit e 0 = true;
}.

Record vm_ok (s : kstate) (fl : list Z) (pgdir : Z) (tabs ptes : gmap Z Z) : Prop := VmOk {
  vo_kmem : kmem_ok end_ s fl;
  vo_pt : pt_ok (ram s) pgdir tabs ptes;
  vo_free p : pt_page pgdir tabs p → p ∉ fl;
}.

Lemma pt_page_ok m pgdir tabs ptes p : pt_ok m pgdir tabs ptes → pt_page pgdir tabs p → page_ok end_ p.
Proof. intros Hp [->|[d Hd]]; [apply Hp|]. by apply (po_tab _ _ _ _ Hp d p Hd). Qed.

(** A word of a page. *)
Lemma word_in_page p i k : 0 ≤ i < 1024 → 0 ≤ k < 4 → in_page p (p + 4 * i + k).
Proof. unfold in_page, PGSIZE. lia. Qed.

(** Different words of pages do not overlap. *)
Lemma word_disjoint p q i j :
  page_ok end_ p → page_ok end_ q → 0 ≤ i < 1024 → 0 ≤ j < 1024 → p ≠ q ∨ i ≠ j →
  q + 4 * j + 4 ≤ p + 4 * i ∨ p + 4 * i + 4 ≤ q + 4 * j.
Proof.
  intros (Hp & _) (Hq & _) Hi Hj H. unfold PGSIZE in *. Z.div_mod_to_equations. lia.
Qed.

Lemma word_mapped s fl p i : kmem_ok end_ s fl → page_ok end_ p → 0 ≤ i < 1024 → mapped (ram s) (p + 4 * i) 4.
Proof.
  intros Hk Hp Hi k Hk'. pose proof (ko_mapped _ _ _ Hk p Hp (Z.to_nat (4 * i) + k)%nat) as H.
  replace (p + 4 * i + Z.of_nat k) with (p + Z.of_nat (Z.to_nat (4 * i) + k)) by lia.
  apply H. unfold PGSIZE_n, PGSIZE. lia.
Qed.

(** Only the pages of the tables matter. *)
Lemma pt_ok_ext m m' pgdir tabs ptes :
  (∀ p a, pt_page pgdir tabs p → in_page p a → m' !! a = m !! a) →
  pt_ok m pgdir tabs ptes → pt_ok m' pgdir tabs ptes.
Proof.
  intros H [Hd Ht Hi Hpde Hpte].
  assert (∀ p i, pt_page pgdir tabs p → 0 ≤ i < 1024 → get32 m' (p + 4 * i) = get32 m (p + 4 * i)) as Hw.
  { intros p i Hp Hr. apply get32_ext. intros k Hk. apply (H p); [done|]. by apply word_in_page. }
  split; [done..| |].
  - intros d Hr. rewrite Hw by (done || by left). auto.
  - intros va e. rewrite Hpte. split; intros (Hva & t & Et & E & P); (split; [done|]); exists t;
      (split; [done|]); (rewrite Hw in * || rewrite <- Hw in E); try done;
      try (by right; eauto); by apply PTX_range, Hva.
Qed.

(** The hardware sees the entries of the representation. *)
Lemma mmu_ptes m pgdir tabs ptes va :
  pt_ok m pgdir tabs ptes → 0 ≤ va < 2 ^ 32 → mmu m pgdir va = ptes !! (va - va `mod` PGSIZE).
Proof.
  intros Hp Hva. set (v0 := va - va `mod` PGSIZE).
  assert (frame_ok v0 ∧ va `div` 2 ^ 22 = PDX v0 ∧ (va `div` 2 ^ 12) `mod` 1024 = PTX v0) as (Hv0 & E1 & E2).
  { assert (frame_ok v0) as H by (unfold frame_ok, v0, PGSIZE; Z.div_mod_to_equations; lia).
    split; [done|]. destruct H as [H _]. rewrite PDX_eq, PTX_eq by done. unfold v0, PGSIZE.
    Z.div_mod_to_equations; lia. }
  unfold mmu. rewrite E1, E2.
  destruct (po_pde _ _ _ _ Hp (PDX v0)) as (pde & -> & Hpde); [by apply PDX_range, Hv0|].
  apply option_eq. intros e. rewrite (po_pte _ _ _ _ Hp). cbn [mbind option_bind].
  destruct (tabs !! PDX v0) as [t|] eqn:Et.
  - destruct Hpde as (-> & Hf & _). unfold frame in Hf. rewrite Hf.
    destruct (get32 m (t + 4 * PTX v0)) as [e'|] eqn:Ee; cbn [mbind option_bind].
    + destruct (Z.testbit e' 0) eqn:Eb; split.
      * intros [= ->]. eauto 10.
      * intros (_ & ? & [= <-] & ? & ?). congruence.
      * done.
      * intros (_ & ? & [= <-] & ? & ?). congruence.
    + split; [done|]. intros (_ & ? & [= <-] & ? & ?). congruence.
  - rewrite Hpde. split; [done|]. by intros (_ & ? & [=] & _).
Qed.

(** ** Writing entries *)

(** [m] and [m'] differ only in the pages of the tables. *)
Definition same_but (m m' : mem) (pgdir : Z) (tabs : gmap Z Z) : Prop :=
  ∀ a, (∀ p, pt_page pgdir tabs p → ¬ in_page p a) → m' !! a = m !! a.

Lemma same_but_put m pgdir tabs p i x :
  pt_page pgdir tabs p → 0 ≤ i < 1024 → same_but m (put_bytes (p + 4 * i) (le_bytes 4 x) m) pgdir tabs.
Proof.
  intros Hp Hi a Ha. apply lookup_put_bytes_ne. rewrite length_le_bytes. intros H.
  apply (Ha p Hp). unfold in_page, PGSIZE. lia.
Qed.

Lemma same_but_mono m m' pgdir tabs tabs' :
  tabs ⊆ tabs' → same_but m m' pgdir tabs → same_but m m' pgdir tabs'.
Proof.
  intros Ht H a Ha. apply H. intros p [->|[d Hd]]; apply Ha; [by left|]. right. exists d.
  by eapply lookup_weaken.
Qed.

Lemma same_but_trans m1 m2 m3 pgdir tabs :
  same_but m1 m2 pgdir tabs → same_but m2 m3 pgdir tabs → same_but m1 m3 pgdir tabs.
Proof. intros H1 H2 a Ha. by rewrite (H2 a Ha), (H1 a Ha). Qed.

Lemma is_Some_put a l m b : is_Some (m !! b) → is_Some (put_bytes a l m !! b).
Proof.
  intros H. rewrite lookup_put_bytes. destruct (decide _); [|done].
  apply lookup_lt_is_Some. lia.
Qed.

Lemma put_outside p l m q a :
  page_ok end_ p → page_ok end_ q → p ≠ q → length l = PGSIZE_n → in_page q a →
  put_bytes p l m !! a = m !! a.
Proof.
  intros Hp Hq Hne Hl Ha. apply lookup_put_bytes_ne. rewrite Hl. intros H.
  apply Hne. by apply (page_disjoint end_ p q a).
Qed.

Lemma put_word_outside p i x m q a :
  page_ok end_ p → page_ok end_ q → p ≠ q → 0 ≤ i < 1024 → in_page q a →
  put_bytes (p + 4 * i) (le_bytes 4 x) m !! a = m !! a.
Proof.
  intros Hp Hq Hne Hi Ha. apply lookup_put_bytes_ne. rewrite length_le_bytes. intros H.
  apply Hne. apply (page_disjoint end_ p q a); try done. unfold in_page, PGSIZE in *. lia.
Qed.

(** A write to a word of a page that is not free. *)
Lemma kmem_ok_put s fl p i x :
  kmem_ok end_ s fl → page_ok end_ p → p ∉ fl → 0 ≤ i < 1024 →
  kmem_ok end_ (set_ram (put_bytes (p + 4 * i) (le_bytes 4 x) (ram s)) s) fl.
Proof.
  intros Hk Hp Hn Hi. apply kmem_ok_ram; [done|..].
  - intros q a Hq Ha. pose proof (ko_pages _ _ _ Hk) as H. rewrite Forall_forall in H.
    apply (put_word_outside _ _ _ _ q); auto. by intros ->.
  - intros a Ha. by apply is_Some_put.
Qed.

Lemma and_iff_cong (P Q R : Prop) : (P → Q ↔ R) → P ∧ Q ↔ P ∧ R.
Proof. tauto. Qed.

(** A new entry in a table. *)
Lemma vm_ok_set_pte s fl pgdir tabs ptes va t x :
  vm_ok s fl pgdir tabs ptes → frame_ok va → tabs !! PDX va = Some t → u32 x = x →
  vm_ok (set_ram (put_bytes (t + 4 * PTX va) (le_bytes 4 x) (ram s)) s) fl pgdir tabs
    (if Z.testbit x 0 then <[va := x]> ptes else delete va ptes).
Proof.
  intros [Hk Hp Hf] Hva Et Hx. destruct (po_tab _ _ _ _ Hp _ _ Et) as (Hd & Htp & Htd).
  pose proof (PTX_range va (proj1 Hva)) as Hi. split; [|cbn [ram set_ram]|done].
  { apply kmem_ok_put; try done. apply Hf. right. eauto. }
  destruct Hp as [Hdir Htab Hinj Hpde Hpte]. split; [done..| |].
  - intros d Hd'. rewrite get32_put_ne; [auto|]. rewrite length_le_bytes.
    pose proof (word_disjoint t pgdir (PTX va) d Htp Hdir). lia.
  - intros vb e.
    assert (vb ≠ va → ptes !! vb = Some e ↔ frame_ok vb ∧ ∃ t0, tabs !! PDX vb = Some t0 ∧
      get32 (put_bytes (t + 4 * PTX va) (le_bytes 4 x) (ram s)) (t0 + 4 * PTX vb) = Some e ∧
      Z.testbit e 0 = true) as Hother.
    { intros Hne. rewrite Hpte. apply and_iff_cong. intros Hvb. split; intros (t0 & E0 & E1 & E2);
        exists t0; (split; [done|]); (split; [|done]); rewrite get32_put_ne in *; try done;
        rewrite length_le_bytes; destruct (Htab _ _ E0) as (_ & Ht0 & _);
        pose proof (PTX_range vb (proj1 Hvb));
        (cut (t ≠ t0 ∨ PTX va ≠ PTX vb);
          [pose proof (word_disjoint t t0 (PTX va) (PTX vb) Htp Ht0); lia|]);
        destruct (decide (t = t0)) as [->|]; [|by left| |by left]; right; intros HX;
        apply Hne, PDX_PTX_inj; try apply Hvb; try apply Hva; eauto. }
    destruct (decide (vb = va)) as [->|Hne].
    + assert ((frame_ok va ∧ ∃ t0, tabs !! PDX va = Some t0 ∧
        get32 (put_bytes (t + 4 * PTX va) (le_bytes 4 x) (ram s)) (t0 + 4 * PTX va) = Some e ∧
        Z.testbit e 0 = true) ↔ e = x ∧ Z.testbit x 0 = true) as ->.
      { split.
        - intros (_ & t0 & E0 & E1 & E2). rewrite Et in E0. injection E0 as <-.
          rewrite get32_put_eq, Hx in E1. injection E1 as <-. done.
        - intros [-> E]. split; [done|]. exists t. by rewrite get32_put_eq, Hx. }
      destruct (Z.testbit x 0).
      * rewrite lookup_insert_eq. split; [by intros [= ->]|by intros [-> _]].
      * rewrite lookup_delete_eq. split; [by intros [=]|by intros [_ [=]]].
    + rewrite <- (Hother Hne). destruct (Z.testbit x 0);
        [by rewrite lookup_insert_ne|by rewrite lookup_delete_ne].
Qed.

(** Memory outside the free pages and the tables is free to change. *)
Lemma vm_ok_ram s fl pgdir tabs ptes m :
  vm_ok s fl pgdir tabs ptes →
  (∀ p a, p ∈ fl ∨ pt_page pgdir tabs p → in_page p a → m !! a = ram s !! a) →
  (∀ a, is_Some (ram s !! a) → is_Some (m !! a)) → vm_ok (set_ram m s) fl pgdir tabs ptes.
Proof.
  intros [Hk Hp Hf] Hm Hd. split; [|cbn [ram set_ram]|done].
  - apply kmem_ok_ram; eauto.
  - eapply pt_ok_ext; [|exact Hp]. eauto.
Qed.

Lemma vm_ok_pages s fl pgdir tabs ptes p :
  vm_ok s fl pgdir tabs ptes → p ∈ fl ∨ pt_page pgdir tabs p → page_ok end_ p.
Proof.
  intros [Hk Hp _] [H|H]; [|by eapply pt_page_ok].
  pose proof (ko_pages _ _ _ Hk) as Hl. rewrite Forall_forall in Hl. auto.
Qed.

Lemma vm_ok_put_page s fl pgdir tabs ptes p l :
  vm_ok s fl pgdir tabs ptes → page_ok end_ p → p ∉ fl → ¬ pt_page pgdir tabs p →
  length l = PGSIZE_n → vm_ok (set_ram (put_bytes p l (ram s)) s) fl pgdir tabs ptes.
Proof.
  intros Hv Hp Hn Hn' Hl. apply vm_ok_ram; [done| |intros; by apply is_Some_put].
  intros q a Hq Ha. apply (put_outside _ _ _ q); try done; [by eapply vm_ok_pages|].
  intros ->. tauto.
Qed.

Lemma get32_zero m p n i :
  bytes_at m p (replicate n 0) → 0 ≤ i → 4 * i + 4 ≤ Z.of_nat n → get32 m (p + 4 * i) = Some 0.
Proof.
  intros H Hi Hn. rewrite (get32_bytes _ _ [0; 0; 0; 0]); [done| |done].
  intros k x Hk. pose proof (lookup_lt_Some _ _ _ Hk) as Hlt. cbn [length] in Hlt.
  assert (x = 0) as -> by (do 4 (destruct k as [|k]; [by injection Hk|]); done).
  replace (p + 4 * i + Z.of_nat k) with (p + Z.of_nat (Z.to_nat (4 * i) + k)) by lia.
  apply H, lookup_replicate_2. lia.
Qed.

Lemma pt_page_insert pgdir tabs d t q :
  tabs !! d = None → pt_page pgdir (<[d := t]> tabs) q ↔ q = t ∨ pt_page pgdir tabs q.
Proof.
  intros Hd. unfold pt_page. split.
  - intros [->|[d' Hd']]; [tauto|]. apply lookup_insert_Some in Hd' as [[_ ->]|[_ Hd']]; eauto.
  - intros [->|[->|[d' Hd']]]; [right; exists d; by rewrite lookup_insert_eq|tauto|].
    right. exists d'. rewrite lookup_insert_ne; [done|congruence].
Qed.

(** A zeroed page becomes the table of a directory entry. *)
Lemma vm_ok_set_pde s fl pgdir tabs ptes d t :
  vm_ok s fl pgdir tabs ptes → page_ok end_ t → t ∉ fl → ¬ pt_page pgdir tabs t →
  bytes_at (ram s) t (replicate PGSIZE_n 0) → 0 ≤ d < 1024 → tabs !! d = None →
  vm_ok (set_ram (put_bytes (pgdir + 4 * d) (le_bytes 4 (mkpte (V2P t) (Z.lor PTE_W PTE_U))) (ram s)) s)
    fl pgdir (<[d := t]> tabs) ptes.
Proof.
  intros [Hk Hp Hf] Htp Hn Hn' Hz Hd Etd.
  destruct (V2P_frame _ _ Htp) as [Hfr Hpv].
  destruct (mkpte_ok (V2P t) (Z.lor PTE_W PTE_U)) as (Eu & Ea & _ & Ep); [done|by vm_compute|].
  pose proof (po_dir _ _ _ _ Hp) as Hdir.
  split; [|cbn [ram set_ram]|].
  { apply kmem_ok_put; try done. apply Hf. by left. }
  2: { intros q [->|Hq]%pt_page_insert; auto. }
  destruct Hp as [_ Htab Hinj Hpde Hpte].
  assert (∀ q i, q ≠ pgdir → page_ok end_ q → 0 ≤ i < 1024 →
    get32 (put_bytes (pgdir + 4 * d) (le_bytes 4 (mkpte (V2P t) (Z.lor PTE_W PTE_U))) (ram s)) (q + 4 * i) =
    get32 (ram s) (q + 4 * i)) as Hsame.
  { intros q i Hq Hqp Hi. apply get32_put_ne. rewrite length_le_bytes.
    pose proof (word_disjoint pgdir q d i Hdir Hqp). lia. }
  split.
  - done.
  - intros d' t'. rewrite lookup_insert_Some. intros [[<- <-]|[_ H]]; [|by apply Htab].
    split; [done|]. split; [done|]. intros ->. apply Hn'. by left.
  - intros d1 d2 t'. rewrite !lookup_insert_Some. intros [[<- <-]|[Hd1 H1]] [[<- E2]|[Hd2 H2]].
    + done.
    + destruct Hn'. right. eauto.
    + subst. destruct Hn'. right. eauto.
    + eauto.
  - intros d' Hd'. destruct (decide (d' = d)) as [->|Hne].
    + rewrite get32_put_eq, lookup_insert_eq, Eu. eexists. split; [done|]. split; [done|].
      unfold frame. rewrite Ea. split; [done|]. by rewrite !mkpte_bit.
    + rewrite lookup_insert_ne by done. rewrite get32_put_ne; [auto|]. rewrite length_le_bytes.
      pose proof (word_disjoint pgdir pgdir d d' Hdir Hdir). lia.
  - intros va e. rewrite Hpte. apply and_iff_cong. intros Hva.
    pose proof (PTX_range va (proj1 Hva)). split.
    + intros (t0 & E0 & E1 & E2). exists t0. destruct (Htab _ _ E0) as (? & ? & ?).
      rewrite lookup_insert_ne by congruence. by rewrite Hsame.
    + intros (t0 & E0 & E1 & E2). apply lookup_insert_Some in E0 as [[<- <-]|[? E0]].
      * rewrite Hsame in E1 by (done || intros ->; apply Hn'; by left).
        rewrite (get32_zero _ _ _ _ Hz) in E1 by (unfold PGSIZE_n, PGSIZE; lia). by injection E1 as <-.
      * destruct (Htab _ _ E0) as (? & ? & ?). rewrite Hsame in E1 by done. eauto.
Qed.

(** ** walkpgdir *)

(** The tables grow by the first pages of the free list. *)
Definition tables_from (pgdir : Z) (fl : list Z) (tabs : gmap Z Z) (fl' : list Z) (tabs' : gmap Z Z) : Prop :=
  tabs ⊆ tabs' ∧ ∃ new, fl = new ++ fl' ∧
    ∀ p, pt_page pgdir tabs' p ↔ pt_page pgdir tabs p ∨ p ∈ new.

Lemma tables_from_refl pgdir fl tabs : tables_from pgdir fl tabs fl tabs.
Proof. split; [done|]. exists []. split; [done|]. set_solver. Qed.

Lemma tables_from_trans pgdir fl1 tabs1 fl2 tabs2 fl3 tabs3 :
  tables_from pgdir fl1 tabs1 fl2 tabs2 → tables_from pgdir fl2 tabs2 fl3 tabs3 →
  tables_from pgdir fl1 tabs1 fl3 tabs3.
Proof.
  intros [H1 (n1 & -> & P1)] [H2 (n2 & -> & P2)]. split; [by etrans|].
  exists (n1 ++ n2). split; [by rewrite app_assoc|]. intros p. rewrite P2, P1. set_solver.
Qed.

Lemma set_ram_id s : set_ram (ram s) s = s.
Proof. by destruct s. Qed.

Lemma load_word s a w : get32 (ram s) a = Some w → on_ram (load32 a) s = Ok w s.
Proof. intros H. rewrite (on_ram_ok _ _ _ _ (load32_ok _ _ _ H)). by rewrite set_ram_id. Qed.

Lemma walkpgdir_hit s fl pgdir tabs ptes va alloc t :
  vm_ok s fl pgdir tabs ptes → 0 ≤ va < 2 ^ 32 → tabs !! PDX va = Some t →
  walkpgdir pgdir va alloc s = Ok (pte_addr t va) s.
Proof.
  intros Hv Hva Et. destruct (po_pde _ _ _ _ (vo_pt _ _ _ _ _ Hv) _ (PDX_range va Hva)) as (e & E & H).
  rewrite Et in H. destruct H as (Hb & <- & _). unfold walkpgdir, pde_addr. mstep (load_word _ _ _ E).
  by rewrite land_P, negb_involutive, Hb.
Qed.

Lemma walkpgdir_miss s fl pgdir tabs ptes va :
  vm_ok s fl pgdir tabs ptes → 0 ≤ va < 2 ^ 32 → tabs !! PDX va = None →
  walkpgdir pgdir va false s = Ok 0 s.
Proof.
  intros Hv Hva Et. destruct (po_pde _ _ _ _ (vo_pt _ _ _ _ _ Hv) _ (PDX_range va Hva)) as (e & E & H).
  rewrite Et in H. unfold walkpgdir, pde_addr. mstep (load_word _ _ _ E).
  by rewrite land_P, negb_involutive, H.
Qed.

(** Taking a page off the free list. *)
Lemma vm_ok_kalloc s p fl pgdir tabs ptes :
  vm_ok s (p :: fl) pgdir tabs ptes →
  ∃ s', kalloc s = Ok p s' ∧ ram s' = ram s ∧ vm_ok s' fl pgdir tabs ptes ∧
    page_ok end_ p ∧ p ∉ fl ∧ ¬ pt_page pgdir tabs p ∧ p ≠ 0.
Proof.
  intros [Hk Hp Hf]. destruct (kalloc_ok _ _ _ Hk) as (next & E & Hk').
  pose proof (ko_nodup _ _ _ Hk) as [Hn _]%NoDup_cons. pose proof (ko_pages _ _ _ Hk) as [Hpg _]%Forall_cons.
  eexists. split; [exact E|]. split; [done|]. split; [|split; [done|split; [done|split]]].
  - split; [done..|]. intros q Hq Hin. apply (Hf q Hq). set_solver.
  - intros H. apply (Hf p H). set_solver.
  - apply page_ok_range in Hpg. lia.
Qed.

Lemma kalloc_empty s pgdir tabs ptes : vm_ok s [] pgdir tabs ptes → kalloc s = Ok 0 s.
Proof. intros Hv. exact (kalloc_ok _ _ _ (vo_kmem _ _ _ _ _ Hv)). Qed.

(** Clearing a page taken from the allocator. *)
Lemma memset_page s fl p c :
  kmem_ok end_ s fl → page_ok end_ p →
  on_ram (Kern.memset p c PGSIZE) s = Ok p (set_ram (put_bytes p (replicate PGSIZE_n (u8 c)) (ram s)) s).
Proof. intros Hk Hp. apply on_ram_ok, memset_ok; [done|]. by apply (ko_mapped _ _ _ Hk). Qed.

Lemma walkpgdir_alloc_ok s fl pgdir tabs ptes va :
  vm_ok s fl pgdir tabs ptes → 0 ≤ va < 2 ^ 32 →
  (fl = [] ∧ walkpgdir pgdir va true s = Ok 0 s) ∨
  ∃ s' fl' tabs' t, walkpgdir pgdir va true s = Ok (pte_addr t va) s' ∧
    vm_ok s' fl' pgdir tabs' ptes ∧ tables_from pgdir fl tabs fl' tabs' ∧ tabs' !! PDX va = Some t ∧
    same_but (ram s) (ram s') pgdir tabs' ∧ (length fl ≤ S (length fl'))%nat.
Proof.
  intros Hv Hva. pose proof (PDX_range va Hva) as Hd. destruct (tabs !! PDX va) as [t|] eqn:Et.
  { right. exists s, fl, tabs, t. split; [by eapply walkpgdir_hit|]. split; [done|].
    split; [apply tables_from_refl|]. split; [done|]. split; [done|lia]. }
  destruct (po_pde _ _ _ _ (vo_pt _ _ _ _ _ Hv) _ Hd) as (e & E & H). rewrite Et in H.
  unfold walkpgdir, pde_addr. mstep (load_word _ _ _ E).
  rewrite land_P, negb_involutive, H. cbn [negb]. destruct fl as [|t fl].
  { left. split; [done|]. by mstep (kalloc_empty _ _ _ _ Hv). }
  right. destruct (vm_ok_kalloc _ _ _ _ _ _ Hv) as (s1 & E1 & Hr & Hv1 & Ht & Hn & Hnp & Hz).
  mstep E1. rewrite (proj2 (Z.eqb_neq t 0) Hz).
  mstep (memset_page s1 fl t 0 (vo_kmem _ _ _ _ _ Hv1) Ht).
  pose proof (vm_ok_put_page s1 fl pgdir tabs ptes t (replicate PGSIZE_n (u8 0)) Hv1 Ht Hn Hnp
    (length_replicate _ _)) as Hv2.
  set (s2 := set_ram _ s1) in *.
  assert (mapped (ram s2) (pgdir + 4 * PDX va) 4) as Hm.
  { eapply word_mapped; [apply Hv2|apply Hv|done]. }
  mstep (on_ram_ok _ _ _ _ (store32_ok _ _ (Z.lor (Z.lor (Z.lor (V2P t) PTE_P) PTE_W) PTE_U) Hm)).
  assert (Z.lor (Z.lor (Z.lor (V2P t) PTE_P) PTE_W) PTE_U = mkpte (V2P t) (Z.lor PTE_W PTE_U)) as ->.
  { unfold mkpte. rewrite <- !Z.lor_assoc. f_equal. }
  eexists _, fl, (<[PDX va := t]> tabs), t. split; [reflexivity|].
  split; [|split; [|split; [apply lookup_insert_eq|split; [|simpl; lia]]]].
  - apply vm_ok_set_pde; try done. apply bytes_at_put.
  - split; [by apply insert_subseteq|]. exists [t]. split; [done|]. intros q.
    rewrite pt_page_insert, list_elem_of_singleton by done. tauto.
  - eapply same_but_trans; [|apply same_but_put; [by left|done]].
    intros a Ha. cbn [ram set_ram s2]. rewrite <- Hr. apply lookup_put_bytes_ne. rewrite length_replicate.
    intros Hin. apply (Ha t); [|exact Hin]. right. exists (PDX va). apply lookup_insert_eq.
Qed.

(** ** mappages *)

(** The entries with [k] pages from [a] on mapped to the frames from [pa] on. *)
Fixpoint map_range (k : nat) (a pa perm : Z) (ptes : gmap Z Z) : gmap Z Z :=
  match k with
  | O => ptes
  | S k => map_range k (a + PGSIZE) (pa + PGSIZE) perm (<[a := mkpte pa perm]> ptes)
  end.

Lemma lookup_map_range k a pa perm ptes va :
  a `mod` PGSIZE = 0 → va `mod` PGSIZE = 0 →
  map_range k a pa perm ptes !! va =
    if decide (a ≤ va < a + Z.of_nat k * PGSIZE) then Some (mkpte (pa + (va - a)) perm) else ptes !! va.
Proof.
  revert a pa ptes. induction k as [|k IH]; intros a pa ptes Ha Hva; cbn [map_range].
  { by rewrite decide_False by lia. }
  rewrite IH; [|unfold PGSIZE in *; Z.div_mod_to_equations; lia|done].
  destruct (decide (a + PGSIZE ≤ va < a + PGSIZE + Z.of_nat k * PGSIZE)).
  - rewrite decide_True by (unfold PGSIZE in *; lia). do 2 f_equal. lia.
  - destruct (decide (va = a)) as [->|].
    + rewrite lookup_insert_eq, decide_True by (unfold PGSIZE; lia). do 2 f_equal. lia.
    + rewrite lookup_insert_ne, decide_False; [done| |done].
      unfold PGSIZE in *. Z.div_mod_to_equations. lia.
Qed.

(** One page. *)
Lemma mappages_loop_step fuel s fl pgdir tabs ptes a last pa perm :
  vm_ok s fl pgdir tabs ptes → frame_ok a → frame_ok pa → 0 ≤ perm < PGSIZE → ptes !! a = None →
  (fl = [] ∧ mappages_loop (S fuel) pgdir a last pa perm s = Ok (-1) s) ∨
  ∃ s' fl' tabs',
    mappages_loop (S fuel) pgdir a last pa perm s =
      (if a =? last then mret 0 else mappages_loop fuel pgdir (u32 (a + PGSIZE)) last (u32 (pa + PGSIZE)) perm) s' ∧
    vm_ok s' fl' pgdir tabs' (<[a := mkpte pa perm]> ptes) ∧ tables_from pgdir fl tabs fl' tabs' ∧
    same_but (ram s) (ram s') pgdir tabs' ∧ (length fl ≤ S (length fl'))%nat.
Proof.
  intros Hv Ha Hpa Hperm Hno. cbn [mappages_loop].
  destruct (walkpgdir_alloc_ok s fl pgdir tabs ptes a Hv (proj1 Ha))
    as [[-> E]|(s1 & fl1 & tabs1 & t & E & Hv1 & Htf & Et & Hsame & Hlen)]; mstep E.
  { left. by rewrite Z.eqb_refl. }
  right. pose proof (PTX_range a (proj1 Ha)) as Hi.
  destruct (po_tab _ _ _ _ (vo_pt _ _ _ _ _ Hv1) _ _ Et) as (_ & Ht & _).
  destruct (mkpte_ok pa perm Hpa Hperm) as (Hu & _ & _ & Hbit). fold (mkpte pa perm).
  assert (pte_addr t a ≠ 0) as Hz by (apply page_ok_range in Ht; unfold pte_addr; lia).
  rewrite (proj2 (Z.eqb_neq _ _) Hz).
  assert (mapped (ram s1) (pte_addr t a) 4) as Hm by (eapply word_mapped; [apply Hv1|done..]).
  destruct (get32_mapped _ _ Hm) as [e Ee]. mstep (load_word _ _ _ Ee).
  destruct (Z.testbit e 0) eqn:Eb.
  { exfalso. assert (ptes !! a = Some e) as H; [|congruence].
    apply (po_pte _ _ _ _ (vo_pt _ _ _ _ _ Hv1)). eauto. }
  rewrite land_P, Eb. cbn [negb]. mstep (on_ram_ok _ _ _ _ (store32_ok _ _ (mkpte pa perm) Hm)).
  eexists _, fl1, tabs1. split; [reflexivity|].
  pose proof (vm_ok_set_pte s1 fl1 pgdir tabs1 ptes a t (mkpte pa perm) Hv1 Ha Et Hu) as Hv2.
  rewrite Hbit in Hv2. split; [exact Hv2|]. split; [done|]. split; [|done].
  eapply same_but_trans; [exact Hsame|]. apply same_but_put; [right; eauto|done].
Qed.

Lemma frame_next a n :
  frame_ok a → a + (Z.of_nat (S (S n))) * PGSIZE ≤ 2 ^ 32 → u32 (a + PGSIZE) = a + PGSIZE ∧ frame_ok (a + PGSIZE).
Proof.
  intros [Hr Ha] H. unfold frame_ok, PGSIZE in *. rewrite u32_small by lia.
  split; [done|]. Z.div_mod_to_equations. lia.
Qed.

(** Mapping [n] pages maps all of them, or runs out of memory for tables
    after some. *)
Lemma mappages_loop_ok n s fl pgdir tabs ptes a pa perm :
  vm_ok s fl pgdir tabs ptes → frame_ok a → frame_ok pa → 0 ≤ perm < PGSIZE →
  a + Z.of_nat (S n) * PGSIZE ≤ 2 ^ 32 → pa + Z.of_nat (S n) * PGSIZE ≤ 2 ^ 32 →
  (∀ va, va `mod` PGSIZE = 0 → a ≤ va < a + Z.of_nat (S n) * PGSIZE → ptes !! va = None) →
  ∃ r k s' fl' tabs',
    mappages_loop (S n) pgdir a (a + Z.of_nat n * PGSIZE) pa perm s = Ok r s' ∧
    vm_ok s' fl' pgdir tabs' (map_range k a pa perm ptes) ∧ tables_from pgdir fl tabs fl' tabs' ∧
    same_but (ram s) (ram s') pgdir tabs' ∧ (length fl ≤ length fl' + k)%nat ∧
    (r = 0 ∧ k = S n ∨ r = -1 ∧ (k ≤ n)%nat ∧ fl' = []).
Proof.
  revert s fl tabs ptes a pa. induction n as [|n IH]; intros s fl tabs ptes a pa Hv Ha Hpa Hperm Hra Hrpa Hno.
  - destruct (mappages_loop_step 0 s fl pgdir tabs ptes a (a + Z.of_nat 0 * PGSIZE) pa perm Hv Ha Hpa Hperm)
      as [[-> E]|(s1 & fl1 & tabs1 & E & Hv1 & Htf & Hsame & Hlen)].
    + apply Hno; [apply Ha|unfold PGSIZE; lia].
    + exists (-1), 0%nat, s, [], tabs. split; [exact E|]. split; [done|]. split; [apply tables_from_refl|].
      split; [done|]. split; [done|]. right. split; [done|]. split; [lia|done].
    + exists 0, 1%nat, s1, fl1, tabs1. rewrite E. rewrite (proj2 (Z.eqb_eq a _)) by (unfold PGSIZE; lia).
      split; [done|]. split; [exact Hv1|]. split; [done|]. split; [done|]. split; [lia|]. by left.
  - destruct (mappages_loop_step (S n) s fl pgdir tabs ptes a (a + Z.of_nat (S n) * PGSIZE) pa perm Hv Ha Hpa Hperm)
      as [[-> E]|(s1 & fl1 & tabs1 & E & Hv1 & Htf & Hsame & Hlen)].
    + apply Hno; [apply Ha|unfold PGSIZE; lia].
    + exists (-1), 0%nat, s, [], tabs. split; [exact E|]. split; [done|]. split; [apply tables_from_refl|].
      split; [done|]. split; [done|]. right. split; [done|]. split; [lia|done].
    + rewrite E. rewrite (proj2 (Z.eqb_neq a _)) by (unfold PGSIZE; lia).
      destruct (frame_next a n Ha Hra) as [-> Ha1]. destruct (frame_next pa n Hpa Hrpa) as [-> Hpa1].
      destruct (IH s1 fl1 tabs1 (<[a := mkpte pa perm]> ptes) (a + PGSIZE) (pa + PGSIZE))
        as (r & k & s2 & fl2 & tabs2 & E2 & Hv2 & Htf2 & Hsame2 & Hlen2 & Hr2); try done; [lia..| |].
      { intros va Hva Hr. rewrite lookup_insert_ne by (unfold PGSIZE in *; lia). apply Hno; [done|].
        unfold PGSIZE in *; lia. }
      exists r, (S k), s2, fl2, tabs2.
      replace (a + PGSIZE + Z.of_nat n * PGSIZE) with (a + Z.of_nat (S n) * PGSIZE) in E2 by (unfold PGSIZE; lia).
      split; [exact E2|]. split; [exact Hv2|]. split; [by eapply tables_from_trans|].
      split; [|split; [lia|]].
      * eapply same_but_trans; [|exact Hsame2]. eapply same_but_mono; [apply Htf2|done].
      * destruct Hr2 as [[-> ->]|(-> & ? & ->)]; [by left|]. right. split; [done|]. split; [lia|done].
Qed.

(** The first page of a range, and how many more there are. *)
Definition first_page (va : Z) : Z := va - va `mod` PGSIZE.
Definition more_pages (va size : Z) : nat := Z.to_nat ((first_page (va + size - 1) - first_page va) `div` PGSIZE).

Lemma first_page_ok va : 0 ≤ va < 2 ^ 32 → frame_ok (first_page va) ∧ first_page va ≤ va < first_page va + PGSIZE.
Proof. intros. unfold frame_ok, first_page, PGSIZE. Z.div_mod_to_equations. lia. Qed.

Lemma last_page va size :
  0 ≤ va → 1 ≤ size →
  first_page (va + size - 1) = first_page va + Z.of_nat (more_pages va size) * PGSIZE.
Proof.
  intros Hva Hs. assert (va + size - 1 = va + (size - 1)) as -> by lia.
  assert (first_page va ≤ first_page (va + (size - 1))).
  { unfold first_page, PGSIZE. clear - Hs. Z.div_mod_to_equations. lia. }
  unfold more_pages. replace (va + size - 1) with (va + (size - 1)) by lia.
  assert ((first_page (va + (size - 1)) - first_page va) `mod` PGSIZE = 0) as Hm.
  { unfold first_page, PGSIZE. clear. Z.div_mod_to_equations. lia. }
  rewrite Z2Nat.id by (apply Z.div_pos; unfold PGSIZE; lia).
  pose proof (Z.div_mod (first_page (va + (size - 1)) - first_page va) PGSIZE ltac:(done)). lia.
Qed.

Lemma mappages_eq pgdir va size pa perm :
  0 ≤ va → 1 ≤ size → va + size ≤ 2 ^ 32 →
  mappages pgdir va size pa perm =
    mappages_loop (S (more_pages va size)) pgdir (first_page va)
      (first_page va + Z.of_nat (more_pages va size) * PGSIZE) pa perm ∧
  first_page va + Z.of_nat (S (more_pages va size)) * PGSIZE ≤ 2 ^ 32.
Proof.
  intros Hva Hs Hr. unfold mappages. rewrite (u32_small (va + size - 1)) by lia.
  rewrite !PGROUNDDOWN_eq by lia. fold (first_page va) (first_page (va + size - 1)).
  destruct (first_page_ok va) as [H1 H2]; [lia|]. destruct (first_page_ok (va + size - 1)) as [H3 H4]; [lia|].
  pose proof (last_page va size Hva Hs) as E. unfold frame_ok in *.
  rewrite u32_small by (unfold PGSIZE in *; lia). fold (more_pages va size). rewrite E.
  split; [done|]. rewrite E in *. unfold PGSIZE in *. Z.div_mod_to_equations. lia.
Qed.

Lemma mappages_ok s fl pgdir tabs ptes va size pa perm :
  vm_ok s fl pgdir tabs ptes → 0 ≤ va → 1 ≤ size → va + size ≤ 2 ^ 32 → frame_ok pa →
  pa + Z.of_nat (S (more_pages va size)) * PGSIZE ≤ 2 ^ 32 → 0 ≤ perm < PGSIZE →
  (∀ v, v `mod` PGSIZE = 0 → first_page va ≤ v < va + size → ptes !! v = None) →
  ∃ r k s' fl' tabs',
    mappages pgdir va size pa perm s = Ok r s' ∧
    vm_ok s' fl' pgdir tabs' (map_range k (first_page va) pa perm ptes) ∧
    tables_from pgdir fl tabs fl' tabs' ∧ same_but (ram s) (ram s') pgdir tabs' ∧
    (length fl ≤ length fl' + k)%nat ∧
    (r = 0 ∧ k = S (more_pages va size) ∨ r = -1 ∧ (k ≤ more_pages va size)%nat ∧ fl' = []).
Proof.
  intros Hv Hva Hs Hr Hpa Hpr Hperm Hno. destruct (mappages_eq pgdir va size pa perm Hva Hs Hr) as [-> Hend].
  destruct (first_page_ok va) as [Hf Hf']; [lia|].
  apply (mappages_loop_ok (more_pages va size) s fl pgdir tabs ptes); try done.
  intros v Hm Hv'. apply Hno; [done|]. split; [lia|].
  destruct (first_page_ok (va + size - 1)) as [Hl Hl']; [lia|].
  pose proof (last_page va size Hva Hs) as E. destruct Hf as [_ Hf], Hl as [_ Hl]. rewrite E in *.
  clear - Hm Hv' Hl' Hf. unfold PGSIZE in *. Z.div_mod_to_equations. lia.
Qed.

(** One page, at its address. *)
Lemma mappages_page_ok s fl pgdir tabs ptes va pa perm :
  vm_ok s fl pgdir tabs ptes → frame_ok va → frame_ok pa → 0 ≤ perm < PGSIZE → ptes !! va = None →
  (fl = [] ∧ mappages pgdir va PGSIZE pa perm s = Ok (-1) s) ∨
  ∃ s' fl' tabs', mappages pgdir va PGSIZE pa perm s = Ok 0 s' ∧
    vm_ok s' fl' pgdir tabs' (<[va := mkpte pa perm]> ptes) ∧ tables_from pgdir fl tabs fl' tabs' ∧
    same_but (ram s) (ram s') pgdir tabs' ∧ (length fl ≤ S (length fl'))%nat.
Proof.
  intros Hv Hva Hpa Hperm Hno. pose proof Hva as [Hr Hm].
  assert (va + PGSIZE ≤ 2 ^ 32) as Hr' by (unfold PGSIZE in *; Z.div_mod_to_equations; lia).
  destruct (mappages_eq pgdir va PGSIZE pa perm) as [-> _]; [unfold PGSIZE in *; lia..|].
  assert (first_page va = va) as Ef by (unfold first_page; lia).
  assert (more_pages va PGSIZE = 0%nat) as ->.
  { unfold more_pages. rewrite Ef. unfold first_page, PGSIZE in *. Z.div_mod_to_equations. lia. }
  rewrite Ef, Z.add_0_r.
  destruct (mappages_loop_step 0 s fl pgdir tabs ptes va va pa perm Hv Hva Hpa Hperm Hno)
    as [H|(s' & fl' & tabs' & E & H)]; [by left|right].
  exists s', fl', tabs'. rewrite Z.eqb_refl in E. by split.
Qed.
End rep.
