(* ===== verification/VmUser.v ===== *)
(** * User address spaces: the lemmas of allocuvm, deallocuvm, freevm and copyuvm *)

From S2P Require Import Prelude Mem Str Mmu Kalloc Vm VmProofs.

#[local] Opaque replicate put_bytes.

Section user.
Context (end_ data_ : Z).

(** Every page of the user part is a page of its own, in use. *)
Record frames_ok (s : kstate) (fl : list Z) (pgdir : Z) (tabs ptes : gmap Z Z) : Prop := FramesOk {
  fo_vm : vm_ok end_ s fl pgdir tabs ptes;
  fo_frame va e : ptes !! va = Some e → va < KERNBASE →
    page_ok end_ (frame e) ∧ frame e ∉ fl ∧ ¬ pt_page pgdir tabs (frame e);
  fo_inj va vb e e' : ptes !! va = Some e → ptes !! vb = Some e' → va < KERNBASE → vb < KERNBASE →
    frame e = frame e' → va = vb;
}.

(** The user part is the pages below [sz]. *)
Record uvm (s : kstate) (fl : list Z) (pgdir : Z) (tabs ptes : gmap Z Z) (sz : Z) : Prop := Uvm {
  uv_frames : frames_ok s fl pgdir tabs ptes;
  uv_dom va : frame_ok va → va < KERNBASE → is_Some (ptes !! va) ↔ va < sz;
}.

(** The pages [P] keep their contents. *)
Definition keeps (P : Z → Prop) (m m' : mem) : Prop :=
  ∀ p a, page_ok end_ p → P p → in_page p a → m' !! a = m !! a.

Lemma keeps_refl P m : keeps P m m.
Proof. done. Qed.

Lemma keeps_trans (P Q R : Z → Prop) m1 m2 m3 :
  keeps P m1 m2 → keeps Q m2 m3 → (∀ p, page_ok end_ p → R p → P p ∧ Q p) → keeps R m1 m3.
Proof. intros H1 H2 H p a Hp HR Ha. destruct (H p Hp HR). rewrite (H2 p a), (H1 p a); auto. Qed.

Lemma keeps_same_but m m' pgdir tabs :
  (∀ p, pt_page pgdir tabs p → page_ok end_ p) →
  same_but m m' pgdir tabs → keeps (λ p, ¬ pt_page pgdir tabs p) m m'.
Proof.
  intros Hpg H p a Hp Hn Ha. apply H. intros q Hq Hin. apply Hn.
  by rewrite (page_disjoint end_ p q a) by auto.
Qed.

Lemma fo_va s fl pgdir tabs ptes va e :
  frames_ok s fl pgdir tabs ptes → ptes !! va = Some e → frame_ok va ∧ Z.testbit e 0 = true ∧
    ∃ t, tabs !! PDX va = Some t ∧ get32 (ram s) (t + 4 * PTX va) = Some e.
Proof.
  intros Hf H. apply (po_pte _ _ _ _ _ (vo_pt _ _ _ _ _ _ (fo_vm _ _ _ _ _ Hf))) in H as (? & t & ? & ? & ?).
  eauto.
Qed.

(** ** Freeing pages *)

(** A page in nobody's hands goes to the free list. *)
Lemma vm_ok_kfree s fl pgdir tabs ptes p :
  vm_ok end_ s fl pgdir tabs ptes → page_ok end_ p → p ∉ fl → ¬ pt_page pgdir tabs p →
  ∃ s', kfree end_ p s = Ok tt s' ∧ vm_ok end_ s' (p :: fl) pgdir tabs ptes ∧
    keeps (λ q, q ≠ p) (ram s) (ram s').
Proof.
  intros [Hk Hpt Hf] Hp Hn Hnp. destruct (kfree_ok _ _ _ _ Hk Hp Hn) as (m & E & Hk' & Hm).
  assert (keeps (λ q, q ≠ p) (ram s) m) as Hkeep.
  { intros q a Hq Hne Ha. subst m. apply (put_outside end_ _ _ _ q); [done|done|congruence|apply length_junk|done]. }
  clear Hm. eexists. split; [exact E|]. split; [|exact Hkeep]. split; [done| |].
  - cbn [ram]. eapply pt_ok_ext; [|exact Hpt]. intros q a Hq Ha. apply (Hkeep q); [|by intros ->|done].
    by eapply pt_page_ok.
  - intros q Hq [->|Hin]%elem_of_cons; [done|]. by apply (Hf q).
Qed.

(** The body of deallocuvm's loop on a page that is there. *)
Lemma free_page_ok s fl pgdir tabs ptes va e t :
  frames_ok s fl pgdir tabs ptes → va < KERNBASE → ptes !! va = Some e → tabs !! PDX va = Some t →
  ∃ s', (kfree end_ (P2V (PTE_ADDR e));; on_ram (store32 (pte_addr t va) 0)) s = Ok tt s' ∧
    frames_ok s' (frame e :: fl) pgdir tabs (delete va ptes) ∧
    keeps (λ q, q ≠ frame e ∧ ¬ pt_page pgdir tabs q) (ram s) (ram s').
Proof.
  intros Hfo Hva He Et. destruct (fo_frame _ _ _ _ _ Hfo _ _ He Hva) as (Hp & Hn & Hnp).
  destruct (fo_va _ _ _ _ _ _ _ Hfo He) as (Hfr & _ & _).
  destruct (vm_ok_kfree s fl pgdir tabs ptes (frame e) (fo_vm _ _ _ _ _ Hfo) Hp Hn Hnp) as (s1 & E1 & Hv1 & Hk1).
  fold (frame e). mstep E1.
  destruct (po_tab _ _ _ _ _ (vo_pt _ _ _ _ _ _ Hv1) _ _ Et) as (_ & Ht & _).
  pose proof (PTX_range va (proj1 Hfr)) as Hi.
  assert (mapped (ram s1) (pte_addr t va) 4) as Hm by (eapply word_mapped; [apply Hv1|done..]).
  rewrite (on_ram_ok _ _ _ _ (store32_ok _ _ 0 Hm)). eexists. split; [reflexivity|]. split.
  - split.
    + exact (vm_ok_set_pte end_ s1 _ _ _ _ va t 0 Hv1 Hfr Et eq_refl).
    + intros vb e' [Hne He']%lookup_delete_Some Hvb.
      destruct (fo_frame _ _ _ _ _ Hfo _ _ He' Hvb) as (? & ? & ?). split; [done|]. split; [|done].
      intros [Heq|?]%elem_of_cons; [|done]. apply Hne.
      by apply (fo_inj _ _ _ _ _ Hfo va vb e e').
    + intros v1 v2 e1 e2 [_ H1]%lookup_delete_Some [_ H2]%lookup_delete_Some.
      by apply (fo_inj _ _ _ _ _ Hfo).
  - intros q a Hq [Hne Hnq] Ha. cbn [ram set_ram]. unfold pte_addr.
    rewrite (put_word_outside end_ _ _ _ _ q) by (done || intros ->; apply Hnq; right; eauto). by apply (Hk1 q).
Qed.

(** ** deallocuvm *)

(** The pages mapped in [a, b) of the user part. *)
Definition freed (ptes : gmap Z Z) (a b p : Z) : Prop :=
  ∃ va e, a ≤ va < b ∧ ptes !! va = Some e ∧ p = frame e.

(** What deallocuvm does to the pages of [a, b): their entries are gone and
    they are on the free list. *)
Record unmapped (s : kstate) (fl : list Z) (pgdir : Z) (tabs ptes : gmap Z Z) (a b : Z)
    (s' : kstate) (fl' : list Z) (ptes' : gmap Z Z) : Prop := Unmapped {
  un_frames : frames_ok s' fl' pgdir tabs ptes';
  un_ptes va : ptes' !! va = if decide (a ≤ va < b) then None else ptes !! va;
  un_fl p : p ∈ fl' ↔ p ∈ fl ∨ freed ptes a b p;
  un_keeps : keeps (λ p, p ∉ fl' ∧ ¬ pt_page pgdir tabs p) (ram s) (ram s');
}.

Lemma unmapped_nothing s fl pgdir tabs ptes a b :
  frames_ok s fl pgdir tabs ptes → (∀ va, a ≤ va < b → ptes !! va = None) →
  unmapped s fl pgdir tabs ptes a b s fl ptes.
Proof.
  intros Hf H. split; [done| | |apply keeps_refl].
  - intros va. destruct (decide _); auto.
  - intros p. split; [by left|]. intros [?|(va & e & Hr & He & _)]; [done|]. rewrite H in He by done. done.
Qed.

(** Skipping absent pages. *)
Lemma unmapped_skip s fl pgdir tabs ptes a a' b s' fl' ptes' :
  a ≤ a' → (∀ va, a ≤ va < a' → va < b → ptes !! va = None) →
  unmapped s fl pgdir tabs ptes a' b s' fl' ptes' → unmapped s fl pgdir tabs ptes a b s' fl' ptes'.
Proof.
  intros Ha Hno [Hf Hp Hfl Hk]. split; [done| | |done].
  - intros va. rewrite Hp. destruct (decide (a' ≤ va < b)), (decide (a ≤ va < b)); try done; [lia|].
    apply Hno; lia.
  - intros p. rewrite Hfl. apply or_iff_compat_l. split; intros (va & e & Hr & He & ->); exists va, e.
    + split; [lia|done].
    + split; [|done]. destruct (decide (va < a')); [|lia]. rewrite Hno in He by lia. done.
Qed.

(** Freeing the page at [a] first. *)
Lemma unmapped_page s fl pgdir tabs ptes a b e s1 s' fl' ptes' :
  frames_ok s fl pgdir tabs ptes → a < b → b ≤ KERNBASE → ptes !! a = Some e →
  keeps (λ q, q ≠ frame e ∧ ¬ pt_page pgdir tabs q) (ram s) (ram s1) →
  unmapped s1 (frame e :: fl) pgdir tabs (delete a ptes) (a + PGSIZE) b s' fl' ptes' →
  unmapped s fl pgdir tabs ptes a b s' fl' ptes'.
Proof.
  intros Hfo Hab Hb He Hk1 [Hf Hp Hfl Hk]. destruct (fo_va _ _ _ _ _ _ _ Hfo He) as ((Hr & Hm) & _).
  assert (∀ va e', ptes !! va = Some e' → a < va → a + PGSIZE ≤ va) as Hnext.
  { intros va e' He' Hlt. destruct (fo_va _ _ _ _ _ _ _ Hfo He') as ((_ & Hm') & _).
    clear - Hm Hm' Hlt. unfold PGSIZE in *. Z.div_mod_to_equations. lia. }
  split; [done| | |].
  - intros va. rewrite Hp. destruct (decide (a + PGSIZE ≤ va < b)) as [H|H].
    { rewrite decide_True; [done|]. unfold PGSIZE in H. lia. }
    destruct (decide (va = a)) as [->|Hne].
    { rewrite lookup_delete_eq. rewrite decide_True by lia. done. }
    rewrite lookup_delete_ne by done. destruct (decide (a ≤ va < b)) as [H'|]; [|done].
    destruct (ptes !! va) as [e'|] eqn:E'; [|done]. specialize (Hnext va e' E'). lia.
  - intros p. rewrite Hfl, elem_of_cons. split.
    + intros [[->|?]|(va & e' & Hr' & [_ He']%lookup_delete_Some & ->)]; [|by left|];
        right; [exists a, e|exists va, e']; (split; [unfold PGSIZE in *; lia|done]).
    + intros [?|(va & e' & Hr' & He' & ->)]; [tauto|]. destruct (decide (va = a)) as [->|Hne].
      * left. left. congruence.
      * right. exists va, e'. specialize (Hnext va e' He'). rewrite lookup_delete_ne by done.
        split; [lia|done].
  - eapply keeps_trans; [exact Hk1|exact Hk|]. intros q _ [Hn Hnp]. split; [|done].
    split; [|done]. intros ->. apply Hn, Hfl. left. by left.
Qed.

(** Pages mapped from [a] on have no gap before them. *)
Definition no_gap (ptes : gmap Z Z) (a b : Z) : Prop :=
  ∀ va vb, frame_ok vb → a ≤ vb ≤ va → va < b → is_Some (ptes !! va) → is_Some (ptes !! vb).

Lemma no_gap_weaken ptes a a' b : a ≤ a' → no_gap ptes a b → no_gap ptes a' b.
Proof. intros H Hg va vb Hf Hr. apply Hg; [done|lia]. Qed.

Lemma no_gap_empty ptes a b va : no_gap ptes a b → frame_ok a → ptes !! a = None → a ≤ va < b → ptes !! va = None.
Proof.
  intros Hg Ha Hn Hr. destruct (ptes !! va) as [e|] eqn:E; [|done].
  destruct (Hg va a Ha) as [e' He']; [lia|lia|by rewrite E|congruence].
Qed.

(** The kernel is linked above KERNBASE, so that no page is at physical 0. *)
Hypothesis end_high : KERNBASE < end_.

Lemma frame_nonzero e : page_ok end_ (frame e) → PTE_ADDR e ≠ 0.
Proof. intros (_ & H & _) E. unfold frame in H. rewrite E in H. change (P2V 0) with KERNBASE in H. lia. Qed.

Lemma user_frame a : a `mod` PGSIZE = 0 → 0 ≤ a < KERNBASE → frame_ok a ∧ frame_ok (a + PGSIZE) ∧ u32 (a + PGSIZE) = a + PGSIZE.
Proof.
  intros Hm Hr. unfold frame_ok, KERNBASE, PGSIZE in *. rewrite u32_small by lia.
  repeat split; try lia. Z.div_mod_to_equations. lia.
Qed.

(** The entry of a user page, as the loops read it. *)
Lemma read_pte s fl pgdir tabs ptes va t :
  vm_ok end_ s fl pgdir tabs ptes → frame_ok va → tabs !! PDX va = Some t →
  pte_addr t va ≠ 0 ∧ ∃ e, on_ram (load32 (pte_addr t va)) s = Ok e s ∧
    ptes !! va = if Z.testbit e 0 then Some e else None.
Proof.
  intros Hv Hva Et. destruct (po_tab _ _ _ _ _ (vo_pt _ _ _ _ _ _ Hv) _ _ Et) as (_ & Ht & _).
  pose proof (PTX_range va (proj1 Hva)) as Hi.
  split; [apply page_ok_range in Ht; unfold pte_addr; lia|].
  assert (mapped (ram s) (pte_addr t va) 4) as Hm by (eapply word_mapped; [apply Hv|done..]).
  destruct (get32_mapped _ _ Hm) as [e Ee]. exists e. split; [by apply load_word|].
  apply option_eq. intros e'. rewrite (po_pte _ _ _ _ _ (vo_pt _ _ _ _ _ _ Hv)). split.
  - intros (_ & t' & Et' & Ee' & Eb). unfold pte_addr in Ee. simplify_eq. by rewrite Eb.
  - destruct (Z.testbit e 0) eqn:Eb; [|done]. intros [= <-]. eauto.
Qed.

Lemma no_table s fl pgdir tabs ptes va :
  vm_ok end_ s fl pgdir tabs ptes → tabs !! PDX va = None → ptes !! va = None.
Proof.
  intros Hv Et. destruct (ptes !! va) as [e|] eqn:E; [|done].
  apply (po_pte _ _ _ _ _ (vo_pt _ _ _ _ _ _ Hv)) in E as (_ & t & ? & _). congruence.
Qed.

Lemma deallocuvm_loop_ok fuel s fl pgdir tabs ptes a b :
  frames_ok s fl pgdir tabs ptes → a `mod` PGSIZE = 0 → 0 ≤ a → b ≤ KERNBASE → no_gap ptes a b →
  Z.max 0 (b - a) ≤ (Z.of_nat fuel - 1) * PGSIZE →
  ∃ s' fl' ptes', deallocuvm_loop end_ fuel pgdir a b s = Ok tt s' ∧
    unmapped s fl pgdir tabs ptes a b s' fl' ptes'.
Proof.
  revert s fl ptes a. induction fuel as [|fuel IH]; intros s fl ptes a Hf Hm Ha Hb Hg Hfuel.
  { exfalso. unfold PGSIZE in *. lia. }
  cbn [deallocuvm_loop]. destruct (Z.ltb_spec a b) as [Hab|Hab].
  2: { exists s, fl, ptes. split; [done|]. apply unmapped_nothing; [done|]. intros; lia. }
  destruct (user_frame a Hm) as (Hfa & [_ Hfa'] & Hu); [lia|].
  pose proof (fo_vm _ _ _ _ _ Hf) as Hv.
  destruct (tabs !! PDX a) as [t|] eqn:Et.
  - mstep (walkpgdir_hit end_ s fl pgdir tabs ptes a false t Hv (proj1 Hfa) Et).
    destruct (read_pte _ _ _ _ _ _ _ Hv Hfa Et) as (Hz & e & Ee & Hpte).
    rewrite (proj2 (Z.eqb_neq _ _) Hz). mstep Ee. rewrite land_P, negb_involutive, Hu.
    destruct (Z.testbit e 0) eqn:Eb.
    + destruct (free_page_ok s fl pgdir tabs ptes a e t Hf ltac:(lia) Hpte Et) as (s1 & E1 & Hf1 & Hk1).
      destruct (fo_frame _ _ _ _ _ Hf _ _ Hpte ltac:(lia)) as (Hfe & _).
      rewrite (proj2 (Z.eqb_neq _ _) (frame_nonzero e Hfe)). mstep E1.
      destruct (IH s1 (frame e :: fl) (delete a ptes) (a + PGSIZE)) as (s' & fl' & ptes' & E' & H'); try done.
      { unfold PGSIZE. lia. }
      { intros va vb Hvb Hr Hlt [e' [Hne He']%lookup_delete_Some].
        rewrite lookup_delete_ne by (unfold PGSIZE in *; lia). 
        apply (Hg va vb); [done|unfold PGSIZE in *; lia|done|by eexists]. }
      { unfold PGSIZE in *. lia. }
      exists s', fl', ptes'. split; [exact E'|]. by eapply unmapped_page.
    + destruct (IH s fl ptes (a + PGSIZE)) as (s' & fl' & ptes' & E' & H'); try done.
      { unfold PGSIZE; lia. }
      { eapply no_gap_weaken; [|done]. unfold PGSIZE; lia. }
      { unfold PGSIZE in *. lia. }
      exists s', fl', ptes'. split; [exact E'|].
      eapply (unmapped_skip _ _ _ _ _ a (a + PGSIZE)); [unfold PGSIZE; lia| |done].
      intros va Hr Hlt. apply (no_gap_empty ptes a b); try done. lia.
  - mstep (walkpgdir_miss end_ s fl pgdir tabs ptes a Hv (proj1 Hfa) Et). cbn [Z.eqb].
    pose proof (no_table _ _ _ _ _ _ Hv Et) as Hna.
    assert (u32 (u32 (a + (NPTENTRIES - 1) * PGSIZE) + PGSIZE) = a + NPTENTRIES * PGSIZE) as ->.
    { unfold NPTENTRIES, PGSIZE, KERNBASE in *. rewrite (u32_small (a + _)), u32_small by lia. lia. }
    destruct (IH s fl ptes (a + NPTENTRIES * PGSIZE)) as (s' & fl' & ptes' & E' & H'); try done.
    { unfold NPTENTRIES, PGSIZE in *. rewrite Z.mod_add by lia. done. }
    { unfold NPTENTRIES, PGSIZE. lia. }
    { eapply no_gap_weaken; [|done]. unfold NPTENTRIES, PGSIZE. lia. }
    { unfold NPTENTRIES, PGSIZE in *. lia. }
    exists s', fl', ptes'. split; [exact E'|].
    eapply (unmapped_skip _ _ _ _ _ a (a + NPTENTRIES * PGSIZE)); [unfold NPTENTRIES, PGSIZE; lia| |done].
    intros va Hr Hlt. apply (no_gap_empty ptes a b); try done. lia.
Qed.

Lemma deallocuvm_ok s fl pgdir tabs ptes oldsz newsz :
  frames_ok s fl pgdir tabs ptes → 0 ≤ newsz < oldsz → oldsz ≤ KERNBASE → no_gap ptes (PGROUNDUP newsz) oldsz →
  ∃ s' fl' ptes', deallocuvm end_ pgdir oldsz newsz s = Ok newsz s' ∧
    unmapped s fl pgdir tabs ptes (PGROUNDUP newsz) oldsz s' fl' ptes'.
Proof.
  intros Hf Hr Hb Hg. unfold deallocuvm. destruct (Z.leb_spec oldsz newsz); [lia|].
  destruct (PGROUNDUP_spec newsz) as [Hup Hal]; [unfold KERNBASE, PGSIZE in *; lia|].
  destruct (deallocuvm_loop_ok (S (S (Z.to_nat (oldsz `div` PGSIZE)))) s fl pgdir tabs ptes (PGROUNDUP newsz) oldsz)
    as (s' & fl' & ptes' & E & H'); try done; [lia| |].
  { unfold PGSIZE in *. Z.div_mod_to_equations. lia. }
  exists s', fl', ptes'. split; [|done]. by mstep E.
Qed.

(** ** Growing an address space *)

Lemma frame_mkpte p perm : page_ok end_ p → 0 ≤ perm < PGSIZE → frame (mkpte (V2P p) perm) = p.
Proof.
  intros Hp Hperm. destruct (V2P_frame _ _ Hp) as [Hf Hpv].
  destruct (mkpte_ok _ _ Hf Hperm) as (_ & E & _). unfold frame. by rewrite E.
Qed.

Section grow.
(** What the new pages are: their permissions and their contents. *)
Context (perm : Z → Z) (data : Z → list Z).
Hypothesis perm_range : ∀ va, 0 ≤ perm va < PGSIZE.
Hypothesis data_length : ∀ va, length (data va) = PGSIZE_n.

(** The address space while allocuvm or copyuvm grows it: it covers [0, a),
    of which [a0, a) is new, made of pages that were free. *)
Record growing (s0 : kstate) (fl0 : list Z) (pgdir : Z) (tabs0 ptes0 : gmap Z Z) (a0 a : Z)
    (s : kstate) (fl : list Z) (tabs ptes : gmap Z Z) : Prop := Growing {
  gr_uvm : uvm s fl pgdir tabs ptes a;
  gr_tabs : tabs0 ⊆ tabs;
  gr_old va : ¬ (a0 ≤ va < a) → ptes !! va = ptes0 !! va;
  gr_new va : frame_ok va → a0 ≤ va < a →
    ∃ p, ptes !! va = Some (mkpte (V2P p) (perm va)) ∧ page_ok end_ p ∧ p ∈ fl0 ∧
      bytes_at (ram s) p (data va);
  gr_pages p : p ∈ fl0 ∨ pt_page pgdir tabs0 p ↔ p ∈ fl ∨ pt_page pgdir tabs p ∨ freed ptes a0 a p;
  gr_keeps : keeps (λ p, p ∉ fl0 ∧ ¬ pt_page pgdir tabs0 p) (ram s0) (ram s);
  gr_length : Z.of_nat (length fl0) * PGSIZE ≤ Z.of_nat (length fl) * PGSIZE + 2 * (a - a0);
}.

Lemma growing_start s fl pgdir tabs ptes a :
  uvm s fl pgdir tabs ptes a → growing s fl pgdir tabs ptes a a s fl tabs ptes.
Proof.
  intros H. split; [done|done|done|intros; lia| |apply keeps_refl|lia].
  intros p. split; [tauto|]. intros [?|[?|(va & e & ? & _)]]; [tauto..|lia].
Qed.

(** The pages of the new part stay as they are while others change. *)
Lemma bytes_at_keeps P m m' p l :
  keeps P m m' → page_ok end_ p → P p → length l = PGSIZE_n → bytes_at m p l → bytes_at m' p l.
Proof.
  intros Hk Hp HP Hl H i x Hi. rewrite (Hk p); [by apply H|done|done|].
  apply lookup_lt_Some in Hi. rewrite Hl in Hi. unfold in_page, PGSIZE_n, PGSIZE in *. lia.
Qed.

(** A page taken from the allocator, filled and mapped at [a]. *)
Lemma uvm_add_page s fl pgdir tabs ptes a p s' fl' tabs' :
  uvm s fl pgdir tabs ptes a → a `mod` PGSIZE = 0 → 0 ≤ a →
  page_ok end_ p → p ∈ fl → p ∉ fl' → ¬ pt_page pgdir tabs' p → (∀ q, q ∈ fl' → q ∈ fl) →
  (∀ q, pt_page pgdir tabs' q → q ∈ fl ∨ pt_page pgdir tabs q) →
  vm_ok end_ s' fl' pgdir tabs' (<[a := mkpte (V2P p) (perm a)]> ptes) →
  uvm s' fl' pgdir tabs' (<[a := mkpte (V2P p) (perm a)]> ptes) (a + PGSIZE).
Proof.
  intros [[Hv Hfr Hin] Hdom] Hm Ha Hp Hpf Hnf Hnp Hfl Htab Hv'.
  pose proof (frame_mkpte p (perm a) Hp (perm_range a)) as Efr.
  split; [split; [done| |]|].
  - intros va e [[<- <-]|[Hne He]]%lookup_insert_Some Hlt; [by rewrite Efr|].
    destruct (Hfr va e He Hlt) as (? & ? & ?). split; [done|].
    split; [auto|]. by intros [?|?]%Htab.
  - assert (∀ va e, ptes !! va = Some e → va < KERNBASE → frame e ≠ p) as Hnew.
    { intros va e He Hlt <-. by destruct (Hfr va e He Hlt) as (_ & ? & _). }
    intros va vb e e'. rewrite !lookup_insert_Some.
    intros [[<- <-]|[Hne He]] [[<- <-]|[Hne' He']] Hlt Hlt'; rewrite ?Efr; [done| | |by apply Hin].
    + intros E. by destruct (Hnew vb e' He' Hlt').
    + intros E. by destruct (Hnew va e He Hlt).
  - intros va Hva Hlt. destruct (decide (va = a)) as [->|Hne].
    + rewrite lookup_insert_eq. split; [unfold PGSIZE; lia|by eexists].
    + rewrite lookup_insert_ne by done. rewrite (Hdom va Hva Hlt). destruct Hva as [_ Hva].
      clear - Hm Hva Hne. unfold PGSIZE in *. Z.div_mod_to_equations. lia.
Qed.

(** The pages of a longer stretch. *)
Lemma freed_insert ptes a0 a x q :
  (∀ va e, ptes !! va = Some e → va `mod` PGSIZE = 0) → a0 ≤ a → a `mod` PGSIZE = 0 → ptes !! a = None →
  freed (<[a := x]> ptes) a0 (a + PGSIZE) q ↔ freed ptes a0 a q ∨ q = frame x.
Proof.
  intros Hal Ha0 Hm Hna. split.
  - intros (va & e & Hr & [[<- <-]|[Hne He]]%lookup_insert_Some & ->); [by right|].
    left. exists va, e. split; [|done]. specialize (Hal va e He).
    clear - Hr Hne Hal Hm. unfold PGSIZE in *. Z.div_mod_to_equations. lia.
  - intros [(va & e & Hr & He & ->)| ->].
    + exists va, e. rewrite lookup_insert_ne by lia. split; [unfold PGSIZE; lia|done].
    + exists a, x. rewrite lookup_insert_eq. split; [unfold PGSIZE; lia|done].
Qed.

(** The new page and the new tables join the address space. *)
Lemma growing_add s0 fl0 pgdir tabs0 ptes0 a0 a s p fl tabs ptes s' new fl' tabs' :
  growing s0 fl0 pgdir tabs0 ptes0 a0 a s (p :: fl) tabs ptes →
  a0 ≤ a → 0 ≤ a0 → a `mod` PGSIZE = 0 → a < KERNBASE → ptes !! a = None → page_ok end_ p →
  fl = new ++ fl' → tabs ⊆ tabs' → (∀ q, pt_page pgdir tabs' q ↔ pt_page pgdir tabs q ∨ q ∈ new) →
  vm_ok end_ s' fl' pgdir tabs' (<[a := mkpte (V2P p) (perm a)]> ptes) →
  keeps (λ q, q ≠ p ∧ ¬ pt_page pgdir tabs' q) (ram s) (ram s') →
  bytes_at (ram s') p (data a) → (length fl ≤ S (length fl'))%nat →
  growing s0 fl0 pgdir tabs0 ptes0 a0 (a + PGSIZE) s' fl' tabs'
    (<[a := mkpte (V2P p) (perm a)]> ptes).
Proof.
  intros [Hu Ht Hold Hnew Hpages Hkeeps Hlen] Ha0 Ha0' Hm Hlt Hna Hp Hfl Ht' Hpt' Hv' Hk' Hz' Hlen'.
  pose proof (uv_frames _ _ _ _ _ _ Hu) as Hf. pose proof (fo_vm _ _ _ _ _ Hf) as Hv.
  assert (p ∉ fl) as Hpn by apply (proj1 (proj1 (NoDup_cons _ _) (ko_nodup _ _ _ (vo_kmem _ _ _ _ _ _ Hv)))).
  assert (¬ pt_page pgdir tabs p) as Hpp.
  { intros H. apply (vo_free _ _ _ _ _ _ Hv p H). by left. }
  assert (¬ pt_page pgdir tabs' p) as Hpp'.
  { rewrite Hpt'. intros [?|?]; [done|]. apply Hpn. subst fl. apply elem_of_app. by left. }
  assert (∀ q, q ∈ fl' ∨ q ∈ new ↔ q ∈ fl) as Hin by (intros q; subst fl; rewrite elem_of_app; tauto).
  assert (frame (mkpte (V2P p) (perm a)) = p) as Efr by (apply frame_mkpte; auto).
  split.
  - apply (uvm_add_page s (p :: fl) pgdir tabs ptes a p); try done; [lia|by left| | |].
    + intros H. apply Hpn, Hin. by left.
    + intros q Hq. right. apply Hin. by left.
    + intros q [?|?]%Hpt'; [by right|]. left. right. apply Hin. by right.
  - by etrans.
  - intros va Hva. rewrite lookup_insert_ne by (unfold PGSIZE in *; lia). apply Hold. unfold PGSIZE in *; lia.
  - intros va Hva Hr. destruct (decide (va = a)) as [->|Hne].
    + exists p. rewrite lookup_insert_eq. split; [done|]. split; [done|]. split; [|done].
      destruct (proj2 (Hpages p)) as [?|[->|[d Hd]]]; [left; by left|done| |]; destruct Hpp; [by left|].
      right. exists d. by eapply lookup_weaken.
    + destruct (Hnew va Hva) as (q & Hq & Hqp & Hqf & Hqz).
      { destruct Hva as [_ Hva]. clear - Hva Hm Hne Hr. unfold PGSIZE in *. Z.div_mod_to_equations. lia. }
      exists q. rewrite lookup_insert_ne by done. split; [done|]. split; [done|]. split; [done|].
      assert (va < KERNBASE) as Hlt'.
      { destruct Hva as [_ Hva]. clear - Hva Hm Hne Hr Hlt. unfold PGSIZE in *. Z.div_mod_to_equations. lia. }
      destruct (fo_frame _ _ _ _ _ Hf va _ Hq Hlt') as (_ & Hqn & Hqpt).
      rewrite frame_mkpte in Hqn, Hqpt by auto.
      eapply bytes_at_keeps; [exact Hk'|done| |apply data_length|done]. split.
      { intros ->. apply Hqn. by left. }
      rewrite Hpt'. intros [?|?]; [done|]. apply Hqn. right. apply Hin. by right.
  - intros q. rewrite Hpages, freed_insert, Efr; [|intros; eapply fo_va; eauto|done..].
    rewrite Hpt', elem_of_cons, <- (Hin q). tauto.
  - eapply keeps_trans; [exact Hkeeps|exact Hk'|]. intros q _ [Hq0 Hq1]. split; [done|].
    assert (¬ (q ∈ p :: fl ∨ pt_page pgdir tabs q)) as Hq by (intros H; destruct (proj2 (Hpages q)); tauto).
    split; [intros ->; apply Hq; left; by left|].
    intros [?|?]%Hpt'; apply Hq; [by right|]. left. right. apply Hin. by right.
  - rewrite length_cons in Hlen. unfold PGSIZE in *. lia.
Qed.

(** One turn of the loop that finds the memory it needs. *)
Lemma growing_step s0 fl0 pgdir tabs0 ptes0 a0 a s p fl tabs ptes :
  growing s0 fl0 pgdir tabs0 ptes0 a0 a s (p :: fl) tabs ptes → a0 ≤ a → 0 ≤ a0 → a `mod` PGSIZE = 0 → a < KERNBASE →
  ∃ s1, kalloc s = Ok p s1 ∧ p ≠ 0 ∧
    let s2 := set_ram (put_bytes p (data a) (ram s1)) s1 in
    ram s1 = ram s ∧ page_ok end_ p ∧ kmem_ok end_ s1 fl ∧ p ∉ fl ∧ ¬ pt_page pgdir tabs p ∧
    (fl = [] ∧ mappages pgdir a PGSIZE (V2P p) (perm a) s2 = Ok (-1) s2 ∨
     ∃ s3 fl3 tabs3 ptes3, mappages pgdir a PGSIZE (V2P p) (perm a) s2 = Ok 0 s3 ∧
       growing s0 fl0 pgdir tabs0 ptes0 a0 (a + PGSIZE) s3 fl3 tabs3 ptes3).
Proof.
  intros Hg Ha0 Ha0' Hm Hlt. pose proof (gr_uvm _ _ _ _ _ _ _ _ _ _ _ Hg) as Hu.
  destruct (vm_ok_kalloc _ _ _ _ _ _ _ (fo_vm _ _ _ _ _ (uv_frames _ _ _ _ _ _ Hu)))
    as (s1 & E1 & Hr1 & Hv1 & Hp & Hn & Hnp & Hz).
  exists s1. split; [done|]. split; [done|]. intros s2.
  do 5 (split; [first [done|apply Hv1]|]).
  destruct (user_frame a Hm) as (Hfa & _ & _); [lia|].
  pose proof (vm_ok_put_page end_ s1 fl pgdir tabs ptes p (data a) Hv1 Hp Hn Hnp
    (data_length a)) as Hv2. fold s2 in Hv2.
  assert (ptes !! a = None) as Hna.
  { destruct (ptes !! a) as [e|] eqn:Ee; [|done].
    assert (a < a); [|lia]. apply (uv_dom _ _ _ _ _ _ Hu); [done|lia|by rewrite Ee]. }
  destruct (V2P_frame _ _ Hp) as [Hfp Hpv].
  destruct (mappages_page_ok end_ s2 fl pgdir tabs ptes a (V2P p) (perm a) Hv2 Hfa Hfp (perm_range a) Hna)
    as [[-> E3]|(s3 & fl3 & tabs3 & E3 & Hv3 & [Ht3 (new & Hfl3 & Hpt3)] & Hsame & Hlen3)].
  { left. split; [reflexivity|exact E3]. }
  right. exists s3, fl3, tabs3, (<[a := mkpte (V2P p) (perm a)]> ptes). split; [exact E3|].
  pose proof (λ q, pt_page_ok _ _ _ _ _ q (vo_pt _ _ _ _ _ _ Hv3)) as Hpg3.
  assert (keeps (λ q, q ≠ p ∧ ¬ pt_page pgdir tabs3 q) (ram s) (ram s3)) as Hk3.
  { eapply (keeps_trans (λ q, q ≠ p)); [|exact (keeps_same_but _ _ _ _ Hpg3 Hsame)|intros q _ H; exact H].
    rewrite <- Hr1. intros q b Hq Hne Hb. cbn [ram set_ram s2].
    apply (put_outside end_ _ _ _ q); [exact Hp|exact Hq|congruence|apply data_length|exact Hb]. }
  assert (¬ pt_page pgdir tabs3 p) as Hnp3.
  { rewrite Hpt3. intros [H|H]; [by apply Hnp|]. apply Hn. rewrite Hfl3. apply elem_of_app. by left. }
  eapply (growing_add _ _ _ _ _ _ _ s p fl tabs ptes s3 new fl3 tabs3);
    [exact Hg|exact Ha0|exact Ha0'|exact Hm|exact Hlt|exact Hna|exact Hp|exact Hfl3|exact Ht3|exact Hpt3
    |exact Hv3|exact Hk3| |exact Hlen3].
  eapply (bytes_at_keeps _ (ram s2)); [exact (keeps_same_but _ _ _ _ Hpg3 Hsame)|exact Hp|exact Hnp3
    |apply data_length|]. apply bytes_at_put.
Qed.

(** Sizes in the same page describe the same user part. *)
Lemma uvm_size s fl pgdir tabs ptes sz sz' :
  uvm s fl pgdir tabs ptes sz → (∀ va, va `mod` PGSIZE = 0 → va < sz ↔ va < sz') →
  uvm s fl pgdir tabs ptes sz'.
Proof. intros [Hf Hd] H. split; [done|]. intros va Hva Hlt. rewrite Hd, (H va) by (done || apply Hva). done. Qed.

(** What is left when allocuvm gives up: the old address space, perhaps with
    more tables, and no page lost. *)
Record restored (s0 : kstate) (fl0 : list Z) (pgdir : Z) (tabs0 ptes0 : gmap Z Z) (a0 : Z)
    (s : kstate) (fl : list Z) (tabs : gmap Z Z) : Prop := Restored {
  rs_uvm : uvm s fl pgdir tabs ptes0 a0;
  rs_tabs : tabs0 ⊆ tabs;
  rs_pages p : p ∈ fl0 ∨ pt_page pgdir tabs0 p ↔ p ∈ fl ∨ pt_page pgdir tabs p;
  rs_keeps : keeps (λ p, p ∉ fl0 ∧ ¬ pt_page pgdir tabs0 p) (ram s0) (ram s);
}.

(** Taking the new pages back; [s1] is [s] but for the page [hand], which the
    loop may hold. *)
Lemma alloc_undo s0 fl0 pgdir tabs0 ptes0 a0 a s fl tabs ptes s1 fl1 (hand : list Z) oldsz newsz :
  uvm s0 fl0 pgdir tabs0 ptes0 a0 → growing s0 fl0 pgdir tabs0 ptes0 a0 a s fl tabs ptes → uvm s1 fl1 pgdir tabs ptes a →
  (∀ p, p ∈ fl ↔ p ∈ fl1 ∨ p ∈ hand) → keeps (λ p, p ∉ hand) (ram s) (ram s1) →
  0 ≤ oldsz < newsz → newsz ≤ KERNBASE → a0 = PGROUNDUP oldsz → a0 ≤ a < newsz →
  ∃ s' fl', deallocuvm end_ pgdir newsz oldsz s1 = Ok oldsz s' ∧
    uvm s' fl' pgdir tabs ptes0 a0 ∧
    (∀ p, p ∈ fl0 ∨ pt_page pgdir tabs0 p ↔ p ∈ hand ∨ p ∈ fl' ∨ pt_page pgdir tabs p) ∧
    (∀ p, p ∈ fl' ↔ p ∈ fl1 ∨ freed ptes a0 a p) ∧
    keeps (λ p, p ∉ fl0 ∧ ¬ pt_page pgdir tabs0 p) (ram s0) (ram s').
Proof.
  intros [Hf0 Hd0] [Hu Ht Hold Hnew Hpages Hkeeps Hlen] Hu1 Hfl1 Hk1 Hr Hb Ea0 Ha.
  pose proof (uv_frames _ _ _ _ _ _ Hu1) as Hf1.
  destruct (PGROUNDUP_spec oldsz) as [Hup Hal]; [unfold KERNBASE, PGSIZE in *; lia|]. rewrite <- Ea0 in *.
  assert (∀ va, is_Some (ptes !! va) → va < KERNBASE → va < a) as Hdom.
  { intros va [e He] Hlt. apply (uv_dom _ _ _ _ _ _ Hu1); [by eapply fo_va|done|by rewrite He]. }
  destruct (deallocuvm_ok s1 fl1 pgdir tabs ptes newsz oldsz Hf1 Hr Hb) as (s' & fl' & ptes' & E & H').
  { rewrite <- Ea0. intros va vb Hvb Hab Hlt Hs. apply (uv_dom _ _ _ _ _ _ Hu1); [done|lia|].
    specialize (Hdom va Hs). lia. }
  rewrite <- Ea0 in H'. destruct H' as [Hf' Hp' Hfl' Hk'].
  assert (∀ p, freed ptes a0 newsz p ↔ freed ptes a0 a p) as Hfreed.
  { intros p. split; intros (va & e & Hva & He & ->); exists va, e; (split; [|done]); [|lia].
    split; [lia|]. apply Hdom; [by rewrite He|lia]. }
  assert (ptes' = ptes0) as ->.
  { apply map_eq. intros va. rewrite Hp'. destruct (decide (a0 ≤ va < newsz)) as [Hva|Hva].
    - destruct (ptes0 !! va) as [e|] eqn:He; [|done]. exfalso.
      destruct (fo_va _ _ _ _ _ _ _ Hf0 He) as (Hva' & _).
      pose proof (proj1 (Hd0 va Hva' ltac:(lia)) ltac:(by rewrite He)). lia.
    - apply Hold. lia. }
  assert (∀ p, p ∈ fl0 ∨ pt_page pgdir tabs0 p ↔ p ∈ hand ∨ p ∈ fl' ∨ pt_page pgdir tabs p) as Hacc.
  { intros p. rewrite Hpages, Hfl1, Hfl', Hfreed. tauto. }
  exists s', fl'. split; [done|]. split; [by split|]. split; [exact Hacc|]. split.
  - intros p. by rewrite Hfl', Hfreed.
  - eapply (keeps_trans _ _ _ _ _ _ Hkeeps); [exact (keeps_trans _ _ _ _ _ _ Hk1 Hk' (λ _ _ H, H))|].
    intros p Hp Hn. split; [exact Hn|]. specialize (Hacc p). tauto.
Qed.

End grow.

(** ** allocuvm *)

Definition alloc_perm (_ : Z) : Z := Z.lor PTE_W PTE_U.
Definition alloc_data (_ : Z) : list Z := replicate PGSIZE_n 0.

Lemma alloc_perm_range va : 0 ≤ alloc_perm va < PGSIZE.
Proof. by vm_compute. Qed.
Lemma alloc_data_length va : length (alloc_data va) = PGSIZE_n.
Proof. apply length_replicate. Qed.

(** Freeing a page that the address space does not use. *)
Lemma uvm_kfree s fl pgdir tabs ptes sz p :
  uvm s fl pgdir tabs ptes sz → page_ok end_ p → p ∉ fl → ¬ pt_page pgdir tabs p →
  (∀ va e, ptes !! va = Some e → va < KERNBASE → frame e ≠ p) →
  ∃ s', kfree end_ p s = Ok tt s' ∧ uvm s' (p :: fl) pgdir tabs ptes sz ∧
    keeps (λ q, q ≠ p) (ram s) (ram s').
Proof.
  intros [[Hv Hfr Hin] Hd] Hp Hn Hnp Hne. destruct (vm_ok_kfree s fl pgdir tabs ptes p Hv Hp Hn Hnp) as (s' & E & Hv' & Hk).
  exists s'. split; [done|]. split; [|done]. split; [|done]. split; [done| |done].
  intros va e He Hlt. destruct (Hfr va e He Hlt) as (? & ? & ?). split; [done|]. split; [|done].
  intros [Heq|?]%elem_of_cons; [|done]. by apply (Hne va e).
Qed.

(** Out of memory, with nothing in hand. *)
Lemma alloc_fail1 s0 fl0 pgdir tabs0 ptes0 a0 a s tabs ptes oldsz newsz :
  uvm s0 fl0 pgdir tabs0 ptes0 a0 → growing alloc_perm alloc_data s0 fl0 pgdir tabs0 ptes0 a0 a s [] tabs ptes →
  0 ≤ oldsz < newsz → newsz ≤ KERNBASE → a0 = PGROUNDUP oldsz → a0 ≤ a < newsz →
  ∃ s' fl', (kalloc s = Ok 0 s ∧ (deallocuvm end_ pgdir newsz oldsz;; mret 0) s = Ok 0 s') ∧
    restored s0 fl0 pgdir tabs0 ptes0 a0 s' fl' tabs.
Proof.
  intros Hu0 Hg Hr Hb Ea0 Ha. pose proof (gr_uvm _ _ _ _ _ _ _ _ _ _ _ _ _ Hg) as Hu.
  destruct (alloc_undo alloc_perm alloc_data s0 fl0 pgdir tabs0 ptes0 a0 a s [] tabs ptes s [] [] oldsz newsz Hu0 Hg Hu)
    as (s' & fl' & E & Hu' & Hacc & _ & Hk); try done.
  { intros p. rewrite elem_of_nil. tauto. }
  exists s', fl'. split; [split|].
  - exact (kalloc_empty _ _ _ _ _ (fo_vm _ _ _ _ _ (uv_frames _ _ _ _ _ _ Hu))).
  - by mstep E.
  - split; [done|apply Hg| |done]. intros p. rewrite Hacc, elem_of_nil. tauto.
Qed.

(** Out of memory for a table, with a page in hand. *)
Lemma alloc_fail2 s0 fl0 pgdir tabs0 ptes0 a0 a s p tabs ptes s1 oldsz newsz :
  uvm s0 fl0 pgdir tabs0 ptes0 a0 → growing alloc_perm alloc_data s0 fl0 pgdir tabs0 ptes0 a0 a s [p] tabs ptes →
  0 ≤ oldsz < newsz → newsz ≤ KERNBASE → a0 = PGROUNDUP oldsz → a0 ≤ a < newsz →
  kalloc s = Ok p s1 → 
  ∃ s' fl', (deallocuvm end_ pgdir newsz oldsz;; kfree end_ p;; mret 0)
      (set_ram (put_bytes p (replicate PGSIZE_n 0) (ram s1)) s1) = Ok 0 s' ∧
    restored s0 fl0 pgdir tabs0 ptes0 a0 s' fl' tabs.
Proof.
  intros Hu0 Hg Hr Hb Ea0 Ha E1. pose proof (gr_uvm _ _ _ _ _ _ _ _ _ _ _ _ _ Hg) as Hu.
  destruct (uv_frames _ _ _ _ _ _ Hu) as [Hv Hfr Hin].
  destruct (vm_ok_kalloc _ _ _ _ _ _ _ Hv) as (s1' & E1' & Hr1 & Hv1 & Hp & Hn & Hnp & Hz).
  rewrite E1 in E1'. injection E1' as <-.
  pose proof (vm_ok_put_page end_ s1 [] pgdir tabs ptes p (replicate PGSIZE_n 0) Hv1 Hp Hn Hnp
    (length_replicate _ _)) as Hv2. set (s2 := set_ram _ s1) in *.
  assert (uvm s2 [] pgdir tabs ptes a) as Hu2.
  { split; [|apply Hu]. split; [done| |done]. intros va e He Hlt.
    destruct (Hfr va e He Hlt) as (? & _ & ?). split; [done|]. split; [apply not_elem_of_nil|done]. }
  destruct (alloc_undo alloc_perm alloc_data s0 fl0 pgdir tabs0 ptes0 a0 a s [p] tabs ptes s2 [] [p] oldsz newsz Hu0 Hg Hu2)
    as (s3 & fl3 & E3 & Hu3 & Hacc & Hfl3 & Hk3); try done.
  { intros q. rewrite elem_of_nil. tauto. }
  { intros q b Hq Hne Hb'. rewrite <- Hr1. cbn [ram set_ram s2].
    apply (put_outside end_ _ _ _ q); [exact Hp|exact Hq| |apply length_replicate|exact Hb'].
    intros ->. by apply Hne, list_elem_of_singleton. }
  assert (∀ va e, ptes !! va = Some e → va < KERNBASE → frame e ≠ p) as Hnew.
  { intros va e He Hlt <-. destruct (Hfr va e He Hlt) as (_ & H & _). by apply H, list_elem_of_singleton. }
  destruct (uvm_kfree s3 fl3 pgdir tabs ptes0 a0 p Hu3 Hp) as (s4 & E4 & Hu4 & Hk4); [|done| |].
  { rewrite Hfl3. intros [?%elem_of_nil|(va & e & Hr' & He & Heq)]; [done|]. 
    apply (Hnew va e He); [lia|done]. }
  { intros va e He Hlt. destruct (decide (a0 ≤ va < a)) as [Hva|Hva].
    - pose proof (proj1 (uv_dom _ _ _ _ _ _ Hu0 va (proj1 (fo_va _ _ _ _ _ _ _ (uv_frames _ _ _ _ _ _ Hu0) He)) Hlt)
        ltac:(by rewrite He)). lia.
    - rewrite <- (gr_old _ _ _ _ _ _ _ _ _ _ _ _ _ Hg va Hva) in He. by apply (Hnew va). }
  exists s4, (p :: fl3). mstep E3. mstep E4. split; [reflexivity|].
  split; [done|apply Hg| |].
  - intros q. rewrite Hacc, list_elem_of_singleton, elem_of_cons. tauto.
  - eapply keeps_trans; [exact Hk3|exact Hk4|]. intros q Hq Hn'. split; [exact Hn'|]. intros ->.
    specialize (Hacc p). rewrite list_elem_of_singleton in Hacc. tauto.
Qed.

(** How allocuvm ends: grown to [newsz], or restored because there were not
    two free pages for each new one. *)
Definition alloc_result (s0 : kstate) (fl0 : list Z) (pgdir : Z) (tabs0 ptes0 : gmap Z Z) (a0 newsz r : Z)
    (s' : kstate) : Prop :=
  (r = newsz ∧ ∃ a fl' tabs' ptes', newsz ≤ a < newsz + PGSIZE ∧ a `mod` PGSIZE = 0 ∧
     growing alloc_perm alloc_data s0 fl0 pgdir tabs0 ptes0 a0 a s' fl' tabs' ptes') ∨
  (r = 0 ∧ Z.of_nat (length fl0) * PGSIZE < 2 * (newsz - a0 + PGSIZE) ∧
     ∃ fl' tabs', restored s0 fl0 pgdir tabs0 ptes0 a0 s' fl' tabs').

Lemma allocuvm_loop_ok fuel s0 fl0 pgdir tabs0 ptes0 a0 a s fl tabs ptes oldsz newsz :
  uvm s0 fl0 pgdir tabs0 ptes0 a0 → growing alloc_perm alloc_data s0 fl0 pgdir tabs0 ptes0 a0 a s fl tabs ptes →
  0 ≤ oldsz → newsz < KERNBASE → a0 = PGROUNDUP oldsz → a0 ≤ a < newsz + PGSIZE → a `mod` PGSIZE = 0 → oldsz ≤ newsz →
  Z.max 0 (newsz - a) ≤ (Z.of_nat fuel - 1) * PGSIZE →
  ∃ r s', allocuvm_loop end_ fuel pgdir a oldsz newsz s = Ok r s' ∧
    alloc_result s0 fl0 pgdir tabs0 ptes0 a0 newsz r s'.
Proof.
  revert a s fl tabs ptes. induction fuel as [|fuel IH]; intros a s fl tabs ptes Hu0 Hg Hold Hb Ea0 Ha Hm Hon Hfuel.
  { exfalso. unfold PGSIZE in *. lia. }
  cbn [allocuvm_loop]. destruct (Z.ltb_spec a newsz) as [Hlt|Hge].
  2: { exists newsz, s. split; [done|]. left. split; [done|]. exists a, fl, tabs, ptes. split; [lia|done]. }
  destruct (PGROUNDUP_spec oldsz) as [Hup Hal]; [unfold KERNBASE, PGSIZE in *; lia|]. rewrite <- Ea0 in Hup, Hal.
  pose proof (gr_length _ _ _ _ _ _ _ _ _ _ _ _ _ Hg) as Hlen.
  destruct fl as [|p fl].
  { destruct (alloc_fail1 s0 fl0 pgdir tabs0 ptes0 a0 a s tabs ptes oldsz newsz Hu0 Hg) as (s' & fl' & [E1 E2] & Hrs);
      [lia|lia|done|lia|].
    mstep E1. cbn [Z.eqb]. exists 0, s'. split; [exact E2|]. right. split; [done|].
    split; [cbn [length] in Hlen; unfold PGSIZE in *; lia|]. by eexists _, _. }
  destruct (growing_step _ _ alloc_perm_range alloc_data_length _ _ _ _ _ _ _ _ _ _ _ _ Hg)
    as (s1 & E1 & Hz & Hr1 & Hp & Hk1 & _ & _ & H3); [lia|lia|done|lia|].
  pose proof (memset_page end_ s1 fl p 0 Hk1 Hp) as E2.
  mstep E1. rewrite (proj2 (Z.eqb_neq _ _) Hz). mstep E2.
  destruct H3 as [[-> E3]|(s3 & fl3 & tabs3 & ptes3 & E3 & Hg3)]; mstep E3; cbn [Z.ltb Z.compare].
  - destruct (alloc_fail2 s0 fl0 pgdir tabs0 ptes0 a0 a s p tabs ptes s1 oldsz newsz Hu0 Hg)
      as (s' & fl' & E' & Hrs); [lia|lia|done|lia|done|].
    exists 0, s'. split; [exact E'|]. right. split; [done|].
    split; [cbn [length] in Hlen; unfold PGSIZE in *; lia|]. by eexists _, _.
  - destruct (user_frame a Hm) as (_ & [_ Hm'] & ->); [lia|].
    apply (IH (a + PGSIZE) s3 fl3 tabs3 ptes3);
      [exact Hu0|exact Hg3|exact Hold|exact Hb|exact Ea0|unfold PGSIZE in *; lia|exact Hm'|exact Hon|].
    unfold PGSIZE in *; lia.
Qed.

Lemma allocuvm_ok s fl pgdir tabs ptes oldsz newsz :
  uvm s fl pgdir tabs ptes oldsz → 0 ≤ oldsz ≤ newsz → newsz < KERNBASE →
  ∃ r s', allocuvm end_ pgdir oldsz newsz s = Ok r s' ∧
    alloc_result s fl pgdir tabs ptes (PGROUNDUP oldsz) newsz r s'.
Proof.
  intros Hu Hr Hb. unfold allocuvm. destruct (Z.leb_spec KERNBASE newsz); [lia|].
  destruct (Z.ltb_spec newsz oldsz); [lia|].
  destruct (PGROUNDUP_spec oldsz) as [Hup Hal]; [unfold KERNBASE, PGSIZE in *; lia|].
  assert (uvm s fl pgdir tabs ptes (PGROUNDUP oldsz)) as Hu'.
  { eapply uvm_size; [exact Hu|]. intros va Hva. clear - Hva Hup Hal. unfold PGSIZE in *. Z.div_mod_to_equations. lia. }
  eapply allocuvm_loop_ok; [exact Hu'|apply growing_start, Hu'|lia|done|done|unfold PGSIZE in *; lia|done|lia|].
  clear - Hr Hup. unfold PGSIZE in *. Z.div_mod_to_equations. lia.
Qed.
End user.
