(* ===== verification/VmCopy.v ===== *)
(** * Whole address spaces: the lemmas of freevm, setupkvm, copyuvm and copyout *)

From S2P Require Import Prelude Mem Str Mmu Kalloc Vm VmProofs VmUser.

#[local] Opaque replicate put_bytes.

Section spaces.
Context (end_ data_ : Z).
Hypothesis end_high : KERNBASE < end_.

(** ** freevm *)

(** The directory while freevm frees the tables from [i] on. *)
Record freeing (s : kstate) (fl : list Z) (pgdir : Z) (tabs : gmap Z Z) (i : Z) : Prop := Freeing {
  fg_kmem : kmem_ok end_ s fl;
  fg_dir : page_ok end_ pgdir ∧ pgdir ∉ fl;
  fg_pde d : i ≤ d < 1024 → ∃ e, get32 (ram s) (pgdir + 4 * d) = Some e ∧
    match tabs !! d with
    | Some t => Z.testbit e 0 = true ∧ frame e = t ∧ Z.testbit e 1 = true ∧ Z.testbit e 2 = true
    | None => Z.testbit e 0 = false
    end;
  fg_tab d t : i ≤ d → tabs !! d = Some t → page_ok end_ t ∧ t ≠ pgdir ∧ t ∉ fl;
  fg_inj d d' t : tabs !! d = Some t → tabs !! d' = Some t → d = d';
}.

Lemma freeing_next s fl pgdir tabs i : freeing s fl pgdir tabs i → freeing s fl pgdir tabs (i + 1).
Proof. intros []. split; try done; intros; [apply fg_pde0|eapply fg_tab0]; eauto; lia. Qed.

Lemma freeing_table s fl pgdir tabs i t :
  freeing s fl pgdir tabs i → 0 ≤ i → tabs !! i = Some t →
  ∃ s', kfree end_ t s = Ok tt s' ∧ freeing s' (t :: fl) pgdir tabs (i + 1) ∧
    keeps end_ (λ q, q ≠ t) (ram s) (ram s').
Proof.
  intros [Hk [Hd Hdn] Hpde Htab Hinj] Hi Et. destruct (Htab i t ltac:(lia) Et) as (Htp & Htd & Htn).
  destruct (kfree_ok _ _ _ _ Hk Htp Htn) as (m & E & Hk' & Hm).
  assert (keeps end_ (λ q, q ≠ t) (ram s) m) as Hkeep.
  { intros q a Hq Hne Ha. subst m. apply (put_outside end_ _ _ _ q); [done|done|congruence|apply length_junk|done]. }
  clear Hm. eexists. split; [exact E|]. split; [|exact Hkeep]. split; cbn [ram].
  - done.
  - split; [done|]. intros [->|?]%elem_of_cons; done.
  - intros d Hr. rewrite (get32_ext (ram s)); [apply Hpde; lia|]. intros k Hkr.
    apply (Hkeep pgdir); [done|congruence|]. apply word_in_page; lia.
  - intros d t' Hle Et'. destruct (Htab d t' ltac:(lia) Et') as (? & ? & ?). split; [done|]. split; [done|].
    intros [->|?]%elem_of_cons; [|done]. pose proof (Hinj _ _ _ Et Et'). lia.
  - done.
Qed.

Lemma freevm_loop_ok n s fl pgdir tabs i :
  freeing s fl pgdir tabs i → 0 ≤ i → i + Z.of_nat n = 1024 →
  (∀ d t, tabs !! d = Some t → 0 ≤ d < 1024) →
  ∃ s' fl', freevm_loop end_ n pgdir i s = Ok tt s' ∧ freeing s' fl' pgdir tabs 1024 ∧
    (∀ p, p ∈ fl' ↔ p ∈ fl ∨ ∃ d, i ≤ d ∧ tabs !! d = Some p) ∧
    keeps end_ (λ p, p ∉ fl') (ram s) (ram s').
Proof.
  revert s fl i. induction n as [|n IH]; intros s fl i Hf Hi Hn Hdom; cbn [freevm_loop].
  { exists s, fl. split; [done|]. replace i with 1024 in * by lia. split; [done|]. split; [|done].
    intros p. split; [by left|]. intros [?|(d & Hd & E)]; [done|]. apply Hdom in E. lia. }
  destruct (fg_pde _ _ _ _ _ Hf i) as (e & Ee & He); [lia|]. mstep (load_word _ _ _ Ee).
  rewrite land_P, negb_involutive. destruct (tabs !! i) as [t|] eqn:Et.
  - destruct He as (-> & Hfr & _). fold (frame e). rewrite Hfr.
    destruct (freeing_table _ _ _ _ _ _ Hf Hi Et) as (s1 & E1 & Hf1 & Hk1). mstep E1.
    destruct (IH s1 (t :: fl) (i + 1) Hf1) as (s' & fl' & E' & Hf' & Hfl' & Hk'); [lia|lia|done|].
    exists s', fl'. split; [done|]. split; [done|]. split.
    + intros p. rewrite Hfl', elem_of_cons. split.
      * intros [[->|?]|(d & ? & ?)]; [right; exists i; split; [lia|done]|by left|].
        right. exists d. split; [lia|done].
      * intros [?|(d & Hd & Ed)]; [tauto|]. destruct (decide (d = i)) as [->|]; [left; left; congruence|].
        right. exists d. split; [lia|done].
    + eapply keeps_trans; [exact Hk1|exact Hk'|]. intros q _ Hq. split; [|done]. intros ->.
      apply Hq, Hfl'. left. by left.
  - rewrite He. unfold mbind at 1, M_bind at 1. cbn [mret M_ret].
    destruct (IH s fl (i + 1) (freeing_next _ _ _ _ _ Hf)) as (s' & fl' & E' & Hf' & Hfl' & Hk'); [lia|lia|done|].
    exists s', fl'. split; [done|]. split; [done|]. split; [|done].
    intros p. rewrite Hfl'. apply or_iff_compat_l. split; intros (d & Hd & Ed); exists d; (split; [|done]); [lia|].
    destruct (decide (d = i)) as [->|]; [congruence|lia].
Qed.

(** freevm returns every page of the address space. *)
Lemma freevm_ok s fl pgdir tabs ptes sz :
  uvm end_ s fl pgdir tabs ptes sz →
  ∃ s' fl', freevm end_ pgdir s = Ok tt s' ∧ kmem_ok end_ s' fl' ∧
    (∀ p, p ∈ fl' ↔ p ∈ fl ∨ pt_page pgdir tabs p ∨ freed ptes 0 KERNBASE p) ∧
    keeps end_ (λ p, p ∉ fl') (ram s) (ram s').
Proof.
  intros [Hf Hdom]. pose proof (fo_vm _ _ _ _ _ _ Hf) as Hv.
  unfold freevm. pose proof (po_dir _ _ _ _ _ (vo_pt _ _ _ _ _ _ Hv)) as Hdir.
  destruct (Z.eqb_spec pgdir 0) as [->|_]; [apply page_ok_range in Hdir; lia|].
  assert (∀ va e, ptes !! va = Some e → frame_ok va) as Hfr.
  { intros va e He. by eapply fo_va. }
  destruct (deallocuvm_ok end_ end_high s fl pgdir tabs ptes KERNBASE 0 Hf) as (s1 & fl1 & ptes1 & E1 & [Hf1 Hp1 Hfl1 Hk1]);
    [done|done| |].
  { intros va vb Hvb Hr Hlt [e He]. pose proof (Hdom va (Hfr _ _ He) Hlt) as [H _].
    apply (Hdom vb Hvb); [lia|]. specialize (H ltac:(by rewrite He)). lia. }
  change (PGROUNDUP 0) with 0 in *. mstep E1.
  pose proof (fo_vm _ _ _ _ _ _ Hf1) as [Hkm1 Hpt1 Hfree1].
  assert (freeing s1 fl1 pgdir tabs 0) as Hg1.
  { split; [done|split; [done|apply Hfree1; by left]|apply Hpt1| |apply Hpt1].
    intros d t _ Et. destruct (po_tab _ _ _ _ _ Hpt1 d t Et) as (_ & ? & ?). split; [done|]. split; [done|].
    apply Hfree1. right. eauto. }
  destruct (freevm_loop_ok (Z.to_nat NPDENTRIES) s1 fl1 pgdir tabs 0 Hg1) as (s2 & fl2 & E2 & Hg2 & Hfl2 & Hk2);
    [lia|done|intros d t Et; by apply (po_tab _ _ _ _ _ Hpt1 d t)|]. mstep E2.
  assert (pgdir ∉ fl2) as Hdn.
  { apply Hg2. }
  destruct (kfree_ok _ _ _ _ (fg_kmem _ _ _ _ _ Hg2) Hdir Hdn) as (m & E3 & Hk3 & Hm).
  exists (KState (use_lock s2) pgdir m), (pgdir :: fl2). split; [exact E3|]. split; [exact Hk3|].
  assert (∀ p, p ∈ pgdir :: fl2 ↔ p ∈ fl ∨ pt_page pgdir tabs p ∨ freed ptes 0 KERNBASE p) as Hfl.
  { intros p. rewrite elem_of_cons, Hfl2, Hfl1. unfold pt_page. split.
    - intros [->|[[?|?]|(d & _ & ?)]]; eauto 10.
    - intros [?|[[->|(d & Hd)]|?]]; [tauto|tauto| |tauto]. right. right. exists d.
      pose proof (po_tab _ _ _ _ _ Hpt1 d p Hd). split; [lia|done]. }
  split; [exact Hfl|]. intros p a Hp Hn Ha. cbn [ram]. subst m.
  rewrite (put_outside end_ _ _ _ p); [|done|done| |apply length_junk|done].
  - rewrite (Hk2 p a Hp), (Hk1 p a Hp); [done| |done| |done].
    + split; [|intros ?; apply Hn, Hfl; tauto]. intros Hin. apply Hn, Hfl. rewrite Hfl1 in Hin. tauto.
    + intros ?. apply Hn. by right.
  - intros <-. apply Hn. by left.
Qed.

(** ** setupkvm *)

(** The entries that a list of kernel mappings adds. *)
Fixpoint kmap_ptes (ks : list (Z * Z * Z * Z)) (ptes : gmap Z Z) : gmap Z Z :=
  match ks with
  | [] => ptes
  | (virt, ps, pe, perm) :: ks =>
      kmap_ptes ks (map_range (Z.to_nat (u32 (pe - ps) `div` PGSIZE)) virt ps perm ptes)
  end.

(** Whole pages, in increasing order from [b] on. *)
Fixpoint kmap_ok (b : Z) (ks : list (Z * Z * Z * Z)) : Prop :=
  match ks with
  | [] => True
  | (virt, ps, pe, perm) :: ks =>
      let size := u32 (pe - ps) in
      b ≤ virt ∧ 0 < size ∧ size `mod` PGSIZE = 0 ∧ frame_ok virt ∧ frame_ok ps ∧
      virt + size ≤ 2 ^ 32 ∧ ps + size ≤ 2 ^ 32 ∧ 0 ≤ perm < PGSIZE ∧ kmap_ok (virt + size) ks
  end.

Lemma more_pages_whole va size :
  va `mod` PGSIZE = 0 → 0 < size → size `mod` PGSIZE = 0 →
  first_page va = va ∧ S (more_pages va size) = Z.to_nat (size `div` PGSIZE) ∧
  Z.of_nat (S (more_pages va size)) * PGSIZE = size.
Proof.
  intros Hm Hs Hsm. assert (first_page va = va) as E by (unfold first_page; lia).
  split; [done|]. unfold more_pages. rewrite E.
  assert (first_page (va + size - 1) = va + size - PGSIZE) as ->.
  { unfold first_page, PGSIZE in *. Z.div_mod_to_equations. lia. }
  unfold PGSIZE in *. Z.div_mod_to_equations. lia.
Qed.

(** How setupkvm ends: with the mappings, or out of memory. *)
Lemma setupkvm_loop_ok ks b s fl pgdir tabs ptes :
  vm_ok end_ s fl pgdir tabs ptes → kmap_ok b ks →
  (∀ va e, ptes !! va = Some e → va < b) →
  ∃ r s' fl' tabs' ptes', setupkvm_loop pgdir ks s = Ok r s' ∧ vm_ok end_ s' fl' pgdir tabs' ptes' ∧
    tables_from pgdir fl tabs fl' tabs' ∧ same_but (ram s) (ram s') pgdir tabs' ∧
    (r = pgdir ∧ ptes' = kmap_ptes ks ptes ∨ r = 0 ∧ fl' = []).
Proof.
  revert b s fl tabs ptes. induction ks as [|[[[virt ps] pe] perm] ks IH]; intros b s fl tabs ptes Hv Hok Hb.
  { exists pgdir, s, fl, tabs, ptes. split; [done|]. split; [done|]. split; [apply tables_from_refl|].
    split; [done|]. by left. }
  cbn [kmap_ok] in Hok. destruct Hok as (Hbv & Hs & Hsm & Hfv & Hfp & Hve & Hpe & Hperm & Hok).
  cbn [setupkvm_loop kmap_ptes]. set (size := u32 (pe - ps)) in *.
  destruct (more_pages_whole virt size (proj2 Hfv) Hs Hsm) as (Ef & En & Esz).
  destruct (mappages_ok end_ s fl pgdir tabs ptes virt size ps perm Hv) as
    (r & k & s1 & fl1 & tabs1 & E1 & Hv1 & Ht1 & Hs1 & _ & Hr); try done.
  { apply Hfv. }
  { lia. }
  { by rewrite Esz. }
  { rewrite Ef. intros v _ Hr. destruct (ptes !! v) as [e|] eqn:He; [|done]. apply Hb in He. lia. }
  mstep E1. rewrite Ef in Hv1. destruct Hr as [[-> ->]|(-> & _ & ->)]; cbn [Z.ltb Z.compare].
  - rewrite En in Hv1. destruct (IH (virt + size) s1 fl1 tabs1 _ Hv1 Hok) as (r & s2 & fl2 & tabs2 & ptes2 & E2 & Hv2 & Ht2 & Hs2 & Hr2).
    { intros va e He. pose proof (proj1 (po_pte _ _ _ _ _ (vo_pt _ _ _ _ _ _ Hv1) _ _) He) as ([_ Hva] & _).
      rewrite lookup_map_range in He; [|apply Hfv|done].
      destruct (decide (virt ≤ va < virt + Z.of_nat (Z.to_nat (size `div` PGSIZE)) * PGSIZE)) as [Hr|Hr].
      - rewrite <- En, Esz in Hr. lia.
      - apply Hb in He. lia. }
    exists r, s2, fl2, tabs2, ptes2. split; [done|]. split; [done|]. split; [by eapply tables_from_trans|].
    split; [|done]. eapply same_but_trans; [|exact Hs2]. eapply same_but_mono; [apply Ht2|done].
  - eexists 0, s1, [], tabs1, _. split; [done|]. split; [exact Hv1|]. split; [done|]. split; [done|]. by right.
Qed.

(** A directory of zeros maps nothing. *)
Lemma vm_ok_empty s fl pgdir :
  kmem_ok end_ s fl → page_ok end_ pgdir → pgdir ∉ fl → bytes_at (ram s) pgdir (replicate PGSIZE_n 0) →
  vm_ok end_ s fl pgdir ∅ ∅.
Proof.
  intros Hk Hp Hn Hz. split; [done| |].
  - split; [done|by intros d t ?%lookup_empty_Some|by intros d d' t ?%lookup_empty_Some| |].
    + intros d Hd. exists 0. rewrite lookup_empty. split; [|done].
      apply (get32_zero _ _ _ _ Hz); unfold PGSIZE_n, PGSIZE; lia.
    + intros va e. rewrite lookup_empty. split; [done|]. intros (_ & t & ?%lookup_empty_Some & _). done.
  - intros p [->|[d ?%lookup_empty_Some]]; done.
Qed.

Section kvm.
(** kernel.ld: the data segment starts on a page, after the text. *)
Hypothesis data_place : data_ `mod` PGSIZE = 0 ∧ KERNLINK < data_ < KERNBASE + PHYSTOP.

Lemma kmap_fits : kmap_ok KERNBASE (kmap data_).
Proof.
  destruct data_place as [Hm Hr]. cbn [kmap_ok kmap].
  unfold frame_ok, V2P, KERNLINK, KERNBASE, EXTMEM, PHYSTOP, DEVSPACE, PGSIZE, PTE_W in *.
  rewrite (u32_small (data_ - _)) by lia. rewrite (u32_small (_ - (data_ - _))) by lia.
  change (u32 (0x80000000 + 0x100000 - 0x80000000)) with 0x100000.
  rewrite (u32_small (data_ - _ - _)) by lia.
  change (u32 (0x100000 - 0)) with 0x100000. change (u32 (0 - 0xFE000000)) with 0x2000000.
  clear end_high. Z.div_mod_to_equations. lia.
Qed.

(** The entries of a fresh kernel page table. *)
Definition kernel_ptes : gmap Z Z := kmap_ptes (kmap data_) ∅.

(** A directory has at most 1024 tables. *)
Lemma new_tables_bound m p tabs ptes (new : list Z) :
  pt_ok end_ m p tabs ptes → NoDup new → p ∉ new → (∀ q, q ∈ new → pt_page p tabs q) → (length new ≤ 1024)%nat.
Proof.
  intros Hpt Hnd Hp Hin. set (ds := list_to_set (seqZ 0 1024) : gset Z).
  assert (dom tabs ⊆ ds) as Hsub%subseteq_size.
  { intros d [t Hd]%elem_of_dom. apply elem_of_list_to_set, elem_of_seqZ.
    pose proof (po_tab _ _ _ _ _ Hpt d t Hd). lia. }
  unfold ds in Hsub. rewrite size_list_to_set, length_seqZ, size_dom in Hsub by apply NoDup_seqZ.
  etrans; [|exact Hsub]. rewrite <- length_map_to_list, <- (length_fmap snd).
  apply submseteq_length, NoDup_submseteq; [done|]. intros q Hq.
  destruct (Hin q Hq) as [->|[d Hd]]; [done|]. apply list_elem_of_fmap. exists (d, q).
  split; [done|]. by apply elem_of_map_to_list.
Qed.

Lemma setupkvm_ok s fl :
  kmem_ok end_ s fl →
  ∃ r s' fl', setupkvm data_ s = Ok r s' ∧ kmem_ok end_ s' fl' ∧ (∀ p, p ∈ fl' → p ∈ fl) ∧
    keeps end_ (λ p, p ∉ fl) (ram s) (ram s') ∧ (length fl ≤ length fl' + 1025)%nat ∧
    (r = 0 ∧ fl' = [] ∨
     r ≠ 0 ∧ r ∈ fl ∧ ∃ tabs, vm_ok end_ s' fl' r tabs kernel_ptes ∧ 
       ∀ p, p ∈ fl ↔ p ∈ fl' ∨ pt_page r tabs p).
Proof.
  intros Hk. unfold setupkvm. pose proof (kalloc_ok _ _ _ Hk) as Ha. destruct fl as [|p fl].
  { mstep Ha. exists 0, s, []. split; [done|]. split; [done|]. split; [done|]. split; [done|]. split; [simpl; lia|]. by left. }
  destruct Ha as (next & E1 & Hk1). mstep E1. set (s1 := KState _ _ _) in *.
  pose proof (ko_pages _ _ _ Hk) as [Hp _]%Forall_cons. pose proof (ko_nodup _ _ _ Hk) as [Hn _]%NoDup_cons.
  pose proof (page_ok_range _ _ Hp) as Hpr. destruct (Z.eqb_spec p 0); [lia|].
  mstep (memset_page end_ s1 fl p 0 Hk1 Hp). change (DEVSPACE <? P2V PHYSTOP) with false. cbn [negb].
  set (s2 := set_ram _ s1).
  assert (keeps end_ (λ q, q ≠ p) (ram s) (ram s2)) as Hkp2.
  { intros q a Hq Hne Ha. apply (put_outside end_ _ _ _ q); [done|done|congruence|apply length_replicate|done]. }
  assert (kmem_ok end_ s2 fl) as Hk2.
  { apply kmem_ok_ram; [done| |intros; by apply is_Some_put]. intros q a Hq Ha. apply (Hkp2 q); [|by intros ->|done].
    pose proof (ko_pages _ _ _ Hk1) as H. rewrite Forall_forall in H. auto. }
  assert (vm_ok end_ s2 fl p ∅ ∅) as Hv2 by (apply vm_ok_empty; [done..|apply bytes_at_put]).
  destruct (setupkvm_loop_ok (kmap data_) KERNBASE s2 fl p ∅ ∅ Hv2 kmap_fits)
    as (r & s3 & fl3 & tabs3 & ptes3 & E3 & Hv3 & [_ (new & Hfl & Hpt)] & Hsame & Hr).
  { by intros va e ?%lookup_empty_Some. }
  assert (∀ q, pt_page p tabs3 q ↔ q = p ∨ q ∈ new) as Hpt'.
  { intros q. rewrite Hpt. unfold pt_page. split; [|tauto].
    intros [[H|[d H%lookup_empty_Some]]|H]; [by left|destruct H|by right]. }
  assert (length new ≤ 1024)%nat as Hbound.
  { pose proof (ko_nodup _ _ _ Hk1) as Hnd. rewrite Hfl in Hnd. apply NoDup_app in Hnd as [Hnd _].
    eapply new_tables_bound; [apply Hv3|done| |].
    - intros Hin. apply Hn. rewrite Hfl. apply elem_of_app. by left.
    - intros q Hq. apply Hpt'. by right. }
  exists r, s3, fl3. split; [exact E3|]. split; [apply Hv3|]. split; [|split; [|split]].
  - intros q Hq. right. rewrite Hfl. apply elem_of_app. by right.
  - eapply keeps_trans; [exact Hkp2|apply keeps_same_but; [|exact Hsame]|].
    + intros q. apply (pt_page_ok _ _ _ _ _ _ (vo_pt _ _ _ _ _ _ Hv3)).
    + intros q _ Hq. split; [intros ->; apply Hq; by left|]. rewrite Hpt'. intros [->|?]; apply Hq; [by left|].
      right. rewrite Hfl. apply elem_of_app. by left.
  - cbn [length]. rewrite Hfl, length_app. lia.
  - destruct Hr as [[-> ->]|[-> ->]]; [right|left; split; reflexivity].
    split; [done|]. split; [by left|]. exists tabs3. split; [exact Hv3|].
    intros q. rewrite elem_of_cons, Hpt', Hfl, elem_of_app. tauto.
Qed.

End kvm.

(** ** Two address spaces *)

(** [p] belongs to the address space: a table or a user page. *)
Definition uses (pgdir : Z) (tabs ptes : gmap Z Z) (p : Z) : Prop :=
  pt_page pgdir tabs p ∨ freed ptes 0 KERNBASE p.

(** Work elsewhere leaves an address space alone. *)
Lemma uvm_keeps P s fl pgdir tabs ptes sz s' fl' :
  uvm end_ s fl pgdir tabs ptes sz → kmem_ok end_ s' fl' → keeps end_ P (ram s) (ram s') →
  (∀ p, uses pgdir tabs ptes p → P p ∧ p ∉ fl') → uvm end_ s' fl' pgdir tabs ptes sz.
Proof.
  intros [[Hv Hfr Hin] Hd] Hk HP Hu. split; [|done]. split; [|intros va e He Hlt|done].
  - split; [done| |intros p Hp; apply Hu; by left].
    eapply pt_ok_ext; [|apply Hv]. intros p a Hp Ha. apply (HP p); [|apply Hu; by left|done].
    by eapply (pt_page_ok _ _ _ _ _ _ (vo_pt _ _ _ _ _ _ Hv)).
  - destruct (Hfr va e He Hlt) as (Hp & _ & Hn). split; [done|]. split; [|done]. apply Hu. right.
    exists va, e. split; [|done].
    pose proof (proj1 (po_pte _ _ _ _ _ (vo_pt _ _ _ _ _ _ Hv) _ _) He) as ([? _] & _). lia.
Qed.

Lemma uses_not_free s fl pgdir tabs ptes sz p :
  uvm end_ s fl pgdir tabs ptes sz → uses pgdir tabs ptes p → p ∉ fl ∧ page_ok end_ p.
Proof.
  intros [Hf _] [Hp|(va & e & Hr & He & ->)].
  - pose proof (fo_vm _ _ _ _ _ _ Hf) as Hv. split; [by apply Hv|].
    by eapply (pt_page_ok _ _ _ _ _ _ (vo_pt _ _ _ _ _ _ Hv)).
  - destruct (fo_frame _ _ _ _ _ _ Hf va e He); [lia|tauto].
Qed.

(** Taking a page off the free list and filling it. *)
Lemma uvm_take s p fl pgdir tabs ptes sz s1 l :
  uvm end_ s (p :: fl) pgdir tabs ptes sz → kmem_ok end_ s1 fl → ram s1 = ram s → page_ok end_ p →
  p ∉ fl → length l = PGSIZE_n →
  uvm end_ (set_ram (put_bytes p l (ram s1)) s1) fl pgdir tabs ptes sz.
Proof.
  intros Hu Hk Hr Hp Hn Hl.
  assert (keeps end_ (λ q, q ≠ p) (ram s) (put_bytes p l (ram s1))) as Hkeep.
  { intros q a Hq Hne Ha. rewrite <- Hr. apply (put_outside end_ _ _ _ q); [done|done|congruence|done|done]. }
  eapply uvm_keeps; [exact Hu| |exact Hkeep|].
  - apply kmem_ok_ram; [done| |intros; by apply is_Some_put]. intros q a Hq Ha. rewrite Hr in Hkeep |- *.
    apply (Hkeep q); [|by intros ->|done]. pose proof (ko_pages _ _ _ Hk) as H. rewrite Forall_forall in H. auto.
  - intros q Hq. destruct (uses_not_free _ _ _ _ _ _ _ Hu Hq) as [Hq' _]. split; [intros ->; apply Hq'; by left|].
    intros H. apply Hq'. by right.
Qed.

Lemma mmu_uvm s fl pgdir tabs ptes sz va :
  uvm end_ s fl pgdir tabs ptes sz → 0 ≤ va < KERNBASE → mmu (ram s) pgdir va = ptes !! first_page va.
Proof.
  intros [[Hv _ _] _] Hva.
  apply (mmu_ptes end_ _ _ _ _ _ (vo_pt _ _ _ _ _ _ Hv)). unfold KERNBASE in Hva. lia.
Qed.

(** What the user sees of it. *)
Lemma ubyte_eq s fl pgdir tabs ptes sz va :
  uvm end_ s fl pgdir tabs ptes sz → 0 ≤ va < KERNBASE →
  ubyte (ram s) pgdir va = e ← ptes !! first_page va; ram s !! (frame e + va `mod` PGSIZE).
Proof.
  intros Hu Hva. unfold ubyte. by rewrite (mmu_uvm _ _ _ _ _ _ _ Hu Hva).
Qed.

Lemma in_page_mod p va : in_page p (p + va `mod` PGSIZE).
Proof. unfold in_page, PGSIZE. pose proof (Z.mod_pos_bound va 4096). lia. Qed.

Lemma ubyte_keeps P s fl pgdir tabs ptes sz s' fl' tabs' sz' va :
  uvm end_ s fl pgdir tabs ptes sz → uvm end_ s' fl' pgdir tabs' ptes sz' →
  keeps end_ P (ram s) (ram s') → (∀ p, freed ptes 0 KERNBASE p → P p) → 0 ≤ va < KERNBASE →
  ubyte (ram s') pgdir va = ubyte (ram s) pgdir va.
Proof.
  intros Hu Hu' HP Hf Hva. rewrite (ubyte_eq _ _ _ _ _ _ _ Hu), (ubyte_eq _ _ _ _ _ _ _ Hu') by done.
  destruct (ptes !! first_page va) as [e|] eqn:He; [|done]. cbn.
  assert (0 ≤ first_page va < KERNBASE) as Hfp by (destruct (first_page_ok va); unfold frame_ok, KERNBASE in *; lia).
  apply (HP (frame e)); [|apply Hf; by exists (first_page va), e|apply in_page_mod].
  apply (fo_frame _ _ _ _ _ _ (uv_frames _ _ _ _ _ _ _ Hu) (first_page va) e He). lia.
Qed.

(** Addresses and the pages they are in. *)
Lemma first_page_between a b v :
  a `mod` PGSIZE = 0 → b `mod` PGSIZE = 0 → a ≤ first_page v < b ↔ a ≤ v < b.
Proof. unfold first_page, PGSIZE. intros. Z.div_mod_to_equations. lia. Qed.

(** What the user sees of a grown address space. *)
Lemma growing_ubyte perm data s0 fl0 pgdir tabs0 ptes0 sz0 a0 a s fl tabs ptes v :
  (∀ va, 0 ≤ perm va < PGSIZE) → (∀ va, length (data va) = PGSIZE_n) →
  uvm end_ s0 fl0 pgdir tabs0 ptes0 sz0 →
  growing end_ perm data s0 fl0 pgdir tabs0 ptes0 a0 a s fl tabs ptes →
  a0 `mod` PGSIZE = 0 → a `mod` PGSIZE = 0 → 0 ≤ v < KERNBASE →
  ubyte (ram s) pgdir v =
    if decide (a0 ≤ v < a) then data (first_page v) !! Z.to_nat (v `mod` PGSIZE) else ubyte (ram s0) pgdir v.
Proof.
  intros Hperm Hdata Hu0 [Hu _ Hold Hnew _ Hkeeps _] Hm0 Hm Hv.
  destruct (first_page_ok v) as [Hfv Hfv']; [unfold KERNBASE in Hv; lia|].
  rewrite (ubyte_eq _ _ _ _ _ _ v Hu Hv), (ubyte_eq _ _ _ _ _ _ v Hu0 Hv).
  assert (0 ≤ v `mod` PGSIZE < PGSIZE) as Hmod by (by apply Z.mod_pos_bound).
  destruct (decide (a0 ≤ v < a)) as [Hin|Hout].
  - destruct (Hnew (first_page v) Hfv) as (p & Hp & Hpok & _ & Hb); [by apply first_page_between|].
    rewrite Hp. cbn [mbind option_bind]. rewrite (frame_mkpte end_) by auto.
    destruct (lookup_lt_is_Some_2 (data (first_page v)) (Z.to_nat (v `mod` PGSIZE))) as [x Hx].
    { rewrite Hdata. unfold PGSIZE_n. lia. }
    rewrite Hx. specialize (Hb _ _ Hx). by rewrite Z2Nat.id in Hb by lia.
  - rewrite Hold by (by rewrite first_page_between). destruct (ptes0 !! first_page v) as [e|] eqn:He; [|done].
    cbn [mbind option_bind].
    destruct (fo_frame _ _ _ _ _ _ (uv_frames _ _ _ _ _ _ _ Hu0) _ _ He) as (? & ? & ?); [lia|].
    apply (Hkeeps (frame e)); [done|done|apply in_page_mod].
Qed.

(** The low bits of an entry are its flags. *)
Lemma mkpte_user p perm : page_ok end_ p → 0 ≤ perm < PGSIZE → Z.testbit (mkpte (V2P p) perm) 2 = Z.testbit perm 2.
Proof. intros Hp Hperm. apply mkpte_bit; [apply (V2P_frame _ _ Hp)|done|done]. Qed.

(** The contents of a page. *)
Definition page_bytes (m : mem) (p : Z) : list Z :=
  (λ i, default 0 (m !! (p + Z.of_nat i))) <$> seq 0 PGSIZE_n.

Lemma length_page_bytes m p : length (page_bytes m p) = PGSIZE_n.
Proof. unfold page_bytes. by rewrite length_fmap, length_seq. Qed.

Lemma lookup_page_bytes m p i : (i < PGSIZE_n)%nat → page_bytes m p !! i = Some (default 0 (m !! (p + Z.of_nat i))).
Proof. intros Hi. unfold page_bytes. by rewrite list_lookup_fmap, lookup_seq_lt by done. Qed.

Lemma page_bytes_at s fl p : kmem_ok end_ s fl → page_ok end_ p → bytes_at (ram s) p (page_bytes (ram s) p).
Proof.
  intros Hk Hp i x Hi. pose proof (lookup_lt_Some _ _ _ Hi) as Hlt. rewrite length_page_bytes in Hlt.
  rewrite lookup_page_bytes in Hi by done. injection Hi as <-.
  destruct (ko_mapped _ _ _ Hk p Hp i Hlt) as [y Hy]. by rewrite Hy.
Qed.

Lemma page_bytes_ok m p : mem_ok m → Forall byte_ok (page_bytes m p).
Proof.
  intros Hm. apply Forall_lookup. intros i x Hi. pose proof (lookup_lt_Some _ _ _ Hi) as Hlt.
  rewrite length_page_bytes in Hlt. rewrite lookup_page_bytes in Hi by done. injection Hi as <-.
  destruct (m !! (p + Z.of_nat i)) as [y|] eqn:E; [by eapply Hm|]. by vm_compute.
Qed.

Lemma page_bytes_keeps P m m' p : keeps end_ P m m' → page_ok end_ p → P p → page_bytes m' p = page_bytes m p.
Proof.
  intros HP Hp Hpp. apply list_eq. intros i. destruct (decide (i < PGSIZE_n)%nat) as [Hi|Hi].
  - rewrite !lookup_page_bytes by done. rewrite (HP p); [done..|]. unfold in_page, PGSIZE_n in *. lia.
  - rewrite !lookup_ge_None_2 by (rewrite length_page_bytes; lia). done.
Qed.

(** ** copyuvm *)

(** The child's pages: flags and contents of the parent's. *)
Definition copy_perm (pptes : gmap Z Z) (va : Z) : Z :=
  match pptes !! va with Some e => PTE_FLAGS e | None => 0 end.
Definition copy_data (m : mem) (pptes : gmap Z Z) (va : Z) : list Z :=
  match pptes !! va with Some e => page_bytes m (frame e) | None => replicate PGSIZE_n 0 end.

Lemma copy_perm_range pptes va : 0 ≤ copy_perm pptes va < PGSIZE.
Proof.
  unfold copy_perm. destruct (pptes !! va) as [e|]; [|done]. unfold PTE_FLAGS. change 0xFFF with (Z.ones 12).
  rewrite Z.land_ones by lia. by apply Z.mod_pos_bound.
Qed.

Lemma copy_data_length m pptes va : length (copy_data m pptes va) = PGSIZE_n.
Proof. unfold copy_data. destruct (pptes !! va); [apply length_page_bytes|apply length_replicate]. Qed.

(** The parent while the child [d] grows. *)
Section copy.
Context (s0 : kstate) (fl0 : list Z) (pp : Z) (ptabs pptes : gmap Z Z) (sz : Z) (d : Z) (tabs0 ptes0 : gmap Z Z).
Hypothesis parent0 : uvm end_ s0 fl0 pp ptabs pptes sz.
Hypothesis child0 : uvm end_ s0 fl0 d tabs0 ptes0 0.
Hypothesis apart0 : ∀ p, uses pp ptabs pptes p → ¬ pt_page d tabs0 p.
Hypothesis bytes0 : ∀ va e, pptes !! va = Some e → va < KERNBASE → Forall byte_ok (page_bytes (ram s0) (frame e)).

Notation copying := (growing end_ (copy_perm pptes) (copy_data (ram s0) pptes) s0 fl0 d tabs0 ptes0 0).

Lemma parent_outside p : uses pp ptabs pptes p → p ∉ fl0 ∧ ¬ pt_page d tabs0 p.
Proof.
  intros Hp. split; [|by apply apart0]. by apply (uses_not_free _ _ _ _ _ _ _ parent0).
Qed.

Lemma copying_parent i s fl tabs ptes : copying i s fl tabs ptes → uvm end_ s fl pp ptabs pptes sz.
Proof.
  intros Hg. eapply uvm_keeps; [exact parent0|..|exact (gr_keeps _ _ _ _ _ _ _ _ _ _ _ _ _ _ Hg)|].
  - apply (fo_vm _ _ _ _ _ _ (uv_frames _ _ _ _ _ _ _ (gr_uvm _ _ _ _ _ _ _ _ _ _ _ _ _ _ Hg))).
  - intros p Hp%parent_outside. split; [done|]. intros Hin.
    destruct (proj2 (gr_pages _ _ _ _ _ _ _ _ _ _ _ _ _ _ Hg p)); tauto.
Qed.

(** Copying the parent's page [i] into a page in hand. *)
Lemma copy_page i s p fl tabs ptes s1 e :
  copying i s (p :: fl) tabs ptes → 0 ≤ i < KERNBASE → pptes !! i = Some e →
  ram s1 = ram s → kmem_ok end_ s1 fl → page_ok end_ p →
  on_ram (Kern.memmove p (P2V (PTE_ADDR e)) PGSIZE) s1 =
    Ok p (set_ram (put_bytes p (copy_data (ram s0) pptes i) (ram s1)) s1).
Proof.
  intros Hg Hi He Hr Hk Hp. fold (frame e). apply on_ram_ok.
  destruct (fo_frame _ _ _ _ _ _ (uv_frames _ _ _ _ _ _ _ parent0) i e He) as (Hfe & _); [lia|].
  assert (uses pp ptabs pptes (frame e)) as Hu by (right; by exists i, e).
  unfold copy_data. rewrite He.
  change PGSIZE with (Z.of_nat PGSIZE_n). rewrite <- (length_page_bytes (ram s0) (frame e)) at 1.
  apply memmove_ok; [|rewrite length_page_bytes; by apply (ko_mapped _ _ _ Hk)|apply (bytes0 i); [done|lia]].
  rewrite Hr. eapply bytes_at_keeps; [exact (gr_keeps _ _ _ _ _ _ _ _ _ _ _ _ _ _ Hg)|done|by apply parent_outside
    |apply length_page_bytes|].
  eapply page_bytes_at; [|done]. apply (fo_vm _ _ _ _ _ _ (uv_frames _ _ _ _ _ _ _ parent0)).
Qed.

(** Giving up: the child is freed, and the parent is what it was. *)
Lemma copy_fail i s fl tabs ptes s1 fl1 :
  copying i s fl tabs ptes → uvm end_ s1 fl1 d tabs ptes i → uvm end_ s1 fl1 pp ptabs pptes sz →
  (∀ p, p ∈ fl1 → p ∈ fl) → keeps end_ (λ p, p ∉ fl) (ram s) (ram s1) →
  ∃ s' fl', (freevm end_ d;; mret 0) s1 = Ok 0 s' ∧ uvm end_ s' fl' pp ptabs pptes sz ∧
    keeps end_ (uses pp ptabs pptes) (ram s0) (ram s') ∧
    (∀ p, p ∈ fl' ↔ p ∈ fl1 ∨ pt_page d tabs p ∨ freed ptes 0 KERNBASE p).
Proof.
  intros Hg Hu1 Hp1 Hsub Hk1. destruct (freevm_ok s1 fl1 d tabs ptes i Hu1) as (s' & fl' & E & Hkm & Hfl & Hk').
  exists s', fl'. mstep E. split; [done|].
  assert (∀ p, uses pp ptabs pptes p → p ∉ fl ∧ p ∉ fl') as Hout.
  { intros p Hp%parent_outside.
    assert (¬ (p ∈ fl ∨ pt_page d tabs p ∨ freed ptes 0 i p)) as Hn.
    { intros H. destruct (proj2 (gr_pages _ _ _ _ _ _ _ _ _ _ _ _ _ _ Hg p) H); tauto. }
    split; [tauto|]. rewrite Hfl. intros [?|[?|(va & e & Hr & He & ->)]]; [auto|tauto|].
    apply Hn. right. right. exists va, e. split; [|done]. split; [lia|].
    apply (uv_dom _ _ _ _ _ _ _ Hu1); [|lia|by rewrite He].
    by eapply (fo_va _ _ _ _ _ _ _ _ (uv_frames _ _ _ _ _ _ _ Hu1)). }
  split; [|split; [|done]].
  - eapply uvm_keeps; [exact Hp1|done|exact Hk'|]. intros p Hp. split; by apply Hout.
  - eapply (keeps_trans end_ (λ p, p ∉ fl0 ∧ ¬ pt_page d tabs0 p) (λ p, p ∉ fl ∧ p ∉ fl'));
      [exact (gr_keeps _ _ _ _ _ _ _ _ _ _ _ _ _ _ Hg)| |].
    + eapply keeps_trans; [exact Hk1|exact Hk'|]. intros p _ H. exact H.
    + intros p _ Hp. split; [by apply parent_outside|by apply Hout].
Qed.

(** The finished child: the parent's bytes and flags, on pages of its own. *)
Lemma copying_flags i s fl tabs ptes va :
  copying i s fl tabs ptes → frame_ok va → 0 ≤ va < i → is_Some (pptes !! va) →
  PTE_FLAGS <$> ptes !! va = PTE_FLAGS <$> pptes !! va.
Proof.
  intros Hg Hva Hr [e He]. destruct (gr_new _ _ _ _ _ _ _ _ _ _ _ _ _ _ Hg va Hva Hr) as (p & -> & Hp & _).
  rewrite He. cbn. f_equal. destruct (V2P_frame _ _ Hp) as [Hf _].
  destruct (mkpte_ok _ _ Hf (copy_perm_range pptes va)) as (_ & _ & -> & _).
  unfold copy_perm. rewrite He. apply Z.bits_inj'. intros n Hn. rewrite Z.lor_spec.
  destruct (fo_va _ _ _ _ _ _ _ _ (uv_frames _ _ _ _ _ _ _ parent0) He) as (_ & Hb & _).
  destruct (decide (n = 0)) as [->|]; [rewrite testbit_flags, Hb by lia; done|].
  change PTE_P with (2 ^ 0). rewrite Z.pow2_bits_false by lia. apply orb_false_r.
Qed.

Lemma copying_apart i s fl tabs ptes p :
  copying i s fl tabs ptes → uses d tabs ptes p → ¬ uses pp ptabs pptes p.
Proof.
  intros Hg Hu Hpar%parent_outside. pose proof (gr_uvm _ _ _ _ _ _ _ _ _ _ _ _ _ _ Hg) as Hu'.
  destruct (proj2 (gr_pages _ _ _ _ _ _ _ _ _ _ _ _ _ _ Hg p)); [|tauto..].
  right. destruct Hu as [?|(va & e & Hr & He & ->)]; [by left|]. right. exists va, e. split; [|done].
  split; [lia|]. apply (uv_dom _ _ _ _ _ _ _ Hu'); [|lia|by rewrite He].
  by eapply (fo_va _ _ _ _ _ _ _ _ (uv_frames _ _ _ _ _ _ _ Hu')).
Qed.

Lemma copying_bytes i s fl tabs ptes v :
  copying i s fl tabs ptes → i `mod` PGSIZE = 0 → 0 ≤ v < KERNBASE →
  (∀ va, frame_ok va → va < i ↔ va < sz) → ubyte (ram s) d v = ubyte (ram s0) pp v.
Proof.
  intros Hg Hm Hv Hi.
  rewrite (growing_ubyte (copy_perm pptes) (copy_data (ram s0) pptes) s0 fl0 d tabs0 ptes0 0 0 i s fl tabs ptes v
    (copy_perm_range _) (copy_data_length _ _) child0 Hg eq_refl Hm Hv).
  rewrite (ubyte_eq _ _ _ _ _ _ v parent0 Hv).
  destruct (first_page_ok v) as [Hf Hf']; [unfold KERNBASE in Hv; lia|].
  assert (0 ≤ v `mod` PGSIZE < PGSIZE) as Hmod by (by apply Z.mod_pos_bound).
  pose proof (uv_dom _ _ _ _ _ _ _ parent0 _ Hf ltac:(lia)) as Hdom. rewrite <- (Hi _ Hf) in Hdom.
  pose proof (first_page_between 0 i v eq_refl Hm) as Hb.
  destruct (decide (0 ≤ v < i)) as [Hin|Hout].
  - destruct (proj2 Hdom) as [e He]; [lia|]. unfold copy_data. rewrite He. cbn [mbind option_bind].
    rewrite lookup_page_bytes by (unfold PGSIZE_n; lia). rewrite Z2Nat.id by lia.
    destruct (fo_frame _ _ _ _ _ _ (uv_frames _ _ _ _ _ _ _ parent0) _ _ He ltac:(lia)) as (Hpe & _).
    destruct (ko_mapped _ _ _ (vo_kmem _ _ _ _ _ _ (fo_vm _ _ _ _ _ _ (uv_frames _ _ _ _ _ _ _ parent0))) _ Hpe
      (Z.to_nat (v `mod` PGSIZE))) as [x Hx]; [unfold PGSIZE_n; lia|].
    rewrite Z2Nat.id in Hx by lia. by rewrite Hx.
  - destruct (pptes !! first_page v) as [e|] eqn:He; [pose proof (proj1 Hdom ltac:(eauto)); unfold frame_ok in Hf; lia|].
    rewrite (ubyte_eq _ _ _ _ _ _ v child0 Hv).
    destruct (ptes0 !! first_page v) as [e|] eqn:He'; [|done].
    pose proof (proj1 (uv_dom _ _ _ _ _ _ _ child0 _ Hf ltac:(lia)) ltac:(by rewrite He')). unfold frame_ok in Hf. lia.
Qed.

(** How copyuvm's loop ends. *)
Definition copy_result (r : Z) (s' : kstate) : Prop :=
  (r = d ∧ ∃ a fl' tabs' ptes', sz ≤ a < sz + PGSIZE ∧ a `mod` PGSIZE = 0 ∧ copying a s' fl' tabs' ptes') ∨
  (r = 0 ∧ Z.of_nat (length fl0) * PGSIZE < 2 * sz + PGSIZE ∧
   ∃ fl', uvm end_ s' fl' pp ptabs pptes sz ∧ keeps end_ (uses pp ptabs pptes) (ram s0) (ram s')).

Lemma copyuvm_loop_ok fuel i s fl tabs ptes :
  copying i s fl tabs ptes → 0 ≤ i < sz + PGSIZE → i `mod` PGSIZE = 0 → sz ≤ KERNBASE →
  Z.max 0 (sz - i) ≤ (Z.of_nat fuel - 1) * PGSIZE →
  ∃ r s', copyuvm_loop end_ fuel pp d sz i s = Ok r s' ∧ copy_result r s'.
Proof.
  revert i s fl tabs ptes. induction fuel as [|fuel IH]; intros i s fl tabs ptes Hg Hi Hm Hb Hfuel.
  { exfalso. unfold PGSIZE in *. lia. }
  cbn [copyuvm_loop]. destruct (Z.ltb_spec i sz) as [Hlt|Hge].
  2: { exists d, s. split; [done|]. left. split; [done|]. exists i, fl, tabs, ptes. split; [lia|done]. }
  destruct (user_frame i Hm) as (Hfi & [_ Hm'] & Hu); [lia|].
  pose proof (copying_parent _ _ _ _ _ Hg) as Hpar. pose proof (fo_vm _ _ _ _ _ _ (uv_frames _ _ _ _ _ _ _ Hpar)) as Hv.
  destruct (proj2 (uv_dom _ _ _ _ _ _ _ Hpar i Hfi ltac:(lia)) Hlt) as [e He].
  destruct (ptabs !! PDX i) as [t|] eqn:Et; [|by rewrite (no_table _ _ _ _ _ _ _ Hv Et) in He].
  mstep (walkpgdir_hit end_ s fl pp ptabs pptes i false t Hv (proj1 Hfi) Et).
  destruct (read_pte _ _ _ _ _ _ _ _ Hv Hfi Et) as (Hz & e' & Ee & Hpte). rewrite He in Hpte.
  rewrite (proj2 (Z.eqb_neq _ _) Hz). mstep Ee. destruct (Z.testbit e' 0) eqn:Eb; [|done]. injection Hpte as <-.
  rewrite land_P, Eb. cbn [negb]. pose proof (gr_length _ _ _ _ _ _ _ _ _ _ _ _ _ _ Hg) as Hlen.
  destruct fl as [|p fl].
  { mstep (kalloc_empty _ _ _ _ _ Hv). cbn [Z.eqb].
    destruct (copy_fail i s [] tabs ptes s [] Hg (gr_uvm _ _ _ _ _ _ _ _ _ _ _ _ _ _ Hg) Hpar) as (s' & fl' & E & Hu' & Hk' & _);
      [done|done|]. exists 0, s'. split; [exact E|]. right. split; [done|].
    split; [cbn [length] in Hlen; unfold PGSIZE in *; lia|]. by exists fl'. }
  destruct (growing_step end_ _ _ (copy_perm_range pptes) (copy_data_length _ pptes) _ _ _ _ _ _ _ _ _ _ _ _ Hg)
    as (s1 & E1 & Hpz & Hr1 & Hp & Hk1 & Hn & Hnp & H3); [lia|lia|done|lia|].
  mstep E1. rewrite (proj2 (Z.eqb_neq _ _) Hpz).
  mstep (copy_page i s p fl tabs ptes s1 e Hg ltac:(lia) He Hr1 Hk1 Hp).
  assert (copy_perm pptes i = PTE_FLAGS e) as Ep by (unfold copy_perm; by rewrite He). rewrite Ep in H3.
  destruct H3 as [[-> E3]|(s3 & fl3 & tabs3 & ptes3 & E3 & Hg3)]; mstep E3; cbn [Z.ltb Z.compare].
  - pose proof (copy_data_length (ram s0) pptes i) as Hl.
    destruct (copy_fail i s [p] tabs ptes (set_ram (put_bytes p (copy_data (ram s0) pptes i) (ram s1)) s1) [] Hg)
      as (s' & fl' & E & Hu' & Hk' & _).
    + by apply (uvm_take s); [apply Hg|..].
    + by apply (uvm_take s).
    + by intros q ?%elem_of_nil.
    + intros q a Hq Hne Ha. rewrite <- Hr1. apply (put_outside end_ _ _ _ q); [done|done| |done|done].
      intros ->. by apply Hne, list_elem_of_singleton.
    + exists 0, s'. split; [exact E|]. right. split; [done|].
      split; [cbn [length] in Hlen; unfold PGSIZE in *; lia|]. by exists fl'.
  - rewrite Hu. apply (IH (i + PGSIZE) s3 fl3 tabs3 ptes3 Hg3); [unfold PGSIZE in *; lia|exact Hm'|exact Hb|].
    unfold PGSIZE in *; lia.
Qed.
End copy.

(** ** copyout *)

(** The user may touch [a]. *)
Definition accessible (m : mem) (pgdir a : Z) : bool :=
  match mmu m pgdir a with Some e => Z.testbit e 2 | None => false end.

(** The hardware lets the user write [a]: the page table and the page are
    present, and both entries allow the user and allow writing. *)
Definition writable (m : mem) (pgdir a : Z) : bool :=
  match get32 m (pgdir + 4 * (a `div` 2 ^ 22)), mmu m pgdir a with
  | Some pde, Some e => Z.testbit pde 0 && Z.testbit pde 1 && Z.testbit pde 2 && Z.testbit e 1 && Z.testbit e 2
  | _, _ => false
  end.

(** There is a page table for [a]. *)
Definition has_table (m : mem) (pgdir a : Z) : bool :=
  match get32 m (pgdir + 4 * (a `div` 2 ^ 22)) with Some pde => Z.testbit pde 0 | None => false end.

Lemma div_PDX a : 0 ≤ a < 2 ^ 32 → a `div` 2 ^ 22 = PDX (first_page a).
Proof.
  intros Ha. destruct (first_page_ok a Ha) as [[Hf _] _]. rewrite PDX_eq by done. unfold first_page, PGSIZE.
  Z.div_mod_to_equations. lia.
Qed.

Lemma has_table_tabs s fl pgdir tabs ptes sz a :
  uvm end_ s fl pgdir tabs ptes sz → 0 ≤ a < 2 ^ 32 →
  has_table (ram s) pgdir a = bool_decide (is_Some (tabs !! PDX (first_page a))).
Proof.
  intros Hu Ha. unfold has_table. rewrite (div_PDX a Ha). destruct (first_page_ok a Ha) as [[Hf _] _].
  destruct (po_pde _ _ _ _ _ (vo_pt _ _ _ _ _ _ (fo_vm _ _ _ _ _ _ (uv_frames _ _ _ _ _ _ _ Hu))) (PDX (first_page a)))
    as (e & -> & He); [by apply PDX_range|].
  destruct (tabs !! PDX (first_page a)); [by destruct He as [-> _]|done].
Qed.

(** A page is writable by its entry: the directory allows everything. *)
Lemma writable_ptes s fl pgdir tabs ptes sz a e :
  uvm end_ s fl pgdir tabs ptes sz → 0 ≤ a < KERNBASE → ptes !! first_page a = Some e →
  writable (ram s) pgdir a = Z.testbit e 1 && Z.testbit e 2.
Proof.
  intros Hu Ha He. unfold writable. rewrite (mmu_uvm _ _ _ _ _ _ _ Hu Ha), He.
  assert (0 ≤ a < 2 ^ 32) as Ha' by (unfold KERNBASE in Ha; lia).
  pose proof (vo_pt _ _ _ _ _ _ (fo_vm _ _ _ _ _ _ (uv_frames _ _ _ _ _ _ _ Hu))) as Hpt.
  rewrite (div_PDX a Ha'). destruct (first_page_ok a Ha') as [[Hf _] _].
  destruct (po_pde _ _ _ _ _ Hpt (PDX (first_page a))) as (pde & -> & Hpde); [by apply PDX_range|].
  apply (po_pte _ _ _ _ _ Hpt) in He as (_ & t & Et & _). rewrite Et in Hpde. by destruct Hpde as (-> & _ & -> & ->).
Qed.

(** Bytes written inside a user page. *)
Lemma uvm_write s fl pgdir tabs ptes sz v0 e a l :
  uvm end_ s fl pgdir tabs ptes sz → ptes !! v0 = Some e → v0 < KERNBASE →
  frame e ≤ a → a + Z.of_nat (length l) ≤ frame e + PGSIZE →
  uvm end_ (set_ram (put_bytes a l (ram s)) s) fl pgdir tabs ptes sz.
Proof.
  intros [[Hv Hfr Hin] Hd] He Hlt Ha Hal. destruct (Hfr v0 e He Hlt) as (Hp & Hn & Hnp).
  split; [|done]. split; [|done..]. apply vm_ok_ram; [done| |intros; by apply is_Some_put].
  intros q b Hq Hb. apply lookup_put_bytes_ne. intros Hin'.
  assert (q = frame e) as ->; [|tauto]. apply (page_disjoint end_ q (frame e) b); [|done|done|].
  - by eapply vm_ok_pages.
  - unfold in_page. lia.
Qed.

Lemma ubyte_write s fl pgdir tabs ptes sz v0 e o l va :
  uvm end_ s fl pgdir tabs ptes sz → ptes !! v0 = Some e → v0 < KERNBASE → 0 ≤ va < KERNBASE →
  0 ≤ o → o + Z.of_nat (length l) ≤ PGSIZE →
  ubyte (put_bytes (frame e + o) l (ram s)) pgdir va =
    if decide (v0 + o ≤ va < v0 + o + Z.of_nat (length l)) then l !! Z.to_nat (va - (v0 + o))
    else ubyte (ram s) pgdir va.
Proof.
  intros Hu He Hlt Hva Ho Hol. pose proof (uv_frames _ _ _ _ _ _ _ Hu) as Hf.
  assert (uvm end_ (set_ram (put_bytes (frame e + o) l (ram s)) s) fl pgdir tabs ptes sz) as Hu'.
  { eapply uvm_write; try done; lia. }
  pose proof (ubyte_eq _ _ _ _ _ _ va Hu' Hva) as E'. cbn [ram set_ram] in E'. rewrite E'.
  rewrite (ubyte_eq _ _ _ _ _ _ va Hu Hva). clear E' Hu'.
  destruct (first_page_ok va) as [Hfa Hfa']; [unfold KERNBASE in Hva; lia|].
  destruct (fo_va _ _ _ _ _ _ _ _ Hf He) as ([_ Hm0] & _).
  assert (va `mod` PGSIZE = va - first_page va) as Emod by (unfold first_page; lia).
  destruct (decide (first_page va = v0)) as [Ev|Hne].
  - rewrite Ev, He. cbn [mbind option_bind]. rewrite lookup_put_bytes, Emod, Ev.
    destruct (decide (v0 + o ≤ va < v0 + o + Z.of_nat (length l))).
    + rewrite decide_True by lia. f_equal. lia.
    + by rewrite decide_False by lia.
  - rewrite decide_False.
    2: { destruct Hfa as [_ Hfa]. clear - Hm0 Hfa Hfa' Hne Ho Hol. unfold PGSIZE in *. Z.div_mod_to_equations. lia. }
    destruct (ptes !! first_page va) as [e'|] eqn:He'; [|done]. cbn [mbind option_bind].
    assert (first_page va < KERNBASE) as Hlt' by lia.
    destruct (fo_frame _ _ _ _ _ _ Hf _ _ He Hlt) as (Hp & _), (fo_frame _ _ _ _ _ _ Hf _ _ He' Hlt') as (Hp' & _).
    apply lookup_put_bytes_ne. intros Hin. apply Hne.
    apply (fo_inj _ _ _ _ _ _ Hf (first_page va) v0 e' e); try done.
    apply (page_disjoint end_ _ _ (frame e' + va `mod` PGSIZE)); [done|done|apply in_page_mod|].
    unfold in_page. lia.
Qed.

(** Which user pages the process may touch depends on the entries only. *)
Lemma accessible_ptes s fl pgdir tabs ptes sz a :
  uvm end_ s fl pgdir tabs ptes sz → 0 ≤ a < KERNBASE →
  accessible (ram s) pgdir a = match ptes !! first_page a with Some e => Z.testbit e 2 | None => false end.
Proof.
  intros Hu Ha. unfold accessible. by rewrite (mmu_uvm _ _ _ _ _ _ _ Hu Ha).
Qed.

Lemma uva2ka_ok s fl pgdir tabs ptes sz va :
  uvm end_ s fl pgdir tabs ptes sz → frame_ok va → va < KERNBASE → is_Some (tabs !! PDX va) →
  uva2ka pgdir va s = Ok (match ptes !! va with
    | Some e => if Z.testbit e 2 then frame e else 0 | None => 0 end) s.
Proof.
  intros Hu Hva Hlt [t Et]. pose proof (fo_vm _ _ _ _ _ _ (uv_frames _ _ _ _ _ _ _ Hu)) as Hv.
  unfold uva2ka. mstep (walkpgdir_hit end_ s fl pgdir tabs ptes va false t Hv (proj1 Hva) Et).
  destruct (read_pte _ _ _ _ _ _ _ _ Hv Hva Et) as (_ & e & Ee & Hpte). mstep Ee.
  rewrite land_P, land_U, Hpte. by destruct (Z.testbit e 0), (Z.testbit e 2).
Qed.

(** Without a table, uva2ka reads the word at address 0. *)
Lemma uva2ka_no_table s fl pgdir tabs ptes sz va :
  uvm end_ s fl pgdir tabs ptes sz → frame_ok va → va < KERNBASE → tabs !! PDX va = None → ram s !! 0 = None →
  uva2ka pgdir va s = Fault.
Proof.
  intros Hu Hva Hlt Et H0. pose proof (fo_vm _ _ _ _ _ _ (uv_frames _ _ _ _ _ _ _ Hu)) as Hv.
  unfold uva2ka. mstep (walkpgdir_miss end_ s fl pgdir tabs ptes va Hv (proj1 Hva) Et).
  unfold mbind, M_bind, on_ram, zoom, load32, mbind, M_bind, load8. by rewrite H0.
Qed.

Definition user_pte (ptes : gmap Z Z) (a : Z) : bool :=
  match ptes !! first_page a with Some e => Z.testbit e 2 | None => false end.

(** The first [k] bytes of [l] have reached the user at [va]; the rest of
    memory is as before. *)
Record copied (s : kstate) (fl : list Z) (pgdir : Z) (tabs ptes : gmap Z Z) (sz va : Z) (l : list Z)
    (k : nat) (s' : kstate) : Prop := Copied {
  cp_uvm : uvm end_ s' fl pgdir tabs ptes sz;
  cp_le : (k ≤ length l)%nat;
  cp_bytes a : 0 ≤ a < KERNBASE → ubyte (ram s') pgdir a =
    if decide (va ≤ a < va + Z.of_nat k) then l !! Z.to_nat (a - va) else ubyte (ram s) pgdir a;
  cp_user a : va ≤ a < va + Z.of_nat k → user_pte ptes a = true;
  cp_stop : (k < length l)%nat → user_pte ptes (va + Z.of_nat k) = false;
  cp_rest a : (∀ q, freed ptes 0 KERNBASE q → ¬ in_page q a) → ram s' !! a = ram s !! a;
}.

Lemma copied_none s fl pgdir tabs ptes sz va l :
  uvm end_ s fl pgdir tabs ptes sz → l = [] ∨ user_pte ptes va = false →
  copied s fl pgdir tabs ptes sz va l 0 s.
Proof.
  intros Hu Hl. split; try done; [lia| | |].
  - intros a _. by rewrite decide_False by lia.
  - intros a. lia.
  - rewrite Z.add_0_r. intros Hlt. destruct Hl as [->|]; [simpl in Hlt; lia|done].
Qed.

(** A piece in one page, and then the rest. *)
Lemma copied_piece s fl pgdir tabs ptes sz va l1 l2 k e s' :
  uvm end_ s fl pgdir tabs ptes sz → 0 ≤ va → va + Z.of_nat (length l1) ≤ KERNBASE →
  ptes !! first_page va = Some e → Z.testbit e 2 = true →
  va `mod` PGSIZE + Z.of_nat (length l1) ≤ PGSIZE → (0 < length l1)%nat →
  copied (set_ram (put_bytes (frame e + va `mod` PGSIZE) l1 (ram s)) s) fl pgdir tabs ptes sz
    (va + Z.of_nat (length l1)) l2 k s' →
  copied s fl pgdir tabs ptes sz va (l1 ++ l2) (length l1 + k) s'.
Proof.
  intros Hu Hva Hend He HU Hpg Hl1 [Hu' Hle Hb Hus Hstop Hrest]. cbn [ram set_ram] in *.
  destruct (first_page_ok va) as [Hfa Hfa']; [unfold KERNBASE in Hend; lia|].
  assert (va `mod` PGSIZE = va - first_page va) as Emod by (unfold first_page; lia).
  assert (first_page va < KERNBASE) as Hlt by lia.
  assert (0 ≤ va `mod` PGSIZE) as Hmod by (by apply Z.mod_pos_bound).
  split; [done|rewrite length_app; lia| | | |].
  - intros a Ha. rewrite (Hb a Ha).
    destruct (decide (va + Z.of_nat (length l1) ≤ a < va + Z.of_nat (length l1) + Z.of_nat k)).
    + rewrite decide_True by lia. rewrite lookup_app_r by lia. f_equal. lia.
    + rewrite (ubyte_write s fl pgdir tabs ptes sz (first_page va) e _ l1 a Hu He Hlt Ha Hmod Hpg).
      replace (first_page va + va `mod` PGSIZE) with va by lia.
      destruct (decide (va ≤ a < va + Z.of_nat (length l1))).
      * rewrite decide_True by lia. by rewrite lookup_app_l by lia.
      * by rewrite decide_False by lia.
  - intros a Ha. destruct (decide (va + Z.of_nat (length l1) ≤ a)); [apply Hus; lia|].
    unfold user_pte. assert (first_page a = first_page va) as ->; [|by rewrite He].
    unfold first_page. unfold PGSIZE in *. clear - Ha n Hpg Hva. Z.div_mod_to_equations. lia.
  - rewrite length_app. intros Hk. rewrite <- Hstop by lia. f_equal. lia.
  - intros a Ha. rewrite (Hrest a Ha). apply lookup_put_bytes_ne. intros Hin.
    apply (Ha (frame e)); [by exists (first_page va), e; split; [unfold frame_ok in Hfa; lia|]|].
    unfold in_page. lia.
Qed.

(** How much of [l] goes to the page of [va]. *)
Definition piece (va : Z) (l : list Z) : nat := Nat.min (length l) (Z.to_nat (PGSIZE - va `mod` PGSIZE)).

(** A turn of the loop on an accessible page. *)
Lemma copyout_loop_step fuel s fl pgdir tabs ptes sz va l e :
  uvm end_ s fl pgdir tabs ptes sz → 0 ≤ va < KERNBASE → l ≠ [] →
  is_Some (tabs !! PDX (first_page va)) → ptes !! first_page va = Some e → Z.testbit e 2 = true →
  Forall byte_ok l →
  copyout_loop (S fuel) pgdir va l s =
    copyout_loop fuel pgdir (first_page va + PGSIZE) (drop (piece va l) l)
      (set_ram (put_bytes (frame e + va `mod` PGSIZE) (take (piece va l) l) (ram s)) s).
Proof.
  intros Hu Hva Hne Htab He HU Hl. cbn [copyout_loop].
  destruct (Z.ltb_spec 0 (Z.of_nat (length l))) as [Hpos|Hz]; [|destruct l; simpl in Hz; [done|lia]].
  rewrite PGROUNDDOWN_eq by (unfold KERNBASE in Hva; lia). fold (first_page va).
  destruct (first_page_ok va) as [Hfa Hfa']; [unfold KERNBASE in Hva; lia|].
  mstep (uva2ka_ok s fl pgdir tabs ptes sz (first_page va) Hu Hfa ltac:(lia) Htab). rewrite He, HU.
  destruct (fo_frame _ _ _ _ _ _ (uv_frames _ _ _ _ _ _ _ Hu) _ _ He ltac:(lia)) as (Hpe & _).
  pose proof (page_ok_range _ _ Hpe) as Hper. destruct (Z.eqb_spec (frame e) 0); [lia|].
  assert (va - first_page va = va `mod` PGSIZE) as -> by (unfold first_page; lia).
  assert (0 ≤ va `mod` PGSIZE < PGSIZE) as Hmod by (by apply Z.mod_pos_bound).
  assert (Z.to_nat (if Z.of_nat (length l) <? PGSIZE - va `mod` PGSIZE then Z.of_nat (length l)
    else PGSIZE - va `mod` PGSIZE) = piece va l) as ->.
  { unfold piece. destruct (Z.ltb_spec (Z.of_nat (length l)) (PGSIZE - va `mod` PGSIZE)); lia. }
  assert (piece va l ≤ length l)%nat as Hp by (unfold piece; lia).
  pose proof (length_take_le l (piece va l) Hp) as Hlen.
  assert (mapped (ram s) (frame e + va `mod` PGSIZE) (length (take (piece va l) l))) as Hmap.
  { intros i Hi. pose proof (ko_mapped _ _ _ (vo_kmem _ _ _ _ _ _ (fo_vm _ _ _ _ _ _ (uv_frames _ _ _ _ _ _ _ Hu))) _ Hpe
      (Z.to_nat (va `mod` PGSIZE) + i)%nat) as H.
    replace (frame e + va `mod` PGSIZE + Z.of_nat i) with (frame e + Z.of_nat (Z.to_nat (va `mod` PGSIZE) + i)) by lia.
    apply H. rewrite Hlen in Hi. unfold piece, PGSIZE_n in *. lia. }
  mstep (on_ram_ok _ _ _ _ (store_bytes_ok _ _ _ Hmap)). rewrite (u8_bytes (take (piece va l) l)) by (by apply Forall_take).
  by rewrite u32_small by (unfold KERNBASE, PGSIZE, frame_ok in *; lia).
Qed.

(** The end of a call that has copied [k] bytes. *)
Definition copyout_end (tabs : gmap Z Z) (va : Z) (l : list Z) (k : nat) (s : kstate) : outcome kstate Z :=
  if decide (k = length l) then Ok 0 s
  else if decide (is_Some (tabs !! PDX (first_page (va + Z.of_nat k)))) then Ok (-1) s else Fault.

Lemma copyout_loop_gen fuel s fl pgdir tabs ptes sz va l :
  uvm end_ s fl pgdir tabs ptes sz → 0 ≤ va → va + Z.of_nat (length l) ≤ KERNBASE →
  (∀ a, va ≤ a < va + Z.of_nat (length l) → is_Some (tabs !! PDX (first_page a))) ∨ ram s !! 0 = None →
  Forall byte_ok l → (length l < fuel)%nat →
  ∃ k s', copyout_loop fuel pgdir va l s = copyout_end tabs va l k s' ∧
    copied s fl pgdir tabs ptes sz va l k s'.
Proof.
  revert s va l. induction fuel as [|fuel IH]; intros s va l Hu Hva Hend Htab Hl Hfuel; [lia|].
  destruct (decide (l = [])) as [->|Hne].
  { exists 0%nat, s. split; [done|]. apply copied_none; [done|by left]. }
  assert (0 < length l)%nat as Hpos by (destruct l; simpl; [done|lia]).
  destruct (first_page_ok va) as [Hfa Hfa']; [unfold KERNBASE in Hend; lia|].
  destruct (user_pte ptes va) eqn:Euser.
  2: { exists 0%nat, s. unfold copyout_end. rewrite decide_False, Z.add_0_r by lia.
       split; [|apply copied_none; [done|by right]].
       cbn [copyout_loop]. rewrite (proj2 (Z.ltb_lt 0 _)) by lia.
       rewrite PGROUNDDOWN_eq by (unfold KERNBASE in Hend; lia). fold (first_page va).
       destruct (decide _) as [Ht|Ht].
       - mstep (uva2ka_ok s fl pgdir tabs ptes sz (first_page va) Hu Hfa ltac:(lia) Ht).
         unfold user_pte in Euser. destruct (ptes !! first_page va) as [e|]; [by rewrite Euser|done].
       - destruct Htab as [Htab|H0]; [destruct Ht; apply Htab; lia|]. apply eq_None_not_Some in Ht.
         unfold mbind, M_bind. by rewrite (uva2ka_no_table s fl pgdir tabs ptes sz (first_page va) Hu Hfa ltac:(lia) Ht H0). }
  unfold user_pte in Euser. destruct (ptes !! first_page va) as [e|] eqn:He; [|done].
  assert (is_Some (tabs !! PDX (first_page va))) as Ht.
  { pose proof (vo_pt _ _ _ _ _ _ (fo_vm _ _ _ _ _ _ (uv_frames _ _ _ _ _ _ _ Hu))) as Hpt.
    apply (po_pte _ _ _ _ _ Hpt) in He as (_ & t & Et & _). by exists t. }
  assert (0 ≤ va `mod` PGSIZE < PGSIZE) as Hmod by (by apply Z.mod_pos_bound).
  assert (va `mod` PGSIZE = va - first_page va) as Emod by (unfold first_page; lia).
  set (n := piece va l). assert (0 < n ≤ length l)%nat as Hn by (unfold n, piece; lia).
  assert (length (take n l) = n) as Hlt by (apply length_take_le; lia).
  rewrite (copyout_loop_step fuel s fl pgdir tabs ptes sz va l e Hu ltac:(lia) Hne Ht He Euser Hl).
  fold n. set (s1 := set_ram _ s).
  assert (uvm end_ s1 fl pgdir tabs ptes sz) as Hu1.
  { eapply uvm_write; [done|exact He|lia|lia|]. rewrite Hlt. unfold n, piece. lia. }
  assert (∃ k s', copyout_loop fuel pgdir (first_page va + PGSIZE) (drop n l) s1 =
      copyout_end tabs (va + Z.of_nat n) (drop n l) k s' ∧
      copied s1 fl pgdir tabs ptes sz (va + Z.of_nat n) (drop n l) k s') as (k & s' & E & Hc).
  { destruct (decide (n = length l)) as [En|En].
    { rewrite En, drop_all. exists 0%nat, s1. destruct fuel; [lia|]. split; [done|]. apply copied_none; [done|by left]. }
    assert (first_page va + PGSIZE = va + Z.of_nat n) as -> by (unfold n, piece in *; lia).
    apply IH; [done|lia|rewrite length_drop; lia| |by apply Forall_drop|rewrite length_drop; lia].
    destruct Htab as [Htab|H0]; [left|right].
    - intros a Ha. apply Htab. rewrite length_drop in Ha. lia.
    - unfold s1. cbn [ram set_ram]. rewrite lookup_put_bytes_ne; [done|].
      destruct (fo_frame _ _ _ _ _ _ (uv_frames _ _ _ _ _ _ _ Hu) _ _ He ltac:(lia)) as (Hpe & _).
      pose proof (page_ok_range _ _ Hpe). lia. }
  exists (n + k)%nat, s'. split.
  - rewrite E. unfold copyout_end. rewrite length_drop, Nat2Z.inj_add, Z.add_assoc.
    destruct (decide (k = (length l - n)%nat)), (decide ((n + k)%nat = length l)); first [done|lia].
  - pose proof (copied_piece s fl pgdir tabs ptes sz va (take n l) (drop n l) k e s') as H.
    rewrite take_drop, Hlt in H. apply H; [exact Hu|exact Hva|lia|exact He|exact Euser| |lia|exact Hc].
    unfold n, piece. lia.
Qed.

Lemma copyout_loop_ok fuel s fl pgdir tabs ptes sz va l :
  uvm end_ s fl pgdir tabs ptes sz → 0 ≤ va → va + Z.of_nat (length l) ≤ KERNBASE →
  (∀ a, va ≤ a < va + Z.of_nat (length l) → is_Some (tabs !! PDX (first_page a))) →
  Forall byte_ok l → (length l < fuel)%nat →
  ∃ k s', copyout_loop fuel pgdir va l s = Ok (if decide (k = length l) then 0 else -1) s' ∧
    copied s fl pgdir tabs ptes sz va l k s'.
Proof.
  intros Hu Hva Hend Htab Hl Hf.
  destruct (copyout_loop_gen fuel s fl pgdir tabs ptes sz va l Hu Hva Hend (or_introl Htab) Hl Hf) as (k & s' & E & Hc).
  exists k, s'. split; [|done]. rewrite E. unfold copyout_end. destruct (decide (k = length l)) as [|Hne]; [done|].
  rewrite decide_True; [done|]. apply Htab. pose proof (cp_le _ _ _ _ _ _ _ _ _ _ Hc). lia.
Qed.
End spaces.
