(* ===== verification/VmSpec.v ===== *)
(** * What vm.c guarantees

    The theorems are about the hardware's view: [mmu] walks a page directory
    in memory as the processor does, [ubyte] is the byte that the process
    sees.  [uvm] is an address space of a given size, and the free list is
    given by the list of its pages. *)

From S2P Require Import Prelude Mem Str Mmu Kalloc Vm VmProofs VmUser VmCopy.

#[local] Opaque replicate put_bytes.

Section spec.
Context (end_ data_ : Z).

(** [mappages] gives the pages of [va, va+size) the frames from [pa] on
    and leaves every other translation as it was; it fails only when no page
    is left for a table, having then mapped a first part of the range. *)
Theorem mappages_correct s fl pgdir tabs ptes va size pa perm :
  vm_ok end_ s fl pgdir tabs ptes → 0 ≤ va → 1 ≤ size → va + size ≤ 2 ^ 32 → frame_ok pa →
  pa + (first_page (va + size - 1) - first_page va) + PGSIZE ≤ 2 ^ 32 → 0 ≤ perm < PGSIZE →
  (∀ v, first_page va ≤ v < va + size → mmu (ram s) pgdir v = None) →
  ∃ r s' fl' tabs' ptes' top, mappages pgdir va size pa perm s = Ok r s' ∧
    vm_ok end_ s' fl' pgdir tabs' ptes' ∧
    (∀ v, 0 ≤ v < 2 ^ 32 → mmu (ram s') pgdir v =
       if decide (first_page va ≤ v < top) then Some (mkpte (pa + (first_page v - first_page va)) perm)
       else mmu (ram s) pgdir v) ∧
    (r = 0 ∧ top = first_page (va + size - 1) + PGSIZE ∨ r = -1 ∧ top < va + size ∧ fl' = []).
Proof.
  intros Hv Hva Hs Hr Hpa Hpr Hperm Hno. pose proof (vo_pt _ _ _ _ _ _ Hv) as Hpt.
  pose proof (last_page va size Hva Hs) as Hlast.
  destruct (first_page_ok va) as [Hf Hf']; [lia|].
  destruct (first_page_ok (va + size - 1)) as [Hl Hl']; [lia|].
  destruct (mappages_ok end_ s fl pgdir tabs ptes va size pa perm Hv Hva Hs Hr Hpa) as
    (r & k & s' & fl' & tabs' & E & Hv' & _ & _ & _ & Hk); [|done| |].
  { rewrite Nat2Z.inj_succ, Z.mul_succ_l. lia. }
  { intros v Hvm Hvr. specialize (Hno v Hvr). rewrite (mmu_ptes end_ _ _ _ _ _ Hpt) in Hno by (unfold frame_ok in Hf; lia).
    by rewrite Hvm, Z.sub_0_r in Hno. }
  eexists r, s', fl', tabs', _, (first_page va + Z.of_nat k * PGSIZE). split; [exact E|]. split; [exact Hv'|]. split.
  - intros v Hvr. rewrite (mmu_ptes end_ _ _ _ _ _ (vo_pt _ _ _ _ _ _ Hv')), (mmu_ptes end_ _ _ _ _ _ Hpt) by done.
    fold (first_page v). destruct (first_page_ok v Hvr) as [Hfv Hfv'].
    rewrite lookup_map_range; [|apply Hf|apply Hfv].
    assert (first_page va ≤ first_page v < first_page va + Z.of_nat k * PGSIZE ↔
      first_page va ≤ v < first_page va + Z.of_nat k * PGSIZE) as Hiff.
    { destruct Hf as [_ Hf], Hfv as [_ Hfv]. clear - Hf Hfv Hfv'. unfold PGSIZE in *.
      Z.div_mod_to_equations. lia. }
    by rewrite (decide_ext _ _ _ _ Hiff).
  - destruct Hk as [[-> ->]|(-> & Hk & ->)]; [left; split; [done|lia]|right].
    split; [done|]. split; [unfold PGSIZE in *; lia|done].
Qed.

Hypothesis end_high : KERNBASE < end_.

(** ** The user part *)

(** C26: [allocuvm] returns.  It either makes the address space [newsz] bytes
    long, with zeros in the new pages, which the hardware lets the user read
    and write, and the old bytes unchanged, or returns 0 with the address space as it was and no page
    lost; with two free pages for each new one it succeeds. *)
Theorem allocuvm_correct s fl pgdir tabs ptes oldsz newsz :
  uvm end_ s fl pgdir tabs ptes oldsz → 0 ≤ oldsz ≤ newsz → newsz < KERNBASE →
  ∃ r s' fl' tabs' ptes', allocuvm end_ pgdir oldsz newsz s = Ok r s' ∧
    (r = newsz ∧ uvm end_ s' fl' pgdir tabs' ptes' newsz ∧
     (∀ v, 0 ≤ v < KERNBASE → ubyte (ram s') pgdir v =
        if decide (PGROUNDUP oldsz ≤ v < PGROUNDUP newsz) then Some 0 else ubyte (ram s) pgdir v) ∧
     (∀ v, PGROUNDUP oldsz ≤ v < PGROUNDUP newsz → accessible (ram s') pgdir v = true ∧ writable (ram s') pgdir v = true)
     ∨ r = 0 ∧ uvm end_ s' fl' pgdir tabs' ptes' oldsz ∧
     (∀ v, 0 ≤ v < KERNBASE → ubyte (ram s') pgdir v = ubyte (ram s) pgdir v) ∧
     (∀ p, p ∈ fl ∨ pt_page pgdir tabs p ↔ p ∈ fl' ∨ pt_page pgdir tabs' p) ∧
     Z.of_nat (length fl) * PGSIZE < 2 * (newsz - PGROUNDUP oldsz + PGSIZE)).
Proof.
  intros Hu Hr Hb. destruct (PGROUNDUP_spec oldsz) as [Hup Hal]; [unfold KERNBASE, PGSIZE in *; lia|].
  destruct (PGROUNDUP_spec newsz) as [Hup' Hal']; [unfold KERNBASE, PGSIZE in *; lia|].
  destruct (allocuvm_ok end_ end_high s fl pgdir tabs ptes oldsz newsz Hu Hr Hb)
    as (r & s' & E & [[-> (a & fl' & tabs' & ptes' & Ha & Ham & Hg)]|(-> & Hlen & fl' & tabs' & [Hu' Ht Hpg Hk])]).
  - assert (a = PGROUNDUP newsz) as ->.
    { clear - Ha Ham Hup' Hal'. unfold PGSIZE in *. Z.div_mod_to_equations. lia. }
    pose proof (gr_uvm _ _ _ _ _ _ _ _ _ _ _ _ _ _ Hg) as Hu'.
    exists newsz, s', fl', tabs', ptes'. split; [exact E|]. left. split; [done|]. split; [|split].
    + eapply uvm_size; [exact Hu'|]. intros v Hv. clear - Hv Hup' Hal'. unfold PGSIZE in *. Z.div_mod_to_equations. lia.
    + intros v Hv. rewrite (growing_ubyte end_ alloc_perm alloc_data s fl pgdir tabs ptes oldsz (PGROUNDUP oldsz) (PGROUNDUP newsz)
        s' fl' tabs' ptes' v alloc_perm_range alloc_data_length Hu Hg Hal Hal' Hv).
      destruct (decide _); [|done]. apply lookup_replicate_2.
      pose proof (Z.mod_pos_bound v PGSIZE ltac:(done)). unfold PGSIZE_n. lia.
    + intros v Hv. assert (PGROUNDUP newsz ≤ KERNBASE) as Htop.
      { clear - Hb Hup' Hal'. unfold KERNBASE, PGSIZE in *. Z.div_mod_to_equations. lia. }
      destruct (first_page_ok v) as [Hf Hf']; [unfold KERNBASE in Htop; lia|].
      rewrite (accessible_ptes end_ _ _ _ _ _ _ _ Hu') by lia.
      destruct (gr_new _ _ _ _ _ _ _ _ _ _ _ _ _ _ Hg (first_page v) Hf) as (p & Ep & Hp & _);
        [by apply first_page_between|].
      rewrite (writable_ptes end_ _ _ _ _ _ _ v _ Hu' ltac:(lia) Ep), Ep.
      by rewrite !mkpte_bit by (done || apply alloc_perm_range || apply (V2P_frame _ _ Hp)).
  - exists 0, s', fl', tabs', ptes. split; [exact E|]. right. split; [done|]. split; [|split; [|split; [|exact Hlen]]].
    + eapply uvm_size; [exact Hu'|]. intros v Hv. clear - Hv Hup Hal. unfold PGSIZE in *. Z.div_mod_to_equations. lia.
    + intros v Hv. eapply ubyte_keeps; [exact Hu|exact Hu'|exact Hk| |exact Hv].
      intros p (va & e & Hva & He & ->).
      destruct (fo_frame _ _ _ _ _ _ (uv_frames _ _ _ _ _ _ _ Hu) _ _ He) as (_ & ? & ?); [lia|done].
    + exact Hpg.
Qed.

(** [deallocuvm] from the size of the address space to [newsz] returns
    [newsz], takes exactly the bytes from the page boundary on away from the
    user, and puts exactly their pages on the free list. *)
Theorem deallocuvm_correct s fl pgdir tabs ptes oldsz newsz :
  uvm end_ s fl pgdir tabs ptes oldsz → 0 ≤ newsz < oldsz → oldsz ≤ KERNBASE →
  ∃ s' fl' ptes', deallocuvm end_ pgdir oldsz newsz s = Ok newsz s' ∧
    uvm end_ s' fl' pgdir tabs ptes' newsz ∧
    (∀ v, 0 ≤ v < KERNBASE → ubyte (ram s') pgdir v =
       if decide (PGROUNDUP newsz ≤ v) then None else ubyte (ram s) pgdir v) ∧
    (∀ p, p ∈ fl' ↔ p ∈ fl ∨ freed ptes (PGROUNDUP newsz) oldsz p).
Proof.
  intros Hu Hr Hb. pose proof Hu as [Hf Hdom].
  destruct (PGROUNDUP_spec newsz) as [Hup Hal]; [unfold KERNBASE, PGSIZE in *; lia|].
  assert (∀ va e, ptes !! va = Some e → va < KERNBASE → va < oldsz) as Hlow.
  { intros va e He Hlt. apply (Hdom va); [by eapply fo_va|done|by rewrite He]. }
  destruct (deallocuvm_ok end_ end_high s fl pgdir tabs ptes oldsz newsz Hf Hr Hb) as (s' & fl' & ptes' & E & [Hf' Hp' Hfl' Hk']).
  { intros va vb Hvb Hab Hlt [e He]. apply (Hdom vb Hvb); [lia|]. specialize (Hlow va e He). lia. }
  assert (uvm end_ s' fl' pgdir tabs ptes' newsz) as Hu'.
  { split; [done|]. intros va Hva Hlt. rewrite Hp'. destruct (decide (PGROUNDUP newsz ≤ va < oldsz)) as [H|H].
    - split; [by intros [? ?]|]. lia.
    - rewrite (Hdom va Hva Hlt). destruct Hva as [_ Hva]. clear - H Hup Hal Hva Hr. unfold PGSIZE in *.
      Z.div_mod_to_equations. lia. }
  exists s', fl', ptes'. split; [exact E|]. split; [exact Hu'|]. split; [|exact Hfl'].
  intros v Hv. rewrite (ubyte_eq end_ _ _ _ _ _ _ v Hu' Hv), (ubyte_eq end_ _ _ _ _ _ _ v Hu Hv), Hp'.
  destruct (first_page_ok v) as [Hfv Hfv']; [unfold KERNBASE in Hv; lia|].
  destruct (ptes !! first_page v) as [e|] eqn:He.
  - specialize (Hlow _ _ He ltac:(lia)).
    assert (PGROUNDUP newsz ≤ first_page v < oldsz ↔ PGROUNDUP newsz ≤ v) as Hiff.
    { destruct Hfv as [_ Hfv]. clear - Hfv Hfv' Hal Hlow. unfold PGSIZE in *. Z.div_mod_to_equations. lia. }
    rewrite (decide_ext _ _ _ _ Hiff). destruct (decide (PGROUNDUP newsz ≤ v)) as [H|H]; [done|].
    cbn [mbind option_bind].
    destruct (fo_frame _ _ _ _ _ _ Hf _ _ He) as (Hpe & Hn & Hnp); [lia|].
    apply (Hk' (frame e)); [done| |apply in_page_mod]. split; [|done].
    apply (fo_frame _ _ _ _ _ _ Hf' (first_page v) e); [|lia]. rewrite Hp', decide_False; [done|]. rewrite Hiff. done.
  - destruct (decide _), (decide _); done.
Qed.

(** [freevm] returns every page of an address space to the allocator:
    its directory, its tables and its user pages, and no other. *)
Theorem freevm_correct s fl pgdir tabs ptes sz :
  uvm end_ s fl pgdir tabs ptes sz →
  ∃ s' fl', freevm end_ pgdir s = Ok tt s' ∧ kmem_ok end_ s' fl' ∧
    (∀ p, p ∈ fl' ↔ p ∈ fl ∨ uses pgdir tabs ptes p) ∧
    (∀ p a, page_ok end_ p → p ∉ fl' → in_page p a → ram s' !! a = ram s !! a).
Proof.
  intros Hu. destruct (freevm_ok end_ end_high s fl pgdir tabs ptes sz Hu) as (s' & fl' & E & Hk & Hfl & Hkeep).
  exists s', fl'. split; [exact E|]. split; [exact Hk|]. split; [exact Hfl|]. exact Hkeep.
Qed.

(** ** Kernel mappings and copies *)

Section kernel.
Hypothesis data_place : data_ `mod` PGSIZE = 0 ∧ KERNLINK < data_ < KERNBASE + PHYSTOP.

(** memlayout.h's picture: the physical memory at KERNBASE, read-only for
    the kernel's text, and the devices where they are. *)
Definition kernel_pte (v : Z) : option Z :=
  if decide (KERNBASE ≤ v < KERNBASE + PHYSTOP) then
    Some (mkpte (v - KERNBASE) (if decide (KERNLINK ≤ v < data_) then 0 else PTE_W))
  else if decide (DEVSPACE ≤ v) then Some (mkpte v PTE_W) else None.

Lemma kernel_ptes_lookup v : frame_ok v → kernel_ptes data_ !! v = kernel_pte v.
Proof.
  intros [Hr Hv]. destruct data_place as [Hd Hdr]. unfold kernel_ptes, kernel_pte.
  cbn [kmap_ptes kmap]. unfold V2P.
  change (u32 (KERNLINK - KERNBASE)) with EXTMEM.
  assert (u32 (data_ - KERNBASE) = data_ - KERNBASE ∧ u32 (PHYSTOP - (data_ - KERNBASE)) = PHYSTOP - (data_ - KERNBASE) ∧
    u32 (data_ - KERNBASE - EXTMEM) = data_ - KERNBASE - EXTMEM) as (-> & -> & ->).
  { clear - Hdr. unfold KERNLINK, KERNBASE, PHYSTOP, EXTMEM in *. rewrite !u32_small by lia. done. }
  change (u32 (EXTMEM - 0)) with EXTMEM. change (u32 (0 - DEVSPACE)) with (2 ^ 32 - DEVSPACE).
  rewrite !lookup_map_range, lookup_empty by done.
  assert (Z.of_nat (Z.to_nat ((2 ^ 32 - DEVSPACE) `div` PGSIZE)) * PGSIZE = 2 ^ 32 - DEVSPACE) as -> by done.
  assert (Z.of_nat (Z.to_nat (EXTMEM `div` PGSIZE)) * PGSIZE = EXTMEM) as -> by done.
  assert (∀ x, 0 ≤ x → x `mod` PGSIZE = 0 → Z.of_nat (Z.to_nat (x `div` PGSIZE)) * PGSIZE = x) as Hdiv.
  { intros x Hx Hm. unfold PGSIZE in *. clear - Hx Hm. Z.div_mod_to_equations. lia. }
  assert ((PHYSTOP - (data_ - KERNBASE)) `mod` PGSIZE = 0 ∧ (data_ - KERNBASE - EXTMEM) `mod` PGSIZE = 0) as [Hm1 Hm2].
  { clear - Hd. unfold PHYSTOP, KERNBASE, EXTMEM, PGSIZE in *. Z.div_mod_to_equations. lia. }
  rewrite !Hdiv by (done || unfold KERNLINK, PHYSTOP, KERNBASE, EXTMEM in *; lia).
  unfold KERNLINK, DEVSPACE, PHYSTOP, KERNBASE, EXTMEM in *.
  repeat case_decide; try lia; do 2 f_equal; lia.
Qed.

Lemma kernel_uvm s fl pgdir tabs :
  vm_ok end_ s fl pgdir tabs (kernel_ptes data_) → uvm end_ s fl pgdir tabs (kernel_ptes data_) 0.
Proof.
  intros Hv.
  assert (∀ va e, kernel_ptes data_ !! va = Some e → KERNBASE ≤ va) as Hlow.
  { intros va e He. pose proof (proj1 (po_pte _ _ _ _ _ (vo_pt _ _ _ _ _ _ Hv) _ _) He) as (Hva & _).
    rewrite kernel_ptes_lookup in He by done. unfold kernel_pte in He.
    repeat case_decide; [lia..|unfold DEVSPACE, KERNBASE in *; lia|done]. }
  split; [split; [done|..]|].
  - intros va e He. apply Hlow in He. lia.
  - intros va vb e e' He _ Hlt. apply Hlow in He. lia.
  - intros va [Hva _] Hlt. split; [|lia]. intros [e He]. apply Hlow in He. lia.
Qed.

(** [setupkvm] makes a page table with the kernel's mappings and nothing
    in the user part, or returns 0, which it does not with more than 1025 free
    pages. *)
Theorem setupkvm_correct s fl :
  kmem_ok end_ s fl →
  ∃ r s' fl', setupkvm data_ s = Ok r s' ∧ kmem_ok end_ s' fl' ∧
    ((1025 < length fl)%nat → r ≠ 0) ∧
    (r ≠ 0 → (∃ tabs, uvm end_ s' fl' r tabs (kernel_ptes data_) 0) ∧
       ∀ v, 0 ≤ v < 2 ^ 32 → mmu (ram s') r v = kernel_pte (first_page v)).
Proof.
  intros Hk. destruct (setupkvm_ok end_ data_ data_place s fl Hk) as (r & s' & fl' & E & Hk' & _ & _ & Hlen & Hr).
  exists r, s', fl'. split; [exact E|]. split; [exact Hk'|]. split.
  - intros Hgt ->. destruct Hr as [[_ ->]|[? _]]; [simpl in Hlen; lia|done].
  - intros Hne. destruct Hr as [[? _]|(_ & _ & tabs & Hv & _)]; [done|].
    split; [exists tabs; by apply kernel_uvm|].
    intros v Hvr. rewrite (mmu_ptes end_ _ _ _ _ _ (vo_pt _ _ _ _ _ _ Hv)) by done. fold (first_page v).
    apply kernel_ptes_lookup. by apply first_page_ok.
Qed.

Lemma copy_flags s1 fl1 pgdir tabs ptes sz d tabs0 ptes0 a s' fl' tabs' ptes' v :
  uvm end_ s1 fl1 pgdir tabs ptes sz →
  growing end_ (copy_perm ptes) (copy_data (ram s1) ptes) s1 fl1 d tabs0 ptes0 0 a s' fl' tabs' ptes' →
  (∀ va, frame_ok va → va < a ↔ va < sz) → 0 ≤ v < KERNBASE →
  PTE_FLAGS <$> mmu (ram s') d v = PTE_FLAGS <$> mmu (ram s1) pgdir v.
Proof.
  intros Hu Hg Hasz Hv. destruct (first_page_ok v) as [Hf Hf']; [unfold KERNBASE in Hv; lia|].
  pose proof (gr_uvm _ _ _ _ _ _ _ _ _ _ _ _ _ _ Hg) as Hc.
  rewrite (mmu_uvm end_ _ _ _ _ _ _ v Hc Hv), (mmu_uvm end_ _ _ _ _ _ _ v Hu Hv).
  pose proof (uv_dom _ _ _ _ _ _ _ Hu _ Hf ltac:(lia)) as Hd1.
  destruct (decide (first_page v < a)) as [Hlt|Hge].
  - eapply copying_flags; [exact Hu|exact Hg|exact Hf|unfold frame_ok in Hf; lia|]. by apply Hd1, Hasz.
  - pose proof (uv_dom _ _ _ _ _ _ _ Hc _ Hf ltac:(lia)) as Hd2. rewrite <- (Hasz _ Hf) in Hd1.
    destruct (ptes !! first_page v), (ptes' !! first_page v); try done;
      [destruct Hge; apply Hd1; eauto|destruct Hge; apply Hd1; eauto|destruct Hge; apply Hd2; eauto].
Qed.

(** What copyuvm leaves of the parent, and what the child is. *)
Lemma copyuvm_ok s fl pgdir tabs ptes sz :
  uvm end_ s fl pgdir tabs ptes sz → mem_ok (ram s) → 0 ≤ sz ≤ KERNBASE →
  ∃ r s' fl', copyuvm end_ data_ pgdir sz s = Ok r s' ∧ uvm end_ s' fl' pgdir tabs ptes sz ∧
    keeps end_ (uses pgdir tabs ptes) (ram s) (ram s') ∧
    (r = 0 ∧ Z.of_nat (length fl) * PGSIZE < 2 * sz + 1026 * PGSIZE ∨
     r ≠ 0 ∧ ∃ ctabs cptes, uvm end_ s' fl' r ctabs cptes sz ∧
       (∀ p, uses r ctabs cptes p → ¬ uses pgdir tabs ptes p) ∧
       (∀ v, 0 ≤ v < KERNBASE → ubyte (ram s') r v = ubyte (ram s) pgdir v) ∧
       (∀ v, 0 ≤ v < KERNBASE → PTE_FLAGS <$> mmu (ram s') r v = PTE_FLAGS <$> mmu (ram s) pgdir v)).
Proof.
  intros Hu Hmem Hsz. unfold copyuvm.
  destruct (setupkvm_ok end_ data_ data_place s fl (vo_kmem _ _ _ _ _ _ (fo_vm _ _ _ _ _ _ (uv_frames _ _ _ _ _ _ _ Hu))))
    as (d & s1 & fl1 & E1 & Hk1 & Hsub & Hkeep1 & Hlen & Hd). mstep E1.
  pose proof (λ p H, uses_not_free end_ _ _ _ _ _ _ p Hu H) as Hnf.
  assert (keeps end_ (uses pgdir tabs ptes) (ram s) (ram s1)) as Hkp1.
  { intros p a Hp Hpu Ha. apply (Hkeep1 p a); [done|by apply Hnf|done]. }
  assert (uvm end_ s1 fl1 pgdir tabs ptes sz) as Hu1.
  { eapply uvm_keeps; [exact Hu|exact Hk1|exact Hkp1|]. intros p Hp. split; [done|]. intros Hin%Hsub.
    by apply (proj1 (Hnf p Hp)). }
  destruct Hd as [[-> ->]|(Hdz & Hdin & tabs0 & Hv1 & Hacc)].
  { exists 0, s1, []. split; [done|]. split; [done|]. split; [done|]. left. split; [done|].
    simpl in Hlen. unfold PGSIZE. lia. }
  rewrite (proj2 (Z.eqb_neq _ _) Hdz). pose proof (kernel_uvm _ _ _ _ Hv1) as Hc1.
  assert (∀ p, uses pgdir tabs ptes p → ¬ pt_page d tabs0 p) as Hapart.
  { intros p Hp Hpt. apply (proj1 (Hnf p Hp)), Hacc. by right. }
  destruct (copyuvm_loop_ok end_ end_high s1 fl1 pgdir tabs ptes sz d tabs0 (kernel_ptes data_) Hu1 Hapart) with
    (fuel := S (S (Z.to_nat (sz `div` PGSIZE)))) (i := 0) (s := s1) (fl := fl1) (tabs := tabs0) (ptes := kernel_ptes data_)
    as (r & s' & E & Hres).
  { intros va e He Hlt. destruct (fo_va _ _ _ _ _ _ _ _ (uv_frames _ _ _ _ _ _ _ Hu) He) as ([Hva _] & _).
    rewrite (page_bytes_keeps end_ _ _ _ _ Hkp1); [by apply page_bytes_ok| |right; exists va, e; split; [lia|done]].
    by apply (fo_frame _ _ _ _ _ _ (uv_frames _ _ _ _ _ _ _ Hu) va e). }
  { by apply growing_start. }
  { unfold PGSIZE. lia. }
  { done. }
  { lia. }
  { clear - Hsz. unfold PGSIZE. Z.div_mod_to_equations. lia. }
  destruct Hres as [[-> (a & fl' & tabs' & ptes' & Ha & Ham & Hg)]|(-> & Hfew & fl' & Hu' & Hk')].
  - pose proof (gr_uvm _ _ _ _ _ _ _ _ _ _ _ _ _ _ Hg) as Hc. pose proof (copying_parent end_ _ _ _ _ _ _ _ _ _ Hu1 Hapart _ _ _ _ _ Hg) as Hp.
    assert (keeps end_ (uses pgdir tabs ptes) (ram s1) (ram s')) as Hkp2.
    { intros p b Hpok Hpu Hb. apply (gr_keeps _ _ _ _ _ _ _ _ _ _ _ _ _ _ Hg p); [done| |done].
      by apply (parent_outside end_ s1 fl1 pgdir tabs ptes sz d tabs0 Hu1 Hapart). }
    assert (∀ va, frame_ok va → va < a ↔ va < sz) as Hasz.
    { intros va [_ Hva]. clear - Ha Ham Hva. unfold PGSIZE in *. Z.div_mod_to_equations. lia. }
    exists d, s', fl'. split; [exact E|]. split; [exact Hp|].
    split; [eapply keeps_trans; [exact Hkp1|exact Hkp2|done]|].
    right. split; [done|]. exists tabs', ptes'. split; [|split; [|split]].
    + eapply uvm_size; [exact Hc|]. intros va Hva. clear - Ha Ham Hva. unfold PGSIZE in *. Z.div_mod_to_equations. lia.
    + intros p. eapply copying_apart; [exact Hu1|exact Hapart|exact Hg].
    + intros v Hv. rewrite (copying_bytes end_ _ _ _ _ _ _ _ _ _ Hu1 Hc1 _ _ _ _ _ v Hg Ham Hv Hasz).
      eapply ubyte_keeps; [exact Hu|exact Hu1|exact Hkp1|by right|done].
    + intros v Hv. rewrite (mmu_uvm end_ _ _ _ _ _ _ v Hu Hv), <- (mmu_uvm end_ _ _ _ _ _ _ v Hu1 Hv).
      by apply (copy_flags s1 fl1 pgdir tabs ptes sz d tabs0 (kernel_ptes data_) a s' fl' tabs' ptes').
  - exists 0, s', fl'. split; [exact E|]. split; [exact Hu'|]. split; [eapply keeps_trans; [exact Hkp1|exact Hk'|done]|].
    left. split; [done|]. unfold PGSIZE in *. lia.
Qed.

(** C27: [copyuvm] returns.  The parent sees the memory it saw before; the
    child, if there is one, sees the same bytes with the same permissions, on
    pages that the parent does not use; and there is one whenever the free
    pages suffice. *)
Theorem copyuvm_correct s fl pgdir tabs ptes sz :
  uvm end_ s fl pgdir tabs ptes sz → mem_ok (ram s) → 0 ≤ sz ≤ KERNBASE →
  ∃ r s' fl', copyuvm end_ data_ pgdir sz s = Ok r s' ∧ uvm end_ s' fl' pgdir tabs ptes sz ∧
    (∀ v, 0 ≤ v < KERNBASE → ubyte (ram s') pgdir v = ubyte (ram s) pgdir v) ∧
    (2 * sz + 1026 * PGSIZE ≤ Z.of_nat (length fl) * PGSIZE → r ≠ 0) ∧
    (r ≠ 0 → ∃ ctabs cptes, uvm end_ s' fl' r ctabs cptes sz ∧
       (∀ p, uses r ctabs cptes p → ¬ uses pgdir tabs ptes p) ∧
       ∀ v, 0 ≤ v < KERNBASE → ubyte (ram s') r v = ubyte (ram s) pgdir v ∧
         PTE_FLAGS <$> mmu (ram s') r v = PTE_FLAGS <$> mmu (ram s) pgdir v).
Proof.
  intros Hu Hm Hsz. destruct (copyuvm_ok s fl pgdir tabs ptes sz Hu Hm Hsz) as (r & s' & fl' & E & Hu' & Hk & Hr).
  exists r, s', fl'. split; [exact E|]. split; [exact Hu'|]. split.
  { intros v Hv. eapply ubyte_keeps; [exact Hu|exact Hu'|exact Hk|by right|done]. }
  destruct Hr as [[-> Hlen]|(Hr & ctabs & cptes & Hc & Ha & Hb & Hf)].
  - split; [intros ?; lia|done].
  - split; [done|]. intros _. exists ctabs, cptes. split; [done|]. split; [done|]. auto.
Qed.
End kernel.

(** C28: [copyout] writes the bytes of the buffer into the user memory of the
    given page table up to the first address that the user may not touch, and
    changes no other byte of memory.  It returns 0 when all of them are
    written, and -1 when it stops at an address that has a page table; at an
    address without one it uses the null pointer that walkpgdir returns, which
    is a fault in a kernel that has no memory at address 0. *)
Theorem copyout_correct s fl pgdir tabs ptes sz va l :
  uvm end_ s fl pgdir tabs ptes sz → 0 ≤ va → va + Z.of_nat (length l) ≤ KERNBASE →
  ram s !! 0 = None → Forall byte_ok l →
  ∃ (k : nat) s', copyout pgdir va l s =
      (if decide (k = length l) then Ok 0 s'
       else if has_table (ram s) pgdir (va + Z.of_nat k) then Ok (-1) s' else Fault) ∧
    (k ≤ length l)%nat ∧ uvm end_ s' fl pgdir tabs ptes sz ∧
    (∀ a, 0 ≤ a < KERNBASE → ubyte (ram s') pgdir a =
       if decide (va ≤ a < va + Z.of_nat k) then l !! Z.to_nat (a - va) else ubyte (ram s) pgdir a) ∧
    (∀ a, va ≤ a < va + Z.of_nat k → accessible (ram s) pgdir a = true) ∧
    ((k < length l)%nat → accessible (ram s) pgdir (va + Z.of_nat k) = false) ∧
    (∀ a, (∀ q, freed ptes 0 KERNBASE q → ¬ in_page q a) → ram s' !! a = ram s !! a).
Proof.
  intros Hu Hva Hend H0 Hl. unfold copyout.
  destruct (copyout_loop_gen end_ (S (length l)) s fl pgdir tabs ptes sz va l Hu Hva Hend (or_intror H0) Hl ltac:(lia))
    as (k & s' & E & [Hu' Hle Hb Hus Hstop Hrest]).
  exists k, s'. split.
  { rewrite E. unfold copyout_end. destruct (decide (k = length l)); [done|].
    rewrite (has_table_tabs end_ _ _ _ _ _ _ _ Hu) by (unfold KERNBASE in Hend; lia).
    rewrite bool_decide_decide. by destruct (decide (is_Some _)). }
  split; [exact Hle|]. split; [exact Hu'|]. split; [exact Hb|].
  pose proof (accessible_ptes end_ s fl pgdir tabs ptes sz) as Hacc.
  split; [|split; [|exact Hrest]].
  - intros a Ha. rewrite Hacc by (done || lia). by apply Hus.
  - intros Hk. rewrite Hacc by (done || lia). by apply Hstop.
Qed.
End spec.

(** ** A machine with an address space of one page *)

Module Example.

Definition ex_pages : Z := 1040.
Definition ex_end : Z := KERNBASE + PHYSTOP - ex_pages * PGSIZE.
Definition ex_data : Z := KERNLINK + PGSIZE.
Definition ex_dir : Z := ex_end.
Definition ex_tab : Z := ex_end + PGSIZE.
Definition ex_user : Z := ex_end + 2 * PGSIZE.
Definition ex_free : list Z := (λ i, ex_end + i * PGSIZE) <$> seqZ 3 (ex_pages - 3).
(** All of memory is zero. *)
Definition ex_ram : mem := put_bytes ex_end (replicate (Z.to_nat (ex_pages * PGSIZE)) 0) ∅.

Lemma ex_end_high : KERNBASE < ex_end.
Proof. done. Qed.

Lemma ex_data_place : ex_data `mod` PGSIZE = 0 ∧ KERNLINK < ex_data < KERNBASE + PHYSTOP.
Proof. done. Qed.

Lemma ex_page_ok i : 0 ≤ i < ex_pages → page_ok ex_end (ex_end + i * PGSIZE).
Proof.
  intros Hi. unfold page_ok, ex_end, ex_pages, KERNBASE, PHYSTOP, PGSIZE in *.
  split; [Z.div_mod_to_equations; lia|lia].
Qed.

Lemma ex_zero i : 0 ≤ i < ex_pages → bytes_at ex_ram (ex_end + i * PGSIZE) (replicate PGSIZE_n 0).
Proof.
  intros Hi k x Hk. apply lookup_replicate in Hk as [-> Hk]. unfold ex_ram. rewrite lookup_put_bytes, length_replicate.
  unfold PGSIZE_n in Hk. rewrite Z2Nat.id by (by vm_compute).
  rewrite decide_True by (unfold ex_pages, PGSIZE in *; lia). apply lookup_replicate_2.
  unfold ex_pages, PGSIZE in *. lia.
Qed.

Lemma ex_ram_ok : mem_ok ex_ram.
Proof. apply mem_ok_put; [by intros a x ?%lookup_empty_Some|]. apply Forall_replicate. by vm_compute. Qed.

Lemma ex_ram_low : ex_ram !! 0 = None.
Proof. apply lookup_put_bytes_ne. rewrite length_replicate. vm_compute. intuition discriminate. Qed.

(** The free list, built by freeing its pages. *)
Lemma ex_filled fl :
  NoDup fl → Forall (page_ok ex_end) fl →
  ∃ s, kmem_ok ex_end s fl ∧ mem_ok (ram s) ∧
    (∀ p a, p ∉ fl → page_ok ex_end p → in_page p a → ram s !! a = ex_ram !! a) ∧ ram s !! 0 = None.
Proof.
  induction fl as [|q fl IH]; intros Hnd Hpg.
  - exists (KState 0 0 ex_ram). split; [|split; [apply ex_ram_ok|split; [done|apply ex_ram_low]]]. split; [done|constructor|constructor|].
    intros p (Hm & He & Hr).
    assert (∃ i, p = ex_end + i * PGSIZE ∧ 0 ≤ i < ex_pages) as (i & -> & Hi).
    { exists ((p - ex_end) `div` PGSIZE). unfold ex_end, ex_pages, KERNBASE, PHYSTOP, PGSIZE in *.
      Z.div_mod_to_equations. lia. }
    rewrite <- (length_replicate PGSIZE_n 0). by apply bytes_at_mapped, ex_zero.
  - apply NoDup_cons in Hnd as [Hq Hnd]. apply Forall_cons in Hpg as [Hqp Hpg].
    destruct (IH Hnd Hpg) as (s & Hk & Hm & Hz & H0). destruct (kfree_ok ex_end s fl q Hk Hqp Hq) as (m & _ & Hk' & ->).
    eexists. split; [exact Hk'|]. cbn [ram]. split; [|split].
    + apply mem_ok_put; [done|]. apply Forall_app. split; [apply le_bytes_ok|]. apply Forall_replicate. by vm_compute.
    + intros p a Hp Hpp Ha. rewrite (put_outside ex_end _ _ _ p); [|done|done| |apply length_junk|done].
      * apply (Hz p a); [|done|done]. intros H. apply Hp. by right.
      * intros ->. apply Hp. by left.
    + rewrite lookup_put_bytes_ne; [done|]. apply page_ok_range in Hqp. unfold KERNBASE in *. lia.
Qed.

(** The address space: one page, mapped at 0. *)
Definition ex_pte : Z := mkpte (V2P ex_user) (Z.lor PTE_W PTE_U).
Definition ex_tabs : gmap Z Z := {[0 := ex_tab]}.
Definition ex_ptes : gmap Z Z := {[0 := ex_pte]}.

Lemma ex_free_in p : p ∈ ex_free ↔ ∃ i, 3 ≤ i < ex_pages ∧ p = ex_end + i * PGSIZE.
Proof.
  unfold ex_free. rewrite list_elem_of_fmap. setoid_rewrite elem_of_seqZ.
  split; [intros (i & -> & Hi)|intros (i & Hi & ->)]; exists i; unfold ex_pages in *; (split; [|]); (done || lia).
Qed.

Lemma ex_not_free i : 0 ≤ i < 3 → ex_end + i * PGSIZE ∉ ex_free.
Proof. intros Hi (j & Hj & E)%ex_free_in. unfold PGSIZE in E. lia. Qed.

Lemma ex_ptes_in va e : ex_ptes !! va = Some e ↔ 0 = va ∧ ex_pte = e.
Proof. apply lookup_singleton_Some. Qed.

Lemma ex_space : ∃ s, uvm ex_end s ex_free ex_dir ex_tabs ex_ptes 4096 ∧ mem_ok (ram s) ∧ ram s !! 0 = None.
Proof.
  destruct (ex_filled ex_free) as (s & Hk & Hm & Hz & Hlow).
  { apply NoDup_fmap_2_strong; [|apply NoDup_seqZ]. intros i j _ _ E. unfold PGSIZE in E. lia. }
  { apply Forall_forall. intros p (i & Hi & ->)%ex_free_in. apply ex_page_ok. lia. }
  assert (∀ i, 0 ≤ i < 3 → bytes_at (ram s) (ex_end + i * PGSIZE) (replicate PGSIZE_n 0)) as Hzero.
  { intros i Hi k x Hkx. rewrite (Hz (ex_end + i * PGSIZE)).
    - apply ex_zero; [unfold ex_pages; lia|done].
    - by apply ex_not_free.
    - apply ex_page_ok. unfold ex_pages. lia.
    - apply lookup_replicate in Hkx as [_ Hkx]. unfold in_page, PGSIZE_n, PGSIZE in *. lia. }
  pose proof (ex_page_ok 0 ltac:(by vm_compute)) as H0. pose proof (ex_page_ok 1 ltac:(by vm_compute)) as H1.
  pose proof (ex_page_ok 2 ltac:(by vm_compute)) as H2.
  pose proof (ex_not_free 0 ltac:(lia)) as N0. pose proof (ex_not_free 1 ltac:(lia)) as N1.
  pose proof (ex_not_free 2 ltac:(lia)) as N2.
  change (ex_end + 0 * PGSIZE) with ex_dir in *. change (ex_end + 1 * PGSIZE) with ex_tab in *.
  change (ex_end + 2 * PGSIZE) with ex_user in *.
  pose proof (vm_ok_empty ex_end s ex_free ex_dir Hk H0 N0 (Hzero 0 ltac:(lia))) as Hv0.
  assert (¬ pt_page ex_dir ∅ ex_tab) as Hnp by (by intros [?|[d ?%lookup_empty_Some]]).
  pose proof (vm_ok_set_pde ex_end s ex_free ex_dir ∅ ∅ 0 ex_tab Hv0 H1 N1 Hnp (Hzero 1 ltac:(lia)) ltac:(lia) eq_refl) as Hv1.
  set (s1 := set_ram _ s) in Hv1.
  pose proof (vm_ok_set_pte ex_end s1 ex_free ex_dir _ ∅ 0 ex_tab ex_pte Hv1 ltac:(done) ltac:(by apply lookup_insert_eq) eq_refl) as Hv2.
  set (s2 := set_ram _ s1) in Hv2. change (Z.testbit ex_pte 0) with true in Hv2. cbn iota in Hv2.
  rewrite !insert_empty in Hv2. fold ex_tabs ex_ptes in Hv2.
  exists s2. split.
  - split; [split; [exact Hv2|..]|].
    + intros va e [<- <-]%ex_ptes_in _. change (frame ex_pte) with ex_user. split; [done|]. split; [done|].
      unfold ex_tabs. intros [?|[d [_ ?]%lookup_singleton_Some]]; done.
    + intros va vb e e' [<- _]%ex_ptes_in [<- _]%ex_ptes_in. done.
    + intros va [Hva Hva'] Hlt. split.
      * intros [e [<- _]%ex_ptes_in]. lia.
      * intros Hlt'. assert (va = 0) as ->; [|by eexists; apply lookup_singleton_eq].
        unfold PGSIZE in Hva'. Z.div_mod_to_equations. lia.
  - split; [repeat apply mem_ok_put; [done|apply le_bytes_ok..]|].
    unfold s2, s1. cbn [ram set_ram]. rewrite !lookup_put_bytes_ne; [done|by vm_compute; intuition discriminate..].
Qed.
End Example.

Import Example.

Lemma ex_free_length : length ex_free = 1037%nat.
Proof. unfold ex_free. by rewrite length_fmap, length_seqZ. Qed.

Lemma mappages_correct_witness :
  ∃ s r s', mappages ex_dir 4096 1 ex_user PTE_W s = Ok r s' ∧
    (r = 0 → mmu (ram s') ex_dir 5000 = Some (mkpte ex_user PTE_W)).
Proof.
  destruct ex_space as (s & Hu & _). pose proof (fo_vm _ _ _ _ _ _ (uv_frames _ _ _ _ _ _ _ Hu)) as Hv.
  destruct (mappages_correct ex_end s ex_free ex_dir ex_tabs ex_ptes 4096 1 ex_user PTE_W Hv)
    as (r & s' & fl' & tabs' & ptes' & top & E & _ & Hm & Hr); [lia|lia|lia|done|by vm_compute|by vm_compute|..].
  { intros v Hvr. change (first_page 4096) with 4096 in Hvr.
    rewrite (mmu_uvm ex_end _ _ _ _ _ _ v Hu) by (unfold KERNBASE; lia).
    replace v with 4096 by lia. reflexivity. }
  exists s, r, s'. split; [exact E|]. intros ->. destruct Hr as [[_ ->]|[? _]]; [|done].
  rewrite Hm by lia. reflexivity.
Defined.

Lemma allocuvm_correct_witness :
  ∃ s s', allocuvm ex_end ex_dir 4096 8000 s = Ok 8000 s' ∧ ubyte (ram s') ex_dir 8191 = Some 0.
Proof.
  destruct ex_space as (s & Hu & _).
  destruct (allocuvm_correct ex_end ex_end_high s ex_free ex_dir ex_tabs ex_ptes 4096 8000 Hu)
    as (r & s' & fl' & tabs' & ptes' & E & [(-> & _ & Hb & _)|(_ & _ & _ & _ & Hlen)]); [lia|done|..].
  - exists s, s'. split; [exact E|]. rewrite Hb by (unfold KERNBASE; lia). reflexivity.
  - rewrite ex_free_length in Hlen. exfalso. revert Hlen. vm_compute. congruence.
Defined.

Lemma deallocuvm_correct_witness :
  ∃ s s', deallocuvm ex_end ex_dir 4096 0 s = Ok 0 s' ∧ ubyte (ram s') ex_dir 10 = None.
Proof.
  destruct ex_space as (s & Hu & _).
  destruct (deallocuvm_correct ex_end ex_end_high s ex_free ex_dir ex_tabs ex_ptes 4096 0 Hu)
    as (s' & fl' & ptes' & E & _ & Hb & _); [lia|by vm_compute|].
  exists s, s'. split; [exact E|]. rewrite Hb by (unfold KERNBASE; lia). reflexivity.
Defined.

Lemma freevm_correct_witness :
  ∃ s s' fl', freevm ex_end ex_dir s = Ok tt s' ∧ kmem_ok ex_end s' fl' ∧ ex_tab ∈ fl' ∧ ex_user ∈ fl'.
Proof.
  destruct ex_space as (s & Hu & _).
  destruct (freevm_correct ex_end ex_end_high s ex_free ex_dir ex_tabs ex_ptes 4096 Hu) as (s' & fl' & E & Hk & Hfl & _).
  exists s, s', fl'. split; [exact E|]. split; [exact Hk|]. split; apply Hfl; right.
  - left. right. exists 0. reflexivity.
  - right. exists 0, ex_pte. split; [by vm_compute|]. split; reflexivity.
Defined.

Lemma setupkvm_correct_witness :
  ∃ s r s', setupkvm ex_data s = Ok r s' ∧ r ≠ 0 ∧
    mmu (ram s') r (KERNBASE + 5) = Some (mkpte 0 PTE_W) ∧ mmu (ram s') r 0 = None.
Proof.
  destruct ex_space as (s & Hu & _).
  destruct (setupkvm_correct ex_end ex_data ex_data_place s ex_free
    (vo_kmem _ _ _ _ _ _ (fo_vm _ _ _ _ _ _ (uv_frames _ _ _ _ _ _ _ Hu)))) as (r & s' & fl' & E & _ & Hr & Hm).
  assert (r ≠ 0) as Hnz by (apply Hr; rewrite ex_free_length; lia).
  exists s, r, s'. split; [exact E|]. split; [exact Hnz|]. destruct (Hm Hnz) as [_ Hmap].
  split; rewrite Hmap by (unfold KERNBASE; lia); reflexivity.
Defined.

Lemma copyuvm_correct_witness :
  ∃ s r s', copyuvm ex_end ex_data ex_dir 4096 s = Ok r s' ∧ r ≠ 0 ∧
    ubyte (ram s') r 7 = ubyte (ram s) ex_dir 7.
Proof.
  destruct ex_space as (s & Hu & Hm & _).
  destruct (copyuvm_correct ex_end ex_data ex_end_high ex_data_place s ex_free ex_dir ex_tabs ex_ptes 4096 Hu Hm)
    as (r & s' & fl' & E & _ & _ & Hr & Hc); [by vm_compute|].
  assert (r ≠ 0) as Hnz by (apply Hr; rewrite ex_free_length; by vm_compute).
  exists s, r, s'. split; [exact E|]. split; [exact Hnz|].
  destruct (Hc Hnz) as (ctabs & cptes & _ & _ & Hb). apply Hb. unfold KERNBASE. lia.
Defined.

Lemma copyout_correct_witness :
  ∃ s s', copyout ex_dir 4090 [104; 105] s = Ok 0 s' ∧ ubyte (ram s') ex_dir 4091 = Some 105 ∧
    copyout ex_dir (4 * 2 ^ 20) [104] s = Fault.
Proof.
  destruct ex_space as (s & Hu & _ & H0).
  destruct (copyout_correct ex_end s ex_free ex_dir ex_tabs ex_ptes 4096 4090 [104; 105] Hu)
    as (k & s' & E & Hk & _ & Hub & _ & Hstop & _); [lia|by vm_compute|exact H0|repeat constructor; by vm_compute|].
  destruct (copyout_correct ex_end s ex_free ex_dir ex_tabs ex_ptes 4096 (4 * 2 ^ 20) [104] Hu)
    as (k2 & s2 & E2 & Hk2 & _ & _ & Hacc & _); [lia|by vm_compute|exact H0|repeat constructor; by vm_compute|].
  assert (k = 2%nat) as ->.
  { destruct (decide (k < 2)%nat) as [Hlt|]; [|cbn [length] in Hk; lia]. exfalso. specialize (Hstop Hlt).
    rewrite (accessible_ptes ex_end _ _ _ _ _ _ _ Hu) in Hstop by (unfold KERNBASE; lia).
    destruct k as [|[|k]]; [discriminate Hstop|discriminate Hstop|lia]. }
  assert (k2 = 0%nat) as ->.
  { destruct k2 as [|k2]; [done|]. exfalso. specialize (Hacc (4 * 2 ^ 20) ltac:(lia)).
    by rewrite (accessible_ptes ex_end _ _ _ _ _ _ _ Hu) in Hacc by (unfold KERNBASE; lia). }
  exists s, s'. split; [exact E|]. split; [rewrite Hub by (unfold KERNBASE; lia); reflexivity|].
  rewrite E2. cbn [length decide]. rewrite Z.add_0_r, (has_table_tabs ex_end _ _ _ _ _ _ _ Hu) by lia. reflexivity.
Defined.
