(* ===== verification/Pipe.v ===== *)
(** * Pipes (pipe.c)

    A pipe is a ring of [PIPESIZE] bytes with two counters that run modulo
    2^32.  A call of [pipewrite] or [piperead] runs with the lock held until it
    returns or sleeps; a writer that sleeps resumes with the bytes it has not
    yet stored.  [pstep] interleaves any number of readers and writers, each a
    call with its arguments, and the wakeups between them. *)

From S2P Require Import Prelude.

Definition PIPESIZE : Z := 512.
Definition PIPESIZE_n : nat := Z.to_nat PIPESIZE.

Record pipe := Pipe {
  p_data : list Z;
  p_nread : Z;
  p_nwrite : Z;
  p_readopen : Z;
  p_writeopen : Z;
}.

(** The fields that pipealloc initialises; the data is what the page held. *)
Definition pipe_init (data : list Z) : pipe := Pipe data 0 0 1 1.

(** The pipe and whether its page is freed. *)
Definition pipeclose (writable : bool) (p : pipe) : pipe * bool :=
  let p := if writable then Pipe (p_data p) (p_nread p) (p_nwrite p) (p_readopen p) 0
           else Pipe (p_data p) (p_nread p) (p_nwrite p) 0 (p_writeopen p) in
  (p, (p_readopen p =? 0) && (p_writeopen p =? 0)).

(** A call returns, or sleeps; a sleeping writer has [rest] to write. *)
Inductive wresult := WReturn (r : Z) | WSleep (rest : list Z).
Inductive rresult := RReturn (r : Z) (bytes : list Z) | RSleep.

Definition is_full (p : pipe) : bool := p_nwrite p =? u32 (p_nread p + PIPESIZE).
Definition is_empty (p : pipe) : bool := p_nread p =? p_nwrite p.

(** p->data[p->nwrite++ % PIPESIZE] = c *)
Definition put_byte (c : Z) (p : pipe) : pipe :=
  Pipe (<[Z.to_nat (p_nwrite p `mod` PIPESIZE) := c]> (p_data p)) (p_nread p)
    (u32 (p_nwrite p + 1)) (p_readopen p) (p_writeopen p).

(** The loop of pipewrite from the byte [addr[i]] on; [n] is the result. *)
Fixpoint pipewrite_loop (killed : bool) (n : Z) (addr : list Z) (p : pipe) : wresult * pipe :=
  match addr with
  | [] => (WReturn n, p)
  | c :: rest =>
      if is_full p then
        if (p_readopen p =? 0) || killed then (WReturn (-1), p) else (WSleep addr, p)
      else pipewrite_loop killed n rest (put_byte c p)
  end.

Definition pipewrite (killed : bool) (addr : list Z) (p : pipe) : wresult * pipe :=
  pipewrite_loop killed (Z.of_nat (length addr)) addr p.

(** The copying loop of piperead: at most [n] bytes. *)
Fixpoint piperead_loop (n : nat) (p : pipe) : list Z * pipe :=
  match n with
  | O => ([], p)
  | S n =>
      if is_empty p then ([], p)
      else
        let c := p_data p !!! Z.to_nat (p_nread p `mod` PIPESIZE) in
        let r := piperead_loop n (Pipe (p_data p) (u32 (p_nread p + 1)) (p_nwrite p)
                                    (p_readopen p) (p_writeopen p)) in
        (c :: r.1, r.2)
  end.

Definition piperead (killed : bool) (n : Z) (p : pipe) : rresult * pipe :=
  if is_empty p && negb (p_writeopen p =? 0) then
    if killed then (RReturn (-1) [], p) else (RSleep, p)
  else
    let r := piperead_loop (Z.to_nat n) p in
    (RReturn (Z.of_nat (length r.1)) r.1, r.2).

(** The channels that a pipe's processes sleep on, &p->nread and &p->nwrite,
    and the wakeups that a call makes before it returns or sleeps. *)
Inductive pchan := ChRead | ChWrite.

Definition pipewrite_wakes (r : wresult) : list pchan :=
  match r with WReturn z => if z =? -1 then [] else [ChRead] | WSleep _ => [ChRead] end.
Definition piperead_wakes (r : rresult) : list pchan :=
  match r with RReturn z _ => if z =? -1 then [] else [ChWrite] | RSleep => [] end.
Definition pipeclose_wakes (writable : bool) : list pchan := if writable then [ChRead] else [ChWrite].

(** ** The bytes in the pipe *)

Definition pcount (p : pipe) : Z := u32 (p_nwrite p - p_nread p).

Definition content (p : pipe) : list Z :=
  (λ i, p_data p !!! Z.to_nat (u32 (p_nread p + i) `mod` PIPESIZE)) <$> seqZ 0 (pcount p).

Record pipe_ok (p : pipe) : Prop := PipeOk {
  po_data : length (p_data p) = PIPESIZE_n;
  po_nread : 0 ≤ p_nread p < 2 ^ 32;
  po_nwrite : 0 ≤ p_nwrite p < 2 ^ 32;
  po_count : pcount p ≤ PIPESIZE;
}.

Lemma count_range p : 0 ≤ pcount p < 2 ^ 32.
Proof. apply u32_range. Qed.

Lemma length_content p : Z.of_nat (length (content p)) = pcount p.
Proof. unfold content. rewrite length_fmap, length_seqZ. pose proof (count_range p). lia. Qed.

Lemma is_full_count p : pipe_ok p → is_full p = (pcount p =? PIPESIZE).
Proof.
  intros []. unfold is_full, pcount, u32, PIPESIZE in *.
  apply eq_true_iff_eq. rewrite !Z.eqb_eq. Z.div_mod_to_equations. lia.
Qed.

Lemma is_empty_count p : pipe_ok p → is_empty p = (pcount p =? 0).
Proof.
  intros []. unfold is_empty, pcount, u32 in *.
  apply eq_true_iff_eq. rewrite !Z.eqb_eq. Z.div_mod_to_equations. lia.
Qed.

(** The counters wrap around together with the ring. *)
Lemma ring_index a : u32 a `mod` PIPESIZE = a `mod` PIPESIZE.
Proof. unfold u32, PIPESIZE. Z.div_mod_to_equations. lia. Qed.

Lemma ring_index_ne r i j :
  0 ≤ i → i < j → j < PIPESIZE →
  Z.to_nat (u32 (r + i) `mod` PIPESIZE) ≠ Z.to_nat (u32 (r + j) `mod` PIPESIZE).
Proof. intros. rewrite !ring_index. unfold PIPESIZE in *. Z.div_mod_to_equations. lia. Qed.

Lemma count_put c p : pipe_ok p → pcount p < PIPESIZE → pcount (put_byte c p) = pcount p + 1.
Proof. intros []. unfold pcount, put_byte, u32, PIPESIZE in *. simpl. Z.div_mod_to_equations. lia. Qed.

Lemma nwrite_count p : pipe_ok p → p_nwrite p = u32 (p_nread p + pcount p).
Proof. intros []. unfold pcount, u32 in *. Z.div_mod_to_equations. lia. Qed.

Lemma put_byte_ok c p : pipe_ok p → pcount p < PIPESIZE → pipe_ok (put_byte c p).
Proof.
  intros Hp Hc. pose proof (count_put c p Hp Hc). destruct Hp. split; simpl.
  - by rewrite length_insert.
  - done.
  - apply u32_range.
  - lia.
Qed.

(** Storing a byte appends it. *)
Lemma content_put c p :
  pipe_ok p → pcount p < PIPESIZE → content (put_byte c p) = content p ++ [c].
Proof.
  intros Hp Hc. pose proof (count_range p). unfold content. rewrite count_put by done.
  rewrite seqZ_app, fmap_app by lia. f_equal.
  - apply list_fmap_ext. intros k i Hi. apply lookup_seqZ in Hi as [-> Hk]. simpl.
    apply list_lookup_total_insert_ne. rewrite (nwrite_count p) at 1 by done.
    symmetry. apply ring_index_ne; lia.
  - replace (seqZ (0 + pcount p) 1) with [pcount p] by (rewrite Z.add_0_l; by rewrite seqZ_cons).
    cbn [fmap list_fmap p_data p_nread put_byte]. f_equal. rewrite <- (nwrite_count p) by done.
    apply list_lookup_total_insert_eq. rewrite (po_data _ Hp).
    unfold PIPESIZE_n, PIPESIZE. Z.div_mod_to_equations. lia.
Qed.

Definition take_byte (p : pipe) : pipe :=
  Pipe (p_data p) (u32 (p_nread p + 1)) (p_nwrite p) (p_readopen p) (p_writeopen p).

Lemma count_take p : pipe_ok p → 0 < pcount p → pcount (take_byte p) = pcount p - 1.
Proof. intros []. unfold pcount, take_byte, u32, PIPESIZE in *. simpl. Z.div_mod_to_equations. lia. Qed.

Lemma take_byte_ok p : pipe_ok p → 0 < pcount p → pipe_ok (take_byte p).
Proof.
  intros Hp Hc. pose proof (count_take p Hp Hc). destruct Hp. split; simpl; try done.
  - apply u32_range.
  - lia.
Qed.

(** Removing a byte takes the first. *)
Lemma content_take p :
  pipe_ok p → 0 < pcount p →
  content p = p_data p !!! Z.to_nat (p_nread p `mod` PIPESIZE) :: content (take_byte p).
Proof.
  intros Hp Hc. unfold content. rewrite count_take by done. rewrite (seqZ_cons 0) by lia.
  rewrite fmap_cons. f_equal.
  - rewrite Z.add_0_r, ring_index. done.
  - rewrite <- (fmap_add_seqZ 1 0), <- list_fmap_compose. rewrite Z.sub_1_r.
    apply list_fmap_ext. intros ? i _. simpl. rewrite !ring_index. do 2 f_equal.
    unfold u32, PIPESIZE. Z.div_mod_to_equations. lia.
Qed.

(** ** The loops *)

(** What a write stores: it returns when everything is stored, sleeps on a
    full pipe, and gives up when nobody can read. *)
Lemma pipewrite_loop_ok killed n addr p :
  pipe_ok p →
  let r := pipewrite_loop killed n addr p in
  pipe_ok r.2 ∧ p_readopen r.2 = p_readopen p ∧ p_writeopen r.2 = p_writeopen p ∧
  ∃ done rest, addr = done ++ rest ∧ content r.2 = content p ++ done ∧
    match r.1 with
    | WReturn z => z = n ∧ rest = [] ∨
        z = -1 ∧ rest ≠ [] ∧ pcount r.2 = PIPESIZE ∧ (p_readopen p = 0 ∨ killed = true)
    | WSleep l => l = rest ∧ rest ≠ [] ∧ pcount r.2 = PIPESIZE ∧ p_readopen p ≠ 0 ∧ killed = false
    end.
Proof.
  revert p. induction addr as [|c addr IH]; intros p Hp; simpl.
  { split_and!; try done. exists [], []. rewrite (app_nil_r (content p)). split_and!; [done|done|by left]. }
  rewrite is_full_count by done. destruct (Z.eqb_spec (pcount p) PIPESIZE) as [Hfull|Hfull].
  - destruct ((p_readopen p =? 0) || killed) eqn:E; simpl; split_and!; try done;
      exists [], (c :: addr); rewrite app_nil_r; split_and!; try done.
    + right. split_and!; try done. apply orb_true_iff in E as [?%Z.eqb_eq|?]; auto.
    + apply orb_false_iff in E as [?%Z.eqb_neq ?]. done.
    + by apply orb_false_iff in E as [? ?].
  - pose proof (po_count _ Hp). destruct (IH (put_byte c p)) as (Hok & Hro & Hwo & d & rest & -> & Hc & Hr).
    { apply put_byte_ok; [done|lia]. }
    split_and!; try done. exists (c :: d), rest. split; [done|]. split; [|done].
    rewrite Hc, content_put by (done || lia). by rewrite <- app_assoc.
Qed.

(** What a read delivers: the first [n] bytes, or all there are. *)
Lemma piperead_loop_ok n p :
  pipe_ok p →
  let r := piperead_loop n p in
  pipe_ok r.2 ∧ p_readopen r.2 = p_readopen p ∧ p_writeopen r.2 = p_writeopen p ∧
  r.1 = take n (content p) ∧ content r.2 = drop n (content p).
Proof.
  revert p. induction n as [|n IH]; intros p Hp; simpl; [done|].
  rewrite is_empty_count by done. destruct (Z.eqb_spec (pcount p) 0) as [He|He]; simpl.
  - assert (content p = []) as E by (apply nil_length_inv; pose proof (length_content p); lia).
    rewrite E. done.
  - pose proof (count_range p). destruct (IH (take_byte p)) as (Hok & Hro & Hwo & H1 & H2).
    { apply take_byte_ok; [done|lia]. }
    fold (take_byte p). rewrite (content_take p) by (done || lia). simpl.
    split_and!; try done. by rewrite H1.
Qed.

(** ** Readers and writers *)

(** A call of pipewrite: with its first argument, and whether it has not run
    yet, sleeps or has been woken with [rest] to store, or has returned [z],
    in a process that was then killed or not. *)
Inductive wstate := WNew | WAsleep (rest : list Z) | WAwake (rest : list Z) | WDone (z : Z) (killed : bool).
Record wcall := WCall { w_arg : list Z; w_st : wstate }.

(** A call of piperead for [r_n] bytes. *)
Inductive rstate := RAsleep | RAwake | RDone (z : Z) (bytes : list Z).
Record rcall := RCall { r_n : Z; r_st : rstate }.

(** The pipe and the calls; the bytes that appeared in the ring and those
    that were delivered so far, in order, each with the number of its call. *)
Record pconf := PConf {
  pc_p : pipe;
  pc_w : list wcall;
  pc_r : list rcall;
  pc_sent : list (nat * Z);
  pc_rcvd : list (nat * Z);
}.

Definition tag (k : nat) (l : list Z) : list (nat * Z) := pair k <$> l.
Definition bytes_of (k : nat) (l : list (nat * Z)) : list Z := (filter (λ x, x.1 = k) l).*2.

(** The bytes by which the ring has grown. *)
Definition grown (p p' : pipe) : list Z := drop (length (content p)) (content p').

Definition wake_w (chs : list pchan) (c : wcall) : wcall :=
  match w_st c with
  | WAsleep rest => if existsb (λ ch, match ch with ChWrite => true | _ => false end) chs then WCall (w_arg c) (WAwake rest) else c
  | _ => c
  end.
Definition wake_r (chs : list pchan) (c : rcall) : rcall :=
  match r_st c with
  | RAsleep => if existsb (λ ch, match ch with ChRead => true | _ => false end) chs then RCall (r_n c) RAwake else c
  | _ => c
  end.

(** The code that a call of pipewrite runs next. *)
Definition write_run (killed : bool) (c : wcall) (p : pipe) : option (wresult * pipe) :=
  match w_st c with
  | WNew => Some (pipewrite killed (w_arg c) p)
  | WAwake rest => Some (pipewrite_loop killed (Z.of_nat (length (w_arg c))) rest p)
  | _ => None
  end.
Definition wnext (killed : bool) (r : wresult) : wstate :=
  match r with WReturn z => WDone z killed | WSleep rest => WAsleep rest end.

(** Calls are made; a call runs until it returns or sleeps; a sleeping
    process is woken for some other reason, such as a kill; an end is
    closed. *)
Inductive pstep : pconf → pconf → Prop :=
| pstep_new_write l c :
    pstep c (PConf (pc_p c) (pc_w c ++ [WCall l WNew]) (pc_r c) (pc_sent c) (pc_rcvd c))
| pstep_new_read n c :
    pstep c (PConf (pc_p c) (pc_w c) (pc_r c ++ [RCall n RAwake]) (pc_sent c) (pc_rcvd c))
| pstep_write killed k w r p' c :
    pc_w c !! k = Some w → write_run killed w (pc_p c) = Some (r, p') →
    pstep c (PConf p' (<[k := WCall (w_arg w) (wnext killed r)]> (wake_w (pipewrite_wakes r) <$> pc_w c))
               (wake_r (pipewrite_wakes r) <$> pc_r c) (pc_sent c ++ tag k (grown (pc_p c) p')) (pc_rcvd c))
| pstep_read killed k n z bytes p' c :
    pc_r c !! k = Some (RCall n RAwake) → piperead killed n (pc_p c) = (RReturn z bytes, p') →
    pstep c (PConf p' (wake_w (piperead_wakes (RReturn z bytes)) <$> pc_w c)
               (<[k := RCall n (RDone z bytes)]> (wake_r (piperead_wakes (RReturn z bytes)) <$> pc_r c))
               (pc_sent c) (pc_rcvd c ++ tag k bytes))
| pstep_read_sleep killed k n p' c :
    pc_r c !! k = Some (RCall n RAwake) → piperead killed n (pc_p c) = (RSleep, p') →
    pstep c (PConf p' (pc_w c) (<[k := RCall n RAsleep]> (pc_r c)) (pc_sent c) (pc_rcvd c))
| pstep_kill_write k w c :
    pc_w c !! k = Some w →
    pstep c (PConf (pc_p c) (<[k := wake_w [ChWrite] w]> (pc_w c)) (pc_r c) (pc_sent c) (pc_rcvd c))
| pstep_kill_read k r c :
    pc_r c !! k = Some r →
    pstep c (PConf (pc_p c) (pc_w c) (<[k := wake_r [ChRead] r]> (pc_r c)) (pc_sent c) (pc_rcvd c))
| pstep_close w p' freed c :
    pipeclose w (pc_p c) = (p', freed) →
    pstep c (PConf p' (wake_w (pipeclose_wakes w) <$> pc_w c) (wake_r (pipeclose_wakes w) <$> pc_r c)
               (pc_sent c) (pc_rcvd c)).

Definition pinitial (c : pconf) : Prop :=
  ∃ data, length data = PIPESIZE_n ∧ c = PConf (pipe_init data) [] [] [] [].
Definition preachable (c : pconf) : Prop := ∃ c0, pinitial c0 ∧ rtc pstep c0 c.

(** What holds of a call of pipewrite that has stored [b]. *)
Definition wcall_ok (p : pipe) (b : list Z) (c : wcall) : Prop :=
  match w_st c with
  | WNew => b = []
  | WAsleep rest => b ++ rest = w_arg c ∧ pcount p = PIPESIZE ∧ p_readopen p ≠ 0
  | WAwake rest => b ++ rest = w_arg c
  | WDone z killed =>
      z = Z.of_nat (length (w_arg c)) ∧ b = w_arg c ∨
      z = -1 ∧ (∃ rest, rest ≠ [] ∧ b ++ rest = w_arg c) ∧ (p_readopen p = 0 ∨ killed = true)
  end.

(** A call of pipewrite has given up. *)
Definition gave_up (ws : list wcall) : Prop := ∃ k c killed, ws !! k = Some c ∧ w_st c = WDone (-1) killed.

(** What holds of a call of piperead to which [b] has been delivered. *)
Definition rcall_ok (p : pipe) (ws : list wcall) (b : list Z) (c : rcall) : Prop :=
  match r_st c with
  | RAwake => b = []
  | RAsleep => b = [] ∧ (pcount p = 0 ∧ p_writeopen p ≠ 0 ∨ gave_up ws)
  | RDone z bytes =>
      bytes = b ∧
      (z = Z.of_nat (length b) ∧ z ≤ Z.max 0 (r_n c) ∧ (z = 0 → 0 < r_n c → p_writeopen p = 0) ∨ z = -1 ∧ b = [])
  end.

Record pinv (c : pconf) : Prop := PInv {
  pi_ok : pipe_ok (pc_p c);
  pi_flow : (pc_sent c).*2 = (pc_rcvd c).*2 ++ content (pc_p c);
  pi_w k w : pc_w c !! k = Some w → wcall_ok (pc_p c) (bytes_of k (pc_sent c)) w;
  pi_r k r : pc_r c !! k = Some r → rcall_ok (pc_p c) (pc_w c) (bytes_of k (pc_rcvd c)) r;
  pi_sent x : x ∈ pc_sent c → (x.1 < length (pc_w c))%nat;
  pi_rcvd x : x ∈ pc_rcvd c → (x.1 < length (pc_r c))%nat;
}.

Lemma bytes_of_app k l l' : bytes_of k (l ++ l') = bytes_of k l ++ bytes_of k l'.
Proof. unfold bytes_of. by rewrite filter_app, fmap_app. Qed.

Lemma bytes_of_tag k l : bytes_of k (tag k l) = l.
Proof.
  unfold bytes_of, tag. induction l as [|x l IH]; [done|]. rewrite fmap_cons, filter_cons_True by done.
  by rewrite fmap_cons, IH.
Qed.

Lemma bytes_of_none k l : (∀ x, x ∈ l → x.1 ≠ k) → bytes_of k l = [].
Proof.
  intros H. unfold bytes_of. induction l as [|x l IH]; [done|].
  rewrite filter_cons_False by (apply H; by left). apply IH. intros y Hy. apply H. by right.
Qed.

Lemma elem_of_tag x k l : x ∈ tag k l → x.1 = k.
Proof. unfold tag. intros (y & -> & _)%list_elem_of_fmap. done. Qed.

Lemma bytes_of_other j k l l' : j ≠ k → bytes_of j (l ++ tag k l') = bytes_of j l.
Proof.
  intros Hne. rewrite bytes_of_app, (bytes_of_none j (tag k l')), app_nil_r; [done|].
  intros x Hx%elem_of_tag. congruence.
Qed.

Lemma tag_bytes k l : (tag k l).*2 = l.
Proof. unfold tag. rewrite <- list_fmap_compose. apply list_fmap_id. Qed.

Lemma gave_up_mono ws ws' :
  (∀ k c, ws !! k = Some c → ∃ c', ws' !! k = Some c' ∧ ∀ z kl, w_st c = WDone z kl → w_st c' = WDone z kl) →
  gave_up ws → gave_up ws'.
Proof.
  intros H (k & c & kl & Hk & Hc). destruct (H k c Hk) as (c' & Hk' & Hc'). exists k, c', kl. auto.
Qed.

Lemma wake_w_done chs c z kl : w_st c = WDone z kl → wake_w chs c = c.
Proof. intros H. unfold wake_w. by rewrite H. Qed.

Lemma gave_up_wake chs ws : gave_up ws → gave_up (wake_w chs <$> ws).
Proof.
  apply gave_up_mono. intros k c Hk. exists (wake_w chs c). rewrite list_lookup_fmap, Hk. split; [done|].
  intros z kl Hc. by rewrite (wake_w_done _ _ z kl).
Qed.

(** A call stays as it should be when another one runs and wakes those that
    wait for it. *)
Lemma wake_w_ok chs p p' b c :
  wcall_ok p b c → (p_readopen p = 0 → p_readopen p' = 0) →
  (pcount p = PIPESIZE → p_readopen p ≠ 0 →
     existsb (λ ch, match ch with ChWrite => true | _ => false end) chs = true ∨
     pcount p' = PIPESIZE ∧ p_readopen p' ≠ 0) →
  wcall_ok p' b (wake_w chs c).
Proof.
  intros Hc Hro Hfull. unfold wcall_ok, wake_w in *. destruct c as [arg [|rest|rest|z kl]]; cbn in *; try done.
  - destruct Hc as (E & H1 & H2). destruct (existsb _ chs) eqn:Ee; cbn; [done|].
    destruct (Hfull H1 H2) as [|[? ?]]; [congruence|done].
  - destruct Hc as [?|(-> & ? & [?|?])]; [by left|right; auto|right; auto].
Qed.

Lemma wake_r_ok chs p p' ws ws' b c :
  rcall_ok p ws b c → (p_writeopen p = 0 → p_writeopen p' = 0) → (gave_up ws → gave_up ws') →
  (pcount p = 0 → p_writeopen p ≠ 0 →
     existsb (λ ch, match ch with ChRead => true | _ => false end) chs = true ∨
     pcount p' = 0 ∧ p_writeopen p' ≠ 0 ∨ gave_up ws') →
  rcall_ok p' ws' b (wake_r chs c).
Proof.
  intros Hc Hwo Hg He. unfold rcall_ok, wake_r in *. destruct c as [n [| |z bytes]]; cbn in *; try done.
  - destruct Hc as (-> & H). destruct (existsb _ chs) eqn:Ee; cbn; [done|]. split; [done|].
    destruct H as [[H1 H2]|H]; [|auto]. destruct (He H1 H2) as [|[?|?]]; [congruence|auto..].
  - destruct Hc as (-> & [(-> & ? & Hz)|?]); split; auto. left. split; [done|]. split; [done|]. auto.
Qed.

(** ** Every step preserves the invariant *)

Lemma write_run_ok killed p b w r p' :
  pipe_ok p → wcall_ok p b w → write_run killed w p = Some (r, p') →
  pipe_ok p' ∧ p_readopen p' = p_readopen p ∧ p_writeopen p' = p_writeopen p ∧
  content p' = content p ++ grown p p' ∧
  wcall_ok p' (b ++ grown p p') (WCall (w_arg w) (wnext killed r)) ∧
  (pipewrite_wakes r = [ChRead] ∨ w_st (WCall (w_arg w) (wnext killed r)) = WDone (-1) killed).
Proof.
  intros Hp Hw Hr.
  assert (∃ rest, b ++ rest = w_arg w ∧ pipewrite_loop killed (Z.of_nat (length (w_arg w))) rest p = (r, p'))
    as (rest0 & Hb & E).
  { unfold write_run, wcall_ok in *. destruct w as [arg [|rest|rest|z kl]]; cbn in *; try done.
    - injection Hr as Hr. subst b. by exists arg.
    - injection Hr as Hr. by exists rest. }
  destruct (pipewrite_loop_ok killed (Z.of_nat (length (w_arg w))) rest0 p Hp) as (Hok & Hro & Hwo & d & rest & -> & Hc & Hm).
  rewrite E in *. cbn [fst snd] in *.
  assert (grown p p' = d) as -> by (unfold grown; by rewrite Hc, drop_app_length).
  split; [done|]. split; [done|]. split; [done|]. split; [done|]. unfold wcall_ok, pipewrite_wakes. rewrite (app_assoc b d rest) in Hb.
  destruct r as [z|l]; cbn [wnext w_st w_arg].
  - destruct Hm as [[-> ->]|(-> & Hne & Hf & Hk)].
    + rewrite app_nil_r in Hb. rewrite (proj2 (Z.eqb_neq _ _)) by lia. split; [|by left]. left. split; [done|]. exact Hb.
    + split; [|by right]. right. split; [done|]. rewrite Hro. split; [|done]. by exists rest.
  - destruct Hm as (-> & Hne & Hf & Hk & ->). split; [|by left]. rewrite Hro. done.
Qed.

Lemma pstep_write_inv killed k w r p' c :
  pinv c → pc_w c !! k = Some w → write_run killed w (pc_p c) = Some (r, p') →
  pinv (PConf p' (<[k := WCall (w_arg w) (wnext killed r)]> (wake_w (pipewrite_wakes r) <$> pc_w c))
               (wake_r (pipewrite_wakes r) <$> pc_r c) (pc_sent c ++ tag k (grown (pc_p c) p')) (pc_rcvd c)).
Proof.
  intros [Hp Hflow Hw Hr Hst Hrt] Hk E.
  destruct (write_run_ok _ _ _ _ _ _ Hp (Hw k w Hk) E) as (Hp' & Hro & Hwo & Hc & Hkw & Hwk).
  set (ws' := <[k := _]> _) in *. assert (k < length (pc_w c))%nat as Hlt by (by eapply lookup_lt_Some).
  assert (ws' !! k = Some (WCall (w_arg w) (wnext killed r))) as Hk' by
    (apply list_lookup_insert_eq; by rewrite length_fmap).
  assert (gave_up (pc_w c) → gave_up ws') as Hg.
  { intros (j & c0 & kl & Hj & Hd). destruct (decide (j = k)) as [->|Hne].
    - assert (c0 = w) as -> by congruence. unfold write_run in E. by rewrite Hd in E.
    - exists j, c0, kl. unfold ws'. rewrite list_lookup_insert_ne, list_lookup_fmap, Hj by done. cbn.
      by rewrite (wake_w_done _ _ _ _ Hd). }
  split; cbn [pc_p pc_w pc_r pc_sent pc_rcvd]; [done| | | | |].
  - by rewrite fmap_app, tag_bytes, Hflow, Hc, app_assoc.
  - intros j w' Hj. destruct (decide (j = k)) as [->|Hne].
    + assert (w' = WCall (w_arg w) (wnext killed r)) as -> by congruence. by rewrite bytes_of_app, bytes_of_tag.
    + unfold ws' in Hj. rewrite list_lookup_insert_ne, list_lookup_fmap in Hj by done.
      destruct (pc_w c !! j) as [w0|] eqn:Ej; [|done]. injection Hj as <-. rewrite bytes_of_other by done.
      eapply wake_w_ok; [by apply Hw|by rewrite Hro|]. intros Hf Hro'. right. rewrite Hro. split; [|done].
      pose proof (length_content p') as Hl. rewrite Hc, length_app in Hl. pose proof (length_content (pc_p c)).
      pose proof (po_count _ Hp'). lia.
  - intros j r' Hj. rewrite list_lookup_fmap in Hj. destruct (pc_r c !! j) as [r0|] eqn:Ej; [|done]. injection Hj as <-.
    eapply wake_r_ok; [by apply Hr|by rewrite Hwo|exact Hg|]. intros _ _. destruct Hwk as [->|Hd]; [by left|].
    right. right. by exists k, (WCall (w_arg w) (wnext killed r)), killed.
  - intros x. unfold ws'. rewrite length_insert, length_fmap. intros [Hx|Hx]%elem_of_app; [by apply Hst|].
    by rewrite (elem_of_tag _ _ _ Hx).
  - intros x Hx. rewrite length_fmap. by apply Hrt.
Qed.

(** What piperead does to the pipe when it returns. *)
Lemma piperead_inv killed n p z bytes p' :
  pipe_ok p → piperead killed n p = (RReturn z bytes, p') →
  pipe_ok p' ∧ p_readopen p' = p_readopen p ∧ p_writeopen p' = p_writeopen p ∧
  content p = bytes ++ content p' ∧
  (z = -1 ∧ bytes = [] ∧ p' = p ∨
   z = Z.of_nat (length bytes) ∧ z ≤ Z.max 0 n ∧ (z = 0 → 0 < n → p_writeopen p = 0)).
Proof.
  intros Hp E. unfold piperead in E. destruct (is_empty p && negb (p_writeopen p =? 0)) eqn:Ee.
  { destruct killed; [|done]. injection E as <- <- <-. split_and!; try done. by left. }
  destruct (piperead_loop_ok (Z.to_nat n) p Hp) as (Hok & Hro & Hwo & H1 & H2).
  injection E as <- <- <-. split; [done|]. split; [done|]. split; [done|]. split; [by rewrite H1, H2, take_drop|].
  right. rewrite H1, length_take. split; [done|]. split; [lia|]. intros Hz Hn.
  rewrite is_empty_count in Ee by done. pose proof (length_content p) as Hl.
  rewrite (proj2 (Z.eqb_eq _ _)) in Ee by lia. cbn [andb] in Ee. by apply negb_false_iff, Z.eqb_eq in Ee.
Qed.

Lemma pstep_read_inv killed k n z bytes p' c :
  pinv c → pc_r c !! k = Some (RCall n RAwake) → piperead killed n (pc_p c) = (RReturn z bytes, p') →
  pinv (PConf p' (wake_w (piperead_wakes (RReturn z bytes)) <$> pc_w c)
               (<[k := RCall n (RDone z bytes)]> (wake_r (piperead_wakes (RReturn z bytes)) <$> pc_r c))
               (pc_sent c) (pc_rcvd c ++ tag k bytes)).
Proof.
  intros [Hp Hflow Hw Hr Hst Hrt] Hk E.
  destruct (piperead_inv _ _ _ _ _ _ Hp E) as (Hp' & Hro & Hwo & Hc & Hz).
  pose proof (Hr k _ Hk) as Hb. unfold rcall_ok in Hb. cbn in Hb.
  pose proof (lookup_lt_Some _ _ _ Hk) as Hlt. set (chs := piperead_wakes _) in *.
  split; cbn [pc_p pc_w pc_r pc_sent pc_rcvd]; [done| | | | |].
  - by rewrite fmap_app, tag_bytes, Hflow, Hc, app_assoc.
  - intros j w Hj. rewrite list_lookup_fmap in Hj. destruct (pc_w c !! j) as [w0|] eqn:Ej; [|done]. injection Hj as <-.
    eapply wake_w_ok; [by apply Hw|by rewrite Hro|]. intros Hf Ho.
    destruct Hz as [(_ & _ & ->)|(-> & _)]; [by right|left]. unfold chs, piperead_wakes.
    by rewrite (proj2 (Z.eqb_neq _ _)) by lia.
  - intros j r' Hj. destruct (decide (j = k)) as [->|Hne].
    + rewrite list_lookup_insert_eq in Hj by (by rewrite length_fmap). injection Hj as <-.
      rewrite bytes_of_app, bytes_of_tag, Hb. cbn. split; [done|]. rewrite Hwo.
      destruct Hz as [(-> & -> & _)|Hz]; [by right|by left].
    + rewrite list_lookup_insert_ne, list_lookup_fmap in Hj by done.
      destruct (pc_r c !! j) as [r0|] eqn:Ej; [|done]. injection Hj as <-. rewrite bytes_of_other by done.
      eapply wake_r_ok; [by apply Hr|by rewrite Hwo|by apply gave_up_wake|]. intros He Ho. right. left. rewrite Hwo.
      split; [|done]. pose proof (length_content (pc_p c)) as Hl. rewrite Hc, length_app in Hl.
      pose proof (length_content p'). lia.
  - intros x Hx. rewrite length_fmap. by apply Hst.
  - intros x. rewrite length_insert, length_fmap. intros [Hx|Hx]%elem_of_app; [by apply Hrt|].
    by rewrite (elem_of_tag _ _ _ Hx).
Qed.

Lemma pstep_close_inv w p' freed c :
  pinv c → pipeclose w (pc_p c) = (p', freed) →
  pinv (PConf p' (wake_w (pipeclose_wakes w) <$> pc_w c) (wake_r (pipeclose_wakes w) <$> pc_r c)
         (pc_sent c) (pc_rcvd c)).
Proof.
  intros [Hp Hflow Hw Hr Hst Hrt] E.
  assert (pipe_ok p' ∧ content p' = content (pc_p c) ∧ pcount p' = pcount (pc_p c) ∧
    p_readopen p' = (if w then p_readopen (pc_p c) else 0) ∧ p_writeopen p' = (if w then 0 else p_writeopen (pc_p c)))
    as (Hp' & Hc & Hn & Hro & Hwo).
  { unfold pipeclose in E. injection E as <- _. destruct Hp. by destruct w; split_and!; try done; split. }
  split; cbn [pc_p pc_w pc_r pc_sent pc_rcvd]; [done|by rewrite Hc| | | |].
  - intros j w0 Hj. rewrite list_lookup_fmap in Hj. destruct (pc_w c !! j) as [w1|] eqn:Ej; [|done]. injection Hj as <-.
    eapply wake_w_ok; [by apply Hw| |]; rewrite Hro; destruct w; rewrite ?Hn; auto.
  - intros j r0 Hj. rewrite list_lookup_fmap in Hj. destruct (pc_r c !! j) as [r1|] eqn:Ej; [|done]. injection Hj as <-.
    eapply wake_r_ok; [by apply Hr| |by apply gave_up_wake|]; rewrite Hwo; destruct w; rewrite ?Hn; auto.
  - intros x Hx. rewrite length_fmap. by apply Hst.
  - intros x Hx. rewrite length_fmap. by apply Hrt.
Qed.

(** A call that is new or is woken. *)
Lemma pinv_update_w c ws' :
  pinv c → (∀ k w, ws' !! k = Some w → wcall_ok (pc_p c) (bytes_of k (pc_sent c)) w) →
  (gave_up (pc_w c) → gave_up ws') → (length (pc_w c) ≤ length ws')%nat →
  pinv (PConf (pc_p c) ws' (pc_r c) (pc_sent c) (pc_rcvd c)).
Proof.
  intros [Hp Hflow Hw Hr Hst Hrt] Hw' Hg Hl. split; cbn [pc_p pc_w pc_r pc_sent pc_rcvd]; try done.
  - intros k r Hk. specialize (Hr k r Hk). unfold rcall_ok in *. destruct (r_st r); try done. tauto.
  - intros x Hx. specialize (Hst x Hx). lia.
Qed.

Lemma pinv_update_r c rs' :
  pinv c → (∀ k r, rs' !! k = Some r → rcall_ok (pc_p c) (pc_w c) (bytes_of k (pc_rcvd c)) r) →
  (length (pc_r c) ≤ length rs')%nat → pinv (PConf (pc_p c) (pc_w c) rs' (pc_sent c) (pc_rcvd c)).
Proof.
  intros [Hp Hflow Hw Hr Hst Hrt] Hr' Hl. split; cbn [pc_p pc_w pc_r pc_sent pc_rcvd]; try done.
  intros x Hx. specialize (Hrt x Hx). lia.
Qed.

Lemma pstep_inv c c' : pstep c c' → pinv c → pinv c'.
Proof.
  intros Hs Hinv. destruct Hs as [l c|n c|killed k w r p' c Hk E|killed k n z bytes p' c Hk E
    |killed k n p' c Hk E|k w c Hk|k r c Hk|w p' freed c E].
  - apply pinv_update_w; [done| | |rewrite length_app; lia].
    + intros k w [Hk|[Hi Hk]]%lookup_app_Some; [by apply Hinv|]. apply list_lookup_singleton_Some in Hk as [Hk <-].
      cbn. apply bytes_of_none. intros x Hx%(pi_sent c Hinv). lia.
    + apply gave_up_mono. intros k w Hk. exists w. split; [by apply lookup_app_l_Some|done].
  - apply pinv_update_r; [done| |rewrite length_app; lia].
    intros k r [Hk|[Hi Hk]]%lookup_app_Some; [by apply Hinv|]. apply list_lookup_singleton_Some in Hk as [Hk <-].
    cbn. apply bytes_of_none. intros x Hx%(pi_rcvd c Hinv). lia.
  - by eapply pstep_write_inv.
  - by eapply pstep_read_inv.
  - assert (p' = pc_p c ∧ is_empty (pc_p c) = true ∧ p_writeopen (pc_p c) ≠ 0) as (-> & He & Hwo).
    { unfold piperead in E. destruct (is_empty (pc_p c)); [|done]. destruct (Z.eqb_spec (p_writeopen (pc_p c)) 0); [done|].
      destruct killed; by simplify_eq/=. }
    rewrite is_empty_count in He by apply Hinv. apply Z.eqb_eq in He.
    apply pinv_update_r; [done| |by rewrite length_insert]. intros j r Hj.
    apply list_lookup_insert_Some in Hj as [(<- & <- & _)|[_ Hj]]; [|by apply Hinv].
    pose proof (pi_r c Hinv k _ Hk) as Hb. cbn in Hb. cbn. auto.
  - apply pinv_update_w; [done| | |by rewrite length_insert].
    + intros j w' Hj. apply list_lookup_insert_Some in Hj as [(<- & <- & _)|[_ Hj]]; [|by apply Hinv].
      eapply wake_w_ok; [by apply Hinv|done|by left].
    + apply gave_up_mono. intros j w' Hj. destruct (decide (j = k)) as [->|Hne].
      * rewrite list_lookup_insert_eq by (by eapply lookup_lt_Some). eexists. split; [done|].
        intros z kl Hd. assert (w' = w) as <- by congruence. by rewrite (wake_w_done _ _ _ _ Hd).
      * rewrite list_lookup_insert_ne by done. by exists w'.
  - apply pinv_update_r; [done| |by rewrite length_insert]. intros j r' Hj.
    apply list_lookup_insert_Some in Hj as [(<- & <- & _)|[_ Hj]]; [|by apply Hinv].
    eapply wake_r_ok; [by apply Hinv|done|done|by left].
  - by eapply pstep_close_inv.
Qed.

Lemma preachable_inv c : preachable c → pinv c.
Proof.
  intros (c0 & (data & Hlen & ->) & Hr).
  assert (pinv (PConf (pipe_init data) [] [] [] [])) as Hi.
  { split; cbn; [by split|done|done|done|intros x Hx; by apply elem_of_nil in Hx..]. }
  induction Hr; eauto using pstep_inv.
Qed.

(** C22: a pipe is a bounded queue of bytes between its calls.  However calls
    of [pipewrite], [piperead] and [pipeclose] interleave, sleep and wake one
    another: the bytes delivered so far and then the bytes in the ring, at most
    [PIPESIZE], are the bytes that were stored, in order; a write that returned
    its count stored its whole argument, one that has not returned stored a
    beginning of it and has the rest to go, and one that returned -1 stored a
    proper beginning and either nobody reads or its process was killed; a write
    sleeps only on a full pipe with a reader; a read that returned z delivered
    z bytes, at most what was asked for, and 0 of some only when nobody writes;
    and a read sleeps only on an empty pipe with a writer, unless a write has
    given up. *)
Theorem pipe_correct c :
  preachable c →
  (pc_sent c).*2 = (pc_rcvd c).*2 ++ content (pc_p c) ∧ Z.of_nat (length (content (pc_p c))) ≤ PIPESIZE ∧
  (∀ k arg z killed, pc_w c !! k = Some (WCall arg (WDone z killed)) →
     z = Z.of_nat (length arg) ∧ bytes_of k (pc_sent c) = arg ∨
     z = -1 ∧ (∃ rest, rest ≠ [] ∧ arg = bytes_of k (pc_sent c) ++ rest) ∧
       (p_readopen (pc_p c) = 0 ∨ killed = true)) ∧
  (∀ k arg rest, pc_w c !! k = Some (WCall arg (WAwake rest)) → arg = bytes_of k (pc_sent c) ++ rest) ∧
  (∀ k arg rest, pc_w c !! k = Some (WCall arg (WAsleep rest)) →
     arg = bytes_of k (pc_sent c) ++ rest ∧
     Z.of_nat (length (content (pc_p c))) = PIPESIZE ∧ p_readopen (pc_p c) ≠ 0) ∧
  (∀ k n z bytes, pc_r c !! k = Some (RCall n (RDone z bytes)) →
     bytes = bytes_of k (pc_rcvd c) ∧
     (z = Z.of_nat (length bytes) ∧ z ≤ Z.max 0 n ∧ (z = 0 → 0 < n → p_writeopen (pc_p c) = 0) ∨ z = -1 ∧ bytes = [])) ∧
  (∀ k n, pc_r c !! k = Some (RCall n RAsleep) →
     content (pc_p c) = [] ∧ p_writeopen (pc_p c) ≠ 0 ∨ gave_up (pc_w c)).
Proof.
  intros [Hp Hf Hw Hr _ _]%preachable_inv. split; [done|]. rewrite length_content. split; [apply Hp|].
  split_and!; intros k.
  - intros arg z killed Hk. destruct (Hw _ _ Hk) as [[-> E]|(-> & (rest & Hne & E) & Ho)]; cbn in *; [by left|right].
    split; [done|]. split; [|done]. by exists rest.
  - intros arg rest Hk. by rewrite (Hw _ _ Hk).
  - intros arg rest Hk. destruct (Hw _ _ Hk) as (E & ? & ?). cbn in *. by rewrite E.
  - intros n z bytes Hk. destruct (Hr _ _ Hk) as (-> & H). done.
  - intros n Hk. destruct (Hr _ _ Hk) as (_ & [[He Ho]|Hg]); [left|by right]. split; [|done].
    apply nil_length_inv. pose proof (length_content (pc_p c)). lia.
Qed.

(** "hi" through a pipe, one byte of which is read. *)
Lemma pipe_correct_witness : ∃ c,
  preachable c ∧ (pc_rcvd c).*2 = [104] ∧ content (pc_p c) = [105] ∧
  pc_w c !! 0%nat = Some (WCall [104; 105] (WDone 2 false)) ∧ bytes_of 0 (pc_sent c) = [104; 105].
Proof.
  set (p0 := pipe_init (replicate PIPESIZE_n 0)).
  set (p1 := (pipewrite false [104; 105] p0).2).
  set (p2 := (piperead false 1 p1).2).
  set (c := PConf p2 [WCall [104; 105] (WDone 2 false)] [RCall 1 (RDone 1 [104])] [(0%nat, 104); (0%nat, 105)] [(0%nat, 104)]).
  assert (preachable c) as Hr.
  { exists (PConf p0 [] [] [] []). split; [by exists (replicate PIPESIZE_n 0)|].
    eapply rtc_l; [apply (pstep_new_write [104; 105])|]. eapply rtc_l; [apply (pstep_new_read 1)|].
    eapply rtc_l; [eapply (pstep_write false 0 _ (WReturn 2) p1); [reflexivity|vm_compute; reflexivity]|].
    eapply rtc_l; [eapply (pstep_read false 0 1 1 [104] p2); [reflexivity|vm_compute; reflexivity]|].
    match goal with |- rtc _ ?c' _ => assert (c' = c) as -> by (vm_compute; reflexivity) end. apply rtc_refl. }
  exists c. destruct (pipe_correct c Hr) as (E & _ & Hw & _).
  split; [exact Hr|]. split; [reflexivity|].
  split; [apply (app_inv_head [104]); symmetry; exact E|]. split; [reflexivity|].
  destruct (Hw 0%nat [104; 105] 2 false eq_refl) as [[_ Hb]|[Hz _]]; [exact Hb|discriminate Hz].
Defined.

(** The exception for readers is needed: a killed process that writes 513
    bytes fills the pipe and returns -1 without a wakeup, and a reader that
    slept on the empty pipe sleeps on beside 512 bytes. *)
Lemma pipe_lost_wakeup : ∃ c,
  preachable c ∧ pc_r c !! 0%nat = Some (RCall 1 RAsleep) ∧ length (content (pc_p c)) = PIPESIZE_n ∧
  p_readopen (pc_p c) = 1 ∧ pc_w c !! 0%nat = Some (WCall (replicate 513 7) (WDone (-1) true)).
Proof.
  set (p0 := pipe_init (replicate PIPESIZE_n 0)). set (r := pipewrite true (replicate 513 7) p0).
  eexists. split.
  { exists (PConf p0 [] [] [] []). split; [by exists (replicate PIPESIZE_n 0)|].
    eapply rtc_l; [apply (pstep_new_read 1)|]. eapply rtc_l; [apply (pstep_new_write (replicate 513 7))|].
    eapply rtc_l; [eapply (pstep_read_sleep false 0 1 p0); [reflexivity|vm_compute; reflexivity]|].
    eapply rtc_l; [eapply (pstep_write true 0 _ (WReturn (-1)) r.2); [reflexivity|vm_compute; reflexivity]|].
    apply rtc_refl. }
  vm_compute. done.
Qed.

(** [piperead] on a pipe with bytes in it returns the oldest [n] of them,
    or all if there are fewer; on an empty pipe it reports end of file with 0
    when the write end is closed, and otherwise fails if the process has been
    killed and sleeps if not, with the pipe unchanged. *)
Theorem piperead_result killed n p :
  pipe_ok p → 0 ≤ n →
  let '(r, p') := piperead killed n p in
  if decide (content p = []) then
    p' = p ∧ r = (if p_writeopen p =? 0 then RReturn 0 [] else if killed then RReturn (-1) [] else RSleep)
  else
    r = RReturn (Z.of_nat (length (take (Z.to_nat n) (content p)))) (take (Z.to_nat n) (content p)) ∧
    content p' = drop (Z.to_nat n) (content p).
Proof.
  intros Hp Hn. pose proof (length_content p) as Hlen. unfold piperead.
  rewrite is_empty_count by done. destruct (decide (content p = [])) as [He|He].
  - rewrite He in Hlen. simpl in Hlen. rewrite <- Hlen. cbn [Z.eqb andb].
    destruct (Z.eqb_spec (p_writeopen p) 0); cbn [negb].
    + assert (∀ k, piperead_loop k p = ([], p)) as ->.
      { intros [|k]; [done|]. simpl. rewrite is_empty_count by done. by rewrite <- Hlen. }
      done.
    + by destruct killed.
  - destruct (Z.eqb_spec (pcount p) 0) as [E|E].
    { destruct He. apply nil_length_inv. lia. }
    cbn [andb]. destruct (piperead_loop_ok (Z.to_nat n) p Hp) as (_ & _ & _ & H1 & H2).
    by rewrite H1.
Qed.

Lemma piperead_result_witness :
  let p := (pipewrite false [104; 105] (pipe_init (replicate PIPESIZE_n 0))).2 in
  (piperead false 1 p).1 = RReturn 1 [104] ∧ content (piperead false 1 p).2 = [105].
Proof.
  intros p.
  assert (pipe_ok p) as Hp by (split; vm_compute; intuition congruence).
  pose proof (piperead_result false 1 p Hp ltac:(lia)) as H.
  assert (content p = [104; 105]) as E by (vm_compute; reflexivity).
  rewrite E in H. destruct (piperead false 1 p) as [r p']. exact H.
Defined.
