(* ===== verification/Disk.v ===== *)
(** * Buffers and the disk under them (buf.h, memide.c)

    [buf] is the [struct buf] of buf.h.  [Disk] is what the buffer cache
    relies on: a routine [iderw] that synchronises one buffer with the disk.
    memide.c implements it on an in-memory image. *)

From S2P Require Import Prelude Params.

(** The contents of one disk block: [BSIZE] bytes. *)
Abbreviation block := (list Z).

(** ** Flag words *)

Definition B_BUSY : Z := 1.
Definition B_VALID : Z := 2.
Definition B_DIRTY : Z := 4.

(** [flags & k] as a C condition. *)
Definition flag (f k : Z) : bool := negb (Z.land f k =? 0).

Lemma flag_testbit f i : 0 ≤ i → flag f (2 ^ i) = Z.testbit f i.
Proof.
  intros Hi. unfold flag. destruct (Z.eqb_spec (Z.land f (2 ^ i)) 0) as [E|E]; simpl.
  - apply (f_equal (λ z, Z.testbit z i)) in E.
    rewrite Z.land_spec, Z.pow2_bits_true, andb_true_r, Z.bits_0 in E by lia. done.
  - destruct (Z.testbit f i) eqn:T; [done|]. exfalso. apply E.
    apply Z.bits_inj_iff'. intros j Hj. rewrite Z.land_spec, Z.bits_0.
    destruct (decide (i = j)) as [->|]; [by rewrite T|].
    rewrite Z.pow2_bits_false by lia. by rewrite andb_false_r.
Qed.

(** The flag bits of the kernel's flag words. *)
Definition is_flag (k : Z) : bool := (k =? 1) || (k =? 2) || (k =? 4).

Lemma is_flag_pow k : is_flag k = true → ∃ i, 0 ≤ i ∧ k = 2 ^ i.
Proof.
  unfold is_flag. rewrite !orb_true_iff, !Z.eqb_eq.
  intros [[->| ->]| ->]; [exists 0|exists 1|exists 2]; lia.
Qed.

Lemma flag_or f a b :
  is_flag a = true → is_flag b = true → flag (Z.lor f a) b = (a =? b) || flag f b.
Proof.
  intros (i & Hi & ->)%is_flag_pow (j & Hj & ->)%is_flag_pow.
  rewrite !flag_testbit, Z.lor_spec, orb_comm by done. f_equal.
  destruct (Z.eqb_spec (2 ^ i) (2 ^ j)) as [E|E].
  - apply Z.pow_inj_r in E; [|lia..]. subst. by apply Z.pow2_bits_true.
  - apply Z.pow2_bits_false. by intros ->.
Qed.

Lemma flag_clear f a b :
  is_flag a = true → is_flag b = true →
  flag (Z.land f (Z.lnot a)) b = negb (a =? b) && flag f b.
Proof.
  intros (i & Hi & ->)%is_flag_pow (j & Hj & ->)%is_flag_pow.
  rewrite !flag_testbit, Z.land_spec, Z.lnot_spec, andb_comm by done. do 2 f_equal.
  destruct (Z.eqb_spec (2 ^ i) (2 ^ j)) as [E|E].
  - apply Z.pow_inj_r in E; [|lia..]. subst. by apply Z.pow2_bits_true.
  - apply Z.pow2_bits_false. by intros ->.
Qed.

Lemma flag_self a : is_flag a = true → flag a a = true.
Proof.
  intros (i & Hi & ->)%is_flag_pow. rewrite flag_testbit by done. by apply Z.pow2_bits_true.
Qed.

(** ** struct buf *)

(** The list pointers are indices into the buffer array (Bio.v). *)
Record buf := Buf {
  b_flags : Z;
  b_dev : Z;
  b_blockno : Z;
  b_prev : nat;
  b_next : nat;
  b_data : block;
}.

Definition set_flags (f : Z) (b : buf) : buf :=
  Buf f (b_dev b) (b_blockno b) (b_prev b) (b_next b) (b_data b).
Definition set_data (d : block) (b : buf) : buf :=
  Buf (b_flags b) (b_dev b) (b_blockno b) (b_prev b) (b_next b) d.
Definition set_prev (i : nat) (b : buf) : buf :=
  Buf (b_flags b) (b_dev b) (b_blockno b) i (b_next b) (b_data b).
Definition set_next (i : nat) (b : buf) : buf :=
  Buf (b_flags b) (b_dev b) (b_blockno b) (b_prev b) i (b_data b).

Definition busy (b : buf) : bool := flag (b_flags b) B_BUSY.
Definition valid (b : buf) : bool := flag (b_flags b) B_VALID.
Definition dirty (b : buf) : bool := flag (b_flags b) B_DIRTY.

(** ** What the buffer cache relies on *)

(** [dcontent d] is what is on the disk, [dwrites d] the block writes that
    have reached it since boot, oldest first. *)
Class Disk (D : Type) := {
  iderw : buf → M D buf;
  dcontent : D → gmap Z block;
  dwrites : D → list (Z * block);
  dok : D → Prop;
  (** A buffer that is neither valid nor dirty is filled from the disk. *)
  iderw_read d b x :
    dok d → busy b = true → valid b = false → dirty b = false → b_dev b = ROOTDEV →
    dcontent d !! b_blockno b = Some x →
    ∃ d', iderw b d = Ok (set_flags (Z.lor (b_flags b) B_VALID) (set_data x b)) d' ∧
      dok d' ∧ dcontent d' = dcontent d ∧ dwrites d' = dwrites d;
  (** A dirty buffer is written to its block. *)
  iderw_write d b x :
    dok d → busy b = true → dirty b = true → b_dev b = ROOTDEV →
    dcontent d !! b_blockno b = Some x →
    ∃ d', iderw b d =
        Ok (set_flags (Z.lor (Z.land (b_flags b) (Z.lnot B_DIRTY)) B_VALID) b) d' ∧
      dok d' ∧ dcontent d' = <[b_blockno b := b_data b]> (dcontent d) ∧
      dwrites d' = dwrites d ++ [(b_blockno b, b_data b)];
}.

(** ** memide.c: the disk is an array of blocks in memory *)

Module Memide.
(** [memdisk] maps block [i] to the [BSIZE] bytes at [memdisk + i*BSIZE];
    [writes] records the order in which blocks were written. *)
Record state := State {
  memdisk : gmap Z block;
  disksize : Z;
  writes : list (Z * block);
}.

(** [img] is the linked file system image, cut into blocks, and [size] the
    address of the symbol that gives its length in bytes. *)
Definition ideinit (img : gmap Z block) (size : Z) : state :=
  State img (s32 (u32 size `div` BSIZE)) [].

Definition iderw (b : buf) : M state buf := λ s,
  if negb (flag (b_flags b) B_BUSY) then Panic "iderw: buf not busy"
  else if Z.land (b_flags b) (Z.lor B_VALID B_DIRTY) =? B_VALID
    then Panic "iderw: nothing to do"
  else if negb (b_dev b =? 1) then Panic "iderw: request not for disk 1"
  else if disksize s <=? b_blockno b then Panic "iderw: block out of range"
  else if flag (b_flags b) B_DIRTY then
    let b := set_flags (Z.land (b_flags b) (Z.lnot B_DIRTY)) b in
    Ok (set_flags (Z.lor (b_flags b) B_VALID) b)
       (State (<[b_blockno b := b_data b]> (memdisk s)) (disksize s)
          (writes s ++ [(b_blockno b, b_data b)]))
  else
    match memdisk s !! b_blockno b with
    | None => Fault
    | Some p =>
        let b := set_data p b in
        Ok (set_flags (Z.lor (b_flags b) B_VALID) b) s
    end.

(** The image holds exactly the blocks below [disksize]. *)
Definition image_ok (s : state) : Prop :=
  ∀ b, is_Some (memdisk s !! b) ↔ 0 ≤ b < disksize s.

Lemma flags_read f :
  flag f B_DIRTY = false → flag f B_VALID = false →
  (Z.land f (Z.lor B_VALID B_DIRTY) =? B_VALID) = false.
Proof.
  intros Hd Hv. apply Z.eqb_neq. intros E.
  change B_VALID with (2 ^ 1) in *. rewrite flag_testbit in Hv by done.
  apply (f_equal (λ z, Z.testbit z 1)) in E. rewrite Z.land_spec, Hv in E. done.
Qed.

Lemma flags_write f :
  flag f B_DIRTY = true → (Z.land f (Z.lor B_VALID B_DIRTY) =? B_VALID) = false.
Proof.
  intros Hd. apply Z.eqb_neq. intros E.
  change B_DIRTY with (2 ^ 2) in *. rewrite flag_testbit in Hd by done.
  apply (f_equal (λ z, Z.testbit z 2)) in E. rewrite Z.land_spec, Hd in E. done.
Qed.

#[global] Program Instance memide_disk : Disk state := {|
  Disk.iderw := iderw;
  dcontent := memdisk;
  dwrites := writes;
  dok := image_ok;
|}.
Next Obligation.
  intros d b x Hok Hb Hv Hd Hdev Hx. exists d. split; [|done].
  assert (0 ≤ b_blockno b < disksize d) as Hr by (apply Hok; by eexists).
  unfold busy, valid, dirty in *. unfold iderw.
  rewrite Hb, flags_read, Hdev, Hd, Hx by done. simpl.
  destruct (Z.leb_spec (disksize d) (b_blockno b)); [lia|]. done.
Qed.
Next Obligation.
  intros d b x Hok Hb Hd Hdev Hx. eexists. split.
  - assert (0 ≤ b_blockno b < disksize d) as Hr by (apply Hok; by eexists).
    unfold busy, valid, dirty in *. unfold iderw.
    rewrite Hb, flags_write, Hdev, Hd by done. simpl.
    destruct (Z.leb_spec (disksize d) (b_blockno b)); [lia|]. done.
  - split_and!; [|done..]. intros b'. simpl. rewrite <- (Hok b').
    destruct (decide (b_blockno b = b')) as [<-|]; [|by rewrite lookup_insert_ne].
    rewrite lookup_insert_eq. split; eauto.
Qed.
End Memide.
