(* ===== verification/BlockCache.v ===== *)
(** * The interface of the buffer cache

    What log.c and fs.c rely on: the operations of bio.c and their effect on
    an abstract view of the cache that does not mention the cache's lists.
    Bio.v proves that bio.c provides it. *)

From S2P Require Import Prelude Params Disk.

(** The abstract state of the buffer cache.  [v_view] is the contents of each
    block as the kernel sees it (the cached copy if there is one), [v_disk]
    what is on the disk.  [v_dirty] holds the blocks whose cached copy is
    marked B_DIRTY, [v_held] the buffers that [bread] has returned and
    [brelse] has not yet been given, with their block numbers. *)
Record bview := BView {
  v_disk : gmap Z block;
  v_view : gmap Z block;
  v_dirty : gset Z;
  v_held : gmap nat Z;
  v_writes : list (Z * block);
}.

Definition set_view (x : gmap Z block) (v : bview) : bview :=
  BView (v_disk v) x (v_dirty v) (v_held v) (v_writes v).
Definition set_held (x : gmap nat Z) (v : bview) : bview :=
  BView (v_disk v) (v_view v) (v_dirty v) x (v_writes v).
Definition set_dirty (x : gset Z) (v : bview) : bview :=
  BView (v_disk v) (v_view v) x (v_held v) (v_writes v).
(** The cached copy [x] of block [b] has been written to the disk. *)
Definition written (b : Z) (x : block) (v : bview) : bview :=
  BView (<[b := x]> (v_disk v)) (v_view v) (v_dirty v ∖ {[b]}) (v_held v)
    (v_writes v ++ [(b, x)]).

(** The blocks some thread holds. *)
Definition held_blocks (v : bview) : gset Z := map_img (v_held v).

(** The buffers that cannot be recycled. *)
Definition pinned (v : bview) : gset Z := v_dirty v ∪ held_blocks v.

Class BlockCache (S : Type) := {
  bread : Z → Z → M S nat;
  bwrite : nat → M S unit;
  brelse : nat → M S unit;
  (** [b->data], an assignment to it, [b->blockno] and [b->flags |= B_DIRTY]. *)
  buf_data : nat → M S block;
  buf_write : nat → block → M S unit;
  buf_blockno : nat → M S Z;
  buf_pin : nat → M S unit;

  brep : S → bview → Prop;

  (** Every block that no thread holds and that is not dirty is on the disk. *)
  brep_clean s v b :
    brep s v → b ∉ pinned v → v_view v !! b = v_disk v !! b;
  (** The cached blocks are blocks of the disk. *)
  brep_dom s v b : brep s v → is_Some (v_view v !! b) ↔ is_Some (v_disk v !! b);
  brep_held s v i b : brep s v → v_held v !! i = Some b → is_Some (v_view v !! b);
  brep_dirty s v b : brep s v → b ∈ v_dirty v → is_Some (v_view v !! b);
  (** A block has at most one buffer. *)
  brep_inj s v i j b :
    brep s v → v_held v !! i = Some b → v_held v !! j = Some b → i = j;

  bread_ok s v b :
    brep s v → is_Some (v_disk v !! b) → b ∉ held_blocks v →
    b ∈ v_dirty v ∨ (size (pinned v) < NBUF_n)%nat →
    ∃ i s', bread ROOTDEV b s = Ok i s' ∧ v_held v !! i = None ∧
      brep s' (set_held (<[i := b]> (v_held v)) v);
  (** A held block is not handed out twice: the second caller sleeps. *)
  bread_busy s v b :
    brep s v → b ∈ held_blocks v → ∃ i s', bread ROOTDEV b s = Sleep i s' ∧ brep s' v;
  bwrite_ok s v i b x :
    brep s v → v_held v !! i = Some b → v_view v !! b = Some x →
    ∃ s', bwrite i s = Ok tt s' ∧ brep s' (written b x v);
  brelse_ok s v i b :
    brep s v → v_held v !! i = Some b →
    b ∈ v_dirty v ∨ v_view v !! b = v_disk v !! b →
    ∃ s', brelse i s = Ok tt s' ∧ brep s' (set_held (delete i (v_held v)) v);
  buf_data_ok s v i b x :
    brep s v → v_held v !! i = Some b → v_view v !! b = Some x → buf_data i s = Ok x s;
  buf_write_ok s v i b x :
    brep s v → v_held v !! i = Some b →
    ∃ s', buf_write i x s = Ok tt s' ∧ brep s' (set_view (<[b := x]> (v_view v)) v);
  buf_blockno_ok s v i b :
    brep s v → v_held v !! i = Some b → buf_blockno i s = Ok b s;
  buf_pin_ok s v i b :
    brep s v → v_held v !! i = Some b →
    ∃ s', buf_pin i s = Ok tt s' ∧ brep s' (set_dirty ({[b]} ∪ v_dirty v) v);
}.
