(* ===== verification/Bio.v ===== *)
(** * The buffer cache (bio.c)

    The [NBUF] buffers and the list head live in one array, [nodes]; the head
    is its last element.  [bget], [bread], [bwrite] and [brelse] follow bio.c
    statement by statement, pointer assignments of the LRU list included. *)

From S2P Require Import Prelude Params Disk BlockCache.

(** [&bcache.head] *)
Definition HEAD : nat := NBUF_n.

(** [b->dev = -1] stored in a [uint]. *)
Definition NODEV : Z := u32 (-1).

Section bio.
Context {D : Type} `{!Disk D}.

Record bstate := BState { nodes : list buf; dsk : D }.

(** ** Memory accesses *)

Definition set_nodes (l : list buf) (s : bstate) : bstate := BState l (dsk s).

Definition deref (i : nat) : M bstate buf := λ s,
  match nodes s !! i with Some b => Ok b s | None => Fault end.

Definition assign (i : nat) (f : buf → buf) : M bstate unit := λ s,
  match nodes s !! i with
  | Some b => Ok tt (set_nodes (<[i := f b]> (nodes s)) s)
  | None => Fault
  end.

(** [iderw(b)]: the driver works on the buffer in place. *)
Definition ide_sync (i : nat) : M bstate unit :=
  b ← deref i;
  b' ← zoom dsk (λ d s, BState (nodes s) d) (iderw b);
  assign i (λ _, b').

(** ** binit *)

Definition binit_one (i : nat) : M bstate unit :=
  h ← deref HEAD;
  assign i (set_next (b_next h));;
  assign i (set_prev HEAD);;
  assign i (λ b, Buf (b_flags b) NODEV (b_blockno b) (b_prev b) (b_next b) (b_data b));;
  h ← deref HEAD;
  assign (b_next h) (set_prev i);;
  assign HEAD (set_next i).

Fixpoint binit_loop (i n : nat) : M bstate unit :=
  match n with
  | O => mret tt
  | S n => binit_one i;; binit_loop (S i) n
  end.

Definition binit : M bstate unit :=
  assign HEAD (set_prev HEAD);;
  assign HEAD (set_next HEAD);;
  binit_loop 0 NBUF_n.

(** ** bget *)

(** The first loop: is the block already cached?  A buffer that is busy puts
    the caller to sleep; it starts again from the loop's head. *)
Fixpoint bget_cached (fuel b : nat) (dev blockno : Z) : M bstate (option nat) :=
  match fuel with
  | O => nofuel
  | S fuel =>
      if decide (b = HEAD) then mret None
      else
        B ← deref b;
        if (b_dev B =? dev) && (b_blockno B =? blockno) then
          if negb (flag (b_flags B) B_BUSY) then
            assign b (set_flags (Z.lor (b_flags B) B_BUSY));;
            mret (Some b)
          else sleep (Z.of_nat b)
        else bget_cached fuel (b_next B) dev blockno
  end.

(** The second loop: recycle a buffer that is neither busy nor dirty. *)
Fixpoint bget_recycle (fuel b : nat) (dev blockno : Z) : M bstate nat :=
  match fuel with
  | O => nofuel
  | S fuel =>
      if decide (b = HEAD) then panic "bget: no buffers"
      else
        B ← deref b;
        if (Z.land (b_flags B) B_BUSY =? 0) && (Z.land (b_flags B) B_DIRTY =? 0) then
          assign b (λ B, Buf B_BUSY dev blockno (b_prev B) (b_next B) (b_data B));;
          mret b
        else bget_recycle fuel (b_prev B) dev blockno
  end.

Definition bget (dev blockno : Z) : M bstate nat :=
  h ← deref HEAD;
  r ← bget_cached (S NBUF_n) (b_next h) dev blockno;
  match r with
  | Some b => mret b
  | None => h ← deref HEAD; bget_recycle (S NBUF_n) (b_prev h) dev blockno
  end.

(** ** bread, bwrite, brelse *)

Definition bio_bread (dev blockno : Z) : M bstate nat :=
  b ← bget dev blockno;
  B ← deref b;
  if negb (flag (b_flags B) B_VALID) then ide_sync b;; mret b
  else mret b.

Definition bio_bwrite (b : nat) : M bstate unit :=
  B ← deref b;
  if Z.land (b_flags B) B_BUSY =? 0 then panic "bwrite"
  else
    assign b (set_flags (Z.lor (b_flags B) B_DIRTY));;
    ide_sync b.

(** Unlinks [b] and links it behind the head. *)
Definition move_to_front (b : nat) : M bstate unit :=
  B ← deref b;
  assign (b_next B) (set_prev (b_prev B));;
  B ← deref b;
  assign (b_prev B) (set_next (b_next B));;
  h ← deref HEAD;
  assign b (set_next (b_next h));;
  assign b (set_prev HEAD);;
  h ← deref HEAD;
  assign (b_next h) (set_prev b);;
  assign HEAD (set_next b).

Definition bio_brelse (b : nat) : M bstate unit :=
  B ← deref b;
  if Z.land (b_flags B) B_BUSY =? 0 then panic "brelse"
  else
    move_to_front b;;
    assign b (λ B, set_flags (Z.land (b_flags B) (Z.lnot B_BUSY)) B).

(** Accesses of other files to a buffer they hold. *)
Definition bio_data (b : nat) : M bstate block := B ← deref b; mret (b_data B).
Definition bio_write (b : nat) (x : block) : M bstate unit := assign b (set_data x).
Definition bio_blockno (b : nat) : M bstate Z := B ← deref b; mret (b_blockno B).
Definition bio_pin (b : nat) : M bstate unit :=
  assign b (λ B, set_flags (Z.lor (b_flags B) B_DIRTY) B).
End bio.
Arguments bstate D : clear implicits.
