(* ===== verification/BioProofs.v ===== *)
(** * bio.c provides the buffer-cache interface

    The representation invariant [brep_bio] has two parts: the LRU list is a
    ring through all [NBUF] buffers ([ring]), and the buffers' contents agree
    with the abstract view ([cache_ok]).  Each operation of Bio.v is shown to
    take a represented state to the state the interface prescribes. *)

From S2P Require Import Prelude Params Disk BlockCache Bio.

Lemma land_flag f k : (Z.land f k =? 0) = negb (flag f k).
Proof. unfold flag. by rewrite negb_involutive. Qed.

(** ** The LRU list *)

Definition next_of (ns : list buf) (i : nat) : option nat := b_next <$> ns !! i.
Definition prev_of (ns : list buf) (i : nat) : option nat := b_prev <$> ns !! i.

Record ring (ns : list buf) (l : list nat) : Prop := Ring {
  ring_len : length ns = S NBUF_n;
  ring_next : path (next_of ns) HEAD l HEAD;
  ring_prev : path (prev_of ns) HEAD (reverse l) HEAD;
  ring_perm : l ≡ₚ seq 0 NBUF_n;
}.

Lemma ring_elem ns l i : ring ns l → i ∈ l ↔ (i < NBUF_n)%nat.
Proof. intros [_ _ _ ->]. rewrite elem_of_seq. lia. Qed.

Lemma ring_NoDup ns l : ring ns l → NoDup (HEAD :: l).
Proof.
  intros H. apply NoDup_cons. split.
  - rewrite (ring_elem _ _ _ H). unfold HEAD. lia.
  - rewrite (ring_perm _ _ H). apply NoDup_seq.
Qed.

Lemma ring_length ns l : ring ns l → length l = NBUF_n.
Proof. intros H. rewrite (ring_perm _ _ H). apply length_seq. Qed.

Lemma ring_lookup ns l i : ring ns l → (i ≤ NBUF_n)%nat → is_Some (ns !! i).
Proof. intros H Hi. apply lookup_lt_is_Some_2. rewrite (ring_len _ _ H). lia. Qed.

(** Changing a buffer without touching its links keeps the ring. *)
Lemma ring_insert ns l i B B' :
  ring ns l → ns !! i = Some B → b_next B' = b_next B → b_prev B' = b_prev B →
  ring (<[i := B']> ns) l.
Proof.
  intros [Hl Hn Hp Hperm] HB En Ep. pose proof (lookup_lt_Some _ _ _ HB) as Hi.
  split; [by rewrite length_insert| | |done];
    (eapply path_ext; [|done]); intros x _; unfold next_of, prev_of;
    destruct (decide (i = x)) as [<-|]; rewrite ?list_lookup_insert_ne by done;
    [|done| |done];
    rewrite list_lookup_insert_eq by done; rewrite HB; simpl; by rewrite ?En, ?Ep.
Qed.

(** Walking along the ring from the pointer [p]. *)
Fixpoint chain (f : nat → option nat) (p : nat) (r : list nat) : Prop :=
  match r with
  | [] => p = HEAD
  | x :: r => p = x ∧ x ≠ HEAD ∧ ∃ q, f x = Some q ∧ chain f q r
  end.

Lemma path_chain f a r :
  HEAD ∉ r → path f a r HEAD → ∃ p, f a = Some p ∧ chain f p r.
Proof.
  revert a. induction r as [|x r IH]; intros a Hr; simpl; [eauto|].
  intros [Ha Hp]. apply not_elem_of_cons in Hr as [Hx Hr].
  exists x. split; [done|]. split_and!; [done..|by apply IH].
Qed.

Section proofs.
Context {D : Type} `{!Disk D}.
Implicit Types (s : bstate D) (ns : list buf) (v : bview).

(** ** The scans of bget *)

Lemma bget_cached_none s p r dev bn fuel :
  chain (next_of (nodes s)) p r → (length r < fuel)%nat →
  (∀ x B, x ∈ r → nodes s !! x = Some B → ¬ (b_dev B = dev ∧ b_blockno B = bn)) →
  bget_cached fuel p dev bn s = Ok None s.
Proof.
  revert p fuel. induction r as [|x r IH]; intros p [|fuel] Hc Hf Hno; simpl in *; try lia.
  - by rewrite decide_True.
  - destruct Hc as (-> & Hx & q & Hq & Hc). rewrite decide_False by done.
    unfold next_of in Hq. destruct (nodes s !! x) as [B|] eqn:HB; [|done].
    simplify_eq/=. unfold mbind, M_bind, deref at 1. rewrite HB.
    replace ((b_dev B =? dev) && (b_blockno B =? bn)) with false.
    + apply IH; [done|lia|]. intros y B' Hy. apply Hno. by right.
    + symmetry. apply andb_false_iff. rewrite !Z.eqb_neq.
      destruct (decide (b_dev B = dev)); [|tauto]. right. intros ?.
      by apply (Hno x B); [left|..].
Qed.

Lemma bget_cached_some s p r dev bn fuel x B :
  chain (next_of (nodes s)) p r → (length r < fuel)%nat → x ∈ r →
  nodes s !! x = Some B → b_dev B = dev → b_blockno B = bn →
  (∀ y B', y ∈ r → nodes s !! y = Some B' → b_dev B' = dev → b_blockno B' = bn → y = x) →
  bget_cached fuel p dev bn s =
    if busy B then Sleep (Z.of_nat x) s
    else Ok (Some x) (set_nodes (<[x := set_flags (Z.lor (b_flags B) B_BUSY) B]> (nodes s)) s).
Proof.
  intros Hc Hf Hx HB Hdev Hbn. revert p fuel Hc Hf Hx.
  induction r as [|y r IH]; intros p [|fuel] Hc Hf Hx Huniq; simpl in *;
    try lia; [by apply elem_of_nil in Hx|].
  destruct Hc as (-> & Hy & q & Hq & Hc). rewrite decide_False by done.
  unfold next_of in Hq. destruct (nodes s !! y) as [B'|] eqn:HB'; [|done].
  simplify_eq/=. unfold mbind, M_bind, deref at 1. rewrite HB'.
  destruct (decide (x = y)) as [->|Hne].
  - simplify_eq. rewrite !Z.eqb_refl. simpl. unfold busy.
    destruct (flag (b_flags B) B_BUSY); simpl; [done|].
    unfold assign. by rewrite HB.
  - replace ((b_dev B' =? b_dev B) && (b_blockno B' =? b_blockno B)) with false.
    + apply IH; [done|lia|set_solver|]. intros z B'' Hz. apply Huniq. by right.
    + symmetry. apply andb_false_iff. rewrite !Z.eqb_neq.
      destruct (decide (b_dev B' = b_dev B)); [|tauto]. right. intros ?.
      apply Hne. symmetry. eapply Huniq; eauto. left.
Qed.

Lemma bget_recycle_ok s p r dev bn fuel x B :
  chain (prev_of (nodes s)) p r → (length r < fuel)%nat → x ∈ r →
  nodes s !! x = Some B → busy B = false → dirty B = false →
  ∃ y B', y ∈ r ∧ nodes s !! y = Some B' ∧ busy B' = false ∧ dirty B' = false ∧
    bget_recycle fuel p dev bn s =
      Ok y (set_nodes (<[y := Buf B_BUSY dev bn (b_prev B') (b_next B') (b_data B')]> (nodes s)) s).
Proof.
  intros Hc Hf Hx HB Hb Hd. revert p fuel Hc Hf Hx.
  induction r as [|y r IH]; intros p [|fuel] Hc Hf Hx; simpl in *;
    try lia; [by apply elem_of_nil in Hx|].
  destruct Hc as (-> & Hy & q & Hq & Hc). rewrite decide_False by done.
  unfold prev_of in Hq. destruct (nodes s !! y) as [B'|] eqn:HB'; [|done]. simplify_eq/=.
  destruct (busy B') eqn:Eb; [|destruct (dirty B') eqn:Ed].
  3: { exists y, B'. split_and!; [left|done..|].
       unfold mbind, M_bind, deref at 1. rewrite HB', !land_flag.
       unfold busy, dirty in Eb, Ed. rewrite Eb, Ed. simpl. unfold assign. by rewrite HB'. }
  all: destruct (IH (b_prev B') fuel Hc) as (z & C & Hz & Hc' & ? & ? & E);
    [lia|apply elem_of_cons in Hx as [->|]; [congruence|done]|];
    exists z, C; split_and!; [by right|done..|];
    unfold mbind, M_bind, deref at 1; rewrite HB', !land_flag;
    unfold busy, dirty in Eb; try (unfold dirty in Ed; rewrite Ed); rewrite Eb; simpl; exact E.
Qed.

(** ** Contents of the buffers *)

(** Buffer [i] of the array is [B]. *)
Definition node ns (i : nat) (B : buf) : Prop := (i < NBUF_n)%nat ∧ ns !! i = Some B.

Record cache_ok ns v : Prop := CacheOk {
  co_uniq i j B C : node ns i B → node ns j C →
    b_dev B = ROOTDEV → b_dev C = ROOTDEV → b_blockno B = b_blockno C → i = j;
  co_dev i B : node ns i B → valid B = true ∨ busy B = true → b_dev B = ROOTDEV;
  co_valid i B : node ns i B → busy B = true ∨ dirty B = true → valid B = true;
  co_held i b : v_held v !! i = Some b ↔
    ∃ B, node ns i B ∧ busy B = true ∧ b_blockno B = b;
  co_dirty b : b ∈ v_dirty v ↔ ∃ i B, node ns i B ∧ dirty B = true ∧ b_blockno B = b;
  co_data i B : node ns i B → valid B = true → v_view v !! b_blockno B = Some (b_data B);
  co_disk i B : node ns i B → valid B = true → dirty B = false → busy B = false →
    v_disk v !! b_blockno B = Some (b_data B);
  co_miss b : (∀ i B, node ns i B → valid B = true → b_blockno B ≠ b) →
    v_view v !! b = v_disk v !! b;
  co_dom b : is_Some (v_view v !! b) ↔ is_Some (v_disk v !! b);
}.

Definition brep_bio s v : Prop :=
  (∃ l, ring (nodes s) l) ∧ cache_ok (nodes s) v ∧
  dok (dsk s) ∧ dcontent (dsk s) = v_disk v ∧ dwrites (dsk s) = v_writes v.

Lemma node_insert ns i j B B0 C :
  node ns i B0 → node (<[i := B]> ns) j C ↔ (j = i ∧ C = B) ∨ (j ≠ i ∧ node ns j C).
Proof.
  intros [Hi HB0]. unfold node. pose proof (lookup_lt_Some _ _ _ HB0).
  destruct (decide (i = j)) as [<-|Hne].
  - rewrite list_lookup_insert_eq by done. naive_solver.
  - rewrite list_lookup_insert_ne by done. naive_solver.
Qed.

Lemma node_inj ns i B C : node ns i B → node ns i C → B = C.
Proof. intros [_ H1] [_ H2]. congruence. Qed.

(** A buffer is (re)used for block [b] and handed to the caller. *)
Lemma cache_ok_hold ns v x B0 B' b :
  cache_ok ns v → node ns x B0 → busy B0 = false →
  b_dev B' = ROOTDEV → b_blockno B' = b → busy B' = true → valid B' = true →
  dirty B' = dirty B0 → (dirty B0 = true → b_blockno B0 = b) →
  v_view v !! b = Some (b_data B') →
  (∀ j B, node ns j B → j ≠ x → b_dev B = ROOTDEV → b_blockno B ≠ b) →
  cache_ok (<[x := B']> ns) (set_held (<[x := b]> (v_held v)) v).
Proof.
  intros Hok Hx Hb0 Hdev Hbn Hbusy Hval Hdty Hsame Hview Hother.
  assert (∀ j C, node (<[x := B']> ns) j C ↔ (j = x ∧ C = B') ∨ (j ≠ x ∧ node ns j C))
    as Hn by (intros; eapply node_insert; eauto).
  split; simpl.
  - intros i j B C. rewrite !Hn.
    intros [[-> ->]|[Hi HB]] [[-> ->]|[Hj HC]] Hd1 Hd2 E; [done|..].
    + exfalso. apply (Hother j C); auto. congruence.
    + exfalso. apply (Hother i B); auto. congruence.
    + by eapply (co_uniq _ _ Hok).
  - intros i B. rewrite Hn. intros [[-> ->]|[? ?]]; [done|]. by apply (co_dev _ _ Hok i).
  - intros i B. rewrite Hn. intros [[-> ->]|[? ?]]; [done|]. by apply (co_valid _ _ Hok i).
  - intros i b'. destruct (decide (i = x)) as [->|Hne].
    + rewrite lookup_insert_eq. split.
      * intros [= <-]. exists B'. rewrite Hn. eauto.
      * intros (C & [[_ ->]|[? ?]]%Hn & _ & <-); [by rewrite Hbn|done].
    + rewrite lookup_insert_ne by done. rewrite (co_held _ _ Hok).
      split; intros (C & HC & ?); exists C; rewrite Hn in *; naive_solver.
  - intros b'. rewrite (co_dirty _ _ Hok). split.
    + intros (i & C & HC & HCd & HCb). destruct (decide (i = x)) as [->|Hne].
      * pose proof (node_inj _ _ _ _ Hx HC) as <-. exists x, B'. rewrite Hn.
        split_and!; [by left|congruence|]. rewrite Hbn, <- HCb. symmetry. auto.
      * exists i, C. rewrite Hn. eauto.
    + intros (i & C & [[-> ->]|[? HC]]%Hn & HCd & HCb); [|eauto 6].
      exists x, B0. split_and!; [done|congruence|]. rewrite Hsame; congruence.
  - intros i B. rewrite Hn. intros [[-> ->]|[? ?]]; [by rewrite Hbn|].
    by apply (co_data _ _ Hok i).
  - intros i B. rewrite Hn. intros [[-> ->]|[? ?]]; [congruence|].
    by apply (co_disk _ _ Hok i).
  - intros b' Hmiss.
    assert (b ≠ b') as Hne.
    { intros <-. apply (Hmiss x B'); [rewrite Hn; by left|done..]. }
    destruct (valid B0) eqn:Hv0; [destruct (decide (b_blockno B0 = b')) as [<-|Hne']|].
    + rewrite (co_data _ _ Hok x B0) by done. symmetry.
      apply (co_disk _ _ Hok x B0); [done..| |done].
      destruct (dirty B0) eqn:?; [|done]. exfalso. apply Hne. symmetry. auto.
    + apply (co_miss _ _ Hok). intros i B HB HBv.
      destruct (decide (i = x)) as [->|]; [by rewrite (node_inj _ _ _ _ HB Hx)|].
      apply (Hmiss i B); [rewrite Hn; by right|done].
    + apply (co_miss _ _ Hok). intros i B HB HBv.
      destruct (decide (i = x)) as [->|]; [rewrite (node_inj _ _ _ _ HB Hx) in HBv; congruence|].
      apply (Hmiss i B); [rewrite Hn; by right|done].
  - apply (co_dom _ _ Hok).
Qed.

(** A held buffer is changed in place: [B] becomes [B']. *)
Lemma cache_ok_change ns v v' x B B' b :
  cache_ok ns v → node ns x B → busy B = true → b_blockno B = b →
  b_dev B' = b_dev B → b_blockno B' = b → valid B' = true →
  v_held v' = (if busy B' then v_held v else delete x (v_held v)) →
  v_dirty v' = (if dirty B' then {[b]} ∪ v_dirty v else v_dirty v ∖ {[b]}) →
  v_view v' = <[b := b_data B']> (v_view v) →
  (∀ b', b' ≠ b → v_disk v' !! b' = v_disk v !! b') → is_Some (v_disk v' !! b) →
  (busy B' = false → dirty B' = false → v_disk v' !! b = Some (b_data B')) →
  cache_ok (<[x := B']> ns) v'.
Proof.
  intros Hok Hx Hbusy Hb Hdev Hbn' Hval Hheld Hdty Hview Hdisk Hdom Hclean.
  assert (b_dev B = ROOTDEV) as HdevB by (eapply (co_dev _ _ Hok); eauto).
  assert (∀ j C, node (<[x := B']> ns) j C ↔ (j = x ∧ C = B') ∨ (j ≠ x ∧ node ns j C))
    as Hn by (intros; eapply node_insert; eauto).
  assert (∀ j C, node ns j C → j ≠ x → b_dev C = ROOTDEV → b_blockno C ≠ b) as Hother.
  { intros j C HC Hj HdevC E. apply Hj. eapply (co_uniq _ _ Hok); eauto. congruence. }
  assert (∀ j C, node ns j C → j ≠ x → valid C = true → b_blockno C ≠ b) as Hother'.
  { intros j C HC Hj HC'. apply (Hother j); [done..|]. eapply (co_dev _ _ Hok); eauto. }
  split.
  - intros i j C1 C2. rewrite !Hn.
    intros [[-> ->]|[Hi HC1]] [[-> ->]|[Hj HC2]] Hd1 Hd2 E; [done|..].
    + exfalso. apply (Hother j C2); auto. congruence.
    + exfalso. apply (Hother i C1); auto. congruence.
    + by eapply (co_uniq _ _ Hok).
  - intros i C. rewrite Hn. intros [[-> ->]|[? ?]]; [by rewrite Hdev|].
    by apply (co_dev _ _ Hok i).
  - intros i C. rewrite Hn. intros [[-> ->]|[? ?]]; [done|]. by apply (co_valid _ _ Hok i).
  - intros i b'. destruct (decide (i = x)) as [->|Hne].
    + rewrite Hheld. destruct (busy B') eqn:E.
      * rewrite (co_held _ _ Hok). split.
        -- intros (C & HC & ? & <-). rewrite (node_inj _ _ _ _ HC Hx).
           exists B'. rewrite Hn, Hbn', Hb. eauto.
        -- intros (C & [[_ ->]|[? ?]]%Hn & _ & <-); [|done]. exists B. by rewrite Hbn', Hb.
      * rewrite lookup_delete_eq. split; [done|].
        intros (C & [[_ ->]|[? ?]]%Hn & ? & <-); congruence.
    + assert (v_held v' !! i = v_held v !! i) as ->.
      { rewrite Hheld. destruct (busy B'); [done|]. by rewrite lookup_delete_ne. }
      rewrite (co_held _ _ Hok).
      split; intros (C & HC & ?); exists C; rewrite Hn in *; naive_solver.
  - intros b'. rewrite Hdty. destruct (decide (b' = b)) as [->|Hne].
    + destruct (dirty B') eqn:E; split; [|set_solver|set_solver|].
      * intros _. exists x, B'. rewrite Hn. eauto.
      * intros (i & C & [[-> ->]|[Hi HC]]%Hn & ? & ?); [congruence|].
        exfalso. apply (Hother' i C); [done..| |done]. eapply (co_valid _ _ Hok); eauto.
    + trans (b' ∈ v_dirty v); [destruct (dirty B'); set_solver|].
      rewrite (co_dirty _ _ Hok). split; intros (i & C & HC & ? & ?); exists i, C;
        rewrite Hn in *; [|naive_solver].
      split_and!; [right|done..]. split; [|done]. intros ->.
      rewrite (node_inj _ _ _ _ HC Hx) in *. congruence.
  - intros i C. rewrite Hn, Hview. intros [[-> ->]|[? HC]] HCv.
    + by rewrite Hbn', lookup_insert_eq.
    + rewrite lookup_insert_ne by (symmetry; eauto). by apply (co_data _ _ Hok i).
  - intros i C. rewrite Hn. intros [[-> ->]|[? HC]] HCv ??.
    + rewrite Hbn'. auto.
    + rewrite Hdisk by eauto. by apply (co_disk _ _ Hok i).
  - intros b' Hmiss. assert (b' ≠ b) as Hne.
    { intros ->. apply (Hmiss x B'); [rewrite Hn; by left|done..]. }
    rewrite Hview, Hdisk, lookup_insert_ne by done. apply (co_miss _ _ Hok).
    intros i C HC HCv. destruct (decide (i = x)) as [->|].
    + rewrite (node_inj _ _ _ _ HC Hx). congruence.
    + apply (Hmiss i C); [rewrite Hn; by right|done].
  - intros b'. rewrite Hview. destruct (decide (b' = b)) as [->|Hne].
    + rewrite lookup_insert_eq. split; eauto.
    + rewrite Hdisk, lookup_insert_ne by done. apply (co_dom _ _ Hok).
Qed.

(** What a held buffer looks like. *)
Lemma held_node s v i b :
  brep_bio s v → v_held v !! i = Some b →
  ∃ B, node (nodes s) i B ∧ busy B = true ∧ valid B = true ∧ b_blockno B = b ∧
    b_dev B = ROOTDEV ∧ v_view v !! b = Some (b_data B) ∧ is_Some (v_disk v !! b) ∧
    (b ∈ v_dirty v ↔ dirty B = true).
Proof.
  intros (_ & Hok & _) H. apply (co_held _ _ Hok) in H as (B & HB & Hb & <-).
  pose proof (co_valid _ _ Hok _ _ HB (or_introl Hb)) as Hv.
  pose proof (co_dev _ _ Hok _ _ HB (or_introl Hv)) as Hd.
  pose proof (co_data _ _ Hok _ _ HB Hv) as Hdata.
  exists B. split_and!; try done.
  - apply (co_dom _ _ Hok). rewrite Hdata. eauto.
  - rewrite (co_dirty _ _ Hok). split; [|eauto].
    intros (j & C & HC & HCd & E).
    assert (j = i) as ->.
    { eapply (co_uniq _ _ Hok); eauto.
      eapply (co_dev _ _ Hok); [done|]. left. eapply (co_valid _ _ Hok); eauto. }
    by rewrite (node_inj _ _ _ _ HB HC).
Qed.

(** ** Accesses to a held buffer *)

Lemma assign_ok s i f B :
  nodes s !! i = Some B → assign i f s = Ok tt (set_nodes (<[i := f B]> (nodes s)) s).
Proof. intros H. unfold assign. by rewrite H. Qed.

Lemma deref_ok s i B : nodes s !! i = Some B → deref i s = Ok B s.
Proof. intros H. unfold deref. by rewrite H. Qed.

Lemma brep_change s v v' i B B' d' :
  brep_bio s v → node (nodes s) i B → b_prev B' = b_prev B → b_next B' = b_next B →
  cache_ok (<[i := B']> (nodes s)) v' →
  dok d' → dcontent d' = v_disk v' → dwrites d' = v_writes v' →
  brep_bio (BState (<[i := B']> (nodes s)) d') v'.
Proof.
  intros ((l & Hl) & _) [_ HB] ?? Hok ???. split_and!; [|done..].
  exists l. by eapply ring_insert.
Qed.

Lemma bio_data_ok s v i b x :
  brep_bio s v → v_held v !! i = Some b → v_view v !! b = Some x → bio_data i s = Ok x s.
Proof.
  intros H Hi Hx. destruct (held_node _ _ _ _ H Hi) as (B & [_ HB] & _ & _ & _ & _ & Hv & _).
  unfold bio_data. mstep (deref_ok _ _ _ HB). munfold. congruence.
Qed.

Lemma bio_blockno_ok s v i b :
  brep_bio s v → v_held v !! i = Some b → bio_blockno i s = Ok b s.
Proof.
  intros H Hi. destruct (held_node _ _ _ _ H Hi) as (B & [_ HB] & _ & _ & Hb & _).
  unfold bio_blockno. mstep (deref_ok _ _ _ HB). munfold. congruence.
Qed.

Lemma dirty_same v b (p : bool) :
  (b ∈ v_dirty v ↔ p = true) →
  v_dirty v = if p then {[b]} ∪ v_dirty v else v_dirty v ∖ {[b]}.
Proof. intros H. apply set_eq. intros y. destruct p; set_solver. Qed.

Lemma bio_write_ok s v i b x :
  brep_bio s v → v_held v !! i = Some b →
  ∃ s', bio_write i x s = Ok tt s' ∧ brep_bio s' (set_view (<[b := x]> (v_view v)) v).
Proof.
  intros H Hi. destruct (held_node _ _ _ _ H Hi)
    as (B & HB & Hb & Hv & Hbn & Hdev & Hview & Hdisk & Hdty).
  pose proof H as (_ & Hok & Hd & Hc & Hw).
  eexists. split; [by apply assign_ok, HB|].
  eapply brep_change; [done|done|done|done| |done..].
  eapply cache_ok_change; [done|done|done|done|done|done|done| | |done|done|done|].
  - unfold busy in *. simpl. by rewrite Hb.
  - exact (dirty_same v b (dirty B) Hdty).
  - unfold busy in *. simpl. congruence.
Qed.

Lemma bio_pin_ok s v i b :
  brep_bio s v → v_held v !! i = Some b →
  ∃ s', bio_pin i s = Ok tt s' ∧ brep_bio s' (set_dirty ({[b]} ∪ v_dirty v) v).
Proof.
  intros H Hi. destruct (held_node _ _ _ _ H Hi)
    as (B & HB & Hb & Hv & Hbn & Hdev & Hview & Hdisk & Hdty).
  pose proof H as (_ & Hok & Hd & Hc & Hw).
  eexists. split; [by apply assign_ok, HB|].
  eapply brep_change; [done|done|done|done| |done..].
  assert (busy (set_flags (Z.lor (b_flags B) B_DIRTY) B) = true) as Eb
    by (unfold busy; simpl; by rewrite flag_or).
  assert (dirty (set_flags (Z.lor (b_flags B) B_DIRTY) B) = true) as Ed
    by (unfold dirty; simpl; by rewrite flag_or).
  eapply cache_ok_change; [done|done|done|done|done|done| | | | |done|done|congruence].
  - unfold valid in *. simpl. by rewrite flag_or.
  - by rewrite Eb.
  - by rewrite Ed.
  - simpl. by rewrite insert_id.
Qed.

Lemma zoom_iderw s b b' d' :
  iderw b (dsk s) = Ok b' d' →
  zoom dsk (λ d s, BState (nodes s) d) (iderw b) s = Ok b' (BState (nodes s) d').
Proof. intros H. unfold zoom. by rewrite H. Qed.

(** ** bwrite *)

Lemma bio_bwrite_ok s v i b x :
  brep_bio s v → v_held v !! i = Some b → v_view v !! b = Some x →
  ∃ s', bio_bwrite i s = Ok tt s' ∧ brep_bio s' (written b x v).
Proof.
  intros H Hi Hx. destruct (held_node _ _ _ _ H Hi)
    as (B & HB & Hb & Hv & Hbn & Hdev & Hview & [y Hdisk] & Hdty).
  rewrite Hx in Hview. simplify_eq.
  pose proof H as (_ & Hok & Hd & Hc & Hw). pose proof HB as [Hlt HB'].
  pose proof (lookup_lt_Some _ _ _ HB') as Hlen.
  set (B1 := set_flags (Z.lor (b_flags B) B_DIRTY) B).
  destruct (iderw_write (dsk s) B1 y) as (d' & Hrw & Hd' & Hc' & Hw');
    [done|unfold busy, B1; simpl; by rewrite flag_or
    |unfold dirty, B1; simpl; by rewrite flag_or|done|by rewrite Hc|].
  set (B2 := set_flags _ B1) in Hrw.
  assert (busy B2 = true ∧ valid B2 = true ∧ dirty B2 = false) as (Eb & Ev & Ed).
  { unfold busy, valid, dirty, B2, B1 in *. simpl.
    rewrite !flag_or, !flag_clear, !flag_or by done. simpl.
    by rewrite Hb, ?orb_true_r. }
  eexists. split.
  - unfold bio_bwrite. mstep (deref_ok _ _ _ HB'). rewrite land_flag.
    unfold busy in Hb. rewrite Hb. simpl.
    mstep (assign_ok s i (set_flags (Z.lor (b_flags B) B_DIRTY)) B HB').
    unfold ide_sync. rewrite (bind_ok _ _ _ B1 _)
      by (apply deref_ok; simpl; by apply list_lookup_insert_eq).
    rewrite (bind_ok _ _ _ _ _ (zoom_iderw (set_nodes _ s) _ _ _ Hrw)).
    erewrite assign_ok by (simpl; by apply list_lookup_insert_eq).
    simpl. rewrite list_insert_insert_eq. unfold set_nodes. simpl. done.
  - eapply brep_change; [done|done|done|done| |done|simpl; by rewrite Hc', Hc
      |simpl; by rewrite Hw', Hw].
    eapply cache_ok_change; [done|done|done|done|done|done|done| | | | | |].
    + by rewrite Eb.
    + by rewrite Ed.
    + simpl. by rewrite insert_id.
    + intros b' ?. simpl. by rewrite lookup_insert_ne.
    + simpl. rewrite lookup_insert_eq. eauto.
    + congruence.
Qed.

(** ** brelse *)

(** The fields of a buffer other than its links. *)
Definition core (B : buf) : Z * Z * Z * block :=
  (b_flags B, b_dev B, b_blockno B, b_data B).
Definition core_of ns (i : nat) := core <$> ns !! i.

Lemma assign_next s i n :
  (i < length (nodes s))%nat →
  ∃ ns, assign i (set_next n) s = Ok tt (set_nodes ns s) ∧
    length ns = length (nodes s) ∧
    (∀ j, next_of ns j = if decide (j = i) then Some n else next_of (nodes s) j) ∧
    (∀ j, prev_of ns j = prev_of (nodes s) j) ∧ (∀ j, core_of ns j = core_of (nodes s) j).
Proof.
  intros Hi. destruct (lookup_lt_is_Some_2 _ _ Hi) as [B HB].
  eexists. split; [by apply assign_ok|]. rewrite length_insert.
  unfold next_of, prev_of, core_of.
  split_and!; [done|..]; intros j; destruct (decide (j = i)) as [->|];
    rewrite ?list_lookup_insert_eq, ?list_lookup_insert_ne, ?HB by done; done.
Qed.

Lemma assign_prev s i n :
  (i < length (nodes s))%nat →
  ∃ ns, assign i (set_prev n) s = Ok tt (set_nodes ns s) ∧
    length ns = length (nodes s) ∧
    (∀ j, prev_of ns j = if decide (j = i) then Some n else prev_of (nodes s) j) ∧
    (∀ j, next_of ns j = next_of (nodes s) j) ∧ (∀ j, core_of ns j = core_of (nodes s) j).
Proof.
  intros Hi. destruct (lookup_lt_is_Some_2 _ _ Hi) as [B HB].
  eexists. split; [by apply assign_ok|]. rewrite length_insert.
  unfold next_of, prev_of, core_of.
  split_and!; [done|..]; intros j; destruct (decide (j = i)) as [->|];
    rewrite ?list_lookup_insert_eq, ?list_lookup_insert_ne, ?HB by done; done.
Qed.

Lemma deref_links s i n p :
  next_of (nodes s) i = Some n → prev_of (nodes s) i = Some p →
  ∃ B, deref i s = Ok B s ∧ b_next B = n ∧ b_prev B = p.
Proof.
  unfold next_of, prev_of, deref. destruct (nodes s !! i); naive_solver.
Qed.

(** The effect of the six pointer assignments, in terms of the neighbours
    [P] and [N] of [b] and the first buffer [F] once [b] is unlinked. *)
Lemma move_to_front_links s b P N F :
  length (nodes s) = S NBUF_n → (b < NBUF_n)%nat →
  next_of (nodes s) b = Some N → prev_of (nodes s) b = Some P →
  (if decide (HEAD = P) then Some N else next_of (nodes s) HEAD) = Some F →
  (P ≤ NBUF_n)%nat → (N ≤ NBUF_n)%nat → (F ≤ NBUF_n)%nat → P ≠ b → N ≠ b → F ≠ b →
  ∃ ns, move_to_front b s = Ok tt (set_nodes ns s) ∧ length ns = S NBUF_n ∧
    (∀ j, next_of ns j = if decide (j = HEAD) then Some b else if decide (j = b) then Some F
       else if decide (j = P) then Some N else next_of (nodes s) j) ∧
    (∀ j, prev_of ns j = if decide (j = F) then Some b else if decide (j = b) then Some HEAD
       else if decide (j = N) then Some P else prev_of (nodes s) j) ∧
    (∀ j, core_of ns j = core_of (nodes s) j).
Proof.
  intros Hlen Hb HN HP HF HP' HN' HF' HPb HNb HFb.
  assert (HEAD ≠ b) as Hhb by (unfold HEAD; lia).
  unfold move_to_front.
  destruct (deref_links _ _ _ _ HN HP) as (B & HB & E1 & E2). mstep HB. rewrite E1, E2.
  destruct (assign_prev s N P) as (n1 & A1 & L1 & V1 & X1 & C1); [lia|]. mstep A1.
  destruct (deref_links (set_nodes n1 s) b N P) as (B' & HB' & E1' & E2');
    [simpl; rewrite X1; done|simpl; rewrite V1, decide_False by done; done|].
  mstep HB'. rewrite E1', E2'.
  destruct (assign_next (set_nodes n1 s) P N) as (n2 & A2 & L2 & X2 & V2 & C2);
    [simpl; lia|]. mstep A2.
  assert (∃ h, prev_of n2 HEAD = Some h) as [h Hh].
  { rewrite V2. simpl. rewrite V1. destruct (decide (HEAD = N)); [eauto|]. unfold prev_of.
    destruct (nodes s !! HEAD) eqn:E; [by eexists|].
    apply lookup_ge_None in E. unfold HEAD in E. lia. }
  destruct (deref_links (set_nodes n2 s) HEAD F h) as (H1 & HH1 & E3 & _); [|done|].
  { simpl. rewrite X2. simpl. rewrite X1. done. }
  mstep HH1. rewrite E3.
  destruct (assign_next (set_nodes n2 s) b F) as (n3 & A3 & L3 & X3 & V3 & C3);
    [simpl in *; lia|]. simpl in A3. mstep A3.
  destruct (assign_prev (set_nodes n3 s) b HEAD) as (n4 & A4 & L4 & V4 & X4 & C4);
    [simpl in *; lia|]. mstep A4.
  destruct (deref_links (set_nodes n4 s) HEAD F h) as (H2 & HH2 & E4 & _).
  { simpl. rewrite X4. simpl. rewrite X3, decide_False by done. simpl.
    rewrite X2. simpl. rewrite X1. done. }
  { simpl. rewrite V4, decide_False by done. simpl. rewrite V3. done. }
  mstep HH2. rewrite E4.
  destruct (assign_prev (set_nodes n4 s) F b) as (n5 & A5 & L5 & V5 & X5 & C5);
    [simpl in *; lia|]. mstep A5.
  destruct (assign_next (set_nodes n5 s) HEAD b) as (n6 & A6 & L6 & X6 & V6 & C6);
    [simpl in *; unfold HEAD; lia|].
  exists n6. simpl in *. split; [done|]. split_and!; [lia|..]; intros j.
  - rewrite X6, X5, X4, X3, X2, X1. done.
  - rewrite V6, V5, V4, V3, V2, V1. done.
  - rewrite C6, C5, C4, C3, C2, C1. done.
Qed.

Lemma move_to_front_ring s l1 b l2 :
  ring (nodes s) (l1 ++ b :: l2) →
  ∃ ns, move_to_front b s = Ok tt (set_nodes ns s) ∧ ring ns (b :: l1 ++ l2) ∧
    (∀ j, core_of ns j = core_of (nodes s) j).
Proof.
  intros Hr. pose proof (ring_NoDup _ _ Hr) as Hnd.
  assert (∀ x, x ∈ l1 ++ b :: l2 ↔ (x < NBUF_n)%nat) as Hel
    by (intros; by apply (ring_elem (nodes s))).
  assert (b < NBUF_n)%nat as Hb by (apply Hel; set_solver).
  assert (HEAD ≠ b) as Hhb by (unfold HEAD; lia).
  pose proof (ring_next _ _ Hr) as Hnx. pose proof (ring_prev _ _ Hr) as Hpv.
  assert (reverse l2 ++ b :: reverse l1 = reverse (l1 ++ b :: l2)) as Hrev
    by (by rewrite reverse_app, reverse_cons, <- app_assoc).
  rewrite <- Hrev in Hpv.
  pose proof (proj1 (path_app _ _ _ _ _ _) Hnx) as [Hnx1 Hnx2].
  pose proof (proj1 (path_app _ _ _ _ _ _) Hpv) as [Hpv1 Hpv2].
  set (P := last_of HEAD l1). set (N := last_of HEAD (reverse l2)).
  set (F := last_of HEAD (reverse (l1 ++ l2))).
  pose proof (path_first _ _ _ _ Hnx2) as HN. fold N in HN.
  pose proof (path_first _ _ _ _ Hpv2) as HP. rewrite reverse_involutive in HP. fold P in HP.
  assert (b ∉ HEAD :: l1 ++ l2) as Hbn.
  { rewrite app_comm_cons in Hnd. apply NoDup_app in Hnd as (? & Hd & Hnd2).
    apply NoDup_cons in Hnd2 as [? _]. rewrite not_elem_of_cons, not_elem_of_app.
    split_and!; [done| |done]. intros ?. apply (Hd b); set_solver. }
  assert (NoDup (HEAD :: l1 ++ l2)) as Hnd'.
  { eapply sublist_NoDup; [exact Hnd|]. apply sublist_skip, sublist_app; [done|].
    by apply sublist_cons. }
  assert (P ∈ HEAD :: l1) as HPe by apply last_of_elem.
  assert (N ∈ HEAD :: l2) as HNe.
  { pose proof (last_of_elem HEAD (reverse l2)) as H. fold N in H. revert H.
    rewrite !elem_of_cons, elem_of_reverse. done. }
  assert (F ∈ HEAD :: l1 ++ l2) as HFe.
  { pose proof (last_of_elem HEAD (reverse (l1 ++ l2))) as H. fold F in H. revert H.
    rewrite !elem_of_cons, elem_of_reverse. done. }
  assert (∀ x, x ∈ HEAD :: l1 ++ l2 → (x ≤ NBUF_n)%nat) as Hle.
  { intros x [->|Hx]%elem_of_cons; [done|]. assert (x < NBUF_n)%nat; [|lia].
    apply Hel. set_solver. }
  assert ((if decide (HEAD = P) then Some N else next_of (nodes s) HEAD) = Some F) as HF.
  { destruct l1 as [|y l1].
    - destruct (decide (HEAD = P)) as [|Hne]; [done|by destruct Hne].
    - assert (HEAD ≠ P) as Hne.
      { unfold P. rewrite last_of_cons. intros E. apply NoDup_cons in Hnd as [Hnd _].
        apply Hnd. rewrite E. pose proof (last_of_elem y l1). set_solver. }
      rewrite decide_False by done. rewrite (path_first _ _ _ _ Hnx1).
      unfold F. simpl. rewrite !reverse_cons, !last_of_snoc. done. }
  destruct (move_to_front_links s b P N F) as (ns & E & Hlen & Hn' & Hp' & Hcore);
    [apply (ring_len _ _ Hr)|done|done|done|done|apply Hle; set_solver
    |apply Hle; set_solver|by apply Hle|set_solver|set_solver|set_solver|].
  exists ns. split; [done|]. split; [|done]. split; [done|..].
  - eapply (path_push (λ x, if decide (x = P) then Some N else next_of (nodes s) x)).
    + eapply path_unlink; [done|done| |].
      * simpl. by rewrite decide_True.
      * intros x _ Hx. by rewrite decide_False.
    + done.
    + by apply NoDup_cons in Hnd' as [? _].
    + rewrite Hn'. by rewrite decide_True.
    + rewrite Hn', decide_False, decide_True by done. symmetry. exact HF.
    + intros x Hx. rewrite Hn', (decide_False (P := x = HEAD)), (decide_False (P := x = b));
        [done|set_solver|]. intros ->. by apply NoDup_cons in Hnd' as [? _].
  - rewrite reverse_cons, reverse_app.
    assert (reverse l2 ++ reverse l1 ≡ₚ l1 ++ l2) as Hperm
      by (rewrite <- reverse_app; apply reverse_Permutation).
    eapply (path_snoc (λ x, if decide (x = N) then Some P else prev_of (nodes s) x)).
    + by rewrite Hperm.
    + eapply path_unlink.
      * by rewrite Hrev, reverse_Permutation.
      * exact Hpv.
      * simpl. by rewrite decide_True.
      * intros x _ Hx. by rewrite decide_False.
    + by rewrite Hperm.
    + rewrite Hp', decide_True; [done|]. unfold F. by rewrite reverse_app.
    + rewrite Hp', decide_False, decide_True by set_solver. done.
    + intros x Hx HxF. rewrite Hperm in Hx.
      rewrite Hp', (decide_False (P := x = F)), (decide_False (P := x = b)); [done|set_solver|].
      intros ->. apply HxF. unfold F. by rewrite reverse_app.
  - rewrite <- (ring_perm _ _ Hr). by rewrite Permutation_middle.
Qed.

(** The contents of the buffers do not depend on the links. *)
Lemma node_core ns ns' i B :
  (∀ j, core_of ns' j = core_of ns j) → node ns' i B →
  ∃ C, node ns i C ∧ core C = core B.
Proof.
  intros Hc [Hi HB]. specialize (Hc i). unfold core_of in Hc. rewrite HB in Hc.
  destruct (ns !! i) as [C|] eqn:HC; [|done]. apply (inj Some) in Hc. by exists C.
Qed.

Lemma cache_ok_core ns ns' v :
  (∀ j, core_of ns' j = core_of ns j) → cache_ok ns v → cache_ok ns' v.
Proof.
  intros Hc Hok.
  assert (∀ i B, node ns' i B → ∃ C, node ns i C ∧ b_flags C = b_flags B ∧
    b_dev C = b_dev B ∧ b_blockno C = b_blockno B ∧ b_data C = b_data B) as H1.
  { intros i B (C & ? & [= ????])%(node_core _ _ _ _ Hc). by exists C. }
  assert (∀ i B, node ns i B → ∃ C, node ns' i C ∧ b_flags C = b_flags B ∧
    b_dev C = b_dev B ∧ b_blockno C = b_blockno B ∧ b_data C = b_data B) as H2.
  { intros i B (C & ? & [= ????])%(node_core ns' ns _ _ (λ j, eq_sym (Hc j))). by exists C. }
  split; unfold busy, valid, dirty.
  - intros i j B C (B' & HB & _ & Ed & Eb & _)%H1 (C' & HC & _ & Ed' & Eb' & _)%H1 ???.
    eapply (co_uniq _ _ Hok i j B' C'); congruence.
  - intros i B (B' & HB & Ef & Ed & _)%H1 ?. rewrite <- Ed.
    eapply (co_dev _ _ Hok i); [done|]. unfold busy, valid. by rewrite Ef.
  - intros i B (B' & HB & Ef & _)%H1 ?. rewrite <- Ef.
    eapply (co_valid _ _ Hok i); [done|]. unfold busy, dirty. by rewrite Ef.
  - intros i b. rewrite (co_held _ _ Hok). unfold busy. split.
    + intros (B & (B' & HB & Ef & _ & Eb & _)%H2 & ? & <-). exists B'. by rewrite Ef, Eb.
    + intros (B & (B' & HB & Ef & _ & Eb & _)%H1 & ? & <-). exists B'. by rewrite Ef, Eb.
  - intros b. rewrite (co_dirty _ _ Hok). unfold dirty. split.
    + intros (i & B & (B' & HB & Ef & _ & Eb & _)%H2 & ? & <-). exists i, B'. by rewrite Ef, Eb.
    + intros (i & B & (B' & HB & Ef & _ & Eb & _)%H1 & ? & <-). exists i, B'. by rewrite Ef, Eb.
  - intros i B (B' & HB & Ef & _ & Eb & Ex)%H1 ?. rewrite <- Eb, <- Ex.
    apply (co_data _ _ Hok i); [done|]. unfold valid. by rewrite Ef.
  - intros i B (B' & HB & Ef & _ & Eb & Ex)%H1 ???. rewrite <- Eb, <- Ex.
    apply (co_disk _ _ Hok i); unfold valid, dirty, busy; by rewrite ?Ef.
  - intros b Hm. apply (co_miss _ _ Hok).
    intros i B (B' & HB & Ef & _ & Eb & _)%H2 Hv. rewrite <- Eb.
    apply (Hm i); [done|]. rewrite Ef. exact Hv.
  - apply (co_dom _ _ Hok).
Qed.

Lemma bio_brelse_ok s v i b :
  brep_bio s v → v_held v !! i = Some b →
  b ∈ v_dirty v ∨ v_view v !! b = v_disk v !! b →
  ∃ s', bio_brelse i s = Ok tt s' ∧ brep_bio s' (set_held (delete i (v_held v)) v).
Proof.
  intros H Hi Hclean. destruct (held_node _ _ _ _ H Hi)
    as (B & [Hlt HB] & Hb & _). pose proof H as ((l & Hl) & Hok & Hd & Hc & Hw).
  destruct (list_elem_of_split l i) as (l1 & l2 & ->); [by apply (ring_elem _ _ _ Hl)|].
  destruct (move_to_front_ring _ _ _ _ Hl) as (ns & E & Hring & Hcore).
  assert (brep_bio (set_nodes ns s) v) as H'.
  { split_and!; [by eexists|by eapply cache_ok_core|done..]. }
  destruct (held_node _ _ _ _ H' Hi)
    as (C & HC & Cb & Cv & Cbn & Cdev & Cview & Cdisk & Cdty). simpl in HC.
  eexists. split.
  - unfold bio_brelse. mstep (deref_ok _ _ _ HB). rewrite land_flag. unfold busy in Hb.
    rewrite Hb. simpl. mstep E. by apply assign_ok, HC.
  - set (f := Z.land (b_flags C) (Z.lnot B_BUSY)).
    assert (busy (set_flags f C) = false ∧ valid (set_flags f C) = true ∧
      dirty (set_flags f C) = dirty C) as (Eb & Ev & Ed).
    { unfold busy, valid, dirty, f in *. simpl. rewrite !flag_clear by done. done. }
    eapply (brep_change (set_nodes ns s) v _ i C (set_flags f C)); [done|done|done|done| |done..].
    eapply cache_ok_change; [apply H'|done|done|done|done|done|done| | | |done|done|].
    + by rewrite Eb.
    + rewrite Ed. exact (dirty_same v b (dirty C) Cdty).
    + simpl. by rewrite insert_id.
    + intros _ E'. rewrite Ed in E'. simpl. destruct Hclean as [?%Cdty|<-]; [congruence|done].
Qed.

(** ** bget *)

Lemma ring_node ns l x : ring ns l → x ∈ l → ∃ B, node ns x B.
Proof.
  intros Hl Hx. rewrite (ring_elem _ _ _ Hl) in Hx.
  destruct (ring_lookup _ _ x Hl) as [B HB]; [lia|]. by exists B.
Qed.

Lemma ring_chains ns l :
  ring ns l → ∃ h, ns !! HEAD = Some h ∧
    chain (next_of ns) (b_next h) l ∧ chain (prev_of ns) (b_prev h) (reverse l).
Proof.
  intros Hl. pose proof (ring_NoDup _ _ Hl) as [Hh _]%NoDup_cons.
  destruct (path_chain _ _ _ Hh (ring_next _ _ Hl)) as (p & Hp & Hc).
  destruct (path_chain (prev_of ns) HEAD (reverse l)) as (q & Hq & Hc');
    [by rewrite elem_of_reverse|apply (ring_prev _ _ Hl)|].
  unfold next_of, prev_of in Hp, Hq.
  destruct (ns !! HEAD) as [h|] eqn:E; simplify_eq/=. eauto.
Qed.

(** The block is cached. *)
Lemma bget_hit s v x B :
  brep_bio s v → node (nodes s) x B → b_dev B = ROOTDEV →
  bget ROOTDEV (b_blockno B) s =
    if busy B then Sleep (Z.of_nat x) s
    else Ok x (set_nodes (<[x := set_flags (Z.lor (b_flags B) B_BUSY) B]> (nodes s)) s).
Proof.
  intros ((l & Hl) & Hok & _) [Hlt HB] Hdev.
  destruct (ring_chains _ _ Hl) as (h & Hh & Hc & _).
  pose proof (bget_cached_some s (b_next h) l ROOTDEV (b_blockno B) (S NBUF_n) x B) as E.
  unfold bget. mstep (deref_ok _ _ _ Hh).
  unfold mbind at 1, M_bind at 1. rewrite E; clear E; [by destruct (busy B)|done| | |done..|].
  - rewrite (ring_length _ _ Hl). lia.
  - by apply (ring_elem _ _ _ Hl).
  - intros y C Hy HC ??. apply (ring_elem _ _ _ Hl) in Hy.
    eapply (co_uniq _ _ Hok y x C B); try done; by split.
Qed.

(** The block is not cached and some buffer can be recycled. *)
Lemma bget_miss s v b x B :
  brep_bio s v → (∀ j C, node (nodes s) j C → b_dev C = ROOTDEV → b_blockno C ≠ b) →
  node (nodes s) x B → busy B = false → dirty B = false →
  ∃ y C, node (nodes s) y C ∧ busy C = false ∧ dirty C = false ∧
    bget ROOTDEV b s = Ok y (set_nodes
      (<[y := Buf B_BUSY ROOTDEV b (b_prev C) (b_next C) (b_data C)]> (nodes s)) s).
Proof.
  intros ((l & Hl) & Hok & _) Hmiss [Hlt HB] Hb Hd.
  destruct (ring_chains _ _ Hl) as (h & Hh & Hc & Hc').
  destruct (bget_recycle_ok s (b_prev h) (reverse l) ROOTDEV b (S NBUF_n) x B)
    as (y & C & Hy & HC & ? & ? & E); [done| | |done..|].
  { rewrite length_reverse, (ring_length _ _ Hl). lia. }
  { rewrite elem_of_reverse. by apply (ring_elem _ _ _ Hl). }
  exists y, C. rewrite elem_of_reverse, (ring_elem _ _ _ Hl) in Hy.
  split_and!; [done|done|done|].
  unfold bget. mstep (deref_ok _ _ _ Hh).
  rewrite (bind_ok _ _ _ None s); [by mstep (deref_ok _ _ _ Hh)|].
  apply (bget_cached_none _ _ l); [done|rewrite (ring_length _ _ Hl); lia|].
  intros z C' Hz HC' [??]. apply (ring_elem _ _ _ Hl) in Hz. by eapply (Hmiss z C').
Qed.

(** While fewer than [NBUF] blocks are pinned, a buffer can be recycled. *)
Lemma free_buffer s v :
  brep_bio s v → (size (pinned v) < NBUF_n)%nat →
  ∃ x B, node (nodes s) x B ∧ busy B = false ∧ dirty B = false.
Proof.
  intros ((l & Hl) & Hok & _) Hsz.
  destruct (decide (Exists (λ B, busy B = false ∧ dirty B = false) (take NBUF_n (nodes s))))
    as [(B & (x & HB)%list_elem_of_lookup & ?)%Exists_exists|Hn].
  { exists x, B. apply lookup_take_Some in HB as [HB Hx]. by split. }
  exfalso.
  assert (∀ i B, node (nodes s) i B → busy B = true ∨ dirty B = true) as Hall.
  { intros i B [Hi HB]. destruct (busy B) eqn:?, (dirty B) eqn:?; eauto.
    destruct Hn. apply Exists_exists. exists B. split; [|done].
    apply list_elem_of_lookup. exists i. by apply lookup_take_Some. }
  set (bs := b_blockno <$> take NBUF_n (nodes s)).
  assert (NoDup bs) as Hnd.
  { apply NoDup_alt. intros i j b Hi Hj. unfold bs in *.
    rewrite !list_lookup_fmap in *.
    destruct (take NBUF_n (nodes s) !! i) as [B|] eqn:HB; [|done].
    destruct (take NBUF_n (nodes s) !! j) as [C|] eqn:HC; [|done]. simplify_eq/=.
    apply lookup_take_Some in HB as [HB ?]. apply lookup_take_Some in HC as [HC ?].
    assert (node (nodes s) i B) as NB by done. assert (node (nodes s) j C) as NC by done.
    eapply (co_uniq _ _ Hok i j B C); try done; eapply (co_dev _ _ Hok); eauto;
      left; eapply (co_valid _ _ Hok); eauto. }
  assert (length bs = NBUF_n) as Hlen.
  { unfold bs. rewrite length_fmap, length_take, (ring_len _ _ Hl). lia. }
  assert (list_to_set bs ⊆ pinned v) as Hsub.
  { intros b. rewrite elem_of_list_to_set. unfold bs.
    intros (B & -> & (i & HB)%list_elem_of_lookup)%list_elem_of_fmap.
    apply lookup_take_Some in HB as [HB ?]. assert (node (nodes s) i B) as NB by done.
    unfold pinned, held_blocks. apply elem_of_union. destruct (Hall _ _ NB).
    - right. apply elem_of_map_img. exists i. apply (co_held _ _ Hok). eauto.
    - left. apply (co_dirty _ _ Hok). eauto. }
  apply subseteq_size in Hsub. rewrite size_list_to_set in Hsub by done. lia.
Qed.

(** ** bread *)

(** [bget] found the buffer [y]; [B] is its new value, not yet valid. *)
Lemma bread_fill s v b y C B :
  brep_bio s v → node (nodes s) y C → busy C = false → dirty C = false →
  bget ROOTDEV b s = Ok y (set_nodes (<[y := B]> (nodes s)) s) →
  b_dev B = ROOTDEV → b_blockno B = b → b_prev B = b_prev C → b_next B = b_next C →
  busy B = true → valid B = false → dirty B = false →
  is_Some (v_disk v !! b) →
  (∀ j C, node (nodes s) j C → valid C = true → b_blockno C ≠ b) →
  (∀ j C, node (nodes s) j C → j ≠ y → b_dev C = ROOTDEV → b_blockno C ≠ b) →
  ∃ s', bio_bread ROOTDEV b s = Ok y s' ∧ brep_bio s' (set_held (<[y := b]> (v_held v)) v).
Proof.
  intros H Hy HCb HCd Eget Hdev Hbn Hp Hn Bb Bv Bd [x Hx] Hmiss Hother.
  pose proof H as (_ & Hok & Hd & Hc & Hw). pose proof Hy as [_ HC].
  pose proof (lookup_lt_Some _ _ _ HC) as Hlen.
  destruct (iderw_read (dsk s) B x) as (d' & Hrw & Hd' & Hc' & Hw');
    [done|done|done|done|done|by rewrite Hc, Hbn|].
  set (B2 := set_flags _ _) in Hrw.
  assert (busy B2 = true ∧ valid B2 = true ∧ dirty B2 = false) as (Eb & Ev & Ed).
  { unfold busy, valid, dirty, B2 in *. simpl. rewrite !flag_or by done. simpl.
    by rewrite ?Bb, ?Bd. }
  eexists. split.
  - unfold bio_bread. mstep Eget.
    rewrite (bind_ok _ _ _ B _) by (apply deref_ok; simpl; by apply list_lookup_insert_eq).
    unfold valid in Bv. rewrite Bv. simpl.
    rewrite (bind_ok (ide_sync y) _ _ tt (BState (<[y := B2]> (nodes s)) d')); [done|].
    unfold ide_sync.
    rewrite (bind_ok _ _ _ B _) by (apply deref_ok; simpl; by apply list_lookup_insert_eq).
    rewrite (bind_ok _ _ _ _ _ (zoom_iderw (set_nodes _ s) _ _ _ Hrw)).
    erewrite assign_ok by (simpl; by apply list_lookup_insert_eq).
    simpl. by rewrite list_insert_insert_eq.
  - eapply brep_change; [done|done|done|done| |done|simpl; congruence|simpl; congruence].
    eapply cache_ok_hold; try done.
    + congruence.
    + congruence.
    + rewrite (co_miss _ _ Hok); [done|]. exact Hmiss.
Qed.

Lemma bio_bread_ok s v b :
  brep_bio s v → is_Some (v_disk v !! b) → b ∉ held_blocks v →
  b ∈ v_dirty v ∨ (size (pinned v) < NBUF_n)%nat →
  ∃ i s', bio_bread ROOTDEV b s = Ok i s' ∧ v_held v !! i = None ∧
    brep_bio s' (set_held (<[i := b]> (v_held v)) v).
Proof.
  intros H Hdisk Hheld Hroom. pose proof H as (_ & Hok & _).
  assert (∀ y C, node (nodes s) y C → busy C = false → v_held v !! y = None) as Hnone.
  { intros y C Hy HC. destruct (v_held v !! y) eqn:E; [|done].
    apply (co_held _ _ Hok) in E as (C' & HC' & ? & _).
    rewrite (node_inj _ _ _ _ Hy HC') in HC. congruence. }
  destruct (decide (Exists (λ B, b_dev B = ROOTDEV ∧ b_blockno B = b) (take NBUF_n (nodes s))))
    as [(B & (x & HB)%list_elem_of_lookup & Hdev & <-)%Exists_exists|Hmiss].
  - apply lookup_take_Some in HB as [HB Hx]. assert (node (nodes s) x B) as Nx by done.
    destruct (busy B) eqn:Eb.
    { destruct Hheld. apply elem_of_map_img. exists x. apply (co_held _ _ Hok). eauto. }
    pose proof (bget_hit _ _ _ _ H Nx Hdev) as Eget. rewrite Eb in Eget.
    assert (∀ j C, node (nodes s) j C → j ≠ x → b_dev C = ROOTDEV → b_blockno C ≠ b_blockno B)
      as Hother.
    { intros j C HC Hj ? E. apply Hj. by eapply (co_uniq _ _ Hok j x C B). }
    exists x. destruct (valid B) eqn:Ev.
    + set (B1 := set_flags (Z.lor (b_flags B) B_BUSY) B) in Eget.
      assert (busy B1 = true ∧ valid B1 = true ∧ dirty B1 = dirty B) as (Eb' & Ev' & Ed').
      { unfold busy, valid, dirty, B1 in *. simpl. rewrite !flag_or by done. by rewrite Ev. }
      eexists. split; [|split; [by eapply Hnone|]].
      * unfold bio_bread. mstep Eget.
        rewrite (bind_ok _ _ _ B1 _)
          by (apply deref_ok; simpl; apply list_lookup_insert_eq; by eapply lookup_lt_Some).
        unfold valid in Ev'. rewrite Ev'. done.
      * pose proof H as (_ & _ & ? & ? & ?).
        eapply (brep_change s v); [done|done|done|done| |done..].
        eapply cache_ok_hold; try done. exact (co_data _ _ Hok x B Nx Ev).
    + assert (dirty B = false) as Ed.
      { destruct (dirty B) eqn:E; [|done]. rewrite (co_valid _ _ Hok x B) in Ev; auto. }
      destruct (bread_fill s v (b_blockno B) x B _ H Nx Eb Ed Eget) as (s' & ? & ?); try done.
      * unfold busy. simpl. by rewrite flag_or.
      * unfold valid in *. simpl. by rewrite flag_or.
      * unfold dirty in *. simpl. by rewrite flag_or.
      * intros j C HC HCv E. destruct (decide (j = x)) as [->|Hj].
        -- rewrite (node_inj _ _ _ _ HC Nx) in HCv. congruence.
        -- apply (Hother j C); [done..| |done]. eapply (co_dev _ _ Hok); eauto.
      * eauto.
  - assert (∀ j C, node (nodes s) j C → b_dev C = ROOTDEV → b_blockno C ≠ b) as Hno.
    { intros j C [Hj HC] ??. destruct Hmiss. apply Exists_exists. exists C. split; [|done].
      apply list_elem_of_lookup. exists j. by apply lookup_take_Some. }
    destruct Hroom as [Hb|Hsz].
    { exfalso. apply (co_dirty _ _ Hok) in Hb as (i & C & HC & ? & ?).
      apply (Hno i C); [done| |done]. eapply (co_dev _ _ Hok); [done|].
      left. eapply (co_valid _ _ Hok); eauto. }
    destruct (free_buffer _ _ H Hsz) as (x & B & HB & ? & ?).
    destruct (bget_miss _ _ b _ _ H Hno HB) as (y & C & HC & ? & ? & Eget); [done..|].
    destruct (bread_fill s v b y C (Buf B_BUSY ROOTDEV b (b_prev C) (b_next C) (b_data C)))
      as (s' & ? & ?); try done.
    + intros j C' HC' HCv. apply (Hno j); [done|]. eapply (co_dev _ _ Hok); eauto.
    + intros j C' HC' _. by apply (Hno j).
    + exists y, s'. eauto.
Qed.

(** A second [bread] of a held block sleeps on the buffer. *)
Lemma bio_bread_busy s v b :
  brep_bio s v → b ∈ held_blocks v → ∃ i s', bio_bread ROOTDEV b s = Sleep i s' ∧ brep_bio s' v.
Proof.
  intros H (x & Hx)%elem_of_map_img. destruct (held_node _ _ _ _ H Hx)
    as (B & HB & Bb & _ & <- & Hdev & _).
  pose proof (bget_hit _ _ _ _ H HB Hdev) as E. rewrite Bb in E.
  exists (Z.of_nat x), s. split; [|done]. unfold bio_bread. by apply bind_sleep.
Qed.

#[global] Program Instance bio_cache : BlockCache (bstate D) := {|
  bread := bio_bread;
  bwrite := bio_bwrite;
  brelse := bio_brelse;
  buf_data := bio_data;
  buf_write := bio_write;
  buf_blockno := bio_blockno;
  buf_pin := bio_pin;
  brep := brep_bio;
  bread_ok := bio_bread_ok;
  bread_busy := bio_bread_busy;
  bwrite_ok := bio_bwrite_ok;
  brelse_ok := bio_brelse_ok;
  buf_data_ok := bio_data_ok;
  buf_write_ok := bio_write_ok;
  buf_blockno_ok := bio_blockno_ok;
  buf_pin_ok := bio_pin_ok;
|}.
Next Obligation.
  intros s v b (_ & Hok & _) Hb.
  destruct (decide (Exists (λ B, valid B = true ∧ b_blockno B = b) (take NBUF_n (nodes s))))
    as [(B & (x & HB)%list_elem_of_lookup & Hv & <-)%Exists_exists|Hno].
  - apply lookup_take_Some in HB as [HB Hx]. assert (node (nodes s) x B) as Nx by done.
    apply not_elem_of_union in Hb as [Hb1 Hb2].
    rewrite (co_data _ _ Hok x B), (co_disk _ _ Hok x B); try done.
    + destruct (dirty B) eqn:E; [|done]. destruct Hb1. apply (co_dirty _ _ Hok). eauto.
    + destruct (busy B) eqn:E; [|done]. destruct Hb2. apply elem_of_map_img. exists x.
      apply (co_held _ _ Hok). eauto.
  - apply (co_miss _ _ Hok). intros i B [Hi HB] Hv <-. apply Hno, Exists_exists. exists B.
    split; [|done]. apply list_elem_of_lookup. exists i. by apply lookup_take_Some.
Qed.
Next Obligation. intros s v b (_ & Hok & _). apply (co_dom _ _ Hok). Qed.
Next Obligation.
  intros s v i b H Hi. destruct (held_node _ _ _ _ H Hi) as (B & _ & _ & _ & _ & _ & -> & _).
  eauto.
Qed.
Next Obligation.
  intros s v b (_ & Hok & _) (i & B & HB & Hd & <-)%(co_dirty _ _ Hok).
  rewrite (co_data _ _ Hok i B); [eauto|done|]. eapply (co_valid _ _ Hok); eauto.
Qed.
Next Obligation.
  intros s v i j b H Hi Hj. pose proof H as (_ & Hok & _).
  destruct (held_node _ _ _ _ H Hi) as (B & HB & _ & _ & Eb & ? & _).
  destruct (held_node _ _ _ _ H Hj) as (C & HC & _ & _ & Eb' & ? & _).
  eapply (co_uniq _ _ Hok i j B C); congruence.
Qed.

(** ** binit *)

(** The statically allocated buffers before [binit]: all fields zero. *)
Definition zero_buf : buf := Buf 0 0 0 0 0 (replicate BSIZE_n 0).
Definition boot_nodes : list buf := replicate (S NBUF_n) zero_buf.

(** The view of a machine that has just booted with disk contents [m]. *)
Definition boot_view (m : gmap Z block) (w : list (Z * block)) : bview := BView m m ∅ ∅ w.

Lemma Forall_take_lookup {A} (P : A → Prop) n (l : list A) :
  Forall P (take n l) → ∀ i x, (i < n)%nat → l !! i = Some x → P x.
Proof.
  rewrite Forall_lookup. intros H i x Hi Hx. apply (H i). by apply lookup_take_Some.
Qed.

Lemma binit_links (d : D) :
  ∃ ns, binit (BState boot_nodes d) = Ok tt (BState ns d) ∧ ring ns (reverse (seq 0 NBUF_n)) ∧
    ∀ i B, node ns i B → b_flags B = 0 ∧ b_dev B = NODEV.
Proof.
  unfold boot_nodes, zero_buf. generalize (replicate BSIZE_n 0) as x. intros x.
  eexists. split; [vm_compute; reflexivity|]. split.
  - split; [reflexivity|vm_compute; tauto..|apply reverse_Permutation].
  - intros i B [Hi HB]. revert i B Hi HB. apply Forall_take_lookup.
    vm_compute. repeat constructor.
Qed.

Lemma binit_ok (d : D) :
  dok d → ∃ s', binit (BState boot_nodes d) = Ok tt s' ∧
    brep_bio s' (boot_view (dcontent d) (dwrites d)).
Proof.
  intros Hd. destruct (binit_links d) as (ns & E & Hr & Hz). exists (BState ns d).
  split; [exact E|]. clear E. split_and!; [by eexists| |done..].
  assert (∀ i B, node ns i B → valid B = false ∧ busy B = false ∧ dirty B = false) as Hf.
  { intros i B HB. destruct (Hz _ _ HB) as [Ef _]. unfold valid, busy, dirty. by rewrite Ef. }
  split; simpl.
  - intros i j B C HB HC Hdev. destruct (Hz _ _ HB) as [_ E']. by rewrite E' in Hdev.
  - intros i B HB. destruct (Hf _ _ HB) as (-> & -> & _). naive_solver.
  - intros i B HB. destruct (Hf _ _ HB) as (-> & -> & ->). naive_solver.
  - intros i b. rewrite lookup_empty. split; [done|]. intros (B & HB & ? & _).
    destruct (Hf _ _ HB) as (? & ? & ?). congruence.
  - intros b. split; [set_solver|]. intros (i & B & HB & ? & _).
    destruct (Hf _ _ HB) as (? & ? & ?). congruence.
  - intros i B HB ?. destruct (Hf _ _ HB) as (? & ? & ?). congruence.
  - intros i B HB ?. destruct (Hf _ _ HB) as (? & ? & ?). congruence.
  - done.
  - done.
Qed.
End proofs.
