(* ===== verification/Superblock.v ===== *)
(** * The superblock (fs.h, fs.c:readsb) *)

From S2P Require Import Prelude Params Disk BlockCache.

Record superblock := Superblock {
  sb_size : Z;
  sb_nblocks : Z;
  sb_ninodes : Z;
  sb_nlog : Z;
  sb_logstart : Z;
  sb_inodestart : Z;
  sb_bmapstart : Z;
}.

(** [memmove(sb, bp->data, sizeof( *sb ))]: seven little-endian words. *)
Definition sb_decode (x : block) : superblock :=
  Superblock (word_at x 0) (word_at x 1) (word_at x 2) (word_at x 3)
    (word_at x 4) (word_at x 5) (word_at x 6).

Section readsb.
Context {S : Type} `{!BlockCache S}.

Definition readsb (dev : Z) : M S superblock :=
  bp ← bread (u32 dev) 1;
  x ← buf_data bp;
  brelse bp;;
  mret (sb_decode x).
End readsb.
