(* ===== verification/Log.v ===== *)
(** * The redo log (log.c)

    The log is written against the buffer-cache interface.  [log] is the
    in-memory [struct log]; the header of a transaction is also kept on disk
    in the block [start], as a count and [LOGSIZE] block numbers. *)

From S2P Require Import Prelude Params Disk BlockCache Superblock.

(** [struct log], without its lock: the code between [acquire(&log.lock)] and
    [release(&log.lock)] is one step. *)
Record log := Log {
  l_start : Z;
  l_size : Z;
  l_outstanding : Z;
  l_committing : Z;
  l_dev : Z;
  lh_n : Z;
  lh_block : list Z;
}.

Definition set_n (n : Z) (l : log) : log :=
  Log (l_start l) (l_size l) (l_outstanding l) (l_committing l) (l_dev l) n (lh_block l).
Definition set_block (bl : list Z) (l : log) : log :=
  Log (l_start l) (l_size l) (l_outstanding l) (l_committing l) (l_dev l) (lh_n l) bl.
Definition set_outstanding (n : Z) (l : log) : log :=
  Log (l_start l) (l_size l) n (l_committing l) (l_dev l) (lh_n l) (lh_block l).
Definition set_committing (n : Z) (l : log) : log :=
  Log (l_start l) (l_size l) (l_outstanding l) n (l_dev l) (lh_n l) (lh_block l).

(** The statically allocated [struct log] at boot. *)
Definition log_zero : log := Log 0 0 0 0 0 0 (replicate LOGSIZE_n 0).

(** [sizeof(struct logheader)]: one [int] and [LOGSIZE] more. *)
Definition sizeof_logheader : Z := 4 + 4 * LOGSIZE.

(** The channel [&log]. *)
Definition LOGCHAN : Z := 0.

Section log.
Context {S : Type} `{!BlockCache S}.

Record lstate := LState { lg : log; io : S }.

(** A call of the buffer cache, and an assignment to [log]. *)
Definition bio {A} (m : M S A) : M lstate A := zoom io (λ t s, LState (lg s) t) m.
Definition upd (f : log → log) : M lstate unit := λ s, Ok tt (LState (f (lg s)) (io s)).
Definition ask {A} (f : log → A) : M lstate A := λ s, Ok (f (lg s)) s.

(** [log.lh.block[i]] *)
Definition lh_get (i : Z) : M lstate Z := bl ← ask lh_block; ofopt (bl !! Z.to_nat i).
Definition lh_set (i b : Z) : M lstate unit :=
  bl ← ask lh_block;
  if decide (Z.to_nat i < length bl)%nat then upd (set_block (<[Z.to_nat i := b]> bl))
  else fault.

(** Copies committed blocks from the log to their home location;
    [k] iterations are left. *)
Fixpoint install_loop (k : nat) (tail : Z) : M lstate unit :=
  match k with
  | O => mret tt
  | Datatypes.S k =>
      dev ← ask l_dev; start ← ask l_start;
      lbuf ← bio (bread (u32 dev) (u32 (start + tail + 1)));
      b ← lh_get tail;
      dbuf ← bio (bread (u32 dev) (u32 b));
      x ← bio (buf_data lbuf);
      bio (buf_write dbuf x);;
      bio (bwrite dbuf);;
      bio (brelse lbuf);;
      bio (brelse dbuf);;
      install_loop k (tail + 1)
  end.

Definition install_trans : M lstate unit :=
  n ← ask lh_n; install_loop (Z.to_nat n) 0.

(** Copies modified blocks from the cache to the log. *)
Fixpoint write_log_loop (k : nat) (tail : Z) : M lstate unit :=
  match k with
  | O => mret tt
  | Datatypes.S k =>
      dev ← ask l_dev; start ← ask l_start;
      to ← bio (bread (u32 dev) (u32 (start + tail + 1)));
      b ← lh_get tail;
      from ← bio (bread (u32 dev) (u32 b));
      x ← bio (buf_data from);
      bio (buf_write to x);;
      bio (bwrite to);;
      bio (brelse from);;
      bio (brelse to);;
      write_log_loop k (tail + 1)
  end.

Definition write_log : M lstate unit :=
  n ← ask lh_n; write_log_loop (Z.to_nat n) 0.

(** Reads the log header from disk into the in-memory header. *)
Fixpoint read_head_loop (k : nat) (i : Z) (x : block) : M lstate unit :=
  match k with
  | O => mret tt
  | Datatypes.S k =>
      lh_set i (s32 (word_at x (Z.to_nat (1 + i))));;
      read_head_loop k (i + 1) x
  end.

Definition read_head : M lstate unit :=
  dev ← ask l_dev; start ← ask l_start;
  buf ← bio (bread (u32 dev) (u32 start));
  x ← bio (buf_data buf);
  upd (set_n (s32 (word_at x 0)));;
  n ← ask lh_n;
  read_head_loop (Z.to_nat n) 0 x;;
  bio (brelse buf).

(** Writes the in-memory header to disk. *)
Fixpoint write_head_loop (k : nat) (i : Z) (x : block) : M lstate block :=
  match k with
  | O => mret x
  | Datatypes.S k =>
      b ← lh_get i;
      write_head_loop k (i + 1) (set_word (Z.to_nat (1 + i)) b x)
  end.

Definition write_head : M lstate unit :=
  dev ← ask l_dev; start ← ask l_start;
  buf ← bio (bread (u32 dev) (u32 start));
  x ← bio (buf_data buf);
  n ← ask lh_n;
  x' ← write_head_loop (Z.to_nat n) 0 (set_word 0 n x);
  bio (buf_write buf x');;
  bio (bwrite buf);;
  bio (brelse buf).

Definition recover_from_log : M lstate unit :=
  read_head;;
  install_trans;;
  upd (set_n 0);;
  write_head.

Definition initlog (dev : Z) : M lstate unit :=
  if BSIZE <=? sizeof_logheader then panic "initlog: too big logheader"
  else
    sb ← bio (readsb dev);
    upd (λ l, Log (s32 (sb_logstart sb)) (s32 (sb_nlog sb)) (l_outstanding l)
                (l_committing l) dev (lh_n l) (lh_block l));;
    recover_from_log.

(** Called at the start of each FS system call; one turn of its loop. *)
Definition begin_op : M lstate unit :=
  l ← ask id;
  if negb (l_committing l =? 0) then sleep LOGCHAN
  else if LOGSIZE <? lh_n l + (l_outstanding l + 1) * MAXOPBLOCKS then sleep LOGCHAN
  else upd (set_outstanding (l_outstanding l + 1)).

Definition commit : M lstate unit :=
  n ← ask lh_n;
  if 0 <? n then
    write_log;;
    write_head;;
    install_trans;;
    upd (set_n 0);;
    write_head
  else mret tt.

(** Called at the end of each FS system call. *)
Definition end_op : M lstate unit :=
  l ← ask id;
  upd (set_outstanding (l_outstanding l - 1));;
  if negb (l_committing l =? 0) then panic "log.committing"
  else if l_outstanding l - 1 =? 0 then
    upd (set_committing 1);;
    commit;;
    upd (set_committing 0)
  else mret tt.

(** The index of [b] among the first [n] logged blocks, or [n]. *)
Fixpoint log_find (k : nat) (i : Z) (b : Z) : M lstate Z :=
  match k with
  | O => mret i
  | Datatypes.S k =>
      b' ← lh_get i;
      if u32 b' =? b then mret i else log_find k (i + 1) b
  end.

Definition log_write (b : nat) : M lstate unit :=
  l ← ask id;
  if (LOGSIZE <=? lh_n l) || (l_size l - 1 <=? lh_n l) then panic "too big a transaction"
  else if l_outstanding l <? 1 then panic "log_write outside of trans"
  else
    blockno ← bio (buf_blockno b);
    i ← log_find (Z.to_nat (lh_n l)) 0 blockno;
    lh_set i (s32 blockno);;
    (if i =? lh_n l then upd (set_n (lh_n l + 1)) else mret tt);;
    bio (buf_pin b).
End log.
Arguments lstate S : clear implicits.
