(* ===== verification/LogProofs.v ===== *)
(** * Correctness of the log

    Each routine of log.c is shown to take a cache state represented by an
    abstract view to the expected one.  [commit_writes] then gives the exact
    sequence of disk writes of a commit, from which crash atomicity follows. *)

From S2P Require Import Prelude Params Disk BlockCache Superblock Log.

#[local] Arguments install_loop : simpl never.
#[local] Arguments write_log_loop : simpl never.
#[local] Arguments write_head_loop : simpl never.
#[local] Arguments read_head_loop : simpl never.

(** Block [b] gets the contents [x], in the cache and on the disk. *)
Definition copied (b : Z) (x : block) (v : bview) : bview :=
  written b x (set_view (<[b := x]> (v_view v)) v).

Lemma held_blocks_none v : v_held v = ∅ → held_blocks v = ∅.
Proof. unfold held_blocks. intros ->. apply map_img_empty_L. Qed.

Lemma held_blocks_one v i b :
  v_held v = ∅ → held_blocks (set_held (<[i := b]> (v_held v)) v) = {[b]}.
Proof. unfold held_blocks. simpl. intros ->. rewrite insert_empty. apply map_img_singleton_L. Qed.

Lemma pinned_none v : v_held v = ∅ → pinned v = v_dirty v.
Proof. intros H. unfold pinned. rewrite held_blocks_none by done. set_solver. Qed.

Lemma size_pinned_one v i b :
  v_held v = ∅ → (size (pinned (set_held (<[i := b]> (v_held v)) v)) ≤ size (v_dirty v) + 1)%nat.
Proof.
  intros H. unfold pinned. rewrite held_blocks_one by done. simpl.
  rewrite size_union_alt. etrans; [apply Nat.add_le_mono_l, subseteq_size|];
    [|by rewrite (size_singleton (C := gset Z) b)]. set_solver.
Qed.

(** Applying a sequence of block writes to a disk. *)
Definition apply_writes (ps : list (Z * block)) (m : gmap Z block) : gmap Z block :=
  foldl (λ m p, <[p.1 := p.2]> m) m ps.

Definition copy_all (ps : list (Z * block)) (v : bview) : bview :=
  foldl (λ v p, copied p.1 p.2 v) v ps.

Lemma apply_writes_app ps qs m :
  apply_writes (ps ++ qs) m = apply_writes qs (apply_writes ps m).
Proof. apply foldl_app. Qed.

Lemma apply_writes_ne ps m b : b ∉ ps.*1 → apply_writes ps m !! b = m !! b.
Proof.
  revert m. induction ps as [|[c x] ps IH]; intros m; [done|].
  rewrite fmap_cons, not_elem_of_cons. intros [??]. unfold apply_writes in *. simpl.
  rewrite IH by done. by rewrite lookup_insert_ne.
Qed.

Lemma apply_writes_eq ps m i b x :
  NoDup ps.*1 → ps !! i = Some (b, x) → apply_writes ps m !! b = Some x.
Proof.
  revert m i. induction ps as [|[c y] ps IH]; intros m i; [done|].
  rewrite fmap_cons, NoDup_cons. intros [Hc Hnd] Hi. unfold apply_writes in *. simpl.
  destruct i as [|i]; simplify_eq/=; [|by eapply IH].
  pose proof (apply_writes_ne ps (<[b := x]> m) b Hc) as E. unfold apply_writes in E.
  by rewrite E, lookup_insert_eq.
Qed.

Lemma copy_all_spec ps v :
  copy_all ps v = BView (apply_writes ps (v_disk v)) (apply_writes ps (v_view v))
    (v_dirty v ∖ list_to_set ps.*1) (v_held v) (v_writes v ++ ps).
Proof.
  revert v. induction ps as [|[b x] ps IH]; intros v; simpl.
  - destruct v. simpl. unfold apply_writes. simpl. f_equal; [set_solver|by rewrite app_nil_r].
  - unfold copy_all in *. simpl. rewrite IH. simpl. unfold apply_writes. simpl.
    f_equal; [set_solver|by rewrite <- app_assoc].
Qed.

(** The blocks of the log area: the header and [size - 1] data blocks. *)
Definition in_log (l : log) (b : Z) : Prop := l_start l ≤ b < l_start l + l_size l.

Lemma in_log_ne l a b : in_log l a → ¬ in_log l b → a ≠ b.
Proof. by intros ? ? ->. Qed.

Section proofs.
Context {S : Type} `{!BlockCache S}.
Implicit Types (s : lstate S) (t : S) (v : bview).

Lemma bio_ok {A} (m : M S A) s a t :
  m (io s) = Ok a t → bio m s = Ok a (LState (lg s) t).
Proof. intros H. unfold bio, zoom. by rewrite H. Qed.

Ltac bstep E := erewrite bind_ok by (apply bio_ok; exact E); cbn [lg io].

Lemma ask_ok {A} (f : log → A) s : ask f s = Ok (f (lg s)) s.
Proof. done. Qed.

Lemma lh_get_ok s i b : lh_block (lg s) !! Z.to_nat i = Some b → lh_get i s = Ok b s.
Proof. intros H. unfold lh_get, ofopt. mstep (ask_ok lh_block s). by rewrite H. Qed.

Lemma lstate_eta s : LState (lg s) (io s) = s.
Proof. by destruct s. Qed.

Lemma clear_held v i b j c :
  v_held v = ∅ → i ≠ j → delete j (delete i (<[j := c]> (<[i := b]> (v_held v)))) = v_held v.
Proof.
  intros -> Hij. apply map_eq. intros k. rewrite !lookup_delete, !lookup_insert.
  repeat case_decide; by subst.
Qed.

Lemma clear_held1 v i b : v_held v = ∅ → delete i (<[i := b]> (v_held v)) = v_held v.
Proof.
  intros ->. apply map_eq. intros k. rewrite !lookup_delete, !lookup_insert.
  repeat case_decide; by subst.
Qed.

(** One iteration of [install_trans]. *)
Lemma install_iter s v tail src b x :
  brep (io s) v → v_held v = ∅ → l_dev (lg s) = ROOTDEV →
  src = l_start (lg s) + tail + 1 → 0 ≤ src < 2 ^ 32 → 0 ≤ b < 2 ^ 32 →
  lh_block (lg s) !! Z.to_nat tail = Some b →
  v_disk v !! src = Some x → src ∉ v_dirty v → is_Some (v_disk v !! b) → src ≠ b →
  (size (v_dirty v) < NBUF_n)%nat → b ∈ v_dirty v ∨ (size (v_dirty v) + 1 < NBUF_n)%nat →
  ∃ t, brep t (copied b x v) ∧
    ∀ k, install_loop (Datatypes.S k) tail s = install_loop k (tail + 1) (LState (lg s) t).
Proof.
  intros H Hh Hdev Hsrc Rs Rb Hb Hx Hnd Hbd Hne Hsz Hroom.
  assert (v_view v !! src = Some x) as Hvx.
  { rewrite (brep_clean _ _ _ H); [done|]. by rewrite pinned_none. }
  destruct (bread_ok _ _ src H) as (i & t1 & E1 & _ & H1).
  { eauto. } { rewrite held_blocks_none by done. set_solver. }
  { right. by rewrite pinned_none. }
  destruct (bread_ok _ _ b H1) as (j & t2 & E2 & Hij & H2); [done| | |].
  { rewrite held_blocks_one by done. set_solver. }
  { destruct Hroom; [by left|right]. pose proof (size_pinned_one v i src Hh). lia. }
  assert (i ≠ j) as Hne'. { intros ->. simpl in Hij. by rewrite lookup_insert_eq in Hij. }
  assert (buf_data i t2 = Ok x t2) as E3.
  { eapply buf_data_ok; [done|..|done]. simpl. by rewrite lookup_insert_ne, lookup_insert_eq. }
  edestruct (buf_write_ok _ _ j b x H2) as (t4 & E4 & H4); [simpl; by rewrite lookup_insert_eq|].
  edestruct (bwrite_ok _ _ j b x H4) as (t5 & E5 & H5);
    [simpl; by rewrite lookup_insert_eq|simpl; by rewrite lookup_insert_eq|].
  edestruct (brelse_ok _ _ i src H5) as (t6 & E6 & H6).
  { simpl. by rewrite lookup_insert_ne, lookup_insert_eq. }
  { right. simpl. rewrite !lookup_insert_ne by done. congruence. }
  edestruct (brelse_ok _ _ j b H6) as (t7 & E7 & H7).
  { simpl. by rewrite lookup_delete_ne, lookup_insert_eq. }
  { right. simpl. by rewrite !lookup_insert_eq. }
  exists t7. split.
  - simpl in H7. unfold set_held in H7. simpl in H7. rewrite clear_held in H7 by done. exact H7.
  - intros k. unfold install_loop; fold (install_loop (S := S)). mstep (ask_ok l_dev s). mstep (ask_ok l_start s).
    rewrite <- Hsrc, Hdev, (u32_small src), (u32_small ROOTDEV) by done.
    bstep E1. mstep (lh_get_ok (LState (lg s) t1) _ _ Hb). rewrite (u32_small b) by done.
    bstep E2. bstep E3. bstep E4. bstep E5. bstep E6. bstep E7. done.
Qed.

(** One iteration of [write_log]. *)
Lemma write_log_iter s v tail dst b x :
  brep (io s) v → v_held v = ∅ → l_dev (lg s) = ROOTDEV →
  dst = l_start (lg s) + tail + 1 → 0 ≤ dst < 2 ^ 32 → 0 ≤ b < 2 ^ 32 →
  lh_block (lg s) !! Z.to_nat tail = Some b →
  v_view v !! b = Some x → b ∈ v_dirty v → is_Some (v_disk v !! dst) → dst ∉ v_dirty v →
  (size (v_dirty v) < NBUF_n)%nat →
  ∃ t, brep t (copied dst x v) ∧
    ∀ k, write_log_loop (Datatypes.S k) tail s = write_log_loop k (tail + 1) (LState (lg s) t).
Proof.
  intros H Hh Hdev Hdst Rd Rb Hb Hx Hbd Hd Hnd Hsz.
  assert (b ≠ dst) as Hne by congruence.
  destruct (bread_ok _ _ dst H) as (i & t1 & E1 & _ & H1); [done| | |].
  { rewrite held_blocks_none by done. set_solver. } { right. by rewrite pinned_none. }
  destruct (bread_ok _ _ b H1) as (j & t2 & E2 & Hij & H2); [| |by left|].
  { apply (brep_dom _ _ _ H). eauto. } { rewrite held_blocks_one by done. set_solver. }
  assert (i ≠ j) as Hne'. { intros ->. simpl in Hij. by rewrite lookup_insert_eq in Hij. }
  assert (buf_data j t2 = Ok x t2) as E3.
  { eapply buf_data_ok; [done|..|done]. simpl. by rewrite lookup_insert_eq. }
  edestruct (buf_write_ok _ _ i dst x H2) as (t4 & E4 & H4);
    [simpl; by rewrite lookup_insert_ne, lookup_insert_eq|].
  edestruct (bwrite_ok _ _ i dst x H4) as (t5 & E5 & H5);
    [simpl; by rewrite lookup_insert_ne, lookup_insert_eq|simpl; by rewrite lookup_insert_eq|].
  edestruct (brelse_ok _ _ j b H5) as (t6 & E6 & H6);
    [simpl; by rewrite lookup_insert_eq|left; simpl; set_solver|].
  edestruct (brelse_ok _ _ i dst H6) as (t7 & E7 & H7).
  { simpl. by rewrite lookup_delete_ne, lookup_insert_ne, lookup_insert_eq. }
  { right. simpl. by rewrite !lookup_insert_eq. }
  exists t7. split.
  - simpl in H7. unfold set_held in H7. simpl in H7.
    rewrite delete_delete, clear_held in H7 by done. exact H7.
  - intros k. unfold write_log_loop; fold (write_log_loop (S := S)). mstep (ask_ok l_dev s). mstep (ask_ok l_start s).
    rewrite <- Hdst, Hdev, (u32_small dst), (u32_small ROOTDEV) by done.
    bstep E1. mstep (lh_get_ok (LState (lg s) t1) _ _ Hb). rewrite (u32_small b) by done.
    bstep E2. bstep E3. bstep E4. bstep E5. bstep E6. bstep E7. done.
Qed.

(** The header lists [bl] from index [tail] on, outside the log area. *)
Definition home_ok (l : log) (tail : Z) (bl : list Z) (m : gmap Z block) : Prop :=
  ∀ i b, bl !! i = Some b → lh_block l !! (Z.to_nat tail + i)%nat = Some b ∧
    0 ≤ b < 2 ^ 32 ∧ is_Some (m !! b) ∧ ¬ in_log l b.

(** The log blocks from [tail] on exist and are not pinned. *)
Definition logblk_ok (l : log) (tail : Z) (n : nat) (v : bview) : Prop :=
  ∀ i, (i < n)%nat → let src := l_start l + tail + 1 + Z.of_nat i in
    0 ≤ src < 2 ^ 32 ∧ in_log l src ∧ is_Some (v_disk v !! src) ∧ src ∉ v_dirty v.

Lemma copied_lookup_disk b c x v :
  b ≠ c → v_disk (copied b x v) !! c = v_disk v !! c.
Proof. intros. simpl. by rewrite lookup_insert_ne. Qed.

Lemma install_loop_ok s v tail bl xs :
  brep (io s) v → v_held v = ∅ → l_dev (lg s) = ROOTDEV → 0 ≤ tail →
  length xs = length bl → NoDup bl → home_ok (lg s) tail bl (v_disk v) →
  logblk_ok (lg s) tail (length bl) v →
  (∀ i x, xs !! i = Some x → v_disk v !! (l_start (lg s) + tail + 1 + Z.of_nat i) = Some x) →
  (size (v_dirty v) < NBUF_n)%nat →
  (∀ b, b ∈ bl → b ∈ v_dirty v) ∨ (size (v_dirty v) + 1 < NBUF_n)%nat →
  ∃ t, install_loop (length bl) tail s = Ok tt (LState (lg s) t) ∧
    brep t (copy_all (zip bl xs) v).
Proof.
  revert tail xs s v. induction bl as [|b bl IH]; intros tail [|x xs] s v H Hh Hdev Htl Hlen
    Hnd Hhome Hlog Hxs Hsz Hroom; simplify_eq/=.
  { exists (io s). by rewrite lstate_eta. }
  apply NoDup_cons in Hnd as [Hb Hnd].
  destruct (Hhome 0%nat b eq_refl) as (Hlh & Rb & Hdisk & Hout). rewrite Nat.add_0_r in Hlh.
  destruct (Hlog 0%nat) as (Rs & Hin & _ & Hnp); [lia|]. simpl in Rs, Hin, Hnp.
  rewrite Z.add_0_r in Rs, Hin, Hnp.
  destruct (install_iter s v tail _ b x H Hh Hdev eq_refl Rs Rb Hlh) as (t & Ht & E);
    [rewrite <- (Hxs 0%nat x eq_refl); f_equal; lia|done|done|by eapply in_log_ne|done| |].
  { destruct Hroom as [Hr|?]; [left; apply Hr; left|by right]. }
  rewrite E. destruct (IH (tail + 1) xs (LState (lg s) t) (copied b x v)) as (t' & E' & Ht');
    simpl; [done|done|done|lia|done|done|..].
  - intros i c Hi. destruct (Hhome (Datatypes.S i) c Hi) as (Hl & ? & Hm & ?).
    split_and!; [rewrite <- Hl; f_equal; lia|lia..| |done].
    destruct (decide (b = c)) as [->|]; [rewrite lookup_insert_eq; eauto|by rewrite lookup_insert_ne].
  - intros i Hi. destruct (Hlog (Datatypes.S i)) as (Hr & Hin' & Hsome & Hnp'); [lia|].
    replace (l_start (lg s) + tail + 1 + Z.of_nat (Datatypes.S i))
      with (l_start (lg s) + (tail + 1) + 1 + Z.of_nat i) in * by lia.
    split; [done|]. split; [done|]. split; [|set_solver].
    rewrite copied_lookup_disk; [done|symmetry; by eapply in_log_ne].
  - intros i y Hi. rewrite <- (Hxs (Datatypes.S i) y Hi).
    destruct (Hlog (Datatypes.S i)) as (_ & Hin' & _); [apply lookup_lt_Some in Hi; lia|].
    replace (l_start (lg s) + tail + 1 + Z.of_nat (Datatypes.S i))
      with (l_start (lg s) + (tail + 1) + 1 + Z.of_nat i) in * by lia.
    rewrite lookup_insert_ne; [done|symmetry; by eapply in_log_ne].
  - assert (size (v_dirty v ∖ {[b]}) ≤ size (v_dirty v))%nat by (apply subseteq_size; set_solver).
    lia.
  - assert (size (v_dirty v ∖ {[b]}) ≤ size (v_dirty v))%nat by (apply subseteq_size; set_solver).
    destruct Hroom as [Hr|?]; [left|right; lia].
    intros c Hc. assert (c ≠ b) by congruence. assert (c ∈ v_dirty v) by (apply Hr; by right).
    set_solver.
  - by exists t'.
Qed.

Lemma write_log_loop_ok s v tail bl xs :
  brep (io s) v → v_held v = ∅ → l_dev (lg s) = ROOTDEV → 0 ≤ tail →
  length xs = length bl → home_ok (lg s) tail bl (v_disk v) →
  logblk_ok (lg s) tail (length bl) v →
  (∀ i b x, bl !! i = Some b → xs !! i = Some x → v_view v !! b = Some x ∧ b ∈ v_dirty v) →
  (size (v_dirty v) < NBUF_n)%nat →
  ∃ t, write_log_loop (length bl) tail s = Ok tt (LState (lg s) t) ∧
    brep t (copy_all (zip (seqZ (l_start (lg s) + tail + 1) (Z.of_nat (length bl))) xs) v).
Proof.
  revert tail xs s v. induction bl as [|b bl IH]; intros tail [|x xs] s v H Hh Hdev Htl Hlen
    Hhome Hlog Hxs Hsz; simplify_eq/=.
  { exists (io s). by rewrite lstate_eta. }
  destruct (Hhome 0%nat b eq_refl) as (Hlh & Rb & Hdisk & Hout). rewrite Nat.add_0_r in Hlh.
  destruct (Hlog 0%nat) as (Rs & Hin & Hsome & Hnp); [lia|]. simpl in Rs, Hin, Hnp, Hsome.
  rewrite Z.add_0_r in Rs, Hin, Hnp, Hsome.
  destruct (Hxs 0%nat b x eq_refl eq_refl) as [Hx Hbd].
  destruct (write_log_iter s v tail _ b x H Hh Hdev eq_refl Rs Rb Hlh) as (t & Ht & E); [done..|].
  assert (v_dirty v ∖ {[l_start (lg s) + tail + 1]} = v_dirty v) as Hd by set_solver.
  rewrite E.
  destruct (IH (tail + 1) xs (LState (lg s) t) (copied (l_start (lg s) + tail + 1) x v))
    as (t' & E' & Ht'); simpl; [done|done|done|lia|done|..].
  - intros i c Hi. destruct (Hhome (Datatypes.S i) c Hi) as (Hl & ? & Hm & ?).
    split_and!; [rewrite <- Hl; f_equal; lia|lia..| |done].
    rewrite lookup_insert_ne; [done|by eapply in_log_ne].
  - intros i Hi. destruct (Hlog (Datatypes.S i)) as (Hr & Hin' & Hsome' & Hnp'); [lia|].
    replace (l_start (lg s) + tail + 1 + Z.of_nat (Datatypes.S i))
      with (l_start (lg s) + (tail + 1) + 1 + Z.of_nat i) in * by lia.
    split; [done|]. split; [done|]. split; [|set_solver].
    rewrite copied_lookup_disk; [done|lia].
  - intros i c y Hc Hy. rewrite Hd. destruct (Hxs (Datatypes.S i) c y Hc Hy) as [? ?].
    split; [|done]. rewrite lookup_insert_ne; [done|].
    destruct (Hhome (Datatypes.S i) c Hc) as (_ & _ & _ & ?). by eapply in_log_ne.
  - by rewrite Hd.
  - exists t'. split; [done|]. rewrite seqZ_cons by lia. simpl.
    replace (Z.succ (l_start (lg s) + tail + 1)) with (l_start (lg s) + (tail + 1) + 1) by lia.
    replace (Z.pred (Z.of_nat (Datatypes.S (length bl)))) with (Z.of_nat (length bl)) by lia. done.
Qed.

(** ** The header block *)

(** The header [write_head] builds in the buffer. *)
Fixpoint put_words (i : nat) (bl : list Z) (x : block) : block :=
  match bl with
  | [] => x
  | b :: bl => put_words (Datatypes.S i) bl (set_word i b x)
  end.

Definition header (bl : list Z) (x : block) : block :=
  put_words 1 bl (set_word 0 (Z.of_nat (length bl)) x).

Lemma length_put_words i bl x :
  (4 * (i + length bl) ≤ length x)%nat → length (put_words i bl x) = length x.
Proof.
  revert i x. induction bl as [|b bl IH]; intros i x Hx; simpl in *; [done|].
  rewrite IH; rewrite length_set_word; lia.
Qed.

Lemma put_words_ne i bl x j :
  (4 * (i + length bl) ≤ length x)%nat → (j < i)%nat →
  word_at (put_words i bl x) j = word_at x j.
Proof.
  revert i x. induction bl as [|b bl IH]; intros i x Hx Hj; simpl in *; [done|].
  rewrite IH by (rewrite ?length_set_word; lia). apply word_at_set_word_ne; lia.
Qed.

Lemma put_words_eq i bl x k b :
  (4 * (i + length bl) ≤ length x)%nat → bl !! k = Some b →
  word_at (put_words i bl x) (i + k) = u32 b.
Proof.
  revert i x k. induction bl as [|c bl IH]; intros i x k Hx Hk; simpl in *; [done|].
  destruct k as [|k]; simplify_eq/=.
  - rewrite Nat.add_0_r, put_words_ne by (rewrite ?length_set_word; lia).
    apply word_at_set_word_eq. lia.
  - rewrite <- (IH (Datatypes.S i) (set_word i c x) k); [|rewrite ?length_set_word; lia|done].
    f_equal. lia.
Qed.

(** Reading back a header. *)
Lemma header_n bl x :
  (4 + 4 * length bl ≤ length x)%nat → Z.of_nat (length bl) < 2 ^ 31 →
  s32 (word_at (header bl x) 0) = Z.of_nat (length bl).
Proof.
  intros. unfold header. rewrite put_words_ne by (rewrite ?length_set_word; lia).
  rewrite word_at_set_word_eq by lia. rewrite s32_u32; lia.
Qed.

Lemma header_block bl x k b :
  (4 + 4 * length bl ≤ length x)%nat → bl !! k = Some b → 0 ≤ b < 2 ^ 31 →
  s32 (word_at (header bl x) (1 + k)) = b.
Proof.
  intros. unfold header. rewrite (put_words_eq 1 bl _ k b); [|rewrite length_set_word; lia|done].
  apply s32_u32. lia.
Qed.

Lemma length_header bl x :
  (4 + 4 * length bl ≤ length x)%nat → length (header bl x) = length x.
Proof.
  intros. unfold header. rewrite length_put_words; rewrite length_set_word; lia.
Qed.

Lemma write_head_loop_ok s bl i x :
  (∀ k b, bl !! k = Some b → lh_block (lg s) !! (i + k)%nat = Some b) →
  write_head_loop (length bl) (Z.of_nat i) x s = Ok (put_words (Datatypes.S i) bl x) s.
Proof.
  revert i x. induction bl as [|b bl IH]; intros i x Hbl; simpl; [done|].
  unfold write_head_loop; fold (write_head_loop (S := S)).
  rewrite (bind_ok _ _ _ b s).
  2: { apply lh_get_ok. rewrite Nat2Z.id, <- (Nat.add_0_r i). by apply Hbl. }
  replace (Z.of_nat i + 1) with (Z.of_nat (Datatypes.S i)) by lia.
  replace (Z.to_nat (1 + Z.of_nat i)) with (Datatypes.S i) by lia.
  apply IH. intros k c Hk. rewrite <- (Hbl (Datatypes.S k) c Hk). f_equal. lia.
Qed.

Lemma write_head_ok s v bl x :
  brep (io s) v → v_held v = ∅ → l_dev (lg s) = ROOTDEV → 0 ≤ l_start (lg s) < 2 ^ 32 →
  lh_n (lg s) = Z.of_nat (length bl) →
  (∀ k b, bl !! k = Some b → lh_block (lg s) !! k = Some b) →
  v_disk v !! l_start (lg s) = Some x → l_start (lg s) ∉ v_dirty v →
  (size (v_dirty v) < NBUF_n)%nat →
  ∃ t, write_head s = Ok tt (LState (lg s) t) ∧ brep t (copied (l_start (lg s)) (header bl x) v).
Proof.
  intros H Hh Hdev Rs Hn Hbl Hx Hnd Hsz.
  assert (v_view v !! l_start (lg s) = Some x) as Hvx.
  { rewrite (brep_clean _ _ _ H); [done|]. by rewrite pinned_none. }
  destruct (bread_ok _ _ (l_start (lg s)) H) as (i & t1 & E1 & _ & H1); [eauto| | |].
  { rewrite held_blocks_none by done. set_solver. } { right. by rewrite pinned_none. }
  assert (buf_data i t1 = Ok x t1) as E2.
  { eapply buf_data_ok; [done|..|done]. simpl. by rewrite lookup_insert_eq. }
  edestruct (buf_write_ok _ _ i (l_start (lg s)) (header bl x) H1) as (t3 & E3 & H3);
    [simpl; by rewrite lookup_insert_eq|].
  edestruct (bwrite_ok _ _ i (l_start (lg s)) (header bl x) H3) as (t4 & E4 & H4);
    [simpl; by rewrite lookup_insert_eq|simpl; by rewrite lookup_insert_eq|].
  edestruct (brelse_ok _ _ i (l_start (lg s)) H4) as (t5 & E5 & H5);
    [simpl; by rewrite lookup_insert_eq|right; simpl; by rewrite !lookup_insert_eq|].
  exists t5. split.
  - unfold write_head. mstep (ask_ok l_dev s). mstep (ask_ok l_start s).
    rewrite Hdev, (u32_small (l_start (lg s))), (u32_small ROOTDEV) by done.
    bstep E1. bstep E2. mstep (ask_ok lh_n (LState (lg s) t1)). cbn [lg]. rewrite Hn, Nat2Z.id.
    rewrite (bind_ok _ _ _ _ _ (write_head_loop_ok (LState (lg s) t1) bl 0 _ Hbl)).
    bstep E3. bstep E4. exact (bio_ok _ (LState (lg s) t4) _ _ E5).
  - simpl in H5. unfold set_held in H5. simpl in H5. rewrite clear_held1 in H5 by done.
    exact H5.
Qed.

Lemma lh_set_ok s i b :
  (i < length (lh_block (lg s)))%nat →
  lh_set (Z.of_nat i) b s = Ok tt (LState (set_block (<[i := b]> (lh_block (lg s))) (lg s)) (io s)).
Proof.
  intros Hi. unfold lh_set. mstep (ask_ok lh_block s). rewrite Nat2Z.id, decide_True by done. done.
Qed.

(** The in-memory header after [read_head_loop]. *)
Fixpoint get_words (k i : nat) (x : block) (bl : list Z) : list Z :=
  match k with
  | O => bl
  | Datatypes.S k => get_words k (Datatypes.S i) x (<[i := s32 (word_at x (Datatypes.S i))]> bl)
  end.

Lemma length_get_words k i x bl : length (get_words k i x bl) = length bl.
Proof.
  revert i bl. induction k as [|k IH]; intros i bl; simpl; [done|]. by rewrite IH, length_insert.
Qed.

Lemma get_words_lt k i x bl j : (j < i)%nat → get_words k i x bl !! j = bl !! j.
Proof.
  revert i bl. induction k as [|k IH]; intros i bl Hj; simpl; [done|].
  rewrite IH by lia. apply list_lookup_insert_ne. lia.
Qed.

Lemma get_words_eq k i x bl j :
  (j < k)%nat → (i + k ≤ length bl)%nat →
  get_words k i x bl !! (i + j)%nat = Some (s32 (word_at x (Datatypes.S (i + j)))).
Proof.
  revert i bl j. induction k as [|k IH]; intros i bl j Hj Hl; simpl; [lia|].
  destruct j as [|j].
  - rewrite Nat.add_0_r, get_words_lt by lia. apply list_lookup_insert_eq. lia.
  - replace (i + Datatypes.S j)%nat with (Datatypes.S i + j)%nat by lia.
    apply IH; rewrite ?length_insert; lia.
Qed.

Lemma read_head_loop_ok s k i x :
  (i + k ≤ length (lh_block (lg s)))%nat →
  read_head_loop k (Z.of_nat i) x s =
    Ok tt (LState (set_block (get_words k i x (lh_block (lg s))) (lg s)) (io s)).
Proof.
  revert i s. induction k as [|k IH]; intros i s Hl.
  { simpl. destruct s as [[] ?]. done. }
  unfold read_head_loop; fold (read_head_loop (S := S)).
  rewrite (bind_ok _ _ _ _ _ (lh_set_ok s i _ ltac:(lia))).
  replace (Z.of_nat i + 1) with (Z.of_nat (Datatypes.S i)) by lia.
  replace (Z.to_nat (1 + Z.of_nat i)) with (Datatypes.S i) by lia.
  rewrite IH; simpl; [done|]. rewrite length_insert. lia.
Qed.

Lemma read_head_ok s v x n :
  brep (io s) v → v_held v = ∅ → v_dirty v = ∅ → l_dev (lg s) = ROOTDEV →
  0 ≤ l_start (lg s) < 2 ^ 32 → v_disk v !! l_start (lg s) = Some x →
  s32 (word_at x 0) = Z.of_nat n → (n ≤ length (lh_block (lg s)))%nat →
  ∃ t, brep t v ∧ read_head s =
    Ok tt (LState (set_block (get_words n 0 x (lh_block (lg s))) (set_n (Z.of_nat n) (lg s))) t).
Proof.
  intros H Hh Hdty Hdev Rs Hx Hn Hlen.
  assert (v_view v !! l_start (lg s) = Some x) as Hvx.
  { rewrite (brep_clean _ _ _ H); [done|]. rewrite pinned_none, Hdty by done. set_solver. }
  destruct (bread_ok _ _ (l_start (lg s)) H) as (i & t1 & E1 & _ & H1); [eauto| | |].
  { rewrite held_blocks_none by done. set_solver. }
  { right. rewrite pinned_none, Hdty, size_empty by done. unfold NBUF_n, NBUF, MAXOPBLOCKS. lia. }
  assert (buf_data i t1 = Ok x t1) as E2.
  { eapply buf_data_ok; [done|..|done]. simpl. by rewrite lookup_insert_eq. }
  edestruct (brelse_ok _ _ i (l_start (lg s)) H1) as (t5 & E5 & H5);
    [simpl; by rewrite lookup_insert_eq|right; simpl; congruence|].
  exists t5. split.
  - simpl in H5. unfold set_held in H5. simpl in H5. rewrite clear_held1 in H5 by done.
    by destruct v.
  - unfold read_head. mstep (ask_ok l_dev s). mstep (ask_ok l_start s).
    rewrite Hdev, (u32_small (l_start (lg s))), (u32_small ROOTDEV) by done.
    bstep E1. bstep E2. rewrite Hn. unfold mbind at 1, M_bind at 1, upd at 1. cbn [lg io].
    erewrite bind_ok by apply ask_ok. cbn [lg lh_n set_n]. rewrite Nat2Z.id.
    erewrite bind_ok by (apply (read_head_loop_ok _ n 0); simpl; lia).
    exact (bio_ok _ (LState _ t1) _ _ E5).
Qed.

(** ** Commit *)

(** The log area lies on the disk and its header is a full block. *)
Record log_area (l : log) (m : gmap Z block) : Prop := LogArea {
  la_dev : l_dev l = ROOTDEV;
  la_start : 0 ≤ l_start l;
  la_end : l_start l + l_size l < 2 ^ 31;
  la_len : length (lh_block l) = LOGSIZE_n;
  la_blocks b : in_log l b → is_Some (m !! b);
}.

(** The blocks [bl] that the header [l] lists, with their contents [xs] in
    the cache: no duplicates, none of them in the log area, and exactly
    these are dirty. *)
Record tx (l : log) (bl : list Z) (xs : list block) (v : bview) : Prop := Tx {
  tx_n : lh_n l = Z.of_nat (length bl);
  tx_lh k b : bl !! k = Some b → lh_block l !! k = Some b;
  tx_nodup : NoDup bl;
  tx_size : Z.of_nat (length bl) < l_size l;
  tx_nbuf : (length bl < NBUF_n)%nat;
  tx_home b : b ∈ bl → 0 ≤ b < 2 ^ 31 ∧ ¬ in_log l b;
  tx_dirty : v_dirty v = list_to_set bl;
  tx_xs : length xs = length bl;
  tx_view i b x : bl !! i = Some b → xs !! i = Some x → v_view v !! b = Some x;
}.

(** The disk writes of a commit, in order: the data blocks to the log, the
    header, the data blocks to their homes, the cleared header. *)
Definition commit_writes (start : Z) (bl : list Z) (xs : list block) (h : block)
    : list (Z * block) :=
  zip (seqZ (start + 1) (Z.of_nat (length bl))) xs ++ [(start, header bl h)] ++
  zip bl xs ++ [(start, header [] (header bl h))].

Lemma copied_copy_all b x v : copied b x v = copy_all [(b, x)] v.
Proof. done. Qed.

Lemma copy_all_app ps qs v : copy_all (ps ++ qs) v = copy_all qs (copy_all ps v).
Proof. apply foldl_app. Qed.

Lemma zip_fst {A B} (l : list A) (k : list B) :
  length l = length k → (zip l k).*1 = l.
Proof. intros. apply fst_zip. lia. Qed.

Lemma log_seq_elem l n b :
  b ∈ seqZ (l_start l + 1) (Z.of_nat n) → Z.of_nat n < l_size l → in_log l b ∧ b ≠ l_start l.
Proof. rewrite elem_of_seqZ. unfold in_log. lia. Qed.

Lemma tx_size_dirty l bl xs v : tx l bl xs v → (size (v_dirty v) < NBUF_n)%nat.
Proof.
  intros H. rewrite (tx_dirty _ _ _ _ H), size_list_to_set by apply (tx_nodup _ _ _ _ H).
  apply (tx_nbuf _ _ _ _ H).
Qed.

Lemma tx_log_clean l bl xs v b : tx l bl xs v → in_log l b → b ∉ v_dirty v.
Proof.
  intros H Hb. rewrite (tx_dirty _ _ _ _ H), elem_of_list_to_set. intros Hin.
  by apply (tx_home _ _ _ _ H) in Hin as [_ ?].
Qed.

Lemma tx_home_ok s bl xs v m :
  tx (lg s) bl xs v → (∀ b, b ∈ bl → is_Some (m !! b)) → home_ok (lg s) 0 bl m.
Proof.
  intros H Hm i b Hi. assert (b ∈ bl) as Hb by (apply list_elem_of_lookup; eauto).
  destruct (tx_home _ _ _ _ H b Hb). split_and!; [by apply (tx_lh _ _ _ _ H)|lia..|auto|done].
Qed.

(** [write_log] copies the transaction into the log area. *)
Lemma write_log_ok s v bl xs :
  brep (io s) v → v_held v = ∅ → log_area (lg s) (v_disk v) → tx (lg s) bl xs v →
  ∃ t, write_log s = Ok tt (LState (lg s) t) ∧
    brep t (copy_all (zip (seqZ (l_start (lg s) + 1) (Z.of_nat (length bl))) xs) v).
Proof.
  intros H Hh La Htx. pose proof (tx_size _ _ _ _ Htx).
  destruct (write_log_loop_ok s v 0 bl xs) as (t & E & Ht); try done.
  - apply (la_dev _ _ La).
  - apply (tx_xs _ _ _ _ Htx).
  - eapply tx_home_ok; [done|]. intros b Hb. apply (brep_dom _ _ _ H).
    eapply brep_dirty; [done|]. rewrite (tx_dirty _ _ _ _ Htx). by apply elem_of_list_to_set.
  - intros i Hi. pose proof (la_start _ _ La). pose proof (la_end _ _ La).
    assert (in_log (lg s) (l_start (lg s) + 0 + 1 + Z.of_nat i)) by (unfold in_log; lia).
    simpl. split; [lia|]. split; [done|].
    split; [by apply (la_blocks _ _ La)|by eapply tx_log_clean].
  - intros i b x Hb Hx. split; [by eapply (tx_view _ _ _ _ Htx)|].
    rewrite (tx_dirty _ _ _ _ Htx), elem_of_list_to_set. apply list_elem_of_lookup. eauto.
  - by eapply tx_size_dirty.
  - exists t. rewrite Z.add_0_r in Ht. split; [|done].
    unfold write_log. mstep (ask_ok lh_n s). by rewrite (tx_n _ _ _ _ Htx), Nat2Z.id.
Qed.

(** [install_trans] copies the logged blocks to their homes. *)
Lemma install_trans_ok s v bl xs :
  brep (io s) v → v_held v = ∅ → log_area (lg s) (v_disk v) →
  lh_n (lg s) = Z.of_nat (length bl) →
  (∀ k b, bl !! k = Some b → lh_block (lg s) !! k = Some b) →
  NoDup bl → Z.of_nat (length bl) < l_size (lg s) → length xs = length bl →
  (∀ b, b ∈ bl → 0 ≤ b < 2 ^ 31 ∧ ¬ in_log (lg s) b ∧ is_Some (v_disk v !! b)) →
  (∀ i x, xs !! i = Some x → v_disk v !! (l_start (lg s) + 1 + Z.of_nat i) = Some x) →
  (∀ b, in_log (lg s) b → b ∉ v_dirty v) → (size (v_dirty v) < NBUF_n)%nat →
  (∀ b, b ∈ bl → b ∈ v_dirty v) ∨ (size (v_dirty v) + 1 < NBUF_n)%nat →
  ∃ t, install_trans s = Ok tt (LState (lg s) t) ∧ brep t (copy_all (zip bl xs) v).
Proof.
  intros H Hh La Hn Hlh Hnd Hsz Hlen Hhome Hxs Hclean Hdty Hroom.
  destruct (install_loop_ok s v 0 bl xs) as (t & E & Ht); try done.
  - apply (la_dev _ _ La).
  - intros i b Hi. assert (b ∈ bl) as Hb by (apply list_elem_of_lookup; eauto).
    destruct (Hhome b Hb) as (? & ? & ?). split_and!; [by apply Hlh|lia..|done|done].
  - intros i Hi. pose proof (la_start _ _ La). pose proof (la_end _ _ La).
    assert (in_log (lg s) (l_start (lg s) + 0 + 1 + Z.of_nat i)) by (unfold in_log; lia).
    simpl. split; [lia|]. split; [done|]. split; [by apply (la_blocks _ _ La)|by apply Hclean].
  - intros i x Hi. rewrite Z.add_0_r. by apply Hxs.
  - exists t. split; [|done]. unfold install_trans. mstep (ask_ok lh_n s). by rewrite Hn, Nat2Z.id.
Qed.

Lemma log_area_writes l m ps : log_area l m → log_area l (apply_writes ps m).
Proof.
  intros H. split; try apply H. intros b Hb. apply (la_blocks _ _ H) in Hb.
  clear H. revert m Hb. induction ps as [|[c x] ps IH]; intros m Hb; [done|].
  unfold apply_writes in *. simpl. apply IH.
  destruct (decide (c = b)) as [->|]; [rewrite lookup_insert_eq; eauto|by rewrite lookup_insert_ne].
Qed.

Lemma upd_ok f s : upd f s = Ok tt (LState (f (lg s)) (io s)).
Proof. done. Qed.

(** The disk after the data blocks have gone to the log. *)
Lemma log_written (bl : list Z) (xs : list block) start (m : gmap Z block) i x :
  length xs = length bl → xs !! i = Some x →
  apply_writes (zip (seqZ (start + 1) (Z.of_nat (length bl))) xs) m !! (start + 1 + Z.of_nat i)
    = Some x.
Proof.
  intros Hlen Hx. pose proof (lookup_lt_Some _ _ _ Hx).
  apply (apply_writes_eq _ _ i).
  - rewrite zip_fst by (rewrite length_seqZ; lia). apply NoDup_seqZ.
  - apply lookup_zip_Some. split; [|done]. apply lookup_seqZ. lia.
Qed.

(** A commit performs exactly [commit_writes] and leaves the log empty. *)
Lemma commit_ok s v bl xs h :
  brep (io s) v → v_held v = ∅ → log_area (lg s) (v_disk v) → tx (lg s) bl xs v →
  bl ≠ [] → v_disk v !! l_start (lg s) = Some h →
  ∃ t, commit s = Ok tt (LState (set_n 0 (lg s)) t) ∧
    brep t (copy_all (commit_writes (l_start (lg s)) bl xs h) v).
Proof.
  intros H Hh La Htx Hne Hhd. set (st := l_start (lg s)).
  pose proof (tx_size _ _ _ _ Htx) as Hsz. pose proof (tx_xs _ _ _ _ Htx) as Hlen.
  pose proof (la_start _ _ La) as Hlo. pose proof (la_end _ _ La) as Hhi.
  assert (length bl ≠ 0)%nat as Hl0 by (by destruct bl).
  assert (in_log (lg s) st) as Hst by (unfold in_log, st; lia).
  assert (∀ b, b ∈ bl → 0 ≤ b < 2 ^ 31 ∧ ¬ in_log (lg s) b ∧ is_Some (v_disk v !! b)) as Hhome.
  { intros b Hb. destruct (tx_home _ _ _ _ Htx b Hb). split; [done|]. split; [done|].
    apply (brep_dom _ _ _ H). eapply brep_dirty; [done|].
    rewrite (tx_dirty _ _ _ _ Htx). by apply elem_of_list_to_set. }
  set (ws := zip (seqZ (st + 1) (Z.of_nat (length bl))) xs).
  assert (ws.*1 = seqZ (st + 1) (Z.of_nat (length bl))) as Hws
    by (apply zip_fst; rewrite length_seqZ; lia).
  assert (v_dirty v ∖ list_to_set ws.*1 = v_dirty v) as Hd1.
  { apply set_eq. intros b. rewrite elem_of_difference, elem_of_list_to_set, Hws.
    split; [tauto|]. intros Hb. split; [done|]. intros Hin%log_seq_elem; [|done].
    by eapply tx_log_clean; [| |apply Hb]; [|apply Hin]. }
  assert (st ∉ ws.*1) as Hst1 by (rewrite Hws; intros [_ ?]%log_seq_elem; done).
  (* write_log *)
  destruct (write_log_ok s v bl xs H Hh La Htx) as (t1 & E1 & H1).
  fold st ws in H1. rewrite copy_all_spec, Hd1 in H1.
  (* write_head *)
  destruct (write_head_ok (LState (lg s) t1) _ bl h H1) as (t2 & E2 & H2); simpl; [done|..].
  { apply (la_dev _ _ La). } { fold st. lia. } { apply (tx_n _ _ _ _ Htx). }
  { apply (tx_lh _ _ _ _ Htx). } { by rewrite apply_writes_ne. } { by eapply tx_log_clean. }
  { by eapply tx_size_dirty. }
  simpl in H2. fold st in H2.
  assert (v_dirty v ∖ {[st]} = v_dirty v) as Hd2.
  { pose proof (tx_log_clean _ _ _ _ _ Htx Hst). set_solver. }
  unfold copied, written in H2. simpl in H2. rewrite Hd2 in H2.
  (* install_trans *)
  destruct (install_trans_ok (LState (lg s) t2) _ bl xs H2) as (t3 & E3 & H3); simpl;
    [done| |apply (tx_n _ _ _ _ Htx)|apply (tx_lh _ _ _ _ Htx)|apply (tx_nodup _ _ _ _ Htx)
    |done|done| | | |by eapply tx_size_dirty|left|].
  { pose proof (log_area_writes (lg s) (v_disk v) (ws ++ [(st, header bl h)]) La) as La'.
    rewrite apply_writes_app in La'. exact La'. }
  { intros b Hb. destruct (Hhome b Hb) as (? & Hout & ?). split_and!; [lia..|done|].
    rewrite lookup_insert_ne by (by eapply in_log_ne). rewrite apply_writes_ne; [done|].
    rewrite Hws. intros [? _]%log_seq_elem; done. }
  { intros i x Hx. fold st. rewrite lookup_insert_ne by lia. by apply log_written. }
  { intros b Hb. by eapply tx_log_clean. }
  { intros b Hb. rewrite (tx_dirty _ _ _ _ Htx). by apply elem_of_list_to_set. }
  rewrite copy_all_spec in H3. simpl in H3. rewrite zip_fst in H3 by done.
  assert (v_dirty v ∖ list_to_set bl = ∅) as Hd3.
  { rewrite (tx_dirty _ _ _ _ Htx). set_solver. }
  rewrite Hd3 in H3.
  (* the cleared header *)
  destruct (write_head_ok (LState (set_n 0 (lg s)) t3) _ [] (header bl h) H3)
    as (t4 & E4 & H4); simpl; [done|apply (la_dev _ _ La)|fold st; lia|done|done| |set_solver| |].
  { fold st. rewrite apply_writes_ne; [by rewrite lookup_insert_eq|].
    rewrite zip_fst by done. intros Hb. by apply Hhome in Hb as (_ & ? & _). }
  { vm_compute. lia. }
  exists t4. split.
  - unfold commit. mstep (ask_ok lh_n s). rewrite (tx_n _ _ _ _ Htx).
    destruct (Z.ltb_spec 0 (Z.of_nat (length bl))); [|lia].
    mstep E1. mstep E2. mstep E3. mstep (upd_ok (set_n 0) (LState (lg s) t3)). exact E4.
  - unfold commit_writes. fold ws. simpl in H4. fold st in H4.
    rewrite copy_all_spec. unfold copied, written in H4. simpl in H4.
    rewrite !apply_writes_app. rewrite !fmap_app, zip_fst, !list_to_set_app_L by done.
    replace (v_dirty v ∖ _) with (∅ ∖ {[st]} : gset Z); [|rewrite (tx_dirty _ _ _ _ Htx); set_solver].
    rewrite <- !app_assoc in H4. exact H4.
Qed.

(** ** Recovery *)

(** The on-disk header [h] lists [bl], and the log blocks hold [xs]. *)
Record logged (l : log) (bl : list Z) (xs : list block) (h : block) (m : gmap Z block) : Prop :=
  Logged {
  lo_h : m !! l_start l = Some h;
  lo_n : s32 (word_at h 0) = Z.of_nat (length bl);
  lo_blk k b : bl !! k = Some b → s32 (word_at h (1 + k)) = b;
  lo_max : (length bl ≤ LOGSIZE_n)%nat;
  lo_size : Z.of_nat (length bl) < l_size l;
  lo_nodup : NoDup bl;
  lo_home b : b ∈ bl → 0 ≤ b < 2 ^ 31 ∧ ¬ in_log l b ∧ is_Some (m !! b);
  lo_len : length xs = length bl;
  lo_xs i x : xs !! i = Some x → m !! (l_start l + 1 + Z.of_nat i) = Some x;
}.

(** A freshly booted cache. *)
Definition fresh (m : gmap Z block) (w : list (Z * block)) : bview := BView m m ∅ ∅ w.

Lemma recover_ok s bl xs h m w :
  brep (io s) (fresh m w) → log_area (lg s) m → logged (lg s) bl xs h m →
  ∃ t lb, recover_from_log s = Ok tt (LState (set_n 0 (set_block lb (lg s))) t) ∧
    length lb = LOGSIZE_n ∧
    brep t (fresh (apply_writes (zip bl xs ++ [(l_start (lg s), header [] h)]) m)
              (w ++ zip bl xs ++ [(l_start (lg s), header [] h)])).
Proof.
  intros H La Lo. set (st := l_start (lg s)).
  pose proof (la_start _ _ La) as Hlo. pose proof (la_end _ _ La) as Hhi.
  pose proof (lo_size _ _ _ _ _ Lo) as Hsz. pose proof (lo_max _ _ _ _ _ Lo) as Hmax.
  pose proof (la_len _ _ La) as Hlen.
  destruct (read_head_ok s _ h (length bl) H) as (t1 & H1 & E1);
    simpl; [done|done|apply (la_dev _ _ La)|lia|apply (lo_h _ _ _ _ _ Lo)
    |apply (lo_n _ _ _ _ _ Lo)|lia|].
  set (l1 := set_block _ _) in E1.
  assert (log_area l1 m) as La1.
  { split; try apply La. simpl. by rewrite length_get_words. }
  assert (∀ k b, bl !! k = Some b → lh_block l1 !! k = Some b) as Hlh.
  { intros k b Hk. pose proof (lookup_lt_Some _ _ _ Hk).
    simpl. rewrite <- (lo_blk _ _ _ _ _ Lo k b Hk).
    exact (get_words_eq (length bl) 0 h (lh_block (lg s)) k ltac:(lia) ltac:(lia)). }
  destruct (install_trans_ok (LState l1 t1) _ bl xs H1) as (t2 & E2 & H2); simpl;
    [done|done|done|done|apply Lo|done|apply Lo|apply Lo|apply Lo|set_solver
    |vm_compute; lia|right; vm_compute; lia|].
  rewrite copy_all_spec in H2. simpl in H2.
  destruct (write_head_ok (LState (set_n 0 l1) t2) _ [] h H2) as (t3 & E3 & H3); simpl;
    [done|apply (la_dev _ _ La)|lia|done|done| |set_solver| |].
  { rewrite apply_writes_ne; [apply Lo|]. rewrite zip_fst by (symmetry; apply Lo).
    intros Hb%(lo_home _ _ _ _ _ Lo). unfold in_log in Hb. lia. }
  { replace (∅ ∖ _) with (∅ : gset Z) by set_solver. vm_compute. lia. }
  exists t3, (lh_block l1). split_and!; [|apply (la_len _ _ La1)|].
  - unfold recover_from_log. mstep E1. mstep E2. mstep (upd_ok (set_n 0) (LState l1 t2)). exact E3.
  - unfold fresh. rewrite !apply_writes_app, app_assoc. unfold copied, written in H3. simpl in H3.
    replace (∅ ∖ list_to_set (zip bl xs).*1 ∖ {[l_start (lg s)]}) with (∅ : gset Z) in H3
      by set_solver. exact H3.
Qed.
End proofs.
