(* ===== verification/LogCrash.v ===== *)
(** * Crash atomicity of a commit

    A crash during [commit] leaves the disk with some prefix of
    [commit_writes] applied.  Recovery from any such disk is shown to give
    either none or all of the transaction. *)

From S2P Require Import Prelude Params Disk BlockCache Superblock Log LogProofs.

Section proofs.
Context {S : Type} `{!BlockCache S}.
Implicit Types (s : lstate S) (t : S) (v : bview).

(** ** Crashes *)

(** Redoing a partly performed sequence of writes gives the whole of it. *)
Lemma apply_writes_redo ps m j b :
  NoDup ps.*1 → apply_writes ps (apply_writes (take j ps) m) !! b = apply_writes ps m !! b.
Proof.
  intros Hnd. destruct (decide (b ∈ ps.*1)) as [Hb|Hb].
  - apply list_elem_of_fmap in Hb as ([c x] & -> & (i & Hi)%list_elem_of_lookup). simpl.
    trans (Some x); [|symmetry]; by apply (apply_writes_eq _ _ i).
  - rewrite !(apply_writes_ne ps) by done. apply apply_writes_ne.
    rewrite fmap_take. by intros Hin%subseteq_take.
Qed.

Lemma apply_writes_some ps m b :
  is_Some (m !! b) → is_Some (apply_writes ps m !! b).
Proof.
  revert m. induction ps as [|[c x] ps IH]; intros m Hb; [done|].
  unfold apply_writes in *. simpl. apply IH.
  destruct (decide (c = b)) as [->|]; [rewrite lookup_insert_eq; eauto|by rewrite lookup_insert_ne].
Qed.

(** A disk whose header is empty has nothing to install. *)
Lemma logged_nil l h m :
  m !! l_start l = Some h → s32 (word_at h 0) = 0 → 0 < l_size l → logged l [] [] h m.
Proof. intros. split; simpl; try done; [lia|constructor|set_solver]. Qed.

Lemma tx_ws_fst l bl xs v :
  tx l bl xs v → (zip (seqZ (l_start l + 1) (Z.of_nat (length bl))) xs).*1 =
    seqZ (l_start l + 1) (Z.of_nat (length bl)).
Proof. intros Htx. apply zip_fst. rewrite length_seqZ, (tx_xs _ _ _ _ Htx). lia. Qed.

Lemma tx_ws_length l bl xs v :
  tx l bl xs v → length (zip (seqZ (l_start l + 1) (Z.of_nat (length bl))) xs) = length bl.
Proof. intros Htx. rewrite length_zip_with, length_seqZ, (tx_xs _ _ _ _ Htx). lia. Qed.

Lemma tx_cs_fst l bl xs v : tx l bl xs v → (zip bl xs).*1 = bl.
Proof. intros Htx. apply zip_fst. symmetry. apply (tx_xs _ _ _ _ Htx). Qed.

Lemma tx_cs_length l bl xs v : tx l bl xs v → length (zip bl xs) = length bl.
Proof. intros Htx. rewrite length_zip_with, (tx_xs _ _ _ _ Htx). lia. Qed.

Lemma tx_writes_length l bl xs v h :
  tx l bl xs v → length (commit_writes (l_start l) bl xs h) = (2 * length bl + 2)%nat.
Proof.
  intros Htx. unfold commit_writes.
  rewrite !length_app, (tx_ws_length _ _ _ _ Htx), (tx_cs_length _ _ _ _ Htx). simpl. lia.
Qed.

(** A block has room for a header that lists every log block. *)
Lemma log_header_room (bl : list Z) (h : block) :
  (length bl ≤ LOGSIZE_n)%nat → length h = BSIZE_n → (4 + 4 * length bl ≤ length h)%nat.
Proof. intros ? ->. unfold LOGSIZE_n, LOGSIZE, MAXOPBLOCKS, BSIZE_n, BSIZE in *. lia. Qed.

Section crash.
Context (l : log) (bl : list Z) (xs : list block) (h : block) (v : bview).
Context (La : log_area l (v_disk v)) (Htx : tx l bl xs v).
Context (Hmax : (length bl ≤ LOGSIZE_n)%nat).
Context (Hhd : v_disk v !! l_start l = Some h) (Hh0 : s32 (word_at h 0) = 0).
Context (Hlen : length h = BSIZE_n).
Context (Hon : ∀ b, b ∈ bl → is_Some (v_disk v !! b)).

Definition crash_disk (k : nat) : gmap Z block :=
  apply_writes (take k (commit_writes (l_start l) bl xs h)) (v_disk v).

Notation n := (length bl).
Notation ws := (zip (seqZ (l_start l + 1) (Z.of_nat n)) xs).

Let ws_fst : ws.*1 = seqZ (l_start l + 1) (Z.of_nat n) := tx_ws_fst _ _ _ _ Htx.
Let ws_length : length ws = n := tx_ws_length _ _ _ _ Htx.
Let cs_fst : (zip bl xs).*1 = bl := tx_cs_fst _ _ _ _ Htx.
Let cs_length : length (zip bl xs) = n := tx_cs_length _ _ _ _ Htx.

Let header_room : (4 + 4 * n ≤ length h)%nat := log_header_room _ _ Hmax Hlen.

Lemma n_small : Z.of_nat n < 2 ^ 31.
Proof. unfold LOGSIZE_n, LOGSIZE, MAXOPBLOCKS in *. lia. Qed.

(** Before the header is written the old contents are intact. *)
Lemma crash_before k :
  (k ≤ n)%nat → logged l [] [] h (crash_disk k) ∧
    ∀ b, ¬ in_log l b → crash_disk k !! b = v_disk v !! b.
Proof.
  intros Hk. pose proof (tx_size _ _ _ _ Htx) as Hsz.
  assert (∀ b, b = l_start l ∨ ¬ in_log l b → crash_disk k !! b = v_disk v !! b) as Hsame.
  { intros b Hb. unfold crash_disk, commit_writes.
    rewrite take_app_le by (rewrite ws_length; lia).
    apply apply_writes_ne. rewrite fmap_take, ws_fst. intros Hin%subseteq_take.
    apply log_seq_elem in Hin as [? ?]; [|done]. destruct Hb; done. }
  split; [|intros; apply Hsame; by right].
  apply logged_nil; [rewrite Hsame by (by left)|done|lia]. done.
Qed.

Lemma crash_disk_installing j :
  (j ≤ n)%nat → crash_disk (n + 1 + j) =
    apply_writes (take j (zip bl xs)) (<[l_start l := header bl h]> (apply_writes ws (v_disk v))).
Proof.
  intros Hj. unfold crash_disk, commit_writes.
  replace (n + 1 + j)%nat with (length ws + (1 + j))%nat by (rewrite ws_length; lia).
  rewrite take_app_add. simpl. rewrite take_app_le by (rewrite cs_length; lia).
  by rewrite apply_writes_app.
Qed.

Notation logged_disk := (<[l_start l := header bl h]> (apply_writes ws (v_disk v))).

Lemma logged_disk_out b : ¬ in_log l b → logged_disk !! b = v_disk v !! b.
Proof.
  intros Hb. pose proof (tx_size _ _ _ _ Htx) as Hsz.
  rewrite lookup_insert_ne by (intros <-; apply Hb; unfold in_log; lia).
  apply apply_writes_ne. rewrite ws_fst. intros [? _]%log_seq_elem; done.
Qed.

Lemma apply_home_ext m m' b :
  m !! b = m' !! b → apply_writes (zip bl xs) m !! b = apply_writes (zip bl xs) m' !! b.
Proof.
  intros Hm. destruct (decide (b ∈ bl)) as [Hin|Hin].
  - rewrite <- cs_fst in Hin.
    apply list_elem_of_fmap in Hin as ([c x] & -> & (i & Hi)%list_elem_of_lookup). simpl.
    trans (Some x); [|symmetry]; apply (apply_writes_eq _ _ i); try done;
      rewrite cs_fst; apply (tx_nodup _ _ _ _ Htx).
  - by rewrite !apply_writes_ne by (by rewrite cs_fst).
Qed.

(** Once the header is written the log holds the transaction, however
    much of it has been installed. *)
Lemma crash_installing j :
  (j ≤ n)%nat → logged l bl xs (header bl h) (crash_disk (n + 1 + j)) ∧
    ∀ b, ¬ in_log l b → apply_writes (zip bl xs) (crash_disk (n + 1 + j)) !! b =
      apply_writes (zip bl xs) (v_disk v) !! b.
Proof.
  intros Hj. rewrite crash_disk_installing by done. pose proof header_room.
  assert (∀ b, in_log l b → b ∉ (take j (zip bl xs)).*1) as Hlog.
  { intros b Hb Hin. rewrite fmap_take, cs_fst in Hin. apply subseteq_take in Hin.
    by apply (tx_home _ _ _ _ Htx) in Hin as [_ ?]. }
  pose proof (tx_size _ _ _ _ Htx) as Hsz.
  split; [split|].
  - rewrite apply_writes_ne; [by rewrite lookup_insert_eq|]. apply Hlog. unfold in_log. lia.
  - apply header_n; [lia|apply n_small].
  - intros k b Hk. apply header_block; [done|done|].
    assert (b ∈ bl) as Hb%(tx_home _ _ _ _ Htx) by (apply list_elem_of_lookup; eauto). lia.
  - done.
  - done.
  - apply (tx_nodup _ _ _ _ Htx).
  - intros b Hb. destruct (tx_home _ _ _ _ Htx b Hb) as [? Hout]. split_and!; [lia..|done|].
    apply apply_writes_some. rewrite logged_disk_out by done. by apply Hon.
  - apply (tx_xs _ _ _ _ Htx).
  - intros i x Hx. pose proof (lookup_lt_Some _ _ _ Hx). pose proof (tx_xs _ _ _ _ Htx).
    rewrite apply_writes_ne by (apply Hlog; unfold in_log; lia).
    rewrite lookup_insert_ne by lia. by apply log_written.
  - intros b Hb. rewrite apply_writes_redo by (rewrite cs_fst; apply (tx_nodup _ _ _ _ Htx)).
    by apply apply_home_ext, logged_disk_out.
Qed.

(** After the header is cleared everything is home. *)
Lemma crash_after k :
  (2 * n + 2 ≤ k)%nat → logged l [] [] (header [] (header bl h)) (crash_disk k) ∧
    ∀ b, ¬ in_log l b → crash_disk k !! b = apply_writes (zip bl xs) (v_disk v) !! b.
Proof.
  intros Hk. pose proof header_room. pose proof (tx_size _ _ _ _ Htx) as Hsz.
  assert (crash_disk k = <[l_start l := header [] (header bl h)]>
            (apply_writes (zip bl xs) logged_disk)) as ->.
  { unfold crash_disk, commit_writes. rewrite take_ge.
    - by rewrite apply_writes_app, apply_writes_app, apply_writes_app.
    - rewrite !length_app, ws_length, cs_length. simpl. lia. }
  split.
  - apply logged_nil; [by rewrite lookup_insert_eq| |lia].
    rewrite header_n; [done|rewrite length_header; simpl; lia|simpl; lia].
  - intros b Hb. rewrite lookup_insert_ne by (intros <-; apply Hb; unfold in_log; lia).
    by apply apply_home_ext, logged_disk_out.
Qed.

(** What recovery finds after a crash at any point. *)
Lemma crash_logged k :
  ∃ bl' xs' h', logged l bl' xs' h' (crash_disk k) ∧
    ∀ b, ¬ in_log l b → apply_writes (zip bl' xs') (crash_disk k) !! b =
      if decide (k ≤ n)%nat then v_disk v !! b else apply_writes (zip bl xs) (v_disk v) !! b.
Proof.
  destruct (decide (k ≤ n)%nat) as [Hk|Hk].
  { destruct (crash_before k Hk). by exists [], [], h. }
  destruct (decide (2 * n + 2 ≤ k)%nat) as [Hk'|Hk'].
  { destruct (crash_after k Hk'). by exists [], [], (header [] (header bl h)). }
  destruct (crash_installing (k - (n + 1))) as [Hlo Hd]; [lia|].
  replace (n + 1 + (k - (n + 1)))%nat with k in Hlo, Hd by lia.
  by exists bl, xs, (header bl h).
Qed.

(** The view after the transaction is the disk with it installed. *)
Lemma tx_view_disk t b :
  brep t v → v_held v = ∅ → v_view v !! b = apply_writes (zip bl xs) (v_disk v) !! b.
Proof.
  intros Hrep Hh. destruct (decide (b ∈ bl)) as [(i & Hi)%list_elem_of_lookup|Hb].
  - destruct (lookup_lt_is_Some_2 xs i) as [x Hx].
    { rewrite (tx_xs _ _ _ _ Htx). by eapply lookup_lt_Some. }
    rewrite (tx_view _ _ _ _ Htx i b x Hi Hx). symmetry. apply (apply_writes_eq _ _ i).
    + rewrite cs_fst. apply (tx_nodup _ _ _ _ Htx).
    + by apply lookup_zip_Some.
  - rewrite apply_writes_ne by (by rewrite cs_fst).
    apply (brep_clean _ _ _ Hrep). rewrite pinned_none, (tx_dirty _ _ _ _ Htx) by done.
    by rewrite elem_of_list_to_set.
Qed.
End crash.

Lemma logged_geom l l' bl xs h m :
  l_start l' = l_start l → l_size l' = l_size l → logged l bl xs h m → logged l' bl xs h m.
Proof. unfold in_log. intros E1 E2 []. split; unfold in_log; rewrite ?E1, ?E2; done. Qed.

(** ** initlog *)

(** Block 1 is a superblock that places the log where [l] has it. *)
Definition sb_places (l : log) (m : gmap Z block) : Prop :=
  ∃ x, m !! 1 = Some x ∧ sb_logstart (sb_decode x) = l_start l ∧ sb_nlog (sb_decode x) = l_size l.

(** Reading the superblock leaves the cache as it was. *)
Lemma readsb_ok t m w x :
  brep t (fresh m w) → m !! 1 = Some x →
  ∃ t', readsb ROOTDEV t = Ok (sb_decode x) t' ∧ brep t' (fresh m w).
Proof.
  intros Hrep Hx.
  destruct (bread_ok _ _ 1 Hrep) as (i & t1 & E1 & Hi & H1); [by eexists| | |].
  { unfold held_blocks. simpl. rewrite map_img_empty_L. set_solver. }
  { right. vm_compute. lia. }
  edestruct (brelse_ok _ _ i 1 H1) as (t2 & E2 & H2);
    [simpl; by rewrite lookup_insert_eq|by right|].
  exists t2. split.
  - unfold readsb. change (u32 ROOTDEV) with ROOTDEV. mstep E1.
    erewrite bind_ok by (eapply buf_data_ok; [exact H1|simpl; by rewrite lookup_insert_eq|done]).
    by mstep E2.
  - simpl in H2. unfold set_held in H2. simpl in H2. rewrite delete_insert_id in H2; done.
Qed.

(** [initlog] on a machine that has just booted installs whatever the
    on-disk header lists, and empties the log. *)
Lemma initlog_ok s l bl xs h m w :
  lg s = log_zero → brep (io s) (fresh m w) → log_area l m → 0 ≤ l_size l → sb_places l m →
  logged l bl xs h m →
  ∃ s1 m', initlog ROOTDEV s = Ok tt s1 ∧
    m' = apply_writes (zip bl xs ++ [(l_start l, header [] h)]) m ∧
    lh_n (lg s1) = 0 ∧ l_start (lg s1) = l_start l ∧ l_size (lg s1) = l_size l ∧
    l_outstanding (lg s1) = 0 ∧ l_committing (lg s1) = 0 ∧
    log_area (lg s1) m' ∧
    brep (io s1) (fresh m' (w ++ zip bl xs ++ [(l_start l, header [] h)])).
Proof.
  intros Hs Hrep La Hsz (x & Hx & Est & Enl) Hlo.
  destruct (readsb_ok _ _ _ _ Hrep Hx) as (t & E & Ht).
  set (l1 := Log (l_start l) (l_size l) 0 0 ROOTDEV 0 (lh_block log_zero)).
  assert (log_area l1 m) as La1 by (by destruct La; split).
  pose proof (la_start _ _ La). pose proof (la_end _ _ La).
  destruct (recover_ok (LState l1 t) bl xs h m w Ht La1) as (t' & lb & E' & Hlb & Ht').
  { by apply (logged_geom l). }
  eexists _, _. split; [|split; [reflexivity|]].
  - unfold initlog. change (BSIZE <=? sizeof_logheader) with false. cbn match.
    erewrite bind_ok by (apply bio_ok; exact E). rewrite Est, Enl, !s32_small by lia.
    unfold mbind at 1, M_bind at 1, upd at 1. cbn [lg io]. rewrite Hs. exact E'.
  - simpl. split_and!; try done.
    destruct (log_area_writes _ _ (zip bl xs ++ [(l_start l, header [] h)]) La1). by split.
Qed.

(** The file system after a crash at any point of a commit and a reboot. *)
Lemma recover_crash s v bl xs h k s0 w :
  brep (io s) v → v_held v = ∅ → log_area (lg s) (v_disk v) → tx (lg s) bl xs v →
  (length bl ≤ LOGSIZE_n)%nat →
  v_disk v !! l_start (lg s) = Some h → s32 (word_at h 0) = 0 → length h = BSIZE_n →
  let m := crash_disk (lg s) bl xs h v k in
  lg s0 = log_zero → brep (io s0) (fresh m w) → sb_places (lg s) m →
  ∃ s1 m1 w1, initlog ROOTDEV s0 = Ok tt s1 ∧ lh_n (lg s1) = 0 ∧ brep (io s1) (fresh m1 w1) ∧
    ∀ b, ¬ in_log (lg s) b → m1 !! b =
      if decide (k ≤ length bl)%nat then v_disk v !! b else v_view v !! b.
Proof.
  intros Hrep Hh La Htx Hmax Hhd Hh0 Hlen m Hs0 Hrep0 Hsb.
  assert (∀ b, b ∈ bl → is_Some (v_disk v !! b)) as Hon.
  { intros b Hb. apply (brep_dom _ _ _ Hrep). eapply brep_dirty; [done|].
    rewrite (tx_dirty _ _ _ _ Htx). by apply elem_of_list_to_set. }
  destruct (crash_logged (lg s) bl xs h v Htx Hmax Hhd Hh0 Hlen Hon k)
    as (bl' & xs' & h' & Hlo & Hd).
  pose proof (tx_size _ _ _ _ Htx).
  destruct (initlog_ok s0 (lg s) bl' xs' h' m w)
    as (s1 & m' & E & -> & Hn & _ & _ & _ & _ & _ & Hrep1); try done; [|lia|].
  { apply (log_area_writes _ _ (take k (commit_writes (l_start (lg s)) bl xs h)) La). }
  eexists s1, _, _. split; [exact E|]. split; [done|]. split; [exact Hrep1|]. intros b Hb.
  rewrite apply_writes_app. simpl. unfold apply_writes at 1. simpl. rewrite lookup_insert_ne.
  - unfold m. rewrite Hd by done. destruct (decide _); [done|]. symmetry. by eapply tx_view_disk.
  - intros <-. apply Hb. unfold in_log. lia.
Qed.
End proofs.
