(* ===== verification/LogTx.v ===== *)
(** * Transactions

    [begin_op], [log_write] and [end_op] as a transition system: any number of
    FS system calls interleave, each reserving log space with [begin_op],
    modifying buffers and calling [log_write], and the last one to call
    [end_op] commits for all of them. *)

From S2P Require Import Prelude Params Disk BlockCache Superblock Log LogProofs LogCrash.

#[local] Arguments log_find : simpl never.

Section ops.
Context {S : Type} `{!BlockCache S}.
Implicit Types (s : lstate S) (t : S) (v : bview).

(** The in-memory header lists [bl]; exactly these blocks are dirty. *)
Record log_ok (l : log) (bl : list Z) (v : bview) : Prop := LogOk {
  lk_n : lh_n l = Z.of_nat (length bl);
  lk_lh k b : bl !! k = Some b → lh_block l !! k = Some b;
  lk_nodup : NoDup bl;
  lk_home b : b ∈ bl → 0 ≤ b < 2 ^ 31 ∧ ¬ in_log l b;
  lk_dirty : v_dirty v = list_to_set bl;
}.

(** [bl] with the block [b] logged: a block already there is absorbed. *)
Definition absorb (b : Z) (bl : list Z) : list Z :=
  if decide (b ∈ bl) then bl else bl ++ [b].

Lemma length_absorb b bl : (length (absorb b bl) ≤ length bl + 1)%nat.
Proof. unfold absorb. destruct (decide _); rewrite ?length_app; simpl; lia. Qed.

Lemma elem_of_absorb b c bl : c ∈ absorb b bl ↔ c = b ∨ c ∈ bl.
Proof. unfold absorb. destruct (decide (b ∈ bl)); set_solver. Qed.

Lemma NoDup_absorb b bl : NoDup bl → NoDup (absorb b bl).
Proof.
  unfold absorb. intros. destruct (decide (b ∈ bl)); [done|].
  apply NoDup_app. split; [done|]. split; [set_solver|apply NoDup_singleton].
Qed.

(** [log_find] gives the position of [b], or the number of blocks. *)
Lemma log_find_ok s bl b k i :
  (∀ j c, bl !! j = Some c → lh_block (lg s) !! j = Some c) →
  (∀ c, c ∈ bl → 0 ≤ c < 2 ^ 31) → (k + i = length bl)%nat → b ∉ take i bl →
  ∃ j, log_find k (Z.of_nat i) b s = Ok (Z.of_nat j) s ∧
    (bl !! j = Some b ∨ j = length bl ∧ b ∉ bl).
Proof.
  intros Hlh Hr. revert i. induction k as [|k IH]; intros i Hk Hni.
  - exists i. split; [done|]. right. split; [lia|]. by rewrite take_ge in Hni by lia.
  - destruct (lookup_lt_is_Some_2 bl i) as [c Hc]; [lia|].
    unfold log_find; fold (log_find (S := S)).
    erewrite bind_ok by (apply lh_get_ok; rewrite Nat2Z.id; by apply Hlh).
    assert (c ∈ bl) as Hcr%Hr by (apply list_elem_of_lookup; eauto).
    rewrite u32_small by lia. destruct (Z.eqb_spec c b) as [->|Hne]; [eauto|].
    replace (Z.of_nat i + 1) with (Z.of_nat (Datatypes.S i)) by lia.
    apply IH; [lia|]. rewrite (take_S_r _ _ _ Hc). set_solver.
Qed.

(** The prefix of the header after logging [b] at position [j]. *)
Lemma absorb_lookup bl b j lb :
  bl !! j = Some b ∨ j = length bl ∧ b ∉ bl → (j < length lb)%nat →
  (∀ k c, bl !! k = Some c → lb !! k = Some c) →
  ∀ k c, absorb b bl !! k = Some c → <[j := b]> lb !! k = Some c.
Proof.
  intros Hj Hlen Hlh k c Hk. unfold absorb in Hk. destruct (decide (b ∈ bl)) as [Hb|Hb].
  - destruct Hj as [Hj|[_ ?]]; [|done].
    destruct (decide (j = k)) as [->|]; [|rewrite list_lookup_insert_ne by done; auto].
    rewrite list_lookup_insert_eq by done. congruence.
  - destruct Hj as [Hj|[-> _]]; [destruct Hb; apply list_elem_of_lookup; eauto|].
    apply lookup_app_Some in Hk as [Hk|[Hk1 Hk2]].
    + pose proof (lookup_lt_Some _ _ _ Hk). rewrite list_lookup_insert_ne by lia. auto.
    + apply list_lookup_singleton_Some in Hk2 as [Hk2 <-].
      replace k with (length bl) by lia. by rewrite list_lookup_insert_eq.
Qed.

(** [if (i == log.lh.n) log.lh.n++] *)
Lemma absorb_bump s bl b j :
  lh_n (lg s) = Z.of_nat (length bl) → bl !! j = Some b ∨ j = length bl ∧ b ∉ bl →
  (if Z.of_nat j =? Z.of_nat (length bl) then upd (set_n (Z.of_nat (length bl) + 1))
   else mret tt) s = Ok tt (LState (set_n (Z.of_nat (length (absorb b bl))) (lg s)) (io s)).
Proof.
  intros En Hj. unfold absorb. destruct (Z.eqb_spec (Z.of_nat j) (Z.of_nat (length bl))).
  - destruct Hj as [Hj%lookup_lt_Some|[_ ?]]; [lia|]. rewrite decide_False by done.
    rewrite length_app. simpl. unfold upd. do 3 f_equal. lia.
  - destruct Hj as [Hj|[-> _]]; [|lia].
    rewrite decide_True by (apply list_elem_of_lookup; eauto).
    rewrite <- En. by destruct s as [[] ?].
Qed.

Lemma log_write_ok s v bl i b :
  brep (io s) v → log_ok (lg s) bl v → length (lh_block (lg s)) = LOGSIZE_n →
  lh_n (lg s) < LOGSIZE → lh_n (lg s) < l_size (lg s) - 1 → 1 ≤ l_outstanding (lg s) →
  v_held v !! i = Some b → 0 ≤ b < 2 ^ 31 → ¬ in_log (lg s) b →
  ∃ lb t, log_write i s =
      Ok tt (LState (set_n (Z.of_nat (length (absorb b bl))) (set_block lb (lg s))) t) ∧
    length lb = LOGSIZE_n ∧
    log_ok (set_n (Z.of_nat (length (absorb b bl))) (set_block lb (lg s))) (absorb b bl)
      (set_dirty ({[b]} ∪ v_dirty v) v) ∧
    brep t (set_dirty ({[b]} ∪ v_dirty v) v).
Proof.
  intros Hrep Hlk Hlen Hn Hsz Hout Hi Hb Hnl.
  destruct (buf_pin_ok _ _ i b Hrep Hi) as (t & Ep & Ht).
  destruct (log_find_ok s bl b (length bl) 0) as (j & Ef & Hj);
    [apply Hlk|intros c Hc; by apply (lk_home _ _ _ Hlk)|lia|set_solver|].
  pose proof (lk_n _ _ _ Hlk) as En.
  assert (j ≤ length bl)%nat as Hjn.
  { destruct Hj as [Hj%lookup_lt_Some|[-> _]]; lia. }
  assert (j < length (lh_block (lg s)))%nat as Hjl.
  { rewrite Hlen. unfold LOGSIZE_n. lia. }
  exists (<[j := b]> (lh_block (lg s))), t. split; [|split; [by rewrite length_insert|split; [|done]]].
  - unfold log_write. mstep (ask_ok id s). change (id (lg s)) with (lg s).
    destruct (Z.leb_spec LOGSIZE (lh_n (lg s))); [lia|].
    destruct (Z.leb_spec (l_size (lg s) - 1) (lh_n (lg s))); [lia|]. cbn [orb].
    destruct (Z.ltb_spec (l_outstanding (lg s)) 1); [lia|].
    erewrite bind_ok by (apply bio_ok; by eapply buf_blockno_ok).
    rewrite lstate_eta, En, Nat2Z.id. mstep Ef.
    erewrite bind_ok by (apply (lh_set_ok s j); exact Hjl). rewrite s32_small by lia.
    erewrite bind_ok by (eapply absorb_bump; done). by apply bio_ok.
  - split; simpl; [done| |by apply NoDup_absorb, Hlk| |].
    + apply absorb_lookup; [done|done|apply Hlk].
    + intros c [->|Hc]%elem_of_absorb; [done|by apply (lk_home _ _ _ Hlk)].
    + rewrite (lk_dirty _ _ _ Hlk). apply set_eq. intros c.
      rewrite elem_of_union, !elem_of_list_to_set, elem_of_absorb. set_solver.
Qed.

(** The commit of everything that [bl] lists. *)
Lemma log_ok_tx l bl v t :
  brep t v → log_ok l bl v → Z.of_nat (length bl) < l_size l → (length bl < NBUF_n)%nat →
  tx l bl ((λ b, default [] (v_view v !! b)) <$> bl) v.
Proof.
  intros Hrep Hlk Hsz Hnb.
  assert (∀ b, b ∈ bl → is_Some (v_view v !! b)) as Hv.
  { intros b Hb. eapply brep_dirty; [done|]. rewrite (lk_dirty _ _ _ Hlk).
    by apply elem_of_list_to_set. }
  split; try apply Hlk; [done|done|by rewrite length_fmap|].
  intros i b x Hi Hx. rewrite list_lookup_fmap, Hi in Hx. simplify_eq/=.
  destruct (Hv b) as [x ->]; [|done]. apply list_elem_of_lookup. eauto.
Qed.
End ops.

(** ** The transition system *)

Section system.
Context {S : Type} `{!BlockCache S}.

(** The log and cache with the view they represent; the number of blocks
    each active FS call has logged; the contents of the file system as of
    the last commit. *)
Record conf := Conf {
  c_s : lstate S;
  c_v : bview;
  c_used : list nat;
  c_durable : gmap Z block;
}.

(** The number of blocks an FS call may log. *)
Definition op_budget : nat := Z.to_nat MAXOPBLOCKS - 1.

Definition logged_blocks (l : log) : list Z := take (Z.to_nat (lh_n l)) (lh_block l).

(** The contents of the logged blocks in the cache. *)
Definition logged_data (l : log) (v : bview) : list block :=
  (λ b, default [] (v_view v !! b)) <$> logged_blocks l.

(** The disk writes of a commit of the blocks listed in the header, and the
    view after it. *)
Definition commit_trace (l : log) (v : bview) : list (Z * block) :=
  if decide (logged_blocks l = []) then []
  else commit_writes (l_start l) (logged_blocks l) (logged_data l v)
         (default [] (v_disk v !! l_start l)).

Definition commit_view (l : log) (v : bview) : bview := copy_all (commit_trace l v) v.

Inductive step : conf → conf → Prop :=
| step_begin s v us d s' :
    begin_op s = Ok tt s' → step (Conf s v us d) (Conf s' v (us ++ [0%nat]) d)
| step_bread s v us d b i t :
    ¬ in_log (lg s) b → is_Some (v_disk v !! b) → 0 ≤ b < 2 ^ 31 →
    b ∈ v_dirty v ∨ (size (pinned v) < NBUF_n)%nat →
    bread ROOTDEV b (io s) = Ok i t →
    step (Conf s v us d) (Conf (LState (lg s) t) (set_held (<[i := b]> (v_held v)) v) us d)
| step_modify s v us d i b x t :
    us ≠ [] → v_held v !! i = Some b → buf_write i x (io s) = Ok tt t →
    step (Conf s v us d) (Conf (LState (lg s) t) (set_view (<[b := x]> (v_view v)) v) us d)
| step_log_write s v us d i b j u s' :
    v_held v !! i = Some b → us !! j = Some u → (u < op_budget)%nat →
    log_write i s = Ok tt s' →
    step (Conf s v us d)
         (Conf s' (set_dirty ({[b]} ∪ v_dirty v) v) (<[j := Datatypes.S u]> us) d)
(** A block that is in the log already takes no more space. *)
| step_absorb s v us d i b s' :
    us ≠ [] → v_held v !! i = Some b → b ∈ logged_blocks (lg s) → log_write i s = Ok tt s' →
    step (Conf s v us d) (Conf s' (set_dirty ({[b]} ∪ v_dirty v) v) us d)
| step_brelse s v us d i b t :
    v_held v !! i = Some b → b ∈ v_dirty v ∨ v_view v !! b = v_disk v !! b →
    brelse i (io s) = Ok tt t →
    step (Conf s v us d) (Conf (LState (lg s) t) (set_held (delete i (v_held v)) v) us d)
| step_end s v us1 u us2 d s' :
    us1 ++ us2 ≠ [] → end_op s = Ok tt s' →
    step (Conf s v (us1 ++ u :: us2) d) (Conf s' v (us1 ++ us2) d)
| step_commit s v u d s' :
    v_held v = ∅ → end_op s = Ok tt s' →
    step (Conf s v [u] d) (Conf s' (commit_view (lg s) v) [] (v_view v)).

(** A machine on which [initlog] has just run. *)
Record initial (c : conf) : Prop := Initial {
  in_rep : ∃ m w, brep (io (c_s c)) (fresh m w) ∧ c_v c = fresh m w ∧ c_durable c = m;
  in_area : log_area (lg (c_s c)) (v_disk (c_v c));
  in_size : LOGSIZE ≤ l_size (lg (c_s c));
  in_n : lh_n (lg (c_s c)) = 0;
  in_outstanding : l_outstanding (lg (c_s c)) = 0;
  in_committing : l_committing (lg (c_s c)) = 0;
  in_used : c_used c = [];
  in_header : ∃ h, v_disk (c_v c) !! l_start (lg (c_s c)) = Some h ∧
    s32 (word_at h 0) = 0 ∧ length h = BSIZE_n;
}.

Definition reachable (c : conf) : Prop := ∃ c0, initial c0 ∧ rtc step c0 c.

(** Log space promised to the active calls. *)
Definition reserved (us : list nat) : Z :=
  foldr (λ u z, MAXOPBLOCKS - Z.of_nat u + z) 0 us.

Record inv (c : conf) : Prop := Inv {
  iv_rep : brep (io (c_s c)) (c_v c);
  iv_area : log_area (lg (c_s c)) (v_disk (c_v c));
  iv_size : LOGSIZE ≤ l_size (lg (c_s c));
  iv_log : log_ok (lg (c_s c)) (logged_blocks (lg (c_s c))) (c_v c);
  iv_outstanding : l_outstanding (lg (c_s c)) = Z.of_nat (length (c_used c));
  iv_committing : l_committing (lg (c_s c)) = 0;
  iv_used : Forall (λ u, u ≤ op_budget)%nat (c_used c);
  iv_space : lh_n (lg (c_s c)) + reserved (c_used c) ≤ LOGSIZE;
  iv_idle : c_used c = [] → lh_n (lg (c_s c)) = 0;
  iv_max : lh_n (lg (c_s c)) < LOGSIZE;
  iv_header : ∃ h, v_disk (c_v c) !! l_start (lg (c_s c)) = Some h ∧
    s32 (word_at h 0) = 0 ∧ length h = BSIZE_n;
  iv_durable b : ¬ in_log (lg (c_s c)) b → v_disk (c_v c) !! b = c_durable c !! b;
  iv_held i b : v_held (c_v c) !! i = Some b → 0 ≤ b < 2 ^ 31 ∧ ¬ in_log (lg (c_s c)) b;
}.

Lemma logged_blocks_eq l bl v :
  log_ok l bl v → (length bl ≤ length (lh_block l))%nat → logged_blocks l = bl.
Proof.
  intros Hlk Hlen. unfold logged_blocks. rewrite (lk_n _ _ _ Hlk), Nat2Z.id.
  apply list_eq_same_length with (length bl); [done|rewrite length_take; lia|].
  intros i x y Hi Hx Hy. apply lookup_take_Some in Hx as [Hx _].
  apply (lk_lh _ _ _ Hlk) in Hy. congruence.
Qed.

Lemma reserved_app us1 us2 : reserved (us1 ++ us2) = reserved us1 + reserved us2.
Proof. induction us1 as [|u us1 IH]; simpl; lia. Qed.

Lemma reserved_le us : reserved us ≤ Z.of_nat (length us) * MAXOPBLOCKS.
Proof. induction us as [|u us IH]; simpl; lia. Qed.

Lemma reserved_nonneg us : Forall (λ u, u ≤ op_budget)%nat us → 0 ≤ reserved us.
Proof.
  induction 1 as [|u us Hu _ IH]; simpl; [done|].
  unfold op_budget, MAXOPBLOCKS in *. lia.
Qed.

Lemma reserved_insert us j u u' :
  us !! j = Some u → reserved (<[j := u']> us) = reserved us + Z.of_nat u - Z.of_nat u'.
Proof.
  intros Hj. rewrite <- (take_drop_middle us j u Hj) at 2.
  rewrite (insert_take_drop _ _ _ ltac:(by eapply lookup_lt_Some)).
  rewrite !reserved_app. simpl. lia.
Qed.

Lemma reserved_lookup us j u :
  Forall (λ u, u ≤ op_budget)%nat us → us !! j = Some u → MAXOPBLOCKS - Z.of_nat u ≤ reserved us.
Proof.
  intros Hf Hj. rewrite <- (take_drop_middle us j u Hj) in Hf |- *.
  apply Forall_app in Hf as [Hf1 [_ Hf2]%Forall_cons].
  rewrite reserved_app. simpl. apply reserved_nonneg in Hf1, Hf2. lia.
Qed.

Lemma initial_inv c : initial c → inv c.
Proof.
  intros [(m & w & Hrep & Hv & Hd) La Hsz Hn Hout Hcom Hus Hh].
  destruct c as [s v us d]; simpl in *. subst.
  split; simpl; try done; try (rewrite Hn; unfold LOGSIZE, MAXOPBLOCKS; simpl; lia).
  split; unfold logged_blocks; rewrite ?Hn; simpl; try done; [constructor|set_solver].
Qed.

(** The counters of active calls do not matter to the header. *)
Lemma log_ok_counters l bl v f :
  log_ok l bl v → (∃ o, f = set_outstanding o) ∨ (∃ c, f = set_committing c) → log_ok (f l) bl v.
Proof. by intros [] [[? ->]|[? ->]]; split. Qed.

Lemma log_area_counters l m f :
  log_area l m → (∃ o, f = set_outstanding o) ∨ (∃ c, f = set_committing c) → log_area (f l) m.
Proof. by intros [] [[? ->]|[? ->]]; split. Qed.

(** Steps that leave the log and the disk alone. *)
Lemma inv_io s v us d t v' :
  inv (Conf s v us d) → brep t v' → v_disk v' = v_disk v → v_dirty v' = v_dirty v →
  (∀ i b, v_held v' !! i = Some b → 0 ≤ b < 2 ^ 31 ∧ ¬ in_log (lg s) b) →
  inv (Conf (LState (lg s) t) v' us d).
Proof.
  intros [] Hrep Hdisk Hdirty Hheld. split; simpl in *; rewrite ?Hdisk; try done.
  destruct iv_log0. split; try done. congruence.
Qed.

Lemma begin_inv s v us d s' :
  inv (Conf s v us d) → begin_op s = Ok tt s' → inv (Conf s' v (us ++ [0%nat]) d).
Proof.
  intros [] E. simpl in *. unfold begin_op in E.
  rewrite (bind_ok _ _ _ _ _ (ask_ok id s)) in E. change (id (lg s)) with (lg s) in E.
  rewrite iv_committing0 in E. simpl in E.
  destruct (Z.ltb_spec LOGSIZE (lh_n (lg s) + (l_outstanding (lg s) + 1) * MAXOPBLOCKS))
    as [|Hroom]; [done|].
  injection E as <-. rewrite iv_outstanding0 in Hroom.
  split; simpl; try done.
  - apply log_area_counters; eauto.
  - apply log_ok_counters; eauto.
  - rewrite length_app. simpl. lia.
  - apply Forall_app. split; [done|]. by repeat constructor; unfold op_budget, MAXOPBLOCKS; simpl; lia.
  - rewrite reserved_app. simpl. pose proof (reserved_le us). lia.
  - intros []%app_nil. done.
Qed.

Lemma bread_inv s v us d b i t :
  inv (Conf s v us d) → ¬ in_log (lg s) b → is_Some (v_disk v !! b) → 0 ≤ b < 2 ^ 31 →
  b ∈ v_dirty v ∨ (size (pinned v) < NBUF_n)%nat → bread ROOTDEV b (io s) = Ok i t →
  inv (Conf (LState (lg s) t) (set_held (<[i := b]> (v_held v)) v) us d).
Proof.
  intros Hinv Hnl Hb Hr Hroom E. pose proof (iv_rep _ Hinv) as Hrep. simpl in Hrep.
  destruct (decide (b ∈ held_blocks v)) as [Hin|Hin].
  { destruct (bread_busy _ _ _ Hrep Hin) as (? & ? & E' & _). congruence. }
  destruct (bread_ok _ _ _ Hrep Hb Hin Hroom) as (i' & t' & E' & _ & Hrep').
  rewrite E in E'. injection E' as <- <-. apply (inv_io s v); try done.
  intros j c. simpl. intros [[_ <-]|[_ Hj]]%lookup_insert_Some; [done|].
  by eapply (iv_held _ Hinv).
Qed.

Lemma modify_inv s v us d i b x t :
  inv (Conf s v us d) → v_held v !! i = Some b → buf_write i x (io s) = Ok tt t →
  inv (Conf (LState (lg s) t) (set_view (<[b := x]> (v_view v)) v) us d).
Proof.
  intros Hinv Hi E. destruct (buf_write_ok _ _ _ _ x (iv_rep _ Hinv) Hi) as (t' & E' & Hrep').
  simpl in *. rewrite E in E'. injection E' as <-. apply (inv_io s v); try done.
  apply (iv_held _ Hinv).
Qed.

Lemma brelse_inv s v us d i b t :
  inv (Conf s v us d) → v_held v !! i = Some b → b ∈ v_dirty v ∨ v_view v !! b = v_disk v !! b →
  brelse i (io s) = Ok tt t →
  inv (Conf (LState (lg s) t) (set_held (delete i (v_held v)) v) us d).
Proof.
  intros Hinv Hi Hb E. destruct (brelse_ok _ _ _ _ (iv_rep _ Hinv) Hi Hb) as (t' & E' & Hrep').
  simpl in *. rewrite E in E'. injection E' as <-. apply (inv_io s v); try done.
  intros j c. simpl. intros [_ Hj]%lookup_delete_Some. by eapply (iv_held _ Hinv).
Qed.

(** In a state that satisfies the invariant a call within its budget can
    log one more block. *)
Lemma log_write_enabled s v us d i b j u :
  inv (Conf s v us d) → v_held v !! i = Some b → us !! j = Some u → (u < op_budget)%nat →
  lh_n (lg s) + 1 < LOGSIZE ∧
  ∃ lb t, let bl := absorb b (logged_blocks (lg s)) in
    let l := set_n (Z.of_nat (length bl)) (set_block lb (lg s)) in
    log_write i s = Ok tt (LState l t) ∧ length lb = LOGSIZE_n ∧
    log_ok l bl (set_dirty ({[b]} ∪ v_dirty v) v) ∧ brep t (set_dirty ({[b]} ∪ v_dirty v) v).
Proof.
  intros [] Hi Hj Hu. simpl in *. destruct (iv_held0 i b Hi) as [Hr Hnl].
  pose proof (reserved_lookup _ _ _ iv_used0 Hj). pose proof (lookup_lt_Some _ _ _ Hj).
  assert (lh_n (lg s) + 1 < LOGSIZE).
  { unfold op_budget, LOGSIZE, MAXOPBLOCKS in *. lia. }
  split; [done|]. destruct (log_write_ok s v _ i b iv_rep0 iv_log0) as (lb & t & ?);
    [by apply iv_area0|lia..|done|done|done|]. eauto.
Qed.

Lemma log_write_keeps s v us us' d b lb t :
  let bl := absorb b (logged_blocks (lg s)) in
  let l := set_n (Z.of_nat (length bl)) (set_block lb (lg s)) in
  let v' := set_dirty ({[b]} ∪ v_dirty v) v in
  inv (Conf s v us d) → length lb = LOGSIZE_n → log_ok l bl v' → brep t v' →
  length us' = length us → us' ≠ [] → Forall (λ u, u ≤ op_budget)%nat us' →
  Z.of_nat (length bl) + reserved us' ≤ LOGSIZE → Z.of_nat (length bl) < LOGSIZE →
  inv (Conf (LState l t) v' us' d).
Proof.
  intros bl l v' [] Hlb Hlk Hrep Hlen Hne Hused Hsp Hmax. simpl in *. split; simpl; try done.
  - by destruct iv_area0; split.
  - rewrite (logged_blocks_eq _ _ _ Hlk); [exact Hlk|]. simpl. rewrite Hlb. unfold LOGSIZE_n. lia.
  - by rewrite Hlen.
Qed.

Lemma log_write_inv s v us d i b j u s' :
  inv (Conf s v us d) → v_held v !! i = Some b → us !! j = Some u → (u < op_budget)%nat →
  log_write i s = Ok tt s' →
  inv (Conf s' (set_dirty ({[b]} ∪ v_dirty v) v) (<[j := Datatypes.S u]> us) d).
Proof.
  intros Hinv Hi Hj Hu E.
  destruct (log_write_enabled _ _ _ _ _ _ _ _ Hinv Hi Hj Hu) as (Hn & lb & t & E' & Hlb & Hlk & Hrep).
  rewrite E in E'. injection E' as ->.
  pose proof (length_absorb b (logged_blocks (lg s))) as Habs.
  pose proof (lk_n _ _ _ (iv_log _ Hinv)) as En. pose proof (iv_space _ Hinv). simpl in *.
  apply (log_write_keeps s v us); try done.
  - by rewrite length_insert.
  - intros Hnil. apply (f_equal length) in Hnil. rewrite length_insert in Hnil.
    apply lookup_lt_Some in Hj. simpl in Hnil. lia.
  - apply Forall_insert; [apply (iv_used _ Hinv)|lia].
  - rewrite (reserved_insert _ _ _ _ Hj). lia.
  - lia.
Qed.

(** A block that is in the log already is logged again without a panic as
    long as the log is not full. *)
Lemma absorb_enabled s v us d i b :
  inv (Conf s v us d) → us ≠ [] → v_held v !! i = Some b → b ∈ logged_blocks (lg s) →
  lh_n (lg s) < l_size (lg s) - 1 →
  ∃ lb t, let bl := absorb b (logged_blocks (lg s)) in
    let l := set_n (Z.of_nat (length bl)) (set_block lb (lg s)) in
    log_write i s = Ok tt (LState l t) ∧ length lb = LOGSIZE_n ∧
    log_ok l bl (set_dirty ({[b]} ∪ v_dirty v) v) ∧ brep t (set_dirty ({[b]} ∪ v_dirty v) v).
Proof.
  intros [] Hne Hi Hb Hn. simpl in *. destruct (iv_held0 i b Hi) as [Hr Hnl].
  assert (0 < length us)%nat by (destruct us; [done|simpl; lia]).
  destruct (log_write_ok s v _ i b iv_rep0 iv_log0) as (lb & t & ?); [by apply iv_area0|lia..|done|done|done|]. eauto.
Qed.

(** The checks that a successful log_write has passed. *)
Lemma log_write_checks i s s' : log_write i s = Ok tt s' → lh_n (lg s) < l_size (lg s) - 1.
Proof.
  unfold log_write. mstep (ask_ok id s). change (id (lg s)) with (lg s).
  destruct (_ <=? _); [done|]. destruct (Z.leb_spec (l_size (lg s) - 1) (lh_n (lg s))); [done|]. lia.
Qed.

Lemma absorb_inv s v us d i b s' :
  inv (Conf s v us d) → us ≠ [] → v_held v !! i = Some b → b ∈ logged_blocks (lg s) →
  log_write i s = Ok tt s' → inv (Conf s' (set_dirty ({[b]} ∪ v_dirty v) v) us d).
Proof.
  intros Hinv Hne Hi Hb E.
  destruct (absorb_enabled _ _ _ _ _ _ Hinv Hne Hi Hb (log_write_checks _ _ _ E)) as (lb & t & E' & Hlb & Hlk & Hrep).
  rewrite E in E'. injection E' as ->. pose proof (lk_n _ _ _ (iv_log _ Hinv)) as En.
  assert (absorb b (logged_blocks (lg s)) = logged_blocks (lg s)) as Ha by (unfold absorb; by rewrite decide_True).
  apply (log_write_keeps s v us); try done; rewrite ?Ha.
  - apply (iv_used _ Hinv).
  - pose proof (iv_space _ Hinv). simpl in *. lia.
  - pose proof (iv_max _ Hinv). simpl in *. lia.
Qed.

Lemma end_inv s v us1 u us2 d s' :
  inv (Conf s v (us1 ++ u :: us2) d) → us1 ++ us2 ≠ [] → end_op s = Ok tt s' →
  inv (Conf s' v (us1 ++ us2) d).
Proof.
  intros [] Hne E. simpl in *. unfold end_op in E.
  rewrite (bind_ok _ _ _ _ _ (ask_ok id s)) in E. change (id (lg s)) with (lg s) in E.
  rewrite (bind_ok _ _ _ _ _ (upd_ok _ s)) in E.
  rewrite iv_committing0, iv_outstanding0 in E. simpl in E.
  rewrite length_app in *. simpl in *.
  assert (length (us1 ++ us2) ≠ 0)%nat as Hl by (by destruct (us1 ++ us2)).
  rewrite length_app in Hl.
  rewrite (proj2 (Z.eqb_neq _ _)) in E by lia. injection E as <-.
  apply Forall_app in iv_used0 as [Hf1 [Hu Hf2]%Forall_cons].
  rewrite reserved_app in iv_space0. simpl in iv_space0.
  split; simpl; try done.
  - apply log_area_counters; eauto.
  - apply log_ok_counters; eauto.
  - rewrite length_app. lia.
  - by apply Forall_app.
  - rewrite reserved_app. unfold op_budget, MAXOPBLOCKS in *. lia.
Qed.

(** The transaction about to be committed. *)
Lemma inv_tx s v us d :
  inv (Conf s v us d) →
  tx (lg s) (logged_blocks (lg s)) (logged_data (lg s) v) v.
Proof.
  intros []. simpl in *. pose proof (lk_n _ _ _ iv_log0).
  eapply log_ok_tx; [done|done|lia|]. unfold NBUF_n, NBUF, LOGSIZE, MAXOPBLOCKS in *. lia.
Qed.

Lemma commit_view_ok s v h :
  brep (io s) v → v_held v = ∅ → log_area (lg s) (v_disk v) →
  v_disk v !! l_start (lg s) = Some h →
  tx (lg s) (logged_blocks (lg s)) (logged_data (lg s) v) v →
  ∃ t, commit s = Ok tt (LState (set_n 0 (lg s)) t) ∧ brep t (commit_view (lg s) v).
Proof.
  intros Hrep Hh La Hhd Htx.
  unfold commit_view, commit_trace. destruct (decide (logged_blocks (lg s) = [])) as [Hnil|Hne].
  - exists (io s). split; [|done]. pose proof (tx_n _ _ _ _ Htx) as En.
    rewrite Hnil in En. unfold commit. mstep (ask_ok lh_n s). rewrite En. simpl.
    simpl in En. destruct s as [[] ?]. simpl in *. by subst.
  - rewrite Hhd. simpl. by apply commit_ok.
Qed.

Definition closed (l : log) : log :=
  set_committing 0 (set_n 0 (set_committing 1 (set_outstanding 0 l))).

(** The last [end_op] commits. *)
Lemma end_commit s v u d :
  inv (Conf s v [u] d) → v_held v = ∅ →
  ∃ t, end_op s = Ok tt (LState (closed (lg s)) t) ∧ brep t (commit_view (lg s) v).
Proof.
  intros Hinv Hh. pose proof (inv_tx _ _ _ _ Hinv) as Htx. destruct Hinv. simpl in *.
  destruct iv_header0 as (h & Hh1 & Hh2 & Hh3).
  destruct (commit_view_ok (LState (set_committing 1 (set_outstanding 0 (lg s))) (io s)) v h)
    as (t & E & Ht); try done.
  { apply log_area_counters; [apply log_area_counters|]; eauto. }
  { by destruct Htx; split. }
  exists t. split; [|done]. unfold end_op.
  mstep (ask_ok id s). change (id (lg s)) with (lg s).
  mstep (upd_ok (set_outstanding (l_outstanding (lg s) - 1)) s).
  rewrite iv_committing0, iv_outstanding0. simpl.
  erewrite bind_ok by apply upd_ok. simpl. mstep E. done.
Qed.

(** What a commit leaves on the disk: nothing dirty, an empty header, and
    outside the log the contents the cache had. *)
Lemma commit_view_spec s v us d :
  inv (Conf s v us d) → v_held v = ∅ →
  let v' := commit_view (lg s) v in
  v_dirty v' = ∅ ∧ v_held v' = ∅ ∧
  (∃ h, v_disk v' !! l_start (lg s) = Some h ∧ s32 (word_at h 0) = 0 ∧ length h = BSIZE_n) ∧
  ∃ ps, v_disk v' = apply_writes ps (v_disk v) ∧
    ∀ b, ¬ in_log (lg s) b → v_disk v' !! b = v_view v !! b.
Proof.
  intros Hinv Hh. pose proof (inv_tx _ _ _ _ Hinv) as Htx. destruct Hinv. simpl in *.
  pose proof (λ b, tx_view_disk _ _ _ _ Htx _ b iv_rep0 Hh) as Hview.
  pose proof (lk_n _ _ _ iv_log0) as En.
  unfold commit_view, commit_trace. destruct (decide (logged_blocks (lg s) = [])) as [Hnil|Hne].
  - simpl. split; [by rewrite (lk_dirty _ _ _ iv_log0), Hnil|]. split; [done|]. split; [done|].
    exists []. split; [done|]. intros b _. by rewrite Hview, Hnil.
  - destruct iv_header0 as (h & Hh1 & Hh2 & Hh3). rewrite Hh1. simpl.
    destruct (crash_after (lg s) (logged_blocks (lg s)) _ h v Htx) with
      (k := length (commit_writes (l_start (lg s)) (logged_blocks (lg s))
         (logged_data (lg s) v) h)) as [Hlo Hout];
      [unfold LOGSIZE_n; lia|done|..].
    { by rewrite (tx_writes_length _ _ _ _ _ Htx). }
    unfold crash_disk in Hlo, Hout. rewrite take_ge in Hlo, Hout by lia.
    rewrite copy_all_spec. simpl. split; [|split; [done|split]].
    + rewrite (lk_dirty _ _ _ iv_log0). unfold commit_writes.
      rewrite !fmap_app, (tx_cs_fst _ _ _ _ Htx), !list_to_set_app_L. set_solver.
    + eexists. split; [apply Hlo|]. split; [apply Hlo|].
      pose proof (log_header_room (logged_blocks (lg s)) h ltac:(unfold LOGSIZE_n; lia) Hh3).
      rewrite !length_header; rewrite ?length_header; simpl; lia.
    + eexists. split; [done|]. intros b Hb. by rewrite Hout, Hview.
Qed.

Lemma commit_inv s v u d s' :
  inv (Conf s v [u] d) → v_held v = ∅ → end_op s = Ok tt s' →
  inv (Conf s' (commit_view (lg s) v) [] (v_view v)).
Proof.
  intros Hinv Hh E. destruct (end_commit _ _ _ _ Hinv Hh) as (t & E' & Hrep).
  rewrite E in E'. injection E' as ->.
  destruct (commit_view_spec _ _ _ _ Hinv Hh) as (Hd & Hh' & Hhd & ps & Hps & Hout).
  destruct Hinv. simpl in *.
  split; simpl; try done.
  - destruct (log_area_writes _ _ ps iv_area0). by rewrite Hps.
  - split; unfold logged_blocks; simpl; try done; [constructor|set_solver].
  - intros i b. by rewrite Hh', lookup_empty.
Qed.

Lemma step_inv c c' : step c c' → inv c → inv c'.
Proof.
  intros Hs Hinv. destruct Hs.
  - by eapply begin_inv.
  - by eapply bread_inv.
  - by eapply modify_inv.
  - by eapply log_write_inv.
  - by eapply absorb_inv.
  - by eapply brelse_inv.
  - by eapply end_inv.
  - by eapply commit_inv.
Qed.

Lemma reachable_inv c : reachable c → inv c.
Proof.
  intros (c0 & Hi & Hr). apply initial_inv in Hi. induction Hr; eauto using step_inv.
Qed.

Lemma reachable_step c c' : reachable c → step c c' → reachable c'.
Proof. intros (c0 & ? & ?) ?. exists c0. split; [done|]. by eapply rtc_r. Qed.

(** The usual sequence of an FS routine: bread, modify, log_write, brelse. *)
Definition log_update (b : Z) (x : block) : M (lstate S) unit :=
  i ← bio (bread ROOTDEV b);
  bio (buf_write i x);;
  log_write i;;
  bio (brelse i).

Lemma log_update_ok s v us d b x j u :
  reachable (Conf s v us d) → v_held v = ∅ → us !! j = Some u → (u < op_budget)%nat →
  ¬ in_log (lg s) b → 0 ≤ b < 2 ^ 31 → is_Some (v_disk v !! b) →
  ∃ s', log_update b x s = Ok tt s' ∧
    l_start (lg s') = l_start (lg s) ∧ l_size (lg s') = l_size (lg s) ∧
    logged_blocks (lg s') = absorb b (logged_blocks (lg s)) ∧
    reachable (Conf s' (set_view (<[b := x]> (v_view v)) (set_dirty ({[b]} ∪ v_dirty v) v))
                 (<[j := Datatypes.S u]> us) d).
Proof.
  intros Hr Hh Hj Hu Hnl Hb Hd. pose proof (reachable_inv _ Hr) as I0.
  assert (size (pinned v) < NBUF_n)%nat as Hroom.
  { rewrite pinned_none by done. eapply tx_size_dirty, inv_tx, I0. }
  assert (us ≠ []) as Hus by (intros ->; done).
  destruct (bread_ok _ _ b (iv_rep _ I0)) as (i & t1 & E1 & Hi & R1); simpl in *;
    [done|rewrite held_blocks_none by done; set_solver|by right|].
  pose proof (reachable_step _ _ Hr (step_bread s v us d b i t1 Hnl Hd Hb ltac:(by right) E1)) as Hr1.
  set (v1 := set_held (<[i := b]> (v_held v)) v) in *.
  assert (v_held v1 !! i = Some b) as Hi1 by (simpl; by rewrite lookup_insert_eq).
  destruct (buf_write_ok _ _ i b x R1 Hi1) as (t2 & E2 & R2).
  pose proof (reachable_step _ _ Hr1 (step_modify (LState _ t1) _ _ _ i b x t2 Hus Hi1 E2)) as Hr2.
  set (v2 := set_view _ v1) in *. simpl in Hr2.
  destruct (log_write_enabled _ _ _ _ i b j u (reachable_inv _ Hr2) Hi1 Hj Hu)
    as (_ & lb & t3 & E3 & Hlb & Hlk & R3); simpl in *.
  pose proof (reachable_step _ _ Hr2 (step_log_write _ v2 _ _ i b j u _ Hi1 Hj Hu E3)) as Hr3.
  set (v3 := set_dirty _ v2) in *.
  edestruct (brelse_ok _ _ i b R3 Hi1) as (t4 & E4 & R4); [left; simpl; set_solver|].
  pose proof (reachable_step _ _ Hr3
    (step_brelse (LState _ t3) v3 _ _ i b t4 Hi1 ltac:(left; simpl; set_solver) E4)) as Hr4.
  eexists. split; [|split; [|split; [|split; [|]]]]; [..|revert Hr4].
  - unfold log_update. erewrite bind_ok by (apply bio_ok; exact E1).
    erewrite bind_ok by (apply bio_ok; exact E2). simpl. erewrite bind_ok by exact E3.
    apply bio_ok. exact E4.
  - done.
  - done.
  - apply (logged_blocks_eq _ _ _ Hlk). pose proof (reachable_inv _ Hr3) as [].
    simpl in *. pose proof (lk_n _ _ _ Hlk) as En. simpl in En. rewrite Hlb.
    unfold LOGSIZE_n. lia.
  - unfold v3, v2, v1, set_held, set_dirty, set_view. simpl. by rewrite Hh, delete_insert_id.
Qed.
End system.
