(* ===== verification/Machine.v ===== *)
(** * A concrete machine

    The memory disk of memide.c under the buffer cache of bio.c under the log
    of log.c, from [binit] on.  Used to run the model on concrete inputs. *)

From S2P Require Import Prelude Params Disk BlockCache Bio BioProofs Superblock Log LogProofs.
From S2P Require Import LogCrash LogTx.

Section machine.
Context {D : Type} `{!Disk D}.

(** main() calls binit(); the first process calls initlog(ROOTDEV). *)
Definition power_on (d : D) : outcome (bstate D) unit := binit (BState boot_nodes d).

Lemma power_on_ok d :
  dok d → ∃ t, power_on d = Ok tt t ∧ brep t (fresh (dcontent d) (dwrites d)).
Proof. intros Hd. destruct (binit_ok d Hd) as (t & E & Ht). exists t. split; [exact E|exact Ht]. Qed.

(** After [initlog] the transition system is in an initial configuration. *)
Lemma initlog_initial (t : bstate D) l h m w :
  brep t (fresh m w) → log_area l m → LOGSIZE ≤ l_size l → sb_places l m →
  m !! l_start l = Some h → s32 (word_at h 0) = 0 → length h = BSIZE_n →
  ∃ s m', initlog ROOTDEV (LState log_zero t) = Ok tt s ∧
    m' = <[l_start l := header [] h]> m ∧ l_start (lg s) = l_start l ∧ l_size (lg s) = l_size l ∧
    initial (Conf s (fresh m' (w ++ [(l_start l, header [] h)])) [] m').
Proof.
  intros Hrep La Hsz Hsb Hh Hh0 Hlen. pose proof (la_start _ _ La).
  unfold LOGSIZE, MAXOPBLOCKS in Hsz.
  destruct (initlog_ok (LState log_zero t) l [] [] h m w)
    as (s & m' & E & -> & Hn & Est & Esz & Ho & Hc & La' & Hrep'); try done; [lia|by apply logged_nil; [..|lia]|].
  exists s. eexists. split; [exact E|]. split; [done|]. split; [done|]. split; [done|].
  split; simpl; try done.
  - eexists _, _. split; [exact Hrep'|done].
  - rewrite Esz. unfold LOGSIZE, MAXOPBLOCKS. lia.
  - exists (header [] h). rewrite Est, lookup_insert_eq. split; [done|]. split.
    + rewrite header_n; [done|simpl; rewrite Hlen; vm_compute; lia|simpl; lia].
    + rewrite length_header; [done|]. simpl. rewrite Hlen. vm_compute. lia.
Qed.
End machine.

(** ** The example machine *)

(** A disk of [n] zeroed blocks whose superblock places a log of [nlog]
    blocks at block 2. *)
Definition zero_block : block := replicate BSIZE_n 0.
Definition sb_block (n nlog : Z) : block :=
  put_words 0 [n; n - nlog - 2; 8; nlog; 2; 2 + nlog; 3 + nlog] zero_block.
Definition ex_image (n : nat) (nlog : Z) : gmap Z block :=
  <[1 := sb_block (Z.of_nat n) nlog]> (list_to_map ((λ b, (b, zero_block)) <$> seqZ 0 (Z.of_nat n))).
Definition ex_disk (n : nat) (nlog : Z) : Memide.state :=
  Memide.State (ex_image n nlog) (Z.of_nat n) [].

Lemma ex_image_lookup n nlog b :
  1 < Z.of_nat n → ex_image n nlog !! b =
    if decide (b = 1) then Some (sb_block (Z.of_nat n) nlog)
    else if decide (0 ≤ b < Z.of_nat n) then Some zero_block else None.
Proof.
  intros Hn. unfold ex_image. destruct (decide (b = 1)) as [->|Hb]; [by rewrite lookup_insert_eq|].
  rewrite lookup_insert_ne by done. destruct (decide (0 ≤ b < Z.of_nat n)) as [Hr|Hr].
  - apply elem_of_list_to_map_1.
    + rewrite <- list_fmap_compose. simpl. rewrite list_fmap_id. apply NoDup_seqZ.
    + apply list_elem_of_fmap. exists b. split; [done|]. apply elem_of_seqZ. lia.
  - apply not_elem_of_list_to_map_1. rewrite <- list_fmap_compose. simpl. rewrite list_fmap_id.
    rewrite elem_of_seqZ. lia.
Qed.

#[local] Opaque ex_image zero_block.

Lemma ex_image_ok n nlog : 1 < Z.of_nat n → Memide.image_ok (ex_disk n nlog).
Proof.
  intros Hn b. simpl. rewrite ex_image_lookup by done.
  destruct (decide (b = 1)) as [->|]; [split; [lia|eauto]|].
  destruct (decide _); split; [done|eauto|intros [? ?]; done|done].
Qed.

Definition ex_log : log := Log 2 30 0 0 ROOTDEV 0 (replicate LOGSIZE_n 0).

Lemma ex_area n : 32 ≤ Z.of_nat n → log_area ex_log (ex_image n 30).
Proof.
  intros Hn. split; simpl; try done. intros b Hb. unfold in_log in Hb. simpl in Hb.
  rewrite ex_image_lookup by lia. rewrite decide_False, decide_True by lia. eauto.
Qed.

Lemma ex_sb : sb_places ex_log (ex_image 40 30).
Proof.
  exists (sb_block 40 30). split; [rewrite ex_image_lookup by lia; by rewrite decide_True|].
  by vm_compute.
Qed.

(** An example machine with [n] blocks, booted. *)
Lemma ex_boot_at n :
  32 ≤ Z.of_nat n → sb_places ex_log (ex_image n 30) → ∃ t s m w,
  power_on (ex_disk n 30) = Ok tt t ∧ initlog ROOTDEV (LState log_zero t) = Ok tt s ∧
  initial (Conf s (fresh m w) [] m) ∧ l_start (lg s) = 2 ∧ l_size (lg s) = 30 ∧
  ∀ b, b ≠ 2 → m !! b = ex_image n 30 !! b.
Proof.
  intros Hn Hsb. destruct (power_on_ok (ex_disk n 30)) as (t & E & Ht); [apply ex_image_ok; lia|].
  exists t.
  revert E. generalize (power_on (ex_disk n 30)) as o. intros o E.
  destruct (initlog_initial t ex_log zero_block (ex_image n 30) [] Ht (ex_area n Hn))
    as (s & m & E' & Hm & Hst & Hsz & Hinit).
  { unfold LOGSIZE, MAXOPBLOCKS. simpl. lia. }
  { exact Hsb. }
  { change (l_start ex_log) with 2. rewrite ex_image_lookup by lia. by rewrite decide_False, decide_True by lia. }
  { by vm_compute. }
  { by vm_compute. }
  eexists s, m, _. split; [exact E|]. split; [exact E'|]. split; [exact Hinit|].
  split; [exact Hst|]. split; [exact Hsz|]. intros b Hb. rewrite Hm. by apply lookup_insert_ne.
Qed.

(** The example machine, booted. *)
Lemma ex_boot : ∃ t s m w,
  power_on (ex_disk 40 30) = Ok tt t ∧ initlog ROOTDEV (LState log_zero t) = Ok tt s ∧
  initial (Conf s (fresh m w) [] m) ∧ l_start (lg s) = 2 ∧ l_size (lg s) = 30 ∧
  ∀ b, b ≠ 2 → m !! b = ex_image 40 30 !! b.
Proof. apply ex_boot_at; [lia|apply ex_sb]. Qed.

(** The block that the example transaction writes. *)
Definition ex_block : block := replicate BSIZE_n 7.

(** The example machine in the middle of a transaction: one FS call is
    active and has changed block 35. *)
Lemma ex_tx : ∃ s v d,
  reachable (S := bstate Memide.state) (Conf s v [1%nat] d) ∧ v_held v = ∅ ∧
  l_start (lg s) = 2 ∧ l_size (lg s) = 30 ∧ logged_blocks (lg s) = [35] ∧
  v_view v !! 35 = Some ex_block ∧
  (∀ b, b ≠ 2 → v_disk v !! b = ex_image 40 30 !! b) ∧ (∀ b, b ≠ 2 → d !! b = ex_image 40 30 !! b).
Proof.
  destruct ex_boot as (_ & s & m & w & _ & _ & Hinit & Hst & Hsz & Hm).
  assert (begin_op s = Ok tt (LState (set_outstanding 1 (lg s)) (io s))) as E1.
  { unfold begin_op. mstep (ask_ok id s). change (id (lg s)) with (lg s).
    destruct Hinit. simpl in *. by rewrite in_committing, in_outstanding, in_n. }
  assert (logged_blocks (lg s) = []) as Hnil.
  { destruct Hinit. simpl in *. unfold logged_blocks. by rewrite in_n. }
  assert (reachable (Conf s (fresh m w) [] m)) as Hr0 by (eexists; by split).
  pose proof (reachable_step _ _ Hr0 (step_begin _ _ _ _ _ E1)) as Hr1. simpl in Hr1.
  destruct (log_update_ok _ _ _ _ 35 ex_block 0 0 Hr1)
    as (s' & _ & Hst' & Hsz' & Hbl & Hr'); simpl in *; try done.
  - unfold op_budget, MAXOPBLOCKS. lia.
  - unfold in_log. simpl. lia.
  - rewrite Hm by done. rewrite ex_image_lookup by lia. rewrite decide_False, decide_True by lia. eauto.
  - eexists s', _, m. split; [exact Hr'|]. simpl. split; [done|]. split; [congruence|].
    split; [congruence|]. split; [|split; [by rewrite lookup_insert_eq|done]].
    rewrite Hbl. unfold logged_blocks in *. simpl. by rewrite Hnil.
Qed.
