(* ===== verification/LogSpec.v ===== *)
(** * What the log promises

    Crash atomicity of a commit, durability between commits, and that a call
    that stays within its budget is never refused log space. *)

From S2P Require Import Prelude Params Disk BlockCache Bio BioProofs Superblock Log LogProofs.
From S2P Require Import LogCrash LogTx Machine.

Section spec.
Context {S : Type} `{!BlockCache S}.

(** The disk after a crash that lets the first [k] writes of the commit
    of configuration [c] reach it. *)
Definition crashed (c : conf (S := S)) (k : nat) : gmap Z block :=
  apply_writes (take k (commit_trace (lg (c_s c)) (c_v c))) (v_disk (c_v c)).

(** The superblock lies outside the log and is not being changed. *)
Definition sb_stable (c : conf (S := S)) : Prop :=
  sb_places (lg (c_s c)) (v_disk (c_v c)) ∧ ¬ in_log (lg (c_s c)) 1 ∧
  1 ∉ logged_blocks (lg (c_s c)).

Lemma crashed_sb c k : inv c → sb_stable c → sb_places (lg (c_s c)) (crashed c k).
Proof.
  intros Hinv ((x & Hx & ?) & Hnl & Hnb). exists x. split; [|done].
  unfold crashed. rewrite apply_writes_ne; [done|]. rewrite fmap_take.
  intros Hin%subseteq_take. unfold commit_trace in Hin. destruct (decide _); [by apply elem_of_nil in Hin|].
  destruct c as [s v us d]. pose proof (inv_tx _ _ _ _ Hinv) as Htx. simpl in *.
  unfold commit_writes in Hin. rewrite !fmap_app, (tx_cs_fst _ _ _ _ Htx) in Hin.
  rewrite (tx_ws_fst _ _ _ _ Htx) in Hin. pose proof (tx_size _ _ _ _ Htx).
  rewrite !elem_of_app in Hin. simpl in Hin. rewrite !list_elem_of_singleton in Hin.
  destruct Hin as [Hin|[Hin|[Hin|Hin]]]; [|apply Hnl; unfold in_log; lia|done|apply Hnl; unfold in_log; lia].
  by apply log_seq_elem in Hin as [? _].
Qed.

(** Recovery from a crash after [k] writes of a commit. *)
Lemma commit_recovery s v u d k s0 w :
  let c := Conf s v [u] d in
  inv c → v_held v = ∅ → sb_stable c → lg s0 = log_zero → brep (io s0) (fresh (crashed c k) w) →
  ∃ s1 m1 w1, initlog ROOTDEV s0 = Ok tt s1 ∧ lh_n (lg s1) = 0 ∧ brep (io s1) (fresh m1 w1) ∧
    ∀ b, ¬ in_log (lg s) b → m1 !! b =
      if decide (k ≤ length (logged_blocks (lg s)))%nat then d !! b else v_view v !! b.
Proof.
  intros c Hinv Hh Hsb Hs0 Hrep0.
  pose proof (crashed_sb c k Hinv Hsb) as Hsb'. pose proof (inv_tx _ _ _ _ Hinv) as Htx.
  destruct Hinv. simpl in *. destruct iv_header as (h & Hh1 & Hh2 & Hh3).
  pose proof (lk_n _ _ _ iv_log). unfold crashed, commit_trace in *. simpl in *.
  destruct (decide (logged_blocks (lg s) = [])) as [Hnil|Hne].
  - rewrite take_nil in *. pose proof (λ b, tx_view_disk _ _ _ _ Htx _ b iv_rep Hh) as Hv.
    rewrite Hnil in Htx, Hv |- *.
    destruct (recover_crash s v [] [] h 0 s0 w iv_rep Hh iv_area) as (s1 & m1 & w1 & ? & ? & ? & Hm);
      try done; [unfold logged_data in Htx; by rewrite Hnil in Htx|simpl; lia|].
    exists s1, m1, w1. split_and!; try done. intros b Hb. rewrite Hm by done.
    rewrite Hv. simpl. rewrite iv_durable by done. by repeat destruct (decide _).
  - rewrite Hh1 in *. simpl in *.
    destruct (recover_crash s v _ _ h k s0 w iv_rep Hh iv_area Htx) as (s1 & m1 & w1 & ? & ? & ? & Hm);
      try done; [unfold LOGSIZE_n; lia|].
    exists s1, m1, w1. split_and!; try done. intros b Hb. rewrite Hm by done.
    destruct (decide _); [|done]. by apply iv_durable.
Qed.

(** C1: a commit is atomic with respect to crashes.  Whatever interleaving
    of FS calls led to the commit, the last [end_op] returns and issues the
    writes [commit_trace]; and if the machine stops after any number [k] of
    them and reboots, [initlog] returns, leaves the log empty, and gives a
    disk which outside the log is the one of the previous commit, or, once
    the header has been written, the one the calls had built in the cache. *)
Theorem commit_crash_atomic s v u d k s0 w :
  let c := Conf s v [u] d in
  reachable c → v_held v = ∅ → sb_stable c →
  lg s0 = log_zero → brep (io s0) (fresh (crashed c k) w) →
  (∃ s', end_op s = Ok tt s' ∧ brep (io s') (commit_view (lg s) v) ∧
     v_writes (commit_view (lg s) v) = v_writes v ++ commit_trace (lg s) v) ∧
  ∃ s1 m1 w1, initlog ROOTDEV s0 = Ok tt s1 ∧ lh_n (lg s1) = 0 ∧ brep (io s1) (fresh m1 w1) ∧
    ∀ b, ¬ in_log (lg s) b → m1 !! b =
      if decide (k ≤ length (logged_blocks (lg s)))%nat then d !! b else v_view v !! b.
Proof.
  intros c Hr Hh Hsb Hs0 Hrep0. apply reachable_inv in Hr as Hinv. split.
  { destruct (end_commit _ _ _ _ Hinv Hh) as (t & E & Ht). eexists. split; [exact E|].
    split; [exact Ht|]. unfold commit_view. by rewrite copy_all_spec. }
  by apply (commit_recovery s v u d k s0 w).
Qed.

(** C2: between commits nothing reaches the disk.  Whatever the active FS
    calls have done, a machine that stops and reboots gets exactly the
    contents of the last commit. *)
Theorem reachable_crash_durable c s0 w :
  reachable c → sb_places (lg (c_s c)) (v_disk (c_v c)) →
  lg s0 = log_zero → brep (io s0) (fresh (v_disk (c_v c)) w) →
  ∃ s1 m1 w1, initlog ROOTDEV s0 = Ok tt s1 ∧ lh_n (lg s1) = 0 ∧ brep (io s1) (fresh m1 w1) ∧
    ∀ b, ¬ in_log (lg (c_s c)) b → m1 !! b = c_durable c !! b.
Proof.
  intros []%reachable_inv Hsb Hs0 Hrep0. destruct iv_header as (h & Hh1 & Hh2 & Hh3).
  assert (0 < l_size (lg (c_s c))) by (unfold LOGSIZE, MAXOPBLOCKS in *; lia).
  destruct (initlog_ok s0 (lg (c_s c)) [] [] h (v_disk (c_v c)) w)
    as (s1 & m1 & E & -> & Hn & _ & _ & _ & _ & _ & Hrep1); try done; [lia|by apply logged_nil|].
  eexists s1, _, _. split; [exact E|]. split; [done|]. split; [exact Hrep1|].
  intros b Hb. unfold apply_writes. simpl.
  rewrite lookup_insert_ne by (intros <-; apply Hb; unfold in_log; lia). auto.
Qed.

(** C16: a call is never refused log space.  In every reachable state an
    active call that has logged fewer than [MAXOPBLOCKS - 1] blocks can log
    one more: [log_write] does not panic, and marks the buffer dirty. *)
Theorem log_write_never_panics s v us d i b j u :
  reachable (Conf s v us d) → v_held v !! i = Some b → us !! j = Some u → (u < op_budget)%nat →
  ∃ s', log_write i s = Ok tt s' ∧
    logged_blocks (lg s') = absorb b (logged_blocks (lg s)) ∧
    brep (io s') (set_dirty ({[b]} ∪ v_dirty v) v).
Proof.
  intros Hinv%reachable_inv Hi Hj Hu.
  destruct (log_write_enabled _ _ _ _ _ _ _ _ Hinv Hi Hj Hu) as (Hn & lb & t & E & Hlb & Hlk & Hrep).
  eexists. split; [exact E|]. split; [|exact Hrep].
  apply (logged_blocks_eq _ _ _ Hlk). simpl. rewrite Hlb. destruct Hinv. simpl in *.
  pose proof (lk_n _ _ _ iv_log). pose proof (length_absorb b (logged_blocks (lg s))).
  unfold LOGSIZE_n. lia.
Qed.

(** C17: [begin_op] never fails.  It admits the call, and then the space for
    every active call is left in the log, or it sleeps with nothing changed;
    it admits a call whenever the log is idle, so the sleepers that a commit
    wakes up make progress. *)
Theorem begin_op_admission s v us d :
  reachable (Conf s v us d) →
  (us = [] → ∃ s', begin_op s = Ok tt s') ∧
  (begin_op s = Sleep LOGCHAN s ∨
   ∃ s', begin_op s = Ok tt s' ∧ l_outstanding (lg s') = Z.of_nat (length us + 1) ∧
     Z.of_nat (length (logged_blocks (lg s'))) + Z.of_nat (length us + 1) * MAXOPBLOCKS ≤ LOGSIZE).
Proof.
  intros []%reachable_inv. simpl in *. pose proof (lk_n _ _ _ iv_log) as En.
  unfold begin_op. rewrite (bind_ok _ _ _ _ _ (ask_ok id s)).
  change (id (lg s)) with (lg s). rewrite iv_committing, iv_outstanding. simpl. split.
  - intros ->. rewrite iv_idle by done. simpl. eauto.
  - destruct (Z.ltb_spec LOGSIZE (lh_n (lg s) + (Z.of_nat (length us) + 1) * MAXOPBLOCKS));
      [by left|]. right. eexists. split; [reflexivity|]. unfold logged_blocks in *. simpl. lia.
Qed.
End spec.

(** ** The example machine *)

Lemma image_writes ps m n w w' :
  Memide.image_ok (Memide.State m n w) → Forall (λ p, 0 ≤ p.1 < n) ps →
  Memide.image_ok (Memide.State (apply_writes ps m) n w').
Proof.
  intros Hm Hps. revert m Hm. induction Hps as [|[c x] ps Hc _ IH]; intros m Hm; [done|].
  unfold apply_writes in *. simpl in *. apply IH. intros b. simpl.
  destruct (decide (c = b)) as [->|].
  - rewrite lookup_insert_eq. split; [done|eauto].
  - rewrite lookup_insert_ne by done. apply Hm.
Qed.

(** The example machine about to commit, and a second one booted from the
    disk left by a crash after [k] writes. *)
Lemma ex_crash k : ∃ s v d s0,
  let c := Conf (S := bstate Memide.state) s v [1%nat] d in
  reachable c ∧ v_held v = ∅ ∧ sb_stable c ∧ lg s0 = log_zero ∧
  brep (io s0) (fresh (crashed c k) []) ∧ ¬ in_log (lg s) 35 ∧
  length (logged_blocks (lg s)) = 1%nat ∧ v_view v !! 35 = Some ex_block ∧
  d !! 35 = Some zero_block.
Proof.
  destruct ex_tx as (s & v & d & Hr & Hh & Hst & Hsz & Hbl & Hv & Hdisk & Hd).
  assert (∀ b, b ≠ 1 → b ≠ 2 → 0 ≤ b < 40 → ex_image 40 30 !! b = Some zero_block) as Hz.
  { intros b ???. rewrite ex_image_lookup by lia. by rewrite decide_False, decide_True by lia. }
  assert (Memide.image_ok (Memide.State (v_disk v) 40 [])) as Him.
  { intros b. simpl. destruct (decide (b = 2)) as [->|Hb].
    - destruct (la_blocks _ _ (iv_area _ (reachable_inv _ Hr)) 2) as [x Hx].
      + unfold in_log. simpl. lia.
      + simpl in Hx. rewrite Hx. split; [lia|eauto].
    - rewrite Hdisk by done. apply (ex_image_ok 40 30 ltac:(lia) b). }
  assert (Memide.image_ok (Memide.State (crashed (Conf s v [1%nat] d) k) 40 [])) as Hcr.
  { eapply image_writes; [exact Him|]. apply Forall_take. simpl. unfold commit_trace.
    rewrite Hbl. unfold commit_writes, logged_data. rewrite Hbl, Hst. simpl.
    repeat constructor; simpl; lia. }
  destruct (power_on_ok (Memide.State (crashed (Conf s v [1%nat] d) k) 40 [])) as (t & _ & Ht);
    [exact Hcr|].
  exists s, v, d, (LState log_zero t).
  split; [exact Hr|]. split; [exact Hh|]. split.
  { split; [|split]; simpl.
    - destruct ex_sb as (x & Hx & E1 & E2). exists x. rewrite Hdisk, Hst, Hsz by done.
      split; [exact Hx|]. by rewrite E1, E2.
    - unfold in_log. lia.
    - rewrite Hbl. set_solver. }
  split; [reflexivity|]. split; [exact Ht|]. split; [unfold in_log; lia|].
  split; [by rewrite Hbl|]. split; [exact Hv|]. rewrite Hd by done. apply Hz; lia.
Qed.

Lemma commit_crash_atomic_witness :
  (∃ (s0 s1 : lstate (bstate Memide.state)) m1 w1, initlog ROOTDEV s0 = Ok tt s1 ∧
     brep (io s1) (fresh m1 w1) ∧ m1 !! 35 = Some zero_block) ∧
  (∃ (s0 s1 : lstate (bstate Memide.state)) m1 w1, initlog ROOTDEV s0 = Ok tt s1 ∧
     brep (io s1) (fresh m1 w1) ∧ m1 !! 35 = Some ex_block).
Proof.
  split.
  - destruct (ex_crash 1) as (s & v & d & s0 & Hr & Hh & Hsb & Hs0 & Hrep & Hnl & Hlen & Hv & Hd).
    destruct (commit_crash_atomic s v 1 d 1 s0 [] Hr Hh Hsb Hs0 Hrep)
      as (_ & s1 & m1 & w1 & E & _ & Hrep1 & Hm).
    exists s0, s1, m1, w1. split; [exact E|]. split; [exact Hrep1|].
    rewrite (Hm 35 Hnl), Hlen, decide_True by lia. exact Hd.
  - destruct (ex_crash 2) as (s & v & d & s0 & Hr & Hh & Hsb & Hs0 & Hrep & Hnl & Hlen & Hv & Hd).
    destruct (commit_crash_atomic s v 1 d 2 s0 [] Hr Hh Hsb Hs0 Hrep)
      as (_ & s1 & m1 & w1 & E & _ & Hrep1 & Hm).
    exists s0, s1, m1, w1. split; [exact E|]. split; [exact Hrep1|].
    rewrite (Hm 35 Hnl), Hlen, decide_False by lia. exact Hv.
Defined.

Lemma reachable_crash_durable_witness :
  ∃ (s0 s1 : lstate (bstate Memide.state)) m1 w1, initlog ROOTDEV s0 = Ok tt s1 ∧
    brep (io s1) (fresh m1 w1) ∧ m1 !! 35 = Some zero_block.
Proof.
  destruct (ex_crash 0) as (s & v & d & s0 & Hr & Hh & [Hsb _] & Hs0 & Hrep & Hnl & Hlen & Hv & Hd).
  destruct (reachable_crash_durable _ s0 [] Hr Hsb Hs0 Hrep) as (s1 & m1 & w1 & E & _ & Hrep1 & Hm).
  exists s0, s1, m1, w1. split; [exact E|]. split; [exact Hrep1|]. rewrite (Hm 35 Hnl). exact Hd.
Defined.

Lemma log_write_never_panics_witness :
  ∃ (s s' : lstate (bstate Memide.state)) i, log_write i s = Ok tt s' ∧
    logged_blocks (lg s') = [35; 36].
Proof.
  destruct ex_tx as (s & v & d & Hr & Hh & Hst & Hsz & Hbl & Hv & Hdisk & Hd).
  pose proof (reachable_inv _ Hr) as Hinv.
  assert (is_Some (v_disk v !! 36)) as H36.
  { rewrite Hdisk by done. rewrite ex_image_lookup by lia.
    rewrite decide_False, decide_True by lia. eauto. }
  assert (size (pinned v) < NBUF_n)%nat as Hroom.
  { rewrite pinned_none by exact Hh. eapply tx_size_dirty, inv_tx, Hinv. }
  destruct (bread_ok _ _ 36 (iv_rep _ Hinv) H36) as (i & t & E & Hi & _);
    [rewrite held_blocks_none by exact Hh; set_solver|by right|].
  assert (¬ in_log (lg s) 36) as Hnl by (unfold in_log; lia).
  pose proof (reachable_step _ _ Hr
    (step_bread s v _ d 36 i t Hnl H36 ltac:(lia) ltac:(by right) E)) as Hr1.
  destruct (log_write_never_panics _ _ _ _ i 36 0 1 Hr1) as (s' & E' & Hl & _).
  - simpl. by rewrite lookup_insert_eq.
  - reflexivity.
  - unfold op_budget, MAXOPBLOCKS. lia.
  - eexists _, s', i. split; [exact E'|]. rewrite Hl. simpl. by rewrite Hbl.
Defined.

Lemma begin_op_admission_witness :
  ∃ s s' : lstate (bstate Memide.state), begin_op s = Ok tt s' ∧ l_outstanding (lg s') = 1.
Proof.
  destruct ex_boot as (_ & s & m & w & _ & _ & Hinit & _).
  assert (reachable (Conf s (fresh m w) [] m)) as Hr by (eexists; by split).
  destruct (begin_op_admission _ _ _ _ Hr) as [[s' E] [E'|(s'' & E' & Ho & _)]]; [reflexivity|congruence|].
  exists s, s''. split; [exact E'|exact Ho].
Defined.

(** ** The limits of the reservation *)

Section limits.
Context {S : Type} `{!BlockCache S}.

Fixpoint log_updates (ps : list (Z * block)) : M (lstate S) unit :=
  match ps with
  | [] => mret tt
  | p :: ps => log_update p.1 p.2;; log_updates ps
  end.

(** Inside a transaction that has logged [bl], on the disk [m], with a log in
    the place of [l]. *)
Record logging (l : log) (m : gmap Z block) (bl : list Z) (s : lstate S) (v : bview) : Prop := Logging {
  lo_rep : brep (io s) v;
  lo_log : log_ok (lg s) bl v;
  lo_len : length (lh_block (lg s)) = LOGSIZE_n;
  lo_out : 1 ≤ l_outstanding (lg s);
  lo_held : v_held v = ∅;
  lo_disk : v_disk v = m;
  lo_place : l_start (lg s) = l_start l ∧ l_size (lg s) = l_size l;
}.

(** A block of the disk outside the log. *)
Definition data_block (l : log) (m : gmap Z block) (b : Z) : Prop := 0 ≤ b < 2 ^ 31 ∧ ¬ in_log l b ∧ is_Some (m !! b).

Lemma logging_bread l m bl s v b :
  logging l m bl s v → data_block l m b → (length bl < NBUF_n)%nat →
  ∃ i t, bread ROOTDEV b (io s) = Ok i t ∧ brep t (set_held {[i := b]} v).
Proof.
  intros [Hrep Hlk _ _ Hh Hd _] (_ & _ & Hb) Hlen. destruct (bread_ok _ _ b Hrep) as (i & t & E & _ & R).
  - by rewrite Hd.
  - rewrite held_blocks_none by done. set_solver.
  - right. rewrite pinned_none, (lk_dirty _ _ _ Hlk), size_list_to_set by (try done; apply Hlk). done.
  - exists i, t. split; [done|]. by rewrite Hh, insert_empty in R.
Qed.

(** A block more. *)
Lemma logging_update l m bl s v b x :
  logging l m bl s v → data_block l m b → b ∉ bl →
  Z.of_nat (length bl) < LOGSIZE → Z.of_nat (length bl) < l_size l - 1 →
  ∃ s' v', log_update b x s = Ok tt s' ∧ logging l m (bl ++ [b]) s' v'.
Proof.
  intros Hl Hb Hnew H1 H2. destruct (logging_bread _ _ _ _ _ _ Hl Hb) as (i & t1 & E1 & R1); [unfold LOGSIZE, NBUF_n, NBUF, MAXOPBLOCKS in *; lia|].
  destruct Hl as [Hrep Hlk Hlen Hout Hh Hd [Hst Hsz]], Hb as (Hr & Hnl & Hm).
  set (v1 := set_held {[i := b]} v) in *. assert (v_held v1 !! i = Some b) as Hi by apply lookup_singleton_eq.
  destruct (buf_write_ok _ _ i b x R1 Hi) as (t2 & E2 & R2). set (v2 := set_view _ v1) in *.
  destruct (log_write_ok (LState (lg s) t2) v2 bl i b R2) as (lb & t3 & E3 & Hlb & Hlk3 & R3); cbn [lg io] in *; try done;
    [by destruct Hlk; split|rewrite (lk_n _ _ _ Hlk); lia|rewrite (lk_n _ _ _ Hlk); lia|by unfold in_log in *; rewrite Hst, Hsz|].
  edestruct (brelse_ok _ _ i b R3 Hi) as (t4 & E4 & R4); [left; cbn; set_solver|].
  eexists _, _. split.
  - unfold log_update. erewrite bind_ok by (apply bio_ok; exact E1). erewrite bind_ok by (apply bio_ok; exact E2).
    cbn [lg]. erewrite bind_ok by exact E3. apply bio_ok. exact E4.
  - unfold absorb in *. rewrite decide_False in * by done. split; [exact R4|..]; cbn; try done.
    + by destruct Hlk3; split.
    + apply delete_singleton_eq.
Qed.

(** The next block of a full log. *)
Lemma logging_full l m bl s v b x :
  logging l m bl s v → data_block l m b → (length bl < NBUF_n)%nat → l_size l - 1 ≤ Z.of_nat (length bl) →
  log_update b x s = Panic "too big a transaction".
Proof.
  intros Hl Hb Hlen Hfull. destruct (logging_bread _ _ _ _ _ _ Hl Hb Hlen) as (i & t1 & E1 & R1).
  destruct (buf_write_ok _ _ i b x R1 (lookup_singleton_eq _ _)) as (t2 & E2 & _).
  destruct Hl as [_ Hlk _ _ _ _ [_ Hsz]].
  unfold log_update. erewrite bind_ok by (apply bio_ok; exact E1). erewrite bind_ok by (apply bio_ok; exact E2).
  unfold log_write, mbind, M_bind, ask. cbn [lg id]. rewrite Hsz, (lk_n _ _ _ Hlk), (proj2 (Z.leb_le _ _) Hfull).
  by rewrite orb_true_r.
Qed.

Lemma logging_updates l m ps bl s v :
  logging l m bl s v → Forall (data_block l m) ps.*1 → NoDup (bl ++ ps.*1) →
  Z.of_nat (length (bl ++ ps.*1)) ≤ LOGSIZE → Z.of_nat (length (bl ++ ps.*1)) ≤ l_size l - 1 →
  ∃ s' v', log_updates ps s = Ok tt s' ∧ logging l m (bl ++ ps.*1) s' v'.
Proof.
  revert bl s v. induction ps as [|[b x] ps IH]; intros bl s v Hl Hps Hnd H1 H2; cbn [fmap list_fmap fst snd log_updates] in *.
  { rewrite app_nil_r. by exists s, v. }
  apply Forall_cons in Hps as [Hb Hps]. rewrite length_app in H1, H2. cbn [length] in H1, H2.
  destruct (logging_update l m bl s v b x Hl Hb) as (s1 & v1 & E1 & Hl1);
    [apply NoDup_app in Hnd as (_ & Hnd & _); intros Hin; apply (Hnd _ Hin); left|lia|lia|].
  destruct (IH (bl ++ [b]) s1 v1 Hl1 Hps) as (s2 & v2 & E2 & Hl2); rewrite <- ?app_assoc; cbn [app]; try done.
  - rewrite length_app. cbn [length]. lia.
  - rewrite length_app. cbn [length]. lia.
  - rewrite <- app_assoc in Hl2. exists s2, v2. by mstep E1.
Qed.

Lemma log_updates_app ps qs s : log_updates (ps ++ qs) s = (log_updates ps;; log_updates qs) s.
Proof.
  revert s. induction ps as [|p ps IH]; intros s; [done|]. cbn [app log_updates]. rewrite bind_assoc.
  unfold mbind, M_bind in *. destruct (log_update p.1 p.2 s); try done.
Qed.

(** Three calls are admitted to an idle log, and a fourth has to wait. *)
Lemma three_calls s v us d :
  initial (Conf s v us d) →
  ∃ s3, (begin_op;; begin_op;; begin_op) s = Ok tt s3 ∧ l_outstanding (lg s3) = 3 ∧ begin_op s3 = Sleep LOGCHAN s3 ∧
    logging (lg s) (v_disk v) [] s3 v.
Proof.
  intros [(m & w & Hrep & Ev & _) La _ Hn Ho Hc _ _]. cbn in *. subst v.
  exists (LState (set_outstanding 3 (lg s)) (io s)). destruct s as [[st sz o c dv n bl] t]. cbn in *. subst o c n.
  split; [reflexivity|]. split; [reflexivity|]. split; [reflexivity|]. split; cbn; try done; [|by apply (la_len _ _ La)].
  split; cbn; try done; [apply NoDup_nil_2|]. intros b Hb. by apply elem_of_nil in Hb.
Qed.

(** C18: the reservation of log space fits a log with a block more than
    [LOGSIZE], and is one block short on the log of [LOGSIZE] blocks, header
    included, that mkfs lays out.  In an idle log [begin_op] admits three
    calls, and makes a fourth wait.  Let these three log any [MAXOPBLOCKS]
    different blocks each.  If the log is larger than [LOGSIZE], all of them
    are logged; if it has [LOGSIZE] blocks, all but one are, and the last one
    makes [log_write] panic. *)
Theorem log_reservation_one_short s v us d ps :
  initial (Conf s v us d) → NoDup ps.*1 → Forall (data_block (lg s) (v_disk v)) ps.*1 →
  Z.of_nat (length ps) = 3 * MAXOPBLOCKS →
  ∃ s3, (begin_op;; begin_op;; begin_op) s = Ok tt s3 ∧ l_outstanding (lg s3) = 3 ∧ begin_op s3 = Sleep LOGCHAN s3 ∧
    (LOGSIZE < l_size (lg s) → ∃ s', log_updates ps s3 = Ok tt s' ∧ logged_blocks (lg s') = ps.*1) ∧
    (l_size (lg s) = LOGSIZE →
       (∃ s', log_updates (removelast ps) s3 = Ok tt s' ∧ logged_blocks (lg s') = (removelast ps).*1) ∧
       log_updates ps s3 = Panic "too big a transaction").
Proof.
  intros Hi Hnd Hps Hlen. destruct (three_calls _ _ _ _ Hi) as (s3 & E3 & Ho & Hs & Hl).
  exists s3. split; [done|]. split; [done|]. split; [done|]. unfold LOGSIZE, MAXOPBLOCKS in *. split; intros Hsz.
  - destruct (logging_updates _ _ ps [] s3 v Hl Hps) as (s' & v' & E & Hl'); [done|cbn; rewrite length_fmap; unfold LOGSIZE, MAXOPBLOCKS; lia..|].
    exists s'. split; [done|]. apply (logged_blocks_eq _ _ _ (lo_log _ _ _ _ _ Hl')). rewrite (lo_len _ _ _ _ _ Hl'). cbn. rewrite length_fmap. unfold LOGSIZE_n, LOGSIZE, MAXOPBLOCKS. lia.
  - destruct ps as [|[b x] ps _] using rev_ind; [done|]. rewrite removelast_last. rewrite fmap_app in Hnd, Hps. rewrite length_app in Hlen. cbn in Hnd, Hps, Hlen.
    apply Forall_app in Hps as [Hps [Hb _]%Forall_cons]. apply NoDup_app in Hnd as (Hnd & _ & _).
    destruct (logging_updates _ _ ps [] s3 v Hl Hps) as (s' & v' & E & Hl'); [done|cbn; rewrite length_fmap; unfold LOGSIZE, MAXOPBLOCKS; lia..|].
    split.
    + exists s'. split; [done|]. apply (logged_blocks_eq _ _ _ (lo_log _ _ _ _ _ Hl')). rewrite (lo_len _ _ _ _ _ Hl'). cbn. rewrite length_fmap. unfold LOGSIZE_n, LOGSIZE, MAXOPBLOCKS. lia.
    + rewrite log_updates_app. mstep E. cbn [log_updates]. unfold mbind, M_bind. cbn [fst snd].
      rewrite (logging_full _ _ _ _ _ b x Hl' Hb); [done|cbn; rewrite length_fmap; unfold NBUF_n, NBUF, MAXOPBLOCKS; lia|cbn; rewrite length_fmap; lia].
Qed.
End limits.

(** A disk of 64 blocks with the log of mkfs, and its blocks from 32 on. *)
Lemma log_reservation_one_short_witness :
  ∃ s s3 : lstate (bstate Memide.state), (begin_op;; begin_op;; begin_op) s = Ok tt s3 ∧
    log_updates ((λ b, (b, zero_block)) <$> seqZ 32 30) s3 = Panic "too big a transaction".
Proof.
  destruct (ex_boot_at 64) as (_ & s & m & w & _ & _ & Hinit & Hst & Hsz & Hm); [lia|exists (sb_block 64 30); split; by vm_compute|].
  destruct (log_reservation_one_short _ _ _ _ ((λ b, (b, zero_block)) <$> seqZ 32 30) Hinit) as (s3 & E & _ & _ & _ & H).
  - rewrite <- list_fmap_compose. apply NoDup_fmap_2; [|apply NoDup_seqZ]. by intros x y ?.
  - rewrite <- list_fmap_compose. apply Forall_fmap, Forall_forall. intros b Hb%elem_of_seqZ. cbn.
    split; [lia|]. split; [unfold in_log; lia|]. rewrite Hm, ex_image_lookup, decide_False, decide_True by lia. by eexists.
  - by rewrite length_fmap, length_seqZ.
  - exists s, s3. split; [exact E|]. by apply H.
Defined.
