(* ===== verification/Txn.v ===== *)
(** * The interface of the log to the file system

    What fs.c, file.c and sysfile.c rely on: inside a transaction, blocks are
    read into buffers, modified, announced with [log_write] and released.
    TxnLog.v proves that log.c over bio.c provides it. *)

From S2P Require Import Prelude Params Disk.

(** The abstract state inside a transaction.  [t_blocks] is the contents of
    the blocks outside the log, [t_held] the buffers in use, [t_pending] the
    blocks that were modified and not yet logged, [t_logged] the blocks of the
    transaction, [t_room] how many more it can take, and [t_durable] the
    contents that a crash would leave. *)
Record tview := TView {
  t_blocks : gmap Z block;
  t_held : gmap nat Z;
  t_pending : gset Z;
  t_logged : gset Z;
  t_room : nat;
  t_durable : gmap Z block;
}.

Definition hold (i : nat) (b : Z) (v : tview) : tview :=
  TView (t_blocks v) (<[i := b]> (t_held v)) (t_pending v) (t_logged v) (t_room v) (t_durable v).
Definition unhold (i : nat) (v : tview) : tview :=
  TView (t_blocks v) (delete i (t_held v)) (t_pending v) (t_logged v) (t_room v) (t_durable v).
Definition put_block (b : Z) (x : block) (v : tview) : tview :=
  TView (<[b := x]> (t_blocks v)) (t_held v) ({[b]} ∪ t_pending v) (t_logged v) (t_room v) (t_durable v).
Definition add_log (b : Z) (v : tview) : tview :=
  TView (t_blocks v) (t_held v) (t_pending v ∖ {[b]}) ({[b]} ∪ t_logged v)
    (if decide (b ∈ t_logged v) then t_room v else t_room v - 1) (t_durable v).

(** The buffers a thread may hold when it asks for another one. *)
Definition MAXHELD : nat := 2.

Class Txn (S : Type) := {
  t_bread : Z → Z → M S nat;
  t_brelse : nat → M S unit;
  t_data : nat → M S block;
  t_set : nat → block → M S unit;
  t_log_write : nat → M S unit;
  t_begin_op : M S unit;
  t_end_op : M S unit;

  trep : S → tview → Prop;

  trep_held s v i b : trep s v → t_held v !! i = Some b → is_Some (t_blocks v !! b);
  t_bread_ok s v b :
    trep s v → is_Some (t_blocks v !! b) → b ∉ (map_img (t_held v) : gset Z) →
    (size (t_held v) ≤ MAXHELD)%nat →
    ∃ i s', t_bread ROOTDEV b s = Ok i s' ∧ t_held v !! i = None ∧ trep s' (hold i b v);
  t_brelse_ok s v i b :
    trep s v → t_held v !! i = Some b → b ∉ t_pending v →
    ∃ s', t_brelse i s = Ok tt s' ∧ trep s' (unhold i v);
  t_data_ok s v i b x :
    trep s v → t_held v !! i = Some b → t_blocks v !! b = Some x → t_data i s = Ok x s;
  t_set_ok s v i b x :
    trep s v → t_held v !! i = Some b →
    ∃ s', t_set i x s = Ok tt s' ∧ trep s' (put_block b x v);
  t_log_write_ok s v i b :
    trep s v → t_held v !! i = Some b → b ∈ t_logged v ∨ (0 < t_room v)%nat →
    ∃ s', t_log_write i s = Ok tt s' ∧ trep s' (add_log b v);
}.

(** ** Transactions in memory

    The simplest implementation of the interface: the abstract state itself,
    with a check for each condition that log.c turns into a panic.  The
    examples run the file system on it. *)

Definition vt_bread (dev b : Z) : M tview nat := λ v,
  match t_blocks v !! b with
  | Some _ => let i := fresh (dom (t_held v)) in Ok i (hold i b v)
  | None => Fault
  end.

Definition vt_data (i : nat) : M tview block := λ v,
  match t_held v !! i with
  | Some b => match t_blocks v !! b with Some x => Ok x v | None => Fault end
  | None => Fault
  end.

Definition vt_set (i : nat) (x : block) : M tview unit := λ v,
  match t_held v !! i with Some b => Ok tt (put_block b x v) | None => Fault end.

Definition vt_log_write (i : nat) : M tview unit := λ v,
  match t_held v !! i with
  | Some b =>
      if decide (b ∈ t_logged v ∨ (0 < t_room v)%nat) then Ok tt (add_log b v) else Panic "too big a transaction"
  | None => Fault
  end.

(** A transaction of [n] blocks begins and ends. *)
Definition vt_begin (n : nat) : M tview unit := λ v, Ok tt (TView (t_blocks v) (t_held v) ∅ ∅ n (t_durable v)).
Definition vt_end : M tview unit := λ v, Ok tt (TView (t_blocks v) (t_held v) ∅ ∅ 0 (t_blocks v)).

(** Only blocks that exist are held. *)
Definition vt_ok (v : tview) : Prop := ∀ i b, t_held v !! i = Some b → is_Some (t_blocks v !! b).

#[export] Program Instance view_txn : Txn tview := {
  t_bread := vt_bread;
  t_brelse i v := Ok tt (unhold i v);
  t_data := vt_data;
  t_set := vt_set;
  t_log_write := vt_log_write;
  t_begin_op := vt_begin 9;
  t_end_op := vt_end;
  trep s v := s = v ∧ vt_ok v;
}.
Next Obligation. intros s v i b [-> Hv]. apply Hv. Qed.
Next Obligation.
  intros s v b [-> Hv] [x Hx] _ _. unfold vt_bread. rewrite Hx.
  assert (t_held v !! (fresh (dom (t_held v))) = None) as Hi by (apply not_elem_of_dom, is_fresh).
  eexists _, _. split; [done|]. split; [done|]. split; [done|].
  intros i c. cbn. intros [[_ <-]|[_ Hc]]%lookup_insert_Some; [by rewrite Hx|by eapply Hv].
Qed.
Next Obligation.
  intros s v i b [-> Hv] _ _. eexists. split; [done|]. split; [done|].
  intros j c. cbn. intros [_ Hc]%lookup_delete_Some. by eapply Hv.
Qed.
Next Obligation. intros s v i b x [-> Hv] Hi Hx. unfold vt_data. by rewrite Hi, Hx. Qed.
Next Obligation.
  intros s v i b x [-> Hv] Hi. unfold vt_set. rewrite Hi. eexists. split; [done|]. split; [done|].
  intros j c Hc. cbn. destruct (decide (b = c)) as [->|]; [by rewrite lookup_insert_eq|].
  rewrite lookup_insert_ne by done. by eapply Hv.
Qed.
Next Obligation.
  intros s v i b [-> Hv] Hi Hr. unfold vt_log_write. rewrite Hi, decide_True by done. eexists. split; [done|]. by split.
Qed.
