(* ===== verification/Fs.v ===== *)
(** * The file system (fs.c, fs.h, file.h, stat.h)

    All of fs.c over the transaction interface.  An inode pointer is an index
    into the inode cache, and the null pointer is [None].  A path is the list
    of its characters without the final NUL, and a name the string in its
    array of [DIRSIZ] characters.  Where C copies to or from [char *dst], the
    operation takes or gives the list of bytes. *)

From S2P Require Import Prelude Params Disk Superblock Txn.

Definition T_DIR : Z := 1.
Definition T_FILE : Z := 2.
Definition T_DEV : Z := 3.

Definition NDIRECT : Z := 12.
Definition NINDIRECT : Z := BSIZE / 4.
Definition MAXFILE : Z := NDIRECT + NINDIRECT.
Definition DIRSIZ : Z := 14.

(** struct dinode: four shorts, the size and the addresses. *)
Definition sizeof_dinode : Z := 2 * 4 + 4 + 4 * (NDIRECT + 1).
Definition sizeof_dirent : Z := 2 + DIRSIZ.
Definition IPB : Z := BSIZE / sizeof_dinode.
Definition BPB : Z := BSIZE * 8.
Definition IBLOCK (i : Z) (sb : superblock) : Z := u32 (i / IPB + sb_inodestart sb).
Definition BBLOCK (b : Z) (sb : superblock) : Z := u32 (b / BPB + sb_bmapstart sb).

Definition I_BUSY : Z := 1.
Definition I_VALID : Z := 2.

Record dinode := DInode {
  d_type : Z; d_major : Z; d_minor : Z; d_nlink : Z; d_size : Z; d_addrs : list Z;
}.

Record inode := Inode {
  i_dev : Z; i_inum : Z; i_ref : Z; i_flags : Z;
  i_d : dinode;
}.

Record stat := Stat { st_type : Z; st_dev : Z; st_ino : Z; st_nlink : Z; st_size : Z }.

Definition set_iref (x : Z) (i : inode) : inode := Inode (i_dev i) (i_inum i) x (i_flags i) (i_d i).
Definition set_iflags (x : Z) (i : inode) : inode := Inode (i_dev i) (i_inum i) (i_ref i) x (i_d i).
Definition set_disk (x : dinode) (i : inode) : inode := Inode (i_dev i) (i_inum i) (i_ref i) (i_flags i) x.

Definition set_type (x : Z) (d : dinode) : dinode := DInode x (d_major d) (d_minor d) (d_nlink d) (d_size d) (d_addrs d).
Definition set_devno (x y : Z) (d : dinode) : dinode := DInode (d_type d) x y (d_nlink d) (d_size d) (d_addrs d).
Definition set_nlink (x : Z) (d : dinode) : dinode := DInode (d_type d) (d_major d) (d_minor d) x (d_size d) (d_addrs d).
Definition set_size (x : Z) (d : dinode) : dinode := DInode (d_type d) (d_major d) (d_minor d) (d_nlink d) x (d_addrs d).
Definition set_addr (n : nat) (x : Z) (d : dinode) : dinode :=
  DInode (d_type d) (d_major d) (d_minor d) (d_nlink d) (d_size d) (<[n := x]> (d_addrs d)).

(** ** The disk formats *)

(** The bytes of a struct dinode and back. *)
Definition dinode_bytes (d : dinode) : list Z :=
  le_bytes 2 (d_type d) ++ le_bytes 2 (d_major d) ++ le_bytes 2 (d_minor d) ++ le_bytes 2 (d_nlink d) ++
  le_bytes 4 (d_size d) ++ concat (le_bytes 4 <$> d_addrs d).

Definition dinode_of (l : list Z) : dinode :=
  DInode (s16 (half_at l 0)) (s16 (half_at l 1)) (s16 (half_at l 2)) (s16 (half_at l 3)) (word_at l 2)
    (word_at l <$> seq 3 (Z.to_nat (NDIRECT + 1))).

(** The [k]th dinode of a block. *)
Definition dinode_off (inum : Z) : nat := Z.to_nat (sizeof_dinode * (inum `mod` IPB)).
Definition get_dinode (inum : Z) (x : block) : dinode :=
  dinode_of (slice (dinode_off inum) (Z.to_nat sizeof_dinode) x).
Definition put_dinode (inum : Z) (d : dinode) (x : block) : block :=
  splice (dinode_off inum) (dinode_bytes d) x.

(** struct dirent *)
Definition dirent_inum (de : list Z) : Z := half_at de 0.
Definition dirent_name (de : list Z) : list Z := slice 2 (Z.to_nat DIRSIZ) de.
(** strncpy(de.name, name, DIRSIZ); de.inum = inum; *)
Definition mk_dirent (name : list Z) (inum : Z) : list Z :=
  le_bytes 2 inum ++ take (Z.to_nat DIRSIZ) (name ++ replicate (Z.to_nat DIRSIZ) 0).

(** strncmp on two character arrays, of which the first may be a string. *)
Fixpoint strncmp_list (n : nat) (p q : list Z) : Z :=
  match n with
  | O => 0
  | S n =>
      let a := hd 0 p in
      let b := hd 0 q in
      if negb (a =? 0) && (a =? b) then strncmp_list n (tl p) (tl q) else u8 a - u8 b
  end.

Definition namecmp (s t : list Z) : Z := strncmp_list (Z.to_nat DIRSIZ) s t.

(** icache.inode at boot *)
Definition icache0 : list inode :=
  replicate (Z.to_nat NINODE) (Inode 0 0 0 0 (DInode 0 0 0 0 0 (replicate (Z.to_nat (NDIRECT + 1)) 0))).

Section fs.
Context {S : Type} `{!Txn S}.

(** sb, icache.inode, and the log and disk below. *)
Record fstate := FState { f_sb : superblock; f_icache : list inode; f_tx : S }.

Definition tx {A} (m : M S A) : M fstate A := zoom f_tx (λ t s, FState (f_sb s) (f_icache s) t) m.

(** [*ip] and [*ip = f( *ip )] *)
Definition ino (ip : nat) : M fstate inode := λ s,
  match f_icache s !! ip with Some i => Ok i s | None => Fault end.
Definition upd_ino (ip : nat) (f : inode → inode) : M fstate unit := λ s,
  Ok tt (FState (f_sb s) (alter f ip (f_icache s)) (f_tx s)).
Definition upd_disk (ip : nat) (f : dinode → dinode) : M fstate unit :=
  upd_ino ip (λ i, set_disk (f (i_d i)) i).

(** The channel that waiters for an inode sleep on. *)
Definition ichan (ip : nat) : Z := Z.of_nat ip + 1.

(** ** Blocks *)

Definition readsb (dev : Z) : M fstate superblock :=
  bp ← tx (t_bread dev 1);
  x ← tx (t_data bp);
  tx (t_brelse bp);;
  mret (sb_decode x).

Definition bzero (dev bno : Z) : M fstate unit :=
  bp ← tx (t_bread dev bno);
  tx (t_set bp (replicate BSIZE_n 0));;
  tx (t_log_write bp);;
  tx (t_brelse bp).

(** The bit of block [b] in its bitmap block: bp->data[bi/8] & (1 << bi%8). *)
Definition bit_byte (bi : Z) : nat := Z.to_nat (bi / 8).
Definition bit_mask (bi : Z) : Z := Z.shiftl 1 (bi `mod` 8).

(** The inner loop of balloc, [n] turns left: the first free bit, if any. *)
Fixpoint free_bit (n : nat) (x : block) (b size bi : Z) : M fstate (option Z) :=
  match n with
  | O => mret None
  | Datatypes.S n =>
      if b + bi <? size then
        y ← ofopt (x !! bit_byte bi);
        if Z.land y (bit_mask bi) =? 0 then mret (Some bi) else free_bit n x b size (bi + 1)
      else mret None
  end.

Fixpoint balloc_loop (fuel : nat) (dev b : Z) : M fstate Z :=
  match fuel with
  | O => nofuel
  | Datatypes.S fuel =>
      sb ← gets f_sb;
      if b <? sb_size sb then
        bp ← tx (t_bread dev (BBLOCK b sb));
        x ← tx (t_data bp);
        r ← free_bit (Z.to_nat BPB) x b (sb_size sb) 0;
        match r with
        | Some bi =>
            y ← ofopt (x !! bit_byte bi);
            tx (t_set bp (<[bit_byte bi := u8 (Z.lor y (bit_mask bi))]> x));;
            tx (t_log_write bp);;
            tx (t_brelse bp);;
            bzero dev (b + bi);;
            mret (b + bi)
        | None =>
            tx (t_brelse bp);;
            balloc_loop fuel dev (b + BPB)
        end
      else panic "balloc: out of blocks"
  end.

(** One more turn than there are bitmap blocks. *)
Definition balloc (dev : Z) : M fstate Z :=
  sb ← gets f_sb; balloc_loop (Datatypes.S (Datatypes.S (Z.to_nat (sb_size sb / BPB)))) dev 0.

Definition bfree (dev b : Z) : M fstate unit :=
  sb ← readsb dev;
  modify (λ s, FState sb (f_icache s) (f_tx s));;
  bp ← tx (t_bread dev (BBLOCK b sb));
  x ← tx (t_data bp);
  let bi := b `mod` BPB in
  y ← ofopt (x !! bit_byte bi);
  if Z.land y (bit_mask bi) =? 0 then panic "freeing free block"
  else
    tx (t_set bp (<[bit_byte bi := u8 (Z.land y (Z.lnot (bit_mask bi)))]> x));;
    tx (t_log_write bp);;
    tx (t_brelse bp).

(** ** Inodes *)

(** iinit(): the superblock is read; the message is not modelled. *)
Definition iinit (dev : Z) : M fstate unit :=
  sb ← readsb dev;
  modify (λ s, FState sb (f_icache s) (f_tx s)).

(** The scan of iget: the cached inode, or else the first empty slot. *)
Fixpoint iget_scan (dev inum : Z) (c : list inode) (ip : nat) (empty : option nat) : nat + option nat :=
  match c with
  | [] => inr empty
  | i :: c =>
      if (0 <? i_ref i) && (i_dev i =? dev) && (i_inum i =? inum) then inl ip
      else
        iget_scan dev inum c (Datatypes.S ip)
          (match empty with None => if i_ref i =? 0 then Some ip else None | Some _ => empty end)
  end.

Definition iget (dev inum : Z) : M fstate nat :=
  c ← gets f_icache;
  match iget_scan dev inum c 0 None with
  | inl ip => upd_ino ip (λ i, set_iref (i_ref i + 1) i);; mret ip
  | inr None => panic "iget: no inodes"
  | inr (Some ip) => upd_ino ip (λ i, Inode dev inum 1 0 (i_d i));; mret ip
  end.

Fixpoint ialloc_loop (fuel : nat) (dev type inum : Z) : M fstate nat :=
  match fuel with
  | O => nofuel
  | Datatypes.S fuel =>
      sb ← gets f_sb;
      if inum <? sb_ninodes sb then
        bp ← tx (t_bread dev (IBLOCK inum sb));
        x ← tx (t_data bp);
        if d_type (get_dinode inum x) =? 0 then
          tx (t_set bp (put_dinode inum (DInode type 0 0 0 0 (replicate (Z.to_nat (NDIRECT + 1)) 0)) x));;
          tx (t_log_write bp);;
          tx (t_brelse bp);;
          iget dev inum
        else
          tx (t_brelse bp);;
          ialloc_loop fuel dev type (inum + 1)
      else panic "ialloc: no inodes"
  end.

Definition ialloc (dev type : Z) : M fstate nat :=
  sb ← gets f_sb; ialloc_loop (Datatypes.S (Z.to_nat (sb_ninodes sb))) dev type 1.

Definition iupdate (ip : nat) : M fstate unit :=
  i ← ino ip;
  sb ← gets f_sb;
  bp ← tx (t_bread (i_dev i) (IBLOCK (i_inum i) sb));
  x ← tx (t_data bp);
  tx (t_set bp (put_dinode (i_inum i) (i_d i) x));;
  tx (t_log_write bp);;
  tx (t_brelse bp).

Definition idup (ip : nat) : M fstate nat :=
  upd_ino ip (λ i, set_iref (i_ref i + 1) i);; mret ip.

Definition iflag (i : inode) (k : Z) : bool := negb (Z.land (i_flags i) k =? 0).

Definition ilock (ip : option nat) : M fstate unit :=
  match ip with
  | None => panic "ilock"
  | Some ip =>
      i ← ino ip;
      if i_ref i <? 1 then panic "ilock"
      else if iflag i I_BUSY then sleep (ichan ip)
      else
        upd_ino ip (λ i, set_iflags (Z.lor (i_flags i) I_BUSY) i);;
        if negb (iflag i I_VALID) then
          sb ← gets f_sb;
          bp ← tx (t_bread (i_dev i) (IBLOCK (i_inum i) sb));
          x ← tx (t_data bp);
          upd_ino ip (set_disk (get_dinode (i_inum i) x));;
          tx (t_brelse bp);;
          upd_ino ip (λ i, set_iflags (Z.lor (i_flags i) I_VALID) i);;
          if d_type (get_dinode (i_inum i) x) =? 0 then panic "ilock: no type" else mret tt
        else mret tt
  end.

(** wakeup(ip) is not modelled here: it changes only the process table. *)
Definition iunlock (ip : option nat) : M fstate unit :=
  match ip with
  | None => panic "iunlock"
  | Some ip =>
      i ← ino ip;
      if negb (iflag i I_BUSY) || (i_ref i <? 1) then panic "iunlock"
      else upd_ino ip (λ i, set_iflags (Z.land (i_flags i) (Z.lnot I_BUSY)) i)
  end.

(** ** Inode contents *)

(** ip->addrs[n] *)
Definition addr_at (ip n : nat) : M fstate Z := i ← ino ip; ofopt (d_addrs (i_d i) !! n).

(** if((addr = ip->addrs[n]) == 0) ip->addrs[n] = addr = balloc(ip->dev); *)
Definition addr_or_alloc (ip n : nat) : M fstate Z :=
  addr ← addr_at ip n;
  if addr =? 0 then
    i ← ino ip;
    addr ← balloc (i_dev i);
    upd_disk ip (set_addr n addr);;
    mret addr
  else mret addr.

Definition bmap (ip : nat) (bn : Z) : M fstate Z :=
  if bn <? NDIRECT then addr_or_alloc ip (Z.to_nat bn)
  else
    let bn := bn - NDIRECT in
    if bn <? NINDIRECT then
      addr ← addr_or_alloc ip (Z.to_nat NDIRECT);
      i ← ino ip;
      bp ← tx (t_bread (i_dev i) addr);
      a ← tx (t_data bp);
      let addr := word_at a (Z.to_nat bn) in
      addr ← (if addr =? 0 then
                addr ← balloc (i_dev i);
                a ← tx (t_data bp);
                tx (t_set bp (set_word (Z.to_nat bn) addr a));;
                tx (t_log_write bp);;
                mret addr
              else mret addr);
      tx (t_brelse bp);;
      mret addr
    else panic "bmap: out of range".

(** The two loops of itrunc, [n] turns left. *)
Fixpoint itrunc_direct (n : nat) (ip k : nat) : M fstate unit :=
  match n with
  | O => mret tt
  | Datatypes.S n =>
      addr ← addr_at ip k;
      (if addr =? 0 then mret tt
       else i ← ino ip; bfree (i_dev i) addr;; upd_disk ip (set_addr k 0));;
      itrunc_direct n ip (Datatypes.S k)
  end.

Fixpoint itrunc_indirect (n : nat) (dev : Z) (bp j : nat) : M fstate unit :=
  match n with
  | O => mret tt
  | Datatypes.S n =>
      a ← tx (t_data bp);
      (if word_at a j =? 0 then mret tt else bfree dev (word_at a j));;
      itrunc_indirect n dev bp (Datatypes.S j)
  end.

Definition itrunc (ip : nat) : M fstate unit :=
  itrunc_direct (Z.to_nat NDIRECT) ip 0;;
  addr ← addr_at ip (Z.to_nat NDIRECT);
  (if addr =? 0 then mret tt
   else
     i ← ino ip;
     bp ← tx (t_bread (i_dev i) addr);
     itrunc_indirect (Z.to_nat NINDIRECT) (i_dev i) bp 0;;
     tx (t_brelse bp);;
     bfree (i_dev i) addr;;
     upd_disk ip (set_addr (Z.to_nat NDIRECT) 0));;
  upd_disk ip (set_size 0);;
  iupdate ip.

Definition iput (ip : nat) : M fstate unit :=
  i ← ino ip;
  (if (i_ref i =? 1) && iflag i I_VALID && (d_nlink (i_d i) =? 0) then
     if iflag i I_BUSY then panic "iput busy"
     else
       upd_ino ip (λ i, set_iflags (Z.lor (i_flags i) I_BUSY) i);;
       itrunc ip;;
       upd_disk ip (set_type 0);;
       iupdate ip;;
       upd_ino ip (set_iflags 0)
   else mret tt);;
  upd_ino ip (λ i, set_iref (i_ref i - 1) i).

Definition iunlockput (ip : nat) : M fstate unit := iunlock (Some ip);; iput ip.

Definition stati (ip : nat) : M fstate stat :=
  i ← ino ip;
  mret (Stat (d_type (i_d i)) (s32 (i_dev i)) (i_inum i) (d_nlink (i_d i)) (d_size (i_d i))).
End fs.
Arguments fstate S : clear implicits.

(** devsw[]: what a device driver has registered to read and write. *)
Class DevSw (S : Type) := {
  devsw_read : Z → option (nat → Z → M (fstate S) (Z * list Z));
  devsw_write : Z → option (nat → list Z → Z → M (fstate S) Z);
}.

Section files.
Context {S : Type} `{!Txn S, !DevSw S}.
#[local] Abbreviation F := (M (fstate S)).

(** ** Reading and writing *)

(** The result of readi is the return value and the bytes put at [dst]. *)
Fixpoint readi_loop (fuel : nat) (ip : nat) (off n tot : Z) (acc : list Z) : F (Z * list Z) :=
  match fuel with
  | O => nofuel
  | Datatypes.S fuel =>
      if tot <? n then
        i ← ino ip;
        b ← bmap ip (off / BSIZE);
        bp ← tx (t_bread (i_dev i) b);
        let m := Z.min (n - tot) (BSIZE - off `mod` BSIZE) in
        x ← tx (t_data bp);
        tx (t_brelse bp);;
        readi_loop fuel ip (off + m) n (tot + m)
          (acc ++ slice (Z.to_nat (off `mod` BSIZE)) (Z.to_nat m) x)
      else mret (n, acc)
  end.

Definition readi (ip : nat) (off n : Z) : F (Z * list Z) :=
  i ← ino ip;
  let d := i_d i in
  if d_type d =? T_DEV then
    if (d_major d <? 0) || (NDEV <=? d_major d) then mret (-1, [])
    else match devsw_read (d_major d) with
         | None => mret (-1, [])
         | Some rd => rd ip n
         end
  else if (d_size d <? off) || (u32 (off + n) <? off) then mret (-1, [])
  else
    let n := if d_size d <? u32 (off + n) then d_size d - off else n in
    readi_loop (Datatypes.S (Datatypes.S (Datatypes.S (Z.to_nat (n / BSIZE))))) ip off n 0 [].

(** The final value of [off] is the result. *)
Fixpoint writei_loop (fuel : nat) (ip : nat) (src : list Z) (off n tot : Z) : F Z :=
  match fuel with
  | O => nofuel
  | Datatypes.S fuel =>
      if tot <? n then
        i ← ino ip;
        b ← bmap ip (off / BSIZE);
        bp ← tx (t_bread (i_dev i) b);
        let m := Z.min (n - tot) (BSIZE - off `mod` BSIZE) in
        let bytes := take (Z.to_nat m) src in
        if negb (Z.of_nat (length bytes) =? m) then fault
        else
          x ← tx (t_data bp);
          tx (t_set bp (splice (Z.to_nat (off `mod` BSIZE)) bytes x));;
          tx (t_log_write bp);;
          tx (t_brelse bp);;
          writei_loop fuel ip (drop (Z.to_nat m) src) (off + m) n (tot + m)
      else mret off
  end.

Definition writei (ip : nat) (src : list Z) (off n : Z) : F Z :=
  i ← ino ip;
  let d := i_d i in
  if d_type d =? T_DEV then
    if (d_major d <? 0) || (NDEV <=? d_major d) then mret (-1)
    else match devsw_write (d_major d) with
         | None => mret (-1)
         | Some wr => wr ip src n
         end
  else if (d_size d <? off) || (u32 (off + n) <? off) then mret (-1)
  else if MAXFILE * BSIZE <? u32 (off + n) then mret (-1)
  else
    off' ← writei_loop (Datatypes.S (Datatypes.S (Datatypes.S (Z.to_nat (n / BSIZE))))) ip src off n 0;
    i ← ino ip;
    (if (0 <? n) && (d_size (i_d i) <? off') then
       upd_disk ip (set_size off');; iupdate ip
     else mret tt);;
    mret n.

(** ** Directories *)

(** The entry at [off]. *)
Definition read_dirent (msg : string) (dp : nat) (off : Z) : F (list Z) :=
  r ← readi dp off sizeof_dirent;
  if r.1 =? sizeof_dirent then mret r.2 else panic msg.

(** The inode and the offset of the entry. *)
Fixpoint dirlookup_loop (fuel : nat) (dp : nat) (name : list Z) (off : Z) : F (option (nat * Z)) :=
  match fuel with
  | O => nofuel
  | Datatypes.S fuel =>
      d ← ino dp;
      if off <? d_size (i_d d) then
        de ← read_dirent "dirlink read" dp off;
        if dirent_inum de =? 0 then dirlookup_loop fuel dp name (off + sizeof_dirent)
        else if namecmp name (dirent_name de) =? 0 then
          ip ← iget (i_dev d) (dirent_inum de);
          mret (Some (ip, off))
        else dirlookup_loop fuel dp name (off + sizeof_dirent)
      else mret None
  end.

Definition dirlookup (dp : nat) (name : list Z) : F (option (nat * Z)) :=
  d ← ino dp;
  if negb (d_type (i_d d) =? T_DIR) then panic "dirlookup not DIR"
  else dirlookup_loop (Datatypes.S (Datatypes.S (Z.to_nat (d_size (i_d d) / sizeof_dirent)))) dp name 0.

(** The offset of the first empty entry, or the size of the directory. *)
Fixpoint find_empty (fuel : nat) (dp : nat) (off : Z) : F Z :=
  match fuel with
  | O => nofuel
  | Datatypes.S fuel =>
      d ← ino dp;
      if off <? d_size (i_d d) then
        de ← read_dirent "dirlink read" dp off;
        if dirent_inum de =? 0 then mret off else find_empty fuel dp (off + sizeof_dirent)
      else mret off
  end.

Definition dirlink (dp : nat) (name : list Z) (inum : Z) : F Z :=
  r ← dirlookup dp name;
  match r with
  | Some (ip, _) => iput ip;; mret (-1)
  | None =>
      d ← ino dp;
      off ← find_empty (Datatypes.S (Datatypes.S (Z.to_nat (d_size (i_d d) / sizeof_dirent)))) dp 0;
      r ← writei dp (mk_dirent name inum) off sizeof_dirent;
      if r =? sizeof_dirent then mret 0 else panic "dirlink"
  end.
End files.

(** ** Paths *)

Definition SLASH : Z := 47.

(** while( *path == '/') path++; *)
Fixpoint skip_slashes (path : list Z) : list Z :=
  match path with
  | c :: path' => if c =? SLASH then skip_slashes path' else path
  | [] => []
  end.

(** The characters up to the next slash, and the rest. *)
Fixpoint elem_of_path (path : list Z) : list Z * list Z :=
  match path with
  | c :: path' => if c =? SLASH then ([], path) else let r := elem_of_path path' in (c :: r.1, r.2)
  | [] => ([], [])
  end.

(** The rest of the path and the name; None for the null pointer. *)
Definition skipelem (path : list Z) : option (list Z * list Z) :=
  match skip_slashes path with
  | [] => None
  | path =>
      let r := elem_of_path path in
      Some (skip_slashes r.2, take (Z.to_nat DIRSIZ) r.1)
  end.

Section names.
Context {S : Type} `{!Txn S, !DevSw S}.
#[local] Abbreviation F := (M (fstate S)).

(** The inode, and the last name taken from the path. *)
Fixpoint namex_loop (fuel : nat) (path : list Z) (parent : bool) (name : list Z) (ip : nat)
    : F (option (nat * list Z)) :=
  match fuel with
  | O => nofuel
  | Datatypes.S fuel =>
      match skipelem path with
      | None => if parent then iput ip;; mret None else mret (Some (ip, name))
      | Some (path, name) =>
          ilock (Some ip);;
          i ← ino ip;
          if negb (d_type (i_d i) =? T_DIR) then iunlockput ip;; mret None
          else if parent && (match path with [] => true | _ => false end) then
            iunlock (Some ip);; mret (Some (ip, name))
          else
            next ← dirlookup ip name;
            match next with
            | None => iunlockput ip;; mret None
            | Some (next, _) => iunlockput ip;; namex_loop fuel path parent name next
            end
      end
  end.

(** [cwd] is proc->cwd. *)
Definition namex (cwd : nat) (path : list Z) (parent : bool) : F (option (nat * list Z)) :=
  ip ← (match path with
        | c :: _ => if c =? SLASH then iget ROOTDEV ROOTINO else idup cwd
        | [] => idup cwd
        end);
  namex_loop (Datatypes.S (length path)) path parent [] ip.

Definition namei (cwd : nat) (path : list Z) : F (option nat) :=
  r ← namex cwd path false; mret (fst <$> r).

Definition nameiparent (cwd : nat) (path : list Z) : F (option (nat * list Z)) :=
  namex cwd path true.
End names.
