(* ===== verification/FsBlocks.v ===== *)
(** * The file system: blocks

    Steps of the code on the transaction interface, and the block allocator:
    which bits of the free map balloc and bfree change. *)

From S2P Require Import Prelude Params Disk Superblock Txn Fs.

(** A block whose new contents [x] are in the log. *)
Definition update (b : Z) (x : block) (v : tview) : tview :=
  TView (<[b := x]> (t_blocks v)) (t_held v) (t_pending v) ({[b]} ∪ t_logged v)
    (if decide (b ∈ t_logged v) then t_room v else t_room v - 1) (t_durable v).

(** [b] is logged already or there is room for it. *)
Definition can_log (b : Z) (v : tview) : Prop := b ∈ t_logged v ∨ (0 < t_room v)%nat.

(** Reading: [b] is a block that no buffer holds, and a buffer is left. *)
Record can_read (b : Z) (v : tview) : Prop := CanRead {
  cr_block : is_Some (t_blocks v !! b);
  cr_free : b ∉ (map_img (t_held v) : gset Z);
  cr_held : (size (t_held v) ≤ MAXHELD)%nat;
}.

Lemma unhold_hold i b v : t_held v !! i = None → unhold i (hold i b v) = v.
Proof. intros Hi. destruct v. unfold unhold, hold. cbn in *. by rewrite delete_insert_id. Qed.

Lemma add_log_put b x v : b ∉ t_pending v → add_log b (put_block b x v) = update b x v.
Proof. intros Hb. unfold add_log, put_block, update. cbn. f_equal. set_solver. Qed.

Lemma update_hold i b b' x v : update b x (hold i b' v) = hold i b' (update b x v).
Proof. done. Qed.

Section steps.
Context {S : Type} `{!Txn S}.
Implicit Types (sb : superblock) (ic : list inode) (t : S) (v : tview).
#[local] Abbreviation F := (M (fstate S)).

Lemma tx_ok {A} (m : M S A) sb ic t a t' : m t = Ok a t' → tx m (FState sb ic t) = Ok a (FState sb ic t').
Proof. intros H. unfold tx, zoom. cbn. by rewrite H. Qed.

Lemma tx_bread_ok sb ic t v b :
  trep t v → can_read b v →
  ∃ i t', tx (t_bread ROOTDEV b) (FState sb ic t) = Ok i (FState sb ic t') ∧ trep t' (hold i b v) ∧
    t_held v !! i = None ∧ t_held (hold i b v) !! i = Some b.
Proof.
  intros Ht [H1 H2 H3]. destruct (t_bread_ok _ _ b Ht H1 H2 H3) as (i & t' & E & Hi & Ht').
  exists i, t'. split; [by apply tx_ok|]. split; [done|]. split; [done|]. cbn. apply lookup_insert_eq.
Qed.

Lemma data_step {A} (k : block → F A) sb ic t v i b x :
  trep t v → t_held v !! i = Some b → t_blocks v !! b = Some x →
  (y ← tx (t_data i); k y) (FState sb ic t) = k x (FState sb ic t).
Proof. intros Ht Hi Hx. by mstep (tx_ok _ sb ic _ _ _ (t_data_ok _ _ _ _ _ Ht Hi Hx)). Qed.

(** brelse(bp) as a statement and as the last one. *)
Lemma brelse_last sb ic t v i b :
  trep t v → t_held v !! i = Some b → b ∉ t_pending v →
  ∃ t', tx (t_brelse i) (FState sb ic t) = Ok tt (FState sb ic t') ∧ trep t' (unhold i v).
Proof.
  intros Ht Hi Hb. destruct (t_brelse_ok _ _ _ _ Ht Hi Hb) as (t' & E & Ht').
  exists t'. split; [by apply tx_ok|done].
Qed.

Lemma brelse_step {A} (k : F A) sb ic t v i b :
  trep t (hold i b v) → t_held v !! i = None → b ∉ t_pending v →
  ∃ t', (tx (t_brelse i);; k) (FState sb ic t) = k (FState sb ic t') ∧ trep t' v.
Proof.
  intros Ht Hi Hb. destruct (brelse_last sb ic t _ i b Ht) as (t' & E & Ht'); [cbn; by rewrite lookup_insert_eq|done|].
  rewrite unhold_hold in Ht' by done. exists t'. mstep E. done.
Qed.

(** An assignment to bp->data and log_write(bp). *)
Lemma log_step {A} (k : F A) sb ic t v i b x :
  trep t v → t_held v !! i = Some b → b ∉ t_pending v → can_log b v →
  ∃ t', (tx (t_set i x);; tx (t_log_write i);; k) (FState sb ic t) = k (FState sb ic t') ∧ trep t' (update b x v).
Proof.
  intros Ht Hi Hb Hl. destruct (t_set_ok _ _ _ _ x Ht Hi) as (t1 & E1 & Ht1).
  destruct (t_log_write_ok _ _ i b Ht1) as (t2 & E2 & Ht2); [done|done|].
  rewrite add_log_put in Ht2 by done. exists t2. mstep (tx_ok _ sb ic _ _ _ E1). mstep (tx_ok _ sb ic _ _ _ E2). done.
Qed.

(** The whole sequence on a block: read, modify, log, release. *)
Lemma update_step {A} (f : block → block) (k : F A) sb ic t v b x :
  trep t v → can_read b v → t_blocks v !! b = Some x → b ∉ t_pending v → can_log b v →
  ∃ t', (bp ← tx (t_bread ROOTDEV b); y ← tx (t_data bp);
         tx (t_set bp (f y));; tx (t_log_write bp);; tx (t_brelse bp);; k) (FState sb ic t) = k (FState sb ic t') ∧
    trep t' (update b (f x) v).
Proof.
  intros Ht Hr Hx Hp Hl. destruct (tx_bread_ok sb ic t v b Ht Hr) as (i & t1 & E1 & Ht1 & Hi & Hi1). mstep E1.
  rewrite (data_step _ sb ic t1 (hold i b v) i b x Ht1 Hi1 Hx).
  destruct (log_step (tx (t_brelse i);; k) sb ic t1 (hold i b v) i b (f x) Ht1 Hi1 Hp Hl) as (t2 & E2 & Ht2). rewrite E2.
  rewrite update_hold in Ht2. destruct (brelse_step k sb ic t2 (update b (f x) v) i b Ht2 Hi Hp) as (t3 & E3 & Ht3).
  eauto.
Qed.

(** Reading a block: read and release. *)
Lemma read_step {A} (k : block → F A) sb ic t v b x :
  trep t v → can_read b v → t_blocks v !! b = Some x → b ∉ t_pending v →
  ∃ t', (bp ← tx (t_bread ROOTDEV b); y ← tx (t_data bp); tx (t_brelse bp);; k y) (FState sb ic t) = k x (FState sb ic t') ∧
    trep t' v.
Proof.
  intros Ht Hr Hx Hp. destruct (tx_bread_ok sb ic t v b Ht Hr) as (i & t1 & E1 & Ht1 & Hi & Hi1). mstep E1.
  rewrite (data_step _ sb ic t1 (hold i b v) i b x Ht1 Hi1 Hx).
  destruct (brelse_step (k x) sb ic t1 v i b Ht1 Hi Hp) as (t2 & E2 & Ht2). eauto.
Qed.

Lemma bzero_ok sb ic t v b :
  trep t v → can_read b v → b ∉ t_pending v → can_log b v →
  ∃ t', bzero ROOTDEV b (FState sb ic t) = Ok tt (FState sb ic t') ∧ trep t' (update b (replicate BSIZE_n 0) v).
Proof.
  intros Ht Hr Hp Hl. unfold bzero.
  destruct (tx_bread_ok sb ic t v b Ht Hr) as (i & t1 & E1 & Ht1 & Hi & Hi1). mstep E1.
  destruct (log_step (tx (t_brelse i)) sb ic t1 (hold i b v) i b (replicate BSIZE_n 0) Ht1 Hi1 Hp Hl) as (t2 & E2 & Ht2).
  rewrite E2. destruct (brelse_last sb ic t2 _ i b Ht2 Hi1 Hp) as (t3 & E3 & Ht3).
  exists t3. split; [done|]. rewrite update_hold, unhold_hold in Ht3 by done. done.
Qed.
End steps.

(** ** The free map *)

Definition bit_of (x : block) (bi : Z) : bool := Z.testbit (default 0 (x !! bit_byte bi)) (bi `mod` 8).

(** bp->data[bi/8] |= m and bp->data[bi/8] &= ~m *)
Definition mark (bi : Z) (x : block) : block :=
  <[bit_byte bi := u8 (Z.lor (default 0 (x !! bit_byte bi)) (bit_mask bi))]> x.
Definition unmark (bi : Z) (x : block) : block :=
  <[bit_byte bi := u8 (Z.land (default 0 (x !! bit_byte bi)) (Z.lnot (bit_mask bi)))]> x.

Lemma bit_byte_lt (x : block) bi : length x = BSIZE_n → 0 ≤ bi < BPB → (bit_byte bi < length x)%nat.
Proof.
  intros -> Hbi. unfold bit_byte, BSIZE_n. apply Z2Nat.inj_lt; [by apply Z.div_pos; lia|done|].
  unfold BPB in Hbi. apply Z.div_lt_upper_bound; lia.
Qed.

Lemma bit_mask_test y bi : (Z.land y (bit_mask bi) =? 0) = negb (Z.testbit y (bi `mod` 8)).
Proof.
  assert (0 ≤ bi `mod` 8) by (apply Z.mod_pos_bound; lia).
  rewrite <- (flag_testbit y (bi `mod` 8)) by done. unfold flag, bit_mask.
  rewrite Z.shiftl_1_l. by rewrite negb_involutive.
Qed.

Lemma testbit_u8 z n : 0 ≤ n < 8 → Z.testbit (u8 z) n = Z.testbit z n.
Proof. intros. unfold u8. apply Z.mod_pow2_bits_low. lia. Qed.

Lemma bit_byte_inj i j : 0 ≤ i → 0 ≤ j → bit_byte i = bit_byte j → i `mod` 8 = j `mod` 8 → i = j.
Proof.
  intros Hi Hj Hb Hm. unfold bit_byte in Hb. apply Z2Nat.inj in Hb; [|apply Z.div_pos; lia..].
  rewrite (Z.div_mod i 8), (Z.div_mod j 8) by lia. by rewrite Hb, Hm.
Qed.

(** The two ways to change a bit. *)
Lemma bit_of_insert x bi y bj :
  length x = BSIZE_n → 0 ≤ bi < BPB → 0 ≤ bj < BPB →
  (∀ n, 0 ≤ n < 8 → n ≠ bi `mod` 8 → Z.testbit y n = Z.testbit (default 0 (x !! bit_byte bi)) n) →
  bit_of (<[bit_byte bi := y]> x) bj = if decide (bj = bi) then Z.testbit y (bi `mod` 8) else bit_of x bj.
Proof.
  intros Hx Hi Hj Hy. unfold bit_of. pose proof (bit_byte_lt x bi Hx Hi) as Hlt.
  assert (0 ≤ bj `mod` 8 < 8) by (apply Z.mod_pos_bound; lia).
  destruct (decide (bj = bi)) as [->|Hne]; [by rewrite list_lookup_insert_eq|].
  destruct (decide (bit_byte bj = bit_byte bi)) as [Eb|Nb].
  - rewrite Eb, list_lookup_insert_eq by done. apply Hy; [done|]. intros E.
    apply Hne, bit_byte_inj; [lia..|done|done].
  - by rewrite list_lookup_insert_ne by done.
Qed.

Lemma bit_of_mark x bi bj :
  length x = BSIZE_n → 0 ≤ bi < BPB → 0 ≤ bj < BPB → bit_of (mark bi x) bj = bool_decide (bj = bi) || bit_of x bj.
Proof.
  intros Hx Hi Hj. assert (0 ≤ bi `mod` 8 < 8) by (apply Z.mod_pos_bound; lia). unfold mark, bit_mask.
  rewrite bit_of_insert; [|done..|].
  - rewrite testbit_u8, Z.lor_spec, Z.shiftl_1_l, Z.pow2_bits_true, orb_true_r by lia.
    destruct (decide (bj = bi)); [by rewrite bool_decide_true|by rewrite bool_decide_false].
  - intros n Hn Hne. rewrite testbit_u8, Z.lor_spec, Z.shiftl_1_l, Z.pow2_bits_false by lia. apply orb_false_r.
Qed.

Lemma bit_of_unmark x bi bj :
  length x = BSIZE_n → 0 ≤ bi < BPB → 0 ≤ bj < BPB →
  bit_of (unmark bi x) bj = negb (bool_decide (bj = bi)) && bit_of x bj.
Proof.
  intros Hx Hi Hj. assert (0 ≤ bi `mod` 8 < 8) by (apply Z.mod_pos_bound; lia). unfold unmark, bit_mask.
  rewrite bit_of_insert; [|done..|].
  - rewrite testbit_u8, Z.land_spec, Z.lnot_spec, Z.shiftl_1_l, Z.pow2_bits_true, andb_false_r by lia.
    destruct (decide (bj = bi)); [by rewrite bool_decide_true|by rewrite bool_decide_false].
  - intros n Hn Hne. rewrite testbit_u8, Z.land_spec, Z.lnot_spec, Z.shiftl_1_l, Z.pow2_bits_false by lia. apply andb_true_r.
Qed.

(** Where the bit of block [b] is, and what it is. *)
Definition bit_index (b : Z) : Z := b `mod` BPB.
Definition used (sb : superblock) (m : gmap Z block) (b : Z) : bool :=
  match m !! BBLOCK b sb with Some x => bit_of x (bit_index b) | None => true end.

(** The free map covers the disk. *)
Record map_ok (sb : superblock) (m : gmap Z block) : Prop := MapOk {
  mo_size : 0 ≤ sb_size sb < 2 ^ 31;
  mo_start : 0 ≤ sb_bmapstart sb < 2 ^ 31;
  mo_block b : 0 ≤ b < sb_size sb → ∃ x, m !! BBLOCK b sb = Some x ∧ length x = BSIZE_n;
}.

Lemma bit_index_range b : 0 ≤ bit_index b < BPB.
Proof. by apply Z.mod_pos_bound. Qed.

Lemma BBLOCK_eq sb m b : map_ok sb m → 0 ≤ b < sb_size sb → BBLOCK b sb = b / BPB + sb_bmapstart sb.
Proof.
  intros [Hs Hst _] Hb. unfold BBLOCK. apply u32_small.
  assert (0 ≤ b / BPB ≤ b) by (split; [apply Z.div_pos; [lia|done]|apply Z.div_le_upper_bound; [done|unfold BPB, BSIZE; lia]]).
  lia.
Qed.

(** Two blocks with the same bitmap block and the same bit are the same. *)
Lemma bit_pos_inj sb m b c :
  map_ok sb m → 0 ≤ b < sb_size sb → 0 ≤ c < sb_size sb →
  BBLOCK b sb = BBLOCK c sb → bit_index b = bit_index c → b = c.
Proof.
  intros Hm Hb Hc. rewrite !(BBLOCK_eq sb m) by done. unfold bit_index. intros E1 E2.
  rewrite (Z.div_mod b BPB), (Z.div_mod c BPB) by done. rewrite E2. f_equal. f_equal. lia.
Qed.

(** Changing the bit of block [f]. *)
Lemma used_update sb m f g x y r :
  map_ok sb m → 0 ≤ f < sb_size sb → 0 ≤ g < sb_size sb → m !! BBLOCK f sb = Some x →
  (∀ bj, 0 ≤ bj < BPB → bit_of y bj = if bool_decide (bj = bit_index f) then r else bit_of x bj) →
  used sb (<[BBLOCK f sb := y]> m) g = if bool_decide (g = f) then r else used sb m g.
Proof.
  intros Hm Hf Hg Hx Hy. unfold used. destruct (decide (BBLOCK g sb = BBLOCK f sb)) as [E|E].
  - rewrite E, lookup_insert_eq, Hx, Hy by apply bit_index_range.
    destruct (decide (g = f)) as [->|Hne]; [by rewrite !bool_decide_true|].
    rewrite !bool_decide_false; [done|done|]. intros Ei. by apply Hne, (bit_pos_inj sb m).
  - rewrite lookup_insert_ne by done. rewrite bool_decide_false; [done|]. by intros ->.
Qed.

(** The first free block, if there is one. *)
Definition first_free (sb : superblock) (m : gmap Z block) (f : Z) : Prop :=
  0 ≤ f < sb_size sb ∧ used sb m f = false ∧ ∀ g, 0 ≤ g < f → used sb m g = true.

(** What balloc does to the blocks: the bit is set and the block is zeroed. *)
Definition alloc_view (sb : superblock) (f : Z) (v : tview) : tview :=
  update f (replicate BSIZE_n 0)
    (update (BBLOCK f sb) (mark (bit_index f) (default [] (t_blocks v !! BBLOCK f sb))) v).

(** What bfree does: the bit is cleared. *)
Definition free_view (sb : superblock) (f : Z) (v : tview) : tview :=
  update (BBLOCK f sb) (unmark (bit_index f) (default [] (t_blocks v !! BBLOCK f sb))) v.

(** The blocks of the free map can be read. *)
Record map_free (sb : superblock) (v : tview) : Prop := MapFree {
  mf_map : map_ok sb (t_blocks v);
  mf_held : (size (t_held v) ≤ MAXHELD)%nat;
  mf_free b : 0 ≤ b < sb_size sb → BBLOCK b sb ∉ (map_img (t_held v) : gset Z);
  mf_pending : t_pending v = ∅;
}.

Section balloc.
Context {S : Type} `{!Txn S}.
Implicit Types (sb : superblock) (ic : list inode) (t : S) (v : tview).

(** The inner loop finds the first clear bit below the size. *)
Lemma free_bit_ok n (x : block) b size bi (s : fstate S) :
  length x = BSIZE_n → 0 ≤ bi → bi + Z.of_nat n ≤ BPB →
  ∃ r, free_bit n x b size bi s = Ok r s ∧
    match r with
    | Some k => bi ≤ k < bi + Z.of_nat n ∧ b + k < size ∧ bit_of x k = false ∧ ∀ j, bi ≤ j < k → bit_of x j = true
    | None => ∀ j, bi ≤ j < bi + Z.of_nat n → b + j < size → bit_of x j = true
    end.
Proof.
  intros Hx. revert bi. induction n as [|n IH]; intros bi Hbi Hn; [exists None; split; [done|lia]|].
  cbn [free_bit]. destruct (Z.ltb_spec (b + bi) size); [|exists None; split; [done|intros; lia]].
  destruct (lookup_lt_is_Some_2 x (bit_byte bi) (bit_byte_lt x bi Hx ltac:(lia))) as [y Hy].
  rewrite (ofopt_step _ y _ _ Hy).
  assert (bit_of x bi = Z.testbit y (bi `mod` 8)) as Eb by (unfold bit_of; by rewrite Hy).
  rewrite bit_mask_test. destruct (Z.testbit y (bi `mod` 8)) eqn:Et; cbn [negb].
  - destruct (IH (bi + 1) ltac:(lia) ltac:(lia)) as (r & E & Hr). exists r. split; [done|].
    destruct r as [k|].
    + destruct Hr as (? & ? & ? & Hall). split; [lia|]. split; [done|]. split; [done|]. intros j Hj.
      destruct (decide (j = bi)) as [->|]; [done|]. apply Hall. lia.
    + intros j Hj Hs. destruct (decide (j = bi)) as [->|]; [done|]. apply Hr; lia.
  - exists (Some bi). split; [done|]. split; [lia|]. split; [done|]. split; [done|]. intros; lia.
Qed.

Lemma mark_insert (x : block) bi y :
  x !! bit_byte bi = Some y → <[bit_byte bi := u8 (Z.lor y (bit_mask bi))]> x = mark bi x.
Proof. intros Hy. unfold mark. by rewrite Hy. Qed.

Lemma map_free_read sb v b : map_free sb v → 0 ≤ b < sb_size sb → can_read (BBLOCK b sb) v.
Proof. intros [Hm Hh Hf Hp] Hb. destruct (mo_block _ _ Hm b Hb) as (x & Hx & _). split; [by eexists|by apply Hf|done]. Qed.

Lemma bit_in_block sb m b bi :
  map_ok sb m → b `mod` BPB = 0 → 0 ≤ b → 0 ≤ bi < BPB → b + bi < sb_size sb →
  BBLOCK (b + bi) sb = BBLOCK b sb ∧ bit_index (b + bi) = bi.
Proof.
  intros Hm Hb H0 Hbi Hs. unfold bit_index. rewrite !(BBLOCK_eq sb m) by (done || lia).
  assert (b = b / BPB * BPB) as E by (rewrite (Z.div_mod b BPB) at 1 by done; lia).
  split.
  - f_equal. rewrite E at 1. rewrite Z.div_add_l by done. rewrite (Z.div_small bi) by done. lia.
  - rewrite E, Z.add_comm, Z_mod_plus_full. by apply Z.mod_small.
Qed.

(** The part of balloc after the bit is found. *)
Lemma balloc_take sb ic t v i b f x :
  trep t (hold i (BBLOCK f sb) v) → t_held v !! i = None → map_free sb v → 0 ≤ f < sb_size sb →
  t_blocks v !! BBLOCK f sb = Some x → bit_of x (bit_index f) = false → f = b + bit_index f →
  can_read f v → f ≠ BBLOCK f sb → can_log (BBLOCK f sb) v → can_log f (update (BBLOCK f sb) (mark (bit_index f) x) v) →
  ∃ t', (y ← ofopt (x !! bit_byte (bit_index f));
         tx (t_set i (<[bit_byte (bit_index f) := u8 (Z.lor y (bit_mask (bit_index f)))]> x));;
         tx (t_log_write i);; tx (t_brelse i);; bzero ROOTDEV (b + bit_index f);; mret (b + bit_index f))
        (FState sb ic t) = Ok f (FState sb ic t') ∧ trep t' (alloc_view sb f v).
Proof.
  intros Ht Hi Hm Hf Hx Hbit Ef [Hr1 Hr2 Hr3] Hne Hl1 Hl2. destruct (mo_block _ _ (mf_map _ _ Hm) f Hf) as (x' & Hx' & Hlen).
  simplify_eq. destruct (lookup_lt_is_Some_2 x _ (bit_byte_lt x (bit_index f) Hlen (bit_index_range f))) as [y Hy].
  rewrite (ofopt_step _ y _ _ Hy), (mark_insert x (bit_index f) y Hy), <- Ef.
  destruct (log_step (tx (t_brelse i);; bzero ROOTDEV f;; mret f) sb ic t _ i (BBLOCK f sb) (mark (bit_index f) x) Ht)
    as (t1 & E1 & Ht1); [cbn; by rewrite lookup_insert_eq|cbn; rewrite (mf_pending _ _ Hm); set_solver|done|].
  rewrite E1, update_hold in *. clear E1.
  destruct (brelse_step (bzero ROOTDEV f;; mret f) sb ic t1 _ i (BBLOCK f sb) Ht1 Hi) as (t2 & E2 & Ht2);
    [cbn; rewrite (mf_pending _ _ Hm); set_solver|]. rewrite E2. clear E2.
  destruct (bzero_ok sb ic t2 _ f Ht2) as (t3 & E3 & Ht3); [|cbn; rewrite (mf_pending _ _ Hm); set_solver|done|].
  { split; [cbn; rewrite lookup_insert_ne by done; done|done|done]. }
  exists t3. mstep E3. split; [done|]. unfold alloc_view. by rewrite Hx.
Qed.

(** One turn of the outer loop. *)
Lemma balloc_turn fuel b sb ic t v :
  trep t v → map_free sb v → 0 ≤ b < sb_size sb → b `mod` BPB = 0 →
  ∃ i t' x r, t_blocks v !! BBLOCK b sb = Some x ∧ trep t' (hold i (BBLOCK b sb) v) ∧ t_held v !! i = None ∧
    balloc_loop (Datatypes.S fuel) ROOTDEV b (FState sb ic t) =
      match r with
      | Some bi =>
          y ← ofopt (x !! bit_byte bi);
          tx (t_set i (<[bit_byte bi := u8 (Z.lor y (bit_mask bi))]> x));;
          tx (t_log_write i);; tx (t_brelse i);; bzero ROOTDEV (b + bi);; mret (b + bi)
      | None => tx (t_brelse i);; balloc_loop fuel ROOTDEV (b + BPB)
      end (FState sb ic t') ∧
    match r with
    | Some k => 0 ≤ k < BPB ∧ b + k < sb_size sb ∧ used sb (t_blocks v) (b + k) = false ∧
        ∀ g, b ≤ g < b + k → used sb (t_blocks v) g = true
    | None => ∀ g, b ≤ g < b + BPB → g < sb_size sb → used sb (t_blocks v) g = true
    end.
Proof.
  intros Ht Hm Hb Hmod. destruct (mo_block _ _ (mf_map _ _ Hm) b Hb) as (x & Hx & Hlen).
  cbn [balloc_loop]. rewrite gets_step. cbn [f_sb].
  rewrite (proj2 (Z.ltb_lt b (sb_size sb))) by lia.
  destruct (tx_bread_ok sb ic t v (BBLOCK b sb) Ht (map_free_read _ _ _ Hm Hb)) as (i & t1 & E1 & Ht1 & Hi & Hi1). mstep E1.
  rewrite (data_step _ sb ic t1 _ i (BBLOCK b sb) x Ht1 Hi1 Hx).
  destruct (free_bit_ok (Z.to_nat BPB) x b (sb_size sb) 0 (FState sb ic t1) Hlen ltac:(done) ltac:(done)) as (r & E2 & Hr).
  rewrite (bind_ok _ _ _ _ _ E2). exists i, t1, x, r. split; [done|]. split; [done|]. split; [done|]. split; [done|].
  assert (∀ j, 0 ≤ j < BPB → b + j < sb_size sb → used sb (t_blocks v) (b + j) = bit_of x j) as Hused.
  { intros j Hj Hs. destruct (bit_in_block sb _ b j (mf_map _ _ Hm) Hmod) as [E3 E4]; [lia..|].
    unfold used. by rewrite E3, E4, Hx. }
  rewrite Z2Nat.id in Hr by done. destruct r as [k|].
  - destruct Hr as (Hk & Hs & Hbit & Hall). split; [done|]. split; [done|]. split; [by rewrite Hused|].
    intros g Hg. specialize (Hall (g - b) ltac:(lia)). rewrite <- Hused in Hall by lia. by replace (b + (g - b)) with g in Hall by lia.
  - intros g Hg Hs. specialize (Hr (g - b) ltac:(lia) ltac:(lia)). rewrite <- Hused in Hr by lia. by replace (b + (g - b)) with g in Hr by lia.
Qed.

Lemma next_mod b : b `mod` BPB = 0 → (b + BPB) `mod` BPB = 0.
Proof. intros H. by rewrite <- (Z.mul_1_l BPB) at 1; rewrite Z_mod_plus_full. Qed.

Lemma balloc_loop_ok fuel b f sb ic t v :
  trep t v → map_free sb v → first_free sb (t_blocks v) f → 0 ≤ b ≤ f → b `mod` BPB = 0 →
  f - b < Z.of_nat fuel * BPB →
  can_read f v → f ≠ BBLOCK f sb → can_log (BBLOCK f sb) v →
  can_log f (update (BBLOCK f sb) (mark (bit_index f) (default [] (t_blocks v !! BBLOCK f sb))) v) →
  ∃ t', balloc_loop fuel ROOTDEV b (FState sb ic t) = Ok f (FState sb ic t') ∧ trep t' (alloc_view sb f v).
Proof.
  intros Ht Hm Hf Hb Hmod Hfuel Hr Hne Hl1 Hl2. revert b t Ht Hb Hmod Hfuel.
  induction fuel as [|fuel IH]; intros b t Ht Hb Hmod Hfuel; [lia|].
  destruct Hf as (Hfr & Hff & Hfmin).
  destruct (balloc_turn fuel b sb ic t v Ht Hm) as (i & t1 & x & r & Hx & Ht1 & Hi & E & Hc); [lia|done|].
  rewrite E. clear E. destruct r as [k|].
  - destruct Hc as (Hk & Hs & Hu & Hall).
    assert (f = b + k) as Ef.
    { destruct (Z.lt_trichotomy f (b + k)) as [H|[H|H]]; [|done|].
      - by rewrite Hall in Hff by lia.
      - by rewrite Hfmin in Hu by lia. }
    destruct (bit_in_block sb _ b k (mf_map _ _ Hm) Hmod) as [E1 E2]; [lia..|]. rewrite <- Ef in E1, E2.
    rewrite <- E2 in *. rewrite <- E1 in Ht1, Hx. rewrite Hx in Hl2. cbn in Hl2.
    apply (balloc_take sb ic t1 v i b f x Ht1 Hi Hm Hfr Hx); [|done..].
    unfold used in Hff. by rewrite Hx in Hff.
  - destruct (brelse_step (balloc_loop fuel ROOTDEV (b + BPB)) sb ic t1 v i _ Ht1 Hi) as (t2 & E2 & Ht2);
      [rewrite (mf_pending _ _ Hm); set_solver|]. rewrite E2.
    assert (b + BPB ≤ f) by (destruct (Z_lt_le_dec f (b + BPB)); [by rewrite Hc in Hff by lia|done]).
    rewrite Nat2Z.inj_succ, Z.mul_succ_l in Hfuel. apply IH; [done|unfold BPB, BSIZE in *; lia|by apply next_mod|lia].
Qed.

Lemma balloc_loop_full fuel b sb ic t v :
  trep t v → map_free sb v → (∀ g, 0 ≤ g < sb_size sb → used sb (t_blocks v) g = true) → 0 ≤ b → b `mod` BPB = 0 →
  (0 < fuel)%nat → sb_size sb - b < (Z.of_nat fuel - 1) * BPB →
  balloc_loop fuel ROOTDEV b (FState sb ic t) = Panic "balloc: out of blocks".
Proof.
  intros Ht Hm Hall. revert b t Ht. induction fuel as [|fuel IH]; intros b t Ht Hb Hmod Hpos Hfuel; [lia|].
  destruct (Z_lt_le_dec b (sb_size sb)) as [Hlt|Hge].
  - destruct (balloc_turn fuel b sb ic t v Ht Hm) as (i & t1 & x & r & Hx & Ht1 & Hi & E & Hc); [lia|done|].
    rewrite E. clear E. destruct r as [k|]; [destruct Hc as (? & ? & Hu & _); by rewrite Hall in Hu by lia|].
    destruct (brelse_step (balloc_loop fuel ROOTDEV (b + BPB)) sb ic t1 v i _ Ht1 Hi) as (t2 & E2 & Ht2);
      [rewrite (mf_pending _ _ Hm); set_solver|]. rewrite E2.
    unfold BPB, BSIZE in Hfuel. apply IH; [done|unfold BPB, BSIZE; lia|by apply next_mod|lia|unfold BPB, BSIZE; lia].
  - cbn [balloc_loop]. rewrite gets_step. cbn [f_sb]. by rewrite (proj2 (Z.ltb_ge b (sb_size sb))).
Qed.

(** balloc takes the first free block. *)
Lemma balloc_ok f sb ic t v :
  trep t v → map_free sb v → first_free sb (t_blocks v) f → can_read f v → f ≠ BBLOCK f sb → can_log (BBLOCK f sb) v →
  can_log f (update (BBLOCK f sb) (mark (bit_index f) (default [] (t_blocks v !! BBLOCK f sb))) v) →
  ∃ t', balloc ROOTDEV (FState sb ic t) = Ok f (FState sb ic t') ∧ trep t' (alloc_view sb f v).
Proof.
  intros Ht Hm Hf Hr Hne Hl1 Hl2. destruct Hf as (Hfr & Hf).
  apply (balloc_loop_ok _ 0 f sb ic t v Ht Hm (conj Hfr Hf)); [lia|done| |done..].
  pose proof (Z.mul_succ_div_gt (sb_size sb) BPB ltac:(done)). unfold BPB, BSIZE in *. cbn [f_sb]. lia.
Qed.

Lemma balloc_full sb ic t v :
  trep t v → map_free sb v → (∀ g, 0 ≤ g < sb_size sb → used sb (t_blocks v) g = true) →
  balloc ROOTDEV (FState sb ic t) = Panic "balloc: out of blocks".
Proof.
  intros Ht Hm Hall. apply (balloc_loop_full _ 0 sb ic t v Ht Hm Hall); [done|done|lia|].
  destruct (mf_map _ _ Hm) as [Hs _ _].
  pose proof (Z.mul_succ_div_gt (sb_size sb) BPB ltac:(done)). assert (0 ≤ sb_size sb / BPB) by (apply Z.div_pos; lia || done).
  unfold BPB, BSIZE in *. cbn [f_sb]. lia.
Qed.

Lemma fs_readsb_ok sb ic t v x1 :
  trep t v → can_read 1 v → t_blocks v !! 1 = Some x1 → 1 ∉ t_pending v →
  ∃ t', readsb ROOTDEV (FState sb ic t) = Ok (sb_decode x1) (FState sb ic t') ∧ trep t' v.
Proof. intros Ht Hr Hx Hp. apply (read_step (λ y, mret (sb_decode y)) sb ic t v 1 x1 Ht Hr Hx Hp). Qed.

(** bfree clears the bit of a used block and panics on a free one. *)
Lemma bfree_ok f sb ic t v x1 :
  trep t v → map_free sb v → 0 ≤ f < sb_size sb → can_read 1 v → t_blocks v !! 1 = Some x1 → sb_decode x1 = sb →
  can_log (BBLOCK f sb) v →
  if used sb (t_blocks v) f
  then ∃ t', bfree ROOTDEV f (FState sb ic t) = Ok tt (FState sb ic t') ∧ trep t' (free_view sb f v)
  else bfree ROOTDEV f (FState sb ic t) = Panic "freeing free block".
Proof.
  intros Ht Hm Hf Hr1 Hx1 Hsb Hl. destruct (mo_block _ _ (mf_map _ _ Hm) f Hf) as (x & Hx & Hlen).
  destruct (fs_readsb_ok sb ic t v x1 Ht Hr1 Hx1) as (t1 & E1 & Ht1); [rewrite (mf_pending _ _ Hm); set_solver|].
  unfold bfree. mstep E1. rewrite Hsb. clear E1.
  destruct (tx_bread_ok sb ic t1 v (BBLOCK f sb) Ht1 (map_free_read _ _ _ Hm Hf)) as (i & t2 & E2 & Ht2 & Hi & Hi2).
  rewrite modify_step. cbn [f_icache f_tx]. mstep E2.
  rewrite (data_step _ sb ic t2 _ i (BBLOCK f sb) x Ht2 Hi2 Hx). cbv zeta.
  destruct (lookup_lt_is_Some_2 x _ (bit_byte_lt x (bit_index f) Hlen (bit_index_range f))) as [y Hy].
  rewrite (ofopt_step _ y _ _ Hy), bit_mask_test.
  unfold used, bit_of, bit_index in *. rewrite Hx, Hy. cbn [from_option id]. destruct (Z.testbit _ _); [|done]. cbn [negb].
  destruct (log_step (tx (t_brelse i)) sb ic t2 _ i (BBLOCK f sb) (unmark (f `mod` BPB) x) Ht2 Hi2) as (t3 & E3 & Ht3);
    [cbn; rewrite (mf_pending _ _ Hm); set_solver|done|].
  unfold unmark in E3. rewrite Hy in E3. cbn [from_option id] in E3. rewrite E3.
  destruct (brelse_last sb ic t3 _ i (BBLOCK f sb) Ht3 Hi2) as (t4 & E4 & Ht4); [cbn; rewrite (mf_pending _ _ Hm); set_solver|].
  exists t4. split; [done|]. rewrite update_hold, unhold_hold in Ht4 by done. unfold free_view, bit_index. by rewrite Hx.
Qed.
End balloc.

Lemma used_other sb m f z g : f ≠ BBLOCK g sb → used sb (<[f := z]> m) g = used sb m g.
Proof. intros H. unfold used. by rewrite lookup_insert_ne. Qed.

(** The effect on the free map and on the other blocks. *)
Lemma alloc_view_used sb f v g :
  map_ok sb (t_blocks v) → 0 ≤ f < sb_size sb → 0 ≤ g < sb_size sb → f ≠ BBLOCK g sb →
  used sb (t_blocks (alloc_view sb f v)) g = bool_decide (g = f) || used sb (t_blocks v) g.
Proof.
  intros Hm Hf Hg Hne. destruct (mo_block _ _ Hm f Hf) as (x & Hx & Hlen). unfold alloc_view. rewrite Hx.
  cbn [from_option id update t_blocks]. rewrite used_other by done.
  rewrite (used_update sb (t_blocks v) f g x (mark (bit_index f) x) true Hm Hf Hg Hx); [by destruct (bool_decide (g = f))|].
  intros bj Hbj. rewrite bit_of_mark by (done || apply bit_index_range). by destruct (bool_decide _).
Qed.

Lemma free_view_used sb f v g :
  map_ok sb (t_blocks v) → 0 ≤ f < sb_size sb → 0 ≤ g < sb_size sb →
  used sb (t_blocks (free_view sb f v)) g = negb (bool_decide (g = f)) && used sb (t_blocks v) g.
Proof.
  intros Hm Hf Hg. destruct (mo_block _ _ Hm f Hf) as (x & Hx & Hlen). unfold free_view. rewrite Hx.
  cbn [from_option id update t_blocks].
  rewrite (used_update sb (t_blocks v) f g x (unmark (bit_index f) x) false Hm Hf Hg Hx); [by destruct (bool_decide (g = f))|].
  intros bj Hbj. rewrite bit_of_unmark by (done || apply bit_index_range). by destruct (bool_decide _).
Qed.
