(* ===== verification/FsInode.v ===== *)
(** * The file system: the blocks and the contents of inodes

    Which blocks an inode owns, which bytes are its contents, and the
    invariant of a file system: the free map covers the blocks in use, and no
    block belongs to two places.  The three ways in which the code changes the
    disk keep it: a new block is attached to an inode, bytes of a file are
    written, and blocks in front of the data area are written. *)

From S2P Require Import Prelude Params Disk Superblock Txn Fs FsBlocks.

Definition NDIRECT_n : nat := Z.to_nat NDIRECT.
Definition NINDIRECT_n : nat := Z.to_nat NINDIRECT.

(** The indirect block, the words in it, and the addresses of the blocks of
    a file in order, 0 where there is none. *)
Definition ind_addr (d : dinode) : Z := default 0 (d_addrs d !! NDIRECT_n).
Definition ind_words (m : gmap Z block) (a : Z) : list Z :=
  if a =? 0 then replicate NINDIRECT_n 0 else word_at (default [] (m !! a)) <$> seq 0 NINDIRECT_n.
Definition addrs_of (m : gmap Z block) (d : dinode) : list Z :=
  take NDIRECT_n (d_addrs d) ++ ind_words m (ind_addr d).
Definition addr_of (m : gmap Z block) (d : dinode) (bn : nat) : Z := default 0 (addrs_of m d !! bn).

(** All blocks of an inode by position, the indirect block first. *)
Definition blk (m : gmap Z block) (d : dinode) : list Z := ind_addr d :: addrs_of m d.

(** The contents. *)
Definition file_block (m : gmap Z block) (d : dinode) (bn : nat) : block := default [] (m !! addr_of m d bn).
Definition byte_at (m : gmap Z block) (d : dinode) (o : nat) : Z :=
  default 0 (file_block m d (o / BSIZE_n) !! (o `mod` BSIZE_n)%nat).
Definition content (m : gmap Z block) (d : dinode) : list Z := byte_at m d <$> seq 0 (Z.to_nat (d_size d)).

(** The first block behind the free map. *)
Definition data_start (sb : superblock) : Z := sb_bmapstart sb + sb_size sb / BPB + 1.
Definition data_block (sb : superblock) (b : Z) : Prop := data_start sb ≤ b < sb_size sb.

Record fs_ok (sb : superblock) (m : gmap Z block) (ds : gmap Z dinode) : Prop := FsOk {
  fo_map : map_ok sb m;
  fo_meta b : 0 ≤ b < data_start sb → b < sb_size sb → used sb m b = true;
  fo_block b : data_block sb b → ∃ x, m !! b = Some x ∧ length x = BSIZE_n;
  fo_len inum d : ds !! inum = Some d → length (d_addrs d) = S NDIRECT_n;
  fo_owned inum d p b : ds !! inum = Some d → blk m d !! p = Some b → b ≠ 0 → data_block sb b ∧ used sb m b = true;
  fo_sep i1 i2 d1 d2 p1 p2 b :
    ds !! i1 = Some d1 → ds !! i2 = Some d2 → blk m d1 !! p1 = Some b → blk m d2 !! p2 = Some b → b ≠ 0 → i1 = i2 ∧ p1 = p2;
  fo_size inum d : ds !! inum = Some d → 0 ≤ d_size d;
  fo_full inum d o : ds !! inum = Some d → Z.of_nat o < d_size d → addr_of m d (o / BSIZE_n) ≠ 0;
}.

#[global] Arguments fo_map {_ _ _}.
#[global] Arguments fo_meta {_ _ _}.
#[global] Arguments fo_block {_ _ _}.
#[global] Arguments fo_len {_ _ _}.
#[global] Arguments fo_owned {_ _ _}.
#[global] Arguments fo_sep {_ _ _}.
#[global] Arguments fo_size {_ _ _}.
#[global] Arguments fo_full {_ _ _}.

(** ** Positions and contents *)

Lemma bitmap_place sb m b : map_ok sb m → 0 ≤ b < sb_size sb → sb_bmapstart sb ≤ BBLOCK b sb < data_start sb.
Proof.
  intros Hm Hb. rewrite (BBLOCK_eq sb m) by done. unfold data_start.
  assert (0 ≤ b / BPB) by (apply Z.div_pos; [lia|done]).
  assert (b / BPB ≤ sb_size sb / BPB) by (apply Z.div_le_mono; [done|lia]). lia.
Qed.

Lemma data_not_bitmap sb m b g : map_ok sb m → data_start sb ≤ b → 0 ≤ g < sb_size sb → b ≠ BBLOCK g sb.
Proof. intros Hm Hb Hg. pose proof (bitmap_place sb m g Hm Hg). lia. Qed.

Lemma data_block_pos sb m b : map_ok sb m → data_block sb b → 0 < b.
Proof.
  intros [H1 H2 _] [H3 _]. unfold data_start in H3.
  assert (0 ≤ sb_size sb / BPB) by (apply Z.div_pos; [lia|done]). lia.
Qed.

Lemma length_ind_words m a : length (ind_words m a) = NINDIRECT_n.
Proof. unfold ind_words. destruct (a =? 0); [by rewrite length_replicate|by rewrite length_fmap, length_seq]. Qed.

Lemma length_addrs_of m d : length (d_addrs d) = S NDIRECT_n → length (addrs_of m d) = (NDIRECT_n + NINDIRECT_n)%nat.
Proof. intros H. unfold addrs_of. rewrite length_app, length_take, length_ind_words, H. lia. Qed.

Lemma blk_addr m d bn a : a ≠ 0 → addr_of m d bn = a → blk m d !! S bn = Some a.
Proof. unfold addr_of, blk. cbn. intros Ha E. destruct (addrs_of m d !! bn); cbn in E; congruence. Qed.

Lemma blk_ind m d : blk m d !! 0%nat = Some (ind_addr d).
Proof. done. Qed.

Lemma blk_ext m m' d : (ind_addr d ≠ 0 → m' !! ind_addr d = m !! ind_addr d) → blk m' d = blk m d.
Proof.
  intros H. unfold blk, addrs_of, ind_words. do 2 f_equal.
  destruct (Z.eqb_spec (ind_addr d) 0) as [|Hne]; [done|]. by rewrite H.
Qed.

Lemma blk_addr_of m m' d d' bn : blk m' d' !! S bn = blk m d !! S bn → addr_of m' d' bn = addr_of m d bn.
Proof. unfold addr_of. change (addrs_of m' d' !! bn = addrs_of m d !! bn → default 0 (addrs_of m' d' !! bn) = default 0 (addrs_of m d !! bn)). by intros ->. Qed.

Lemma length_fcontent m d : length (content m d) = Z.to_nat (d_size d).
Proof. unfold content. by rewrite length_fmap, length_seq. Qed.

Lemma lookup_content m d o : Z.of_nat o < d_size d → content m d !! o = Some (byte_at m d o).
Proof. intros H. unfold content. rewrite list_lookup_fmap, lookup_seq_lt by lia. done. Qed.

Lemma byte_at_ext m m' d d' o :
  file_block m' d' (o / BSIZE_n) = file_block m d (o / BSIZE_n) → byte_at m' d' o = byte_at m d o.
Proof. unfold byte_at. by intros ->. Qed.

Lemma content_ext m m' d d' :
  d_size d' = d_size d →
  (∀ o, Z.of_nat o < d_size d → file_block m' d' (o / BSIZE_n) = file_block m d (o / BSIZE_n)) →
  content m' d' = content m d.
Proof.
  intros Hs H. unfold content. rewrite Hs. apply list_fmap_ext. intros i o Ho.
  apply byte_at_ext, H. apply lookup_seq in Ho. lia.
Qed.

(** ** Attaching a block *)

(** Block [f] becomes the one at position [p] of [d], which had none. *)
Record grown (sb : superblock) (m m' : gmap Z block) (d d' : dinode) (p : nat) (f : Z) : Prop := Grown {
  g_fresh : data_block sb f ∧ used sb m f = false;
  g_at : blk m d !! p = Some 0;
  g_blk : blk m' d' = <[p := f]> (blk m d);
  g_len : length (d_addrs d') = length (d_addrs d);
  g_size : d_size d' = d_size d;
  g_frame b : data_start sb ≤ b → b ≠ f → (b = ind_addr d → b = 0) → m' !! b = m !! b;
  g_block b : data_block sb b → ∃ x, m' !! b = Some x ∧ length x = BSIZE_n;
  g_map : map_ok sb m';
  g_used g : 0 ≤ g < sb_size sb → used sb m' g = bool_decide (g = f) || used sb m g;
  g_low b : b < data_start sb → (∀ g, 0 ≤ g < sb_size sb → b ≠ BBLOCK g sb) → m' !! b = m !! b;
}.

(** Inode [inum] has become [d'], and no inode has lost a block or a byte. *)
Definition keeps (ds : gmap Z dinode) (inum : Z) (d' : dinode) (m m' : gmap Z block) : Prop :=
  ∀ i e bn, ds !! i = Some e → addr_of m e bn ≠ 0 →
    let e' := if decide (i = inum) then d' else e in
    addr_of m' e' bn = addr_of m e bn ∧ file_block m' e' bn = file_block m e bn.

Lemma fkeeps_refl ds inum d m : ds !! inum = Some d → keeps ds inum d m m.
Proof. intros Hd i e bn He _. cbv zeta. destruct (decide (i = inum)) as [->|]; [|done]. by assert (e = d) as -> by congruence. Qed.

Lemma fkeeps_trans ds inum d1 d2 m m1 m2 :
  keeps ds inum d1 m m1 → keeps (<[inum := d1]> ds) inum d2 m1 m2 → keeps ds inum d2 m m2.
Proof.
  intros H1 H2 i e bn He Hne. cbv zeta. destruct (H1 i e bn He Hne) as [E1 E2].
  destruct (decide (i = inum)) as [->|Hi].
  - destruct (H2 inum d1 bn (lookup_insert_eq _ _ _)) as [E3 E4]; [by rewrite E1|].
    rewrite decide_True in E3, E4 by done. by rewrite E3, E4.
  - destruct (H2 i e bn) as [E3 E4]; [by rewrite lookup_insert_ne|by rewrite E1|].
    rewrite decide_False in E3, E4 by done. by rewrite E3, E4.
Qed.

Lemma keeps_content sb ds inum d d' m m' i e :
  fs_ok sb m ds → ds !! inum = Some d → d_size d' = d_size d → keeps ds inum d' m m' → ds !! i = Some e →
  content m' (if decide (i = inum) then d' else e) = content m e.
Proof.
  intros Hok Hd Hs Hk He. apply content_ext.
  - destruct (decide (i = inum)) as [->|]; [|done]. by assert (e = d) as -> by congruence.
  - intros o Ho. apply (Hk i e _ He). by apply (fo_full Hok i).
Qed.

#[global] Arguments g_fresh {_ _ _ _ _ _ _}.
#[global] Arguments g_at {_ _ _ _ _ _ _}.
#[global] Arguments g_blk {_ _ _ _ _ _ _}.
#[global] Arguments g_len {_ _ _ _ _ _ _}.
#[global] Arguments g_size {_ _ _ _ _ _ _}.
#[global] Arguments g_frame {_ _ _ _ _ _ _}.
#[global] Arguments g_block {_ _ _ _ _ _ _}.
#[global] Arguments g_map {_ _ _ _ _ _ _}.
#[global] Arguments g_used {_ _ _ _ _ _ _}.
#[global] Arguments g_low {_ _ _ _ _ _ _}.

Section grown.
Context (sb : superblock) (m m' : gmap Z block) (ds : gmap Z dinode).
Context (inum : Z) (d d' : dinode) (p : nat) (f : Z).
Context (Hok : fs_ok sb m ds) (Hd : ds !! inum = Some d) (Hg : grown sb m m' d d' p f).

Lemma grown_fresh i e q : ds !! i = Some e → blk m e !! q ≠ Some f.
Proof.
  intros He Hq. destruct (g_fresh Hg) as [Hf Hu].
  pose proof (data_block_pos _ _ _ (fo_map Hok) Hf) as Hpos.
  destruct (fo_owned Hok i e q f He Hq ltac:(lia)) as [_ Hu']. congruence.
Qed.

(** The other inodes own what they owned. *)
Lemma grown_other i e : i ≠ inum → ds !! i = Some e → blk m' e = blk m e.
Proof.
  intros Hi He. apply blk_ext. intros Hne.
  destruct (fo_owned Hok i e 0 _ He (blk_ind m e) Hne) as [[Hb _] _].
  apply (g_frame Hg); [done| |].
  - intros E. apply (grown_fresh i e 0 He). by rewrite blk_ind, E.
  - intros E. exfalso. apply Hi.
    apply (fo_sep Hok i inum e d 0 0 _ He Hd (blk_ind m e)); [by rewrite blk_ind, E|done].
Qed.

Lemma grown_lookup i e q b :
  <[inum := d']> ds !! i = Some e → blk m' e !! q = Some b → b ≠ 0 →
  (i = inum ∧ q = p ∧ b = f) ∨ (∃ e0, ds !! i = Some e0 ∧ blk m e0 !! q = Some b ∧ b ≠ f).
Proof.
  intros He Hq Hb. destruct (decide (i = inum)) as [->|Hi].
  - rewrite lookup_insert_eq in He. injection He as <-. rewrite (g_blk Hg) in Hq.
    destruct (decide (q = p)) as [->|Hqp].
    + rewrite list_lookup_insert_eq in Hq; [left; by simplify_eq|]. apply (lookup_lt_Some _ _ _ (g_at Hg)).
    + rewrite list_lookup_insert_ne in Hq by done. right. exists d. split; [done|]. split; [done|].
      intros ->. by apply (grown_fresh inum d q Hd).
  - rewrite lookup_insert_ne in He by done. rewrite (grown_other i e Hi He) in Hq. right. exists e. split; [done|]. split; [done|].
    intros ->. by apply (grown_fresh i e q He).
Qed.

Lemma grown_addr bn : addr_of m d bn ≠ 0 → addr_of m' d' bn = addr_of m d bn.
Proof.
  intros Hne. apply blk_addr_of. rewrite (g_blk Hg), list_lookup_insert_ne; [done|]. intros ->.
  pose proof (g_at Hg) as H0. rewrite (blk_addr m d _ _ Hne eq_refl) in H0. congruence.
Qed.

Lemma grown_ok : fs_ok sb m' (<[inum := d']> ds).
Proof.
  pose proof (g_fresh Hg) as [Hf Hu].
  split.
  - apply Hg.
  - intros b Hb Hs. rewrite (g_used Hg) by lia. rewrite (fo_meta Hok) by done. apply orb_true_r.
  - apply Hg.
  - intros i e. destruct (decide (i = inum)) as [->|Hi].
    + rewrite lookup_insert_eq. intros [= <-]. rewrite (g_len Hg). by apply (fo_len Hok inum).
    + rewrite lookup_insert_ne by done. apply (fo_len Hok).
  - intros i e q b He Hq Hb. destruct (grown_lookup i e q b He Hq Hb) as [(_ & _ & ->)|(e0 & He0 & Hq0 & _)].
    + split; [done|]. rewrite (g_used Hg), bool_decide_true; [done|done|].
      pose proof (data_block_pos _ _ _ (fo_map Hok) Hf). destruct Hf. lia.
    + destruct (fo_owned Hok _ _ _ _ He0 Hq0 Hb) as [Hdb Hub]. split; [done|].
      rewrite (g_used Hg), Hub; [apply orb_true_r|].
      pose proof (data_block_pos _ _ _ (fo_map Hok) Hdb). destruct Hdb. lia.
  - intros i1 i2 e1 e2 q1 q2 b H1 H2 Hq1 Hq2 Hb.
    destruct (grown_lookup i1 e1 q1 b H1 Hq1 Hb) as [(-> & -> & E1)|(e3 & H3 & Hq3 & Hbf)],
      (grown_lookup i2 e2 q2 b H2 Hq2 Hb) as [(-> & -> & E)|(e4 & H4 & Hq4 & Hbf2)]; [done|done|done|].
    by apply (fo_sep Hok i1 i2 e3 e4 q1 q2 b).
  - intros i e. destruct (decide (i = inum)) as [->|Hi].
    + rewrite lookup_insert_eq. intros [= <-]. rewrite (g_size Hg). by apply (fo_size Hok inum).
    + rewrite lookup_insert_ne by done. apply (fo_size Hok).
  - intros i e o. destruct (decide (i = inum)) as [->|Hi].
    + rewrite lookup_insert_eq. intros [= <-]. rewrite (g_size Hg). intros Ho.
      rewrite grown_addr by (by apply (fo_full Hok inum)). by apply (fo_full Hok inum).
    + rewrite lookup_insert_ne by done. intros He Ho.
      rewrite (blk_addr_of m m' e e); [by apply (fo_full Hok i)|by rewrite (grown_other i e Hi He)].
Qed.

(** Blocks of contents are not touched. *)
Lemma grown_leaf i e bn : ds !! i = Some e → addr_of m e bn ≠ 0 → m' !! addr_of m e bn = m !! addr_of m e bn.
Proof.
  intros He Hne. pose proof (blk_addr m e bn _ Hne eq_refl) as Hq.
  destruct (fo_owned Hok _ _ _ _ He Hq Hne) as [[Hb _] _].
  apply (g_frame Hg); [done| |].
  - intros E. by apply (grown_fresh i e (S bn) He); rewrite Hq, E.
  - intros E. exfalso. rewrite E in Hq, Hne.
    by destruct (fo_sep Hok i inum e d (S bn) 0 _ He Hd Hq (blk_ind m d) Hne).
Qed.

Lemma grown_keeps : keeps ds inum d' m m'.
Proof.
  intros i e bn He Hne. unfold file_block.
  assert (addr_of m' (if decide (i = inum) then d' else e) bn = addr_of m e bn) as ->.
  { destruct (decide (i = inum)) as [->|Hi].
    - assert (e = d) as -> by congruence. by apply grown_addr.
    - apply blk_addr_of. by rewrite (grown_other i e Hi He). }
  by rewrite (grown_leaf i e _ He Hne).
Qed.
End grown.

(** ** Writing a block of contents *)

Section leaf.
Context (sb : superblock) (m : gmap Z block) (ds : gmap Z dinode) (inum : Z) (d : dinode) (bn : nat) (x : block).
Context (Hok : fs_ok sb m ds) (Hd : ds !! inum = Some d) (Ha : addr_of m d bn ≠ 0).
#[local] Abbreviation a := (addr_of m d bn).

Lemma leaf_data : data_block sb a.
Proof. by apply (fo_owned Hok inum d (S bn) a Hd (blk_addr _ _ _ _ Ha eq_refl)). Qed.

(** It is no block of pointers. *)
Lemma leaf_blk i e : ds !! i = Some e → blk (<[a := x]> m) e = blk m e.
Proof.
  intros He. apply blk_ext. intros Hne. rewrite lookup_insert_ne; [done|]. intros E.
  pose proof (blk_ind m e) as Hq. rewrite <- E in Hq.
  by destruct (fo_sep Hok inum i d e (S bn) 0 _ Hd He (blk_addr _ _ _ _ Ha eq_refl) Hq Ha).
Qed.

Lemma leaf_used g : 0 ≤ g < sb_size sb → used sb (<[a := x]> m) g = used sb m g.
Proof.
  intros Hg. apply used_other, (data_not_bitmap sb m); [apply Hok|apply leaf_data|done].
Qed.

Lemma leaf_map : map_ok sb (<[a := x]> m).
Proof.
  destruct (fo_map Hok) as [H1 H2 H3]. split; [done|done|]. intros b Hb.
  rewrite lookup_insert_ne by (apply (data_not_bitmap sb m); [apply Hok|apply leaf_data|done]). by apply H3.
Qed.

Lemma leaf_ok : length x = BSIZE_n → fs_ok sb (<[a := x]> m) ds.
Proof.
  intros Hx. split.
  - apply leaf_map.
  - intros b Hb Hs. rewrite leaf_used by lia. by apply (fo_meta Hok).
  - intros b Hb. destruct (decide (a = b)) as [<-|Hne]; [rewrite lookup_insert_eq; eauto|].
    rewrite lookup_insert_ne by done. by apply (fo_block Hok).
  - apply (fo_len Hok).
  - intros i e q b He. rewrite (leaf_blk i e He). intros Hq Hb. destruct (fo_owned Hok i e q b He Hq Hb) as [Hdb Hu].
    split; [done|]. rewrite leaf_used; [done|]. pose proof (data_block_pos _ _ _ (fo_map Hok) Hdb). destruct Hdb. lia.
  - intros i1 i2 e1 e2 q1 q2 b H1 H2. rewrite (leaf_blk i1 e1 H1), (leaf_blk i2 e2 H2). by apply (fo_sep Hok).
  - apply (fo_size Hok).
  - intros i e o He Ho. rewrite (blk_addr_of m _ e e); [by apply (fo_full Hok i)|by rewrite (leaf_blk i e He)].
Qed.

Lemma leaf_file_block i e bn' :
  ds !! i = Some e → addr_of m e bn' ≠ 0 →
  file_block (<[a := x]> m) e bn' = if decide (i = inum ∧ bn' = bn) then x else file_block m e bn'.
Proof.
  intros He Hne. unfold file_block. rewrite (blk_addr_of m _ e e) by (by rewrite (leaf_blk i e He)).
  destruct (decide (i = inum ∧ bn' = bn)) as [[-> ->]|Hn].
  - assert (e = d) as -> by congruence. by rewrite lookup_insert_eq.
  - rewrite lookup_insert_ne; [done|]. intros E. apply Hn.
    destruct (fo_sep Hok inum i d e (S bn) (S bn') a Hd He (blk_addr _ _ _ _ Ha eq_refl)
      (blk_addr _ _ _ _ Ha (eq_sym E)) Ha) as [-> Ep]. split; [done|lia].
Qed.

Lemma leaf_content i e : i ≠ inum → ds !! i = Some e → content (<[a := x]> m) e = content m e.
Proof.
  intros Hi He. apply content_ext; [done|]. intros o Ho.
  rewrite (leaf_file_block i e) by (done || by apply (fo_full Hok i)). by rewrite decide_False by (by intros [-> _]).
Qed.
End leaf.

(** [bytes] at offset [k] of the block. *)
Lemma leaf_byte sb m ds inum d bn k bytes o :
  fs_ok sb m ds → ds !! inum = Some d → addr_of m d bn ≠ 0 → addr_of m d (o / BSIZE_n) ≠ 0 →
  (k + length bytes ≤ BSIZE_n)%nat →
  let pos := (bn * BSIZE_n + k)%nat in
  byte_at (<[addr_of m d bn := splice k bytes (file_block m d bn)]> m) d o =
    if decide (pos ≤ o < pos + length bytes)%nat then default 0 (bytes !! (o - pos)%nat) else byte_at m d o.
Proof.
  intros Hok Hd Ha Ho Hk pos. unfold byte_at.
  assert (length (file_block m d bn) = BSIZE_n) as Hlen.
  { unfold file_block. destruct (fo_block Hok _ (leaf_data sb m ds inum d bn Hok Hd Ha)) as (x & -> & Hx). done. }
  assert (BSIZE_n ≠ 0)%nat as Hnz by done.
  rewrite (leaf_file_block sb m ds inum d bn (splice k bytes (file_block m d bn)) Hok Hd Ha inum d (o / BSIZE_n) Hd Ho).
  pose proof (Nat.div_mod_eq o BSIZE_n) as Eo. pose proof (Nat.mod_upper_bound o BSIZE_n Hnz) as Hr.
  destruct (decide (inum = inum ∧ (o / BSIZE_n)%nat = bn)) as [[_ Eb]|Hne].
  - rewrite Eb in *. destruct (decide _) as [Hin|Hout].
    + rewrite lookup_splice_eq by (rewrite ?Hlen; subst pos; lia). do 2 f_equal. subst pos. lia.
    + rewrite lookup_splice_ne by (rewrite ?Hlen; subst pos; lia). done.
  - rewrite decide_False; [done|]. intros [H1 H2]. apply Hne. split; [done|]. subst pos.
    symmetry. apply (Nat.div_unique o BSIZE_n bn (o - bn * BSIZE_n)); lia.
Qed.

(** ** Writing in front of the data, and changing the size *)

Section meta.
Context (sb : superblock) (m : gmap Z block) (ds : gmap Z dinode) (b : Z) (x : block).
Context (Hok : fs_ok sb m ds) (Hb : b < data_start sb) (Hbm : ∀ g, 0 ≤ g < sb_size sb → b ≠ BBLOCK g sb).

Lemma meta_data c : data_start sb ≤ c → (<[b := x]> m) !! c = m !! c.
Proof. intros Hc. rewrite lookup_insert_ne by lia. done. Qed.

Lemma meta_blk i e : ds !! i = Some e → blk (<[b := x]> m) e = blk m e.
Proof. intros He. apply blk_ext. intros Hne. apply meta_data. by destruct (fo_owned Hok i e 0 _ He (blk_ind m e) Hne) as [[? _] _]. Qed.

Lemma meta_ok : fs_ok sb (<[b := x]> m) ds.
Proof.
  assert (∀ g, 0 ≤ g < sb_size sb → used sb (<[b := x]> m) g = used sb m g) as Hu by (intros; by apply used_other, Hbm).
  destruct (fo_map Hok) as [H1 H2 H3]. split.
  - split; [done|done|]. intros c Hc. rewrite lookup_insert_ne by (by apply Hbm). by apply H3.
  - intros c Hc Hs. rewrite Hu by lia. by apply (fo_meta Hok).
  - intros c [Hc Hs]. rewrite meta_data by done. by apply (fo_block Hok).
  - apply (fo_len Hok).
  - intros i e q c He. rewrite (meta_blk i e He). intros Hq Hc. destruct (fo_owned Hok i e q c He Hq Hc) as [Hdb Huc].
    split; [done|]. rewrite Hu; [done|]. pose proof (data_block_pos _ _ _ (fo_map Hok) Hdb). destruct Hdb. lia.
  - intros i1 i2 e1 e2 q1 q2 c E1 E2. rewrite (meta_blk i1 e1 E1), (meta_blk i2 e2 E2). by apply (fo_sep Hok).
  - apply (fo_size Hok).
  - intros i e o He Ho. rewrite (blk_addr_of m _ e e); [by apply (fo_full Hok i)|by rewrite (meta_blk i e He)].
Qed.

Lemma meta_content i e : ds !! i = Some e → content (<[b := x]> m) e = content m e.
Proof.
  intros He. apply content_ext; [done|]. intros o Ho. unfold file_block.
  rewrite (blk_addr_of m _ e e) by (by rewrite (meta_blk i e He)). rewrite meta_data; [done|].
  pose proof (fo_full Hok i e o He Ho) as Hne. by destruct (fo_owned Hok i e _ _ He (blk_addr _ _ _ _ Hne eq_refl) Hne) as [[? _] _].
Qed.
End meta.

Lemma blk_set_size m d s : blk m (set_size s d) = blk m d.
Proof. done. Qed.

Lemma set_size_ok sb m ds inum d s :
  fs_ok sb m ds → ds !! inum = Some d → 0 ≤ s → (∀ o, Z.of_nat o < s → addr_of m d (o / BSIZE_n) ≠ 0) →
  fs_ok sb m (<[inum := set_size s d]> ds).
Proof.
  intros Hok Hd Hs Hfull.
  assert (∀ i e, <[inum := set_size s d]> ds !! i = Some e → ∃ e0, ds !! i = Some e0 ∧ blk m e = blk m e0 ∧ d_addrs e = d_addrs e0) as Hl.
  { intros i e. destruct (decide (i = inum)) as [->|Hi]; [rewrite lookup_insert_eq; intros [= <-]; by exists d|].
    rewrite lookup_insert_ne by done. by exists e. }
  split.
  - apply Hok.
  - apply (fo_meta Hok).
  - apply (fo_block Hok).
  - intros i e (e0 & He & _ & ->)%Hl. by apply (fo_len Hok i).
  - intros i e q b (e0 & He & -> & _)%Hl. by apply (fo_owned Hok i).
  - intros i1 i2 e1 e2 q1 q2 b (e3 & H3 & -> & _)%Hl (e4 & H4 & -> & _)%Hl. by apply (fo_sep Hok).
  - intros i e. destruct (decide (i = inum)) as [->|Hi]; [rewrite lookup_insert_eq; by intros [= <-]|].
    rewrite lookup_insert_ne by done. apply (fo_size Hok).
  - intros i e o. destruct (decide (i = inum)) as [->|Hi]; [rewrite lookup_insert_eq; intros [= <-]; apply Hfull|].
    rewrite lookup_insert_ne by done. apply (fo_full Hok).
Qed.
