(* ===== verification/FsBmap.v ===== *)
(** * The file system: bmap

    bmap gives the block of a file at an index and attaches blocks where
    there are none.  It keeps the invariant and all contents, and what it
    logs is accounted for: the blocks of the free map once each, one block of
    data and one indirect block. *)

From S2P Require Import Prelude Params Disk Superblock Txn Fs FsBlocks FsInode.

(** ** Free blocks *)

Definition free_blocks (sb : superblock) (m : gmap Z block) : gset Z :=
  list_to_set (filter (λ g, used sb m g = false) (seqZ 0 (sb_size sb))).

Lemma elem_of_free sb m g : g ∈ free_blocks sb m ↔ 0 ≤ g < sb_size sb ∧ used sb m g = false.
Proof. unfold free_blocks. rewrite elem_of_list_to_set, list_elem_of_filter, elem_of_seqZ. intuition lia. Qed.

Lemma first_free_exists sb m : (0 < size (free_blocks sb m))%nat → ∃ f, first_free sb m f.
Proof.
  intros Hs. destruct (list_find (λ g, used sb m g = false) (seqZ 0 (sb_size sb))) as [[i f]|] eqn:E.
  - apply list_find_Some in E as (Hf & Hu & Hmin). exists f. apply lookup_seqZ in Hf as [-> Hi].
    split; [lia|]. split; [done|]. intros g Hg.
    destruct (used sb m g) eqn:Eg; [done|]. exfalso. apply (Hmin (Z.to_nat g) g); [|lia|done]. apply lookup_seqZ. lia.
  - apply list_find_None in E. destruct (size_pos_elem_of _ Hs) as [g Hg]. apply elem_of_free in Hg as [Hg Hu].
    rewrite Forall_forall in E. exfalso. apply (E g); [|done]. apply elem_of_seqZ. lia.
Qed.

Lemma free_blocks_alloc sb m m' f :
  (∀ g, 0 ≤ g < sb_size sb → used sb m' g = bool_decide (g = f) || used sb m g) → f ∈ free_blocks sb m →
  S (size (free_blocks sb m')) = size (free_blocks sb m).
Proof.
  intros Hu Hf. assert (free_blocks sb m' = free_blocks sb m ∖ {[f]}) as ->.
  { apply set_eq. intros g. rewrite elem_of_difference, !elem_of_free, elem_of_singleton. split.
    - intros [Hg E]. rewrite Hu in E by done. apply orb_false_iff in E as [E1 E2]. apply bool_decide_eq_false in E1. done.
    - intros [[Hg E] Hne]. split; [done|]. rewrite Hu, E, bool_decide_false by done. done. }
  rewrite size_difference by set_solver. rewrite size_singleton.
  assert (size (free_blocks sb m) ≠ 0%nat); [|lia]. intros E%size_empty_inv. set_solver.
Qed.

(** ** Room in the log *)

Definition map_blocks (sb : superblock) : gset Z := list_to_set ((λ g, BBLOCK g sb) <$> seqZ 0 (sb_size sb)).

Lemma elem_of_map_blocks sb g : 0 ≤ g < sb_size sb → BBLOCK g sb ∈ map_blocks sb.
Proof.
  intros Hg. unfold map_blocks. apply elem_of_list_to_set, list_elem_of_fmap. exists g. split; [done|]. apply elem_of_seqZ. lia.
Qed.

(** There is room for the whole free map and for [r] blocks more. *)
Definition slack (sb : superblock) (v : tview) (r : nat) : Prop :=
  (size (map_blocks sb ∖ t_logged v) + r ≤ t_room v)%nat.

(** What a block costs. *)
Definition cost (v : tview) (b : Z) : nat := if decide (b ∈ t_logged v) then 0 else 1.
Definition ind_cost (v : tview) (d : dinode) : nat := if decide (ind_addr d ≠ 0 ∧ ind_addr d ∈ t_logged v) then 0 else 1.

Lemma slack_le sb v r r' : (r' ≤ r)%nat → slack sb v r → slack sb v r'.
Proof. unfold slack. lia. Qed.

Lemma slack_map sb v b x r : b ∈ map_blocks sb → slack sb v r → can_log b v ∧ slack sb (update b x v) r.
Proof.
  unfold slack, can_log, update. cbn [t_logged t_room]. intros Hb Hs. destruct (decide (b ∈ t_logged v)) as [Hl|Hl].
  - split; [by left|]. by replace ({[b]} ∪ t_logged v) with (t_logged v) by set_solver.
  - assert (map_blocks sb ∖ ({[b]} ∪ t_logged v) = (map_blocks sb ∖ t_logged v) ∖ {[b]}) as -> by set_solver.
    assert (size (map_blocks sb ∖ t_logged v) ≠ 0%nat) by (intros E%size_empty_inv; set_solver).
    rewrite size_difference, size_singleton by set_solver. split; [right; lia|lia].
Qed.

Lemma slack_cost sb v b x r : slack sb v (r + cost v b) → can_log b v ∧ slack sb (update b x v) r.
Proof.
  unfold slack, can_log, update, cost. cbn [t_logged t_room]. intros Hs.
  assert (size (map_blocks sb ∖ ({[b]} ∪ t_logged v)) ≤ size (map_blocks sb ∖ t_logged v))%nat by (apply subseteq_size; set_solver).
  destruct (decide (b ∈ t_logged v)) as [Hl|Hl]; [split; [by left|lia]|split; [right; lia|lia]].
Qed.

Lemma cost_le v b : (cost v b ≤ 1)%nat.
Proof. unfold cost. destruct (decide _); lia. Qed.

Lemma slack_one sb v b x r : slack sb v (S r) → can_log b v ∧ slack sb (update b x v) r.
Proof. intros Hs. apply slack_cost. apply (slack_le sb v (S r)); [|done]. pose proof (cost_le v b). lia. Qed.

Lemma cost_more v v' b : t_logged v ⊆ t_logged v' → (cost v' b ≤ cost v b)%nat.
Proof. intros H. unfold cost. destruct (decide (b ∈ t_logged v)); [rewrite decide_True by set_solver; lia|destruct (decide _); lia]. Qed.

Lemma cost_logged v b : b ∈ t_logged v → cost v b = 0%nat.
Proof. intros. unfold cost. by rewrite decide_True. Qed.

Lemma ind_cost_eq v d : ind_addr d ≠ 0 → ind_cost v d = cost v (ind_addr d).
Proof.
  intros H. unfold ind_cost, cost. destruct (decide (ind_addr d ∈ t_logged v)); [by rewrite decide_True|].
  by rewrite decide_False by (by intros []).
Qed.

Lemma ind_cost_same v v' d d' :
  ind_addr d' = ind_addr d → t_logged v ⊆ t_logged v' → (ind_cost v' d' ≤ ind_cost v d)%nat.
Proof.
  intros E Hl. unfold ind_cost. rewrite E.
  destruct (decide (ind_addr d ≠ 0 ∧ ind_addr d ∈ t_logged v)) as [[]|]; [|destruct (decide _); lia].
  rewrite decide_True by (split; [done|set_solver]). lia.
Qed.

(** ** The block of pointers *)

Lemma ind_words_zero m : ind_words m 0 = replicate NINDIRECT_n 0.
Proof. done. Qed.

Lemma ind_words_fresh m a : a ≠ 0 → m !! a = Some (replicate BSIZE_n 0) → ind_words m a = replicate NINDIRECT_n 0.
Proof.
  intros Ha Hm. unfold ind_words. rewrite (proj2 (Z.eqb_neq a 0)) by done. rewrite Hm. vm_compute. reflexivity.
Qed.

Lemma NINDIRECT_words (x : block) k : length x = BSIZE_n → (k < NINDIRECT_n)%nat → (4 * k + 4 ≤ length x)%nat.
Proof.
  intros -> Hk. assert (BSIZE_n = 4 * NINDIRECT_n)%nat as -> by reflexivity. lia.
Qed.

Lemma ind_words_set m a x k f :
  a ≠ 0 → m !! a = Some x → length x = BSIZE_n → (k < NINDIRECT_n)%nat → 0 ≤ f < 2 ^ 32 →
  ind_words (<[a := set_word k f x]> m) a = <[k := f]> (ind_words m a).
Proof.
  intros Ha Hm Hx Hk Hf. unfold ind_words. rewrite (proj2 (Z.eqb_neq a 0)) by done. rewrite lookup_insert_eq, Hm. cbn [from_option id].
  pose proof (NINDIRECT_words x k Hx Hk) as Hw. apply list_eq. intros j. destruct (decide (j < NINDIRECT_n)%nat) as [Hj|Hj].
  - rewrite list_lookup_fmap, lookup_seq_lt by done. cbn [fmap option_fmap option_map]. destruct (decide (j = k)) as [->|Hne].
    + rewrite list_lookup_insert_eq by (by rewrite length_fmap, length_seq). rewrite Nat.add_0_l, word_at_set_word_eq by done.
      by rewrite u32_small.
    + rewrite list_lookup_insert_ne by done. rewrite list_lookup_fmap, lookup_seq_lt by done.
      cbn [fmap option_fmap option_map]. rewrite Nat.add_0_l. by rewrite word_at_set_word_ne by done.
  - rewrite !lookup_ge_None_2; [done|..]; rewrite ?length_insert, length_fmap, length_seq; lia.
Qed.

(** ** What balloc gives *)

(** The blocks after [f] is taken. *)
Definition alloc_map (sb : superblock) (f : Z) (m : gmap Z block) : gmap Z block :=
  <[f := replicate BSIZE_n 0]> (<[BBLOCK f sb := mark (bit_index f) (default [] (m !! BBLOCK f sb))]> m).

Section alloc_map.
Context (sb : superblock) (m : gmap Z block) (ds : gmap Z dinode) (f : Z).
Context (Hok : fs_ok sb m ds) (Hf : data_block sb f).

Lemma fresh_range : 0 ≤ f < sb_size sb.
Proof. pose proof (data_block_pos _ _ _ (fo_map Hok) Hf). destruct Hf. lia. Qed.

Lemma alloc_map_frame b : data_start sb ≤ b → b ≠ f → alloc_map sb f m !! b = m !! b.
Proof.
  intros Hb Hne. unfold alloc_map. rewrite lookup_insert_ne by done.
  pose proof (data_not_bitmap sb m b f (fo_map Hok) Hb fresh_range). by rewrite lookup_insert_ne.
Qed.

Lemma alloc_map_new : alloc_map sb f m !! f = Some (replicate BSIZE_n 0).
Proof. unfold alloc_map. by rewrite lookup_insert_eq. Qed.

Lemma alloc_map_block b : data_block sb b → ∃ x, alloc_map sb f m !! b = Some x ∧ length x = BSIZE_n.
Proof.
  intros Hb. destruct (decide (b = f)) as [->|Hne].
  - rewrite alloc_map_new. eexists. split; [done|]. apply length_replicate.
  - rewrite alloc_map_frame by (done || apply Hb). by apply (fo_block Hok).
Qed.

Lemma alloc_map_map : map_ok sb (alloc_map sb f m).
Proof.
  destruct (fo_map Hok) as [H1 H2 H3]. split; [done|done|]. intros b Hb. unfold alloc_map.
  rewrite lookup_insert_ne by (by apply (data_not_bitmap sb m); [apply Hok|apply Hf|]).
  destruct (decide (BBLOCK b sb = BBLOCK f sb)) as [->|Hne]; [|by rewrite lookup_insert_ne; [apply H3|]].
  rewrite lookup_insert_eq. destruct (H3 f fresh_range) as (x & -> & Hx). eexists. split; [done|].
  unfold mark. by rewrite length_insert.
Qed.

Lemma alloc_map_used g : 0 ≤ g < sb_size sb → used sb (alloc_map sb f m) g = bool_decide (g = f) || used sb m g.
Proof.
  intros Hg. apply (alloc_view_used sb f (TView m ∅ ∅ ∅ 0 ∅) g (fo_map Hok) fresh_range Hg).
  by apply (data_not_bitmap sb m); [apply Hok|apply Hf|].
Qed.
End alloc_map.

(** ** The three ways to attach a block *)

Lemma blk_S m d bn : blk m d !! S bn = addrs_of m d !! bn.
Proof. done. Qed.
Lemma blk_insert_S m d bn f : <[S bn := f]> (blk m d) = ind_addr d :: <[bn := f]> (addrs_of m d).
Proof. done. Qed.
Lemma blk_insert_0 m d f : <[0%nat := f]> (blk m d) = f :: addrs_of m d.
Proof. done. Qed.

Section attach.
Context (sb : superblock) (m : gmap Z block) (ds : gmap Z dinode) (inum : Z) (d : dinode) (f : Z).
Context (Hok : fs_ok sb m ds) (Hd : ds !! inum = Some d) (Hf : data_block sb f) (Hu : used sb m f = false).

Lemma owned_not_fresh p b : blk m d !! p = Some b → b ≠ f.
Proof.
  intros Hb ->. pose proof (data_block_pos _ _ _ (fo_map Hok) Hf).
  destruct (fo_owned Hok inum d p f Hd Hb ltac:(lia)) as [_ H']. congruence.
Qed.

Lemma ind_words_alloc : ind_words (alloc_map sb f m) (ind_addr d) = ind_words m (ind_addr d).
Proof.
  unfold ind_words. destruct (Z.eqb_spec (ind_addr d) 0) as [|Hne]; [done|].
  destruct (fo_owned Hok inum d 0 _ Hd (blk_ind m d) Hne) as [[Hs _] _].
  by rewrite (alloc_map_frame sb m ds f Hok Hf) by (done || by apply (owned_not_fresh 0)).
Qed.

(** A common part. *)
Lemma grown_intro m' d' p :
  blk m d !! p = Some 0 → blk m' d' = <[p := f]> (blk m d) → length (d_addrs d') = length (d_addrs d) → d_size d' = d_size d →
  (∀ b, (b = ind_addr d → b = 0) → data_start sb ≤ b → m' !! b = alloc_map sb f m !! b) →
  (∀ b, data_block sb b → ∃ x, m' !! b = Some x ∧ length x = BSIZE_n) →
  (∀ b, b < data_start sb → m' !! b = alloc_map sb f m !! b) →
  grown sb m m' d d' p f.
Proof.
  intros H1 H2 H3 H4 H5 H6 H7.
  assert (∀ g, 0 ≤ g < sb_size sb → m' !! BBLOCK g sb = alloc_map sb f m !! BBLOCK g sb) as Hbm.
  { intros g Hg. apply H7. by apply (bitmap_place sb m g (fo_map Hok)). }
  split; [done|done|done|done|done| |done| | |].
  - intros b Hb Hne Hi. rewrite H5 by done. by apply (alloc_map_frame sb m ds f Hok Hf).
  - destruct (alloc_map_map sb m ds f Hok Hf) as [A1 A2 A3]. split; [done|done|]. intros b Hb. rewrite Hbm by done. by apply A3.
  - intros g Hg. rewrite <- (alloc_map_used sb m ds f Hok Hf g Hg). unfold used. by rewrite Hbm.
  - intros b Hb Hn. rewrite H7 by done. unfold alloc_map.
    pose proof (fresh_range sb m ds f Hok Hf) as Hfr. pose proof (proj1 Hf) as Hfs.
    rewrite lookup_insert_ne by lia. rewrite lookup_insert_ne; [done|]. by apply not_eq_sym, Hn.
Qed.

Lemma grown_direct bn :
  (bn < NDIRECT_n)%nat → d_addrs d !! bn = Some 0 → grown sb m (alloc_map sb f m) d (set_addr bn f d) (S bn) f.
Proof.
  intros Hbn H0. pose proof (fo_len Hok inum d Hd) as Hlen.
  assert (ind_addr (set_addr bn f d) = ind_addr d) as Ei.
  { unfold ind_addr. cbn [set_addr d_addrs]. by rewrite list_lookup_insert_ne by lia. }
  apply grown_intro; try done.
  - rewrite blk_S. unfold addrs_of. rewrite lookup_app_l by (rewrite length_take; lia). by rewrite lookup_take_lt.
  - rewrite blk_insert_S. unfold blk. rewrite Ei. f_equal. unfold addrs_of. rewrite Ei, ind_words_alloc. cbn [set_addr d_addrs].
    rewrite take_insert_lt by done. by rewrite insert_app_l by (rewrite length_take; lia).
  - cbn [set_addr d_addrs]. by rewrite length_insert.
  - apply (alloc_map_block sb m ds f Hok Hf).
Qed.

Lemma grown_ind : ind_addr d = 0 → grown sb m (alloc_map sb f m) d (set_addr NDIRECT_n f d) 0 f.
Proof.
  intros H0. pose proof (fo_len Hok inum d Hd) as Hlen. pose proof (data_block_pos _ _ _ (fo_map Hok) Hf) as Hpos.
  assert (ind_addr (set_addr NDIRECT_n f d) = f) as Ei.
  { unfold ind_addr. cbn [set_addr d_addrs]. by rewrite list_lookup_insert_eq by lia. }
  apply grown_intro; try done.
  - by rewrite blk_ind, H0.
  - rewrite blk_insert_0. unfold blk. rewrite Ei. f_equal. unfold addrs_of. rewrite Ei, H0, ind_words_zero.
    rewrite (ind_words_fresh _ f) by (lia || apply alloc_map_new). cbn [set_addr d_addrs]. by rewrite take_insert_ge.
  - cbn [set_addr d_addrs]. by rewrite length_insert.
  - apply (alloc_map_block sb m ds f Hok Hf).
Qed.

Lemma grown_indirect k x :
  (k < NINDIRECT_n)%nat → ind_addr d ≠ 0 → m !! ind_addr d = Some x → word_at x k = 0 →
  grown sb m (<[ind_addr d := set_word k f x]> (alloc_map sb f m)) d d (S (NDIRECT_n + k)) f.
Proof.
  intros Hk Hi Hx Hw. pose proof (fo_len Hok inum d Hd) as Hlen.
  destruct (fo_owned Hok inum d 0 _ Hd (blk_ind m d) Hi) as [Hib _].
  assert (length x = BSIZE_n) as Hxl by (destruct (fo_block Hok _ Hib) as (x' & ? & ?); congruence).
  assert (alloc_map sb f m !! ind_addr d = Some x) as Hx'.
  { rewrite (alloc_map_frame sb m ds f Hok Hf); [done|apply Hib|by apply (owned_not_fresh 0)]. }
  assert (length (take NDIRECT_n (d_addrs d)) = NDIRECT_n) as Ht by (rewrite length_take; lia).
  pose proof (fresh_range sb m ds f Hok Hf) as Hfr. destruct (fo_map Hok) as [Hs _ _].
  apply grown_intro; try done.
  - rewrite blk_S. unfold addrs_of. rewrite lookup_app_r by lia. rewrite Ht, Nat.add_comm, Nat.add_sub.
    unfold ind_words. rewrite (proj2 (Z.eqb_neq _ 0)) by done. rewrite list_lookup_fmap, lookup_seq_lt, Hx by done.
    cbn [fmap option_fmap option_map from_option id]. by rewrite Nat.add_0_l, Hw.
  - rewrite blk_insert_S. unfold blk. f_equal. unfold addrs_of. rewrite ind_words_set by (done || lia).
    rewrite ind_words_alloc. rewrite insert_app_r_alt by lia. do 2 f_equal. lia.
  - intros b Hb Hs'. rewrite lookup_insert_ne; [done|]. intros E. apply Hi. rewrite E. by apply Hb.
  - intros b Hb. destruct (decide (b = ind_addr d)) as [->|Hne].
    + rewrite lookup_insert_eq. eexists. split; [done|]. rewrite length_set_word; [done|by apply NINDIRECT_words].
    + rewrite lookup_insert_ne by done. by apply (alloc_map_block sb m ds f Hok Hf).
  - intros b Hb. rewrite lookup_insert_ne; [done|]. destruct Hib. lia.
Qed.
End attach.

(** ** The code *)

(** The same inode but for its block addresses. *)
Definition same_meta (d d' : dinode) : Prop :=
  d_type d' = d_type d ∧ d_major d' = d_major d ∧ d_minor d' = d_minor d ∧ d_nlink d' = d_nlink d ∧ d_size d' = d_size d.

Lemma alter_insert_some {A} (g : A → A) (l : list A) (i : nat) x : l !! i = Some x → alter g i l = <[i := g x]> l.
Proof.
  intros H. apply list_eq. intros j. destruct (decide (i = j)) as [<-|Hne].
  - rewrite list_lookup_alter_eq, H, list_lookup_insert_eq by (by eapply lookup_lt_Some). done.
  - by rewrite list_lookup_alter_ne, list_lookup_insert_ne.
Qed.

Lemma addr_direct m d bn :
  length (d_addrs d) = Datatypes.S NDIRECT_n → (bn < NDIRECT_n)%nat → d_addrs d !! bn = Some (addr_of m d bn).
Proof.
  intros Hl Hb. destruct (lookup_lt_is_Some_2 (d_addrs d) bn ltac:(lia)) as [a Ha]. rewrite Ha. f_equal.
  unfold addr_of, addrs_of. rewrite lookup_app_l by (rewrite length_take; lia). by rewrite lookup_take_lt, Ha.
Qed.

Lemma addr_ind d : length (d_addrs d) = Datatypes.S NDIRECT_n → d_addrs d !! NDIRECT_n = Some (ind_addr d).
Proof. intros Hl. unfold ind_addr. destruct (lookup_lt_is_Some_2 (d_addrs d) NDIRECT_n ltac:(lia)) as [a Ha]. by rewrite Ha. Qed.

Lemma addr_indirect m d k :
  length (d_addrs d) = Datatypes.S NDIRECT_n → (k < NINDIRECT_n)%nat →
  addr_of m d (NDIRECT_n + k) = if decide (ind_addr d = 0) then 0 else word_at (default [] (m !! ind_addr d)) k.
Proof.
  intros Hl Hk. unfold addr_of, addrs_of. assert (length (take NDIRECT_n (d_addrs d)) = NDIRECT_n) as Ht by (rewrite length_take; lia).
  rewrite lookup_app_r by lia. rewrite Ht, Nat.add_comm, Nat.add_sub. unfold ind_words.
  destruct (decide (ind_addr d = 0)) as [->|Hne].
  - change (0 =? 0) with true. cbv iota. by rewrite lookup_replicate_2.
  - rewrite (proj2 (Z.eqb_neq _ 0)) by done. rewrite list_lookup_fmap, lookup_seq_lt by done. done.
Qed.

Section code.
Context {S : Type} `{!Txn S}.
Implicit Types (sb : superblock) (ic : list inode) (t : S) (v : tview).

Lemma ino_step {A} (k : inode → M (fstate S) A) ip i sb ic t :
  ic !! ip = Some i → (x ← ino ip; k x) (FState sb ic t) = k i (FState sb ic t).
Proof. intros H. unfold mbind, M_bind, ino. cbn [f_icache]. by rewrite H. Qed.

Lemma upd_disk_step {A} (g : dinode → dinode) (k : M (fstate S) A) ip i sb ic t :
  ic !! ip = Some i →
  (upd_disk ip g;; k) (FState sb ic t) = k (FState sb (<[ip := set_disk (g (i_d i)) i]> ic) t).
Proof.
  intros H. unfold mbind, M_bind, upd_disk, upd_ino. cbn [f_sb f_icache f_tx]. do 2 f_equal.
  by apply (alter_insert_some (λ i, set_disk (g (i_d i)) i)).
Qed.

Lemma addr_at_step {A} (k : Z → M (fstate S) A) ip i n a sb ic t :
  ic !! ip = Some i → d_addrs (i_d i) !! n = Some a → (x ← addr_at ip n; k x) (FState sb ic t) = k a (FState sb ic t).
Proof. intros H Ha. unfold addr_at. rewrite bind_assoc, (ino_step _ ip i) by done. by rewrite (ofopt_step _ a). Qed.

(** What the transaction must allow a caller of balloc. *)
Record calm sb v : Prop := Calm {
  ca_pending : t_pending v = ∅;
  ca_held : (size (t_held v) ≤ MAXHELD)%nat;
  ca_used b : b ∈ (map_img (t_held v) : gset Z) → data_block sb b ∧ used sb (t_blocks v) b = true;
}.

Lemma calm_empty sb v : t_held v = ∅ → t_pending v = ∅ → calm sb v.
Proof.
  intros Hh Hp. split; [done|rewrite Hh, map_size_empty; lia|]. intros b. rewrite Hh, map_img_empty. set_solver.
Qed.

Lemma calm_map_free sb v ds : fs_ok sb (t_blocks v) ds → calm sb v → map_free sb v.
Proof.
  intros Hok [Hp Hh Hu]. split; [apply Hok|done| |done]. intros b Hb Hin. destruct (Hu _ Hin) as [[Hs _] _].
  pose proof (bitmap_place sb _ b (fo_map Hok) Hb). lia.
Qed.

Lemma balloc_step {A} (k : Z → M (fstate S) A) sb ic t v ds r :
  trep t v → fs_ok sb (t_blocks v) ds → calm sb v → slack sb v (Datatypes.S r) →
  (0 < size (free_blocks sb (t_blocks v)))%nat →
  ∃ f t', (x ← balloc ROOTDEV; k x) (FState sb ic t) = k f (FState sb ic t') ∧ trep t' (alloc_view sb f v) ∧
    data_block sb f ∧ used sb (t_blocks v) f = false ∧ slack sb (alloc_view sb f v) r.
Proof.
  intros Ht Hok Hc Hs Hfree. destruct (first_free_exists _ _ Hfree) as [f Hff]. pose proof Hff as (Hfr & Hu & _).
  assert (data_block sb f) as Hdb.
  { split; [|lia]. destruct (Z_lt_le_dec f (data_start sb)); [|done]. by rewrite (fo_meta Hok) in Hu by lia. }
  pose proof (data_not_bitmap sb _ f f (fo_map Hok) ltac:(apply Hdb) Hfr) as Hne.
  destruct (slack_map sb v (BBLOCK f sb) (mark (bit_index f) (default [] (t_blocks v !! BBLOCK f sb))) (Datatypes.S r)
    (elem_of_map_blocks sb f Hfr) Hs) as [Hl1 Hs1].
  destruct (slack_one sb _ f (replicate BSIZE_n 0) r Hs1) as [Hl2 Hs2].
  destruct (balloc_ok f sb ic t v Ht (calm_map_free _ _ _ Hok Hc) Hff) as (t' & E & Ht'); [|done|done|done|].
  { destruct (fo_block Hok f Hdb) as (x & Hx & _). split; [by eexists| |apply Hc]. intros [_ Hin]%(ca_used _ _ Hc). congruence. }
  exists f, t'. mstep E. done.
Qed.

(** bmap where there is a block. *)
Lemma bmap_read ip i bn sb ic t v ds :
  trep t v → t_held v = ∅ → t_pending v = ∅ → fs_ok sb (t_blocks v) ds → ds !! i_inum i = Some (i_d i) →
  ic !! ip = Some i → i_dev i = ROOTDEV → 0 ≤ bn < MAXFILE → addr_of (t_blocks v) (i_d i) (Z.to_nat bn) ≠ 0 →
  ∃ t', bmap ip bn (FState sb ic t) = Ok (addr_of (t_blocks v) (i_d i) (Z.to_nat bn)) (FState sb ic t') ∧ trep t' v.
Proof.
  intros Ht Hh Hp Hok Hd Hi Hdev Hbn Ha. pose proof (fo_len Hok _ _ Hd) as Hlen. unfold bmap.
  destruct (Z.ltb_spec bn NDIRECT) as [Hlt|Hge].
  - exists t. split; [|done]. unfold addr_or_alloc.
    rewrite (addr_at_step _ ip i _ _ sb ic t Hi (addr_direct (t_blocks v) _ (Z.to_nat bn) Hlen ltac:(unfold NDIRECT_n; lia))).
    by rewrite (proj2 (Z.eqb_neq _ 0)).
  - cbv zeta. unfold MAXFILE in Hbn. rewrite (proj2 (Z.ltb_lt (bn - NDIRECT) NINDIRECT)) by lia.
    assert (Z.to_nat bn = NDIRECT_n + Z.to_nat (bn - NDIRECT))%nat as Ebn by (unfold NDIRECT_n, NDIRECT in *; lia).
    rewrite Ebn, addr_indirect in * by (done || unfold NINDIRECT_n; lia).
    destruct (decide (ind_addr (i_d i) = 0)) as [|Hne]; [done|].
    destruct (fo_owned Hok _ _ 0 _ Hd (blk_ind _ _) Hne) as [Hdb _]. destruct (fo_block Hok _ Hdb) as (x & Hx & _).
    rewrite Hx in *. cbn [from_option id] in *. unfold addr_or_alloc.
    rewrite bind_assoc. change (Z.to_nat NDIRECT) with NDIRECT_n.
    rewrite (addr_at_step _ ip i _ _ sb ic t Hi (addr_ind _ Hlen)). rewrite (proj2 (Z.eqb_neq (ind_addr (i_d i)) 0)) by done.
    rewrite (bind_ok (mret (ind_addr (i_d i))) _ _ _ (FState sb ic t) eq_refl), (ino_step _ ip i sb ic t Hi), Hdev.
    destruct (tx_bread_ok sb ic t v (ind_addr (i_d i)) Ht) as (bp & t1 & E1 & Ht1 & Hbp & Hbp1).
    { split; [by eexists|rewrite Hh, map_img_empty; set_solver|rewrite Hh, map_size_empty; lia]. }
    mstep E1. rewrite (data_step _ sb ic t1 _ bp _ x Ht1 Hbp1 Hx).
    cbv zeta. rewrite (proj2 (Z.eqb_neq (word_at x _) 0)) by done.
    rewrite (bind_ok (mret (word_at x (Z.to_nat (bn - NDIRECT)))) _ _ _ (FState sb ic t1) eq_refl).
    destruct (brelse_step (mret (word_at x (Z.to_nat (bn - NDIRECT)))) sb ic t1 v bp _ Ht1 Hbp) as (t2 & E2 & Ht2); [rewrite Hp; set_solver|].
    exists t2. by rewrite E2.
Qed.
End code.

(** ** One call of bmap *)

(** The view has changed from [v] to [v'] by attaching blocks to inode
    [inum], which has become [d']. *)
Record attached (sb : superblock) (v v' : tview) (ds : gmap Z dinode) (inum : Z) (d d' : dinode) : Prop := Attached {
  at_held : t_held v' = t_held v;
  at_pending : t_pending v' = t_pending v;
  at_durable : t_durable v' = t_durable v;
  at_logged : t_logged v ⊆ t_logged v';
  at_ok : fs_ok sb (t_blocks v') (<[inum := d']> ds);
  at_meta : same_meta d d';
  at_keeps : keeps ds inum d' (t_blocks v) (t_blocks v');
  at_low b : b < data_start sb → (∀ g, 0 ≤ g < sb_size sb → b ≠ BBLOCK g sb) → t_blocks v' !! b = t_blocks v !! b;
  at_log b : b ∈ t_logged v' → b ∈ t_logged v ∨ b ∈ map_blocks sb ∨ data_start sb ≤ b;
}.

Lemma attached_refl sb v ds inum d : fs_ok sb (t_blocks v) ds → ds !! inum = Some d → attached sb v v ds inum d d.
Proof. intros Hok Hd. split; try done; [by rewrite insert_id|by apply fkeeps_refl|by left]. Qed.

Lemma attached_trans sb v v1 v2 ds inum d d1 d2 :
  attached sb v v1 ds inum d d1 → attached sb v1 v2 (<[inum := d1]> ds) inum d1 d2 → attached sb v v2 ds inum d d2.
Proof.
  intros [H1 H2 H3 H4 H5 (M1 & M2 & M3 & M4 & M5) H7 H8 H9] [K1 K2 K3 K4 K5 (N1 & N2 & N3 & N4 & N5) K7 K8 K9].
  split; [congruence|congruence|congruence|set_solver|by rewrite insert_insert_eq in K5|repeat split; congruence|by eapply fkeeps_trans| |].
  - intros b Hb Hn. rewrite K8, H8 by done. done.
  - intros b [Hb|Hb]%K9; [by apply H9|by right].
Qed.

Lemma attached_grown sb v v' ds inum d d' p f :
  fs_ok sb (t_blocks v) ds → ds !! inum = Some d → grown sb (t_blocks v) (t_blocks v') d d' p f → same_meta d d' →
  t_held v' = t_held v → t_pending v' = t_pending v → t_durable v' = t_durable v → t_logged v ⊆ t_logged v' →
  (∀ b, b ∈ t_logged v' → b ∈ t_logged v ∨ b ∈ map_blocks sb ∨ data_start sb ≤ b) →
  attached sb v v' ds inum d d'.
Proof.
  intros Hok Hd Hg Hm H1 H2 H3 H4 H5.
  split; [done..|by eapply grown_ok|done|by eapply grown_keeps| |done]. intros b. apply (g_low Hg).
Qed.

(** What balloc logs. *)
Lemma alloc_logged sb v f b :
  0 ≤ f < sb_size sb → data_start sb ≤ f → b ∈ t_logged (alloc_view sb f v) → b ∈ t_logged v ∨ b ∈ map_blocks sb ∨ data_start sb ≤ b.
Proof.
  intros Hf Hd. unfold alloc_view, update. cbn [t_logged]. rewrite !elem_of_union, !elem_of_singleton.
  intros [->|[->|Hb]]; [by right; right|right; left; by apply elem_of_map_blocks|by left].
Qed.

(** The free blocks that an inode may need for its block of pointers. *)
Definition ind_need (d : dinode) : nat := if decide (ind_addr d = 0) then 1 else 0.

Lemma grown_free sb m m' d d' p f :
  map_ok sb m → grown sb m m' d d' p f → S (size (free_blocks sb m')) = size (free_blocks sb m).
Proof.
  intros Hm Hg. apply (free_blocks_alloc sb m m' f (g_used Hg)). destruct (g_fresh Hg) as [Hf Hu].
  apply elem_of_free. split; [|done]. pose proof (data_block_pos sb m f Hm Hf). destruct Hf. lia.
Qed.

Lemma same_meta_addr n a d : same_meta d (set_addr n a d).
Proof. done. Qed.

Section bmap.
Context {S : Type} `{!Txn S}.
Implicit Types (sb : superblock) (ic : list inode) (t : S) (v : tview).

(** A cached inode [ip] of the file system with the contents [i], and no
    buffer in use. *)
Record at_inode sb ic t v (ds : gmap Z dinode) ip i : Prop := AtInode {
  ai_rep : trep t v;
  ai_held : t_held v = ∅;
  ai_pending : t_pending v = ∅;
  ai_ok : fs_ok sb (t_blocks v) ds;
  ai_inode : ds !! i_inum i = Some (i_d i);
  ai_cached : ic !! ip = Some i;
  ai_dev : i_dev i = ROOTDEV;
}.

Lemma at_inode_len sb ic t v ds ip i : at_inode sb ic t v ds ip i → length (d_addrs (i_d i)) = Datatypes.S NDIRECT_n.
Proof. intros H. apply (fo_len (ai_ok _ _ _ _ _ _ _ H) _ _ (ai_inode _ _ _ _ _ _ _ H)). Qed.

Lemma at_inode_next sb ic t v ds ip i t' v' d' :
  at_inode sb ic t v ds ip i → trep t' v' → attached sb v v' ds (i_inum i) (i_d i) d' →
  at_inode sb (<[ip := set_disk d' i]> ic) t' v' (<[i_inum i := d']> ds) ip (set_disk d' i).
Proof.
  intros [H1 H2 H3 H4 H5 H6 H7] Ht' Hat.
  split; [done|rewrite (at_held _ _ _ _ _ _ _ Hat); done|rewrite (at_pending _ _ _ _ _ _ _ Hat); done|apply Hat| |
    apply list_lookup_insert_eq; by eapply lookup_lt_Some|done].
  cbn. apply lookup_insert_eq.
Qed.

(** The position of ip->addrs[n]. *)
Definition addr_pos (n : nat) : nat := if decide (n = NDIRECT_n) then 0 else Datatypes.S n.

Lemma grown_addr_pos sb m ds inum d f n :
  fs_ok sb m ds → ds !! inum = Some d → data_block sb f → used sb m f = false → (n ≤ NDIRECT_n)%nat → d_addrs d !! n = Some 0 →
  grown sb m (alloc_map sb f m) d (set_addr n f d) (addr_pos n) f.
Proof.
  intros Hok Hd Hf Hu Hn H0. unfold addr_pos. destruct (decide (n = NDIRECT_n)) as [->|Hne].
  - apply (grown_ind sb m ds inum); [done..|]. unfold ind_addr. by rewrite H0.
  - apply (grown_direct sb m ds inum); [done..|lia|done].
Qed.

Lemma addr_or_alloc_ok ip i n sb ic t v ds r q :
  at_inode sb ic t v ds ip i → (n ≤ NDIRECT_n)%nat → slack sb v (Datatypes.S r) →
  (Datatypes.S q ≤ size (free_blocks sb (t_blocks v)))%nat →
  ∃ a d' t' v', addr_or_alloc ip n (FState sb ic t) = Ok a (FState sb (<[ip := set_disk d' i]> ic) t') ∧
    trep t' v' ∧ attached sb v v' ds (i_inum i) (i_d i) d' ∧ d' = set_addr n a (i_d i) ∧ a ≠ 0 ∧
    (v' = v ∧ d' = i_d i ∨
     d_addrs (i_d i) !! n = Some 0 ∧ a ∈ t_logged v' ∧ slack sb v' r ∧ (q ≤ size (free_blocks sb (t_blocks v')))%nat).
Proof.
  intros Hat Hn Hs Hq. pose proof (at_inode_len _ _ _ _ _ _ _ Hat) as Hlen. destruct Hat as [Ht Hh Hp Hok Hd Hi Hdev].
  destruct (lookup_lt_is_Some_2 (d_addrs (i_d i)) n ltac:(lia)) as [a0 Ha0]. unfold addr_or_alloc.
  rewrite (addr_at_step _ ip i n a0 sb ic t Hi Ha0). destruct (Z.eqb_spec a0 0) as [->|Hne].
  - rewrite (ino_step _ ip i sb ic t Hi), Hdev.
    destruct (balloc_step (λ addr, upd_disk ip (set_addr n addr);; mret addr) sb ic t v ds r Ht Hok (calm_empty _ _ Hh Hp) Hs ltac:(lia))
      as (f & t' & E & Ht' & Hf & Hu & Hs'). rewrite E, (upd_disk_step _ _ ip i) by done. clear E.
    pose proof (grown_addr_pos _ _ _ _ _ _ _ Hok Hd Hf Hu Hn Ha0) as Hg.
    exists f, (set_addr n f (i_d i)), t', (alloc_view sb f v). split; [done|]. split; [done|].
    split; [by apply (attached_grown sb v (alloc_view sb f v) ds (i_inum i) (i_d i) _ _ f Hok Hd Hg); [..|cbn; set_solver|intros b; apply alloc_logged; [by eapply fresh_range|apply Hf]]|]. split; [done|].
    split; [pose proof (data_block_pos _ _ _ (fo_map Hok) Hf); lia|]. right. split; [done|]. split; [cbn; set_solver|]. split; [done|].
    pose proof (grown_free _ _ _ _ _ _ _ (fo_map Hok) Hg). change (t_blocks (alloc_view sb f v)) with (alloc_map sb f (t_blocks v)). lia.
  - assert (set_disk (i_d i) i = i) as Ei by (by destruct i).
    assert (set_addr n a0 (i_d i) = i_d i) as Ed.
    { destruct (i_d i) as [ty mj mn nl sz ad]. unfold set_addr. cbn in *. f_equal. by apply list_insert_id. }
    exists a0, (i_d i), t, v. rewrite Ei, list_insert_id by done. split; [done|]. split; [done|].
    split; [by apply attached_refl|]. split; [done|]. split; [done|]. by left.
Qed.

(** The part of bmap behind the block of pointers: entry [k] of it. *)
Definition bmap_entry (ip k : nat) (addr : Z) : M (fstate S) Z :=
  i ← ino ip;
  bp ← tx (t_bread (i_dev i) addr);
  a ← tx (t_data bp);
  let addr := word_at a k in
  addr ← (if addr =? 0 then
            addr ← balloc (i_dev i);
            a ← tx (t_data bp);
            tx (t_set bp (set_word k addr a));;
            tx (t_log_write bp);;
            mret addr
          else mret addr);
  tx (t_brelse bp);;
  mret addr.

Lemma bmap_eq ip bn (s : fstate S) :
  0 ≤ bn < MAXFILE →
  bmap ip bn s =
    if decide (bn < NDIRECT) then addr_or_alloc ip (Z.to_nat bn) s
    else (addr ← addr_or_alloc ip NDIRECT_n; bmap_entry ip (Z.to_nat (bn - NDIRECT)) addr) s.
Proof.
  intros Hbn. unfold bmap. destruct (Z.ltb_spec bn NDIRECT).
  - by rewrite decide_True.
  - rewrite decide_False by lia. cbv zeta. unfold MAXFILE in Hbn. by rewrite (proj2 (Z.ltb_lt (bn - NDIRECT) NINDIRECT)) by lia.
Qed.

Lemma can_read_empty b v x : t_held v = ∅ → t_blocks v !! b = Some x → can_read b v.
Proof. intros Hh Hx. split; [by eexists|rewrite Hh, map_img_empty; set_solver|rewrite Hh, map_size_empty; lia]. Qed.

Lemma calm_hold sb v bp b x ds inum d :
  t_held v = ∅ → t_pending v = ∅ → fs_ok sb (t_blocks v) ds → ds !! inum = Some d → b = ind_addr d → b ≠ 0 →
  t_blocks v !! b = Some x → calm sb (hold bp b v).
Proof.
  intros Hh Hp Hok Hd -> Hne Hx. split; [done| |].
  - cbn [hold t_held]. rewrite Hh, map_size_insert_None, map_size_empty by done. unfold MAXHELD. lia.
  - cbn [hold t_held t_blocks]. rewrite Hh. intros b (j & [[_ <-]|[_ Hj]]%lookup_insert_Some)%elem_of_map_img; [|by rewrite lookup_empty in Hj].
    by apply (fo_owned Hok inum d 0).
Qed.

(** A new entry in the block of pointers, whose buffer is [bp]. *)
Lemma new_entry_ok bp ind k sb ic t v ds inum d r x :
  trep t (hold bp ind v) → t_held v = ∅ → t_pending v = ∅ → fs_ok sb (t_blocks v) ds → ds !! inum = Some d →
  ind = ind_addr d → ind ≠ 0 → t_blocks v !! ind = Some x → (k < NINDIRECT_n)%nat → word_at x k = 0 →
  slack sb v (Datatypes.S (r + cost v ind)) → (0 < size (free_blocks sb (t_blocks v)))%nat →
  ∃ f t', (addr ← balloc ROOTDEV; a ← tx (t_data bp); tx (t_set bp (set_word k addr a));; tx (t_log_write bp);; mret addr)
      (FState sb ic t) = Ok f (FState sb ic t') ∧
    let v' := update ind (set_word k f x) (alloc_view sb f v) in
    trep t' (hold bp ind v') ∧ grown sb (t_blocks v) (t_blocks v') d d (Datatypes.S (NDIRECT_n + k)) f ∧ slack sb v' r.
Proof.
  intros Ht Hh Hp Hok Hd Ei Hne Hx Hk H0 Hs Hq.
  destruct (balloc_step (λ addr, a ← tx (t_data bp); tx (t_set bp (set_word k addr a));; tx (t_log_write bp);; mret addr)
    sb ic t (hold bp ind v) ds (r + cost v ind) Ht Hok (calm_hold _ _ _ _ _ _ _ _ Hh Hp Hok Hd Ei Hne Hx) Hs Hq)
    as (f & t2 & E2 & Ht2 & Hf & Hu & Hs2). rewrite E2. clear E2.
  change (alloc_view sb f (hold bp ind v)) with (hold bp ind (alloc_view sb f v)) in Ht2, Hs2.
  assert (t_blocks (alloc_view sb f v) !! ind = Some x) as Hx2.
  { rewrite Ei in *. change (alloc_map sb f (t_blocks v) !! ind_addr d = Some x). rewrite (alloc_map_frame sb _ ds f Hok Hf);
      [done|by apply (fo_owned Hok _ _ 0 _ Hd)|by apply (owned_not_fresh sb (t_blocks v) ds inum d f Hok Hd Hf Hu 0)]. }
  assert (cost (alloc_view sb f v) ind ≤ cost v ind)%nat as Hc.
  { unfold cost. destruct (decide (ind ∈ t_logged v)); [rewrite decide_True by (cbn; set_solver); lia|destruct (decide _); lia]. }
  destruct (slack_cost sb (alloc_view sb f v) ind (set_word k f x) r) as [Hl Hs3].
  { apply (slack_le _ _ (r + cost v ind)); [lia|done]. }
  assert (t_held (hold bp ind (alloc_view sb f v)) !! bp = Some ind) as Hbp by (cbn; apply lookup_insert_eq).
  rewrite (data_step _ sb ic t2 _ bp ind x Ht2 Hbp Hx2).
  destruct (log_step (mret f) sb ic t2 _ bp ind (set_word k f x) Ht2 Hbp) as (t3 & E3 & Ht3); [cbn; rewrite Hp; set_solver|done|].
  rewrite E3. exists f, t3. split; [done|]. split; [done|]. split; [|done].
  rewrite Ei in *. by apply (grown_indirect sb (t_blocks v) ds inum d f Hok Hd Hf Hu k x).
Qed.

Lemma bmap_entry_ok ip i k sb ic t v ds r q x :
  at_inode sb ic t v ds ip i → (k < NINDIRECT_n)%nat → ind_addr (i_d i) ≠ 0 → t_blocks v !! ind_addr (i_d i) = Some x →
  slack sb v (Datatypes.S (r + cost v (ind_addr (i_d i)))) → (Datatypes.S q ≤ size (free_blocks sb (t_blocks v)))%nat →
  ∃ a t' v', bmap_entry ip k (ind_addr (i_d i)) (FState sb ic t) = Ok a (FState sb ic t') ∧
    trep t' v' ∧ attached sb v v' ds (i_inum i) (i_d i) (i_d i) ∧ a ≠ 0 ∧
    addr_of (t_blocks v') (i_d i) (NDIRECT_n + k) = a ∧
    (v' = v ∨ a ∈ t_logged v' ∧ ind_addr (i_d i) ∈ t_logged v' ∧ slack sb v' r ∧
      (q ≤ size (free_blocks sb (t_blocks v')))%nat).
Proof.
  intros Hat Hk Hne Hx Hs Hq. pose proof (at_inode_len _ _ _ _ _ _ _ Hat) as Hlen. destruct Hat as [Ht Hh Hp Hok Hd Hi Hdev].
  destruct (tx_bread_ok sb ic t v _ Ht (can_read_empty _ _ _ Hh Hx)) as (bp & t1 & E1 & Ht1 & Hbp & Hbp1).
  unfold bmap_entry. rewrite (ino_step _ ip i sb ic t Hi), Hdev. mstep E1. clear E1.
  rewrite (data_step _ sb ic t1 _ bp _ x Ht1 Hbp1 Hx). cbv zeta. destruct (Z.eqb_spec (word_at x k) 0) as [H0|Hn0].
  - destruct (new_entry_ok bp _ k sb ic t1 v ds _ _ r x Ht1 Hh Hp Hok Hd eq_refl Hne Hx Hk H0 Hs ltac:(lia))
      as (f & t2 & E2 & Ht2 & Hg & Hs2). mstep E2. clear E2. cbv zeta in Hg.
    destruct (brelse_step (mret f) sb ic t2 _ bp _ Ht2) as (t3 & E3 & Ht3); [done|cbn; rewrite Hp; set_solver|]. rewrite E3.
    destruct (g_fresh Hg) as [Hf _]. pose proof (data_block_pos _ _ _ (fo_map Hok) Hf).
    exists f, t3, (update (ind_addr (i_d i)) (set_word k f x) (alloc_view sb f v)). split; [done|]. split; [done|].
    split; [|split; [lia|split]].
    + apply (attached_grown sb v _ ds _ _ _ _ f Hok Hd Hg); [done..|cbn; set_solver|].
      intros b. cbn [update t_logged]. rewrite elem_of_union, elem_of_singleton. destruct (fo_owned Hok _ _ 0 _ Hd (blk_ind _ _) Hne) as [[? _] _].
      intros [->|Hb]; [by right; right|]. apply (alloc_logged sb v f b); [by eapply fresh_range|apply Hf|done].
    + unfold addr_of. rewrite <- blk_S, (g_blk Hg), list_lookup_insert_eq; [done|]. apply (lookup_lt_Some _ _ _ (g_at Hg)).
    + right. split; [cbn; set_solver|]. split; [cbn; set_solver|]. split; [done|].
      pose proof (grown_free _ _ _ _ _ _ _ (fo_map Hok) Hg). lia.
  - rewrite (bind_ok (mret (word_at x k)) _ _ _ (FState sb ic t1) eq_refl).
    destruct (brelse_step (mret (word_at x k)) sb ic t1 v bp _ Ht1 Hbp) as (t2 & E2 & Ht2); [rewrite Hp; set_solver|].
    exists (word_at x k), t2, v. rewrite E2. split; [done|]. split; [done|]. split; [by apply attached_refl|]. split; [done|].
    split; [|by left]. rewrite addr_indirect, decide_False, Hx by done. done.
Qed.

Lemma ind_addr_set n a d : (n < NDIRECT_n)%nat → ind_addr (set_addr n a d) = ind_addr d.
Proof. intros Hn. unfold ind_addr. cbn [set_addr d_addrs]. by rewrite list_lookup_insert_ne by lia. Qed.

Lemma ind_addr_set_ind a d : length (d_addrs d) = Datatypes.S NDIRECT_n → ind_addr (set_addr NDIRECT_n a d) = a.
Proof. intros Hl. unfold ind_addr. cbn [set_addr d_addrs]. by rewrite list_lookup_insert_eq by lia. Qed.

Lemma addr_of_set m bn a d :
  length (d_addrs d) = Datatypes.S NDIRECT_n → (bn < NDIRECT_n)%nat → addr_of m (set_addr bn a d) bn = a.
Proof.
  intros Hl Hn. pose proof (addr_direct m (set_addr bn a d) bn) as H. cbn [set_addr d_addrs] in H.
  rewrite length_insert, list_lookup_insert_eq in H by lia. specialize (H Hl Hn). by injection H.
Qed.

(** What bmap promises: block [bn] of the file is at [a], and [r] blocks are
    left in the log for the rest of the operation. *)
Record bmapped sb v v' (ds : gmap Z dinode) inum (d d' : dinode) (bn : nat) (a : Z) (r : nat) : Prop := Bmapped {
  bm_attached : attached sb v v' ds inum d d';
  bm_addr : addr_of (t_blocks v') d' bn = a;
  bm_nonzero : a ≠ 0;
  bm_slack : slack sb v' (r + cost v' a + ind_cost v' d');
  bm_same : addr_of (t_blocks v) d bn ≠ 0 → d' = d;
  bm_ind : (bn < NDIRECT_n)%nat → ind_addr d' = ind_addr d;
}.

Lemma bmap_direct_ok ip i bn sb ic t v ds r q :
  at_inode sb ic t v ds ip i → (bn < NDIRECT_n)%nat → slack sb v (Datatypes.S (r + ind_cost v (i_d i))) →
  (Datatypes.S (q + ind_need (i_d i)) ≤ size (free_blocks sb (t_blocks v)))%nat →
  ∃ a d' t' v', addr_or_alloc ip bn (FState sb ic t) = Ok a (FState sb (<[ip := set_disk d' i]> ic) t') ∧ trep t' v' ∧
    bmapped sb v v' ds (i_inum i) (i_d i) d' bn a r ∧ (q + ind_need d' ≤ size (free_blocks sb (t_blocks v')))%nat.
Proof.
  intros Hat Hbn Hs Hq. pose proof (at_inode_len _ _ _ _ _ _ _ Hat) as Hlen.
  destruct (addr_or_alloc_ok ip i bn sb ic t v ds _ _ Hat ltac:(lia) Hs Hq) as (a & d' & t' & v' & E & Ht' & Hatt & Ed & Ha & Hc).
  exists a, d', t', v'. split; [done|]. split; [done|].
  assert (addr_of (t_blocks v') d' bn = a) as Eaddr by (rewrite Ed; by apply addr_of_set).
  destruct Hc as [[-> E']|(H0 & Hlog & Hs' & Hq')].
  - split; [|rewrite E'; lia]. split; [done..| |done|by rewrite E']. rewrite E'. apply (slack_le sb v (Datatypes.S (r + ind_cost v (i_d i)))); [pose proof (cost_le v a); lia|done].
  - assert (ind_addr d' = ind_addr (i_d i)) as Ei by (rewrite Ed; by apply ind_addr_set).
    split; [|unfold ind_need in *; by rewrite Ei]. split; [done..| | |done]; [rewrite (cost_logged v' a Hlog)|].
    2: { intros Hne. rewrite (addr_direct (t_blocks v)) in H0 by done. congruence. }
    apply (slack_le _ _ (r + ind_cost v (i_d i))); [|done].
    pose proof (ind_cost_same v v' (i_d i) d' Ei (at_logged _ _ _ _ _ _ _ Hatt)). lia.
Qed.

Lemma set_disk_twice d d' i : set_disk d' (set_disk d i) = set_disk d' i.
Proof. done. Qed.

Lemma bmap_indirect_ok ip i k sb ic t v ds r q :
  at_inode sb ic t v ds ip i → (k < NINDIRECT_n)%nat → slack sb v (Datatypes.S (r + ind_cost v (i_d i))) →
  (Datatypes.S (q + ind_need (i_d i)) ≤ size (free_blocks sb (t_blocks v)))%nat →
  ∃ a d' t' v', (addr ← addr_or_alloc ip NDIRECT_n; bmap_entry ip k addr) (FState sb ic t) =
      Ok a (FState sb (<[ip := set_disk d' i]> ic) t') ∧ trep t' v' ∧
    bmapped sb v v' ds (i_inum i) (i_d i) d' (NDIRECT_n + k) a r ∧ (q + ind_need d' ≤ size (free_blocks sb (t_blocks v')))%nat.
Proof.
  intros Hat Hk Hs Hq. pose proof (at_inode_len _ _ _ _ _ _ _ Hat) as Hlen.
  destruct (addr_or_alloc_ok ip i NDIRECT_n sb ic t v ds (r + ind_cost v (i_d i)) (q + ind_need (i_d i)) Hat ltac:(lia) Hs Hq)
    as (ind & d1 & t1 & v1 & E1 & Ht1 & Hat1 & Ed & Hind & Hc).
  mstep E1. clear E1. pose proof (at_inode_next _ _ _ _ _ _ _ _ _ _ Hat Ht1 Hat1) as Hnext.
  assert (ind_addr d1 = ind) as Ei by (rewrite Ed; by apply ind_addr_set_ind). rewrite <- Ei in Hind.
  destruct (fo_owned (at_ok _ _ _ _ _ _ _ Hat1) (i_inum i) d1 0 _ (lookup_insert_eq _ _ _) (blk_ind _ _) Hind) as [Hdb _].
  destruct (fo_block (at_ok _ _ _ _ _ _ _ Hat1) _ Hdb) as (x & Hx & _).
  assert (addr_of (t_blocks v) (i_d i) (NDIRECT_n + k) ≠ 0 → d1 = i_d i) as Hsame.
  { intros Hne. rewrite addr_indirect in Hne by done. destruct (decide (ind_addr (i_d i) = 0)) as [|Hi0]; [done|].
    destruct Hc as [[_ ?]|(H0 & _)]; [done|]. exfalso. apply Hi0. unfold ind_addr. by rewrite H0. }
  assert (slack sb v1 (Datatypes.S (r + cost v1 (ind_addr d1))) ∧ (Datatypes.S q ≤ size (free_blocks sb (t_blocks v1)))%nat) as [Hs1 Hq1].
  { destruct Hc as [[-> Ed1]|(H0 & Hlog & Hs1 & Hq1)].
    - rewrite Ed1 in *. split; [by rewrite <- ind_cost_eq|lia].
    - assert (ind_addr (i_d i) = 0) as Hi0 by (unfold ind_addr; by rewrite H0).
      unfold ind_cost, ind_need in Hs1, Hq1. rewrite Hi0 in Hs1, Hq1. rewrite decide_False in Hs1 by (by intros []).
      rewrite decide_True in Hq1 by done. rewrite Ei, cost_logged by done.
      split; [by rewrite Nat.add_0_r, <- Nat.add_1_r|lia]. }
  destruct (bmap_entry_ok ip _ k sb _ t1 v1 _ r q x Hnext Hk Hind Hx Hs1 Hq1) as (a & t2 & v2 & E2 & Ht2 & Hat2 & Ha & Eaddr & Hc2).
  cbn [set_disk i_d i_inum] in *. rewrite Ei in E2. exists a, d1, t2, v2. split; [done|]. split; [done|].
  split; [split; [by apply (attached_trans _ _ v1 _ _ _ _ d1)|done|done| |done|lia]|].
  - destruct Hc2 as [->|(Hl1 & Hl2 & Hs2 & _)].
    + apply (slack_le sb v1 (Datatypes.S (r + cost v1 (ind_addr d1)))); [|done].
      pose proof (cost_le v1 a). rewrite (ind_cost_eq v1 d1) by done. lia.
    + rewrite (ind_cost_eq v2 d1), !cost_logged by done. by rewrite !Nat.add_0_r.
  - unfold ind_need. rewrite decide_False by done. destruct Hc2 as [->|(_ & _ & _ & Hq2)]; lia.
Qed.

(** bmap on any index of a file. *)
Lemma bmap_ok ip i bn sb ic t v ds r q :
  at_inode sb ic t v ds ip i → 0 ≤ bn < MAXFILE → slack sb v (Datatypes.S (r + ind_cost v (i_d i))) →
  (Datatypes.S (q + ind_need (i_d i)) ≤ size (free_blocks sb (t_blocks v)))%nat →
  ∃ a d' t' v', bmap ip bn (FState sb ic t) = Ok a (FState sb (<[ip := set_disk d' i]> ic) t') ∧ trep t' v' ∧
    bmapped sb v v' ds (i_inum i) (i_d i) d' (Z.to_nat bn) a r ∧ (q + ind_need d' ≤ size (free_blocks sb (t_blocks v')))%nat.
Proof.
  intros Hat Hbn Hs Hq. rewrite bmap_eq by done. destruct (decide (bn < NDIRECT)) as [Hlt|Hge].
  - apply (bmap_direct_ok ip i _ sb ic t v ds r q Hat); [unfold NDIRECT_n; lia|done..].
  - unfold MAXFILE in Hbn. replace (Z.to_nat bn) with (NDIRECT_n + Z.to_nat (bn - NDIRECT))%nat by (unfold NDIRECT_n, NDIRECT in *; lia).
    apply (bmap_indirect_ok ip i _ sb ic t v ds r q Hat); [unfold NINDIRECT_n; lia|done..].
Qed.
End bmap.
