(* ===== verification/FsIo.v ===== *)
(** * The file system: reading and writing files

    The loops of readi and writei against the contents of inodes. *)

From S2P Require Import Prelude Params Disk Superblock Txn Fs FsBlocks FsInode FsBmap.

(** ** Offsets *)

Lemma BSIZE_pos : 0 < BSIZE.
Proof. done. Qed.
Lemma BSIZE_n_eq : Z.of_nat BSIZE_n = BSIZE.
Proof. done. Qed.

Lemma off_div off : 0 ≤ off → Z.to_nat (off / BSIZE) = (Z.to_nat off / BSIZE_n)%nat.
Proof. intros H. rewrite Z2Nat.inj_div by done. done. Qed.
Lemma off_mod off : 0 ≤ off → Z.to_nat (off `mod` BSIZE) = (Z.to_nat off `mod` BSIZE_n)%nat.
Proof. intros H. rewrite Z2Nat.inj_mod by done. done. Qed.

(** The piece of a block that one turn of the loops handles. *)
Definition piece (off left : Z) : Z := Z.min left (BSIZE - off `mod` BSIZE).

Lemma piece_range off left : 0 < left → 0 < piece off left ≤ left ∧ off `mod` BSIZE + piece off left ≤ BSIZE.
Proof. intros H. unfold piece. pose proof (Z.mod_pos_bound off BSIZE BSIZE_pos). lia. Qed.

Lemma piece_fits off left : 0 ≤ off → 0 < left → (Z.to_nat off `mod` BSIZE_n + Z.to_nat (piece off left) ≤ BSIZE_n)%nat.
Proof.
  intros Ho Hl. rewrite <- off_mod by done. pose proof (Z.mod_pos_bound off BSIZE BSIZE_pos).
  destruct (piece_range off left Hl). pose proof BSIZE_n_eq. lia.
Qed.

(** After a piece, either nothing is left or the offset is at a block. *)
Lemma piece_next off left fuel :
  0 ≤ off → 0 < left → off `mod` BSIZE + left ≤ Z.succ fuel * BSIZE →
  0 < left - piece off left → (off + piece off left) `mod` BSIZE + (left - piece off left) ≤ fuel * BSIZE.
Proof.
  intros Ho Hl Hf Hr. unfold piece in *. pose proof (Z.mod_pos_bound off BSIZE BSIZE_pos).
  replace (Z.min left (BSIZE - off `mod` BSIZE)) with (BSIZE - off `mod` BSIZE) in * by lia.
  assert ((off + (BSIZE - off `mod` BSIZE)) `mod` BSIZE = 0) as ->; [|lia].
  rewrite (Z.div_mod off BSIZE) at 1 by done.
  replace (BSIZE * (off / BSIZE) + off `mod` BSIZE + (BSIZE - off `mod` BSIZE)) with ((off / BSIZE + 1) * BSIZE) by lia.
  apply Z_mod_mult.
Qed.

Lemma slice_block m d off n x :
  m !! addr_of m d (off / BSIZE_n) = Some x → length x = BSIZE_n →
  (off `mod` BSIZE_n + n ≤ BSIZE_n)%nat → Z.of_nat (off + n) ≤ d_size d →
  slice (off `mod` BSIZE_n) n x = slice off n (content m d).
Proof.
  intros Hx Hlen Hn Hs. assert (BSIZE_n ≠ 0)%nat as Hnz by done. pose proof (Nat.div_mod_eq off BSIZE_n) as Eo.
  apply list_eq. intros j. destruct (decide (j < n)%nat) as [Hj|Hj]; [|unfold slice; by rewrite !lookup_take_ge by lia].
  rewrite !lookup_slice by lia. rewrite lookup_content by lia. unfold byte_at, file_block.
  assert ((off + j) / BSIZE_n = off / BSIZE_n)%nat as Ed.
  { symmetry. apply (Nat.div_unique _ _ _ (off `mod` BSIZE_n + j)); lia. }
  assert ((off + j) `mod` BSIZE_n = off `mod` BSIZE_n + j)%nat as Em.
  { symmetry. apply (Nat.mod_unique _ _ (off / BSIZE_n)); lia. }
  rewrite Ed, Em, Hx. cbn [from_option id].
  destruct (lookup_lt_is_Some_2 x (off `mod` BSIZE_n + j)%nat ltac:(lia)) as [y ->]. done.
Qed.

Lemma addr_bound m d bn : length (d_addrs d) = S NDIRECT_n → addr_of m d bn ≠ 0 → Z.of_nat bn < MAXFILE.
Proof.
  intros Hl Ha. destruct (decide (bn < NDIRECT_n + NINDIRECT_n)%nat) as [H|H].
  - change (Z.of_nat bn < 140). change (bn < 140)%nat in H. lia.
  - exfalso. apply Ha. unfold addr_of. by rewrite lookup_ge_None_2 by (rewrite length_addrs_of; [lia|done]).
Qed.

Section read.
Context {S : Type} `{!Txn S, !DevSw S}.
Implicit Types (sb : superblock) (ic : list inode) (t : S) (v : tview).

Lemma readi_loop_ok fuel ip i off n tot acc sb ic t v ds :
  at_inode sb ic t v ds ip i → 0 ≤ off → 0 ≤ tot ≤ n → (tot < n → off + (n - tot) ≤ d_size (i_d i)) → (0 < fuel)%nat →
  (tot < n → off `mod` BSIZE + (n - tot) ≤ (Z.of_nat fuel - 1) * BSIZE) →
  ∃ t', readi_loop fuel ip off n tot acc (FState sb ic t) =
      Ok (n, acc ++ slice (Z.to_nat off) (Z.to_nat (n - tot)) (content (t_blocks v) (i_d i))) (FState sb ic t') ∧ trep t' v.
Proof.
  revert off tot acc t. induction fuel as [|fuel IH]; intros off tot acc t Hat Ho Ht Hsz Hf Hfuel; [lia|].
  cbn [readi_loop]. destruct (Z.ltb_spec tot n) as [Hlt|Hge]; last first.
  { exists t. replace (n - tot) with 0 by lia. unfold slice. rewrite take_0, app_nil_r. split; [done|apply Hat]. }
  pose proof (at_inode_len _ _ _ _ _ _ _ Hat) as Hlen. pose proof Hat as [Hr Hh Hp Hok Hd Hi Hdev].
  rewrite (ino_step _ ip i sb ic t Hi).
  assert (addr_of (t_blocks v) (i_d i) (Z.to_nat (off / BSIZE)) ≠ 0) as Ha.
  { rewrite off_div by done. apply (fo_full Hok _ _ _ Hd). specialize (Hsz Hlt). lia. }
  destruct (bmap_read ip i (off / BSIZE) sb ic t v ds Hr Hh Hp Hok Hd Hi Hdev) as (t1 & E1 & Hr1); [|done|].
  { pose proof (addr_bound _ _ _ Hlen Ha). assert (0 ≤ off / BSIZE) by (apply Z.div_pos; [done|done]). lia. }
  mstep E1. clear E1. rewrite Hdev. set (a := addr_of (t_blocks v) (i_d i) (Z.to_nat (off / BSIZE))) in *.
  destruct (fo_owned Hok _ _ _ _ Hd (blk_addr _ _ _ a Ha eq_refl) Ha) as [Hdb _]. destruct (fo_block Hok _ Hdb) as (x & Hx & Hxl).
  fold (piece off (n - tot)).
  destruct (read_step (λ x, readi_loop fuel ip (off + piece off (n - tot)) n (tot + piece off (n - tot))
    (acc ++ slice (Z.to_nat (off `mod` BSIZE)) (Z.to_nat (piece off (n - tot))) x)) sb ic t1 v a x Hr1 (can_read_empty _ _ _ Hh Hx) Hx)
    as (t2 & E2 & Hr2); [rewrite Hp; set_solver|]. cbv zeta. rewrite E2. clear E2.
  destruct (piece_range off (n - tot) ltac:(lia)) as [Hp1 Hp2]. pose proof (piece_next off (n - tot) (Z.of_nat fuel - 1) Ho ltac:(lia)) as Hnext.
  specialize (Hfuel Hlt). specialize (Hsz Hlt).
  destruct (IH (off + piece off (n - tot)) (tot + piece off (n - tot))
    (acc ++ slice (Z.to_nat (off `mod` BSIZE)) (Z.to_nat (piece off (n - tot))) x) t2) as (t3 & E3 & Hr3);
    [by split|lia|lia|lia| |intros; replace (n - (tot + piece off (n - tot))) with (n - tot - piece off (n - tot)) by lia; apply Hnext; lia|].
  { destruct fuel; [|lia]. pose proof (Z.mod_pos_bound off BSIZE BSIZE_pos). lia. }
  exists t3. split; [|done]. rewrite E3. do 2 f_equal. rewrite <- app_assoc. f_equal.
  rewrite off_mod, (slice_block (t_blocks v) (i_d i) _ _ x) by (done || (by rewrite <- off_div) || (apply piece_fits; lia) || lia).
  replace (Z.to_nat (n - tot)) with (Z.to_nat (piece off (n - tot)) + Z.to_nat (n - (tot + piece off (n - tot))))%nat by lia.
  rewrite slice_add. do 2 f_equal. lia.
Qed.

Lemma u32_overflow off n : 0 ≤ off < 2 ^ 32 → 0 ≤ n < 2 ^ 32 → (u32 (off + n) <? off) = (2 ^ 32 <=? off + n).
Proof.
  intros Ho Hn. unfold u32. destruct (Z.leb_spec (2 ^ 32) (off + n)) as [H|H].
  - apply Z.ltb_lt. replace (off + n) with (off + n - 2 ^ 32 + 1 * 2 ^ 32) by lia. rewrite Z_mod_plus_full, Z.mod_small by lia. lia.
  - apply Z.ltb_ge. rewrite Z.mod_small by lia. lia.
Qed.

(** readi on a file or a directory. *)
Lemma readi_ok ip i off n sb ic t v ds :
  at_inode sb ic t v ds ip i → d_type (i_d i) ≠ T_DEV → 0 ≤ off < 2 ^ 32 → 0 ≤ n < 2 ^ 32 →
  let size := d_size (i_d i) in
  let n' := Z.min n (size - off) in
  ∃ t', readi ip off n (FState sb ic t) =
      Ok (if (size <? off) || (2 ^ 32 <=? off + n) then (-1, [])
          else (n', slice (Z.to_nat off) (Z.to_nat n') (content (t_blocks v) (i_d i)))) (FState sb ic t') ∧ trep t' v.
Proof.
  intros Hat Hty Ho Hn size n'. unfold readi. rewrite (ino_step _ ip i sb ic t (ai_cached _ _ _ _ _ _ _ Hat)).
  cbv zeta. rewrite (proj2 (Z.eqb_neq _ T_DEV)) by done. rewrite u32_overflow by done. fold size.
  destruct (Z.ltb_spec size off) as [|Hsz]; [exists t; split; [done|apply Hat]|]. cbn [orb].
  destruct (Z.leb_spec (2 ^ 32) (off + n)) as [|Hov]; [exists t; split; [done|apply Hat]|].
  rewrite u32_small by lia. replace (if size <? off + n then size - off else n) with n' by (subst n'; destruct (Z.ltb_spec size (off + n)); lia).
  destruct (readi_loop_ok (Datatypes.S (Datatypes.S (Datatypes.S (Z.to_nat (n' / BSIZE))))) ip i off n' 0 [] sb ic t v ds Hat)
    as (t' & E & Ht'); [lia..| |].
  - intros _. pose proof (Z.mod_pos_bound off BSIZE BSIZE_pos). pose proof (Z.mul_succ_div_gt n' BSIZE BSIZE_pos).
    assert (0 ≤ n' / BSIZE) by (apply Z.div_pos; [lia|done]). unfold BSIZE in *. lia.
  - exists t'. rewrite E, Z.sub_0_r. done.
Qed.
End read.

(** ** Writing *)

(** From [v] to [v'] the bytes at [off] of inode [inum] have become [bytes];
    the inode has become [d'], with the size it had. *)
Record wrote (sb : superblock) (v v' : tview) (ds : gmap Z dinode) (inum : Z) (d d' : dinode) (off : nat) (bytes : list Z) : Prop := Wrote {
  wr_held : t_held v' = t_held v;
  wr_pending : t_pending v' = t_pending v;
  wr_durable : t_durable v' = t_durable v;
  wr_ok : fs_ok sb (t_blocks v') (<[inum := d']> ds);
  wr_meta : same_meta d d';
  wr_new o : (off ≤ o < off + length bytes)%nat →
    addr_of (t_blocks v') d' (o / BSIZE_n) ≠ 0 ∧ byte_at (t_blocks v') d' o = default 0 (bytes !! (o - off)%nat);
  wr_old o : addr_of (t_blocks v) d (o / BSIZE_n) ≠ 0 →
    addr_of (t_blocks v') d' (o / BSIZE_n) ≠ 0 ∧
    (¬ (off ≤ o < off + length bytes)%nat → byte_at (t_blocks v') d' o = byte_at (t_blocks v) d o);
  wr_other j e : j ≠ inum → ds !! j = Some e → content (t_blocks v') e = content (t_blocks v) e;
  wr_low b : b < data_start sb → (∀ g, 0 ≤ g < sb_size sb → b ≠ BBLOCK g sb) → t_blocks v' !! b = t_blocks v !! b;
  wr_same : (∀ o, (off ≤ o < off + length bytes)%nat → addr_of (t_blocks v) d (o / BSIZE_n) ≠ 0) → d' = d;
  wr_log b : b ∈ t_logged v' → b ∈ t_logged v ∨ b ∈ map_blocks sb ∨ data_start sb ≤ b;
  wr_more : t_logged v ⊆ t_logged v';
}.

Lemma wrote_nil sb v ds inum d off : fs_ok sb (t_blocks v) ds → ds !! inum = Some d → wrote sb v v ds inum d d off [].
Proof. intros Hok Hd. split; try done; [by rewrite insert_id|cbn; lia|by left]. Qed.

Lemma wrote_trans sb v v1 v2 ds inum d d1 d2 off off1 b1 b2 :
  off1 = (off + length b1)%nat → wrote sb v v1 ds inum d d1 off b1 → wrote sb v1 v2 (<[inum := d1]> ds) inum d1 d2 off1 b2 →
  wrote sb v v2 ds inum d d2 off (b1 ++ b2).
Proof.
  intros -> [H1 H2 H3 H4 (M1 & M2 & M3 & M4 & M5) H6 H7 H8 H9 H10 H11 H12] [K1 K2 K3 K4 (N1 & N2 & N3 & N4 & N5) K6 K7 K8 K9 K10 K11 K12].
  split; [congruence|congruence|congruence|by rewrite insert_insert_eq in K4|repeat split; congruence| | | | | | |set_solver].
  - intros o. rewrite length_app. intros Ho. destruct (decide (o < off + length b1)%nat) as [Hlt|Hge].
    + destruct (H6 o ltac:(lia)) as [E1 E2]. destruct (K7 o E1) as [E3 E4]. split; [done|].
      rewrite E4, E2 by lia. by rewrite lookup_app_l by lia.
    + destruct (K6 o ltac:(lia)) as [E1 E2]. split; [done|]. rewrite E2, lookup_app_r by lia. do 2 f_equal. lia.
  - intros o Ho. destruct (H7 o Ho) as [E1 E2]. destruct (K7 o E1) as [E3 E4]. split; [done|]. rewrite length_app. intros Hn.
    rewrite E4, E2 by lia. done.
  - intros j e Hj He. rewrite (K8 j e Hj), (H8 j e Hj He); [done|]. by rewrite lookup_insert_ne.
  - intros b Hb Hn. rewrite K9, H9 by done. done.
  - rewrite length_app. intros Ha. rewrite K10, H10; [done|intros o Ho; apply Ha; lia|]. intros o Ho. apply H7, Ha. lia.
  - intros b [Hb|Hb]%K11; [by apply H11|by right].
Qed.

(** One turn of the loop of writei: bmap and the write of a block. *)
Section turn.
Context (sb : superblock) (v v1 : tview) (ds : gmap Z dinode) (inum : Z) (d d1 : dinode) (bn : nat) (a : Z) (r : nat).
Context (k : nat) (bytes : list Z) (x : block).
Context (Hok : fs_ok sb (t_blocks v) ds) (Hd : ds !! inum = Some d) (Hb : bmapped sb v v1 ds inum d d1 bn a r).
Context (Hx : t_blocks v1 !! a = Some x) (Hk : (k + length bytes ≤ BSIZE_n)%nat).
Context (Hpos : (0 < length bytes)%nat).
#[local] Abbreviation v2 := (update a (splice k bytes x) v1).

Lemma turn_ok1 : fs_ok sb (t_blocks v1) (<[inum := d1]> ds).
Proof. apply Hb. Qed.

Lemma turn_addr : addr_of (t_blocks v1) d1 bn ≠ 0.
Proof. rewrite (bm_addr _ _ _ _ _ _ _ _ _ _ Hb). apply Hb. Qed.

Lemma turn_blocks : t_blocks v2 = <[addr_of (t_blocks v1) d1 bn := splice k bytes (file_block (t_blocks v1) d1 bn)]> (t_blocks v1).
Proof. unfold file_block. rewrite (bm_addr _ _ _ _ _ _ _ _ _ _ Hb), Hx. done. Qed.

Lemma turn_length : length x = BSIZE_n.
Proof.
  pose proof (leaf_data sb _ _ inum d1 bn turn_ok1 (lookup_insert_eq _ _ _) turn_addr) as Hdb.
  rewrite (bm_addr _ _ _ _ _ _ _ _ _ _ Hb) in Hdb. destruct (fo_block turn_ok1 a Hdb) as (y & Hy & Hl). congruence.
Qed.

Lemma turn_leaf o : addr_of (t_blocks v1) d1 (o / BSIZE_n) ≠ 0 →
  addr_of (t_blocks v2) d1 (o / BSIZE_n) ≠ 0 ∧
  byte_at (t_blocks v2) d1 o =
    if decide (bn * BSIZE_n + k ≤ o < bn * BSIZE_n + k + length bytes)%nat then default 0 (bytes !! (o - (bn * BSIZE_n + k))%nat)
    else byte_at (t_blocks v1) d1 o.
Proof.
  intros Ho. rewrite turn_blocks. split.
  - rewrite (blk_addr_of (t_blocks v1) _ d1 d1); [done|].
    by rewrite (leaf_blk sb _ (<[inum := d1]> ds) inum d1 bn _ turn_ok1 (lookup_insert_eq _ _ _) turn_addr inum d1 (lookup_insert_eq _ _ _)).
  - by apply (leaf_byte sb _ _ inum d1 bn k bytes o turn_ok1 (lookup_insert_eq _ _ _) turn_addr).
Qed.

Lemma turn_wrote : wrote sb v v2 ds inum d d1 (bn * BSIZE_n + k) bytes.
Proof.
  pose proof Hb as [Hat Ea Ha _ Hsame _]. assert (BSIZE_n ≠ 0)%nat as Hnz by done. pose proof turn_length as Hlen.
  split; [apply Hat|apply Hat|apply Hat| |apply Hat| | | | | | |pose proof (at_logged _ _ _ _ _ _ _ Hat); cbn; set_solver].
  - rewrite turn_blocks. apply (leaf_ok sb _ _ inum d1 bn _ turn_ok1 (lookup_insert_eq _ _ _) turn_addr).
    rewrite length_splice; unfold file_block; rewrite Ea, Hx; cbn [from_option id]; lia.
  - intros o Ho. assert (o / BSIZE_n = bn)%nat as E by (symmetry; apply (Nat.div_unique _ _ _ (o - bn * BSIZE_n)); lia).
    destruct (turn_leaf o) as [E1 E2]; [rewrite E; apply turn_addr|]. split; [done|]. rewrite E2. by rewrite decide_True.
  - intros o Ho. destruct (at_keeps _ _ _ _ _ _ _ Hat inum d _ Hd Ho) as [E1 E2]. rewrite decide_True in E1, E2 by done.
    destruct (turn_leaf o) as [E3 E4]; [by rewrite E1|]. split; [done|]. intros Hn. rewrite E4, decide_False by done.
    by apply byte_at_ext.
  - intros j e Hj He. rewrite turn_blocks.
    rewrite (leaf_content sb _ _ inum d1 bn _ turn_ok1 (lookup_insert_eq _ _ _) turn_addr j e Hj); [|by rewrite lookup_insert_ne].
    pose proof (keeps_content sb ds inum d d1 _ _ j e Hok Hd ltac:(apply Hat) (at_keeps _ _ _ _ _ _ _ Hat) He) as E.
    by rewrite decide_False in E.
  - intros b Hlow Hn. cbn [update t_blocks]. rewrite lookup_insert_ne; [by apply Hat|].
    pose proof (leaf_data sb _ _ inum d1 bn turn_ok1 (lookup_insert_eq _ _ _) turn_addr) as [Hs _]. rewrite Ea in Hs. lia.
  - intros Hall. apply Hsame. specialize (Hall (bn * BSIZE_n + k)%nat ltac:(lia)).
    by rewrite <- (Nat.div_unique (bn * BSIZE_n + k) BSIZE_n bn k) in Hall by lia.
  - intros b. cbn [update t_logged]. rewrite elem_of_union, elem_of_singleton. intros [->|Hin]; [|by apply Hat].
    right; right. pose proof (leaf_data sb _ _ inum d1 bn turn_ok1 (lookup_insert_eq _ _ _) turn_addr) as [Hs _]. by rewrite Ea in Hs.
Qed.

Lemma turn_log : can_log a v1 ∧ slack sb v2 (r + ind_cost v2 d1).
Proof.
  pose proof (bm_slack _ _ _ _ _ _ _ _ _ _ Hb) as Hs.
  destruct (slack_cost sb v1 a (splice k bytes x) (r + ind_cost v1 d1)) as [Hl Hs2].
  { apply (slack_le sb v1 (r + cost v1 a + ind_cost v1 d1)); [lia|done]. }
  split; [done|]. apply (slack_le sb v2 (r + ind_cost v1 d1)); [|done].
  pose proof (ind_cost_same v1 v2 d1 d1 eq_refl ltac:(cbn; set_solver)). lia.
Qed.

Lemma turn_free : free_blocks sb (t_blocks v2) = free_blocks sb (t_blocks v1).
Proof.
  apply set_eq. intros g. rewrite !elem_of_free, turn_blocks. split; intros [Hg Hu]; (split; [done|]);
    by rewrite (leaf_used sb _ _ inum d1 bn _ turn_ok1 (lookup_insert_eq _ _ _) turn_addr) in *.
Qed.
End turn.

Section write.
Context {S : Type} `{!Txn S, !DevSw S}.
Implicit Types (sb : superblock) (ic : list inode) (t : S) (v : tview).

Lemma div_mod_nat off : (Z.to_nat off / BSIZE_n * BSIZE_n + Z.to_nat off `mod` BSIZE_n = Z.to_nat off)%nat.
Proof. rewrite Nat.mul_comm. symmetry. apply Nat.div_mod_eq. Qed.

(** The first turn of the loop. *)
Lemma writei_turn fuel ip i src off n tot sb ic t v ds r q :
  at_inode sb ic t v ds ip i → 0 ≤ off → 0 ≤ tot < n → n - tot ≤ Z.of_nat (length src) → off < MAXFILE * BSIZE →
  slack sb v (Datatypes.S (r + ind_cost v (i_d i))) →
  (Datatypes.S (q + ind_need (i_d i)) ≤ size (free_blocks sb (t_blocks v)))%nat →
  let p := piece off (n - tot) in
  ∃ d1 t1 v1, writei_loop (Datatypes.S fuel) ip src off n tot (FState sb ic t) =
      writei_loop fuel ip (drop (Z.to_nat p) src) (off + p) n (tot + p) (FState sb (<[ip := set_disk d1 i]> ic) t1) ∧
    at_inode sb (<[ip := set_disk d1 i]> ic) t1 v1 (<[i_inum i := d1]> ds) ip (set_disk d1 i) ∧
    wrote sb v v1 ds (i_inum i) (i_d i) d1 (Z.to_nat off) (take (Z.to_nat p) src) ∧
    slack sb v1 (r + ind_cost v1 d1) ∧ (q + ind_need d1 ≤ size (free_blocks sb (t_blocks v1)))%nat ∧
    (off < NDIRECT * BSIZE → ind_addr d1 = ind_addr (i_d i)).
Proof.
  intros Hat Ho Ht Hsrc Hmax Hs Hq p. pose proof Hat as [Hr Hh Hp Hok Hd Hi Hdev].
  destruct (piece_range off (n - tot) ltac:(lia)) as [Hp1 Hp2]. fold p in Hp1, Hp2.
  assert (Z.of_nat (length (take (Z.to_nat p) src)) = p) as Hbl by (rewrite length_take; lia).
  cbn [writei_loop]. rewrite (proj2 (Z.ltb_lt tot n)) by lia. rewrite (ino_step _ ip i sb ic t Hi).
  assert (0 ≤ off / BSIZE < MAXFILE) as Hbn by (split; [by apply Z.div_pos|apply Z.div_lt_upper_bound; [done|lia]]).
  destruct (bmap_ok ip i (off / BSIZE) sb ic t v ds r q Hat Hbn Hs Hq) as (a & d1 & t1 & v1 & E1 & Hr1 & Hb & Hq1).
  mstep E1. clear E1. rewrite Hdev. cbv zeta. fold (piece off (n - tot)). fold p.
  pose proof (at_inode_next _ _ _ _ _ _ _ _ _ _ Hat Hr1 (bm_attached _ _ _ _ _ _ _ _ _ _ Hb)) as [_ Hh1 Hp1' Hok1 Hd1 Hi1 _].
  assert (∃ x, t_blocks v1 !! a = Some x) as [x Hx].
  { pose proof (leaf_data sb _ _ _ d1 (Z.to_nat (off / BSIZE)) Hok1 Hd1) as Hdb. rewrite (bm_addr _ _ _ _ _ _ _ _ _ _ Hb) in Hdb.
    destruct (fo_block Hok1 a (Hdb (bm_nonzero _ _ _ _ _ _ _ _ _ _ Hb))) as (x & ? & _). eauto. }
  rewrite Hbl, Z.eqb_refl. cbn [negb].
  assert (Z.to_nat (off `mod` BSIZE) + length (take (Z.to_nat p) src) ≤ BSIZE_n)%nat as Hfit.
  { rewrite off_mod, length_take by done. pose proof (piece_fits off (n - tot) Ho ltac:(lia)) as Hpf. fold p in Hpf. lia. }
  destruct (turn_log sb v v1 ds _ _ d1 _ a r (Z.to_nat (off `mod` BSIZE)) (take (Z.to_nat p) src) x Hok Hd Hb Hx Hfit ltac:(lia)) as [Hl Hs2].
  destruct (update_step (splice (Z.to_nat (off `mod` BSIZE)) (take (Z.to_nat p) src))
    (writei_loop fuel ip (drop (Z.to_nat p) src) (off + p) n (tot + p)) sb (<[ip := set_disk d1 i]> ic) t1 v1 a x Hr1
    (can_read_empty _ _ _ Hh1 Hx) Hx) as (t2 & E2 & Hr2); [rewrite Hp1'; set_solver|done|].
  rewrite E2. clear E2.
  pose proof (turn_wrote sb v v1 ds _ _ d1 _ a r _ _ x Hok Hd Hb Hx Hfit ltac:(lia)) as Hw.
  rewrite off_div, off_mod, div_mod_nat in Hw by done. rewrite off_mod in Hs2 by done. rewrite off_mod in Hr2 by done.
  eexists d1, t2, _. split; [done|]. split; [|split; [done|split; [done|split]]].
  - split; [done|done|done|apply Hw|done|done|done].
  - rewrite (turn_free sb v v1 ds _ _ d1 _ a r _ _ x Hb Hx). done.
  - intros Hd12. apply (bm_ind _ _ _ _ _ _ _ _ _ _ Hb).
    assert (off / BSIZE < NDIRECT) by (apply Z.div_lt_upper_bound; [done|lia]). unfold NDIRECT_n. lia.
Qed.

Lemma same_meta_size d d' : same_meta d d' → d_size d' = d_size d.
Proof. by intros (_ & _ & _ & _ & ?). Qed.

Lemma writei_loop_ok fuel ip i src off n tot sb ic t v ds k r q :
  at_inode sb ic t v ds ip i → 0 ≤ off → 0 ≤ tot ≤ n → n - tot ≤ Z.of_nat (length src) → off + (n - tot) ≤ MAXFILE * BSIZE →
  (0 < fuel)%nat → (tot < n → off `mod` BSIZE + (n - tot) ≤ (Z.of_nat fuel - 1) * BSIZE) →
  (tot < n → off `mod` BSIZE + (n - tot) ≤ Z.of_nat k * BSIZE) →
  slack sb v (r + k + ind_cost v (i_d i)) → (q + k + ind_need (i_d i) ≤ size (free_blocks sb (t_blocks v)))%nat →
  ∃ d' t' v', writei_loop fuel ip src off n tot (FState sb ic t) =
      Ok (off + (n - tot)) (FState sb (<[ip := set_disk d' i]> ic) t') ∧
    at_inode sb (<[ip := set_disk d' i]> ic) t' v' (<[i_inum i := d']> ds) ip (set_disk d' i) ∧
    wrote sb v v' ds (i_inum i) (i_d i) d' (Z.to_nat off) (take (Z.to_nat (n - tot)) src) ∧
    slack sb v' (r + ind_cost v' d') ∧ (q + ind_need d' ≤ size (free_blocks sb (t_blocks v')))%nat ∧
    (off + (n - tot) ≤ NDIRECT * BSIZE → ind_addr d' = ind_addr (i_d i)).
Proof.
  revert i src off tot ic t v ds k. induction fuel as [|fuel IH]; intros i src off tot ic t v ds k Hat Ho Ht Hsrc Hmax Hf Hfuel Hk Hs Hq; [lia|].
  destruct (Z_lt_le_dec tot n) as [Hlt|Hge]; last first.
  { exists (i_d i), t, v. assert (set_disk (i_d i) i = i) as Ei by (by destruct i). pose proof Hat as [Hr Hh Hp Hok Hd Hi Hdev].
    rewrite Ei, list_insert_id, insert_id by done. replace (n - tot) with 0 by lia. rewrite take_0, Z.add_0_r.
    cbn [writei_loop]. rewrite (proj2 (Z.ltb_ge tot n)) by lia. split; [done|]. split; [done|]. split; [by apply wrote_nil|].
    split; [apply (slack_le sb v (r + k + ind_cost v (i_d i))); [lia|done]|split; [lia|done]]. }
  specialize (Hfuel Hlt). specialize (Hk Hlt). pose proof (Z.mod_pos_bound off BSIZE BSIZE_pos).
  destruct k as [|k]; [lia|]. destruct fuel as [|fuel]; [lia|].
  destruct (piece_range off (n - tot) ltac:(lia)) as [Hp1 Hp2].
  destruct (writei_turn (Datatypes.S fuel) ip i src off n tot sb ic t v ds (r + k) (q + k) Hat Ho ltac:(lia) Hsrc ltac:(lia))
    as (d1 & t1 & v1 & E1 & Hat1 & Hw1 & Hs1 & Hq1 & Hi1); [by rewrite <- plus_n_Sm in Hs|lia|].
  rewrite E1. clear E1. set (p := piece off (n - tot)) in *.
  assert (n - (tot + p) = n - tot - p) as En by lia.
  destruct (IH (set_disk d1 i) (drop (Z.to_nat p) src) (off + p) (tot + p) _ t1 v1 _ k Hat1)
    as (d2 & t2 & v2 & E2 & Hat2 & Hw2 & Hs2 & Hq2 & Hi2);
    [lia|lia|rewrite length_drop; lia|lia|lia| | |done|done|].
  - intros Hl. rewrite En. apply (piece_next off (n - tot) (Z.of_nat (Datatypes.S fuel) - 1) Ho); lia.
  - intros Hl. rewrite En. apply (piece_next off (n - tot) (Z.of_nat k) Ho); lia.
  - cbn [set_disk i_inum i_d] in *. rewrite list_insert_insert_eq, set_disk_twice in E2, Hat2. rewrite insert_insert_eq in Hat2.
    exists d2, t2, v2. rewrite E2. replace (off + p + (n - (tot + p))) with (off + (n - tot)) by lia. split; [done|]. split; [done|].
    split; [|split; [done|split; [done|intros Hle; rewrite Hi2, Hi1 by lia; done]]].
    assert (take (Z.to_nat (n - tot)) src = take (Z.to_nat p) src ++ take (Z.to_nat (n - (tot + p))) (drop (Z.to_nat p) src)) as ->.
    { rewrite take_take_drop. f_equal. lia. }
    apply (wrote_trans sb v v1 v2 ds _ _ d1 d2 (Z.to_nat off) (Z.to_nat (off + p))); [rewrite length_take; lia|done|done].
Qed.
End write.
