(* ===== verification/FsDinode.v ===== *)
(** * The file system: inodes on disk

    The format of struct dinode is read back as it was written, and iupdate
    changes the inode it is called on and no other. *)

From S2P Require Import Prelude Params Disk Superblock Txn Fs FsBlocks FsInode FsBmap.

(** The values that the fields of struct dinode can have. *)
Record dinode_ok (d : dinode) : Prop := DinodeOk {
  dk_type : - 2 ^ 15 ≤ d_type d < 2 ^ 15;
  dk_major : - 2 ^ 15 ≤ d_major d < 2 ^ 15;
  dk_minor : - 2 ^ 15 ≤ d_minor d < 2 ^ 15;
  dk_nlink : - 2 ^ 15 ≤ d_nlink d < 2 ^ 15;
  dk_size : 0 ≤ d_size d < 2 ^ 32;
  dk_len : length (d_addrs d) = S NDIRECT_n;
  dk_addrs : Forall (λ a, 0 ≤ a < 2 ^ 32) (d_addrs d);
}.

Lemma s16_u16 z : - 2 ^ 15 ≤ z < 2 ^ 15 → s16 (z `mod` 2 ^ 16) = z.
Proof. intros H. unfold s16. rewrite Z.add_mod_idemp_l by lia. rewrite Z.mod_small; lia. Qed.

Lemma half_value z : - 2 ^ 15 ≤ z < 2 ^ 15 → s16 (le_value (le_bytes 2 z)) = z.
Proof. intros H. rewrite le_value_bytes. by apply s16_u16. Qed.

Lemma word_value z : 0 ≤ z < 2 ^ 32 → le_value (le_bytes 4 z) = z.
Proof. intros H. rewrite le_value_bytes. by apply Z.mod_small. Qed.

Lemma length_dinode_bytes d : dinode_ok d → length (dinode_bytes d) = Z.to_nat sizeof_dinode.
Proof.
  intros [_ _ _ _ _ Hl _]. unfold dinode_bytes. rewrite !length_app, !length_le_bytes.
  assert (length (concat (le_bytes 4 <$> d_addrs d)) = 4 * length (d_addrs d))%nat as ->; [|by rewrite Hl].
  clear Hl. induction (d_addrs d) as [|a l IH]; [done|]. cbn [fmap list_fmap concat length]. rewrite length_app, length_le_bytes, IH. lia.
Qed.

(** The struct is decoded to what was encoded. *)
Lemma dinode_roundtrip d : dinode_ok d → dinode_of (dinode_bytes d) = d.
Proof.
  intros [H1 H2 H3 H4 H5 Hl Ha]. destruct d as [ty mj mn nl sz ad]. cbn [d_type d_major d_minor d_nlink d_size d_addrs] in *.
  change (S NDIRECT_n) with 13%nat in Hl. do 13 (destruct ad as [|? ad]; [discriminate Hl|]). destruct ad; [|discriminate Hl].
  rewrite !Forall_cons in Ha.
  transitivity (DInode (s16 (le_value (le_bytes 2 ty))) (s16 (le_value (le_bytes 2 mj))) (s16 (le_value (le_bytes 2 mn)))
    (s16 (le_value (le_bytes 2 nl))) (le_value (le_bytes 4 sz)) ((λ a, le_value (le_bytes 4 a)) <$> [z; z0; z1; z2; z3; z4; z5; z6; z7; z8; z9; z10; z11]));
    [reflexivity|].
  rewrite !half_value, word_value by done. f_equal. cbn [fmap list_fmap]. rewrite !word_value by apply Ha. done.
Qed.

Lemma dinode_off_range inum : 0 ≤ inum → (dinode_off inum + Z.to_nat sizeof_dinode ≤ BSIZE_n)%nat.
Proof.
  intros H. unfold dinode_off. pose proof (Z.mod_pos_bound inum IPB ltac:(done)) as Hm.
  change IPB with 8 in *. change sizeof_dinode with 64. change BSIZE_n with 512%nat. lia.
Qed.

Lemma length_put_dinode inum d (x : block) : 0 ≤ inum → dinode_ok d → length x = BSIZE_n → length (put_dinode inum d x) = BSIZE_n.
Proof.
  intros Hi Hd Hx. unfold put_dinode. rewrite length_splice; [done|]. rewrite length_dinode_bytes, Hx by done. by apply dinode_off_range.
Qed.

Lemma get_put_eq inum d (x : block) : 0 ≤ inum → dinode_ok d → length x = BSIZE_n → get_dinode inum (put_dinode inum d x) = d.
Proof.
  intros Hi Hd Hx. unfold get_dinode, put_dinode. rewrite <- (length_dinode_bytes d Hd), slice_splice_eq; [by apply dinode_roundtrip|].
  pose proof (dinode_off_range inum Hi). lia.
Qed.

Lemma get_put_ne inum i d (x : block) :
  0 ≤ inum → 0 ≤ i → inum `mod` IPB ≠ i `mod` IPB → dinode_ok d → length x = BSIZE_n →
  get_dinode i (put_dinode inum d x) = get_dinode i x.
Proof.
  intros Hi Hj Hne Hd Hx. unfold get_dinode, put_dinode. f_equal. apply slice_splice_ne.
  - rewrite length_dinode_bytes, Hx by done. by apply dinode_off_range.
  - rewrite length_dinode_bytes by done. unfold dinode_off. pose proof (Z.mod_pos_bound inum IPB ltac:(done)).
    pose proof (Z.mod_pos_bound i IPB ltac:(done)). change sizeof_dinode with 64. lia.
Qed.

(** ** The table of inodes *)

(** The inodes [ds] are on disk, but for those that are [dirty]: changed in
    the cache and not written yet. *)
Record itable (sb : superblock) (m : gmap Z block) (ds : gmap Z dinode) (dirty : gset Z) : Prop := Itable {
  it_range inum d : ds !! inum = Some d → 0 ≤ inum;
  it_start : 0 ≤ sb_inodestart sb;
  it_place inum d : ds !! inum = Some d → inum / IPB + sb_inodestart sb < sb_bmapstart sb;
  it_dinode inum d : ds !! inum = Some d → dinode_ok d;
  it_block inum d : ds !! inum = Some d → ∃ x, m !! IBLOCK inum sb = Some x ∧ length x = BSIZE_n ∧
    (inum ∉ dirty → get_dinode inum x = d);
}.

Section itable.
Context (sb : superblock) (m : gmap Z block) (ds : gmap Z dinode) (dirty : gset Z).
Context (Hok : fs_ok sb m ds) (Hit : itable sb m ds dirty).

Lemma IBLOCK_eq inum d : ds !! inum = Some d → IBLOCK inum sb = inum / IPB + sb_inodestart sb.
Proof.
  intros Hd. unfold IBLOCK. apply u32_small. pose proof (it_place _ _ _ _ Hit inum d Hd). pose proof (it_start _ _ _ _ Hit).
  assert (0 ≤ inum / IPB) by (apply Z.div_pos; [by eapply (it_range _ _ _ _ Hit)|done]).
  destruct (fo_map Hok) as [_ Hst _]. lia.
Qed.

Lemma inode_place inum d :
  ds !! inum = Some d → IBLOCK inum sb < data_start sb ∧ ∀ g, 0 ≤ g < sb_size sb → IBLOCK inum sb ≠ BBLOCK g sb.
Proof.
  intros Hd. rewrite (IBLOCK_eq inum d) by done. pose proof (it_place _ _ _ _ Hit inum d Hd) as Hp. split.
  - unfold data_start. destruct (fo_map Hok) as [Hs _ _]. assert (0 ≤ sb_size sb / BPB) by (apply Z.div_pos; [lia|done]). lia.
  - intros g Hg. pose proof (bitmap_place sb m g (fo_map Hok) Hg). lia.
Qed.

(** Two inodes in the same block are at different places of it. *)
Lemma inode_sep i j d e : ds !! i = Some d → ds !! j = Some e → i ≠ j → IBLOCK i sb = IBLOCK j sb → i `mod` IPB ≠ j `mod` IPB.
Proof.
  intros Hd He Hne. rewrite (IBLOCK_eq i d), (IBLOCK_eq j e) by done. intros E1 E2. apply Hne.
  rewrite (Z.div_mod i IPB), (Z.div_mod j IPB) by done. rewrite E2. do 2 f_equal. lia.
Qed.

(** What iupdate writes makes the inode clean. *)
Lemma itable_put inum d x :
  ds !! inum = Some d → m !! IBLOCK inum sb = Some x →
  itable sb (<[IBLOCK inum sb := put_dinode inum d x]> m) ds (dirty ∖ {[inum]}).
Proof.
  intros Hd Hx. pose proof Hit as [H1 H2 H3 H4 H5]. split; [done..|]. intros i e He.
  destruct (H5 inum d Hd) as (x' & Hx' & Hxl & _). assert (x' = x) as -> by congruence.
  pose proof (H1 inum d Hd) as Hpos. pose proof (H4 inum d Hd) as Hdk.
  destruct (decide (IBLOCK i sb = IBLOCK inum sb)) as [E|Hne].
  - rewrite E, lookup_insert_eq. eexists. split; [done|]. split; [by apply length_put_dinode|]. intros Hcl.
    destruct (decide (i = inum)) as [->|Hi]; [rewrite get_put_eq by done; congruence|].
    rewrite (get_put_ne inum i d x Hpos (H1 i e He)); [|by apply not_eq_sym, (inode_sep i inum e d)|done|done].
    destruct (H5 i e He) as (y & Hy & _ & Hget). assert (y = x) as -> by congruence. apply Hget. set_solver.
  - rewrite lookup_insert_ne by done. destruct (H5 i e He) as (y & Hy & Hyl & Hget). exists y. split; [done|]. split; [done|].
    intros Hcl. destruct (decide (i = inum)) as [->|Hi]; [done|]. apply Hget. set_solver.
Qed.
End itable.

(** Changes of the cached inode make it dirty; blocks behind the table do not matter. *)
Lemma itable_change sb m m' ds dirty inum d d' :
  fs_ok sb m ds → itable sb m ds dirty → ds !! inum = Some d → dinode_ok d' →
  (∀ b, b < data_start sb → (∀ g, 0 ≤ g < sb_size sb → b ≠ BBLOCK g sb) → m' !! b = m !! b) →
  itable sb m' (<[inum := d']> ds) ({[inum]} ∪ dirty).
Proof.
  intros Hok Hit Hd Hd' Hlow. pose proof Hit as [H1 H2 H3 H4 H5].
  assert (∀ i e, <[inum := d']> ds !! i = Some e → ∃ e0, ds !! i = Some e0 ∧ (i = inum ∧ e = d' ∨ i ≠ inum ∧ e = e0)) as Hl.
  { intros i e. destruct (decide (i = inum)) as [->|Hi]; [rewrite lookup_insert_eq; intros [= <-]; eauto|].
    rewrite lookup_insert_ne by done. eauto. }
  split.
  - intros i e (e0 & He & _)%Hl. by eapply H1.
  - done.
  - intros i e (e0 & He & _)%Hl. by eapply H3.
  - intros i e (e0 & He & [[_ ->]|[_ ->]])%Hl; [done|by eapply H4].
  - intros i e (e0 & He & Hc)%Hl. destruct (inode_place sb m ds dirty Hok Hit i e0 He) as [P1 P2]. rewrite Hlow by done.
    destruct (H5 i e0 He) as (x & Hx & Hxl & Hg). exists x. split; [done|]. split; [done|].
    destruct Hc as [[-> ->]|[Hne ->]]; [set_solver|]. intros Hn. apply Hg. set_solver.
Qed.

(** Nothing becomes dirty if the inode is the same. *)
Lemma itable_frame sb m m' ds dirty :
  fs_ok sb m ds → itable sb m ds dirty →
  (∀ b, b < data_start sb → (∀ g, 0 ≤ g < sb_size sb → b ≠ BBLOCK g sb) → m' !! b = m !! b) →
  itable sb m' ds dirty.
Proof.
  intros Hok Hit Hlow. pose proof Hit as [H1 H2 H3 H4 H5]. split; [done..|]. intros i e He.
  destruct (inode_place sb m ds dirty Hok Hit i e He) as [P1 P2]. rewrite Hlow by done. by apply H5.
Qed.

Section iupdate.
Context {S : Type} `{!Txn S}.
Implicit Types (sb : superblock) (ic : list inode) (t : S) (v : tview).

(** The view after iupdate. *)
Definition iupdate_view sb (i : inode) v : tview :=
  update (IBLOCK (i_inum i) sb)
    (put_dinode (i_inum i) (i_d i) (default [] (t_blocks v !! IBLOCK (i_inum i) sb))) v.

Lemma iupdate_ok ip i sb ic t v ds dirty :
  at_inode sb ic t v ds ip i → itable sb (t_blocks v) ds dirty → can_log (IBLOCK (i_inum i) sb) v →
  ∃ t', iupdate ip (FState sb ic t) = Ok tt (FState sb ic t') ∧
    at_inode sb ic t' (iupdate_view sb i v) ds ip i ∧
    itable sb (t_blocks (iupdate_view sb i v)) ds (dirty ∖ {[i_inum i]}) ∧
    ∀ j e, ds !! j = Some e → content (t_blocks (iupdate_view sb i v)) e = content (t_blocks v) e.
Proof.
  intros [Hr Hh Hp Hok Hd Hi Hdev] Hit Hl. destruct (it_block _ _ _ _ Hit _ _ Hd) as (x & Hx & Hxl & _).
  destruct (inode_place sb _ ds dirty Hok Hit _ _ Hd) as [P1 P2].
  unfold iupdate. rewrite (ino_step _ ip i sb ic t Hi), gets_step. cbn [f_sb]. rewrite Hdev.
  destruct (tx_bread_ok sb ic t v _ Hr (can_read_empty _ _ _ Hh Hx)) as (bp & t1 & E1 & Hr1 & Hbp & Hbp1). mstep E1.
  rewrite (data_step _ sb ic t1 _ bp _ x Hr1 Hbp1 Hx).
  destruct (log_step (tx (t_brelse bp)) sb ic t1 _ bp _ (put_dinode (i_inum i) (i_d i) x) Hr1 Hbp1) as (t2 & E2 & Hr2);
    [cbn; rewrite Hp; set_solver|done|]. rewrite E2.
  destruct (brelse_last sb ic t2 _ bp _ Hr2 Hbp1) as (t3 & E3 & Hr3); [cbn; rewrite Hp; set_solver|].
  rewrite update_hold, unhold_hold in Hr3 by done. exists t3. split; [done|]. unfold iupdate_view. rewrite Hx. cbn [from_option id].
  split; [|split].
  - split; [done|done|done|by apply meta_ok|done..].
  - by apply itable_put.
  - intros j e He. by apply (meta_content sb _ ds _ _ Hok P1 j e).
Qed.
End iupdate.

(** Writing an inode does not touch the free map. *)
Lemma iupdate_free sb i v :
  (∀ g, 0 ≤ g < sb_size sb → IBLOCK (i_inum i) sb ≠ BBLOCK g sb) →
  free_blocks sb (t_blocks (iupdate_view sb i v)) = free_blocks sb (t_blocks v).
Proof.
  intros Hpl. apply set_eq. intros g. rewrite !elem_of_free.
  assert (0 ≤ g < sb_size sb → used sb (t_blocks (iupdate_view sb i v)) g = used sb (t_blocks v) g) as Eu by (intros Hg; by apply used_other, Hpl).
  split; intros [Hg Hu]; (split; [done|]); [by rewrite <- Eu|by rewrite Eu].
Qed.
