(* ===== verification/FsIcache.v ===== *)
(** * The file system: the inode cache

    [icache_ok] relates the cache to the inodes of the file system: an inode
    is in at most one slot that is in use, and what a valid slot holds is the
    inode.  [refs] is what the cache means to its clients, the number of
    references to each inode; iget, idup and iput add and take one away, and
    a slot stays where it is as long as there are references to it. *)

From S2P Require Import Prelude Params Disk Superblock Txn Fs FsBlocks FsInode FsBmap FsDinode.

Record icache_ok (ic : list inode) (ds : gmap Z dinode) : Prop := IcacheOk {
  co_ref ip i : ic !! ip = Some i → 0 ≤ i_ref i;
  co_dev ip i : ic !! ip = Some i → 0 < i_ref i → i_dev i = ROOTDEV ∧ is_Some (ds !! i_inum i);
  co_uniq ip jp i j : ic !! ip = Some i → ic !! jp = Some j → 0 < i_ref i → 0 < i_ref j → i_inum i = i_inum j → ip = jp;
  co_valid ip i : ic !! ip = Some i → 0 < i_ref i → iflag i I_VALID = true → ds !! i_inum i = Some (i_d i);
}.
#[global] Arguments co_ref {_ _}.
#[global] Arguments co_dev {_ _}.
#[global] Arguments co_uniq {_ _}.
#[global] Arguments co_valid {_ _}.

(** ** References *)

Definition refs (ic : list inode) : gmap Z Z :=
  list_to_map ((λ i, (i_inum i, i_ref i)) <$> filter (λ i, 0 < i_ref i) ic).

Definition incr (inum : Z) (r : gmap Z Z) : gmap Z Z := <[inum := default 0 (r !! inum) + 1]> r.
Definition decr (inum : Z) (r : gmap Z Z) : gmap Z Z :=
  if default 0 (r !! inum) =? 1 then delete inum r else <[inum := default 0 (r !! inum) - 1]> r.

Lemma refs_keys ic ds : icache_ok ic ds → NoDup ((λ i, (i_inum i, i_ref i)) <$> filter (λ i, 0 < i_ref i) ic).*1.
Proof.
  intros Hic. rewrite <- list_fmap_compose. pose proof (co_uniq Hic) as Hu. clear Hic. induction ic as [|i ic IH]; [constructor|].
  assert (NoDup (fst ∘ (λ i, (i_inum i, i_ref i)) <$> filter (λ i, 0 < i_ref i) ic)) as IH'.
  { apply IH. intros ip jp x y Hx Hy. intros. assert (S ip = S jp) as E by (by eapply Hu). lia. }
  rewrite filter_cons. destruct (decide (0 < i_ref i)) as [Hi|Hi]; [|done]. rewrite fmap_cons, NoDup_cons. split; [|done].
  rewrite list_elem_of_fmap. intros (j & E & [Hj Hin]%list_elem_of_filter). apply list_elem_of_lookup in Hin as [jp Hjp].
  by pose proof (Hu 0%nat (S jp) i j eq_refl Hjp Hi Hj E).
Qed.

Lemma refs_lookup ic ds j n :
  icache_ok ic ds → refs ic !! j = Some n ↔ ∃ ip i, ic !! ip = Some i ∧ 0 < i_ref i ∧ i_inum i = j ∧ i_ref i = n.
Proof.
  intros Hic. unfold refs. rewrite <- elem_of_list_to_map by (by eapply refs_keys). rewrite list_elem_of_fmap. split.
  - intros (i & [= -> ->] & [Hi Hin]%list_elem_of_filter). apply list_elem_of_lookup in Hin as [ip Hip]. by exists ip, i.
  - intros (ip & i & Hip & Hi & <- & <-). exists i. split; [done|]. apply list_elem_of_filter. split; [done|]. by eapply list_elem_of_lookup_2.
Qed.

Lemma refs_slot ic ds ip i : icache_ok ic ds → ic !! ip = Some i → 0 < i_ref i → refs ic !! i_inum i = Some (i_ref i).
Proof. intros Hic Hip Hi. eapply refs_lookup; [done|]. by exists ip, i. Qed.

Lemma refs_none ic ds j : icache_ok ic ds → refs ic !! j = None ↔ ∀ ip i, ic !! ip = Some i → 0 < i_ref i → i_inum i ≠ j.
Proof.
  intros Hic. split.
  - intros Hn ip i Hip Hi E. rewrite <- E, (refs_slot ic ds ip i) in Hn by done. done.
  - intros H. destruct (refs ic !! j) as [n|] eqn:E; [|done]. apply (refs_lookup ic ds) in E as (ip & i & Hip & Hi & Ej & _); [|done].
    by destruct (H ip i Hip Hi).
Qed.

(** A slot is free when there are fewer inodes in use than slots. *)
Lemma refs_free ic ds : icache_ok ic ds → (size (refs ic) < length ic)%nat → ∃ ip i, ic !! ip = Some i ∧ i_ref i = 0.
Proof.
  intros Hic Hs. destruct (decide (Exists (λ i, i_ref i = 0) ic)) as [He|Hne].
  - apply Exists_exists in He as (i & Hin & E). apply list_elem_of_lookup in Hin as [ip Hip]. by exists ip, i.
  - exfalso. unfold refs in Hs. rewrite map_size_list_to_map, length_fmap in Hs by (by eapply refs_keys).
    assert (filter (λ i, 0 < i_ref i) ic = ic) as E; [|rewrite E in Hs; lia].
    assert (Forall (λ i, 0 < i_ref i) ic) as Hall.
    { apply Forall_lookup. intros ip i Hip. pose proof (co_ref Hic ip i Hip).
      destruct (decide (i_ref i = 0)); [|lia]. exfalso. apply Hne, Exists_exists. exists i. split; [by eapply list_elem_of_lookup_2|done]. }
    clear -Hall. induction Hall as [|i ic Hi _ IH]; [done|]. rewrite filter_cons_True by done. by rewrite IH.
Qed.

(** ** Changing one slot *)

Lemma slot_ok ic ds ip i i' :
  icache_ok ic ds → ic !! ip = Some i → 0 ≤ i_ref i' →
  (0 < i_ref i' → i_dev i' = ROOTDEV ∧ is_Some (ds !! i_inum i') ∧ (iflag i' I_VALID = true → ds !! i_inum i' = Some (i_d i')) ∧
    (0 < i_ref i ∧ i_inum i' = i_inum i ∨ refs ic !! i_inum i' = None)) →
  icache_ok (<[ip := i']> ic) ds.
Proof.
  intros Hic Hip H0 H1. assert (ip < length ic)%nat as Hlt by (by eapply lookup_lt_Some).
  assert (0 < i_ref i' → ∀ jp j, jp ≠ ip → ic !! jp = Some j → 0 < i_ref j → i_inum j ≠ i_inum i') as Hother.
  { intros Hpos jp j Hne Hjp Hj E. destruct (H1 Hpos) as (_ & _ & _ & [[Hi Ei]|Hn]).
    - apply Hne. apply (co_uniq Hic jp ip j i); congruence || done.
    - by destruct (proj1 (refs_none ic ds _ Hic) Hn jp j Hjp Hj). }
  split.
  - intros jp j. destruct (decide (jp = ip)) as [->|]; [rewrite list_lookup_insert_eq by done; by intros [= <-]|].
    rewrite list_lookup_insert_ne by done. apply (co_ref Hic).
  - intros jp j. destruct (decide (jp = ip)) as [->|]; [rewrite list_lookup_insert_eq by done; intros [= <-]; naive_solver|].
    rewrite list_lookup_insert_ne by done. apply (co_dev Hic).
  - intros jp kp j k. destruct (decide (jp = ip)) as [->|], (decide (kp = ip)) as [->|]; rewrite ?list_lookup_insert_eq, ?list_lookup_insert_ne by done.
    + done.
    + intros [= <-] Hk Hj1 Hk1 E. by destruct (Hother Hj1 kp k).
    + intros Hj [= <-] Hj1 Hk1 E. by destruct (Hother Hk1 jp j).
    + apply (co_uniq Hic).
  - intros jp j. destruct (decide (jp = ip)) as [->|]; [rewrite list_lookup_insert_eq by done; intros [= <-]; naive_solver|].
    rewrite list_lookup_insert_ne by done. apply (co_valid Hic).
Qed.

Lemma refs_insert ic ds ip i i' j :
  icache_ok ic ds → icache_ok (<[ip := i']> ic) ds → ic !! ip = Some i →
  refs (<[ip := i']> ic) !! j =
    if decide (0 < i_ref i' ∧ i_inum i' = j) then Some (i_ref i')
    else if decide (0 < i_ref i ∧ i_inum i = j) then None else refs ic !! j.
Proof.
  intros Hic Hic' Hip. assert (ip < length ic)%nat as Hlt by (by eapply lookup_lt_Some).
  assert (<[ip := i']> ic !! ip = Some i') as Hip' by (by apply list_lookup_insert_eq).
  destruct (decide (0 < i_ref i' ∧ i_inum i' = j)) as [[Hi <-]|Hn1]; [by apply (refs_slot _ ds ip)|].
  destruct (decide (0 < i_ref i ∧ i_inum i = j)) as [[Hi <-]|Hn2].
  - apply (refs_none _ ds); [done|]. intros kp k. destruct (decide (kp = ip)) as [->|Hne].
    + rewrite Hip'. intros [= <-]. naive_solver.
    + rewrite list_lookup_insert_ne by done. intros Hk Hkr E. apply Hne. by apply (co_uniq Hic kp ip k i).
  - apply option_eq. intros n. rewrite !(refs_lookup _ ds) by done. split; intros (kp & k & Hk & Hkr & Ej & En); exists kp, k.
    + destruct (decide (kp = ip)) as [->|Hne]; [naive_solver|]. by rewrite list_lookup_insert_ne in Hk.
    + destruct (decide (kp = ip)) as [->|Hne]; [naive_solver|]. by rewrite list_lookup_insert_ne.
Qed.

(** A change that keeps the inode and the number of references. *)
Lemma refs_same ic ds ip i i' :
  icache_ok ic ds → icache_ok (<[ip := i']> ic) ds → ic !! ip = Some i → i_inum i' = i_inum i → i_ref i' = i_ref i →
  refs (<[ip := i']> ic) = refs ic.
Proof.
  intros Hic Hic' Hip E1 E2. apply map_eq. intros j. rewrite (refs_insert ic ds ip i) by done. rewrite E1, E2.
  destruct (decide _) as [[Hi <-]|]; [|done]. symmetry. by apply (refs_slot _ ds ip).
Qed.

Lemma refs_incr ic ds ip i i' :
  icache_ok ic ds → icache_ok (<[ip := i']> ic) ds → ic !! ip = Some i →
  (0 < i_ref i ∧ i_inum i' = i_inum i ∧ i_ref i' = i_ref i + 1 ∨ ¬ 0 < i_ref i ∧ i_ref i' = 1 ∧ refs ic !! i_inum i' = None) →
  refs (<[ip := i']> ic) = incr (i_inum i') (refs ic).
Proof.
  intros Hic Hic' Hip H. apply map_eq. intros j. rewrite (refs_insert ic ds ip i) by done. unfold incr.
  destruct (decide (j = i_inum i')) as [->|Hne].
  - rewrite lookup_insert_eq. destruct H as [(Hi & E1 & E2)|(Hi & E1 & E2)].
    + rewrite decide_True by (split; [lia|done]). rewrite E1, (refs_slot ic ds ip i) by done. cbn. by rewrite E2.
    + rewrite decide_True by (split; [lia|done]). rewrite E2. cbn. by rewrite E1.
  - rewrite lookup_insert_ne by done. rewrite decide_False by naive_solver. rewrite decide_False; [done|]. naive_solver.
Qed.

Lemma refs_decr ic ds ip i i' :
  icache_ok ic ds → icache_ok (<[ip := i']> ic) ds → ic !! ip = Some i →
  0 < i_ref i → i_inum i' = i_inum i → i_ref i' = i_ref i - 1 →
  refs (<[ip := i']> ic) = decr (i_inum i) (refs ic).
Proof.
  intros Hic Hic' Hip Hi E1 E2. apply map_eq. intros j. rewrite (refs_insert ic ds ip i) by done. unfold decr.
  rewrite (refs_slot ic ds ip i) by done. cbn [from_option id]. rewrite E1, E2.
  destruct (decide (j = i_inum i)) as [->|Hne].
  - destruct (Z.eqb_spec (i_ref i) 1) as [E|E].
    + rewrite lookup_delete_eq, decide_False by lia. by rewrite decide_True.
    + rewrite lookup_insert_eq. by rewrite decide_True by lia.
  - rewrite decide_False, decide_False by naive_solver.
    destruct (i_ref i =? 1); [by rewrite lookup_delete_ne|by rewrite lookup_insert_ne].
Qed.

(** References are counted from 1. *)
Lemma refs_pos ic ds j n : icache_ok ic ds → refs ic !! j = Some n → 0 < n.
Proof. intros Hic (ip & i & _ & Hi & _ & <-)%(refs_lookup ic ds); done. Qed.

Lemma decr_incr (r : gmap Z Z) j : (∀ n, r !! j = Some n → 0 < n) → decr j (incr j r) = r.
Proof.
  intros Hpos. unfold decr, incr. rewrite lookup_insert_eq. cbn [from_option id]. destruct (r !! j) as [n|] eqn:E; cbn [from_option id].
  - specialize (Hpos n eq_refl). rewrite (proj2 (Z.eqb_neq (n + 1) 1)) by lia. rewrite insert_insert_eq, Z.add_simpl_r. by apply insert_id.
  - by rewrite delete_insert_id.
Qed.

Lemma incr_comm (r : gmap Z Z) j k : incr j (incr k r) = incr k (incr j r).
Proof.
  destruct (decide (j = k)) as [->|Hne]; [done|]. unfold incr. rewrite !lookup_insert_ne by done. by apply insert_insert_ne.
Qed.

Lemma incr_pos (r : gmap Z Z) j k n : (∀ n, r !! k = Some n → 0 < n) → incr j r !! k = Some n → 0 < n.
Proof.
  intros Hpos. unfold incr. destruct (decide (j = k)) as [->|Hne]; [|rewrite lookup_insert_ne by done; apply Hpos].
  rewrite lookup_insert_eq. intros [= <-]. destruct (r !! k) as [m|] eqn:E; cbn; [|lia]. specialize (Hpos m eq_refl). lia.
Qed.

Lemma size_incr (r : gmap Z Z) j : (size (incr j r) ≤ S (size r))%nat.
Proof. unfold incr. rewrite map_size_insert. destruct (r !! j); unfold id; lia. Qed.

(** ** Slots that stay *)

(** Every slot that was in use is in use and has the same inode. *)
Definition slots_kept (ic ic' : list inode) : Prop :=
  ∀ ip i, ic !! ip = Some i → 0 < i_ref i → ∃ i', ic' !! ip = Some i' ∧ 0 < i_ref i' ∧ i_inum i' = i_inum i.

Lemma slots_kept_refl ic : slots_kept ic ic.
Proof. intros ip i Hip Hi. by exists i. Qed.

Lemma slots_kept_trans ic1 ic2 ic3 : slots_kept ic1 ic2 → slots_kept ic2 ic3 → slots_kept ic1 ic3.
Proof. intros H1 H2 ip i Hip Hi. destruct (H1 ip i Hip Hi) as (i2 & Hi2 & Hr2 & E2). destruct (H2 ip i2 Hi2 Hr2) as (i3 & ? & ? & ?). exists i3. naive_solver congruence. Qed.

Lemma slots_kept_insert ic0 ic ip i i' :
  slots_kept ic0 ic → ic !! ip = Some i →
  0 < i_ref i' ∧ (0 < i_ref i → i_inum i' = i_inum i) ∨ (∀ i0, ic0 !! ip = Some i0 → ¬ 0 < i_ref i0) →
  slots_kept ic0 (<[ip := i']> ic).
Proof.
  intros Hk Hip H jp j Hjp Hj. destruct (Hk jp j Hjp Hj) as (k & Hkp & Hkr & Ek). destruct (decide (jp = ip)) as [->|Hne].
  - rewrite list_lookup_insert_eq by (by eapply lookup_lt_Some). destruct H as [[H1 H2]|H]; [|by destruct (H j)].
    assert (k = i) as -> by congruence. exists i'. split; [done|]. split; [done|]. rewrite H2 by done. done.
  - rewrite list_lookup_insert_ne by done. by exists k.
Qed.

(** ** Flags *)

Lemma iflag_or i f k : is_flag f = true → is_flag k = true → iflag (set_iflags (Z.lor (i_flags i) f) i) k = (f =? k) || iflag i k.
Proof. apply flag_or. Qed.

Lemma iflag_clear i f k :
  is_flag f = true → is_flag k = true → iflag (set_iflags (Z.land (i_flags i) (Z.lnot f)) i) k = negb (f =? k) && iflag i k.
Proof. apply flag_clear. Qed.

(** No inode is locked, but perhaps that of slot [ip]. *)
Definition quiet_but (ic : list inode) (ip : option nat) : Prop :=
  ∀ jp j, ic !! jp = Some j → 0 < i_ref j → Some jp ≠ ip → iflag j I_BUSY = false.

Lemma quiet_but_insert ic ip jp j j' :
  quiet_but ic ip → ic !! jp = Some j → Some jp = ip ∨ iflag j' I_BUSY = false → quiet_but (<[jp := j']> ic) ip.
Proof.
  intros Hq Hjp H kp k. destruct (decide (kp = jp)) as [->|Hne].
  - rewrite list_lookup_insert_eq by (by eapply lookup_lt_Some). intros [= <-]. naive_solver.
  - rewrite list_lookup_insert_ne by done. apply Hq.
Qed.

Lemma quiet_lock ic ip : quiet_but ic None → quiet_but ic (Some ip).
Proof. intros H jp j Hj Hr _. by apply (H jp). Qed.

Lemma quiet_unlock ic ip i : quiet_but ic (Some ip) → ic !! ip = Some i → iflag i I_BUSY = false → quiet_but ic None.
Proof.
  intros H Hi Hb jp j Hj Hr _. destruct (decide (jp = ip)) as [->|Hne]; [congruence|]. apply (H jp); congruence || done.
Qed.

(** ** The operations *)

(** The state between the calls of fs.c: the disk holds the inodes [ds], and
    the cache agrees with it. *)
Record fs_rep {S} `{!Txn S} (sb : superblock) (ic : list inode) (t : S) (v : tview) (ds : gmap Z dinode) : Prop := FsRep {
  fr_rep : trep t v;
  fr_held : t_held v = ∅;
  fr_pending : t_pending v = ∅;
  fr_ok : fs_ok sb (t_blocks v) ds;
  fr_table : itable sb (t_blocks v) ds ∅;
  fr_cache : icache_ok ic ds;
  fr_type inum d : ds !! inum = Some d → d_type d ≠ 0;
}.
#[global] Arguments fr_rep {_ _ _ _ _ _ _}.
#[global] Arguments fr_held {_ _ _ _ _ _ _}.
#[global] Arguments fr_pending {_ _ _ _ _ _ _}.
#[global] Arguments fr_ok {_ _ _ _ _ _ _}.
#[global] Arguments fr_table {_ _ _ _ _ _ _}.
#[global] Arguments fr_cache {_ _ _ _ _ _ _}.
#[global] Arguments fr_type {_ _ _ _ _ _ _}.

(** What is in one slot: an inode in use, and what it is. *)
Record slot (ic : list inode) (ip : nat) (inum : Z) (i : inode) : Prop := Slot {
  sl_at : ic !! ip = Some i;
  sl_ref : 0 < i_ref i;
  sl_inum : i_inum i = inum;
}.

(** A locked slot holds the inode. *)
Record locked (ic : list inode) (ip : nat) (inum : Z) (i : inode) : Prop := Locked {
  lk_slot : slot ic ip inum i;
  lk_busy : iflag i I_BUSY = true;
  lk_valid : iflag i I_VALID = true;
}.

Section ops.
Context {S : Type} `{!Txn S}.
Implicit Types (sb : superblock) (ic : list inode) (t : S) (v : tview).

Lemma upd_ino_step {A} (g : inode → inode) (k : M (fstate S) A) ip i sb ic t :
  ic !! ip = Some i → (upd_ino ip g;; k) (FState sb ic t) = k (FState sb (<[ip := g i]> ic) t).
Proof. intros H. unfold mbind, M_bind, upd_ino. cbn [f_sb f_icache f_tx]. do 2 f_equal. by apply alter_insert_some. Qed.

Lemma upd_ino_ok (g : inode → inode) ip i sb ic t :
  ic !! ip = Some i → upd_ino ip g (FState sb ic t) = Ok tt (FState sb (<[ip := g i]> ic) t).
Proof. intros H. unfold upd_ino. cbn [f_sb f_icache f_tx]. do 2 f_equal. by apply alter_insert_some. Qed.

Lemma fs_rep_cache sb ic ic' t v ds : fs_rep sb ic t v ds → icache_ok ic' ds → fs_rep sb ic' t v ds.
Proof. intros [H1 H2 H3 H4 H5 _ H7] H. by split. Qed.

Lemma fs_rep_tx sb ic t t' v ds : fs_rep sb ic t v ds → trep t' v → fs_rep sb ic t' v ds.
Proof. intros [_ H2 H3 H4 H5 H6 H7] H. by split. Qed.

(** *** iget *)

Lemma iget_scan_ok dev inum c k e :
  match iget_scan dev inum c k e with
  | inl ip => ∃ i, c !! (ip - k)%nat = Some i ∧ (k ≤ ip)%nat ∧ 0 < i_ref i ∧ i_dev i = dev ∧ i_inum i = inum
  | inr r => (∀ p i, c !! p = Some i → ¬ (0 < i_ref i ∧ i_dev i = dev ∧ i_inum i = inum)) ∧
      match r with
      | Some ip => e = Some ip ∨ ∃ i, c !! (ip - k)%nat = Some i ∧ (k ≤ ip)%nat ∧ i_ref i = 0
      | None => e = None ∧ ∀ p i, c !! p = Some i → i_ref i ≠ 0
      end
  end.
Proof.
  revert k e. induction c as [|i c IH]; intros k e; cbn [iget_scan].
  { split; [done|]. destruct e; [by left|done]. }
  destruct ((0 <? i_ref i) && (i_dev i =? dev) && (i_inum i =? inum)) eqn:E.
  { apply andb_true_iff in E as [[E1%Z.ltb_lt E2%Z.eqb_eq]%andb_true_iff E3%Z.eqb_eq]. exists i. by rewrite Nat.sub_diag. }
  assert (¬ (0 < i_ref i ∧ i_dev i = dev ∧ i_inum i = inum)) as Hne.
  { intros (H1%Z.ltb_lt & H2%Z.eqb_eq & H3%Z.eqb_eq). by rewrite H1, H2, H3 in E. }
  specialize (IH (Datatypes.S k) (match e with None => if i_ref i =? 0 then Some k else None | Some _ => e end)).
  destruct (iget_scan _ _ _ _ _) as [ip|r].
  { destruct IH as (j & Hj & Hk & H). exists j. split; [|split; [lia|done]].
    by replace (ip - k)%nat with (Datatypes.S (ip - Datatypes.S k)) by lia. }
  destruct IH as [Hno Hr]. split; [intros [|p] j; cbn; [by intros [= <-]|apply Hno]|].
  destruct r as [ip|].
  - destruct Hr as [He|(j & Hj & Hk & H0)].
    + destruct e as [e|]; [by left|]. destruct (Z.eqb_spec (i_ref i) 0); [|done]. injection He as <-. right. exists i.
      rewrite Nat.sub_diag. done.
    + right. exists j. split; [|split; [lia|done]]. by replace (ip - k)%nat with (Datatypes.S (ip - Datatypes.S k)) by lia.
  - destruct Hr as [He Hr]. destruct e as [e|]; [done|]. destruct (Z.eqb_spec (i_ref i) 0); [done|]. split; [done|].
    intros [|p] j; cbn; [by intros [= <-]|apply Hr].
Qed.

(** What iget does: the slot it returns has one reference more. *)
Record got ic ic' ip (inum : Z) : Prop := Got {
  gt_refs : refs ic' = incr inum (refs ic);
  gt_kept : slots_kept ic ic';
  gt_len : length ic' = length ic;
  gt_quiet kp : quiet_but ic kp → quiet_but ic' kp;
  gt_slot : ∃ i, slot ic' ip inum i;
  gt_same jp j : ic !! jp = Some j → 0 < i_ref j →
    ic' !! jp = Some (if decide (jp = ip) then set_iref (i_ref j + 1) j else j);
}.

Lemma iget_found sb ic t v ds ip i :
  fs_rep sb ic t v ds → slot ic ip (i_inum i) i →
  let ic' := <[ip := set_iref (i_ref i + 1) i]> ic in fs_rep sb ic' t v ds ∧ got ic ic' ip (i_inum i).
Proof.
  intros Hfs [Hip Hi _] ic'. pose proof (fr_cache Hfs) as Hic. assert (ip < length ic)%nat as Hlt by (by eapply lookup_lt_Some).
  assert (icache_ok ic' ds) as Hic'.
  { apply (slot_ok ic ds ip i); [done..|cbn; lia|]. intros _. destruct (co_dev Hic ip i Hip Hi) as [H1 H2]. split; [done|]. split; [done|].
    split; [exact (co_valid Hic ip i Hip Hi)|]. by left. }
  split; [by eapply fs_rep_cache|]. split.
  - refine (refs_incr ic ds ip i (set_iref (i_ref i + 1) i) Hic Hic' Hip _). by left.
  - eapply slots_kept_insert; [apply slots_kept_refl|done|]. left. split; [cbn; lia|by intros _].
  - apply length_insert.
  - intros kp Hq. eapply quiet_but_insert; [done|done|]. destruct (decide (Some ip = kp)) as [|Hne]; [by left|]. right.
    exact (Hq ip i Hip Hi Hne).
  - eexists. split; [by apply list_lookup_insert_eq|cbn; lia|done].
  - intros jp j Hj Hr. subst ic'. destruct (decide (jp = ip)) as [->|Hne]; [|by rewrite list_lookup_insert_ne].
    rewrite list_lookup_insert_eq by done. congruence.
Qed.

Lemma iget_fresh sb ic t v ds ip i inum :
  fs_rep sb ic t v ds → ic !! ip = Some i → i_ref i = 0 → refs ic !! inum = None → is_Some (ds !! inum) →
  let ic' := <[ip := Inode ROOTDEV inum 1 0 (i_d i)]> ic in fs_rep sb ic' t v ds ∧ got ic ic' ip inum.
Proof.
  intros Hfs Hip Hi Hn Hds ic'. pose proof (fr_cache Hfs) as Hic. assert (ip < length ic)%nat as Hlt by (by eapply lookup_lt_Some).
  assert (icache_ok ic' ds) as Hic'.
  { apply (slot_ok ic ds ip i); [done..|]. intros _. split; [done|]. split; [done|]. split; [done|]. by right. }
  split; [by eapply fs_rep_cache|]. split.
  - refine (refs_incr ic ds ip i (Inode ROOTDEV inum 1 0 (i_d i)) Hic Hic' Hip _). right. split; [lia|done].
  - eapply slots_kept_insert; [apply slots_kept_refl|done|]. right. intros i0 Hi0. assert (i0 = i) as -> by congruence. lia.
  - apply length_insert.
  - intros kp Hq. eapply quiet_but_insert; [done|done|]. by right.
  - eexists. split; [by apply list_lookup_insert_eq|done|done].
  - intros jp j Hj Hr. subst ic'. destruct (decide (jp = ip)) as [->|Hne]; [|by rewrite list_lookup_insert_ne].
    assert (j = i) as -> by congruence. lia.
Qed.

Lemma iget_ok sb ic t v ds inum :
  fs_rep sb ic t v ds → is_Some (ds !! inum) → (size (refs ic) < length ic)%nat →
  ∃ ip ic', iget ROOTDEV inum (FState sb ic t) = Ok ip (FState sb ic' t) ∧ fs_rep sb ic' t v ds ∧ got ic ic' ip inum.
Proof.
  intros Hfs Hds Hsz. pose proof (fr_cache Hfs) as Hic. unfold iget. rewrite gets_step. cbn [f_icache].
  pose proof (iget_scan_ok ROOTDEV inum ic 0 None) as Hscan. destruct (iget_scan ROOTDEV inum ic 0 None) as [ip|r].
  - destruct Hscan as (i & Hip & _ & Hi & _ & <-). rewrite Nat.sub_0_r in Hip. rewrite (upd_ino_step _ _ ip i sb ic t Hip).
    destruct (iget_found sb ic t v ds ip i Hfs) as [H1 H2]; [done|]. eexists ip, _. split; [done|]. split; [exact H1|exact H2].
  - destruct Hscan as [Hno Hr].
    assert (refs ic !! inum = None) as Hn.
    { apply (refs_none ic ds); [done|]. intros p i Hp Hi E. apply (Hno p i Hp). split; [done|]. split; [|done]. by apply (co_dev Hic p). }
    destruct r as [ip|].
    + destruct Hr as [|(i & Hip & _ & Hi)]; [done|]. rewrite Nat.sub_0_r in Hip. rewrite (upd_ino_step _ _ ip i sb ic t Hip).
      destruct (iget_fresh sb ic t v ds ip i inum Hfs Hip Hi Hn Hds) as [H1 H2]. eexists ip, _. split; [done|]. split; [exact H1|exact H2].
    + destruct (refs_free ic ds Hic Hsz) as (ip & i & Hip & Hi). destruct Hr as [_ Hr]. by destruct (Hr ip i Hip).
Qed.

(** All slots in use: iget panics. *)
Lemma iget_full sb ic t v ds inum :
  fs_rep sb ic t v ds → refs ic !! inum = None → size (refs ic) = length ic → iget ROOTDEV inum (FState sb ic t) = Panic "iget: no inodes".
Proof.
  intros Hfs Hn Hsz. pose proof (fr_cache Hfs) as Hic. unfold iget. rewrite gets_step. cbn [f_icache].
  pose proof (iget_scan_ok ROOTDEV inum ic 0 None) as Hscan. destruct (iget_scan ROOTDEV inum ic 0 None) as [ip|r].
  - destruct Hscan as (i & Hip & _ & Hi & _ & E). by destruct (proj1 (refs_none ic ds inum Hic) Hn _ i Hip Hi).
  - destruct Hscan as [_ Hr]. destruct r as [ip|]; [|done]. exfalso. destruct Hr as [|(i & Hip & _ & Hi)]; [done|].
    unfold refs in Hsz. rewrite map_size_list_to_map, length_fmap in Hsz by (by eapply refs_keys).
    assert (length (filter (λ i, (0 < i_ref i)%Z) ic) < length ic)%nat; [|lia].
    apply (length_filter_lt _ ic i); [by eapply list_elem_of_lookup_2|lia].
Qed.

(** *** idup *)

Lemma idup_ok sb ic t v ds ip inum i :
  fs_rep sb ic t v ds → slot ic ip inum i →
  ∃ ic', idup ip (FState sb ic t) = Ok ip (FState sb ic' t) ∧ fs_rep sb ic' t v ds ∧ got ic ic' ip inum.
Proof.
  intros Hfs [Hip Hi <-]. destruct (iget_found sb ic t v ds ip i Hfs) as [H1 H2]; [done|]. eexists. split; [|split; [exact H1|exact H2]].
  unfold idup. by rewrite (upd_ino_step _ _ ip i sb ic t Hip).
Qed.

(** *** ilock *)

(** A change of slot [ip] that keeps the inode and the references. *)
Lemma fs_rep_slot sb ic t v ds ip i i' :
  fs_rep sb ic t v ds → slot ic ip (i_inum i) i → i_dev i' = i_dev i → i_inum i' = i_inum i → i_ref i' = i_ref i →
  (iflag i' I_VALID = true → ds !! i_inum i' = Some (i_d i')) →
  fs_rep sb (<[ip := i']> ic) t v ds ∧ refs (<[ip := i']> ic) = refs ic ∧ slots_kept ic (<[ip := i']> ic) ∧ slot (<[ip := i']> ic) ip (i_inum i) i'.
Proof.
  intros Hfs [Hip Hi _] E1 E2 E3 Hv. pose proof (fr_cache Hfs) as Hic. destruct (co_dev Hic ip i Hip Hi) as [H1 H2].
  assert (icache_ok (<[ip := i']> ic) ds) as Hic'.
  { apply (slot_ok ic ds ip i); [done|done|lia|]. intros _. split; [congruence|]. split; [congruence|]. split; [done|]. by left. }
  split; [by eapply fs_rep_cache|]. split; [by apply (refs_same ic ds ip i)|]. split.
  - eapply slots_kept_insert; [apply slots_kept_refl|done|]. left. split; [lia|done].
  - split; [apply list_lookup_insert_eq; by eapply lookup_lt_Some|lia|done].
Qed.

Lemma ilock_ok sb ic t v ds ip inum i d :
  fs_rep sb ic t v ds → slot ic ip inum i → iflag i I_BUSY = false → ds !! inum = Some d →
  ∃ i' t', ilock (Some ip) (FState sb ic t) = Ok tt (FState sb (<[ip := i']> ic) t') ∧
    fs_rep sb (<[ip := i']> ic) t' v ds ∧ locked (<[ip := i']> ic) ip inum i' ∧ i_d i' = d ∧
    refs (<[ip := i']> ic) = refs ic ∧ slots_kept ic (<[ip := i']> ic).
Proof.
  intros Hfs Hsl Hb Hd. pose proof Hsl as [Hip Hi <-]. destruct (co_dev (fr_cache Hfs) ip i Hip Hi) as [Hdev _].
  unfold ilock. rewrite (ino_step _ ip i sb ic t Hip), (proj2 (Z.ltb_ge (i_ref i) 1)) by lia. rewrite Hb.
  rewrite (upd_ino_step _ _ ip i sb ic t Hip). set (i1 := set_iflags (Z.lor (i_flags i) I_BUSY) i).
  assert (<[ip := i1]> ic !! ip = Some i1) as Hip1 by (apply list_lookup_insert_eq; by eapply lookup_lt_Some).
  destruct (iflag i I_VALID) eqn:Ev; cbn [negb].
  - destruct (fs_rep_slot sb ic t v ds ip i i1 Hfs Hsl) as (F1 & F2 & F3 & F4); [done..| |].
    { intros _. by apply (co_valid (fr_cache Hfs) ip i). }
    exists i1, t. split; [done|]. split; [done|]. split; [|split; [|done]].
    + split; [done|by apply (iflag_or i I_BUSY I_BUSY)|]. unfold i1. by rewrite iflag_or, Ev.
    + pose proof (co_valid (fr_cache Hfs) ip i Hip Hi Ev). cbn. congruence.
  - rewrite gets_step. cbn [f_sb]. rewrite Hdev. destruct (it_block _ _ _ _ (fr_table Hfs) _ _ Hd) as (x & Hx & _ & Hg).
    destruct (tx_bread_ok sb (<[ip := i1]> ic) t v _ (fr_rep Hfs) (can_read_empty _ _ _ (fr_held Hfs) Hx)) as (bp & t1 & E1 & Hr1 & Hbp & Hbp1).
    mstep E1. rewrite (data_step _ sb _ t1 _ bp _ x Hr1 Hbp1 Hx), (upd_ino_step _ _ ip i1 sb _ t1 Hip1).
    rewrite Hg by set_solver. rewrite list_insert_insert_eq. set (i2 := set_disk d i1).
    destruct (brelse_step (upd_ino ip (λ i, set_iflags (Z.lor (i_flags i) I_VALID) i);;
      (if d_type d =? 0 then panic "ilock: no type" else mret tt)) sb (<[ip := i2]> ic) t1 v bp _ Hr1 Hbp) as (t2 & E2 & Hr2);
      [rewrite (fr_pending Hfs); set_solver|].
    rewrite E2. rewrite (upd_ino_step _ _ ip i2 sb) by (apply list_lookup_insert_eq; by eapply lookup_lt_Some).
    rewrite list_insert_insert_eq, (proj2 (Z.eqb_neq _ 0)) by (by apply (fr_type Hfs (i_inum i))). set (i3 := set_iflags _ i2).
    destruct (fs_rep_slot sb ic t2 v ds ip i i3) as (F1 & F2 & F3 & F4); [by eapply fs_rep_tx|done..|].
    exists i3, t2. split; [done|]. split; [done|]. split; [|done]. split; [done| |by apply (iflag_or i2 I_VALID I_VALID)].
    unfold i3. rewrite iflag_or by done. by apply (iflag_or i I_BUSY I_BUSY).
Qed.

(** A locked inode is waited for. *)
Lemma ilock_busy sb ic t ip inum i :
  slot ic ip inum i → iflag i I_BUSY = true → ilock (Some ip) (FState sb ic t) = Sleep (ichan ip) (FState sb ic t).
Proof.
  intros [Hip Hi _] Hb. unfold ilock. rewrite (ino_step _ ip i sb ic t Hip), (proj2 (Z.ltb_ge (i_ref i) 1)) by lia. by rewrite Hb.
Qed.

(** *** iunlock *)

Lemma iunlock_ok sb ic t v ds ip inum i :
  fs_rep sb ic t v ds → locked ic ip inum i →
  ∃ i', iunlock (Some ip) (FState sb ic t) = Ok tt (FState sb (<[ip := i']> ic) t) ∧
    fs_rep sb (<[ip := i']> ic) t v ds ∧ slot (<[ip := i']> ic) ip inum i' ∧ i_ref i' = i_ref i ∧ i_d i' = i_d i ∧
    iflag i' I_BUSY = false ∧ iflag i' I_VALID = true ∧
    refs (<[ip := i']> ic) = refs ic ∧ slots_kept ic (<[ip := i']> ic).
Proof.
  intros Hfs [Hsl Hb Hv]. pose proof Hsl as [Hip Hi <-]. set (i' := set_iflags (Z.land (i_flags i) (Z.lnot I_BUSY)) i).
  assert (iflag i' I_VALID = true) as Hv' by (unfold i'; by rewrite iflag_clear, Hv).
  destruct (fs_rep_slot sb ic t v ds ip i i' Hfs Hsl) as (F1 & F2 & F3 & F4); [done..| |].
  { intros _. by apply (co_valid (fr_cache Hfs) ip i). }
  exists i'. split; [|split; [done|split; [done|split; [done|split; [done|split; [|done]]]]]].
  - unfold iunlock. rewrite (ino_step _ ip i sb ic t Hip), Hb, (proj2 (Z.ltb_ge (i_ref i) 1)) by lia. cbn [negb orb].
    by apply (upd_ino_ok (λ i, set_iflags (Z.land (i_flags i) (Z.lnot I_BUSY)) i)).
  - unfold i'. by rewrite iflag_clear.
Qed.

(** *** iput *)

(** What iput does when the inode stays on disk: one reference less. *)
Lemma iput_keeps sb ic t v ds ip inum i d :
  fs_rep sb ic t v ds → slot ic ip inum i → ds !! inum = Some d → (i_ref i =? 1) && iflag i I_VALID && (d_nlink d =? 0) = false →
  let ic' := <[ip := set_iref (i_ref i - 1) i]> ic in
  iput ip (FState sb ic t) = Ok tt (FState sb ic' t) ∧ fs_rep sb ic' t v ds ∧ refs ic' = decr inum (refs ic).
Proof.
  intros Hfs Hsl Hd Hkeep ic'. subst ic'. pose proof Hsl as [Hip Hi <-]. pose proof (fr_cache Hfs) as Hic. destruct (co_dev Hic ip i Hip Hi) as [H1 H2].
  assert (icache_ok (<[ip := set_iref (i_ref i - 1) i]> ic) ds) as Hic'.
  { apply (slot_ok ic ds ip i); [done|done|cbn; lia|]. intros _. split; [done|]. split; [done|]. split; [|by left].
    exact (co_valid Hic ip i Hip Hi). }
  split; [|split; [by eapply fs_rep_cache|]].
  - unfold iput. rewrite (ino_step _ ip i sb ic t Hip).
    assert ((i_ref i =? 1) && iflag i I_VALID && (d_nlink (i_d i) =? 0) = false) as ->.
    { destruct (iflag i I_VALID) eqn:Ev; [|by rewrite andb_false_r]. pose proof (co_valid Hic ip i Hip Hi Ev). congruence. }
    exact (upd_ino_ok (λ i, set_iref (i_ref i - 1) i) ip i sb ic t Hip).
  - exact (refs_decr ic ds ip i (set_iref (i_ref i - 1) i) Hic Hic' Hip Hi eq_refl eq_refl).
Qed.

Lemma iput_ok sb ic t v ds ip inum i d :
  fs_rep sb ic t v ds → slot ic ip inum i → ds !! inum = Some d → i_ref i ≠ 1 ∨ d_nlink d ≠ 0 →
  let ic' := <[ip := set_iref (i_ref i - 1) i]> ic in
  iput ip (FState sb ic t) = Ok tt (FState sb ic' t) ∧ fs_rep sb ic' t v ds ∧ refs ic' = decr inum (refs ic).
Proof.
  intros Hfs Hsl Hd Hkeep. apply (iput_keeps sb ic t v ds ip inum i d Hfs Hsl Hd).
  destruct Hkeep as [H|H]; rewrite (proj2 (Z.eqb_neq _ _) H); [done|apply andb_false_r].
Qed.

(** A reference that was taken is given back: the slots stay. *)
Lemma iput_kept ic0 ds ic ip inum i :
  icache_ok ic0 ds → icache_ok ic ds → slots_kept ic0 ic → slot ic ip inum i → (is_Some (refs ic0 !! inum) → 1 < i_ref i) →
  slots_kept ic0 (<[ip := set_iref (i_ref i - 1) i]> ic).
Proof.
  intros Hic0 Hic Hk [Hip Hi Ei] Hmore. eapply slots_kept_insert; [done..|]. cbn [set_iref i_ref i_inum].
  destruct (decide (0 < i_ref i - 1)) as [Hpos|Hz]; [by left|]. right. intros i0 Hi0 Hr0.
  destruct (Hk ip i0 Hi0 Hr0) as (i1 & Hi1 & _ & E). assert (i1 = i) as -> by congruence.
  assert (refs ic0 !! inum = Some (i_ref i0)) as Hs by (rewrite <- Ei, E; by apply (refs_slot _ ds ip)).
  specialize (Hmore (mk_is_Some _ _ Hs)). lia.
Qed.

(** The number of references in a slot that iget has returned. *)
Lemma got_refs ic ds ic' ip inum i : icache_ok ic' ds → got ic ic' ip inum → slot ic' ip inum i → i_ref i = default 0 (refs ic !! inum) + 1.
Proof.
  intros Hic Hg [Hip Hi <-]. pose proof (refs_slot ic' ds ip i Hic Hip Hi) as H. rewrite (gt_refs _ _ _ _ Hg) in H.
  unfold incr in H. rewrite lookup_insert_eq in H. by injection H.
Qed.

(** iget and iput of the same inode. *)
Lemma got_back ic ds ic' ip inum i :
  icache_ok ic ds → icache_ok ic' ds → got ic ic' ip inum → slot ic' ip inum i →
  slots_kept ic (<[ip := set_iref (i_ref i - 1) i]> ic').
Proof.
  intros Hic Hic' Hg Hsl. apply (iput_kept ic ds ic' ip inum i Hic Hic' (gt_kept _ _ _ _ Hg) Hsl). intros [n Hn].
  rewrite (got_refs ic ds ic' ip inum i Hic' Hg Hsl), Hn. cbn. pose proof (refs_pos ic ds inum n Hic Hn). lia.
Qed.

(** A lock is not lost when another reference is taken, nor when it is given back. *)
Lemma got_locked ic ic' ip inum dp dnum i :
  got ic ic' ip inum → locked ic dp dnum i → ∃ i', locked ic' dp dnum i' ∧ i_d i' = i_d i ∧ i_ref i' = (if decide (dp = ip) then i_ref i + 1 else i_ref i).
Proof.
  intros Hg [[Hdp Hi Ei] Hb Hv]. pose proof (gt_same _ _ _ _ Hg dp i Hdp Hi) as H. eexists. split; [split; [split; [exact H|..]|..]|];
    destruct (decide (dp = ip)); try done; cbn; lia.
Qed.

(** iunlockput(ip), for a client that had the references of [ic0] before. *)
Lemma iunlockput_ok ic0 sb ic t v ds ip cur i d :
  fs_rep sb ic t v ds → locked ic ip cur i → ds !! cur = Some d → i_ref i ≠ 1 ∨ d_nlink d ≠ 0 →
  icache_ok ic0 ds → slots_kept ic0 ic → (is_Some (refs ic0 !! cur) → 1 < i_ref i) → quiet_but ic (Some ip) →
  ∃ ic', iunlockput ip (FState sb ic t) = Ok tt (FState sb ic' t) ∧ fs_rep sb ic' t v ds ∧ refs ic' = decr cur (refs ic) ∧
    slots_kept ic0 ic' ∧ quiet_but ic' None ∧ length ic' = length ic ∧
    (∀ np n j, slot ic np n j → (np = ip → 1 < i_ref i) → ∃ j', slot ic' np n j').
Proof.
  intros Hfs Hlk Hd Hkeep Hic0 Hk Hmore Hq. assert (ic !! ip = Some i) as Hip by apply Hlk.
  destruct (iunlock_ok sb ic t v ds ip cur i Hfs Hlk) as (i1 & E1 & Hfs1 & Hsl1 & Er1 & _ & Hb1 & _ & Hr1 & Hk1).
  destruct (iput_ok sb _ t v ds ip cur i1 d Hfs1 Hsl1 Hd) as (E2 & Hfs2 & Hr2); [by rewrite Er1|].
  eexists. split; [unfold iunlockput; mstep E1; exact E2|]. split; [done|]. split; [by rewrite Hr2, Hr1|]. split; [|split; [|split]].
  - apply (iput_kept ic0 ds _ ip cur i1); [done|apply Hfs1|by eapply slots_kept_trans|done|by rewrite Er1].
  - rewrite list_insert_insert_eq. eapply quiet_unlock; [|by apply list_lookup_insert_eq; eapply lookup_lt_Some|exact Hb1].
    eapply quiet_but_insert; [done|done|by left].
  - by rewrite !length_insert.
  - intros np n j [Hnp Hj En] Hm. rewrite list_insert_insert_eq. destruct (decide (np = ip)) as [->|Hne].
    + eexists. split; [apply list_lookup_insert_eq; by eapply lookup_lt_Some|cbn; specialize (Hm eq_refl); lia|]. 
      cbn. rewrite (sl_inum _ _ _ _ Hsl1). assert (j = i) as -> by congruence. rewrite <- En. symmetry. apply Hlk.
    + exists j. split; [by rewrite list_lookup_insert_ne|done|done].
Qed.

Lemma locked_iput ic dp dnum i ip j :
  locked ic dp dnum i → ic !! ip = Some j → (dp = ip → 1 < i_ref i) →
  ∃ i', locked (<[ip := set_iref (i_ref j - 1) j]> ic) dp dnum i' ∧ i_d i' = i_d i.
Proof.
  intros [[Hdp Hi Ei] Hb Hv] Hip Hmore. destruct (decide (dp = ip)) as [->|Hne].
  - assert (j = i) as -> by congruence. exists (set_iref (i_ref i - 1) i). split; [|done]. split; [|done|done].
    split; [apply list_lookup_insert_eq; by eapply lookup_lt_Some|cbn; specialize (Hmore eq_refl); lia|done].
  - exists i. split; [|done]. split; [|done|done]. split; [by rewrite list_lookup_insert_ne|done|done].
Qed.
End ops.
