(* ===== verification/FsTrunc.v ===== *)
(** * The file system: discarding the contents of files

    bfree frees lists of blocks, and itrunc gives all blocks of an inode
    back. *)

From S2P Require Import Prelude Params Disk Superblock Txn Fs FsBlocks FsInode FsBmap FsDinode FsIcache.

(** ** Freeing blocks *)

(** From [v] to [v'] the blocks [F] have been freed. *)
Record freed (sb : superblock) (v v' : tview) (F : list Z) : Prop := Freed {
  fd_used g : 0 ≤ g < sb_size sb → used sb (t_blocks v') g = negb (bool_decide (g ∈ F)) && used sb (t_blocks v) g;
  fd_frame b : (∀ g, 0 ≤ g < sb_size sb → b ≠ BBLOCK g sb) → t_blocks v' !! b = t_blocks v !! b;
  fd_map : map_ok sb (t_blocks v) → map_ok sb (t_blocks v');
  fd_held : t_held v' = t_held v;
  fd_pending : t_pending v' = t_pending v;
  fd_durable : t_durable v' = t_durable v;
  fd_logged b : b ∈ t_logged v' → b ∈ t_logged v ∨ b ∈ map_blocks sb;
  fd_slack r : slack sb v r → slack sb v' r;
}.

Lemma freed_nil sb v : freed sb v v [].
Proof. split; [|done|done|done|done|done|by left|done]. intros g _. by rewrite bool_decide_false by apply not_elem_of_nil. Qed.

Lemma freed_app sb v1 v2 v3 F1 F2 : freed sb v1 v2 F1 → freed sb v2 v3 F2 → freed sb v1 v3 (F1 ++ F2).
Proof.
  intros [A1 A2 A3 A4 A5 A6 A7 A8] [B1 B2 B3 B4 B5 B6 B7 B8]. split; try congruence; try auto.
  - intros g Hg. rewrite B1, A1 by done. rewrite andb_assoc. f_equal. rewrite <- negb_orb. f_equal.
    rewrite (bool_decide_ext (g ∈ F1 ++ F2) (g ∈ F2 ∨ g ∈ F1)) by (rewrite elem_of_app; tauto). by rewrite bool_decide_or.
  - intros b Hb. rewrite B2, A2 by done. done.
  - intros b [Hb|Hb]%B7; [by apply A7|by right].
Qed.

Lemma freed_one sb v f :
  map_ok sb (t_blocks v) → 0 ≤ f < sb_size sb → freed sb v (free_view sb f v) [f].
Proof.
  intros Hm Hf. destruct (mo_block _ _ Hm f Hf) as (x & Hx & Hlen). split; try done.
  - intros g Hg. rewrite free_view_used by done. by rewrite (bool_decide_ext (g ∈ [f]) (g = f)) by apply list_elem_of_singleton.
  - intros b Hb. cbn. by rewrite lookup_insert_ne by (by apply not_eq_sym, Hb).
  - intros [H1 H2 H3]. split; [done|done|]. intros b Hb. cbn. destruct (decide (BBLOCK b sb = BBLOCK f sb)) as [->|Hne].
    + rewrite lookup_insert_eq, Hx. eexists. split; [done|]. unfold unmark. by rewrite length_insert.
    + rewrite lookup_insert_ne by done. by apply H3.
  - intros b. unfold free_view, update. cbn [t_logged]. rewrite elem_of_union, elem_of_singleton. intros [->|Hb]; [right; by apply elem_of_map_blocks|by left].
  - intros r. by apply slack_map, elem_of_map_blocks.
Qed.

(** What a caller of bfree needs. *)
Record can_free (sb : superblock) (v : tview) : Prop := CanFree {
  cf_map : map_free sb v;
  cf_sb : ∃ x, t_blocks v !! 1 = Some x ∧ sb_decode x = sb;
  cf_one : 1 ∉ (map_img (t_held v) : gset Z);
  cf_place g : 0 ≤ g < sb_size sb → 1 ≠ BBLOCK g sb;
  cf_low : 1 < data_start sb;
  cf_slack : slack sb v 0;
}.

Lemma can_free_next sb v v' F : can_free sb v → freed sb v v' F → can_free sb v'.
Proof.
  intros [[M1 M2 M3 M4] (x & Hx & Hsb) H1 Hp Hlow Hs] Hf. split.
  - split; [by apply Hf|by rewrite (fd_held _ _ _ _ Hf)|by rewrite (fd_held _ _ _ _ Hf)|by rewrite (fd_pending _ _ _ _ Hf)].
  - exists x. rewrite (fd_frame _ _ _ _ Hf); done.
  - by rewrite (fd_held _ _ _ _ Hf).
  - done.
  - done.
  - by apply Hf.
Qed.

(** Blocks that are there to be freed. *)
Definition nz (l : list Z) : list Z := filter (λ b, b ≠ 0) l.
Definition freeable (sb : superblock) (v : tview) (F : list Z) : Prop :=
  NoDup F ∧ ∀ f, f ∈ F → 0 ≤ f < sb_size sb ∧ used sb (t_blocks v) f = true.

Lemma freeable_cons sb v f F : freeable sb v (f :: F) → (0 ≤ f < sb_size sb ∧ used sb (t_blocks v) f = true) ∧ freeable sb v F.
Proof. intros [[_ Hnd]%NoDup_cons Hu]. split; [apply Hu; left|]. split; [done|]. intros g Hg. apply Hu. by right. Qed.

Lemma freeable_next sb v v' F1 F2 : freeable sb v (F1 ++ F2) → freed sb v v' F1 → freeable sb v' F2.
Proof.
  intros [(_ & Hd & Hnd)%NoDup_app Hu] Hf. split; [done|]. intros g Hg. destruct (Hu g) as [Hr Hug]; [set_solver|]. split; [done|].
  rewrite (fd_used _ _ _ _ Hf) by done. rewrite Hug, bool_decide_false; [done|]. intros Hg1. by apply (Hd g).
Qed.

Lemma freeable_l sb v F1 F2 : freeable sb v (F1 ++ F2) → freeable sb v F1.
Proof. intros [(Hnd & _ & _)%NoDup_app Hu]. split; [done|]. intros g Hg. apply Hu. set_solver. Qed.

(** An inode with [n] addresses from [k] on set to 0. *)
Definition zero_addrs (k n : nat) (d : dinode) : dinode :=
  DInode (d_type d) (d_major d) (d_minor d) (d_nlink d) (d_size d) (take k (d_addrs d) ++ replicate n 0 ++ drop (k + n) (d_addrs d)).

Lemma zero_addrs_0 k d : zero_addrs k 0 d = d.
Proof. destruct d. unfold zero_addrs. cbn. by rewrite Nat.add_0_r, take_drop. Qed.

Lemma zero_addrs_after n d j : (n ≤ j)%nat → d_addrs (zero_addrs 0 n d) !! j = d_addrs d !! j.
Proof.
  intros Hj. unfold zero_addrs. cbn [d_addrs]. rewrite take_0, app_nil_l, lookup_app_r by (rewrite length_replicate; lia).
  rewrite length_replicate, lookup_drop. f_equal. lia.
Qed.

Lemma zero_addrs_next n d : (n < length (d_addrs d))%nat → set_addr n 0 (zero_addrs 0 n d) = zero_addrs 0 (S n) d.
Proof.
  intros Hn. unfold set_addr, zero_addrs. cbn [d_type d_major d_minor d_nlink d_size d_addrs]. rewrite !take_0, !app_nil_l, !Nat.add_0_l. f_equal.
  destruct (lookup_lt_is_Some_2 (d_addrs d) n Hn) as [a Ha]. rewrite (drop_S _ _ _ Ha), insert_app_r_alt, length_replicate, Nat.sub_diag by (by rewrite length_replicate).
  cbn [insert list_insert]. by rewrite replicate_S_end, <- app_assoc.
Qed.

Lemma set_addr_zero k n a d : d_addrs d !! k = Some a → zero_addrs (S k) n (set_addr k 0 d) = zero_addrs k (S n) d.
Proof.
  intros Hk. assert (k < length (d_addrs d))%nat as Hlt by (by eapply lookup_lt_Some). unfold zero_addrs. cbn [set_addr d_type d_major d_minor d_nlink d_size d_addrs]. f_equal.
  assert (length (take k (d_addrs d)) = k) as Ht by (rewrite length_take; lia).
  rewrite insert_take_drop by done. rewrite take_app_ge by lia. rewrite Ht. replace (S k - k)%nat with 1%nat by lia. cbn [take].
  rewrite drop_app_ge by lia. rewrite Ht. replace (S k + n - k)%nat with (S n) by lia. cbn [drop]. rewrite drop_drop. rewrite <- app_assoc. cbn.
  by rewrite take_0, Nat.add_succ_r.
Qed.

Lemma keep_addr_zero k n d : d_addrs d !! k = Some 0 → zero_addrs (S k) n d = zero_addrs k (S n) d.
Proof.
  intros Hk. rewrite <- (set_addr_zero k n 0 d Hk). f_equal. destruct d. unfold set_addr. cbn in *. by rewrite list_insert_id.
Qed.

(** ** An inode without blocks *)

(** What is left of an inode. *)
Definition emptied (d : dinode) : dinode := set_size 0 (zero_addrs 0 (S NDIRECT_n) d).

Lemma emptied_addrs d : length (d_addrs d) = S NDIRECT_n → d_addrs (emptied d) = replicate (S NDIRECT_n) 0.
Proof. intros Hl. unfold emptied. cbn [set_size zero_addrs d_addrs take app Nat.add]. by rewrite drop_ge, app_nil_r by lia. Qed.

Lemma blk_no_addrs m d p b : d_addrs d = replicate (S NDIRECT_n) 0 → blk m d !! p = Some b → b = 0.
Proof.
  intros E. assert (ind_addr d = 0) as Ei by (unfold ind_addr; rewrite E; done).
  assert (blk m d = replicate (S (NDIRECT_n + NINDIRECT_n)) 0) as ->; [|by intros [-> _]%lookup_replicate].
  unfold blk, addrs_of. rewrite Ei, ind_words_zero, E, take_replicate. cbn [replicate]. f_equal.
Qed.

Lemma nodup_nz l : (∀ p1 p2 b, l !! p1 = Some b → l !! p2 = Some b → b ≠ 0 → p1 = p2) → NoDup (nz l).
Proof.
  unfold nz. induction l as [|a l IH]; intros H; [constructor|].
  assert (NoDup (filter (λ b, b ≠ 0) l)) as IH'.
  { apply IH. intros p1 p2 b H1 H2 Hb. assert (S p1 = S p2) as E by (by apply (H (S p1) (S p2) b)). lia. }
  rewrite filter_cons. destruct (decide (a ≠ 0)) as [Ha|Ha]; [|done]. apply NoDup_cons. split; [|done].
  intros [_ Hin]%list_elem_of_filter. apply list_elem_of_lookup in Hin as [p Hp]. by pose proof (H 0%nat (S p) a eq_refl Hp Ha).
Qed.

(** The blocks of an inode in the order in which itrunc frees them. *)
Definition file_blocks (m : gmap Z block) (d : dinode) : list Z :=
  nz (slice 0 NDIRECT_n (d_addrs d)) ++ nz (ind_words m (ind_addr d)) ++ nz [ind_addr d].

Lemma file_blocks_blk m d : file_blocks m d ≡ₚ nz (blk m d).
Proof.
  unfold file_blocks, blk, addrs_of, nz. change (slice 0 NDIRECT_n (d_addrs d)) with (take NDIRECT_n (d_addrs d)).
  rewrite (app_assoc (filter _ _)). rewrite <- filter_app. rewrite Permutation_app_comm, <- filter_app. done.
Qed.

Lemma elem_of_file_blocks m d b : b ∈ file_blocks m d ↔ b ≠ 0 ∧ b ∈ blk m d.
Proof. rewrite file_blocks_blk. unfold nz. by rewrite list_elem_of_filter. Qed.

Lemma file_blocks_freeable sb v ds inum d :
  fs_ok sb (t_blocks v) ds → ds !! inum = Some d → freeable sb v (file_blocks (t_blocks v) d).
Proof.
  intros Hok Hd. split.
  - rewrite file_blocks_blk. apply nodup_nz. intros p1 p2 b H1 H2 Hb. by apply (fo_sep Hok inum inum d d p1 p2 b).
  - intros f [Hne [p Hp]%list_elem_of_lookup]%elem_of_file_blocks. destruct (fo_owned Hok inum d p f Hd Hp Hne) as [Hdb Hu]. split; [|done].
    pose proof (data_block_pos _ _ _ (fo_map Hok) Hdb). destruct Hdb. lia.
Qed.

Section discard.
Context (sb : superblock) (v v' : tview) (ds : gmap Z dinode) (inum : Z) (d d0 : dinode).
Context (Hok : fs_ok sb (t_blocks v) ds) (Hd : ds !! inum = Some d).
Context (Hf : freed sb v v' (file_blocks (t_blocks v) d)).
Context (H0 : d_addrs d0 = replicate (S NDIRECT_n) 0) (Hs0 : d_size d0 = 0).

Lemma discard_frame b : data_start sb ≤ b → t_blocks v' !! b = t_blocks v !! b.
Proof using Hok Hf. intros Hb. apply (fd_frame _ _ _ _ Hf). intros g Hg. by apply (data_not_bitmap sb (t_blocks v)); [apply Hok|..]. Qed.

Lemma discard_blk i e : ds !! i = Some e → blk (t_blocks v') e = blk (t_blocks v) e.
Proof using Hok Hf.
  intros He. apply blk_ext. intros Hne. apply discard_frame. by destruct (fo_owned Hok i e 0 _ He (blk_ind _ _) Hne) as [[? _] _].
Qed.

Lemma discard_used i e p b : ds !! i = Some e → i ≠ inum → blk (t_blocks v) e !! p = Some b → b ≠ 0 → used sb (t_blocks v') b = true.
Proof using Hok Hf Hd.
  intros He Hi Hp Hb. destruct (fo_owned Hok i e p b He Hp Hb) as [Hdb Hu]. pose proof (data_block_pos _ _ _ (fo_map Hok) Hdb).
  rewrite (fd_used _ _ _ _ Hf) by (destruct Hdb; lia). rewrite Hu, bool_decide_false; [done|].
  intros [_ [q Hq]%list_elem_of_lookup]%elem_of_file_blocks. by destruct (fo_sep Hok i inum e d p q b He Hd Hp Hq Hb).
Qed.

Lemma discard_ok : fs_ok sb (t_blocks v') (<[inum := d0]> ds).
Proof using Hok Hf Hd H0 Hs0.
  assert (∀ i e, <[inum := d0]> ds !! i = Some e → i = inum ∧ e = d0 ∨ i ≠ inum ∧ ds !! i = Some e) as Hl.
  { intros i e. destruct (decide (i = inum)) as [->|Hi]; [rewrite lookup_insert_eq; intros [= <-]; by left|].
    rewrite lookup_insert_ne by done. by right. }
  split.
  - apply Hf, Hok.
  - intros b Hb Hs. rewrite (fd_used _ _ _ _ Hf) by lia. rewrite (fo_meta Hok) by done. rewrite bool_decide_false; [done|].
    intros [Hne [q Hq]%list_elem_of_lookup]%elem_of_file_blocks. destruct (fo_owned Hok inum d q b Hd Hq Hne) as [[? _] _]. lia.
  - intros b Hb. rewrite discard_frame by apply Hb. by apply (fo_block Hok).
  - intros i e [[-> ->]|[Hi He]]%Hl; [by rewrite H0, length_replicate|by apply (fo_len Hok i)].
  - intros i e p b [[-> ->]|[Hi He]]%Hl Hp Hb; [by destruct Hb; eapply blk_no_addrs|]. rewrite (discard_blk i e He) in Hp.
    split; [by apply (fo_owned Hok i e p)|by apply (discard_used i e p)].
  - intros i1 i2 e1 e2 p1 p2 b [[-> ->]|[Hi1 He1]]%Hl [[-> ->]|[Hi2 He2]]%Hl Hp1 Hp2 Hb; try (by destruct Hb; eapply blk_no_addrs).
    rewrite (discard_blk i1 e1 He1) in Hp1. rewrite (discard_blk i2 e2 He2) in Hp2. by apply (fo_sep Hok i1 i2 e1 e2 p1 p2 b).
  - intros i e [[-> ->]|[Hi He]]%Hl; [by rewrite Hs0|by apply (fo_size Hok i)].
  - intros i e o [[-> ->]|[Hi He]]%Hl Ho; [rewrite Hs0 in Ho; lia|].
    rewrite (blk_addr_of (t_blocks v) _ e e) by (by rewrite (discard_blk i e He)). by apply (fo_full Hok i).
Qed.

Lemma discard_content i e : ds !! i = Some e → content (t_blocks v') e = content (t_blocks v) e.
Proof using Hok Hf.
  intros He. apply content_ext; [done|]. intros o Ho. unfold file_block.
  rewrite (blk_addr_of (t_blocks v) _ e e) by (by rewrite (discard_blk i e He)). rewrite discard_frame; [done|].
  pose proof (fo_full Hok i e o He Ho) as Hne. by destruct (fo_owned Hok i e _ _ He (blk_addr _ _ _ _ Hne eq_refl) Hne) as [[? _] _].
Qed.

Lemma discard_free : free_blocks sb (t_blocks v') = free_blocks sb (t_blocks v) ∪ list_to_set (file_blocks (t_blocks v) d).
Proof using Hok Hf Hd.
  pose proof (file_blocks_freeable sb v ds inum d Hok Hd) as [_ Hfr]. apply set_eq. intros g.
  rewrite elem_of_union, elem_of_list_to_set, !elem_of_free. split.
  - intros [Hg Hu]. rewrite (fd_used _ _ _ _ Hf) in Hu by done. destruct (decide (g ∈ file_blocks (t_blocks v) d)); [by right|].
    left. split; [done|]. by rewrite bool_decide_false in Hu.
  - intros [[Hg Hu]|Hg]; [split; [done|]; rewrite (fd_used _ _ _ _ Hf) by done; rewrite Hu; apply andb_false_r|].
    destruct (Hfr g Hg) as [Hr _]. split; [done|]. rewrite (fd_used _ _ _ _ Hf) by done. by rewrite bool_decide_true.
Qed.
End discard.

(** The indirect block is in a buffer. *)
Lemma can_free_hold sb v bp a : can_free sb v → t_held v = ∅ → data_block sb a → can_free sb (hold bp a v).
Proof.
  intros [[M1 M2 M3 M4] Hsb H1 Hp Hlow Hs] Hh Hdb. split; [|done| |done|done|done].
  - split; [done| | |done]; cbn [hold t_held]; rewrite Hh.
    + rewrite insert_empty, map_size_singleton. unfold MAXHELD. lia.
    + intros b Hb. rewrite insert_empty, map_img_singleton_L, elem_of_singleton. apply not_eq_sym. by apply (data_not_bitmap sb (t_blocks v)); [|apply Hdb|].
  - cbn [hold t_held]. rewrite Hh, insert_empty, map_img_singleton_L, elem_of_singleton. intros <-. destruct Hdb. lia.
Qed.

Section trunc.
Context {S : Type} `{!Txn S}.
Implicit Types (sb : superblock) (ic : list inode) (t : S) (v : tview).

Lemma bfree_step {A} (k : M (fstate S) A) sb ic t v f :
  trep t v → can_free sb v → 0 ≤ f < sb_size sb → used sb (t_blocks v) f = true →
  ∃ t' v', (bfree ROOTDEV f;; k) (FState sb ic t) = k (FState sb ic t') ∧ trep t' v' ∧ freed sb v v' [f].
Proof.
  intros Ht [Hm (x & Hx & Hsb) H1 Hp _ Hs] Hf Hu.
  pose proof (bfree_ok f sb ic t v x Ht Hm Hf) as H. rewrite Hu in H.
  destruct H as (t' & E & Ht'); [split; [by eexists|done|apply Hm]|done|done| |].
  { by apply (slack_map sb v _ [] 0), Hs; apply elem_of_map_blocks. }
  exists t', (free_view sb f v). split; [by mstep E|]. split; [done|]. apply freed_one; [apply Hm|done].
Qed.

Lemma itrunc_direct_ok n k ip i sb ic t v :
  trep t v → can_free sb v → ic !! ip = Some i → i_dev i = ROOTDEV → (k + n ≤ length (d_addrs (i_d i)))%nat →
  freeable sb v (nz (slice k n (d_addrs (i_d i)))) →
  ∃ t' v', itrunc_direct n ip k (FState sb ic t) = Ok tt (FState sb (<[ip := set_disk (zero_addrs k n (i_d i)) i]> ic) t') ∧
    trep t' v' ∧ freed sb v v' (nz (slice k n (d_addrs (i_d i)))).
Proof.
  revert k i ic t v. induction n as [|n IH]; intros k i ic t v Ht Hcf Hi Hdev Hlen Hfr.
  { exists t, v. rewrite zero_addrs_0. split; [|split; [done|apply freed_nil]]. cbn. do 2 f_equal.
    rewrite list_insert_id; [done|]. rewrite Hi. by destruct i. }
  destruct (lookup_lt_is_Some_2 (d_addrs (i_d i)) k ltac:(lia)) as [a Ha].
  assert (slice k (Datatypes.S n) (d_addrs (i_d i)) = a :: slice (Datatypes.S k) n (d_addrs (i_d i))) as Es.
  { unfold slice. by rewrite (drop_S _ _ _ Ha). }
  cbn [itrunc_direct]. rewrite (addr_at_step _ ip i k a sb ic t Hi Ha). rewrite Es in *. unfold nz in *.
  destruct (Z.eqb_spec a 0) as [->|Hne].
  - rewrite filter_cons_False in * by (by intros H; apply H). rewrite ret_step.
    destruct (IH (Datatypes.S k) i ic t v Ht Hcf Hi Hdev ltac:(lia) Hfr) as (t' & v' & E & Ht' & Hf').
    exists t', v'. rewrite E, keep_addr_zero by done. done.
  - rewrite filter_cons_True in * by done. rewrite bind_assoc, (ino_step _ ip i sb ic t Hi), Hdev, bind_assoc.
    pose proof (freeable_cons _ _ _ _ Hfr) as [[Hr Hu] _].
    destruct (bfree_step (upd_disk ip (set_addr k 0);; itrunc_direct n ip (Datatypes.S k)) sb ic t v a Ht Hcf Hr Hu) as (t1 & v1 & E1 & Ht1 & Hf1).
    rewrite E1, (upd_disk_step _ _ ip i sb ic t1 Hi). set (i1 := set_disk (set_addr k 0 (i_d i)) i).
    assert (slice (Datatypes.S k) n (d_addrs (i_d i1)) = slice (Datatypes.S k) n (d_addrs (i_d i))) as Es1.
    { apply slice_ext. intros j Hj. cbn. by rewrite list_lookup_insert_ne by lia. }
    destruct (IH (Datatypes.S k) i1 (<[ip := i1]> ic) t1 v1) as (t' & v' & E & Ht' & Hf');
      [done|by eapply can_free_next|apply list_lookup_insert_eq; by eapply lookup_lt_Some|done|cbn; rewrite length_insert; lia| |].
    { rewrite Es1. by eapply (freeable_next sb v v1 [a]). }
    exists t', v'. rewrite E, Es1 in *. split; [|split; [done|by eapply (freed_app sb v v1 v' [a])]].
    rewrite list_insert_insert_eq. do 3 f_equal. unfold i1. rewrite set_disk_twice. cbn [set_disk i_d]. by rewrite (set_addr_zero k n a).
Qed.

Lemma itrunc_indirect_ok n j bp a x sb ic t v :
  trep t v → can_free sb v → t_held v !! bp = Some a → t_blocks v !! a = Some x → (∀ g, 0 ≤ g < sb_size sb → a ≠ BBLOCK g sb) →
  freeable sb v (nz (word_at x <$> seq j n)) →
  ∃ t' v', itrunc_indirect n ROOTDEV bp j (FState sb ic t) = Ok tt (FState sb ic t') ∧ trep t' v' ∧ freed sb v v' (nz (word_at x <$> seq j n)).
Proof.
  revert j t v. induction n as [|n IH]; intros j t v Ht Hcf Hbp Hx Hpl Hfr; [exists t, v; split; [done|]; split; [done|apply freed_nil]|].
  cbn [itrunc_indirect seq]. rewrite (data_step _ sb ic t v bp a x Ht Hbp Hx). unfold nz in *. cbn [seq] in Hfr. rewrite fmap_cons in *.
  destruct (Z.eqb_spec (word_at x j) 0) as [E|Hne].
  - rewrite filter_cons_False in * by (by intros H; apply H). rewrite ret_step. by apply IH.
  - rewrite filter_cons_True in * by done. pose proof (freeable_cons _ _ _ _ Hfr) as [[Hr Hu] _].
    destruct (bfree_step (itrunc_indirect n ROOTDEV bp (Datatypes.S j)) sb ic t v _ Ht Hcf Hr Hu) as (t1 & v1 & E1 & Ht1 & Hf1). rewrite E1.
    destruct (IH (Datatypes.S j) t1 v1) as (t' & v' & E & Ht' & Hf');
      [done|by eapply can_free_next|by rewrite (fd_held _ _ _ _ Hf1)|by rewrite (fd_frame _ _ _ _ Hf1)|done| |].
    { by eapply (freeable_next sb v v1 [word_at x j]). }
    exists t', v'. split; [done|]. split; [done|]. by eapply (freed_app sb v v1 v' [word_at x j]).
Qed.

(** The part of itrunc that deals with the indirect block. *)
Definition itrunc_tail (ip : nat) (addr : Z) : M (fstate S) unit :=
  if addr =? 0 then mret tt
  else
    i ← ino ip;
    bp ← tx (t_bread (i_dev i) addr);
    itrunc_indirect (Z.to_nat NINDIRECT) (i_dev i) bp 0;;
    tx (t_brelse bp);;
    bfree (i_dev i) addr;;
    upd_disk ip (set_addr (Z.to_nat NDIRECT) 0).

Lemma freed_hold sb v v' F bp a : freed sb (hold bp a v) v' F → t_held v !! bp = None → freed sb v (unhold bp v') F.
Proof.
  intros [H1 H2 H3 H4 H5 H6 H7 H8] Hbp. split; try done. cbn [unhold t_held]. rewrite H4. cbn [hold t_held]. by rewrite delete_insert_id.
Qed.

Lemma itrunc_tail_ok ip i sb ic t v ind :
  trep t v → can_free sb v → t_held v = ∅ → ic !! ip = Some i → i_dev i = ROOTDEV → d_addrs (i_d i) !! NDIRECT_n = Some ind →
  (ind ≠ 0 → data_block sb ind ∧ is_Some (t_blocks v !! ind)) →
  freeable sb v (nz (ind_words (t_blocks v) ind) ++ nz [ind]) →
  ∃ t' v', itrunc_tail ip ind (FState sb ic t) = Ok tt (FState sb (<[ip := set_disk (set_addr NDIRECT_n 0 (i_d i)) i]> ic) t') ∧
    trep t' v' ∧ freed sb v v' (nz (ind_words (t_blocks v) ind) ++ nz [ind]).
Proof.
  intros Ht Hcf Hh Hi Hdev Hind Hblk Hfr. unfold itrunc_tail. destruct (Z.eqb_spec ind 0) as [->|Hne].
  { exists t, v. rewrite ind_words_zero. split; [|split; [done|apply freed_nil]]. unfold mret, M_ret. do 2 f_equal. rewrite list_insert_id; [done|].
    rewrite Hi. f_equal. destruct i as [? ? ? ? d], d. unfold set_disk, set_addr. cbn in *. by rewrite list_insert_id. }
  destruct (Hblk Hne) as [Hdb [x Hx]]. rewrite (ino_step _ ip i sb ic t Hi), Hdev.
  assert (∀ g, 0 ≤ g < sb_size sb → ind ≠ BBLOCK g sb) as Hpl.
  { intros g Hg. apply (data_not_bitmap sb (t_blocks v)); [apply Hcf|apply Hdb|done]. }
  destruct (tx_bread_ok sb ic t v ind Ht (can_read_empty _ _ _ Hh Hx)) as (bp & t1 & E1 & Ht1 & Hbp & Hbp1). mstep E1.
  assert (nz (ind_words (t_blocks v) ind) = nz (word_at x <$> seq 0 (Z.to_nat NINDIRECT))) as Ew.
  { unfold ind_words. rewrite (proj2 (Z.eqb_neq _ _)) by done. by rewrite Hx. }
  rewrite Ew in *.
  destruct (itrunc_indirect_ok (Z.to_nat NINDIRECT) 0 bp ind x sb ic t1 (hold bp ind v) Ht1) as (t2 & v2 & E2 & Ht2 & Hf2);
    [|done|done|done|by apply freeable_l in Hfr|].
  { by apply can_free_hold. }
  mstep E2. destruct (brelse_last sb ic t2 v2 bp ind Ht2) as (t3 & E3 & Ht3).
  { by rewrite (fd_held _ _ _ _ Hf2). }
  { rewrite (fd_pending _ _ _ _ Hf2). cbn [hold t_pending]. rewrite (mf_pending _ _ (cf_map _ _ Hcf)). apply not_elem_of_empty. }
  mstep E3. apply freed_hold in Hf2; [|done].
  pose proof (freeable_next _ _ _ _ _ Hfr Hf2) as Hfr3. unfold nz in Hfr3 at 1. rewrite filter_cons_True in Hfr3 by done.
  pose proof (freeable_cons _ _ _ _ Hfr3) as [[Hr Hu] _].
  destruct (bfree_step (upd_disk ip (set_addr (Z.to_nat NDIRECT) 0)) sb ic t3 _ ind Ht3) as (t4 & v4 & E4 & Ht4 & Hf4);
    [by eapply can_free_next|done|done|]. rewrite E4.
  exists t4, v4. split; [|split; [done|]].
  - unfold upd_disk. rewrite (upd_ino_ok _ ip i sb ic t4 Hi). done.
  - unfold nz at 2. rewrite filter_cons_True by done. by eapply freed_app.
Qed.

Lemma itrunc_eq ip : itrunc ip = (itrunc_direct (Z.to_nat NDIRECT) ip 0;; addr ← addr_at ip (Z.to_nat NDIRECT);
  itrunc_tail ip addr;; upd_disk ip (set_size 0);; iupdate ip).
Proof. done. Qed.

(** What itrunc does. *)
Record truncated sb v v' (ds : gmap Z dinode) (inum : Z) (d : dinode) : Prop := Truncated {
  tc_ok : fs_ok sb (t_blocks v') (<[inum := emptied d]> ds);
  tc_table : itable sb (t_blocks v') (<[inum := emptied d]> ds) ∅;
  tc_other j e : j ≠ inum → ds !! j = Some e → content (t_blocks v') e = content (t_blocks v) e;
  tc_free : free_blocks sb (t_blocks v') = free_blocks sb (t_blocks v) ∪ list_to_set (file_blocks (t_blocks v) d);
  tc_one : t_blocks v' !! 1 = t_blocks v !! 1;
  tc_durable : t_durable v' = t_durable v;
  tc_slack r : slack sb v (Datatypes.S r) → slack sb v' r ∧ IBLOCK inum sb ∈ t_logged v';
}.

Lemma emptied_ok d : dinode_ok d → dinode_ok (emptied d).
Proof.
  intros [H1 H2 H3 H4 H5 H6 H7]. split; try done; rewrite ?emptied_addrs by done; [by rewrite length_replicate|].
  by apply Forall_replicate.
Qed.

Lemma itrunc_finish ip i sb ic t t2 v v2 ds :
  at_inode sb ic t v ds ip i → itable sb (t_blocks v) ds ∅ → can_free sb v → slack sb v 1 → IBLOCK (i_inum i) sb ≠ 1 →
  trep t2 v2 → freed sb v v2 (file_blocks (t_blocks v) (i_d i)) →
  let ic' := <[ip := set_disk (emptied (i_d i)) i]> ic in
  ∃ t' v', iupdate ip (FState sb ic' t2) = Ok tt (FState sb ic' t') ∧
    at_inode sb ic' t' v' (<[i_inum i := emptied (i_d i)]> ds) ip (set_disk (emptied (i_d i)) i) ∧
    truncated sb v v' ds (i_inum i) (i_d i).
Proof.
  intros [Hr Hh Hp Hok Hd Hi Hdev] Hit Hcf Hs Hne1 Hr2 Hf ic'. pose proof (fo_len Hok _ _ Hd) as Hlen.
  pose proof (emptied_addrs _ Hlen) as He0.
  pose proof (discard_ok sb v v2 ds (i_inum i) (i_d i) (emptied (i_d i)) Hok Hd Hf He0 eq_refl) as Hok2.
  assert (at_inode sb ic' t2 v2 (<[i_inum i := emptied (i_d i)]> ds) ip (set_disk (emptied (i_d i)) i)) as Hat2.
  { split; [done|by rewrite (fd_held _ _ _ _ Hf)|by rewrite (fd_pending _ _ _ _ Hf)|done|apply lookup_insert_eq|
      apply list_lookup_insert_eq; by eapply lookup_lt_Some|done]. }
  pose proof (itable_change sb (t_blocks v) (t_blocks v2) ds ∅ _ _ (emptied (i_d i)) Hok Hit Hd (emptied_ok _ (it_dinode _ _ _ _ Hit _ _ Hd))) as Hit2.
  specialize (Hit2 (λ b _ Hb, fd_frame _ _ _ _ Hf b Hb)).
  destruct (iupdate_ok ip _ sb ic' t2 v2 _ _ Hat2 Hit2) as (t3 & E3 & Hat3 & Hit3 & Hc3).
  { apply (slack_one sb v2 _ [] 0). by apply Hf. }
  exists t3, (iupdate_view sb (set_disk (emptied (i_d i)) i) v2). split; [done|]. split; [done|]. cbn [set_disk i_inum i_d] in *.
  split.
  - apply Hat3.
  - by replace (({[i_inum i]} ∪ ∅) ∖ {[i_inum i]} : gset Z) with (∅ : gset Z) in Hit3 by set_solver.
  - intros j e Hj He. rewrite (Hc3 j e) by (by rewrite lookup_insert_ne). by apply (discard_content sb v v2 ds (i_d i) Hok Hf j).
  - rewrite <- (discard_free sb v v2 ds (i_inum i) (i_d i) Hok Hd Hf). apply iupdate_free.
    apply (inode_place sb _ _ _ Hok2 Hit2 (i_inum i) _ (lookup_insert_eq _ _ _)).
  - unfold iupdate_view, update. cbn [t_blocks set_disk i_inum i_d]. rewrite lookup_insert_ne by done.
    apply (fd_frame _ _ _ _ Hf). apply Hcf.
  - apply Hf.
  - intros r Hr'. split; [|cbn; set_solver]. apply (slack_one sb v2 _ _ r). by apply Hf.
Qed.

Lemma itrunc_ok ip i sb ic t v ds :
  at_inode sb ic t v ds ip i → itable sb (t_blocks v) ds ∅ → can_free sb v → slack sb v 1 → IBLOCK (i_inum i) sb ≠ 1 →
  ∃ t' v', itrunc ip (FState sb ic t) = Ok tt (FState sb (<[ip := set_disk (emptied (i_d i)) i]> ic) t') ∧
    at_inode sb (<[ip := set_disk (emptied (i_d i)) i]> ic) t' v' (<[i_inum i := emptied (i_d i)]> ds) ip (set_disk (emptied (i_d i)) i) ∧
    truncated sb v v' ds (i_inum i) (i_d i).
Proof.
  intros Hat Hit Hcf Hs Hne1. pose proof Hat as [Hr Hh Hp Hok Hd Hi Hdev]. pose proof (fo_len Hok _ _ Hd) as Hlen.
  pose proof (file_blocks_freeable sb v ds _ _ Hok Hd) as Hfr. unfold file_blocks in Hfr.
  rewrite itrunc_eq.
  destruct (itrunc_direct_ok (Z.to_nat NDIRECT) 0 ip i sb ic t v Hr Hcf Hi Hdev) as (t1 & v1 & E1 & Hr1 & Hf1);
    [rewrite Hlen; unfold NDIRECT_n; lia|by apply freeable_l in Hfr|].
  mstep E1. set (d1 := zero_addrs 0 (Z.to_nat NDIRECT) (i_d i)) in *. set (i1 := set_disk d1 i).
  assert (<[ip := i1]> ic !! ip = Some i1) as Hi1 by (apply list_lookup_insert_eq; by eapply lookup_lt_Some).
  assert (d_addrs d1 !! NDIRECT_n = Some (ind_addr (i_d i))) as Hind.
  { rewrite <- (addr_ind _ Hlen). by apply zero_addrs_after. }
  rewrite (addr_at_step _ ip i1 (Z.to_nat NDIRECT) (ind_addr (i_d i)) sb _ t1 Hi1 Hind).
  assert (ind_words (t_blocks v1) (ind_addr (i_d i)) = ind_words (t_blocks v) (ind_addr (i_d i))) as Ew.
  { unfold ind_words. destruct (Z.eqb_spec (ind_addr (i_d i)) 0) as [|Hne]; [done|]. rewrite (fd_frame _ _ _ _ Hf1); [done|].
    intros g Hg. destruct (fo_owned Hok _ _ 0 _ Hd (blk_ind _ _) Hne) as [[? _] _]. by apply (data_not_bitmap sb (t_blocks v)); [apply Hok|..]. }
  destruct (itrunc_tail_ok ip i1 sb (<[ip := i1]> ic) t1 v1 (ind_addr (i_d i)) Hr1) as (t2 & v2 & E2 & Hr2 & Hf2);
    [by eapply can_free_next|by rewrite (fd_held _ _ _ _ Hf1)|done|done|done| | |].
  { intros Hne. destruct (fo_owned Hok _ _ 0 _ Hd (blk_ind _ _) Hne) as [Hdb _]. split; [done|].
    rewrite (fd_frame _ _ _ _ Hf1); [destruct (fo_block Hok _ Hdb) as (x & -> & _); by eexists|].
    intros g Hg. by apply (data_not_bitmap sb (t_blocks v)); [apply Hok|apply Hdb|]. }
  { rewrite Ew. by eapply freeable_next. }
  rewrite Ew in Hf2. mstep E2. pose proof (freed_app _ _ _ _ _ _ Hf1 Hf2) as Hf. fold (file_blocks (t_blocks v) (i_d i)) in Hf.
  rewrite list_insert_insert_eq. unfold i1, d1. rewrite set_disk_twice. cbn [set_disk i_d].
  change (Z.to_nat NDIRECT) with NDIRECT_n. rewrite zero_addrs_next by lia.
  rewrite (upd_disk_step _ _ ip (set_disk (zero_addrs 0 (Datatypes.S NDIRECT_n) (i_d i)) i)) by (apply list_lookup_insert_eq; by eapply lookup_lt_Some).
  rewrite list_insert_insert_eq, set_disk_twice. cbn [set_disk i_d]. fold (emptied (i_d i)). clear E1 E2 Hi1 Hind i1 d1.
  apply (itrunc_finish ip i sb ic t t2 v v2 ds); done.
Qed.
End trunc.
