(* ===== verification/FsWrite.v ===== *)
(** * The file system: writei

    The loop of writei, the new size and the update of the inode together. *)

From S2P Require Import Prelude Params Disk Superblock Txn Fs FsBlocks FsInode FsBmap FsIo FsDinode.

(** [bytes] written at [off] of a file that holds [l]. *)
Definition overwrite (off : nat) (bytes l : list Z) : list Z := take off l ++ bytes ++ drop (off + length bytes) l.

Lemma length_overwrite off bytes l :
  (off ≤ length l)%nat → length (overwrite off bytes l) = Nat.max (length l) (off + length bytes).
Proof. intros H. unfold overwrite. rewrite !length_app, length_take, length_drop. lia. Qed.

Lemma lookup_overwrite off bytes l o :
  (off ≤ length l)%nat →
  overwrite off bytes l !! o = if decide (off ≤ o < off + length bytes)%nat then bytes !! (o - off)%nat else l !! o.
Proof.
  intros H. unfold overwrite. assert (length (take off l) = off) as Ht by (rewrite length_take; lia).
  destruct (decide (o < off)%nat) as [Hlt|Hge].
  - rewrite lookup_app_l, lookup_take_lt by lia. by rewrite decide_False by lia.
  - rewrite lookup_app_r by lia. rewrite Ht. destruct (decide _) as [Hin|Hout]; [by rewrite lookup_app_l by lia|].
    rewrite lookup_app_r, lookup_drop by lia. f_equal. lia.
Qed.

(** The size of a file after writing [n] bytes at [off]. *)
Definition grown_size (off n size : Z) : Z := Z.max size (off + n).

Lemma wrote_content sb v v' ds inum d d' off bytes :
  fs_ok sb (t_blocks v) ds → ds !! inum = Some d → wrote sb v v' ds inum d d' off bytes → Z.of_nat off ≤ d_size d →
  content (t_blocks v') (set_size (grown_size (Z.of_nat off) (Z.of_nat (length bytes)) (d_size d)) d') =
    overwrite off bytes (content (t_blocks v) d).
Proof.
  intros Hok Hd Hw Hoff. set (s := grown_size _ _ _). pose proof (fo_size Hok _ _ Hd) as Hs.
  assert (off ≤ length (content (t_blocks v) d))%nat as Hl by (rewrite length_fcontent; lia).
  assert (Z.of_nat (Nat.max (Z.to_nat (d_size d)) (off + length bytes)) = s) as Es by (subst s; unfold grown_size; lia).
  apply list_eq. intros o. destruct (decide (Z.of_nat o < s)) as [Ho|Ho].
  - rewrite (lookup_content _ (set_size s d')) by done. rewrite lookup_overwrite by done.
    change (byte_at (t_blocks v') (set_size s d') o) with (byte_at (t_blocks v') d' o).
    destruct (decide (off ≤ o < off + length bytes)%nat) as [Hin|Hout].
    + destruct (wr_new _ _ _ _ _ _ _ _ _ Hw o Hin) as [_ ->].
      destruct (lookup_lt_is_Some_2 bytes (o - off)%nat ltac:(lia)) as [b ->]. done.
    + assert (Z.of_nat o < d_size d) as Hod by (subst s; unfold grown_size in *; lia).
      destruct (wr_old _ _ _ _ _ _ _ _ _ Hw o (fo_full Hok _ _ _ Hd Hod)) as [_ E]. rewrite E by done. by rewrite lookup_content.
  - rewrite !lookup_ge_None_2; [done|rewrite length_overwrite, length_fcontent by done; lia|].
    rewrite length_fcontent. cbn [set_size d_size]. lia.
Qed.

(** All blocks below the new size are there. *)
Lemma wrote_full sb v v' ds inum d d' off bytes o :
  fs_ok sb (t_blocks v) ds → ds !! inum = Some d → wrote sb v v' ds inum d d' off bytes → Z.of_nat off ≤ d_size d →
  Z.of_nat o < grown_size (Z.of_nat off) (Z.of_nat (length bytes)) (d_size d) → addr_of (t_blocks v') d' (o / BSIZE_n) ≠ 0.
Proof.
  intros Hok Hd Hw Hoff Ho. unfold grown_size in Ho. destruct (decide (Z.of_nat o < d_size d)) as [Hlt|Hge].
  - by apply (wr_old _ _ _ _ _ _ _ _ _ Hw o (fo_full Hok _ _ _ Hd Hlt)).
  - apply (wr_new _ _ _ _ _ _ _ _ _ Hw o). lia.
Qed.

(** The fields of an inode that the code has changed stay in range. *)
Lemma dinode_ok_next sb m ds inum d d' :
  fs_ok sb m ds → ds !! inum = Some d' → dinode_ok d →
  d_type d' = d_type d → d_major d' = d_major d → d_minor d' = d_minor d → d_nlink d' = d_nlink d → 0 ≤ d_size d' < 2 ^ 32 →
  dinode_ok d'.
Proof.
  intros Hok Hd [H1 H2 H3 H4 _ _ _] E1 E2 E3 E4 Hs. pose proof (fo_len Hok _ _ Hd) as Hl.
  split; [by rewrite E1|by rewrite E2|by rewrite E3|by rewrite E4|done|done|].
  apply Forall_lookup. intros n a Ha. destruct (decide (a = 0)) as [->|Hne]; [lia|].
  assert (∃ p, blk m d' !! p = Some a) as [p Hp].
  { destruct (decide (n = NDIRECT_n)) as [->|Hn].
    - exists 0%nat. rewrite blk_ind. unfold ind_addr. by rewrite Ha.
    - exists (S n). apply blk_addr; [done|]. apply lookup_lt_Some in Ha as Hlt.
      pose proof (addr_direct m d' n Hl ltac:(lia)) as E. congruence. }
  destruct (fo_owned Hok _ _ _ _ Hd Hp Hne) as [Hdb _]. pose proof (data_block_pos _ _ _ (fo_map Hok) Hdb).
  destruct Hdb. destruct (fo_map Hok) as [Hsz _ _]. lia.
Qed.

Section writei.
Context {S : Type} `{!Txn S, !DevSw S}.
Implicit Types (sb : superblock) (ic : list inode) (t : S) (v : tview).

(** What a write leaves: inode [inum] is [d'], with the bytes written and on
    disk, and all other files are as they were. *)
Record file_written sb v v' (ds : gmap Z dinode) (inum : Z) (d d' : dinode) (off : nat) (bytes : list Z) : Prop := FileWritten {
  wn_content : content (t_blocks v') d' = overwrite off bytes (content (t_blocks v) d);
  wn_size : d_size d' = grown_size (Z.of_nat off) (Z.of_nat (length bytes)) (d_size d);
  wn_meta : d_type d' = d_type d ∧ d_major d' = d_major d ∧ d_minor d' = d_minor d ∧ d_nlink d' = d_nlink d;
  wn_other j e : j ≠ inum → ds !! j = Some e → content (t_blocks v') e = content (t_blocks v) e;
  wn_table : itable sb (t_blocks v') (<[inum := d']> ds) ∅;
  wn_durable : t_durable v' = t_durable v;
  wn_log b : b ∈ t_logged v' → b ∈ t_logged v ∨ b ∈ map_blocks sb ∨ data_start sb ≤ b ∨ b = IBLOCK inum sb;
  wn_more : t_logged v ⊆ t_logged v';
}.

(** After the loop: the inode has the new size in the cache. *)
Lemma resize_at ip i sb ic t v v1 ds d1 off bytes :
  at_inode sb ic t v ds ip i → wrote sb v v1 ds (i_inum i) (i_d i) d1 off bytes → Z.of_nat off ≤ d_size (i_d i) →
  let d2 := set_size (grown_size (Z.of_nat off) (Z.of_nat (length bytes)) (d_size (i_d i))) d1 in
  ∀ t1, at_inode sb (<[ip := set_disk d1 i]> ic) t1 v1 (<[i_inum i := d1]> ds) ip (set_disk d1 i) →
  at_inode sb (<[ip := set_disk d2 i]> ic) t1 v1 (<[i_inum i := d2]> ds) ip (set_disk d2 i).
Proof.
  intros Hat Hw Hoff d2 t1 [Hr Hh Hp Hok1 Hd1 Hi1 Hdev]. pose proof Hat as [_ _ _ Hok Hd Hi _].
  cbn [set_disk i_inum i_d i_dev] in *. pose proof (fo_size Hok _ _ Hd).
  split; [done|done|done| |apply lookup_insert_eq|apply list_lookup_insert_eq; by eapply lookup_lt_Some|done].
  subst d2. rewrite <- (insert_insert_eq ds (i_inum i) _ d1). apply set_size_ok; [done|done|unfold grown_size; lia|].
  intros o Ho. by apply (wrote_full sb v v1 ds (i_inum i) (i_d i) d1 off bytes).
Qed.

(** No block has been attached if the file does not grow. *)
Lemma wrote_inside sb v v1 ds inum d d1 off bytes :
  fs_ok sb (t_blocks v) ds → ds !! inum = Some d → wrote sb v v1 ds inum d d1 off bytes →
  Z.of_nat off + Z.of_nat (length bytes) ≤ d_size d → d1 = d.
Proof.
  intros Hok Hd Hw Hs. apply (wr_same _ _ _ _ _ _ _ _ _ Hw). intros o Ho. apply (fo_full Hok _ _ _ Hd). lia.
Qed.

Lemma set_size_id d : set_size (d_size d) d = d.
Proof. by destruct d. Qed.

(** The end of writei when the file has not grown. *)
Lemma written_inside sb v v1 ds inum d off bytes :
  fs_ok sb (t_blocks v) ds → itable sb (t_blocks v) ds ∅ → ds !! inum = Some d → wrote sb v v1 ds inum d d off bytes →
  Z.of_nat off + Z.of_nat (length bytes) ≤ d_size d → file_written sb v v1 ds inum d d off bytes.
Proof.
  intros Hok Hit Hd Hw Hs. pose proof (wrote_content _ _ _ _ _ _ _ _ _ Hok Hd Hw ltac:(lia)) as Hc.
  assert (grown_size (Z.of_nat off) (Z.of_nat (length bytes)) (d_size d) = d_size d) as Eg by (unfold grown_size; lia).
  rewrite Eg, set_size_id in Hc. split; [done|done|done|apply Hw| |apply Hw| |apply Hw].
  - rewrite insert_id by done. apply (itable_frame sb (t_blocks v)); [done..|apply Hw].
  - intros b Hb%(wr_log _ _ _ _ _ _ _ _ _ Hw). naive_solver.
Qed.

(** The end of writei when it has grown: ip->size = off; iupdate(ip); *)
Lemma writei_grow ip i sb ic t1 v v1 ds d1 off bytes r :
  fs_ok sb (t_blocks v) ds → itable sb (t_blocks v) ds ∅ → ds !! i_inum i = Some (i_d i) →
  wrote sb v v1 ds (i_inum i) (i_d i) d1 off bytes →
  Z.of_nat off ≤ d_size (i_d i) → Z.of_nat off + Z.of_nat (length bytes) < 2 ^ 32 → slack sb v1 (r + cost v1 (IBLOCK (i_inum i) sb)) →
  let d2 := set_size (grown_size (Z.of_nat off) (Z.of_nat (length bytes)) (d_size (i_d i))) d1 in
  at_inode sb (<[ip := set_disk d2 i]> ic) t1 v1 (<[i_inum i := d2]> ds) ip (set_disk d2 i) →
  ∃ t2 v2, iupdate ip (FState sb (<[ip := set_disk d2 i]> ic) t1) = Ok tt (FState sb (<[ip := set_disk d2 i]> ic) t2) ∧
    at_inode sb (<[ip := set_disk d2 i]> ic) t2 v2 (<[i_inum i := d2]> ds) ip (set_disk d2 i) ∧
    file_written sb v v2 ds (i_inum i) (i_d i) d2 off bytes ∧ slack sb v2 r ∧ free_blocks sb (t_blocks v2) = free_blocks sb (t_blocks v1) ∧
    t_logged v1 ⊆ t_logged v2.
Proof.
  intros Hok Hit Hd Hw Hoff H32 Hs1 d2 Hat2. pose proof (wr_meta _ _ _ _ _ _ _ _ _ Hw) as (M1 & M2 & M3 & M4 & M5).
  pose proof (it_dinode _ _ _ _ Hit _ _ Hd) as Hdk. pose proof (dk_size _ Hdk).
  assert (dinode_ok d2) as Hd2.
  { apply (dinode_ok_next sb (t_blocks v1) _ (i_inum i) (i_d i) d2 (ai_ok _ _ _ _ _ _ _ Hat2) (lookup_insert_eq _ _ _) Hdk); try done.
    subst d2. cbn [set_size d_size]. unfold grown_size. lia. }
  pose proof (itable_change sb (t_blocks v) (t_blocks v1) ds ∅ _ _ d2 Hok Hit Hd Hd2 (wr_low _ _ _ _ _ _ _ _ _ Hw)) as Hit1.
  destruct (iupdate_ok ip _ sb _ t1 v1 _ _ Hat2 Hit1) as (t2 & E2 & Hat3 & Hit3 & Hc3).
  { by apply (slack_cost sb v1 _ [] r). }
  cbn [set_disk i_inum i_d] in *. exists t2, (iupdate_view sb (set_disk d2 i) v1). split; [done|]. split; [done|].
  split; [|split; [by apply slack_cost|split; [|cbn; set_solver]]].
  2: { apply iupdate_free. apply (inode_place sb _ _ _ (ai_ok _ _ _ _ _ _ _ Hat2) Hit1 _ d2), lookup_insert_eq. }
  split; [|done|done| | |apply Hw| |pose proof (wr_more _ _ _ _ _ _ _ _ _ Hw); cbn; set_solver].
  - rewrite (Hc3 (i_inum i) d2 (lookup_insert_eq _ _ _)). by apply (wrote_content sb v v1 ds (i_inum i) (i_d i) d1).
  - intros j e Hj He. rewrite (Hc3 j e) by (rewrite lookup_insert_ne by done; exact He). by apply (wr_other _ _ _ _ _ _ _ _ _ Hw j).
  - by replace (({[i_inum i]} ∪ ∅) ∖ {[i_inum i]} : gset Z) with (∅ : gset Z) in Hit3 by set_solver.
  - intros b. unfold iupdate_view. cbn [update t_logged set_disk i_inum]. rewrite elem_of_union, elem_of_singleton.
    intros [->|Hb%(wr_log _ _ _ _ _ _ _ _ _ Hw)]; naive_solver.
Qed.

(** writei, with [r] blocks left in the log and [q] on the disk for the rest
    of the operation. *)
Lemma writei_room ip i src off n k r q sb ic t v ds :
  at_inode sb ic t v ds ip i → itable sb (t_blocks v) ds ∅ → d_type (i_d i) ≠ T_DEV →
  0 ≤ off ≤ d_size (i_d i) → 0 ≤ n ≤ Z.of_nat (length src) → off + n ≤ MAXFILE * BSIZE →
  off `mod` BSIZE + n ≤ Z.of_nat k * BSIZE →
  slack sb v (r + cost v (IBLOCK (i_inum i) sb) + k + ind_cost v (i_d i)) → (q + (k + ind_need (i_d i)) ≤ size (free_blocks sb (t_blocks v)))%nat →
  ∃ d' t' v', writei ip src off n (FState sb ic t) = Ok n (FState sb (<[ip := set_disk d' i]> ic) t') ∧
    at_inode sb (<[ip := set_disk d' i]> ic) t' v' (<[i_inum i := d']> ds) ip (set_disk d' i) ∧
    file_written sb v v' ds (i_inum i) (i_d i) d' (Z.to_nat off) (take (Z.to_nat n) src) ∧
    slack sb v' (r + ind_cost v' d') ∧ (q + ind_need d' ≤ size (free_blocks sb (t_blocks v')))%nat ∧
    (off + n ≤ NDIRECT * BSIZE → ind_addr d' = ind_addr (i_d i)).
Proof.
  intros Hat Hit Hty Ho Hn Hmax Hk Hs Hq. pose proof Hat as [Hr Hh Hp Hok Hd Hi Hdev].
  assert (off + n < 2 ^ 32) as H32 by (change (MAXFILE * BSIZE) with 71680 in Hmax; lia).
  unfold writei. rewrite (ino_step _ ip i sb ic t Hi). cbv zeta. rewrite (proj2 (Z.eqb_neq _ T_DEV)) by done.
  rewrite u32_small by lia. rewrite (proj2 (Z.ltb_ge _ off)) by lia. rewrite (proj2 (Z.ltb_ge (off + n) off)) by lia.
  rewrite (proj2 (Z.ltb_ge (MAXFILE * BSIZE) _)) by done. cbn [orb].
  destruct (writei_loop_ok (Datatypes.S (Datatypes.S (Datatypes.S (Z.to_nat (n / BSIZE))))) ip i src off n 0 sb ic t v ds k (r + cost v (IBLOCK (i_inum i) sb)) q Hat)
    as (d1 & t1 & v1 & E1 & Hat1 & Hw & Hs1 & Hq1 & Hi1'); [lia..| | |done|lia|].
  { intros _. pose proof (Z.mod_pos_bound off BSIZE BSIZE_pos). pose proof (Z.mul_succ_div_gt n BSIZE BSIZE_pos).
    assert (0 ≤ n / BSIZE) by (apply Z.div_pos; [lia|done]). unfold BSIZE in *. lia. }
  { intros _. by rewrite Z.sub_0_r. }
  mstep E1. clear E1. rewrite Z.sub_0_r in *. set (bytes := take (Z.to_nat n) src) in *.
  assert (Z.of_nat (length bytes) = n) as Hbl by (subst bytes; rewrite length_take; lia).
  pose proof (ai_cached _ _ _ _ _ _ _ Hat1) as Hi1. rewrite (ino_step _ ip _ sb _ t1 Hi1). cbn [set_disk i_d].
  assert (d_size d1 = d_size (i_d i)) as Esz by apply Hw. rewrite Esz.
  destruct ((0 <? n) && (d_size (i_d i) <? off + n)) eqn:Eg; last first.
  { assert (off + n ≤ d_size (i_d i)) as Hle.
    { apply andb_false_iff in Eg as [Eg%Z.ltb_ge|Eg%Z.ltb_ge]; lia. }
    assert (d1 = i_d i) as -> by (apply (wrote_inside sb v v1 ds (i_inum i) (i_d i) d1 (Z.to_nat off) bytes); [done..|lia]).
    exists (i_d i), t1, v1. split; [done|]. split; [done|].
    split; [apply written_inside; [done..|lia]|]. split; [|done]. eapply slack_le; [|exact Hs1]. lia. }
  apply andb_true_iff in Eg as [H0n%Z.ltb_lt Hgt%Z.ltb_lt].
  pose proof (resize_at ip i sb ic t v v1 ds d1 (Z.to_nat off) bytes Hat Hw ltac:(lia) t1 Hat1) as Hat2.
  assert (grown_size (Z.of_nat (Z.to_nat off)) (Z.of_nat (length bytes)) (d_size (i_d i)) = off + n) as Egs by (unfold grown_size; lia).
  assert (slack sb v1 (r + ind_cost v1 d1 + cost v1 (IBLOCK (i_inum i) sb))) as Hs1'.
  { eapply slack_le; [|exact Hs1]. pose proof (cost_more v v1 (IBLOCK (i_inum i) sb) (wr_more _ _ _ _ _ _ _ _ _ Hw)). lia. }
  destruct (writei_grow ip i sb ic t1 v v1 ds d1 (Z.to_nat off) bytes (r + ind_cost v1 d1) Hok Hit Hd Hw ltac:(lia) ltac:(lia) Hs1' Hat2)
    as (t2 & v2 & E2 & Hat3 & Hwn & Hs2 & Hq2 & Hl2). rewrite Egs in *.
  exists (set_size (off + n) d1), t2, v2. split; [|split; [done|split; [done|split; [|split; [by rewrite Hq2|exact Hi1']]]]].
  2: { eapply slack_le; [|exact Hs2]. pose proof (ind_cost_same v1 v2 d1 (set_size (off + n) d1) eq_refl Hl2). lia. }
  rewrite bind_assoc, (upd_disk_step _ _ ip _ sb _ t1 Hi1).
  cbn [set_disk i_d]. rewrite list_insert_insert_eq, set_disk_twice. by mstep E2.
Qed.

Lemma writei_ok ip i src off n k sb ic t v ds :
  at_inode sb ic t v ds ip i → itable sb (t_blocks v) ds ∅ → d_type (i_d i) ≠ T_DEV →
  0 ≤ off ≤ d_size (i_d i) → 0 ≤ n ≤ Z.of_nat (length src) → off + n ≤ MAXFILE * BSIZE →
  off `mod` BSIZE + n ≤ Z.of_nat k * BSIZE →
  slack sb v (1 + k + ind_cost v (i_d i)) → (k + ind_need (i_d i) ≤ size (free_blocks sb (t_blocks v)))%nat →
  ∃ d' t' v', writei ip src off n (FState sb ic t) = Ok n (FState sb (<[ip := set_disk d' i]> ic) t') ∧
    at_inode sb (<[ip := set_disk d' i]> ic) t' v' (<[i_inum i := d']> ds) ip (set_disk d' i) ∧
    file_written sb v v' ds (i_inum i) (i_d i) d' (Z.to_nat off) (take (Z.to_nat n) src).
Proof.
  intros Hat Hit Hty Ho Hn Hmax Hk Hs Hq.
  destruct (writei_room ip i src off n k 0 0 sb ic t v ds Hat Hit Hty Ho Hn Hmax Hk) as (d' & t' & v' & E & H1 & H2 & _); [|done|].
  { eapply slack_le; [|exact Hs]. pose proof (cost_le v (IBLOCK (i_inum i) sb)). lia. }
  by exists d', t', v'.
Qed.

(** A write inside one block of the file: no block is attached and the inode
    is not written. *)
Lemma writei_inside ip i src off n r sb ic t v ds :
  at_inode sb ic t v ds ip i → itable sb (t_blocks v) ds ∅ → d_type (i_d i) ≠ T_DEV →
  0 ≤ off → 0 < n ≤ Z.of_nat (length src) → off + n ≤ d_size (i_d i) → off `mod` BSIZE + n ≤ BSIZE → slack sb v (r + 1 + ind_cost v (i_d i)) →
  ∃ t' v', writei ip src off n (FState sb ic t) = Ok n (FState sb ic t') ∧ at_inode sb ic t' v' ds ip i ∧
    file_written sb v v' ds (i_inum i) (i_d i) (i_d i) (Z.to_nat off) (take (Z.to_nat n) src) ∧
    slack sb v' r ∧ free_blocks sb (t_blocks v') = free_blocks sb (t_blocks v) ∧
    (∀ b, b < data_start sb → (∀ g, 0 ≤ g < sb_size sb → b ≠ BBLOCK g sb) → t_blocks v' !! b = t_blocks v !! b) ∧
    (∀ j e, ds !! j = Some e → blk (t_blocks v') e = blk (t_blocks v) e).
Proof.
  intros Hat Hit Hty Ho Hn Hin Hfit Hs. pose proof Hat as [Hr Hh Hp Hok Hd Hi Hdev]. set (d := i_d i) in *.
  pose proof (Z.mod_pos_bound off BSIZE BSIZE_pos) as Hmod. pose proof (fo_len Hok _ _ Hd) as Hlen.
  assert (addr_of (t_blocks v) d (Z.to_nat off / BSIZE_n) ≠ 0) as Ha by (apply (fo_full Hok _ _ _ Hd); lia).
  pose proof (addr_bound _ _ _ Hlen Ha) as Hbn. rewrite <- off_div, Z2Nat.id in Hbn by (try apply Z.div_pos; lia || done).
  assert (off + n ≤ MAXFILE * BSIZE) as Hmax by (pose proof (Z.div_mod off BSIZE); unfold BSIZE in *; lia).
  rewrite <- off_div in Ha by done. assert (0 ≤ off / BSIZE) as Hb0 by (by apply Z.div_pos).
  destruct (bmap_read ip i (off / BSIZE) sb ic t v ds Hr Hh Hp Hok Hd Hi Hdev (conj Hb0 Hbn) Ha) as (t1 & E1 & Hr1). fold d in E1.
  set (a := addr_of (t_blocks v) d (Z.to_nat (off / BSIZE))) in *.
  destruct (fo_block Hok a (leaf_data sb _ _ _ d _ Hok Hd Ha)) as (x & Hx & _).
  set (bytes := take (Z.to_nat n) src). assert (Z.of_nat (length bytes) = n) as Hbl by (subst bytes; rewrite length_take; lia).
  assert (bmapped sb v v ds (i_inum i) d d (Z.to_nat (off / BSIZE)) a r) as Hbm.
  { split; [by apply attached_refl|done|done| |done|done]. eapply slack_le; [|exact Hs]. pose proof (cost_le v a). fold d. lia. }
  assert (Z.to_nat (off `mod` BSIZE) + length bytes ≤ BSIZE_n)%nat as Hf by (pose proof BSIZE_n_eq; lia).
  destruct (turn_log sb v v ds _ _ d _ a r (Z.to_nat (off `mod` BSIZE)) bytes x Hok Hd Hbm Hx Hf ltac:(lia)) as [Hl Hs2].
  pose proof (turn_wrote sb v v ds _ _ d _ a r _ _ x Hok Hd Hbm Hx Hf ltac:(lia)) as Hw.
  rewrite off_div, off_mod, div_mod_nat in Hw by done. rewrite <- off_mod in Hw by done.
  destruct (update_step (splice (Z.to_nat (off `mod` BSIZE)) bytes) (mret (off + n)) sb ic t1 v a x Hr1
    (can_read_empty _ _ _ Hh Hx) Hx) as (t2 & E2 & Hr2); [rewrite Hp; set_solver|done|].
  pose proof (wr_ok _ _ _ _ _ _ _ _ _ Hw) as Hok2. rewrite (insert_id ds) in Hok2 by done.
  eexists t2, _. split; [|split; [by split|split; [apply written_inside; [done..|lia]|split; [|split; [|split; [apply Hw|]]]]]].
  - unfold writei. rewrite (ino_step _ ip i sb ic t Hi). cbv zeta. rewrite (proj2 (Z.eqb_neq _ T_DEV)) by done. fold d.
    change (MAXFILE * BSIZE) with 71680 in *. rewrite u32_small by lia. rewrite (proj2 (Z.ltb_ge _ off)) by lia.
    rewrite (proj2 (Z.ltb_ge (off + n) off)), (proj2 (Z.ltb_ge 71680 _)) by lia. cbn [orb].
    assert (writei_loop (Datatypes.S (Datatypes.S (Datatypes.S (Z.to_nat (n / BSIZE))))) ip src off n 0 (FState sb ic t) = Ok (off + n) (FState sb ic t2)) as E3.
    { cbn [writei_loop]. rewrite (proj2 (Z.ltb_lt 0 n)) by lia. rewrite (ino_step _ ip i sb ic t Hi). mstep E1. rewrite Hdev. cbv zeta. rewrite Z.sub_0_r.
      fold (piece off n). assert (piece off n = n) as -> by (unfold piece; lia). fold bytes. rewrite Hbl, Z.eqb_refl. cbn [negb].
      rewrite Z.add_0_l, Z.ltb_irrefl. exact E2. }
    mstep E3. rewrite (ino_step _ ip i sb ic t2 Hi). fold d. rewrite (proj2 (Z.ltb_ge (d_size d) _)) by lia. by rewrite andb_false_r.
  - eapply slack_le; [|exact Hs2]. lia.
  - apply (turn_free sb v v ds _ _ d _ a r _ _ x Hbm Hx).
  - intros j e He. cbn [update t_blocks]. by apply (leaf_blk sb _ ds (i_inum i) d (Z.to_nat (off / BSIZE)) _ Hok Hd Ha j).
Qed.
End writei.
