(* ===== verification/FsDir.v ===== *)
(** * The file system: directories

    A directory is a file of entries of [sizeof_dirent] bytes.  dirlookup and
    dirlink against the list of the entries. *)

From S2P Require Import Prelude Params Disk Superblock Txn Fs FsBlocks FsInode FsBmap FsIo FsDinode FsWrite FsIcache.

(** ** Names *)

(** The string in an array of characters. *)
Fixpoint cname (l : list Z) : list Z :=
  match l with
  | [] => []
  | c :: l => if c =? 0 then [] else c :: cname l
  end.

Record name_ok (name : list Z) : Prop := NameOk {
  nm_byte : Forall byte_ok name;
  nm_nul : 0 ∉ name;
  nm_len : (length name ≤ Z.to_nat DIRSIZ)%nat;
}.

Lemma u8_byte x : byte_ok x → u8 x = x.
Proof. intros H. unfold u8. apply Z.mod_small. unfold byte_ok in H. lia. Qed.

Lemma strncmp_list_eq n p q :
  Forall byte_ok p → Forall byte_ok q → 0 ∉ p → (length p ≤ n)%nat → length q = n → strncmp_list n p q = 0 ↔ cname q = p.
Proof.
  revert p q. induction n as [|n IH]; intros p q Hp Hq H0 Hlp Hlq.
  { destruct p; [|cbn in Hlp; lia]. destruct q; [|done]. done. }
  destruct q as [|b q]; [done|]. apply Forall_cons in Hq as [Hb Hq]. cbn [strncmp_list cname hd tl]. destruct p as [|a p].
  - cbn [hd tl]. change ((negb (0 =? 0) && (0 =? b))) with false. cbn iota. rewrite (u8_byte b) by done. change (u8 0) with 0.
    destruct (Z.eqb_spec b 0); split; intros; try done; lia.
  - apply Forall_cons in Hp as [Ha Hp]. cbn [hd tl]. assert (a ≠ 0) as Hna by set_solver. rewrite (proj2 (Z.eqb_neq a 0)) by done. cbn [negb andb].
    destruct (Z.eqb_spec a b) as [<-|Hne].
    + rewrite (proj2 (Z.eqb_neq a 0)) by done. rewrite IH; [|done|done|set_solver|cbn in Hlp; lia|by injection Hlq].
      split; [by intros ->|by intros [= ->]].
    + rewrite !u8_byte by done. split; [lia|]. destruct (b =? 0); [done|]. intros [= E _]. congruence.
Qed.

Lemma dot_ok n : (n ≤ 2)%nat → name_ok (replicate n 46).
Proof. intros Hn. split; [by apply Forall_replicate|by intros [? _]%elem_of_replicate|rewrite length_replicate; unfold DIRSIZ; lia]. Qed.

(** ** Entries *)

Definition DE : nat := Z.to_nat sizeof_dirent.

Lemma DE_eq : Z.of_nat DE = sizeof_dirent.
Proof. done. Qed.

Lemma DE_lt k n : Z.of_nat (DE * k) < sizeof_dirent * Z.of_nat n ↔ (k < n)%nat.
Proof. change DE with 16%nat. change sizeof_dirent with 16. lia. Qed.

Definition dirents (l : list Z) : list (list Z) := (λ k, slice (DE * k) DE l) <$> seq 0 (length l / DE).

(** An entry in use with the given name. *)
Definition entry_is (name de : list Z) : Prop := dirent_inum de ≠ 0 ∧ cname (dirent_name de) = name.
#[export] Instance entry_is_dec name de : Decision (entry_is name de).
Proof. unfold entry_is. apply _. Defined.

Definition dir_find (name l : list Z) : option (nat * list Z) := list_find (entry_is name) (dirents l).
Definition dir_lookup (name l : list Z) : option Z := (λ r, dirent_inum r.2) <$> dir_find name l.

(** The contents of a directory; no name is there twice. *)
Record dir_ok (l : list Z) : Prop := DirOk {
  dr_byte : Forall byte_ok l;
  dr_len : (length l `mod` DE = 0)%nat;
  dr_uniq j k x y : dirents l !! j = Some x → dirents l !! k = Some y → dirent_inum x ≠ 0 → dirent_inum y ≠ 0 →
    cname (dirent_name x) = cname (dirent_name y) → j = k;
}.

Lemma dir_len l : dir_ok l → length l = (DE * (length l / DE))%nat.
Proof. intros [_ H _]. pose proof (Nat.div_mod_eq (length l) DE). lia. Qed.

Lemma length_dirents l : length (dirents l) = (length l / DE)%nat.
Proof. unfold dirents. by rewrite length_fmap, length_seq. Qed.

Lemma lookup_dirents l k : (k < length l / DE)%nat → dirents l !! k = Some (slice (DE * k) DE l).
Proof. intros H. unfold dirents. by rewrite list_lookup_fmap, lookup_seq_lt. Qed.

Lemma dirent_ok l k : dir_ok l → (k < length l / DE)%nat → length (slice (DE * k) DE l) = DE ∧ Forall byte_ok (slice (DE * k) DE l).
Proof.
  intros Hd Hk. pose proof (dir_len l Hd). destruct Hd as [Hb _ _]. split; [apply length_slice; nia|].
  unfold slice. by apply Forall_take, Forall_drop.
Qed.

(** The comparison of dirlookup. *)
Lemma entry_test name de :
  name_ok name → length de = DE → Forall byte_ok de →
  (negb (dirent_inum de =? 0) && (namecmp name (dirent_name de) =? 0)) = bool_decide (entry_is name de).
Proof.
  intros [H1 H2 H3] Hl Hb. unfold entry_is, namecmp. apply eq_true_iff_eq.
  rewrite andb_true_iff, negb_true_iff, Z.eqb_neq, Z.eqb_eq, bool_decide_eq_true.
  rewrite strncmp_list_eq; [done|done| |done|done|].
  - unfold dirent_name, slice. by apply Forall_take, Forall_drop.
  - unfold dirent_name. apply length_slice. by rewrite Hl.
Qed.

(** ** Making entries *)

Lemma cname_pad name n : 0 ∉ name → cname (name ++ replicate n 0) = name.
Proof.
  induction name as [|c name IH]; intros H0; [by destruct n|]. cbn [app cname].
  rewrite (proj2 (Z.eqb_neq c 0)) by set_solver. rewrite IH by set_solver. done.
Qed.

Lemma cname_take n name k : 0 ∉ name → (length name ≤ n)%nat → cname (take n (name ++ replicate k 0)) = name.
Proof. intros H0 Hl. rewrite take_app_ge, take_replicate by done. by apply cname_pad. Qed.

Lemma length_mk_dirent name inum : length (mk_dirent name inum) = DE.
Proof.
  unfold mk_dirent. rewrite length_app, length_le_bytes, length_take, length_app, length_replicate.
  unfold DE, sizeof_dirent, DIRSIZ. lia.
Qed.

Lemma mk_dirent_inum name inum : 0 ≤ inum < 2 ^ 16 → dirent_inum (mk_dirent name inum) = inum.
Proof.
  intros H. unfold dirent_inum, half_at, mk_dirent. change (2 * 0)%nat with 0%nat. unfold slice. rewrite drop_0, take_app_length' by (by rewrite length_le_bytes).
  rewrite le_value_bytes. by apply Z.mod_small.
Qed.

Lemma mk_dirent_name name inum : name_ok name → cname (dirent_name (mk_dirent name inum)) = name.
Proof.
  intros [H1 H2 H3]. unfold dirent_name, mk_dirent, slice. rewrite drop_app_length' by (by rewrite length_le_bytes).
  rewrite take_take, Nat.min_id. by apply cname_take.
Qed.

Lemma mk_dirent_byte name inum : name_ok name → Forall byte_ok (mk_dirent name inum).
Proof.
  intros [H1 _ _]. unfold mk_dirent. apply Forall_app. split; [apply le_bytes_ok|]. apply Forall_take, Forall_app. split; [done|].
  by apply Forall_replicate.
Qed.

(** ** Putting an entry into a directory *)

(** [de] at entry [k], which may be the one behind the last. *)
Lemma dirents_put l k de :
  dir_ok l → length de = DE → (k ≤ length l / DE)%nat →
  dirents (overwrite (DE * k) de l) = if decide (k < length l / DE)%nat then <[k := de]> (dirents l) else dirents l ++ [de].
Proof.
  intros Hd Hde Hk. pose proof (dir_len l Hd) as Hl. set (n := (length l / DE)%nat) in *.
  assert (DE ≠ 0)%nat as HD by done.
  assert (length (overwrite (DE * k) de l) = DE * Nat.max n (S k))%nat as Ho by (rewrite length_overwrite by nia; rewrite Hde; nia).
  assert (length (overwrite (DE * k) de l) / DE = Nat.max n (S k))%nat as Hn by (rewrite Ho, Nat.mul_comm, Nat.div_mul; done).
  assert (∀ j, (j < Nat.max n (S k))%nat → dirents (overwrite (DE * k) de l) !! j = if decide (j = k) then Some de else dirents l !! j) as Hj.
  { intros j Hj. rewrite lookup_dirents by lia. destruct (decide (j = k)) as [->|Hne].
    - f_equal. unfold overwrite, slice. rewrite drop_app_length' by (rewrite length_take; nia). by apply take_app_length'.
    - rewrite lookup_dirents by lia. f_equal. apply slice_ext. intros i Hi. rewrite lookup_overwrite by nia. rewrite decide_False; [done|]. rewrite Hde. nia. }
  apply list_eq. intros j. destruct (decide (j < Nat.max n (S k))%nat) as [Hlt|Hge].
  - rewrite Hj by done. destruct (decide (k < n)%nat) as [Hkn|Hkn].
    + destruct (decide (j = k)) as [->|Hne]; [by rewrite list_lookup_insert_eq by (rewrite length_dirents; done)|by rewrite list_lookup_insert_ne].
    + assert (k = n) as -> by lia. destruct (decide (j = n)) as [->|Hne].
      * rewrite lookup_app_r by (rewrite length_dirents; done). rewrite length_dirents. fold n. by rewrite Nat.sub_diag.
      * rewrite lookup_app_l; [done|]. rewrite length_dirents. fold n. lia.
  - rewrite (lookup_ge_None_2 (dirents (overwrite _ _ _))) by (rewrite length_dirents; lia). symmetry. apply lookup_ge_None_2.
    destruct (decide (k < n)%nat); rewrite ?length_insert, ?length_app, length_dirents; cbn; fold n; lia.
Qed.

(** Only the elements with the property matter. *)
Lemma list_find_ext {A} (P : A → Prop) `{!∀ x, Decision (P x)} l l' :
  (∀ i x, P x → l !! i = Some x ↔ l' !! i = Some x) → list_find P l = list_find P l'.
Proof.
  intros Hx'. apply option_eq. intros [i x]. rewrite !list_find_Some. split; intros (Hi & Hx & Hmin).
  - split; [by apply Hx'|]. split; [done|]. intros j y Hj Hlt Hy. apply (Hmin j y); [by apply Hx'|done|done].
  - split; [by apply Hx'|]. split; [done|]. intros j y Hj Hlt Hy. apply (Hmin j y); [by apply Hx'|done|done].
Qed.

Section put_entry.
Context (l : list Z) (k : nat) (name : list Z) (inum : Z).
Context (Hd : dir_ok l) (Hname : name_ok name) (Hinum : 0 < inum < 2 ^ 16) (Hk : (k ≤ length l / DE)%nat).
Context (Hempty : ∀ de, dirents l !! k = Some de → dirent_inum de = 0).
#[local] Abbreviation l' := (overwrite (DE * k) (mk_dirent name inum) l).

Lemma put_lookup j : dirents l' !! j = if decide (j = k) then Some (mk_dirent name inum) else dirents l !! j.
Proof using Hd Hk.
  rewrite dirents_put by (done || apply length_mk_dirent). destruct (decide (k < length l / DE)%nat) as [Hlt|Hge].
  - destruct (decide (j = k)) as [->|Hne]; [by rewrite list_lookup_insert_eq by (by rewrite length_dirents)|by rewrite list_lookup_insert_ne].
  - assert (k = length (dirents l)) as Ek by (rewrite length_dirents; lia). destruct (decide (j = k)) as [->|Hne].
    + by rewrite lookup_app_r, Ek, Nat.sub_diag by lia.
    + destruct (decide (j < k)%nat) as [Hlt|Hgt]; [by rewrite lookup_app_l by lia|]. rewrite !lookup_ge_None_2; [done|lia|rewrite length_app; cbn; lia].
Qed.

Lemma put_other n : n ≠ name → dir_lookup n l' = dir_lookup n l.
Proof using Hd Hname Hk Hempty.
  intros Hn. unfold dir_lookup, dir_find. f_equal. apply list_find_ext. intros j de Hde. rewrite put_lookup.
  destruct (decide (j = k)) as [->|]; [|done]. destruct Hde as [Hi Hc]. split.
  - intros [= <-]. rewrite mk_dirent_name in Hc by done. by destruct Hn.
  - intros H. by destruct Hi; apply Hempty.
Qed.

Lemma put_new : dir_find name l = None → dir_lookup name l' = Some inum.
Proof using Hd Hname Hk Hinum.
  intros Hnone. unfold dir_lookup. assert (dir_find name l' = Some (k, mk_dirent name inum)) as ->.
  - apply list_find_Some. split; [by rewrite put_lookup, decide_True|]. split.
    + split; [rewrite mk_dirent_inum by lia; lia|by apply mk_dirent_name].
    + intros j de Hj Hlt Hde. rewrite put_lookup, decide_False in Hj by lia. unfold dir_find in Hnone.
      apply list_find_None in Hnone. rewrite Forall_lookup in Hnone. by apply (Hnone j de).
  - cbn [fmap option_fmap option_map snd]. by rewrite mk_dirent_inum by lia.
Qed.

Lemma put_dir_ok : dir_find name l = None → dir_ok l'.
Proof using Hd Hname Hinum Hk.
  intros Hnone. pose proof (dir_len l Hd) as Hl. split.
  - unfold overwrite. destruct Hd as [Hb _ _]. rewrite !Forall_app. split; [by apply Forall_take|]. split; [by apply mk_dirent_byte|by apply Forall_drop].
  - rewrite length_overwrite by (rewrite Hl at 1; apply Nat.mul_le_mono_l; done). rewrite length_mk_dirent.
    assert (Nat.max (length l) (DE * k + DE) = Nat.max (length l / DE) (k + 1) * DE)%nat as ->; [|by apply Nat.Div0.mod_mul].
    rewrite Hl at 1. nia.
  - unfold dir_find in Hnone. apply list_find_None in Hnone. rewrite Forall_lookup in Hnone.
    intros j i x y. rewrite !put_lookup. destruct (decide (j = k)) as [->|Hj], (decide (i = k)) as [->|Hi]; [done| | |by apply (dr_uniq l Hd)].
    + intros [= <-] Hy _ Hy0 E. rewrite mk_dirent_name in E by done. by destruct (Hnone i y Hy).
    + intros Hx [= <-] Hx0 _ E. rewrite mk_dirent_name in E by done. by destruct (Hnone j x Hx).
Qed.
End put_entry.

(** ** Clearing an entry *)

Section clear_entry.
Context (l : list Z) (k : nat) (name de : list Z) (Hd : dir_ok l) (Hfind : dir_find name l = Some (k, de)).
#[local] Abbreviation l' := (overwrite (DE * k) (replicate DE 0) l).

Lemma clear_at : dirents l !! k = Some de ∧ entry_is name de ∧ (k < length l / DE)%nat.
Proof using Hfind.
  apply list_find_Some in Hfind as (Hk & He & _). split; [done|]. split; [done|]. rewrite <- length_dirents. by eapply lookup_lt_Some.
Qed.

Lemma clear_lookup j : dirents l' !! j = if decide (j = k) then Some (replicate DE 0) else dirents l !! j.
Proof using Hd Hfind.
  destruct clear_at as (_ & _ & Hk). rewrite dirents_put, decide_True by (done || lia).
  destruct (decide (j = k)) as [->|Hne]; [by rewrite list_lookup_insert_eq by (by rewrite length_dirents)|by rewrite list_lookup_insert_ne].
Qed.

Lemma clear_names n : dir_lookup n l' = if decide (n = name) then None else dir_lookup n l.
Proof using Hd Hfind.
  destruct clear_at as (Hk & [Hi Hc] & _). destruct (decide (n = name)) as [->|Hn].
  - unfold dir_lookup, dir_find. assert (list_find (entry_is name) (dirents l') = None) as ->; [|done]. apply list_find_None, Forall_lookup.
    intros j x. rewrite clear_lookup. destruct (decide (j = k)) as [->|Hj]; [intros [= <-] [H _]; by destruct H|].
    intros Hx [H1 H2]. apply Hj. apply (dr_uniq l Hd j k x de Hx Hk H1 Hi). congruence.
  - unfold dir_lookup, dir_find. f_equal. apply list_find_ext. intros j x [H1 H2]. rewrite clear_lookup. destruct (decide (j = k)) as [->|]; [|done].
    split; [intros [= <-]; by destruct H1|]. intros Hx. congruence.
Qed.

Lemma clear_dir_ok : dir_ok l'.
Proof using Hd Hfind.
  destruct clear_at as (_ & _ & Hk). pose proof (dir_len l Hd) as Hl. pose proof Hd as [Hb Hm Hu]. split.
  - unfold overwrite. rewrite !Forall_app. split; [by apply Forall_take|]. split; [by apply Forall_replicate|by apply Forall_drop].
  - rewrite length_overwrite, length_replicate by nia. by rewrite Nat.max_l by nia.
  - intros j i x y. rewrite !clear_lookup. destruct (decide (j = k)) as [->|Hj]; [intros [= <-] _ H; by destruct H|].
    destruct (decide (i = k)) as [->|Hi]; [intros _ [= <-] _ H; by destruct H|]. apply Hu.
Qed.
End clear_entry.

(** ** dirlookup *)

Section dir.
Context {S : Type} `{!Txn S, !DevSw S}.
Implicit Types (sb : superblock) (ic : list inode) (t : S) (v : tview).

(** A locked inode can be read and written. *)
Lemma locked_at sb ic t v ds ip inum i : fs_rep sb ic t v ds → locked ic ip inum i → at_inode sb ic t v ds ip i.
Proof.
  intros Hfs [[Hip Hi <-] _ Hv]. destruct (co_dev (fr_cache Hfs) ip i Hip Hi) as [Hdev _].
  split; [apply Hfs|apply Hfs|apply Hfs|apply Hfs|by apply (co_valid (fr_cache Hfs) ip)|done|done].
Qed.

(** The directory in slot [dp]. *)
Record at_dir sb ic t v ds dp (dnum : Z) (i : inode) : Prop := AtDir {
  ad_fs : fs_rep sb ic t v ds;
  ad_lock : locked ic dp dnum i;
  ad_type : d_type (i_d i) = T_DIR;
  ad_ok : dir_ok (content (t_blocks v) (i_d i));
}.

Lemma at_dir_size sb ic t v ds dp dnum i :
  at_dir sb ic t v ds dp dnum i → let n := (length (content (t_blocks v) (i_d i)) / DE)%nat in d_size (i_d i) = sizeof_dirent * Z.of_nat n.
Proof.
  intros Had n. pose proof (dir_len _ (ad_ok _ _ _ _ _ _ _ _ Had)) as Hl. fold n in Hl. rewrite length_fcontent in Hl.
  pose proof (locked_at _ _ _ _ _ _ _ _ (ad_fs _ _ _ _ _ _ _ _ Had) (ad_lock _ _ _ _ _ _ _ _ Had)) as Hat.
  pose proof (fo_size (ai_ok _ _ _ _ _ _ _ Hat) _ _ (ai_inode _ _ _ _ _ _ _ Hat)). pose proof DE_eq. nia.
Qed.

Lemma read_dirent_ok msg sb ic t v ds dp dnum i k de :
  at_dir sb ic t v ds dp dnum i → dirents (content (t_blocks v) (i_d i)) !! k = Some de →
  ∃ t', read_dirent msg dp (Z.of_nat (DE * k)) (FState sb ic t) = Ok de (FState sb ic t') ∧ at_dir sb ic t' v ds dp dnum i.
Proof.
  intros Had Hk. pose proof Had as [Hfs Hlk Hty Hdo]. pose proof (locked_at _ _ _ _ _ _ _ _ Hfs Hlk) as Hat.
  pose proof (at_dir_size _ _ _ _ _ _ _ _ Had) as Hsz. cbv zeta in Hsz.
  assert (k < length (content (t_blocks v) (i_d i)) / DE)%nat as Hlt by (rewrite <- length_dirents; by eapply lookup_lt_Some).
  rewrite lookup_dirents in Hk by done. injection Hk as <-.
  assert (0 ≤ d_size (i_d i) < 2 ^ 32) as Hs32 by (apply (it_dinode _ _ _ _ (fr_table Hfs) (i_inum i)); apply Hat).
  pose proof DE_eq as HDE. set (n := (length (content (t_blocks v) (i_d i)) / DE)%nat) in *.
  assert (Z.of_nat (DE * k) + sizeof_dirent ≤ d_size (i_d i)) as Hend by (rewrite Hsz; nia).
  change sizeof_dirent with 16 in *.
  destruct (readi_ok dp i (Z.of_nat (DE * k)) 16 sb ic t v ds Hat) as (t' & E & Ht'); [rewrite Hty; done|lia|lia|].
  exists t'. split; [|by split; [eapply fs_rep_tx| | |]].
  unfold read_dirent. change sizeof_dirent with 16. mstep E.
  rewrite (proj2 (Z.ltb_ge _ _)) by lia. rewrite (proj2 (Z.leb_gt _ _)) by lia. cbn [orb].
  rewrite Z.min_l by lia. cbn [fst snd]. change (16 =? 16) with true. cbn iota. by rewrite Nat2Z.id.
Qed.

(** The result of a lookup that stops at entry [k]. *)
Definition lookup_result sb ic t v ds dp dnum i (m : outcome (fstate S) (option (nat * Z))) (r : option (nat * list Z)) : Prop :=
  match r with
  | None => ∃ t', m = Ok None (FState sb ic t') ∧ at_dir sb ic t' v ds dp dnum i
  | Some (k, de) =>
      ∃ ip ic' t', m = Ok (Some (ip, Z.of_nat (DE * k))) (FState sb ic' t') ∧ fs_rep sb ic' t' v ds ∧ got ic ic' ip (dirent_inum de)
  end.

Lemma dirlookup_loop_ok fuel sb ic t v ds dp dnum i name k :
  let es := dirents (content (t_blocks v) (i_d i)) in
  at_dir sb ic t v ds dp dnum i → name_ok name → (k ≤ length es)%nat → (length es - k < fuel)%nat →
  (∀ r, list_find (entry_is name) (drop k es) = Some r → is_Some (ds !! dirent_inum r.2) ∧ (size (refs ic) < length ic)%nat) →
  lookup_result sb ic t v ds dp dnum i (dirlookup_loop fuel dp name (Z.of_nat (DE * k)) (FState sb ic t))
    (prod_map (λ j, k + j)%nat id <$> list_find (entry_is name) (drop k es)).
Proof.
  intros es. revert k t. induction fuel as [|fuel IH]; intros k t Had Hname Hk Hf Hin; [lia|].
  pose proof Had as [Hfs Hlk Hty Hdo]. pose proof (locked_at _ _ _ _ _ _ _ _ Hfs Hlk) as Hat.
  pose proof (at_dir_size _ _ _ _ _ _ _ _ Had) as Hsz. cbv zeta in Hsz. rewrite <- length_dirents in Hsz. fold es in Hsz.
  cbn [dirlookup_loop]. rewrite (ino_step _ dp i sb ic t (ai_cached _ _ _ _ _ _ _ Hat)). rewrite Hsz. pose proof DE_eq as HDE.
  destruct (Z.ltb_spec (Z.of_nat (DE * k)) (sizeof_dirent * Z.of_nat (length es))) as [Hlt|Hge]; last first.
  { rewrite drop_ge by (apply Nat.nlt_ge; rewrite <- DE_lt; lia). cbn. exists t. split; [done|done]. }
  apply DE_lt in Hlt. destruct (lookup_lt_is_Some_2 es k Hlt) as [de Hde]. rewrite (drop_S _ _ _ Hde) in *.
  destruct (read_dirent_ok "dirlink read" sb ic t v ds dp dnum i k de Had Hde) as (t1 & E1 & Had1). mstep E1.
  assert (length de = DE ∧ Forall byte_ok de) as [Hdl Hdb].
  { assert (k < length (content (t_blocks v) (i_d i)) / DE)%nat as Hlt' by (rewrite <- length_dirents; by eapply lookup_lt_Some).
    subst es. rewrite lookup_dirents in Hde by done. injection Hde as <-. by apply dirent_ok. }
  pose proof (entry_test name de Hname Hdl Hdb) as Ht.
  cbn [list_find] in *. destruct (decide (entry_is name de)) as [He|He].
  - rewrite bool_decide_true in Ht by done. apply andb_true_iff in Ht as [Ht1%negb_true_iff Ht2]. rewrite Ht1, Ht2.
    rewrite (ai_dev _ _ _ _ _ _ _ Hat). cbn [fmap option_fmap option_map prod_map fst snd id].
    destruct (Hin _ eq_refl) as [Hds Hfree].
    destruct (iget_ok sb ic t1 v ds (dirent_inum de) (ad_fs _ _ _ _ _ _ _ _ Had1) Hds Hfree) as (ip & ic' & E2 & Hfs2 & Hgot).
    exists ip, ic', t1. split; [|done]. mstep E2. by rewrite Nat.add_0_r.
  - rewrite bool_decide_false in Ht by done.
    assert (lookup_result sb ic t v ds dp dnum i (dirlookup_loop fuel dp name (Z.of_nat (DE * k) + sizeof_dirent) (FState sb ic t1))
      (prod_map (λ j, k + j)%nat id <$> (prod_map Datatypes.S id <$> list_find (entry_is name) (drop (Datatypes.S k) es)))) as Hnext.
    { replace (Z.of_nat (DE * k) + sizeof_dirent) with (Z.of_nat (DE * Datatypes.S k)) by lia.
      assert (∀ r, list_find (entry_is name) (drop (Datatypes.S k) es) = Some r → is_Some (ds !! dirent_inum r.2) ∧ (size (refs ic) < length ic)%nat) as Hin'.
      { intros [j e] Hr. rewrite Hr in Hin. by apply (Hin (Datatypes.S j, e)). }
      specialize (IH (Datatypes.S k) t1 Had1 Hname Hlt ltac:(lia) Hin'). unfold lookup_result in *.
      destruct (list_find _ (drop (Datatypes.S k) es)) as [[j e]|]; cbn [fmap option_fmap option_map prod_map fst snd id] in *; [|done].
      by replace (k + Datatypes.S j)%nat with (Datatypes.S k + j)%nat by lia. }
    destruct (dirent_inum de =? 0); [done|]. cbn [negb andb] in Ht. by rewrite Ht.
Qed.

Lemma dirlookup_ok sb ic t v ds dp dnum i name :
  let l := content (t_blocks v) (i_d i) in
  at_dir sb ic t v ds dp dnum i → name_ok name →
  (∀ r, dir_find name l = Some r → is_Some (ds !! dirent_inum r.2) ∧ (size (refs ic) < length ic)%nat) →
  lookup_result sb ic t v ds dp dnum i (dirlookup dp name (FState sb ic t)) (dir_find name l).
Proof.
  intros l Had Hname Hin. pose proof Had as [Hfs Hlk Hty Hdo]. pose proof (locked_at _ _ _ _ _ _ _ _ Hfs Hlk) as Hat.
  pose proof (at_dir_size _ _ _ _ _ _ _ _ Had) as Hsz. cbv zeta in Hsz. rewrite <- length_dirents in Hsz. fold l in Hsz.
  unfold dirlookup. rewrite (ino_step _ dp i sb ic t (ai_cached _ _ _ _ _ _ _ Hat)), Hty. change (negb (T_DIR =? T_DIR)) with false. cbn iota.
  pose proof (dirlookup_loop_ok (Datatypes.S (Datatypes.S (Z.to_nat (d_size (i_d i) / sizeof_dirent)))) sb ic t v ds dp dnum i name 0) as H.
  cbv zeta in H. fold l in H. rewrite Nat.mul_0_r in H. change (Z.of_nat 0) with 0 in H. rewrite drop_0 in H.
  specialize (H Had Hname ltac:(lia)). unfold dir_find.
  destruct (list_find (entry_is name) (dirents l)) as [[j de]|] eqn:Ef; cbn in H; apply H;
    first [rewrite Hsz, Z.mul_comm, Z.div_mul by done; lia|unfold dir_find in Hin; rewrite Ef in Hin; done].
Qed.

(** ** dirlink *)

(** The first entry that is not in use, or the end. *)
Definition empty_at (es : list (list Z)) : nat :=
  match list_find (λ de, dirent_inum de = 0) es with Some (k, _) => k | None => length es end.

Lemma empty_at_le es : (empty_at es ≤ length es)%nat.
Proof.
  unfold empty_at. destruct (list_find _ es) as [[k de]|] eqn:E; [|done]. apply list_find_Some in E as (Hk & _). apply lookup_lt_Some in Hk. lia.
Qed.

Lemma empty_at_free es de : es !! empty_at es = Some de → dirent_inum de = 0.
Proof.
  unfold empty_at. destruct (list_find _ es) as [[k de']|] eqn:E.
  - apply list_find_Some in E as (Hk & H0 & _). congruence.
  - by rewrite lookup_ge_None_2.
Qed.

Lemma find_empty_ok fuel sb ic t v ds dp dnum i k :
  let es := dirents (content (t_blocks v) (i_d i)) in
  at_dir sb ic t v ds dp dnum i → (k ≤ length es)%nat → (length es - k < fuel)%nat →
  ∃ t', find_empty fuel dp (Z.of_nat (DE * k)) (FState sb ic t) = Ok (Z.of_nat (DE * (k + empty_at (drop k es)))) (FState sb ic t') ∧
    at_dir sb ic t' v ds dp dnum i.
Proof.
  intros es. revert k t. induction fuel as [|fuel IH]; intros k t Had Hk Hf; [lia|].
  pose proof Had as [Hfs Hlk Hty Hdo]. pose proof (locked_at _ _ _ _ _ _ _ _ Hfs Hlk) as Hat.
  pose proof (at_dir_size _ _ _ _ _ _ _ _ Had) as Hsz. cbv zeta in Hsz. rewrite <- length_dirents in Hsz. fold es in Hsz.
  cbn [find_empty]. rewrite (ino_step _ dp i sb ic t (ai_cached _ _ _ _ _ _ _ Hat)). rewrite Hsz. pose proof DE_eq as HDE.
  destruct (Z.ltb_spec (Z.of_nat (DE * k)) (sizeof_dirent * Z.of_nat (length es))) as [Hlt|Hge]; last first.
  { rewrite drop_ge by (apply Nat.nlt_ge; rewrite <- DE_lt; lia). exists t. split; [|done]. by rewrite Nat.add_0_r. }
  apply DE_lt in Hlt. destruct (lookup_lt_is_Some_2 es k Hlt) as [de Hde]. rewrite (drop_S _ _ _ Hde).
  destruct (read_dirent_ok "dirlink read" sb ic t v ds dp dnum i k de Had Hde) as (t1 & E1 & Had1). mstep E1.
  unfold empty_at. cbn [list_find]. destruct (Z.eqb_spec (dirent_inum de) 0) as [E|E].
  - rewrite decide_True by done. exists t1. by rewrite Nat.add_0_r.
  - rewrite decide_False by done. destruct (IH (Datatypes.S k) t1 Had1 Hlt ltac:(lia)) as (t2 & E2 & Had2).
    exists t2. split; [|done]. replace (Z.of_nat (DE * k) + sizeof_dirent) with (Z.of_nat (DE * Datatypes.S k)) by lia. rewrite E2.
    unfold empty_at. do 3 f_equal. destruct (list_find _ (drop (Datatypes.S k) es)) as [[j e]|]; cbn; lia.
Qed.

(** Writing to a locked inode: the file system after it. *)
Lemma icache_ok_disk ic ds ip i d' :
  icache_ok ic ds → ic !! ip = Some i → 0 < i_ref i → icache_ok (<[ip := set_disk d' i]> ic) (<[i_inum i := d']> ds).
Proof.
  intros Hic Hip Hi. assert (ip < length ic)%nat as Hlt by (by eapply lookup_lt_Some).
  assert (∀ jp j, <[ip := set_disk d' i]> ic !! jp = Some j → jp = ip ∧ j = set_disk d' i ∨ jp ≠ ip ∧ ic !! jp = Some j) as Hl.
  { intros jp j. destruct (decide (jp = ip)) as [->|]; [rewrite list_lookup_insert_eq by done; intros [= <-]; by left|].
    rewrite list_lookup_insert_ne by done. by right. }
  split.
  - intros jp j [[-> ->]|[_ Hj]]%Hl; [cbn; lia|by apply (co_ref Hic jp)].
  - intros jp j [[-> ->]|[Hne Hj]]%Hl Hr; cbn [set_disk i_dev i_inum].
    + destruct (co_dev Hic ip i Hip Hi) as [H1 _]. split; [done|]. by rewrite lookup_insert_eq.
    + destruct (co_dev Hic jp j Hj Hr) as [H1 H2]. split; [done|]. destruct (decide (i_inum j = i_inum i)) as [->|]; [by rewrite lookup_insert_eq|by rewrite lookup_insert_ne].
  - intros jp kp j k [[-> ->]|[Hne1 Hj]]%Hl [[-> ->]|[Hne2 Hk]]%Hl Hr1 Hr2; cbn [set_disk i_inum i_ref] in *; [done|..]; intros E.
    + by apply (co_uniq Hic ip kp i k).
    + by apply (co_uniq Hic jp ip j i).
    + by apply (co_uniq Hic jp kp j k).
  - intros jp j [[-> ->]|[Hne Hj]]%Hl Hr Hv; cbn [set_disk i_inum i_d]; [by rewrite lookup_insert_eq|].
    rewrite lookup_insert_ne; [by apply (co_valid Hic jp)|]. intros E. apply Hne. by apply (co_uniq Hic jp ip j i).
Qed.

Lemma fs_rep_written sb ic t v ds ip inum i d' t' v' off bytes :
  fs_rep sb ic t v ds → locked ic ip inum i →
  at_inode sb (<[ip := set_disk d' i]> ic) t' v' (<[i_inum i := d']> ds) ip (set_disk d' i) →
  file_written sb v v' ds (i_inum i) (i_d i) d' off bytes →
  fs_rep sb (<[ip := set_disk d' i]> ic) t' v' (<[inum := d']> ds) ∧ locked (<[ip := set_disk d' i]> ic) ip inum (set_disk d' i).
Proof.
  intros Hfs [[Hip Hi <-] Hb Hv] [Hr Hh Hp Hok Hd Hc _] Hw. split.
  - split; [done|done|done|done|apply Hw|apply icache_ok_disk; [apply Hfs|done|done]|].
    intros j e. destruct (decide (j = i_inum i)) as [->|Hj].
    + rewrite lookup_insert_eq. intros [= <-]. destruct (wn_meta _ _ _ _ _ _ _ _ _ Hw) as (-> & _).
      apply (fr_type Hfs (i_inum i)). by apply (co_valid (fr_cache Hfs) ip).
    + rewrite lookup_insert_ne by done. apply (fr_type Hfs).
  - split; [|done|done]. split; [done|done|done].
Qed.

(** Entries do not cross blocks. *)
Lemma entry_in_block k : Z.of_nat (DE * k) `mod` BSIZE + sizeof_dirent ≤ Z.of_nat 1 * BSIZE.
Proof.
  rewrite Nat2Z.inj_mul. change (Z.of_nat DE) with 16. change sizeof_dirent with 16. change BSIZE with (16 * 32).
  rewrite Zmult_mod_distr_l. pose proof (Z.mod_pos_bound (Z.of_nat k) 32). lia.
Qed.

(** A name that is not in the directory is put into it. *)
Lemma dirlink_new sb ic t v ds dp dnum i name inum r q :
  let l := content (t_blocks v) (i_d i) in
  at_dir sb ic t v ds dp dnum i → name_ok name → 0 < inum < 2 ^ 16 → dir_find name l = None →
  d_size (i_d i) + sizeof_dirent ≤ MAXFILE * BSIZE → slack sb v (r + cost v (IBLOCK dnum sb) + 1 + ind_cost v (i_d i)) → (q + (1 + ind_need (i_d i)) ≤ size (free_blocks sb (t_blocks v)))%nat →
  ∃ d' t' v', dirlink dp name inum (FState sb ic t) = Ok 0 (FState sb (<[dp := set_disk d' i]> ic) t') ∧
    at_dir sb (<[dp := set_disk d' i]> ic) t' v' (<[dnum := d']> ds) dp dnum (set_disk d' i) ∧
    (∀ n, dir_lookup n (content (t_blocks v') d') = if decide (n = name) then Some inum else dir_lookup n l) ∧
    (∀ j e, j ≠ dnum → ds !! j = Some e → content (t_blocks v') e = content (t_blocks v) e) ∧
    d_nlink d' = d_nlink (i_d i) ∧ d_type d' = T_DIR ∧ d_size d' ≤ d_size (i_d i) + sizeof_dirent ∧ t_logged v ⊆ t_logged v' ∧
    slack sb v' (r + ind_cost v' d') ∧ (q + ind_need d' ≤ size (free_blocks sb (t_blocks v')))%nat ∧
    (d_size (i_d i) + sizeof_dirent ≤ NDIRECT * BSIZE → ind_addr d' = ind_addr (i_d i)).
Proof.
  intros l Had Hname Hinum Hnone Hmax Hs Hq.
  unfold dirlink.
  pose proof (dirlookup_ok sb ic t v ds dp dnum i name Had Hname) as Hlk. fold l in Hlk. rewrite Hnone in Hlk.
  destruct Hlk as (t1 & E1 & Had1).
  { done. }
  mstep E1. clear E1. pose proof Had1 as [Hfs Hlock Hty Hdo]. pose proof (locked_at _ _ _ _ _ _ _ _ Hfs Hlock) as Hat.
  rewrite (ino_step _ dp i sb ic t1 (ai_cached _ _ _ _ _ _ _ Hat)).
  pose proof (at_dir_size _ _ _ _ _ _ _ _ Had1) as Hsz. cbv zeta in Hsz. rewrite <- length_dirents in Hsz. fold l in Hsz.
  destruct (find_empty_ok (Datatypes.S (Datatypes.S (Z.to_nat (d_size (i_d i) / sizeof_dirent)))) sb ic t1 v ds dp dnum i 0 Had1)
    as (t2 & E2 & Had2); [lia|fold l; rewrite Hsz, Z.mul_comm, Z.div_mul by done; lia|].
  fold l in E2. rewrite Nat.mul_0_r, drop_0, Nat.add_0_l in E2. change (Z.of_nat 0) with 0 in E2. mstep E2. clear E2.
  set (k := empty_at (dirents l)) in *. pose proof (empty_at_le (dirents l)) as Hk. fold k in Hk. pose proof Hk as Hk'. rewrite length_dirents in Hk'.
  clear dependent t1. pose proof Had2 as [Hfs _ _ _]. pose proof (locked_at _ _ _ _ _ _ _ _ Hfs Hlock) as Hat.
  assert (Z.of_nat (DE * k) ≤ d_size (i_d i)) as Hoff by (rewrite Hsz; change DE with 16%nat; change sizeof_dirent with 16; lia).
  destruct (writei_room dp i (mk_dirent name inum) (Z.of_nat (DE * k)) sizeof_dirent 1 r q sb ic t2 v ds Hat (fr_table Hfs))
    as (d' & t3 & v' & E3 & Hat3 & Hw & Hs3 & Hq3 & Hi3).
  { by rewrite Hty. } { lia. } { rewrite length_mk_dirent. by change (0 ≤ 16 ≤ 16). } { lia. }
  { apply entry_in_block. }
  { by rewrite (sl_inum _ _ _ _ (lk_slot _ _ _ _ Hlock)). }
  { done. }
  mstep E3. change (sizeof_dirent =? sizeof_dirent) with true. cbn iota.
  exists d', t3, v'. split; [done|].
  destruct (fs_rep_written sb ic t2 v ds dp dnum i d' t3 v' _ _ Hfs Hlock Hat3 Hw) as [Hfs3 Hlock3].
  pose proof (wn_content _ _ _ _ _ _ _ _ _ Hw) as Hc. rewrite Nat2Z.id, take_ge in Hc by (by rewrite length_mk_dirent). fold l in Hc.
  assert (i_inum i = dnum) as Ei by apply Hlock.
  split; [|split; [|split; [|split; [|split; [|split; [|split; [apply Hw|split; [done|split; [done|]]]]]]]]].
  - split; [done|done|cbn; by rewrite (proj1 (wn_meta _ _ _ _ _ _ _ _ _ Hw))|]. cbn [set_disk i_d]. rewrite Hc. by apply put_dir_ok.
  - intros n. rewrite Hc. destruct (decide (n = name)) as [->|Hn]; [by apply put_new|]. apply put_other; try done. intros de. apply empty_at_free.
  - intros j e Hj He. apply (wn_other _ _ _ _ _ _ _ _ _ Hw j e); [by rewrite Ei|done].
  - apply (wn_meta _ _ _ _ _ _ _ _ _ Hw).
  - by rewrite (proj1 (wn_meta _ _ _ _ _ _ _ _ _ Hw)).
  - rewrite (wn_size _ _ _ _ _ _ _ _ _ Hw). unfold grown_size. rewrite length_take, length_mk_dirent. pose proof DE_eq. lia.
  - intros Hle. apply Hi3. lia.
Qed.

(** A name that is there is refused, and nothing changes. *)
Lemma dirlink_exists sb ic t v ds dp dnum i name inum k de d :
  let l := content (t_blocks v) (i_d i) in
  at_dir sb ic t v ds dp dnum i → name_ok name → dir_find name l = Some (k, de) →
  ds !! dirent_inum de = Some d → d_nlink d ≠ 0 → (size (refs ic) < length ic)%nat →
  ∃ ic' i' t', dirlink dp name inum (FState sb ic t) = Ok (-1) (FState sb ic' t') ∧
    at_dir sb ic' t' v ds dp dnum i' ∧ i_d i' = i_d i ∧ refs ic' = refs ic ∧ slots_kept ic ic' ∧
    length ic' = length ic ∧ (quiet_but ic (Some dp) → quiet_but ic' (Some dp)).
Proof.
  intros l Had Hname Hfind Hd Hnl Hfree. pose proof Had as [Hfs Hlk Hty Hdo].
  unfold dirlink. pose proof (dirlookup_ok sb ic t v ds dp dnum i name Had Hname) as Hl. fold l in Hl. rewrite Hfind in Hl.
  destruct Hl as (ip & ic1 & t1 & E1 & Hfs1 & Hgot).
  { intros r [= <-]. split; [by eexists|done]. }
  mstep E1. destruct (gt_slot _ _ _ _ Hgot) as [j Hj].
  destruct (iput_ok sb ic1 t1 v ds ip _ j d Hfs1 Hj Hd) as (E2 & Hfs2 & Hr2); [by right|]. mstep E2.
  destruct (got_locked ic ic1 ip _ dp dnum i Hgot Hlk) as (i1 & Hlk1 & Ed & Eref).
  destruct (locked_iput ic1 dp dnum i1 ip j Hlk1 (sl_at _ _ _ _ Hj)) as (i2 & Hlk2 & Ed2).
  { intros ->. rewrite Eref, decide_True by done. destruct Hlk as [[_ ? _] _ _]. lia. }
  eexists _, i2, t1. split; [done|]. split; [|split; [congruence|split; [|split; [|split]]]].
  - split; [done|done|congruence|by rewrite Ed2, Ed].
  - rewrite Hr2, (gt_refs _ _ _ _ Hgot). apply decr_incr. intros n. apply (refs_pos ic ds), Hfs.
  - by apply (got_back ic ds ic1 ip (dirent_inum de) j); [apply Hfs|apply Hfs1|..].
  - by rewrite length_insert, (gt_len _ _ _ _ Hgot).
  - intros Hq. pose proof (gt_quiet _ _ _ _ Hgot _ Hq) as Hq1. eapply quiet_but_insert; [exact Hq1|apply Hj|].
    destruct (decide (ip = dp)) as [->|Hne]; [by left|]. right. by apply (Hq1 ip j); [apply Hj|apply Hj|congruence].
Qed.

(** The entry of a name is cleared. *)
Lemma clear_entry_ok sb ic t v ds dp dnum i name k de r :
  let l := content (t_blocks v) (i_d i) in
  at_dir sb ic t v ds dp dnum i → dir_find name l = Some (k, de) → slack sb v (r + 1 + ind_cost v (i_d i)) →
  ∃ t' v', writei dp (replicate (Z.to_nat sizeof_dirent) 0) (Z.of_nat (DE * k)) sizeof_dirent (FState sb ic t) = Ok sizeof_dirent (FState sb ic t') ∧
    at_dir sb ic t' v' ds dp dnum i ∧
    (∀ n, dir_lookup n (content (t_blocks v') (i_d i)) = if decide (n = name) then None else dir_lookup n l) ∧
    (∀ j e, j ≠ dnum → ds !! j = Some e → content (t_blocks v') e = content (t_blocks v) e) ∧
    slack sb v' r ∧ free_blocks sb (t_blocks v') = free_blocks sb (t_blocks v) ∧ t_logged v ⊆ t_logged v' ∧ t_durable v' = t_durable v ∧
    (∀ b, b < data_start sb → (∀ g, 0 ≤ g < sb_size sb → b ≠ BBLOCK g sb) → t_blocks v' !! b = t_blocks v !! b) ∧
    (∀ j e, ds !! j = Some e → blk (t_blocks v') e = blk (t_blocks v) e).
Proof.
  intros l Had Hfind Hs. pose proof Had as [Hfs Hlock Hty Hdo]. pose proof (locked_at _ _ _ _ _ _ _ _ Hfs Hlock) as Hat. fold l in Hdo.
  destruct (clear_at l k name de Hfind) as (_ & _ & Hk). pose proof (at_dir_size _ _ _ _ _ _ _ _ Had) as Hsz. cbv zeta in Hsz. fold l in Hsz.
  destruct (writei_inside dp i (replicate (Z.to_nat sizeof_dirent) 0) (Z.of_nat (DE * k)) sizeof_dirent r sb ic t v ds Hat (fr_table Hfs))
    as (t' & v' & E & Hat' & Hw & Hs' & Hf' & Hlow' & Hblk'); [by rewrite Hty|lia|by rewrite length_replicate| | |done|].
  { rewrite Hsz. change DE with 16%nat in *. change sizeof_dirent with 16. lia. } { apply entry_in_block. }
  assert (fs_rep sb ic t' v' ds) as Hfs'.
  { destruct Hat' as [H1 H2 H3 H4 H5 _ _]. pose proof (wn_table _ _ _ _ _ _ _ _ _ Hw) as H6. rewrite (insert_id ds) in H6 by done.
    split; [done|done|done|done|done|apply Hfs|apply Hfs]. }
  pose proof (wn_content _ _ _ _ _ _ _ _ _ Hw) as Hc. rewrite Nat2Z.id, take_ge in Hc by (by rewrite length_replicate). fold l in Hc. fold DE in Hc.
  exists t', v'. split; [done|]. split; [|split; [|split; [|split; [done|split; [done|split; [apply Hw|split; [apply Hw|done]]]]]]].
  - split; [done|done|done|]. rewrite Hc. by apply (clear_dir_ok l k name de).
  - intros n. rewrite Hc. by apply (clear_names l k name de).
  - intros j e Hj He. apply (wn_other _ _ _ _ _ _ _ _ _ Hw j e); [|done]. rewrite (sl_inum _ _ _ _ (lk_slot _ _ _ _ Hlock)). done.
Qed.
End dir.
