(* ===== verification/FsPath.v ===== *)
(** * The file system: path names

    The elements of a path, the inode that a path stands for, and namex. *)

From S2P Require Import Prelude Params Disk Superblock Txn Fs FsBlocks FsInode FsBmap FsIo FsDinode FsIcache FsWrite FsDir.

(** ** The elements of a path *)

(** The pieces between slashes. *)
Fixpoint split_path (path : list Z) : list (list Z) :=
  match path with
  | [] => [[]]
  | c :: path =>
      if c =? SLASH then [] :: split_path path
      else match split_path path with
           | w :: ws => (c :: w) :: ws
           | [] => [[c]]
           end
  end.

(** Empty pieces do not count, and a name is cut to [DIRSIZ] characters. *)
Definition names (path : list Z) : list (list Z) :=
  take (Z.to_nat DIRSIZ) <$> filter (λ w, w ≠ []) (split_path path).

Lemma filter_empty (ws : list (list Z)) : filter (λ w, w ≠ []) ([] :: ws) = filter (λ w, w ≠ []) ws.
Proof. apply filter_cons_False. by intros H. Qed.

Lemma split_path_cons path : ∃ w ws, split_path path = w :: ws.
Proof. destruct path as [|c path]; [by eexists _, _|]. cbn. destruct (c =? SLASH); [by eexists _, _|]. destruct (split_path path); by eexists _, _. Qed.

Lemma elem_of_path_split path : split_path path = (elem_of_path path).1 :: tail (split_path path).
Proof.
  induction path as [|c path IH]; [done|]. cbn. destruct (c =? SLASH); [done|]. rewrite IH. done.
Qed.

Lemma names_slashes path : names (skip_slashes path) = names path.
Proof.
  induction path as [|c path IH]; [done|]. cbn [skip_slashes]. destruct (c =? SLASH) eqn:E; [|done]. rewrite IH.
  unfold names. cbn [split_path]. rewrite E. by rewrite filter_empty.
Qed.

Lemma names_elem path : elem_of_path path = ((elem_of_path path).1, (elem_of_path path).2) ∧
  filter (λ w, w ≠ []) (tail (split_path path)) = filter (λ w, w ≠ []) (split_path (elem_of_path path).2).
Proof.
  split; [by destruct (elem_of_path path)|]. induction path as [|c path IH]; [by cbn [elem_of_path split_path tail snd]; rewrite filter_empty|]. cbn [elem_of_path split_path].
  destruct (c =? SLASH) eqn:E.
  - cbn [tail snd split_path]. rewrite E. by rewrite filter_empty.
  - rewrite (elem_of_path_split path). cbn [tail snd]. done.
Qed.

Lemma elem_of_path_length path : (length (elem_of_path path).1 + length (elem_of_path path).2 = length path)%nat.
Proof. induction path as [|c path IH]; [done|]. cbn. destruct (c =? SLASH); cbn; [done|]. lia. Qed.

Lemma skip_slashes_length path : (length (skip_slashes path) ≤ length path)%nat.
Proof. induction path as [|c path IH]; [done|]. cbn. destruct (c =? SLASH); cbn; lia. Qed.

(** What is left of a path starts with a name or is empty. *)
Definition trimmed (path : list Z) : Prop := skip_slashes path = path.

Lemma skip_slashes_trimmed path : trimmed (skip_slashes path).
Proof.
  unfold trimmed. induction path as [|c path IH]; [done|]. cbn [skip_slashes]. destruct (c =? SLASH) eqn:E; [done|]. cbn [skip_slashes]. by rewrite E.
Qed.

Lemma trimmed_names path : trimmed path → names path = [] ↔ path = [].
Proof.
  intros Ht. destruct path as [|c path]; [done|]. split; [|done]. intros Hn. exfalso. unfold trimmed in Ht. cbn [skip_slashes] in Ht.
  destruct (c =? SLASH) eqn:E; [pose proof (skip_slashes_length path) as Hl; rewrite Ht in Hl; cbn in Hl; lia|].
  unfold names in Hn. cbn [split_path] in Hn. rewrite E in Hn. destruct (split_path path); by rewrite filter_cons_True in Hn.
Qed.

(** skipelem takes the first name. *)
Lemma skipelem_names path :
  match skipelem path with
  | None => names path = []
  | Some (rest, name) => names path = name :: names rest ∧ trimmed rest ∧ (length rest < length path)%nat
  end.
Proof.
  unfold skipelem. pose proof (skip_slashes_trimmed path) as Ht. pose proof (skip_slashes_length path) as Hl.
  rewrite <- (names_slashes path). destruct (skip_slashes path) as [|c p] eqn:E; [done|].
  assert (c =? SLASH = false) as Hc.
  { unfold trimmed in Ht. cbn [skip_slashes] in Ht. destruct (c =? SLASH); [|done].
    pose proof (skip_slashes_length p) as Hlp. rewrite Ht in Hlp. cbn in Hlp. lia. }
  cbv zeta. destruct (names_elem (c :: p)) as [_ Hf]. pose proof (elem_of_path_length (c :: p)) as Hel.
  assert ((elem_of_path (c :: p)).1 ≠ []) as Hne by (cbn [elem_of_path]; by rewrite Hc).
  split; [|split; [apply skip_slashes_trimmed|]].
  - rewrite names_slashes. unfold names. rewrite (elem_of_path_split (c :: p)), filter_cons_True by done. rewrite fmap_cons. by rewrite Hf.
  - pose proof (skip_slashes_length (elem_of_path (c :: p)).2). destruct (elem_of_path (c :: p)).1; [done|]. cbn [length] in *. lia.
Qed.

(** Names of a path are good names. *)
Lemma names_ok path : Forall byte_ok path → 0 ∉ path → Forall name_ok (names path).
Proof.
  intros Hb H0. assert (∀ w, w ∈ split_path path → Forall byte_ok w ∧ 0 ∉ w) as Hw.
  { revert Hb H0. induction path as [|c path IH]; intros Hb H0 w; cbn [split_path].
    - intros ->%list_elem_of_singleton. split; [done|set_solver].
    - apply Forall_cons in Hb as [Hc Hb]. assert (0 ∉ path) as H0' by set_solver. specialize (IH Hb H0').
      destruct (split_path_cons path) as (w1 & ws & E). rewrite E in *. destruct (c =? SLASH).
      + intros [->|Hw]%elem_of_cons; [split; [done|set_solver]|by apply IH].
      + intros [->|Hw]%elem_of_cons; [|apply IH; set_solver]. destruct (IH w1) as [? ?]; [set_solver|]. split; [by constructor|set_solver]. }
  unfold names. apply Forall_fmap, Forall_forall. intros w [_ Hin]%list_elem_of_filter. destruct (Hw w Hin) as [H1 H2]. cbn.
  split; [by apply Forall_take| |rewrite length_take; lia]. intros H3. apply H2. by eapply elem_of_take in H3 as (? & ?%list_elem_of_lookup_2 & _).
Qed.

(** ** What a path stands for *)

(** From inode [inum], following the names. *)
Fixpoint resolve (m : gmap Z block) (ds : gmap Z dinode) (inum : Z) (ns : list (list Z)) : option Z :=
  match ns with
  | [] => Some inum
  | n :: ns =>
      d ← ds !! inum;
      if decide (d_type d = T_DIR) then
        next ← dir_lookup n (content m d);
        resolve m ds next ns
      else None
  end.

(** Directories are in order, and their entries stand for inodes that have
    links. *)
Record tree_ok (m : gmap Z block) (ds : gmap Z dinode) : Prop := TreeOk {
  tr_dir inum d : ds !! inum = Some d → d_type d = T_DIR → dir_ok (content m d);
  tr_entry inum d n k : ds !! inum = Some d → d_type d = T_DIR → dir_lookup n (content m d) = Some k →
    ∃ e, ds !! k = Some e ∧ d_nlink e ≠ 0;
}.

(** What namex looks for: the inode of the path, or the directory that its
    last name is in together with that name. *)
Fixpoint walk (m : gmap Z block) (ds : gmap Z dinode) (parent : bool) (inum : Z) (ns : list (list Z)) (name : list Z)
    : option (Z * list Z) :=
  match ns with
  | [] => if parent then None else Some (inum, name)
  | n :: ns =>
      d ← ds !! inum;
      if decide (d_type d = T_DIR) then
        if parent && bool_decide (ns = []) then Some (inum, n)
        else next ← dir_lookup n (content m d); walk m ds parent next ns n
      else None
  end.

Lemma walk_resolve m ds inum ns name : fst <$> walk m ds false inum ns name = resolve m ds inum ns.
Proof.
  revert inum name. induction ns as [|n ns IH]; intros inum name; [done|]. cbn [walk resolve].
  destruct (ds !! inum) as [d|]; [|done]. cbn. destruct (decide _); [|done]. cbn.
  destruct (dir_lookup n _) as [next|]; [|done]. cbn. apply IH.
Qed.

Lemma walk_parent m ds inum ns n name :
  walk m ds true inum (ns ++ [n]) name =
    (p ← resolve m ds inum ns; d ← ds !! p; if decide (d_type d = T_DIR) then Some (p, n) else None).
Proof.
  revert inum name. induction ns as [|n1 ns IH]; intros inum name; cbn [app walk resolve]; [done|].
  destruct (ds !! inum) as [d|]; [|done]. cbn. destruct (decide _); [|done].
  rewrite bool_decide_false by (by destruct ns). cbn. destruct (dir_lookup n1 _) as [next|]; [|done]. cbn. apply IH.
Qed.

(** ** namex *)

Section path.
Context {S : Type} `{!Txn S, !DevSw S}.
Implicit Types (sb : superblock) (ic : list inode) (t : S) (v : tview).

(** A client that had the references of [ic0] has one more, to inode [cur]
    in slot [ip]; nothing is locked. *)
Record holds ic0 sb ic t v ds ip cur : Prop := Holds {
  ho_fs : fs_rep sb ic t v ds;
  ho_refs : refs ic = incr cur (refs ic0);
  ho_kept : slots_kept ic0 ic;
  ho_quiet : quiet_but ic None;
  ho_len : length ic = length ic0;
  ho_slot : ∃ i, slot ic ip cur i;
}.

(** It has them again. *)
Record back ic0 sb ic t v ds : Prop := Back {
  bk_fs : fs_rep sb ic t v ds;
  bk_refs : refs ic = refs ic0;
  bk_kept : slots_kept ic0 ic;
  bk_quiet : quiet_but ic None;
  bk_len : length ic = length ic0;
}.

(** Giving up the reference does not delete the inode. *)
Definition lives ic0 (ds : gmap Z dinode) (cur : Z) : Prop :=
  ∃ d, ds !! cur = Some d ∧ (d_nlink d ≠ 0 ∨ is_Some (refs ic0 !! cur)).

(** The inode is locked. *)
Record visiting ic0 sb ic t v ds ip cur i : Prop := Visiting {
  vi_fs : fs_rep sb ic t v ds;
  vi_refs : refs ic = incr cur (refs ic0);
  vi_kept : slots_kept ic0 ic;
  vi_quiet : quiet_but ic (Some ip);
  vi_len : length ic = length ic0;
  vi_lock : locked ic ip cur i;
}.

(** How many references the slot of inode [cur] counts. *)
Lemma slot_count ic ds ip cur i r : icache_ok ic ds → refs ic = r → slot ic ip cur i → r !! cur = Some (i_ref i).
Proof. intros Hic <- [Hip Hi <-]. by apply (refs_slot ic ds ip). Qed.

Lemma incr_count (r : gmap Z Z) cur n : incr cur r !! cur = Some n → n = default 0 (r !! cur) + 1.
Proof. unfold incr. rewrite lookup_insert_eq. by intros [= <-]. Qed.

(** With one reference more than [ic0], the last one is not given up. *)
Lemma not_last ic0 ds cur n :
  icache_ok ic0 ds → n = default 0 (refs ic0 !! cur) + 1 →
  (is_Some (refs ic0 !! cur) → 1 < n) ∧ (lives ic0 ds cur → ∃ d, ds !! cur = Some d ∧ (n ≠ 1 ∨ d_nlink d ≠ 0)).
Proof.
  intros Hic ->. assert (is_Some (refs ic0 !! cur) → 1 < default 0 (refs ic0 !! cur) + 1) as H1.
  { intros [n Hn]. rewrite Hn. cbn. pose proof (refs_pos ic0 ds cur n Hic Hn). lia. }
  split; [done|]. intros (d & Hd & [Hl|Hs]); exists d; split; [done|by right|done|]. left. specialize (H1 Hs). lia.
Qed.

Lemma visit ic0 sb ic t v ds ip cur d :
  holds ic0 sb ic t v ds ip cur → ds !! cur = Some d →
  ∃ ic' t' i, ilock (Some ip) (FState sb ic t) = Ok tt (FState sb ic' t') ∧ visiting ic0 sb ic' t' v ds ip cur i ∧ i_d i = d.
Proof.
  intros [Hfs Hr Hk Hq Hl [i Hsl]] Hd.
  destruct (ilock_ok sb ic t v ds ip cur i d Hfs Hsl) as (i' & t' & E & Hfs' & Hlk & Ed & Er & Hk'); [by apply (Hq ip); [apply Hsl|apply Hsl|]|done|].
  eexists _, t', i'. split; [exact E|]. split; [|done]. split; [done|by rewrite Er|by eapply slots_kept_trans| |by rewrite length_insert|done].
  eapply quiet_but_insert; [by apply quiet_lock|apply Hsl|by left].
Qed.

Lemma leave ic0 sb ic t v ds ip cur i :
  icache_ok ic0 ds → visiting ic0 sb ic t v ds ip cur i → lives ic0 ds cur →
  ∃ ic', iunlockput ip (FState sb ic t) = Ok tt (FState sb ic' t) ∧ back ic0 sb ic' t v ds.
Proof.
  intros Hic0 [Hfs Hr Hk Hq Hl Hlk] Hlive.
  pose proof (slot_count ic ds ip cur i _ (fr_cache Hfs) Hr (lk_slot _ _ _ _ Hlk)) as Hn%incr_count.
  destruct (not_last ic0 ds cur (i_ref i) Hic0 Hn) as [Hmore Hkeep]. destruct (Hkeep Hlive) as (d & Hd & Hkeep').
  destruct (iunlockput_ok ic0 sb ic t v ds ip cur i d Hfs Hlk Hd Hkeep' Hic0 Hk Hmore Hq) as (ic' & E & Hfs' & Hr' & Hk' & Hq' & Hl' & _).
  exists ic'. split; [done|]. split; [done| |done|done|by rewrite Hl']. rewrite Hr', Hr. apply decr_incr. intros n. by apply (refs_pos ic0 ds).
Qed.

Lemma unlock ic0 sb ic t v ds ip cur i :
  visiting ic0 sb ic t v ds ip cur i →
  ∃ ic', iunlock (Some ip) (FState sb ic t) = Ok tt (FState sb ic' t) ∧ holds ic0 sb ic' t v ds ip cur.
Proof.
  intros [Hfs Hr Hk Hq Hl Hlk].
  destruct (iunlock_ok sb ic t v ds ip cur i Hfs Hlk) as (i' & E & Hfs' & Hsl & _ & _ & Hb & _ & Hr' & Hk').
  eexists. split; [exact E|]. split; [done|by rewrite Hr'|by eapply slots_kept_trans| |by rewrite length_insert|by eexists].
  eapply quiet_unlock; [|apply Hsl|done]. eapply quiet_but_insert; [done|apply Hlk|by left].
Qed.

Lemma advance ic0 sb ic t v ds ip cur i ic1 t1 np next :
  icache_ok ic0 ds → visiting ic0 sb ic t v ds ip cur i → lives ic0 ds cur →
  fs_rep sb ic1 t1 v ds → got ic ic1 np next →
  ∃ ic2, iunlockput ip (FState sb ic1 t1) = Ok tt (FState sb ic2 t1) ∧ holds ic0 sb ic2 t1 v ds np next.
Proof.
  intros Hic0 [Hfs Hr Hk Hq Hl Hlk] Hlive Hfs1 Hgot.
  pose proof (slot_count ic ds ip cur i _ (fr_cache Hfs) Hr (lk_slot _ _ _ _ Hlk)) as Hn%incr_count.
  destruct (not_last ic0 ds cur (i_ref i) Hic0 Hn) as [Hmore Hkeep]. destruct (Hkeep Hlive) as (d & Hd & Hkeep').
  destruct (got_locked ic ic1 np next ip cur i Hgot Hlk) as (i1 & Hlk1 & _ & Er1).
  assert (i_ref i ≤ i_ref i1) as Hle by (rewrite Er1; destruct (decide _); lia).
  assert (0 < i_ref i) as Hpos by apply Hlk.
  destruct (iunlockput_ok ic0 sb ic1 t1 v ds ip cur i1 d Hfs1 Hlk1 Hd) as (ic2 & E & Hfs2 & Hr2 & Hk2 & Hq2 & Hl2 & Hsl2).
  { destruct Hkeep'; [left; lia|by right]. }
  { done. } { eapply slots_kept_trans; [done|apply Hgot]. } { intros Hs. specialize (Hmore Hs). lia. } { by apply Hgot. }
  exists ic2. split; [done|]. split; [done| |done|done|by rewrite Hl2, (gt_len _ _ _ _ Hgot)|].
  - rewrite Hr2, (gt_refs _ _ _ _ Hgot), Hr, incr_comm. apply decr_incr. intros n. apply incr_pos. intros k. by apply (refs_pos ic0 ds).
  - destruct (gt_slot _ _ _ _ Hgot) as [j Hj]. apply (Hsl2 np next j Hj). intros ->. rewrite Er1, decide_True by done. lia.
Qed.

Lemma drop_ref ic0 sb ic t v ds ip cur :
  icache_ok ic0 ds → holds ic0 sb ic t v ds ip cur → lives ic0 ds cur →
  ∃ ic', iput ip (FState sb ic t) = Ok tt (FState sb ic' t) ∧ back ic0 sb ic' t v ds.
Proof.
  intros Hic0 [Hfs Hr Hk Hq Hl [i Hsl]] Hlive. pose proof (slot_count ic ds ip cur i _ (fr_cache Hfs) Hr Hsl) as Hn%incr_count.
  destruct (not_last ic0 ds cur (i_ref i) Hic0 Hn) as [Hmore Hkeep]. destruct (Hkeep Hlive) as (d & Hd & Hkeep').
  destruct (iput_ok sb ic t v ds ip cur i d Hfs Hsl Hd Hkeep') as (E & Hfs' & Hr').
  eexists. split; [exact E|]. split; [done| | | |by rewrite length_insert].
  - rewrite Hr', Hr. apply decr_incr. intros n. by apply (refs_pos ic0 ds).
  - by apply (iput_kept ic0 ds ic ip cur i); [done|apply Hfs|..].
  - eapply quiet_but_insert; [done|apply Hsl|]. right. by apply (Hq ip i); [apply Hsl|apply Hsl|].
Qed.

(** What namex returns: an inode with a reference to it, or nothing. *)
Definition namex_result ic0 sb v ds (m : outcome (fstate S) (option (nat * list Z))) (r : option (Z * list Z)) : Prop :=
  match r with
  | None => ∃ ic t, m = Ok None (FState sb ic t) ∧ back ic0 sb ic t v ds
  | Some (inum, name) => ∃ ip ic t, m = Ok (Some (ip, name)) (FState sb ic t) ∧ holds ic0 sb ic t v ds ip inum
  end.

Lemma namex_loop_ok fuel ic0 path parent name ip sb ic t v ds cur :
  icache_ok ic0 ds → tree_ok (t_blocks v) ds → (size (refs ic0) + 2 ≤ length ic0)%nat →
  holds ic0 sb ic t v ds ip cur → lives ic0 ds cur → Forall name_ok (names path) → (length path < fuel)%nat →
  namex_result ic0 sb v ds (namex_loop fuel path parent name ip (FState sb ic t)) (walk (t_blocks v) ds parent cur (names path) name).
Proof.
  intros Hic0 Htree Hsz. revert path name ip ic t cur. induction fuel as [|fuel IH]; intros path name ip ic t cur Hho Hlive Hok Hf; [lia|].
  cbn [namex_loop]. pose proof (skipelem_names path) as Hsk. destruct (skipelem path) as [[rest n]|].
  2:{ rewrite Hsk. cbn [walk]. destruct parent; [|by exists ip, ic, t].
      destruct (drop_ref ic0 sb ic t v ds ip cur Hic0 Hho Hlive) as (ic' & E & Hb). mstep E. by exists ic', t. }
  destruct Hsk as (Hn & Htr & Hlen). rewrite Hn in *. apply Forall_cons in Hok as [Hnok Hok]. cbn [walk].
  pose proof Hlive as (d & Hd & _). rewrite Hd. cbn [mbind option_bind].
  destruct (visit ic0 sb ic t v ds ip cur d Hho Hd) as (ic1 & t1 & i & E1 & Hvi & Ed). mstep E1.
  pose proof Hvi as [Hfs1 Hr1 Hk1 Hq1 Hl1 Hlk1]. rewrite (ino_step _ ip i sb ic1 t1) by apply Hlk1. rewrite Ed.
  destruct (decide (d_type d = T_DIR)) as [Hty|Hty]; last first.
  { rewrite (proj2 (Z.eqb_neq _ _)) by done. cbn [negb].
    destruct (leave ic0 sb ic1 t1 v ds ip cur i Hic0 Hvi Hlive) as (ic2 & E2 & Hb). mstep E2. by exists ic2, t1. }
  rewrite Hty. change (negb (T_DIR =? T_DIR)) with false. cbn iota.
  assert (match rest with [] => true | _ => false end = bool_decide (names rest = [])) as ->.
  { symmetry. destruct rest as [|c rest]; [done|]. apply bool_decide_false. rewrite trimmed_names by done. done. }
  destruct (parent && bool_decide (names rest = [])).
  { destruct (unlock ic0 sb ic1 t1 v ds ip cur i Hvi) as (ic2 & E2 & Hho2). mstep E2. by exists ip, ic2, t1. }
  assert (at_dir sb ic1 t1 v ds ip cur i) as Had.
  { split; [done|done|by rewrite Ed|]. rewrite Ed. by apply (tr_dir _ _ Htree cur). }
  pose proof (dirlookup_ok sb ic1 t1 v ds ip cur i n Had Hnok) as Hlook. cbv zeta in Hlook. rewrite Ed in Hlook.
  assert (∀ r, dir_find n (content (t_blocks v) d) = Some r → ∃ e, ds !! dirent_inum r.2 = Some e ∧ d_nlink e ≠ 0) as Hent.
  { intros r Hr. apply (tr_entry _ _ Htree cur d n); [done|done|]. unfold dir_lookup. by rewrite Hr. }
  assert (size (refs ic1) < length ic1)%nat as Hsz1 by (rewrite Hr1, Hl1; pose proof (size_incr (refs ic0) cur); lia).
  assert (∀ r, dir_find n (content (t_blocks v) d) = Some r → is_Some (ds !! dirent_inum r.2) ∧ (size (refs ic1) < length ic1)%nat) as Hin.
  { intros r Hr. split; [|done]. destruct (Hent r Hr) as (e & He & _). by exists e. }
  specialize (Hlook Hin). unfold dir_lookup. destruct (dir_find n (content (t_blocks v) d)) as [[k de]|]; cbn [fmap option_fmap option_map mbind option_bind].
  - destruct Hlook as (np & ic2 & t2 & E2 & Hfs2 & Hgot). mstep E2.
    destruct (advance ic0 sb ic1 t1 v ds ip cur i ic2 t2 np _ Hic0 Hvi Hlive Hfs2 Hgot) as (ic3 & E3 & Hho3). mstep E3.
    apply IH; [done| |done|lia]. destruct (Hent _ eq_refl) as (e & He & Hnl). exists e. split; [done|by left].
  - destruct Hlook as (t2 & E2 & Had2). mstep E2.
    destruct (leave ic0 sb ic1 t2 v ds ip cur i Hic0) as (ic3 & E3 & Hb); [|done|mstep E3; by exists ic3, t2].
    split; [apply Had2|done..].
Qed.

(** The inode at which a path starts. *)
Definition start (cwdnum : Z) (path : list Z) : Z :=
  match path with c :: _ => if c =? SLASH then ROOTINO else cwdnum | [] => cwdnum end.

(** A state in which namex can run: nobody has an inode locked, two slots of
    the cache are free, and the root is there. *)
Record can_walk sb ic t v ds (cwd : nat) (cwdnum : Z) (path : list Z) : Prop := CanWalk {
  cw_fs : fs_rep sb ic t v ds;
  cw_tree : tree_ok (t_blocks v) ds;
  cw_quiet : quiet_but ic None;
  cw_free : (size (refs ic) + 2 ≤ length ic)%nat;
  cw_cwd : ∃ i, slot ic cwd cwdnum i;
  cw_root : ∃ d, ds !! ROOTINO = Some d ∧ d_nlink d ≠ 0;
  cw_path : Forall byte_ok path ∧ 0 ∉ path;
}.

Lemma got_holds sb ic t v ds ic' ip inum : quiet_but ic None → fs_rep sb ic' t v ds → got ic ic' ip inum → holds ic sb ic' t v ds ip inum.
Proof. intros Hq Hfs [H1 H2 H3 H4 H5 _]. split; [done|done|done|by apply H4|done|done]. Qed.

Lemma namex_ok sb ic t v ds cwd cwdnum path parent :
  can_walk sb ic t v ds cwd cwdnum path →
  namex_result ic sb v ds (namex cwd path parent (FState sb ic t))
    (walk (t_blocks v) ds parent (start cwdnum path) (names path) []).
Proof.
  intros [Hfs Htree Hq Hfree [i Hcwd] (d & Hroot & Hnl) [Hb H0]]. pose proof (names_ok path Hb H0) as Hn.
  assert (∃ ip ic', (match path with c :: _ => if c =? SLASH then iget ROOTDEV ROOTINO else idup cwd | [] => idup cwd end) (FState sb ic t) =
    Ok ip (FState sb ic' t) ∧ holds ic sb ic' t v ds ip (start cwdnum path) ∧ lives ic ds (start cwdnum path)) as (ip & ic' & E & Hho & Hlive).
  { assert (∃ ic', idup cwd (FState sb ic t) = Ok cwd (FState sb ic' t) ∧ holds ic sb ic' t v ds cwd cwdnum ∧ lives ic ds cwdnum) as Hdup.
    { destruct (idup_ok sb ic t v ds cwd cwdnum i Hfs Hcwd) as (ic' & E & Hfs' & Hgot). exists ic'. split; [done|]. split; [by apply got_holds|].
      destruct Hcwd as [H1 H2 <-]. destruct (co_dev (fr_cache Hfs) cwd i H1 H2) as [_ [e He]]. exists e. split; [done|]. right.
      eexists. by apply (refs_slot ic ds cwd i); [apply Hfs|..]. }
    destruct path as [|c path]; [by exists cwd|]. cbn [start]. destruct (c =? SLASH); [|by exists cwd].
    destruct (iget_ok sb ic t v ds ROOTINO Hfs) as (ip & ic' & E & Hfs' & Hgot); [by eexists|lia|].
    exists ip, ic'. split; [done|]. split; [by apply got_holds|]. exists d. split; [done|by left]. }
  unfold namex. mstep E. apply namex_loop_ok; [apply Hfs|done|done|done|done|done|lia].
Qed.

Lemma namei_ok sb ic t v ds cwd cwdnum path :
  can_walk sb ic t v ds cwd cwdnum path →
  match resolve (t_blocks v) ds (start cwdnum path) (names path) with
  | Some inum => ∃ ip ic' t', namei cwd path (FState sb ic t) = Ok (Some ip) (FState sb ic' t') ∧ holds ic sb ic' t' v ds ip inum
  | None => ∃ ic' t', namei cwd path (FState sb ic t) = Ok None (FState sb ic' t') ∧ back ic sb ic' t' v ds
  end.
Proof.
  intros Hw. pose proof (namex_ok sb ic t v ds cwd cwdnum path false Hw) as H. rewrite <- (walk_resolve _ _ _ _ []). unfold namei.
  destruct (walk _ _ _ _ _ _) as [[inum name]|]; cbn [namex_result fmap option_fmap option_map fst] in *.
  - destruct H as (ip & ic' & t' & E & Hho). exists ip, ic', t'. split; [by mstep E|done].
  - destruct H as (ic' & t' & E & Hb). exists ic', t'. split; [by mstep E|done].
Qed.
End path.
