(* ===== verification/FsCheck.v ===== *)
(** * The file system: a checker

    The invariants of a file system as boolean functions, so that they can be
    established for a concrete disk by running them. *)

From S2P Require Import Prelude Params Disk Superblock Txn Fs FsBlocks FsInode FsBmap FsDinode FsIcache FsDir FsPath.

#[export] Instance dinode_eq_dec : EqDecision dinode.
Proof. solve_decision. Defined.

(** A property of all numbers below a bound. *)
Definition all_below (n : Z) (f : Z → bool) : bool := forallb f (seqZ 0 n).

Lemma all_below_ok n f z : all_below n f = true → 0 ≤ z < n → f z = true.
Proof. unfold all_below. rewrite forallb_forall. intros H Hz. apply H. apply list_elem_of_In, elem_of_seqZ. lia. Qed.

(** A property of all inodes. *)
Definition all_inodes (ds : gmap Z dinode) (f : Z → dinode → bool) : bool := forallb (λ e, f e.1 e.2) (map_to_list ds).

Lemma all_inodes_ok ds f i d : all_inodes ds f = true → ds !! i = Some d → f i d = true.
Proof. unfold all_inodes. rewrite forallb_forall. intros H Hd. apply (H (i, d)). apply list_elem_of_In. by apply elem_of_map_to_list. Qed.

(** The block is there and has the right size. *)
Definition whole_block (m : gmap Z block) (b : Z) : bool :=
  match m !! b with Some x => bool_decide (length x = BSIZE_n) | None => false end.

Lemma whole_block_ok m b : whole_block m b = true → ∃ x, m !! b = Some x ∧ length x = BSIZE_n.
Proof. unfold whole_block. destruct (m !! b) as [x|]; [|done]. intros H%bool_decide_eq_true. by exists x. Qed.

(** The positions of two inodes share no block. *)
Definition apart (same : bool) (l1 l2 : list Z) : bool :=
  forallb (λ e1, (e1.2 =? 0) || forallb (λ e2, negb (e1.2 =? e2.2) || same && (e1.1 =? e2.1)%nat) (imap pair l2)) (imap pair l1).

Lemma apart_ok same l1 l2 p1 p2 b : apart same l1 l2 = true → l1 !! p1 = Some b → l2 !! p2 = Some b → b ≠ 0 → same = true ∧ p1 = p2.
Proof.
  unfold apart. rewrite forallb_forall. intros H H1 H2 Hb.
  assert (∀ (l : list Z) p, l !! p = Some b → In (p, b) (imap pair l)) as Hin.
  { intros l p Hp. apply list_elem_of_In, list_elem_of_lookup. exists p. by rewrite list_lookup_imap, Hp. }
  specialize (H (p1, b) (Hin l1 p1 H1)). cbn [fst snd] in H. rewrite (proj2 (Z.eqb_neq b 0)) in H by done. cbn [orb] in H.
  rewrite forallb_forall in H. specialize (H (p2, b) (Hin l2 p2 H2)). cbn [fst snd] in H. rewrite Z.eqb_refl in H. cbn [negb orb] in H.
  apply andb_true_iff in H as [-> H%Nat.eqb_eq]. done.
Qed.

Definition map_check (sb : superblock) (m : gmap Z block) : bool :=
  (0 <=? sb_size sb) && (sb_size sb <? 2 ^ 31) && (0 <=? sb_bmapstart sb) && (sb_bmapstart sb <? 2 ^ 31) &&
  all_below (sb_size sb) (λ b, whole_block m (BBLOCK b sb)).

Lemma map_check_ok sb m : map_check sb m = true → map_ok sb m.
Proof.
  unfold map_check. rewrite !andb_true_iff, !Z.leb_le, !Z.ltb_lt. intros ((((H1 & H2) & H3) & H4) & H5).
  split; [done|done|]. intros b Hb. by apply whole_block_ok, (all_below_ok _ _ b H5).
Qed.

Definition own_check (sb : superblock) (m : gmap Z block) (d : dinode) : bool :=
  forallb (λ b, (b =? 0) || (data_start sb <=? b) && (b <? sb_size sb) && used sb m b) (blk m d) &&
  bool_decide (length (d_addrs d) = S NDIRECT_n) && (0 <=? d_size d) &&
  forallb (λ bn, negb (addr_of m d bn =? 0)) (seq 0 (Z.to_nat ((d_size d + BSIZE - 1) / BSIZE))).

Definition fs_check (sb : superblock) (m : gmap Z block) (ds : gmap Z dinode) : bool :=
  map_check sb m &&
  all_below (sb_size sb) (λ b, if b <? data_start sb then used sb m b else whole_block m b) &&
  all_inodes ds (λ _, own_check sb m) &&
  all_inodes ds (λ i d, let l := blk m d in all_inodes ds (λ i' d', apart (i =? i') l (blk m d'))).

Lemma fs_check_ok sb m ds : fs_check sb m ds = true → fs_ok sb m ds.
Proof.
  unfold fs_check. rewrite !andb_true_iff. intros (((H1%map_check_ok & H2) & H3) & H4).
  assert (∀ i d, ds !! i = Some d → own_check sb m d = true) as Hown by (intros i d; apply (all_inodes_ok _ _ i d H3)).
  unfold own_check in Hown. setoid_rewrite andb_true_iff in Hown. setoid_rewrite andb_true_iff in Hown. setoid_rewrite andb_true_iff in Hown.
  split.
  - done.
  - intros b Hb Hs. pose proof (all_below_ok _ _ b H2 ltac:(lia)) as Hc. cbn beta in Hc. by rewrite (proj2 (Z.ltb_lt _ _)) in Hc by lia.
  - intros b Hb. pose proof (data_block_pos _ _ _ H1 Hb). destruct Hb as [Hb1 Hb2]. pose proof (all_below_ok _ _ b H2 ltac:(lia)) as Hc.
    cbn beta in Hc. rewrite (proj2 (Z.ltb_ge _ _)) in Hc by lia. by apply whole_block_ok.
  - intros i d ((( _ & Hc%bool_decide_eq_true) & _) & _)%Hown. done.
  - intros i d p b (((Hc & _) & _) & _)%Hown Hp Hb. rewrite forallb_forall in Hc.
    specialize (Hc b). rewrite <- list_elem_of_In in Hc. specialize (Hc (list_elem_of_lookup_2 _ _ _ Hp)).
    rewrite (proj2 (Z.eqb_neq b 0)) in Hc by done. cbn [orb] in Hc. rewrite !andb_true_iff, Z.leb_le, Z.ltb_lt in Hc.
    destruct Hc as [[Hb1 Hb2] Hu]. done.
  - intros i1 i2 d1 d2 p1 p2 b Hd1 Hd2 Hp1 Hp2 Hb. pose proof (all_inodes_ok _ _ i1 d1 H4 Hd1) as Hc. cbv beta zeta in Hc.
    pose proof (all_inodes_ok _ _ i2 d2 Hc Hd2) as Hc'. cbn beta in Hc'. destruct (apart_ok _ _ _ _ _ _ Hc' Hp1 Hp2 Hb) as [E%Z.eqb_eq ->]. done.
  - intros i d (((_ & _) & Hc%Z.leb_le) & _)%Hown. done.
  - intros i d o Hd Ho. destruct (Hown i d Hd) as ((_ & H0%Z.leb_le) & Hc). rewrite forallb_forall in Hc. specialize (Hc (o / BSIZE_n)%nat).
    rewrite negb_true_iff, Z.eqb_neq in Hc. apply Hc. apply in_seq. split; [lia|]. cbn [Nat.add].
    apply Nat2Z.inj_lt. rewrite Nat2Z.inj_div, Z2Nat.id by (apply Z.div_pos; [unfold BSIZE; lia|done]). change (Z.of_nat BSIZE_n) with BSIZE.
    unfold BSIZE. Z.div_mod_to_equations. lia.
Qed.

Definition dinode_check (d : dinode) : bool :=
  forallb (λ z, (- 2 ^ 15 <=? z) && (z <? 2 ^ 15)) [d_type d; d_major d; d_minor d; d_nlink d] &&
  forallb (λ z, (0 <=? z) && (z <? 2 ^ 32)) (d_size d :: d_addrs d) && bool_decide (length (d_addrs d) = S NDIRECT_n).

Lemma forallb_range lo hi l : forallb (λ z, (lo <=? z) && (z <? hi)) l = true → Forall (λ z, lo ≤ z < hi) l.
Proof.
  rewrite forallb_forall. intros H. apply Forall_forall. intros z Hz. specialize (H z). rewrite <- list_elem_of_In in H. specialize (H Hz).
  apply andb_true_iff in H as [H1%Z.leb_le H2%Z.ltb_lt]. lia.
Qed.

Lemma dinode_check_ok d : dinode_check d = true → dinode_ok d.
Proof.
  unfold dinode_check. rewrite !andb_true_iff. intros [[H1%forallb_range H2%forallb_range] H3%bool_decide_eq_true].
  rewrite !Forall_cons in H1. rewrite !Forall_cons in H2. destruct H1 as (? & ? & ? & ? & _), H2 as [? ?]. by split.
Qed.

Definition itable_check (sb : superblock) (m : gmap Z block) (ds : gmap Z dinode) : bool :=
  (0 <=? sb_inodestart sb) &&
  all_inodes ds (λ i d, (0 <=? i) && (i / IPB + sb_inodestart sb <? sb_bmapstart sb) && dinode_check d &&
    whole_block m (IBLOCK i sb) && bool_decide (get_dinode i (default [] (m !! IBLOCK i sb)) = d)).

Lemma itable_check_ok sb m ds : itable_check sb m ds = true → itable sb m ds ∅.
Proof.
  unfold itable_check. rewrite andb_true_iff, Z.leb_le. intros [H1 H2].
  assert (∀ i d, ds !! i = Some d → 0 ≤ i ∧ i / IPB + sb_inodestart sb < sb_bmapstart sb ∧ dinode_ok d ∧
    whole_block m (IBLOCK i sb) = true ∧ get_dinode i (default [] (m !! IBLOCK i sb)) = d) as H.
  { intros i d Hd. pose proof (all_inodes_ok _ _ i d H2 Hd) as H. cbn beta in H. rewrite !andb_true_iff, Z.leb_le, Z.ltb_lt in H.
    destruct H as [[[[? ?] ?%dinode_check_ok] ?] ?%bool_decide_eq_true]. done. }
  split.
  - intros i d Hd. by apply (H i d).
  - done.
  - intros i d Hd. by apply (H i d).
  - intros i d Hd. by apply (H i d).
  - intros i d Hd. destruct (H i d Hd) as (_ & _ & _ & (x & Hx & Hl)%whole_block_ok & Hg). exists x. split; [done|]. split; [done|].
    intros _. by rewrite Hx in Hg.
Qed.

(** The names that are in use. *)
Definition used_names (l : list Z) : list (list Z) := (cname ∘ dirent_name) <$> filter (λ de, dirent_inum de ≠ 0) (dirents l).

Lemma NoDup_filter_index {A B} (f : A → B) (P : A → Prop) `{!∀ x, Decision (P x)} l j k x y :
  NoDup (f <$> filter P l) → l !! j = Some x → l !! k = Some y → P x → P y → f x = f y → j = k.
Proof.
  revert j k. induction l as [|z l IH]; intros j k; [done|]. rewrite filter_cons. destruct (decide (P z)) as [Hz|Hz].
  - rewrite fmap_cons, NoDup_cons. intros [Hn Hnd] Hj Hk Hx Hy E.
    assert (∀ i w, l !! i = Some w → P w → f w ≠ f z) as Hne.
    { intros i w Hi Hw Ew. apply Hn. rewrite <- Ew. apply list_elem_of_fmap_2, list_elem_of_filter. split; [done|]. by eapply list_elem_of_lookup_2. }
    destruct j as [|j], k as [|k]; cbn in Hj, Hk; simplify_eq/=; [done| | |f_equal; by eapply IH].
    + by destruct (Hne k y).
    + by destruct (Hne j x).
  - intros Hnd Hj Hk Hx Hy E. destruct j as [|j], k as [|k]; cbn in Hj, Hk; simplify_eq/=; try done. f_equal. by eapply IH.
Qed.

Definition dir_check (m : gmap Z block) (ds : gmap Z dinode) (d : dinode) : bool :=
  let l := content m d in
  forallb (λ z, (0 <=? z) && (z <? 256)) l && (bool_decide (length l `mod` DE = 0)%nat && bool_decide (NoDup (used_names l))) &&
  forallb (λ de, (dirent_inum de =? 0) || match ds !! dirent_inum de with Some e => negb (d_nlink e =? 0) | None => false end) (dirents l).

Definition tree_check (m : gmap Z block) (ds : gmap Z dinode) : bool :=
  all_inodes ds (λ _ d, negb (d_type d =? T_DIR) || dir_check m ds d).

Lemma tree_check_ok m ds : tree_check m ds = true → tree_ok m ds.
Proof.
  intros H. assert (∀ i d, ds !! i = Some d → d_type d = T_DIR → dir_check m ds d = true) as Hd.
  { intros i d Hd Hty. pose proof (all_inodes_ok _ _ i d H Hd) as H'. cbn beta in H'. rewrite Hty in H'. exact H'. }
  unfold dir_check in Hd. cbv zeta in Hd. setoid_rewrite andb_true_iff in Hd. setoid_rewrite andb_true_iff in Hd. split.
  - intros i d Hi Hty. destruct (Hd i d Hi Hty) as [[H1%forallb_range [H2%bool_decide_eq_true H3%bool_decide_eq_true]%andb_true_iff] _].
    split; [done|done|]. intros j k x y Hx Hy Hx0 Hy0. by apply (NoDup_filter_index _ _ _ _ _ _ _ H3).
  - intros i d n k Hi Hty Hk. destruct (Hd i d Hi Hty) as [_ H3]. unfold dir_lookup, dir_find in Hk.
    destruct (list_find _ _) as [[j de]|] eqn:E; [|done]. apply list_find_Some in E as (Hj & [Hne _] & _).
    cbn [fmap option_fmap option_map snd] in Hk. injection Hk as <-. rewrite forallb_forall in H3. specialize (H3 de). rewrite <- list_elem_of_In in H3.
    specialize (H3 (list_elem_of_lookup_2 _ _ _ Hj)). rewrite (proj2 (Z.eqb_neq _ 0)) in H3 by done. cbn [orb] in H3.
    destruct (ds !! dirent_inum de) as [e|]; [|done]. exists e. split; [done|]. by apply negb_true_iff, Z.eqb_neq in H3.
Qed.
