(* ===== verification/FsNames.v ===== *)
(** * What the file system promises: names

    Directories as maps from names to inodes, and paths through them. *)

From S2P Require Import Prelude Params Disk Superblock Txn Fs FsBlocks FsInode FsBmap FsIo FsDinode.
From S2P Require Import FsIcache FsWrite FsDir FsPath FsCheck.

Section names.
Context {S : Type} `{!Txn S, !DevSw S}.
Implicit Types (sb : superblock) (ic : list inode) (t : S) (v : tview).

(** C14: namei finds what the path stands for: the inode reached from the root
    or the current directory through the names of the path.  It returns it
    with one reference more, or nothing with all references as they were, and
    leaves nothing locked. *)
Theorem namei_correct sb ic t v ds cwd cwdnum path :
  can_walk sb ic t v ds cwd cwdnum path →
  match resolve (t_blocks v) ds (start cwdnum path) (names path) with
  | Some inum => ∃ ip ic' t', namei cwd path (FState sb ic t) = Ok (Some ip) (FState sb ic' t') ∧ holds ic sb ic' t' v ds ip inum
  | None => ∃ ic' t', namei cwd path (FState sb ic t) = Ok None (FState sb ic' t') ∧ back ic sb ic' t' v ds
  end.
Proof.
  apply namei_ok.
Qed.

(** nameiparent returns the directory that the last name of the path is
    in, and that name; nothing for a path without names, and when what is in
    front of the last name is no directory. *)
Theorem nameiparent_correct sb ic t v ds cwd cwdnum path :
  can_walk sb ic t v ds cwd cwdnum path →
  (names path = [] → ∃ ic' t', nameiparent cwd path (FState sb ic t) = Ok None (FState sb ic' t') ∧ back ic sb ic' t' v ds) ∧
  ∀ ns n, names path = ns ++ [n] →
    match (p ← resolve (t_blocks v) ds (start cwdnum path) ns; d ← ds !! p; if decide (d_type d = T_DIR) then Some p else None) with
    | Some p => ∃ ip ic' t', nameiparent cwd path (FState sb ic t) = Ok (Some (ip, n)) (FState sb ic' t') ∧ holds ic sb ic' t' v ds ip p
    | None => ∃ ic' t', nameiparent cwd path (FState sb ic t) = Ok None (FState sb ic' t') ∧ back ic sb ic' t' v ds
    end.
Proof.
  intros Hw. pose proof (namex_ok sb ic t v ds cwd cwdnum path true Hw) as H. unfold nameiparent. split.
  - intros En. rewrite En in H. exact H.
  - intros ns n En. rewrite En, walk_parent in H. destruct (resolve _ _ _ ns) as [p|]; cbn [mbind option_bind] in *; [|exact H].
    destruct (ds !! p) as [d|]; cbn [mbind option_bind] in *; [|exact H]. destruct (decide (d_type d = T_DIR)); exact H.
Qed.

(** dirlink adds a name to a directory: afterwards the name stands for
    the inode and every other name for what it stood for, in this and in
    every other directory.  A name that is there is refused with -1, and the
    directory, the cache and the references are as before. *)
Theorem dirlink_correct sb ic t v ds dp dnum i name inum :
  let l := content (t_blocks v) (i_d i) in
  at_dir sb ic t v ds dp dnum i → tree_ok (t_blocks v) ds → name_ok name → 0 < inum < 2 ^ 16 → (size (refs ic) < length ic)%nat →
  match dir_lookup name l with
  | Some _ =>
      ∃ ic' i' t', dirlink dp name inum (FState sb ic t) = Ok (-1) (FState sb ic' t') ∧
        at_dir sb ic' t' v ds dp dnum i' ∧ i_d i' = i_d i ∧ refs ic' = refs ic ∧ slots_kept ic ic'
  | None =>
      d_size (i_d i) + sizeof_dirent ≤ MAXFILE * BSIZE → slack sb v 3 → (2 ≤ size (free_blocks sb (t_blocks v)))%nat →
      ∃ d' t' v', dirlink dp name inum (FState sb ic t) = Ok 0 (FState sb (<[dp := set_disk d' i]> ic) t') ∧
        at_dir sb (<[dp := set_disk d' i]> ic) t' v' (<[dnum := d']> ds) dp dnum (set_disk d' i) ∧
        (∀ n, dir_lookup n (content (t_blocks v') d') = if decide (n = name) then Some inum else dir_lookup n l) ∧
        (∀ j e, j ≠ dnum → ds !! j = Some e → content (t_blocks v') e = content (t_blocks v) e)
  end.
Proof.
  intros l Had Htree Hname Hinum Hfree. destruct (dir_lookup name l) as [k|] eqn:El.
  - pose proof Had as [Hfs [[Hip Hi Ei] _ Hv] Hty _].
    assert (ds !! dnum = Some (i_d i)) as Hd by (rewrite <- Ei; by apply (co_valid (fr_cache Hfs) dp)).
    destruct (tr_entry _ _ Htree dnum (i_d i) name k Hd Hty El) as (e & He & Hnl).
    unfold dir_lookup in El. destruct (dir_find name l) as [[j de]|] eqn:Ef; [|done].
    cbn [fmap option_fmap option_map snd] in El. injection El as <-.
    destruct (dirlink_exists sb ic t v ds dp dnum i name inum j de e) as (ic' & i' & t' & E & H1 & H2 & H3 & H4 & _); try done. by exists ic', i', t'.
  - intros H1 H2 H3. unfold dir_lookup in El. destruct (dir_find name l) as [r|] eqn:Ef; [done|].
    destruct (dirlink_new sb ic t v ds dp dnum i name inum 0 0 Had Hname Hinum Ef H1) as (d' & t' & v' & E & Had' & Hl & Ho & _).
    { eapply slack_le; [|exact H2]. pose proof (cost_le v (IBLOCK dnum sb)). unfold ind_cost. destruct (decide _); lia. }
    { unfold ind_need. destruct (decide _); lia. }
    by exists d', t', v'.
Qed.
End names.

(** ** An example

    A disk of 12 blocks, with the inodes in block 2 and the free map in block
    3.  The root has the entries . and a, the directory a has . and .. and f,
    and f is a file of three bytes. *)
Module Example.
Definition dot : list Z := [46].
Definition dotdot : list Z := [46; 46].
Definition na : list Z := [97].
Definition nf : list Z := [102].

Definition pad (l : list Z) : block := l ++ replicate (BSIZE_n - length l) 0.
Definition ex_root : dinode := DInode T_DIR 0 0 1 32 (4 :: replicate 12 0).
Definition ex_a : dinode := DInode T_DIR 0 0 1 48 (5 :: replicate 12 0).
Definition ex_f : dinode := DInode T_FILE 0 0 1 3 (6 :: replicate 12 0).
Definition ex_dsb : superblock := Superblock 12 8 8 0 2 2 3.
Definition ex_dblocks : gmap Z block :=
  list_to_map [(0, pad []); (1, pad (concat (le_bytes 4 <$> [12; 8; 8; 0; 2; 2; 3])));
    (2, put_dinode 1 ex_root (put_dinode 2 ex_a (put_dinode 3 ex_f (pad [])))); (3, pad [127]);
    (4, pad (mk_dirent dot 1 ++ mk_dirent na 2)); (5, pad (mk_dirent dot 2 ++ mk_dirent dotdot 1 ++ mk_dirent nf 3)); (6, pad [1; 2; 3]);
    (7, pad []); (8, pad []); (9, pad []); (10, pad []); (11, pad [])].
Definition ex_tree : gmap Z dinode := {[1 := ex_root; 2 := ex_a; 3 := ex_f]}.
Definition ex_tview : tview := TView ex_dblocks ∅ ∅ ∅ 9 ex_dblocks.

(** The current directory is a, in slot 0, and there are three free slots. *)
Definition ex_free : inode := Inode 0 0 0 0 ex_f.
Definition ex_cache : list inode := [Inode ROOTDEV 2 1 0 ex_f; ex_free; ex_free; ex_free].

#[export] Instance ex_nodev : DevSw tview := { devsw_read _ := None; devsw_write _ := None }.

Lemma ex_cache_inv ip i : ex_cache !! ip = Some i → 0 < i_ref i → ip = 0%nat ∧ i = Inode ROOTDEV 2 1 0 ex_f.
Proof. destruct ip as [|[|[|[|ip]]]]; cbn; intros [= <-]; cbn; intros; (done || lia). Qed.

Lemma ex_cache_ok : icache_ok ex_cache ex_tree.
Proof.
  split.
  - intros [|[|[|[|ip]]]] i; cbn; intros [= <-]; cbn; lia.
  - intros ip i Hip Hi. destruct (ex_cache_inv ip i Hip Hi) as [-> ->]. split; [done|]. by eexists.
  - intros ip jp i j Hip Hjp Hi Hj _. destruct (ex_cache_inv ip i Hip Hi) as [-> _]. by destruct (ex_cache_inv jp j Hjp Hj) as [-> _].
  - intros ip i Hip Hi. by destruct (ex_cache_inv ip i Hip Hi) as [-> ->].
Qed.

Lemma ex_type inum d : ex_tree !! inum = Some d → d_type d ≠ 0.
Proof. intros H. apply Z.eqb_neq, negb_true_iff. by apply (all_inodes_ok ex_tree (λ _ d, negb (d_type d =? 0)) inum). Qed.

Lemma ex_fs_rep ic : icache_ok ic ex_tree → fs_rep ex_dsb ic ex_tview ex_tview ex_tree.
Proof.
  intros Hic. split; [|done|done| | |done|apply ex_type].
  - split; [done|]. intros i b H. change (t_held ex_tview) with (∅ : gmap nat Z) in H. by rewrite lookup_empty in H.
  - apply fs_check_ok. vm_compute. reflexivity.
  - apply itable_check_ok. vm_compute. reflexivity.
Qed.

Lemma ex_tree_ok : tree_ok ex_dblocks ex_tree.
Proof. apply tree_check_ok. vm_compute. reflexivity. Qed.

Lemma ex_can_walk path : forallb (λ z, (1 <=? z) && (z <? 256)) path = true → can_walk ex_dsb ex_cache ex_tview ex_tview ex_tree 0 2 path.
Proof.
  intros Hp%forallb_range.
  assert (Forall byte_ok path ∧ 0 ∉ path) as Hb.
  { rewrite Forall_forall in Hp. split; [|intros H%Hp; lia]. apply Forall_forall. intros z Hz%Hp. unfold byte_ok. lia. }
  split; [apply ex_fs_rep, ex_cache_ok|apply ex_tree_ok| |vm_compute; lia|by eexists|by eexists|done].
  intros ip i Hip Hi _. by destruct (ex_cache_inv ip i Hip Hi) as [-> ->].
Qed.

Lemma ex_name c : 1 ≤ c < 256 → name_ok [c].
Proof. intros H. split; [apply Forall_singleton; unfold byte_ok; lia|rewrite list_elem_of_singleton; lia|vm_compute; lia]. Qed.

Definition ex_lock : inode := Inode ROOTDEV 1 1 (Z.lor I_BUSY I_VALID) ex_root.
Definition ex_locked : list inode := [ex_lock; ex_free; ex_free].

Lemma ex_locked_inv ip i : ex_locked !! ip = Some i → 0 < i_ref i → ip = 0%nat ∧ i = ex_lock.
Proof. destruct ip as [|[|[|ip]]]; cbn; intros [= <-]; cbn; intros; (done || lia). Qed.

Lemma ex_at_root : at_dir ex_dsb ex_locked ex_tview ex_tview ex_tree 0 1 ex_lock.
Proof.
  split; [apply ex_fs_rep| |done|by apply (tr_dir _ _ ex_tree_ok 1)].
  - split.
    + intros [|[|[|ip]]] i; cbn; intros [= <-]; cbn; lia.
    + intros ip i Hip Hi. destruct (ex_locked_inv ip i Hip Hi) as [-> ->]. split; [done|]. by eexists.
    + intros ip jp i j Hip Hjp Hi Hj _. destruct (ex_locked_inv ip i Hip Hi) as [-> _]. by destruct (ex_locked_inv jp j Hjp Hj) as [-> _].
    + intros ip i Hip Hi _. by destruct (ex_locked_inv ip i Hip Hi) as [-> ->].
  - split; [by split|done|done].
Qed.
End Example.

Import Example.

(** //a/f and ../b from a. *)
Lemma namei_correct_witness :
  (∃ ip ic' t', namei 0 [47; 47; 97; 47; 102] (FState ex_dsb ex_cache ex_tview) = Ok (Some ip) (FState ex_dsb ic' t') ∧
     ∃ i, slot ic' ip 3 i) ∧
  (∃ ic' t', namei 0 [46; 46; 47; 98] (FState ex_dsb ex_cache ex_tview) = Ok None (FState ex_dsb ic' t') ∧ refs ic' = {[2 := 1]}).
Proof.
  split.
  - pose proof (namei_correct ex_dsb ex_cache ex_tview ex_tview ex_tree 0 2 [47; 47; 97; 47; 102]
      (ex_can_walk [47; 47; 97; 47; 102] eq_refl)) as H.
    replace (resolve _ _ _ _) with (Some 3) in H by (vm_compute; reflexivity).
    destruct H as (ip & ic' & t' & E & Hh). exists ip, ic', t'. split; [exact E|apply Hh].
  - pose proof (namei_correct ex_dsb ex_cache ex_tview ex_tview ex_tree 0 2 [46; 46; 47; 98]
      (ex_can_walk [46; 46; 47; 98] eq_refl)) as H.
    replace (resolve _ _ _ _) with (@None Z) in H by (vm_compute; reflexivity).
    destruct H as (ic' & t' & E & Hb). exists ic', t'. split; [exact E|]. rewrite (bk_refs _ _ _ _ _ _ Hb). vm_compute. reflexivity.
Defined.

(** f from a. *)
Lemma nameiparent_correct_witness :
  ∃ ip ic' t', nameiparent 0 [102] (FState ex_dsb ex_cache ex_tview) = Ok (Some (ip, nf)) (FState ex_dsb ic' t') ∧ ∃ i, slot ic' ip 2 i.
Proof.
  destruct (nameiparent_correct ex_dsb ex_cache ex_tview ex_tview ex_tree 0 2 [102]
    (ex_can_walk [102] eq_refl)) as [_ H].
  specialize (H [] nf eq_refl). destruct H as (ip & ic' & t' & E & Hh). exists ip, ic', t'. split; [exact E|apply Hh].
Defined.

(** A new name f and an old name a in the root, which is locked in slot 0. *)
Lemma dirlink_correct_witness :
  (∃ d' t' v', dirlink 0 nf 3 (FState ex_dsb ex_locked ex_tview) = Ok 0 (FState ex_dsb (<[0%nat := set_disk d' ex_lock]> ex_locked) t') ∧
     trep t' v' ∧ dir_lookup nf (content (t_blocks v') d') = Some 3 ∧ dir_lookup na (content (t_blocks v') d') = Some 2) ∧
  (∃ ic' t', dirlink 0 na 3 (FState ex_dsb ex_locked ex_tview) = Ok (-1) (FState ex_dsb ic' t') ∧ refs ic' = {[1 := 1]}).
Proof.
  split.
  - pose proof (dirlink_correct ex_dsb ex_locked ex_tview ex_tview ex_tree 0 1 ex_lock nf 3 ex_at_root ex_tree_ok
      (ex_name 102 ltac:(lia)) ltac:(lia) ltac:(vm_compute; lia)) as H.
    cbv zeta in H. replace (dir_lookup nf _) with (@None Z) in H by (vm_compute; reflexivity).
    destruct H as (d' & t' & v' & E & Had & Hl & _); [vm_compute; discriminate|vm_compute; lia|vm_compute; lia|].
    exists d', t', v'. split; [exact E|]. split; [apply Had|]. rewrite !Hl. split; reflexivity.
  - pose proof (dirlink_correct ex_dsb ex_locked ex_tview ex_tview ex_tree 0 1 ex_lock na 3 ex_at_root ex_tree_ok
      (ex_name 97 ltac:(lia)) ltac:(lia) ltac:(vm_compute; lia)) as H.
    cbv zeta in H. replace (dir_lookup na _) with (Some 2) in H by (vm_compute; reflexivity).
    destruct H as (ic' & i' & t' & E & _ & _ & Hr & _). exists ic', t'. split; [exact E|]. rewrite Hr. vm_compute. reflexivity.
Defined.
