(* ===== verification/FsLife.v ===== *)
(** * The file system: the life of an inode

    The last iput of an inode without links removes the inode from the disk,
    and ialloc makes a new one. *)

From S2P Require Import Prelude Params Disk Superblock Txn Fs FsBlocks FsInode FsBmap FsDinode FsIcache FsTrunc FsDir FsPath FsCheck.

(** ** Removing an inode *)

(** Fields other than the addresses and the size. *)
Lemma fields_ok sb m ds inum d d' :
  fs_ok sb m ds → ds !! inum = Some d → d_addrs d' = d_addrs d → d_size d' = d_size d → fs_ok sb m (<[inum := d']> ds).
Proof.
  intros Hok Hd Ea Es.
  assert (∀ m, blk m d' = blk m d) as Eb by (intros m'; unfold blk, addrs_of, ind_addr; by rewrite Ea).
  assert (∀ i e, <[inum := d']> ds !! i = Some e →
    ∃ e0, ds !! i = Some e0 ∧ blk m e = blk m e0 ∧ d_addrs e = d_addrs e0 ∧ d_size e = d_size e0) as Hl.
  { intros i e. destruct (decide (i = inum)) as [->|Hi]; [rewrite lookup_insert_eq; intros [= <-]; by exists d|].
    rewrite lookup_insert_ne by done. by exists e. }
  split.
  - apply Hok.
  - apply (fo_meta Hok).
  - apply (fo_block Hok).
  - intros i e (e0 & He & _ & -> & _)%Hl. by apply (fo_len Hok i).
  - intros i e q b (e0 & He & -> & _)%Hl. by apply (fo_owned Hok i).
  - intros i1 i2 e1 e2 q1 q2 b (e3 & H3 & -> & _)%Hl (e4 & H4 & -> & _)%Hl. by apply (fo_sep Hok).
  - intros i e (e0 & He & _ & _ & ->)%Hl. by apply (fo_size Hok i).
  - intros i e o (e0 & He & Ebe & _ & Ese)%Hl Ho. rewrite (blk_addr_of m m e0 e) by (by rewrite Ebe). apply (fo_full Hok i e0); [done|lia].
Qed.

Lemma fs_ok_delete sb m ds inum : fs_ok sb m ds → fs_ok sb m (delete inum ds).
Proof.
  intros Hok. split; [apply Hok|apply (fo_meta Hok)|apply (fo_block Hok)|..].
  - intros i e [_ He]%lookup_delete_Some. by apply (fo_len Hok i).
  - intros i e q b [_ He]%lookup_delete_Some. by apply (fo_owned Hok i).
  - intros i1 i2 e1 e2 q1 q2 b [_ H1]%lookup_delete_Some [_ H2]%lookup_delete_Some. by apply (fo_sep Hok).
  - intros i e [_ He]%lookup_delete_Some. by apply (fo_size Hok i).
  - intros i e o [_ He]%lookup_delete_Some. by apply (fo_full Hok i).
Qed.

Lemma itable_delete sb m ds dirty inum : itable sb m ds dirty → itable sb m (delete inum ds) dirty.
Proof.
  intros [H1 H2 H3 H4 H5]. split; [|done|..]; intros i e [_ He]%lookup_delete_Some; [by eapply H1|by eapply H3|by eapply H4|by eapply H5].
Qed.

Lemma icache_ok_delete ic ds ip i i' :
  icache_ok ic ds → ic !! ip = Some i → 0 < i_ref i → i_ref i' = 0 → icache_ok (<[ip := i']> ic) (delete (i_inum i) ds).
Proof.
  intros Hic Hip Hi Hi'. assert (ip < length ic)%nat as Hlt by (by eapply lookup_lt_Some).
  assert (∀ jp j, <[ip := i']> ic !! jp = Some j → 0 < i_ref j → ic !! jp = Some j ∧ i_inum j ≠ i_inum i) as Hl.
  { intros jp j. destruct (decide (jp = ip)) as [->|Hne]; [rewrite list_lookup_insert_eq by done; intros [= <-]; lia|].
    rewrite list_lookup_insert_ne by done. intros Hj Hr. split; [done|]. intros E. apply Hne. by apply (co_uniq Hic jp ip j i). }
  split.
  - intros jp j. destruct (decide (jp = ip)) as [->|]; [rewrite list_lookup_insert_eq by done; intros [= <-]; lia|].
    rewrite list_lookup_insert_ne by done. apply (co_ref Hic).
  - intros jp j Hj Hr. destruct (Hl jp j Hj Hr) as [Hj' Hne]. rewrite lookup_delete_ne by done. by apply (co_dev Hic jp).
  - intros jp kp j k Hj Hk Hr1 Hr2. destruct (Hl jp j Hj Hr1) as [Hj' _], (Hl kp k Hk Hr2) as [Hk' _]. by apply (co_uniq Hic).
  - intros jp j Hj Hr Hv. destruct (Hl jp j Hj Hr) as [Hj' Hne]. rewrite lookup_delete_ne by done. by apply (co_valid Hic jp).
Qed.

Lemma refs_delete ic ds ip i i' :
  icache_ok ic ds → ic !! ip = Some i → 0 < i_ref i → i_ref i' = 0 → refs (<[ip := i']> ic) = delete (i_inum i) (refs ic).
Proof.
  intros Hic Hip Hi Hi'. assert (icache_ok (<[ip := i']> ic) ds) as Hic'.
  { apply (slot_ok ic ds ip i); [done|done|lia|lia]. }
  apply map_eq. intros j. rewrite (refs_insert ic ds ip i) by done. rewrite decide_False by lia.
  destruct (decide (i_inum i = j)) as [<-|Hne]; [rewrite decide_True by done; by rewrite lookup_delete_eq|].
  rewrite decide_False by naive_solver. by rewrite lookup_delete_ne.
Qed.

(** The inode on disk. *)
Definition idisk (sb : superblock) (m : gmap Z block) (inum : Z) : dinode := get_dinode inum (default [] (m !! IBLOCK inum sb)).

Section iput.
Context {S : Type} `{!Txn S}.
Implicit Types (sb : superblock) (ic : list inode) (t : S) (v : tview).

(** The second half of the deletion: iupdate(ip) after ip->type = 0; *)
Lemma untype_ok ip i sb ic t v ds :
  at_inode sb ic t v ds ip i → itable sb (t_blocks v) ds ∅ → can_log (IBLOCK (i_inum i) sb) v →
  let d' := set_type 0 (i_d i) in
  ∃ t', iupdate ip (FState sb (<[ip := set_disk d' i]> ic) t) = Ok tt (FState sb (<[ip := set_disk d' i]> ic) t') ∧
    let v' := iupdate_view sb (set_disk d' i) v in
    trep t' v' ∧ fs_ok sb (t_blocks v') (<[i_inum i := d']> ds) ∧ itable sb (t_blocks v') (<[i_inum i := d']> ds) ∅ ∧
    (∀ j e, j ≠ i_inum i → ds !! j = Some e → content (t_blocks v') e = content (t_blocks v) e).
Proof.
  intros [Hr Hh Hp Hok Hd Hi Hdev] Hit Hl d'.
  assert (dinode_ok d') as Hd' by (destruct (it_dinode _ _ _ _ Hit _ _ Hd); by split).
  pose proof (fields_ok sb _ ds (i_inum i) (i_d i) d' Hok Hd eq_refl eq_refl) as Hok'.
  pose proof (itable_change sb _ (t_blocks v) ds ∅ _ _ d' Hok Hit Hd Hd' (λ b _ _, eq_refl)) as Hit'.
  destruct (iupdate_ok ip (set_disk d' i) sb (<[ip := set_disk d' i]> ic) t v (<[i_inum i := d']> ds) ({[i_inum i]} ∪ ∅)) as (t' & E & Hat' & Hit2 & Hc).
  { split; [done|done|done|done|apply lookup_insert_eq|apply list_lookup_insert_eq; by eapply lookup_lt_Some|done]. }
  { done. } { done. }
  exists t'. split; [done|]. cbn [set_disk i_inum i_d] in *. split; [apply Hat'|]. split; [apply Hat'|]. split.
  - by replace (({[i_inum i]} ∪ ∅) ∖ {[i_inum i]} : gset Z) with (∅ : gset Z) in Hit2 by set_solver.
  - intros j e Hj He. apply (Hc j). by rewrite lookup_insert_ne.
Qed.

(** What the last iput of an inode without links does. *)
Record removed sb v v' (ds : gmap Z dinode) (inum : Z) (d : dinode) : Prop := Removed {
  rm_type : d_type (idisk sb (t_blocks v') inum) = 0;
  rm_other j e : j ≠ inum → ds !! j = Some e → content (t_blocks v') e = content (t_blocks v) e;
  rm_free : free_blocks sb (t_blocks v') = free_blocks sb (t_blocks v) ∪ list_to_set (file_blocks (t_blocks v) d);
  rm_durable : t_durable v' = t_durable v;
}.

Lemma iput_last ip i sb ic t v ds inum :
  fs_rep sb ic t v ds → slot ic ip inum i → i_ref i = 1 → iflag i I_VALID = true → iflag i I_BUSY = false →
  d_nlink (i_d i) = 0 → can_free sb v → slack sb v 1 → IBLOCK inum sb ≠ 1 →
  ∃ i' t' v', let ic' := <[ip := i']> ic in
    iput ip (FState sb ic t) = Ok tt (FState sb ic' t') ∧ fs_rep sb ic' t' v' (delete inum ds) ∧
    refs ic' = delete inum (refs ic) ∧ i_ref i' = 0 ∧ removed sb v v' ds inum (i_d i).
Proof.
  intros Hfs [Hip Hi <-] Hr1 Hv Hb Hnl Hcf Hs Hne1. pose proof (fr_cache Hfs) as Hic.
  pose proof (co_valid Hic ip i Hip Hi Hv) as Hd. destruct (co_dev Hic ip i Hip Hi) as [Hdev _].
  unfold iput. rewrite (ino_step _ ip i sb ic t Hip), Hr1, Hv, Hnl, Hb. change ((1 =? 1) && true && (0 =? 0)) with true. cbn iota.
  rewrite !bind_assoc, (upd_ino_step _ _ ip i sb ic t Hip). set (i1 := set_iflags (Z.lor (i_flags i) I_BUSY) i).
  assert (at_inode sb (<[ip := i1]> ic) t v ds ip i1) as Hat1.
  { split; [apply Hfs|apply Hfs|apply Hfs|apply Hfs|exact Hd|apply list_lookup_insert_eq; by eapply lookup_lt_Some|done]. }
  destruct (itrunc_ok ip i1 sb (<[ip := i1]> ic) t v ds Hat1 (fr_table Hfs) Hcf Hs Hne1) as (t2 & v2 & E2 & Hat2 & Htr).
  rewrite list_insert_insert_eq in *. rewrite bind_assoc. mstep E2. change (i_d i1) with (i_d i) in *. change (i_inum i1) with (i_inum i) in *.
  destruct (tc_slack _ _ _ _ _ _ Htr 0 Hs) as [_ Hlog].
  destruct (untype_ok ip _ sb _ t2 v2 _ Hat2 (tc_table _ _ _ _ _ _ Htr)) as (t3 & E3 & Hr3 & Hok3 & Hit3 & Hc3); [by left|].
  cbn [set_disk i_inum i_d] in E3, Hok3, Hit3, Hc3. change (i_inum i1) with (i_inum i) in *.
  pose proof (ai_cached _ _ _ _ _ _ _ Hat2) as Hi2. rewrite bind_assoc, (upd_disk_step _ _ ip _ sb _ t2 Hi2), bind_assoc.
  cbn [set_disk i_d]. mstep E3. rewrite !list_insert_insert_eq, !set_disk_twice, !insert_insert_eq in *.
  set (d3 := set_type 0 (emptied (i_d i))) in *. set (v3 := iupdate_view _ _ _) in *. set (i3 := set_disk d3 i1).
  assert (<[ip := i3]> ic !! ip = Some i3) as Hi3 by (apply list_lookup_insert_eq; by eapply lookup_lt_Some).
  rewrite (upd_ino_step _ _ ip i3 sb _ t3 Hi3), list_insert_insert_eq.
  rewrite (upd_ino_ok _ ip (set_iflags 0 i3)) by (apply list_lookup_insert_eq; by eapply lookup_lt_Some). rewrite list_insert_insert_eq.
  assert (i_ref (set_iref (i_ref (set_iflags 0 i3) - 1) (set_iflags 0 i3)) = 0) as Hz by (cbn; lia). set (i4 := set_iref _ _) in *.
  exists i4, t3, v3. split; [done|]. split; [|split; [by apply (refs_delete ic ds)|split; [done|]]].
  - split; [done|apply Hat2|apply Hat2| | |by apply icache_ok_delete|intros j e [_ He]%lookup_delete_Some; by apply (fr_type Hfs j)].
    + rewrite <- (delete_insert_eq ds (i_inum i) d3). by apply fs_ok_delete.
    + rewrite <- (delete_insert_eq ds (i_inum i) d3). by apply itable_delete.
  - destruct (it_block _ _ _ _ Hit3 (i_inum i) d3 (lookup_insert_eq _ _ _)) as (x & Hx & _ & Hg). split.
    + unfold idisk. rewrite Hx. cbn [from_option id]. rewrite Hg by set_solver. done.
    + intros j e Hj He. rewrite (Hc3 j e Hj) by (by rewrite lookup_insert_ne). by apply (tc_other _ _ _ _ _ _ Htr j).
    + rewrite <- (tc_free _ _ _ _ _ _ Htr). apply iupdate_free.
      apply (inode_place sb _ _ _ (tc_ok _ _ _ _ _ _ Htr) (tc_table _ _ _ _ _ _ Htr) (i_inum i) _ (lookup_insert_eq _ _ _)).
    + apply (tc_durable _ _ _ _ _ _ Htr).
Qed.
End iput.

(** ** New inodes *)

Definition new_dinode (type : Z) : dinode := DInode type 0 0 0 0 (replicate (S NDIRECT_n) 0).

Lemma fs_ok_new sb m ds inum type : fs_ok sb m ds → ds !! inum = None → fs_ok sb m (<[inum := new_dinode type]> ds).
Proof.
  intros Hok Hn. assert (∀ i e, <[inum := new_dinode type]> ds !! i = Some e → i = inum ∧ e = new_dinode type ∨ ds !! i = Some e) as Hl.
  { intros i e. destruct (decide (i = inum)) as [->|Hi]; [rewrite lookup_insert_eq; intros [= <-]; by left|].
    rewrite lookup_insert_ne by done. by right. }
  assert (∀ p b, blk m (new_dinode type) !! p = Some b → b = 0) as H0 by (intros p b; by apply blk_no_addrs).
  split; [apply Hok|apply (fo_meta Hok)|apply (fo_block Hok)|..].
  - intros i e [[-> ->]|He]%Hl; [done|by apply (fo_len Hok i)].
  - intros i e q b [[-> ->]|He]%Hl Hq Hb; [by destruct Hb; eapply H0|by apply (fo_owned Hok i e q)].
  - intros i1 i2 e1 e2 q1 q2 b [[-> ->]|H1]%Hl [[-> ->]|H2]%Hl Hq1 Hq2 Hb; try (by destruct Hb; eapply H0). by apply (fo_sep Hok i1 i2 e1 e2 q1 q2 b).
  - intros i e [[-> ->]|He]%Hl; [done|by apply (fo_size Hok i)].
  - intros i e o [[-> ->]|He]%Hl Ho; [cbn in Ho; lia|by apply (fo_full Hok i)].
Qed.

(** The inodes [1] to [sb_ninodes sb - 1] are in front of the free map. *)
Record inode_area (sb : superblock) (m : gmap Z block) : Prop := InodeArea {
  na_place k : 1 ≤ k < sb_ninodes sb → k / IPB + sb_inodestart sb < sb_bmapstart sb;
  na_block k : 1 ≤ k < sb_ninodes sb → ∃ x, m !! IBLOCK k sb = Some x ∧ length x = BSIZE_n;
}.

Lemma itable_new sb m ds inum type :
  fs_ok sb m ds → itable sb m ds ∅ → inode_area sb m → 1 ≤ inum < sb_ninodes sb → ds !! inum = None → - 2 ^ 15 ≤ type < 2 ^ 15 →
  ∃ x, m !! IBLOCK inum sb = Some x ∧
    itable sb (<[IBLOCK inum sb := put_dinode inum (new_dinode type) x]> m) (<[inum := new_dinode type]> ds) ∅.
Proof.
  intros Hok Hit [Hp Hb] Hr Hn Hty. destruct (Hb inum Hr) as (x & Hx & Hxl). exists x. split; [done|].
  assert (dinode_ok (new_dinode type)) as Hdk.
  { split; [exact Hty|done|done|done|done|done|]. by apply (Forall_replicate _ (S NDIRECT_n) 0). }
  assert (itable sb m (<[inum := new_dinode type]> ds) {[inum]}) as Hit1.
  { destruct Hit as [H1 H2 H3 H4 H5].
    assert (∀ i e, <[inum := new_dinode type]> ds !! i = Some e → i = inum ∧ e = new_dinode type ∨ i ≠ inum ∧ ds !! i = Some e) as Hl.
    { intros i e. destruct (decide (i = inum)) as [->|Hi]; [rewrite lookup_insert_eq; intros [= <-]; by left|].
      rewrite lookup_insert_ne by done. by right. }
    split; [|done|..].
    - intros i e [[-> _]|[_ He]]%Hl; [lia|by eapply H1].
    - intros i e [[-> _]|[_ He]]%Hl; [by apply Hp|by eapply H3].
    - intros i e [[_ ->]|[_ He]]%Hl; [done|by eapply H4].
    - intros i e [[-> ->]|[Hi He]]%Hl; [exists x; split; [done|]; split; [done|set_solver]|].
      destruct (H5 i e He) as (y & Hy & Hyl & Hg). exists y. split; [done|]. split; [done|]. intros _. apply Hg. set_solver. }
  pose proof (fs_ok_new sb m ds inum type Hok Hn) as Hok1.
  pose proof (itable_put sb m _ {[inum]} Hok1 Hit1 inum _ x (lookup_insert_eq _ _ _) Hx) as H. by rewrite difference_diag_L in H.
Qed.

Lemma icache_ok_new ic ds inum d : icache_ok ic ds → ds !! inum = None → icache_ok ic (<[inum := d]> ds).
Proof.
  intros [H1 H2 H3 H4] Hn. split; [done| |done|].
  - intros ip i Hip Hi. destruct (H2 ip i Hip Hi) as [Hd [e He]]. split; [done|]. rewrite lookup_insert_ne by congruence. by eexists.
  - intros ip i Hip Hi Hv. pose proof (H4 ip i Hip Hi Hv) as He. by rewrite lookup_insert_ne by congruence.
Qed.

Section ialloc.
Context {S : Type} `{!Txn S}.
Implicit Types (sb : superblock) (ic : list inode) (t : S) (v : tview).

(** An inode of the file system has a type on disk. *)
Lemma idisk_type sb ic t v ds inum : fs_rep sb ic t v ds → d_type (idisk sb (t_blocks v) inum) = 0 → ds !! inum = None.
Proof.
  intros Hfs H0. destruct (ds !! inum) as [d|] eqn:Hd; [|done]. exfalso. apply (fr_type Hfs inum d Hd).
  destruct (it_block _ _ _ _ (fr_table Hfs) _ _ Hd) as (x & Hx & _ & Hg). unfold idisk in H0. rewrite Hx in H0. cbn [from_option id] in H0.
  by rewrite Hg in H0 by set_solver.
Qed.

(** The first free inode. *)
Definition first_inode sb (m : gmap Z block) (f : Z) : Prop :=
  1 ≤ f < sb_ninodes sb ∧ d_type (idisk sb m f) = 0 ∧ ∀ k, 1 ≤ k < f → d_type (idisk sb m k) ≠ 0.

(** What ialloc leaves: the inode is new, empty and in the cache. *)
Definition alloc_inode sb (type f : Z) (v : tview) : tview :=
  update (IBLOCK f sb) (put_dinode f (new_dinode type) (default [] (t_blocks v !! IBLOCK f sb))) v.

Lemma alloc_inode_rep sb ic t v ds type f t' :
  fs_rep sb ic t v ds → inode_area sb (t_blocks v) → 1 ≤ f < sb_ninodes sb → ds !! f = None → - 2 ^ 15 ≤ type < 2 ^ 15 → type ≠ 0 →
  trep t' (alloc_inode sb type f v) →
  fs_rep sb ic t' (alloc_inode sb type f v) (<[f := new_dinode type]> ds) ∧
  ∀ j e, ds !! j = Some e → content (t_blocks (alloc_inode sb type f v)) e = content (t_blocks v) e.
Proof.
  intros Hfs Ha Hf Hn Hty Hnz Ht'. pose proof (fr_ok Hfs) as Hok.
  destruct (itable_new sb _ ds f type Hok (fr_table Hfs) Ha Hf Hn Hty) as (x & Hx & Hit).
  pose proof (fs_ok_new sb _ ds f type Hok Hn) as Hok1. pose proof (fo_map Hok) as [Hs Hst _].
  assert (IBLOCK f sb < data_start sb ∧ ∀ g, 0 ≤ g < sb_size sb → IBLOCK f sb ≠ BBLOCK g sb) as [P1 P2].
  { pose proof (na_place _ _ Ha f Hf) as Hp. pose proof (it_start _ _ _ _ (fr_table Hfs)). assert (0 ≤ f / IPB) by (apply Z.div_pos; [lia|done]).
    unfold IBLOCK. rewrite u32_small by lia. split.
    - unfold data_start. assert (0 ≤ sb_size sb / BPB) by (apply Z.div_pos; [lia|done]). lia.
    - intros g Hg. pose proof (bitmap_place sb _ g (fo_map Hok) Hg). lia. }
  unfold alloc_inode, update in *. rewrite Hx in *. cbn [from_option id] in *. split.
  - split; [done|apply Hfs|apply Hfs| | |by apply icache_ok_new; [apply Hfs|]|].
    + by apply meta_ok.
    + done.
    + intros j e. destruct (decide (j = f)) as [->|Hj]; [rewrite lookup_insert_eq; by intros [= <-]|].
      rewrite lookup_insert_ne by done. apply (fr_type Hfs).
  - intros j e He. by apply (meta_content sb _ ds _ _ Hok P1 j e).
Qed.

Lemma ialloc_loop_ok fuel sb ic t v ds type f k :
  fs_rep sb ic t v ds → inode_area sb (t_blocks v) → first_inode sb (t_blocks v) f → - 2 ^ 15 ≤ type < 2 ^ 15 → type ≠ 0 →
  slack sb v 1 → (size (refs ic) < length ic)%nat → 1 ≤ k ≤ f → f - k < Z.of_nat fuel →
  ∃ ip ic' t', ialloc_loop fuel ROOTDEV type k (FState sb ic t) = Ok ip (FState sb ic' t') ∧
    fs_rep sb ic' t' (alloc_inode sb type f v) (<[f := new_dinode type]> ds) ∧ got ic ic' ip f.
Proof.
  intros Hfs Ha Hff Hty Hnz Hs Hfree. revert k t Hfs. induction fuel as [|fuel IH]; intros k t Hfs Hk Hfuel; [lia|].
  pose proof Hff as (Hfr & Hf0 & Hmin). cbn [ialloc_loop]. rewrite gets_step. cbn [f_sb]. rewrite (proj2 (Z.ltb_lt _ _)) by lia.
  destruct (na_block _ _ Ha k ltac:(lia)) as (x & Hx & Hxl).
  destruct (tx_bread_ok sb ic t v _ (fr_rep Hfs) (can_read_empty _ _ _ (fr_held Hfs) Hx)) as (bp & t1 & E1 & Ht1 & Hbp & Hbp1). mstep E1.
  rewrite (data_step _ sb ic t1 _ bp _ x Ht1 Hbp1 Hx).
  assert (get_dinode k x = idisk sb (t_blocks v) k) as -> by (unfold idisk; by rewrite Hx).
  assert (∀ b, b ∉ t_pending v) as Hp by (intros b; rewrite (fr_pending Hfs); apply not_elem_of_empty).
  destruct (decide (k = f)) as [->|Hne].
  - rewrite Hf0. change (0 =? 0) with true. cbn iota.
    destruct (log_step (tx (t_brelse bp);; iget ROOTDEV f) sb ic t1 _ bp _ (put_dinode f (new_dinode type) x) Ht1 Hbp1) as (t2 & E2 & Ht2);
      [apply Hp|by apply (slack_one sb v _ [] 0)|]. unfold new_dinode in E2 at 1. change (Datatypes.S NDIRECT_n) with (Z.to_nat (NDIRECT + 1)) in E2.
    rewrite E2. rewrite update_hold in Ht2.
    destruct (brelse_step (iget ROOTDEV f) sb ic t2 _ bp _ Ht2 Hbp) as (t3 & E3 & Ht3); [apply Hp|]. rewrite E3.
    destruct (alloc_inode_rep sb ic t v ds type f t3 Hfs Ha Hfr) as [Hfs3 _];
      [by apply (idisk_type sb ic t v)|done|done|unfold alloc_inode; by rewrite Hx|].
    destruct (iget_ok sb ic t3 _ _ f Hfs3) as (ip & ic' & E4 & Hfs4 & Hgot); [by rewrite lookup_insert_eq|done|].
    by exists ip, ic', t3.
  - rewrite (proj2 (Z.eqb_neq _ _)) by (apply Hmin; lia).
    destruct (brelse_step (ialloc_loop fuel ROOTDEV type (k + 1)) sb ic t1 v bp _ Ht1 Hbp) as (t2 & E2 & Ht2); [apply Hp|]. rewrite E2.
    apply IH; [by eapply fs_rep_tx|lia|lia].
Qed.

(** Without a free inode the loop runs to the panic. *)
Lemma ialloc_loop_full fuel sb ic t v ds type k :
  fs_rep sb ic t v ds → inode_area sb (t_blocks v) → (∀ j, 1 ≤ j < sb_ninodes sb → d_type (idisk sb (t_blocks v) j) ≠ 0) →
  1 ≤ k → Z.max 0 (sb_ninodes sb - k) < Z.of_nat fuel → ialloc_loop fuel ROOTDEV type k (FState sb ic t) = Panic "ialloc: no inodes".
Proof.
  intros Hfs Ha Hall. revert k t Hfs. induction fuel as [|fuel IH]; intros k t Hfs Hk Hfuel; [lia|].
  cbn [ialloc_loop]. rewrite gets_step. cbn [f_sb]. destruct (Z.ltb_spec k (sb_ninodes sb)) as [Hlt|Hge]; [|done].
  destruct (na_block _ _ Ha k ltac:(lia)) as (x & Hx & Hxl).
  destruct (tx_bread_ok sb ic t v _ (fr_rep Hfs) (can_read_empty _ _ _ (fr_held Hfs) Hx)) as (bp & t1 & E1 & Ht1 & Hbp & Hbp1). mstep E1.
  rewrite (data_step _ sb ic t1 _ bp _ x Ht1 Hbp1 Hx).
  assert (get_dinode k x = idisk sb (t_blocks v) k) as -> by (unfold idisk; by rewrite Hx).
  rewrite (proj2 (Z.eqb_neq _ _)) by (apply Hall; lia).
  destruct (brelse_step (ialloc_loop fuel ROOTDEV type (k + 1)) sb ic t1 v bp _ Ht1 Hbp) as (t2 & E2 & Ht2);
    [rewrite (fr_pending Hfs); apply not_elem_of_empty|]. rewrite E2.
  apply IH; [by eapply fs_rep_tx|lia|lia].
Qed.
End ialloc.

(** ** What iput and ialloc promise *)

Section life.
Context {S : Type} `{!Txn S}.
Implicit Types (sb : superblock) (ic : list inode) (t : S) (v : tview).

(** C15: iput gives a reference back.  The last reference to an inode that is
    in the cache and has no links removes it: its type on disk becomes 0, its
    blocks become free and no other block does, and every other file keeps
    its contents.  In all other cases nothing on the disk changes. *)
Theorem iput_correct ip i sb ic t v ds inum d :
  fs_rep sb ic t v ds → slot ic ip inum i → iflag i I_BUSY = false → ds !! inum = Some d →
  can_free sb v → slack sb v 1 → IBLOCK inum sb ≠ 1 →
  if (i_ref i =? 1) && iflag i I_VALID && (d_nlink d =? 0) then
    ∃ ic' t' v', iput ip (FState sb ic t) = Ok tt (FState sb ic' t') ∧ fs_rep sb ic' t' v' (delete inum ds) ∧
      refs ic' = delete inum (refs ic) ∧ removed sb v v' ds inum d
  else
    ∃ ic', iput ip (FState sb ic t) = Ok tt (FState sb ic' t) ∧ fs_rep sb ic' t v ds ∧ refs ic' = decr inum (refs ic).
Proof.
  intros Hfs Hsl Hb Hd Hcf Hs H1. destruct ((i_ref i =? 1) && iflag i I_VALID && (d_nlink d =? 0)) eqn:E.
  - apply andb_true_iff in E as [[Er%Z.eqb_eq Ev]%andb_true_iff En%Z.eqb_eq]. pose proof Hsl as [Hip Hi Ei].
    assert (i_d i = d) as <- by (pose proof (co_valid (fr_cache Hfs) ip i Hip Hi Ev) as H; rewrite Ei in H; congruence).
    destruct (iput_last ip i sb ic t v ds inum) as (i' & t' & v' & E1 & E2 & E3 & _ & E4); [done..|]. by exists (<[ip := i']> ic), t', v'.
  - eexists. by apply (iput_keeps sb ic t v ds ip inum i d).
Qed.

(** ialloc takes the first inode of the disk that has no type, and
    panics when there is none.  The inode was not in use; it is new and empty
    on disk and has one reference in the cache, and no file changes. *)
Theorem ialloc_correct sb ic t v ds type :
  fs_rep sb ic t v ds → inode_area sb (t_blocks v) → - 2 ^ 15 ≤ type < 2 ^ 15 → type ≠ 0 → slack sb v 1 → (size (refs ic) < length ic)%nat →
  ((∀ j, 1 ≤ j < sb_ninodes sb → d_type (idisk sb (t_blocks v) j) ≠ 0) →
   ialloc ROOTDEV type (FState sb ic t) = Panic "ialloc: no inodes") ∧
  ∀ f, first_inode sb (t_blocks v) f →
    ∃ ip ic' t' v', ialloc ROOTDEV type (FState sb ic t) = Ok ip (FState sb ic' t') ∧
      fs_rep sb ic' t' v' (<[f := new_dinode type]> ds) ∧ ds !! f = None ∧ got ic ic' ip f ∧
      ∀ j e, ds !! j = Some e → content (t_blocks v') e = content (t_blocks v) e.
Proof.
  intros Hfs Ha Hty Hnz Hs Hfree. unfold ialloc. split.
  - intros Hall. rewrite gets_step. cbn [f_sb]. apply (ialloc_loop_full _ sb ic t v ds); [done|done|done|lia|lia].
  - intros f Hff. pose proof Hff as (Hfr & Hf0 & _). rewrite gets_step. cbn [f_sb].
    assert (ds !! f = None) as Hn by (by apply (idisk_type sb ic t v)).
    destruct (ialloc_loop_ok (Datatypes.S (Z.to_nat (sb_ninodes sb))) sb ic t v ds type f 1) as (ip & ic' & t' & E & Hfs' & Hgot); [done..|lia|lia|].
    exists ip, ic', t', (alloc_inode sb type f v). split; [done|]. split; [done|]. split; [done|]. split; [done|].
    by apply (alloc_inode_rep sb ic t v ds type f t' Hfs Ha Hfr Hn Hty Hnz (fr_rep Hfs')).
Qed.
End life.

(** ** An example

    The inodes are in block 2 and the free map in block 3.  Inode 1 is a file
    without links in block 4, which slot 0 of the cache refers to, and inode 2
    a file in block 5. *)
Module Example.
Definition ex_pad (l : list Z) : block := l ++ replicate (BSIZE_n - length l) 0.
Definition ex_gone : dinode := DInode T_FILE 0 0 0 5 (4 :: replicate 12 0).
Definition ex_stay : dinode := DInode T_FILE 0 0 1 3 (5 :: replicate 12 0).
Definition ex_lsb : superblock := Superblock 8 4 4 0 2 2 3.
Definition ex_lblocks : gmap Z block :=
  list_to_map [(0, ex_pad []); (1, ex_pad (concat (le_bytes 4 <$> [8; 4; 4; 0; 2; 2; 3])));
    (2, put_dinode 1 ex_gone (put_dinode 2 ex_stay (ex_pad []))); (3, ex_pad [63]);
    (4, ex_pad [1; 2; 3; 4; 5]); (5, ex_pad [6; 7; 8]); (6, ex_pad []); (7, ex_pad [])].
Definition ex_lds : gmap Z dinode := {[1 := ex_gone; 2 := ex_stay]}.
Definition ex_lview : tview := TView ex_lblocks ∅ ∅ ∅ 9 ex_lblocks.
Definition ex_held : inode := Inode ROOTDEV 1 1 I_VALID ex_gone.
Definition ex_lcache : list inode := [ex_held; Inode 0 0 0 0 ex_stay].

Lemma ex_lcache_inv ip i : ex_lcache !! ip = Some i → 0 < i_ref i → ip = 0%nat ∧ i = ex_held.
Proof. destruct ip as [|[|ip]]; cbn; intros [= <-]; cbn; intros; (done || lia). Qed.

Lemma ex_life : fs_rep ex_lsb ex_lcache ex_lview ex_lview ex_lds.
Proof.
  split; [|done|done| | | |].
  - split; [done|]. intros i b H. change (t_held ex_lview) with (∅ : gmap nat Z) in H. by rewrite lookup_empty in H.
  - apply fs_check_ok. vm_compute. reflexivity.
  - apply itable_check_ok. vm_compute. reflexivity.
  - split.
    + intros [|[|ip]] i; cbn; intros [= <-]; cbn; lia.
    + intros ip i Hip Hi. destruct (ex_lcache_inv ip i Hip Hi) as [-> ->]. split; [done|]. by eexists.
    + intros ip jp i j Hip Hjp Hi Hj _. destruct (ex_lcache_inv ip i Hip Hi) as [-> _]. by destruct (ex_lcache_inv jp j Hjp Hj) as [-> _].
    + intros ip i Hip Hi _. by destruct (ex_lcache_inv ip i Hip Hi) as [-> ->].
  - intros inum d H. apply Z.eqb_neq, negb_true_iff. by apply (all_inodes_ok ex_lds (λ _ d, negb (d_type d =? 0)) inum).
Qed.

Lemma ex_can_free : can_free ex_lsb ex_lview.
Proof.
  split; [split| | | |vm_compute; done|vm_compute; lia].
  - apply map_check_ok. vm_compute. reflexivity.
  - vm_compute. lia.
  - intros b _. change (t_held ex_lview) with (∅ : gmap nat Z). rewrite map_img_empty_L. set_solver.
  - done.
  - eexists. split; [reflexivity|]. by vm_compute.
  - change (t_held ex_lview) with (∅ : gmap nat Z). rewrite map_img_empty_L. set_solver.
  - intros g Hg. apply Z.eqb_neq, negb_true_iff. apply (all_below_ok 8 (λ g, negb (1 =? BBLOCK g ex_lsb))); [vm_compute; reflexivity|exact Hg].
Qed.

Lemma ex_inode_area : inode_area ex_lsb ex_lblocks.
Proof.
  assert (∀ k, 1 ≤ k < 4 → (k / IPB + 2 <? 3) && whole_block ex_lblocks (IBLOCK k ex_lsb) = true) as H.
  { intros k Hk. apply (all_below_ok 4 (λ k, (k / IPB + 2 <? 3) && whole_block ex_lblocks (IBLOCK k ex_lsb))); [vm_compute; reflexivity|lia]. }
  split; intros k Hk; specialize (H k Hk); apply andb_true_iff in H as [H1%Z.ltb_lt H2%whole_block_ok]; done.
Qed.
End Example.

Import Example.

Lemma iput_correct_witness :
  ∃ ic' t' v', iput 0 (FState ex_lsb ex_lcache ex_lview) = Ok tt (FState ex_lsb ic' t') ∧ trep t' v' ∧
    d_type (idisk ex_lsb (t_blocks v') 1) = 0 ∧ 4 ∈ free_blocks ex_lsb (t_blocks v') ∧ content (t_blocks v') ex_stay = [6; 7; 8].
Proof.
  destruct (iput_correct 0 ex_held ex_lsb ex_lcache ex_lview ex_lview ex_lds 1 ex_gone ex_life ltac:(by split) eq_refl eq_refl ex_can_free)
    as (ic' & t' & v' & E & Hfs & _ & [H1 H2 H3 _]); [vm_compute; lia|vm_compute; discriminate|].
  exists ic', t', v'. split; [exact E|]. split; [apply Hfs|]. split; [exact H1|]. split.
  - rewrite H3. apply elem_of_union_r, elem_of_list_to_set, elem_of_file_blocks. split; [done|]. right. left.
  - rewrite (H2 2 ex_stay); [vm_compute; reflexivity|done|reflexivity].
Defined.

Lemma ialloc_correct_witness :
  ∃ ip ic' t', ialloc ROOTDEV T_FILE (FState ex_lsb ex_lcache ex_lview) = Ok ip (FState ex_lsb ic' t') ∧ ∃ i, slot ic' ip 3 i.
Proof.
  destruct (ialloc_correct ex_lsb ex_lcache ex_lview ex_lview ex_lds T_FILE ex_life ex_inode_area ltac:(vm_compute; split; congruence) ltac:(done)
    ltac:(vm_compute; lia) ltac:(vm_compute; lia)) as [_ H].
  destruct (H 3) as (ip & ic' & t' & v' & E & _ & _ & Hg & _).
  - split; [cbn; lia|]. split; [vm_compute; reflexivity|]. intros k Hk. apply Z.eqb_neq, negb_true_iff.
    pose proof (all_below_ok 3 (λ k, (k =? 0) || negb (d_type (idisk ex_lsb ex_lblocks k) =? 0)) k ltac:(vm_compute; reflexivity) ltac:(lia)) as Hc.
    cbn beta in Hc. by rewrite (proj2 (Z.eqb_neq k 0)) in Hc by lia.
  - exists ip, ic', t'. split; [exact E|apply Hg].
Defined.
