(* ===== verification/FsSpec.v ===== *)
(** * What the file system promises

    The block allocator, reading and writing of files, on any implementation
    of transactions. *)

From S2P Require Import Prelude Params Disk Superblock Txn Fs FsBlocks FsInode FsBmap FsIo FsDinode FsWrite FsCheck.

Section spec.
Context {S : Type} `{!Txn S, !DevSw S}.
Implicit Types (sb : superblock) (ic : list inode) (t : S) (v : tview).

(** balloc takes the first free block: it is zeroed, its bit is set, no
    other bit and no other block changes.  When no block is free it panics. *)
Theorem balloc_correct sb ic t v :
  trep t v → map_free sb v →
  ((∀ g, 0 ≤ g < sb_size sb → used sb (t_blocks v) g = true) →
   balloc ROOTDEV (FState sb ic t) = Panic "balloc: out of blocks") ∧
  ∀ f, first_free sb (t_blocks v) f → can_read f v → (∀ g, 0 ≤ g < sb_size sb → f ≠ BBLOCK g sb) → (2 ≤ t_room v)%nat →
   ∃ t' v', balloc ROOTDEV (FState sb ic t) = Ok f (FState sb ic t') ∧ trep t' v' ∧
     t_blocks v' !! f = Some (replicate BSIZE_n 0) ∧
     (∀ g, 0 ≤ g < sb_size sb → used sb (t_blocks v') g = bool_decide (g = f) || used sb (t_blocks v) g) ∧
     (∀ b, b ≠ f → b ≠ BBLOCK f sb → t_blocks v' !! b = t_blocks v !! b).
Proof.
  intros Ht Hm. split; [by apply balloc_full|]. intros f Hf Hr Hne Hroom. pose proof Hf as (Hfr & _ & _).
  destruct (balloc_ok f sb ic t v Ht Hm Hf Hr (Hne f Hfr)) as (t' & E & Ht'); [right; lia| |].
  { right. cbn. destruct (decide _); lia. }
  exists t', (alloc_view sb f v). split; [done|]. split; [done|]. split; [apply lookup_insert_eq|]. split.
  - intros g Hg. apply alloc_view_used; [apply Hm|done|done|by apply Hne].
  - intros b H1 H2. cbn. by rewrite !lookup_insert_ne.
Qed.

(** bfree clears the bit of a block in use and no other bit, and leaves
    every block but that of the free map alone; a block that is free already
    makes it panic. *)
Theorem bfree_correct sb ic t v f x1 :
  trep t v → map_free sb v → 0 ≤ f < sb_size sb → can_read 1 v → t_blocks v !! 1 = Some x1 → sb_decode x1 = sb →
  (1 ≤ t_room v)%nat →
  if used sb (t_blocks v) f then
    ∃ t' v', bfree ROOTDEV f (FState sb ic t) = Ok tt (FState sb ic t') ∧ trep t' v' ∧
      (∀ g, 0 ≤ g < sb_size sb → used sb (t_blocks v') g = negb (bool_decide (g = f)) && used sb (t_blocks v) g) ∧
      (∀ b, b ≠ BBLOCK f sb → t_blocks v' !! b = t_blocks v !! b)
  else bfree ROOTDEV f (FState sb ic t) = Panic "freeing free block".
Proof.
  intros Ht Hm Hf Hr Hx Hsb Hroom. pose proof (bfree_ok f sb ic t v x1 Ht Hm Hf Hr Hx Hsb ltac:(right; lia)) as H.
  destruct (used sb (t_blocks v) f); [|done]. destruct H as (t' & E & Ht'). exists t', (free_view sb f v).
  split; [done|]. split; [done|]. split; [intros g Hg; by apply free_view_used; [apply Hm|..]|].
  intros b Hb. cbn. by rewrite lookup_insert_ne.
Qed.

(** C13: readi returns exactly the bytes of the file in the range that was
    asked for, cut at the end of the file, and -1 for an offset behind the
    end or a range that wraps around; nothing changes. *)
Theorem readi_correct ip i off n sb ic t v ds :
  at_inode sb ic t v ds ip i → d_type (i_d i) ≠ T_DEV → 0 ≤ off < 2 ^ 32 → 0 ≤ n < 2 ^ 32 →
  let size := d_size (i_d i) in
  let n' := Z.min n (size - off) in
  ∃ t', readi ip off n (FState sb ic t) =
      Ok (if (size <? off) || (2 ^ 32 <=? off + n) then (-1, [])
          else (n', slice (Z.to_nat off) (Z.to_nat n') (content (t_blocks v) (i_d i)))) (FState sb ic t') ∧ trep t' v.
Proof. apply readi_ok. Qed.

(** C12: writei makes the bytes of the file at the offset those of the
    buffer, extends the file if they go over its end, keeps every other file
    and the consistency of the file system, and puts the inode on disk.  It
    refuses with -1, and changes nothing, an offset behind the end and a file
    that would be too long. *)
Theorem writei_correct ip i src off n k sb ic t v ds :
  at_inode sb ic t v ds ip i → itable sb (t_blocks v) ds ∅ → d_type (i_d i) ≠ T_DEV →
  0 ≤ off < 2 ^ 32 → 0 ≤ n < 2 ^ 32 →
  (d_size (i_d i) < off ∨ 2 ^ 32 ≤ off + n ∨ MAXFILE * BSIZE < off + n →
   writei ip src off n (FState sb ic t) = Ok (-1) (FState sb ic t)) ∧
  (off ≤ d_size (i_d i) → off + n ≤ MAXFILE * BSIZE → n ≤ Z.of_nat (length src) →
   off `mod` BSIZE + n ≤ Z.of_nat k * BSIZE →
   slack sb v (1 + k + ind_cost v (i_d i)) → (k + ind_need (i_d i) ≤ size (free_blocks sb (t_blocks v)))%nat →
   ∃ d' t' v', writei ip src off n (FState sb ic t) = Ok n (FState sb (<[ip := set_disk d' i]> ic) t') ∧
     at_inode sb (<[ip := set_disk d' i]> ic) t' v' (<[i_inum i := d']> ds) ip (set_disk d' i) ∧
     file_written sb v v' ds (i_inum i) (i_d i) d' (Z.to_nat off) (take (Z.to_nat n) src)).
Proof.
  intros Hat Hit Hty Ho Hn. split.
  - intros H. unfold writei. rewrite (ino_step _ ip i sb ic t (ai_cached _ _ _ _ _ _ _ Hat)). cbv zeta.
    rewrite (proj2 (Z.eqb_neq _ T_DEV)) by done. rewrite u32_overflow by done.
    destruct (Z.ltb_spec (d_size (i_d i)) off); [done|]. cbn [orb].
    destruct (Z.leb_spec (2 ^ 32) (off + n)); [done|]. rewrite u32_small by lia.
    by rewrite (proj2 (Z.ltb_lt (MAXFILE * BSIZE) (off + n))) by lia.
  - intros H1 H2 H3 H4 H5 H6. apply (writei_ok ip i src off n k); [done|done|done|lia|lia|done..].
Qed.
End spec.

(** ** An example

    A disk of 8 blocks: the inodes are in block 2, the free map is block 3,
    and the data is in blocks 4 to 7.  Inode 1 is a file of 5 bytes in
    block 4. *)
Module Example.
Definition ex_sb : superblock := Superblock 8 4 8 0 2 2 3.
Definition ex_data : block := [10; 20; 30; 40; 50] ++ replicate 507 0.
Definition ex_dinode : dinode := DInode T_FILE 0 0 1 5 (4 :: replicate 12 0).
Definition ex_inode : inode := Inode ROOTDEV 1 1 I_VALID ex_dinode.
Definition ex_sblock : block := concat (le_bytes 4 <$> [8; 4; 8; 0; 2; 2; 3]) ++ replicate 484 0.
Definition ex_zero : block := replicate BSIZE_n 0.
Definition ex_blocks : gmap Z block :=
  list_to_map [(0, ex_zero); (1, ex_sblock); (2, put_dinode 1 ex_dinode ex_zero); (3, 31 :: replicate 511 0);
    (4, ex_data); (5, ex_zero); (6, ex_zero); (7, ex_zero)].
Definition ex_view : tview := TView ex_blocks ∅ ∅ ∅ 9 ex_blocks.
Definition ex_inodes : gmap Z dinode := {[1 := ex_dinode]}.

#[export] Instance ex_devsw : DevSw tview := { devsw_read _ := None; devsw_write _ := None }.

Lemma ex_rep : trep ex_view ex_view.
Proof. split; [done|]. intros i b H. change (t_held ex_view) with (∅ : gmap nat Z) in H. by rewrite lookup_empty in H. Qed.

Lemma ex_map_ok : map_ok ex_sb ex_blocks.
Proof. apply map_check_ok. vm_compute. reflexivity. Qed.

Lemma ex_map_free : map_free ex_sb ex_view.
Proof.
  split; [apply ex_map_ok|vm_compute; lia| |done]. intros b _. change (t_held ex_view) with (∅ : gmap nat Z).
  rewrite map_img_empty_L. set_solver.
Qed.

Lemma ex_first_free : first_free ex_sb ex_blocks 5.
Proof.
  split; [done|]. split; [reflexivity|]. intros g Hg.
  apply (all_below_ok 5 (used ex_sb ex_blocks)); [vm_compute; reflexivity|done].
Qed.

Lemma ex_can_read b x : ex_blocks !! b = Some x → can_read b ex_view.
Proof. intros H. by apply (can_read_empty b ex_view x). Qed.

Lemma ex_fs_ok : fs_ok ex_sb ex_blocks ex_inodes.
Proof. apply fs_check_ok. vm_compute. reflexivity. Qed.

Lemma ex_at : at_inode ex_sb [ex_inode] ex_view ex_view ex_inodes 0 ex_inode.
Proof. split; [apply ex_rep|done|done|apply ex_fs_ok|done|done|done]. Qed.

Lemma ex_table : itable ex_sb ex_blocks ex_inodes ∅.
Proof. apply itable_check_ok. vm_compute. reflexivity. Qed.
End Example.

Import Example.

Lemma balloc_correct_witness :
  ∃ t' v', balloc ROOTDEV (FState ex_sb [] ex_view) = Ok 5 (FState ex_sb [] t') ∧ trep t' v' ∧
    used ex_sb (t_blocks v') 5 = true ∧ used ex_sb (t_blocks v') 6 = false.
Proof.
  destruct (balloc_correct ex_sb [] ex_view ex_view ex_rep ex_map_free) as [_ H].
  destruct (H 5 ex_first_free (ex_can_read 5 ex_zero eq_refl)) as (t' & v' & E & Ht & _ & Hu & _).
  - intros g Hg. apply Z.eqb_neq, negb_true_iff. apply (all_below_ok 8 (λ g, negb (5 =? BBLOCK g ex_sb))); [vm_compute; reflexivity|exact Hg].
  - cbn. lia.
  - exists t', v'. split; [exact E|]. split; [exact Ht|]. split; [by rewrite Hu|by rewrite Hu].
Defined.

Lemma bfree_correct_witness :
  (∃ t' v', bfree ROOTDEV 4 (FState ex_sb [] ex_view) = Ok tt (FState ex_sb [] t') ∧ trep t' v' ∧
     used ex_sb (t_blocks v') 4 = false) ∧
  bfree ROOTDEV 6 (FState ex_sb [] ex_view) = Panic "freeing free block".
Proof.
  split.
  - pose proof (bfree_correct ex_sb [] ex_view ex_view 4 ex_sblock ex_rep ex_map_free ltac:(cbn; lia)
      (ex_can_read 1 ex_sblock eq_refl) eq_refl eq_refl ltac:(cbn; lia)) as H.
    change (used ex_sb (t_blocks ex_view) 4) with true in H. destruct H as (t' & v' & E & Ht & Hu & _).
    exists t', v'. split; [exact E|]. split; [exact Ht|]. by rewrite Hu.
  - exact (bfree_correct ex_sb [] ex_view ex_view 6 ex_sblock ex_rep ex_map_free ltac:(cbn; lia)
      (ex_can_read 1 ex_sblock eq_refl) eq_refl eq_refl ltac:(cbn; lia)).
Defined.

Lemma readi_correct_witness :
  ∃ t', readi 0 1 100 (FState ex_sb [ex_inode] ex_view) = Ok (4, [20; 30; 40; 50]) (FState ex_sb [ex_inode] t') ∧ trep t' ex_view.
Proof.
  destruct (readi_correct 0 ex_inode 1 100 ex_sb [ex_inode] ex_view ex_view ex_inodes ex_at) as (t' & E & Ht);
    [done|lia|lia|]. exists t'. split; [exact E|exact Ht].
Defined.

(** Three bytes at the end of the file. *)
Lemma writei_correct_witness :
  (∃ d' t' v', writei 0 [60; 70; 80] 4 3 (FState ex_sb [ex_inode] ex_view) = Ok 3 (FState ex_sb [set_disk d' ex_inode] t') ∧
     content (t_blocks v') d' = [10; 20; 30; 40; 60; 70; 80] ∧ trep t' v') ∧
  writei 0 [60; 70; 80] 6 3 (FState ex_sb [ex_inode] ex_view) = Ok (-1) (FState ex_sb [ex_inode] ex_view).
Proof.
  split.
  - destruct (writei_correct 0 ex_inode [60; 70; 80] 4 3 1 ex_sb [ex_inode] ex_view ex_view ex_inodes ex_at ex_table) as [_ H];
      [done|lia|lia|].
    destruct H as (d' & t' & v' & E & Hat & Hw); [cbn; lia|vm_compute; discriminate|cbn; lia|vm_compute; discriminate|vm_compute; lia|vm_compute; lia|].
    exists d', t', v'. split; [exact E|]. split; [|apply Hat]. rewrite (wn_content _ _ _ _ _ _ _ _ _ Hw). vm_compute. reflexivity.
  - destruct (writei_correct 0 ex_inode [60; 70; 80] 6 3 1 ex_sb [ex_inode] ex_view ex_view ex_inodes ex_at ex_table) as [H _];
      [done|lia|lia|]. apply H. left. cbn. lia.
Defined.
