(* ===== verification/TxnLog.v ===== *)
(** * The log provides transactions

    The instance of the interface of Txn.v by log.c over any buffer cache: a
    transaction is the only active call of a reachable configuration of the
    log, so that what LogSpec.v says about crashes holds for it. *)

From S2P Require Import Prelude Params Disk BlockCache Bio BioProofs Superblock Log LogProofs.
From S2P Require Import LogCrash LogTx Machine LogSpec Txn.

#[export] Instance in_log_dec l b : Decision (in_log l b).
Proof. unfold in_log. apply _. Defined.

(** The blocks outside the log. *)
Definition home_block (l : log) (b : Z) : Prop := 0 ≤ b < 2 ^ 31 ∧ ¬ in_log l b.
#[export] Instance home_block_dec l b : Decision (home_block l b).
Proof. unfold home_block. apply _. Defined.

Definition home (l : log) (m : gmap Z block) : gmap Z block := filter (λ p, home_block l p.1) m.

Lemma lookup_home l m b : home l m !! b = if decide (home_block l b) then m !! b else None.
Proof.
  unfold home. destruct (decide (home_block l b)) as [H|H].
  - destruct (m !! b) as [x|] eqn:E; [by apply map_lookup_filter_Some_2|].
    apply map_lookup_filter_None_2. by left.
  - apply map_lookup_filter_None_2. right. intros x _. done.
Qed.

Lemma home_insert l m b x : home_block l b → home l (<[b := x]> m) = <[b := x]> (home l m).
Proof.
  intros Hb. apply map_eq. intros c. rewrite lookup_home, !lookup_insert, lookup_home.
  destruct (decide (b = c)) as [->|]; [by rewrite decide_True|done].
Qed.

Lemma size_map_img (m : gmap nat Z) : (size (map_img (SA := gset Z) m) ≤ size m)%nat.
Proof.
  induction m as [|i x m Hi IH] using map_ind.
  - rewrite map_img_empty_L, size_empty. lia.
  - rewrite map_size_insert_None by done.
    etrans; [apply (subseteq_size _ ({[x]} ∪ map_img m)), map_img_insert_subseteq|].
    rewrite size_union_alt, size_singleton.
    assert (size ((map_img m : gset Z) ∖ {[x]}) ≤ size (map_img (SA := gset Z) m))%nat
      by (apply subseteq_size; set_solver). lia.
Qed.

(** Room for the buffers that a call holds beside those that the log pins. *)
Definition LOGPIN : nat := NBUF_n - MAXHELD - 1.

Section txn.
Context {S : Type} `{!BlockCache S}.
Implicit Types (s : lstate S) (v : tview) (bv : bview).

(** [s] is inside a transaction that [v] describes. *)
Record txn_ok s v bv (u : nat) d : Prop := TxnOk {
  to_reach : reachable (Conf s bv [u] d);
  to_blocks : t_blocks v = home (lg s) (v_view bv);
  to_held : t_held v = v_held bv;
  to_logged : t_logged v = list_to_set (logged_blocks (lg s));
  to_clean b : b ∉ t_pending v → b ∈ v_dirty bv ∨ v_view bv !! b = v_disk bv !! b;
  to_room : (length (logged_blocks (lg s)) + t_room v ≤ LOGPIN)%nat;
  to_budget : (u + t_room v ≤ op_budget)%nat;
  to_durable : t_durable v = home (lg s) d;
  to_sb : sb_places (lg s) d ∧ ¬ in_log (lg s) 1;
}.

Definition log_trep s v : Prop := ∃ bv u d, txn_ok s v bv u d.

Section ops.
Context s v bv u d (H : txn_ok s v bv u d).

Lemma txn_inv : inv (Conf s bv [u] d).
Proof. apply reachable_inv, H. Qed.

Lemma txn_held_home i b : t_held v !! i = Some b → home_block (lg s) b.
Proof. rewrite (to_held _ _ _ _ _ H). apply (iv_held _ txn_inv). Qed.

Lemma txn_block b x : t_blocks v !! b = Some x ↔ home_block (lg s) b ∧ v_view bv !! b = Some x.
Proof. rewrite (to_blocks _ _ _ _ _ H), lookup_home. destruct (decide (home_block (lg s) b)); naive_solver. Qed.

Lemma txn_held_block i b : t_held v !! i = Some b → is_Some (t_blocks v !! b).
Proof.
  intros Hi. pose proof (txn_held_home i b Hi) as Hb. rewrite (to_held _ _ _ _ _ H) in Hi.
  destruct (brep_held _ _ _ _ (iv_rep _ txn_inv) Hi) as [x Hx]. exists x. by apply txn_block.
Qed.

Lemma txn_dirty : v_dirty bv = t_logged v.
Proof. rewrite (to_logged _ _ _ _ _ H). apply (lk_dirty _ _ _ (iv_log _ txn_inv)). Qed.

Lemma txn_pinned : (size (t_held v) ≤ MAXHELD)%nat → (size (pinned bv) < NBUF_n)%nat.
Proof.
  intros Hsz. unfold pinned. rewrite txn_dirty, (to_logged _ _ _ _ _ H).
  pose proof (to_room _ _ _ _ _ H) as Hr.
  assert (size (list_to_set (C := gset Z) (logged_blocks (lg s))) ≤ length (logged_blocks (lg s)))%nat as H1.
  { rewrite (size_list_to_set (C := gset Z)); [done|]. apply (lk_nodup _ _ _ (iv_log _ txn_inv)). }
  assert (size (held_blocks bv) ≤ MAXHELD)%nat as H2.
  { etrans; [|exact Hsz]. rewrite (to_held _ _ _ _ _ H). unfold held_blocks.
    apply size_map_img. }
  rewrite size_union_alt.
  assert (size (held_blocks bv ∖ list_to_set (logged_blocks (lg s))) ≤ size (held_blocks bv))%nat.
  { apply subseteq_size. set_solver. }
  unfold LOGPIN, MAXHELD, NBUF_n, NBUF, MAXOPBLOCKS in *. lia.
Qed.
End ops.

Lemma txn_bread s v b :
  log_trep s v → is_Some (t_blocks v !! b) → b ∉ (map_img (t_held v) : gset Z) → (size (t_held v) ≤ MAXHELD)%nat →
  ∃ i s', bio (bread ROOTDEV b) s = Ok i s' ∧ t_held v !! i = None ∧ log_trep s' (hold i b v).
Proof.
  intros (bv & u & d & H) [x Hx] Hb Hsz. apply (txn_block _ _ _ _ _ H) in Hx as [[Hr Hnl] Hx].
  pose proof (txn_inv _ _ _ _ _ H) as I. pose proof (txn_pinned _ _ _ _ _ H Hsz) as Hp.
  assert (is_Some (v_disk bv !! b)) as Hd by (rewrite <- (brep_dom _ _ _ (iv_rep _ I)); eauto).
  rewrite (to_held _ _ _ _ _ H) in Hb |- *.
  destruct (bread_ok _ _ b (iv_rep _ I) Hd Hb (or_intror Hp)) as (i & t & E & Hi & _). simpl in E.
  exists i, (LState (lg s) t). split; [by apply bio_ok|]. split; [done|].
  exists (set_held (<[i := b]> (v_held bv)) bv), u, d. destruct H. split; try done; simpl.
  - eapply reachable_step; [done|]. by eapply (step_bread s bv [u] d b i t); auto.
  - by rewrite to_held0.
Qed.

Lemma txn_brelse s v i b :
  log_trep s v → t_held v !! i = Some b → b ∉ t_pending v →
  ∃ s', bio (brelse i) s = Ok tt s' ∧ log_trep s' (unhold i v).
Proof.
  intros (bv & u & d & H) Hi Hb. pose proof (txn_inv _ _ _ _ _ H) as I. pose proof (to_clean _ _ _ _ _ H b Hb) as Hc.
  rewrite (to_held _ _ _ _ _ H) in Hi.
  destruct (brelse_ok _ _ i b (iv_rep _ I) Hi Hc) as (t & E & _). simpl in E.
  exists (LState (lg s) t). split; [by apply bio_ok|].
  exists (set_held (delete i (v_held bv)) bv), u, d. destruct H. split; try done; simpl.
  - eapply reachable_step; [done|]. by eapply (step_brelse s bv [u] d i b t).
  - by rewrite to_held0.
Qed.

Lemma txn_data s v i b x :
  log_trep s v → t_held v !! i = Some b → t_blocks v !! b = Some x → bio (buf_data i) s = Ok x s.
Proof.
  intros (bv & u & d & H) Hi Hx. apply (txn_block _ _ _ _ _ H) in Hx as [_ Hx].
  rewrite (to_held _ _ _ _ _ H) in Hi. pose proof (buf_data_ok _ _ _ _ _ (iv_rep _ (txn_inv _ _ _ _ _ H)) Hi Hx) as E.
  simpl in E. rewrite (bio_ok _ _ _ _ E). by rewrite lstate_eta.
Qed.

Lemma txn_set s v i b x :
  log_trep s v → t_held v !! i = Some b → ∃ s', bio (buf_write i x) s = Ok tt s' ∧ log_trep s' (put_block b x v).
Proof.
  intros (bv & u & d & H) Hi. pose proof (txn_held_home _ _ _ _ _ H i b Hi) as Hb.
  pose proof (txn_inv _ _ _ _ _ H) as I. rewrite (to_held _ _ _ _ _ H) in Hi.
  destruct (buf_write_ok _ _ i b x (iv_rep _ I) Hi) as (t & E & _). simpl in E.
  exists (LState (lg s) t). split; [by apply bio_ok|].
  exists (set_view (<[b := x]> (v_view bv)) bv), u, d. destruct H. split; try done; simpl.
  - eapply reachable_step; [done|]. by eapply (step_modify s bv [u] d i b x t).
  - by rewrite to_blocks0, home_insert.
  - intros c Hc. rewrite lookup_insert_ne by set_solver. apply to_clean0. set_solver.
Qed.

Lemma txn_log_write s v i b :
  log_trep s v → t_held v !! i = Some b → b ∈ t_logged v ∨ (0 < t_room v)%nat →
  ∃ s', log_write i s = Ok tt s' ∧ log_trep s' (add_log b v).
Proof.
  intros (bv & u & d & H) Hi Hroom. pose proof (txn_held_home _ _ _ _ _ H i b Hi) as Hb.
  pose proof (txn_inv _ _ _ _ _ H) as I. pose proof (lk_n _ _ _ (iv_log _ I)) as En. simpl in En.
  pose proof (iv_size _ I) as Hsz. simpl in Hsz.
  rewrite (to_held _ _ _ _ _ H) in Hi.
  assert (b ∈ t_logged v ↔ b ∈ logged_blocks (lg s)) as Hlog by (rewrite (to_logged _ _ _ _ _ H); apply elem_of_list_to_set).
  set (bl := absorb b (logged_blocks (lg s))).
  assert (∃ lb t u', let l := set_n (Z.of_nat (length bl)) (set_block lb (lg s)) in
    log_write i s = Ok tt (LState l t) ∧ logged_blocks l = bl ∧
    reachable (Conf (LState l t) (set_dirty ({[b]} ∪ v_dirty bv) bv) [u'] d) ∧
    (length bl + t_room (add_log b v) ≤ LOGPIN)%nat ∧ (u' + t_room (add_log b v) ≤ op_budget)%nat)
    as (lb & t & u' & E & Hbl & Hr' & Hr1 & Hr2).
  { pose proof (to_room _ _ _ _ _ H) as Hroom'. pose proof (to_budget _ _ _ _ _ H) as Hbud.
    destruct (decide (b ∈ t_logged v)) as [Hin|Hnin].
    - apply Hlog in Hin as Hin'. assert (bl = logged_blocks (lg s)) as Ebl by (unfold bl, absorb; by rewrite decide_True).
      destruct (absorb_enabled _ _ _ _ i b I) as (lb & t & E & Hlb & Hlk & Hrep); [done|done|done| |].
      { unfold LOGPIN, NBUF_n, NBUF, LOGSIZE, MAXOPBLOCKS, MAXHELD in *. lia. }
      exists lb, t, u. split; [exact E|]. split.
      + apply (logged_blocks_eq _ _ _ Hlk). simpl. rewrite Hlb. fold bl. rewrite Ebl.
        unfold LOGPIN, LOGSIZE_n, NBUF_n, NBUF, LOGSIZE, MAXOPBLOCKS, MAXHELD in *. lia.
      + split; [eapply reachable_step; [apply H|]; by eapply step_absorb|].
        unfold add_log. cbn [t_room]. rewrite decide_True by done. by rewrite Ebl.
    - destruct Hroom as [?|Hroom]; [done|].
      destruct (log_write_enabled _ _ _ _ i b 0 u I Hi eq_refl ltac:(lia)) as (_ & lb & t & E & Hlb & Hlk & Hrep).
      assert (length bl = length (logged_blocks (lg s)) + 1)%nat as Ebl.
      { unfold bl, absorb. rewrite decide_False by (by rewrite <- Hlog). rewrite length_app. done. }
      exists lb, t, (Datatypes.S u). split; [exact E|]. split.
      + apply (logged_blocks_eq _ _ _ Hlk). simpl. rewrite Hlb. fold bl. rewrite Ebl.
        unfold LOGPIN, LOGSIZE_n, NBUF_n, NBUF, LOGSIZE, MAXOPBLOCKS, MAXHELD in *. lia.
      + split; [eapply reachable_step; [apply H|]; by apply (step_log_write s bv [u] d i b 0 u); [done|done|lia|]|].
        unfold add_log. cbn [t_room]. rewrite decide_False by done. lia. }
  eexists. split; [exact E|]. exists (set_dirty ({[b]} ∪ v_dirty bv) bv), u', d. split; try done.
  - exact (to_blocks _ _ _ _ _ H).
  - exact (to_held _ _ _ _ _ H).
  - cbn [lg add_log t_logged]. rewrite Hbl, (to_logged _ _ _ _ _ H). unfold bl. apply set_eq. intros c.
    rewrite elem_of_union, elem_of_singleton, !elem_of_list_to_set, elem_of_absorb. done.
  - intros c Hc. cbn [add_log t_pending v_dirty v_view v_disk set_dirty] in *. destruct (decide (c = b)) as [->|]; [left; set_solver|].
    destruct (to_clean _ _ _ _ _ H c) as [?|?]; [set_solver|left; set_solver|by right].
  - cbn [lg]. by rewrite Hbl.
  - exact (to_durable _ _ _ _ _ H).
  - exact (to_sb _ _ _ _ _ H).
Qed.

#[export] Program Instance log_txn : Txn (lstate S) := {
  t_bread dev b := bio (bread dev b);
  t_brelse i := bio (brelse i);
  t_data i := bio (buf_data i);
  t_set i x := bio (buf_write i x);
  t_log_write := log_write;
  t_begin_op := begin_op;
  t_end_op := end_op;
  trep := log_trep;
}.
Next Obligation. intros s v i b (bv & u & d & H). by eapply txn_held_block. Qed.
Next Obligation. apply txn_bread. Qed.
Next Obligation. apply txn_brelse. Qed.
Next Obligation. apply txn_data. Qed.
Next Obligation. apply txn_set. Qed.
Next Obligation. apply txn_log_write. Qed.

(** ** Beginning and ending a transaction *)

(** The view of a transaction that has just begun. *)
Definition begun (m : gmap Z block) : tview := TView m ∅ ∅ ∅ op_budget m.

Lemma idle_view s bv d b :
  inv (Conf s bv [] d) → v_held bv = ∅ → v_view bv !! b = v_disk bv !! b.
Proof.
  intros I Hh. pose proof (lk_dirty _ _ _ (iv_log _ I)) as Hd. pose proof (iv_idle _ I eq_refl) as Hn. cbn [c_s c_v] in *.
  apply (brep_clean _ _ _ (iv_rep _ I)). cbn [c_v]. rewrite pinned_none, Hd by done. unfold logged_blocks. rewrite Hn. set_solver.
Qed.

Lemma txn_begin s bv d :
  reachable (Conf s bv [] d) → v_held bv = ∅ → sb_places (lg s) d → ¬ in_log (lg s) 1 →
  ∃ s', begin_op s = Ok tt s' ∧ log_trep s' (begun (home (lg s) d)).
Proof.
  intros Hr Hh Hsb Hnl. pose proof (reachable_inv _ Hr) as I. pose proof (iv_idle _ I eq_refl) as Hn. cbn [c_s] in Hn.
  assert (begin_op s = Ok tt (LState (set_outstanding 1 (lg s)) (io s))) as E.
  { unfold begin_op. mstep (ask_ok id s). change (id (lg s)) with (lg s). destruct I. cbn in *.
    by rewrite iv_committing, iv_outstanding, Hn. }
  eexists. split; [exact E|].
  assert (logged_blocks (lg s) = []) as Hnil by (unfold logged_blocks; by rewrite Hn).
  exists bv, 0%nat, d. split; try done.
  - exact (reachable_step _ _ Hr (step_begin _ _ _ _ _ E)).
  - cbn [begun t_blocks lg]. change (home (set_outstanding 1 (lg s)) (v_view bv)) with (home (lg s) (v_view bv)).
    apply map_eq. intros b. rewrite !lookup_home. destruct (decide (home_block (lg s) b)) as [[_ Hb]|]; [|done].
    rewrite (idle_view s bv d b I Hh). symmetry. by apply (iv_durable _ I).
  - cbn [begun t_logged lg]. change (logged_blocks (set_outstanding 1 (lg s))) with (logged_blocks (lg s)). by rewrite Hnil.
  - intros b _. right. by apply (idle_view s bv d).
  - cbn [lg]. change (logged_blocks (set_outstanding 1 (lg s))) with (logged_blocks (lg s)). rewrite Hnil. vm_compute. lia.
Qed.

(** The end of a transaction commits it, and a crash after any number of the
    writes of the commit leaves, after recovery, all of its blocks or none. *)
Lemma txn_crash s v :
  log_trep s v → t_held v = ∅ → 1 ∉ t_logged v →
  ∃ bv u d s', reachable (Conf s bv [u] d) ∧ end_op s = Ok tt s' ∧ brep (io s') (commit_view (lg s) bv) ∧
    v_writes (commit_view (lg s) bv) = v_writes bv ++ commit_trace (lg s) bv ∧
    ∀ k s0 w, lg s0 = log_zero → brep (io s0) (fresh (crashed (Conf s bv [u] d) k) w) →
      ∃ s1 m1 w1, initlog ROOTDEV s0 = Ok tt s1 ∧ lh_n (lg s1) = 0 ∧ brep (io s1) (fresh m1 w1) ∧
        (t_durable v ⊆ m1 ∨ t_blocks v ⊆ m1).
Proof.
  intros (bv & u & d & H) Hh Hl. pose proof (txn_inv _ _ _ _ _ H) as I. pose proof H as [Hr Hbl Hhe Hlog _ _ _ Hdur [(x & Hx & Hsb) Hnl]].
  rewrite Hhe in Hh. destruct (end_commit _ _ _ _ I Hh) as (t & E & Ht). exists bv, u, d, (LState (closed (lg s)) t).
  split; [done|]. split; [done|]. split; [done|]. split; [unfold commit_view; by rewrite copy_all_spec|].
  intros k s0 w Hs0 Hrep0. destruct (commit_recovery s bv u d k s0 w I Hh) as (s1 & m1 & w1 & E1 & Hn1 & Hrep1 & Hm); [|done|done|].
  { split; [|split; [done|]]; cbn [c_s c_v].
    - exists x. split; [|done]. pose proof (iv_durable _ I 1 Hnl) as E1. cbn in E1. by rewrite E1.
    - rewrite Hlog in Hl. by rewrite elem_of_list_to_set in Hl. }
  exists s1, m1, w1. split; [done|]. split; [done|]. split; [done|]. rewrite Hbl, Hdur.
  destruct (decide (k ≤ length (logged_blocks (lg s)))%nat); [left|right]; apply map_subseteq_spec; intros b y;
    rewrite lookup_home; (destruct (decide (home_block (lg s) b)) as [[_ Hb]|]; [|done]); intros Hy; by rewrite Hm.
Qed.
End txn.
