(* ===== verification/FsCrash.v ===== *)
(** * Files and crashes

    fs.c over log.c over the buffer cache: what a crash in the middle of a
    write to a file leaves on the disk after recovery. *)

From S2P Require Import Prelude Params Disk BlockCache Bio BioProofs Superblock Log LogProofs.
From S2P Require Import LogCrash LogTx Machine LogSpec Txn TxnLog Fs FsBlocks FsInode FsBmap FsIo FsDinode FsWrite FsCheck.

(** The contents of inode [inum] on a disk, found as the kernel finds them
    after a boot: through the inode on the disk. *)
Definition disk_file (sb : superblock) (m : gmap Z block) (inum : Z) : list Z :=
  content m (get_dinode inum (default [] (m !! IBLOCK inum sb))).

(** Only blocks of the file system matter. *)
Lemma content_subseteq sb m m1 ds inum d :
  fs_ok sb m ds → ds !! inum = Some d → m ⊆ m1 → content m1 d = content m d.
Proof.
  intros Hok Hd Hsub. rewrite map_subseteq_spec in Hsub.
  assert (∀ p b, blk m d !! p = Some b → b ≠ 0 → m1 !! b = m !! b) as Hsame.
  { intros p b Hp Hb. destruct (fo_owned Hok _ _ _ _ Hd Hp Hb) as [Hdb _]. destruct (fo_block Hok _ Hdb) as (x & Hx & _).
    by rewrite Hx, (Hsub _ _ Hx). }
  assert (blk m1 d = blk m d) as Eb by (apply blk_ext; intros Hne; by apply (Hsame 0%nat); [apply blk_ind|]).
  apply content_ext; [done|]. intros o Ho. pose proof (fo_full Hok _ _ _ Hd Ho) as Hne. unfold file_block.
  rewrite (blk_addr_of m m1 d d) by (by rewrite Eb). by rewrite (Hsame _ _ (blk_addr _ _ _ _ Hne eq_refl) Hne).
Qed.

Lemma disk_file_ok sb m m1 ds inum d :
  fs_ok sb m ds → itable sb m ds ∅ → ds !! inum = Some d → m ⊆ m1 → disk_file sb m1 inum = content m d.
Proof.
  intros Hok Hit Hd Hsub. destruct (it_block _ _ _ _ Hit _ _ Hd) as (x & Hx & _ & Hg). unfold disk_file.
  rewrite (proj1 (map_subseteq_spec _ _) Hsub _ _ Hx). cbn [from_option id]. rewrite Hg by set_solver. by eapply content_subseteq.
Qed.

Section crash.
Context {S : Type} `{!BlockCache S, !DevSw (lstate S)}.

Lemma map_blocks_place sb m b : map_ok sb m → b ∈ map_blocks sb → sb_bmapstart sb ≤ b.
Proof.
  intros Hm. unfold map_blocks. rewrite elem_of_list_to_set, list_elem_of_fmap. intros (g & -> & Hg%elem_of_seqZ).
  apply (bitmap_place sb m g Hm). lia.
Qed.

(** A write does not log the superblock. *)
Lemma sb_not_logged sb v v' ds dirty inum d d' off bytes :
  fs_ok sb (t_blocks v) ds → itable sb (t_blocks v) ds dirty → ds !! inum = Some d → 1 < sb_inodestart sb → t_logged v = ∅ →
  file_written sb v v' ds inum d d' off bytes → 1 ∉ t_logged v'.
Proof.
  intros Hok Hit Hd Hst Hl Hw H1. pose proof (it_place _ _ _ _ Hit _ _ Hd) as Hp.
  assert (0 ≤ inum / IPB) by (apply Z.div_pos; [by eapply (it_range _ _ _ _ Hit)|done]).
  destruct (fo_map Hok) as [Hs _ _]. assert (0 ≤ sb_size sb / BPB) by (apply Z.div_pos; [lia|done]).
  destruct (wn_log _ _ _ _ _ _ _ _ _ Hw 1 H1) as [E|[E|[E|E]]].
  - rewrite Hl in E. set_solver.
  - apply (map_blocks_place sb _ _ (fo_map Hok)) in E. lia.
  - unfold data_start in E. lia.
  - rewrite (IBLOCK_eq sb _ ds dirty Hok Hit inum d Hd) in E. lia.
Qed.

(** C3: a write to a file is atomic with respect to crashes.  On a file
    system whose log is idle, begin_op, writei and end_op succeed; and if the
    machine stops after any number of the disk writes of the commit and
    reboots, initlog leaves a disk on which every file, read through its
    inode on the disk, is as before, or on which the file has the new bytes
    and every other file is as before. *)
Theorem file_write_crash_atomic sb s bv dur ic ip i ds src off n k :
  let m := home (lg s) dur in
  reachable (Conf s bv [] dur) → v_held bv = ∅ → sb_places (lg s) dur → ¬ in_log (lg s) 1 → 1 < sb_inodestart sb →
  fs_ok sb m ds → itable sb m ds ∅ → ds !! i_inum i = Some (i_d i) → ic !! ip = Some i → i_dev i = ROOTDEV →
  d_type (i_d i) ≠ T_DEV → 0 ≤ off ≤ d_size (i_d i) → 0 ≤ n ≤ Z.of_nat (length src) → off + n ≤ MAXFILE * BSIZE →
  off `mod` BSIZE + n ≤ Z.of_nat k * BSIZE → (size (map_blocks sb) + k + 2 ≤ op_budget)%nat →
  (k + 1 ≤ size (free_blocks sb m))%nat →
  ∃ ic' s1 bv1 u dur1 s2,
    (tx t_begin_op;; writei ip src off n) (FState sb ic s) = Ok n (FState sb ic' s1) ∧
    reachable (Conf s1 bv1 [u] dur1) ∧ end_op s1 = Ok tt s2 ∧ brep (io s2) (commit_view (lg s1) bv1) ∧
    v_writes (commit_view (lg s1) bv1) = v_writes bv1 ++ commit_trace (lg s1) bv1 ∧
    ∀ c s0 w, lg s0 = log_zero → brep (io s0) (fresh (crashed (Conf s1 bv1 [u] dur1) c) w) →
      ∃ s3 m3 w3, initlog ROOTDEV s0 = Ok tt s3 ∧ brep (io s3) (fresh m3 w3) ∧
        (∀ j e, ds !! j = Some e → j ≠ i_inum i → disk_file sb m3 j = content m e) ∧
        (disk_file sb m3 (i_inum i) = content m (i_d i) ∨
         disk_file sb m3 (i_inum i) = overwrite (Z.to_nat off) (take (Z.to_nat n) src) (content m (i_d i))).
Proof.
  intros m Hr Hh Hsb Hnl Hst Hok Hit Hd Hi Hdev Hty Ho Hn Hmax Hk Hroom Hfree.
  destruct (txn_begin s bv dur Hr Hh Hsb Hnl) as (s1 & E1 & Ht1).
  destruct (writei_ok ip i src off n k sb ic s1 (begun m) ds) as (d' & s2 & v' & E2 & Hat & Hw).
  { by split. } { done. } { done. } { done. } { done. } { done. } { done. }
  { unfold slack, begun. cbn [t_logged t_room]. rewrite difference_empty_L. unfold ind_cost. destruct (decide _); lia. }
  { unfold begun, ind_need. cbn [t_blocks]. destruct (decide _); lia. }
  destruct Hat as [Hr2 Hh2 _ Hok2 _ _ _]. cbn [set_disk i_inum i_d] in *.
  destruct (txn_crash s2 v' Hr2 Hh2) as (bv1 & u & dur1 & s3 & C1 & C2 & C3 & C4 & C5).
  { by apply (sb_not_logged sb (begun m) v' ds ∅ (i_inum i) (i_d i) d' _ _ Hok Hit Hd Hst eq_refl Hw). }
  exists (<[ip := set_disk d' i]> ic), s2, bv1, u, dur1, s3. split; [by mstep (tx_ok t_begin_op sb ic s tt s1 E1)|].
  split; [done|]. split; [done|]. split; [done|]. split; [done|]. intros c s0 w Hs0 Hrep0.
  destruct (C5 c s0 w Hs0 Hrep0) as (s4 & m4 & w4 & D1 & _ & D3 & D4). exists s4, m4, w4. split; [done|]. split; [done|].
  rewrite (wn_durable _ _ _ _ _ _ _ _ _ Hw) in D4. change (t_durable (begun m)) with m in D4. destruct D4 as [Hsub|Hsub].
  - split; [intros j e He _; by apply (disk_file_ok sb m m4 ds)|]. left. by apply (disk_file_ok sb m m4 ds).
  - assert (∀ j e, <[i_inum i := d']> ds !! j = Some e → disk_file sb m4 j = content (t_blocks v') e) as Hnew.
    { intros j e He. apply (disk_file_ok sb (t_blocks v') m4 (<[i_inum i := d']> ds)); [done|apply Hw|done|done]. }
    split.
    + intros j e He Hj. rewrite (Hnew j e) by (by rewrite lookup_insert_ne). by apply (wn_other _ _ _ _ _ _ _ _ _ Hw j).
    + right. rewrite (Hnew (i_inum i) d' (lookup_insert_eq _ _ _)). apply Hw.
Qed.
End crash.

(** ** An example

    The disk of Machine.v with a file system on it: the inodes are in block
    32, the free map is block 33, and inode 1 has 5 bytes in block 34. *)
Module Example.
Definition ex_fsb : superblock := Superblock 40 8 8 30 2 32 33.
Definition ex_file : dinode := DInode T_FILE 0 0 1 5 (34 :: replicate 12 0).
Definition ex_ip : inode := Inode ROOTDEV 1 1 I_VALID ex_file.
Definition ex_iblock : block := put_dinode 1 ex_file zero_block.
Definition ex_map : block := [255; 255; 255; 255; 7] ++ replicate 507 0.
Definition ex_bytes : block := [10; 20; 30; 40; 50] ++ replicate 507 0.
Definition ex_files : gmap Z dinode := {[1 := ex_file]}.

(** Any contents of these three blocks. *)
Section boot.
Context (inodes map data : block).

Definition ex_fs : gmap Z block := <[32 := inodes]> (<[33 := map]> (<[34 := data]> (ex_image 40 30))).

(** The blocks outside the log. *)
Definition ex_home : gmap Z block :=
  list_to_map [(0, zero_block); (1, sb_block 40 30); (32, inodes); (33, map); (34, data);
    (35, zero_block); (36, zero_block); (37, zero_block); (38, zero_block); (39, zero_block)].

Lemma ex_fs_lookup b : b ≠ 32 → b ≠ 33 → b ≠ 34 → ex_fs !! b = ex_image 40 30 !! b.
Proof. intros. unfold ex_fs. by rewrite !lookup_insert_ne. Qed.

Lemma ex_fs_some b : is_Some (ex_fs !! b) ↔ 0 ≤ b < 40.
Proof.
  destruct (decide (b = 32)) as [->|]; [split; [lia|intros _; by eexists]|].
  destruct (decide (b = 33)) as [->|]; [split; [lia|intros _; by eexists]|].
  destruct (decide (b = 34)) as [->|]; [split; [lia|intros _; by eexists]|].
  rewrite ex_fs_lookup, ex_image_lookup by lia. destruct (decide (b = 1)) as [->|]; [split; [lia|eauto]|].
  destruct (decide (0 ≤ b < Z.of_nat 40)); [split; [lia|eauto]|]. split; [by intros []|lia].
Qed.

Lemma ex_home_eq l m :
  l_start l = 2 → l_size l = 30 → (∀ b, b ≠ 2 → m !! b = ex_fs !! b) → home l m = ex_home.
Proof.
  intros E1 E2 Hm. apply map_eq. intros b. rewrite lookup_home.
  assert (home_block l b ↔ 0 ≤ b < 2 ^ 31 ∧ ¬ 2 ≤ b < 32) as Hh by (unfold home_block, in_log; rewrite E1, E2; done).
  destruct (decide (b ∈ [0; 1; 32; 33; 34; 35; 36; 37; 38; 39])) as [Hin|Hout].
  - rewrite decide_True by (apply Hh; set_unfold; lia). rewrite Hm by (set_unfold; lia).
    repeat (apply elem_of_cons in Hin as [->|Hin]; [first [reflexivity|rewrite ex_fs_lookup, ex_image_lookup by lia; reflexivity]|]).
    by apply elem_of_nil in Hin.
  - assert (ex_home !! b = None) as -> by (apply not_elem_of_list_to_map_1; exact Hout).
    destruct (decide _) as [[H1 H2]%Hh|]; [|done]. rewrite Hm by lia. apply eq_None_not_Some. rewrite ex_fs_some. set_unfold. lia.
Qed.

(** The machine, booted from this disk. *)
Lemma ex_fs_boot : ∃ (s : lstate (bstate Memide.state)) bv dur,
  reachable (Conf s bv [] dur) ∧ v_held bv = ∅ ∧ sb_places (lg s) dur ∧ ¬ in_log (lg s) 1 ∧ home (lg s) dur = ex_home.
Proof.
  destruct (power_on_ok (Memide.State ex_fs 40 [])) as (t & _ & Ht); [intros b; apply ex_fs_some|].
  assert (∀ b, b ≠ 32 → b ≠ 33 → b ≠ 34 → b ≠ 1 → 0 ≤ b < 40 → ex_fs !! b = Some zero_block) as Hz.
  { intros b ?????. rewrite ex_fs_lookup, ex_image_lookup by lia. by rewrite decide_False, decide_True by lia. }
  assert (ex_fs !! 1 = Some (sb_block 40 30)) as H1 by (rewrite ex_fs_lookup, ex_image_lookup by lia; by rewrite decide_True).
  destruct (initlog_initial t ex_log zero_block ex_fs [] Ht) as (s & m & _ & Hm & Hst & Hsz & Hinit).
  { split; cbn; try done. intros b Hb. unfold in_log in Hb. cbn in Hb. rewrite Hz by lia. eauto. }
  { unfold LOGSIZE, MAXOPBLOCKS. cbn. lia. }
  { exists (sb_block 40 30). split; [done|]. by vm_compute. }
  { apply Hz; cbn; lia. }
  { by vm_compute. }
  { by vm_compute. }
  change (l_start ex_log) with 2 in *. change (l_size ex_log) with 30 in *.
  assert (∀ b, b ≠ 2 → m !! b = ex_fs !! b) as Hmb by (intros b Hb; rewrite Hm; by apply lookup_insert_ne).
  eexists s, _, m. split; [eexists; by split|]. split; [done|]. split; [|split].
  - exists (sb_block 40 30). rewrite Hmb, Hst, Hsz by done. split; [done|]. by vm_compute.
  - unfold in_log. lia.
  - by apply ex_home_eq.
Qed.
End boot.

#[export] Instance ex_no_devices : DevSw (lstate (bstate Memide.state)) :=
  { devsw_read _ := None; devsw_write _ := None }.

Lemma ex_home_ok : fs_ok ex_fsb (ex_home ex_iblock ex_map ex_bytes) ex_files.
Proof. apply fs_check_ok. vm_compute. reflexivity. Qed.

Lemma ex_home_table : itable ex_fsb (ex_home ex_iblock ex_map ex_bytes) ex_files ∅.
Proof. apply itable_check_ok. vm_compute. reflexivity. Qed.

End Example.

#[local] Existing Instance Example.ex_no_devices.

(** Three bytes at the end of the file. *)
Lemma file_write_crash_atomic_witness :
  ∃ s ic' s1 s2 : _, ∃ bv1 u dur1,
    (tx t_begin_op;; writei 0 [60; 70; 80] 4 3) (FState Example.ex_fsb [Example.ex_ip] s) = Ok 3 (FState Example.ex_fsb ic' s1) ∧
    reachable (Conf (S := bstate Memide.state) s1 bv1 [u] dur1) ∧ end_op s1 = Ok tt s2.
Proof.
  destruct (Example.ex_fs_boot Example.ex_iblock Example.ex_map Example.ex_bytes) as (s & bv & dur & Hr & Hh & Hsb & Hnl & Eh).
  destruct (file_write_crash_atomic Example.ex_fsb s bv dur [Example.ex_ip] 0 Example.ex_ip Example.ex_files [60; 70; 80] 4 3 1 Hr Hh Hsb Hnl)
    as (ic' & s1 & bv1 & u & dur1 & s2 & E1 & E2 & E3 & _); rewrite ?Eh.
  - cbn. lia.
  - apply Example.ex_home_ok.
  - apply Example.ex_home_table.
  - reflexivity.
  - reflexivity.
  - reflexivity.
  - discriminate.
  - cbn. lia.
  - cbn. lia.
  - vm_compute. discriminate.
  - vm_compute. discriminate.
  - vm_compute. lia.
  - vm_compute. lia.
  - exists s, ic', s1, s2, bv1, u, dur1. split; [exact E1|]. split; [exact E2|exact E3].
Defined.
