(* ===== verification/File.v ===== *)
(** * Files (file.c, file.h, and pipealloc and pipeclose of pipe.c)

    The file table, and above it the state of the kernel's storage: the pipes,
    the file system and the page allocator.  A file pointer is an index into
    the table, the null pointer is [None]; a pipe is known by the address of
    its page. *)

From S2P Require Import Prelude Params Mem Mmu Kalloc Pipe Disk Superblock Txn Fs.

Inductive ftype := FD_NONE | FD_PIPE | FD_INODE.
#[export] Instance ftype_eq_dec : EqDecision ftype.
Proof. solve_decision. Defined.

(** [readable] and [writable] are C truth values. *)
Record file := File {
  f_type : ftype;
  f_ref : Z;
  f_readable : Z;
  f_writable : Z;
  f_pipe : Z;
  f_ip : nat;
  f_off : Z;
}.

Definition set_fref (x : Z) (f : file) : file :=
  File (f_type f) x (f_readable f) (f_writable f) (f_pipe f) (f_ip f) (f_off f).
Definition set_foff (x : Z) (f : file) : file :=
  File (f_type f) (f_ref f) (f_readable f) (f_writable f) (f_pipe f) (f_ip f) x.

(** ftable, the pipes by address, the file system, the page allocator with
    its memory, and ticks. *)
Record kern (S : Type) := Kern {
  k_ftable : list file;
  k_pipes : gmap Z pipe;
  k_fs : fstate S;
  k_mem : kstate;
  k_ticks : Z;
}.
Arguments Kern {S}.
Arguments k_ftable {S}.
Arguments k_pipes {S}.
Arguments k_fs {S}.
Arguments k_mem {S}.
Arguments k_ticks {S}.

(** max of filewrite: ((LOGSIZE-1-1-2) / 2) * 512 *)
Definition filewrite_max : Z := (LOGSIZE - 1 - 1 - 2) / 2 * 512.

Section file.
Context (end_ : Z) {S : Type} `{!Txn S, !DevSw S}.
#[local] Abbreviation K := (M (kern S)).

Definition on_fs {A} (m : M (fstate S) A) : K A :=
  zoom k_fs (λ x k, Kern (k_ftable k) (k_pipes k) x (k_mem k) (k_ticks k)) m.
Definition on_mem {A} (m : M kstate A) : K A :=
  zoom k_mem (λ x k, Kern (k_ftable k) (k_pipes k) (k_fs k) x (k_ticks k)) m.

(** [*f] and [*f = g( *f )] *)
Definition file_at (f : nat) : K file := λ k,
  match k_ftable k !! f with Some x => Ok x k | None => Fault end.
Definition upd_file (f : nat) (g : file → file) : K unit := λ k,
  Ok tt (Kern (alter g f (k_ftable k)) (k_pipes k) (k_fs k) (k_mem k) (k_ticks k)).

Definition pipe_at (p : Z) : K pipe := λ k,
  match k_pipes k !! p with Some x => Ok x k | None => Fault end.
Definition upd_pipes (g : gmap Z pipe → gmap Z pipe) : K unit := λ k,
  Ok tt (Kern (k_ftable k) (g (k_pipes k)) (k_fs k) (k_mem k) (k_ticks k)).

Definition begin_op : K unit := on_fs (tx t_begin_op).
Definition end_op : K unit := on_fs (tx t_end_op).

(** ** The table *)

Definition filealloc : K (option nat) :=
  t ← gets k_ftable;
  match list_find (λ f, f_ref f = 0) t with
  | Some (f, _) => upd_file f (set_fref 1);; mret (Some f)
  | None => mret None
  end.

Definition filedup (f : nat) : K nat :=
  x ← file_at f;
  if f_ref x <? 1 then panic "filedup"
  else upd_file f (set_fref (f_ref x + 1));; mret f.

(** pipeclose; the pipe is gone when its page is freed. *)
Definition close_pipe (p : Z) (writable : Z) : K unit :=
  x ← pipe_at p;
  let r := pipeclose (negb (writable =? 0)) x in
  if r.2 then upd_pipes (delete p);; on_mem (kfree end_ p)
  else upd_pipes (<[p := r.1]>).

Definition fileclose (f : nat) : K unit :=
  x ← file_at f;
  if f_ref x <? 1 then panic "fileclose"
  else if 0 <? f_ref x - 1 then upd_file f (set_fref (f_ref x - 1))
  else
    let ff := set_fref (f_ref x - 1) x in
    upd_file f (λ x, File FD_NONE 0 (f_readable x) (f_writable x) (f_pipe x) (f_ip x) (f_off x));;
    if decide (f_type ff = FD_PIPE) then close_pipe (f_pipe ff) (f_writable ff)
    else if decide (f_type ff = FD_INODE) then
      begin_op;;
      on_fs (iput (f_ip ff));;
      end_op
    else mret tt.

Definition filestat (f : nat) : K (Z * option stat) :=
  x ← file_at f;
  if decide (f_type x = FD_INODE) then
    on_fs (ilock (Some (f_ip x)));;
    st ← on_fs (stati (f_ip x));
    on_fs (iunlock (Some (f_ip x)));;
    mret (0, Some st)
  else mret (-1, None).

(** ** Reading and writing; [killed] is proc->killed *)

(** The return value and the bytes put at [addr]. *)
Definition fileread (killed : bool) (f : nat) (n : Z) : K (Z * list Z) :=
  x ← file_at f;
  if f_readable x =? 0 then mret (-1, [])
  else if decide (f_type x = FD_PIPE) then
    p ← pipe_at (f_pipe x);
    let r := piperead killed n p in
    upd_pipes (<[f_pipe x := r.2]>);;
    match r.1 with
    | RReturn z bytes => mret (z, bytes)
    | RSleep => sleep (f_pipe x)
    end
  else if decide (f_type x = FD_INODE) then
    on_fs (ilock (Some (f_ip x)));;
    r ← on_fs (readi (f_ip x) (f_off x) (u32 n));
    (if 0 <? s32 r.1 then upd_file f (set_foff (u32 (f_off x + r.1))) else mret tt);;
    on_fs (iunlock (Some (f_ip x)));;
    mret (s32 r.1, r.2)
  else panic "fileread".

(** The loop of filewrite; the final [i] is the result. *)
Fixpoint filewrite_loop (fuel : nat) (f : nat) (addr : list Z) (n i : Z) : K Z :=
  match fuel with
  | O => nofuel
  | Datatypes.S fuel =>
      if i <? n then
        let n1 := if filewrite_max <? n - i then filewrite_max else n - i in
        begin_op;;
        x ← file_at f;
        on_fs (ilock (Some (f_ip x)));;
        r ← on_fs (writei (f_ip x) (drop (Z.to_nat i) addr) (f_off x) (u32 n1));
        (if 0 <? s32 r then upd_file f (set_foff (u32 (f_off x + r))) else mret tt);;
        on_fs (iunlock (Some (f_ip x)));;
        end_op;;
        if s32 r <? 0 then mret i
        else if negb (s32 r =? n1) then panic "short filewrite"
        else filewrite_loop fuel f addr n (i + s32 r)
      else mret i
  end.

(** [addr] is the [n] bytes at the address, none if [n] is negative, in which
    case pipewrite returns it as it is. *)
Definition filewrite (killed : bool) (f : nat) (addr : list Z) (n : Z) : K Z :=
  x ← file_at f;
  if f_writable x =? 0 then mret (-1)
  else if decide (f_type x = FD_PIPE) then
    p ← pipe_at (f_pipe x);
    let r := pipewrite killed addr p in
    upd_pipes (<[f_pipe x := r.2]>);;
    match r.1 with
    | WReturn z => mret (if n <? 0 then n else z)
    | WSleep _ => sleep (f_pipe x)
    end
  else if decide (f_type x = FD_INODE) then
    i ← filewrite_loop (Datatypes.S (Datatypes.S (Z.to_nat (n / filewrite_max)))) f addr n 0;
    mret (if i =? n then n else -1)
  else panic "filewrite".

(** ** pipealloc *)

Definition close_opt (f : option nat) : K unit :=
  match f with Some f => fileclose f | None => mret tt end.

(** The data of a new pipe is what its page holds after the lock, a
    struct spinlock of 13 words. *)
Definition page_data (p : Z) (k : kern S) : list Z :=
  (λ i, default 0 (ram (k_mem k) !! (p + 52 + Z.of_nat i))) <$> seq 0 PIPESIZE_n.

Definition pipealloc : K (option (nat * nat)) :=
  f0 ← filealloc;
  f1 ← (match f0 with Some _ => filealloc | None => mret None end);
  match f0, f1 with
  | Some f0, Some f1 =>
      p ← on_mem kalloc;
      if p =? 0 then fileclose f0;; fileclose f1;; mret None
      else
        data ← gets (page_data p);
        upd_pipes (<[p := pipe_init data]>);;
        upd_file f0 (λ x, File FD_PIPE (f_ref x) 1 0 p (f_ip x) (f_off x));;
        upd_file f1 (λ x, File FD_PIPE (f_ref x) 0 1 p (f_ip x) (f_off x));;
        mret (Some (f0, f1))
  | _, _ => close_opt f0;; close_opt f1;; mret None
  end.
End file.
