(* ===== verification/Grep.v ===== *)
(** * grep.c

    The matcher works on NUL-terminated strings that it only reads from left
    to right; a pointer into such a string is the list of the characters up to
    the NUL.  [denotes] gives patterns their meaning independently of the
    matcher, and [match_correct] shows that the matcher implements it. *)

From S2P Require Import Prelude Mem.

(** The characters with a meaning: [^], [$], [.], [*], newline. *)
Definition HAT : Z := 94.
Definition DOLLAR : Z := 36.
Definition DOT : Z := 46.
Definition STAR : Z := 42.
Definition NL : Z := 10.

(** matchstar(c, re, text), with [here] for matchhere(re, .). *)
Fixpoint matchstar (here : list Z → bool) (c : Z) (text : list Z) : bool :=
  here text ||
  match text with
  | [] => false
  | x :: text => if (x =? c) || (c =? DOT) then matchstar here c text else false
  end.

Fixpoint matchhere (re text : list Z) : bool :=
  match re with
  | [] => true
  | c :: re' =>
      match re' with
      | d :: re'' =>
          if d =? STAR then matchstar (matchhere re'') c text
          else
            match text with
            | [] => false
            | x :: text => if (c =? DOT) || (c =? x) then matchhere re' text else false
            end
      | [] =>
          if c =? DOLLAR then match text with [] => true | _ => false end
          else
            match text with
            | [] => false
            | x :: text => if (c =? DOT) || (c =? x) then matchhere re' text else false
            end
      end
  end.

(** The loop of match: every suffix of [text], the empty one included. *)
Fixpoint match_loop (re text : list Z) : bool :=
  matchhere re text || match text with [] => false | _ :: text => match_loop re text end.

Definition match_re (re text : list Z) : bool :=
  match re with
  | c :: re' => if c =? HAT then matchhere re' text else match_loop re text
  | [] => match_loop re text
  end.

(** ** The meaning of a pattern *)

Inductive item := Char (c : Z) | Any | Many (c : Z) | End.

(** Splits a pattern into its items. *)
Fixpoint parse (re : list Z) : list item :=
  match re with
  | [] => []
  | c :: re' =>
      match re' with
      | d :: re'' =>
          if d =? STAR then Many c :: parse re''
          else (if c =? DOT then Any else Char c) :: parse re'
      | [] => [if c =? DOLLAR then End else if c =? DOT then Any else Char c]
      end
  end.

(** The characters that [c] stands for before a [*]. *)
Definition stands_for (c x : Z) : Prop := c = DOT ∨ x = c.

(** [denotes r w post]: the items [r] match the word [w] when [post] is what
    follows it in the line. *)
Inductive denotes : list item → list Z → list Z → Prop :=
| den_nil post : denotes [] [] post
| den_char c r w post : denotes r w post → denotes (Char c :: r) (c :: w) post
| den_any x r w post : denotes r w post → denotes (Any :: r) (x :: w) post
| den_many c xs r w post :
    Forall (stands_for c) xs → denotes r w post → denotes (Many c :: r) (xs ++ w) post
| den_end r : denotes r [] [] → denotes (End :: r) [] [].

(** Some prefix of [text] is matched. *)
Definition matches_prefix (r : list item) (text : list Z) : Prop :=
  ∃ w post, text = w ++ post ∧ denotes r w post.

Lemma matchstar_spec here c text :
  matchstar here c text = true ↔
    ∃ xs rest, text = xs ++ rest ∧ Forall (stands_for c) xs ∧ here rest = true.
Proof.
  induction text as [|x text IH]; simpl; rewrite orb_true_iff.
  - split.
    + intros [H|?]; [by exists [], []|done].
    + intros ([|] & rest & E & _ & H); simplify_eq/=; auto.
  - split.
    + intros [H|H]; [by exists [], (x :: text)|].
      destruct ((x =? c) || (c =? DOT)) eqn:E; [|done].
      apply IH in H as (xs & rest & -> & Hxs & Hr). exists (x :: xs), rest.
      split; [done|]. split; [|done]. constructor; [|done].
      unfold stands_for. apply orb_true_iff in E as [?%Z.eqb_eq|?%Z.eqb_eq]; auto.
    + intros ([|y xs] & rest & E & Hxs & Hr); simplify_eq/=; [by left|right].
      apply Forall_cons in Hxs as [Hy Hxs]. rewrite (proj2 (orb_true_iff _ _)).
      * apply IH. eauto.
      * rewrite !Z.eqb_eq. unfold stands_for in Hy. tauto.
Qed.

Lemma prefix_many c r text :
  matches_prefix (Many c :: r) text ↔
    ∃ xs rest, text = xs ++ rest ∧ Forall (stands_for c) xs ∧ matches_prefix r rest.
Proof.
  split.
  - intros (w & post & -> & H). inversion H; subst. eexists xs, (w0 ++ post).
    rewrite app_assoc. split_and!; [done..|]. by exists w0, post.
  - intros (xs & rest & -> & Hxs & w & post & -> & H). exists (xs ++ w), post.
    rewrite app_assoc. split; [done|]. by constructor.
Qed.

Lemma prefix_one (i : item) r text (P : Z → Prop) :
  (∀ w post, denotes (i :: r) w post ↔ ∃ x w', w = x :: w' ∧ P x ∧ denotes r w' post) →
  matches_prefix (i :: r) text ↔ ∃ x rest, text = x :: rest ∧ P x ∧ matches_prefix r rest.
Proof.
  intros Hi. split.
  - intros (w & post & -> & (x & w' & -> & Hx & H)%Hi). exists x, (w' ++ post).
    split_and!; [done..|]. by exists w', post.
  - intros (x & rest & -> & Hx & w & post & -> & H). exists (x :: w), post.
    split; [done|]. apply Hi. eauto.
Qed.

Lemma denotes_char c r w post :
  denotes (Char c :: r) w post ↔ ∃ x w', w = x :: w' ∧ c = x ∧ denotes r w' post.
Proof.
  split; [intros H; inversion H; subst; eauto|]. intros (x & w' & -> & -> & H). by constructor.
Qed.

Lemma denotes_any r w post :
  denotes (Any :: r) w post ↔ ∃ x w', w = x :: w' ∧ True ∧ denotes r w' post.
Proof.
  split; [intros H; inversion H; subst; eauto|]. intros (x & w' & -> & _ & H). by constructor.
Qed.

(** One literal character or dot, then the rest of the pattern. *)
Lemma literal_spec c r text (f : list Z → bool) :
  (∀ t, f t = true ↔ matches_prefix r t) →
  match text with [] => false | x :: t => if (c =? DOT) || (c =? x) then f t else false end = true
  ↔ matches_prefix ((if c =? DOT then Any else Char c) :: r) text.
Proof.
  intros Hf. destruct (Z.eqb_spec c DOT) as [->|Hne]; simpl.
  - rewrite (prefix_one _ _ _ _ (denotes_any r)). destruct text as [|x t]; [naive_solver|].
    rewrite Hf. naive_solver.
  - rewrite (prefix_one _ _ _ _ (denotes_char c r)). destruct text as [|x t]; [naive_solver|].
    destruct (Z.eqb_spec c x) as [->|]; [rewrite Hf|]; naive_solver.
Qed.

Lemma matchhere_spec re text : matchhere re text = true ↔ matches_prefix (parse re) text.
Proof.
  revert text. induction re as [re IH] using (induction_ltof1 _ length). unfold ltof in IH.
  intros text. destruct re as [|c [|d re]]; simpl.
  - split; [|done]. intros _. exists [], text. split; [done|constructor].
  - destruct (c =? DOLLAR).
    + split.
      * destruct text; [|done]. intros _. exists [], []. split; [done|]. repeat constructor.
      * intros (w & post & -> & H). inversion H; subst. done.
    + apply (literal_spec c [] text (matchhere [])). intros t. by apply (IH []); simpl; lia.
  - destruct (d =? STAR).
    + rewrite matchstar_spec, prefix_many. setoid_rewrite (IH re); [done|simpl; lia].
    + apply (literal_spec c (parse (d :: re)) text (matchhere (d :: re))).
      intros t. apply IH. simpl. lia.
Qed.

Lemma match_loop_spec re text :
  match_loop re text = true ↔ ∃ pre suf, text = pre ++ suf ∧ matches_prefix (parse re) suf.
Proof.
  induction text as [|x text IH]; simpl; rewrite orb_true_iff, matchhere_spec.
  - split; [intros [H|?]; [by exists [], []|done]|].
    intros ([|] & suf & E & H); simplify_eq/=; auto.
  - rewrite IH. split.
    + intros [H|(pre & suf & -> & H)]; [by exists [], (x :: text)|by exists (x :: pre), suf].
    + intros ([|y pre] & suf & E & H); simplify_eq/=; eauto.
Qed.

(** The meaning of a whole pattern: anchored at the start by a leading [^],
    anywhere in the line otherwise. *)
Definition pattern_means (re text : list Z) : Prop :=
  match re with
  | c :: re' =>
      if decide (c = HAT) then matches_prefix (parse re') text
      else ∃ pre suf, text = pre ++ suf ∧ matches_prefix (parse re) suf
  | [] => ∃ pre suf, text = pre ++ suf ∧ matches_prefix (parse re) suf
  end.

(** C19: the matcher of grep implements the meaning of its patterns: [match]
    answers 1 exactly for the lines in which the pattern occurs. *)
Theorem match_correct re text : match_re re text = true ↔ pattern_means re text.
Proof.
  destruct re as [|c re]; [apply match_loop_spec|]. unfold match_re, pattern_means.
  destruct (Z.eqb_spec c HAT); destruct (decide (c = HAT)); try done.
  - apply matchhere_spec.
  - apply match_loop_spec.
Qed.

(** ** The line loop *)

(** strchr(p, newline): the characters before the newline and those after it;
    the search stops at a NUL. *)
Fixpoint next_line (p : list Z) : option (list Z * list Z) :=
  match p with
  | [] => None
  | c :: p =>
      if c =? 0 then None
      else if c =? NL then Some ([], p)
      else match next_line p with Some (l, q) => Some (c :: l, q) | None => None end
  end.

(** The inner loop: what is written to standard output, and the tail [p]
    after the last newline. *)
Fixpoint grep_lines (fuel : nat) (re p : list Z) : option (list Z * list Z) :=
  match fuel with
  | O => None
  | S fuel =>
      match next_line p with
      | None => Some ([], p)
      | Some (l, q) =>
          r ← grep_lines fuel re q;
          Some ((if match_re re l then l ++ [NL] else []) ++ r.1, r.2)
      end
  end.

(** [grep] on the chunks that successive reads deliver; [pending] is
    [buf[0..m)].  When no newline was found the buffer is discarded. *)
Fixpoint grep_loop (re pending : list Z) (chunks : list (list Z)) : option (list Z) :=
  match chunks with
  | [] => Some []
  | x :: chunks =>
      let p := pending ++ x in
      r ← grep_lines (S (length p)) re p;
      let pending' := if decide (length r.2 = length p) then [] else r.2 in
      out ← grep_loop re pending' chunks;
      Some (r.1 ++ out)
  end.

Definition grep (re : list Z) (chunks : list (list Z)) : option (list Z) := grep_loop re [] chunks.

(** ** Reference: the lines of the whole input *)

(** The newline-terminated lines of [l], and what follows the last one. *)
Fixpoint lines (l : list Z) : list (list Z) * list Z :=
  match l with
  | [] => ([], [])
  | c :: l =>
      let r := lines l in
      if c =? NL then ([] :: r.1, r.2)
      else match r.1 with
           | [] => ([], c :: r.2)
           | x :: xs => ((c :: x) :: xs, r.2)
           end
  end.

Definition grep_spec (re l : list Z) : list Z :=
  concat ((λ x, x ++ [NL]) <$> filter (λ x, match_re re x = true) (lines l).1).

Lemma next_line_spec p :
  0 ∉ p →
  match next_line p with
  | Some (l, q) => p = l ++ NL :: q ∧ NL ∉ l
  | None => NL ∉ p
  end.
Proof.
  induction p as [|c p IH]; intros H0; simpl; [set_solver|].
  apply not_elem_of_cons in H0 as [Hc H0]. destruct (Z.eqb_spec c 0); [done|].
  destruct (Z.eqb_spec c NL) as [->|]; [split; [done|set_solver]|].
  specialize (IH H0). destruct (next_line p) as [[l q]|]; [|set_solver].
  destruct IH as [-> ?]. split; [done|set_solver].
Qed.

Lemma lines_none p : NL ∉ p → lines p = ([], p).
Proof.
  induction p as [|c p IH]; intros H; simpl; [done|]. apply not_elem_of_cons in H as [Hc H].
  rewrite IH by done. simpl. destruct (Z.eqb_spec c NL); [congruence|done].
Qed.

Lemma lines_line l q : NL ∉ l → lines (l ++ NL :: q) = (l :: (lines q).1, (lines q).2).
Proof.
  induction l as [|c l IH]; intros H; simpl; [done|].
  apply not_elem_of_cons in H as [Hc H]. rewrite IH by done. simpl.
  destruct (Z.eqb_spec c NL); [congruence|done].
Qed.

(** A chunk boundary does not matter: lines of a concatenation. *)
Lemma lines_app p q :
  lines (p ++ q) = ((lines p).1 ++ (lines ((lines p).2 ++ q)).1, (lines ((lines p).2 ++ q)).2).
Proof.
  induction p as [|c p IH]; simpl; [by destruct (lines q)|]. rewrite IH. simpl.
  destruct (Z.eqb_spec c NL) as [->|]; [done|].
  destruct (lines p).1 as [|x xs]; simpl; [|done].
  destruct (Z.eqb_spec c NL); [done|]. by destruct (lines ((lines p).2 ++ q)).1.
Qed.

Lemma lines_tail p : NL ∈ p → (length (lines p).2 < length p)%nat.
Proof.
  induction p as [|c p IH]; simpl; [set_solver|]. intros H.
  assert (length (lines p).2 ≤ length p)%nat as Hle.
  { clear. induction p as [|c p IH]; simpl; [done|].
    destruct (c =? NL); simpl; [lia|]. destruct (lines p).1; simpl; lia. }
  destruct (Z.eqb_spec c NL) as [->|]; simpl; [lia|].
  apply elem_of_cons in H as [?|H]; [congruence|]. specialize (IH H).
  destruct (lines p).1 eqn:E; simpl; lia.
Qed.

Lemma grep_lines_spec fuel re p :
  0 ∉ p → (length p < fuel)%nat → grep_lines fuel re p = Some (grep_spec re p, (lines p).2).
Proof.
  revert p. induction fuel as [|fuel IH]; intros p H0 Hf; [lia|]. simpl.
  pose proof (next_line_spec p H0) as Hn. destruct (next_line p) as [[l q]|].
  - destruct Hn as [-> Hl]. rewrite length_app in Hf. simpl in Hf.
    rewrite IH by (lia || set_solver). simpl. unfold grep_spec. rewrite lines_line by done. simpl.
    rewrite filter_cons. destruct (match_re re l) eqn:E.
    + by rewrite decide_True.
    + by rewrite decide_False.
  - unfold grep_spec. by rewrite lines_none.
Qed.

Lemma grep_spec_app re p q :
  grep_spec re (p ++ q) = grep_spec re p ++ grep_spec re ((lines p).2 ++ q).
Proof.
  unfold grep_spec. rewrite lines_app. simpl. by rewrite filter_app, fmap_app, concat_app.
Qed.

Lemma lines_tail_sub p c : c ∈ (lines p).2 → c ∈ p ∧ c ≠ NL.
Proof.
  induction p as [|d p IH]; simpl; [set_solver|].
  destruct (Z.eqb_spec d NL) as [->|]; simpl; [set_solver|].
  destruct (lines p).1; simpl; [|set_solver]. rewrite elem_of_cons. set_solver.
Qed.

Lemma grep_loop_spec re pending chunks :
  0 ∉ pending ++ concat chunks → NL ∉ pending → Forall (λ x, NL ∈ x) chunks →
  grep_loop re pending chunks = Some (grep_spec re (pending ++ concat chunks)).
Proof.
  revert pending. induction chunks as [|x chunks IH]; intros pending H0 Hp Hnl.
  - simpl. rewrite app_nil_r. unfold grep_spec. by rewrite lines_none.
  - cbn [grep_loop concat]. cbn [concat] in H0. apply Forall_cons in Hnl as [Hx Hnl].
    rewrite grep_lines_spec by (rewrite ?length_app; lia || set_solver). cbn [mbind option_bind snd fst].
    pose proof (lines_tail (pending ++ x) ltac:(set_solver)). rewrite decide_False by lia.
    rewrite IH; [cbn; by rewrite app_assoc, (grep_spec_app re (pending ++ x))| | |done].
    + intros [Hin|Hin]%elem_of_app; [apply lines_tail_sub in Hin as [? _]|]; set_solver.
    + intros [_ ?]%lines_tail_sub. done.
Qed.

(** When every read delivers at least one whole line end and the input
    has no NUL, [grep] prints exactly the lines of the input that match,
    however the reads cut the input into chunks. *)
Theorem grep_correct re chunks :
  0 ∉ concat chunks → Forall (λ x, NL ∈ x) chunks →
  grep re chunks = Some (grep_spec re (concat chunks)).
Proof. intros H0 Hnl. apply (grep_loop_spec re [] chunks); [done|set_solver|done]. Qed.

(** The pattern [^a.*b$] on two chunks that cut the line [axb]. *)
Lemma grep_correct_witness :
  grep [94; 97; 46; 42; 98; 36] [[99; 10; 97]; [120; 98; 10]] = Some [97; 120; 98; 10] ∧
  grep_spec [94; 97; 46; 42; 98; 36] [99; 10; 97; 120; 98; 10] = [97; 120; 98; 10].
Proof.
  split; [|vm_compute; reflexivity].
  refine (eq_trans (grep_correct [94; 97; 46; 42; 98; 36] [[99; 10; 97]; [120; 98; 10]] _ _) _);
    [set_solver|repeat constructor; set_solver|vm_compute; reflexivity].
Defined.

(** A read that ends inside a line and contains no newline is discarded: the
    line [ab], delivered as [a] and [b], is not found by the pattern [ab]. *)
Lemma grep_loses_partial_line :
  grep [97; 98] [[97]; [98; 10]] = Some [] ∧ grep_spec [97; 98] [97; 98; 10] = [97; 98; 10].
Proof. split; vm_compute; reflexivity. Qed.
