(* ===== verification/Printf.v ===== *)
(** * Formatted output of user programs (printf.c)

    Output is the list of the characters that [putc] writes, in order.  An
    index outside a local array, an argument that was not passed and a
    pointer that points nowhere give [None]. *)

From S2P Require Import Prelude Mem Str.

(** static char digits[] = "0123456789ABCDEF"; *)
Definition digits : list Z := [48; 49; 50; 51; 52; 53; 54; 55; 56; 57; 65; 66; 67; 68; 69; 70].

(** [buf[i] = c] in an array of [n] characters, the first [i] of them in use. *)
Definition push (n : nat) (buf : list Z) (c : Z) : option (list Z) :=
  if decide (length buf < n)%nat then Some (buf ++ [c]) else None.

(** do { buf[i++] = digits[x % base]; } while((x /= base) != 0); *)
Fixpoint printint_loop (fuel n : nat) (buf : list Z) (x base : Z) : option (list Z) :=
  match fuel with
  | O => None
  | S fuel =>
      d ← digits !! Z.to_nat (x `mod` base);
      buf ← push n buf d;
      let x := x `div` base in
      if x =? 0 then Some buf else printint_loop fuel n buf x base
  end.

(** A [uint] has at most 32 digits in any base. *)
Definition uint_digits : nat := 32.

Definition printint (xx base : Z) (sgn : bool) : option (list Z) :=
  let neg := sgn && (xx <? 0) in
  let x := if neg then u32 (- xx) else u32 xx in
  buf ← printint_loop uint_digits 16 [] x base;
  buf ← (if neg then push 16 buf 45 else Some buf);
  Some (reverse buf).

(** "(null)" *)
Definition null_str : list Z := [40; 110; 117; 108; 108; 41].

(** The state of the loop of [printf]: the output so far, whether the last
    character was a percent sign, and the arguments not yet used. *)
Record pstate := PState { p_out : list Z; p_percent : bool; p_ap : list Z }.

Section printf.
(** The string that a pointer points to. *)
Context (str_at : Z → option (list Z)).

(** One character [c] of the format. *)
Definition printf_char (s : pstate) (c : Z) : option pstate :=
  let '(PState out pct ap) := s in
  if negb pct then
    if c =? 37 then Some (PState out true ap) else Some (PState (out ++ [c]) false ap)
  else if c =? 100 then
    a ← head ap; o ← printint (s32 a) 10 true; Some (PState (out ++ o) false (tail ap))
  else if (c =? 120) || (c =? 112) then
    a ← head ap; o ← printint (s32 a) 16 false; Some (PState (out ++ o) false (tail ap))
  else if c =? 115 then
    a ← head ap;
    o ← (if a =? 0 then Some null_str else str_at a);
    Some (PState (out ++ o) false (tail ap))
  else if c =? 99 then
    a ← head ap; Some (PState (out ++ [u8 a]) false (tail ap))
  else if c =? 37 then Some (PState (out ++ [c]) false ap)
  else Some (PState (out ++ [37; c]) false ap).

Fixpoint printf_loop (s : pstate) (fmt : list Z) : option pstate :=
  match fmt with
  | [] => Some s
  | c :: fmt => s ← printf_char s c; printf_loop s fmt
  end.

Definition printf (fmt : list Z) (args : list Z) : option (list Z) :=
  s ← printf_loop (PState [] false args) fmt; Some (p_out s).
End printf.

(** ** Digits *)

(** The value of the digits in [buf], least significant first. *)
Fixpoint rdigits_value (base : Z) (buf : list Z) : Z :=
  match buf with
  | [] => 0
  | c :: buf =>
      match list_find (c =.) digits with
      | Some (d, _) => Z.of_nat d + base * rdigits_value base buf
      | None => 0
      end
  end.

Lemma rdigits_value_app base buf buf' :
  Forall (λ c, c ∈ digits) buf →
  rdigits_value base (buf ++ buf') =
    rdigits_value base buf + base ^ Z.of_nat (length buf) * rdigits_value base buf'.
Proof.
  induction 1 as [|c buf Hc _ IH]; [simpl; lia|].
  cbn [app length rdigits_value]. rewrite Nat2Z.inj_succ, Z.pow_succ_r by lia.
  destruct (list_find (c =.) digits) as [[d y]|] eqn:E.
  - rewrite IH. ring.
  - apply list_find_None in E. rewrite Forall_forall in E. by destruct (E c Hc).
Qed.

Lemma digit_found d c :
  digits !! d = Some c → list_find (c =.) digits = Some (d, c).
Proof.
  intros H. pose proof (lookup_lt_Some _ _ _ H) as Hd. simpl in Hd.
  do 16 (destruct d as [|d]; [injection H as <-; reflexivity|]). lia.
Qed.

(** The loop stores the digits of [x]: at most [k] when [x < base ^ k]. *)
Lemma printint_loop_ok k fuel n buf x base :
  2 ≤ base ≤ 16 → 0 ≤ x < base ^ Z.of_nat k → (length buf + k ≤ n)%nat → (0 < k ≤ fuel)%nat →
  ∃ ds, printint_loop fuel n buf x base = Some (buf ++ ds) ∧ (0 < length ds ≤ k)%nat ∧
    Forall (λ c, ∃ d, Z.of_nat d < base ∧ digits !! d = Some c) ds ∧ rdigits_value base ds = x.
Proof.
  intros Hb. revert fuel buf x. induction k as [|k IH]; intros fuel buf x Hx Hn Hf; [lia|].
  destruct fuel as [|fuel]; [lia|].
  pose proof (Z.mod_pos_bound x base ltac:(lia)) as Hm.
  destruct (lookup_lt_is_Some_2 digits (Z.to_nat (x `mod` base))) as [c Hc].
  { change (length digits) with 16%nat. lia. }
  cbn [printint_loop]. rewrite Hc. cbn [mbind option_bind].
  unfold push. rewrite decide_True by lia. cbn [mbind option_bind].
  assert (rdigits_value base [c] = x `mod` base) as Hv.
  { cbn [rdigits_value]. rewrite (digit_found _ _ Hc). lia. }
  assert (∃ d, Z.of_nat d < base ∧ digits !! d = Some c) as Hd
    by (exists (Z.to_nat (x `mod` base)); split; [lia|done]).
  assert (c ∈ digits) as Hin by (apply list_elem_of_lookup; eauto).
  destruct (Z.eqb_spec (x `div` base) 0) as [E|E].
  - exists [c]. split; [done|]. split; [simpl; lia|]. split; [by apply Forall_singleton|].
    rewrite Hv. pose proof (Z.div_mod x base). lia.
  - assert (0 < k)%nat as Hk.
    { destruct k; [|lia]. exfalso. apply E. apply Z.div_small. simpl in Hx. lia. }
    destruct (IH fuel (buf ++ [c]) (x `div` base)) as (ds & E' & Hl & Hds & Hval).
    + split; [apply Z.div_pos; lia|]. apply Z.div_lt_upper_bound; [lia|].
      rewrite Nat2Z.inj_succ, Z.pow_succ_r in Hx by lia. lia.
    + rewrite length_app. simpl. lia.
    + lia.
    + exists (c :: ds). rewrite E', <- app_assoc. split; [done|]. split; [simpl; lia|].
      split; [by constructor|].
      change (c :: ds) with ([c] ++ ds). rewrite rdigits_value_app by (by apply Forall_singleton).
      rewrite Hv, Hval. simpl. pose proof (Z.div_mod x base). lia.
Qed.

(** ** Reading back a number *)

(** The value of decimal digits, most significant first. *)
Definition dec_value (l : list Z) : Z := foldl (λ n c, n * 10 + (c - 48)) 0 l.

Lemma digit_small d c : (d < 10)%nat → digits !! d = Some c → c = 48 + Z.of_nat d.
Proof. intros Hd H. do 10 (destruct d as [|d]; [injection H as <-; reflexivity|]). lia. Qed.

Definition is_decimal (c : Z) : Prop := 48 ≤ c ≤ 57.

Lemma decimal_digits ds :
  Forall (λ c, ∃ d, Z.of_nat d < 10 ∧ digits !! d = Some c) ds →
  Forall is_decimal ds ∧ dec_value (reverse ds) = rdigits_value 10 ds.
Proof.
  induction 1 as [|c ds (d & Hd & Hc) _ [IH1 IH2]]; [split; [constructor|done]|].
  pose proof (digit_small d c ltac:(lia) Hc) as ->. split.
  - constructor; [unfold is_decimal; lia|done].
  - unfold dec_value in *. rewrite reverse_cons, foldl_app. cbn [foldl].
    rewrite IH2. cbn [rdigits_value]. rewrite (digit_found _ _ Hc). lia.
Qed.

Lemma dec_value_mono n l :
  0 ≤ n → Forall is_decimal l → n ≤ foldl (λ n c, n * 10 + (c - 48)) n l.
Proof.
  intros Hn Hl. revert n Hn. induction Hl as [|c l Hc _ IH]; intros n Hn; simpl; [lia|].
  unfold is_decimal in Hc. etrans; [|apply IH]; lia.
Qed.

Lemma atoi_loop_ok fuel m s l n :
  cstr m s l → Forall is_decimal l → (length l < fuel)%nat →
  0 ≤ n → foldl (λ n c, n * 10 + (c - 48)) n l < 2 ^ 31 →
  Ulib.atoi_loop fuel s n m = Ok (foldl (λ n c, n * 10 + (c - 48)) n l) m.
Proof.
  revert s l n. induction fuel as [|fuel IH]; intros s l n Hs Hl Hf Hn Hv; [lia|].
  cbn [Ulib.atoi_loop]. mstep (loadc_first _ _ _ Hs). destruct l as [|c l]; [done|].
  apply cstr_cons in Hs as (_ & _ & Hs). apply Forall_cons in Hl as [Hc Hl].
  simpl in *. unfold is_decimal in Hc. replace (s8 c) with c by (unfold s8; Z.div_mod_to_equations; lia).
  destruct (Z.leb_spec 48 c); [|lia]. destruct (Z.leb_spec c 57); [|lia]. simpl.
  pose proof (dec_value_mono (n * 10 + (c - 48)) l ltac:(lia) Hl).
  rewrite (s32_small (n * 10)), (s32_small (n * 10 + c - 48)) by lia.
  rewrite (IH _ l); try done; [|lia..| |];
    replace (n * 10 + c - 48) with (n * 10 + (c - 48)) by lia; try lia; done.
Qed.

(** [printint] in base 10 never overruns its buffer, and its output is the
    decimal representation of the number, with a sign if it is negative. *)
Lemma printint_decimal xx :
  - 2 ^ 31 ≤ xx < 2 ^ 31 →
  ∃ ds, printint xx 10 true = Some ((if xx <? 0 then [45] else []) ++ ds) ∧
    (0 < length ds ≤ 10)%nat ∧ Forall is_decimal ds ∧ dec_value ds = Z.abs xx.
Proof.
  intros Hx. unfold printint. cbn [andb].
  assert ((if xx <? 0 then u32 (- xx) else u32 xx) = Z.abs xx) as ->.
  { destruct (Z.ltb_spec xx 0); rewrite u32_small; lia. }
  destruct (printint_loop_ok 10 uint_digits 16 [] (Z.abs xx) 10) as (ds & E & Hl & Hds & Hv);
    [lia|change (10 ^ Z.of_nat 10) with 10000000000; lia|simpl; lia|unfold uint_digits; lia|].
  rewrite E. cbn [mbind option_bind app].
  destruct (decimal_digits ds Hds) as [Hdec Hval]. exists (reverse ds).
  rewrite length_reverse, Hval, Hv. split_and!; [|lia..|by apply Forall_reverse|done].
  destruct (xx <? 0); cbn [mbind option_bind]; [|done].
  unfold push. rewrite decide_True by lia. cbn [mbind option_bind]. by rewrite reverse_app.
Qed.

(** What [printf] prints for a nonnegative [%d] argument is what [atoi]
    reads back, for every [int]. *)
Theorem printf_atoi_roundtrip str_at xx :
  0 ≤ xx < 2 ^ 31 →
  ∃ out, printf str_at [37; 100] [xx] = Some out ∧
    ∀ m s fuel, cstr m s out → (length out < fuel)%nat → Ulib.atoi fuel s m = Ok xx m.
Proof.
  intros Hx. destruct (printint_decimal xx) as (ds & E & _ & Hdec & Hv); [lia|].
  rewrite (proj2 (Z.ltb_ge xx 0)) in E by lia. exists ds. split.
  - unfold printf. cbn -[printint s32]. rewrite s32_small by lia. by rewrite E.
  - intros m s fuel Hs Hf. unfold dec_value in Hv. rewrite Z.abs_eq in Hv by lia. unfold Ulib.atoi.
    rewrite (atoi_loop_ok fuel m s ds 0) by (done || lia). by rewrite Hv.
Qed.

Lemma printf_atoi_roundtrip_witness :
  printf (λ _, None) [37; 100] [2047] = Some [50; 48; 52; 55] ∧
  Ulib.atoi 5 100 (put_bytes 100 [50; 48; 52; 55; 0] ∅) =
    Ok 2047 (put_bytes 100 [50; 48; 52; 55; 0] ∅).
Proof.
  destruct (printf_atoi_roundtrip (λ _, None) 2047) as (out & E & H); [lia|].
  assert (out = [50; 48; 52; 55]) as -> by (vm_compute in E; congruence).
  split; [exact E|]. apply H; [|simpl; lia].
  repeat (apply cstr_cons; split; [lia|split; [reflexivity|]]). by apply cstr_nil.
Defined.

(** A format without a percent sign is printed as it is. *)
Lemma printf_plain str_at fmt args : 37 ∉ fmt → printf str_at fmt args = Some fmt.
Proof.
  intros Hf. unfold printf.
  assert (∀ out, printf_loop str_at (PState out false args) fmt = Some (PState (out ++ fmt) false args)) as E.
  { induction fmt as [|c fmt IH]; intros out; simpl; [by rewrite app_nil_r|].
    apply not_elem_of_cons in Hf as [Hc Hf]. destruct (Z.eqb_spec c 37); [congruence|].
    cbn. rewrite IH by done. by rewrite <- app_assoc. }
  by rewrite E.
Qed.
