(* ===== verification/Wc.v ===== *)
(** * wc.c

    The counting loop over the chunks that [read] delivers, compared with a
    definition of lines and words on the whole input. *)

From S2P Require Import Prelude.

(** strchr(" \r\t\n\v", c); the search does not find a NUL. *)
Definition is_space (c : Z) : bool := existsb (Z.eqb c) [32; 13; 9; 10; 11].

(** The local variables of [wc]. *)
Record counts := Counts { ct_l : Z; ct_w : Z; ct_c : Z; ct_inword : bool }.

(** The body of the inner loop, for the character [x]. *)
Definition wc_char (s : counts) (x : Z) : counts :=
  let c := s32 (ct_c s + 1) in
  let l := if x =? 10 then s32 (ct_l s + 1) else ct_l s in
  if is_space x then Counts l (ct_w s) c false
  else if negb (ct_inword s) then Counts l (s32 (ct_w s + 1)) c true
  else Counts l (ct_w s) c (ct_inword s).

(** Over the chunks that successive reads deliver. *)
Definition wc (chunks : list (list Z)) : counts :=
  foldl (λ s x, foldl wc_char s x) (Counts 0 0 0 false) chunks.

(** ** Reference *)

(** The words of a text: its maximal runs of characters that are not
    spaces. *)
Definition in_word (l : list Z) : bool :=
  match l with y :: _ => negb (is_space y) | [] => false end.

Fixpoint words (l : list Z) : list (list Z) :=
  match l with
  | [] => []
  | x :: l =>
      if is_space x then words l
      else if in_word l then match words l with w :: ws => (x :: w) :: ws | [] => [[x]] end
      else [x] :: words l
  end.

Definition newlines (l : list Z) : Z := Z.of_nat (length (filter (10 =.) l)).

Lemma wc_chunks chunks : wc chunks = foldl wc_char (Counts 0 0 0 false) (concat chunks).
Proof.
  unfold wc. generalize (Counts 0 0 0 false). induction chunks as [|x chunks IH]; intros s; simpl; [done|].
  by rewrite IH, foldl_app.
Qed.

(** The words still to be counted when the text before [l] ended inside a
    word ([inw]) or not. *)
Definition words_from (inw : bool) (l : list Z) : Z :=
  Z.of_nat (length (words l)) - (if inw && in_word l then 1 else 0).

Lemma words_first l : in_word l = true → (0 < length (words l))%nat.
Proof.
  destruct l as [|x l]; [done|]. simpl. intros ->%negb_true_iff.
  destruct (in_word l); [destruct (words l)|]; simpl; lia.
Qed.

Lemma words_from_cons inw x l :
  words_from inw (x :: l) =
    (if is_space x then 0 else if inw then 0 else 1) + words_from (negb (is_space x)) l.
Proof.
  unfold words_from. cbn [words in_word]. destruct (is_space x); cbn [negb andb].
  - rewrite andb_false_r. lia.
  - rewrite andb_true_r. destruct (in_word l) eqn:E.
    + pose proof (words_first l E). destruct (words l); simpl in *; destruct inw; lia.
    + simpl. destruct inw; lia.
Qed.

Lemma words_from_le inw l : words_from inw l ≤ Z.of_nat (length l).
Proof.
  revert inw. induction l as [|x l IH]; intros inw; [by destruct inw|].
  rewrite words_from_cons. specialize (IH (negb (is_space x))). simpl.
  destruct (is_space x), inw; lia.
Qed.

Lemma newlines_cons x l : newlines (x :: l) = (if x =? 10 then 1 else 0) + newlines l.
Proof.
  unfold newlines. rewrite filter_cons. destruct (Z.eqb_spec x 10) as [->|].
  - rewrite decide_True by done. simpl. lia.
  - rewrite decide_False by done. lia.
Qed.

Lemma newlines_le l : 0 ≤ newlines l ≤ Z.of_nat (length l).
Proof. induction l as [|x l IH]; [done|]. rewrite newlines_cons. simpl. destruct (x =? 10); lia. Qed.

Lemma wc_fold l s :
  0 ≤ ct_l s → 0 ≤ ct_w s → 0 ≤ ct_c s →
  ct_l s + Z.of_nat (length l) < 2 ^ 31 → ct_w s + Z.of_nat (length l) < 2 ^ 31 →
  ct_c s + Z.of_nat (length l) < 2 ^ 31 →
  let r := foldl wc_char s l in
  ct_l r = ct_l s + newlines l ∧ ct_w r = ct_w s + words_from (ct_inword s) l ∧
  ct_c r = ct_c s + Z.of_nat (length l).
Proof.
  revert s. induction l as [|x l IH]; intros s; intros.
  { subst r. unfold words_from, newlines. simpl. rewrite andb_false_r. lia. }
  subst r. cbn [foldl length] in *.
  pose proof (newlines_le l). rewrite newlines_cons, words_from_cons.
  assert (ct_l (wc_char s x) = ct_l s + (if x =? 10 then 1 else 0) ∧
          ct_w (wc_char s x) = ct_w s + (if is_space x then 0 else if ct_inword s then 0 else 1) ∧
          ct_c (wc_char s x) = ct_c s + 1 ∧ ct_inword (wc_char s x) = negb (is_space x))
    as (El & Ew & Ec & Ei).
  { unfold wc_char. destruct (x =? 10), (is_space x), (ct_inword s); simpl;
      rewrite ?s32_small by lia; split_and!; try lia; done. }
  destruct (IH (wc_char s x)) as (Hl & Hw & Hc);
    rewrite ?El, ?Ew, ?Ec; try (destruct (x =? 10), (is_space x), (ct_inword s); lia).
  rewrite El in Hl. rewrite Ew, Ei in Hw. rewrite Ec in Hc. lia.
Qed.

(** [wc] prints the number of newlines, of words and of characters of
    the input, however the reads cut it into chunks. *)
Theorem wc_correct chunks :
  Z.of_nat (length (concat chunks)) < 2 ^ 31 →
  ct_l (wc chunks) = newlines (concat chunks) ∧
  ct_w (wc chunks) = Z.of_nat (length (words (concat chunks))) ∧
  ct_c (wc chunks) = Z.of_nat (length (concat chunks)).
Proof.
  intros Hlen. rewrite wc_chunks.
  destruct (wc_fold (concat chunks) (Counts 0 0 0 false)) as (Hl & Hw & Hc); simpl; try lia.
  rewrite Hl, Hw, Hc. unfold words_from. simpl. lia.
Qed.

(** "ab c\n" cut inside its first word. *)
Lemma wc_correct_witness :
  ct_l (wc [[97]; [98; 32; 99; 10]]) = 1 ∧ ct_w (wc [[97]; [98; 32; 99; 10]]) = 2 ∧
  ct_c (wc [[97]; [98; 32; 99; 10]]) = 5.
Proof. apply (wc_correct [[97]; [98; 32; 99; 10]]). simpl. lia. Defined.
