(* ===== verification/Proc.v ===== *)
(** * Processes (proc.c, proc.h)

    The process table and the operations on it.  Each definition is what runs
    between an acquire and the matching release of ptable.lock; a call that
    gives up the processor ends there.  The memory, file and inode operations
    that proc.c calls are the interface [ProcEnv]. *)

From S2P Require Import Prelude Params Mmu.

Inductive procstate := UNUSED | EMBRYO | SLEEPING | RUNNABLE | RUNNING | ZOMBIE.
#[export] Instance procstate_eq_dec : EqDecision procstate.
Proof. solve_decision. Defined.

(** What a process can sleep on: nothing, a [struct proc], another address. *)
Inductive chan := NoChan | ProcChan (i : nat) | Chan (a : Z).
#[export] Instance chan_eq_dec : EqDecision chan.
Proof. solve_decision. Defined.

Record trapframe := Trapframe {
  tf_edi : Z; tf_esi : Z; tf_ebp : Z; tf_oesp : Z; tf_ebx : Z; tf_edx : Z; tf_ecx : Z; tf_eax : Z;
  tf_gs : Z; tf_fs : Z; tf_es : Z; tf_ds : Z; tf_trapno : Z;
  tf_err : Z; tf_eip : Z; tf_cs : Z; tf_eflags : Z; tf_esp : Z; tf_ss : Z;
}.
Definition tf_zero : trapframe := Trapframe 0 0 0 0 0 0 0 0 0 0 0 0 0 0 0 0 0 0 0.
Definition set_eax (v : Z) (t : trapframe) : trapframe :=
  Trapframe (tf_edi t) (tf_esi t) (tf_ebp t) (tf_oesp t) (tf_ebx t) (tf_edx t) (tf_ecx t) v
    (tf_gs t) (tf_fs t) (tf_es t) (tf_ds t) (tf_trapno t) (tf_err t) (tf_eip t) (tf_cs t)
    (tf_eflags t) (tf_esp t) (tf_ss t).
Definition set_eip (v : Z) (t : trapframe) : trapframe :=
  Trapframe (tf_edi t) (tf_esi t) (tf_ebp t) (tf_oesp t) (tf_ebx t) (tf_edx t) (tf_ecx t) (tf_eax t)
    (tf_gs t) (tf_fs t) (tf_es t) (tf_ds t) (tf_trapno t) (tf_err t) v (tf_cs t)
    (tf_eflags t) (tf_esp t) (tf_ss t).
Definition set_esp (v : Z) (t : trapframe) : trapframe :=
  Trapframe (tf_edi t) (tf_esi t) (tf_ebp t) (tf_oesp t) (tf_ebx t) (tf_edx t) (tf_ecx t) (tf_eax t)
    (tf_gs t) (tf_fs t) (tf_es t) (tf_ds t) (tf_trapno t) (tf_err t) (tf_eip t) (tf_cs t)
    (tf_eflags t) v (tf_ss t).

Record context := Context_ { cx_edi : Z; cx_esi : Z; cx_ebx : Z; cx_ebp : Z; cx_eip : Z }.

(** A null pointer is [None] or 0; [p_name] is the string in the array. *)
Record proc := Proc {
  p_sz : Z;
  p_pgdir : Z;
  p_kstack : Z;
  p_state : procstate;
  p_pid : Z;
  p_parent : option nat;
  p_tf : trapframe;
  p_context : context;
  p_chan : chan;
  p_killed : Z;
  p_ofile : list Z;
  p_cwd : Z;
  p_name : list Z;
}.

Definition set_state (x : procstate) (p : proc) : proc :=
  Proc (p_sz p) (p_pgdir p) (p_kstack p) x (p_pid p) (p_parent p) (p_tf p) (p_context p)
    (p_chan p) (p_killed p) (p_ofile p) (p_cwd p) (p_name p).
Definition set_pid (x : Z) (p : proc) : proc :=
  Proc (p_sz p) (p_pgdir p) (p_kstack p) (p_state p) x (p_parent p) (p_tf p) (p_context p)
    (p_chan p) (p_killed p) (p_ofile p) (p_cwd p) (p_name p).
Definition set_kstack (x : Z) (p : proc) : proc :=
  Proc (p_sz p) (p_pgdir p) x (p_state p) (p_pid p) (p_parent p) (p_tf p) (p_context p)
    (p_chan p) (p_killed p) (p_ofile p) (p_cwd p) (p_name p).
Definition set_context (x : context) (p : proc) : proc :=
  Proc (p_sz p) (p_pgdir p) (p_kstack p) (p_state p) (p_pid p) (p_parent p) (p_tf p) x
    (p_chan p) (p_killed p) (p_ofile p) (p_cwd p) (p_name p).
Definition set_pgdir (x : Z) (p : proc) : proc :=
  Proc (p_sz p) x (p_kstack p) (p_state p) (p_pid p) (p_parent p) (p_tf p) (p_context p)
    (p_chan p) (p_killed p) (p_ofile p) (p_cwd p) (p_name p).
Definition set_sz (x : Z) (p : proc) : proc :=
  Proc x (p_pgdir p) (p_kstack p) (p_state p) (p_pid p) (p_parent p) (p_tf p) (p_context p)
    (p_chan p) (p_killed p) (p_ofile p) (p_cwd p) (p_name p).
Definition set_parent (x : option nat) (p : proc) : proc :=
  Proc (p_sz p) (p_pgdir p) (p_kstack p) (p_state p) (p_pid p) x (p_tf p) (p_context p)
    (p_chan p) (p_killed p) (p_ofile p) (p_cwd p) (p_name p).
Definition set_tf (x : trapframe) (p : proc) : proc :=
  Proc (p_sz p) (p_pgdir p) (p_kstack p) (p_state p) (p_pid p) (p_parent p) x (p_context p)
    (p_chan p) (p_killed p) (p_ofile p) (p_cwd p) (p_name p).
Definition set_chan (x : chan) (p : proc) : proc :=
  Proc (p_sz p) (p_pgdir p) (p_kstack p) (p_state p) (p_pid p) (p_parent p) (p_tf p) (p_context p)
    x (p_killed p) (p_ofile p) (p_cwd p) (p_name p).
Definition set_killed (x : Z) (p : proc) : proc :=
  Proc (p_sz p) (p_pgdir p) (p_kstack p) (p_state p) (p_pid p) (p_parent p) (p_tf p) (p_context p)
    (p_chan p) x (p_ofile p) (p_cwd p) (p_name p).
Definition set_ofile (x : list Z) (p : proc) : proc :=
  Proc (p_sz p) (p_pgdir p) (p_kstack p) (p_state p) (p_pid p) (p_parent p) (p_tf p) (p_context p)
    (p_chan p) (p_killed p) x (p_cwd p) (p_name p).
Definition set_cwd (x : Z) (p : proc) : proc :=
  Proc (p_sz p) (p_pgdir p) (p_kstack p) (p_state p) (p_pid p) (p_parent p) (p_tf p) (p_context p)
    (p_chan p) (p_killed p) (p_ofile p) x (p_name p).
Definition set_name (x : list Z) (p : proc) : proc :=
  Proc (p_sz p) (p_pgdir p) (p_kstack p) (p_state p) (p_pid p) (p_parent p) (p_tf p) (p_context p)
    (p_chan p) (p_killed p) (p_ofile p) (p_cwd p) x.

(** The rest of the kernel as proc.c calls it. *)
Class ProcEnv (E : Type) := {
  pe_kalloc : M E Z;
  pe_kfree : Z → M E unit;
  pe_setupkvm : M E Z;
  pe_inituvm : Z → M E unit;
  pe_copyuvm : Z → Z → M E Z;
  pe_freevm : Z → M E unit;
  pe_allocuvm : Z → Z → Z → M E Z;
  pe_deallocuvm : Z → Z → Z → M E Z;
  pe_filedup : Z → M E Z;
  pe_fileclose : Z → M E unit;
  pe_idup : Z → M E Z;
  pe_begin_op : M E unit;
  pe_iput : Z → M E unit;
  pe_end_op : M E unit;
  pe_namei_root : M E Z;
  (** The address of forkret. *)
  forkret_addr : Z;
}.

Section proc.
Context {E : Type} `{!ProcEnv E}.

Record pstate := PState { ptable : list proc; nextpid : Z; initproc : option nat; env : E }.

Definition on_env {A} (m : M E A) : M pstate A :=
  zoom env (λ e s, PState (ptable s) (nextpid s) (initproc s) e) m.

(** [*p] and [*p = f( *p )] for the process with index [i]. *)
Definition proc_at (i : nat) : M pstate proc := λ s,
  match ptable s !! i with Some p => Ok p s | None => Fault end.
Definition upd (i : nat) (f : proc → proc) : M pstate unit := λ s,
  Ok tt (PState (alter f i (ptable s)) (nextpid s) (initproc s) (env s)).

(** ** Allocation *)

Definition find_unused (t : list proc) : option nat :=
  fst <$> list_find (λ p, p_state p = UNUSED) t.

Definition allocproc : M pstate (option nat) :=
  t ← gets ptable;
  match find_unused t with
  | None => mret None
  | Some i =>
      pid ← gets nextpid;
      upd i (set_state EMBRYO ∘ set_pid pid);;
      modify (λ s, PState (ptable s) (s32 (nextpid s + 1)) (initproc s) (env s));;
      k ← on_env pe_kalloc;
      upd i (set_kstack k);;
      if k =? 0 then upd i (set_state UNUSED);; mret None
      else upd i (set_context (Context_ 0 0 0 0 forkret_addr));; mret (Some i)
  end.

Definition SEG_UCODE : Z := 4.
Definition SEG_UDATA : Z := 5.
Definition DPL_USER : Z := 3.
Definition FL_IF : Z := 0x200.

(** The trap frame with which the first process enters user space. *)
Definition userinit_tf : trapframe :=
  let cs := Z.lor (Z.shiftl SEG_UCODE 3) DPL_USER in
  let ds := Z.lor (Z.shiftl SEG_UDATA 3) DPL_USER in
  Trapframe 0 0 0 0 0 0 0 0 0 0 ds ds 0 0 0 cs FL_IF PGSIZE ds.

Definition userinit : M pstate unit :=
  r ← allocproc;
  modify (λ s, PState (ptable s) (nextpid s) r (env s));;
  match r with
  | None => fault
  | Some i =>
      pgdir ← on_env pe_setupkvm;
      upd i (set_pgdir pgdir);;
      if pgdir =? 0 then panic "userinit: out of memory?"
      else
        on_env (pe_inituvm pgdir);;
        upd i (set_sz PGSIZE ∘ set_tf userinit_tf ∘
               set_name [105; 110; 105; 116; 99; 111; 100; 101]);;
        cwd ← on_env pe_namei_root;
        upd i (set_cwd cwd);;
        upd i (set_state RUNNABLE)
  end.

(** [cur] is the index of the current process. *)
Definition growproc (cur : nat) (n : Z) : M pstate Z :=
  p ← proc_at cur;
  let sz := p_sz p in
  if 0 <? n then
    sz' ← on_env (pe_allocuvm (p_pgdir p) sz (u32 (sz + n)));
    if sz' =? 0 then mret (-1) else upd cur (set_sz sz');; mret 0
  else if n <? 0 then
    sz' ← on_env (pe_deallocuvm (p_pgdir p) sz (u32 (sz + n)));
    if sz' =? 0 then mret (-1) else upd cur (set_sz sz');; mret 0
  else upd cur (set_sz sz);; mret 0.

(** ** fork *)

(** for(i = 0; i < NOFILE; i++) if(proc->ofile[i]) np->ofile[i] = filedup(...) *)
Fixpoint dup_files (np i : nat) (fs : list Z) : M pstate unit :=
  match fs with
  | [] => mret tt
  | f :: fs =>
      (if f =? 0 then mret tt
       else g ← on_env (pe_filedup f); upd np (λ p, set_ofile (<[i := g]> (p_ofile p)) p));;
      dup_files np (S i) fs
  end.

Definition fork (cur : nat) : M pstate Z :=
  r ← allocproc;
  match r with
  | None => mret (-1)
  | Some np =>
      p ← proc_at cur;
      pgdir ← on_env (pe_copyuvm (p_pgdir p) (p_sz p));
      upd np (set_pgdir pgdir);;
      if pgdir =? 0 then
        q ← proc_at np;
        on_env (pe_kfree (p_kstack q));;
        upd np (set_kstack 0);;
        upd np (set_state UNUSED);;
        mret (-1)
      else
        upd np (set_sz (p_sz p));;
        upd np (set_parent (Some cur));;
        upd np (set_tf (set_eax 0 (p_tf p)));;
        dup_files np 0 (p_ofile p);;
        cwd ← on_env (pe_idup (p_cwd p));
        upd np (set_cwd cwd);;
        upd np (set_name (take 15 (p_name p)));;
        q ← proc_at np;
        upd np (set_state RUNNABLE);;
        mret (p_pid q)
  end.

(** ** Sleeping and waking *)

(** The test and the update that wakeup1 makes for one process. *)
Definition wake (c : chan) (p : proc) : proc :=
  if decide (p_state p = SLEEPING ∧ p_chan p = c) then set_state RUNNABLE p else p.

Definition wakeup1 (c : chan) : M pstate unit := λ s,
  Ok tt (PState (wake c <$> ptable s) (nextpid s) (initproc s) (env s)).

Definition wakeup (c : chan) : M pstate unit := wakeup1 c.

(** sched(): the current process has given up the processor. *)
Definition sched (cur : nat) : M pstate unit :=
  p ← proc_at cur;
  if decide (p_state p = RUNNING) then panic "sched running" else mret tt.

Definition yield (cur : nat) : M pstate unit := upd cur (set_state RUNNABLE);; sched cur.

(** sleep() up to its call of sched. *)
Definition sleep_on (cur : nat) (c : chan) : M pstate unit :=
  upd cur (set_chan c);; upd cur (set_state SLEEPING);; sched cur.

(** One turn of the loop of scheduler: the first runnable process from index
    [from] on is made the running one.  A process that slept clears its
    channel as soon as it runs again. *)
Definition scheduler (from : nat) : M pstate (option nat) :=
  t ← gets ptable;
  match list_find (λ p, p_state p = RUNNABLE) (drop from t) with
  | None => mret None
  | Some (k, _) =>
      let i := (from + k)%nat in
      upd i (set_state RUNNING);;
      upd i (set_chan NoChan);;
      mret (Some i)
  end.

Definition kill (pid : Z) : M pstate Z :=
  t ← gets ptable;
  match list_find (λ p, p_pid p = pid) t with
  | None => mret (-1)
  | Some (i, p) =>
      upd i (set_killed 1);;
      (if decide (p_state p = SLEEPING) then upd i (set_state RUNNABLE) else mret tt);;
      mret 0
  end.

(** ** exit and wait *)

Fixpoint close_files (cur fd : nat) (fs : list Z) : M pstate unit :=
  match fs with
  | [] => mret tt
  | f :: fs =>
      (if f =? 0 then mret tt
       else
         on_env (pe_fileclose f);;
         upd cur (λ p, set_ofile (<[fd := 0]> (p_ofile p)) p));;
      close_files cur (S fd) fs
  end.

(** The loop of exit over the table: [n] processes are left, from [i] on. *)
Fixpoint reparent (cur i n : nat) : M pstate unit :=
  match n with
  | O => mret tt
  | S n =>
      p ← proc_at i;
      ini ← gets initproc;
      (if decide (p_parent p = Some cur) then
         upd i (set_parent ini);;
         if decide (p_state p = ZOMBIE) then
           wakeup1 (match ini with Some k => ProcChan k | None => NoChan end)
         else mret tt
       else mret tt);;
      reparent cur (S i) n
  end.

Definition exit (cur : nat) : M pstate unit :=
  ini ← gets initproc;
  if decide (ini = Some cur) then panic "init exiting"
  else
    p ← proc_at cur;
    close_files cur 0 (p_ofile p);;
    on_env pe_begin_op;;
    on_env (pe_iput (p_cwd p));;
    on_env pe_end_op;;
    upd cur (set_cwd 0);;
    p ← proc_at cur;
    wakeup1 (match p_parent p with Some k => ProcChan k | None => NoChan end);;
    t ← gets ptable;
    reparent cur 0 (length t);;
    upd cur (set_state ZOMBIE);;
    sched cur.

(** What one turn of the loop of wait does: it returns, or goes to sleep. *)
Inductive wait_result := WaitReturn (z : Z) | WaitSleep.

(** The scan for a zombie child: [inl i] if there is one, [inr havekids] if
    not. *)
Fixpoint wait_scan (cur i : nat) (t : list proc) (havekids : bool) : nat + bool :=
  match t with
  | [] => inr havekids
  | p :: t =>
      if decide (p_parent p = Some cur) then
        if decide (p_state p = ZOMBIE) then inl i else wait_scan cur (S i) t true
      else wait_scan cur (S i) t havekids
  end.

Definition wait (cur : nat) : M pstate wait_result :=
  t ← gets ptable;
  match wait_scan cur 0 t false with
  | inl i =>
      p ← proc_at i;
      let pid := p_pid p in
      on_env (pe_kfree (p_kstack p));;
      upd i (set_kstack 0);;
      on_env (pe_freevm (p_pgdir p));;
      upd i (set_pid 0);;
      upd i (set_parent None);;
      upd i (set_name []);;
      upd i (set_killed 0);;
      upd i (set_state UNUSED);;
      mret (WaitReturn pid)
  | inr havekids =>
      p ← proc_at cur;
      if negb havekids || negb (p_killed p =? 0) then mret (WaitReturn (-1))
      else sleep_on cur (ProcChan cur);; mret WaitSleep
  end.
End proc.
Arguments pstate E : clear implicits.
