(* ===== verification/ProcProofs.v ===== *)
(** * What the process operations do to the table

    For each operation of Proc.v that returns, the table after it in terms of
    the table before it. *)

From S2P Require Import Prelude Params Mmu Proc.

Lemma alter_some {A} (f : A → A) (l : list A) i x : l !! i = Some x → alter f i l = <[i := f x]> l.
Proof.
  revert i. induction l as [|y l IH]; intros [|i] H; simplify_eq/=; [done|].
  f_equal. by apply IH.
Qed.

Lemma alter_insert {A} (f : A → A) (l : list A) i x :
  (i < length l)%nat → alter f i (<[i := x]> l) = <[i := f x]> l.
Proof.
  intros Hi. rewrite (alter_some f _ _ x) by (by apply list_lookup_insert_eq).
  by rewrite list_insert_insert_eq.
Qed.

Section proofs.
Context {E : Type} `{!ProcEnv E}.
Implicit Types (s : pstate E) (t : list proc).

Lemma bind_upd {A} i f (k : unit → M (pstate E) A) s :
  (upd i f ≫= k) s = k tt (PState (alter f i (ptable s)) (nextpid s) (initproc s) (env s)).
Proof. done. Qed.
Lemma bind_gets {A B} (f : pstate E → A) (k : A → M (pstate E) B) s : (gets f ≫= k) s = k (f s) s.
Proof. done. Qed.
Lemma bind_modify {A} (f : pstate E → pstate E) (k : unit → M (pstate E) A) s :
  (modify f ≫= k) s = k tt (f s).
Proof. done. Qed.
Lemma bind_wakeup1 {A} c (k : unit → M (pstate E) A) s :
  (wakeup1 c ≫= k) s = k tt (PState (wake c <$> ptable s) (nextpid s) (initproc s) (env s)).
Proof. done. Qed.
Lemma bind_env_inv {A B} (m : M E A) (k : A → M (pstate E) B) s b s' :
  (on_env m ≫= k) s = Ok b s' →
  ∃ a e, m (env s) = Ok a e ∧ k a (PState (ptable s) (nextpid s) (initproc s) e) = Ok b s'.
Proof.
  unfold mbind, M_bind, on_env, zoom. destruct (m (env s)) as [a e| | | |]; naive_solver.
Qed.
Lemma bind_proc_inv {A} i (k : proc → M (pstate E) A) s b s' :
  (proc_at i ≫= k) s = Ok b s' → ∃ p, ptable s !! i = Some p ∧ k p s = Ok b s'.
Proof.
  unfold mbind, M_bind, proc_at. destruct (ptable s !! i) as [p|]; naive_solver.
Qed.

(** Runs [H] up to the next branch. *)
Ltac prun H :=
  repeat (first
    [ rewrite bind_upd in H | rewrite bind_gets in H | rewrite bind_modify in H
    | let a := fresh "a" in let e := fresh "e" in let E := fresh "E" in
      apply bind_env_inv in H as (a & e & E & H)
    | let p := fresh "p" in let E := fresh "Ep" in
      apply bind_proc_inv in H as (p & E & H); cbn [ptable] in E ];
    cbn [ptable nextpid initproc env] in H).

(** An unused slot after a failed allocation: a stale pid, no stack. *)
Definition same_slot (p p' : proc) : Prop :=
  p_state p' = UNUSED ∧ p_parent p' = p_parent p ∧ p_kstack p' = 0 ∧ p_ofile p' = p_ofile p.

Lemma find_unused_some t i :
  find_unused t = Some i → ∃ p, t !! i = Some p ∧ p_state p = UNUSED ∧ (i < length t)%nat.
Proof.
  unfold find_unused. destruct (list_find _ t) as [[j p]|] eqn:F; [|done]. simpl. intros [= ->].
  apply list_find_Some in F as (Hp & Hs & _). exists p. split_and!; [done..|].
  by eapply lookup_lt_Some.
Qed.

Lemma allocproc_inv s r s' :
  allocproc s = Ok r s' →
  initproc s' = initproc s ∧
  match r with
  | None => ptable s' = ptable s ∧ nextpid s' = nextpid s ∨
      ∃ i p p', ptable s !! i = Some p ∧ p_state p = UNUSED ∧ same_slot p p' ∧
        ptable s' = <[i := p']> (ptable s) ∧ nextpid s' = s32 (nextpid s + 1)
  | Some i => ∃ p k, ptable s !! i = Some p ∧ p_state p = UNUSED ∧ k ≠ 0 ∧
      ptable s' = <[i := set_context (Context_ 0 0 0 0 forkret_addr)
        (set_kstack k (set_state EMBRYO (set_pid (nextpid s) p)))]> (ptable s) ∧
      nextpid s' = s32 (nextpid s + 1)
  end.
Proof.
  intros H. unfold allocproc in H. prun H.
  destruct (find_unused (ptable s)) as [i|] eqn:F; [|injection H as <- <-; auto].
  apply find_unused_some in F as (p & Hp & Hu & Hlt). prun H.
  rewrite (alter_some _ _ _ p Hp), alter_insert in H by done.
  destruct (Z.eqb_spec a 0) as [->|Ha]; prun H; rewrite alter_insert in H by done;
    injection H as <- <-; (split; [done|]).
  - right. eexists i, p, _. split_and!; [done|done| |reflexivity|done]. done.
  - exists p, a. split_and!; [done..|reflexivity|done].
Qed.

(** ** fork *)

Lemma dup_files_inv np i fs s s' p u :
  ptable s !! np = Some p → dup_files np i fs s = Ok u s' →
  nextpid s' = nextpid s ∧ initproc s' = initproc s ∧
  ∃ l, ptable s' = <[np := set_ofile l p]> (ptable s) ∧ length l = length (p_ofile p).
Proof.
  revert i s p. induction fs as [|f fs IH]; intros i s p Hp H; cbn [dup_files] in H.
  { injection H as _ <-. split_and!; [done..|]. exists (p_ofile p). split; [|done].
    rewrite list_insert_id; [done|]. by destruct p. }
  apply bind_ok_inv in H as ([] & s1 & H1 & H). destruct (f =? 0).
  { injection H1 as <-. by eapply IH. }
  prun H1. injection H1 as <-. pose proof (lookup_lt_Some _ _ _ Hp).
  apply (IH _ _ (set_ofile (<[i := a]> (p_ofile p)) p)) in H as (E1 & E2 & l & E3 & El); cbn [ptable nextpid initproc] in *.
  - split_and!; [done..|]. exists l. split; [|by rewrite El; cbn; rewrite length_insert]. rewrite E3, (alter_some _ _ _ p Hp), list_insert_insert_eq. done.
  - rewrite (alter_some _ _ _ p Hp). by apply list_lookup_insert_eq.
Qed.

(** The copies of the open files, which the child gets. *)
Fixpoint dup_list (fs : list Z) : M E (list Z) :=
  match fs with
  | [] => mret []
  | f :: fs => g ← (if f =? 0 then mret 0 else pe_filedup f); l ← dup_list fs; mret (g :: l)
  end.

Lemma dup_files_ok np fs s p pre l e :
  ptable s !! np = Some p → p_ofile p = pre ++ replicate (length fs) 0 → dup_list fs (env s) = Ok l e →
  dup_files np (length pre) fs s =
    Ok tt (PState (<[np := set_ofile (pre ++ l) p]> (ptable s)) (nextpid s) (initproc s) e).
Proof.
  revert s p pre l. induction fs as [|f fs IH]; intros s p pre l Hp Hof Hd; cbn [dup_list] in Hd; cbn [dup_files].
  { injection Hd as <- <-. cbn in Hof. rewrite list_insert_id; [by destruct s|]. rewrite Hp. rewrite <- Hof. by destruct p. }
  apply bind_ok_inv in Hd as (g & e1 & Hg & Hd). apply bind_ok_inv in Hd as (l1 & e2 & Hd & Hr). injection Hr as <- <-.
  pose proof (lookup_lt_Some _ _ _ Hp) as Hlt. rewrite cons_middle, (app_assoc pre).
  replace (S (length pre)) with (length (pre ++ [g])) by (rewrite length_app; cbn; lia).
  destruct (f =? 0).
  - injection Hg as <- <-. rewrite ret_step. apply IH; [done| |done].
    rewrite Hof. cbn. by rewrite <- app_assoc.
  - set (p' := set_ofile (pre ++ g :: replicate (length fs) 0) p).
    assert ((g0 ← on_env (pe_filedup f); Proc.upd np (λ p, set_ofile (<[length pre := g0]> (p_ofile p)) p)) s =
      Ok tt (PState (<[np := p']> (ptable s)) (nextpid s) (initproc s) e1)) as E1.
    { unfold mbind, M_bind, on_env, zoom. rewrite Hg. unfold Proc.upd. cbn [ptable nextpid initproc env].
      rewrite (alter_some _ _ _ p Hp), Hof. cbn [length replicate].
      by rewrite insert_app_r_alt, Nat.sub_diag by lia. }
    mstep E1. rewrite (IH _ p' (pre ++ [g]) l1); cbn [ptable nextpid initproc env].
    + by rewrite list_insert_insert_eq.
    + by apply list_lookup_insert_eq.
    + cbn. by rewrite <- app_assoc.
    + done.
Qed.

(** A call of fork fails and leaves at most a stale unused slot, or makes a
    runnable child. *)
Definition forked s (cur : nat) (z : Z) s' : Prop :=
  ∃ i slot p child, ptable s !! i = Some slot ∧ p_state slot = UNUSED ∧ i ≠ cur ∧
    ptable s !! cur = Some p ∧
    ptable s' = <[i := child]> (ptable s) ∧ nextpid s' = s32 (nextpid s + 1) ∧
    z = nextpid s ∧ p_pid child = nextpid s ∧ p_state child = RUNNABLE ∧
    p_parent child = Some cur ∧ p_kstack child ≠ 0 ∧ p_sz child = p_sz p ∧
    p_tf child = set_eax 0 (p_tf p) ∧ length (p_ofile child) = length (p_ofile slot).

Definition fork_failed s s' : Prop :=
  ptable s' = ptable s ∧ nextpid s' = nextpid s ∨
  ∃ i p p', ptable s !! i = Some p ∧ p_state p = UNUSED ∧ same_slot p p' ∧
    ptable s' = <[i := p']> (ptable s) ∧ nextpid s' = s32 (nextpid s + 1).

Lemma fork_inv s cur z s' p :
  ptable s !! cur = Some p → p_state p ≠ UNUSED → fork cur s = Ok z s' →
  initproc s' = initproc s ∧ (z = -1 ∧ fork_failed s s' ∨ forked s cur z s').
Proof.
  intros Hcur Hst H. unfold fork in H. apply bind_ok_inv in H as (r & s1 & Ha & H).
  apply allocproc_inv in Ha as [Ei Ha]. destruct r as [i|].
  - destruct Ha as (slot & k & Hs & Hu & Hk & Et & En).
    set (c := set_context _ _) in Et. assert (i ≠ cur) as Hne by congruence.
    pose proof (lookup_lt_Some _ _ _ Hs) as Hlt.
    prun H. assert (p0 = p) as ->.
    { rewrite Et, list_lookup_insert_ne in Ep by done. congruence. }
    rewrite Et, alter_insert in H by done. destruct (Z.eqb_spec a 0) as [->|Hpg].
    + prun H. rewrite list_lookup_insert_eq in Ep0 by done. injection Ep0 as <-.
      rewrite !alter_insert in H by done. injection H as <- <-. split; [done|]. left.
      split; [done|]. right. eexists i, slot, _.
      split_and!; [done|done| |reflexivity|done]. done.
    + prun H. rewrite !alter_insert in H by done.
      apply bind_ok_inv in H as ([] & s2 & Hd & H).
      eapply dup_files_inv in Hd as (E1 & E2 & l & E3 & El); cbn [ptable nextpid initproc] in *;
        [|by apply list_lookup_insert_eq].
      prun H. rewrite E3, !list_insert_insert_eq, !alter_insert in Ep0 by done.
      rewrite list_lookup_insert_eq in Ep0 by done. injection Ep0 as <-.
      rewrite E3, !list_insert_insert_eq, !alter_insert in H by done. injection H as <- <-.
      split; [by rewrite E2|]. right. eexists i, slot, p, _. cbn [ptable nextpid].
      split_and!; [done..|reflexivity|by rewrite E1| | | | | | | |]; done.
  - injection H as <- <-. split; [done|]. left. done.
Qed.

(** ** Waking *)

Lemma wake_state c p :
  wake c p = p ∧ ¬ (p_state p = SLEEPING ∧ p_chan p = c) ∨
  wake c p = set_state RUNNABLE p ∧ p_state p = SLEEPING ∧ p_chan p = c.
Proof. unfold wake. destruct (decide _); [right|left]; done. Qed.

(** ** The scheduler *)

Lemma scheduler_inv s from r s' :
  scheduler from s = Ok r s' →
  nextpid s' = nextpid s ∧ initproc s' = initproc s ∧
  match r with
  | None => s' = s
  | Some i => ∃ p, ptable s !! i = Some p ∧ p_state p = RUNNABLE ∧
      ptable s' = <[i := set_chan NoChan (set_state RUNNING p)]> (ptable s)
  end.
Proof.
  intros H. unfold scheduler in H. prun H.
  destruct (list_find _ (drop from (ptable s))) as [[k p]|] eqn:F; [|by injection H as <- <-].
  apply list_find_Some in F as (Hp & Hs & _). rewrite lookup_drop in Hp.
  pose proof (lookup_lt_Some _ _ _ Hp). prun H.
  rewrite (alter_some _ _ _ p Hp), alter_insert in H by done. injection H as <- <-.
  split_and!; [done..|]. eauto.
Qed.

Lemma kill_inv s pid z s' :
  kill pid s = Ok z s' →
  nextpid s' = nextpid s ∧ initproc s' = initproc s ∧
  (z = -1 ∧ s' = s ∨
   z = 0 ∧ ∃ i p, ptable s !! i = Some p ∧ p_pid p = pid ∧
     ptable s' = <[i := set_killed 1 (if decide (p_state p = SLEEPING)
                                      then set_state RUNNABLE p else p)]> (ptable s)).
Proof.
  intros H. unfold kill in H. prun H.
  destruct (list_find _ (ptable s)) as [[i p]|] eqn:F; [|injection H as <- <-; auto].
  apply list_find_Some in F as (Hp & Hs & _). pose proof (lookup_lt_Some _ _ _ Hp).
  prun H. destruct (decide (p_state p = SLEEPING)) as [Hd|Hd]; prun H;
    rewrite (alter_some _ _ _ p Hp), ?alter_insert in H by done; injection H as <- <-;
    (split_and!; [done..|]); right; (split; [done|]); exists i, p; (split_and!; [done..|]).
  - by rewrite decide_True.
  - by rewrite decide_False.
Qed.

(** Giving up the processor in the state [f] leaves. *)
Lemma sched_inv s cur u s' : sched cur s = Ok u s' → s' = s.
Proof. intros H. unfold sched in H. prun H. destruct (decide _); [done|]. by injection H as _ ->. Qed.

Lemma yield_inv s cur u s' p :
  ptable s !! cur = Some p → yield cur s = Ok u s' →
  s' = PState (<[cur := set_state RUNNABLE p]> (ptable s)) (nextpid s) (initproc s) (env s).
Proof.
  intros Hp H. unfold yield in H. rewrite bind_upd in H. apply sched_inv in H as ->.
  by rewrite (alter_some _ _ _ p Hp).
Qed.

Lemma sleep_on_inv s cur c u s' p :
  ptable s !! cur = Some p → sleep_on cur c s = Ok u s' →
  s' = PState (<[cur := set_state SLEEPING (set_chan c p)]> (ptable s))
         (nextpid s) (initproc s) (env s).
Proof.
  intros Hp H. unfold sleep_on in H. rewrite !bind_upd in H. apply sched_inv in H as ->.
  cbn [ptable nextpid initproc env]. pose proof (lookup_lt_Some _ _ _ Hp). by rewrite (alter_some _ _ _ p Hp), alter_insert.
Qed.

(** ** exit *)

Lemma close_files_inv cur fd fs s s' p u :
  ptable s !! cur = Some p → close_files cur fd fs s = Ok u s' →
  nextpid s' = nextpid s ∧ initproc s' = initproc s ∧
  ∃ l, ptable s' = <[cur := set_ofile l p]> (ptable s) ∧
    ∀ pre, length pre = fd → p_ofile p = pre ++ fs → l = pre ++ replicate (length fs) 0.
Proof.
  revert fd s p. induction fs as [|f fs IH]; intros fd s p Hp H; cbn [close_files] in H.
  { injection H as _ <-. split_and!; [done..|]. exists (p_ofile p). split; [|done].
    rewrite list_insert_id; [done|]. by destruct p. }
  apply bind_ok_inv in H as ([] & s1 & H1 & H). destruct (Z.eqb_spec f 0) as [->|Hf].
  { injection H1 as <-. apply (IH _ _ p Hp) in H as (E1 & E2 & l & E3 & El). split_and!; [done..|].
    exists l. split; [done|]. intros pre Hpre Hof. rewrite (El (pre ++ [0])); cbn.
    - by rewrite <- app_assoc.
    - rewrite length_app. cbn. lia.
    - by rewrite Hof, <- app_assoc. }
  prun H1. injection H1 as <-. pose proof (lookup_lt_Some _ _ _ Hp).
  apply (IH _ _ (set_ofile (<[fd := 0]> (p_ofile p)) p)) in H as (E1 & E2 & l & E3 & El); cbn [ptable nextpid initproc] in *.
  - split_and!; [done..|]. exists l. split; [by rewrite E3, (alter_some _ _ _ p Hp), list_insert_insert_eq|].
    intros pre Hpre Hof. rewrite (El (pre ++ [0])); cbn.
    + by rewrite <- app_assoc.
    + rewrite length_app. cbn. lia.
    + rewrite Hof, insert_app_r_alt, Hpre, Nat.sub_diag by lia. cbn. by rewrite <- app_assoc.
  - rewrite (alter_some _ _ _ p Hp). by apply list_lookup_insert_eq.
Qed.

(** [p'] is [p] with some fields changed that the table's structure does not
    depend on: possibly woken up. *)
Definition woken (p p' : proc) : Prop :=
  p' = p ∨ p' = set_state RUNNABLE p ∧ p_state p = SLEEPING.

Lemma woken_wake c p p' : woken p p' → woken p (wake c p').
Proof.
  intros [->|[-> Hs]].
  - destruct (wake_state c p) as [[-> _]|(-> & Hs & _)]; [by left|by right].
  - right. split; [|done]. unfold wake. by rewrite decide_False by (simpl; naive_solver).
Qed.

Lemma woken_keeps p q :
  woken p q → p_parent q = p_parent p ∧ p_pid q = p_pid p ∧ p_kstack q = p_kstack p ∧
    p_chan q = p_chan p ∧ (p_state q = p_state p ∨ p_state p = SLEEPING ∧ p_state q = RUNNABLE).
Proof. intros [->|[-> Hs]]; simpl; auto 10. Qed.

Lemma woken_trans p q r : woken p q → woken q r → woken p r.
Proof. unfold woken. intros [->|[-> H1]] [->|[-> H2]]; auto. Qed.

(** One turn of the loop that hands the children of [cur] to init. *)
Definition adopted (cur k : nat) (b : Prop) `{!Decision b} (p p' : proc) : Prop :=
  ∃ q, woken p q ∧ p' = if decide (b ∧ p_parent p = Some cur) then set_parent (Some k) q else q.

(** Nobody waits for the children of [k]. *)
Definition no_waiter t (k : nat) : Prop :=
  ∀ l q, t !! l = Some q → p_state q = SLEEPING → p_chan q ≠ ProcChan k.

Lemma reparent_one cur i s s' k u p :
  initproc s = Some k → ptable s !! i = Some p →
  (if decide (p_parent p = Some cur) then
     Proc.upd i (set_parent (Some k));;
     if decide (p_state p = ZOMBIE) then wakeup1 (ProcChan k) else mret tt
   else mret tt) s = Ok u s' →
  nextpid s' = nextpid s ∧ initproc s' = initproc s ∧ length (ptable s') = length (ptable s) ∧
  (∀ j q, ptable s !! j = Some q → ∃ q', ptable s' !! j = Some q' ∧ adopted cur k (j = i) q q') ∧
  (p_parent p = Some cur → p_state p = ZOMBIE → no_waiter (ptable s') k).
Proof.
  intros Hk Hp H. pose proof (lookup_lt_Some _ _ _ Hp) as Hlt.
  assert (∀ c t j q, t = <[i := set_parent (Some k) p]> (ptable s) → p_parent p = Some cur →
    ptable s !! j = Some q → ∃ q', (wake c <$> t) !! j = Some q' ∧ adopted cur k (j = i) q q') as Hw.
  { intros c t j q -> Hpar Hq. rewrite list_lookup_fmap. destruct (decide (j = i)) as [->|Hne].
    - rewrite list_lookup_insert_eq by done. assert (q = p) as -> by congruence.
      eexists. split; [done|]. exists (wake c p). split; [by apply woken_wake; left|]. rewrite decide_True by done. unfold wake.
      cbn [p_state p_chan set_parent]. by destruct (decide (p_state p = SLEEPING ∧ p_chan p = c)).
    - rewrite list_lookup_insert_ne, Hq by done. eexists. split; [done|]. exists (wake c q).
      split; [by apply woken_wake; left|]. by rewrite decide_False by naive_solver. }
  destruct (decide (p_parent p = Some cur)) as [Hpar|Hpar].
  - rewrite bind_upd in H. cbn [ptable nextpid initproc env] in H.
    rewrite (alter_some _ _ _ p Hp) in H. destruct (decide (p_state p = ZOMBIE)) as [Hz|Hz].
    + injection H as _ <-. cbn [ptable nextpid initproc env]. split_and!; try done.
      * by rewrite length_fmap, length_insert.
      * intros j q Hq. by apply Hw.
      * intros _ _ l q Hl Hs Hc. rewrite list_lookup_fmap in Hl.
        destruct (<[i := _]> (ptable s) !! l) as [r|]; [|done]. injection Hl as <-.
        revert Hs Hc. destruct (wake_state (ProcChan k) r) as [[-> Hn]|(-> & _)]; [|done]. naive_solver.
    + injection H as _ <-. cbn [ptable nextpid initproc env]. split_and!; try done.
      * by rewrite length_insert.
      * intros j q Hq. destruct (decide (j = i)) as [->|Hne].
        { rewrite list_lookup_insert_eq by done. assert (q = p) as -> by congruence.
          eexists. split; [done|]. exists p. split; [by left|]. by rewrite decide_True. }
        { rewrite list_lookup_insert_ne by done. eexists. split; [done|].
          exists q. split; [by left|]. by rewrite decide_False by naive_solver. }
  - injection H as _ <-. split_and!; try done.
    intros j q Hq. exists q. split; [done|]. exists q. split; [by left|].
    rewrite decide_False; [done|]. intros [-> ?]. congruence.
Qed.

Lemma adopted_keeps cur k b `{!Decision b} p p' :
  adopted cur k b p p' →
  p_parent p' = (if decide (b ∧ p_parent p = Some cur) then Some k else p_parent p) ∧
  p_pid p' = p_pid p ∧ p_kstack p' = p_kstack p ∧ p_chan p' = p_chan p ∧
  (p_state p' = p_state p ∨ p_state p = SLEEPING ∧ p_state p' = RUNNABLE).
Proof.
  intros (q & Hw & ->). apply woken_keeps in Hw. by destruct (decide _); simpl; naive_solver.
Qed.

Lemma no_waiter_mono t t' k :
  length t' = length t →
  (∀ j p, t !! j = Some p → ∃ p', t' !! j = Some p' ∧ p_chan p' = p_chan p ∧
     (p_state p' = p_state p ∨ p_state p = SLEEPING ∧ p_state p' = RUNNABLE)) →
  no_waiter t k → no_waiter t' k.
Proof.
  intros Hlen Ht Hn l q Hl Hs. destruct (lookup_lt_is_Some_2 t l) as [p Hp].
  { rewrite <- Hlen. by eapply lookup_lt_Some. }
  destruct (Ht l p Hp) as (p' & Hp' & Hc & Hst). simplify_eq. rewrite Hc. apply (Hn l p Hp).
  destruct Hst as [<-|[? ?]]; congruence.
Qed.

Lemma reparent_inv cur i n s s' k u :
  initproc s = Some k → k ≠ cur → (i + n = length (ptable s))%nat → reparent cur i n s = Ok u s' →
  nextpid s' = nextpid s ∧ initproc s' = initproc s ∧ length (ptable s') = length (ptable s) ∧
  (∀ j p, ptable s !! j = Some p → ∃ p', ptable s' !! j = Some p' ∧ adopted cur k (i ≤ j)%nat p p') ∧
  ((∃ j p, (i ≤ j)%nat ∧ ptable s !! j = Some p ∧ p_parent p = Some cur ∧ p_state p = ZOMBIE) →
     no_waiter (ptable s') k).
Proof.
  intros Hk Hkc. revert i s Hk. induction n as [|n IH]; intros i s Hk Hn H; cbn [reparent] in H.
  { injection H as _ <-. split_and!; try done.
    - intros j p Hp. exists p. split; [done|]. exists p. split; [by left|].
      rewrite decide_False; [done|]. intros [? _]. apply lookup_lt_Some in Hp. lia.
    - intros (j & p & Hj & Hp & _). apply lookup_lt_Some in Hp. lia. }
  apply bind_proc_inv in H as (p & Hp & H). rewrite bind_gets, Hk in H.
  apply bind_ok_inv in H as ([] & s1 & H1 & H).
  destruct (reparent_one _ _ _ _ _ _ _ Hk Hp H1) as (A1 & A2 & A3 & A4 & A5).
  destruct (IH (S i) s1) as (B1 & B2 & B3 & B4 & B5); [congruence|lia|done|].
  split_and!; [congruence..| |].
  - intros j q Hq. destruct (A4 j q Hq) as (q1 & Hq1 & Had1).
    destruct (B4 j q1 Hq1) as (q2 & Hq2 & Had2). exists q2. split; [done|].
    destruct (adopted_keeps _ _ _ _ _ Had1) as (Epar & _).
    destruct Had1 as (r1 & Hw1 & E1), Had2 as (r2 & Hw2 & E2).
    destruct (decide (j = i ∧ p_parent q = Some cur)) as [[-> Hpar]|Hno].
    + rewrite decide_False in E2 by lia. subst q1 q2.
      exists (set_parent (p_parent r1) r2). rewrite decide_True by done. split.
      * destruct Hw1 as [->|[-> ?]], Hw2 as [->|[-> ?]]; destruct q; by (left + right).
      * destruct Hw2 as [->|[-> ?]]; by destruct r1.
    + subst q1. exists r2. split; [by eapply woken_trans|]. rewrite E2, Epar.
      destruct (decide (p_parent q = Some cur)) as [Hpar|Hpar].
      * assert (j ≠ i) by tauto.
        destruct (decide (S i ≤ j ∧ p_parent q = Some cur)%nat) as [[Ha _]|Ha].
        { by rewrite decide_True by (split; [lia|done]). }
        { rewrite decide_False; [done|]. intros [Hb _]. apply Ha. split; [lia|done]. }
      * rewrite !decide_False; [done|tauto..].
  - intros (j & q & Hj & Hq & Hpar & Hz). destruct (decide (j = i)) as [->|Hne].
    + eapply no_waiter_mono; [done| |apply A5; congruence].
      intros l r Hl. destruct (B4 l r Hl) as (r' & Hr' & Had). exists r'. split; [done|].
      apply adopted_keeps in Had as (_ & _ & _ & ? & ?). done.
    + apply B5. destruct (A4 j q Hq) as (q1 & Hq1 & Had1). exists j, q1.
      apply adopted_keeps in Had1 as (Epar & _ & _ & _ & Est).
      rewrite decide_False in Epar by naive_solver. split_and!; [lia|done|congruence|].
      destruct Est as [?|[? ?]]; congruence.
Qed.

(** A process after the exit of [cur], whose parent was [par]: woken up if it
    waited for its children and is affected, handed to init if orphaned. *)
Definition after_exit (cur k : nat) (p p' : proc) : Prop :=
  p_parent p' = (if decide (p_parent p = Some cur) then Some k else p_parent p) ∧
  p_pid p' = p_pid p ∧ p_kstack p' = p_kstack p ∧ p_chan p' = p_chan p ∧
  (p_state p' = p_state p ∨ p_state p = SLEEPING ∧ p_state p' = RUNNABLE).

Lemma no_waiter_woken c k t : c = ProcChan k → no_waiter (wake c <$> t) k.
Proof.
  intros -> l q Hl Hs Hc. rewrite list_lookup_fmap in Hl. destruct (t !! l) as [r|]; [|done].
  injection Hl as <-. revert Hs Hc.
  destruct (wake_state (ProcChan k) r) as [[-> Hn]|(-> & _)]; [|done]. naive_solver.
Qed.

Lemma no_waiter_insert t i p p' k :
  t !! i = Some p → p_state p' ≠ SLEEPING ∨ p_chan p' ≠ ProcChan k → no_waiter t k → no_waiter (<[i := p']> t) k.
Proof.
  intros Hp Hp' Hn l q Hl Hs Hc. pose proof (lookup_lt_Some _ _ _ Hp).
  destruct (decide (l = i)) as [->|Hne].
  - rewrite list_lookup_insert_eq in Hl by done. naive_solver.
  - rewrite list_lookup_insert_ne in Hl by done. by eapply Hn.
Qed.

(** The table after the exit of [cur], a child of [par]. *)
Record exited s (cur k : nat) (p : proc) s' : Prop := Exited {
  ex_nextpid : nextpid s' = nextpid s;
  ex_initproc : initproc s' = initproc s;
  ex_length : length (ptable s') = length (ptable s);
  ex_others j q : j ≠ cur → ptable s !! j = Some q →
    ∃ q', ptable s' !! j = Some q' ∧ after_exit cur k q q';
  ex_self : ∃ p', ptable s' !! cur = Some p' ∧ p_state p' = ZOMBIE ∧
    p_parent p' = p_parent p ∧ p_pid p' = p_pid p ∧ p_kstack p' = p_kstack p;
  ex_parent par : p_parent p = Some par → no_waiter (ptable s') par;
  ex_orphans j q : j ≠ cur → ptable s !! j = Some q → p_parent q = Some cur →
    p_state q = ZOMBIE → no_waiter (ptable s') k;
}.

(** Releasing the files and the directory changes [cur] only. *)
Lemma exit_release s cur k p u s' :
  ptable s !! cur = Some p → initproc s = Some k → exit cur s = Ok u s' →
  k ≠ cur ∧ ∃ s1 p1, ptable s1 = <[cur := p1]> (ptable s) ∧ nextpid s1 = nextpid s ∧
    initproc s1 = Some k ∧ p_parent p1 = p_parent p ∧ p_pid p1 = p_pid p ∧
    p_kstack p1 = p_kstack p ∧ p_state p1 = p_state p ∧ p_chan p1 = p_chan p ∧
    p_ofile p1 = replicate (length (p_ofile p)) 0 ∧
    (wakeup1 (match p_parent p with Some k => ProcChan k | None => NoChan end);;
     reparent cur 0 (length (ptable s));;
     Proc.upd cur (set_state ZOMBIE);; sched cur) s1 = Ok u s'.
Proof.
  intros Hp Hk H. pose proof (lookup_lt_Some _ _ _ Hp) as Hlt. unfold exit in H.
  rewrite bind_gets, Hk in H. destruct (decide (Some k = Some cur)) as [|Hne]; [done|].
  split; [congruence|]. apply bind_proc_inv in H as (p0 & Hp0 & H). assert (p0 = p) as -> by congruence.
  apply bind_ok_inv in H as ([] & s1 & H1 & H).
  destruct (close_files_inv _ _ _ _ _ _ _ Hp H1) as (E1 & E2 & l & E3 & El).
  do 3 (let e := fresh "e" in let a := fresh "a" in let E := fresh "E" in
        apply bind_env_inv in H as (a & e & E & H)).
  rewrite bind_upd in H. cbn [ptable nextpid initproc env] in H. rewrite E3, alter_insert in H by done.
  apply bind_proc_inv in H as (p2 & Hp2 & H). cbn [ptable] in Hp2.
  rewrite list_lookup_insert_eq in Hp2 by done. injection Hp2 as <-.
  exists (PState (<[cur := set_cwd 0 (set_ofile l p)]> (ptable s)) (nextpid s1) (initproc s1) e1),
    (set_cwd 0 (set_ofile l p)).
  split_and!; [| | | | | | | | |].
  10: { rewrite bind_wakeup1, bind_gets in H. cbn [ptable] in H.
       rewrite length_fmap, length_insert in H. rewrite bind_wakeup1. exact H. }
  9: exact (El [] eq_refl eq_refl).
  all: try done. cbn [initproc]. congruence.
Qed.

Lemma exit_inv s cur k p u s' :
  ptable s !! cur = Some p → initproc s = Some k → p_parent p ≠ Some cur → p_state p = RUNNING →
  exit cur s = Ok u s' → k ≠ cur ∧ exited s cur k p s'.
Proof.
  intros Hp Hk Hpar Hrun H. pose proof (lookup_lt_Some _ _ _ Hp) as Hlt.
  destruct (exit_release _ _ _ _ _ _ Hp Hk H)
    as (Hne & s1 & p1 & Et & En & Ei & Epar & Epid & Eks & Est & Ech & _ & H1).
  split; [done|]. clear H. rewrite bind_wakeup1 in H1.
  apply bind_ok_inv in H1 as ([] & s2 & H2 & H3). rewrite bind_upd in H3. apply sched_inv in H3 as ->.
  set (c := match p_parent p with Some k => ProcChan k | None => NoChan end) in *.
  assert (ptable s1 !! cur = Some p1) as Hp1 by (rewrite Et; by apply list_lookup_insert_eq).
  assert (length (ptable s1) = length (ptable s)) as Hl1 by (by rewrite Et, length_insert).
  apply reparent_inv with (k := k) in H2 as (R1 & R2 & R3 & R4 & R5); cbn [ptable nextpid initproc] in *;
    [|done|done|by rewrite length_fmap, Hl1].
  rewrite length_fmap in R3.
  (* the table before the last assignment *)
  assert (∀ j q, ptable s1 !! j = Some q → ∃ q', ptable s2 !! j = Some q' ∧ after_exit cur k q q') as Hall.
  { intros j q Hq. destruct (R4 j (wake c q)) as (q' & Hq' & Had); [by rewrite list_lookup_fmap, Hq|].
    exists q'. split; [done|]. apply adopted_keeps in Had as (A1 & A2 & A3 & A4 & A5).
    destruct (woken_keeps q (wake c q)) as (W1 & W2 & W3 & W4 & W5); [by apply woken_wake; left|].
    rewrite W1 in A1. split_and!; [|congruence..|].
    - rewrite A1. destruct (decide (p_parent q = Some cur)).
      + by rewrite decide_True by (split; [lia|done]).
      + by rewrite decide_False by tauto.
    - destruct A5 as [A5|[A5 A6]], W5 as [W5|[W5 W6]];
        [left; congruence|right; split; congruence..|congruence]. }
  destruct (Hall cur p1 Hp1) as (p2 & Hp2 & X1 & X2 & X3 & X4 & X5).
  assert (p_state p2 = RUNNING) as Hst2 by (destruct X5 as [?|[? ?]]; congruence).
  split; cbn [ptable nextpid initproc]; rewrite ?(alter_some _ _ _ p2 Hp2).
  - congruence.
  - congruence.
  - rewrite length_insert. lia.
  - intros j q Hj Hq. destruct (Hall j q) as (q' & Hq' & Ha).
    { rewrite Et, list_lookup_insert_ne; done. }
    exists q'. rewrite list_lookup_insert_ne by done. done.
  - eexists. rewrite list_lookup_insert_eq by (rewrite R3; lia). split; [done|]. simpl.
    rewrite X1, decide_False by congruence. split_and!; congruence.
  - intros par Epar'. eapply no_waiter_insert; [exact Hp2|by left|].
    eapply no_waiter_mono; [| |apply (no_waiter_woken c par (ptable s1)); unfold c; by rewrite Epar'].
    + by rewrite length_fmap, R3.
    + intros j q Hq. destruct (R4 j q Hq) as (q' & Hq' & Had). exists q'.
      apply adopted_keeps in Had as (_ & _ & _ & ? & ?). done.
  - intros j q Hj Hq Hqp Hz. eapply no_waiter_insert; [exact Hp2|by left|].
    apply R5. exists j, q. split; [lia|]. rewrite list_lookup_fmap, Et, list_lookup_insert_ne, Hq by done.
    split; [|done]. simpl. f_equal. unfold wake. rewrite decide_False; [done|]. intros [? _]. congruence.
Qed.

(** The open files of all the processes, which most operations keep. *)
Definition files s : list (list Z) := p_ofile <$> ptable s.

Lemma files_alter i f t : (∀ p, p_ofile (f p) = p_ofile p) → p_ofile <$> alter f i t = p_ofile <$> t.
Proof.
  intros Hf. revert i. induction t as [|p t IH]; intros [|i]; cbn; [done..|by rewrite Hf|].
  f_equal. apply IH.
Qed.

Lemma wake_ofile c p : p_ofile (wake c p) = p_ofile p.
Proof. unfold wake. by destruct (decide _). Qed.

Lemma files_wake c t : p_ofile <$> (wake c <$> t) = p_ofile <$> t.
Proof. rewrite <- list_fmap_compose. apply list_fmap_ext. intros _ p _. apply wake_ofile. Qed.

Lemma reparent_files cur i n s u s' : reparent cur i n s = Ok u s' → files s' = files s.
Proof.
  revert i s. induction n as [|n IH]; intros i s H; cbn [reparent] in H; [by injection H as _ <-|].
  apply bind_proc_inv in H as (p & Hp & H). rewrite bind_gets in H. apply bind_ok_inv in H as ([] & s1 & H1 & H).
  rewrite (IH _ _ H). clear H. destruct (decide (p_parent p = Some cur)); [|by injection H1 as <-].
  rewrite bind_upd in H1. destruct (decide (p_state p = ZOMBIE)); injection H1 as <-; unfold files; cbn [ptable];
    rewrite ?files_wake; by apply files_alter.
Qed.

(** The exiting process has closed all of its files. *)
Lemma exit_files s cur k p u s' :
  ptable s !! cur = Some p → initproc s = Some k → exit cur s = Ok u s' →
  files s' = <[cur := replicate (length (p_ofile p)) 0]> (files s).
Proof.
  intros Hp Hk H. destruct (exit_release _ _ _ _ _ _ Hp Hk H) as (_ & s1 & p1 & Et & _ & _ & _ & _ & _ & _ & _ & Eof & H1).
  rewrite bind_wakeup1 in H1. apply bind_ok_inv in H1 as ([] & s2 & H2 & H3). rewrite bind_upd in H3. apply sched_inv in H3 as ->.
  unfold files at 1. cbn [ptable]. rewrite files_alter by done. apply reparent_files in H2. unfold files at 2 in H2.
  cbn [ptable] in H2. rewrite files_wake, Et, list_fmap_insert, Eof in H2. exact H2.
Qed.

(** ** wait *)

Lemma wait_scan_spec cur i t h :
  match wait_scan cur i t h with
  | inl j => ∃ q, (i ≤ j)%nat ∧ t !! (j - i)%nat = Some q ∧ p_parent q = Some cur ∧ p_state q = ZOMBIE
  | inr h' => (∀ j q, t !! j = Some q → p_parent q = Some cur → p_state q ≠ ZOMBIE) ∧
      (h' = true ↔ h = true ∨ ∃ j q, t !! j = Some q ∧ p_parent q = Some cur)
  end.
Proof.
  revert i h. induction t as [|p t IH]; intros i h; simpl.
  { split; [done|]. split; [auto|]. intros [?|(j & q & ? & _)]; done. }
  assert (∀ h1, (h1 = true ↔ h = true ∨ p_parent p = Some cur) →
    (p_parent p = Some cur → p_state p ≠ ZOMBIE) →
    match wait_scan cur (S i) t h1 with
    | inl j => ∃ q, (i ≤ j)%nat ∧ (p :: t) !! (j - i)%nat = Some q ∧ p_parent q = Some cur ∧ p_state q = ZOMBIE
    | inr h' => (∀ j q, (p :: t) !! j = Some q → p_parent q = Some cur → p_state q ≠ ZOMBIE) ∧
        (h' = true ↔ h = true ∨ ∃ j q, (p :: t) !! j = Some q ∧ p_parent q = Some cur)
    end) as Hrec.
  { intros h1 Hh1 Hz. specialize (IH (S i) h1). destruct (wait_scan cur (S i) t h1) as [j|h'].
    - destruct IH as (q & Hj & Hq & ?). exists q. split; [lia|]. split; [|done].
      by replace (j - i)%nat with (S (j - S i)) by lia.
    - destruct IH as [Hno Hh']. split.
      + intros [|j] q Hq; simpl in Hq; [naive_solver|eauto].
      + rewrite Hh', Hh1. split.
        * intros [[?|?]|(j & q & ?)]; [by left|right; by exists 0%nat, p|right; by exists (S j), q].
        * intros [?|([|j] & q & Hq & ?)]; simpl in *; [tauto|simplify_eq; tauto|right; eauto]. }
  destruct (decide (p_parent p = Some cur)) as [Hpar|Hpar].
  - destruct (decide (p_state p = ZOMBIE)) as [Hz|Hz].
    + exists p. rewrite Nat.sub_diag. split_and!; [lia|done..].
    + apply Hrec; tauto.
  - apply Hrec; tauto.
Qed.

(** What is left of a process that has been waited for. *)
Definition reaped (q q' : proc) : Prop :=
  p_state q' = UNUSED ∧ p_parent q' = None ∧ p_kstack q' = 0 ∧ p_pid q' = 0 ∧ p_killed q' = 0 ∧
  p_ofile q' = p_ofile q.

Lemma wait_inv s cur p r s' :
  ptable s !! cur = Some p → wait cur s = Ok r s' →
  nextpid s' = nextpid s ∧ initproc s' = initproc s ∧
  match r with
  | WaitReturn z =>
      (z = -1 ∧ s' = s ∧ (∀ j q, ptable s !! j = Some q → p_parent q = Some cur → p_state q ≠ ZOMBIE) ∧
         ((∀ j q, ptable s !! j = Some q → p_parent q ≠ Some cur) ∨ p_killed p ≠ 0)) ∨
      ∃ i q q', ptable s !! i = Some q ∧ p_parent q = Some cur ∧ p_state q = ZOMBIE ∧
        z = p_pid q ∧ reaped q q' ∧ ptable s' = <[i := q']> (ptable s)
  | WaitSleep =>
      (∀ j q, ptable s !! j = Some q → p_parent q = Some cur → p_state q ≠ ZOMBIE) ∧
      (∃ j q, ptable s !! j = Some q ∧ p_parent q = Some cur) ∧ p_killed p = 0 ∧
      ptable s' = <[cur := set_state SLEEPING (set_chan (ProcChan cur) p)]> (ptable s)
  end.
Proof.
  intros Hp H. unfold wait in H. rewrite bind_gets in H.
  pose proof (wait_scan_spec cur 0 (ptable s) false) as Hscan.
  destruct (wait_scan cur 0 (ptable s) false) as [i|h].
  - destruct Hscan as (q & _ & Hq & Hpar & Hz). rewrite Nat.sub_0_r in Hq.
    pose proof (lookup_lt_Some _ _ _ Hq). prun H. assert (p0 = q) as -> by congruence.
    rewrite (alter_some _ _ _ q Hq), !alter_insert in H by done. injection H as <- <-.
    split_and!; [done..|]. right. eexists i, q, _. split_and!; [done..| |reflexivity]. done.
  - destruct Hscan as [Hno Hh]. apply bind_proc_inv in H as (p0 & Hp0 & H).
    assert (p0 = p) as -> by congruence.
    destruct (negb h || negb (p_killed p =? 0)) eqn:Ec.
    + injection H as <- <-. split_and!; [done..|]. left. split_and!; [done..|].
      apply orb_true_iff in Ec as [Ec|Ec].
      * left. intros j q Hq Hpar. destruct h; [done|].
        assert (false = true) by (apply Hh; right; eauto). done.
      * right. by apply negb_true_iff, Z.eqb_neq in Ec.
    + apply orb_false_iff in Ec as [Eh%negb_false_iff Ek%negb_false_iff%Z.eqb_eq].
      apply bind_ok_inv in H as ([] & s1 & H1 & H). injection H as <- <-.
      apply (sleep_on_inv _ _ _ _ _ p Hp) in H1 as ->. split_and!; [done..| |done|done].
      apply Hh in Eh as [?|?]; [done|done].
Qed.
End proofs.
