(* ===== verification/ProcSpec.v ===== *)
(** * The process table as a transition system

    Processors pick runnable processes; running processes fork, exit, wait,
    sleep and yield; interrupts wake and kill.  The invariant says that the
    table and the processors agree, that the tree of processes is sound, and
    that nobody sleeps in [wait] while there is something to wait for. *)

From S2P Require Import Prelude Params Mmu Proc ProcProofs.

Definition live (p : proc) : Prop :=
  p_state p = SLEEPING ∨ p_state p = RUNNABLE ∨ p_state p = RUNNING.
Definition used (p : proc) : Prop := live p ∨ p_state p = ZOMBIE.

(** [i] has no child that has exited. *)
Definition no_zombie (t : list proc) (i : nat) : Prop :=
  ∀ j q, t !! j = Some q → p_parent q = Some i → p_state q ≠ ZOMBIE.

(** The table [t], with the next pid [n] and the first process [ini]. *)
Record tinv (t : list proc) (n : Z) (ini : option nat) : Prop := Tinv {
  ti_init : ∃ k p, ini = Some k ∧ t !! k = Some p ∧ live p ∧ p_parent p = None;
  ti_used i p : t !! i = Some p → used p ∨ p_state p = UNUSED ∧ p_parent p = None;
  ti_parent i p : t !! i = Some p → used p → ini ≠ Some i →
    ∃ q pq, p_parent p = Some q ∧ q ≠ i ∧ t !! q = Some pq ∧ live pq;
  ti_pid i p : t !! i = Some p → used p → 0 < p_pid p < n;
  ti_pid_inj i j p q : t !! i = Some p → t !! j = Some q → used p → used q →
    p_pid p = p_pid q → i = j;
  ti_next : 0 < n < 2 ^ 31;
  ti_wait i p j : t !! i = Some p → p_state p = SLEEPING → p_chan p = ProcChan j →
    j = i ∧ no_zombie t i;
}.

(** Which processor runs which process. *)
Definition runs (cpus : list (option nat)) (c i : nat) : Prop := cpus !! c = Some (Some i).

Record cinv (t : list proc) (cpus : list (option nat)) : Prop := Cinv {
  ci_running i p : t !! i = Some p → p_state p = RUNNING ↔ ∃ c, runs cpus c i;
  ci_once c c' i : runs cpus c i → runs cpus c' i → c = c';
  ci_dom c i : runs cpus c i → is_Some (t !! i);
}.

Section system.
Context {E : Type} `{!ProcEnv E}.
Implicit Types (s : pstate E) (t : list proc) (cpus : list (option nat)).

Record sconf := SConf { sc_s : pstate E; sc_cpus : list (option nat) }.

(** [c] is a processor and [i] the process it runs. *)
Inductive sstep : sconf → sconf → Prop :=
| ss_sched s cpus c from i s' :
    cpus !! c = Some None → scheduler from s = Ok (Some i) s' →
    sstep (SConf s cpus) (SConf s' (<[c := Some i]> cpus))
| ss_yield s cpus c i s' :
    runs cpus c i → yield i s = Ok tt s' → sstep (SConf s cpus) (SConf s' (<[c := None]> cpus))
| ss_sleep s cpus c i a s' :
    runs cpus c i → sleep_on i (Chan a) s = Ok tt s' →
    sstep (SConf s cpus) (SConf s' (<[c := None]> cpus))
| ss_wakeup s cpus a s' : wakeup (Chan a) s = Ok tt s' → sstep (SConf s cpus) (SConf s' cpus)
| ss_kill s cpus pid z s' : kill pid s = Ok z s' → sstep (SConf s cpus) (SConf s' cpus)
| ss_fork s cpus c i z s' :
    runs cpus c i → nextpid s + 1 < 2 ^ 31 → fork i s = Ok z s' →
    sstep (SConf s cpus) (SConf s' cpus)
| ss_exit s cpus c i s' :
    runs cpus c i → exit i s = Ok tt s' → sstep (SConf s cpus) (SConf s' (<[c := None]> cpus))
| ss_wait s cpus c i z s' :
    runs cpus c i → wait i s = Ok (WaitReturn z) s' → sstep (SConf s cpus) (SConf s' cpus)
| ss_wait_sleep s cpus c i s' :
    runs cpus c i → wait i s = Ok WaitSleep s' →
    sstep (SConf s cpus) (SConf s' (<[c := None]> cpus)).

Definition zero_proc : proc :=
  Proc 0 0 0 UNUSED 0 None tf_zero (Context_ 0 0 0 0 0) NoChan 0 (replicate (Z.to_nat NOFILE) 0) 0 [].

(** After userinit, with every processor idle. *)
Definition sinitial (c : sconf) : Prop :=
  ∃ e, userinit (PState (replicate (Z.to_nat NPROC) zero_proc) 1 None e) = Ok tt (sc_s c) ∧
    Forall (λ x, x = None) (sc_cpus c).

Definition sreachable (c : sconf) : Prop := ∃ c0, sinitial c0 ∧ rtc sstep c0 c.

Definition sinv (c : sconf) : Prop :=
  tinv (ptable (sc_s c)) (nextpid (sc_s c)) (initproc (sc_s c)) ∧ cinv (ptable (sc_s c)) (sc_cpus c).

(** ** Changes of the table *)

(** A change that at most wakes processes up. *)
Lemma tinv_woken t t' n ini :
  length t' = length t →
  (∀ j p, t !! j = Some p → ∃ p', t' !! j = Some p' ∧ p_parent p' = p_parent p ∧
     p_pid p' = p_pid p ∧ p_chan p' = p_chan p ∧
     (p_state p' = p_state p ∨ p_state p = SLEEPING ∧ p_state p' = RUNNABLE)) →
  tinv t n ini → tinv t' n ini.
Proof.
  intros Hlen Hw [Hinit Hused Hpar Hpid Hinj Hnext Hwait].
  assert (∀ j p', t' !! j = Some p' → ∃ p, t !! j = Some p ∧ p_parent p' = p_parent p ∧
     p_pid p' = p_pid p ∧ p_chan p' = p_chan p ∧
     (p_state p' = p_state p ∨ p_state p = SLEEPING ∧ p_state p' = RUNNABLE)) as Hw'.
  { intros j p' Hj. destruct (lookup_lt_is_Some_2 t j) as [p Hp].
    { rewrite <- Hlen. by eapply lookup_lt_Some. }
    exists p. destruct (Hw j p Hp) as (p1 & ? & ?). simplify_eq. done. }
  assert (∀ p p', (p_state p' = p_state p ∨ p_state p = SLEEPING ∧ p_state p' = RUNNABLE) →
    (live p ↔ live p') ∧ (used p ↔ used p')) as Hlu.
  { unfold used, live. intros p p' [->|[-> ->]]; [done|]. split; split; auto. }
  split.
  - destruct Hinit as (k & p & -> & Hp & Hl & Hpp). destruct (Hw k p Hp) as (p' & ? & ? & _ & _ & Hs).
    exists k, p'. split_and!; [done..|by apply (Hlu p p' Hs)|congruence].
  - intros i p' (p & Hp & E1 & E2 & E3 & Hs)%Hw'. destruct (Hused i p Hp) as [?|[Hu Hn]].
    + left. by apply (Hlu p p' Hs).
    + right. destruct Hs as [->|[? _]]; [|congruence]. split; congruence.
  - intros i p' (p & Hp & E1 & E2 & E3 & Hs)%Hw' Hu Hi.
    destruct (Hpar i p Hp) as (q & pq & Hq & Hne & Hpq & Hl); [by apply (Hlu p p' Hs)|done|].
    destruct (Hw q pq Hpq) as (pq' & ? & _ & _ & _ & Hs'). exists q, pq'.
    split_and!; [congruence|done|done|by apply (Hlu pq pq' Hs')].
  - intros i p' (p & Hp & E1 & E2 & E3 & Hs)%Hw' Hu. rewrite E2. apply (Hpid i p Hp).
    by apply (Hlu p p' Hs).
  - intros i j p' q' (p & Hp & E1 & E2 & E3 & Hs)%Hw' (q & Hq & F1 & F2 & F3 & Hs')%Hw' Hu Hu' Heq.
    apply (Hinj i j p q Hp Hq); [by apply (Hlu p p' Hs)|by apply (Hlu q q' Hs')|congruence].
  - done.
  - intros i p' j (p & Hp & E1 & E2 & E3 & Hs)%Hw' Hsl Hc.
    destruct Hs as [Hs|[_ ?]]; [|congruence].
    destruct (Hwait i p j Hp) as [-> Hz]; [congruence..|]. split; [done|].
    intros l q' (q & Hq & F1 & _ & _ & Hs')%Hw' Hpq Hzq. apply (Hz l q Hq); [congruence|].
    destruct Hs' as [<-|[_ ?]]; congruence.
Qed.

(** A live process changes its state or its channel. *)
Lemma tinv_live t n ini i p p' :
  t !! i = Some p → live p → live p' → p_parent p' = p_parent p → p_pid p' = p_pid p →
  (∀ j, p_state p' = SLEEPING → p_chan p' = ProcChan j → j = i ∧ no_zombie t i) →
  tinv t n ini → tinv (<[i := p']> t) n ini.
Proof.
  intros Hp Hl Hl' Epar Epid Hsl [Hinit Hused Hpar Hpid Hinj Hnext Hwait].
  pose proof (lookup_lt_Some _ _ _ Hp) as Hlt.
  assert (∀ j q', <[i := p']> t !! j = Some q' → ∃ q, t !! j = Some q ∧
    p_parent q' = p_parent q ∧ p_pid q' = p_pid q ∧ (live q ↔ live q') ∧ (used q ↔ used q') ∧
    (p_state q' = ZOMBIE ↔ p_state q = ZOMBIE) ∧ (q' = q ∨ j = i ∧ q' = p')) as Hb.
  { intros j q' Hj. destruct (decide (j = i)) as [->|Hne].
    - rewrite list_lookup_insert_eq in Hj by done. simplify_eq. exists p. unfold used.
      split_and!; [done..|tauto|tauto| |by right]. unfold live in *.
      split; intros; exfalso; destruct Hl as [?|[?|?]], Hl' as [?|[?|?]]; congruence.
    - rewrite list_lookup_insert_ne in Hj by done. exists q'. split_and!; [done..|by left]. }
  assert (∀ j q, t !! j = Some q → ∃ q', <[i := p']> t !! j = Some q' ∧
    p_parent q' = p_parent q ∧ (live q → live q')) as Hf.
  { intros j q Hj. destruct (decide (j = i)) as [->|Hne].
    - exists p'. rewrite list_lookup_insert_eq by done. simplify_eq. done.
    - exists q. by rewrite list_lookup_insert_ne. }
  assert (∀ k, no_zombie t k → no_zombie (<[i := p']> t) k) as Hnz.
  { intros k Hz j q' (q & Hq & E1 & _ & _ & _ & Ez & _)%Hb Hpq. rewrite Ez. apply (Hz j q Hq). congruence. }
  split.
  - destruct Hinit as (k & q & -> & Hq & Hlq & Hpp). destruct (Hf k q Hq) as (q' & ? & ? & ?).
    exists k, q'. split_and!; auto. congruence.
  - intros j q' (q & Hq & E1 & E2 & E3 & E4 & E5 & E6)%Hb. destruct (Hused j q Hq) as [?|[? ?]]; [tauto|].
    destruct E6 as [->|[-> ->]]; [tauto|]. left. by left.
  - intros j q' (q & Hq & E1 & E2 & E3 & E4 & _)%Hb Hu Hi.
    destruct (Hpar j q Hq) as (r & pr & ? & ? & Hr & ?); [tauto|done|].
    destruct (Hf r pr Hr) as (pr' & ? & _ & ?). exists r, pr'. split_and!; auto. congruence.
  - intros j q' (q & Hq & E1 & E2 & E3 & E4 & _)%Hb Hu. rewrite E2. apply (Hpid j q Hq). tauto.
  - intros j k q' r' (q & Hq & _ & E2 & _ & E4 & _)%Hb (r & Hr & _ & F2 & _ & F4 & _)%Hb Hu Hu' Heq.
    apply (Hinj j k q r Hq Hr); [tauto|tauto|congruence].
  - done.
  - intros j q' k (q & Hq & _ & _ & _ & _ & _ & [->|[-> ->]])%Hb Hs Hc.
    + destruct (Hwait j q k Hq Hs Hc) as [-> Hz]. auto.
    + destruct (Hsl k Hs Hc) as [-> Hz]. auto.
Qed.

Lemma used_not_unused p : used p → p_state p ≠ UNUSED.
Proof. unfold used, live. intros [[?|[?|?]]|?]; congruence. Qed.

(** A slot that nobody refers to changes: a child appears, a zombie goes, or
    an unused slot is touched. *)
Lemma tinv_slot t n n' ini i p p' :
  t !! i = Some p → ¬ live p → n ≤ n' < 2 ^ 31 →
  (p_state p' = UNUSED ∧ p_parent p' = None ∨
   n < n' ∧ p_state p' = RUNNABLE ∧ p_pid p' = n ∧
     ∃ q pq, p_parent p' = Some q ∧ q ≠ i ∧ t !! q = Some pq ∧ live pq) →
  tinv t n ini → tinv (<[i := p']> t) n' ini.
Proof.
  intros Hp Hl Hn Hp' [Hinit Hused Hpar Hpid Hinj Hnext Hwait].
  pose proof (lookup_lt_Some _ _ _ Hp) as Hlt.
  assert (∀ j q, j ≠ i → <[i := p']> t !! j = Some q ↔ t !! j = Some q) as Hne.
  { intros j q Hj. by rewrite list_lookup_insert_ne. }
  assert (∀ j q, t !! j = Some q → live q → j ≠ i) as Hli by congruence.
  assert (p_state p' ≠ ZOMBIE ∧ p_state p' ≠ SLEEPING) as [Hz' Hs'] by (naive_solver congruence).
  assert (∀ k, no_zombie t k → no_zombie (<[i := p']> t) k) as Hnz.
  { intros k Hz j q Hj Hpq. destruct (decide (j = i)) as [->|Hji].
    - rewrite list_lookup_insert_eq in Hj by done. congruence.
    - apply Hne in Hj; eauto. }
  split.
  - destruct Hinit as (k & q & -> & Hq & Hlq & ?). exists k, q. split_and!; try done.
    apply Hne; eauto.
  - intros j q Hj. destruct (decide (j = i)) as [->|Hji]; [|apply Hne in Hj; eauto].
    rewrite list_lookup_insert_eq in Hj by done. injection Hj as <-.
    destruct Hp' as [?|(_ & ? & _)]; [by right|]. left. left. unfold live. auto.
  - intros j q Hj Hu Hi. destruct (decide (j = i)) as [->|Hji].
    + rewrite list_lookup_insert_eq in Hj by done. injection Hj as <-.
      destruct Hp' as [[? _]|(_ & _ & _ & r & pr & ? & ? & Hr & ?)]; [by apply used_not_unused in Hu|].
      exists r, pr. split_and!; try done. by apply Hne.
    + apply Hne in Hj; [|done]. destruct (Hpar j q Hj Hu Hi) as (r & pr & ? & ? & Hr & ?).
      exists r, pr. split_and!; try done. apply Hne; eauto.
  - intros j q Hj Hu. destruct (decide (j = i)) as [->|Hji].
    + rewrite list_lookup_insert_eq in Hj by done. injection Hj as <-.
      destruct Hp' as [[? _]|(? & _ & -> & _)]; [by apply used_not_unused in Hu|lia].
    + apply Hne in Hj; [|done]. destruct (Hpid j q Hj Hu). lia.
  - intros j k q r Hj Hk Hu Hu' Heq.
    assert (∀ j q, j ≠ i → <[i := p']> t !! j = Some q → used q → used p' → p_pid q ≠ p_pid p') as Hpne.
    { intros j' q' Hj' Hq'%Hne Huq Hup; [|done]. destruct (Hpid j' q' Hq' Huq).
      destruct Hp' as [[? _]|(? & _ & -> & _)]; [by apply used_not_unused in Hup|lia]. }
    destruct (decide (j = i)) as [->|Hji], (decide (k = i)) as [->|Hki]; [done|..].
    + rewrite list_lookup_insert_eq in Hj by done. injection Hj as <-.
      destruct (Hpne k r Hki Hk Hu' Hu). done.
    + rewrite list_lookup_insert_eq in Hk by done. injection Hk as <-.
      destruct (Hpne j q Hji Hj Hu Hu'). done.
    + apply Hne in Hj, Hk; eauto.
  - lia.
  - intros j q k Hj Hs Hc. destruct (decide (j = i)) as [->|Hji].
    + rewrite list_lookup_insert_eq in Hj by done. congruence.
    + apply Hne in Hj; [|done]. destruct (Hwait j q k Hj Hs Hc). auto.
Qed.

Lemma tinv_exit s cur k p s' :
  tinv (ptable s) (nextpid s) (initproc s) → ptable s !! cur = Some p → p_state p = RUNNING →
  initproc s = Some k → k ≠ cur → exited s cur k p s' →
  tinv (ptable s') (nextpid s') (initproc s').
Proof.
  intros [Hinit Hused Hpar Hpid Hinj Hnext Hwait] Hp Hrun Hk Hkc
    [En Ei Hlen Hoth (p' & Hp' & Hz' & Epar & Epid & _) Hpw Horph].
  rewrite En, Ei.
  assert (∀ j q', j ≠ cur → ptable s' !! j = Some q' → ∃ q, ptable s !! j = Some q ∧ after_exit cur k q q') as Hb.
  { intros j q' Hj Hq'. destruct (lookup_lt_is_Some_2 (ptable s) j) as [q Hq].
    { rewrite <- Hlen. by eapply lookup_lt_Some. }
    exists q. destruct (Hoth j q Hj Hq) as (q1 & ? & ?). simplify_eq. done. }
  assert (∀ q q', after_exit cur k q q' → (live q ↔ live q') ∧ (used q ↔ used q')) as Hlu.
  { unfold used, live. intros q q' (_ & _ & _ & _ & [->|[-> ->]]); [done|]. split; split; auto. }
  assert (used p) as Hup by (left; unfold live; auto).
  assert (used p') as Hup' by (by right).
  split.
  - destruct Hinit as (k' & q & Hk' & Hq & Hl & Hpp). assert (k' = k) as -> by congruence.
    destruct (Hoth k q Hkc Hq) as (q' & Hq' & Ha). exists k, q'. split_and!; try done.
    + by apply (Hlu q q' Ha).
    + destruct Ha as (-> & _). rewrite Hpp. by rewrite decide_False.
  - intros j q' Hq'. destruct (decide (j = cur)) as [->|Hj]; [left; congruence|].
    destruct (Hb j q' Hj Hq') as (q & Hq & Ha). destruct (Hused j q Hq) as [?|[Hu Hn]].
    + left. by apply (Hlu q q' Ha).
    + right. destruct Ha as (-> & _ & _ & _ & [->|[? _]]); [|congruence].
      rewrite Hn. by rewrite decide_False.
  - intros j q' Hq' Hu Hi.
    assert (∀ r pr, ptable s !! r = Some pr → live pr → r ≠ cur →
      ∃ pr', ptable s' !! r = Some pr' ∧ live pr') as Hlive.
    { intros r pr Hr Hlr Hrc. destruct (Hoth r pr Hrc Hr) as (pr' & ? & Ha). exists pr'.
      split; [done|]. by apply (Hlu pr pr' Ha). }
    destruct (decide (j = cur)) as [->|Hj].
    + assert (q' = p') as -> by congruence.
      destruct (Hpar cur p Hp Hup Hi) as (r & pr & Er & Hne & Hr & Hlr).
      destruct (Hlive r pr Hr Hlr Hne) as (pr' & ? & ?). exists r, pr'. split_and!; try done. congruence.
    + destruct (Hb j q' Hj Hq') as (q & Hq & Ha). pose proof (Hlu q q' Ha) as [_ Huq].
      destruct Ha as (Epq & _). rewrite Epq. destruct (decide (p_parent q = Some cur)) as [Hc|Hc].
      * destruct Hinit as (k' & pk & Hk' & Hpk & Hl & _). assert (k' = k) as -> by congruence.
        destruct (Hlive k pk Hpk Hl Hkc) as (pk' & ? & ?). exists k, pk'. split_and!; try done. congruence.
      * destruct (Hpar j q Hq (proj2 Huq Hu) Hi) as (r & pr & Er & Hne & Hr & Hlr).
        destruct (Hlive r pr Hr Hlr ltac:(congruence)) as (pr' & ? & ?). exists r, pr'. done.
  - intros j q' Hq' Hu. destruct (decide (j = cur)) as [->|Hj].
    + assert (q' = p') as -> by congruence. rewrite Epid. eauto.
    + destruct (Hb j q' Hj Hq') as (q & Hq & Ha). pose proof (Hlu q q' Ha) as [_ Huq].
      destruct Ha as (_ & -> & _). apply (Hpid j q Hq). tauto.
  - assert (∀ j q', ptable s' !! j = Some q' → used q' →
      ∃ q, ptable s !! j = Some q ∧ used q ∧ p_pid q' = p_pid q) as Hback.
    { intros j q' Hq' Hu. destruct (decide (j = cur)) as [->|Hj].
      - exists p. split_and!; [done..|]. congruence.
      - destruct (Hb j q' Hj Hq') as (q & Hq & Ha). exists q. pose proof (Hlu q q' Ha) as [_ Huq].
        destruct Ha as (_ & ? & _). tauto. }
    intros i j q' r' Hq' Hr' Hu Hu' Heq. destruct (Hback i q' Hq' Hu) as (q & ? & ? & ?).
    destruct (Hback j r' Hr' Hu') as (r & ? & ? & ?). apply (Hinj i j q r); congruence.
  - done.
  - intros i q' j Hq' Hs Hc. assert (i ≠ cur) as Hi by congruence.
    destruct (Hb i q' Hi Hq') as (q & Hq & _ & _ & _ & Ech & Est).
    assert (p_state q = SLEEPING) as Hsq by (destruct Est as [?|[? ?]]; congruence).
    destruct (Hwait i q j Hq Hsq) as [-> Hnz]; [congruence|]. split; [done|].
    intros l r' Hr' Hrp Hrz. destruct (decide (l = cur)) as [->|Hl].
    + assert (r' = p') as -> by congruence. by apply (Hpw i ltac:(congruence) i q' Hq' Hs).
    + destruct (Hb l r' Hl Hr') as (r & Hr & Erp & _ & _ & _ & Ers).
      assert (p_state r = ZOMBIE) as Hrz' by (destruct Ers as [?|[? ?]]; congruence).
      destruct (decide (p_parent r = Some cur)) as [Hrc|Hrc].
      * assert (k = i) as -> by congruence. by apply (Horph l r Hl Hr Hrc Hrz' i q' Hq' Hs).
      * apply (Hnz l r Hr); [congruence|done].
Qed.

(** ** Changes of the processors *)

Lemma runs_insert cpus c x c' i :
  (c < length cpus)%nat →
  runs (<[c := x]> cpus) c' i ↔ c' = c ∧ x = Some i ∨ c' ≠ c ∧ runs cpus c' i.
Proof.
  intros Hc. unfold runs. destruct (decide (c' = c)) as [->|Hne].
  - rewrite list_lookup_insert_eq by done. naive_solver.
  - rewrite list_lookup_insert_ne by done. naive_solver.
Qed.

(** Nobody starts or stops running. *)
Lemma cinv_same t t' cpus :
  length t' = length t →
  (∀ j p, t !! j = Some p → ∃ p', t' !! j = Some p' ∧ (p_state p' = RUNNING ↔ p_state p = RUNNING)) →
  cinv t cpus → cinv t' cpus.
Proof.
  intros Hlen Hs [Hrun Honce Hdom]. split.
  - intros j p' Hj. destruct (lookup_lt_is_Some_2 t j) as [p Hp].
    { rewrite <- Hlen. by eapply lookup_lt_Some. }
    destruct (Hs j p Hp) as (p1 & ? & Heq). simplify_eq. rewrite Heq. by apply Hrun.
  - done.
  - intros c j Hc. destruct (Hdom c j Hc) as [p Hp]. destruct (Hs j p Hp) as (p' & -> & _). eauto.
Qed.

(** Processor [c] stops running [i]. *)
Lemma cinv_stop t t' cpus c i :
  runs cpus c i → length t' = length t →
  (∀ p', t' !! i = Some p' → p_state p' ≠ RUNNING) →
  (∀ j p, j ≠ i → t !! j = Some p → ∃ p', t' !! j = Some p' ∧ (p_state p' = RUNNING ↔ p_state p = RUNNING)) →
  cinv t cpus → cinv t' (<[c := None]> cpus).
Proof.
  intros Hc Hlen Hi Hs [Hrun Honce Hdom]. pose proof (lookup_lt_Some _ _ _ Hc) as Hlt. split.
  - intros j p' Hj. setoid_rewrite (runs_insert cpus c None _ j Hlt). destruct (decide (j = i)) as [->|Hji].
    + split; [intros Hr; by destruct (Hi p' Hj)|]. intros (c' & [[_ ?]|[Hne Hc']]); [done|].
      destruct Hne. by eapply Honce.
    + destruct (lookup_lt_is_Some_2 t j) as [p Hp].
      { rewrite <- Hlen. by eapply lookup_lt_Some. }
      destruct (Hs j p Hji Hp) as (p1 & ? & Heq). simplify_eq. rewrite Heq, (Hrun j p Hp). split.
      * intros (c' & Hc'). exists c'. right. split; [|done]. intros ->. unfold runs in *. congruence.
      * intros (c' & [[_ ?]|[_ Hc']]); [done|eauto].
  - intros c1 c2 j H1 H2. rewrite (runs_insert _ _ _ _ _ Hlt) in H1.
    rewrite (runs_insert _ _ _ _ _ Hlt) in H2. naive_solver.
  - intros c' j Hc'. rewrite (runs_insert _ _ _ _ _ Hlt) in Hc'.
    destruct Hc' as [[_ ?]|[_ Hc']]; [done|]. destruct (Hdom c' j Hc') as [p Hp].
    apply lookup_lt_is_Some. rewrite Hlen. by eapply lookup_lt_Some.
Qed.

(** An idle processor [c] starts running [i]. *)
Lemma cinv_start t cpus c i p p' :
  cpus !! c = Some None → t !! i = Some p → p_state p ≠ RUNNING → p_state p' = RUNNING →
  cinv t cpus → cinv (<[i := p']> t) (<[c := Some i]> cpus).
Proof.
  intros Hc Hp Hnr Hr [Hrun Honce Hdom]. pose proof (lookup_lt_Some _ _ _ Hc) as Hlt.
  pose proof (lookup_lt_Some _ _ _ Hp) as Hlti.
  assert (∀ c', ¬ runs cpus c' i) as Hno.
  { intros c' Hc'. apply Hnr, (Hrun i p Hp). eauto. }
  split.
  - intros j q Hj. setoid_rewrite (runs_insert cpus c (Some i) _ j Hlt). destruct (decide (j = i)) as [->|Hji].
    + rewrite list_lookup_insert_eq in Hj by done. injection Hj as <-. split; [|done]. intros _. exists c. by left.
    + rewrite list_lookup_insert_ne in Hj by done. rewrite (Hrun j q Hj). split.
      * intros (c' & Hc'). exists c'. right. split; [|done]. intros ->. unfold runs in *. congruence.
      * intros (c' & [[_ ?]|[_ Hc']]); [congruence|eauto].
  - intros c1 c2 j H1 H2. rewrite (runs_insert _ _ _ _ _ Hlt) in H1.
    rewrite (runs_insert _ _ _ _ _ Hlt) in H2.
    destruct H1 as [[-> E1]|[? H1]], H2 as [[-> E2]|[? H2]]; [done|..|by eapply Honce].
    + injection E1 as ->. by destruct (Hno c2).
    + injection E2 as ->. by destruct (Hno c1).
  - intros c' j Hc'. rewrite (runs_insert _ _ _ _ _ Hlt) in Hc'. apply lookup_lt_is_Some.
    rewrite length_insert. destruct Hc' as [[_ [= ->]]|[_ Hc']]; [done|].
    destruct (Hdom c' j Hc') as [q Hq]. by eapply lookup_lt_Some.
Qed.

Lemma same_running_insert t i p p' :
  t !! i = Some p → (p_state p' = RUNNING ↔ p_state p = RUNNING) →
  ∀ j q, t !! j = Some q → ∃ q', <[i := p']> t !! j = Some q' ∧ (p_state q' = RUNNING ↔ p_state q = RUNNING).
Proof.
  intros Hp Hs j q Hq. pose proof (lookup_lt_Some _ _ _ Hp). destruct (decide (j = i)) as [->|Hne].
  - exists p'. rewrite list_lookup_insert_eq by done. by simplify_eq.
  - exists q. by rewrite list_lookup_insert_ne.
Qed.

(** A process that runs is in the table and is running. *)
Lemma sinv_runs c i s cpus :
  sinv (SConf s cpus) → runs cpus c i → ∃ p, ptable s !! i = Some p ∧ p_state p = RUNNING.
Proof.
  intros [_ Hc] Hr. destruct (ci_dom _ _ Hc c i Hr) as [p Hp]. exists p. split; [done|].
  apply (ci_running _ _ Hc i p Hp). eauto.
Qed.

Lemma live_running p : p_state p = RUNNING → live p.
Proof. unfold live. auto. Qed.

(** ** The steps *)

Lemma sched_sinv s cpus c from i s' :
  sinv (SConf s cpus) → cpus !! c = Some None → scheduler from s = Ok (Some i) s' →
  sinv (SConf s' (<[c := Some i]> cpus)).
Proof.
  intros [Ht Hc] Hidle H. apply scheduler_inv in H as (En & Ei & p & Hp & Hr & Et).
  split; cbn [sc_s sc_cpus] in *; rewrite Et, ?En, ?Ei.
  - apply (tinv_live _ _ _ i p); try done; unfold live; simpl; auto.
  - eapply cinv_start; [done|done|congruence|done|done].
Qed.

(** A running process gives up its processor and stays alive. *)
Lemma giveup_sinv s cpus c i p p' s' :
  sinv (SConf s cpus) → runs cpus c i → ptable s !! i = Some p → p_state p = RUNNING →
  live p' → p_state p' ≠ RUNNING → p_parent p' = p_parent p → p_pid p' = p_pid p →
  (∀ j, p_state p' = SLEEPING → p_chan p' = ProcChan j → j = i ∧ no_zombie (ptable s) i) →
  ptable s' = <[i := p']> (ptable s) → nextpid s' = nextpid s → initproc s' = initproc s →
  sinv (SConf s' (<[c := None]> cpus)).
Proof.
  intros [Ht Hc] Hr Hp Hrun Hl Hnr Epar Epid Hsl Et En Ei.
  pose proof (lookup_lt_Some _ _ _ Hp) as Hlt.
  split; cbn [sc_s sc_cpus] in *; rewrite Et, ?En, ?Ei.
  - eapply (tinv_live _ _ _ i p); try done. by apply live_running.
  - eapply cinv_stop; [done|by rewrite length_insert| | |done].
    + intros q. rewrite list_lookup_insert_eq by done. congruence.
    + intros j q Hj Hq. exists q. by rewrite list_lookup_insert_ne.
Qed.

Lemma wakeup_sinv s cpus a s' :
  sinv (SConf s cpus) → wakeup (Chan a) s = Ok tt s' → sinv (SConf s' cpus).
Proof.
  intros [Ht Hc] H. injection H as <-. split; cbn [sc_s sc_cpus ptable nextpid initproc] in *.
  - eapply tinv_woken; [by rewrite length_fmap| |done]. intros j p Hp.
    exists (wake (Chan a) p). rewrite list_lookup_fmap, Hp. split; [done|].
    destruct (woken_keeps p (wake (Chan a) p)) as (? & ? & ? & ? & ?); [by apply woken_wake; left|]. done.
  - eapply cinv_same; [by rewrite length_fmap| |done]. intros j p Hp.
    exists (wake (Chan a) p). rewrite list_lookup_fmap, Hp. split; [done|].
    destruct (wake_state (Chan a) p) as [[-> _]|(-> & Hs & _)]; [done|]. simpl. rewrite Hs. done.
Qed.

Lemma kill_sinv s cpus pid z s' :
  sinv (SConf s cpus) → kill pid s = Ok z s' → sinv (SConf s' cpus).
Proof.
  intros [Ht Hc] H. apply kill_inv in H as (En & Ei & [[_ ->]|(_ & i & p & Hp & _ & Et)]); [done|].
  pose proof (lookup_lt_Some _ _ _ Hp) as Hlt.
  split; cbn [sc_s sc_cpus] in *; rewrite Et, ?En, ?Ei.
  - eapply tinv_woken; [by rewrite length_insert| |done]. intros j q Hq.
    destruct (decide (j = i)) as [->|Hne]; [|exists q; rewrite list_lookup_insert_ne by done; auto 10].
    eexists. rewrite list_lookup_insert_eq by done. split; [done|]. assert (q = p) as -> by congruence.
    destruct (decide (p_state p = SLEEPING)); simpl; auto 10.
  - eapply cinv_same; [by rewrite length_insert|eapply same_running_insert; [done|]|done].
    destruct (decide (p_state p = SLEEPING)) as [Hs|]; simpl; [rewrite Hs|]; done.
Qed.

Lemma fork_sinv s cpus c i z s' :
  sinv (SConf s cpus) → runs cpus c i → nextpid s + 1 < 2 ^ 31 → fork i s = Ok z s' →
  sinv (SConf s' cpus).
Proof.
  intros Hinv Hr Hn H. destruct (sinv_runs _ _ _ _ Hinv Hr) as (p & Hp & Hrun).
  destruct Hinv as [Ht Hc]; cbn [sc_s sc_cpus] in *. pose proof (ti_next _ _ _ Ht).
  apply (fork_inv _ _ _ _ p) in H as [Ei H]; [|done|congruence].
  assert (∀ q, p_state q = UNUSED → ¬ live q) as Hul by (unfold live; intros ? -> [?|[?|?]]; done).
  assert (s32 (nextpid s + 1) = nextpid s + 1) as E32 by (apply s32_small; lia).
  destruct H as [[_ [[Et En]|(j & q & q' & Hq & Hu & (Hu' & Hpar & _) & Et & En)]]|
    (j & q & p0 & ch & Hq & Hu & Hne & Hp0 & Et & En & _ & Epid & Hst & Epar & _)];
    split; cbn [sc_s sc_cpus]; rewrite ?Et, ?En, ?Ei, ?E32; try done.
  - eapply (tinv_slot _ (nextpid s)); [done|auto|lia| |done]. left. split; [done|]. rewrite Hpar.
    destruct (ti_used _ _ _ Ht j q Hq) as [Huq|[_ ?]]; [by apply used_not_unused in Huq|done].
  - eapply cinv_same; [by rewrite length_insert|eapply same_running_insert; [done|split; congruence]|done].
  - eapply (tinv_slot _ (nextpid s)); [done|auto|lia| |done]. right. split_and!; [lia|done|done|].
    exists i, p. split_and!; try done. by apply live_running.
  - eapply cinv_same; [by rewrite length_insert|eapply same_running_insert; [done|split; congruence]|done].
Qed.

Lemma exit_sinv s cpus c i s' :
  sinv (SConf s cpus) → runs cpus c i → exit i s = Ok tt s' → sinv (SConf s' (<[c := None]> cpus)).
Proof.
  intros Hinv Hr H. destruct (sinv_runs _ _ _ _ Hinv Hr) as (p & Hp & Hrun).
  destruct Hinv as [Ht Hc]; cbn [sc_s sc_cpus] in *.
  destruct (ti_init _ _ _ Ht) as (k & pk & Hk & Hpk & Hlk & Hnone).
  destruct (exit_inv s i k p tt s' Hp Hk) as [Hne Hex]; [|done|done|].
  { intros Hpi. destruct (decide (initproc s = Some i)) as [Hi|Hi]; [congruence|].
    destruct (ti_parent _ _ _ Ht i p Hp) as (q & pq & ? & ? & _); [by left; apply live_running|done|congruence]. }
  split; cbn [sc_s sc_cpus].
  - exact (tinv_exit s i k p s' Ht Hp Hrun Hk Hne Hex).
  - eapply cinv_stop; [done|apply Hex| | |done].
    + intros p'. destruct (ex_self _ _ _ _ _ Hex) as (p1 & Hp1 & Hz & _). congruence.
    + intros j q Hj Hq. destruct (ex_others _ _ _ _ _ Hex j q Hj Hq) as (q' & Hq' & _ & _ & _ & _ & Hs).
      exists q'. split; [done|]. destruct Hs as [->|[-> ->]]; [done|]. done.
Qed.

Lemma wait_sinv s cpus c i r s' :
  sinv (SConf s cpus) → runs cpus c i → wait i s = Ok r s' →
  sinv (SConf s' (match r with WaitReturn _ => cpus | WaitSleep => <[c := None]> cpus end)).
Proof.
  intros Hinv Hr H. destruct (sinv_runs _ _ _ _ Hinv Hr) as (p & Hp & Hrun).
  destruct (wait_inv _ _ p _ _ Hp H) as (En & Ei & H'). clear H. destruct r as [z|].
  - destruct H' as [(_ & -> & _)|(j & q & q' & Hq & Hpar & Hz & _ & (Hu' & Hn' & _) & Et)]; [done|].
    destruct Hinv as [Ht Hc]; cbn [sc_s sc_cpus] in *.
    split; cbn [sc_s sc_cpus]; rewrite Et, ?En, ?Ei.
    + pose proof (ti_next _ _ _ Ht). eapply (tinv_slot _ (nextpid s)); [done| |lia|by left|done].
      unfold live. rewrite Hz. intros [?|[?|?]]; done.
    + eapply cinv_same; [by rewrite length_insert|eapply same_running_insert; [done|split; congruence]|done].
  - destruct H' as (Hnz & _ & _ & Et). eapply (giveup_sinv s cpus c i p (set_state SLEEPING (set_chan (ProcChan i) p))); try done.
    + unfold live. simpl. auto.
    + intros j _ [= ->]. done.
Qed.

Lemma sstep_sinv c c' : sstep c c' → sinv c → sinv c'.
Proof.
  intros Hs Hinv. destruct Hs as [s cpus c from i s' H1 H2|s cpus c i s' Hr H|s cpus c i a s' Hr H
    |s cpus a s' H|s cpus pid z s' H|s cpus c i z s' Hr Hn H|s cpus c i s' Hr H|s cpus c i z s' Hr H
    |s cpus c i s' Hr H].
  - by eapply sched_sinv.
  - destruct (sinv_runs _ _ _ _ Hinv Hr) as (p & Hp & Hrun).
    apply (yield_inv _ _ _ _ p Hp) in H as ->.
    eapply (giveup_sinv s cpus c i p (set_state RUNNABLE p)); try done. unfold live. simpl. auto.
  - destruct (sinv_runs _ _ _ _ Hinv Hr) as (p & Hp & Hrun).
    apply (sleep_on_inv _ _ _ _ _ p Hp) in H as ->.
    eapply (giveup_sinv s cpus c i p (set_state SLEEPING (set_chan (Chan a) p))); try done.
    unfold live. simpl. auto.
  - by eapply wakeup_sinv.
  - by eapply kill_sinv.
  - by eapply fork_sinv.
  - by eapply exit_sinv.
  - exact (wait_sinv _ _ _ _ _ _ Hinv Hr H).
  - exact (wait_sinv _ _ _ _ _ _ Hinv Hr H).
Qed.

(** userinit makes one runnable process, which has no parent. *)
Lemma userinit_inv s s' u :
  userinit s = Ok u s' →
  ∃ i p p', ptable s !! i = Some p ∧ p_state p = UNUSED ∧ initproc s' = Some i ∧
    nextpid s' = s32 (nextpid s + 1) ∧ ptable s' = <[i := p']> (ptable s) ∧
    p_state p' = RUNNABLE ∧ p_parent p' = p_parent p ∧ p_pid p' = nextpid s.
Proof.
  intros H. unfold userinit in H. apply bind_ok_inv in H as (r & s1 & Ha & H).
  apply allocproc_inv in Ha as [Ei Ha]. rewrite bind_modify in H. cbn [ptable nextpid initproc env] in H.
  destruct r as [i|]; [|done]. destruct Ha as (p & k & Hp & Hu & Hk & Et & En).
  pose proof (lookup_lt_Some _ _ _ Hp) as Hlt.
  apply bind_env_inv in H as (pg & e & _ & H). rewrite bind_upd in H. cbn [ptable nextpid initproc env] in H.
  destruct (pg =? 0); [done|].
  apply bind_env_inv in H as ([] & e1 & _ & H). rewrite bind_upd in H. cbn [ptable nextpid initproc env] in H.
  apply bind_env_inv in H as (cwd & e2 & _ & H). rewrite bind_upd in H. cbn [ptable nextpid initproc env] in H.
  injection H as _ <-. cbn [ptable nextpid initproc env]. rewrite Et, !alter_insert by done.
  eexists i, p, _. split_and!; [done..|reflexivity| | |]; done.
Qed.

Lemma sinitial_sinv c : sinitial c → sinv c.
Proof.
  intros (e & H & Hc). apply userinit_inv in H as (i & p & p' & Hp & Hu & Ei & En & Et & Hst & Hpar & Hpid).
  cbn [ptable nextpid] in *. apply lookup_replicate in Hp as [-> Hlt].
  assert (∀ j q, ptable (sc_s c) !! j = Some q → j = i ∧ q = p' ∨ j ≠ i ∧ q = zero_proc) as Hb.
  { intros j q. rewrite Et. destruct (decide (j = i)) as [->|Hne].
    - rewrite list_lookup_insert_eq by (by rewrite length_replicate). naive_solver.
    - rewrite list_lookup_insert_ne by done. intros [-> _]%lookup_replicate. auto. }
  assert (ptable (sc_s c) !! i = Some p') as Hi.
  { rewrite Et. apply list_lookup_insert_eq. by rewrite length_replicate. }
  assert (∀ q, q = zero_proc → ¬ used q) as Hnu by (intros q -> Hq; by apply used_not_unused in Hq).
  assert (live p') as Hl by (unfold live; auto).
  split.
  - rewrite Ei, En. change (s32 (1 + 1)) with 2. split.
    + exists i, p'. split_and!; try done.
    + intros j q [[-> ->]|[_ ->]]%Hb; [left; by left|right; done].
    + intros j q [[-> ->]|[_ ->]]%Hb Hq; [done|by apply Hnu in Hq].
    + intros j q [[-> ->]|[_ ->]]%Hb Hq; [rewrite Hpid; lia|by apply Hnu in Hq].
    + intros j k q r [[-> ->]|[_ ->]]%Hb [[-> ->]|[_ ->]]%Hb Hq Hr; try done;
        first [by apply Hnu in Hq | by apply Hnu in Hr].
    + lia.
    + intros j q k [[-> ->]|[_ ->]]%Hb Hs; [congruence|done].
  - rewrite Forall_lookup in Hc. split.
    + intros j q Hq. split.
      * apply Hb in Hq as [[-> ->]|[_ ->]]; [congruence|done].
      * intros (c' & Hr). by apply Hc in Hr.
    + intros c1 c2 j H1. by apply Hc in H1.
    + intros c1 j H1. by apply Hc in H1.
Qed.

Lemma sreachable_sinv c : sreachable c → sinv c.
Proof.
  intros (c0 & Hi & Hr). apply sinitial_sinv in Hi. induction Hr; eauto using sstep_sinv.
Qed.

(** C23: scheduling and the process tree are sound.  However processes fork,
    exit, wait, sleep, are woken, killed and scheduled on any number of
    processors: a process is RUNNING exactly when one processor runs it, and
    never two; live processes and zombies have distinct pids; and each of
    them but the first has a parent that is alive. *)
Theorem process_table_sound s cpus :
  sreachable (SConf s cpus) →
  (∀ i p, ptable s !! i = Some p →
     p_state p = RUNNING ↔ ∃ c, runs cpus c i ∧ ∀ c', runs cpus c' i → c' = c) ∧
  (∀ i j p q, ptable s !! i = Some p → ptable s !! j = Some q → used p → used q →
     p_pid p = p_pid q → i = j) ∧
  (∀ i p, ptable s !! i = Some p → used p → initproc s ≠ Some i →
     ∃ q pq, p_parent p = Some q ∧ ptable s !! q = Some pq ∧ live pq).
Proof.
  intros [Ht Hc]%sreachable_sinv. cbn [sc_s sc_cpus] in *. split_and!.
  - intros i p Hp. rewrite (ci_running _ _ Hc i p Hp). split.
    + intros (c & Hr). exists c. split; [done|]. intros c' Hr'. by eapply (ci_once _ _ Hc).
    + intros (c & Hr & _). eauto.
  - apply Ht.
  - intros i p Hp Hu Hi. destruct (ti_parent _ _ _ Ht i p Hp Hu Hi) as (q & pq & ? & _ & ? & ?). eauto.
Qed.

(** ** Open files of processes that are gone *)

(** A slot without a live process holds no open files. *)
Definition finv (t : list proc) : Prop :=
  ∀ i p, t !! i = Some p →
    length (p_ofile p) = Z.to_nat NOFILE ∧ (¬ live p → p_ofile p = replicate (Z.to_nat NOFILE) 0).

Lemma finv_insert t i p' :
  finv t → length (p_ofile p') = Z.to_nat NOFILE →
  (¬ live p' → p_ofile p' = replicate (Z.to_nat NOFILE) 0) → finv (<[i := p']> t).
Proof.
  intros Hf Hl Hz j q Hj. apply list_lookup_insert_Some in Hj as [(_ & <- & _)|[_ Hj]]; [done|by apply Hf in Hj].
Qed.

(** A change that keeps the open files, and after which no process is gone
    that was there before. *)
Lemma finv_same t t' :
  finv t → (∀ j q', t' !! j = Some q' → ∃ q, t !! j = Some q ∧ p_ofile q' = p_ofile q ∧ (live q → live q')) → finv t'.
Proof.
  intros Hf Hs j q' Hj. destruct (Hs j q' Hj) as (q & Hq & Eo & Hl). destruct (Hf j q Hq) as [H1 H2]. rewrite Eo.
  split; [done|]. intros Hn. apply H2. tauto.
Qed.

Lemma finv_exit s cpus c i s' :
  sinv (SConf s cpus) → finv (ptable s) → runs cpus c i → exit i s = Ok tt s' → finv (ptable s').
Proof.
  intros Hinv Hf Hr H. destruct (sinv_runs _ _ _ _ Hinv Hr) as (p & Hp & Hrun).
  destruct Hinv as [Ht Hc]; cbn [sc_s sc_cpus] in *.
  destruct (ti_init _ _ _ Ht) as (k & pk & Hk & Hpk & Hlk & Hnone).
  pose proof (exit_files _ _ _ _ _ _ Hp Hk H) as Hfs.
  destruct (exit_inv s i k p tt s' Hp Hk) as [Hne Hex]; [|done|done|].
  { intros Hpi. destruct (decide (initproc s = Some i)) as [Hi|Hi]; [congruence|].
    destruct (ti_parent _ _ _ Ht i p Hp) as (q & pq & ? & ? & _); [by left; apply live_running|done|congruence]. }
  assert (∀ j q', ptable s' !! j = Some q' → <[i := replicate (length (p_ofile p)) 0]> (files s) !! j = Some (p_ofile q')) as Ho.
  { intros j q' Hj. rewrite <- Hfs. unfold files. by rewrite list_lookup_fmap, Hj. }
  intros j q' Hj. specialize (Ho j q' Hj). destruct (Hf i p Hp) as [Hlen _]. rewrite Hlen in Ho.
  apply list_lookup_insert_Some in Ho as [(<- & <- & _)|[Hji Ho]]; [by rewrite length_replicate|].
  unfold files in Ho. rewrite list_lookup_fmap in Ho. destruct (ptable s !! j) as [q|] eqn:Hq; [|done]. injection Ho as Ho.
  destruct (ex_others _ _ _ _ _ Hex j q ltac:(congruence) Hq) as (q1 & Hq1 & _ & _ & _ & _ & Hst).
  assert (q1 = q') as -> by congruence. rewrite <- Ho. destruct (Hf j q Hq) as [H1 H2]. split; [done|]. intros Hn. apply H2.
  intros Hl. apply Hn. unfold live in *. destruct Hst as [->|[_ ->]]; auto.
Qed.

Lemma finv_fork s i p z s' :
  finv (ptable s) → ptable s !! i = Some p → p_state p = RUNNING → fork i s = Ok z s' → finv (ptable s').
Proof.
  intros Hf Hp Hrun H. apply (fork_inv _ _ _ _ p) in H as [_ H]; [|done|congruence].
  assert (∀ q, p_state q = UNUSED → ¬ live q) as Hul by (unfold live; intros ? -> [?|[?|?]]; done).
  destruct H as [[_ [[-> _]|(j & q & q' & Hq & Hu & (Hu' & _ & _ & Eo) & -> & _)]]|
    (j & q & p0 & ch & Hq & Hu & _ & _ & -> & _ & _ & _ & Hst & _ & _ & _ & _ & Eo)]; [done|..];
    destruct (Hf j q Hq) as [H1 H2]; apply finv_insert; try done; try congruence.
  - intros _. rewrite Eo. auto.
  - intros Hn. destruct Hn. unfold live. auto.
Qed.

Lemma sstep_finv c c' : sstep c c' → sinv c → finv (ptable (sc_s c)) → finv (ptable (sc_s c')).
Proof.
  intros Hs Hinv Hf. destruct Hs as [s cpus c from i s' H1 H|s cpus c i s' Hr H|s cpus c i a s' Hr H
    |s cpus a s' H|s cpus pid z s' H|s cpus c i z s' Hr Hn H|s cpus c i s' Hr H|s cpus c i z s' Hr H
    |s cpus c i s' Hr H]; cbn [sc_s] in *.
  - apply scheduler_inv in H as (_ & _ & p & Hp & _ & ->). destruct (Hf i p Hp) as [Hl _].
    apply finv_insert; [done|done|]. intros Hn. destruct Hn. unfold live. auto.
  - destruct (sinv_runs _ _ _ _ Hinv Hr) as (p & Hp & _). apply (yield_inv _ _ _ _ p Hp) in H as ->.
    destruct (Hf i p Hp) as [Hl _]. apply finv_insert; [done|done|]. intros Hn. destruct Hn. unfold live. auto.
  - destruct (sinv_runs _ _ _ _ Hinv Hr) as (p & Hp & _). apply (sleep_on_inv _ _ _ _ _ p Hp) in H as ->.
    destruct (Hf i p Hp) as [Hl _]. apply finv_insert; [done|done|]. intros Hn. destruct Hn. unfold live. auto.
  - injection H as <-. apply (finv_same (ptable s)); [done|]. intros j q'. cbn [ptable]. rewrite list_lookup_fmap.
    destruct (ptable s !! j) as [q|]; [|done]. intros [= <-]. exists q. split; [done|]. split; [apply wake_ofile|].
    destruct (wake_state (Chan a) q) as [[-> _]|(-> & _)]; [done|]. unfold live. auto.
  - apply kill_inv in H as (_ & _ & [[_ ->]|(_ & i & p & Hp & _ & ->)]); [done|]. destruct (Hf i p Hp) as [Hl Hz].
    apply finv_insert; [done|by destruct (decide _)|]. destruct (decide (p_state p = SLEEPING)).
    + intros Hn. destruct Hn. unfold live. auto.
    + exact Hz.
  - destruct (sinv_runs _ _ _ _ Hinv Hr) as (p & Hp & Hrun). by eapply finv_fork.
  - by eapply finv_exit.
  - destruct (sinv_runs _ _ _ _ Hinv Hr) as (p & Hp & _). destruct (wait_inv _ _ p _ _ Hp H) as (_ & _ & H').
    destruct H' as [(_ & -> & _)|(j & q & q' & Hq & _ & Hz & _ & (_ & _ & _ & _ & _ & Eo) & ->)]; [done|].
    destruct (Hf j q Hq) as [Hl Hzf]. apply finv_insert; [done|congruence|]. intros _. rewrite Eo. apply Hzf.
    unfold live. rewrite Hz. intros [?|[?|?]]; done.
  - destruct (sinv_runs _ _ _ _ Hinv Hr) as (p & Hp & _). destruct (wait_inv _ _ p _ _ Hp H) as (_ & _ & _ & _ & _ & ->).
    destruct (Hf i p Hp) as [Hl _]. apply finv_insert; [done|done|]. intros Hn. destruct Hn. unfold live. auto.
Qed.

Lemma sreachable_finv c : sreachable c → finv (ptable (sc_s c)).
Proof.
  intros (c0 & Hi & Hr). pose proof (sinitial_sinv _ Hi) as Hs. assert (finv (ptable (sc_s c0))) as Hf.
  { destruct Hi as (e & H & _). unfold userinit in H. apply bind_ok_inv in H as (r & s1 & Ha & H).
    apply allocproc_inv in Ha as [_ Ha]. rewrite bind_modify in H. cbn [ptable nextpid initproc env] in H.
    destruct r as [i|]; [|done]. destruct Ha as (p & k & Hp & Hu & _ & Et & _).
    pose proof (lookup_lt_Some _ _ _ Hp) as Hlt. apply lookup_replicate in Hp as [-> _].
    apply bind_env_inv in H as (pg & e0 & _ & H). rewrite bind_upd in H. cbn [ptable nextpid initproc env] in H.
    destruct (pg =? 0); [done|].
    apply bind_env_inv in H as ([] & e1 & _ & H). rewrite bind_upd in H. cbn [ptable nextpid initproc env] in H.
    apply bind_env_inv in H as (cwd & e2 & _ & H). rewrite bind_upd in H. cbn [ptable nextpid initproc env] in H.
    injection H as <-. cbn [ptable nextpid] in *. rewrite Et, !alter_insert by done.
    apply finv_insert; [|done|done]. intros j q [-> _]%lookup_replicate. done. }
  clear Hi. induction Hr as [|c0 c1 c2 H1 _ IH]; [done|]. apply IH; [by eapply sstep_sinv|by eapply sstep_finv].
Qed.

(** ** wait *)

(** [j] is the first child of [i] in the table that has exited. *)
Definition first_zombie t (i j : nat) (q : proc) : Prop :=
  t !! j = Some q ∧ p_parent q = Some i ∧ p_state q = ZOMBIE ∧
  ∀ j' q', (j' < j)%nat → t !! j' = Some q' → p_parent q' = Some i → p_state q' ≠ ZOMBIE.

Lemma wait_scan_first i t : ∀ n h j q, first_zombie t i j q → wait_scan i n t h = inl (n + j)%nat.
Proof.
  induction t as [|p t IH]; intros n h j q (Hj & Hp & Hz & Hmin); [done|]. cbn [wait_scan]. destruct j as [|j].
  - injection Hj as ->. rewrite !decide_True by done. by rewrite Nat.add_0_r.
  - assert (first_zombie t i j q) as Hft.
    { split_and!; try done. intros j' q' Hlt Hq'. apply (Hmin (S j') q'); [lia|done]. }
    replace (n + S j)%nat with (S n + j)%nat by lia. destruct (decide (p_parent p = Some i)) as [Hpp|Hpp]; [|by eapply IH].
    rewrite decide_False by (apply (Hmin 0%nat p); [lia|done|done]). by eapply IH.
Qed.

(** The slot of a process that has been waited for. *)
Definition freed_slot (q : proc) : proc :=
  set_state UNUSED (set_killed 0 (set_name [] (set_parent None (set_pid 0 (set_kstack 0 q))))).

Lemma wait_reaps s i j q e1 e2 :
  first_zombie (ptable s) i j q → pe_kfree (p_kstack q) (env s) = Ok tt e1 → pe_freevm (p_pgdir q) e1 = Ok tt e2 →
  wait i s = Ok (WaitReturn (p_pid q)) (PState (<[j := freed_slot q]> (ptable s)) (nextpid s) (initproc s) e2).
Proof.
  intros Hz E1 E2. pose proof Hz as (Hq & _). pose proof (lookup_lt_Some _ _ _ Hq).
  unfold wait. rewrite bind_gets, (wait_scan_first i (ptable s) 0 false j q Hz). cbn [Nat.add].
  assert (proc_at j s = Ok q s) as Hat by (unfold proc_at; by rewrite Hq). mstep Hat.
  erewrite bind_ok by (unfold on_env, zoom; rewrite E1; reflexivity). rewrite bind_upd.
  cbn [ptable nextpid initproc env].
  erewrite bind_ok by (unfold on_env, zoom; cbn [env]; rewrite E2; reflexivity).
  rewrite !bind_upd. cbn [ptable nextpid initproc env].
  rewrite (alter_some _ _ _ q Hq), !alter_insert by done. reflexivity.
Qed.

(** C24: no exit is missed.  A process that is asleep in [wait] has no child
    that has exited.  When a process has such a child, [wait] does not go to
    sleep and does not fail: when freeing the stack and the memory of the
    first of them in the table succeeds, it returns that child's pid, with the
    slot free and everything else unchanged. *)
Theorem wait_misses_nothing s cpus i p :
  sreachable (SConf s cpus) → ptable s !! i = Some p →
  (p_state p = SLEEPING → p_chan p = ProcChan i → no_zombie (ptable s) i) ∧
  (¬ no_zombie (ptable s) i → ∀ s', wait i s ≠ Ok WaitSleep s' ∧ wait i s ≠ Ok (WaitReturn (-1)) s') ∧
  (∀ j q e1 e2, first_zombie (ptable s) i j q →
     pe_kfree (p_kstack q) (env s) = Ok tt e1 → pe_freevm (p_pgdir q) e1 = Ok tt e2 →
     ∃ slot, wait i s = Ok (WaitReturn (p_pid q)) (PState (<[j := slot]> (ptable s)) (nextpid s) (initproc s) e2) ∧
       p_state slot = UNUSED ∧ p_kstack slot = 0 ∧ p_parent slot = None ∧ p_killed slot = 0).
Proof.
  intros [Ht Hc]%sreachable_sinv Hp. cbn [sc_s sc_cpus] in *. split; [|split].
  - intros Hs Hch. by apply (ti_wait _ _ _ Ht i p i Hp Hs Hch).
  - intros Hz s'. split; intros Ew; apply (wait_inv _ _ p _ _ Hp) in Ew as (_ & _ & Ew).
    + by destruct Ew as [Hno _].
    + destruct Ew as [(_ & _ & Hno & _)|(j & q & q' & Hq & _ & Hzq & Epid & _)]; [done|].
      destruct (ti_pid _ _ _ Ht j q Hq); [by right|lia].
  - intros j q e1 e2 Hz E1 E2. exists (freed_slot q). split; [by eapply wait_reaps|done].
Qed.

(** ** fork *)

(** The child that fork makes in [slot]. *)
Definition fork_child s (i : nat) (p slot : proc) (k pg : Z) (ofile : list Z) (cwd : Z) : proc :=
  Proc (p_sz p) pg k RUNNABLE (nextpid s) (Some i) (set_eax 0 (p_tf p)) (Context_ 0 0 0 0 forkret_addr)
    (p_chan slot) (p_killed slot) ofile cwd (take 15 (p_name p)).

Lemma find_unused_none t : find_unused t = None → ∀ j q, t !! j = Some q → p_state q ≠ UNUSED.
Proof.
  unfold find_unused. destruct (list_find _ t) as [[? ?]|] eqn:F; [done|]. intros _ j q Hj Hu.
  apply list_find_None in F. rewrite Forall_lookup in F. by apply (F j q).
Qed.

(** allocproc, for each result of kalloc. *)
Lemma allocproc_ok s j slot k e1 :
  find_unused (ptable s) = Some j → ptable s !! j = Some slot → pe_kalloc (env s) = Ok k e1 →
  allocproc s =
    if k =? 0 then Ok None (PState (<[j := set_state UNUSED (set_kstack 0 (set_state EMBRYO (set_pid (nextpid s) slot)))]>
      (ptable s)) (s32 (nextpid s + 1)) (initproc s) e1)
    else Ok (Some j) (PState (<[j := set_context (Context_ 0 0 0 0 forkret_addr)
      (set_kstack k (set_state EMBRYO (set_pid (nextpid s) slot)))]> (ptable s)) (s32 (nextpid s + 1)) (initproc s) e1).
Proof.
  intros F Hj E1. pose proof (lookup_lt_Some _ _ _ Hj). unfold allocproc. rewrite bind_gets, F, bind_gets, bind_upd, bind_modify.
  cbn [ptable nextpid initproc env].
  erewrite bind_ok by (unfold on_env, zoom; cbn [env]; rewrite E1; reflexivity). rewrite bind_upd.
  cbn [ptable nextpid initproc env]. rewrite (alter_some _ _ _ slot Hj), alter_insert by done.
  destruct (Z.eqb_spec k 0) as [->|]; rewrite bind_upd; cbn [ptable nextpid initproc env]; by rewrite alter_insert.
Qed.

(** The calls that fork makes when it succeeds, and the child. *)
Lemma fork_ok s i p j slot k e1 pg e2 l e3 cwd e4 :
  ptable s !! i = Some p → p_state p ≠ UNUSED → length (p_ofile p) = Z.to_nat NOFILE →
  find_unused (ptable s) = Some j → ptable s !! j = Some slot → p_state slot = UNUSED →
  p_ofile slot = replicate (Z.to_nat NOFILE) 0 →
  pe_kalloc (env s) = Ok k e1 → k ≠ 0 → pe_copyuvm (p_pgdir p) (p_sz p) e1 = Ok pg e2 → pg ≠ 0 →
  dup_list (p_ofile p) e2 = Ok l e3 → pe_idup (p_cwd p) e3 = Ok cwd e4 →
  fork i s = Ok (nextpid s)
    (PState (<[j := fork_child s i p slot k pg l cwd]> (ptable s)) (s32 (nextpid s + 1)) (initproc s) e4).
Proof.
  intros Hp Hnu Hlen F Hj Hu Hof E1 Hk E2 Hpg E3 E4. pose proof (lookup_lt_Some _ _ _ Hj).
  assert (j ≠ i) as Hne by congruence.
  pose proof (allocproc_ok s j slot k e1 F Hj E1) as Ea. rewrite (proj2 (Z.eqb_neq _ _) Hk) in Ea.
  unfold fork. mstep Ea. set (s1 := PState _ _ _ e1).
  assert (proc_at i s1 = Ok p s1) as Hat by (unfold proc_at, s1; cbn [ptable]; by rewrite list_lookup_insert_ne, Hp).
  mstep Hat. erewrite bind_ok by (unfold on_env, zoom, s1; cbn [env]; rewrite E2; reflexivity).
  rewrite bind_upd, (proj2 (Z.eqb_neq _ _) Hpg), !bind_upd. unfold s1. cbn [ptable nextpid initproc env].
  rewrite !alter_insert by done. set (s2 := PState _ _ _ e2).
  match goal with s2 := PState (<[j := ?c]> _) _ _ _ |- _ =>
    assert (dup_files j 0 (p_ofile p) s2 = Ok tt (PState (<[j := set_ofile l c]> (ptable s)) (s32 (nextpid s + 1)) (initproc s) e3)) as Ed end.
  { erewrite (dup_files_ok j (p_ofile p) s2 _ [] l e3); unfold s2; cbn [ptable nextpid initproc env app].
    - by rewrite list_insert_insert_eq.
    - by apply list_lookup_insert_eq.
    - by rewrite Hlen.
    - done. }
  mstep Ed. erewrite bind_ok by (unfold on_env, zoom; cbn [env]; rewrite E4; reflexivity).
  rewrite !bind_upd. cbn [ptable nextpid initproc env]. rewrite !alter_insert by done.
  match goal with |- mbind _ _ ?s3 = _ => match s3 with PState (<[j := ?c]> _) _ _ _ =>
    assert (proc_at j s3 = Ok c s3) as Hat3 by (unfold proc_at; cbn [ptable]; by rewrite list_lookup_insert_eq) end end.
  mstep Hat3. rewrite bind_upd. cbn [ptable nextpid initproc env]. rewrite alter_insert by done.
  destruct slot. reflexivity.
Qed.

(** The ways in which fork fails. *)
Lemma fork_no_slot s i : (∀ j q, ptable s !! j = Some q → p_state q ≠ UNUSED) → fork i s = Ok (-1) s.
Proof.
  intros Hno. destruct (find_unused (ptable s)) as [j|] eqn:F.
  { destruct (find_unused_some _ _ F) as (q & Hq & Hu & _). by destruct (Hno j q). }
  assert (allocproc s = Ok None s) as Ea by (unfold allocproc; by rewrite bind_gets, F). unfold fork. by mstep Ea.
Qed.

Lemma fork_no_stack s i j slot e1 :
  find_unused (ptable s) = Some j → ptable s !! j = Some slot → pe_kalloc (env s) = Ok 0 e1 →
  fork i s = Ok (-1) (PState (<[j := set_state UNUSED (set_kstack 0 (set_state EMBRYO (set_pid (nextpid s) slot)))]>
    (ptable s)) (s32 (nextpid s + 1)) (initproc s) e1).
Proof. intros F Hj E1. unfold fork. by mstep (allocproc_ok s j slot 0 e1 F Hj E1). Qed.

Lemma fork_no_memory s i p j slot k e1 e2 e3 :
  ptable s !! i = Some p → p_state p ≠ UNUSED →
  find_unused (ptable s) = Some j → ptable s !! j = Some slot → p_state slot = UNUSED →
  pe_kalloc (env s) = Ok k e1 → k ≠ 0 → pe_copyuvm (p_pgdir p) (p_sz p) e1 = Ok 0 e2 → pe_kfree k e2 = Ok tt e3 →
  fork i s = Ok (-1) (PState (<[j := set_state UNUSED (set_kstack 0 (set_pgdir 0 (set_context (Context_ 0 0 0 0 forkret_addr)
      (set_kstack k (set_state EMBRYO (set_pid (nextpid s) slot))))))]> (ptable s)) (s32 (nextpid s + 1)) (initproc s) e3).
Proof.
  intros Hp Hnu F Hj Hu E1 Hk E2 E3. pose proof (lookup_lt_Some _ _ _ Hj). assert (j ≠ i) as Hne by congruence.
  pose proof (allocproc_ok s j slot k e1 F Hj E1) as Ea. rewrite (proj2 (Z.eqb_neq _ _) Hk) in Ea.
  unfold fork. mstep Ea. set (s1 := PState _ _ _ e1).
  assert (proc_at i s1 = Ok p s1) as Hat by (unfold proc_at, s1; cbn [ptable]; by rewrite list_lookup_insert_ne, Hp).
  mstep Hat. erewrite bind_ok by (unfold on_env, zoom, s1; cbn [env]; rewrite E2; reflexivity).
  rewrite bind_upd. cbn [Z.eqb]. unfold s1. cbn [ptable nextpid initproc env]. rewrite alter_insert by done.
  set (c := set_pgdir 0 _). set (s2 := PState _ _ _ e2).
  assert (proc_at j s2 = Ok c s2) as Hat2 by (unfold proc_at, s2; cbn [ptable]; by rewrite list_lookup_insert_eq).
  mstep Hat2. replace (p_kstack c) with k by (by destruct slot).
  erewrite bind_ok by (unfold on_env, zoom, s2; cbn [env]; rewrite E3; reflexivity).
  rewrite !bind_upd. unfold s2. cbn [ptable nextpid initproc env]. by rewrite !alter_insert.
Qed.

(** An unused slot that stays unused does not matter. *)
Lemma used_same_slot t j slot slot' :
  t !! j = Some slot → p_state slot = UNUSED → p_state slot' = UNUSED →
  ∀ l q, used q → <[j := slot']> t !! l = Some q ↔ t !! l = Some q.
Proof.
  intros Hj Hu Hu' l q Hq. destruct (decide (l = j)) as [->|Hne]; [|by rewrite list_lookup_insert_ne].
  rewrite list_lookup_insert_eq by (by eapply lookup_lt_Some). split; intros Eq.
  - injection Eq as <-. by apply used_not_unused in Hq.
  - rewrite Hj in Eq. injection Eq as <-. by apply used_not_unused in Hq.
Qed.
End system.

(** ** A kernel in which every call succeeds *)

Module Example.
#[export] Instance ex_env : ProcEnv unit := {|
  pe_kalloc := λ e, Ok PGSIZE e;
  pe_kfree := λ _ e, Ok tt e;
  pe_setupkvm := λ e, Ok PGSIZE e;
  pe_inituvm := λ _ e, Ok tt e;
  pe_copyuvm := λ _ _ e, Ok PGSIZE e;
  pe_freevm := λ _ e, Ok tt e;
  pe_allocuvm := λ _ _ n e, Ok n e;
  pe_deallocuvm := λ _ _ n e, Ok n e;
  pe_filedup := λ f e, Ok f e;
  pe_fileclose := λ _ e, Ok tt e;
  pe_idup := λ i e, Ok i e;
  pe_begin_op := λ e, Ok tt e;
  pe_iput := λ _ e, Ok tt e;
  pe_end_op := λ e, Ok tt e;
  pe_namei_root := λ e, Ok 1 e;
  forkret_addr := 0x80103000;
|}.

Definition boot : outcome (pstate unit) unit :=
  userinit (PState (replicate (Z.to_nat NPROC) zero_proc) 1 None tt).

(** The first process runs and forks; the child runs and exits. *)
Definition final (o : outcome (pstate unit) unit) : pstate unit :=
  match o with Ok _ s => s | _ => PState [] 0 None tt end.
Definition ex_s0 : pstate unit := final boot.
Definition ex_s1 : pstate unit := final ((scheduler 0;; mret tt) ex_s0).
Definition ex_s2 : pstate unit := final ((fork 0;; mret tt) ex_s1).
Definition ex_s3 : pstate unit := final ((scheduler 0;; mret tt) ex_s2).
Definition ex_s4 : pstate unit := final (exit 1 ex_s3).

Lemma ex_run : sreachable (SConf ex_s4 [Some 0%nat; None]).
Proof.
  exists (SConf ex_s0 [None; None]). split.
  - exists tt. split; [vm_compute; reflexivity|]. by repeat constructor.
  - eapply rtc_l; [apply (ss_sched ex_s0 [None; None] 0 0 0 ex_s1); vm_compute; reflexivity|].
    eapply rtc_l; [apply (ss_fork ex_s1 [Some 0%nat; None] 0 0 2 ex_s2); vm_compute; reflexivity|].
    eapply rtc_l; [apply (ss_sched ex_s2 [Some 0%nat; None] 1 0 1 ex_s3); vm_compute; reflexivity|].
    eapply rtc_l; [apply (ss_exit ex_s3 [Some 0%nat; Some 1%nat] 1 1 ex_s4); vm_compute; reflexivity|].
    apply rtc_refl.
Qed.
End Example.
Import Example.

Lemma process_table_sound_witness :
  ∃ p, ptable ex_s4 !! 0%nat = Some p ∧ (p_state p = RUNNING ↔
    ∃ c, runs [Some 0%nat; None] c 0 ∧ ∀ c', runs [Some 0%nat; None] c' 0 → c' = c).
Proof.
  destruct (process_table_sound ex_s4 [Some 0%nat; None] ex_run) as [H _].
  destruct (ptable ex_s4 !! 0%nat) as [p|] eqn:E; [|vm_compute in E; congruence].
  exists p. split; [reflexivity|]. apply (H 0%nat p E).
Defined.

Lemma ex_reach1 : sreachable (SConf ex_s1 [Some 0%nat; None]).
Proof.
  exists (SConf ex_s0 [None; None]). split.
  - exists tt. split; [vm_compute; reflexivity|]. by repeat constructor.
  - eapply rtc_l; [apply (ss_sched ex_s0 [None; None] 0 0 0 ex_s1); vm_compute; reflexivity|].
    apply rtc_refl.
Qed.

(** The process with index [i]. *)
Definition ex_at (s : pstate unit) (i : nat) : proc := default zero_proc (ptable s !! i).

Lemma wait_misses_nothing_witness : ∃ s', wait 0 ex_s4 = Ok (WaitReturn 2) s' ∧ p_state (ex_at s' 1) = UNUSED.
Proof.
  destruct (wait_misses_nothing ex_s4 [Some 0%nat; None] 0 (ex_at ex_s4 0) ex_run) as (_ & _ & H);
    [vm_compute; reflexivity|].
  destruct (H 1%nat (ex_at ex_s4 1) tt tt) as (slot & Hw & Hs & _); [|reflexivity|reflexivity|].
  - split; [vm_compute; reflexivity|]. split; [vm_compute; reflexivity|]. split; [vm_compute; reflexivity|].
    intros j' q' Hlt Hq'. assert (j' = 0%nat) as -> by lia. vm_compute in Hq'. injection Hq' as <-. discriminate.
  - assert (p_pid (ex_at ex_s4 1) = 2) as E2 by (vm_compute; reflexivity). rewrite E2 in Hw.
    eexists. split; [exact Hw|].
    unfold ex_at. cbn [ptable]. rewrite list_lookup_insert_eq by (apply (bool_decide_unpack _); vm_compute; exact I).
    exact Hs.
Defined.


Lemma ex_dup fs : dup_list fs tt = Ok fs tt.
Proof.
  induction fs as [|f fs IH]; [done|]. cbn [dup_list]. destruct (Z.eqb_spec f 0) as [->|].
  - rewrite ret_step. by mstep IH.
  - assert (pe_filedup f tt = Ok f tt) as E1 by reflexivity. mstep E1. by mstep IH.
Qed.


(** ** A process killed before it exists *)

(** kill(0) finds an unused slot, whose pid is 0, and marks it; allocproc does
    not clear the mark, so the next process in the slot starts out killed. *)
Definition kill0_then_fork : option (Z * Z * Z) :=
  match kill 0 ex_s1 with
  | Ok z s =>
      match fork 0 s with
      | Ok pid s' => q ← ptable s' !! 1%nat; Some (z, p_pid q, p_killed q)
      | _ => None
      end
  | _ => None
  end.

Lemma kill0_marks_next_child : kill0_then_fork = Some (0, 2, 1).
Proof. vm_compute. reflexivity. Qed.
