(* ===== verification/Kernel.v ===== *)
(** * The kernel as a whole

    The process table over the storage of File.v.  A pointer to a file or to
    an inode, as struct proc keeps it, is one more than the index, and 0 is
    the null pointer.  The kernel reads and writes the memory of the current
    process through its page table, as the processor does. *)

From S2P Require Import Prelude Params Mem Mmu Kalloc Vm VmProofs Txn Fs File Proc.

(** What the linker and the assembler fix. *)
Class Linker := {
  ld_end : Z;
  ld_data : Z;
  ld_initcode : Z;
  ld_initcode_size : Z;
  ld_forkret : Z;
  (** &ticks *)
  ld_ticks : Z;
}.

Definition ptr_of (i : nat) : Z := Z.of_nat i + 1.
Definition deref {S} (p : Z) : M S nat := if p <=? 0 then fault else mret (Z.to_nat (p - 1)).

(** ** Memory of a process, seen from the kernel *)

Fixpoint load_user (n : nat) (pgdir va : Z) : M kstate (list Z) := λ s,
  match n with
  | O => Ok [] s
  | S n =>
      match ubyte (ram s) pgdir va with
      | Some x => (l ← load_user n pgdir (u32 (va + 1)); mret (x :: l)) s
      | None => Fault
      end
  end.

(** The kernel too may write only to writable pages: entry.S sets CR0_WP. *)
Fixpoint store_user (pgdir va : Z) (l : list Z) : M kstate unit := λ s,
  match l with
  | [] => Ok tt s
  | x :: l =>
      match mmu (ram s) pgdir va with
      | Some e =>
          if Z.testbit e 1 then
            (on_ram (store8 (frame e + va `mod` PGSIZE) x);; store_user pgdir (u32 (va + 1)) l) s
          else Fault
      | None => Fault
      end
  end.

Section kernel.
Context `{!Linker} {S : Type} `{!Txn S, !DevSw S}.

(** proc.c over the rest of the kernel. *)
#[export] Instance kern_env : ProcEnv (kern S) := {
  pe_kalloc := on_mem kalloc;
  pe_kfree v := on_mem (kfree ld_end v);
  pe_setupkvm := on_mem (setupkvm ld_data);
  pe_inituvm pgdir := on_mem (inituvm pgdir ld_initcode ld_initcode_size);
  pe_copyuvm pgdir sz := on_mem (copyuvm ld_end ld_data pgdir sz);
  pe_freevm pgdir := on_mem (freevm ld_end pgdir);
  pe_allocuvm pgdir oldsz newsz := on_mem (allocuvm ld_end pgdir oldsz newsz);
  pe_deallocuvm pgdir oldsz newsz := on_mem (deallocuvm ld_end pgdir oldsz newsz);
  pe_filedup p := f ← deref p; f ← filedup f; mret (ptr_of f);
  pe_fileclose p := f ← deref p; fileclose ld_end f;
  pe_idup p := ip ← deref p; ip ← on_fs (idup ip); mret (ptr_of ip);
  pe_begin_op := begin_op;
  pe_iput p := ip ← deref p; on_fs (iput ip);
  pe_end_op := end_op;
  pe_namei_root := r ← on_fs (namei 0 [SLASH]); mret (match r with Some ip => ptr_of ip | None => 0 end);
  forkret_addr := ld_forkret;
}.

Definition kernel : Type := pstate (kern S).
#[local] Abbreviation K := (M kernel).

Definition sys_fs {A} (m : M (fstate S) A) : K A := on_env (on_fs m).

(** proc->cwd as the inode that a path starts from. *)
Definition cwd_of (cur : nat) : K nat := p ← proc_at cur; mret (Z.to_nat (p_cwd p - 1)).

Definition load_proc (cur : nat) (n : nat) (va : Z) : K (list Z) :=
  p ← proc_at cur; on_env (on_mem (load_user n (p_pgdir p) va)).
Definition store_proc (cur : nat) (va : Z) (l : list Z) : K unit :=
  p ← proc_at cur; on_env (on_mem (store_user (p_pgdir p) va l)).
End kernel.
Arguments kernel S : clear implicits.

(** ** System call arguments (syscall.c)

    [cur] is the index of the current process.  A function that returns -1 or
    fills in a variable gives an option. *)

Section args.
Context `{!Linker} {S : Type} `{!Txn S, !DevSw S}.
#[local] Abbreviation K := (M (kernel S)).

Definition fetchint (cur : nat) (addr : Z) : K (option Z) :=
  p ← proc_at cur;
  if (p_sz p <=? addr) || (p_sz p <? u32 (addr + 4)) then mret None
  else l ← load_proc cur 4 addr; mret (Some (s32 (le_value l))).

(** The loop of fetchstr from [s] on, [n] characters before [ep]. *)
Fixpoint fetchstr_loop (cur : nat) (n : nat) (s : Z) (acc : list Z) : K (option (list Z)) :=
  match n with
  | O => mret None
  | Datatypes.S n =>
      l ← load_proc cur 1 s;
      let c := hd 0 l in
      if c =? 0 then mret (Some acc) else fetchstr_loop cur n (s + 1) (acc ++ [c])
  end.

(** The string, whose length is the return value. *)
Definition fetchstr (cur : nat) (addr : Z) : K (option (list Z)) :=
  p ← proc_at cur;
  if p_sz p <=? addr then mret None
  else fetchstr_loop cur (Z.to_nat (p_sz p - addr)) addr [].

Definition argint (cur : nat) (n : Z) : K (option Z) :=
  p ← proc_at cur; fetchint cur (u32 (tf_esp (p_tf p) + 4 + 4 * n)).

Definition argptr (cur : nat) (n size : Z) : K (option Z) :=
  r ← argint cur n;
  match r with
  | None => mret None
  | Some i =>
      p ← proc_at cur;
      if (p_sz p <=? u32 i) || (p_sz p <? u32 (u32 i + size)) then mret None
      else mret (Some (u32 i))
  end.

Definition argstr (cur : nat) (n : Z) : K (option (list Z)) :=
  r ← argint cur n;
  match r with
  | None => mret None
  | Some addr => fetchstr cur (u32 addr)
  end.
End args.
