(* ===== verification/Sysproc.v ===== *)
(** * Process system calls (sysproc.c) *)

From S2P Require Import Prelude Params Mem Mmu Kalloc Vm VmProofs Txn Fs File Proc Kernel.

(** How a system call leaves the process: it returns a value, it sleeps and
    goes on in the loop that called sleep, or it is gone. *)
Inductive sysres := Return (z : Z) | Asleep | Exited.

Section sysproc.
Context `{!Linker} {S : Type} `{!Txn S, !DevSw S}.
#[local] Abbreviation K := (M (kernel S)).

Definition sys_fork (cur : nat) : K sysres := r ← fork cur; mret (Return r).

Definition sys_exit (cur : nat) : K sysres := exit cur;; mret Exited.

Definition sys_wait (cur : nat) : K sysres :=
  r ← wait cur; mret (match r with WaitReturn z => Return z | WaitSleep => Asleep end).

Definition sys_kill (cur : nat) : K sysres :=
  pid ← argint cur 0;
  match pid with
  | None => mret (Return (-1))
  | Some pid => r ← kill pid; mret (Return r)
  end.

Definition sys_getpid (cur : nat) : K sysres := p ← proc_at cur; mret (Return (p_pid p)).

Definition sys_sbrk (cur : nat) : K sysres :=
  n ← argint cur 0;
  match n with
  | None => mret (Return (-1))
  | Some n =>
      p ← proc_at cur;
      let addr := s32 (p_sz p) in
      r ← growproc cur n;
      mret (Return (if r <? 0 then -1 else addr))
  end.

(** The loop of sys_sleep: the comparison of a uint with an int is unsigned. *)
Definition sys_sleep_loop (cur : nat) (n ticks0 : Z) : K sysres :=
  k ← gets env;
  if u32 (k_ticks k - ticks0) <? u32 n then
    p ← proc_at cur;
    if negb (p_killed p =? 0) then mret (Return (-1))
    else sleep_on cur (Chan ld_ticks);; mret Asleep
  else mret (Return 0).

Definition sys_sleep (cur : nat) : K sysres :=
  n ← argint cur 0;
  match n with
  | None => mret (Return (-1))
  | Some n => k ← gets env; sys_sleep_loop cur n (k_ticks k)
  end.

Definition sys_uptime (cur : nat) : K sysres := k ← gets env; mret (Return (s32 (k_ticks k))).
End sysproc.
