(* ===== verification/Sysfile.v ===== *)
(** * File system calls (sysfile.c, fcntl.h), without sys_exec *)

From S2P Require Import Prelude Params Mem Mmu Kalloc Vm VmProofs Txn Fs File Proc Kernel.

Definition O_RDONLY : Z := 0x000.
Definition O_WRONLY : Z := 0x001.
Definition O_RDWR : Z := 0x002.
Definition O_CREATE : Z := 0x200.

(** "." and ".." *)
Definition DOT : list Z := [46].
Definition DOTDOT : list Z := [46; 46].

Section sysfile.
Context `{!Linker} {S : Type} `{!Txn S, !DevSw S}.
#[local] Abbreviation K := (M (kernel S)).

(** ** File descriptors *)

(** The descriptor and the file. *)
Definition argfd (cur : nat) (n : Z) : K (option (Z * nat)) :=
  r ← argint cur n;
  match r with
  | None => mret None
  | Some fd =>
      if (fd <? 0) || (NOFILE <=? fd) then mret None
      else
        p ← proc_at cur;
        f ← ofopt (p_ofile p !! Z.to_nat fd);
        if f =? 0 then mret None else f ← deref f; mret (Some (fd, f))
  end.

Definition set_fd (cur fd : nat) (x : Z) : K unit :=
  upd cur (λ p, set_ofile (<[fd := x]> (p_ofile p)) p).

Definition fdalloc (cur f : nat) : K Z :=
  p ← proc_at cur;
  match list_find (λ x, x = 0) (p_ofile p) with
  | Some (fd, _) => set_fd cur fd (ptr_of f);; mret (Z.of_nat fd)
  | None => mret (-1)
  end.

Definition sys_dup (cur : nat) : K Z :=
  r ← argfd cur 0;
  match r with
  | None => mret (-1)
  | Some (_, f) =>
      fd ← fdalloc cur f;
      if fd <? 0 then mret (-1) else on_env (filedup f);; mret fd
  end.

Definition killed_of (cur : nat) : K bool := p ← proc_at cur; mret (negb (p_killed p =? 0)).

(** argfd(0, 0, &f) < 0 || argint(2, &n) < 0 || argptr(1, &p, n) < 0 *)
Definition arg_io (cur : nat) : K (option (nat * Z * Z)) :=
  r ← argfd cur 0;
  match r with
  | None => mret None
  | Some (_, f) =>
      n ← argint cur 2;
      match n with
      | None => mret None
      | Some n => p ← argptr cur 1 n; mret ((λ p, (f, n, p)) <$> p)
      end
  end.

Definition sys_read (cur : nat) : K Z :=
  r ← arg_io cur;
  match r with
  | None => mret (-1)
  | Some (f, n, p) =>
      killed ← killed_of cur;
      r ← on_env (fileread killed f n);
      store_proc cur p r.2;;
      mret r.1
  end.

Definition sys_write (cur : nat) : K Z :=
  r ← arg_io cur;
  match r with
  | None => mret (-1)
  | Some (f, n, p) =>
      killed ← killed_of cur;
      bytes ← load_proc cur (Z.to_nat n) p;
      on_env (filewrite killed f bytes n)
  end.

Definition sys_close (cur : nat) : K Z :=
  r ← argfd cur 0;
  match r with
  | None => mret (-1)
  | Some (fd, f) => set_fd cur (Z.to_nat fd) 0;; on_env (fileclose ld_end f);; mret 0
  end.

Definition sizeof_stat : Z := 20.

(** The fields of a struct stat at [st], one after the other. *)
Definition store_stat (cur : nat) (st : Z) (x : stat) : K unit :=
  store_proc cur (u32 (st + 4)) (le_bytes 4 (st_dev x));;
  store_proc cur (u32 (st + 8)) (le_bytes 4 (st_ino x));;
  store_proc cur st (le_bytes 2 (st_type x));;
  store_proc cur (u32 (st + 12)) (le_bytes 2 (st_nlink x));;
  store_proc cur (u32 (st + 16)) (le_bytes 4 (st_size x)).

Definition sys_fstat (cur : nat) : K Z :=
  r ← argfd cur 0;
  match r with
  | None => mret (-1)
  | Some (_, f) =>
      st ← argptr cur 1 sizeof_stat;
      match st with
      | None => mret (-1)
      | Some st =>
          r ← on_env (filestat f);
          (match r.2 with Some x => store_stat cur st x | None => mret tt end);;
          mret r.1
      end
  end.

(** ** Links *)

(** ip->nlink += k *)
Definition add_nlink (ip : nat) (k : Z) : M (fstate S) unit :=
  upd_disk ip (λ d, set_nlink (s16 (d_nlink d + k)) d).

(** [bad:] of sys_link *)
Definition link_bad (ip : nat) : M (fstate S) Z :=
  ilock (Some ip);;
  add_nlink ip (-1);;
  iupdate ip;;
  iunlockput ip;;
  mret (-1).

(** What is between begin_op and end_op of sys_link, and its result. *)
Definition link_tx (cwd : nat) (old new : list Z) : M (fstate S) Z :=
  r ← namei cwd old;
  match r with
  | None => mret (-1)
  | Some ip =>
      ilock (Some ip);;
      i ← ino ip;
      if d_type (i_d i) =? T_DIR then iunlockput ip;; mret (-1)
      else
        add_nlink ip 1;;
        iupdate ip;;
        iunlock (Some ip);;
        r ← nameiparent cwd new;
        match r with
        | None => link_bad ip
        | Some (dp, name) =>
            ilock (Some dp);;
            d ← ino dp;
            i ← ino ip;
            r ← (if i_dev d =? i_dev i then dirlink dp name (i_inum i) else mret (-1));
            if r <? 0 then iunlockput dp;; link_bad ip
            else iunlockput dp;; iput ip;; mret 0
        end
  end.

Definition link (cur : nat) (old new : list Z) : K Z :=
  cwd ← cwd_of cur;
  on_env begin_op;;
  r ← sys_fs (link_tx cwd old new);
  on_env end_op;;
  mret r.

Definition sys_link (cur : nat) : K Z :=
  old ← argstr cur 0;
  match old with
  | None => mret (-1)
  | Some old =>
      new ← argstr cur 1;
      match new with
      | None => mret (-1)
      | Some new => link cur old new
      end
  end.

(** The loop of isdirempty, from [off] on. *)
Fixpoint isdirempty_loop (fuel : nat) (dp : nat) (off : Z) : M (fstate S) bool :=
  match fuel with
  | O => nofuel
  | Datatypes.S fuel =>
      d ← ino dp;
      if off <? d_size (i_d d) then
        de ← read_dirent "isdirempty: readi" dp off;
        if dirent_inum de =? 0 then isdirempty_loop fuel dp (off + sizeof_dirent) else mret false
      else mret true
  end.

Definition isdirempty (dp : nat) : M (fstate S) bool :=
  d ← ino dp;
  isdirempty_loop (Datatypes.S (Datatypes.S (Z.to_nat (d_size (i_d d) / sizeof_dirent)))) dp (2 * sizeof_dirent).

(** [bad:] of sys_unlink *)
Definition unlink_bad (dp : nat) : M (fstate S) Z := iunlockput dp;; mret (-1).

(** The name, at [off] in directory [dp], and the link of [ip] are removed. *)
Definition unlink_entry (dp ip : nat) (off : Z) : M (fstate S) Z :=
  n ← writei dp (replicate (Z.to_nat sizeof_dirent) 0) off sizeof_dirent;
  if negb (n =? sizeof_dirent) then panic "unlink: writei"
  else
    i ← ino ip;
    (if d_type (i_d i) =? T_DIR then add_nlink dp (-1);; iupdate dp else mret tt);;
    iunlockput dp;;
    add_nlink ip (-1);;
    iupdate ip;;
    iunlockput ip;;
    mret 0.

(** What is between begin_op and end_op of sys_unlink, and its result. *)
Definition unlink_tx (cwd : nat) (path : list Z) : M (fstate S) Z :=
  r ← nameiparent cwd path;
  match r with
  | None => mret (-1)
  | Some (dp, name) =>
      ilock (Some dp);;
      if (namecmp name DOT =? 0) || (namecmp name DOTDOT =? 0) then unlink_bad dp
      else
        r ← dirlookup dp name;
        match r with
        | None => unlink_bad dp
        | Some (ip, off) =>
            ilock (Some ip);;
            i ← ino ip;
            if d_nlink (i_d i) <? 1 then panic "unlink: nlink < 1"
            else
              empty ← (if d_type (i_d i) =? T_DIR then isdirempty ip else mret true);
              if negb empty then iunlockput ip;; unlink_bad dp
              else unlink_entry dp ip off
        end
  end.

Definition unlink (cur : nat) (path : list Z) : K Z :=
  cwd ← cwd_of cur;
  on_env begin_op;;
  r ← sys_fs (unlink_tx cwd path);
  on_env end_op;;
  mret r.

Definition sys_unlink (cur : nat) : K Z :=
  path ← argstr cur 0;
  match path with
  | None => mret (-1)
  | Some path => unlink cur path
  end.

(** ** Creating and opening *)

(** The "." and ".." entries of a new directory. *)
Definition create_dots (dp ip : nat) : M (fstate S) unit :=
  add_nlink dp 1;;
  iupdate dp;;
  i ← ino ip;
  r ← dirlink ip DOT (i_inum i);
  if r <? 0 then panic "create dots"
  else
    d ← ino dp;
    r ← dirlink ip DOTDOT (i_inum d);
    if r <? 0 then panic "create dots" else mret tt.

(** The new inode, locked. *)
Definition create (cwd : nat) (path : list Z) (type major minor : Z) : M (fstate S) (option nat) :=
  r ← nameiparent cwd path;
  match r with
  | None => mret None
  | Some (dp, name) =>
      ilock (Some dp);;
      r ← dirlookup dp name;
      match r with
      | Some (ip, _) =>
          iunlockput dp;;
          ilock (Some ip);;
          i ← ino ip;
          if (type =? T_FILE) && (d_type (i_d i) =? T_FILE) then mret (Some ip)
          else iunlockput ip;; mret None
      | None =>
          d ← ino dp;
          ip ← ialloc (i_dev d) type;
          ilock (Some ip);;
          upd_disk ip (set_nlink 1 ∘ set_devno major minor);;
          iupdate ip;;
          (if type =? T_DIR then create_dots dp ip else mret tt);;
          i ← ino ip;
          r ← dirlink dp name (i_inum i);
          if r <? 0 then panic "create: dirlink"
          else iunlockput dp;; mret (Some ip)
      end
  end.

(** The inode that open works on, locked; None after end_op. *)
Definition open_inode (cur : nat) (path : list Z) (omode : Z) : K (option nat) :=
  cwd ← cwd_of cur;
  if negb (Z.land omode O_CREATE =? 0) then
    r ← sys_fs (create cwd path T_FILE 0 0);
    match r with
    | None => on_env end_op;; mret None
    | Some ip => mret (Some ip)
    end
  else
    r ← sys_fs (namei cwd path);
    match r with
    | None => on_env end_op;; mret None
    | Some ip =>
        sys_fs (ilock (Some ip));;
        i ← sys_fs (ino ip);
        if (d_type (i_d i) =? T_DIR) && negb (omode =? O_RDONLY) then
          sys_fs (iunlockput ip);; on_env end_op;; mret None
        else mret (Some ip)
    end.

(** C truth values of the access modes. *)
Definition mode_readable (omode : Z) : Z := if Z.land omode O_WRONLY =? 0 then 1 else 0.
Definition mode_writable (omode : Z) : Z :=
  if negb (Z.land omode O_WRONLY =? 0) || negb (Z.land omode O_RDWR =? 0) then 1 else 0.

Definition open (cur : nat) (path : list Z) (omode : Z) : K Z :=
  on_env begin_op;;
  r ← open_inode cur path omode;
  match r with
  | None => mret (-1)
  | Some ip =>
      f ← on_env filealloc;
      fd ← (match f with Some f => fdalloc cur f | None => mret (-1) end);
      if fd <? 0 then
        (match f with Some f => on_env (fileclose ld_end f) | None => mret tt end);;
        sys_fs (iunlockput ip);;
        on_env end_op;;
        mret (-1)
      else
        sys_fs (iunlock (Some ip));;
        on_env end_op;;
        (match f with
         | Some f => on_env (upd_file f (λ x,
             File FD_INODE (f_ref x) (mode_readable omode) (mode_writable omode) (f_pipe x) ip 0))
         | None => mret tt
         end);;
        mret fd
  end.

Definition sys_open (cur : nat) : K Z :=
  path ← argstr cur 0;
  match path with
  | None => mret (-1)
  | Some path =>
      omode ← argint cur 1;
      match omode with
      | None => mret (-1)
      | Some omode => open cur path omode
      end
  end.

(** The end of sys_mkdir and sys_mknod. *)
Definition created (r : option nat) : K Z :=
  match r with
  | None => on_env end_op;; mret (-1)
  | Some ip => sys_fs (iunlockput ip);; on_env end_op;; mret 0
  end.

Definition sys_mkdir (cur : nat) : K Z :=
  on_env begin_op;;
  path ← argstr cur 0;
  cwd ← cwd_of cur;
  r ← (match path with Some path => sys_fs (create cwd path T_DIR 0 0) | None => mret None end);
  created r.

Definition sys_mknod (cur : nat) : K Z :=
  on_env begin_op;;
  path ← argstr cur 0;
  major ← (match path with Some _ => argint cur 1 | None => mret None end);
  minor ← (match major with Some _ => argint cur 2 | None => mret None end);
  cwd ← cwd_of cur;
  r ← (match path, major, minor with
       | Some path, Some major, Some minor => sys_fs (create cwd path T_DEV (s16 major) (s16 minor))
       | _, _, _ => mret None
       end);
  created r.

Definition sys_chdir (cur : nat) : K Z :=
  on_env begin_op;;
  path ← argstr cur 0;
  cwd ← cwd_of cur;
  r ← (match path with Some path => sys_fs (namei cwd path) | None => mret None end);
  match r with
  | None => on_env end_op;; mret (-1)
  | Some ip =>
      sys_fs (ilock (Some ip));;
      i ← sys_fs (ino ip);
      if negb (d_type (i_d i) =? T_DIR) then sys_fs (iunlockput ip);; on_env end_op;; mret (-1)
      else
        sys_fs (iunlock (Some ip));;
        p ← proc_at cur;
        cwd ← deref (p_cwd p);
        sys_fs (iput cwd);;
        on_env end_op;;
        upd cur (set_cwd (ptr_of ip));;
        mret 0
  end.

(** ** Pipes *)

Definition sys_pipe (cur : nat) : K Z :=
  fd ← argptr cur 0 8;
  match fd with
  | None => mret (-1)
  | Some fd =>
      r ← on_env (pipealloc ld_end);
      match r with
      | None => mret (-1)
      | Some (rf, wf) =>
          fd0 ← fdalloc cur rf;
          fd1 ← (if fd0 <? 0 then mret (-1) else fdalloc cur wf);
          if (fd0 <? 0) || (fd1 <? 0) then
            (if 0 <=? fd0 then set_fd cur (Z.to_nat fd0) 0 else mret tt);;
            on_env (fileclose ld_end rf);;
            on_env (fileclose ld_end wf);;
            mret (-1)
          else
            store_proc cur fd (le_bytes 4 fd0);;
            store_proc cur (u32 (fd + 4)) (le_bytes 4 fd1);;
            mret 0
      end
  end.
End sysfile.
