(* ===== verification/SysInodes.v ===== *)
(** * System calls on names: the inodes that they lock

    sys_link, sys_unlink and create lock a directory and an inode in it.  The
    state with one and with two locked inodes, and what the calls do in it. *)

From S2P Require Import Prelude Params Disk Superblock Txn Fs FsBlocks FsInode FsBmap FsIo FsDinode FsIcache FsTrunc FsWrite FsDir FsPath FsLife Sysfile.

(** The call ends because nameiparent, of which [H] tells, found nothing. *)
Ltac gives_up H :=
  let ic' := fresh "ic" in let t' := fresh "t" in let E := fresh "E" in
  destruct H as (ic' & t' & E & H); rewrite (bind_ok _ _ _ _ _ E); by exists ic', t'.

(** ** Locked inodes *)

Section locks.
Context {S : Type} `{!Txn S, !DevSw S}.
Implicit Types (sb : superblock) (ic : list inode) (t : S) (v : tview).

Lemma content_fields m d d' : d_addrs d' = d_addrs d → d_size d' = d_size d → content m d' = content m d.
Proof.
  intros Ea Es. unfold content. rewrite Es. apply list_fmap_ext. intros _ o _. apply byte_at_ext.
  unfold file_block, addr_of, addrs_of, ind_addr. by rewrite Ea.
Qed.

(** iupdate of a locked inode, of which fields other than the size and the
    addresses have changed. *)
Lemma iupdate_fields sb ic t v ds ip inum i d' :
  fs_rep sb ic t v ds → locked ic ip inum i → d_addrs d' = d_addrs (i_d i) → d_size d' = d_size (i_d i) → dinode_ok d' → d_type d' ≠ 0 →
  can_log (IBLOCK inum sb) v →
  let i' := set_disk d' i in
  let v' := iupdate_view sb i' v in
  ∃ t', iupdate ip (FState sb (<[ip := i']> ic) t) = Ok tt (FState sb (<[ip := i']> ic) t') ∧
    fs_rep sb (<[ip := i']> ic) t' v' (<[inum := d']> ds) ∧ locked (<[ip := i']> ic) ip inum i' ∧
    content (t_blocks v') d' = content (t_blocks v) (i_d i) ∧
    ∀ j e, j ≠ inum → ds !! j = Some e → content (t_blocks v') e = content (t_blocks v) e.
Proof.
  intros Hfs Hlk Ea Es Hdk Hty Hlog i' v'. pose proof (locked_at sb ic t v ds ip inum i Hfs Hlk) as [Hr Hh Hp Hok Hd Hip Hdev].
  destruct Hlk as [[_ Hi Ei] Hb Hv]. rewrite Ei in Hd. assert (ip < length ic)%nat as Hlt by (by eapply lookup_lt_Some).
  pose proof (fields_ok sb _ ds inum (i_d i) d' Hok Hd Ea Es) as Hok1.
  assert (at_inode sb (<[ip := i']> ic) t v (<[inum := d']> ds) ip i') as Hat1.
  { split; [done|done|done|done| |by apply list_lookup_insert_eq|done]. cbn [i' set_disk i_inum i_d]. rewrite Ei. apply lookup_insert_eq. }
  assert (itable sb (t_blocks v) (<[inum := d']> ds) {[inum]}) as Hit1.
  { rewrite <- (union_empty_r_L {[inum]}). by apply (itable_change sb (t_blocks v) _ ds ∅ inum (i_d i)); [|apply Hfs|..]. }
  destruct (iupdate_ok ip i' sb _ t v _ _ Hat1 Hit1) as (t' & E & [Hr2 Hh2 Hp2 Hok2 _ _ _] & Hit2 & Hc); [cbn [i' set_disk i_inum]; by rewrite Ei|].
  cbn [i' set_disk i_inum] in Hit2. rewrite Ei, difference_diag_L in Hit2.
  exists t'. split; [exact E|]. split; [|split; [|split]].
  - split; [done|done|done|done|done| |].
    + pose proof (icache_ok_disk ic ds ip i d' (fr_cache Hfs) Hip Hi) as H. by rewrite Ei in H.
    + intros j e. destruct (decide (j = inum)) as [->|Hj]; [rewrite lookup_insert_eq; by intros [= <-]|].
      rewrite lookup_insert_ne by done. apply (fr_type Hfs).
  - split; [|done|done]. split; [by apply list_lookup_insert_eq|done|done].
  - unfold v'. rewrite (Hc inum d' (lookup_insert_eq _ _ _)). by apply content_fields.
  - intros j e Hj He. unfold v'. apply (Hc j). by rewrite lookup_insert_ne.
Qed.

(** iunlockput of one of several locked inodes. *)
Lemma iunlockput_slot sb ic t v ds ip cur i d :
  fs_rep sb ic t v ds → locked ic ip cur i → ds !! cur = Some d → i_ref i ≠ 1 ∨ d_nlink d ≠ 0 →
  ∃ i', iunlockput ip (FState sb ic t) = Ok tt (FState sb (<[ip := i']> ic) t) ∧ fs_rep sb (<[ip := i']> ic) t v ds ∧
    refs (<[ip := i']> ic) = decr cur (refs ic) ∧ i_ref i' = i_ref i - 1 ∧ i_inum i' = cur ∧ iflag i' I_BUSY = false.
Proof.
  intros Hfs Hlk Hd Hkeep.
  destruct (iunlock_ok sb ic t v ds ip cur i Hfs Hlk) as (i1 & E1 & Hfs1 & Hsl1 & Er1 & _ & Hb1 & _ & Hr1 & Hk1).
  destruct (iput_ok sb _ t v ds ip cur i1 d Hfs1 Hsl1 Hd) as (E2 & Hfs2 & Hr2); [by rewrite Er1|].
  rewrite list_insert_insert_eq in E2, Hfs2, Hr2. eexists. split; [unfold iunlockput; mstep E1; exact E2|]. split; [done|].
  split; [by rewrite Hr2, Hr1|]. split; [cbn [set_iref i_ref]; lia|]. split; [apply Hsl1|done].
Qed.

Lemma refs_disk ic ip i d : ic !! ip = Some i → refs (<[ip := set_disk d i]> ic) = refs ic.
Proof.
  intros Hip. assert (∀ ic, refs ic = list_to_map (filter (λ p, 0 < p.2) ((λ i, (i_inum i, i_ref i)) <$> ic))) as Hv.
  { clear ic Hip. intros ic. unfold refs. f_equal. induction ic as [|j ic IH]; [done|]. rewrite fmap_cons, !filter_cons. cbn [snd].
    destruct (decide (0 < i_ref j)); [rewrite fmap_cons; by f_equal|done]. }
  rewrite !Hv, list_fmap_insert. f_equal. f_equal. apply list_insert_id. by rewrite list_lookup_fmap, Hip.
Qed.

(** Nothing is locked but the inodes in slots [ip] and [jp]. *)
Definition quiet_two (ic : list inode) (ip jp : nat) : Prop :=
  ∀ kp k, ic !! kp = Some k → 0 < i_ref k → kp ≠ ip → kp ≠ jp → iflag k I_BUSY = false.

(** A locked inode in another slot. *)
Lemma locked_insert ic ip inum i jp j : ip ≠ jp → locked ic ip inum i → locked (<[jp := j]> ic) ip inum i.
Proof. intros Hne [[Hip Hi Ei] Hb Hv]. split; [|done|done]. split; [by rewrite list_lookup_insert_ne|done|done]. Qed.

Lemma locked_disk ic ip inum i d : locked ic ip inum i → locked (<[ip := set_disk d i]> ic) ip inum (set_disk d i).
Proof. intros [[Hip Hi Ei] Hb Hv]. split; [|done|done]. split; [apply list_lookup_insert_eq; by eapply lookup_lt_Some|done|done]. Qed.

Lemma locked_inode sb ic t v ds ip inum i : fs_rep sb ic t v ds → locked ic ip inum i → ds !! inum = Some (i_d i).
Proof. intros Hfs [[Hip Hi <-] _ Hv]. by apply (co_valid (fr_cache Hfs) ip). Qed.

(** The link count of a locked inode, changed and written. *)
Lemma add_nlink_ok sb ic t v ds ip inum i n r :
  fs_rep sb ic t v ds → locked ic ip inum i → - 2 ^ 15 ≤ d_nlink (i_d i) + n < 2 ^ 15 → slack sb v (r + cost v (IBLOCK inum sb)) →
  let d' := set_nlink (d_nlink (i_d i) + n) (i_d i) in
  let ic' := <[ip := set_disk d' i]> ic in
  ∃ t' v', (add_nlink ip n;; iupdate ip) (FState sb ic t) = Ok tt (FState sb ic' t') ∧ fs_rep sb ic' t' v' (<[inum := d']> ds) ∧
    content (t_blocks v') d' = content (t_blocks v) (i_d i) ∧
    (∀ j e, j ≠ inum → ds !! j = Some e → content (t_blocks v') e = content (t_blocks v) e) ∧
    slack sb v' r ∧ t_logged v' = {[IBLOCK inum sb]} ∪ t_logged v ∧ free_blocks sb (t_blocks v') = free_blocks sb (t_blocks v) ∧
    ∀ b, b ≠ IBLOCK inum sb → t_blocks v' !! b = t_blocks v !! b.
Proof.
  intros Hfs Hlk Hn Hs d' ic'. pose proof (locked_inode _ _ _ _ _ _ _ _ Hfs Hlk) as Hd. pose proof (it_dinode _ _ _ _ (fr_table Hfs) inum _ Hd) as Hdk.
  assert (dinode_ok d') as Hdk1 by (destruct Hdk as [K1 K2 K3 K4 K5 K6 K7]; by split).
  assert (i_inum i = inum) as Ei by apply Hlk.
  destruct (slack_cost sb v (IBLOCK inum sb) (put_dinode inum d' (default [] (t_blocks v !! IBLOCK inum sb))) r) as [Hl1 Hs1]; [done|].
  destruct (iupdate_fields sb ic t v ds ip inum i d' Hfs Hlk eq_refl eq_refl Hdk1 (fr_type Hfs inum _ Hd) Hl1) as (t1 & E1 & Hfs1 & _ & C1 & O1).
  exists t1, (iupdate_view sb (set_disk d' i) v). split; [|split; [done|split; [done|split; [done|split; [|split; [|split]]]]]].
  - unfold add_nlink. rewrite (upd_disk_step _ _ ip i sb) by apply Hlk.
    assert (s16 (d_nlink (i_d i) + n) = d_nlink (i_d i) + n) as -> by (unfold s16; rewrite Z.mod_small; lia). exact E1.
  - unfold iupdate_view. cbn [set_disk i_inum i_d]. by rewrite Ei.
  - unfold iupdate_view. cbn [set_disk i_inum update t_logged]. by rewrite Ei.
  - apply iupdate_free. cbn [set_disk i_inum]. rewrite Ei. apply (inode_place sb _ _ _ (fr_ok Hfs) (fr_table Hfs) inum _ Hd).
  - intros b Hb. unfold iupdate_view. cbn [set_disk i_inum update t_blocks]. rewrite Ei. by rewrite lookup_insert_ne.
Qed.

Lemma set_nlink_id d : set_nlink (d_nlink d + 0) d = d.
Proof. destruct d. unfold set_nlink. cbn. by rewrite Z.add_0_r. Qed.

Lemma set_disk_id i : set_disk (i_d i) i = i.
Proof. by destruct i. Qed.

Lemma quiet_two_disk ic ip jp kp k d :
  quiet_two ic ip jp → ic !! kp = Some k → kp = ip ∨ kp = jp → quiet_two (<[kp := set_disk d k]> ic) ip jp.
Proof.
  intros Hq Hk Hkp lp l. destruct (decide (lp = kp)) as [->|Hne]; [naive_solver|]. rewrite list_lookup_insert_ne by done. apply Hq.
Qed.

(** A reference that was taken is given back: the slots stay. *)
Lemma kept_give_back ic0 ds ic ip cur i i' :
  icache_ok ic0 ds → slots_kept ic0 ic → slot ic ip cur i → i_inum i' = cur → i_ref i' = i_ref i - 1 →
  (is_Some (refs ic0 !! cur) → 1 < i_ref i) → slots_kept ic0 (<[ip := i']> ic).
Proof.
  intros Hic0 Hk [Hip Hi Ei] Ei' Er' Hmore. eapply slots_kept_insert; [done..|].
  destruct (decide (0 < i_ref i')) as [Hpos|Hz]; [left; split; congruence|]. right. intros i0 Hi0 Hr0.
  destruct (Hk ip i0 Hi0 Hr0) as (i1 & Hi1 & _ & E). assert (i1 = i) as -> by congruence.
  assert (refs ic0 !! cur = Some (i_ref i0)) as Hs by (rewrite <- Ei, E; by apply (refs_slot _ ds ip)).
  specialize (Hmore (mk_is_Some _ _ Hs)). lia.
Qed.

(** A directory on the way is not deleted when its reference is given up. *)
Lemma start_lives sb ic t v ds cwd cwdnum path : can_walk sb ic t v ds cwd cwdnum path → lives ic ds (start cwdnum path).
Proof.
  intros [Hfs _ _ _ [i [H1 H2 <-]] (d & Hroot & Hnl) _]. assert (lives ic ds (i_inum i)) as Hc.
  { destruct (co_dev (fr_cache Hfs) cwd i H1 H2) as [_ [e He]]. exists e. split; [done|]. right. eexists. by apply (refs_slot ic ds cwd i); [apply Hfs|..]. }
  destruct path as [|c path]; [done|]. cbn [start]. destruct (c =? SLASH); [|done]. exists d. split; [done|by left].
Qed.

Lemma resolve_lives ic m ds cur ns p : tree_ok m ds → lives ic ds cur → resolve m ds cur ns = Some p → lives ic ds p.
Proof.
  intros Htree. revert cur. induction ns as [|x ns IH]; intros cur Hl; cbn [resolve]; [by intros [= <-]|].
  destruct (ds !! cur) as [e|] eqn:He; [|done]. cbn [mbind option_bind]. destruct (decide (d_type e = T_DIR)) as [Ht|]; [|done].
  destruct (dir_lookup x (content m e)) as [y|] eqn:Hx; [|done]. cbn [mbind option_bind]. apply IH.
  destruct (tr_entry _ _ Htree cur e x y He Ht Hx) as (e' & He' & Hnl). exists e'. split; [done|by left].
Qed.

(** ** The directory of a path *)

(** The directory that the last name [n] of a path is in, locked. *)
Record opened ic0 sb ic t v ds dp (p : Z) i (n : list Z) : Prop := Opened {
  op_visit : visiting ic0 sb ic t v ds dp p i;
  op_lives : lives ic0 ds p;
  op_dir : at_dir sb ic t v ds dp p i;
  op_name : name_ok n;
  op_free : (size (refs ic) < length ic)%nat;
  op_entry k : dir_lookup n (content (t_blocks v) (i_d i)) = Some k → ∃ e, ds !! k = Some e ∧ d_nlink e ≠ 0;
}.

Lemma parent_ok sb ic t v ds cwd cwdnum path ns n :
  can_walk sb ic t v ds cwd cwdnum path → names path = ns ++ [n] →
  match (p ← resolve (t_blocks v) ds (start cwdnum path) ns; d ← ds !! p; if decide (d_type d = T_DIR) then Some (p, d) else None) with
  | None => ∃ ic' t', nameiparent cwd path (FState sb ic t) = Ok None (FState sb ic' t') ∧ back ic sb ic' t' v ds
  | Some (p, d) => ∃ dp ic1 t1 ic2 t2 i, nameiparent cwd path (FState sb ic t) = Ok (Some (dp, n)) (FState sb ic1 t1) ∧
      ilock (Some dp) (FState sb ic1 t1) = Ok tt (FState sb ic2 t2) ∧ i_d i = d ∧ opened ic sb ic2 t2 v ds dp p i n
  end.
Proof.
  intros Hw En. pose proof Hw as [Hfs0 Htree Hq0 Hfree _ _ [Hb H0]]. pose proof (start_lives _ _ _ _ _ _ _ _ Hw) as Hlive0.
  pose proof (names_ok path Hb H0) as Hn. rewrite En in Hn. apply Forall_app in Hn as [_ [Hname _]%Forall_cons].
  pose proof (namex_ok sb ic t v ds cwd cwdnum path true Hw) as H. rewrite En, walk_parent in H.
  destruct (resolve _ _ _ ns) as [p|] eqn:Er; cbn [mbind option_bind] in *; [|exact H].
  pose proof (resolve_lives ic _ ds _ ns p Htree Hlive0 Er) as Hlive. destruct (ds !! p) as [d|] eqn:Hd; cbn [mbind option_bind] in *; [|exact H].
  destruct (decide (d_type d = T_DIR)) as [Hty|_]; [|exact H]. destruct H as (dp & ic1 & t1 & E1 & Hho).
  destruct (visit ic sb ic1 t1 v ds dp p d Hho Hd) as (ic2 & t2 & i & E2 & Hvi & Ed). subst d.
  exists dp, ic1, t1, ic2, t2, i. split; [done|]. split; [done|]. split; [done|]. split; [done|done| |done| |].
  - split; [apply Hvi|apply Hvi|done|by apply (tr_dir _ _ Htree p)].
  - rewrite (vi_refs _ _ _ _ _ _ _ _ _ Hvi), (vi_len _ _ _ _ _ _ _ _ _ Hvi). pose proof (size_incr (refs ic) p). lia.
  - intros k. by apply (tr_entry _ _ Htree p).
Qed.

(** ** A directory and an inode in it *)

(** A client that had the references of [ic0] has two more, to the inodes [p]
    and [k], and has locked both. *)
Record pair ic0 sb ic t v ds dp (p : Z) i ip (k : Z) j : Prop := Pair {
  pr_fs : fs_rep sb ic t v ds;
  pr_refs : refs ic = incr k (incr p (refs ic0));
  pr_kept : slots_kept ic0 ic;
  pr_quiet : quiet_two ic dp ip;
  pr_len : length ic = length ic0;
  pr_dir : locked ic dp p i;
  pr_file : locked ic ip k j;
  pr_slot : ip ≠ dp;
  pr_inum : k ≠ p;
}.

Lemma pair_swap ic0 sb ic t v ds dp p i ip k j : pair ic0 sb ic t v ds dp p i ip k j → pair ic0 sb ic t v ds ip k j dp p i.
Proof.
  intros [H1 H2 H3 H4 H5 H6 H7 H8 H9]. split; [done|by rewrite incr_comm|done| |done|done|done|congruence|congruence].
  intros lp l Hl Hr Hne1 Hne2. by apply (H4 lp).
Qed.

(** The inode that a search in the locked directory has found is locked. *)
Lemma pair_lock ic0 sb ic t v ds dp p i ic1 t1 ip k e :
  visiting ic0 sb ic t v ds dp p i → fs_rep sb ic1 t1 v ds → got ic ic1 ip k → k ≠ p → ds !! k = Some e →
  ∃ ic2 t2 j, ilock (Some ip) (FState sb ic1 t1) = Ok tt (FState sb ic2 t2) ∧ pair ic0 sb ic2 t2 v ds dp p i ip k j ∧ i_d j = e.
Proof.
  intros [Hfs Hr Hk Hq Hl Hlk] Hfs1 Hgot Hkp He. destruct (gt_slot _ _ _ _ Hgot) as [j Hj].
  destruct (got_locked ic ic1 ip k dp p i Hgot Hlk) as (i1 & Hlk1 & _ & _).
  assert (ip ≠ dp) as Hne by (intros ->; destruct Hj as [H1 _ H2], Hlk1 as [[H3 _ H4] _ _]; congruence).
  assert (ic1 !! dp = Some i) as Hdp by (rewrite (gt_same _ _ _ _ Hgot dp i) by apply Hlk; by rewrite decide_False by congruence).
  pose proof (gt_quiet _ _ _ _ Hgot (Some dp) Hq) as Hq1.
  destruct (ilock_ok sb ic1 t1 v ds ip k j e Hfs1 Hj) as (j2 & t2 & E2 & Hfs2 & Hlk2 & Ed2 & Hr2 & Hk2);
    [apply (Hq1 ip j); [apply Hj|apply Hj|congruence]|done|].
  eexists _, t2, j2. split; [exact E2|]. split; [|done]. split; [done|by rewrite Hr2, (gt_refs _ _ _ _ Hgot), Hr| | | | |done|done|done].
  - eapply slots_kept_trans; [exact Hk|]. eapply slots_kept_trans; [apply Hgot|done].
  - intros lp l Hlp Hlr H1 H2. rewrite list_lookup_insert_ne in Hlp by done. apply (Hq1 lp l Hlp Hlr). congruence.
  - by rewrite length_insert, (gt_len _ _ _ _ Hgot).
  - destruct Hlk as [[_ ? ?] ? ?]. split; [split; [by rewrite list_lookup_insert_ne|done|done]|done|done].
Qed.

(** An operation changed one of the two on disk. *)
Lemma pair_disk ic0 sb ic t v ds dp p i ip k j d t' v' ds' :
  pair ic0 sb ic t v ds dp p i ip k j → fs_rep sb (<[dp := set_disk d i]> ic) t' v' ds' →
  pair ic0 sb (<[dp := set_disk d i]> ic) t' v' ds' dp p (set_disk d i) ip k j.
Proof.
  intros [H1 H2 H3 H4 H5 H6 H7 H8 H9] Hfs. split; [done| | | |by rewrite length_insert|by apply locked_disk|by apply locked_insert|done|done].
  - rewrite refs_disk by apply H6. done.
  - eapply slots_kept_insert; [done|apply H6|]. left. split; [apply H6|done].
  - apply quiet_two_disk; [done|apply H6|by left].
Qed.

Lemma visiting_disk ic0 sb ic t v ds ip k j d t' v' ds' :
  visiting ic0 sb ic t v ds ip k j → fs_rep sb (<[ip := set_disk d j]> ic) t' v' ds' →
  visiting ic0 sb (<[ip := set_disk d j]> ic) t' v' ds' ip k (set_disk d j).
Proof.
  intros [H1 H2 H3 H4 H5 H6] Hfs. split; [done| | | |by rewrite length_insert|by apply locked_disk].
  - rewrite refs_disk by apply H6. done.
  - eapply slots_kept_insert; [done|apply H6|]. left. split; [apply H6|done].
  - eapply quiet_but_insert; [done|apply H6|by left].
Qed.

(** The inode stays when a reference to it is given back. *)
Definition stays ic0 (k : Z) (d : dinode) : Prop := is_Some (refs ic0 !! k) ∨ d_nlink d ≠ 0.

Lemma lives_stays ic0 ds k d : lives ic0 ds k → ds !! k = Some d → stays ic0 k d.
Proof. intros (d' & Hd' & [H|H]) Hd; [right; congruence|by left]. Qed.

Lemma stays_ref ic0 ds0 ic ds ip k j r :
  icache_ok ic0 ds0 → icache_ok ic ds → refs ic !! k = Some r → slot ic ip k j → r = default 0 (refs ic0 !! k) + 1 →
  (is_Some (refs ic0 !! k) → 1 < i_ref j) ∧ (stays ic0 k (i_d j) → i_ref j ≠ 1 ∨ d_nlink (i_d j) ≠ 0).
Proof.
  intros Hic0 Hic Hr [Hip Hj <-] ->. rewrite (refs_slot ic ds ip j Hic Hip Hj) in Hr. injection Hr as Hr.
  assert (is_Some (refs ic0 !! i_inum j) → 1 < i_ref j) as H1.
  { intros [n Hn]. rewrite Hn in Hr. cbn in Hr. pose proof (refs_pos ic0 ds0 _ n Hic0 Hn). lia. }
  split; [done|]. intros [Hs|Hs]; [left; specialize (H1 Hs); lia|by right].
Qed.

(** One of the two is given back. *)
Lemma pair_drop ic0 ds0 sb ic t v ds dp p i ip k j :
  icache_ok ic0 ds0 → pair ic0 sb ic t v ds dp p i ip k j → stays ic0 p (i_d i) →
  ∃ ic', iunlockput dp (FState sb ic t) = Ok tt (FState sb ic' t) ∧ visiting ic0 sb ic' t v ds ip k j.
Proof.
  intros Hic0 [Hfs Hr Hk Hq Hl Hlk Hlj Hne Hkp] Hst. pose proof (locked_inode _ _ _ _ _ _ _ _ Hfs Hlk) as Hd.
  destruct (stays_ref ic0 ds0 ic ds dp p i (default 0 (refs ic0 !! p) + 1) Hic0 (fr_cache Hfs)) as [Hmore Hkeep]; [|apply Hlk|done|].
  { rewrite Hr. unfold incr. by rewrite lookup_insert_ne, lookup_insert_eq. }
  destruct (iunlockput_slot sb ic t v ds dp p i (i_d i) Hfs Hlk Hd (Hkeep Hst)) as (i' & E & Hfs' & Hr' & Er' & Ei' & Hb').
  exists (<[dp := i']> ic). split; [done|]. split; [done| | | |by rewrite length_insert|by apply locked_insert].
  - rewrite Hr', Hr, incr_comm. apply decr_incr. intros n. apply incr_pos. intros m. by apply (refs_pos ic0 ds0).
  - by apply (kept_give_back ic0 ds0 ic dp p i); [|done|apply Hlk|..].
  - intros lp l Hlp Hlr H1. destruct (decide (lp = dp)) as [->|H2].
    + rewrite list_lookup_insert_eq in Hlp by (eapply lookup_lt_Some; apply Hlk). congruence.
    + rewrite list_lookup_insert_ne in Hlp by done. apply (Hq lp l); [done|done|done|congruence].
Qed.

Lemma visiting_drop ic0 ds0 sb ic t v ds ip k j :
  icache_ok ic0 ds0 → visiting ic0 sb ic t v ds ip k j → stays ic0 k (i_d j) →
  ∃ ic', iunlockput ip (FState sb ic t) = Ok tt (FState sb ic' t) ∧ back ic0 sb ic' t v ds.
Proof.
  intros Hic0 [Hfs Hr Hk Hq Hl Hlk] Hst. pose proof (locked_inode _ _ _ _ _ _ _ _ Hfs Hlk) as Hd.
  destruct (stays_ref ic0 ds0 ic ds ip k j (default 0 (refs ic0 !! k) + 1) Hic0 (fr_cache Hfs)) as [Hmore Hkeep]; [|apply Hlk|done|].
  { rewrite Hr. unfold incr. by rewrite lookup_insert_eq. }
  destruct (iunlockput_slot sb ic t v ds ip k j (i_d j) Hfs Hlk Hd (Hkeep Hst)) as (j' & E & Hfs' & Hr' & Er' & Ej' & Hb').
  exists (<[ip := j']> ic). split; [done|]. split; [done| | | |by rewrite length_insert].
  - rewrite Hr', Hr. apply decr_incr. intros n. by apply (refs_pos ic0 ds0).
  - by apply (kept_give_back ic0 ds0 ic ip k j); [|done|apply Hlk|..].
  - intros lp l Hlp Hlr _. destruct (decide (lp = ip)) as [->|H2].
    + rewrite list_lookup_insert_eq in Hlp by (eapply lookup_lt_Some; apply Hlk). congruence.
    + rewrite list_lookup_insert_ne in Hlp by done. apply (Hq lp l); [done|done|congruence].
Qed.
End locks.
