(* ===== verification/SysCreate.v ===== *)
(** * Creating files

    create of sysfile.c against the tree of names: an existing file is
    returned, and a new one gets the first free inode and a name in its
    directory. *)

From S2P Require Import Prelude Params Disk Superblock Txn Fs FsBlocks FsInode FsBmap FsIo FsDinode FsIcache FsTrunc FsWrite FsDir FsPath FsCheck FsNames FsLife Sysfile SysInodes.

(** ** A new inode *)

Section locks.
Context {S : Type} `{!Txn S, !DevSw S}.
Implicit Types (sb : superblock) (ic : list inode) (t : S) (v : tview).

(** A new inode, which create makes while the directory in slot [dp] is
    locked. *)
Record made sb ic ic' t' v v' (ds : gmap Z dinode) (f : Z) (nd : dinode) (dp ip : nat) (i j : inode) (r : nat) : Prop := Made {
  md_fs : fs_rep sb ic' t' v' (<[f := nd]> ds);
  md_new : ds !! f = None;
  md_lock : locked ic' ip f j;
  md_inode : i_d j = nd;
  md_dir : ic' !! dp = Some i;
  md_slot : ip ≠ dp;
  md_kept : slots_kept ic ic';
  md_refs : refs ic' = incr f (refs ic);
  md_len : length ic' = length ic;
  md_quiet : quiet_two ic' dp ip;
  md_slack : slack sb v' r;
  md_logged : IBLOCK f sb ∈ t_logged v';
  md_free : free_blocks sb (t_blocks v') = free_blocks sb (t_blocks v);
  md_content k e : ds !! k = Some e → content (t_blocks v') e = content (t_blocks v) e;
}.

Definition file_dinode (type major minor : Z) : dinode := DInode type major minor 1 0 (replicate (Datatypes.S NDIRECT_n) 0).

Lemma make_inode_ok sb ic t v ds dp p i type major minor f r :
  fs_rep sb ic t v ds → locked ic dp p i → quiet_but ic (Some dp) → inode_area sb (t_blocks v) → first_inode sb (t_blocks v) f →
  dinode_ok (file_dinode type major minor) → type ≠ 0 → slack sb v (Datatypes.S r) → (size (refs ic) < length ic)%nat →
  ∃ ip j ic' t' v', made sb ic ic' t' v v' ds f (file_dinode type major minor) dp ip i j r ∧
    ∀ A (k : nat → M (fstate S) A),
      (ip ← ialloc ROOTDEV type; ilock (Some ip);; upd_disk ip (set_nlink 1 ∘ set_devno major minor);; iupdate ip;; k ip) (FState sb ic t) =
        k ip (FState sb ic' t').
Proof.
  intros Hfs Hlk Hq Ha Hff Hdk Hnz Hs Hsz. pose proof Hff as (Hfr & Hf0 & _). set (nd := file_dinode type major minor) in *.
  assert (ds !! f = None) as Hn by (by apply (idisk_type sb ic t v)). pose proof Hdk as [Hty _ _ _ _ _ _].
  destruct (ialloc_loop_ok (Datatypes.S (Z.to_nat (sb_ninodes sb))) sb ic t v ds type f 1) as (ip & ic1 & t1 & E1 & Hfs1 & Hgot); [done..| |done|lia|lia|].
  { by apply (slack_le sb v (Datatypes.S r)); [lia|]. }
  set (v1 := alloc_inode sb type f v) in *.
  destruct (alloc_inode_rep sb ic t v ds type f t1 Hfs Ha Hfr Hn Hty Hnz (fr_rep Hfs1)) as [_ Hc1]. fold v1 in Hc1.
  assert (ds !! p = Some (i_d i)) as Hp.
  { destruct Hlk as [[Hip Hi <-] _ Hv]. by apply (co_valid (fr_cache Hfs) dp). }
  destruct (gt_slot _ _ _ _ Hgot) as [j Hj]. destruct (got_locked ic ic1 ip f dp p i Hgot Hlk) as (i1 & Hlk1 & _ & _).
  assert (ip ≠ dp) as Hne.
  { intros ->. destruct Hj as [H1 _ H2], Hlk1 as [[H3 _ H4] _ _]. assert (i1 = j) as -> by congruence. congruence. }
  assert (ic1 !! dp = Some i) as Hdp1.
  { rewrite (gt_same _ _ _ _ Hgot dp i) by apply Hlk. by rewrite decide_False by congruence. }
  pose proof (gt_quiet _ _ _ _ Hgot (Some dp) Hq) as Hq1.
  destruct (ilock_ok sb ic1 t1 v1 _ ip f j (new_dinode type) Hfs1 Hj) as (j2 & t2 & E2 & Hfs2 & Hlk2 & Ed2 & Hr2 & Hk2).
  { apply (Hq1 ip j); [apply Hj|apply Hj|congruence]. } { apply lookup_insert_eq. }
  assert (ip < length ic1)%nat as Hlt by (eapply lookup_lt_Some; apply Hj).
  destruct (slack_one sb v (IBLOCK f sb) (put_dinode f (new_dinode type) (default [] (t_blocks v !! IBLOCK f sb))) r Hs) as [_ Hs1].
  destruct (slack_cost sb v1 (IBLOCK f sb) (put_dinode f nd (default [] (t_blocks v1 !! IBLOCK f sb))) r) as [Hlog Hs2].
  { rewrite cost_logged; [by rewrite Nat.add_0_r|]. cbn. set_solver. }
  destruct (iupdate_fields sb _ t2 v1 _ ip f j2 nd Hfs2 Hlk2) as (t3 & E3 & Hfs3 & Hlk3 & _ & Hc3); [by rewrite Ed2|by rewrite Ed2|done|done|done|].
  rewrite list_insert_insert_eq in E3, Hfs3, Hlk3. rewrite insert_insert_eq in Hfs3.
  assert (IBLOCK f sb < data_start sb ∧ ∀ g, 0 ≤ g < sb_size sb → IBLOCK f sb ≠ BBLOCK g sb) as [P1 P2].
  { apply (inode_place sb _ _ _ (fr_ok Hfs1) (fr_table Hfs1) f (new_dinode type)). apply lookup_insert_eq. }
  assert (i_inum j2 = f) as Ej2 by apply Hlk2.
  exists ip, (set_disk nd j2), (<[ip := set_disk nd j2]> ic1), t3, (iupdate_view sb (set_disk nd j2) v1). split.
  - split; [done|done|done|done|by rewrite list_lookup_insert_ne|done| | |by rewrite length_insert, (gt_len _ _ _ _ Hgot)| | | | |].
    + eapply slots_kept_insert; [exact (gt_kept _ _ _ _ Hgot)|exact (sl_at _ _ _ _ Hj)|]. left. split; [apply Hlk2|].
      intros _. cbn [set_disk i_inum]. rewrite Ej2. symmetry. apply Hj.
    + assert (<[ip := set_disk nd j2]> ic1 = <[ip := set_disk nd j2]> (<[ip := j2]> ic1)) as -> by (by rewrite list_insert_insert_eq).
      rewrite refs_disk by apply Hlk2. rewrite Hr2. apply Hgot.
    + intros kp k Hkp Hk H1 H2. rewrite list_lookup_insert_ne in Hkp by done. apply (Hq1 kp k Hkp Hk). congruence.
    + unfold iupdate_view. cbn [set_disk i_inum i_d]. by rewrite Ej2.
    + unfold iupdate_view. cbn [set_disk i_inum update t_logged]. rewrite Ej2. set_solver.
    + rewrite iupdate_free by (cbn [set_disk i_inum]; by rewrite Ej2).
      exact (iupdate_free sb (Inode ROOTDEV f 0 0 (new_dinode type)) v P2).
    + intros k e He. assert (k ≠ f) as Hkf by congruence. rewrite (Hc3 k e Hkf) by (by rewrite lookup_insert_ne). by apply (Hc1 k).
  - intros A k. assert (ialloc ROOTDEV type (FState sb ic t) = Ok ip (FState sb ic1 t1)) as E1' by exact E1. mstep E1'. mstep E2.
    rewrite (upd_disk_step _ _ ip j2 sb) by apply Hlk2. rewrite Ed2, list_insert_insert_eq. exact (bind_ok _ _ _ _ _ E3).
Qed.

(** Directories while they are made: a new one is empty. *)
Lemma empty_dir m d : d_size d = 0 → content m d = [].
Proof. intros E. unfold content. by rewrite E. Qed.

Lemma dir_ok_nil : dir_ok [].
Proof. by split. Qed.

(** The entries for "." and "..", in an empty directory. *)
Lemma dot_entries_ok sb ic t v ds ip p f j r q :
  fs_rep sb ic t v ds → locked ic ip f j → 0 < p < 2 ^ 16 → 0 < f < 2 ^ 16 → d_type (i_d j) = T_DIR → d_size (i_d j) = 0 → ind_addr (i_d j) = 0 →
  IBLOCK f sb ∈ t_logged v → slack sb v (r + 3) → (q + 3 ≤ size (free_blocks sb (t_blocks v)))%nat →
  ∃ n1 t1 nd t' v', dirlink ip DOT f (FState sb ic t) = Ok 0 (FState sb (<[ip := set_disk n1 j]> ic) t1) ∧
    dirlink ip DOTDOT p (FState sb (<[ip := set_disk n1 j]> ic) t1) = Ok 0 (FState sb (<[ip := set_disk nd j]> ic) t') ∧
    at_dir sb (<[ip := set_disk nd j]> ic) t' v' (<[f := nd]> ds) ip f (set_disk nd j) ∧
    (∀ n, dir_lookup n (content (t_blocks v') nd) = if decide (n = DOTDOT) then Some p else if decide (n = DOT) then Some f else None) ∧
    (∀ k e, k ≠ f → ds !! k = Some e → content (t_blocks v') e = content (t_blocks v) e) ∧
    d_nlink nd = d_nlink (i_d j) ∧ t_logged v ⊆ t_logged v' ∧ slack sb v' r ∧ (q ≤ size (free_blocks sb (t_blocks v')))%nat.
Proof.
  intros Hfs Hlj Hp Hf Htj Hsj Hij Hlog Hs Hq.
  assert (content (t_blocks v) (i_d j) = []) as Hc1 by (by apply empty_dir).
  assert (at_dir sb ic t v ds ip f j) as Had1 by (split; [done|done|done|rewrite Hc1; apply dir_ok_nil]).
  assert (∀ v d, ind_addr d = 0 → ind_cost v d = 1%nat ∧ ind_need d = 1%nat) as Hind.
  { intros v' d Hd. unfold ind_cost, ind_need. by rewrite Hd, decide_False, decide_True by (done || by intros []). }
  destruct (Hind v (i_d j) Hij) as [Ic1 In1].
  destruct (dirlink_new sb ic t v _ ip f j DOT f (r + 1) (q + 1) Had1 (dot_ok 1 ltac:(lia)) Hf)
    as (n2 & t2 & v2 & E2 & Had2 & L2 & O2 & N2 & T2 & Z2 & G2 & S2 & F2 & I2); [by rewrite Hc1|by rewrite Hsj| | |].
  { rewrite cost_logged, Ic1 by done. eapply slack_le; [|exact Hs]. lia. } { rewrite In1. lia. }
  rewrite Hc1 in L2. rewrite Hsj in I2, Z2. specialize (I2 ltac:(done)). rewrite Hij in I2. destruct (Hind v2 n2 I2) as [Ic2 In2]. rewrite Ic2, In2 in *.
  assert (dir_find DOTDOT (content (t_blocks v2) n2) = None) as Hnone.
  { specialize (L2 DOTDOT). unfold dir_lookup in L2. by destruct (dir_find _ _). }
  destruct (dirlink_new sb _ t2 v2 _ ip f (set_disk n2 j) DOTDOT p r q Had2 (dot_ok 2 ltac:(lia)) Hp Hnone)
    as (n3 & t3 & v3 & E3 & Had3 & L3 & O3 & N3 & T3 & Z3 & G3 & S3 & F3 & I3); cbn [set_disk i_d] in *.
  { change (MAXFILE * BSIZE) with 71680. change sizeof_dirent with 16 in *. lia. }
  { rewrite cost_logged, Ic2 by (by apply G2). eapply slack_le; [|exact S2]. lia. } { rewrite In2. lia. }
  rewrite list_insert_insert_eq, set_disk_twice in E3, Had3. rewrite insert_insert_eq in Had3.
  exists n2, t2, n3, t3, v3. split; [done|]. split; [done|]. split; [done|]. split; [|split; [|split; [|split; [|split]]]].
  - intros n. rewrite L3. by destruct (decide (n = DOTDOT)).
  - intros k e Hk He. rewrite (O3 k e Hk) by (by rewrite lookup_insert_ne). by apply (O2 k).
  - by rewrite N3.
  - by trans (t_logged v2).
  - eapply slack_le; [|exact S3]. lia.
  - lia.
Qed.

(** The state of the two directories in create_dots. *)
Record dotted sb ic' t' v v' (ds : gmap Z dinode) (dp ip : nat) (p f : Z) (i j : inode) (d1 nd : dinode) (r q : nat) : Prop := Dotted {
  dt_fs : fs_rep sb ic' t' v' (<[f := nd]> (<[p := d1]> ds));
  dt_dir : locked ic' dp p (set_disk d1 i);
  dt_new : locked ic' ip f (set_disk nd j);
  dt_content : content (t_blocks v') d1 = content (t_blocks v) (i_d i);
  dt_ok : dir_ok (content (t_blocks v') nd);
  dt_names n : dir_lookup n (content (t_blocks v') nd) = if decide (n = DOTDOT) then Some p else if decide (n = DOT) then Some f else None;
  dt_type : d_type nd = T_DIR;
  dt_nlink : d_nlink nd = d_nlink (i_d j);
  dt_other k e : k ≠ p → k ≠ f → ds !! k = Some e → content (t_blocks v') e = content (t_blocks v) e;
  dt_more : IBLOCK p sb ∈ t_logged v';
  dt_slack : slack sb v' r;
  dt_free : (q ≤ size (free_blocks sb (t_blocks v')))%nat;
}.

Lemma create_dots_ok sb ic t v ds dp ip p f i j r q :
  fs_rep sb ic t v ds → locked ic dp p i → locked ic ip f j → ip ≠ dp → p ≠ f → 0 < p < 2 ^ 16 → 0 < f < 2 ^ 16 →
  d_nlink (i_d i) + 1 < 2 ^ 15 → d_type (i_d j) = T_DIR → d_size (i_d j) = 0 → ind_addr (i_d j) = 0 →
  IBLOCK f sb ∈ t_logged v → slack sb v (r + 3 + cost v (IBLOCK p sb)) → (q + 3 ≤ size (free_blocks sb (t_blocks v)))%nat →
  let d1 := set_nlink (d_nlink (i_d i) + 1) (i_d i) in
  ∃ nd t' v', let ic' := <[ip := set_disk nd j]> (<[dp := set_disk d1 i]> ic) in
    create_dots dp ip (FState sb ic t) = Ok tt (FState sb ic' t') ∧ dotted sb ic' t' v v' ds dp ip p f i j d1 nd r q.
Proof.
  intros Hfs Hlk Hlj Hne Hpf Hp Hf Hnl Htj Hsj Hij Hlog Hs Hq d1. pose proof (locked_inode _ _ _ _ _ _ _ _ Hfs Hlk) as Hdp.
  pose proof (it_dinode _ _ _ _ (fr_table Hfs) p _ Hdp) as [_ _ _ Hnk _ _ _].
  destruct (add_nlink_ok sb ic t v ds dp p i 1 (r + 3) Hfs Hlk ltac:(lia) Hs) as (t1 & v1 & E1 & Hfs1 & C1 & O1 & S1 & G1 & F1 & _).
  fold d1 in E1, Hfs1, C1. pose proof (locked_disk ic dp p i d1 Hlk) as Hlk1. pose proof (locked_insert ic ip f j dp (set_disk d1 i) Hne Hlj) as Hlj1.
  destruct (dot_entries_ok sb _ t1 v1 _ ip p f j r q Hfs1 Hlj1 Hp Hf Htj Hsj Hij) as (n2 & t2 & nd & t3 & v3 & E2 & E3 & [Hfs3 Hlj3 Hty3 Hdo3] & L3 & O3 & N3 & G3 & S3 & F3);
    [rewrite G1; set_solver|done|by rewrite F1|].
  assert (i_inum i = p ∧ i_inum j = f) as [Ei Ej] by (split; [apply Hlk|apply Hlj]).
  exists nd, t3, v3. cbv zeta. split.
  - unfold create_dots. rewrite <- bind_assoc. mstep E1. rewrite (ino_step _ ip j sb) by apply Hlj1. rewrite Ej. mstep E2. change (0 <? 0) with false. cbn iota.
    rewrite (ino_step _ dp (set_disk d1 i) sb) by (rewrite list_lookup_insert_ne by congruence; apply Hlk1). cbn [set_disk i_inum]. rewrite Ei. by mstep E3.
  - split; [done|apply locked_insert; [congruence|done]|done| |done|done|done|done| | |done|done].
    + rewrite <- C1. apply (O3 p); [done|apply lookup_insert_eq].
    + intros k e Hkp Hkf He. rewrite (O3 k e Hkf) by (by rewrite lookup_insert_ne). by apply (O1 k).
    + apply G3. rewrite G1. set_solver.
Qed.

(** ** A new name *)

(** The tree with a new inode [f], of dinode [nd], under the name [n] of
    directory [p], whose dinode [d] becomes [d']. *)
Record new_tree (m m' : gmap Z block) (ds : gmap Z dinode) (p : Z) (n : list Z) (f type major minor : Z) (d d' nd : dinode) : Prop := NewTree {
  nt_dir : ds !! p = Some d ∧ d_type d = T_DIR;
  nt_new : ds !! f = None;
  nt_type : d_type d' = T_DIR ∧ d_type nd = type;
  nt_nlink : d_nlink d' = d_nlink d + (if type =? T_DIR then 1 else 0) ∧ d_nlink nd = 1;
  nt_ok : dir_ok (content m' d');
  nt_names x : dir_lookup x (content m' d') = if decide (x = n) then Some f else dir_lookup x (content m d);
  nt_file : type ≠ T_DIR → nd = file_dinode type major minor;
  nt_dots : type = T_DIR → dir_ok (content m' nd) ∧
    ∀ x, dir_lookup x (content m' nd) = if decide (x = DOTDOT) then Some p else if decide (x = DOT) then Some f else None;
  nt_other k e : k ≠ p → ds !! k = Some e → content m' e = content m e;
}.

Definition with_new (ds : gmap Z dinode) (p f : Z) (d' nd : dinode) : gmap Z dinode := <[p := d']> (<[f := nd]> ds).

(** What create needs beyond a walk: a free inode whose number fits an entry,
    room in the log, on the disk and in the directory. *)
Record can_create sb v (p f type major minor : Z) (d : dinode) : Prop := CanCreate {
  cc_area : inode_area sb (t_blocks v);
  cc_first : first_inode sb (t_blocks v) f;
  cc_num : f < 2 ^ 16;
  cc_type : dinode_ok (file_dinode type major minor) ∧ type ≠ 0;
  cc_size : d_size d + sizeof_dirent ≤ MAXFILE * BSIZE;
  cc_slack : slack sb v (if type =? T_DIR then 7 else 4);
  cc_free : ((if (type =? T_DIR)%Z then 5 else 2) ≤ size (free_blocks sb (t_blocks v)))%nat;
  cc_dir : type = T_DIR → 0 < p < 2 ^ 16 ∧ 0 ≤ d_nlink d < 2 ^ 15 - 1;
}.

(** The new inode, before it has its name. *)
Record prepared sb ic ic' t' v v' (ds : gmap Z dinode) (p f type major minor : Z) (dp ip : nat) (i j : inode) (d1 nd : dinode) : Prop := Prepared {
  pp_fs : fs_rep sb ic' t' v' (<[f := nd]> (<[p := d1]> ds));
  pp_new : ds !! f = None;
  pp_dir : locked ic' dp p (set_disk d1 i);
  pp_lock : locked ic' ip f j;
  pp_inode : i_d j = nd;
  pp_slot : ip ≠ dp;
  pp_kept : slots_kept ic ic';
  pp_refs : refs ic' = incr f (refs ic);
  pp_len : length ic' = length ic;
  pp_quiet : quiet_two ic' dp ip;
  pp_slack : slack sb v' (cost v' (IBLOCK p sb) + 2);
  pp_free : (2 ≤ size (free_blocks sb (t_blocks v')))%nat;
  pp_d1 : d1 = set_nlink (d_nlink (i_d i) + (if type =? T_DIR then 1 else 0)) (i_d i);
  pp_nd : d_type nd = type ∧ d_nlink nd = 1;
  pp_content : content (t_blocks v') d1 = content (t_blocks v) (i_d i);
  pp_file : type ≠ T_DIR → nd = file_dinode type major minor;
  pp_dots : type = T_DIR → dir_ok (content (t_blocks v') nd) ∧
    ∀ x, dir_lookup x (content (t_blocks v') nd) = if decide (x = DOTDOT) then Some p else if decide (x = DOT) then Some f else None;
  pp_other k e : k ≠ p → ds !! k = Some e → content (t_blocks v') e = content (t_blocks v) e;
}.

Lemma prepare_ok sb ic t v ds dp p i type major minor f :
  fs_rep sb ic t v ds → locked ic dp p i → quiet_but ic (Some dp) → (size (refs ic) < length ic)%nat →
  can_create sb v p f type major minor (i_d i) →
  ∃ ip j ic' t' v' d1 nd, prepared sb ic ic' t' v v' ds p f type major minor dp ip i j d1 nd ∧
    ∀ A (k : nat → M (fstate S) A),
      (ip ← ialloc ROOTDEV type; ilock (Some ip);; upd_disk ip (set_nlink 1 ∘ set_devno major minor);; iupdate ip;;
       (if type =? T_DIR then create_dots dp ip else mret tt);; k ip) (FState sb ic t) = k ip (FState sb ic' t').
Proof.
  intros Hfs Hlk Hq Hsz [Ha Hff Hnum [Hdk Hnz] Hmax Hs Hfree Hdir]. pose proof (locked_inode _ _ _ _ _ _ _ _ Hfs Hlk) as Hdp.
  destruct (make_inode_ok sb ic t v ds dp p i type major minor f (if type =? T_DIR then 6 else 3) Hfs Hlk Hq Ha Hff Hdk Hnz) as (ip & j & ic1 & t1 & v1 & Hmd & E1); [by destruct (type =? T_DIR)|done|].
  destruct Hmd as [Hfs1 Hn1 Hlj1 Ej1 Hi1 Hne1 Hk1 Hr1 Hl1 Hq1 Hs1 Hlog1 Hf1 Hc1].
  assert (locked ic1 dp p i) as Hlk1 by (destruct Hlk as [[_ ? ?] ? ?]; by repeat split).
  assert (p ≠ f) as Hpf by congruence. pose proof (cost_le v1 (IBLOCK p sb)) as Hcost. destruct Hff as (Hfr & _ & _).
  destruct (Z.eqb_spec type T_DIR) as [->|Hty].
  - destruct (Hdir eq_refl) as [Hp Hnl].
    destruct (create_dots_ok sb ic1 t1 v1 _ dp ip p f i j 2 2 Hfs1 Hlk1 Hlj1 Hne1 Hpf Hp) as (nd & t2 & v2 & E2 & Hdt);
      [lia|lia|by rewrite Ej1|by rewrite Ej1|by rewrite Ej1|done|eapply slack_le; [|exact Hs1]; lia|rewrite Hf1; lia|].
    destruct Hdt as [D1 D2 D3 D4 D5 D6 D7 D8 D9 D10 D11 D12].
    eexists ip, _, _, t2, v2, _, nd. split; [|intros A k; rewrite E1; by mstep E2]. split; [|done|done|exact D3|done|done|..].
    + rewrite (insert_insert_ne ds), insert_insert_eq in D1 by done. exact D1.
    + eapply slots_kept_insert; [eapply slots_kept_insert; [exact Hk1|exact Hi1|by left; split; [apply Hlk1|]]|by rewrite list_lookup_insert_ne; [apply Hlj1|]|by left; split; [apply Hlj1|]].
    + by rewrite !refs_disk by (rewrite ?list_lookup_insert_ne by done; apply Hlj1 || exact Hi1).
    + by rewrite !length_insert.
    + apply quiet_two_disk; [by apply quiet_two_disk; [| |left]|rewrite list_lookup_insert_ne by done; apply Hlj1|by right].
    + by rewrite cost_logged.
    + done.
    + done.
    + by rewrite D8, Ej1.
    + rewrite D4. by apply (Hc1 p).
    + done.
    + done.
    + intros k e Hk He. rewrite (D9 k e); [by apply (Hc1 k)|done|congruence|by rewrite lookup_insert_ne by congruence].
  - eexists ip, j, ic1, t1, v1, (i_d i), _. split; [|intros A k; rewrite E1; done]. split; [|done|by rewrite set_disk_id|done|exact Ej1|done|done|done|done|done|..].
    + by rewrite (insert_id ds).
    + eapply slack_le; [|exact Hs1]. lia.
    + by rewrite Hf1.
    + by rewrite (proj2 (Z.eqb_neq _ _) Hty), set_nlink_id.
    + done.
    + by apply (Hc1 p).
    + done.
    + done.
    + intros k e _. apply Hc1.
Qed.

Lemma prepared_pair ic0 sb ic ic1 t t1 v v1 ds p f type major minor dp ip i j d1 nd :
  visiting ic0 sb ic t v ds dp p i → prepared sb ic ic1 t1 v v1 ds p f type major minor dp ip i j d1 nd →
  pair ic0 sb ic1 t1 v1 (<[f := nd]> (<[p := d1]> ds)) dp p (set_disk d1 i) ip f j.
Proof.
  intros [Hfs Hr Hk Hq Hl Hlk] Hpp. pose proof (locked_inode _ _ _ _ _ _ _ _ Hfs Hlk) as Hd. pose proof (pp_new _ _ _ _ _ _ _ _ _ _ _ _ _ _ _ _ _ _ Hpp) as Hn.
  split; try by apply Hpp.
  - rewrite (pp_refs _ _ _ _ _ _ _ _ _ _ _ _ _ _ _ _ _ _ Hpp). by rewrite Hr.
  - eapply slots_kept_trans; [done|apply Hpp].
  - by rewrite (pp_len _ _ _ _ _ _ _ _ _ _ _ _ _ _ _ _ _ _ Hpp).
  - congruence.
Qed.

(** The new inode gets its name, and the directory is given up. *)
Lemma name_new_ok ic0 sb ic ic1 t v ds dp p i name type major minor f t1 v1 ip j d1 nd :
  icache_ok ic0 ds → tree_ok (t_blocks v) ds → visiting ic0 sb ic t v ds dp p i → lives ic0 ds p → d_type (i_d i) = T_DIR →
  name_ok name → dir_find name (content (t_blocks v) (i_d i)) = None → can_create sb v p f type major minor (i_d i) →
  prepared sb ic ic1 t1 v v1 ds p f type major minor dp ip i j d1 nd →
  ∃ ic' t' v' d',
    (i ← ino ip; r ← dirlink dp name (i_inum i); if r <? 0 then panic "create: dirlink" else iunlockput dp;; mret (Some ip)) (FState sb ic1 t1) =
      Ok (Some ip) (FState sb ic' t') ∧
    visiting ic0 sb ic' t' v' (with_new ds p f d' nd) ip f j ∧ i_d j = nd ∧
    new_tree (t_blocks v) (t_blocks v') ds p name f type major minor (i_d i) d' nd.
Proof.
  intros Hic0 Htree Hvi Hlive Hty Hname Hnone Hcc Hpp. pose proof (locked_inode _ _ _ _ _ _ _ _ (vi_fs _ _ _ _ _ _ _ _ _ Hvi) (vi_lock _ _ _ _ _ _ _ _ _ Hvi)) as Hd.
  pose proof Hpp as [Hfs1 Hn1 Hlk1 Hlj1 Ej1 Hne1 _ _ _ _ Hs1 Hf1 E1 [Hnt Hnn] Hc1 Hfile1 Hdots1 Ho1].
  assert (p ≠ f) as Hpf by congruence. destruct Hcc as [_ (Hfr & _ & _) Hnum _ Hmax _ _ Hdir].
  assert (d_type d1 = T_DIR ∧ d_size d1 = d_size (i_d i)) as [Hty1 Hsz1] by (by rewrite E1).
  assert (at_dir sb ic1 t1 v1 (<[f := nd]> (<[p := d1]> ds)) dp p (set_disk d1 i)) as Had1.
  { split; [done|done|done|]. cbn [set_disk i_d]. rewrite Hc1. by apply (tr_dir _ _ Htree p). }
  destruct (dirlink_new sb ic1 t1 v1 _ dp p (set_disk d1 i) name f 0 0 Had1 Hname) as (d' & t2 & v2 & E2 & Had2 & L2 & O2 & N2 & T2 & _);
    cbn [set_disk i_d]; [lia|by rewrite Hc1|by rewrite Hsz1| | |].
  { eapply slack_le; [|exact Hs1]. unfold ind_cost. destruct (decide _); lia. } { unfold ind_need. destruct (decide _); lia. }
  pose proof (pair_disk _ _ _ _ _ _ _ _ _ _ _ _ d' t2 v2 _ (prepared_pair _ _ _ _ _ _ _ _ _ _ _ _ _ _ _ _ _ _ _ _ Hvi Hpp) (ad_fs _ _ _ _ _ _ _ _ Had2)) as Hpair.
  cbn [set_disk i_d] in *. rewrite set_disk_twice in *. pose proof (ad_ok _ _ _ _ _ _ _ _ Had2) as Hdo2. cbn [set_disk i_d] in Hdo2.
  assert (d_nlink d' = d_nlink (i_d i) + (if type =? T_DIR then 1 else 0)) as Hnl by (rewrite N2, E1; done).
  destruct (pair_drop ic0 ds _ _ _ _ _ _ _ _ _ _ _ Hic0 Hpair) as (ic3 & E3 & Hvi3).
  { destruct Hlive as (d & Hd' & [H0|Hs]); [right|by left]. assert (d = i_d i) as -> by congruence. cbn [set_disk i_d]. rewrite Hnl.
    destruct (Z.eqb_spec type T_DIR) as [Ht|_]; [destruct (Hdir Ht); lia|lia]. }
  rewrite (insert_insert_ne ds f), insert_insert_eq in Hvi3 by congruence.
  exists ic3, t2, v2, d'. split; [|split; [exact Hvi3|split; [done|]]].
  - rewrite (ino_step _ ip j sb) by apply Hlj1. assert (i_inum j = f) as -> by apply Hlj1. mstep E2. change (0 <? 0) with false. cbn iota. by mstep E3.
  - assert (∀ k e, k ≠ p → (<[f := nd]> (<[p := d1]> ds)) !! k = Some e → content (t_blocks v2) e = content (t_blocks v1) e) as Ho2 by (intros k e Hkp; by apply (O2 k)).
    assert (content (t_blocks v2) nd = content (t_blocks v1) nd) as Hcn by (apply (Ho2 f); [congruence|apply lookup_insert_eq]).
    split; [done|done|done|done|done| |done|by rewrite Hcn|].
    + intros x. by rewrite L2, Hc1.
    + intros k e Hkp He. rewrite (Ho2 k e); [by apply (Ho1 k)|done|]. rewrite !lookup_insert_ne by congruence. done.
Qed.
End locks.

(** ** The tree afterwards *)

Section tree.
Context (m m' : gmap Z block) (ds : gmap Z dinode) (p : Z) (n : list Z) (f type major minor : Z) (d d' nd : dinode).
Context (Hnew : new_tree m m' ds p n f type major minor d d' nd).

Lemma with_new_lookup k : with_new ds p f d' nd !! k = if decide (k = p) then Some d' else if decide (k = f) then Some nd else ds !! k.
Proof.
  unfold with_new. destruct (decide (k = p)) as [->|Hp]; [apply lookup_insert_eq|]. rewrite lookup_insert_ne by done.
  destruct (decide (k = f)) as [->|Hf]; [apply lookup_insert_eq|by rewrite lookup_insert_ne].
Qed.

Lemma new_tree_links k e :
  (type = T_DIR → 0 ≤ d_nlink d) → ds !! k = Some e → d_nlink e ≠ 0 → ∃ e', with_new ds p f d' nd !! k = Some e' ∧ d_nlink e' ≠ 0.
Proof.
  intros Hpos He Hl. destruct Hnew as [[Hd _] Hn _ [Hnl _] _ _ _ _ _]. rewrite with_new_lookup. destruct (decide (k = p)) as [->|Hp].
  - exists d'. split; [done|]. rewrite Hnl. destruct (Z.eqb_spec type T_DIR) as [Ht|_]; [specialize (Hpos Ht)|]; assert (e = d) as -> by congruence; lia.
  - exists e. rewrite decide_False by congruence. done.
Qed.

(** The tree stays in order. *)
Lemma new_tree_ok : (type = T_DIR → 0 ≤ d_nlink d) → tree_ok m ds → tree_ok m' (with_new ds p f d' nd).
Proof.
  intros Hpos [Hdir Hent]. pose proof Hnew as [[Hd Hty] Hn [Hty' Htn] [Hnl Hnl1] Hok Hnames Hfile Hdots Hother].
  assert (∀ e, ∃ e', with_new ds p f e nd !! f = Some e' ∧ (f ≠ p → e' = nd)) as Hf.
  { intros e. unfold with_new. destruct (decide (f = p)) as [->|Hne]; [rewrite lookup_insert_eq; by eexists|].
    rewrite lookup_insert_ne, lookup_insert_eq by done. by eexists. }
  assert (f ≠ p) as Hfp by congruence. destruct (Hf d') as (nd' & Hf' & E). specialize (E Hfp) as ->. split.
  - intros k e. rewrite with_new_lookup. destruct (decide (k = p)) as [->|Hkp]; [intros [= <-]; done|].
    destruct (decide (k = f)) as [->|Hkf]; [intros [= <-] Ht; apply Hdots; congruence|]. intros He Ht. rewrite (Hother k e) by done. by apply (Hdir k).
  - intros k e x y. rewrite with_new_lookup. destruct (decide (k = p)) as [->|Hkp]; [|destruct (decide (k = f)) as [->|Hkf]].
    + intros [= <-] _. rewrite Hnames. destruct (decide (x = n)) as [->|]; [intros [= <-]; exists nd; split; [done|lia]|].
      intros Hx. destruct (Hent p d x y Hd Hty Hx) as (e & He & Hl). by eapply new_tree_links.
    + intros [= <-] Ht. rewrite Htn in Ht. destruct (Hdots Ht) as [_ Hx]. rewrite Hx. destruct (decide (x = DOTDOT)); [|destruct (decide (x = DOT)); [|done]].
      * intros [= <-]. exists d'. rewrite with_new_lookup, decide_True by done. split; [done|]. rewrite Hnl, Ht. specialize (Hpos Ht). change (T_DIR =? T_DIR) with true. cbn iota. lia.
      * intros [= <-]. exists nd. split; [done|lia].
    + intros He Ht. rewrite (Hother k e) by done. intros Hx. destruct (Hent k e x y He Ht Hx) as (e' & He' & Hl). by eapply new_tree_links.
Qed.

(** A path that stood for an inode still does. *)
Lemma new_tree_resolve start ns k : dir_lookup n (content m d) = None → resolve m ds start ns = Some k → resolve m' (with_new ds p f d' nd) start ns = Some k.
Proof.
  pose proof Hnew as [[Hd Hty] Hn [Hty' _] _ _ Hnames _ _ Hother]. intros Hnone. revert start. induction ns as [|x ns IH]; intros cur; [done|]. cbn [resolve].
  destruct (ds !! cur) as [e|] eqn:He; [|done]. cbn [mbind option_bind]. destruct (decide (d_type e = T_DIR)) as [Ht|]; [|done].
  destruct (dir_lookup x (content m e)) as [y|] eqn:Hx; [|done]. cbn [mbind option_bind]. intros Hr. rewrite with_new_lookup.
  destruct (decide (cur = p)) as [->|Hp].
  - assert (e = d) as -> by congruence. cbn [mbind option_bind]. rewrite decide_True, Hnames, decide_False by (done || congruence). rewrite Hx. by apply IH.
  - rewrite decide_False by congruence. rewrite He. cbn [mbind option_bind]. rewrite decide_True by done. rewrite (Hother cur e) by done. rewrite Hx. by apply IH.
Qed.

(** The new path stands for the new inode. *)
Lemma new_tree_path start ns :
  dir_lookup n (content m d) = None → resolve m ds start ns = Some p → resolve m' (with_new ds p f d' nd) start (ns ++ [n]) = Some f.
Proof.
  intros Hnone Hr. pose proof (new_tree_resolve start ns p Hnone Hr) as H. pose proof Hnew as [_ _ [Hty' _] _ _ Hnames _ _ _]. clear Hr.
  revert start H. induction ns as [|x ns IH]; intros cur; cbn [app resolve].
  - intros [= ->]. rewrite with_new_lookup, decide_True by done. cbn [mbind option_bind]. by rewrite decide_True, Hnames, decide_True.
  - destruct (with_new _ _ _ _ _ !! cur) as [e|]; [|done]. cbn [mbind option_bind]. destruct (decide _); [|done].
    destruct (dir_lookup x _) as [y|]; [|done]. cbn [mbind option_bind]. apply IH.
Qed.
End tree.

(** ** What create promises *)

Section create.
Context {S : Type} `{!Txn S, !DevSw S}.
Implicit Types (sb : superblock) (ic : list inode) (t : S) (v : tview).

(** create when the name is there: the file itself, or a refusal. *)
Lemma create_old_ok sb ic0 ic t v ds dp p i type k ip ic1 t1 e :
  icache_ok ic0 ds → visiting ic0 sb ic t v ds dp p i → lives ic0 ds p → fs_rep sb ic1 t1 v ds → got ic ic1 ip k → ds !! k = Some e → d_nlink e ≠ 0 →
  let m := (iunlockput dp;; ilock (Some ip);; i ← ino ip;
            if (type =? T_FILE) && (d_type (i_d i) =? T_FILE) then mret (Some ip) else iunlockput ip;; mret None) (FState sb ic1 t1) in
  if (type =? T_FILE) && (d_type e =? T_FILE) then
    ∃ ip ic' t' j, m = Ok (Some ip) (FState sb ic' t') ∧ visiting ic0 sb ic' t' v ds ip k j ∧ i_d j = e
  else ∃ ic' t', m = Ok None (FState sb ic' t') ∧ back ic0 sb ic' t' v ds.
Proof.
  intros Hic0 Hvi Hlive Hfs1 Hgot He Hnl m. subst m.
  destruct (advance ic0 sb ic t v ds dp p i ic1 t1 ip k Hic0 Hvi Hlive Hfs1 Hgot) as (ic2 & E2 & Hho). rewrite (bind_ok _ _ _ _ _ E2).
  destruct (visit ic0 sb ic2 t1 v ds ip k e Hho He) as (ic3 & t3 & j & E3 & Hvi3 & Ed). rewrite (bind_ok _ _ _ _ _ E3).
  rewrite (ino_step _ ip j sb ic3) by apply Hvi3. rewrite Ed. destruct ((type =? T_FILE) && (d_type e =? T_FILE)); [by exists ip, ic3, t3, j|].
  destruct (leave ic0 sb ic3 t3 v ds ip k j Hic0 Hvi3) as (ic4 & E4 & Hb); [exists e; split; [done|by left]|].
  exists ic4, t3. split; [exact (bind_ok _ _ _ _ _ E4)|done].
Qed.

(** C8: create makes the name that a path ends in, and returns its inode
    locked with one reference more.  When the directory of the path is not
    there, nothing happens.  When the name is there, only create of a file
    that is a file returns it, and nothing changes.  Otherwise the first free
    inode of the disk becomes the file or directory, with one link and, for a
    directory, the names "." and ".." and one link more on the parent; the
    path stands for it; the tree stays in order; and every other name and
    file is what it was. *)
Theorem create_correct sb ic t v ds cwd cwdnum path type major minor ns n :
  can_walk sb ic t v ds cwd cwdnum path → names path = ns ++ [n] →
  let m := create cwd path type major minor (FState sb ic t) in
  match (p ← resolve (t_blocks v) ds (start cwdnum path) ns; d ← ds !! p; if decide (d_type d = T_DIR) then Some (p, d) else None) with
  | None => ∃ ic' t', m = Ok None (FState sb ic' t') ∧ back ic sb ic' t' v ds
  | Some (p, d) =>
      match dir_lookup n (content (t_blocks v) d) with
      | Some k => ∃ e, ds !! k = Some e ∧
          if (type =? T_FILE) && (d_type e =? T_FILE) then
            ∃ ip ic' t' j, m = Ok (Some ip) (FState sb ic' t') ∧ visiting ic sb ic' t' v ds ip k j ∧ i_d j = e
          else ∃ ic' t', m = Ok None (FState sb ic' t') ∧ back ic sb ic' t' v ds
      | None => ∀ f, can_create sb v p f type major minor d →
          ∃ ip ic' t' v' j d' nd, let ds' := with_new ds p f d' nd in
            m = Ok (Some ip) (FState sb ic' t') ∧ visiting ic sb ic' t' v' ds' ip f j ∧ i_d j = nd ∧
            new_tree (t_blocks v) (t_blocks v') ds p n f type major minor d d' nd ∧
            tree_ok (t_blocks v') ds' ∧ resolve (t_blocks v') ds' (start cwdnum path) (names path) = Some f
      end
  end.
Proof.
  intros Hw En m. pose proof Hw as [Hfs0 Htree _ _ _ _ _]. pose proof (parent_ok sb ic t v ds cwd cwdnum path ns n Hw En) as H. subst m. unfold create.
  destruct (resolve _ _ _ ns) as [p|] eqn:Er; cbn [mbind option_bind] in *; [|gives_up H].
  destruct (ds !! p) as [d|]; cbn [mbind option_bind] in *; [|gives_up H].
  destruct (decide (d_type d = T_DIR)) as [Hty|_]; [|gives_up H].
  destruct H as (dp & ic1 & t1 & ic2 & t2 & i & E1 & E2 & <- & [Hvi Hlive Had Hname Hsz Hent]).
  rewrite (bind_ok _ _ _ _ _ E1), (bind_ok _ _ _ _ _ E2). pose proof Hvi as [Hfs2 _ _ Hq2 _ Hlk2].
  pose proof (dirlookup_ok sb ic2 t2 v ds dp p i n Had Hname) as Hlook. cbv zeta in Hlook.
  unfold dir_lookup in *. destruct (dir_find n _) as [[off de]|] eqn:Ef; cbn [fmap option_fmap option_map snd] in *.
  - destruct (Hent _ eq_refl) as (e & He & Hnl). exists e. split; [done|].
    destruct Hlook as (ip & ic3 & t3 & E3 & Hfs3 & Hgot); [intros r [= <-]; split; [by exists e|done]|]. rewrite (bind_ok _ _ _ _ _ E3).
    by apply (create_old_ok sb ic ic2 t2 v ds dp p i type _ ip ic3 t3 e); [apply Hfs0|..].
  - intros f Hcc. destruct Hlook as (t3 & E3 & [Hfs3 _ _ _]); [done|]. rewrite (bind_ok _ _ _ _ _ E3).
    rewrite (ino_step _ dp i sb ic2) by apply Hlk2. assert (i_dev i = ROOTDEV) as -> by (eapply (co_dev (fr_cache Hfs2) dp i); apply Hlk2).
    destruct (prepare_ok sb ic2 t3 v ds dp p i type major minor f Hfs3 Hlk2 Hq2 Hsz Hcc) as (ip & j & ic4 & t4 & v4 & d1 & nd & Hpp & E4). rewrite E4.
    destruct (name_new_ok ic sb ic2 ic4 t3 v ds dp p i n type major minor f t4 v4 ip j d1 nd) as (ic5 & t5 & v5 & d' & E5 & Hvi5 & Ej & Hnew); [apply Hfs0|done|by destruct Hvi; split|done..|].
    assert (dir_lookup n (content (t_blocks v) (i_d i)) = None) as Hnone by (unfold dir_lookup; by rewrite Ef).
    exists ip, ic5, t5, v5, j, d', nd. split; [exact E5|]. split; [done|]. split; [done|]. split; [done|]. split.
    + eapply new_tree_ok; [done|intros Ht; apply (cc_dir _ _ _ _ _ _ _ _ Hcc Ht)|done].
    + rewrite En. by eapply new_tree_path.
Qed.
End create.

(** ** An example

    The tree of the example of FsNames, in which the current directory is a. *)
Module Example.
Import FsNames.Example.

Lemma ex_darea : inode_area ex_dsb ex_dblocks.
Proof.
  assert (∀ k, 1 ≤ k < 8 → (k / IPB + 2 <? 3) && whole_block ex_dblocks (IBLOCK k ex_dsb) = true) as H.
  { intros k Hk. apply (all_below_ok 8 (λ k, (k / IPB + 2 <? 3) && whole_block ex_dblocks (IBLOCK k ex_dsb))); [vm_compute; reflexivity|lia]. }
  split; intros k Hk; specialize (H k Hk); apply andb_true_iff in H as [H1%Z.ltb_lt H2%whole_block_ok]; done.
Qed.

Lemma ex_first : first_inode ex_dsb ex_dblocks 4.
Proof.
  split; [cbn; lia|]. split; [vm_compute; reflexivity|]. intros k Hk. apply Z.eqb_neq, negb_true_iff.
  pose proof (all_below_ok 4 (λ k, (k =? 0) || negb (d_type (idisk ex_dsb ex_dblocks k) =? 0)) k ltac:(vm_compute; reflexivity) ltac:(lia)) as Hc.
  cbn beta in Hc. by rewrite (proj2 (Z.eqb_neq k 0)) in Hc by lia.
Qed.

Lemma ex_can_create type : type = T_DIR ∨ type = T_FILE → can_create ex_dsb ex_tview 1 4 type 0 0 ex_root.
Proof.
  intros Ht. split; [apply ex_darea|apply ex_first|done| |by vm_compute| | |].
  - split; [|by destruct Ht as [-> | ->]]. split; [by destruct Ht as [-> | ->]|done|done|done|done|done|]. by apply (Forall_replicate _ 13 0).
  - destruct Ht as [-> | ->]; vm_compute; lia.
  - destruct Ht as [-> | ->]; vm_compute; lia.
  - intros _. by vm_compute.
Qed.
End Example.

Import FsNames.Example Example.

(** mkdir of /d, then open of f in a, and of a file /a. *)
Lemma create_correct_witness :
  (∃ ip ic' t' v' d' nd, create 0 [47; 100] T_DIR 0 0 (FState ex_dsb ex_cache ex_tview) = Ok (Some ip) (FState ex_dsb ic' t') ∧
     trep t' v' ∧ resolve (t_blocks v') (with_new ex_tree 1 4 d' nd) ROOTINO [[100]; DOTDOT; [97]; [102]] = Some 3) ∧
  (∃ ip ic' t', create 0 [102] T_FILE 0 0 (FState ex_dsb ex_cache ex_tview) = Ok (Some ip) (FState ex_dsb ic' t') ∧ ∃ i, slot ic' ip 3 i) ∧
  (∃ ic' t', create 0 [47; 97] T_FILE 0 0 (FState ex_dsb ex_cache ex_tview) = Ok None (FState ex_dsb ic' t') ∧ refs ic' = {[2 := 1]}).
Proof.
  split; [|split].
  - pose proof (create_correct ex_dsb ex_cache ex_tview ex_tview ex_tree 0 2 [47; 100] T_DIR 0 0 [] [100] (ex_can_walk [47; 100] eq_refl) eq_refl) as H.
    cbv zeta in H. change (start 2 [47; 100]) with 1 in H. cbn [resolve mbind option_bind] in H. change (ex_tree !! 1) with (Some ex_root) in H.
    cbn [mbind option_bind] in H. rewrite decide_True in H by reflexivity. replace (dir_lookup [100] _) with (@None Z) in H by (vm_compute; reflexivity).
    destruct (H 4 (ex_can_create T_DIR (or_introl eq_refl))) as (ip & ic' & t' & v' & j & d' & nd & E & Hvi & _ & Hnt & _ & _).
    exists ip, ic', t', v', d', nd. split; [exact E|]. split; [apply Hvi|].
    destruct Hnt as [_ _ [Ht1 Ht2] _ _ Hn _ Hd Ho]. destruct (Hd eq_refl) as [_ Hx].
    cbn [resolve]. rewrite !with_new_lookup. change (decide (ROOTINO = 1)) with (@left (1 = 1) (1 ≠ 1) eq_refl). cbn [mbind option_bind].
    rewrite decide_True, Hn, decide_True by done. cbn [mbind option_bind]. rewrite with_new_lookup. cbn [mbind option_bind decide].
    rewrite (decide_False (P := 4 = 1)), (decide_True (P := 4 = 4)) by done. cbn [mbind option_bind]. rewrite decide_True, Hx, decide_True by done. cbn [mbind option_bind].
    rewrite with_new_lookup, (decide_True (P := 1 = 1)) by done. cbn [mbind option_bind]. rewrite decide_True, Hn, decide_False by done.
    replace (dir_lookup [97] _) with (Some 2) by (vm_compute; reflexivity). cbn [mbind option_bind].
    rewrite with_new_lookup, (decide_False (P := 2 = 1)), (decide_False (P := 2 = 4)) by done. change (ex_tree !! 2) with (Some ex_a). cbn [mbind option_bind].
    rewrite decide_True by done. rewrite (Ho 2 ex_a) by done. by replace (dir_lookup [102] _) with (Some 3) by (vm_compute; reflexivity).
  - pose proof (create_correct ex_dsb ex_cache ex_tview ex_tview ex_tree 0 2 [102] T_FILE 0 0 [] [102] (ex_can_walk [102] eq_refl) eq_refl) as H.
    cbv zeta in H. change (start 2 [102]) with 2 in H. cbn [resolve mbind option_bind] in H. change (ex_tree !! 2) with (Some ex_a) in H.
    cbn [mbind option_bind] in H. rewrite decide_True in H by reflexivity. replace (dir_lookup [102] _) with (Some 3) in H by (vm_compute; reflexivity).
    destruct H as (e & [= <-] & ip & ic' & t' & j & E & Hvi & _). exists ip, ic', t'. split; [exact E|]. eexists. apply Hvi.
  - pose proof (create_correct ex_dsb ex_cache ex_tview ex_tview ex_tree 0 2 [47; 97] T_FILE 0 0 [] [97] (ex_can_walk [47; 97] eq_refl) eq_refl) as H.
    cbv zeta in H. change (start 2 [47; 97]) with 1 in H. cbn [resolve mbind option_bind] in H. change (ex_tree !! 1) with (Some ex_root) in H.
    cbn [mbind option_bind] in H. rewrite decide_True in H by reflexivity. replace (dir_lookup [97] _) with (Some 2) in H by (vm_compute; reflexivity).
    destruct H as (e & [= <-] & ic' & t' & E & Hb). exists ic', t'. split; [exact E|]. rewrite (bk_refs _ _ _ _ _ _ Hb). vm_compute. reflexivity.
Defined.
