(* ===== verification/SysLink.v ===== *)
(** * Linking

    sys_link of sysfile.c against the tree of names: a second name for a file,
    or a refusal that leaves the link count as it was. *)

From S2P Require Import Prelude Params Disk Superblock Txn Fs FsBlocks FsInode FsBmap FsIo FsDinode FsIcache FsTrunc FsWrite FsDir FsPath FsCheck FsNames FsLife Sysfile SysInodes.

(** ** The tree with another name *)

Section tree.
Context (m m' : gmap Z block) (ds : gmap Z dinode).

(** Nothing has changed but the link count of file [k], from that of [e] to that of [e']. *)
Record relinked (k : Z) (e e' : dinode) : Prop := Relinked {
  rl_file : ds !! k = Some e;
  rl_type : d_type e ≠ T_DIR ∧ d_type e' = d_type e;
  rl_nlink : d_nlink e' ≠ 0;
  rl_content : content m' e' = content m e;
  rl_other j x : j ≠ k → ds !! j = Some x → content m' x = content m x;
}.

Lemma relinked_resolve k e e' start ns :
  relinked k e e' → resolve m' (<[k := e']> ds) start ns = resolve m ds start ns.
Proof.
  intros [Hk [Ht Ht'] _ _ Ho]. revert start. induction ns as [|x ns IH]; intros cur; [done|]. cbn [resolve].
  destruct (decide (cur = k)) as [->|Hne].
  - rewrite lookup_insert_eq, Hk. cbn [mbind option_bind]. rewrite !decide_False by congruence. done.
  - rewrite lookup_insert_ne by done. destruct (ds !! cur) as [d|] eqn:Hd; [|done]. cbn [mbind option_bind].
    destruct (decide (d_type d = T_DIR)); [|done]. rewrite (Ho cur d) by done.
    destruct (dir_lookup x (content m d)) as [y|]; [|done]. cbn [mbind option_bind]. apply IH.
Qed.

Lemma relinked_tree k e e' : relinked k e e' → tree_ok m ds → tree_ok m' (<[k := e']> ds).
Proof.
  intros [Hk [Ht Ht'] Hnl _ Ho] [Hdir Hent]. split.
  - intros j d. destruct (decide (j = k)) as [->|Hne]; [rewrite lookup_insert_eq; intros [= <-]; congruence|].
    rewrite lookup_insert_ne by done. intros Hd Hty. rewrite (Ho j d) by done. by apply (Hdir j).
  - intros j d n y. destruct (decide (j = k)) as [->|Hne]; [rewrite lookup_insert_eq; intros [= <-]; congruence|].
    rewrite lookup_insert_ne by done. intros Hd Hty. rewrite (Ho j d) by done. intros Hn.
    destruct (Hent j d n y Hd Hty Hn) as (x & Hx & Hxn). destruct (decide (y = k)) as [->|Hyk].
    + exists e'. by rewrite lookup_insert_eq.
    + exists x. by rewrite lookup_insert_ne.
Qed.

(** File [k] has the name [n] in directory [p] as well. *)
Record linked (p : Z) (n : list Z) (k : Z) (d d' e e' : dinode) : Prop := Linked {
  li_dir : ds !! p = Some d ∧ d_type d = T_DIR ∧ d_type d' = T_DIR ∧ d_nlink d' = d_nlink d;
  li_file : ds !! k = Some e ∧ d_type e ≠ T_DIR;
  li_nlink : e' = set_nlink (d_nlink e + 1) e;
  li_ok : dir_ok (content m' d');
  li_names x : dir_lookup x (content m' d') = if decide (x = n) then Some k else dir_lookup x (content m d);
  li_content : content m' e' = content m e;
  li_other j x : j ≠ p → j ≠ k → ds !! j = Some x → content m' x = content m x;
}.

Definition with_link (p k : Z) (d' e' : dinode) : gmap Z dinode := <[p := d']> (<[k := e']> ds).

Section linked.
Context (p : Z) (n : list Z) (k : Z) (d d' e e' : dinode).
Context (Hli : linked p n k d d' e e').

Lemma with_link_lookup j :
  with_link p k d' e' !! j = if decide (j = p) then Some d' else if decide (j = k) then Some e' else ds !! j.
Proof using Type.
  clear Hli. unfold with_link. destruct (decide (j = p)) as [->|Hp]; [apply lookup_insert_eq|]. rewrite lookup_insert_ne by done.
  destruct (decide (j = k)) as [->|Hk]; [apply lookup_insert_eq|by rewrite lookup_insert_ne].
Qed.

Lemma linked_tree : 0 ≤ d_nlink e → tree_ok m ds → tree_ok m' (with_link p k d' e').
Proof using Hli.
  intros Hpos [Hdir Hent]. pose proof Hli as [(Hd & Hty & Hty' & Hnl) (He & Hte) He' Hok Hnames Hc Ho].
  assert (d_nlink e' ≠ 0 ∧ d_type e' ≠ T_DIR) as [Hn' Ht'] by (rewrite He'; cbn; split; [lia|done]).
  assert (∀ y x, ds !! y = Some x → d_nlink x ≠ 0 →
    ∃ x', with_link p k d' e' !! y = Some x' ∧ d_nlink x' ≠ 0) as Hkeep.
  { intros y x Hx Hxn. rewrite with_link_lookup. destruct (decide (y = p)) as [->|]; [exists d'; split; [done|congruence]|].
    destruct (decide (y = k)) as [->|]; [by exists e'|by exists x]. }
  split.
  - intros j x. rewrite with_link_lookup. destruct (decide (j = p)) as [->|]; [by intros [= <-]|].
    destruct (decide (j = k)) as [->|]; [by intros [= <-]|]. intros Hx Hxt. rewrite (Ho j x) by done. by apply (Hdir j).
  - intros j x a y. rewrite with_link_lookup. destruct (decide (j = p)) as [->|Hjp]; [|destruct (decide (j = k)) as [->|Hjk]].
    + intros [= <-] _. rewrite Hnames. destruct (decide (a = n)) as [->|].
      * intros [= <-]. rewrite with_link_lookup. destruct (decide (k = p)) as [->|]; [congruence|]. rewrite decide_True by done. by exists e'.
      * intros Ha. destruct (Hent p d a y Hd Hty Ha) as (x & Hx & Hxn). by apply (Hkeep y x).
    + intros [= <-]. done.
    + intros Hx Hxt. rewrite (Ho j x) by done. intros Ha. destruct (Hent j x a y Hx Hxt Ha) as (z & Hz & Hzn). by apply (Hkeep y z).
Qed.

(** The old names still stand for what they stood for, and the new path for
    the file. *)
Lemma linked_resolve start ns y :
  dir_lookup n (content m d) = None → resolve m ds start ns = Some y → resolve m' (with_link p k d' e') start ns = Some y.
Proof using Hli.
  pose proof Hli as [(Hd & Hty & Hty' & _) (He & Hte) _ _ Hnames _ Ho]. intros Hnone. revert start.
  induction ns as [|x ns IH]; intros cur; [done|]. cbn [resolve].
  destruct (ds !! cur) as [z|] eqn:Hz; [|done]. cbn [mbind option_bind]. destruct (decide (d_type z = T_DIR)) as [Ht|]; [|done].
  destruct (dir_lookup x (content m z)) as [w|] eqn:Hx; [|done]. cbn [mbind option_bind]. intros Hr. rewrite with_link_lookup.
  destruct (decide (cur = p)) as [->|Hp].
  - assert (z = d) as -> by congruence. cbn [mbind option_bind]. rewrite decide_True, Hnames, decide_False by (done || congruence).
    rewrite Hx. by apply IH.
  - rewrite decide_False by congruence. rewrite Hz. cbn [mbind option_bind]. rewrite decide_True by done.
    rewrite (Ho cur z) by congruence. rewrite Hx. by apply IH.
Qed.

Lemma linked_path start ns :
  dir_lookup n (content m d) = None → resolve m ds start ns = Some p → resolve m' (with_link p k d' e') start (ns ++ [n]) = Some k.
Proof using Hli.
  intros Hnone Hr. pose proof (linked_resolve start ns p Hnone Hr) as H. pose proof Hli as [(_ & _ & Hty' & _) _ _ _ Hnames _ _]. clear Hr.
  revert start H. induction ns as [|x ns IH]; intros cur; cbn [app resolve].
  - intros [= ->]. rewrite with_link_lookup, decide_True by done. cbn [mbind option_bind]. by rewrite decide_True, Hnames, decide_True.
  - destruct (with_link _ _ _ _ !! cur) as [z|]; [|done]. cbn [mbind option_bind]. destruct (decide _); [|done].
    destruct (dir_lookup x _) as [y|]; [|done]. cbn [mbind option_bind]. apply IH.
Qed.
End linked.
End tree.

(** ** The call *)

Section link.
Context {S : Type} `{!Txn S, !DevSw S}.
Implicit Types (sb : superblock) (ic : list inode) (t : S) (v : tview).

(** While a client of [ic0] holds inode [k], calls that give back what they
    take leave it that hold. *)
Lemma back_holds ic0 sb ic t v ds ip k ic' t' v' ds' :
  holds ic0 sb ic t v ds ip k → back ic sb ic' t' v' ds' → holds ic0 sb ic' t' v' ds' ip k.
Proof.
  intros [Hfs Hr Hk Hq Hl [i Hsl]] [Hfs' Hr' Hk' Hq' Hl']. split; [done|by rewrite Hr'|by eapply slots_kept_trans|done|by rewrite Hl'|].
  destruct Hsl as [Hip Hi Ei]. destruct (Hk' ip i Hip Hi) as (i' & Hip' & Hi' & Ei'). exists i'. split; [done|done|congruence].
Qed.

(** The reference is given up. *)
Lemma holds_drop ic0 ds0 sb ic t v ds ip k d :
  icache_ok ic0 ds0 → holds ic0 sb ic t v ds ip k → ds !! k = Some d → d_nlink d ≠ 0 →
  ∃ ic', iput ip (FState sb ic t) = Ok tt (FState sb ic' t) ∧ back ic0 sb ic' t v ds.
Proof.
  intros Hic0 [Hfs Hr Hk Hq Hl [i Hsl]] Hd Hnl.
  pose proof (slot_count ic ds ip k i _ (fr_cache Hfs) Hr Hsl) as Hn%incr_count.
  destruct (iput_ok sb ic t v ds ip k i d Hfs Hsl Hd (or_intror Hnl)) as (E & Hfs' & Hr').
  eexists. split; [exact E|]. split; [done| | | |by rewrite length_insert].
  - rewrite Hr', Hr. apply decr_incr. intros n. by apply (refs_pos ic0 ds0).
  - apply (kept_give_back ic0 ds0 ic ip k i); [done|done|done|apply Hsl|done|]. intros [n Hs]. rewrite Hs in Hn. cbn in Hn.
    pose proof (refs_pos ic0 ds0 k n Hic0 Hs). lia.
  - eapply quiet_but_insert; [done|apply Hsl|]. right. by apply (Hq ip i); [apply Hsl|apply Hsl|].
Qed.

(** The count goes up, and the inode is unlocked. *)
Lemma link_up_ok ic0 sb ic t v ds ip k e r :
  visiting ic0 sb ic t v ds ip k e → 0 ≤ d_nlink (i_d e) < 2 ^ 15 - 1 → d_type (i_d e) ≠ T_DIR → slack sb v (Datatypes.S r) →
  let e' := set_nlink (d_nlink (i_d e) + 1) (i_d e) in
  ∃ ic' t' v', (∀ A (c : M (fstate S) A), (add_nlink ip 1;; iupdate ip;; iunlock (Some ip);; c) (FState sb ic t) = c (FState sb ic' t')) ∧
    holds ic0 sb ic' t' v' (<[k := e']> ds) ip k ∧ relinked (t_blocks v) (t_blocks v') ds k (i_d e) e' ∧
    slack sb v' r ∧ IBLOCK k sb ∈ t_logged v' ∧ free_blocks sb (t_blocks v') = free_blocks sb (t_blocks v).
Proof.
  intros Hvi Hn Ht Hs e'. pose proof Hvi as [Hfs _ _ _ _ Hlk]. pose proof (locked_inode _ _ _ _ _ _ _ _ Hfs Hlk) as Hd.
  pose proof (cost_le v (IBLOCK k sb)) as Hc.
  destruct (add_nlink_ok sb ic t v ds ip k e 1 r Hfs Hlk) as (t1 & v1 & E1 & Hfs1 & C1 & O1 & S1 & L1 & F1 & _);
    [lia|eapply slack_le; [|exact Hs]; lia|].
  pose proof (visiting_disk _ _ _ _ _ _ _ _ _ _ _ _ _ Hvi Hfs1) as Hvi1.
  destruct (unlock _ _ _ _ _ _ _ _ _ Hvi1) as (ic2 & E2 & Hho).
  exists ic2, t1, v1. split; [|split; [done|split; [|split; [done|split; [rewrite L1; set_solver|done]]]]].
  - intros A c. rewrite <- bind_assoc. mstep E1. by mstep E2.
  - split; [done|done|cbn; lia|done|done].
Qed.

(** [bad:] puts the count back and gives up the inode. *)
Lemma link_bad_ok ic0 ds0 sb ic t v ds ip k e :
  icache_ok ic0 ds0 → 0 ≤ d_nlink e < 2 ^ 15 - 1 → stays ic0 k e → ds !! k = Some e →
  let e' := set_nlink (d_nlink e + 1) e in
  holds ic0 sb ic t v (<[k := e']> ds) ip k → slack sb v 0 → IBLOCK k sb ∈ t_logged v →
  ∃ ic' t' v', link_bad ip (FState sb ic t) = Ok (-1) (FState sb ic' t') ∧ back ic0 sb ic' t' v' ds ∧
    content (t_blocks v') e = content (t_blocks v) e' ∧
    ∀ j x, j ≠ k → ds !! j = Some x → content (t_blocks v') x = content (t_blocks v) x.
Proof.
  intros Hic0 Hn Hst He e' Hho Hs Hlog. unfold link_bad.
  destruct (visit _ _ _ _ _ _ _ _ e' Hho (lookup_insert_eq _ _ _)) as (ic1 & t1 & i & E1 & Hvi & Ed). mstep E1.
  pose proof Hvi as [Hfs _ _ _ _ Hlk].
  destruct (add_nlink_ok sb ic1 t1 v _ ip k i (-1) 0 Hfs Hlk) as (t2 & v2 & E2 & Hfs2 & C2 & O2 & _).
  { rewrite Ed. cbn. lia. } { by rewrite cost_logged. }
  rewrite <- bind_assoc. mstep E2. pose proof (visiting_disk _ _ _ _ _ _ _ _ _ _ _ _ _ Hvi Hfs2) as Hvi2.
  assert (set_nlink (d_nlink (i_d i) + -1) (i_d i) = e) as Ee.
  { rewrite Ed. unfold e', set_nlink. cbn. destruct e. cbn. f_equal. lia. }
  rewrite Ee, insert_insert_eq, (insert_id ds) in Hvi2 by done. rewrite Ee in *.
  destruct (visiting_drop ic0 ds0 _ _ _ _ _ _ _ _ Hic0 Hvi2 Hst) as (ic3 & E3 & Hb). mstep E3.
  exists ic3, t2, v2. split; [done|]. split; [done|]. split; [by rewrite C2, Ed|].
  intros j x Hj Hx. apply (O2 j x Hj). by rewrite lookup_insert_ne.
Qed.
(** The call returns -1, and nothing has changed: not the inodes, not what is
    in the files, not the references. *)
Definition refused (m : outcome (fstate S) Z) ic sb v (ds : gmap Z dinode) : Prop :=
  ∃ ic' t' v', m = Ok (-1) (FState sb ic' t') ∧ back ic sb ic' t' v' ds ∧
    ∀ j x, ds !! j = Some x → content (t_blocks v') x = content (t_blocks v) x.

Lemma back_refused (m : outcome (fstate S) Z) ic sb v ds ic' t' : m = Ok (-1) (FState sb ic' t') → back ic sb ic' t' v ds → refused m ic sb v ds.
Proof. intros -> Hb. by exists ic', t', v. Qed.

(** The directory that a path leads to. *)
Definition dir_of v (ds : gmap Z dinode) (cur : Z) (ns : list (list Z)) : option (Z * dinode) :=
  p ← resolve (t_blocks v) ds cur ns; d ← ds !! p; if decide (d_type d = T_DIR) then Some (p, d) else None.

Lemma relinked_dir v v' ds k e e' cur ns :
  relinked (t_blocks v) (t_blocks v') ds k e e' → dir_of v' (<[k := e']> ds) cur ns = dir_of v ds cur ns.
Proof.
  intros Hrl. pose proof Hrl as [He [Ht Ht'] _ _ _]. unfold dir_of. rewrite (relinked_resolve _ _ _ _ _ _ _ _ Hrl).
  destruct (resolve _ _ _ _) as [p|]; [|done]. cbn [mbind option_bind]. destruct (decide (p = k)) as [->|Hp]; [|by rewrite lookup_insert_ne].
  rewrite lookup_insert_eq, He. cbn [mbind option_bind]. rewrite !decide_False by congruence. done.
Qed.

(** *** After the count has gone up *)

Section counted.
Context (ic0 : list inode) (sb : superblock) (v0 v : tview) (ds : gmap Z dinode) (k : Z) (e : dinode).
Let e' : dinode := set_nlink (d_nlink e + 1) e.
Let ds1 : gmap Z dinode := <[k := e']> ds.
Context (Hic0 : icache_ok ic0 ds) (Hst : stays ic0 k e) (Hn : 0 ≤ d_nlink e < 2 ^ 15 - 1).
Context (Hrl : relinked (t_blocks v0) (t_blocks v) ds k e e') (Hs : slack sb v 3) (Hlog : IBLOCK k sb ∈ t_logged v).

Lemma link_bad_refused ic t ip : holds ic0 sb ic t v ds1 ip k → refused (link_bad ip (FState sb ic t)) ic0 sb v0 ds.
Proof using Hic0 Hst Hn Hrl Hs Hlog.
  intros Hho. pose proof Hrl as [He _ _ Hc Ho].
  destruct (link_bad_ok ic0 ds sb ic t v ds ip k e Hic0 Hn Hst He Hho) as (ic' & t' & v' & E & Hb & Hc' & Ho');
    [by eapply slack_le; [|exact Hs]; lia|done|].
  exists ic', t', v'. split; [done|]. split; [done|]. intros j x Hx. destruct (decide (j = k)) as [->|Hj].
  - assert (x = e) as -> by congruence. by rewrite Hc'.
  - rewrite (Ho' j x) by done. by apply (Ho j).
Qed.

(** The directory of the new name is locked. *)
Lemma link_entry_ok ic t ip ic1 t1 dp p i n :
  holds ic0 sb ic t v ds1 ip k → opened ic sb ic1 t1 v ds1 dp p i n →
  let m := (d ← ino dp; i ← ino ip;
            r ← (if i_dev d =? i_dev i then dirlink dp n (i_inum i) else mret (-1));
            if r <? 0 then iunlockput dp;; link_bad ip else iunlockput dp;; iput ip;; mret 0) (FState sb ic1 t1) in
  match dir_lookup n (content (t_blocks v0) (i_d i)) with
  | Some _ => refused m ic0 sb v0 ds
  | None => 0 < k < 2 ^ 16 → d_size (i_d i) + sizeof_dirent ≤ MAXFILE * BSIZE → (2 ≤ size (free_blocks sb (t_blocks v)))%nat →
      ∃ ic' t' v' d', m = Ok 0 (FState sb ic' t') ∧ back ic0 sb ic' t' v' (with_link ds p k d' e') ∧
        linked (t_blocks v0) (t_blocks v') ds p n k (i_d i) d' e e'
  end.
Proof using Hic0 Hst Hn Hrl Hs Hlog.
  intros Hho [Hvi Hlive Had Hname Hfree Hent] m. pose proof Hrl as [He [Ht _] _ Hc Ho]. pose proof (ho_fs _ _ _ _ _ _ _ _ Hho) as Hfs.
  pose proof Had as [Hfs1 Hlk Hty Hdo]. pose proof (locked_inode _ _ _ _ _ _ _ _ Hfs1 Hlk) as Hd.
  assert (p ≠ k) as Hpk by (intros ->; unfold ds1 in Hd; rewrite lookup_insert_eq in Hd; injection Hd as Hd; rewrite <- Hd in Hty; cbn in Hty; congruence).
  assert (ds !! p = Some (i_d i)) as Hd0 by (unfold ds1 in Hd; by rewrite lookup_insert_ne in Hd).
  rewrite <- (Ho p (i_d i)) by done. pose proof (lives_stays _ _ _ _ Hlive Hd) as Hstp.
  destruct (ho_slot _ _ _ _ _ _ _ _ Hho) as [j0 [Hip0 Hj0 Ej0]]. destruct (vi_kept _ _ _ _ _ _ _ _ _ Hvi ip j0 Hip0 Hj0) as (j & Hip & Hj & Ej).
  destruct (co_dev (fr_cache Hfs1) ip j Hip Hj) as [Edj _], (co_dev (fr_cache Hfs1) dp i (sl_at _ _ _ _ (lk_slot _ _ _ _ Hlk)) (sl_ref _ _ _ _ (lk_slot _ _ _ _ Hlk))) as [Edi _].
  assert (m = (r ← dirlink dp n k; if r <? 0 then iunlockput dp;; link_bad ip else iunlockput dp;; iput ip;; mret 0) (FState sb ic1 t1)) as ->.
  { subst m. rewrite (ino_step _ dp i) by apply Hlk. rewrite (ino_step _ ip j) by done. rewrite Edj, Edi, Z.eqb_refl, Ej, Ej0. done. }
  unfold dir_lookup in Hent |- *. destruct (dir_find n _) as [[x de]|] eqn:Ef; cbn [fmap option_fmap option_map snd] in *.
  - destruct (Hent _ eq_refl) as (y & Hy & Hyn).
    destruct (dirlink_exists sb ic1 t1 v ds1 dp p i n k x de y) as (ic2 & i2 & t2 & E2 & Had2 & Ed2 & Hr2 & Hk2 & Hl2 & Hq2); [done..|].
    assert (visiting ic sb ic2 t2 v ds1 dp p i2) as Hvi2.
    { destruct Hvi as [_ H1 H2 H3 H4 _]. split; [apply Had2|congruence|by eapply slots_kept_trans|by apply Hq2|congruence|apply Had2]. }
    destruct (visiting_drop ic ds1 _ _ _ _ _ _ _ _ (fr_cache Hfs) Hvi2) as (ic3 & E3 & Hb3); [congruence|].
    mstep E2. change (-1 <? 0) with true. cbn iota. mstep E3. apply link_bad_refused. by eapply back_holds.
  - intros Hk Hsz Hfb.
    destruct (dirlink_new sb ic1 t1 v ds1 dp p i n k 0 0) as (d' & t2 & v2 & E2 & Had2 & Hnames & Ho2 & Hnl2 & Hty2 & _); [done..| | |].
    { eapply slack_le; [|exact Hs]. pose proof (cost_le v (IBLOCK p sb)). unfold ind_cost. case_decide; lia. }
    { unfold ind_need. case_decide; lia. }
    pose proof (visiting_disk _ _ _ _ _ _ _ _ _ d' t2 v2 _ Hvi (ad_fs _ _ _ _ _ _ _ _ Had2)) as Hvi2.
    destruct (visiting_drop ic ds1 _ _ _ _ _ _ _ _ (fr_cache Hfs) Hvi2) as (ic3 & E3 & Hb3).
    { destruct Hstp as [H|H]; [by left|right; cbn; congruence]. }
    destruct (holds_drop ic0 ds sb ic3 t2 v2 _ ip k e' Hic0 (back_holds _ _ _ _ _ _ _ _ _ _ _ _ Hho Hb3)) as (ic4 & E4 & Hb4).
    { rewrite lookup_insert_ne by done. apply lookup_insert_eq. } { cbn. lia. }
    exists ic4, t2, v2, d'. split; [mstep E2; change (0 <? 0) with false; cbn iota; mstep E3; by mstep E4|]. split; [done|].
    split; [done|done|done|apply Had2|intros y|..].
    + rewrite Hnames. by rewrite (Ho p (i_d i)).
    + rewrite (Ho2 k e'); [done|done|apply lookup_insert_eq].
    + intros q y Hq1 Hq2 Hy. rewrite (Ho2 q y); [by apply (Ho q)|done|by unfold ds1; rewrite lookup_insert_ne].
Qed.
End counted.
(** The walk to the new name starts where the walk to the old one did. *)
Lemma holds_can_walk sb ic t v ds cwd cwdnum path ic' t' v' ds' ip k new :
  can_walk sb ic t v ds cwd cwdnum path → (size (refs ic) + 3 ≤ length ic)%nat → holds ic sb ic' t' v' ds' ip k →
  tree_ok (t_blocks v') ds' → (∃ d, ds' !! ROOTINO = Some d ∧ d_nlink d ≠ 0) → Forall byte_ok new → 0 ∉ new →
  can_walk sb ic' t' v' ds' cwd cwdnum new.
Proof.
  intros [_ _ _ _ [i [H1 H2 <-]] _ _] Hsz [Hfs Hr Hk Hq Hl _] Htree Hroot Hb H0. split; [done|done|done| | |done|done].
  - rewrite Hr, Hl. pose proof (size_incr (refs ic) k). lia.
  - destruct (Hk cwd i H1 H2) as (i' & Hi' & Hr' & Ei'). exists i'. by split.
Qed.

(** C10: link gives the file of one path another name.  It refuses, with no
    inode, no file and no reference changed, when the old path leads nowhere
    or to a directory, when the directory of the new path is not there and
    when the name is taken; where it has already counted the link it takes it
    back.  Otherwise both paths lead to the file afterwards, the file has one
    link more and the same contents, every path that led somewhere leads
    there still, no other file changes and the tree stays in order. *)
Theorem link_correct sb ic t v ds cwd cwdnum old new ns n :
  can_walk sb ic t v ds cwd cwdnum old → (size (refs ic) + 3 ≤ length ic)%nat →
  Forall byte_ok new → 0 ∉ new → names new = ns ++ [n] → slack sb v 4 →
  let m := link_tx cwd old new (FState sb ic t) in
  match resolve (t_blocks v) ds (start cwdnum old) (names old) with
  | None => refused m ic sb v ds
  | Some k => ∃ e, ds !! k = Some e ∧
      if decide (d_type e = T_DIR) then refused m ic sb v ds
      else 0 ≤ d_nlink e < 2 ^ 15 - 1 →
        match dir_of v ds (start cwdnum new) ns with
        | None => refused m ic sb v ds
        | Some (p, d) =>
            match dir_lookup n (content (t_blocks v) d) with
            | Some _ => refused m ic sb v ds
            | None => 0 < k < 2 ^ 16 → d_size d + sizeof_dirent ≤ MAXFILE * BSIZE → (2 ≤ size (free_blocks sb (t_blocks v)))%nat →
                ∃ ic' t' v' d', let e' := set_nlink (d_nlink e + 1) e in let ds' := with_link ds p k d' e' in
                  m = Ok 0 (FState sb ic' t') ∧ back ic sb ic' t' v' ds' ∧ linked (t_blocks v) (t_blocks v') ds p n k d d' e e' ∧
                  resolve (t_blocks v') ds' (start cwdnum new) (names new) = Some k ∧
                  (∀ cur xs y, resolve (t_blocks v) ds cur xs = Some y → resolve (t_blocks v') ds' cur xs = Some y) ∧
                  tree_ok (t_blocks v') ds'
            end
        end
  end.
Proof.
  intros Hw Hsz Hb H0 En Hs m. pose proof Hw as [Hfs0 Htree _ _ _ (dr & Hroot & Hrn) _]. pose proof (start_lives _ _ _ _ _ _ _ _ Hw) as Hlive0.
  pose proof (namei_ok sb ic t v ds cwd cwdnum old Hw) as H. subst m. unfold link_tx.
  destruct (resolve _ _ _ (names old)) as [k|] eqn:Ek.
  2:{ destruct H as (ic1 & t1 & E1 & Hb1). mstep E1. by apply (back_refused _ ic sb v ds ic1 t1). }
  destruct H as (ip & ic1 & t1 & E1 & Hho1). mstep E1. pose proof (resolve_lives ic _ ds _ _ k Htree Hlive0 Ek) as Hlive.
  pose proof Hlive as (e & He & _). exists e. split; [done|]. pose proof (lives_stays _ _ _ _ Hlive He) as Hst.
  destruct (visit _ _ _ _ _ _ _ _ e Hho1 He) as (ic2 & t2 & i & E2 & Hvi & Ed). mstep E2.
  rewrite (ino_step _ ip i) by apply (vi_lock _ _ _ _ _ _ _ _ _ Hvi). rewrite Ed. destruct (decide (d_type e = T_DIR)) as [Hty|Hty].
  { rewrite Hty, Z.eqb_refl. destruct (visiting_drop ic ds _ _ _ _ _ _ _ _ (fr_cache Hfs0) Hvi) as (ic3 & E3 & Hb3); [by rewrite Ed|].
    mstep E3. by apply (back_refused _ ic sb v ds ic3 t2). }
  rewrite (proj2 (Z.eqb_neq _ _)) by done. intros Hn. subst e.
  destruct (link_up_ok ic sb ic2 t2 v ds ip k i 3 Hvi Hn Hty Hs) as (ic3 & t3 & v3 & E3 & Hho3 & Hrl & Hs3 & Hl3 & Hf3). rewrite E3. clear E3.
  set (e' := set_nlink (d_nlink (i_d i) + 1) (i_d i)) in *.
  assert (can_walk sb ic3 t3 v3 (<[k := e']> ds) cwd cwdnum new) as Hw3.
  { eapply holds_can_walk; [done|done|done|by eapply relinked_tree| |done|done]. destruct (decide (ROOTINO = k)) as [<-|Hne].
    - exists e'. split; [apply lookup_insert_eq|apply Hrl].
    - exists dr. by rewrite lookup_insert_ne. }
  pose proof (parent_ok sb ic3 t3 v3 _ cwd cwdnum new ns n Hw3 En) as H.
  fold (dir_of v3 (<[k := e']> ds) (start cwdnum new) ns) in H. rewrite (relinked_dir v v3 ds k (i_d i) e') in H by done.
  destruct (dir_of v ds _ ns) as [[p d]|] eqn:Ep.
  2:{ destruct H as (ic4 & t4 & E4 & Hb4). mstep E4.
      apply (link_bad_refused ic sb v v3 ds k (i_d i) (fr_cache Hfs0) Hst Hn Hrl Hs3 Hl3). by eapply back_holds. }
  destruct H as (dp & ic4 & t4 & ic5 & t5 & di & E4 & E5 & <- & Hop). mstep E4. mstep E5.
  pose proof (link_entry_ok ic sb v v3 ds k (i_d i) (fr_cache Hfs0) Hst Hn Hrl Hs3 Hl3 ic3 t3 ip ic5 t5 dp p di n Hho3 Hop) as H. cbv zeta in H.
  destruct (dir_lookup n _) as [y|] eqn:Ey; [exact H|]. intros Hk Hd Hf. rewrite Hf3 in H.
  destruct (H Hk Hd Hf) as (ic6 & t6 & v6 & d' & E6 & Hb6 & Hli). exists ic6, t6, v6, d'. cbv zeta. split; [exact E6|]. split; [done|]. split; [done|].
  split; [|split].
  - rewrite En. eapply linked_path; [done|done|]. unfold dir_of in Ep. destruct (resolve _ _ _ ns) as [q|]; [|done]. cbn in Ep.
    destruct (ds !! q); [|done]. cbn in Ep. case_decide; [|done]. congruence.
  - intros cur xs y. by eapply linked_resolve.
  - eapply linked_tree; [done|lia|done].
Qed.
End link.

(** ** An example

    In the tree of the example of FsNames, f gets the name /g but not the name
    /a, which is taken. *)
Module Example.
Import FsNames.Example.

Definition old_f : list Z := [102].
Definition new_g : list Z := [47; 103].
Definition new_a : list Z := [47; 97].

Lemma link_correct_witness :
  (∃ ic' t' v' d', link_tx 0 old_f new_g (FState ex_dsb ex_cache ex_tview) = Ok 0 (FState ex_dsb ic' t') ∧ trep t' v' ∧
     let ds' := with_link ex_tree 1 3 d' (set_nlink 2 ex_f) in
     resolve (t_blocks v') ds' 1 [[103]] = Some 3 ∧ resolve (t_blocks v') ds' 2 [nf] = Some 3 ∧ tree_ok (t_blocks v') ds') ∧
  refused (link_tx 0 old_f new_a (FState ex_dsb ex_cache ex_tview)) ex_cache ex_dsb ex_tview ex_tree.
Proof.
  assert (∀ new, forallb (λ z, (1 <=? z) && (z <? 256)) new = true → Forall byte_ok new ∧ 0 ∉ new) as Hpath.
  { intros new H. exact (cw_path _ _ _ _ _ _ _ _ (ex_can_walk new H)). }
  assert (size (refs ex_cache) + 3 ≤ length ex_cache)%nat as Hsz by (vm_compute; lia).
  assert (slack ex_dsb ex_tview 4) as Hs by (vm_compute; lia).
  pose proof (λ new ns n H, let '(conj Hb H0) := Hpath new H in
    link_correct ex_dsb ex_cache ex_tview ex_tview ex_tree 0 2 old_f new ns n (ex_can_walk old_f eq_refl) Hsz Hb H0) as Hl.
  split.
  - pose proof (Hl new_g [] [103] eq_refl eq_refl Hs) as H. cbv zeta in H. replace (resolve _ _ _ (names old_f)) with (Some 3) in H by (vm_compute; reflexivity).
    destruct H as (e & [= <-] & H). rewrite decide_False in H by discriminate. specialize (H ltac:(vm_compute; split; congruence)).
    change (dir_of ex_tview ex_tree (start 2 new_g) []) with (Some (1, ex_root)) in H. cbn iota in H.
    replace (dir_lookup [103] _) with (@None Z) in H by (vm_compute; reflexivity).
    destruct H as (ic' & t' & v' & d' & E & Hb & _ & H1 & H2 & H3); [lia|vm_compute; congruence|vm_compute; lia|].
    exists ic', t', v', d'. split; [exact E|]. split; [apply Hb|]. split; [exact H1|]. split; [|exact H3]. apply H2. vm_compute. reflexivity.
  - pose proof (Hl new_a [] na eq_refl eq_refl Hs) as H. cbv zeta in H. replace (resolve _ _ _ (names old_f)) with (Some 3) in H by (vm_compute; reflexivity).
    destruct H as (e & [= <-] & H). rewrite decide_False in H by discriminate. specialize (H ltac:(vm_compute; split; congruence)).
    change (dir_of ex_tview ex_tree (start 2 new_a) []) with (Some (1, ex_root)) in H. cbn iota in H.
    replace (dir_lookup na _) with (Some 2) in H by (vm_compute; reflexivity). exact H.
Defined.
End Example.
