(* ===== verification/SysUnlink.v ===== *)
(** * Removing names

    sys_unlink of sysfile.c against the tree of names: the name goes, and the
    inode with it when that was its last link and nobody has it open. *)

From S2P Require Import Prelude Params Disk Superblock Txn Fs FsBlocks FsInode FsBmap FsIo FsDinode FsIcache FsTrunc FsWrite FsDir FsPath FsCheck FsNames FsLife Sysfile SysInodes.

(** ** Empty directories *)

(** No entry behind the first two is in use. *)
Definition dir_empty (l : list Z) : Prop := Forall (λ de, dirent_inum de = 0) (drop 2 (dirents l)).
#[export] Instance dir_empty_dec l : Decision (dir_empty l).
Proof. unfold dir_empty. apply _. Defined.

Section empty.
Context {S : Type} `{!Txn S, !DevSw S}.
Implicit Types (sb : superblock) (ic : list inode) (t : S) (v : tview).

Lemma isdirempty_loop_ok fuel sb ic t v ds ip k i n :
  let es := dirents (content (t_blocks v) (i_d i)) in
  at_dir sb ic t v ds ip k i → (length es - n < fuel)%nat →
  ∃ t', isdirempty_loop fuel ip (Z.of_nat (DE * n)) (FState sb ic t) =
      Ok (bool_decide (Forall (λ de, dirent_inum de = 0) (drop n es))) (FState sb ic t') ∧ at_dir sb ic t' v ds ip k i.
Proof.
  intros es. revert n t. induction fuel as [|fuel IH]; intros n t Had Hf; [lia|]. pose proof Had as [Hfs Hlk _ _].
  pose proof (at_dir_size _ _ _ _ _ _ _ _ Had) as Hsz. cbv zeta in Hsz. rewrite <- length_dirents in Hsz. fold es in Hsz.
  cbn [isdirempty_loop]. rewrite (ino_step _ ip i sb ic t) by apply Hlk. rewrite Hsz. pose proof DE_eq as HDE.
  destruct (Z.ltb_spec (Z.of_nat (DE * n)) (sizeof_dirent * Z.of_nat (length es))) as [Hlt|Hge].
  - apply DE_lt in Hlt. destruct (lookup_lt_is_Some_2 es n Hlt) as [de Hde]. rewrite (drop_S _ _ _ Hde).
    destruct (read_dirent_ok "isdirempty: readi" sb ic t v ds ip k i n de Had Hde) as (t1 & E1 & Had1). mstep E1.
    destruct (Z.eqb_spec (dirent_inum de) 0) as [H0|Hne].
    + replace (Z.of_nat (DE * n) + sizeof_dirent) with (Z.of_nat (DE * Datatypes.S n)) by lia.
      destruct (IH (Datatypes.S n) t1 Had1 ltac:(lia)) as (t2 & E2 & Had2). exists t2. split; [|done]. rewrite E2. f_equal.
      apply bool_decide_ext. rewrite Forall_cons. naive_solver.
    + exists t1. split; [|done]. rewrite bool_decide_false; [done|]. by intros [? _]%Forall_cons.
  - assert (length es ≤ n)%nat by (apply Nat.nlt_ge; rewrite <- DE_lt; lia). rewrite drop_ge by done. by exists t.
Qed.

Lemma isdirempty_ok sb ic t v ds ip k i :
  at_dir sb ic t v ds ip k i →
  ∃ t', isdirempty ip (FState sb ic t) = Ok (bool_decide (dir_empty (content (t_blocks v) (i_d i)))) (FState sb ic t') ∧ at_dir sb ic t' v ds ip k i.
Proof.
  intros Had. unfold isdirempty. rewrite (ino_step _ ip i sb ic t) by apply Had.
  pose proof (at_dir_size _ _ _ _ _ _ _ _ Had) as Hsz. cbv zeta in Hsz. rewrite <- length_dirents in Hsz.
  change (2 * sizeof_dirent) with (Z.of_nat (DE * 2)). apply isdirempty_loop_ok; [done|]. rewrite Hsz, Z.mul_comm, Z.div_mul by done. lia.
Qed.
End empty.

(** ** The tree without a name *)

(** The dinodes after the name of [k], of dinode [e], is taken out of
    directory [p], which becomes [d']. *)
Definition without (ds : gmap Z dinode) (p k : Z) (d' e : dinode) (gone : bool) : gmap Z dinode :=
  if gone then delete k (<[p := d']> ds) else <[k := set_nlink (d_nlink e - 1) e]> (<[p := d']> ds).

Record unlinked (m m' : gmap Z block) (ds : gmap Z dinode) (p : Z) (n : list Z) (k : Z) (d d' e : dinode) (gone : bool) : Prop := Unlinked {
  ul_dir : ds !! p = Some d ∧ d_type d = T_DIR ∧ dir_lookup n (content m d) = Some k;
  ul_file : ds !! k = Some e ∧ k ≠ p ∧ 0 < d_nlink e;
  ul_type : d_type d' = T_DIR ∧ dir_ok (content m' d');
  ul_nlink : d_nlink d' = d_nlink d - (if d_type e =? T_DIR then 1 else 0);
  ul_names x : dir_lookup x (content m' d') = if decide (x = n) then None else dir_lookup x (content m d);
  ul_other q x : q ≠ p → (gone = true → q ≠ k) → ds !! q = Some x → content m' x = content m x;
}.

Section tree.
Context (m m' : gmap Z block) (ds : gmap Z dinode) (p : Z) (n : list Z) (k : Z) (d d' e : dinode) (gone : bool).
Context (Hun : unlinked m m' ds p n k d d' e gone).
#[local] Abbreviation ds' := (without ds p k d' e gone).

Lemma without_lookup q :
  ds' !! q = if decide (q = k) then (if gone then None else Some (set_nlink (d_nlink e - 1) e)) else if decide (q = p) then Some d' else ds !! q.
Proof using Type.
  clear Hun. unfold without. destruct gone, (decide (q = k)) as [->|Hk];
    [apply lookup_delete_eq|rewrite lookup_delete_ne by done|apply lookup_insert_eq|rewrite lookup_insert_ne by done];
    (destruct (decide (q = p)) as [->|Hp]; [apply lookup_insert_eq|by rewrite lookup_insert_ne]).
Qed.

(** An inode of the new tree was in the old one, and a directory has no new
    names. *)
Lemma without_names q x :
  ds' !! q = Some x → ∃ y, ds !! q = Some y ∧ d_type x = d_type y ∧
    (d_type x = T_DIR → ∀ z a, dir_lookup z (content m' x) = Some a → dir_lookup z (content m y) = Some a ∧ (q = p → z ≠ n)).
Proof using Hun.
  pose proof Hun as [(Hd & Hty & _) (He & Hkp & _) [Hty' _] _ Hnames Ho]. rewrite without_lookup. destruct (decide (q = k)) as [->|Hk].
  - destruct gone; [done|]. intros [= <-]. exists e. split; [done|]. split; [done|]. intros _ z a. rewrite (content_fields m' e) by done.
    rewrite (Ho k e Hkp) by done. intros Hz. by split.
  - destruct (decide (q = p)) as [->|Hp].
    + intros [= <-]. exists d. split; [done|]. split; [congruence|]. intros _ z a. rewrite Hnames. destruct (decide (z = n)); [done|]. intros Hz. by split.
    + intros Hq. exists x. split; [done|]. split; [done|]. intros _ z a. rewrite (Ho q x Hp) by done. intros Hz. by split.
Qed.

(** No path leads to anything new. *)
Lemma without_resolve cur ns y : resolve m' ds' cur ns = Some y → resolve m ds cur ns = Some y.
Proof using Hun.
  revert cur. induction ns as [|x ns IH]; intros cur; [done|]. cbn [resolve]. destruct (ds' !! cur) as [c|] eqn:Hc; [|done]. cbn [mbind option_bind].
  destruct (decide (d_type c = T_DIR)) as [Ht|]; [|done]. destruct (without_names cur c Hc) as (b & Hb & Et & Hn). rewrite Hb. cbn [mbind option_bind].
  rewrite decide_True by congruence. destruct (dir_lookup x (content m' c)) as [a|] eqn:Ha; [|done]. cbn [mbind option_bind].
  destruct (Hn Ht x a Ha) as [-> _]. cbn [mbind option_bind]. apply IH.
Qed.

(** The path of the name leads nowhere. *)
Lemma without_path cur ns : resolve m ds cur ns = Some p → resolve m' ds' cur (ns ++ [n]) = None.
Proof using Hun.
  intros Hr. assert (∀ q, resolve m' ds' cur ns = Some q → q = p) as Hq by (intros q H%without_resolve; congruence). clear Hr.
  revert cur Hq. induction ns as [|x ns IH]; intros cur Hq; cbn [app resolve] in *.
  - specialize (Hq cur eq_refl) as ->. destruct (ds' !! p) as [c|] eqn:Hc; [|done]. cbn [mbind option_bind]. destruct (decide (d_type c = T_DIR)) as [Ht|]; [|done].
    destruct (dir_lookup n (content m' c)) as [a|] eqn:Ha; [|done]. destruct (without_names p c Hc) as (b & _ & _ & Hn). by destruct (Hn Ht n a Ha) as [_ []].
  - destruct (ds' !! cur) as [c|]; [|done]. cbn [mbind option_bind] in *. destruct (decide _); [|done].
    destruct (dir_lookup x _) as [a|]; [|done]. cbn [mbind option_bind] in *. by apply IH.
Qed.

(** The tree stays in order, if links were counted right. *)
Lemma without_tree_ok :
  (d_nlink e = 1 → ∀ q c x, ds !! q = Some c → d_type c = T_DIR → dir_lookup x (content m c) = Some k → q = p ∧ x = n ∨ q = k ∧ gone = true) →
  (d_type e = T_DIR → d_nlink d ≠ 1) → (gone = true → d_nlink e = 1) → tree_ok m ds → tree_ok m' ds'.
Proof using Hun.
  intros Hsole Hpar Hgone [Htd Hte]. pose proof Hun as [(Hd & Hty & _) (He & Hkp & Hnl) [Hty' Hok'] Hnl' _ Ho]. split.
  - intros q x. rewrite without_lookup. destruct (decide (q = k)) as [->|Hk].
    + destruct gone; [done|]. intros [= <-] Ht. rewrite (content_fields m' e), (Ho k e) by done. by apply (Htd k).
    + destruct (decide (q = p)) as [->|Hp]; [by intros [= <-]|]. intros Hq Ht. rewrite (Ho q x) by done. by apply (Htd q).
  - intros q x z a Hq Ht Hz. destruct (without_names q x Hq) as (y & Hy & Et & Hn). destruct (Hn Ht z a Hz) as [Hz' Hzn]. rewrite Et in Ht.
    destruct (Hte q y z a Hy Ht Hz') as (c & Hc & Hl). rewrite without_lookup. destruct (decide (a = k)) as [->|Hak].
    + assert (d_nlink e ≠ 1) as Hne.
      { intros H1. destruct (Hsole H1 q y z Hy Ht Hz') as [[-> ->]|[-> Hg]]; [by apply Hzn|]. rewrite without_lookup, decide_True, Hg in Hq by done. done. }
      destruct gone; [by destruct Hne; apply Hgone|]. eexists. split; [done|]. cbn. lia.
    + destruct (decide (a = p)) as [->|Hap]; [|by exists c]. exists d'. split; [done|]. rewrite Hnl'. assert (c = d) as -> by congruence.
      destruct (Z.eqb_spec (d_type e) T_DIR) as [Hte'|]; [specialize (Hpar Hte'); lia|lia].
Qed.
End tree.

(** ** Taking the name out *)

(** What happens to the inode on disk: with its last link its type becomes 0
    and exactly its blocks become free; else it has one link less and no block
    becomes free. *)
Definition unlinked_disk sb (m m' : gmap Z block) (k : Z) (e : dinode) (gone : bool) : Prop :=
  if gone then
    d_type (idisk sb m' k) = 0 ∧ free_blocks sb m' = free_blocks sb m ∪ list_to_set (file_blocks m e)
  else idisk sb m' k = set_nlink (d_nlink e - 1) e ∧ free_blocks sb m' = free_blocks sb m.

(** The blocks of a file are found through its inode and its block of
    pointers. *)
Lemma file_blocks_same m m' d d' :
  blk m' d' = blk m d → list_to_set (file_blocks m' d') =@{gset Z} list_to_set (file_blocks m d).
Proof. intros E. apply set_eq. intros b. by rewrite !elem_of_list_to_set, !elem_of_file_blocks, E. Qed.

Lemma blk_set_nlink m n d : blk m (set_nlink n d) = blk m d.
Proof. done. Qed.

Lemma blk_low sb m m' ds b :
  fs_ok sb m ds → b < data_start sb → (∀ c, c ≠ b → m' !! c = m !! c) →
  ∀ q x, ds !! q = Some x → blk m' x = blk m x.
Proof.
  intros Hok Hb Hm q x Hx. apply blk_ext. intros Hne. apply Hm.
  destruct (fo_owned Hok q x 0 _ Hx (blk_ind m x) Hne) as [[? _] _]. lia.
Qed.

Section entry.
Context {S : Type} `{!Txn S, !DevSw S}.
Implicit Types (sb : superblock) (ic : list inode) (t : S) (v : tview).

Lemma can_free_keep sb v v' :
  can_free sb v → map_ok sb (t_blocks v') → t_held v' = ∅ → t_pending v' = ∅ → t_blocks v' !! 1 = t_blocks v !! 1 → slack sb v' 0 → can_free sb v'.
Proof.
  intros [_ Hsb _ Hp Hlow _] Hm Hh Hpe H1 Hs. split; [split; [done| | |done]|by rewrite H1| |done|done|done]; rewrite Hh; [vm_compute; lia| |].
  - intros b _. rewrite map_img_empty_L. set_solver.
  - rewrite map_img_empty_L. set_solver.
Qed.

(** The last reference to an inode without links is given back. *)
Lemma visiting_remove ic0 ds0 sb ic t v ds ip k j :
  icache_ok ic0 ds0 → visiting ic0 sb ic t v ds ip k j → refs ic0 !! k = None → d_nlink (i_d j) = 0 →
  can_free sb v → slack sb v 1 → IBLOCK k sb ≠ 1 →
  ∃ ic' t' v', iunlockput ip (FState sb ic t) = Ok tt (FState sb ic' t') ∧ back ic0 sb ic' t' v' (delete k ds) ∧ removed sb v v' ds k (i_d j).
Proof.
  intros Hic0 [Hfs Hr Hk Hq Hl Hlk] Hnone Hnl Hcf Hs H1.
  destruct (iunlock_ok sb ic t v ds ip k j Hfs Hlk) as (j1 & E1 & Hfs1 & Hsl1 & Er1 & Ed1 & Hb1 & Hv1 & Hr1 & Hk1).
  assert (i_ref j1 = 1) as Href.
  { pose proof (slot_count _ ds ip k j1 _ (fr_cache Hfs1) Hr1 Hsl1) as Hn. rewrite Hr in Hn. apply incr_count in Hn. by rewrite Hnone in Hn. }
  destruct (iput_last ip j1 sb _ t v ds k Hfs1 Hsl1 Href Hv1 Hb1) as (j2 & t2 & v2 & E2 & Hfs2 & Hr2 & Hz & Hrm); [by rewrite Ed1|done|done|done|].
  rewrite list_insert_insert_eq in E2, Hfs2, Hr2. rewrite Ed1 in Hrm. exists (<[ip := j2]> ic), t2, v2.
  split; [unfold iunlockput; mstep E1; exact E2|]. split; [|done]. split; [done| | | |by rewrite length_insert].
  - rewrite Hr2, Hr1, Hr. unfold incr. rewrite delete_insert_eq. by apply delete_id.
  - eapply slots_kept_insert; [done|apply Hlk|]. right. intros i0 Hi0 Hr0. destruct (Hk ip i0 Hi0 Hr0) as (i1 & Hi1 & _ & E).
    assert (refs ic0 !! i_inum i0 = Some (i_ref i0)) as Hc by (by apply (refs_slot ic0 ds0 ip)).
    destruct Hlk as [[Hj _ Ej] _ _]. assert (i1 = j) as -> by congruence. congruence.
  - intros lp l Hlp Hlr _. destruct (decide (lp = ip)) as [->|H2].
    + rewrite list_lookup_insert_eq in Hlp by (eapply lookup_lt_Some; apply Hlk). injection Hlp as ->. lia.
    + rewrite list_lookup_insert_ne in Hlp by done. apply (Hq lp l); [done|done|congruence].
Qed.

(** What unlink needs: the inode is not the directory itself, links are
    counted, and there is room in the log. *)
Record can_unlink sb v (p k : Z) (d e : dinode) : Prop := CanUnlink {
  cu_inum : k ≠ p;
  cu_nlink : 0 < d_nlink e;
  cu_parent : d_type e = T_DIR → 1 < d_nlink d;
  cu_slack : slack sb v 5;
  cu_free : can_free sb v;
  cu_start : 1 < sb_inodestart sb;
}.

(** A directory that loses a directory loses a link. *)
Lemma drop_dotdot_ok ic0 sb ic t v ds dp p i ip k j :
  pair ic0 sb ic t v ds dp p i ip k j → (d_type (i_d j) = T_DIR → 1 < d_nlink (i_d i)) → slack sb v 3 → 1 < sb_inodestart sb →
  let d' := set_nlink (d_nlink (i_d i) + (if d_type (i_d j) =? T_DIR then -1 else 0)) (i_d i) in
  ∃ ic' t' v', (if d_type (i_d j) =? T_DIR then add_nlink dp (-1);; iupdate dp else mret tt) (FState sb ic t) = Ok tt (FState sb ic' t') ∧
    pair ic0 sb ic' t' v' (<[p := d']> ds) dp p (set_disk d' i) ip k j ∧ slack sb v' 2 ∧ t_blocks v' !! 1 = t_blocks v !! 1 ∧
    content (t_blocks v') d' = content (t_blocks v) (i_d i) ∧ (∀ q e, q ≠ p → ds !! q = Some e → content (t_blocks v') e = content (t_blocks v) e) ∧
    free_blocks sb (t_blocks v') = free_blocks sb (t_blocks v) ∧ (∀ q e, ds !! q = Some e → blk (t_blocks v') e = blk (t_blocks v) e).
Proof.
  intros Hpair Hpar Hs Hstart d'. pose proof Hpair as [Hfs _ _ _ _ Hlk _ _ _]. pose proof (locked_inode _ _ _ _ _ _ _ _ Hfs Hlk) as Hd.
  destruct (Z.eqb_spec (d_type (i_d j)) T_DIR) as [Hdir|Hdir].
  - pose proof (it_dinode _ _ _ _ (fr_table Hfs) p _ Hd) as [_ _ _ Hnk _ _ _]. specialize (Hpar Hdir).
    destruct (add_nlink_ok sb ic t v ds dp p i (-1) 2 Hfs Hlk ltac:(lia)) as (t2 & v2 & E2 & Hfs2 & C2 & O2 & S2 & _ & F2 & B2).
    { eapply slack_le; [|exact Hs]. pose proof (cost_le v (IBLOCK p sb)). lia. }
    exists (<[dp := set_disk d' i]> ic), t2, v2. split; [done|]. split; [by apply (pair_disk _ _ _ t v ds)|]. split; [done|].
    split; [|split; [done|split; [done|split; [done|eapply blk_low; [apply Hfs| |exact B2]; apply (inode_place sb _ _ _ (fr_ok Hfs) (fr_table Hfs) p _ Hd)]]]]. apply B2.
    rewrite (IBLOCK_eq sb _ ds ∅ (fr_ok Hfs) (fr_table Hfs) p _ Hd).
    assert (0 ≤ p / IPB) by (apply Z.div_pos; [by apply (it_range _ _ _ _ (fr_table Hfs) p _ Hd)|done]). lia.
  - exists ic, t, v. assert (d' = i_d i) as -> by apply set_nlink_id. rewrite (insert_id ds), set_disk_id by done.
    split; [done|]. split; [done|]. split; [by eapply slack_le; [|exact Hs]; lia|done].
Qed.

(** The first half: the entry is cleared, and the directory is given up. *)
Lemma unlink_dir_ok ic0 sb ic t v ds dp p i ip k j n x de :
  icache_ok ic0 ds → pair ic0 sb ic t v ds dp p i ip k j → d_type (i_d i) = T_DIR → dir_ok (content (t_blocks v) (i_d i)) →
  dir_find n (content (t_blocks v) (i_d i)) = Some (x, de) → dirent_inum de = k → stays ic0 p (i_d i) → can_unlink sb v p k (i_d i) (i_d j) →
  ∃ ic' t' v' d', visiting ic0 sb ic' t' v' (<[p := d']> ds) ip k j ∧ unlinked (t_blocks v) (t_blocks v') ds p n k (i_d i) d' (i_d j) false ∧
    slack sb v' 2 ∧ t_blocks v' !! 1 = t_blocks v !! 1 ∧
    free_blocks sb (t_blocks v') = free_blocks sb (t_blocks v) ∧ blk (t_blocks v') (i_d j) = blk (t_blocks v) (i_d j) ∧
    ∀ A (f : M (fstate S) A),
      (n ← writei dp (replicate (Z.to_nat sizeof_dirent) 0) (Z.of_nat (DE * x)) sizeof_dirent;
       if negb (n =? sizeof_dirent) then panic "unlink: writei"
       else
         i ← ino ip;
         (if d_type (i_d i) =? T_DIR then add_nlink dp (-1);; iupdate dp else mret tt);;
         iunlockput dp;; f) (FState sb ic t) = f (FState sb ic' t').
Proof.
  intros Hic0 Hpair Hty Hdo Hfind Hde Hst [Hkp Hnl Hpar Hs Hcf Hstart]. pose proof Hpair as [Hfs _ _ _ _ Hlk Hlj Hne _].
  pose proof (locked_inode _ _ _ _ _ _ _ _ Hfs Hlk) as Hd. pose proof (locked_inode _ _ _ _ _ _ _ _ Hfs Hlj) as He.
  destruct (clear_entry_ok sb ic t v ds dp p i n x de 3 ltac:(by split) Hfind) as (t1 & v1 & E1 & [Hfs1 _ _ Hdo1] & L1 & O1 & S1 & F1 & _ & _ & B1 & K1).
  { eapply slack_le; [|exact Hs]. unfold ind_cost. destruct (decide _); lia. }
  assert (t_blocks v1 !! 1 = t_blocks v !! 1) as Hone by (apply B1; apply Hcf).
  assert (pair ic0 sb ic t1 v1 ds dp p i ip k j) as Hpair1 by (by destruct Hpair; split).
  destruct (drop_dotdot_ok ic0 sb ic t1 v1 ds dp p i ip k j Hpair1 Hpar S1 Hstart) as (ic2 & t2 & v2 & E2 & Hpair2 & S2 & B2 & C2 & O2 & F2 & K2).
  set (d' := set_nlink _ _) in *.
  destruct (pair_drop ic0 ds sb ic2 t2 v2 _ dp p _ ip k j Hic0 Hpair2) as (ic3 & E3 & Hvi3).
  { destruct Hst as [|H0]; [by left|]. right. cbn [set_disk i_d d' set_nlink d_nlink]. destruct (Z.eqb_spec (d_type (i_d j)) T_DIR) as [Ht|]; [specialize (Hpar Ht); lia|lia]. }
  exists ic3, t2, v2, d'. split; [done|].
  split; [|split; [done|split; [by rewrite B2|split; [by rewrite F2|split; [by rewrite (K2 k), (K1 k)|]]]]].
  - split; [|done| | | |].
    + split; [done|]. split; [done|]. unfold dir_lookup. by rewrite Hfind, <- Hde.
    + split; [done|]. by rewrite C2.
    + cbn. destruct (d_type (i_d j) =? T_DIR); lia.
    + intros y. by rewrite C2, L1.
    + intros q y Hq _ Hy. rewrite (O2 q y) by done. by apply (O1 q).
  - intros A f. mstep E1. rewrite Z.eqb_refl. cbn [negb]. rewrite (ino_step _ ip j sb) by apply Hlj. mstep E2. by mstep E3.
Qed.

(** Does the inode go?  It does with its last link, unless it was referred to
    before. *)
Definition goes ic0 (k : Z) (e : dinode) : bool := (d_nlink e =? 1) && bool_decide (refs ic0 !! k = None).

(** The second half: the inode loses a link and is given up. *)
Lemma unlink_file_ok ic0 ds0 sb ic t v ds ip k j :
  icache_ok ic0 ds0 → visiting ic0 sb ic t v ds ip k j → 0 < d_nlink (i_d j) → slack sb v 2 → can_free sb v → 1 < sb_inodestart sb →
  let e' := set_nlink (d_nlink (i_d j) - 1) (i_d j) in
  let gone := goes ic0 k (i_d j) in
  ∃ ic' t' v', (∀ A (f : M (fstate S) A), (add_nlink ip (-1);; iupdate ip;; iunlockput ip;; f) (FState sb ic t) = f (FState sb ic' t')) ∧
    back ic0 sb ic' t' v' (if gone then delete k ds else <[k := e']> ds) ∧
    (∀ q x, (gone = true → q ≠ k) → ds !! q = Some x → content (t_blocks v') x = content (t_blocks v) x) ∧
    unlinked_disk sb (t_blocks v) (t_blocks v') k (i_d j) gone.
Proof.
  intros Hic0 Hvi Hnl Hs Hcf Hstart e' gone. pose proof Hvi as [Hfs _ _ _ _ Hlk]. pose proof (locked_inode _ _ _ _ _ _ _ _ Hfs Hlk) as He.
  pose proof (it_dinode _ _ _ _ (fr_table Hfs) k _ He) as [_ _ _ Hnk _ _ _].
  destruct (add_nlink_ok sb ic t v ds ip k j (-1) 1 Hfs Hlk ltac:(lia)) as (t1 & v1 & E1 & Hfs1 & C1 & O1 & S1 & _ & F1 & B1).
  { eapply slack_le; [|exact Hs]. pose proof (cost_le v (IBLOCK k sb)). lia. }
  change (set_nlink (d_nlink (i_d j) + -1) (i_d j)) with e' in *. pose proof (visiting_disk _ _ _ _ _ _ _ _ _ e' t1 v1 _ Hvi Hfs1) as Hvi1.
  assert (IBLOCK k sb ≠ 1) as Hk1.
  { rewrite (IBLOCK_eq sb _ ds ∅ (fr_ok Hfs) (fr_table Hfs) k _ He).
    assert (0 ≤ k / IPB) by (apply Z.div_pos; [by apply (it_range _ _ _ _ (fr_table Hfs) k _ He)|done]). lia. }
  assert (∀ q x, ds !! q = Some x → content (t_blocks v1) x = content (t_blocks v) x) as Ho.
  { intros q x Hx. destruct (decide (q = k)) as [->|Hq]; [|by apply (O1 q)]. assert (x = i_d j) as -> by congruence. rewrite <- C1. symmetry. by apply content_fields. }
  assert (unlinked_disk sb (t_blocks v) (t_blocks v1) k (i_d j) false) as Hdisk.
  { split; [|done]. destruct (it_block _ _ _ _ (fr_table Hfs1) k e' (lookup_insert_eq _ _ _)) as (x & Hx & _ & Hg).
    unfold idisk. rewrite Hx. cbn [from_option id]. apply Hg. set_solver. }
  unfold gone, goes. destruct (Z.eqb_spec (d_nlink (i_d j)) 1) as [H1|H1]; [destruct (decide (refs ic0 !! k = None)) as [Hn|Hn]|].
  - rewrite bool_decide_true by done. cbn [andb].
    destruct (visiting_remove ic0 ds0 sb _ t1 v1 _ ip k _ Hic0 Hvi1 Hn) as (ic2 & t2 & v2 & E2 & Hb & Hrm); [cbn; lia| |done|done|].
    { apply (can_free_keep sb v); [done|apply (fo_map (fr_ok Hfs1))|apply Hfs1|apply Hfs1|by apply B1|by eapply slack_le; [|exact S1]; lia]. }
    rewrite delete_insert_eq in Hb. exists ic2, t2, v2. split; [intros A f; rewrite <- bind_assoc; mstep E1; exact (bind_ok _ _ _ _ _ E2)|]. split; [done|].
    split; [|split; [apply Hrm|]].
    + intros q x Hq Hx. rewrite (rm_other _ _ _ _ _ _ Hrm q x); [by apply (Ho q)|by apply Hq|by rewrite lookup_insert_ne by (symmetry; by apply Hq)].
    + rewrite (rm_free _ _ _ _ _ _ Hrm), F1. f_equal. apply file_blocks_same.
      refine (blk_low sb _ _ ds _ (fr_ok Hfs) _ B1 k (i_d j) He). apply (inode_place sb _ _ _ (fr_ok Hfs) (fr_table Hfs) k _ He).
  - rewrite bool_decide_false by done. cbn [andb].
    destruct (visiting_drop ic0 ds0 sb _ t1 v1 _ ip k _ Hic0 Hvi1) as (ic2 & E2 & Hb); [left; by apply not_eq_None_Some|].
    exists ic2, t1, v1. split; [intros A f; rewrite <- bind_assoc; mstep E1; exact (bind_ok _ _ _ _ _ E2)|]. split; [done|]. split; [intros q x _; apply Ho|done].
  - cbn [andb]. destruct (visiting_drop ic0 ds0 sb _ t1 v1 _ ip k _ Hic0 Hvi1) as (ic2 & E2 & Hb); [right; cbn; lia|].
    exists ic2, t1, v1. split; [intros A f; rewrite <- bind_assoc; mstep E1; exact (bind_ok _ _ _ _ _ E2)|]. split; [done|]. split; [intros q x _; apply Ho|done].
Qed.

Lemma unlink_entry_ok ic0 sb ic t v ds dp p i ip k j n x de :
  icache_ok ic0 ds → pair ic0 sb ic t v ds dp p i ip k j → d_type (i_d i) = T_DIR → dir_ok (content (t_blocks v) (i_d i)) →
  dir_find n (content (t_blocks v) (i_d i)) = Some (x, de) → dirent_inum de = k → stays ic0 p (i_d i) → can_unlink sb v p k (i_d i) (i_d j) →
  ∃ ic' t' v' d', let gone := goes ic0 k (i_d j) in
    unlink_entry dp ip (Z.of_nat (DE * x)) (FState sb ic t) = Ok 0 (FState sb ic' t') ∧
    back ic0 sb ic' t' v' (without ds p k d' (i_d j) gone) ∧ unlinked (t_blocks v) (t_blocks v') ds p n k (i_d i) d' (i_d j) gone ∧
    unlinked_disk sb (t_blocks v) (t_blocks v') k (i_d j) gone.
Proof.
  intros Hic0 Hpair Hty Hdo Hfind Hde Hst Hcu. pose proof Hcu as [Hkp Hnl _ _ Hcf Hstart].
  destruct (unlink_dir_ok ic0 sb ic t v ds dp p i ip k j n x de) as (ic1 & t1 & v1 & d' & Hvi1 & Hun & S1 & B1 & F1 & K1 & E1); [done..|].
  pose proof (vi_fs _ _ _ _ _ _ _ _ _ Hvi1) as Hfs1.
  destruct (unlink_file_ok ic0 ds sb ic1 t1 v1 _ ip k j Hic0 Hvi1 Hnl S1) as (ic2 & t2 & v2 & E2 & Hb & Ho & Hdk); [|done|].
  { apply (can_free_keep sb v); [done|apply (fo_map (fr_ok Hfs1))|apply Hfs1|apply Hfs1|done|by eapply slack_le; [|exact S1]; lia]. }
  exists ic2, t2, v2, d'. cbv zeta. set (gone := goes ic0 k (i_d j)) in *. split; [|split; [|split]].
  - unfold unlink_entry. by rewrite E1, E2.
  - by destruct gone.
  - destruct Hun as [H1 H2 [H3 H4] H5 H6 H7].
    assert (content (t_blocks v2) d' = content (t_blocks v1) d') as Ed by (apply (Ho p); [congruence|apply lookup_insert_eq]).
    split; [done|done|by rewrite Ed|done|intros y; by rewrite Ed|]. intros q y Hq Hg Hy. rewrite (Ho q y Hg) by (by rewrite lookup_insert_ne). by apply (H7 q).
  - unfold unlinked_disk in *. by destruct gone; rewrite F1, ?(file_blocks_same _ _ _ _ K1) in Hdk.
Qed.
End entry.

(** ** What unlink promises *)

(** namecmp on two names. *)
Lemma strncmp_list_same n p q :
  Forall byte_ok p → Forall byte_ok q → 0 ∉ p → 0 ∉ q → (length p ≤ n)%nat → (length q ≤ n)%nat → strncmp_list n p q = 0 ↔ p = q.
Proof.
  revert p q. induction n as [|n IH]; intros p q Hp Hq H1 H2 Hlp Hlq.
  { destruct p, q; cbn in Hlp, Hlq; try lia. done. }
  destruct p as [|a p], q as [|b q]; cbn [strncmp_list hd tl].
  - done.
  - apply Forall_cons in Hq as [Hb _]. change (negb (0 =? 0) && (0 =? b)) with false. cbn iota. rewrite (u8_byte b) by done. change (u8 0) with 0.
    split; [|done]. assert (b ≠ 0) by set_solver. lia.
  - apply Forall_cons in Hp as [Ha _]. assert (a ≠ 0) as Hna by set_solver. rewrite (proj2 (Z.eqb_neq a 0)) by done. cbn [negb andb].
    rewrite (u8_byte a) by done. change (u8 0) with 0. split; [lia|done].
  - apply Forall_cons in Hp as [Ha Hp]. apply Forall_cons in Hq as [Hb Hq]. assert (a ≠ 0) as Hna by set_solver.
    rewrite (proj2 (Z.eqb_neq a 0)) by done. cbn [negb andb]. destruct (Z.eqb_spec a b) as [<-|Hne].
    + apply not_elem_of_cons in H1 as [_ H1], H2 as [_ H2]. cbn in Hlp, Hlq.
      rewrite IH by (done || lia). split; [by intros ->|by intros [= ->]].
    + rewrite !u8_byte by done. split; [lia|]. intros [= E _]. congruence.
Qed.

Lemma namecmp_same p q : name_ok p → name_ok q → (namecmp p q =? 0) = bool_decide (p = q).
Proof.
  intros [P1 P2 P3] [Q1 Q2 Q3]. unfold namecmp. apply eq_true_iff_eq. rewrite Z.eqb_eq, bool_decide_eq_true. by apply strncmp_list_same.
Qed.

Section unlink.
Context {S : Type} `{!Txn S, !DevSw S}.
Implicit Types (sb : superblock) (ic : list inode) (t : S) (v : tview).

(** The name is there. *)
Lemma unlink_found_ok ic0 sb ic t v ds dp p i n x de ic1 t1 ip e :
  icache_ok ic0 ds → tree_ok (t_blocks v) ds → visiting ic0 sb ic t v ds dp p i → stays ic0 p (i_d i) → d_type (i_d i) = T_DIR →
  dir_find n (content (t_blocks v) (i_d i)) = Some (x, de) → let k := dirent_inum de in
  fs_rep sb ic1 t1 v ds → got ic ic1 ip k → ds !! k = Some e → can_unlink sb v p k (i_d i) e →
  let m := (ilock (Some ip);; i ← ino ip;
            if d_nlink (i_d i) <? 1 then panic "unlink: nlink < 1"
            else
              empty ← (if d_type (i_d i) =? T_DIR then isdirempty ip else mret true);
              if negb empty then iunlockput ip;; unlink_bad dp else unlink_entry dp ip (Z.of_nat (DE * x))) (FState sb ic1 t1) in
  if decide (d_type e = T_DIR ∧ ¬ dir_empty (content (t_blocks v) e)) then
    ∃ ic' t', m = Ok (-1) (FState sb ic' t') ∧ back ic0 sb ic' t' v ds
  else
    ∃ ic' t' v' d', let gone := goes ic0 k e in
      m = Ok 0 (FState sb ic' t') ∧ back ic0 sb ic' t' v' (without ds p k d' e gone) ∧ unlinked (t_blocks v) (t_blocks v') ds p n k (i_d i) d' e gone ∧
      unlinked_disk sb (t_blocks v) (t_blocks v') k e gone.
Proof.
  intros Hic0 Htree Hvi Hst Hty Hfind k Hfs1 Hgot He Hcu m. subst m.
  pose proof (locked_inode _ _ _ _ _ _ _ _ (vi_fs _ _ _ _ _ _ _ _ _ Hvi) (vi_lock _ _ _ _ _ _ _ _ _ Hvi)) as Hd.
  destruct (pair_lock ic0 sb ic t v ds dp p i ic1 t1 ip k e Hvi Hfs1 Hgot (cu_inum _ _ _ _ _ _ Hcu) He) as (ic2 & t2 & j & E2 & Hpair & Ej).
  rewrite (bind_ok _ _ _ _ _ E2). rewrite (ino_step _ ip j sb ic2) by apply (pr_file _ _ _ _ _ _ _ _ _ _ _ _ Hpair). subst e.
  pose proof (cu_nlink _ _ _ _ _ _ Hcu) as Hnl. rewrite (proj2 (Z.ltb_ge _ 1)) by lia.
  assert (∃ t3, (if d_type (i_d j) =? T_DIR then isdirempty ip else mret true) (FState sb ic2 t2) =
      Ok (negb (bool_decide (d_type (i_d j) = T_DIR ∧ ¬ dir_empty (content (t_blocks v) (i_d j))))) (FState sb ic2 t3) ∧
    pair ic0 sb ic2 t3 v ds dp p i ip k j) as (t3 & E3 & Hpair3).
  { destruct (Z.eqb_spec (d_type (i_d j)) T_DIR) as [Ht|Ht].
    - destruct (isdirempty_ok sb ic2 t2 v ds ip k j) as (t3 & E3 & Had3); [split; [apply Hpair|apply Hpair|done|by apply (tr_dir _ _ Htree k)]|].
      exists t3. split; [|destruct Hpair; split; [apply Had3|done..]]. rewrite E3. f_equal. rewrite <- bool_decide_not. apply bool_decide_ext.
      destruct (decide (dir_empty (content (t_blocks v) (i_d j)))); naive_solver.
    - exists t2. split; [|done]. rewrite bool_decide_false by naive_solver. done. }
  rewrite (bind_ok _ _ _ _ _ E3), negb_involutive. destruct (decide _) as [Hfull|Hfree].
  - rewrite bool_decide_true by done.
    destruct (pair_drop ic0 ds _ _ _ _ _ _ _ _ _ _ _ Hic0 (pair_swap _ _ _ _ _ _ _ _ _ _ _ _ Hpair3)) as (ic4 & E4 & Hvi4); [right; lia|].
    destruct (visiting_drop ic0 ds _ _ _ _ _ _ _ _ Hic0 Hvi4 Hst) as (ic5 & E5 & Hb). exists ic5, t3. split; [|done].
    rewrite (bind_ok _ _ _ _ _ E4). unfold unlink_bad. exact (bind_ok _ _ _ _ _ E5).
  - rewrite bool_decide_false by done. by apply (unlink_entry_ok ic0 sb ic2 t3 v ds dp p i ip k j n x de); [..|by apply (tr_dir _ _ Htree p)|done|done|done|done].
Qed.

(** C9: unlink removes the name that a path ends in.  It refuses, with nothing
    changed, when the directory of the path or the name is not there, when
    the name is "." or "..", and when it stands for a directory that is not
    empty.  Otherwise the path leads nowhere afterwards, no other name and
    file changes, and the inode has one link less on disk.  With its last
    link, unless somebody else refers to it, it is gone: its type on disk is 0
    and exactly its blocks became free; otherwise no block did.  A directory
    takes its link to the parent along.  When links are counted right, the
    tree stays in order. *)
Theorem unlink_correct sb ic t v ds cwd cwdnum path ns n :
  can_walk sb ic t v ds cwd cwdnum path → names path = ns ++ [n] →
  let m := unlink_tx cwd path (FState sb ic t) in
  match (p ← resolve (t_blocks v) ds (start cwdnum path) ns; d ← ds !! p; if decide (d_type d = T_DIR) then Some (p, d) else None) with
  | None => ∃ ic' t', m = Ok (-1) (FState sb ic' t') ∧ back ic sb ic' t' v ds
  | Some (p, d) =>
      match (if decide (n = DOT ∨ n = DOTDOT) then None else dir_lookup n (content (t_blocks v) d)) with
      | None => ∃ ic' t', m = Ok (-1) (FState sb ic' t') ∧ back ic sb ic' t' v ds
      | Some k => ∃ e, ds !! k = Some e ∧ (can_unlink sb v p k d e →
          if decide (d_type e = T_DIR ∧ ¬ dir_empty (content (t_blocks v) e)) then
            ∃ ic' t', m = Ok (-1) (FState sb ic' t') ∧ back ic sb ic' t' v ds
          else
            ∃ ic' t' v' d', let gone := goes ic k e in let ds' := without ds p k d' e gone in
              m = Ok 0 (FState sb ic' t') ∧ back ic sb ic' t' v' ds' ∧ unlinked (t_blocks v) (t_blocks v') ds p n k d d' e gone ∧
              unlinked_disk sb (t_blocks v) (t_blocks v') k e gone ∧ resolve (t_blocks v') ds' (start cwdnum path) (names path) = None ∧
              ((d_nlink e = 1 → ∀ q c x, ds !! q = Some c → d_type c = T_DIR → dir_lookup x (content (t_blocks v) c) = Some k →
                  q = p ∧ x = n ∨ q = k ∧ gone = true) → tree_ok (t_blocks v') ds'))
      end
  end.
Proof.
  intros Hw En m. pose proof Hw as [Hfs0 Htree _ _ _ _ _]. pose proof (parent_ok sb ic t v ds cwd cwdnum path ns n Hw En) as H. subst m. unfold unlink_tx.
  destruct (resolve _ _ _ ns) as [p|] eqn:Er; cbn [mbind option_bind] in *; [|gives_up H].
  destruct (ds !! p) as [d|]; cbn [mbind option_bind] in *; [|gives_up H].
  destruct (decide (d_type d = T_DIR)) as [Hty|_]; [|gives_up H].
  destruct H as (dp & ic1 & t1 & ic2 & t2 & i & E1 & E2 & <- & [Hvi Hlive Had Hname Hsz Hent]).
  rewrite (bind_ok _ _ _ _ _ E1), (bind_ok _ _ _ _ _ E2). pose proof (lives_stays _ _ _ _ Hlive (locked_inode _ _ _ _ _ _ _ _ (ad_fs _ _ _ _ _ _ _ _ Had) (ad_lock _ _ _ _ _ _ _ _ Had))) as Hst.
  rewrite !namecmp_same by (done || (apply (dot_ok 1); lia) || (apply (dot_ok 2); lia)).
  destruct (decide (n = DOT ∨ n = DOTDOT)) as [Hdot|Hdot].
  { assert (bool_decide (n = DOT) || bool_decide (n = DOTDOT) = true) as -> by (by rewrite orb_true_iff, !bool_decide_eq_true).
    destruct (visiting_drop ic ds sb ic2 t2 v ds dp p i (fr_cache Hfs0) Hvi Hst) as (ic3 & E3 & Hbk). exists ic3, t2. split; [exact (bind_ok _ _ _ _ _ E3)|done]. }
  assert (bool_decide (n = DOT) || bool_decide (n = DOTDOT) = false) as -> by (rewrite orb_false_iff, !bool_decide_eq_false; naive_solver).
  pose proof (dirlookup_ok sb ic2 t2 v ds dp p i n Had Hname) as Hlook. cbv zeta in Hlook.
  unfold dir_lookup in Hent |- *. destruct (dir_find n _) as [[x de]|] eqn:Ef; cbn [fmap option_fmap option_map snd] in *.
  - destruct (Hent _ eq_refl) as (e & He & Hnl). exists e. split; [done|]. intros Hcu.
    destruct Hlook as (ip & ic3 & t3 & E3 & Hfs3 & Hgot); [intros r [= <-]; split; [by exists e|done]|]. rewrite (bind_ok _ _ _ _ _ E3).
    pose proof (unlink_found_ok ic sb ic2 t2 v ds dp p i n x de ic3 t3 ip e (fr_cache Hfs0) Htree Hvi Hst Hty Ef Hfs3 Hgot He Hcu) as H. cbv zeta in H.
    destruct (decide _); [done|]. destruct H as (ic4 & t4 & v4 & d' & E4 & Hbk & Hun & Hdk). exists ic4, t4, v4, d'. cbv zeta. split; [done|]. split; [done|]. split; [done|]. split; [done|].
    split; [rewrite En; by eapply without_path|]. intros Hsole. eapply without_tree_ok; [done|done| | |done].
    + intros Ht. pose proof (cu_parent _ _ _ _ _ _ Hcu Ht). lia.
    + unfold goes. by intros [->%Z.eqb_eq _]%andb_true_iff.
  - destruct Hlook as (t3 & E3 & [Hfs3 _ _ _]); [done|]. rewrite (bind_ok _ _ _ _ _ E3).
    destruct (visiting_drop ic ds sb ic2 t3 v ds dp p i (fr_cache Hfs0)) as (ic4 & E4 & Hbk); [by destruct Hvi; split|done|].
    exists ic4, t3. split; [exact (bind_ok _ _ _ _ _ E4)|done].
Qed.
End unlink.

(** ** An example

    The tree of the example of FsNames, in which the current directory is a. *)
Module Example.
Import FsNames.Example.

(** The entries in use, with their names. *)
Definition dir_entries (l : list Z) : list (Z * list Z) := (λ de, (dirent_inum de, cname (dirent_name de))) <$> dirents l.

Lemma dir_lookup_entry x l k : dir_lookup x l = Some k → (k, x) ∈ dir_entries l.
Proof.
  unfold dir_lookup, dir_find. destruct (list_find _ _) as [[j de]|] eqn:E; [|done]. apply list_find_Some in E as (Hj & [_ <-] & _).
  cbn. intros [= <-]. unfold dir_entries. apply list_elem_of_fmap. exists de. split; [done|]. by eapply list_elem_of_lookup_2.
Qed.

Lemma ex_can_unlink p k d e :
  k ≠ p → 0 < d_nlink e → (d_type e = T_DIR → 1 < d_nlink d) → can_unlink ex_dsb ex_tview p k d e.
Proof.
  intros H1 H2 H3. split; [done|done|done|vm_compute; lia| |cbn; lia]. split; [split| | | |vm_compute; done|vm_compute; lia].
  - apply map_check_ok. vm_compute. reflexivity.
  - vm_compute. lia.
  - intros b _. change (t_held ex_tview) with (∅ : gmap nat Z). rewrite map_img_empty_L. set_solver.
  - done.
  - eexists. split; [reflexivity|]. by vm_compute.
  - change (t_held ex_tview) with (∅ : gmap nat Z). rewrite map_img_empty_L. set_solver.
  - intros g Hg. apply Z.eqb_neq, negb_true_iff. apply (all_below_ok 12 (λ g, negb (1 =? BBLOCK g ex_dsb))); [vm_compute; reflexivity|exact Hg].
Qed.

(** Inode 3 has one name. *)
Lemma ex_sole q c x : ex_tree !! q = Some c → d_type c = T_DIR → dir_lookup x (content ex_dblocks c) = Some 3 → q = 2 ∧ x = nf.
Proof.
  intros Hq Hty Hx. pose proof (dir_lookup_entry _ _ _ Hx) as Hin.
  assert (all_inodes ex_tree (λ q c, negb (d_type c =? T_DIR) || forallb (λ e, negb (e.1 =? 3) || (q =? 2) && bool_decide (e.2 = nf)) (dir_entries (content ex_dblocks c))) = true) as Hall
    by (vm_compute; reflexivity).
  pose proof (all_inodes_ok _ _ q c Hall Hq) as H. cbn beta in H. rewrite Hty in H. change (negb (T_DIR =? T_DIR)) with false in H. cbn [orb] in H.
  rewrite forallb_forall in H. specialize (H (3, x)). rewrite <- list_elem_of_In in H. specialize (H Hin). cbn [fst snd] in H. change (negb (3 =? 3)) with false in H. cbn [orb] in H.
  by apply andb_true_iff in H as [->%Z.eqb_eq ->%bool_decide_eq_true].
Qed.
End Example.

Import FsNames.Example Example.

(** unlink of f, which was its last name, and of /a/.. *)
Lemma unlink_correct_witness :
  (∃ ic' t' v' d', unlink_tx 0 [102] (FState ex_dsb ex_cache ex_tview) = Ok 0 (FState ex_dsb ic' t') ∧ trep t' v' ∧
     d_type (idisk ex_dsb (t_blocks v') 3) = 0 ∧ without ex_tree 2 3 d' ex_f true !! 3 = None ∧ dir_lookup nf (content (t_blocks v') d') = None ∧
     dir_lookup dotdot (content (t_blocks v') d') = Some 1 ∧ tree_ok (t_blocks v') (without ex_tree 2 3 d' ex_f true)) ∧
  (∃ ic' t', unlink_tx 0 [47; 97; 47; 46; 46] (FState ex_dsb ex_cache ex_tview) = Ok (-1) (FState ex_dsb ic' t') ∧ refs ic' = {[2 := 1]}).
Proof.
  split.
  - pose proof (unlink_correct ex_dsb ex_cache ex_tview ex_tview ex_tree 0 2 [102] [] nf (ex_can_walk [102] eq_refl) eq_refl) as H.
    cbv zeta in H. change (start 2 [102]) with 2 in H. cbn [resolve mbind option_bind] in H. change (ex_tree !! 2) with (Some ex_a) in H.
    cbn [mbind option_bind] in H. rewrite decide_True in H by reflexivity. rewrite decide_False in H by (intros [|]; discriminate).
    replace (dir_lookup nf _) with (Some 3) in H by (vm_compute; reflexivity).
    destruct H as (e & [= <-] & H). specialize (H (ex_can_unlink 2 3 ex_a ex_f ltac:(done) ltac:(done) ltac:(done))). rewrite decide_False in H by (intros [? _]; discriminate).
    change (goes ex_cache 3 ex_f) with true in H. destruct H as (ic' & t' & v' & d' & E & Hb & [_ _ _ _ Hn _] & [Hgone _] & _ & Ht).
    exists ic', t', v', d'. split; [exact E|]. split; [apply Hb|]. split; [exact Hgone|]. split; [rewrite without_lookup; reflexivity|]. rewrite !Hn. split; [reflexivity|]. split; [vm_compute; reflexivity|].
    apply Ht. intros _ q c x Hq Hty Hx. left.
    by apply (ex_sole q c x).
  - pose proof (unlink_correct ex_dsb ex_cache ex_tview ex_tview ex_tree 0 2 [47; 97; 47; 46; 46] [na] dotdot (ex_can_walk [47; 97; 47; 46; 46] eq_refl) eq_refl) as H.
    cbv zeta in H. replace (resolve _ _ _ [na]) with (Some 2) in H by (vm_compute; reflexivity). cbn [mbind option_bind] in H.
    change (ex_tree !! 2) with (Some ex_a) in H. cbn [mbind option_bind] in H. rewrite decide_True in H by reflexivity. rewrite decide_True in H by (by right).
    destruct H as (ic' & t' & E & Hb). exists ic', t'. split; [exact E|]. rewrite (bk_refs _ _ _ _ _ _ Hb). vm_compute. reflexivity.
Defined.
