(* ===== verification/SysCrash.v ===== *)
(** * Creating files and crashes

    create of sysfile.c over log.c over the buffer cache: a crash leaves the
    old tree of names or the new one. *)

From S2P Require Import Prelude Params Disk BlockCache Bio BioProofs Superblock Log LogProofs.
From S2P Require Import LogCrash LogTx Machine LogSpec Txn TxnLog Fs FsBlocks FsInode FsBmap FsIo FsDinode FsIcache FsTrunc FsWrite FsDir FsPath FsCheck FsLife FsCrash.
From S2P Require Import Sysfile SysCreate.

(** ** Transactions that do not touch the superblock

    The operations of a transaction, with the superblock out of sight: what
    is proved of the operations for every [Txn] then shows that they do not
    log block 1, and that they leave the durable contents alone. *)

Definition shield (v : tview) : tview :=
  TView (delete 1 (t_blocks v)) (t_held v) (t_pending v) (t_logged v) (t_room v) (t_durable v).

Section shield.
Context {S : Type} `{!Txn S} (D : gmap Z block).
Implicit Types (t : S) (v : tview).

Record shielded t w : Prop := Shielded {
  sh_view : ∃ v, trep t v ∧ w = shield v;
  sh_durable : t_durable w = D;
  sh_logged : 1 ∉ t_logged w;
  sh_held i : t_held w !! i ≠ Some 1;
}.

Lemma shield_lookup v b x : t_blocks (shield v) !! b = Some x ↔ b ≠ 1 ∧ t_blocks v !! b = Some x.
Proof. cbn. rewrite lookup_delete_Some. naive_solver. Qed.

#[program] Definition shield_txn : Txn S := {|
  t_bread := t_bread;
  t_brelse := t_brelse;
  t_data := t_data;
  t_set := t_set;
  t_log_write := t_log_write;
  t_begin_op := t_begin_op;
  t_end_op := t_end_op;
  trep := shielded;
|}.
Next Obligation.
  intros t w i b [(v & Hv & ->) _ _ Hh] Hi. destruct (trep_held t v i b Hv Hi) as [x Hx]. exists x. apply shield_lookup. split; [|done].
  intros ->. by apply (Hh i).
Qed.
Next Obligation.
  intros t w b [(v & Hv & ->) Hd Hl Hh] [x [Hb Hx]%shield_lookup] Hnh Hsz.
  destruct (t_bread_ok t v b Hv (mk_is_Some _ _ Hx) Hnh Hsz) as (i & t' & E & Hi & Ht'). exists i, t'. split; [done|]. split; [done|].
  split; [by exists (hold i b v)|done|done|]. intros j. cbn. destruct (decide (j = i)) as [->|]; [rewrite lookup_insert_eq; congruence|by rewrite lookup_insert_ne].
Qed.
Next Obligation.
  intros t w i b [(v & Hv & ->) Hd Hl Hh] Hi Hp. destruct (t_brelse_ok t v i b Hv Hi Hp) as (t' & E & Ht'). exists t'. split; [done|].
  split; [by exists (unhold i v)|done|done|]. intros j. cbn. intros [_ Hj]%lookup_delete_Some. by apply (Hh j).
Qed.
Next Obligation. intros t w i b x [(v & Hv & ->) _ _ _] Hi [_ Hx]%shield_lookup. by apply (t_data_ok t v i b). Qed.
Next Obligation.
  intros t w i b x [(v & Hv & ->) Hd Hl Hh] Hi. destruct (t_set_ok t v i b x Hv Hi) as (t' & E & Ht'). exists t'. split; [done|].
  split; [|done|done|done]. exists (put_block b x v). split; [done|]. unfold put_block, shield. cbn. f_equal. rewrite delete_insert_ne; [done|].
  intros E1. apply (Hh i). cbn. congruence.
Qed.
Next Obligation.
  intros t w i b [(v & Hv & ->) Hd Hl Hh] Hi Hr. destruct (t_log_write_ok t v i b Hv Hi Hr) as (t' & E & Ht'). exists t'. split; [done|].
  split; [by exists (add_log b v)|done| |done]. cbn in *. assert (b ≠ 1) by (intros ->; by apply (Hh i)). set_solver.
Qed.

Context `{!DevSw S}.

(** The operations are the same. *)
Lemma shield_create cwd path type major minor :
  @create S shield_txn _ cwd path type major minor = create cwd path type major minor.
Proof. reflexivity. Qed.
End shield.

(** ** A file system on another disk

    The blocks of the first disk, but perhaps the superblock, are on the
    second one. *)

Record disk_fs (sb : superblock) (m : gmap Z block) (ds : gmap Z dinode) : Prop := DiskFs {
  df_ok : fs_ok sb m ds;
  df_table : itable sb m ds ∅;
  df_tree : tree_ok m ds;
  df_type inum d : ds !! inum = Some d → d_type d ≠ 0;
}.

Definition agree (m m' : gmap Z block) : Prop := ∀ b x, b ≠ 1 → m !! b = Some x → m' !! b = Some x.

Section agree.
Context (sb : superblock) (m m' : gmap Z block) (ds : gmap Z dinode).
Context (Hok : fs_ok sb m ds) (Hi : 1 < sb_inodestart sb ≤ sb_bmapstart sb) (Hag : agree m m').

Lemma agree_used b : 0 ≤ b < sb_size sb → used sb m' b = used sb m b ∧ ∃ x, m' !! BBLOCK b sb = Some x ∧ length x = BSIZE_n.
Proof.
  intros Hb. pose proof (bitmap_place sb m b (fo_map Hok) Hb) as Hp. destruct (mo_block _ _ (fo_map Hok) b Hb) as (x & Hx & Hl).
  unfold used. rewrite (Hag (BBLOCK b sb) x), Hx by (done || lia). split; [done|by exists x].
Qed.

Lemma agree_data inum d p b : ds !! inum = Some d → blk m d !! p = Some b → b ≠ 0 → m' !! b = m !! b.
Proof.
  intros Hd Hp Hb. destruct (fo_owned Hok _ _ _ _ Hd Hp Hb) as [Hdb _]. destruct (fo_block Hok _ Hdb) as (x & Hx & _).
  rewrite (Hag b x), Hx; [done| |done]. destruct Hdb as [Hdb _]. unfold data_start in Hdb. destruct (fo_map Hok) as [Hs _ _].
  assert (0 ≤ sb_size sb / BPB) by (apply Z.div_pos; [lia|done]). lia.
Qed.

Lemma agree_blk inum d : ds !! inum = Some d → blk m' d = blk m d.
Proof. intros Hd. apply blk_ext. intros Hne. by apply (agree_data inum d 0%nat); [|apply blk_ind|]. Qed.

Lemma agree_content inum d : ds !! inum = Some d → content m' d = content m d.
Proof.
  intros Hd. apply content_ext; [done|]. intros o Ho. pose proof (fo_full Hok _ _ _ Hd Ho) as Hne. unfold file_block.
  rewrite (blk_addr_of m m' d d) by (by rewrite (agree_blk inum)). by rewrite (agree_data inum d _ _ Hd (blk_addr _ _ _ _ Hne eq_refl) Hne).
Qed.

Lemma agree_fs_ok : fs_ok sb m' ds.
Proof.
  destruct (fo_map Hok) as [M1 M2 _]. assert (0 ≤ sb_size sb / BPB) by (apply Z.div_pos; [lia|done]). split.
  - split; [done|done|]. intros b Hb. by apply agree_used.
  - intros b Hb Hs. rewrite (proj1 (agree_used b ltac:(lia))). by apply (fo_meta Hok).
  - intros b Hb. destruct (fo_block Hok b Hb) as (x & Hx & Hl). exists x. split; [apply Hag; [|done]|done]. destruct Hb as [Hb _]. unfold data_start in Hb. lia.
  - apply (fo_len Hok).
  - intros inum d p b Hd Hp Hb. rewrite (agree_blk inum) in Hp by done. destruct (fo_owned Hok _ _ _ _ Hd Hp Hb) as [Hdb Hu]. split; [done|].
    destruct Hdb as [H1 H2]. unfold data_start in H1. by rewrite (proj1 (agree_used b ltac:(lia))).
  - intros i1 i2 d1 d2 p1 p2 b H1 H2. rewrite (agree_blk i1 d1 H1), (agree_blk i2 d2 H2). by apply (fo_sep Hok).
  - apply (fo_size Hok).
  - intros inum d o Hd Ho. rewrite (blk_addr_of m m' d d) by (by rewrite (agree_blk inum)). by apply (fo_full Hok inum).
Qed.

Lemma agree_free : free_blocks sb m' = free_blocks sb m.
Proof.
  apply set_eq. intros b. rewrite !elem_of_free. split; intros [Hb Hu]; (split; [done|]); [by rewrite <- (proj1 (agree_used b Hb))|by rewrite (proj1 (agree_used b Hb))].
Qed.

Lemma agree_disk_fs : itable sb m ds ∅ → tree_ok m ds → (∀ inum d, ds !! inum = Some d → d_type d ≠ 0) → disk_fs sb m' ds.
Proof.
  intros Hit [Htd Hte] Hty. split; [apply agree_fs_ok| | |done].
  - pose proof (λ k e, IBLOCK_eq sb m ds ∅ Hok Hit k e) as HI. destruct Hit as [H1 H2 H3 H4 H5]. split; [done|done|done|done|]. intros k e He.
    destruct (H5 k e He) as (x & Hx & Hl & Hg). exists x. split; [|done]. apply Hag; [|done]. rewrite (HI k e He).
    assert (0 ≤ k / IPB) by (apply Z.div_pos; [by apply (H1 k e)|done]). lia.
  - split.
    + intros k e He Ht. rewrite (agree_content k) by done. by apply (Htd k).
    + intros k e x y He Ht. rewrite (agree_content k) by done. by apply (Hte k).
Qed.

Lemma agree_resolve cur ns : resolve m' ds cur ns = resolve m ds cur ns.
Proof.
  revert cur. induction ns as [|x ns IH]; intros cur; [done|]. cbn [resolve]. destruct (ds !! cur) as [e|] eqn:He; [|done]. cbn [mbind option_bind].
  rewrite (agree_content cur) by done. destruct (decide _); [|done]. destruct (dir_lookup x _) as [y|]; [|done]. cbn [mbind option_bind]. apply IH.
Qed.

(** The inode blocks are there too. *)
Context (Ha : inode_area sb m).

Lemma agree_inode k : 1 ≤ k < sb_ninodes sb → ∃ x, m !! IBLOCK k sb = Some x ∧ m' !! IBLOCK k sb = Some x ∧ length x = BSIZE_n.
Proof.
  intros Hk. destruct (na_block _ _ Ha k Hk) as (x & Hx & Hl). exists x. split; [done|]. split; [|done]. apply Hag; [|done].
  pose proof (na_place _ _ Ha k Hk). assert (0 ≤ k / IPB) by (apply Z.div_pos; [lia|done]). destruct (fo_map Hok) as [_ Hst _].
  unfold IBLOCK. rewrite u32_small; lia.
Qed.

Lemma agree_area : inode_area sb m'.
Proof. split; [apply Ha|]. intros k Hk. destruct (agree_inode k Hk) as (x & _ & Hx & Hl). by exists x. Qed.

Lemma agree_first f : first_inode sb m f → first_inode sb m' f.
Proof.
  assert (∀ k, 1 ≤ k < sb_ninodes sb → idisk sb m' k = idisk sb m k) as E.
  { intros k Hk. destruct (agree_inode k Hk) as (x & H1 & H2 & _). unfold idisk. by rewrite H1, H2. }
  intros (Hf & H0 & Hall). split; [done|]. split; [by rewrite E|]. intros k Hk. rewrite E by lia. by apply Hall.
Qed.
End agree.

Lemma new_tree_agree m1 m2 m1' m2' ds p n f type major minor d d' nd :
  new_tree m1 m2 ds p n f type major minor d d' nd →
  (∀ k e, ds !! k = Some e → content m1' e = content m1 e) →
  (∀ k e, with_new ds p f d' nd !! k = Some e → content m2' e = content m2 e) →
  new_tree m1' m2' ds p n f type major minor d d' nd.
Proof.
  intros [H1 H2 H3 H4 H5 H6 H7 H8 H9] Ho Hn. assert (p ≠ f) as Hpf by (destruct H1; congruence).
  assert (content m2' d' = content m2 d') as E1 by (apply (Hn p); rewrite with_new_lookup; by rewrite decide_True).
  assert (content m2' nd = content m2 nd) as E2 by (apply (Hn f); rewrite with_new_lookup, decide_False by done; by rewrite decide_True).
  split; [done|done|done|done|by rewrite E1| |done|by rewrite E2|].
  - intros x. rewrite E1, H6. by rewrite (Ho p) by apply H1.
  - intros k e Hk He. rewrite (Ho k e He), (Hn k e); [by apply (H9 k)|]. rewrite with_new_lookup, !decide_False by congruence. done.
Qed.

(** ** A crash of create *)

Section crash.
Context {S : Type} `{!BlockCache S, !DevSw (lstate S)}.
Implicit Types (s : lstate S).

(** The inode cache between system calls, and the path. *)
Record idle ic (ds : gmap Z dinode) (cwd : nat) (cwdnum : Z) (path : list Z) : Prop := Idle {
  id_cache : icache_ok ic ds;
  id_quiet : quiet_but ic None;
  id_free : (size (refs ic) + 2 ≤ length ic)%nat;
  id_cwd : ∃ i, slot ic cwd cwdnum i;
  id_root : ∃ d, ds !! ROOTINO = Some d ∧ d_nlink d ≠ 0;
  id_path : Forall byte_ok path ∧ 0 ∉ path;
}.

Lemma shield_agree m : agree m (delete 1 m) ∧ agree (delete 1 m) m.
Proof. split; intros b x Hb; [by rewrite lookup_delete_ne by done|by intros [_ ?]%lookup_delete_Some]. Qed.

(** At the start of a transaction, with the superblock out of sight. *)
Lemma begun_can_walk sb s m ic ds cwd cwdnum path :
  log_trep s (begun m) → disk_fs sb m ds → 1 < sb_inodestart sb ≤ sb_bmapstart sb → idle ic ds cwd cwdnum path →
  @can_walk _ (shield_txn m) sb ic s (shield (begun m)) ds cwd cwdnum path.
Proof.
  intros Ht [Hok Hit Htr Hty] Hi [H1 H2 H3 H4 H5 H6].
  destruct (agree_disk_fs sb m (delete 1 m) ds Hok Hi (proj1 (shield_agree m)) Hit Htr Hty) as [Hok' Hit' Htr' _].
  split; [|done|done|done|done|done|done]. split; [|done|done|done|done|done|done]. split; [by exists (begun m)|done|done|].
  intros i. cbn. by rewrite lookup_empty.
Qed.

Lemma shield_can_create sb m ds p f type major minor d :
  fs_ok sb m ds → 1 < sb_inodestart sb ≤ sb_bmapstart sb → can_create sb (begun m) p f type major minor d →
  can_create sb (shield (begun m)) p f type major minor d.
Proof.
  intros Hok Hi [H1 H2 H3 H4 H5 H6 H7 H8]. cbn [begun t_blocks] in *. destruct (shield_agree m) as [Hag _].
  split; [by apply (agree_area sb m _ ds)|by apply (agree_first sb m _ ds)|done|done|done|done| |done]. cbn [shield begun t_blocks]. by rewrite (agree_free sb m _ ds).
Qed.

(** C4: making a file or a directory is atomic with respect to crashes.  On a
    consistent disk whose log is idle, begin_op and create succeed and end_op
    commits; and if the machine stops after any number of the disk writes of
    the commit and reboots, initlog leaves a consistent disk on which the tree
    is the old one with every file as before, or the old one with the new
    name, which the path then stands for. *)
Theorem create_crash_atomic sb s bv dur ic ds cwd cwdnum path type major minor ns n p d f :
  let m := home (lg s) dur in
  reachable (Conf s bv [] dur) → v_held bv = ∅ → sb_places (lg s) dur → ¬ in_log (lg s) 1 → 1 < sb_inodestart sb ≤ sb_bmapstart sb →
  disk_fs sb m ds → idle ic ds cwd cwdnum path → names path = ns ++ [n] →
  resolve m ds (start cwdnum path) ns = Some p → ds !! p = Some d → d_type d = T_DIR → dir_lookup n (content m d) = None →
  can_create sb (begun m) p f type major minor d →
  ∃ ip ic' s1 bv1 u dur1 s2 d' nd,
    (tx t_begin_op;; create cwd path type major minor) (FState sb ic s) = Ok (Some ip) (FState sb ic' s1) ∧
    reachable (Conf s1 bv1 [u] dur1) ∧ end_op s1 = Ok tt s2 ∧ brep (io s2) (commit_view (lg s1) bv1) ∧
    v_writes (commit_view (lg s1) bv1) = v_writes bv1 ++ commit_trace (lg s1) bv1 ∧
    ∀ c s0 w, lg s0 = log_zero → brep (io s0) (fresh (crashed (Conf s1 bv1 [u] dur1) c) w) →
      ∃ s3 m3 w3, initlog ROOTDEV s0 = Ok tt s3 ∧ brep (io s3) (fresh m3 w3) ∧
        (disk_fs sb m3 ds ∧ (∀ k e, ds !! k = Some e → content m3 e = content m e) ∨
         let ds' := with_new ds p f d' nd in
         disk_fs sb m3 ds' ∧ new_tree m m3 ds p n f type major minor d d' nd ∧ resolve m3 ds' (start cwdnum path) (names path) = Some f).
Proof.
  intros m Hr Hh Hsb Hnl Hi Hdisk Hidle En Hres Hd Hty Hnone Hcc. pose proof Hdisk as [Hok Hit Htr Htp].
  destruct (shield_agree m) as [Hag Hag'].
  destruct (txn_begin s bv dur Hr Hh Hsb Hnl) as (s1 & E1 & Ht1). fold m in Ht1.
  pose proof (begun_can_walk sb s1 m ic ds cwd cwdnum path Ht1 Hdisk Hi Hidle) as Hw.
  pose proof (@create_correct _ (shield_txn m) _ sb ic s1 _ ds cwd cwdnum path type major minor ns n Hw En) as H. cbv zeta in H.
  rewrite (shield_create m) in H. cbn [shield begun t_blocks] in H. rewrite (agree_resolve sb m _ ds Hok Hi Hag), Hres in H. cbn [mbind option_bind] in H.
  rewrite Hd in H. cbn [mbind option_bind] in H. rewrite decide_True, (agree_content sb m _ ds Hok Hi Hag p), Hnone in H by done.
  destruct (H f (shield_can_create sb m ds p f type major minor d Hok Hi Hcc)) as (ip & ic' & s2 & w & j & d' & nd & E2 & Hvi & _ & Hnew & Htree' & Hpath).
  destruct (vi_fs _ _ _ _ _ _ _ _ _ Hvi) as [[(v & Hv & ->) Hdur Hl _] Hheld _ Hok2 Hit2 _ Htp2]. cbn [shield t_durable t_logged t_held t_blocks] in *.
  destruct (txn_crash s2 v Hv Hheld Hl) as (bv1 & u & dur1 & s3 & C1 & C2 & C3 & C4 & C5).
  exists ip, ic', s2, bv1, u, dur1, s3, d', nd. split; [mstep (tx_ok t_begin_op sb ic s tt s1 E1); exact E2|].
  split; [done|]. split; [done|]. split; [done|]. split; [done|]. intros c s0 w Hs0 Hrep0.
  destruct (C5 c s0 w Hs0 Hrep0) as (s4 & m4 & w4 & D1 & _ & D3 & D4). exists s4, m4, w4. split; [done|]. split; [done|]. rewrite Hdur in D4.
  destruct D4 as [Hsub|Hsub]; rewrite map_subseteq_spec in Hsub; [left|right].
  - assert (agree m m4) as Hag4 by (intros b x _; apply Hsub). split; [by apply (agree_disk_fs sb m)|]. intros k e He. by apply (agree_content sb m m4 ds Hok Hi Hag4 k).
  - cbv zeta. assert (agree (delete 1 (t_blocks v)) m4) as Hag4 by (intros b x Hb [_ Hx]%lookup_delete_Some; by apply Hsub).
    split; [by apply (agree_disk_fs sb (delete 1 (t_blocks v)))|]. split.
    + apply (new_tree_agree _ _ m m4 _ _ _ _ _ _ _ _ _ _ Hnew); intros k e He; [symmetry; by apply (agree_content sb m _ ds Hok Hi Hag k)|].
      by apply (agree_content sb _ m4 _ Hok2 Hi Hag4 k).
    + rewrite (agree_resolve sb _ m4 _ Hok2 Hi Hag4). done.
Qed.
End crash.

(** ** An example

    The disk of FsCrash.v, with an empty root directory in block 34. *)
Module Example.
Definition ex_root : dinode := DInode T_DIR 0 0 1 32 (34 :: replicate 12 0).
Definition ex_rblock : block := put_dinode 1 ex_root zero_block.
Definition ex_rdir : block := mk_dirent DOT 1 ++ mk_dirent DOTDOT 1 ++ replicate 480 0.
Definition ex_rhome : gmap Z block := FsCrash.Example.ex_home ex_rblock FsCrash.Example.ex_map ex_rdir.
Definition ex_rtree : gmap Z dinode := {[1 := ex_root]}.

(** The current directory is the root. *)
Definition ex_rcache : list inode := [Inode ROOTDEV 1 1 0 ex_root; Inode 0 0 0 0 ex_root; Inode 0 0 0 0 ex_root].

Lemma ex_rcache_inv ip i : ex_rcache !! ip = Some i → 0 < i_ref i → ip = 0%nat ∧ i = Inode ROOTDEV 1 1 0 ex_root.
Proof. destruct ip as [|[|[|ip]]]; cbn; intros [= <-]; cbn; intros; (done || lia). Qed.

Lemma ex_disk_fs : disk_fs FsCrash.Example.ex_fsb ex_rhome ex_rtree.
Proof.
  split; [apply fs_check_ok; vm_compute; reflexivity|apply itable_check_ok; vm_compute; reflexivity|apply tree_check_ok; vm_compute; reflexivity|].
  intros inum d H. apply Z.eqb_neq, negb_true_iff. by apply (all_inodes_ok ex_rtree (λ _ d, negb (d_type d =? 0)) inum).
Qed.

Lemma ex_idle path : forallb (λ z, (1 <=? z) && (z <? 256)) path = true → idle ex_rcache ex_rtree 0 1 path.
Proof.
  intros Hp%forallb_range. assert (Forall byte_ok path ∧ 0 ∉ path) as Hb.
  { rewrite Forall_forall in Hp. split; [|intros H%Hp; lia]. apply Forall_forall. intros z Hz%Hp. unfold byte_ok. lia. }
  split; [| |vm_compute; lia|by eexists|by eexists|done].
  - split.
    + intros [|[|[|ip]]] i; cbn; intros [= <-]; cbn; lia.
    + intros ip i Hip Hi. destruct (ex_rcache_inv ip i Hip Hi) as [-> ->]. split; [done|]. by eexists.
    + intros ip jp i j Hip Hjp Hi Hj _. destruct (ex_rcache_inv ip i Hip Hi) as [-> _]. by destruct (ex_rcache_inv jp j Hjp Hj) as [-> _].
    + intros ip i Hip Hi. by destruct (ex_rcache_inv ip i Hip Hi) as [-> ->].
  - intros ip i Hip Hi _. by destruct (ex_rcache_inv ip i Hip Hi) as [-> ->].
Qed.
End Example.

Import FsCrash.Example Example.
#[local] Existing Instance ex_no_devices.

Lemma ex_can_mkdir : can_create ex_fsb (begun ex_rhome) 1 2 T_DIR 0 0 ex_root.
Proof.
  split; [| |done| |by vm_compute|vm_compute; lia|vm_compute; lia|by vm_compute].
  - assert (∀ k, 1 ≤ k < 8 → (k / IPB + 32 <? 33) && whole_block ex_rhome (IBLOCK k ex_fsb) = true) as H.
    { intros k Hk. apply (all_below_ok 8 (λ k, (k / IPB + 32 <? 33) && whole_block ex_rhome (IBLOCK k ex_fsb))); [vm_compute; reflexivity|lia]. }
    split; intros k Hk; specialize (H k Hk); apply andb_true_iff in H as [H1%Z.ltb_lt H2%whole_block_ok]; done.
  - split; [cbn; lia|]. split; [vm_compute; reflexivity|]. intros k Hk. assert (k = 1) as -> by lia. by vm_compute.
  - split; [|done]. split; [done|done|done|done|done|done|]. by apply (Forall_replicate _ 13 0).
Qed.

(** mkdir of d in the root. *)
Lemma create_crash_atomic_witness :
  ∃ s ip ic' s1 s2 : _, ∃ bv1 u dur1,
    (tx t_begin_op;; create 0 [100] T_DIR 0 0) (FState ex_fsb ex_rcache s) = Ok (Some ip) (FState ex_fsb ic' s1) ∧
    reachable (Conf (S := bstate Memide.state) s1 bv1 [u] dur1) ∧ end_op s1 = Ok tt s2.
Proof.
  destruct (ex_fs_boot ex_rblock ex_map ex_rdir) as (s & bv & dur & Hr & Hh & Hsb & Hnl & Eh). fold ex_rhome in Eh.
  destruct (create_crash_atomic ex_fsb s bv dur ex_rcache ex_rtree 0 1 [100] T_DIR 0 0 [] [100] 1 ex_root 2 Hr Hh Hsb Hnl)
    as (ip & ic' & s1 & bv1 & u & dur1 & s2 & d' & nd & E1 & E2 & E3 & _); rewrite ?Eh.
  - cbn. lia.
  - apply ex_disk_fs.
  - by apply ex_idle.
  - reflexivity.
  - reflexivity.
  - reflexivity.
  - reflexivity.
  - vm_compute. reflexivity.
  - apply ex_can_mkdir.
  - exists s, ip, ic', s1, s2, bv1, u, dur1. split; [exact E1|]. split; [exact E2|exact E3].
Defined.
