(* ===== verification/Exec.v ===== *)
(** * exec (exec.c, sys_exec of sysfile.c) *)

From S2P Require Import Prelude Params Mem Mmu Kalloc Vm VmProofs Txn Fs File Proc Kernel.

Section exec.
Context `{!Linker} {S : Type} `{!Txn S, !DevSw S}.
#[local] Abbreviation K := (M (kernel S)).

Definition sys_mem {A} (m : M kstate A) : K A := on_env (on_mem m).

(** readi(ip, dst, off, n) with [dst] in the kernel's memory. *)
Definition readi_at (ip : nat) (dst off n : Z) : K Z :=
  r ← sys_fs (readi ip off n);
  sys_mem (on_ram (store_bytes dst r.2));;
  mret r.1.

(** The loop that loads the program, [n] headers left; None is [goto bad]. *)
Fixpoint exec_load (n : nat) (pgdir : Z) (ip : nat) (off sz : Z) : K (option Z) :=
  match n with
  | O => mret (Some sz)
  | Datatypes.S n =>
      r ← sys_fs (readi ip (u32 off) sizeof_proghdr);
      let ph := r.2 in
      if negb (r.1 =? sizeof_proghdr) then mret None
      else if negb (ph_type ph =? ELF_PROG_LOAD) then exec_load n pgdir ip (off + sizeof_proghdr) sz
      else if ph_memsz ph <? ph_filesz ph then mret None
      else if u32 (ph_vaddr ph + ph_memsz ph) <? ph_vaddr ph then mret None
      else
        sz ← sys_mem (allocuvm ld_end pgdir sz (u32 (ph_vaddr ph + ph_memsz ph)));
        if sz =? 0 then mret None
        else if negb (ph_vaddr ph `mod` PGSIZE =? 0) then mret None
        else
          r ← loaduvm (@sys_mem) (readi_at ip) pgdir (ph_vaddr ph) (ph_off ph) (ph_filesz ph);
          if r <? 0 then mret None else exec_load n pgdir ip (off + sizeof_proghdr) sz
  end.

(** The loop that pushes the argument strings: the stack pointer and the
    addresses of the strings. *)
Fixpoint push_args (pgdir sp : Z) (argv : list (list Z)) (argc : Z) (ustack : list Z)
    : K (option (Z * list Z)) :=
  match argv with
  | [] => mret (Some (sp, ustack))
  | arg :: argv =>
      if MAXARG <=? argc then mret None
      else
        let sp := Z.land (u32 (sp - (Z.of_nat (length arg) + 1))) (Z.lnot 3) in
        r ← sys_mem (copyout pgdir sp (arg ++ [0]));
        if r <? 0 then mret None else push_args pgdir sp argv (argc + 1) (ustack ++ [sp])
  end.

(** The two pages at the top, the arguments and the frame of main: the size
    of the image and the stack pointer. *)
Definition exec_stack (pgdir sz : Z) (argv : list (list Z)) : K (option (Z * Z)) :=
  let sz := PGROUNDUP sz in
  sz ← sys_mem (allocuvm ld_end pgdir sz (u32 (sz + 2 * PGSIZE)));
  if sz =? 0 then mret None
  else
    sys_mem (clearpteu pgdir (u32 (sz - 2 * PGSIZE)));;
    r ← push_args pgdir sz argv 0 [];
    match r with
    | None => mret None
    | Some (sp, args) =>
        let argc := Z.of_nat (length args) in
        let ustack := [0xffffffff; argc; u32 (sp - (argc + 1) * 4)] ++ args ++ [0] in
        let sp := u32 (sp - (3 + argc + 1) * 4) in
        r ← sys_mem (copyout pgdir sp (concat (le_bytes 4 <$> ustack)));
        mret (if r <? 0 then None else Some (sz, sp))
    end.

(** What follows the last slash. *)
Fixpoint last_elem (path last : list Z) : list Z :=
  match path with
  | [] => last
  | c :: path => last_elem path (if c =? SLASH then path else last)
  end.

(** [bad:], with the inode still locked or not. *)
Definition exec_bad (pgdir : Z) (ip : option nat) : K Z :=
  (if pgdir =? 0 then mret tt else sys_mem (freevm ld_end pgdir));;
  (match ip with Some ip => sys_fs (iunlockput ip);; on_env end_op | None => mret tt end);;
  mret (-1).

(** switchuvm() changes only registers and descriptors of the processor, which
    are not part of this state; it is in Seg.v. *)
Definition exec_commit (cur : nat) (path : list Z) (pgdir sz entry sp : Z) : K Z :=
  p ← proc_at cur;
  upd cur (set_name (take 15 (last_elem path path)));;
  upd cur (set_pgdir pgdir);;
  upd cur (set_sz sz);;
  upd cur (λ p, set_tf (set_eip entry (p_tf p)) p);;
  upd cur (λ p, set_tf (set_esp sp (p_tf p)) p);;
  sys_mem (freevm ld_end (p_pgdir p));;
  mret 0.

(** [elf0] is what the local variable [elf] holds before readi fills it.  The
    comparison of its result with sizeof(elf) is unsigned. *)
Definition exec (cur : nat) (elf0 : list Z) (path : list Z) (argv : list (list Z)) : K Z :=
  cwd ← cwd_of cur;
  on_env begin_op;;
  r ← sys_fs (namei cwd path);
  match r with
  | None => on_env end_op;; mret (-1)
  | Some ip =>
      sys_fs (ilock (Some ip));;
      r ← sys_fs (readi ip 0 sizeof_elfhdr);
      let elf := splice 0 r.2 elf0 in
      if u32 r.1 <? sizeof_elfhdr then exec_bad 0 (Some ip)
      else if negb (elf_magic elf =? ELF_MAGIC) then exec_bad 0 (Some ip)
      else
        pgdir ← sys_mem (setupkvm ld_data);
        if pgdir =? 0 then exec_bad 0 (Some ip)
        else
          r ← exec_load (Z.to_nat (elf_phnum elf)) pgdir ip (s32 (elf_phoff elf)) 0;
          match r with
          | None => exec_bad pgdir (Some ip)
          | Some sz =>
              sys_fs (iunlockput ip);;
              on_env end_op;;
              r ← exec_stack pgdir sz argv;
              match r with
              | None => exec_bad pgdir None
              | Some (sz, sp) => exec_commit cur path pgdir sz (elf_entry elf) sp
              end
          end
  end.

(** The loop of sys_exec over the argument vector, [n] entries of argv[] left. *)
Fixpoint fetch_argv (cur n : nat) (uargv i : Z) (argv : list (list Z)) : K (option (list (list Z))) :=
  match n with
  | O => mret None
  | Datatypes.S n =>
      uarg ← fetchint cur (u32 (uargv + 4 * i));
      match uarg with
      | None => mret None
      | Some uarg =>
          if uarg =? 0 then mret (Some argv)
          else
            s ← fetchstr cur (u32 uarg);
            match s with
            | None => mret None
            | Some s => fetch_argv cur n uargv (i + 1) (argv ++ [s])
            end
      end
  end.

Definition sys_exec (cur : nat) (elf0 : list Z) : K Z :=
  path ← argstr cur 0;
  match path with
  | None => mret (-1)
  | Some path =>
      uargv ← argint cur 1;
      match uargv with
      | None => mret (-1)
      | Some uargv =>
          argv ← fetch_argv cur (Z.to_nat MAXARG) (u32 uargv) 0 [];
          match argv with
          | None => mret (-1)
          | Some argv => exec cur elf0 path argv
          end
      end
  end.
End exec.
