(* ===== verification/ExecMem.v ===== *)
(** * An address space under construction

    exec() builds the new address space beside the old one, out of pages that
    were free when it started.  [building] says so; every routine of vm.c that
    exec calls keeps it, and with it the old address space. *)

From S2P Require Import Prelude Mem Str Mmu Kalloc Vm VmProofs VmUser VmCopy VmSpec.

#[local] Opaque replicate put_bytes.

Section building.
Context (end_ data_ : Z).
Hypothesis end_high : KERNBASE < end_.
#[local] Abbreviation uvm := (uvm end_).

(** The address space [d] is made of pages that were free in [s0], and the
    other pages of [s0] are as they were. *)
Record building (s0 : kstate) (fl0 : list Z) (d : Z) (s : kstate) (fl : list Z) (tabs ptes : gmap Z Z) (sz : Z) : Prop := Building {
  bu_uvm : uvm s fl d tabs ptes sz;
  bu_pages p : p ∈ fl0 ↔ p ∈ fl ∨ uses d tabs ptes p;
  bu_keeps : keeps end_ (λ p, p ∉ fl0) (ram s0) (ram s);
}.

Lemma keeps_weaken (P Q : Z → Prop) m m' : keeps end_ P m m' → (∀ p, Q p → P p) → keeps end_ Q m m'.
Proof. intros H HQ p a Hp HQp. apply (H p a Hp). auto. Qed.

Lemma building_step s0 fl0 d s fl tabs ptes sz s' fl' tabs' ptes' sz' :
  building s0 fl0 d s fl tabs ptes sz → uvm s' fl' d tabs' ptes' sz' →
  keeps end_ (λ p, p ∉ fl ∧ ¬ uses d tabs ptes p) (ram s) (ram s') →
  (∀ p, p ∈ fl ∨ uses d tabs ptes p ↔ p ∈ fl' ∨ uses d tabs' ptes' p) →
  building s0 fl0 d s' fl' tabs' ptes' sz'.
Proof.
  intros [Hu Hp Hk] Hu' Hk' Hp'. split; [done|intros p; by rewrite Hp, Hp'|].
  eapply keeps_trans; [exact Hk|exact Hk'|]. intros p _ Hn. split; [done|]. rewrite Hp in Hn. tauto.
Qed.

(** Only the pages of the user part change. *)
Lemma building_frames s0 fl0 d s fl tabs ptes sz s' :
  building s0 fl0 d s fl tabs ptes sz → uvm s' fl d tabs ptes sz →
  keeps end_ (λ p, ¬ freed ptes 0 KERNBASE p) (ram s) (ram s') → building s0 fl0 d s' fl tabs ptes sz.
Proof.
  intros Hb Hu Hk. eapply building_step; [exact Hb|exact Hu| |done]. eapply keeps_weaken; [exact Hk|].
  intros p [_ Hn] Hf. apply Hn. by right.
Qed.

(** The old address space, when only pages that were free have changed. *)
Lemma old_kept s0 fl0 s fl pp ptabs pptes psz :
  uvm s0 fl0 pp ptabs pptes psz → kmem_ok end_ s fl → keeps end_ (λ p, p ∉ fl0) (ram s0) (ram s) → (∀ p, p ∈ fl → p ∈ fl0) →
  uvm s fl pp ptabs pptes psz ∧ ∀ a, 0 ≤ a < KERNBASE → ubyte (ram s) pp a = ubyte (ram s0) pp a.
Proof.
  intros Hu0 Hk Hkeep Hsub.
  assert (uvm s fl pp ptabs pptes psz) as Hu'.
  { eapply uvm_keeps; [exact Hu0|exact Hk|exact Hkeep|]. intros p Hpu.
    destruct (uses_not_free _ _ _ _ _ _ _ _ Hu0 Hpu) as [Hn _]. split; [done|]. intros Hin. by apply Hn, Hsub. }
  split; [done|]. intros a Ha. eapply ubyte_keeps; [exact Hu0|exact Hu'|exact Hkeep| |done].
  intros p Hf. apply (uses_not_free _ _ _ _ _ _ _ _ Hu0). by right.
Qed.

(** Giving it up returns exactly the pages that it took. *)
Lemma building_free s0 fl0 d s fl tabs ptes sz :
  building s0 fl0 d s fl tabs ptes sz →
  ∃ s' fl', freevm end_ d s = Ok tt s' ∧ kmem_ok end_ s' fl' ∧ (∀ p, p ∈ fl' ↔ p ∈ fl0) ∧
    keeps end_ (λ p, p ∉ fl0) (ram s0) (ram s').
Proof using end_high.
  intros [Hu Hp Hk]. destruct (freevm_ok end_ end_high s fl d tabs ptes sz Hu) as (s' & fl' & E & Hk' & Hfl & Hkeep).
  assert (∀ p, p ∈ fl' ↔ p ∈ fl0) as Heq by (intros p; rewrite Hfl, Hp; done).
  exists s', fl'. split; [exact E|]. split; [exact Hk'|]. split; [exact Heq|].
  eapply keeps_trans; [exact Hk|exact Hkeep|]. intros p _ Hn. split; [done|]. intros Hin. by apply Hn, Heq.
Qed.

(** Going over to it returns the pages of the old one. *)
Lemma building_switch s0 fl0 d s fl tabs ptes sz pp ptabs pptes psz :
  building s0 fl0 d s fl tabs ptes sz → uvm s0 fl0 pp ptabs pptes psz →
  ∃ s' fl', freevm end_ pp s = Ok tt s' ∧ uvm s' fl' d tabs ptes sz ∧
    (∀ a, 0 ≤ a < KERNBASE → ubyte (ram s') d a = ubyte (ram s) d a) ∧
    ∀ p, p ∈ fl' ∨ uses d tabs ptes p ↔ p ∈ fl0 ∨ uses pp ptabs pptes p.
Proof using end_high.
  intros [Hu Hp Hk] Hu0.
  destruct (old_kept s0 fl0 s fl pp ptabs pptes psz Hu0 (vo_kmem _ _ _ _ _ _ (fo_vm _ _ _ _ _ _ (uv_frames _ _ _ _ _ _ _ Hu))) Hk) as [Hold _].
  { intros p Hin. apply Hp. by left. }
  destruct (freevm_ok end_ end_high s fl pp ptabs pptes psz Hold) as (s' & fl' & E & Hk' & Hfl & Hkeep).
  assert (∀ p, uses d tabs ptes p → p ∉ fl') as Hout.
  { intros p Hpu Hin. apply Hfl in Hin as [Hin|Hin].
    - by destruct (uses_not_free _ _ _ _ _ _ _ _ Hu Hpu) as [Hn _].
    - destruct (uses_not_free _ _ _ _ _ _ _ _ Hu0 Hin) as [Hn _]. apply Hn, Hp. by right. }
  assert (uvm s' fl' d tabs ptes sz) as Hu'.
  { eapply uvm_keeps; [exact Hu|exact Hk'|exact Hkeep|]. intros p Hpu. by split; apply Hout. }
  exists s', fl'. split; [exact E|]. split; [done|]. split.
  - intros a Ha. eapply ubyte_keeps; [exact Hu|exact Hu'|exact Hkeep| |done]. intros p Hf. apply Hout. by right.
  - intros p. rewrite Hfl, Hp. unfold uses. tauto.
Qed.

(** ** Growing *)

Lemma PGROUNDUP_is n a : 0 ≤ n ≤ 2 ^ 32 - PGSIZE → n ≤ a < n + PGSIZE → a `mod` PGSIZE = 0 → PGROUNDUP n = a.
Proof.
  intros Hn Ha Hm. destruct (PGROUNDUP_spec n Hn) as [Hr Hr']. unfold PGSIZE in *. clear - Ha Hm Hr Hr'. Z.div_mod_to_equations. lia.
Qed.

Lemma uses_old d tabs0 ptes0 (fl0 : list Z) tabs ptes (fl : list Z) a0 a :
  a0 ≤ a ≤ KERNBASE → 0 ≤ a0 →
  (∀ p, p ∈ fl0 ∨ pt_page d tabs0 p ↔ p ∈ fl ∨ pt_page d tabs p ∨ freed ptes a0 a p) →
  (∀ va, ¬ (a0 ≤ va < a) → ptes !! va = ptes0 !! va) → (∀ va, a0 ≤ va < a → ptes0 !! va = None) →
  ∀ p, p ∈ fl0 ∨ uses d tabs0 ptes0 p ↔ p ∈ fl ∨ uses d tabs ptes p.
Proof.
  intros Ha H0 Hpg Hold Hnone p.
  assert (freed ptes 0 KERNBASE p ↔ freed ptes a0 a p ∨ freed ptes0 0 KERNBASE p) as Hf; [|unfold uses; rewrite Hf; specialize (Hpg p); tauto].
  split.
  - intros (va & e & Hr & He & ->). destruct (decide (a0 ≤ va < a)); [left; by exists va, e|].
    right. exists va, e. by rewrite <- Hold.
  - intros [(va & e & Hr & He & ->)|(va & e & Hr & He & ->)]; exists va, e; (split; [lia|]); (split; [|done]); [done|].
    rewrite Hold; [done|]. intros Hin. by rewrite Hnone in He.
Qed.

(** What allocuvm adds: zeroed pages of the user's, two free pages used for
    each at most. *)
Record added (s : kstate) (fl : list Z) (d : Z) (ptes : gmap Z Z) (a0 a : Z) (s' : kstate) (fl' : list Z) (ptes' : gmap Z Z) : Prop := Added {
  ad_bytes v : 0 ≤ v < KERNBASE → ubyte (ram s') d v = if decide (a0 ≤ v < a) then Some 0 else ubyte (ram s) d v;
  ad_old va : ¬ (a0 ≤ va < a) → ptes' !! va = ptes !! va;
  ad_new va : frame_ok va → a0 ≤ va < a → ∃ p, ptes' !! va = Some (mkpte (V2P p) (Z.lor PTE_W PTE_U)) ∧ page_ok end_ p;
  ad_length : Z.of_nat (length fl) * PGSIZE ≤ Z.of_nat (length fl') * PGSIZE + 2 * (a - a0);
}.

Lemma building_alloc s0 fl0 d s fl tabs ptes sz newsz :
  building s0 fl0 d s fl tabs ptes sz → 0 ≤ sz ≤ KERNBASE → 0 ≤ newsz →
  ∃ r s', allocuvm end_ d sz newsz s = Ok r s' ∧
    (r = Z.max sz newsz ∧ newsz < KERNBASE ∧ (∃ fl' tabs' ptes', building s0 fl0 d s' fl' tabs' ptes' r ∧
       added s fl d ptes (PGROUNDUP sz) (PGROUNDUP r) s' fl' ptes') ∨
     r = 0 ∧ (newsz < KERNBASE → Z.of_nat (length fl) * PGSIZE < 2 * (newsz - PGROUNDUP sz + PGSIZE)) ∧
       ∃ fl' tabs', building s0 fl0 d s' fl' tabs' ptes sz).
Proof using end_high.
  intros Hb Hsz Hnew.
  destruct (Z.leb_spec KERNBASE newsz) as [Hhigh|Hlow].
  { exists 0, s. unfold allocuvm. rewrite (proj2 (Z.leb_le _ _)) by done. split; [done|]. right. split; [done|]. split; [lia|eauto]. }
  destruct (Z.ltb_spec newsz sz) as [Hlt|Hge].
  { exists sz, s. unfold allocuvm. rewrite (proj2 (Z.leb_gt _ _)), (proj2 (Z.ltb_lt _ _)) by lia. split; [done|]. left. split; [lia|]. split; [done|].
    exists fl, tabs, ptes. split; [done|]. split; [intros; by rewrite decide_False by lia|done|intros; lia|lia]. }
  destruct (PGROUNDUP_spec sz) as [Hup Hal]; [unfold KERNBASE, PGSIZE in *; lia|].
  destruct (PGROUNDUP_spec newsz) as [Hnup Hnal]; [unfold KERNBASE, PGSIZE in *; lia|].
  destruct (allocuvm_ok end_ end_high s fl d tabs ptes sz newsz (bu_uvm _ _ _ _ _ _ _ _ Hb)) as (r & s' & E & Hr); [lia|done|].
  exists r, s'. split; [exact E|]. pose proof (bu_uvm _ _ _ _ _ _ _ _ Hb) as Hu. rewrite Z.max_r by lia.
  assert (PGROUNDUP newsz ≤ KERNBASE) as Hkb by (clear - Hlow Hnup Hnal; unfold KERNBASE, PGSIZE in *; Z.div_mod_to_equations; lia).
  assert (PGROUNDUP sz ≤ PGROUNDUP newsz) as Hle by (clear - Hge Hup Hal Hnup Hnal; unfold PGSIZE in *; Z.div_mod_to_equations; lia).
  assert (∀ va, PGROUNDUP sz ≤ va < PGROUNDUP newsz → ptes !! va = None) as Hnone.
  { intros va Hva. destruct (ptes !! va) as [e|] eqn:He; [|done]. exfalso.
    destruct (fo_va _ _ _ _ _ _ _ _ (uv_frames _ _ _ _ _ _ _ Hu) He) as (Hf & _).
    assert (va < sz); [|lia]. apply (uv_dom _ _ _ _ _ _ _ Hu); [done|lia|eauto]. }
  destruct Hr as [(-> & a & fl' & tabs' & ptes' & Ha & Hm & Hg)|(-> & Hlen & fl' & tabs' & [Hu' Ht Hpg Hk])].
  - left. split; [done|]. split; [done|]. exists fl', tabs', ptes'.
    assert (a = PGROUNDUP newsz) as -> by (symmetry; apply PGROUNDUP_is; [unfold KERNBASE, PGSIZE in *; lia|done|done]).
    pose proof Hg as [Hgu Ht Hold Hn Hpg Hk Hl]. split.
    + eapply building_step; [exact Hb| |eapply keeps_weaken; [exact Hk|]|].
      * eapply uvm_size; [exact Hgu|]. intros va Hva. clear - Hva Hnup Hnal. unfold PGSIZE in *. Z.div_mod_to_equations. lia.
      * intros p [Hn1 Hn2]. split; [exact Hn1|]. intros H. apply Hn2. by left.
      * apply (uses_old d tabs ptes fl tabs' ptes' fl' (PGROUNDUP sz) (PGROUNDUP newsz)); [lia|lia|exact Hpg|exact Hold|exact Hnone].
    + split; [|exact Hold| |exact Hl].
      * intros v Hv. rewrite (growing_ubyte end_ _ _ _ _ _ _ _ _ _ _ _ _ _ _ v alloc_perm_range alloc_data_length Hu Hg Hal Hnal Hv).
        destruct (decide _); [|done]. apply lookup_replicate_2. pose proof (Z.mod_pos_bound v PGSIZE ltac:(done)). unfold PGSIZE_n. lia.
      * intros va Hva Hr. destruct (Hn va Hva Hr) as (p & Hp & Hpo & _). by exists p.
  - right. split; [done|]. split; [intros _; exact Hlen|]. exists fl', tabs'. eapply building_step; [exact Hb| |eapply keeps_weaken; [exact Hk|]|].
    + eapply uvm_size; [exact Hu'|]. intros va Hva. clear - Hva Hup Hal. unfold PGSIZE in *. Z.div_mod_to_equations. lia.
    + intros p [Hn1 Hn2]. split; [exact Hn1|]. intros H. apply Hn2. by left.
    + intros p. unfold uses. specialize (Hpg p). tauto.
Qed.

(** ** Starting, and writing to the pages *)

Section setup.
Hypothesis data_place : data_ `mod` PGSIZE = 0 ∧ KERNLINK < data_ < KERNBASE + PHYSTOP.

(** setupkvm gives an empty one.  When it runs out of pages it returns 0 and
    loses those it has taken. *)
Lemma building_setup s0 fl0 :
  kmem_ok end_ s0 fl0 →
  ∃ r s', setupkvm data_ s0 = Ok r s' ∧
    (r = 0 ∧ (length fl0 ≤ 1025)%nat ∧ kmem_ok end_ s' [] ∧ keeps end_ (λ p, p ∉ fl0) (ram s0) (ram s') ∨
     r ≠ 0 ∧ ∃ fl tabs, building s0 fl0 r s' fl tabs (kernel_ptes data_) 0 ∧ (length fl0 ≤ length fl + 1025)%nat).
Proof using end_high data_place.
  intros Hk. destruct (setupkvm_ok end_ data_ data_place s0 fl0 Hk) as (r & s' & fl & E & Hk' & Hsub & Hkeep & Hlen & Hr).
  exists r, s'. split; [exact E|]. destruct Hr as [[-> ->]|(Hne & Hin & tabs & Hv & Hpg)].
  - left. split; [done|]. split; [simpl in Hlen; lia|]. by split.
  - right. split; [done|]. exists fl, tabs. split; [|done]. pose proof (kernel_uvm end_ data_ data_place s' fl r tabs Hv) as Hu.
    split; [exact Hu| |exact Hkeep]. intros p. rewrite Hpg. unfold uses. split; [tauto|]. intros [H|[H|(va & e & Hr & He & _)]]; [tauto..|].
    exfalso. destruct (fo_va _ _ _ _ _ _ _ _ (uv_frames _ _ _ _ _ _ _ Hu) He) as (Hf & _).
    assert (va < 0); [|lia]. apply (uv_dom _ _ _ _ _ _ _ Hu); [done|lia|eauto].
Qed.
End setup.

(** A page below the size has its entry and its table. *)
Lemma building_page s0 fl0 d s fl tabs ptes sz va :
  building s0 fl0 d s fl tabs ptes sz → frame_ok va → va < sz → va < KERNBASE →
  ∃ e t, ptes !! va = Some e ∧ tabs !! PDX va = Some t ∧ page_ok end_ (frame e) ∧
    walkpgdir d va false s = Ok (pte_addr t va) s ∧ pte_addr t va ≠ 0 ∧ on_ram (load32 (pte_addr t va)) s = Ok e s.
Proof.
  intros [Hu _ _] Hf Hlt Hkb. pose proof (uv_frames _ _ _ _ _ _ _ Hu) as Hfr. pose proof (fo_vm _ _ _ _ _ _ Hfr) as Hv.
  destruct (proj2 (uv_dom _ _ _ _ _ _ _ Hu va Hf Hkb) Hlt) as [e He].
  destruct (fo_va _ _ _ _ _ _ _ _ Hfr He) as (_ & Hb & t & Ht & Hw). exists e, t.
  split; [done|]. split; [done|]. split; [by apply (fo_frame _ _ _ _ _ _ Hfr va e)|].
  split; [eapply walkpgdir_hit; [exact Hv|apply Hf|done]|]. split; [by apply (read_pte _ _ _ _ _ _ _ _ Hv Hf Ht)|].
  by apply load_word.
Qed.

Lemma building_write s0 fl0 d s fl tabs ptes sz v0 e o l :
  building s0 fl0 d s fl tabs ptes sz → ptes !! v0 = Some e → v0 < KERNBASE → 0 ≤ o → o + Z.of_nat (length l) ≤ PGSIZE →
  building s0 fl0 d (set_ram (put_bytes (frame e + o) l (ram s)) s) fl tabs ptes sz.
Proof.
  intros Hb He Hlt Ho Hl. pose proof (bu_uvm _ _ _ _ _ _ _ _ Hb) as Hu. eapply building_frames; [exact Hb| |].
  - eapply uvm_write; [exact Hu|exact He|done|lia|lia].
  - intros p a Hp Hn Ha. apply lookup_put_bytes_ne. intros Hin. apply Hn.
    destruct (fo_va _ _ _ _ _ _ _ _ (uv_frames _ _ _ _ _ _ _ Hu) He) as ([Hv0 _] & _).
    destruct (fo_frame _ _ _ _ _ _ (uv_frames _ _ _ _ _ _ _ Hu) v0 e He Hlt) as (Hpe & _).
    exists v0, e. split; [lia|]. split; [done|]. apply (page_disjoint end_ p (frame e) a); [done|done|done|]. unfold in_page. lia.
Qed.

(** ** The guard page *)

Lemma clear_mkpte p : page_ok end_ p → Z.land (mkpte (V2P p) (Z.lor PTE_W PTE_U)) (Z.lnot PTE_U) = mkpte (V2P p) PTE_W.
Proof.
  intros Hp. destruct (V2P_frame _ _ Hp) as [[_ Hm] _]. unfold mkpte. apply Z.bits_inj'. intros n Hn.
  rewrite Z.land_spec, !Z.lor_spec, Z.lnot_spec by done. change PTE_U with (2 ^ 2). rewrite Z.pow2_bits_eqb by done.
  destruct (Z.eqb_spec 2 n) as [<-|_]; [|by rewrite orb_false_r, andb_true_r].
  rewrite andb_false_r. change (Z.testbit PTE_W 2) with false. change (Z.testbit PTE_P 2) with false. rewrite !orb_false_r.
  replace (V2P p) with (PGSIZE * (V2P p `div` PGSIZE)) by (clear - Hm; unfold PGSIZE in *; Z.div_mod_to_equations; lia).
  change PGSIZE with (2 ^ 12). rewrite Z.mul_comm, Z.mul_pow2_bits_low by done. done.
Qed.

Lemma frame_perm p perm perm' : page_ok end_ p → 0 ≤ perm < PGSIZE → 0 ≤ perm' < PGSIZE →
  frame (mkpte (V2P p) perm) = frame (mkpte (V2P p) perm').
Proof. intros. by rewrite !(frame_mkpte end_). Qed.

(** clearpteu takes a page from the user; its bytes stay. *)
Lemma building_clear s0 fl0 d s fl tabs ptes sz va p :
  building s0 fl0 d s fl tabs ptes sz → ptes !! va = Some (mkpte (V2P p) (Z.lor PTE_W PTE_U)) → page_ok end_ p → va < sz → va < KERNBASE →
  ∃ s', clearpteu d va s = Ok tt s' ∧ building s0 fl0 d s' fl tabs (<[va := mkpte (V2P p) PTE_W]> ptes) sz ∧
    ∀ a, 0 ≤ a < KERNBASE → ubyte (ram s') d a = ubyte (ram s) d a.
Proof.
  intros Hb He Hp Hlt Hkb. pose proof (bu_uvm _ _ _ _ _ _ _ _ Hb) as Hu. pose proof (uv_frames _ _ _ _ _ _ _ Hu) as Hfr.
  destruct (fo_va _ _ _ _ _ _ _ _ Hfr He) as (Hf & _).
  destruct (building_page s0 fl0 d s fl tabs ptes sz va Hb Hf Hlt Hkb) as (e & t & He' & Ht & Hpe & Ew & Hz & El).
  rewrite He in He'. injection He' as <-. set (x := mkpte (V2P p) PTE_W).
  destruct (mkpte_ok (V2P p) PTE_W) as (Hx & _ & _ & Hx0); [by eapply V2P_frame|by vm_compute|]. fold x in Hx, Hx0.
  set (s' := set_ram (put_bytes (t + 4 * PTX va) (le_bytes 4 x) (ram s)) s).
  pose proof (vm_ok_set_pte end_ s fl d tabs ptes va t x (fo_vm _ _ _ _ _ _ Hfr) Hf Ht Hx) as Hv'. fold s' in Hv'. rewrite Hx0 in Hv'.
  assert (frame x = frame (mkpte (V2P p) (Z.lor PTE_W PTE_U))) as Hfx by (apply frame_perm; [done|by vm_compute|by vm_compute]).
  assert (∀ vb e, <[va := x]> ptes !! vb = Some e → ∃ e0, ptes !! vb = Some e0 ∧ frame e0 = frame e) as Hent.
  { intros vb e. destruct (decide (vb = va)) as [->|]; [rewrite lookup_insert_eq; intros [= <-]; eauto|rewrite lookup_insert_ne by done; eauto]. }
  assert (uvm s' fl d tabs (<[va := x]> ptes) sz) as Hu'.
  { split; [split; [exact Hv'|..]|].
    - intros vb e (e0 & H0 & <-)%Hent Hb'. by apply (fo_frame _ _ _ _ _ _ Hfr vb).
    - intros vb vc e e' (e0 & H0 & <-)%Hent (e1 & H1 & <-)%Hent. by apply (fo_inj _ _ _ _ _ _ Hfr).
    - intros vb Hvb Hvk. rewrite <- (uv_dom _ _ _ _ _ _ _ Hu vb Hvb Hvk). destruct (decide (vb = va)) as [->|].
      + rewrite lookup_insert_eq, He. split; by eexists.
      + by rewrite lookup_insert_ne. }
  assert (∀ q, freed (<[va := x]> ptes) 0 KERNBASE q ↔ freed ptes 0 KERNBASE q) as Hfreed.
  { intros q. split; intros (vb & e & Hr & Hbe & ->).
    - destruct (Hent _ _ Hbe) as (e0 & H0 & Hfe). exists vb, e0. by rewrite Hfe.
    - destruct (decide (vb = va)) as [->|]; [exists va, x; rewrite lookup_insert_eq; split; [done|]; split; [done|]; congruence|].
      exists vb, e. by rewrite lookup_insert_ne. }
  assert (keeps end_ (λ q, ¬ pt_page d tabs q) (ram s) (ram s')) as Hkeep.
  { apply keeps_same_but; [intros q; apply (pt_page_ok _ _ _ _ _ _ (vo_pt _ _ _ _ _ _ (fo_vm _ _ _ _ _ _ Hfr)))|].
    apply same_but_put; [right; eauto|apply PTX_range, Hf]. }
  exists s'. split; [|split].
  - unfold clearpteu. mstep Ew. rewrite (proj2 (Z.eqb_neq _ _) Hz). mstep El. rewrite (clear_mkpte p Hp). fold x.
    unfold pte_addr. rewrite <- Hx at 1. apply on_ram_ok. rewrite Hx. apply store32_ok.
    eapply word_mapped; [apply (fo_vm _ _ _ _ _ _ Hfr)| |apply PTX_range, Hf].
    by apply (po_tab _ _ _ _ _ (vo_pt _ _ _ _ _ _ (fo_vm _ _ _ _ _ _ Hfr)) _ _ Ht).
  - eapply building_step; [exact Hb|exact Hu'| |].
    + eapply keeps_weaken; [exact Hkeep|]. intros q [_ Hn] Hq. apply Hn. by left.
    + intros q. unfold uses. by rewrite Hfreed.
  - intros a Ha. rewrite (ubyte_eq end_ _ _ _ _ _ _ a Hu' Ha), (ubyte_eq end_ _ _ _ _ _ _ a Hu Ha).
    destruct (first_page_ok a) as [[Hfa _] Hfa']; [unfold KERNBASE in Ha; lia|].
    destruct (ptes !! first_page a) as [e|] eqn:Hpa.
    + assert (∃ e', <[va := x]> ptes !! first_page a = Some e' ∧ frame e' = frame e) as (e' & -> & Hfe).
      { destruct (decide (first_page a = va)) as [Hav|]; [|exists e; by rewrite lookup_insert_ne].
        exists x. rewrite Hav, lookup_insert_eq. split; [done|]. rewrite Hav in Hpa. congruence. }
      cbn [mbind option_bind]. rewrite Hfe. destruct (fo_frame _ _ _ _ _ _ Hfr _ _ Hpa ltac:(lia)) as (Hpo & _ & Hnp).
      apply (Hkeep (frame e)); [done|done|apply in_page_mod].
    + rewrite lookup_insert_ne by (intros ->; congruence). by rewrite Hpa.
Qed.

(** ** Writing for the user *)

Lemma building_copyout s0 fl0 d s fl tabs ptes sz va l :
  building s0 fl0 d s fl tabs ptes sz → sz < KERNBASE → 0 ≤ va → va + Z.of_nat (length l) ≤ sz → Forall byte_ok l →
  ∃ (k : nat) s', copyout d va l s = Ok (if decide (k = length l) then 0 else -1) s' ∧ building s0 fl0 d s' fl tabs ptes sz ∧
    (k ≤ length l)%nat ∧
    (∀ a, va ≤ a < va + Z.of_nat k → user_pte ptes a = true) ∧ ((k < length l)%nat → user_pte ptes (va + Z.of_nat k) = false) ∧
    ∀ a, 0 ≤ a < KERNBASE → ubyte (ram s') d a = if decide (va ≤ a < va + Z.of_nat k) then l !! Z.to_nat (a - va) else ubyte (ram s) d a.
Proof.
  intros Hb Hsz Hva Hend Hl. pose proof (bu_uvm _ _ _ _ _ _ _ _ Hb) as Hu.
  destruct (copyout_loop_ok end_ (S (length l)) s fl d tabs ptes sz va l Hu Hva) as (k & s' & E & [Hu' Hle Hby Hus Hstop Hrest]); [lia| |done|lia|].
  { intros a Ha. destruct (first_page_ok a) as [Hfa Hfa']; [unfold KERNBASE in *; lia|].
    destruct (building_page s0 fl0 d s fl tabs ptes sz (first_page a) Hb Hfa) as (e & t & _ & Ht & _); [lia|lia|by rewrite Ht]. }
  exists k, s'. split; [exact E|]. split; [|done]. eapply building_frames; [exact Hb|exact Hu'|].
  intros p a Hp Hn Ha. apply Hrest. intros q Hq Hin. apply Hn.
  rewrite (page_disjoint end_ p q a); [done|done| |done|done]. by eapply uses_not_free; [exact Hu|right].
Qed.
End building.
