(* ===== verification/ExecSpec.v ===== *)
(** * exec

    What exec() of exec.c makes of a file and an argument vector, and that it
    does: [exec_image] is the size of the new address space, its stack pointer
    and its bytes, or nothing for what exec refuses. *)

From S2P Require Import Prelude Params Mem Mmu Kalloc Vm VmProofs VmUser VmCopy VmSpec ExecMem Pipe Disk Superblock Txn Fs FsBlocks FsInode FsBmap FsIo FsDinode FsIcache FsTrunc FsWrite FsDir FsPath FsCheck FsNames FsLife File Proc Kernel SysInodes Exec.

#[local] Opaque replicate put_bytes.

(** ** The new image *)

(** An address space as the user sees it: its size and its bytes. *)
Definition space : Type := Z * (Z → option Z).

Section image.
Context (file : list Z).

(** exec can load the segment [ph] behind [sz] bytes. *)
Definition segment_fits (ph : list Z) (sz : Z) : bool :=
  (ph_filesz ph <=? ph_memsz ph) && (ph_vaddr ph + ph_memsz ph <? KERNBASE) && (0 <? Z.max sz (ph_vaddr ph + ph_memsz ph)) &&
  (ph_vaddr ph `mod` PGSIZE =? 0) && ((ph_filesz ph =? 0) || (ph_off ph + ph_filesz ph <=? Z.of_nat (length file))).

(** New pages are zero, and the bytes of the file go on top. *)
Definition add_segment (ph : list Z) (sp : space) : space :=
  let sz := Z.max sp.1 (ph_vaddr ph + ph_memsz ph) in
  (sz, λ a,
    if decide (ph_vaddr ph ≤ a < ph_vaddr ph + ph_filesz ph) then file !! Z.to_nat (ph_off ph + (a - ph_vaddr ph))
    else if decide (PGROUNDUP sp.1 ≤ a < PGROUNDUP sz) then Some 0 else sp.2 a).

(** The [n] program headers from offset [off] on. *)
Fixpoint add_segments (n : nat) (off : Z) (sp : space) : option space :=
  match n with
  | O => Some sp
  | S n =>
      let ph := slice (Z.to_nat off) (Z.to_nat sizeof_proghdr) file in
      if Z.of_nat (length file) <? off + sizeof_proghdr then None
      else if negb (ph_type ph =? ELF_PROG_LOAD) then add_segments n (off + sizeof_proghdr) sp
      else if segment_fits ph sp.1 then add_segments n (off + sizeof_proghdr) (add_segment ph sp)
      else None
  end.
End image.

(** An argument on the stack: a C string, up to a multiple of four bytes. *)
Definition arg_block (arg : list Z) : list Z := arg ++ replicate (4 - length arg `mod` 4) 0.
Definition arg_blocks (argv : list (list Z)) : list Z := concat (arg_block <$> reverse argv).

Fixpoint arg_ptrs (sp : Z) (argv : list (list Z)) : list Z :=
  match argv with
  | [] => []
  | arg :: argv => let sp := sp - Z.of_nat (length (arg_block arg)) in sp :: arg_ptrs sp argv
  end.

(** The frame of main(argc, argv) below [top]: a return address, argc, argv,
    the vector itself and the strings. *)
Definition main_frame (top : Z) (argv : list (list Z)) : list Z :=
  let argc := Z.of_nat (length argv) in
  concat (le_bytes 4 <$> [0xffffffff; argc; top - Z.of_nat (length (arg_blocks argv)) - (argc + 1) * 4] ++ arg_ptrs top argv ++ [0]) ++
  arg_blocks argv.

(** The guard page and the page of the stack behind the segments. *)
Definition add_stack (argv : list (list Z)) (sp : space) : option (space * Z) :=
  let base := PGROUNDUP sp.1 in
  let top := base + 2 * PGSIZE in
  let frame := main_frame top argv in
  let esp := top - Z.of_nat (length frame) in
  if (top <? KERNBASE) && (Z.of_nat (length argv) <=? MAXARG) && (Z.of_nat (length frame) <=? PGSIZE) then
    Some ((top, λ a, if decide (esp ≤ a < top) then frame !! Z.to_nat (a - esp)
                     else if decide (base ≤ a < top) then Some 0 else sp.2 a), esp)
  else None.

Definition exec_image (file : list Z) (argv : list (list Z)) : option (space * Z) :=
  let elf := slice 0 (Z.to_nat sizeof_elfhdr) file in
  if (Z.of_nat (length file) <? sizeof_elfhdr) || negb (elf_magic elf =? ELF_MAGIC) then None
  else sp ← add_segments file (Z.to_nat (elf_phnum elf)) (elf_phoff elf) (0, λ _, None); add_stack argv sp.

Lemma add_segments_size file n off sp sp' :
  add_segments file n off sp = Some sp' → sp.1 ≤ sp'.1 ∧ (sp.1 < KERNBASE → sp'.1 < KERNBASE).
Proof.
  revert off sp. induction n as [|n IH]; intros off sp; cbn [add_segments]; [by intros [= <-]|]. cbv zeta.
  destruct (_ <? _); [done|]. destruct (negb _); [apply IH|]. destruct (segment_fits _ _ _) eqn:Ef; [|done]. intros [H1 H2]%IH. cbn [add_segment fst] in H1, H2.
  unfold segment_fits in Ef. rewrite !andb_true_iff, Z.ltb_lt in Ef. split; [lia|]. intros Hsp. apply H2. lia.
Qed.

Lemma length_arg_block arg :
  Z.of_nat (length (arg_block arg)) `mod` 4 = 0 ∧ (length arg + 1 ≤ length (arg_block arg) ≤ length arg + 4)%nat.
Proof.
  unfold arg_block. rewrite length_app, length_replicate. pose proof (Nat.mod_upper_bound (length arg) 4 ltac:(lia)) as Hr. split; [|lia].
  rewrite Nat2Z.inj_add, Nat2Z.inj_sub, Nat2Z.inj_mod by lia. Z.div_mod_to_equations. lia.
Qed.

Lemma arg_block_string arg : ∃ pad, (pad < 4)%nat ∧ arg_block arg = (arg ++ [0]) ++ replicate pad 0.
Proof.
  pose proof (Nat.mod_upper_bound (length arg) 4 ltac:(lia)) as Hr. exists (3 - length arg `mod` 4)%nat. split; [lia|].
  unfold arg_block. rewrite <- app_assoc. f_equal. by replace (4 - length arg `mod` 4)%nat with (Datatypes.S (3 - length arg `mod` 4)) by lia.
Qed.

Lemma arg_blocks_snoc argv arg : arg_blocks (argv ++ [arg]) = arg_block arg ++ arg_blocks argv.
Proof. unfold arg_blocks. by rewrite reverse_snoc. Qed.

Lemma length_arg_blocks argv : Z.of_nat (length (arg_blocks argv)) `mod` 4 = 0.
Proof.
  induction argv as [|arg argv IH] using rev_ind; [done|]. rewrite arg_blocks_snoc, length_app, Nat2Z.inj_add.
  destruct (length_arg_block arg) as [Hm _]. Z.div_mod_to_equations. lia.
Qed.

Lemma arg_blocks_app argv argv' : (length (arg_blocks argv) ≤ length (arg_blocks (argv ++ argv')))%nat.
Proof.
  induction argv' as [|arg argv' IH] using rev_ind; [by rewrite app_nil_r|]. rewrite app_assoc, arg_blocks_snoc, length_app. lia.
Qed.

Lemma length_arg_ptrs sp argv : length (arg_ptrs sp argv) = length argv.
Proof. revert sp. induction argv as [|arg argv IH]; intros sp; [done|]. cbn. by rewrite IH. Qed.

Lemma length_words (l : list Z) : length (concat (le_bytes 4 <$> l)) = (4 * length l)%nat.
Proof. induction l as [|x l IH]; [done|]. cbn [fmap list_fmap concat]. rewrite length_app, length_le_bytes, IH. cbn [length]. lia. Qed.

Lemma words_ok (l : list Z) : Forall byte_ok (concat (le_bytes 4 <$> l)).
Proof. induction l as [|x l IH]; [constructor|]. cbn [fmap list_fmap concat]. apply Forall_app. split; [apply le_bytes_ok|done]. Qed.

Lemma length_main_frame top argv :
  length (main_frame top argv) = (4 * (4 + length argv) + length (arg_blocks argv))%nat.
Proof.
  unfold main_frame. rewrite length_app. f_equal. cbv zeta. rewrite length_words, !length_app, length_arg_ptrs. cbn [length]. lia.
Qed.

(** ** The kernel around it *)

Section exec.
Context `{!Linker} {S : Type} `{!Txn S, !DevSw S}.
Implicit Types (sb : superblock) (ic : list inode) (t : S) (v : tview).
Hypothesis end_high : KERNBASE < ld_end.
Hypothesis data_place : ld_data `mod` PGSIZE = 0 ∧ KERNLINK < ld_data < KERNBASE + PHYSTOP.
#[local] Abbreviation building := (building ld_end).

(** The state but for the file system and the memory. *)
Context (ps : list proc) (nx : Z) (ip0 : option nat) (ft : list file) (pp : gmap Z pipe) (tk : Z).
Definition kst (F : fstate S) (s : kstate) : kernel S := PState ps nx ip0 (Kern ft pp F s tk).

Lemma sys_mem_ok {A} (m : M kstate A) F s a s' : m s = Ok a s' → sys_mem m (kst F s) = Ok a (kst F s').
Proof. intros E. unfold sys_mem, on_env, on_mem, zoom, kst. cbn. by rewrite E. Qed.

Lemma sys_fs_ok {A} (m : M (fstate S) A) F s a F' : m F = Ok a F' → sys_fs m (kst F s) = Ok a (kst F' s).
Proof. intros E. unfold sys_fs, on_env, on_fs, zoom, kst. cbn. by rewrite E. Qed.

(** The user sees [img], and may touch all of it. *)
Record shows (d : Z) (s : kstate) (ptes : gmap Z Z) (sz : Z) (img : Z → option Z) : Prop := Shows {
  sh_bytes a : 0 ≤ a < KERNBASE → ubyte (ram s) d a = img a;
  sh_user a : 0 ≤ a < PGROUNDUP sz → user_pte ptes a = true;
}.

Lemma new_user s fl d ptes a0 a s' fl' ptes' b :
  added ld_end s fl d ptes a0 a s' fl' ptes' → a0 `mod` PGSIZE = 0 → a `mod` PGSIZE = 0 → 0 ≤ a0 ≤ b → b < a → a ≤ KERNBASE → user_pte ptes' b = true.
Proof.
  intros Ha H0 H1 Hb Hba Hak. destruct (first_page_ok b) as [Hf Hf']; [unfold KERNBASE in *; lia|].
  destruct (ad_new _ _ _ _ _ _ _ _ _ _ Ha (first_page b) Hf) as (p & Hp & Hpo); [apply first_page_between; [done|done|lia]|].
  unfold user_pte. rewrite Hp. by rewrite (mkpte_user ld_end p (Z.lor PTE_W PTE_U) Hpo (alloc_perm_range 0)).
Qed.

Lemma old_user s fl d ptes a0 a s' fl' ptes' b :
  added ld_end s fl d ptes a0 a s' fl' ptes' → a0 `mod` PGSIZE = 0 → a `mod` PGSIZE = 0 → ¬ (a0 ≤ b < a) → user_pte ptes' b = user_pte ptes b.
Proof.
  intros Ha H0 H1 Hb. unfold user_pte. by rewrite (ad_old _ _ _ _ _ _ _ _ _ _ Ha) by (by rewrite first_page_between).
Qed.

Lemma user_round sz : 0 ≤ sz < KERNBASE → sz ≤ PGROUNDUP sz ≤ KERNBASE ∧ PGROUNDUP sz < sz + PGSIZE ∧ PGROUNDUP sz `mod` PGSIZE = 0.
Proof.
  intros Hs. destruct (PGROUNDUP_spec sz) as [Hr Hm]; [unfold KERNBASE, PGSIZE in *; lia|]. split; [|split; [apply Hr|done]]. split; [lia|].
  clear - Hs Hr Hm. unfold KERNBASE, PGSIZE in *. Z.div_mod_to_equations. lia.
Qed.

Lemma add_stack_size sz img argv sp esp :
  0 ≤ sz < KERNBASE → add_stack argv (sz, img) = Some (sp, esp) → sp.1 = PGROUNDUP sz + 2 * PGSIZE ∧ sz ≤ PGROUNDUP sz.
Proof. intros Hsz. unfold add_stack. cbv zeta. cbn [fst snd]. destruct (_ && _); [|done]. intros [= <- <-]. split; [done|]. by apply user_round. Qed.

Lemma image_size file n off argv sp esp :
  (sp ← add_segments file n off (0, λ _, None); add_stack argv sp) = Some (sp, esp) →
  ∃ sp1, add_segments file n off (0, λ _, None) = Some sp1 ∧ 0 ≤ sp1.1 < KERNBASE ∧ sp.1 = PGROUNDUP sp1.1 + 2 * PGSIZE ∧ sp1.1 ≤ PGROUNDUP sp1.1.
Proof.
  destruct (add_segments _ _ _ _) as [[z1 im1]|] eqn:E1; [|done]. cbn [mbind option_bind]. intros Hsp. exists (z1, im1). split; [done|].
  apply add_segments_size in E1 as [H1 H2]. cbn [fst] in H1, H2 |- *. specialize (H2 ltac:(done)). split; [done|]. by eapply add_stack_size.
Qed.

(** ** Loading a segment *)

Section load.
Context (sb : superblock) (ic : list inode) (v : tview) (ds : gmap Z dinode) (ip : nat) (i : inode).
Hypothesis at_file : ∀ t, trep t v → at_inode sb ic t v ds ip i.
Hypothesis plain : d_type (i_d i) ≠ T_DEV.
Hypothesis small : 0 ≤ d_size (i_d i) < 2 ^ 32.
#[local] Abbreviation fdata := (content (t_blocks v) (i_d i)).
Hypothesis bytes : Forall byte_ok fdata.

Lemma data_length : Z.of_nat (length fdata) = d_size (i_d i).
Proof using small. rewrite length_fcontent. lia. Qed.

(** readi as exec and loaduvm use it: all [n] bytes or not. *)
Lemma read_all off n t :
  trep t v → 0 ≤ off < 2 ^ 32 → 0 < n < 2 ^ 32 →
  ∃ r l t', readi ip off n (FState sb ic t) = Ok (r, l) (FState sb ic t') ∧ trep t' v ∧ Forall byte_ok l ∧ Z.of_nat (length l) ≤ n ∧
    if off + n <=? Z.of_nat (length fdata) then r = n ∧ l = slice (Z.to_nat off) (Z.to_nat n) fdata else r ≠ n.
Proof using at_file plain small bytes.
  intros Ht Ho Hn. destruct (readi_ok ip i off n sb ic t v ds (at_file t Ht) plain Ho) as (t' & E & Ht'); [lia|].
  rewrite data_length. destruct (Z.ltb_spec (d_size (i_d i)) off) as [H1|H1]; cbn [orb] in E.
  { exists (-1), [], t'. split; [exact E|]. split; [done|]. split; [done|]. split; [cbn; lia|].
    rewrite (proj2 (Z.leb_gt _ _)) by lia. lia. }
  destruct (Z.leb_spec (2 ^ 32) (off + n)) as [H2|H2].
  { exists (-1), [], t'. split; [exact E|]. split; [done|]. split; [done|]. split; [cbn; lia|].
    rewrite (proj2 (Z.leb_gt _ _)) by lia. lia. }
  eexists _, _, t'. split; [exact E|]. split; [done|]. split; [by apply Forall_take, Forall_drop|].
  split; [unfold slice; rewrite length_take; lia|].
  destruct (Z.leb_spec (off + n) (d_size (i_d i))); [rewrite Z.min_l by lia; done|lia].
Qed.

(** One page: its entry, and the bytes read into it. *)
Lemma readi_at_ok s0 fl0 d s fl tabs ptes sz va e off n t :
  trep t v → building s0 fl0 d s fl tabs ptes sz → ptes !! va = Some e → va < KERNBASE → 0 ≤ off < 2 ^ 32 → 0 < n ≤ PGSIZE →
  ∃ r t' s', readi_at ip (frame e) off n (kst (FState sb ic t) s) = Ok r (kst (FState sb ic t') s') ∧ trep t' v ∧
    building s0 fl0 d s' fl tabs ptes sz ∧
    if off + n <=? Z.of_nat (length fdata) then r = n ∧ ∀ a, 0 ≤ a < KERNBASE → ubyte (ram s') d a =
      if decide (va ≤ a < va + n) then fdata !! Z.to_nat (off + (a - va)) else ubyte (ram s) d a
    else r ≠ n.
Proof using at_file plain small bytes.
  intros Ht Hb He Hva Ho Hn. destruct (read_all off n t Ht Ho) as (r & l & t' & E & Ht' & Hl & Hlen & Hr); [unfold PGSIZE in *; lia|].
  pose proof (bu_uvm _ _ _ _ _ _ _ _ _ Hb) as Hu.
  destruct (fo_frame _ _ _ _ _ _ (uv_frames _ _ _ _ _ _ _ Hu) va e He Hva) as (Hp & _).
  set (s' := set_ram (put_bytes (frame e + 0) l (ram s)) s).
  exists r, t', s'. split; [|split; [done|split]].
  - unfold readi_at. mstep (sys_fs_ok _ _ s _ _ E). cbn [fst snd].
    assert (on_ram (store_bytes (frame e) l) s = Ok tt s') as Es.
    { unfold s'. rewrite Z.add_0_r, <- (u8_bytes l) at 1 by done. rewrite u8_bytes by done. rewrite <- (u8_bytes l) at 2 by done.
      apply on_ram_ok, store_bytes_ok. intros j Hj.
      apply (ko_mapped _ _ _ (vo_kmem _ _ _ _ _ _ (fo_vm _ _ _ _ _ _ (uv_frames _ _ _ _ _ _ _ Hu))) _ Hp). unfold PGSIZE_n. lia. }
    mstep (sys_mem_ok _ (FState sb ic t') _ _ _ Es). done.
  - eapply building_write; [exact Hb|exact He|done|lia|lia].
  - destruct (Z.leb_spec (off + n) (Z.of_nat (length fdata))) as [Hle|]; [|done]. destruct Hr as [-> ->]. split; [done|].
    intros a Ha. unfold s'. cbn [ram set_ram]. rewrite (ubyte_write ld_end s fl d tabs ptes sz va e 0 _ a Hu He Hva Ha) by lia.
    rewrite Z.add_0_r, length_slice by lia. rewrite Z2Nat.id by lia.
    destruct (decide (va ≤ a < va + n)); [|done]. rewrite lookup_slice by lia. f_equal. lia.
Qed.

Lemma loaduvm_loop_ok s0 fl0 d fl tabs ptes sz addr off filesz fuel j t s :
  trep t v → building s0 fl0 d s fl tabs ptes sz → addr `mod` PGSIZE = 0 → 0 ≤ addr → addr + filesz ≤ sz < KERNBASE → 0 ≤ off < 2 ^ 32 →
  0 ≤ j → j `mod` PGSIZE = 0 → j = 0 ∨ off + j ≤ Z.of_nat (length fdata) → filesz - j ≤ (Z.of_nat fuel - 1) * PGSIZE → (0 < fuel)%nat →
  ∃ r t' s', loaduvm_loop (@sys_mem S) (readi_at ip) fuel d addr off filesz j (kst (FState sb ic t) s) = Ok r (kst (FState sb ic t') s') ∧
    trep t' v ∧ building s0 fl0 d s' fl tabs ptes sz ∧
    if (filesz <=? j) || (off + filesz <=? Z.of_nat (length fdata)) then r = 0 ∧ ∀ a, 0 ≤ a < KERNBASE → ubyte (ram s') d a =
      if decide (addr + j ≤ a < addr + filesz) then fdata !! Z.to_nat (off + (a - addr)) else ubyte (ram s) d a
    else r = -1.
Proof using at_file plain small bytes.
  intros Ht Hb Hm Hadr Hsz Ho. revert j t s Ht Hb. induction fuel as [|fuel IH]; intros j t s Ht Hb Hj Hjm Hoj Hfuel Hpos; [lia|].
  cbn [loaduvm_loop]. destruct (Z.leb_spec filesz j) as [Hge|Hlt]; cbn [orb].
  { rewrite (proj2 (Z.ltb_ge _ _)) by lia. exists 0, t, s. split; [done|]. split; [done|]. split; [done|]. split; [done|].
    intros a _. by rewrite decide_False by lia. }
  rewrite (proj2 (Z.ltb_lt _ _)) by lia. pose proof data_length as Hdl.
  assert (frame_ok (addr + j)) as Hf.
  { split; [unfold KERNBASE in *; lia|]. clear - Hm Hjm. unfold PGSIZE in *. Z.div_mod_to_equations. lia. }
  destruct (building_page ld_end s0 fl0 d s fl tabs ptes sz (addr + j) Hb Hf) as (e & tb & He & _ & _ & Ew & Hz & El); [lia|lia|].
  rewrite (u32_small (addr + j)) by apply Hf. mstep (sys_mem_ok _ (FState sb ic t) _ _ _ Ew). rewrite (proj2 (Z.eqb_neq _ _) Hz).
  mstep (sys_mem_ok _ (FState sb ic t) _ _ _ El). cbv zeta. fold (frame e). rewrite (u32_small (filesz - j)) by (unfold KERNBASE in *; lia).
  set (n := if filesz - j <? PGSIZE then filesz - j else PGSIZE).
  assert (0 < n ≤ PGSIZE ∧ n ≤ filesz - j ∧ (n < PGSIZE → n = filesz - j)) as (Hn & Hn' & Hnl) by (unfold n; destruct (Z.ltb_spec (filesz - j) PGSIZE); unfold PGSIZE in *; lia).
  rewrite (u32_small (off + j)) by (destruct Hoj; lia).
  destruct (readi_at_ok s0 fl0 d s fl tabs ptes sz (addr + j) e (off + j) n t Ht Hb He) as (r & t1 & s1 & E1 & Ht1 & Hb1 & Hr); [lia|destruct Hoj; lia|done|].
  mstep E1. destruct (Z.leb_spec (off + j + n) (Z.of_nat (length fdata))) as [Hin|Hout].
  2: { rewrite (proj2 (Z.eqb_neq _ _) Hr). exists (-1), t1, s1. split; [done|]. split; [done|]. split; [done|]. by rewrite (proj2 (Z.leb_gt _ _)) by lia. }
  destruct Hr as [-> Hby]. rewrite Z.eqb_refl. rewrite (u32_small (j + PGSIZE)) by (unfold KERNBASE, PGSIZE in *; lia).
  destruct (decide (n < PGSIZE)) as [Hlast|Hfull].
  { destruct fuel as [|fuel]; [exfalso; unfold PGSIZE in *; lia|]. cbn [loaduvm_loop]. rewrite (proj2 (Z.ltb_ge _ _)) by lia.
    exists 0, t1, s1. split; [done|]. split; [done|]. split; [done|]. rewrite (proj2 (Z.leb_le _ _)) by lia. split; [done|].
    intros a Ha. rewrite Hby by done. replace (addr + j + n) with (addr + filesz) by lia. destruct (decide _); [|done]. f_equal. lia. }
  assert (n = PGSIZE) as Hnp by lia.
  destruct (IH (j + PGSIZE) t1 s1 Ht1 Hb1) as (r & t2 & s2 & E2 & Ht2 & Hb2 & Hr).
  { unfold PGSIZE in *; lia. } { clear - Hjm. unfold PGSIZE in *. Z.div_mod_to_equations. lia. } { lia. } { lia. } { unfold PGSIZE in *. lia. }
  exists r, t2, s2. split; [exact E2|]. split; [done|]. split; [done|].
  destruct (Z.leb_spec filesz (j + PGSIZE)) as [Hd|Hd]; cbn [orb] in Hr.
  - rewrite (proj2 (Z.leb_le _ _)) by lia. destruct Hr as [-> Hr]. split; [done|]. intros a Ha. rewrite Hr, Hby by done. rewrite decide_False by lia.
    destruct (decide _), (decide _); try lia; [|done]. f_equal. lia.
  - destruct (Z.leb_spec (off + filesz) (Z.of_nat (length fdata))); [|done]. destruct Hr as [-> Hr]. split; [done|]. intros a Ha. rewrite Hr, Hby by done.
    destruct (decide (addr + (j + PGSIZE) ≤ a < addr + filesz)); [by rewrite decide_True by (unfold PGSIZE in *; lia)|].
    destruct (decide _), (decide _); try lia; [|done]. f_equal. lia.
Qed.

(** The bytes of a segment, after its pages have been added. *)
Lemma loaduvm_ok s0 fl0 d s1 fl1 ptes1 sz img ph t s fl tabs ptes :
  let sz' := Z.max sz (ph_vaddr ph + ph_memsz ph) in
  trep t v → building s0 fl0 d s fl tabs ptes sz' → 0 ≤ sz → sz' < KERNBASE → ph_filesz ph ≤ ph_memsz ph → Forall byte_ok ph →
  ph_vaddr ph `mod` PGSIZE = 0 → shows d s1 ptes1 sz img → added ld_end s1 fl1 d ptes1 (PGROUNDUP sz) (PGROUNDUP sz') s fl ptes →
  ∃ r t' s', loaduvm (@sys_mem S) (readi_at ip) d (ph_vaddr ph) (ph_off ph) (ph_filesz ph) (kst (FState sb ic t) s) = Ok r (kst (FState sb ic t') s') ∧
    trep t' v ∧ building s0 fl0 d s' fl tabs ptes sz' ∧
    if (ph_filesz ph =? 0) || (ph_off ph + ph_filesz ph <=? Z.of_nat (length fdata)) then r = 0 ∧ shows d s' ptes sz' (add_segment fdata ph (sz, img)).2
    else r = -1.
Proof using at_file plain small bytes.
  intros sz' Ht Hb Hs Hs' Hfm Hph Hm [Hby Hus] Had.
  pose proof (word_at_range ph 1 Hph) as Ho. pose proof (word_at_range ph 2 Hph) as Hv. pose proof (word_at_range ph 4 Hph) as Hf. pose proof (word_at_range ph 5 Hph) as Hme.
  fold (ph_off ph) in Ho. fold (ph_vaddr ph) in Hv. fold (ph_filesz ph) in Hf. fold (ph_memsz ph) in Hme.
  destruct (user_round sz ltac:(lia)) as (Hr1 & Hr2 & Hr3), (user_round sz' ltac:(lia)) as (Hq1 & Hq2 & Hq3).
  unfold loaduvm. rewrite u32_small, Hm by done. cbn [Z.eqb negb].
  destruct (loaduvm_loop_ok s0 fl0 d fl tabs ptes sz' (ph_vaddr ph) (ph_off ph) (ph_filesz ph) (Datatypes.S (Datatypes.S (Z.to_nat (ph_filesz ph `div` PGSIZE)))) 0 t s Ht Hb Hm)
    as (r & t' & s' & E & Ht' & Hb' & Hr); [lia|lia|lia|lia|done|by left| |lia|].
  { clear - Hf. unfold PGSIZE. Z.div_mod_to_equations. lia. }
  exists r, t', s'. split; [exact E|]. split; [done|]. split; [done|].
  assert ((ph_filesz ph <=? 0) = (ph_filesz ph =? 0)) as Ez by (destruct (Z.leb_spec (ph_filesz ph) 0), (Z.eqb_spec (ph_filesz ph) 0); (done || lia)).
  rewrite Ez in Hr. destruct (_ || _); [|done]. destruct Hr as [-> Hr]. split; [done|]. split.
  - intros a Ha. cbn [add_segment fst snd]. rewrite Hr, (ad_bytes _ _ _ _ _ _ _ _ _ _ Had), Hby by done. by rewrite Z.add_0_r.
  - intros a Ha. destruct (decide (PGROUNDUP sz ≤ a)) as [Hn|Hn].
    + eapply new_user; [exact Had|done|done|lia|lia|lia].
    + rewrite (old_user _ _ _ _ _ _ _ _ _ _ Had) by (done || lia). apply Hus. lia.
Qed.

(** How the loop over the program headers ends. *)
Definition loaded (d : Z) (fl : list Z) (sz : Z) (o : option space) (r : option Z) (s' : kstate) (fl' : list Z) (ptes' : gmap Z Z) (sz' : Z) : Prop :=
  match o, r with
  | None, None => True
  | None, Some _ => False
  | Some sp, None => Z.of_nat (length fl) * PGSIZE < 2 * (sp.1 - PGROUNDUP sz + PGSIZE)
  | Some sp, Some z => z = sz' ∧ sp.1 = z ∧ 0 ≤ z < KERNBASE ∧ shows d s' ptes' z sp.2 ∧
      Z.of_nat (length fl) * PGSIZE ≤ Z.of_nat (length fl') * PGSIZE + 2 * (PGROUNDUP z - PGROUNDUP sz)
  end.

Lemma exec_load_ok s0 fl0 d n off off' t s fl tabs ptes sz img :
  trep t v → building s0 fl0 d s fl tabs ptes sz → 0 ≤ sz < KERNBASE → shows d s ptes sz img → u32 off' = off →
  ∃ r t' s' fl' tabs' ptes' sz', exec_load n d ip off' sz (kst (FState sb ic t) s) = Ok r (kst (FState sb ic t') s') ∧ trep t' v ∧
    building s0 fl0 d s' fl' tabs' ptes' sz' ∧ loaded d fl sz (add_segments fdata n off (sz, img)) r s' fl' ptes' sz'.
Proof using at_file plain small bytes end_high.
  revert off off' t s fl tabs ptes sz img. induction n as [|n IH]; intros off off' t s fl tabs ptes sz img Ht Hb Hs Hsh Ho; cbn [exec_load add_segments].
  { exists (Some sz), t, s, fl, tabs, ptes, sz. split; [done|]. split; [done|]. split; [done|]. split; [done|]. split; [done|]. split; [done|]. split; [done|lia]. }
  pose proof (u32_range off') as Hor. rewrite Ho in *. pose proof data_length as Hdl.
  destruct (read_all off sizeof_proghdr t Ht Hor ltac:(done)) as (r1 & ph & t1 & E1 & Ht1 & Hph & _ & Hr1).
  mstep (sys_fs_ok _ _ s _ _ E1). cbv zeta. cbn [fst snd].
  destruct (Z.leb_spec (off + sizeof_proghdr) (Z.of_nat (length fdata))) as [Hin|Hout].
  2: { rewrite (proj2 (Z.eqb_neq _ _) Hr1), (proj2 (Z.ltb_lt (Z.of_nat (length fdata)) _)) by lia. cbn [negb]. exists None, t1, s, fl, tabs, ptes, sz. by repeat (split; [done|]). }
  destruct Hr1 as [-> Eph]. rewrite Z.eqb_refl, (proj2 (Z.ltb_ge (Z.of_nat (length fdata)) _)) by lia. rewrite <- Eph. cbn [negb].
  assert (u32 (off' + sizeof_proghdr) = off + sizeof_proghdr) as Hnext.
  { unfold u32 in *. rewrite <- Z.add_mod_idemp_l, Ho by done. apply Z.mod_small. unfold sizeof_proghdr in *. lia. }
  destruct (negb _); [by eapply IH|].
  pose proof (word_at_range ph 2 Hph) as Hv. pose proof (word_at_range ph 5 Hph) as Hme. fold (ph_vaddr ph) in Hv. fold (ph_memsz ph) in Hme.
  unfold segment_fits. cbn [fst]. destruct (Z.ltb_spec (ph_memsz ph) (ph_filesz ph)) as [Hfm|Hfm].
  { rewrite (proj2 (Z.leb_gt (ph_filesz ph) _)) by lia. exists None, t1, s, fl, tabs, ptes, sz. by repeat (split; [done|]). }
  rewrite (proj2 (Z.leb_le (ph_filesz ph) _)), u32_overflow by lia. cbn [andb]. destruct (Z.leb_spec (2 ^ 32) (ph_vaddr ph + ph_memsz ph)) as [Hov|Hov].
  { rewrite (proj2 (Z.ltb_ge _ KERNBASE)) by (unfold KERNBASE; lia). exists None, t1, s, fl, tabs, ptes, sz. by repeat (split; [done|]). }
  rewrite u32_small by lia.
  destruct (building_alloc ld_end end_high s0 fl0 d s fl tabs ptes sz (ph_vaddr ph + ph_memsz ph) Hb) as (r2 & s2 & E2 & Hr2); [lia|lia|].
  mstep (sys_mem_ok _ (FState sb ic t1) _ _ _ E2).
  destruct Hr2 as [(-> & Hk & fl2 & tabs2 & ptes2 & Hb2 & Had)|(-> & Hlen & fl2 & tabs2 & Hb2)].
  2: { exists None, t1, s2, fl2, tabs2, ptes, sz. split; [done|]. split; [done|]. split; [done|]. unfold loaded.
       destruct (Z.ltb_spec (ph_vaddr ph + ph_memsz ph) KERNBASE) as [Hk|Hk]; [|done]. cbn [andb].
       destruct (_ && _); [|done]. destruct (add_segments _ _ _ _) as [sp|] eqn:Es; [|done]. apply add_segments_size in Es as [Es _]. cbn [add_segment fst] in Es.
       specialize (Hlen Hk). lia. }
  set (sz2 := Z.max sz (ph_vaddr ph + ph_memsz ph)) in *.
  rewrite (proj2 (Z.ltb_lt (ph_vaddr ph + ph_memsz ph) _)) by done. cbn [andb].
  destruct (Z.eqb_spec sz2 0) as [Hz|Hz].
  { rewrite (proj2 (Z.ltb_ge 0 sz2)) by lia. exists None, t1, s2, fl2, tabs2, ptes2, sz2. by repeat (split; [done|]). }
  rewrite (proj2 (Z.ltb_lt 0 sz2)) by lia. cbn [andb]. destruct (Z.eqb_spec (ph_vaddr ph `mod` PGSIZE) 0) as [Hm|Hm]; cbn [negb andb].
  2: { exists None, t1, s2, fl2, tabs2, ptes2, sz2. by repeat (split; [done|]). }
  destruct (loaduvm_ok s0 fl0 d s fl ptes sz img ph t1 s2 fl2 tabs2 ptes2 Ht1 Hb2) as (r3 & t3 & s3 & E3 & Ht3 & Hb3 & Hr3); [lia|lia|lia|done|done|done|done|].
  mstep E3. destruct (_ || _).
  2: { rewrite Hr3. exists None, t3, s3, fl2, tabs2, ptes2, sz2. by repeat (split; [done|]). }
  destruct Hr3 as [-> Hsh3]. cbn [Z.ltb Z.compare].
  destruct (IH (off + sizeof_proghdr) (off' + sizeof_proghdr) t3 s3 fl2 tabs2 ptes2 sz2 _ Ht3 Hb3 ltac:(lia) Hsh3 Hnext) as (r & t' & s' & fl' & tabs' & ptes' & sz' & E & Ht' & Hb' & Hl).
  exists r, t', s', fl', tabs', ptes', sz'. split; [exact E|]. split; [done|]. split; [done|]. pose proof (ad_length _ _ _ _ _ _ _ _ _ _ Had) as Hlen.
  change (add_segment fdata ph (sz, img)) with (sz2, (add_segment fdata ph (sz, img)).2). unfold loaded in *.
  destruct (add_segments _ _ _ _) as [sp|]; [|done]. destruct r as [z|]; [|lia]. destruct Hl as (-> & ? & ? & ? & ?). split; [done|]. split; [done|]. split; [done|]. split; [done|lia].
Qed.
End load.

(** ** The stack *)

Section stack.
Context (F : fstate S) (s0 : kstate) (fl0 : list Z) (d : Z) (fl : list Z) (tabs ptes : gmap Z Z) (low top : Z) (img : Z → option Z).
Hypothesis page : low `mod` PGSIZE = 0 ∧ top = low + PGSIZE ∧ PGSIZE ≤ low ∧ top < KERNBASE.
Hypothesis stack_page : ∀ a, low ≤ a < top → user_pte ptes a = true.
Hypothesis guard_page : ∀ a, low - PGSIZE ≤ a < low → user_pte ptes a = false.
Hypothesis zero : ∀ a, low ≤ a < top → img a = Some 0.

(** [fr] is at the top of the stack. *)
Definition stacked (s : kstate) (fr : list Z) : Prop := ∀ a, 0 ≤ a < KERNBASE → ubyte (ram s) d a =
  let sp := top - Z.of_nat (length fr) in if decide (sp ≤ a < top) then fr !! Z.to_nat (a - sp) else img a.

(** A block more, of which copyout writes all but some zeros at the end. *)
Lemma stack_copy s fr l pad :
  let sp := top - Z.of_nat (length fr) in
  let sp' := sp - Z.of_nat (length (l ++ replicate pad 0)) in
  building s0 fl0 d s fl tabs ptes top → stacked s fr → low ≤ sp → sp `mod` 4 = 0 → sp' `mod` 4 = 0 → 0 ≤ sp' → l ≠ [] → (pad < 4)%nat → Forall byte_ok l →
  ∃ r s', copyout d sp' l s = Ok r s' ∧ building s0 fl0 d s' fl tabs ptes top ∧
    if low <=? sp' then r = 0 ∧ stacked s' ((l ++ replicate pad 0) ++ fr) else r = -1.
Proof using page stack_page guard_page zero.
  intros sp sp' Hb Hst Hlow Hm Hm' Hpos Hne Hpad Hl. destruct page as (Hpm & Htop & Hlp & Hk).
  assert (0 < length l)%nat as Hll by (destruct l; [done|cbn; lia]).
  assert (sp' = sp - Z.of_nat (length l) - Z.of_nat pad) as Esp by (subst sp'; rewrite length_app, length_replicate; lia).
  destruct (building_copyout ld_end s0 fl0 d s fl tabs ptes top sp' l Hb Hk Hpos) as (k & s' & E & Hb' & Hle & Hus & Hstop & Hby); [lia|done|].
  eexists _, s'. split; [exact E|]. split; [done|]. destruct (Z.leb_spec low sp') as [Hin|Hout].
  - assert (k = length l) as ->.
    { destruct (decide (k = length l)) as [|Hn]; [done|]. rewrite stack_page in Hstop; [|lia]. specialize (Hstop ltac:(lia)). done. }
    rewrite decide_True by done. split; [done|]. intros a Ha. cbv zeta. rewrite Hby by done.
    assert (top - Z.of_nat (length ((l ++ replicate pad 0) ++ fr)) = sp') as -> by (rewrite length_app; lia).
    destruct (decide (sp' ≤ a < sp' + Z.of_nat (length l))) as [H1|H1].
    { rewrite decide_True by lia. rewrite <- app_assoc, lookup_app_l by lia. done. }
    rewrite (Hst a Ha). cbv zeta. fold sp. destruct (decide (sp ≤ a < top)) as [H2|H2].
    { rewrite decide_True by lia. rewrite lookup_app_r by (rewrite length_app, length_replicate; lia). f_equal. rewrite length_app, length_replicate. lia. }
    destruct (decide (sp' ≤ a < top)) as [H3|H3]; [|done]. rewrite zero by lia.
    rewrite lookup_app_l by (rewrite length_app, length_replicate; lia). rewrite lookup_app_r by lia. symmetry. apply lookup_replicate_2. lia.
  - rewrite decide_False; [done|]. intros ->.
    assert (sp' ≤ low - 4 ∧ low - 3 ≤ sp' + Z.of_nat (length l)) as [H1 H2].
    { split; [|lia]. clear - Hpm Hm' Hout. unfold PGSIZE in *. Z.div_mod_to_equations. lia. }
    assert (user_pte ptes (Z.max sp' (low - PGSIZE)) = false) as Hg by (apply guard_page; unfold PGSIZE in *; lia).
    rewrite Hus in Hg by (unfold PGSIZE in *; lia). done.
Qed.

Lemma push_args_ok argv : ∀ s dn argc us,
  let sp := top - Z.of_nat (length (arg_blocks dn)) in
  building s0 fl0 d s fl tabs ptes top → stacked s (arg_blocks dn) → low ≤ sp →
  Forall (Forall byte_ok) argv → Forall (λ arg, Z.of_nat (length arg) + 4 ≤ low) argv →
  ∃ r s', push_args d sp argv argc us (kst F s) = Ok r (kst F s') ∧ building s0 fl0 d s' fl tabs ptes top ∧
    let fr := arg_blocks (dn ++ argv) in
    let sp' := top - Z.of_nat (length fr) in
    match r with
    | Some (z, us') => z = sp' ∧ us' = us ++ arg_ptrs sp argv ∧ low ≤ sp' ∧ stacked s' fr ∧ (argv ≠ [] → argc + Z.of_nat (length argv) ≤ MAXARG)
    | None => MAXARG < argc + Z.of_nat (length argv) ∨ sp' < low
    end.
Proof using page stack_page guard_page zero.
  induction argv as [|arg argv IH]; intros s dn argc us sp Hb Hst Hlow Hbytes Hshort; cbn [push_args].
  { exists (Some (sp, us)), s. split; [done|]. split; [done|]. rewrite !app_nil_r. by repeat (split; [done|]). }
  apply Forall_cons in Hbytes as [Hba Hbytes], Hshort as [Hsa Hshort].
  destruct (Z.leb_spec MAXARG argc) as [Hmax|Hmax].
  { exists None, s. split; [done|]. split; [done|]. left. cbn [length]. lia. }
  destruct page as (Hpm & Htop & Hlp & Hk). destruct (length_arg_block arg) as [Hbm Hbl]. pose proof (length_arg_blocks dn) as Hdm.
  assert (top `mod` 4 = 0) as Htm by (clear - Hpm Htop; unfold PGSIZE in *; Z.div_mod_to_equations; lia).
  set (sp1 := sp - Z.of_nat (length (arg_block arg))).
  assert (sp `mod` 4 = 0 ∧ sp1 `mod` 4 = 0) as [Hspm Hsp1m] by (subst sp sp1; clear - Hbm Hdm Htm; Z.div_mod_to_equations; lia).
  assert (0 ≤ sp1) as Hsp1 by (unfold sp1; lia).
  assert (Z.land (u32 (sp - (Z.of_nat (length arg) + 1))) (Z.lnot 3) = sp1) as ->.
  { rewrite u32_small by (unfold KERNBASE, sp in *; lia). change 3 with (2 ^ 2 - 1). rewrite land_round by done. change (2 ^ 2) with 4.
    unfold sp1 in *. clear - Hspm Hbm Hbl. Z.div_mod_to_equations. lia. }
  destruct (arg_block_string arg) as (pad & Hpad & Eblk).
  pose proof (stack_copy s (arg_blocks dn) (arg ++ [0]) pad) as Hcp. cbv zeta in Hcp. rewrite <- Eblk in Hcp. fold sp in Hcp. fold sp1 in Hcp.
  destruct Hcp as (r & s1 & E1 & Hb1 & Hr); [done|done|done|done|done|done|by destruct arg|done|apply Forall_app; split; [done|apply Forall_singleton; by unfold byte_ok]|].
  mstep (sys_mem_ok _ F _ _ _ E1).
  assert (top - Z.of_nat (length (arg_blocks (dn ++ [arg]))) = sp1) as Esp1 by (rewrite arg_blocks_snoc, length_app; unfold sp1, sp; lia).
  destruct (Z.leb_spec low sp1) as [Hin|Hout].
  - destruct Hr as [-> Hst1]. cbn [Z.ltb Z.compare]. rewrite <- arg_blocks_snoc in Hst1.
    destruct (IH s1 (dn ++ [arg]) (argc + 1) (us ++ [sp1]) Hb1 Hst1) as (r & s' & E & Hb' & Hres); [lia|done|done|]. rewrite Esp1 in E, Hres.
    exists r, s'. split; [exact E|]. split; [done|]. cbv zeta in *. rewrite <- app_assoc in Hres. cbn [app] in Hres. destruct r as [[z us']|].
    + destruct Hres as (-> & -> & ? & ? & Hn). split; [done|]. split; [by rewrite <- app_assoc|]. split; [done|]. split; [done|]. intros _. cbn [length].
      destruct argv as [|]; [cbn; lia|]. specialize (Hn ltac:(done)). cbn [length] in *. lia.
    + cbn [length]. destruct Hres; [left; lia|right; done].
  - subst r. cbn [Z.ltb Z.compare]. exists None, s1. split; [done|]. split; [done|]. right. pose proof (arg_blocks_app (dn ++ [arg]) argv) as Hle.
    rewrite <- app_assoc in Hle. cbn [app] in Hle. lia.
Qed.

(** The arguments, and the frame below them. *)
Lemma push_frame_ok argv s :
  building s0 fl0 d s fl tabs ptes top → stacked s [] → Forall (Forall byte_ok) argv → Forall (λ arg, Z.of_nat (length arg) + 4 ≤ low) argv →
  ∃ r s', (r ← push_args d top argv 0 [];
    match r with
    | None => mret None
    | Some (sp, args) =>
        let argc := Z.of_nat (length args) in
        let ustack := [0xffffffff; argc; u32 (sp - (argc + 1) * 4)] ++ args ++ [0] in
        let sp := u32 (sp - (3 + argc + 1) * 4) in
        r ← sys_mem (copyout d sp (concat (le_bytes 4 <$> ustack)));
        mret (if r <? 0 then None else Some (top, sp))
    end) (kst F s) = Ok r (kst F s') ∧ building s0 fl0 d s' fl tabs ptes top ∧
    let fr := main_frame top argv in
    if (Z.of_nat (length argv) <=? MAXARG) && (Z.of_nat (length fr) <=? PGSIZE) then r = Some (top, top - Z.of_nat (length fr)) ∧ stacked s' fr
    else r = None.
Proof using page stack_page guard_page zero.
  intros Hb Hst Hbytes Hshort. destruct page as (Hpm & Htop & Hlp & Hk).
  assert (top `mod` 4 = 0) as Htm by (clear - Hpm Htop; unfold PGSIZE in *; Z.div_mod_to_equations; lia).
  destruct (push_args_ok argv s [] 0 [] Hb Hst) as (r & s1 & E1 & Hb1 & Hr); [cbn; unfold PGSIZE in *; lia|done|done|].
  cbn [app arg_blocks reverse fmap list_fmap concat length] in E1, Hr. change (arg_blocks []) with (@nil Z) in E1, Hr. cbn [length] in E1, Hr.
  rewrite Z.sub_0_r in E1, Hr. mstep E1. cbv zeta in *. rewrite length_main_frame. destruct r as [[sp args]|].
  2: { exists None, s1. split; [done|]. split; [done|]. destruct (_ && _) eqn:Ef; [|done]. apply andb_true_iff in Ef as [?%Z.leb_le ?%Z.leb_le]. lia. }
  destruct Hr as (Esp & -> & Hlow & Hst1 & Hmax). cbn [app]. rewrite length_arg_ptrs.
  assert (Z.of_nat (length argv) ≤ MAXARG) as Hargc by (destruct argv; [by vm_compute|apply Hmax; done]). rewrite (proj2 (Z.leb_le _ _) Hargc). cbn [andb].
  set (argc := Z.of_nat (length argv)) in *. pose proof (length_arg_blocks argv) as Hbm. rewrite <- Esp in Hlow.
  assert (sp `mod` 4 = 0) as Hspm by (rewrite Esp; clear - Hbm Htm; Z.div_mod_to_equations; lia).
  rewrite (u32_small (sp - (argc + 1) * 4)), (u32_small (sp - (3 + argc + 1) * 4)) by (unfold MAXARG, PGSIZE, KERNBASE in *; lia).
  set (l := concat _).
  assert (length l = 4 * (4 + length argv))%nat as Hll by (unfold l; rewrite length_words; cbn [length]; rewrite length_app, length_arg_ptrs; cbn [length]; lia).
  pose proof (stack_copy s1 (arg_blocks argv) l 0) as Hcp. cbv zeta in Hcp. change (replicate 0 0) with (@nil Z) in Hcp. rewrite app_nil_r in Hcp.
  rewrite <- Esp in Hcp. replace (sp - Z.of_nat (length l)) with (sp - (3 + argc + 1) * 4) in Hcp by (unfold argc; lia).
  destruct Hcp as (r & s2 & E2 & Hb2 & Hr); [done|done|done|done| |unfold MAXARG, PGSIZE in *; lia|by intros El; rewrite El in Hll|lia|apply words_ok|].
  { clear - Hspm. Z.div_mod_to_equations. lia. }
  mstep (sys_mem_ok _ F _ _ _ E2). exists (if r <? 0 then None else Some (top, sp - (3 + argc + 1) * 4)), s2. split; [done|]. split; [done|].
  assert (main_frame top argv = l ++ arg_blocks argv) as ->.
  { unfold main_frame, l. cbv zeta. by rewrite <- Esp. }
  destruct (Z.leb_spec low (sp - (3 + argc + 1) * 4)) as [Hin|Hout].
  - destruct Hr as [-> Hst2]. rewrite (proj2 (Z.leb_le _ _)) by (unfold argc in *; lia). split; [|done]. cbn [Z.ltb Z.compare]. do 2 f_equal. unfold argc in *. lia.
  - rewrite Hr. rewrite (proj2 (Z.leb_gt _ _)) by (unfold argc in *; lia). done.
Qed.
End stack.

(** How the stack is made; the user may touch everything but the guard page. *)
Definition stack_made (d : Z) (fl : list Z) (o : option (space * Z)) (r : option (Z * Z)) (s' : kstate) (ptes' : gmap Z Z) (sz' : Z) : Prop :=
  match o, r with
  | None, None => True
  | None, Some _ => False
  | Some _, None => (length fl < 6)%nat
  | Some (sp, esp), Some (z, e) => z = sz' ∧ sp.1 = z ∧ e = esp ∧ 0 ≤ z < KERNBASE ∧ (∀ a, 0 ≤ a < KERNBASE → ubyte (ram s') d a = sp.2 a) ∧
      ∀ a, 0 ≤ a < z → user_pte ptes' a = negb (bool_decide (z - 2 * PGSIZE ≤ a < z - PGSIZE))
  end.

Lemma exec_stack_ok F s0 fl0 d s fl tabs ptes sz img argv :
  building s0 fl0 d s fl tabs ptes sz → 0 ≤ sz < KERNBASE → shows d s ptes sz img →
  Forall (Forall byte_ok) argv → Forall (λ arg, Z.of_nat (length arg) + 4 ≤ PGSIZE) argv →
  ∃ r s' fl' tabs' ptes' sz', exec_stack d sz argv (kst F s) = Ok r (kst F s') ∧ building s0 fl0 d s' fl' tabs' ptes' sz' ∧
    stack_made d fl (add_stack argv (sz, img)) r s' ptes' sz'.
Proof using end_high.
  intros Hb Hs [Hby Hus] Hbytes Hshort. destruct (user_round sz Hs) as (Hr1 & Hr2 & Hr3). unfold exec_stack, add_stack. cbv zeta. cbn [fst snd].
  set (base := PGROUNDUP sz) in *. set (top := base + 2 * PGSIZE).
  assert (PGROUNDUP base = base) as Ebase by (apply PGROUNDUP_is; [unfold KERNBASE, PGSIZE in *; lia|unfold PGSIZE; lia|done]).
  assert (building s0 fl0 d s fl tabs ptes base) as Hb'.
  { destruct Hb as [Hu Hp Hk]. split; [|done|done]. eapply uvm_size; [exact Hu|]. intros va Hva. clear - Hva Hr1 Hr2 Hr3. unfold PGSIZE in *. Z.div_mod_to_equations. lia. }
  rewrite (u32_small top) by (unfold top, KERNBASE, PGSIZE in *; lia).
  destruct (building_alloc ld_end end_high s0 fl0 d s fl tabs ptes base top Hb') as (r2 & s2 & E2 & Hr); [lia|unfold top, PGSIZE; lia|].
  mstep (sys_mem_ok _ F _ _ _ E2). destruct Hr as [(-> & Hk & fl2 & tabs2 & ptes2 & Hb2 & Had)|(-> & Hlen & fl2 & tabs2 & Hb2)].
  2: { exists None, s2, fl2, tabs2, ptes, base. split; [done|]. split; [done|]. unfold stack_made.
       destruct (Z.ltb_spec top KERNBASE) as [Hk|]; [|done]. cbn [andb]. destruct (_ && _); [|done]. specialize (Hlen Hk). rewrite Ebase in Hlen. unfold top, PGSIZE in *. lia. }
  rewrite Z.max_r in * by (unfold top, PGSIZE; lia). rewrite Ebase in Had.
  assert (top `mod` PGSIZE = 0) as Htm by (unfold top; clear - Hr3; unfold PGSIZE in *; Z.div_mod_to_equations; lia).
  assert (PGROUNDUP top = top) as Etop by (apply PGROUNDUP_is; [unfold top, KERNBASE, PGSIZE in *; lia|unfold PGSIZE; lia|done]). rewrite Etop in Had.
  rewrite (proj2 (Z.eqb_neq top 0)) by (unfold top, PGSIZE; lia). replace (top - 2 * PGSIZE) with base by (unfold top; lia). rewrite (u32_small base) by (unfold KERNBASE in *; lia).
  assert (frame_ok base) as Hfb by (split; [unfold KERNBASE in *; lia|done]).
  destruct (ad_new _ _ _ _ _ _ _ _ _ _ Had base Hfb) as (p & Hp & Hpo); [unfold top, PGSIZE; lia|].
  destruct (building_clear ld_end s0 fl0 d s2 fl2 tabs2 ptes2 top base p Hb2 Hp Hpo) as (s3 & E3 & Hb3 & Hby3); [unfold top, PGSIZE; lia|unfold top, PGSIZE in *; lia|].
  mstep (sys_mem_ok _ F _ _ _ E3). set (ptes3 := <[base := mkpte (V2P p) PTE_W]> ptes2) in *.
  assert (∀ a, 0 ≤ a → user_pte ptes3 a = if decide (base ≤ a < base + PGSIZE) then false else user_pte ptes2 a) as Hup.
  { intros a Ha. unfold user_pte, ptes3. destruct (decide (base ≤ a < base + PGSIZE)) as [Hin|Hout].
    - assert (first_page a = base) as -> by (clear - Hin Hr3; unfold first_page, PGSIZE in *; Z.div_mod_to_equations; lia).
      rewrite lookup_insert_eq. by rewrite (mkpte_user ld_end p PTE_W Hpo) by (by vm_compute).
    - rewrite lookup_insert_ne; [done|]. intros Eb. apply Hout. rewrite Eb. clear. unfold first_page, PGSIZE. Z.div_mod_to_equations. lia. }
  set (low := base + PGSIZE). set (img' := λ a, if decide (base ≤ a < top) then Some 0 else img a).
  destruct (push_frame_ok F s0 fl0 d fl2 tabs2 ptes3 low top img') with (argv := argv) (s := s3) as (r & s4 & E4 & Hb4 & Hres).
  { split; [|unfold low, top, PGSIZE in *; lia]. clear - Hr3. unfold low, PGSIZE in *. Z.div_mod_to_equations. lia. }
  { intros a Ha. rewrite Hup by (unfold low, PGSIZE in *; lia). rewrite decide_False by (unfold low in *; lia). eapply new_user; [exact Had|done|done|unfold low, PGSIZE in *; lia|lia|lia]. }
  { intros a Ha. rewrite Hup by (unfold low, PGSIZE in *; lia). by rewrite decide_True by (unfold low in *; lia). }
  { intros a Ha. unfold img'. by rewrite decide_True by (unfold low, PGSIZE in *; lia). }
  { done. }
  { intros a Ha. cbv zeta. cbn [length]. rewrite decide_False by lia. rewrite Hby3, (ad_bytes _ _ _ _ _ _ _ _ _ _ Had), Hby by done. done. }
  { done. }
  { eapply Forall_impl; [exact Hshort|]. cbn. intros arg. unfold low. lia. }
  exists r, s4, fl2, tabs2, ptes3, top. split; [exact E4|]. split; [done|]. cbv zeta in Hres. rewrite (proj2 (Z.ltb_lt _ _) Hk). cbn [andb].
  destruct (_ && _); [|by rewrite Hres]. destruct Hres as [-> Hst]. unfold stack_made. cbn [fst snd]. split; [done|]. split; [done|]. split; [done|]. split; [unfold top, PGSIZE in *; lia|]. split.
  - intros a Ha. rewrite (Hst a Ha). done.
  - intros a Ha. rewrite Hup by lia. replace (top - 2 * PGSIZE) with base by (unfold top; lia). replace (top - PGSIZE) with (base + PGSIZE) by (unfold top; lia).
    destruct (decide (base ≤ a < base + PGSIZE)) as [Hin|Hout]; [by rewrite bool_decide_eq_true_2|]. rewrite bool_decide_eq_false_2 by done. cbn [negb].
    destruct (decide (base ≤ a)); [eapply new_user; [exact Had|done|done|lia|lia|lia]|].
    rewrite (old_user _ _ _ _ _ _ _ _ _ _ Had) by (done || lia). apply Hus. lia.
Qed.

(** ** The call *)

Section call.
Context (cur : nat) (p : proc) (path : list Z) (argv : list (list Z)) (s : kstate) (fl : list Z) (tabs ptes : gmap Z Z).
Hypothesis current : ps !! cur = Some p.
Hypothesis old_space : uvm ld_end s fl (p_pgdir p) tabs ptes (p_sz p).
Hypothesis argv_bytes : Forall (Forall byte_ok) argv.
Hypothesis argv_short : Forall (λ arg, Z.of_nat (length arg) + 4 ≤ PGSIZE) argv.

(** After a refusal the process has the address space that it had, and no page
    is lost unless setupkvm ran out of them. *)
Definition unharmed (s' : kstate) : Prop :=
  ∃ fl', uvm ld_end s' fl' (p_pgdir p) tabs ptes (p_sz p) ∧
    (∀ a, 0 ≤ a < KERNBASE → ubyte (ram s') (p_pgdir p) a = ubyte (ram s) (p_pgdir p) a) ∧
    (fl' = [] ∨ ∀ q, q ∈ fl' ↔ q ∈ fl).

(** The process after exec. *)
Definition new_proc (d sz entry esp : Z) : proc :=
  set_tf (set_esp esp (set_eip entry (p_tf p))) (set_sz sz (set_pgdir d (set_name (take 15 (last_elem path path)) p))).

(** It runs [sp] from [entry] on, with everything but the guard page in reach,
    and the pages of the old address space are free. *)
Definition replaced (sp : space) (esp entry : Z) (F : fstate S) (k' : kernel S) : Prop :=
  ∃ d s' fl' tabs' ptes', k' = PState (<[cur := new_proc d sp.1 entry esp]> ps) nx ip0 (Kern ft pp F s' tk) ∧
    uvm ld_end s' fl' d tabs' ptes' sp.1 ∧
    (∀ a, 0 ≤ a < KERNBASE → ubyte (ram s') d a = sp.2 a) ∧
    (∀ a, 0 ≤ a < sp.1 → accessible (ram s') d a = negb (bool_decide (sp.1 - 2 * PGSIZE ≤ a < sp.1 - PGSIZE))) ∧
    ∀ q, q ∈ fl' ∨ uses d tabs' ptes' q ↔ q ∈ fl ∨ uses (p_pgdir p) tabs ptes q.

Lemma upd_at {A} (f : proc → proc) (m : M (kernel S) A) qs q e :
  qs !! cur = Some q → (upd cur f;; m) (PState qs nx ip0 e) = m (PState (<[cur := f q]> qs) nx ip0 e).
Proof. intros Hq. unfold upd, mbind, M_bind. cbn [ptable nextpid initproc env]. by rewrite (alter_insert_some _ _ _ q). Qed.

Lemma exec_commit_ok F d sn fln dtabs dptes sp esp entry :
  building s fl d sn fln dtabs dptes sp.1 → 0 ≤ sp.1 < KERNBASE →
  (∀ a, 0 ≤ a < KERNBASE → ubyte (ram sn) d a = sp.2 a) →
  (∀ a, 0 ≤ a < sp.1 → user_pte dptes a = negb (bool_decide (sp.1 - 2 * PGSIZE ≤ a < sp.1 - PGSIZE))) →
  ∃ k', exec_commit cur path d sp.1 entry esp (kst F sn) = Ok 0 k' ∧ replaced sp esp entry F k'.
Proof using current old_space end_high.
  intros Hb Hsz Hby Hus. destruct (building_switch ld_end end_high s fl d sn fln dtabs dptes sp.1 _ _ _ _ Hb old_space) as (s' & fl' & E & Hu & Hby' & Hpg).
  pose proof (lookup_lt_Some _ _ _ current) as Hcur. unfold exec_commit, kst.
  assert (∀ A (k : proc → M (kernel S) A) qs q e, qs !! cur = Some q → (x ← proc_at cur; k x) (PState qs nx ip0 e) = k q (PState qs nx ip0 e)) as Hat.
  { intros A k qs q e Hq. unfold proc_at, mbind, M_bind. cbn [ptable]. by rewrite Hq. }
  rewrite (Hat _ _ _ p) by done. rewrite (upd_at _ _ _ p) by done.
  do 4 (erewrite upd_at by (by apply list_lookup_insert_eq; rewrite ?length_insert); rewrite list_insert_insert_eq).
  assert (sys_mem (freevm ld_end (p_pgdir p)) (PState (<[cur := new_proc d sp.1 entry esp]> ps) nx ip0 (Kern ft pp F sn tk)) =
    Ok tt (PState (<[cur := new_proc d sp.1 entry esp]> ps) nx ip0 (Kern ft pp F s' tk))) as E'.
  { unfold sys_mem, on_env, on_mem, zoom. cbn. by rewrite E. }
  mstep E'. eexists. split; [done|]. exists d, s', fl', dtabs, dptes. split; [done|]. split; [done|]. split; [intros a Ha; by rewrite Hby', Hby|].
  split; [|done]. intros a Ha. rewrite (accessible_ptes ld_end _ _ _ _ _ _ a Hu) by lia. by apply Hus.
Qed.

(** The file system on the way: the path leads to inode [k], which is [e]. *)
Section program.
Context (sb : superblock) (ic : list inode) (t0 t1 : S) (v : tview) (ds : gmap Z dinode) (cwdnum : Z).
Hypothesis begins : t_begin_op t0 = Ok tt t1.
Hypothesis walks : can_walk sb ic t1 v ds (Z.to_nat (p_cwd p - 1)) cwdnum path.
Hypothesis ends : ∀ t, trep t v → ∃ t', t_end_op t = Ok tt t'.

(** The transaction is over and has changed nothing. *)
Definition closed (F : fstate S) : Prop := ∃ ic' t t', F = FState sb ic' t' ∧ back ic sb ic' t v ds ∧ t_end_op t = Ok tt t'.

Definition refused_exec (o : outcome (kernel S) Z) : Prop :=
  ∃ F s', o = Ok (-1) (kst F s') ∧ closed F ∧ unharmed s'.

Lemma end_op_ok ic' t s' : back ic sb ic' t v ds → ∃ F, on_env end_op (kst (FState sb ic' t) s') = Ok tt (kst F s') ∧ closed F.
Proof using ends.
  intros Hb. destruct (ends t (fr_rep (bk_fs _ _ _ _ _ _ Hb))) as [t' E]. exists (FState sb ic' t'). split; [|by exists ic', t, t'].
  apply (sys_fs_ok (tx t_end_op)). by apply tx_ok.
Qed.

(** The inode is given back and the transaction ends. *)
Lemma give_back_ok ic2 t2 ip k i s' :
  visiting ic sb ic2 t2 v ds ip k i → stays ic k (i_d i) →
  ∃ F1 F, sys_fs (iunlockput ip) (kst (FState sb ic2 t2) s') = Ok tt (kst F1 s') ∧ on_env end_op (kst F1 s') = Ok tt (kst F s') ∧ closed F.
Proof using ends walks.
  intros Hvi Hst. destruct (visiting_drop ic ds _ _ _ _ _ _ _ _ (fr_cache (cw_fs _ _ _ _ _ _ _ _ walks)) Hvi Hst) as (ic3 & E3 & Hb3).
  destruct (end_op_ok ic3 t2 s' Hb3) as (F & E4 & Hc). exists (FState sb ic3 t2), F. split; [by apply sys_fs_ok|done].
Qed.

Lemma unharmed_keeps s' fl' :
  kmem_ok ld_end s' fl' → VmUser.keeps ld_end (λ q, q ∉ fl) (ram s) (ram s') → fl' = [] ∨ (∀ q, q ∈ fl' ↔ q ∈ fl) → unharmed s'.
Proof using old_space.
  intros Hk Hkeep Hfl. destruct (old_kept ld_end s fl s' fl' _ _ _ _ old_space Hk Hkeep) as [Hu Hby].
  { destruct Hfl as [->|Hfl]; [intros q; by rewrite elem_of_nil|]. intros q. apply Hfl. }
  by exists fl'.
Qed.

Lemma unharmed_refl : unharmed s.
Proof using old_space. exists fl. split; [done|]. split; [done|]. by right. Qed.

(** [bad:] *)
Lemma bad_early ic2 t2 ip k i s' :
  visiting ic sb ic2 t2 v ds ip k i → stays ic k (i_d i) → unharmed s' → refused_exec (exec_bad 0 (Some ip) (kst (FState sb ic2 t2) s')).
Proof using ends walks.
  intros Hvi Hst Hun. destruct (give_back_ok ic2 t2 ip k i s' Hvi Hst) as (F1 & F & E1 & E2 & Hc). exists F, s'. split; [|done].
  unfold exec_bad. cbn [Z.eqb]. rewrite ret_step.
  unfold mbind, M_bind. by rewrite E1, E2.
Qed.

Lemma free_new d sn fln dtabs dptes sz :
  building s fl d sn fln dtabs dptes sz → ∃ s', d ≠ 0 ∧ freevm ld_end d sn = Ok tt s' ∧ unharmed s'.
Proof using old_space end_high.
  intros Hb. destruct (building_free ld_end end_high s fl d sn fln dtabs dptes sz Hb) as (s' & fl' & E & Hk & Hfl & Hkeep).
  exists s'. split; [|split; [done|by eapply unharmed_keeps; eauto]].
  pose proof (page_ok_range _ _ (po_dir _ _ _ _ _ (vo_pt _ _ _ _ _ _ (fo_vm _ _ _ _ _ _ (uv_frames _ _ _ _ _ _ _ (bu_uvm _ _ _ _ _ _ _ _ _ Hb)))))). lia.
Qed.

Lemma bad_locked ic2 t2 ip k i d sn fln dtabs dptes sz :
  visiting ic sb ic2 t2 v ds ip k i → stays ic k (i_d i) → building s fl d sn fln dtabs dptes sz →
  refused_exec (exec_bad d (Some ip) (kst (FState sb ic2 t2) sn)).
Proof using ends walks old_space end_high.
  intros Hvi Hst Hb. destruct (free_new d sn fln dtabs dptes sz Hb) as (s' & Hne & E & Hun).
  destruct (give_back_ok ic2 t2 ip k i s' Hvi Hst) as (F1 & F & E1 & E2 & Hc). exists F, s'. split; [|done].
  unfold exec_bad. rewrite (proj2 (Z.eqb_neq _ _) Hne). mstep (sys_mem_ok _ (FState sb ic2 t2) _ _ _ E).
  unfold mbind, M_bind. by rewrite E1, E2.
Qed.

Lemma bad_closed F d sn fln dtabs dptes sz :
  closed F → building s fl d sn fln dtabs dptes sz → refused_exec (exec_bad d None (kst F sn)).
Proof using old_space end_high.
  intros Hc Hb. destruct (free_new d sn fln dtabs dptes sz Hb) as (s' & Hne & E & Hun). exists F, s'. split; [|done].
  unfold exec_bad. rewrite (proj2 (Z.eqb_neq _ _) Hne). by mstep (sys_mem_ok _ F _ _ _ E).
Qed.

(** How exec ends on a file whose image is [im]: a file that has none is
    refused, and one that has an image only when pages are short: 1025 for the
    kernel's part and two for each page of the user's are enough. *)
Definition ran (o : outcome (kernel S) Z) (im : option (space * Z)) (entry : Z) : Prop :=
  match im with
  | None => refused_exec o
  | Some (sp, esp) =>
      Z.of_nat (length fl) * PGSIZE < 1026 * PGSIZE + 2 * (sp.1 + PGSIZE) ∧ refused_exec o ∨
      ∃ F k', o = Ok 0 k' ∧ closed F ∧ replaced sp esp entry F k'
  end.

Lemma stack_run_ok F d sn fln dtabs dptes sz img entry :
  closed F → building s fl d sn fln dtabs dptes sz → 0 ≤ sz < KERNBASE → shows d sn dptes sz img →
  Z.of_nat (length fl) * PGSIZE ≤ (Z.of_nat (length fln) + 1025) * PGSIZE + 2 * PGROUNDUP sz →
  ran ((r ← exec_stack d sz argv; match r with None => exec_bad d None | Some (sz, sp) => exec_commit cur path d sz entry sp end) (kst F sn))
    (add_stack argv (sz, img)) entry.
Proof using old_space end_high argv_bytes argv_short current.
  intros Hc Hb Hsz Hsh Hlen.
  destruct (exec_stack_ok F s fl d sn fln dtabs dptes sz img argv Hb Hsz Hsh argv_bytes argv_short) as (r & s4 & fl4 & tabs4 & ptes4 & sz4 & E4 & Hb4 & Hmade).
  rewrite (bind_ok _ _ _ _ _ E4). unfold ran. destruct (add_stack argv (sz, img)) as [[sp esp]|] eqn:Es.
  - destruct (add_stack_size _ _ _ _ _ Hsz Es) as [Esp Hup]. destruct r as [[z e]|].
    + destruct Hmade as (-> & <- & -> & Hz & Hby & Hus). right.
      destruct (exec_commit_ok F d s4 fl4 tabs4 ptes4 sp esp entry Hb4 Hz Hby Hus) as (k' & E5 & Hr). by exists F, k'.
    + left. unfold stack_made in Hmade. split; [unfold PGSIZE in *; lia|]. by eapply bad_closed.
  - destruct r as [[z e]|]; [done|]. by eapply bad_closed.
Qed.

Section file.
Context (ic2 : list inode) (t2 : S) (ip : nat) (k : Z) (i : inode).
Hypothesis visits : visiting ic sb ic2 t2 v ds ip k i.
Hypothesis remains : stays ic k (i_d i).
Hypothesis plain : d_type (i_d i) ≠ T_DEV.
Hypothesis small : d_size (i_d i) < 2 ^ 32.
#[local] Abbreviation fdata := (content (t_blocks v) (i_d i)).
Hypothesis bytes : Forall byte_ok fdata.

Lemma file_at_ok t : trep t v → at_inode sb ic2 t v ds ip i.
Proof using visits. intros Ht. destruct visits as [Hfs _ _ _ _ Hlk]. eapply locked_at; [by eapply fs_rep_tx|done]. Qed.

Lemma visits_at t : trep t v → visiting ic sb ic2 t v ds ip k i.
Proof using visits. intros Ht. destruct visits as [Hfs Hr Hk Hq Hl Hlk]. split; [by eapply fs_rep_tx|done..]. Qed.

Lemma file_size : 0 ≤ d_size (i_d i).
Proof using visits.
  pose proof (file_at_ok t2 (fr_rep (vi_fs _ _ _ _ _ _ _ _ _ visits))) as Hat. apply (fo_size (ai_ok _ _ _ _ _ _ _ Hat) _ _ (ai_inode _ _ _ _ _ _ _ Hat)).
Qed.

(** From setupkvm on. *)
Lemma load_ok t elf :
  trep t v → 0 ≤ elf_phoff elf < 2 ^ 32 →
  ran ((pgdir ← sys_mem (setupkvm ld_data);
    if pgdir =? 0 then exec_bad 0 (Some ip)
    else
      r ← exec_load (Z.to_nat (elf_phnum elf)) pgdir ip (s32 (elf_phoff elf)) 0;
      match r with
      | None => exec_bad pgdir (Some ip)
      | Some sz =>
          sys_fs (iunlockput ip);;
          on_env end_op;;
          r ← exec_stack pgdir sz argv;
          match r with
          | None => exec_bad pgdir None
          | Some (sz, sp) => exec_commit cur path pgdir sz (elf_entry elf) sp
          end
      end) (kst (FState sb ic2 t) s))
    (sp ← add_segments fdata (Z.to_nat (elf_phnum elf)) (elf_phoff elf) (0, λ _, None); add_stack argv sp) (elf_entry elf).
Proof using visits remains plain small bytes walks ends old_space end_high data_place argv_bytes argv_short current.
  intros Ht Hoff.
  destruct (building_setup ld_end ld_data end_high data_place s fl (vo_kmem _ _ _ _ _ _ (fo_vm _ _ _ _ _ _ (uv_frames _ _ _ _ _ _ _ old_space)))) as (d & s1 & E1 & Hd).
  mstep (sys_mem_ok _ (FState sb ic2 t) _ _ _ E1). destruct Hd as [(-> & Hlen & Hk & Hkeep)|(Hne & fl1 & tabs1 & Hb1 & Hlen)].
  { cbn [Z.eqb]. assert (refused_exec (exec_bad 0 (Some ip) (kst (FState sb ic2 t) s1))) as Hrf.
    { eapply bad_early; [by apply visits_at|done|]. eapply unharmed_keeps; [done|done|by left]. }
    unfold ran. destruct (mbind _ _) as [[sp esp]|] eqn:Esp; [|done]. left. split; [|done]. destruct (image_size _ _ _ _ _ _ Esp) as (sp1 & _ & H1 & -> & H2). unfold PGSIZE in *. lia. }
  rewrite (proj2 (Z.eqb_neq _ _) Hne).
  assert (shows d s1 (kernel_ptes ld_data) 0 (λ _, None)) as Hsh1.
  { split; [|intros a; change (PGROUNDUP 0) with 0; lia]. intros a Ha. rewrite (ubyte_eq ld_end _ _ _ _ _ _ a (bu_uvm _ _ _ _ _ _ _ _ _ Hb1) Ha).
    destruct (first_page_ok a) as [Hfa Hfa']; [unfold KERNBASE in *; lia|]. destruct (kernel_ptes ld_data !! first_page a) as [e|] eqn:He; [|done]. exfalso.
    assert (first_page a < 0); [|unfold frame_ok in Hfa; lia]. apply (uv_dom _ _ _ _ _ _ _ (bu_uvm _ _ _ _ _ _ _ _ _ Hb1)); [done|lia|by eexists]. }
  destruct (exec_load_ok sb ic2 v ds ip i file_at_ok plain (conj file_size small) bytes s fl d (Z.to_nat (elf_phnum elf)) (elf_phoff elf) (s32 (elf_phoff elf)) t s1 fl1 tabs1 _ 0 _ Ht Hb1 ltac:(done) Hsh1)
    as (r & t3 & s3 & fl3 & tabs3 & ptes3 & sz3 & E3 & Ht3 & Hb3 & Hl).
  { unfold s32, u32 in *. rewrite Zminus_mod_idemp_l. replace (elf_phoff elf + 2 ^ 31 - 2 ^ 31) with (elf_phoff elf) by lia. by apply Z.mod_small. }
  mstep E3. pose proof (visits_at t3 Ht3) as Hvi3. destruct r as [sz|].
  - destruct (give_back_ok ic2 t3 ip k i s3 Hvi3 remains) as (F1 & F & E4 & E5 & Hc). mstep E4. mstep E5.
    destruct (add_segments _ _ _ _) as [[sz1 img1]|]; [|done]. destruct Hl as (-> & Esz & Hz & Hsh & Hll). cbn [fst snd] in Esz, Hsh. subst sz1. cbn [mbind option_bind].
    eapply stack_run_ok; [done|done|done|done|]. change (PGROUNDUP 0) with 0 in Hll. unfold PGSIZE in *. lia.
  - assert (refused_exec (exec_bad d (Some ip) (kst (FState sb ic2 t3) s3))) as Hrf by (by eapply bad_locked).
    unfold ran. destruct (mbind _ _) as [[sp esp]|] eqn:Esp; [|done]. left. split; [|done]. destruct (image_size _ _ _ _ _ _ Esp) as (sp1 & Eo & H1 & -> & H2).
    rewrite Eo in Hl. unfold loaded in Hl. change (PGROUNDUP 0) with 0 in Hl. unfold PGSIZE in *. lia.
Qed.
End file.

(** C11: exec replaces the program or fails without a trace.  When the path
    leads to no file, or the file and the arguments have no image, exec returns
    -1, with the process table and the old address space as they were, the
    transaction over and the inode given back.  Otherwise it returns 0, and the
    process has an address space with exactly the bytes of [exec_image], in
    which it may touch everything but the guard page, starts at the entry point
    with its arguments on the stack, and the old pages are free; this can fail
    only for lack of pages. *)
Theorem exec_correct elf0 :
  length elf0 = Z.to_nat sizeof_elfhdr →
  let o := exec cur elf0 path argv (kst (FState sb ic t0) s) in
  match resolve (t_blocks v) ds (start cwdnum path) (names path) with
  | None => refused_exec o
  | Some k => ∃ e, ds !! k = Some e ∧
      let file := content (t_blocks v) e in
      (d_type e ≠ T_DEV → d_size e < 2 ^ 32 → Forall byte_ok file →
       ran o (exec_image file argv) (elf_entry (slice 0 (Z.to_nat sizeof_elfhdr) file)))
  end.
Proof using begins walks ends old_space end_high data_place argv_bytes argv_short current.
  intros Helf o. subst o. unfold exec.
  assert (cwd_of cur (kst (FState sb ic t0) s) = Ok (Z.to_nat (p_cwd p - 1)) (kst (FState sb ic t0) s)) as E0.
  { unfold cwd_of, proc_at, mbind, M_bind, kst. cbn [ptable]. by rewrite current. }
  mstep E0. mstep (sys_fs_ok (tx t_begin_op) _ s _ _ (tx_ok t_begin_op sb ic _ _ _ begins)).
  pose proof (namei_ok sb ic t1 v ds _ cwdnum path walks) as Hn. pose proof walks as [Hfs0 Htree _ _ _ _ _].
  destruct (resolve _ _ _ _) as [k|] eqn:Ek.
  2: { destruct Hn as (ic1 & t2 & E1 & Hb1). mstep (sys_fs_ok _ _ s _ _ E1). destruct (end_op_ok ic1 t2 s Hb1) as (F & E2 & Hc). mstep E2.
       exists F, s. split; [done|]. split; [done|]. apply unharmed_refl. }
  destruct Hn as (ip & ic1 & t2 & E1 & Hho). mstep (sys_fs_ok _ _ s _ _ E1).
  pose proof (resolve_lives ic _ ds _ _ k Htree (start_lives _ _ _ _ _ _ _ _ walks) Ek) as Hlive. pose proof Hlive as (e & He & _). exists e. split; [done|].
  intros Hty Hsmall Hbytes. pose proof (lives_stays _ _ _ _ Hlive He) as Hst.
  destruct (visit _ _ _ _ _ _ _ _ e Hho He) as (ic2 & t3 & i & E2 & Hvi & Ed). mstep (sys_fs_ok _ _ s _ _ E2). subst e.
  pose proof (file_size ic2 t3 ip k i Hvi) as Hsz.
  destruct (readi_ok ip i 0 sizeof_elfhdr sb ic2 t3 v ds (file_at_ok ic2 t3 ip k i Hvi t3 (fr_rep (vi_fs _ _ _ _ _ _ _ _ _ Hvi))) Hty) as (t4 & E4 & Ht4); [done|done|].
  rewrite (proj2 (Z.ltb_ge _ _)) in E4 by lia. change (2 ^ 32 <=? 0 + sizeof_elfhdr) with false in E4. cbn [orb] in E4. rewrite Z.sub_0_r in E4.
  mstep (sys_fs_ok _ _ s _ _ E4). cbv zeta. cbn [fst snd]. unfold exec_image. rewrite length_fcontent. rewrite Z2Nat.id by done.
  pose proof (visits_at ic2 t3 ip k i Hvi t4 Ht4) as Hvi4.
  assert (refused_exec (exec_bad 0 (Some ip) (kst (FState sb ic2 t4) s))) as Hbad by (eapply bad_early; [done|done|apply unharmed_refl]).
  rewrite u32_small by (unfold sizeof_elfhdr; lia). destruct (Z.ltb_spec (d_size (i_d i)) sizeof_elfhdr) as [Hshort|Hlong].
  { rewrite (proj2 (Z.ltb_lt _ _)) by lia. done. }
  rewrite (proj2 (Z.ltb_ge _ _)), Z.min_l by lia. cbn [orb]. change (Z.to_nat 0) with 0%nat.
  rewrite splice_all by (rewrite length_slice; [done|rewrite length_fcontent; unfold sizeof_elfhdr in *; lia]).
  set (elf := slice 0 _ _). destruct (negb _); [done|].
  eapply load_ok; [exact Hvi|done|done|done|done|done|]. apply word_at_range. by apply Forall_take, Forall_drop.
Qed.
End program.
End call.
End exec.

(** ** An example

    The file f of the example of FsNames is a program with one segment of four
    bytes at address 0; it is run with the argument hi. *)
Module Example.
Import FsNames.Example.

#[export] Instance ex_linker : Linker := {
  ld_end := VmSpec.Example.ex_end;
  ld_data := VmSpec.Example.ex_data;
  ld_initcode := 0;
  ld_initcode_size := 0;
  ld_forkret := 0;
  ld_ticks := 0;
}.

Definition ex_elf : list Z :=
  concat (le_bytes 4 <$> [ELF_MAGIC; 0; 0; 0; 0; 0; 0; 52; 0; 0; 0; 1; 0] ++ [ELF_PROG_LOAD; 84; 0; 0; 4; 10; 0; 0]) ++ [184; 235; 254; 0].
Definition ex_hi : list Z := [104; 105].
Definition ex_prog : dinode := DInode T_FILE 0 0 1 88 (6 :: replicate 12 0).
Definition ex_ptree : gmap Z dinode := {[1 := ex_root; 2 := ex_a; 3 := ex_prog]}.
Definition ex_pblocks : gmap Z block :=
  <[2 := put_dinode 1 ex_root (put_dinode 2 ex_a (put_dinode 3 ex_prog (pad [])))]> (<[6 := pad ex_elf]> ex_dblocks).
Definition ex_pview (room : nat) : tview := TView ex_pblocks ∅ ∅ ∅ room ex_pblocks.
Definition ex_proc : proc :=
  Proc.Proc 4096 VmSpec.Example.ex_dir 0 RUNNING 1 None tf_zero (Context_ 0 0 0 0 0) NoChan 0 [] 1 [].

Lemma ex_walks : can_walk ex_dsb ex_cache (ex_pview 9) (ex_pview 9) ex_ptree 0 2 nf.
Proof.
  split; [split; [|done|done|..]| | |vm_compute; lia|by eexists|by eexists|].
  - split; [done|]. intros i b H. change (t_held (ex_pview 9)) with (∅ : gmap nat Z) in H. by rewrite lookup_empty in H.
  - apply fs_check_ok. vm_compute. reflexivity.
  - apply itable_check_ok. vm_compute. reflexivity.
  - destruct ex_cache_ok as [H1 H2 H3 H4]. split; [done| |done|].
    + intros ip i Hip Hi. destruct (ex_cache_inv ip i Hip Hi) as [-> ->]. split; [done|]. by eexists.
    + intros ip i Hip Hi. by destruct (ex_cache_inv ip i Hip Hi) as [-> ->].
  - intros inum d H. apply Z.eqb_neq, negb_true_iff. by apply (all_inodes_ok ex_ptree (λ _ d, negb (d_type d =? 0)) inum).
  - apply tree_check_ok. vm_compute. reflexivity.
  - intros ip i Hip Hi _. by destruct (ex_cache_inv ip i Hip Hi) as [-> ->].
  - apply (cw_path _ _ _ _ _ _ _ _ (ex_can_walk nf eq_refl)).
Qed.

Lemma exec_correct_witness :
  ∃ s d s' F k', exec 0 (replicate 52 0) nf [ex_hi] (kst [ex_proc] 2 None [] ∅ 0 (FState ex_dsb ex_cache (ex_pview 0)) s) = Ok 0 k' ∧
    k' = PState [new_proc ex_proc nf d 12288 0 12264] 2 None (Kern [] ∅ F s' 0) ∧
    ubyte (ram s') d 1 = Some 235 ∧ ubyte (ram s') d 12284 = Some 104 ∧ accessible (ram s') d 4096 = false.
Proof.
  destruct VmSpec.Example.ex_space as (s & Hu & _).
  pose proof (exec_correct VmSpec.Example.ex_end_high VmSpec.Example.ex_data_place [ex_proc] 2 None [] ∅ 0 0 ex_proc nf [ex_hi] s _ _ _ eq_refl Hu) as H.
  specialize (H ltac:(repeat constructor; by unfold byte_ok) ltac:(repeat constructor; by vm_compute) ex_dsb ex_cache (ex_pview 0) (ex_pview 9) (ex_pview 9) ex_ptree 2 eq_refl ex_walks
    ltac:(intros t [-> _]; by eexists) (replicate 52 0) eq_refl). cbv zeta in H.
  replace (resolve _ _ _ (names nf)) with (Some 3) in H by (vm_compute; reflexivity).
  destruct H as (e & [= <-] & H). specialize (H ltac:(done) ltac:(done)).
  set (file := content _ _) in H. assert (file = ex_elf) as Ef by (vm_compute; reflexivity). rewrite Ef in H. clear file Ef.
  specialize (H ltac:(apply (bool_decide_unpack _); vm_compute; exact I)).
  assert ((λ x : space * Z, (x.1.1, x.2, x.1.2 1, x.1.2 12284)) <$> exec_image ex_elf [ex_hi] = Some (12288, 12264, Some 235, Some 104)) as Ei by (vm_compute; reflexivity).
  unfold ran in H. destruct (exec_image ex_elf [ex_hi]) as [[[sz img] esp]|]; [|done]. cbn [fst snd fmap option_fmap option_map] in Ei, H. injection Ei as -> -> E1 E2.
  destruct H as [[Hlen _]|(F & k' & E & _ & d & s' & fl' & tabs' & ptes' & Ek & _ & Hby & Hacc & _)].
  { exfalso. rewrite ex_free_length in Hlen. unfold PGSIZE in Hlen. lia. }
  exists s, d, s', F, k'. split; [exact E|]. split; [rewrite Ek; reflexivity|]. rewrite !Hby by (unfold KERNBASE; lia). split; [done|]. split; [done|].
  rewrite Hacc by (cbn [fst]; lia). by vm_compute.
Defined.
End Example.
