(* ===== verification/Trap.v ===== *)
(** * The system call table and traps (syscall.c, syscall.h, trap.c) *)

From S2P Require Import Prelude Params Mem Mmu Kalloc Vm VmProofs Txn Fs File Proc Kernel Sysproc Sysfile Exec.

(** The system calls in the order of their numbers, from 1 on. *)
Inductive sysno :=
  | SYS_fork | SYS_exit | SYS_wait | SYS_pipe | SYS_read | SYS_kill | SYS_exec | SYS_fstat
  | SYS_chdir | SYS_dup | SYS_getpid | SYS_sbrk | SYS_sleep | SYS_uptime | SYS_open | SYS_write
  | SYS_mknod | SYS_unlink | SYS_link | SYS_mkdir | SYS_close.
Definition sysnos : list sysno :=
  [SYS_fork; SYS_exit; SYS_wait; SYS_pipe; SYS_read; SYS_kill; SYS_exec; SYS_fstat;
   SYS_chdir; SYS_dup; SYS_getpid; SYS_sbrk; SYS_sleep; SYS_uptime; SYS_open; SYS_write;
   SYS_mknod; SYS_unlink; SYS_link; SYS_mkdir; SYS_close].

(** num > 0 && num < NELEM(syscalls) && syscalls[num] *)
Definition sysno_of (num : Z) : option sysno := if 0 <? num then sysnos !! Z.to_nat (num - 1) else None.

(** The interrupt handlers of the devices. *)
Class Irq (E : Type) := {
  ideintr : M E unit;
  kbdintr : M E unit;
  uartintr : M E unit;
}.

(** How a trap ends: the interrupted code goes on, the process has exited, it
    has given up the processor, or it sleeps in a system call. *)
Inductive trapres := Resume | TExited | TYielded | TAsleep.

Section trap.
Context `{!Linker} {S : Type} `{!Txn S, !DevSw S, !Irq (kern S)}.
#[local] Abbreviation K := (M (kernel S)).

(** A system call that always returns. *)
Definition returns (m : K Z) : K sysres := z ← m; mret (Return z).

(** syscalls[num]() *)
Definition syscalls (elf0 : list Z) (num : sysno) (cur : nat) : K sysres :=
  match num with
  | SYS_fork => sys_fork cur
  | SYS_exit => sys_exit cur
  | SYS_wait => sys_wait cur
  | SYS_pipe => returns (sys_pipe cur)
  | SYS_read => returns (sys_read cur)
  | SYS_kill => sys_kill cur
  | SYS_exec => returns (sys_exec cur elf0)
  | SYS_fstat => returns (sys_fstat cur)
  | SYS_chdir => returns (sys_chdir cur)
  | SYS_dup => returns (sys_dup cur)
  | SYS_getpid => sys_getpid cur
  | SYS_sbrk => sys_sbrk cur
  | SYS_sleep => sys_sleep cur
  | SYS_uptime => sys_uptime cur
  | SYS_open => returns (sys_open cur)
  | SYS_write => returns (sys_write cur)
  | SYS_mknod => returns (sys_mknod cur)
  | SYS_unlink => returns (sys_unlink cur)
  | SYS_link => returns (sys_link cur)
  | SYS_mkdir => returns (sys_mkdir cur)
  | SYS_close => returns (sys_close cur)
  end.

Definition set_result (cur : nat) (z : Z) : K unit := upd cur (λ p, set_tf (set_eax (u32 z) (p_tf p)) p).

(** The message about an unknown number is not modelled. *)
Definition syscall (elf0 : list Z) (cur : nat) : K sysres :=
  p ← proc_at cur;
  match sysno_of (s32 (tf_eax (p_tf p))) with
  | Some num =>
      r ← syscalls elf0 num cur;
      (match r with Return z => set_result cur z | _ => mret tt end);;
      mret r
  | None => set_result cur (-1);; mret (Return (-1))
  end.

(** Whether [cur] has been killed; the null process has not. *)
Definition killed (cur : option nat) : K bool :=
  match cur with Some cur => killed_of cur | None => mret false end.

(** exit(), if there is a process. *)
Definition exit_opt (cur : option nat) : K trapres :=
  match cur with Some cur => exit cur;; mret TExited | None => mret Resume end.

(** if(proc && proc->killed && (tf->cs&3) == DPL_USER) exit(); *)
Definition trap_killed (cur : option nat) (tf : trapframe) : K trapres :=
  k ← killed cur;
  if k && (Z.land (tf_cs tf) 3 =? DPL_USER) then exit_opt cur else mret Resume.

Definition is_running (cur : option nat) : K bool :=
  match cur with
  | Some cur => p ← proc_at cur; mret (bool_decide (p_state p = RUNNING))
  | None => mret false
  end.

(** ticks++; wakeup(&ticks); *)
Definition tick : K unit :=
  on_env (λ k, Ok tt (Kern (k_ftable k) (k_pipes k) (k_fs k) (k_mem k) (u32 (k_ticks k + 1))));;
  wakeup (Chan ld_ticks).

(** The switch.  lapiceoi() and the messages are not modelled. *)
Definition trap_switch (cpunum : Z) (cur : option nat) (tf : trapframe) : K unit :=
  let no := tf_trapno tf in
  if no =? T_IRQ0 + IRQ_TIMER then if cpunum =? 0 then tick else mret tt
  else if no =? T_IRQ0 + IRQ_IDE then on_env ideintr
  else if no =? T_IRQ0 + IRQ_IDE + 1 then mret tt
  else if no =? T_IRQ0 + IRQ_KBD then on_env kbdintr
  else if no =? T_IRQ0 + IRQ_COM1 then on_env uartintr
  else if (no =? T_IRQ0 + 7) || (no =? T_IRQ0 + IRQ_SPURIOUS) then mret tt
  else
    match cur with
    | Some i => if Z.land (tf_cs tf) 3 =? 0 then panic "trap" else upd i (set_killed 1)
    | None => panic "trap"
    end.

Definition trap_syscall (elf0 : list Z) (cur : nat) (tf : trapframe) : K trapres :=
  k ← killed_of cur;
  if (k : bool) then exit cur;; mret TExited
  else
    upd cur (set_tf tf);;
    r ← syscall elf0 cur;
    match r with
    | Asleep => mret TAsleep
    | Exited => mret TExited
    | Return _ =>
        k ← killed_of cur;
        if (k : bool) then exit cur;; mret TExited else mret Resume
    end.

(** trap() up to its return or to the call of yield, after which
    [trap_killed] is what is left. *)
Definition trap (elf0 : list Z) (cpunum : Z) (cur : option nat) (tf : trapframe) : K trapres :=
  if tf_trapno tf =? T_SYSCALL then
    match cur with Some cur => trap_syscall elf0 cur tf | None => fault end
  else
    trap_switch cpunum cur tf;;
    r ← trap_killed cur tf;
    match r with
    | Resume =>
        run ← is_running cur;
        if run && (tf_trapno tf =? T_IRQ0 + IRQ_TIMER) then
          (match cur with Some cur => yield cur | None => mret tt end);;
          mret TYielded
        else trap_killed cur tf
    | _ => mret r
    end.
End trap.
