(* ===== verification/Spinlock.v ===== *)
(** * Spin locks (spinlock.c, spinlock.h, and the cpu state of proc.h)

    Every processor runs acquire and release in the pieces between which
    other processors can act; [lstep] interleaves them over any number of
    locks.  The theorems hold for every
    interleaving. *)

From S2P Require Import Prelude Params Mem Mmu.

(** The fields of a struct cpu that the locks use, and FL_IF of its eflags. *)
Record cpu := Cpu { c_if : bool; c_ncli : Z; c_intena : bool }.

(** [lk_cpu] is the index of the processor, [None] the null pointer. *)
Record spinlock := Spinlock { locked : Z; lk_name : string; lk_cpu : option nat; lk_pcs : list Z }.

Record lkstate := LkState { locks : list spinlock; cpus : list cpu }.

#[export] Instance spinlock_eq_dec : EqDecision spinlock.
Proof. solve_decision. Defined.

(** The lock that initlock leaves. *)
Definition initlock (name : string) (lk : spinlock) : spinlock := Spinlock 0 name None (lk_pcs lk).

(** ** The operations of processor [i] on lock [l] *)

Definition cpu_at (i : nat) : M lkstate cpu := λ s, match cpus s !! i with Some c => Ok c s | None => Fault end.
Definition lock_at (l : nat) : M lkstate spinlock := λ s, match locks s !! l with Some k => Ok k s | None => Fault end.
Definition set_cpu (i : nat) (c : cpu) : M lkstate unit := modify (λ s, LkState (locks s) (<[i := c]> (cpus s))).
Definition set_lock (l : nat) (k : spinlock) : M lkstate unit := modify (λ s, LkState (<[l := k]> (locks s)) (cpus s)).

Definition pushcli (i : nat) : M lkstate unit :=
  c ← cpu_at i;
  set_cpu i (Cpu false (c_ncli c + 1) (if c_ncli c =? 0 then c_if c else c_intena c)).

Definition popcli (i : nat) : M lkstate unit :=
  c ← cpu_at i;
  if c_if c then panic "popcli - interruptible"
  else
    let n := c_ncli c - 1 in
    if n <? 0 then panic "popcli"
    else set_cpu i (Cpu ((n =? 0) && c_intena c) n (c_intena c)).

Definition holding (i : nat) (k : spinlock) : bool := negb (locked k =? 0) && bool_decide (lk_cpu k = Some i).

(** xchg(&lk->locked, newval): the old value *)
Definition xchg_locked (l : nat) (newval : Z) : M lkstate Z :=
  k ← lock_at l;
  set_lock l (Spinlock newval (lk_name k) (lk_cpu k) (lk_pcs k));;
  mret (locked k).

(** The loop over the %ebp chain, [n] entries left. *)
Fixpoint getcallerpcs_loop (n : nat) (ebp : Z) : M mem (list Z) :=
  match n with
  | O => mret []
  | S n =>
      if (ebp =? 0) || (ebp <? KERNBASE) || (ebp =? 0xffffffff) then mret (replicate (S n) 0)
      else
        eip ← load32 (u32 (ebp + 4));
        next ← load32 ebp;
        pcs ← getcallerpcs_loop n next;
        mret (eip :: pcs)
  end.

Definition getcallerpcs (v : Z) : M mem (list Z) := getcallerpcs_loop 10 (u32 (v - 8)).

(** acquire() up to its loop *)
Definition acquire_enter (i l : nat) : M lkstate unit :=
  pushcli i;;
  k ← lock_at l;
  if holding i k then panic "acquire" else mret tt.

(** One turn of the loop: true if the lock is taken. *)
Definition acquire_try (i l : nat) : M lkstate bool := x ← xchg_locked l 1; mret (x =? 0).

(** The rest of acquire; [pcs] is what getcallerpcs finds. *)
Definition acquire_done (i l : nat) (pcs : list Z) : M lkstate unit :=
  k ← lock_at l; set_lock l (Spinlock (locked k) (lk_name k) (Some i) pcs).

Fixpoint acquire_spin (fuel : nat) (i l : nat) : M lkstate unit :=
  match fuel with
  | O => nofuel
  | S fuel => got ← acquire_try i l; if (got : bool) then mret tt else acquire_spin fuel i l
  end.

(** acquire() of a processor that is alone for [fuel] turns of the loop. *)
Definition acquire (fuel : nat) (i l : nat) (pcs : list Z) : M lkstate unit :=
  acquire_enter i l;; acquire_spin fuel i l;; acquire_done i l pcs.

(** release() up to the store to [locked], that store, and the rest *)
Definition release_enter (i l : nat) : M lkstate unit :=
  k ← lock_at l;
  if negb (holding i k) then panic "release"
  else set_lock l (Spinlock (locked k) (lk_name k) None (<[0%nat := 0]> (lk_pcs k))).

Definition release_store (l : nat) : M lkstate unit :=
  k ← lock_at l; set_lock l (Spinlock 0 (lk_name k) (lk_cpu k) (lk_pcs k)).

Definition release (i l : nat) : M lkstate unit := release_enter i l;; release_store l;; popcli i.

(** ** Interleavings *)

(** Where a processor is: in no operation, in the loop of acquire, behind it,
    between the stores of release, or before the popcli of release. *)
Inductive pc := Run | Spin (l : nat) | Won (l : nat) | Rel (l : nat) | Pop (l : nat).

(** [th_held] are the locks whose acquire has returned. *)
Record thr := Thr { th_pc : pc; th_held : list nat }.

Record lconf := LConf { lc_st : lkstate; lc_thr : list thr }.

Definition move (i : nat) (p : pc) (held : list nat) (s : lkstate) (c : lconf) : lconf :=
  LConf s (<[i := Thr p held]> (lc_thr c)).

Inductive lstep : lconf → lconf → Prop :=
  | step_enter c i l held s :
      lc_thr c !! i = Some (Thr Run held) → acquire_enter i l (lc_st c) = Ok tt s →
      lstep c (move i (Spin l) held s c)
  | step_spin c i l held s :
      lc_thr c !! i = Some (Thr (Spin l) held) → acquire_try i l (lc_st c) = Ok false s →
      lstep c (move i (Spin l) held s c)
  | step_win c i l held s :
      lc_thr c !! i = Some (Thr (Spin l) held) → acquire_try i l (lc_st c) = Ok true s →
      lstep c (move i (Won l) held s c)
  | step_done c i l held pcs s :
      lc_thr c !! i = Some (Thr (Won l) held) → acquire_done i l pcs (lc_st c) = Ok tt s →
      lstep c (move i Run (l :: held) s c)
  | step_release c i l held s :
      lc_thr c !! i = Some (Thr Run held) → l ∈ held → release_enter i l (lc_st c) = Ok tt s →
      lstep c (move i (Rel l) (filter (λ x, x ≠ l) held) s c)
  | step_store c i l held s :
      lc_thr c !! i = Some (Thr (Rel l) held) → release_store l (lc_st c) = Ok tt s →
      lstep c (move i (Pop l) held s c)
  | step_pop c i l held s :
      lc_thr c !! i = Some (Thr (Pop l) held) → popcli i (lc_st c) = Ok tt s →
      lstep c (move i Run held s c)
  (** sti() and cli() outside critical sections *)
  | step_flag c i k b :
      lc_thr c !! i = Some (Thr Run []) → cpus (lc_st c) !! i = Some k →
      lstep c (LConf (LkState (locks (lc_st c)) (<[i := Cpu b (c_ncli k) (c_intena k)]> (cpus (lc_st c)))) (lc_thr c)).

Definition linitial (c : lconf) : Prop :=
  Forall (λ k, locked k = 0 ∧ lk_cpu k = None) (locks (lc_st c)) ∧
  Forall (λ k, c_ncli k = 0) (cpus (lc_st c)) ∧
  length (lc_thr c) = length (cpus (lc_st c)) ∧ Forall (λ t, t = Thr Run []) (lc_thr c).

Definition lreachable (c : lconf) : Prop := ∃ c0, linitial c0 ∧ rtc lstep c0 c.

(** ** Mutual exclusion *)

(** A thread owns a lock from the xchg that takes it to the store that frees
    it, and is marked in it in between. *)
Definition owns (t : thr) (l : nat) : Prop := l ∈ th_held t ∨ th_pc t = Won l ∨ th_pc t = Rel l.

Definition busy_cli (p : pc) : Z := match p with Run => 0 | _ => 1 end.

(** What the state of lock [l] says about the threads. *)
Definition lock_ok (ts : list thr) (l : nat) (k : spinlock) : Prop :=
  (locked k = 0 ∧ lk_cpu k = None ∧ ∀ i t, ts !! i = Some t → ¬ owns t l) ∨
  (locked k = 1 ∧ ∃ i t, ts !! i = Some t ∧ owns t l ∧
     lk_cpu k = if decide (l ∈ th_held t) then Some i else None).

Definition cli_ok (t : thr) (k : cpu) : Prop :=
  c_ncli k = Z.of_nat (length (th_held t)) + busy_cli (th_pc t) ∧ (0 < c_ncli k → c_if k = false).

Definition thr_ok (t : thr) : Prop :=
  NoDup (th_held t) ∧ ∀ l, th_pc t = Won l ∨ th_pc t = Rel l → l ∉ th_held t.

Record linv (c : lconf) : Prop := LInv {
  li_len : length (lc_thr c) = length (cpus (lc_st c));
  li_one i j l t u : lc_thr c !! i = Some t → lc_thr c !! j = Some u → owns t l → owns u l → i = j;
  li_thr i t : lc_thr c !! i = Some t → thr_ok t;
  li_lock l k : locks (lc_st c) !! l = Some k → lock_ok (lc_thr c) l k;
  li_cli i t k : lc_thr c !! i = Some t → cpus (lc_st c) !! i = Some k → cli_ok t k;
}.

(** *** The operations in explicit form *)

Lemma acquire_enter_inv i l s s' :
  acquire_enter i l s = Ok tt s' →
  ∃ c k, cpus s !! i = Some c ∧ locks s !! l = Some k ∧ holding i k = false ∧
    s' = LkState (locks s)
      (<[i := Cpu false (c_ncli c + 1) (if c_ncli c =? 0 then c_if c else c_intena c)]> (cpus s)).
Proof.
  unfold acquire_enter, pushcli, cpu_at, lock_at, set_cpu, mbind, M_bind, modify.
  destruct (cpus s !! i) as [c|] eqn:Ec; [|done]. cbn [locks cpus].
  destruct (locks s !! l) as [k|] eqn:Ek; [|done].
  destruct (holding i k) eqn:E; [done|]. intros [= <-]. eauto 10.
Qed.

Lemma acquire_try_inv i l b s s' :
  acquire_try i l s = Ok b s' →
  ∃ k, locks s !! l = Some k ∧ b = (locked k =? 0) ∧
    s' = LkState (<[l := Spinlock 1 (lk_name k) (lk_cpu k) (lk_pcs k)]> (locks s)) (cpus s).
Proof.
  unfold acquire_try, xchg_locked, lock_at, set_lock, mbind, M_bind, modify.
  destruct (locks s !! l) as [k|] eqn:Ek; [|done]. intros [= <- <-]. eauto.
Qed.

Lemma acquire_done_inv i l pcs s s' :
  acquire_done i l pcs s = Ok tt s' →
  ∃ k, locks s !! l = Some k ∧
    s' = LkState (<[l := Spinlock (locked k) (lk_name k) (Some i) pcs]> (locks s)) (cpus s).
Proof.
  unfold acquire_done, lock_at, set_lock, mbind, M_bind, modify.
  destruct (locks s !! l) as [k|] eqn:Ek; [|done]. intros [= <-]. eauto.
Qed.

Lemma release_enter_inv i l s s' :
  release_enter i l s = Ok tt s' →
  ∃ k, locks s !! l = Some k ∧ holding i k = true ∧
    s' = LkState (<[l := Spinlock (locked k) (lk_name k) None (<[0%nat := 0]> (lk_pcs k))]> (locks s)) (cpus s).
Proof.
  unfold release_enter, lock_at, set_lock, mbind, M_bind, modify.
  destruct (locks s !! l) as [k|] eqn:Ek; [|done].
  destruct (holding i k) eqn:E; [|done]. intros [= <-]. eauto.
Qed.

Lemma release_store_inv l s s' :
  release_store l s = Ok tt s' →
  ∃ k, locks s !! l = Some k ∧
    s' = LkState (<[l := Spinlock 0 (lk_name k) (lk_cpu k) (lk_pcs k)]> (locks s)) (cpus s).
Proof.
  unfold release_store, lock_at, set_lock, mbind, M_bind, modify.
  destruct (locks s !! l) as [k|] eqn:Ek; [|done]. intros [= <-]. eauto.
Qed.

Lemma popcli_inv i s s' :
  popcli i s = Ok tt s' →
  ∃ c, cpus s !! i = Some c ∧ c_if c = false ∧
    s' = LkState (locks s)
      (<[i := Cpu ((c_ncli c - 1 =? 0) && c_intena c) (c_ncli c - 1) (c_intena c)]> (cpus s)).
Proof.
  unfold popcli, cpu_at, set_cpu, mbind, M_bind, modify.
  destruct (cpus s !! i) as [c|] eqn:Ec; [|done]. destruct (c_if c) eqn:Ei; [done|].
  destruct (_ <? 0); [done|]. intros [= <-]. eauto.
Qed.

(** *** The invariant *)

(** A thread whose relation to lock [l] does not change. *)
Lemma lock_ok_move ts i t t' l k :
  ts !! i = Some t → lock_ok ts l k →
  (owns t' l ↔ owns t l) → (l ∈ th_held t' ↔ l ∈ th_held t) → lock_ok (<[i := t']> ts) l k.
Proof.
  intros Hi Hk Ho Hh. destruct Hk as [(H0 & Hc & Hn)|(H1 & j & u & Hj & Hu & Hc)].
  - left. split; [done|]. split; [done|]. intros j u Hj. destruct (decide (j = i)) as [->|].
    + rewrite list_lookup_insert_eq in Hj by (by eapply lookup_lt_Some). simplify_eq. rewrite Ho. eauto.
    + rewrite list_lookup_insert_ne in Hj by done. eauto.
  - right. split; [done|]. destruct (decide (j = i)) as [->|].
    + simplify_eq. exists i, t'. rewrite list_lookup_insert_eq by (by eapply lookup_lt_Some).
      split; [done|]. rewrite Ho. split; [done|]. rewrite Hc. by apply decide_ext.
    + exists j, u. rewrite list_lookup_insert_ne by done. eauto.
Qed.

(** A lock that thread [i] owns, seen from its state. *)
Lemma lock_ok_own ts i t l k :
  (∀ i j l t u, ts !! i = Some t → ts !! j = Some u → owns t l → owns u l → i = j) →
  ts !! i = Some t → owns t l → lock_ok ts l k →
  locked k = 1 ∧ lk_cpu k = if decide (l ∈ th_held t) then Some i else None.
Proof.
  intros H1 Hi Ho [(_ & _ & Hn)|(Hl & j & u & Hj & Hu & Hc)]; [by destruct (Hn i t)|].
  assert (j = i) as -> by (by eapply H1). by simplify_eq.
Qed.

Lemma linv_move c i t t' ls k k' :
  linv c → lc_thr c !! i = Some t → cpus (lc_st c) !! i = Some k → cli_ok t' k' → thr_ok t' →
  (∀ l, owns t' l → owns t l ∨ ∀ j u, lc_thr c !! j = Some u → ¬ owns u l) →
  (∀ l kl, ls !! l = Some kl → lock_ok (<[i := t']> (lc_thr c)) l kl) →
  linv (LConf (LkState ls (<[i := k']> (cpus (lc_st c)))) (<[i := t']> (lc_thr c))).
Proof.
  intros [Hlen Hone Hthr Hlk Hcli] Hi Hk Hck Htk Ho Hls.
  pose proof (lookup_lt_Some _ _ _ Hi) as Hlt. pose proof (lookup_lt_Some _ _ _ Hk) as Hlt'.
  split; cbn [lc_st lc_thr locks cpus].
  - by rewrite !length_insert.
  - intros a b l u v Ha Hb Hu Hv. apply list_lookup_insert_Some in Ha as [(<- & <- & _)|[Hai Ha]];
      apply list_lookup_insert_Some in Hb as [(<- & <- & _)|[Hbi Hb]]; [done| | |by eapply Hone].
    + destruct (Ho _ Hu) as [Hu'|Hn]; [by eapply Hone|by destruct (Hn _ _ Hb)].
    + destruct (Ho _ Hv) as [Hv'|Hn]; [by eapply Hone|by destruct (Hn _ _ Ha)].
  - intros a u Ha. apply list_lookup_insert_Some in Ha as [(<- & <- & _)|[Hai Ha]]; eauto.
  - done.
  - intros a u v Ha Hv. apply list_lookup_insert_Some in Ha as [(<- & <- & _)|[Hai Ha]].
    + rewrite list_lookup_insert_eq in Hv by done. by simplify_eq.
    + rewrite list_lookup_insert_ne in Hv by done. eauto.
Qed.

Lemma cpus_id (s : lkstate) i k : cpus s !! i = Some k → <[i := k]> (cpus s) = cpus s.
Proof. apply list_insert_id. Qed.

Lemma linv_cpu c i t : linv c → lc_thr c !! i = Some t → ∃ k, cpus (lc_st c) !! i = Some k ∧ cli_ok t k.
Proof.
  intros Hc Hi. pose proof (lookup_lt_Some _ _ _ Hi) as Hlt. rewrite (li_len _ Hc) in Hlt.
  apply lookup_lt_is_Some in Hlt as [k Hk]. exists k. split; [done|]. by eapply li_cli.
Qed.

Lemma owns_run p held l : (∀ l', p ≠ Won l' ∧ p ≠ Rel l') → owns (Thr p held) l ↔ l ∈ held.
Proof. intros Hp. unfold owns. cbn. destruct (Hp l). naive_solver. Qed.

Lemma length_filter_ne (l : nat) held :
  NoDup held → l ∈ held → length held = S (length (filter (λ x, x ≠ l) held)).
Proof.
  induction 1 as [|x held Hx Hnd IH]; [by intros ?%elem_of_nil|]. rewrite filter_cons.
  intros [->|Hl]%elem_of_cons.
  - rewrite decide_False by (intros H; by apply H). cbn [length]. f_equal.
    clear -Hx. induction held as [|y held IH]; [done|]. apply not_elem_of_cons in Hx as [Hy Hx].
    rewrite filter_cons, decide_True by congruence. cbn [length]. by rewrite <- IH.
  - rewrite decide_True by (intros ->; done). cbn [length]. f_equal. by apply IH.
Qed.

(** Steps that change no lock. *)
Lemma linv_quiet c i p p' held k k' :
  linv c → lc_thr c !! i = Some (Thr p held) → cpus (lc_st c) !! i = Some k → cli_ok (Thr p' held) k' →
  (∀ l', p ≠ Won l' ∧ p ≠ Rel l') → (∀ l', p' ≠ Won l' ∧ p' ≠ Rel l') →
  linv (LConf (LkState (locks (lc_st c)) (<[i := k']> (cpus (lc_st c)))) (<[i := Thr p' held]> (lc_thr c))).
Proof.
  intros Hc Hi Hk Hck Hp Hp'. destruct (li_thr _ Hc _ _ Hi) as [Hnd _].
  eapply linv_move; try done.
  - split; [done|]. intros l [E|E]; cbn in E; by destruct (Hp' l).
  - intros l. rewrite !owns_run by done. by left.
  - intros l kl Hl. eapply lock_ok_move; [done|by apply (li_lock _ Hc)| |done]. by rewrite !owns_run.
Qed.

Lemma linv_enter c i l held s :
  linv c → lc_thr c !! i = Some (Thr Run held) → acquire_enter i l (lc_st c) = Ok tt s →
  linv (move i (Spin l) held s c).
Proof.
  intros Hc Hi (k & kl & Hk & _ & _ & ->)%acquire_enter_inv.
  eapply linv_quiet; try done. destruct (li_cli _ Hc _ _ _ Hi Hk) as [E _]. cbn in E.
  split; cbn; [lia|done].
Qed.

Lemma linv_pop c i l held s :
  linv c → lc_thr c !! i = Some (Thr (Pop l) held) → popcli i (lc_st c) = Ok tt s →
  linv (move i Run held s c).
Proof.
  intros Hc Hi (k & Hk & Hif & ->)%popcli_inv.
  eapply linv_quiet; try done. destruct (li_cli _ Hc _ _ _ Hi Hk) as [E _]. cbn in E.
  split; cbn; [lia|]. intros Hpos. by rewrite (proj2 (Z.eqb_neq _ 0)) by lia.
Qed.

Lemma linv_flag c i k b :
  linv c → lc_thr c !! i = Some (Thr Run []) → cpus (lc_st c) !! i = Some k →
  linv (LConf (LkState (locks (lc_st c)) (<[i := Cpu b (c_ncli k) (c_intena k)]> (cpus (lc_st c)))) (lc_thr c)).
Proof.
  intros Hc Hi Hk. rewrite <- (list_insert_id (lc_thr c) i (Thr Run [])) by done.
  eapply linv_quiet; try done. destruct (li_cli _ Hc _ _ _ Hi Hk) as [E _]. cbn in E.
  split; cbn; lia.
Qed.

(** Steps that change lock [l] only. *)
Lemma linv_lock c i t t' l kl :
  linv c → lc_thr c !! i = Some t → thr_ok t' →
  Z.of_nat (length (th_held t')) + busy_cli (th_pc t') = Z.of_nat (length (th_held t)) + busy_cli (th_pc t) →
  (∀ l', l' ≠ l → (owns t' l' ↔ owns t l') ∧ (l' ∈ th_held t' ↔ l' ∈ th_held t)) →
  (owns t' l → owns t l ∨ ∀ j u, lc_thr c !! j = Some u → ¬ owns u l) →
  lock_ok (<[i := t']> (lc_thr c)) l kl →
  linv (move i (th_pc t') (th_held t') (LkState (<[l := kl]> (locks (lc_st c))) (cpus (lc_st c))) c).
Proof.
  intros Hc Hi Ht Hn Hother Hl Hkl. destruct (linv_cpu _ _ _ Hc Hi) as (k & Hk & [Hk1 Hk2]).
  unfold move. rewrite <- (cpus_id _ _ _ Hk). destruct t' as [p' h'].
  eapply linv_move; [done|exact Hi|exact Hk| |done| |].
  - split; [cbn in *; lia|done].
  - intros l' Hl'. destruct (decide (l' = l)) as [->|Hne]; [by apply Hl|]. left. by apply (Hother l').
  - intros l' k' [(<- & <- & _)|[Hne Hl']]%list_lookup_insert_Some; [done|].
    eapply lock_ok_move; [exact Hi|by apply (li_lock _ Hc)|apply Hother; congruence..].
Qed.

Lemma linv_try c i l held b s :
  linv c → lc_thr c !! i = Some (Thr (Spin l) held) → acquire_try i l (lc_st c) = Ok b s →
  linv (move i (if b then Won l else Spin l) held s c).
Proof.
  intros Hc Hi (k & Hk & -> & ->)%acquire_try_inv. destruct (li_thr _ Hc _ _ Hi) as [Hnd _].
  pose proof (lookup_lt_Some _ _ _ Hi) as Hlt. cbn in Hnd.
  destruct (li_lock _ Hc _ _ Hk) as [(-> & Hcpu & Hn)|(E & i' & t & Hi' & Ho & Hcpu)]; cbn [Z.eqb].
  - assert (l ∉ held) as Hnl by (intros Hl; apply (Hn _ _ Hi); by left).
    apply (linv_lock c i _ (Thr (Won l) held) l _ Hc Hi); cbn; try done.
    + split; [done|]. intros l' [[= ->]|?]; done.
    + intros l' Hne. rewrite (owns_run (Spin l)) by done. unfold owns. cbn. naive_solver.
    + by right.
    + right. cbn. split; [done|]. exists i, (Thr (Won l) held). rewrite list_lookup_insert_eq by done.
      split; [done|]. split; [by right; left|]. cbn. by rewrite decide_False.
  - rewrite E. cbn. apply (linv_lock c i _ (Thr (Spin l) held) l _ Hc Hi); cbn; try done.
    + by apply (li_thr _ Hc _ _ Hi).
    + by left.
    + rewrite list_insert_id by done. right. cbn. eauto 10.
Qed.

Lemma linv_done c i l held pcs s :
  linv c → lc_thr c !! i = Some (Thr (Won l) held) → acquire_done i l pcs (lc_st c) = Ok tt s →
  linv (move i Run (l :: held) s c).
Proof.
  intros Hc Hi (k & Hk & ->)%acquire_done_inv. destruct (li_thr _ Hc _ _ Hi) as [Hnd Hmid].
  assert (l ∉ held) as Hnl by (apply Hmid; by left). cbn in Hnd.
  assert (owns (Thr (Won l) held) l) as Ho by (by right; left).
  destruct (lock_ok_own _ _ _ _ _ (li_one _ Hc) Hi Ho (li_lock _ Hc _ _ Hk)) as [E _].
  apply (linv_lock c i _ (Thr Run (l :: held)) l _ Hc Hi); cbn.
  - split; cbn; [by constructor|]. by intros ? [?|?].
  - lia.
  - intros l' Hne. rewrite owns_run by done. rewrite elem_of_cons. unfold owns. cbn. naive_solver.
  - by left.
  - right. split; [done|]. exists i, (Thr Run (l :: held)).
    rewrite list_lookup_insert_eq by (by eapply lookup_lt_Some). cbn.
    assert (l ∈ l :: held) by apply elem_of_cons, or_introl, eq_refl.
    rewrite decide_True by done. split; [done|]. split; [by left|done].
Qed.

Lemma linv_release c i l held s :
  linv c → lc_thr c !! i = Some (Thr Run held) → l ∈ held → release_enter i l (lc_st c) = Ok tt s →
  linv (move i (Rel l) (filter (λ x, x ≠ l) held) s c).
Proof.
  intros Hc Hi Hl (k & Hk & _ & ->)%release_enter_inv. destruct (li_thr _ Hc _ _ Hi) as [Hnd _]. cbn in Hnd.
  destruct (lock_ok_own _ _ _ _ _ (li_one _ Hc) Hi (or_introl Hl) (li_lock _ Hc _ _ Hk)) as [E _].
  set (t' := Thr (Rel l) (filter (λ x, x ≠ l) held)).
  assert (l ∉ th_held t') as Hnl by (cbn; rewrite list_elem_of_filter; naive_solver).
  apply (linv_lock c i _ t' l _ Hc Hi).
  - split; cbn; [by apply NoDup_filter|]. by intros l' [?|[= <-]].
  - cbn. rewrite (length_filter_ne l held) by done. lia.
  - intros l' Hne. unfold owns. cbn. rewrite list_elem_of_filter. naive_solver.
  - intros _. left. by left.
  - right. cbn. split; [done|]. exists i, t'. rewrite list_lookup_insert_eq by (by eapply lookup_lt_Some).
    split; [done|]. split; [by right; right|]. by rewrite decide_False.
Qed.

Lemma linv_store c i l held s :
  linv c → lc_thr c !! i = Some (Thr (Rel l) held) → release_store l (lc_st c) = Ok tt s →
  linv (move i (Pop l) held s c).
Proof.
  intros Hc Hi (k & Hk & ->)%release_store_inv. destruct (li_thr _ Hc _ _ Hi) as [Hnd Hmid]. cbn in Hnd.
  assert (l ∉ held) as Hnl by (apply Hmid; by right).
  assert (owns (Thr (Rel l) held) l) as Ho by (by right; right).
  destruct (lock_ok_own _ _ _ _ _ (li_one _ Hc) Hi Ho (li_lock _ Hc _ _ Hk)) as [_ Hcpu].
  cbn in Hcpu. rewrite decide_False in Hcpu by done.
  apply (linv_lock c i _ (Thr (Pop l) held) l _ Hc Hi); cbn; try done.
  - split; cbn; [done|]. by intros ? [?|?].
  - intros l' Hne. rewrite owns_run by done. unfold owns. cbn. naive_solver.
  - by left.
  - left. cbn. split; [done|]. split; [done|]. intros j u Hj Hu.
    apply list_lookup_insert_Some in Hj as [(<- & <- & _)|[Hne Hj]].
    + by apply owns_run in Hu.
    + by apply Hne, (li_one _ Hc i j l _ _ Hi Hj).
Qed.

Lemma linv_initial c : linitial c → linv c.
Proof.
  intros (Hl & Hk & Hlen & Ht). rewrite Forall_lookup in Hl; rewrite Forall_lookup in Hk; rewrite Forall_lookup in Ht.
  assert (∀ i t l, lc_thr c !! i = Some t → ¬ owns t l) as Hno.
  { intros i t l Hi. rewrite (Ht _ _ Hi). unfold owns. cbn. rewrite elem_of_nil. naive_solver. }
  split; [done| | | |].
  - intros i j l t u Hi _ Hto. by destruct (Hno _ _ _ Hi Hto).
  - intros i t Hi. rewrite (Ht _ _ Hi). split; cbn; [constructor|]. by intros ? [?|?].
  - intros l k Hlk. destruct (Hl _ _ Hlk). left. eauto.
  - intros i t k Hi Hki. rewrite (Ht _ _ Hi). unfold cli_ok. rewrite (Hk _ _ Hki). cbn. lia.
Qed.

Lemma linv_step c c' : linv c → lstep c c' → linv c'.
Proof.
  intros Hc Hs. inversion Hs; subst.
  - by apply linv_enter.
  - by apply (linv_try c i l held false).
  - by apply (linv_try c i l held true).
  - by eapply linv_done.
  - by apply linv_release.
  - by apply linv_store.
  - by eapply linv_pop.
  - by apply linv_flag.
Qed.

Lemma linv_reachable c : lreachable c → linv c.
Proof.
  intros (c0 & H0 & Hs). apply linv_initial in H0. induction Hs as [|c0 c1 c2 H1 _ IH]; [done|].
  eapply IH, linv_step; done.
Qed.

(** A processor sees correctly which locks it holds. *)
Lemma linv_holding c i t l k :
  linv c → lc_thr c !! i = Some t → locks (lc_st c) !! l = Some k →
  holding i k = bool_decide (l ∈ th_held t).
Proof.
  intros Hc Hi Hk. unfold holding.
  destruct (li_lock _ Hc _ _ Hk) as [(-> & _ & Hn)|(-> & j & u & Hj & Ho & ->)]; cbn.
  - symmetry. apply bool_decide_eq_false. intros Hl. apply (Hn _ _ Hi). by left.
  - apply bool_decide_ext. destruct (decide (l ∈ th_held u)).
    + split; [intros [= ->]; by simplify_eq|]. intros Hl. f_equal.
      eapply (li_one _ Hc); [exact Hj|exact Hi|done|by left].
    + split; [done|]. intros Hl.
      assert (j = i) as -> by (eapply (li_one _ Hc); [exact Hj|exact Hi|done|by left]). by simplify_eq.
Qed.

(** C29: In every interleaving of the processors, at most one of them is
    between the xchg that takes a lock and the store that frees it, and that
    processor has interrupts disabled. *)
Theorem spinlock_mutex c i j l t u k :
  lreachable c → lc_thr c !! i = Some t → lc_thr c !! j = Some u → owns t l → owns u l →
  cpus (lc_st c) !! i = Some k → i = j ∧ c_if k = false.
Proof.
  intros Hc%linv_reachable Hi Hj Ht Hu Hk. split; [by eapply (li_one _ Hc)|].
  destruct (li_cli _ Hc _ _ _ Hi Hk) as [E Hif]. apply Hif. rewrite E.
  destruct Ht as [Hl|[-> | ->]]; cbn; [|lia..].
  destruct (th_held t); [by apply elem_of_nil in Hl|]. cbn. destruct (th_pc t); cbn; lia.
Qed.

(** acquire panics exactly when the processor holds the lock already,
    release exactly when it does not hold it, and the popcli that ends a
    release never does. *)
Theorem spinlock_checks c i l held p k :
  lreachable c → lc_thr c !! i = Some (Thr p held) → locks (lc_st c) !! l = Some k →
  (∃ s, acquire_enter i l (lc_st c) = if decide (l ∈ held) then Panic "acquire" else Ok tt s) ∧
  (∃ s, release_enter i l (lc_st c) = if decide (l ∈ held) then Ok tt s else Panic "release") ∧
  (p = Pop l → ∃ s, popcli i (lc_st c) = Ok tt s).
Proof.
  intros Hc%linv_reachable Hi Hk.
  pose proof (linv_holding _ _ _ _ _ Hc Hi Hk) as Hh. cbn in Hh.
  destruct (linv_cpu _ _ _ Hc Hi) as (x & Hx & [En Eif]). cbn in En.
  unfold acquire_enter, release_enter, pushcli, popcli, cpu_at, lock_at, set_cpu, set_lock, mbind, M_bind, modify.
  rewrite Hx, Hk. cbn [locks cpus]. rewrite Hk, Hh. split; [|split].
  - destruct (decide (l ∈ held)); [exists (lc_st c)|]; rewrite ?bool_decide_true, ?bool_decide_false by done; [done|by eexists].
  - destruct (decide (l ∈ held)); [|exists (lc_st c)]; rewrite ?bool_decide_true, ?bool_decide_false by done; [by eexists|done].
  - intros ->. cbn in En. rewrite Eif by lia. rewrite (proj2 (Z.ltb_ge _ 0)) by lia. by eexists.
Qed.

Module Example.
Definition ex_lock : spinlock := Spinlock 0 "ex" None [].
Definition ex_locks : lconf := LConf (LkState [ex_lock] [Cpu true 0 false; Cpu true 0 false]) [Thr Run []; Thr Run []].

(** Processor 0 has taken the lock and processor 1 spins. *)
Definition ex_taken : lconf :=
  LConf (LkState [Spinlock 1 "ex" (Some 0%nat) []] [Cpu false 1 true; Cpu false 1 true]) [Thr Run [0%nat]; Thr (Spin 0) []].

Lemma ex_taken_reachable : lreachable ex_taken.
Proof.
  exists ex_locks. split; [repeat split; repeat constructor|].
  eapply rtc_l; [by eapply (step_enter _ 0 0)|]. eapply rtc_l; [by eapply (step_enter _ 1 0)|].
  eapply rtc_l; [by eapply (step_win _ 0 0)|]. eapply rtc_l; [by eapply (step_done _ 0 0 [] [])|].
  eapply rtc_l; [by eapply (step_spin _ 1 0)|]. apply rtc_refl.
Qed.
End Example.

Lemma spinlock_mutex_witness : (0 = 0)%nat ∧ c_if (Cpu false 1 true) = false.
Proof.
  apply (spinlock_mutex Example.ex_taken 0 0 0 (Thr Run [0%nat]) (Thr Run [0%nat]) _ Example.ex_taken_reachable);
    first [reflexivity|left; apply elem_of_cons; by left].
Defined.

Lemma spinlock_checks_witness : acquire_enter 0 0 (lc_st Example.ex_taken) = Panic "acquire".
Proof.
  destruct (spinlock_checks Example.ex_taken 0 0 [0%nat] Run _ Example.ex_taken_reachable eq_refl eq_refl)
    as ((s & ->) & _). reflexivity.
Defined.
