(* ===== verification/Seg.v ===== *)
(** * Segments, gates and the task state (mmu.h, the descriptor code of vm.c and trap.c)

    The descriptors that seginit(), switchuvm() and tvinit() build are bytes in
    memory, and the processor decodes them when a segment register is loaded
    or an interrupt arrives.  The theorems follow them through both: what
    the processor finds is what the code asked for. *)

From S2P Require Import Prelude Params Mem Str Mmu X86 Spinlock.

(** ** Bit fields

    gcc lays out the bit fields of a struct from the least significant bit
    up. *)

Fixpoint pack (ws xs : list Z) : Z :=
  match ws, xs with
  | w :: ws, x :: xs => x `mod` 2 ^ w + 2 ^ w * pack ws xs
  | _, _ => 0
  end.

Fixpoint unpack (ws : list Z) (z : Z) : list Z :=
  match ws with
  | [] => []
  | w :: ws => z `mod` 2 ^ w :: unpack ws (z / 2 ^ w)
  end.

Lemma unpack_pack ws xs :
  Forall (λ w, 0 ≤ w) ws → length ws = length xs →
  unpack ws (pack ws xs) = zip_with (λ w x, x `mod` 2 ^ w) ws xs.
Proof.
  intros Hw. revert xs. induction Hw as [|w ws Hw _ IH]; intros [|x xs] Hlen; try done.
  cbn [pack unpack zip_with]. assert (0 < 2 ^ w) by (apply Z.pow_pos_nonneg; lia).
  f_equal.
  - rewrite (Z.mul_comm (2 ^ w)), Z_mod_plus_full. by apply Z.mod_mod, Z.neq_sym, Z.lt_neq.
  - rewrite <- (IH xs) by (by injection Hlen). f_equal.
    rewrite (Z.mul_comm (2 ^ w)), Z.div_add by lia. rewrite Z.div_small; [done|]. by apply Z.mod_pos_bound.
Qed.

Definition width (ws : list Z) : Z := foldr Z.add 0 ws.

Lemma width_nonneg ws : Forall (λ w, 0 ≤ w) ws → 0 ≤ width ws.
Proof. induction 1 as [|w ws Hw _ IH]; cbn; [done|]. unfold width in IH. lia. Qed.

Lemma pack_range ws xs : Forall (λ w, 0 ≤ w) ws → 0 ≤ pack ws xs < 2 ^ width ws.
Proof.
  intros Hw. revert xs. induction Hw as [|w ws Hw Hws IH]; intros xs; [by destruct xs|].
  pose proof (width_nonneg ws Hws). cbn [width foldr]. fold (width ws). rewrite Z.pow_add_r by lia.
  assert (0 < 2 ^ w) by (apply Z.pow_pos_nonneg; lia).
  assert (0 < 2 ^ width ws) by (apply Z.pow_pos_nonneg; lia).
  destruct xs as [|x xs]; cbn [pack]; [nia|]. specialize (IH xs).
  pose proof (Z.mod_pos_bound x (2 ^ w)). nia.
Qed.

(** ** Descriptors *)

Definition SEG_KCODE : Z := 1.
Definition SEG_KDATA : Z := 2.
Definition SEG_KCPU : Z := 3.
Definition SEG_UCODE : Z := 4.
Definition SEG_UDATA : Z := 5.
Definition SEG_TSS : Z := 6.
Definition NSEGS : Z := 7.
Definition DPL_USER : Z := 0x3.
Definition STA_X : Z := 0x8.
Definition STA_W : Z := 0x2.
Definition STA_R : Z := 0x2.
Definition STS_T32A : Z := 0x9.
Definition STS_T32B : Z := 0xB.
Definition STS_IG32 : Z := 0xE.
Definition STS_TG32 : Z := 0xF.

Record segdesc := SegDesc {
  lim_15_0 : Z; base_15_0 : Z; base_23_16 : Z; sd_type : Z; sd_s : Z; sd_dpl : Z; sd_p : Z;
  lim_19_16 : Z; sd_avl : Z; sd_rsv1 : Z; sd_db : Z; sd_g : Z; base_31_24 : Z
}.

Definition segdesc_widths : list Z := [16; 16; 8; 4; 1; 2; 1; 4; 1; 1; 1; 1; 8].
Definition segdesc_fields (d : segdesc) : list Z :=
  [lim_15_0 d; base_15_0 d; base_23_16 d; sd_type d; sd_s d; sd_dpl d; sd_p d;
   lim_19_16 d; sd_avl d; sd_rsv1 d; sd_db d; sd_g d; base_31_24 d].
Definition segdesc_bytes (d : segdesc) : list Z := le_bytes 8 (pack segdesc_widths (segdesc_fields d)).

Definition SEG (type base lim dpl : Z) : segdesc :=
  SegDesc (Z.land (Z.shiftr lim 12) 0xffff) (Z.land (u32 base) 0xffff)
    (Z.land (Z.shiftr (u32 base) 16) 0xff) type 1 dpl 1
    (Z.shiftr (u32 lim) 28) 0 0 1 1 (Z.shiftr (u32 base) 24).
Definition SEG16 (type base lim dpl : Z) : segdesc :=
  SegDesc (Z.land lim 0xffff) (Z.land (u32 base) 0xffff)
    (Z.land (Z.shiftr (u32 base) 16) 0xff) type 1 dpl 1
    (Z.shiftr (u32 lim) 16) 0 0 1 0 (Z.shiftr (u32 base) 24).

(** [desc.s = s] *)
Definition set_s (s : Z) (d : segdesc) : segdesc :=
  SegDesc (lim_15_0 d) (base_15_0 d) (base_23_16 d) (sd_type d) s (sd_dpl d) (sd_p d)
    (lim_19_16 d) (sd_avl d) (sd_rsv1 d) (sd_db d) (sd_g d) (base_31_24 d).

(** SEG_ASM of asm.h, the bytes that the assembler emits. *)
Definition SEG_ASM (type base lim : Z) : list Z :=
  le_bytes 2 (Z.land (Z.shiftr lim 12) 0xffff) ++ le_bytes 2 (Z.land base 0xffff) ++
  [Z.land (Z.shiftr base 16) 0xff; Z.lor 0x90 type; Z.lor 0xC0 (Z.land (Z.shiftr lim 28) 0xf);
   Z.land (Z.shiftr base 24) 0xff].

(** What the processor finds in a descriptor. *)
Record seg := Seg { sg_base : Z; sg_limit : Z; sg_type : Z; sg_s : Z; sg_dpl : Z; sg_p : Z; sg_db : Z }.

Definition seg_of (l : list Z) : option seg :=
  match unpack segdesc_widths (le_value l) with
  | [l0; b0; b1; type; s; dpl; p; l1; _; _; db; g; b2] =>
      let lim := l0 + 2 ^ 16 * l1 in
      Some (Seg (b0 + 2 ^ 16 * b1 + 2 ^ 24 * b2) (if g =? 1 then 4096 * lim + 4095 else lim) type s dpl p db)
  | _ => None
  end.

Lemma segdesc_unpack d :
  unpack segdesc_widths (le_value (segdesc_bytes d)) =
    zip_with (λ w x, x `mod` 2 ^ w) segdesc_widths (segdesc_fields d).
Proof.
  unfold segdesc_bytes. rewrite le_value_bytes.
  assert (Forall (λ w, 0 ≤ w) segdesc_widths) as Hw by (repeat constructor; lia).
  rewrite Z.mod_small by apply (pack_range segdesc_widths _ Hw). by apply unpack_pack.
Qed.

Lemma land_ones16 x : Z.land x 0xffff = x `mod` 2 ^ 16.
Proof. apply (Z.land_ones x 16). lia. Qed.
Lemma land_ones8 x : Z.land x 0xff = x `mod` 2 ^ 8.
Proof. apply (Z.land_ones x 8). lia. Qed.

(** The base address comes back from its three parts. *)
Lemma base_parts b :
  0 ≤ b < 2 ^ 32 →
  (b `mod` 2 ^ 16) `mod` 2 ^ 16 + 2 ^ 16 * ((b / 2 ^ 16) `mod` 2 ^ 8 `mod` 2 ^ 8) +
    2 ^ 24 * ((b / 2 ^ 24) `mod` 2 ^ 8) = b.
Proof. intros. Z.div_mod_to_equations. lia. Qed.

Lemma seg_of_SEG type base lim dpl :
  0 ≤ type < 16 → 0 ≤ dpl < 4 → 0 ≤ lim < 2 ^ 32 →
  seg_of (segdesc_bytes (SEG type base lim dpl)) =
    Some (Seg (u32 base) (lim - lim `mod` 4096 + 4095) type 1 dpl 1 1).
Proof.
  intros Ht Hd Hl. unfold seg_of. rewrite segdesc_unpack. cbn [segdesc_widths segdesc_fields zip_with SEG
    lim_15_0 base_15_0 base_23_16 sd_type sd_s sd_dpl sd_p lim_19_16 sd_avl sd_rsv1 sd_db sd_g base_31_24].
  rewrite land_ones8, !land_ones16, !Z.shiftr_div_pow2 by lia.
  rewrite base_parts by apply u32_range. rewrite (u32_small lim) by done.
  change (1 `mod` 2 ^ 1 =? 1) with true. cbn iota. f_equal. f_equal; try done.
  - Z.div_mod_to_equations. lia.
  - apply Z.mod_small. lia.
  - apply Z.mod_small. lia.
Qed.

Lemma seg_of_TSS base lim :
  0 ≤ lim < 2 ^ 20 →
  seg_of (segdesc_bytes (set_s 0 (SEG16 STS_T32A base lim 0))) =
    Some (Seg (u32 base) lim STS_T32A 0 0 1 1).
Proof.
  intros Hl. unfold seg_of. rewrite segdesc_unpack. cbn [segdesc_widths segdesc_fields zip_with SEG16 set_s
    lim_15_0 base_15_0 base_23_16 sd_type sd_s sd_dpl sd_p lim_19_16 sd_avl sd_rsv1 sd_db sd_g base_31_24].
  rewrite land_ones8, !land_ones16, !Z.shiftr_div_pow2 by lia.
  rewrite base_parts by apply u32_range. rewrite (u32_small lim) by lia.
  change (0 `mod` 2 ^ 1 =? 1) with false. cbn iota. f_equal. f_equal; try done.
  Z.div_mod_to_equations. lia.
Qed.

Lemma lor_nibble h x : 0 ≤ x < 16 → Z.lor (16 * h) x = 16 * h + x.
Proof.
  intros Hx. assert (Z.land (16 * h) x = 0) as E.
  { replace x with (Z.land x (Z.ones 4)) by (rewrite Z.land_ones by lia; apply Z.mod_small; lia).
    rewrite (Z.land_comm x), Z.land_assoc, Z.land_ones by lia.
    replace ((16 * h) `mod` 2 ^ 4) with 0 by (Z.div_mod_to_equations; lia). apply Z.land_0_l. }
  pose proof (Z.add_lor_land (16 * h) x). lia.
Qed.

(** The macros of mmu.h and asm.h build the same segments. *)
Lemma SEG_ASM_SEG type base lim :
  0 ≤ type < 16 → 0 ≤ base < 2 ^ 32 → 0 ≤ lim < 2 ^ 32 →
  SEG_ASM type base lim = segdesc_bytes (SEG type base lim 0).
Proof.
  intros Ht Hb Hl. unfold SEG_ASM, segdesc_bytes. cbn [segdesc_widths segdesc_fields pack SEG
    lim_15_0 base_15_0 base_23_16 sd_type sd_s sd_dpl sd_p lim_19_16 sd_avl sd_rsv1 sd_db sd_g base_31_24].
  replace (Z.land (Z.shiftr lim 28) 0xf) with (lim / 2 ^ 28) by
    (change 0xf with (Z.ones 4); rewrite Z.land_ones, Z.shiftr_div_pow2 by lia; Z.div_mod_to_equations; lia).
  rewrite (lor_nibble 9), (lor_nibble 12) by (done || Z.div_mod_to_equations; lia).
  rewrite !land_ones8, !land_ones16, !Z.shiftr_div_pow2, !u32_small by lia.
  match goal with |- ?l = _ => rewrite <- (le_bytes_value l); [change (length l) with 8%nat; f_equal|] end.
  - cbn [le_bytes app le_value]. unfold u8. Z.div_mod_to_equations. lia.
  - repeat apply Forall_app_2; try apply le_bytes_ok. unfold byte_ok.
    repeat constructor; Z.div_mod_to_equations; lia.
Qed.

(** ** Gates *)

Record gatedesc := GateDesc {
  off_15_0 : Z; gd_cs : Z; gd_args : Z; gd_rsv1 : Z; gd_type : Z; gd_s : Z; gd_dpl : Z; gd_p : Z; off_31_16 : Z
}.

Definition gatedesc_widths : list Z := [16; 16; 5; 3; 4; 1; 2; 1; 16].
Definition gatedesc_fields (g : gatedesc) : list Z :=
  [off_15_0 g; gd_cs g; gd_args g; gd_rsv1 g; gd_type g; gd_s g; gd_dpl g; gd_p g; off_31_16 g].
Definition gatedesc_bytes (g : gatedesc) : list Z := le_bytes 8 (pack gatedesc_widths (gatedesc_fields g)).

Definition SETGATE (istrap : bool) (sel off d : Z) : gatedesc :=
  GateDesc (Z.land (u32 off) 0xffff) sel 0 0 (if istrap then STS_TG32 else STS_IG32) 0 d 1 (Z.shiftr (u32 off) 16).

(** What the processor finds in a gate. *)
Record gate := Gate { gt_off : Z; gt_sel : Z; gt_type : Z; gt_dpl : Z; gt_p : Z }.

Definition gate_of (l : list Z) : option gate :=
  match unpack gatedesc_widths (le_value l) with
  | [o0; cs; _; _; type; _; dpl; p; o1] => Some (Gate (o0 + 2 ^ 16 * o1) cs type dpl p)
  | _ => None
  end.

Lemma gate_of_SETGATE istrap sel off d :
  0 ≤ sel < 2 ^ 16 → 0 ≤ d < 4 →
  gate_of (gatedesc_bytes (SETGATE istrap sel off d)) =
    Some (Gate (u32 off) sel (if istrap then STS_TG32 else STS_IG32) d 1).
Proof.
  intros Hs Hd. unfold gate_of, gatedesc_bytes. rewrite le_value_bytes.
  assert (Forall (λ w, 0 ≤ w) gatedesc_widths) as Hw by (repeat constructor; lia).
  rewrite Z.mod_small by apply (pack_range gatedesc_widths _ Hw). rewrite unpack_pack by done.
  cbn [gatedesc_widths gatedesc_fields zip_with SETGATE
    off_15_0 gd_cs gd_args gd_rsv1 gd_type gd_s gd_dpl gd_p off_31_16].
  rewrite land_ones16, Z.shiftr_div_pow2 by lia. pose proof (u32_range off).
  f_equal. f_equal.
  - Z.div_mod_to_equations. lia.
  - by apply Z.mod_small.
  - by destruct istrap.
  - by apply Z.mod_small.
Qed.

(** ** The processors *)

(** The registers of a processor.  A segment register keeps the descriptor
    that it was loaded with. *)
Record hw := Hw {
  gdtr : Z * Z; idtr : Z * Z; hw_gs : option seg; hw_tr : option seg; cr3 : Z
}.

Record smp := Smp { sm_mem : mem; sm_hw : list hw; sm_lk : lkstate }.

(** cpus[], whose address the linker chooses: the offsets in a struct cpu, and
    in a struct taskstate and a struct proc. *)
Class CpuLayout := { ld_cpus : Z; ld_idt : Z }.

Definition sizeof_cpu : Z := 188.
Definition CPU_TS : Z := 8.
Definition CPU_GDT : Z := 112.
Definition CPU_CPU : Z := 180.
Definition sizeof_ts : Z := 104.
Definition TS_ESP0 : Z := 4.
Definition TS_SS0 : Z := 8.
Definition TS_IOMB : Z := 102.
Definition PROC_PGDIR : Z := 4.
Definition PROC_KSTACK : Z := 8.

Section smp.
Context {layout : CpuLayout}.

Definition cpu_addr (i : nat) : Z := ld_cpus + sizeof_cpu * Z.of_nat i.

Definition on_mem {A} : M mem A → M smp A := zoom sm_mem (λ m s, Smp m (sm_hw s) (sm_lk s)).
Definition on_lk {A} : M lkstate A → M smp A := zoom sm_lk (λ l s, Smp (sm_mem s) (sm_hw s) l).

Definition hw_at (i : nat) : M smp hw := λ s, match sm_hw s !! i with Some h => Ok h s | None => Fault end.
Definition set_hw (i : nat) (h : hw) : M smp unit := modify (λ s, Smp (sm_mem s) (<[i := h]> (sm_hw s)) (sm_lk s)).

(** lgdt and lidt: the processor takes the table from the operand that the
    code has put together. *)
Definition table_of (pd : list Z) : Z * Z := (default 0 (table_base pd), default 0 (table_limit pd)).
Definition lgdt (i : nat) (p size : Z) : M smp unit :=
  h ← hw_at i; set_hw i (Hw (table_of (table_operand p size)) (idtr h) (hw_gs h) (hw_tr h) (cr3 h)).
Definition lidt (i : nat) (p size : Z) : M smp unit :=
  h ← hw_at i; set_hw i (Hw (gdtr h) (table_of (table_operand p size)) (hw_gs h) (hw_tr h) (cr3 h)).

(** The descriptor that selector [sel] names.  A selector outside the table is
    an exception. *)
Definition load_desc (i : nat) (sel : Z) : M smp seg :=
  h ← hw_at i;
  let off := sel - sel `mod` 8 in
  if (gdtr h).2 <? off + 7 then fault
  else l ← on_mem (load_bytes ((gdtr h).1 + off) 8); ofopt (seg_of l).

Definition loadgs (i : nat) (v : Z) : M smp unit :=
  sg ← load_desc i v;
  if negb (sg_p sg =? 1) then fault
  else h ← hw_at i; set_hw i (Hw (gdtr h) (idtr h) (Some sg) (hw_tr h) (cr3 h)).

(** ltr takes an available task state segment and marks it busy. *)
Definition ltr (i : nat) (sel : Z) : M smp unit :=
  sg ← load_desc i sel;
  if negb ((sg_p sg =? 1) && (sg_s sg =? 0) && (sg_type sg =? STS_T32A)) then fault
  else
    h ← hw_at i;
    let a := (gdtr h).1 + (sel - sel `mod` 8) + 5 in
    x ← on_mem (load8 a); on_mem (store8 a (Z.lor x 2));;
    set_hw i (Hw (gdtr h) (idtr h) (hw_gs h) (Some sg) (cr3 h)).

Definition lcr3 (i : nat) (v : Z) : M smp unit :=
  h ← hw_at i; set_hw i (Hw (gdtr h) (idtr h) (hw_gs h) (hw_tr h) v).

(** The word at %gs:off. *)
Definition gs_addr (i : nat) (off : Z) : M smp Z :=
  h ← hw_at i; sg ← ofopt (hw_gs h);
  if sg_limit sg <? off + 3 then fault else mret (u32 (sg_base sg + off)).
Definition gs_load (i : nat) (off : Z) : M smp Z := a ← gs_addr i off; on_mem (load32 a).
Definition gs_store (i : nat) (off x : Z) : M smp unit := a ← gs_addr i off; on_mem (store32 a x).

(** The variables [cpu] and [proc] of proc.h. *)
Definition cpu_var : Z := 0.
Definition proc_var : Z := 4.

(** c->gdt[k] = d *)
Definition set_gdt (c k : Z) (d : segdesc) : M smp unit :=
  on_mem (store_bytes (c + CPU_GDT + 8 * k) (segdesc_bytes d)).

(** [i] is cpunum(). *)
Definition seginit (i : nat) : M smp unit :=
  let c := cpu_addr i in
  set_gdt c SEG_KCODE (SEG (Z.lor STA_X STA_R) 0 0xffffffff 0);;
  set_gdt c SEG_KDATA (SEG STA_W 0 0xffffffff 0);;
  set_gdt c SEG_UCODE (SEG (Z.lor STA_X STA_R) 0 0xffffffff DPL_USER);;
  set_gdt c SEG_UDATA (SEG STA_W 0 0xffffffff DPL_USER);;
  set_gdt c SEG_KCPU (SEG STA_W (c + CPU_CPU) 8 0);;
  lgdt i (c + CPU_GDT) (8 * NSEGS);;
  loadgs i (Z.shiftl SEG_KCPU 3);;
  gs_store i cpu_var c;;
  gs_store i proc_var 0.

Definition switchkvm (i : nat) (kpgdir : Z) : M smp unit := lcr3 i (V2P kpgdir).

(** Filling in the task state and its descriptor. *)
Definition set_tss (i : nat) : M smp unit :=
  cpu ← gs_load i cpu_var;
  let d := SEG16 STS_T32A (cpu + CPU_TS) (sizeof_ts - 1) 0 in
  set_gdt cpu SEG_TSS d;;
  set_gdt cpu SEG_TSS (set_s 0 d);;
  on_mem (store16 (cpu + CPU_TS + TS_SS0) (Z.shiftl SEG_KDATA 3));;
  proc ← gs_load i proc_var;
  kstack ← on_mem (load32 (proc + PROC_KSTACK));
  on_mem (store32 (cpu + CPU_TS + TS_ESP0) (kstack + KSTACKSIZE));;
  on_mem (store16 (cpu + CPU_TS + TS_IOMB) 0xFFFF).

(** Processor [i] runs switchuvm(p). *)
Definition switchuvm (i : nat) (p : Z) : M smp unit :=
  on_lk (pushcli i);;
  set_tss i;;
  ltr i (Z.shiftl SEG_TSS 3);;
  pgdir ← on_mem (load32 (p + PROC_PGDIR));
  if pgdir =? 0 then panic "switchuvm: no pgdir"
  else lcr3 i (V2P pgdir);; on_lk (popcli i).

(** idt[k] = g *)
Definition set_idt (k : nat) (g : gatedesc) : M smp unit :=
  on_mem (store_bytes (ld_idt + 8 * Z.of_nat k) (gatedesc_bytes g)).

Definition NGATES : nat := 256.

Fixpoint tvinit_loop (vectors : list Z) (n i : nat) : M smp unit :=
  match n with
  | O => mret tt
  | S n =>
      v ← ofopt (vectors !! i);
      set_idt i (SETGATE false (Z.shiftl SEG_KCODE 3) v 0);;
      tvinit_loop vectors n (S i)
  end.

(** [vectors] is the table of vectors.S, [tickslock] the index of the lock. *)
Definition tvinit (vectors : list Z) (tickslock : nat) : M smp unit :=
  tvinit_loop vectors NGATES 0;;
  v ← ofopt (vectors !! Z.to_nat T_SYSCALL);
  set_idt (Z.to_nat T_SYSCALL) (SETGATE true (Z.shiftl SEG_KCODE 3) v DPL_USER);;
  k ← on_lk (lock_at tickslock);
  on_lk (set_lock tickslock (initlock "time" k)).

Definition idtinit (i : nat) : M smp unit := lidt i ld_idt (8 * Z.of_nat NGATES).

(** The gate that interrupt [n] goes through on processor [i]. *)
Definition gate_at (i : nat) (n : Z) : M smp gate :=
  h ← hw_at i;
  if (idtr h).2 <? 8 * n + 7 then fault
  else l ← on_mem (load_bytes ((idtr h).1 + 8 * n) 8); ofopt (gate_of l).

(** The int instruction at privilege level [cpl]. *)
Definition int_allowed (cpl : Z) (g : gate) : bool := (gt_p g =? 1) && (cpl <=? gt_dpl g).

(** ** Processor-local storage *)

Lemma on_mem_ok {A} (c : M mem A) m h l a m' :
  c m = Ok a m' → on_mem c (Smp m h l) = Ok a (Smp m' h l).
Proof. intros H. unfold on_mem, zoom. cbn. by rewrite H. Qed.

Lemma on_lk_ok {A} (c : M lkstate A) m h l a l' :
  c l = Ok a l' → on_lk c (Smp m h l) = Ok a (Smp m h l').
Proof. intros H. unfold on_lk, zoom. cbn. by rewrite H. Qed.

Lemma hw_step {A} (k : hw → M smp A) m hs l i h : hs !! i = Some h → (x ← hw_at i; k x) (Smp m hs l) = k h (Smp m hs l).
Proof. intros H. unfold hw_at, mbind, M_bind. cbn. by rewrite H. Qed.

Lemma length_segdesc_bytes d : length (segdesc_bytes d) = 8%nat.
Proof. apply length_le_bytes. Qed.

Lemma set_gdt_step {A} (k : M smp A) m h l c n d :
  mapped m (c + CPU_GDT + 8 * n) 8 →
  (set_gdt c n d;; k) (Smp m h l) = k (Smp (put_bytes (c + CPU_GDT + 8 * n) (segdesc_bytes d) m) h l).
Proof.
  intros Hm. unfold set_gdt. rewrite (bind_ok _ _ _ _ _ (on_mem_ok _ _ _ _ _ _ (store_bytes_ok m _ (segdesc_bytes d)
    ltac:(by rewrite length_segdesc_bytes)))). unfold segdesc_bytes. by rewrite u8_le_bytes.
Qed.

(** The descriptors of the kernel's and of the users' code and data. *)
Definition flat_segs : list (Z * segdesc) :=
  [(SEG_KCODE, SEG (Z.lor STA_X STA_R) 0 0xffffffff 0); (SEG_KDATA, SEG STA_W 0 0xffffffff 0);
   (SEG_UCODE, SEG (Z.lor STA_X STA_R) 0 0xffffffff DPL_USER); (SEG_UDATA, SEG STA_W 0 0xffffffff DPL_USER)].

Definition kcpu_seg (i : nat) : seg := Seg (cpu_addr i + CPU_CPU) 4095 STA_W 1 0 1 1.

(** Processor [i] has run seginit(). *)
Record cpu_ready (s : smp) (i : nat) : Prop := CpuReady {
  cr_hw : ∃ h, sm_hw s !! i = Some h ∧ gdtr h = (cpu_addr i + CPU_GDT, 8 * NSEGS - 1) ∧ hw_gs h = Some (kcpu_seg i);
  cr_cpu : get32 (sm_mem s) (cpu_addr i + CPU_CPU) = Some (cpu_addr i);
  cr_segs k d : (k, d) ∈ flat_segs → bytes_at (sm_mem s) (cpu_addr i + CPU_GDT + 8 * k) (segdesc_bytes d);
}.

(** The struct cpu of processor [i] is in memory. *)
Definition cpu_room (m : mem) (i : nat) : Prop :=
  0 ≤ ld_cpus ∧ cpu_addr i + sizeof_cpu ≤ 2 ^ 32 ∧ mapped m (cpu_addr i) (Z.to_nat sizeof_cpu).

Lemma room_mapped m i o n :
  cpu_room m i → 0 ≤ o → o + Z.of_nat n ≤ sizeof_cpu → mapped m (cpu_addr i + o) n.
Proof.
  intros (_ & _ & H) Ho Hn j Hj. specialize (H (Z.to_nat (o + Z.of_nat j))).
  replace (cpu_addr i + o + Z.of_nat j) with (cpu_addr i + Z.of_nat (Z.to_nat (o + Z.of_nat j))) by lia.
  apply H. lia.
Qed.

Lemma room_gdt m i k : cpu_room m i → 0 ≤ k < NSEGS → mapped m (cpu_addr i + CPU_GDT + 8 * k) 8.
Proof.
  intros Hr Hk. rewrite <- Z.add_assoc. unfold NSEGS, CPU_GDT in *. apply room_mapped; [done|lia|unfold sizeof_cpu; lia].
Qed.

Lemma room_var m i o : cpu_room m i → 0 ≤ o ≤ 4 → mapped m (cpu_addr i + CPU_CPU + o) 4.
Proof.
  intros Hr Ho. rewrite <- Z.add_assoc. unfold CPU_CPU. apply room_mapped; [done|lia|unfold sizeof_cpu; lia].
Qed.

Lemma room_put m i a l : cpu_room m i → cpu_room (put_bytes a l m) i.
Proof. intros (? & ? & ?). split; [done|]. split; [done|]. by apply mapped_put. Qed.

Lemma load_desc_ok m hs l i h b d sg sel :
  hs !! i = Some h → bytes_at m ((gdtr h).1 + (sel - sel `mod` 8)) b → length b = 8%nat →
  sel - sel `mod` 8 + 7 ≤ (gdtr h).2 → seg_of b = Some sg → d = Smp m hs l →
  load_desc i sel d = Ok sg d.
Proof.
  intros Hh Hb Hlen Hlim Hsg ->. unfold load_desc. rewrite (hw_step _ m hs l i h Hh).
  rewrite (proj2 (Z.ltb_ge _ _)) by lia. rewrite <- Hlen.
  mstep (on_mem_ok _ m hs l _ _ (load_bytes_ok m _ b Hb)). by rewrite Hsg.
Qed.

Lemma gs_addr_ok m hs l i h off :
  hs !! i = Some h → hw_gs h = Some (kcpu_seg i) → cpu_room m i → 0 ≤ off ≤ 4 →
  gs_addr i off (Smp m hs l) = Ok (cpu_addr i + CPU_CPU + off) (Smp m hs l).
Proof.
  intros Hh Hg (H0 & Hroom & _) Ho. unfold gs_addr. rewrite (hw_step _ m hs l i h Hh), Hg.
  rewrite (ofopt_step _ (kcpu_seg i)) by done. cbn [sg_limit kcpu_seg sg_base].
  rewrite (proj2 (Z.ltb_ge _ _)) by lia.
  unfold cpu_addr, sizeof_cpu, CPU_CPU in *. rewrite u32_small by lia. done.
Qed.

Lemma gs_store_ok m hs l i h off x :
  hs !! i = Some h → hw_gs h = Some (kcpu_seg i) → cpu_room m i → 0 ≤ off ≤ 4 →
  gs_store i off x (Smp m hs l) = Ok tt (Smp (put_bytes (cpu_addr i + CPU_CPU + off) (le_bytes 4 x) m) hs l).
Proof.
  intros Hh Hg Hr Ho. unfold gs_store. mstep (gs_addr_ok m hs l i h off Hh Hg Hr Ho).
  apply on_mem_ok, store32_ok. by apply room_var.
Qed.

Lemma gs_load_ok m hs l i h off x :
  hs !! i = Some h → hw_gs h = Some (kcpu_seg i) → cpu_room m i → 0 ≤ off ≤ 4 →
  get32 m (cpu_addr i + CPU_CPU + off) = Some x → gs_load i off (Smp m hs l) = Ok x (Smp m hs l).
Proof.
  intros Hh Hg Hr Ho Hx. unfold gs_load. mstep (gs_addr_ok m hs l i h off Hh Hg Hr Ho).
  by apply on_mem_ok, load32_ok.
Qed.

(** The memory that seginit() leaves. *)
Definition seg_mem (i : nat) (m : mem) : mem :=
  let c := cpu_addr i in
  let at_gdt k d := put_bytes (c + CPU_GDT + 8 * k) (segdesc_bytes d) in
  put_bytes (c + CPU_CPU + proc_var) (le_bytes 4 0) (put_bytes (c + CPU_CPU + cpu_var) (le_bytes 4 c)
    (at_gdt SEG_KCPU (SEG STA_W (c + CPU_CPU) 8 0) (at_gdt SEG_UDATA (SEG STA_W 0 0xffffffff DPL_USER)
      (at_gdt SEG_UCODE (SEG (Z.lor STA_X STA_R) 0 0xffffffff DPL_USER) (at_gdt SEG_KDATA (SEG STA_W 0 0xffffffff 0)
        (at_gdt SEG_KCODE (SEG (Z.lor STA_X STA_R) 0 0xffffffff 0) m)))))).

Lemma seginit_run m hs l i h :
  hs !! i = Some h → cpu_room m i →
  seginit i (Smp m hs l) =
    Ok tt (Smp (seg_mem i m)
      (<[i := Hw (cpu_addr i + CPU_GDT, 8 * NSEGS - 1) (idtr h) (Some (kcpu_seg i)) (hw_tr h) (cr3 h)]> hs) l).
Proof.
  intros Hh Hr. unfold seginit. pose proof (proj1 Hr) as H0. pose proof (proj1 (proj2 Hr)) as H32.
  do 5 (rewrite set_gdt_step by (apply room_gdt; [repeat apply room_put; exact Hr|by vm_compute])).
  set (m5 := put_bytes _ _ _). assert (cpu_room m5 i) as Hr5 by (repeat apply room_put; exact Hr).
  unfold lgdt at 1. rewrite bind_assoc, (hw_step _ m5 hs l i h Hh).
  unfold set_hw at 1. rewrite modify_step. cbn [sm_mem sm_hw sm_lk].
  assert (table_of (table_operand (cpu_addr i + CPU_GDT) (8 * NSEGS)) = (cpu_addr i + CPU_GDT, 8 * NSEGS - 1)) as ->.
  { unfold table_of. rewrite table_operand_base. cbn [default]. f_equal.
    unfold cpu_addr, sizeof_cpu, CPU_GDT in *. apply u32_small. lia. }
  set (h1 := Hw _ _ _ _ _). assert (i < length hs)%nat as Hi by (by eapply lookup_lt_Some).
  assert (<[i := h1]> hs !! i = Some h1) as Hh1 by (by apply list_lookup_insert_eq).
  unfold loadgs at 1. rewrite bind_assoc.
  rewrite (bind_ok _ _ _ _ _ (load_desc_ok m5 _ l i h1 (segdesc_bytes (SEG STA_W (cpu_addr i + CPU_CPU) 8 0)) _
    (kcpu_seg i) (Z.shiftl SEG_KCPU 3) Hh1 (bytes_at_put _ _ _) (length_segdesc_bytes _) ltac:(by vm_compute)
    ltac:(rewrite seg_of_SEG by done; unfold kcpu_seg, cpu_addr, sizeof_cpu, CPU_CPU in *; rewrite u32_small by lia; reflexivity)
    eq_refl)).
  cbn [kcpu_seg sg_p Z.eqb Pos.eqb negb]. rewrite bind_assoc, (hw_step _ m5 _ l i h1 Hh1).
  unfold set_hw at 1. rewrite modify_step. cbn [sm_mem sm_hw sm_lk]. rewrite list_insert_insert_eq.
  set (h2 := Hw _ _ _ _ _). assert (<[i := h2]> hs !! i = Some h2) as Hh2 by (by apply list_lookup_insert_eq).
  mstep (gs_store_ok m5 _ l i h2 cpu_var (cpu_addr i) Hh2 eq_refl Hr5 ltac:(by vm_compute)).
  apply (gs_store_ok _ _ l i h2 proc_var 0 Hh2 eq_refl); [by apply room_put|by vm_compute].
Qed.

Ltac layout_lia := unfold cpu_addr, sizeof_cpu, CPU_GDT, CPU_CPU, CPU_TS, cpu_var, proc_var, SEG_KCODE, SEG_KDATA,
  SEG_KCPU, SEG_UCODE, SEG_UDATA, SEG_TSS, NSEGS, TS_ESP0, TS_SS0, TS_IOMB, sizeof_ts in *; lia.

Lemma seg_mem_ne i m a :
  a < cpu_addr i ∨ cpu_addr i + sizeof_cpu ≤ a → seg_mem i m !! a = m !! a.
Proof.
  intros H. unfold seg_mem.
  rewrite !lookup_put_bytes_ne; rewrite ?length_segdesc_bytes, ?length_le_bytes; [done|layout_lia..].
Qed.

(** The registers that seginit() leaves. *)
Definition seg_hw (i : nat) (h : hw) : hw :=
  Hw (cpu_addr i + CPU_GDT, 8 * NSEGS - 1) (idtr h) (Some (kcpu_seg i)) (hw_tr h) (cr3 h).

Lemma seg_mem_ready m hs l i h :
  hs !! i = Some (seg_hw i h) → cpu_room m i → cpu_ready (Smp (seg_mem i m) hs l) i.
Proof.
  intros Hh Hr.
  assert (u32 (cpu_addr i) = cpu_addr i) as Hu by (apply u32_small; destruct Hr as (? & ? & _); layout_lia).
  split; cbn [sm_mem sm_hw].
  - eexists. split; [exact Hh|]. done.
  - unfold seg_mem. rewrite get32_put_ne by (rewrite length_le_bytes; layout_lia).
    unfold cpu_var. by rewrite Z.add_0_r, get32_put_eq, Hu.
  - intros k d Hk. unfold flat_segs in Hk. repeat setoid_rewrite elem_of_cons in Hk.
    unfold seg_mem. destruct Hk as [[= -> ->]|[[= -> ->]|[[= -> ->]|[[= -> ->]|[]%not_elem_of_nil]]]];
      repeat (apply bytes_at_put || (apply bytes_at_put_ne;
        [|rewrite ?length_segdesc_bytes, ?length_le_bytes; layout_lia])).
Qed.

Lemma seg_mem_room i j m : cpu_room m j → cpu_room (seg_mem i m) j.
Proof. intros H. unfold seg_mem. do 7 apply room_put. exact H. Qed.

Lemma seginit_ready m hs l i :
  (i < length hs)%nat → cpu_room m i →
  ∃ s, seginit i (Smp m hs l) = Ok tt s ∧ cpu_ready s i ∧ sm_lk s = l ∧ length (sm_hw s) = length hs ∧
    get32 (sm_mem s) (cpu_addr i + CPU_CPU + proc_var) = Some 0 ∧
    (∀ a, a < cpu_addr i ∨ cpu_addr i + sizeof_cpu ≤ a → sm_mem s !! a = m !! a) ∧
    (∀ j, j ≠ i → sm_hw s !! j = hs !! j) ∧ (∀ j, cpu_room m j → cpu_room (sm_mem s) j).
Proof.
  intros Hi Hr. destruct (lookup_lt_is_Some_2 hs i Hi) as [h Hh]. eexists.
  split; [by apply (seginit_run m hs l i h)|]. cbn [sm_mem sm_hw sm_lk].
  split; [by apply (seg_mem_ready m _ l i h); [apply list_lookup_insert_eq|]|].
  split; [done|]. split; [by rewrite length_insert|]. split; [apply get32_put_eq|]. split; [|split].
  - intros a Ha. by apply seg_mem_ne.
  - intros j Hj. by apply list_lookup_insert_ne.
  - intros j Hj. by apply seg_mem_room.
Qed.

Lemma flat_segs_index k d : (k, d) ∈ flat_segs → 0 ≤ k < SEG_TSS.
Proof.
  intros Hk. repeat setoid_rewrite elem_of_cons in Hk.
  by destruct Hk as [[= -> ->]|[[= -> ->]|[[= -> ->]|[[= -> ->]|[]%not_elem_of_nil]]]].
Qed.

(** What the processor needs is in its own struct cpu and its registers. *)
Lemma cpu_ready_ext s s' i :
  cpu_ready s i →
  (∀ h, sm_hw s !! i = Some h → ∃ h', sm_hw s' !! i = Some h' ∧ gdtr h' = gdtr h ∧ hw_gs h' = hw_gs h) →
  (∀ a, cpu_addr i + CPU_GDT ≤ a < cpu_addr i + CPU_GDT + 8 * SEG_TSS ∨
     cpu_addr i + CPU_CPU ≤ a < cpu_addr i + CPU_CPU + 4 → sm_mem s' !! a = sm_mem s !! a) → cpu_ready s' i.
Proof.
  intros [(h & Hh & Hg & Hgs) Hc Hs] Hhw Hm. split.
  - destruct (Hhw h Hh) as (h' & Hh' & Hg' & Hgs'). exists h'. split; [done|]. split; congruence.
  - rewrite <- Hc. apply get32_ext. intros k Hk. apply Hm. layout_lia.
  - intros k d Hk n x Hx. rewrite <- (Hs k d Hk n x Hx). apply Hm.
    pose proof (lookup_lt_Some _ _ _ Hx) as Hn. rewrite length_segdesc_bytes in Hn.
    pose proof (flat_segs_index k d Hk). layout_lia.
Qed.

(** The processors [l], one after the other. *)
Fixpoint seginits (l : list nat) : M smp unit :=
  match l with
  | [] => mret tt
  | i :: l => seginit i;; seginits l
  end.

Lemma seginits_ready l m hs lk :
  NoDup l → Forall (λ i, (i < length hs)%nat ∧ cpu_room m i) l →
  ∃ s, seginits l (Smp m hs lk) = Ok tt s ∧
    (∀ i, i ∈ l → cpu_ready s i ∧ cpu_room (sm_mem s) i ∧
       get32 (sm_mem s) (cpu_addr i + CPU_CPU + proc_var) = Some 0) ∧
    (∀ j, j ∉ l → sm_hw s !! j = hs !! j ∧
       ∀ a, cpu_addr j ≤ a < cpu_addr j + sizeof_cpu → sm_mem s !! a = m !! a) ∧
    (∀ j, cpu_room m j → cpu_room (sm_mem s) j).
Proof.
  intros Hnd. revert m hs. induction Hnd as [|i l Hil Hnd IH]; intros m hs Hl.
  { eexists. split; [reflexivity|]. split; [by intros i Hi%not_elem_of_nil|done]. }
  apply Forall_cons in Hl as [[Hi Hr] Hl]. cbn [seginits].
  destruct (seginit_ready m hs lk i Hi Hr) as ([m1 hs1 lk1] & E & Hready & Hlk & Hlen & Hp & Hm & Hh & Hroom).
  cbn [sm_mem sm_hw sm_lk] in *. subst lk1. mstep E.
  destruct (IH m1 hs1) as (s & -> & Hs & Hk & Hro).
  { eapply Forall_impl; [exact Hl|]. intros j [Hj Hjr]. rewrite Hlen. auto. }
  exists s. split; [done|]. destruct (Hk i Hil) as [Hhi Hmi]. split; [|split].
  - intros j [->|Hj]%elem_of_cons; [|by apply Hs]. split; [|split; [by apply Hro, Hroom|]].
    + apply (cpu_ready_ext _ s i Hready); [by intros h Hh'; exists h; rewrite Hhi|].
      intros a Ha. apply Hmi. layout_lia.
    + rewrite <- Hp. apply get32_ext. intros k Hk'. apply Hmi. layout_lia.
  - intros j [Hji Hjl]%not_elem_of_cons. destruct (Hk j Hjl) as [-> Hmj]. split; [by apply Hh|].
    intros a Ha. rewrite Hmj by done. apply Hm. layout_lia.
  - intros j Hj. by apply Hro, Hroom.
Qed.

Lemma ready_load s i off x :
  cpu_ready s i → cpu_room (sm_mem s) i → 0 ≤ off ≤ 4 →
  get32 (sm_mem s) (cpu_addr i + CPU_CPU + off) = Some x → gs_load i off s = Ok x s.
Proof. intros [(h & Hh & _ & Hg) _ _] Hr Ho Hx. destruct s as [m hs l]. by eapply gs_load_ok. Qed.

Lemma ready_cpu s i : cpu_ready s i → cpu_room (sm_mem s) i → gs_load i cpu_var s = Ok (cpu_addr i) s.
Proof.
  intros H Hr. apply ready_load; [done|done|by vm_compute|]. unfold cpu_var. rewrite Z.add_0_r. apply H.
Qed.

Lemma ready_store s i x :
  cpu_ready s i → cpu_room (sm_mem s) i →
  gs_store i proc_var x s =
    Ok tt (Smp (put_bytes (cpu_addr i + CPU_CPU + proc_var) (le_bytes 4 x) (sm_mem s)) (sm_hw s) (sm_lk s)).
Proof.
  intros [(h & Hh & _ & Hg) _ _] Hr. destruct s as [m hs l]. by apply (gs_store_ok m hs l i h).
Qed.

(** The type and the privilege level of the four flat segments. *)
Definition flat_kinds : list (Z * Z * Z) :=
  [(SEG_KCODE, Z.lor STA_X STA_R, 0); (SEG_KDATA, STA_W, 0);
   (SEG_UCODE, Z.lor STA_X STA_R, DPL_USER); (SEG_UDATA, STA_W, DPL_USER)].

Lemma ready_desc s i k type dpl rpl :
  cpu_ready s i → (k, type, dpl) ∈ flat_kinds → 0 ≤ rpl < 8 →
  load_desc i (8 * k + rpl) s = Ok (Seg 0 (2 ^ 32 - 1) type 1 dpl 1 1) s.
Proof.
  intros [(h & Hh & Hgdt & _) _ Hs] Hk Hrpl.
  assert ((k, SEG type 0 0xffffffff dpl) ∈ flat_segs ∧ 0 ≤ type < 16 ∧ 0 ≤ dpl < 4) as (Hin & Ht & Hd).
  { unfold flat_kinds in Hk. repeat setoid_rewrite elem_of_cons in Hk.
    destruct Hk as [[= -> -> ->]|[[= -> -> ->]|[[= -> -> ->]|[[= -> -> ->]|[]%not_elem_of_nil]]]];
      (split; [|by vm_compute]); unfold flat_segs; repeat setoid_rewrite elem_of_cons; tauto. }
  pose proof (flat_segs_index _ _ Hin) as Hidx. unfold SEG_TSS in Hidx. destruct s as [m hs l].
  replace (2 ^ 32 - 1) with (0xffffffff - 0xffffffff `mod` 4096 + 4095) by done.
  assert (8 * k + rpl - (8 * k + rpl) `mod` 8 = 8 * k) as Hsel by (Z.div_mod_to_equations; lia).
  apply (load_desc_ok m hs l i h (segdesc_bytes (SEG type 0 0xffffffff dpl))); [done| |apply length_segdesc_bytes| | |done].
  - rewrite Hgdt, Hsel. by apply Hs.
  - rewrite Hgdt, Hsel. unfold NSEGS. cbn. lia.
  - by apply seg_of_SEG.
Qed.

(** C30: every processor has its own [cpu] and [proc].  When the processors of
    [l] have run seginit(), one after the other, %gs:0 is the address of its
    own struct cpu on each of them, and an assignment to [proc] (%gs:4) on one
    of them is seen there and on no other.  On each, the selectors of the
    kernel's and the users' code and data name segments that cover all 2^32
    bytes, with the type and the privilege level that the code asked for. *)
Theorem cpu_local l m hs lk :
  NoDup l → Forall (λ i, (i < length hs)%nat ∧ cpu_room m i) l →
  ∃ s, seginits l (Smp m hs lk) = Ok tt s ∧
    (∀ i, i ∈ l → gs_load i cpu_var s = Ok (cpu_addr i) s ∧
       ∀ k type dpl rpl, (k, type, dpl) ∈ flat_kinds → 0 ≤ rpl < 8 →
         load_desc i (8 * k + rpl) s = Ok (Seg 0 (2 ^ 32 - 1) type 1 dpl 1 1) s) ∧
    (∀ i x, i ∈ l → ∃ s', gs_store i proc_var x s = Ok tt s' ∧
       ∀ j, j ∈ l → gs_load j cpu_var s' = Ok (cpu_addr j) s' ∧
         gs_load j proc_var s' = Ok (if decide (j = i) then u32 x else 0) s').
Proof.
  intros Hnd Hl. destruct (seginits_ready l m hs lk Hnd Hl) as (s & E & Hs & _ & _).
  exists s. split; [done|]. split.
  - intros i Hi. destruct (Hs i Hi) as (Hr & Hroom & _). split; [by apply ready_cpu|].
    intros. by apply ready_desc.
  - intros i x Hi. destruct (Hs i Hi) as (Hr & Hroom & _). eexists. split; [by apply ready_store|].
    intros j Hj. destruct (Hs j Hj) as (Hrj & Hroomj & Hpj).
    set (s' := Smp _ _ _). assert (cpu_ready s' j) as Hr'.
    { apply (cpu_ready_ext s); [done|by intros h Hh; exists h|]. intros a Ha. apply lookup_put_bytes_ne.
      rewrite length_le_bytes. destruct (decide (j = i)) as [->|]; layout_lia. }
    assert (cpu_room (sm_mem s') j) as Hroom' by (by apply room_put).
    split; [by apply ready_cpu|]. apply ready_load; [done|done|by vm_compute|]. cbn [sm_mem s'].
    destruct (decide (j = i)) as [->|]; [apply get32_put_eq|].
    rewrite get32_put_ne; [done|]. rewrite length_le_bytes. layout_lia.
Qed.

(** ** Switching to a process *)

(** The descriptor of the task state of processor [i] and its segment. *)
Definition tss_desc (i : nat) : segdesc := set_s 0 (SEG16 STS_T32A (cpu_addr i + CPU_TS) (sizeof_ts - 1) 0).
Definition tss_seg (i : nat) : seg := Seg (cpu_addr i + CPU_TS) (sizeof_ts - 1) STS_T32A 0 0 1 1.

Lemma seg_of_tss m i : cpu_room m i → seg_of (segdesc_bytes (tss_desc i)) = Some (tss_seg i).
Proof.
  intros (H0 & H32 & _). unfold tss_desc. rewrite seg_of_TSS by done. unfold tss_seg.
  by rewrite (u32_small (cpu_addr i + CPU_TS)) by layout_lia.
Qed.

Lemma ltr_ok m hs l i h x :
  hs !! i = Some h → gdtr h = (cpu_addr i + CPU_GDT, 8 * NSEGS - 1) → cpu_room m i →
  bytes_at m (cpu_addr i + CPU_GDT + 8 * SEG_TSS) (segdesc_bytes (tss_desc i)) →
  m !! (cpu_addr i + CPU_GDT + 8 * SEG_TSS + 5) = Some x →
  ltr i (Z.shiftl SEG_TSS 3) (Smp m hs l) =
    Ok tt (Smp (<[cpu_addr i + CPU_GDT + 8 * SEG_TSS + 5 := u8 (Z.lor x 2)]> m)
      (<[i := Hw (gdtr h) (idtr h) (hw_gs h) (Some (tss_seg i)) (cr3 h)]> hs) l).
Proof.
  intros Hh Hg Hr Hb Hx. unfold ltr.
  assert (Z.shiftl SEG_TSS 3 - Z.shiftl SEG_TSS 3 `mod` 8 = 8 * SEG_TSS) as Hsel by done. rewrite Hsel.
  rewrite (bind_ok _ _ _ _ _ (load_desc_ok m hs l i h _ _ (tss_seg i) (Z.shiftl SEG_TSS 3) Hh
    ltac:(rewrite Hg; exact Hb) (length_segdesc_bytes _) ltac:(rewrite Hg; by vm_compute) (seg_of_tss m i Hr) eq_refl)).
  cbn [tss_seg sg_p sg_s sg_type Z.eqb Pos.eqb STS_T32A andb negb]. rewrite (hw_step _ m hs l i h Hh).
  rewrite Hg. cbn [fst]. mstep (on_mem_ok _ m hs l _ _ (load8_ok _ _ _ Hx)).
  by mstep (on_mem_ok _ m hs l _ _ (store8_ok m _ (Z.lor x 2) (ex_intro _ x Hx))).
Qed.

(** pushcli() and popcli() around the switch. *)
Lemma push_pop ks cs i c :
  cs !! i = Some c → 0 ≤ c_ncli c → (c_ncli c ≠ 0 → c_if c = false) →
  ∃ c1 c2, pushcli i (LkState ks cs) = Ok tt (LkState ks (<[i := c1]> cs)) ∧
    popcli i (LkState ks (<[i := c1]> cs)) = Ok tt (LkState ks (<[i := c2]> cs)) ∧
    c_if c2 = c_if c ∧ c_ncli c2 = c_ncli c.
Proof.
  intros Hc Hn Hif. assert (i < length cs)%nat as Hi by (by eapply lookup_lt_Some).
  eexists _, _. split; [unfold pushcli, cpu_at, mbind, M_bind; cbn; rewrite Hc; reflexivity|].
  unfold popcli, cpu_at, mbind, M_bind. cbn. rewrite list_lookup_insert_eq by done. cbn.
  rewrite (proj2 (Z.ltb_ge _ _)) by lia. unfold set_cpu, modify. cbn. rewrite list_insert_insert_eq.
  split; [reflexivity|]. cbn. split; [|lia].
  replace (c_ncli c + 1 - 1) with (c_ncli c) by lia.
  destruct (Z.eqb_spec (c_ncli c) 0); [done|]. cbn. by rewrite Hif.
Qed.

(** The four bytes at [a] are not in the struct cpu of [i]. *)
Definition apart (i : nat) (a : Z) : Prop := a + 4 ≤ cpu_addr i ∨ cpu_addr i + sizeof_cpu ≤ a.

(** The memory that switchuvm() leaves, before ltr. *)
Definition tss_mem (i : nat) (kstack : Z) (m : mem) : mem :=
  let c := cpu_addr i in
  let d := SEG16 STS_T32A (c + CPU_TS) (sizeof_ts - 1) 0 in
  put_bytes (c + CPU_TS + TS_IOMB) (le_bytes 2 0xFFFF) (put_bytes (c + CPU_TS + TS_ESP0) (le_bytes 4 (kstack + KSTACKSIZE))
    (put_bytes (c + CPU_TS + TS_SS0) (le_bytes 2 (Z.shiftl SEG_KDATA 3))
      (put_bytes (c + CPU_GDT + 8 * SEG_TSS) (segdesc_bytes (set_s 0 d))
        (put_bytes (c + CPU_GDT + 8 * SEG_TSS) (segdesc_bytes d) m)))).

Lemma tss_mem_ne i kstack m a :
  a < cpu_addr i + CPU_TS ∨ cpu_addr i + CPU_TS + sizeof_ts ≤ a →
  a < cpu_addr i + CPU_GDT + 8 * SEG_TSS ∨ cpu_addr i + CPU_GDT + 8 * NSEGS ≤ a →
  tss_mem i kstack m !! a = m !! a.
Proof.
  intros H1 H2. unfold tss_mem.
  rewrite !lookup_put_bytes_ne; rewrite ?length_segdesc_bytes, ?length_le_bytes; [done|layout_lia..].
Qed.

Lemma tss_mem_fields i kstack m :
  let m' := tss_mem i kstack m in
  get32 m' (cpu_addr i + CPU_TS + TS_ESP0) = Some (u32 (kstack + KSTACKSIZE)) ∧
  bytes_at m' (cpu_addr i + CPU_TS + TS_SS0) (le_bytes 2 (Z.shiftl SEG_KDATA 3)) ∧
  bytes_at m' (cpu_addr i + CPU_TS + TS_IOMB) (le_bytes 2 0xFFFF) ∧
  bytes_at m' (cpu_addr i + CPU_GDT + 8 * SEG_TSS) (segdesc_bytes (tss_desc i)).
Proof.
  cbv zeta. unfold tss_mem. split; [|split; [|split]].
  - rewrite get32_put_ne by (rewrite length_le_bytes; layout_lia). apply get32_put_eq.
  - do 2 (apply bytes_at_put_ne; [|rewrite !length_le_bytes; layout_lia]). apply bytes_at_put.
  - apply bytes_at_put.
  - do 3 (apply bytes_at_put_ne; [|rewrite length_segdesc_bytes, length_le_bytes; layout_lia]). apply bytes_at_put.
Qed.

Lemma set_tss_ok s i pr kstack :
  cpu_ready s i → cpu_room (sm_mem s) i →
  get32 (sm_mem s) (cpu_addr i + CPU_CPU + proc_var) = Some pr →
  apart i (pr + PROC_KSTACK) → get32 (sm_mem s) (pr + PROC_KSTACK) = Some kstack →
  set_tss i s = Ok tt (Smp (tss_mem i kstack (sm_mem s)) (sm_hw s) (sm_lk s)).
Proof.
  intros Hr Hroom Hpr Hap Hk. unfold set_tss. mstep (ready_cpu s i Hr Hroom). cbv zeta. destruct s as [m hs l]. cbn [sm_mem sm_hw sm_lk] in *.
  destruct Hr as [(h & Hh & Hgdt & Hg) _ _]. cbn [sm_hw] in Hh.
  do 2 (rewrite set_gdt_step by (apply room_gdt; [repeat apply room_put; exact Hroom|by vm_compute])).
  set (m2 := put_bytes _ _ (put_bytes _ _ m)).
  assert (cpu_room m2 i) as Hr2 by (repeat apply room_put; exact Hroom).
  assert (∀ m' o n, cpu_room m' i → 0 ≤ o → o + Z.of_nat n ≤ sizeof_ts → mapped m' (cpu_addr i + CPU_TS + o) n) as Hts.
  { intros m' o n Hm' Ho Hn. rewrite <- Z.add_assoc. apply room_mapped; [done|layout_lia..]. }
  mstep (on_mem_ok _ _ hs l _ _ (store16_ok m2 _ (Z.shiftl SEG_KDATA 3) (Hts m2 TS_SS0 2%nat Hr2 ltac:(done) ltac:(done)))).
  set (m3 := put_bytes _ _ m2). assert (cpu_room m3 i) as Hr3 by (by apply room_put).
  assert (∀ a, a + 4 ≤ cpu_addr i + CPU_TS ∨ cpu_addr i + CPU_CPU ≤ a → get32 m3 a = get32 m a) as Hkeep.
  { intros a Ha. unfold m3, m2. rewrite !get32_put_ne; rewrite ?length_segdesc_bytes, ?length_le_bytes; [done|layout_lia..]. }
  rewrite <- (Hkeep (cpu_addr i + CPU_CPU + proc_var)) in Hpr by layout_lia.
  rewrite <- (Hkeep (pr + PROC_KSTACK)) in Hk by (unfold apart in Hap; layout_lia).
  mstep (gs_load_ok m3 hs l i h proc_var pr Hh Hg Hr3 ltac:(done) Hpr).
  mstep (on_mem_ok _ _ hs l _ _ (load32_ok _ _ _ Hk)).
  mstep (on_mem_ok _ _ hs l _ _ (store32_ok m3 _ (kstack + KSTACKSIZE) (Hts m3 TS_ESP0 4%nat Hr3 ltac:(done) ltac:(done)))).
  set (m4 := put_bytes _ _ m3). assert (cpu_room m4 i) as Hr4 by (by apply room_put).
  by apply on_mem_ok, store16_ok, Hts.
Qed.

(** The same with the busy mark that ltr sets: the task state is there and
    nothing else has changed. *)
Lemma busy_mem_fields i kstack m b :
  let m' := <[cpu_addr i + CPU_GDT + 8 * SEG_TSS + 5 := b]> (tss_mem i kstack m) in
  get32 m' (cpu_addr i + CPU_TS + TS_ESP0) = Some (u32 (kstack + KSTACKSIZE)) ∧
  bytes_at m' (cpu_addr i + CPU_TS + TS_SS0) (le_bytes 2 (Z.shiftl SEG_KDATA 3)) ∧
  bytes_at m' (cpu_addr i + CPU_TS + TS_IOMB) (le_bytes 2 0xFFFF) ∧
  (∀ a, a < cpu_addr i + CPU_TS ∨ cpu_addr i + CPU_TS + sizeof_ts ≤ a < cpu_addr i + CPU_GDT + 8 * SEG_TSS ∨
     cpu_addr i + CPU_GDT + 8 * NSEGS ≤ a → m' !! a = m !! a).
Proof.
  destruct (tss_mem_fields i kstack m) as (Hesp & Hss & Hio & _). intros m'.
  assert (∀ a, a ≠ cpu_addr i + CPU_GDT + 8 * SEG_TSS + 5 → m' !! a = tss_mem i kstack m !! a) as Hm
    by (intros a Ha; by apply lookup_insert_ne).
  assert (∀ a l, a + Z.of_nat (length l) ≤ cpu_addr i + CPU_TS + sizeof_ts →
    bytes_at (tss_mem i kstack m) a l → bytes_at m' a l) as Hb.
  { intros a l Ha Hl k y Hy. pose proof (lookup_lt_Some _ _ _ Hy). rewrite Hm by layout_lia. by apply Hl. }
  split; [|split; [|split]].
  - rewrite <- Hesp. apply get32_ext. intros k Hk. apply Hm. layout_lia.
  - apply Hb; [rewrite length_le_bytes; layout_lia|exact Hss].
  - apply Hb; [rewrite length_le_bytes; layout_lia|exact Hio].
  - intros a Ha. rewrite Hm by layout_lia. apply tss_mem_ne; layout_lia.
Qed.

(** C31: switchuvm() makes the processor ready to run process [p] in user mode,
    and to leave user mode again.  On a processor that has run seginit(), with
    interrupts off while pushcli() is in force, it ends with the page table of
    [p] loaded and the task register on the processor's own task state, whose
    stack pointer is the top of the current process's kernel stack in the
    kernel data segment and whose I/O map lies behind its limit, so that user
    code cannot use the ports.  Interrupts are enabled afterwards exactly
    when they were before, nothing outside the processor's struct cpu changes,
    and the processor is ready for the next switch, although ltr refuses a
    segment that is marked busy.  Without a page table it panics. *)
Theorem switchuvm_correct s i c p pr kstack pgdir :
  cpu_ready s i → cpu_room (sm_mem s) i →
  cpus (sm_lk s) !! i = Some c → 0 ≤ c_ncli c → (c_ncli c ≠ 0 → c_if c = false) →
  get32 (sm_mem s) (cpu_addr i + CPU_CPU + proc_var) = Some pr →
  apart i (pr + PROC_KSTACK) → get32 (sm_mem s) (pr + PROC_KSTACK) = Some kstack →
  apart i (p + PROC_PGDIR) → get32 (sm_mem s) (p + PROC_PGDIR) = Some pgdir →
  if pgdir =? 0 then switchuvm i p s = Panic "switchuvm: no pgdir"
  else ∃ s' h c', switchuvm i p s = Ok tt s' ∧ cpu_ready s' i ∧ cpu_room (sm_mem s') i ∧
    sm_hw s' !! i = Some h ∧ cr3 h = V2P pgdir ∧ hw_tr h = Some (tss_seg i) ∧
    get32 (sm_mem s') (sg_base (tss_seg i) + TS_ESP0) = Some (u32 (kstack + KSTACKSIZE)) ∧
    bytes_at (sm_mem s') (sg_base (tss_seg i) + TS_SS0) (le_bytes 2 (8 * SEG_KDATA)) ∧
    (∃ iomb, bytes_at (sm_mem s') (sg_base (tss_seg i) + TS_IOMB) (le_bytes 2 iomb) ∧ sg_limit (tss_seg i) < iomb) ∧
    cpus (sm_lk s') !! i = Some c' ∧ c_if c' = c_if c ∧ c_ncli c' = c_ncli c ∧
    (∀ a, a < cpu_addr i ∨ cpu_addr i + sizeof_cpu ≤ a → sm_mem s' !! a = sm_mem s !! a).
Proof.
  intros Hr Hroom Hc Hn Hif Hpr Hap Hk Happ Hpg. destruct s as [m hs [ks cs]]. cbn [sm_mem sm_hw sm_lk cpus] in *.
  destruct (push_pop ks cs i c Hc Hn Hif) as (c1 & c2 & Epush & Epop & Hif2 & Hn2).
  assert (i < length cs)%nat as Hi by (by eapply lookup_lt_Some).
  unfold switchuvm. rewrite (bind_ok _ _ _ _ _ (on_lk_ok _ m hs _ _ _ Epush)).
  assert (cpu_ready (Smp m hs (LkState ks (<[i := c1]> cs))) i) as Hr1
    by (apply (cpu_ready_ext _ _ i Hr); [by intros h Hh; exists h|done]).
  mstep (set_tss_ok _ i pr kstack Hr1 Hroom Hpr Hap Hk). cbn [sm_mem sm_hw sm_lk].
  destruct (tss_mem_fields i kstack m) as (_ & _ & _ & Hd).
  assert (cpu_room (tss_mem i kstack m) i) as Hroom1 by (repeat apply room_put; exact Hroom).
  pose proof Hr as [(h & Hh & Hg & Hgs) _ _]. cbn [sm_hw] in Hh.
  destruct (bytes_at_mapped _ _ _ Hd 5%nat) as [x Hx]; [rewrite length_segdesc_bytes; lia|].
  mstep (ltr_ok _ hs (LkState ks (<[i := c1]> cs)) i h x Hh Hg Hroom1 Hd Hx).
  destruct (busy_mem_fields i kstack m (u8 (Z.lor x 2))) as (Hesp & Hss & Hio & Hout).
  set (m2 := <[_ := _]> (tss_mem _ _ _)) in *. set (h2 := Hw _ _ _ _ _).
  assert (get32 m2 (p + PROC_PGDIR) = Some pgdir) as Hpg2.
  { rewrite <- Hpg. apply get32_ext. intros k Hk'. apply Hout. unfold apart in Happ. layout_lia. }
  mstep (on_mem_ok _ _ (<[i := h2]> hs) (LkState ks (<[i := c1]> cs)) _ _ (load32_ok _ _ _ Hpg2)).
  destruct (pgdir =? 0); [done|]. assert (i < length hs)%nat as Hih by (by eapply lookup_lt_Some).
  unfold lcr3 at 1. rewrite bind_assoc, (hw_step _ _ _ _ i h2) by (by apply list_lookup_insert_eq).
  unfold set_hw at 1. rewrite modify_step. cbn [sm_mem sm_hw sm_lk]. rewrite list_insert_insert_eq.
  rewrite (on_lk_ok _ _ _ _ _ _ Epop). eexists _, _, c2. split; [reflexivity|]. cbn [sm_mem sm_hw sm_lk cpus].
  split; [|split; [|split; [by apply list_lookup_insert_eq|do 4 (split; [done|])]]].
  - apply (cpu_ready_ext _ _ i Hr); cbn [sm_mem sm_hw].
    + intros h' Hh'. rewrite list_lookup_insert_eq by done. eexists. split; [reflexivity|]. cbn. split; congruence.
    + intros a Ha. apply Hout. layout_lia.
  - destruct Hroom1 as (? & ? & ?). split; [done|]. split; [done|]. by apply mapped_insert.
  - split; [by exists 0xFFFF|]. split; [by apply list_lookup_insert_eq|]. do 2 (split; [done|]).
    intros a Ha. apply Hout. layout_lia.
Qed.

(** ** The interrupt table *)

Lemma length_gatedesc_bytes g : length (gatedesc_bytes g) = 8%nat.
Proof. apply length_le_bytes. Qed.

Lemma set_idt_ok m hs l k g :
  mapped m (ld_idt + 8 * Z.of_nat k) 8 →
  set_idt k g (Smp m hs l) = Ok tt (Smp (put_bytes (ld_idt + 8 * Z.of_nat k) (gatedesc_bytes g) m) hs l).
Proof.
  intros Hm. unfold set_idt. apply on_mem_ok. rewrite store_bytes_ok by (by rewrite length_gatedesc_bytes).
  unfold gatedesc_bytes. by rewrite u8_le_bytes.
Qed.

Definition idt_room (m : mem) : Prop := mapped m ld_idt (8 * NGATES).

Lemma idt_room_at m k : idt_room m → (k < NGATES)%nat → mapped m (ld_idt + 8 * Z.of_nat k) 8.
Proof.
  intros H Hk j Hj. specialize (H (8 * k + j)%nat).
  replace (ld_idt + 8 * Z.of_nat k + Z.of_nat j) with (ld_idt + Z.of_nat (8 * k + j)) by lia. apply H. lia.
Qed.

Lemma tvinit_loop_ok vectors hs l n i m :
  length vectors = NGATES → (i + n ≤ NGATES)%nat → idt_room m →
  ∃ m', tvinit_loop vectors n i (Smp m hs l) = Ok tt (Smp m' hs l) ∧ idt_room m' ∧
    (∀ k v, (i ≤ k < i + n)%nat → vectors !! k = Some v →
       bytes_at m' (ld_idt + 8 * Z.of_nat k) (gatedesc_bytes (SETGATE false (Z.shiftl SEG_KCODE 3) v 0))) ∧
    (∀ a, a < ld_idt + 8 * Z.of_nat i ∨ ld_idt + 8 * Z.of_nat (i + n) ≤ a → m' !! a = m !! a).
Proof.
  intros Hlen. revert i m. induction n as [|n IH]; intros i m Hi Hm.
  { exists m. split; [done|]. split; [done|]. split; [lia|done]. }
  destruct (lookup_lt_is_Some_2 vectors i) as [v Hv]; [lia|]. cbn [tvinit_loop].
  rewrite (ofopt_step _ v) by done. mstep (set_idt_ok m hs l i (SETGATE false (Z.shiftl SEG_KCODE 3) v 0)
    (idt_room_at m i Hm ltac:(lia))).
  set (m1 := put_bytes _ _ m). destruct (IH (S i) m1) as (m' & -> & Hm' & Hg & Hk); [lia|by apply mapped_put|].
  exists m'. split; [done|]. split; [done|]. split.
  - intros k w Hkr Hw. destruct (decide (k = i)) as [->|]; [|apply Hg; [lia|done]]. simplify_eq.
    intros j x Hx. pose proof (lookup_lt_Some _ _ _ Hx) as Hj. rewrite length_gatedesc_bytes in Hj.
    rewrite Hk by lia. by apply bytes_at_put.
  - intros a Ha. rewrite Hk by lia. apply lookup_put_bytes_ne. rewrite length_gatedesc_bytes. lia.
Qed.

Lemma gate_at_ok m hs l i h n gd g :
  hs !! i = Some h → idtr h = (ld_idt, 2047) →
  bytes_at m (ld_idt + 8 * Z.of_nat n) (gatedesc_bytes gd) → (n < NGATES)%nat →
  gate_of (gatedesc_bytes gd) = Some g → gate_at i (Z.of_nat n) (Smp m hs l) = Ok g (Smp m hs l).
Proof.
  intros Hh Hi Hb Hn Hg. unfold gate_at. rewrite (hw_step _ m hs l i h Hh), Hi. cbn [fst snd].
  unfold NGATES in Hn. rewrite (proj2 (Z.ltb_ge _ _)) by lia.
  pose proof (load_bytes_ok m _ _ Hb) as E. rewrite length_gatedesc_bytes in E.
  mstep (on_mem_ok _ m hs l _ _ E). by rewrite Hg.
Qed.

(** C32: after tvinit(), and idtinit() on processor [i], interrupt and trap
    [n] enters the kernel's code segment at vectors[n]; user code may raise
    trap T_SYSCALL with an int instruction and no other, and that gate is the
    only one that does not turn interrupts off. *)
Theorem idt_correct vectors tickslock m hs lk i lock :
  length vectors = NGATES → idt_room m → 0 ≤ ld_idt < 2 ^ 32 → (i < length hs)%nat →
  locks lk !! tickslock = Some lock →
  ∃ s, (tvinit vectors tickslock;; idtinit i) (Smp m hs lk) = Ok tt s ∧
    ∀ n v, vectors !! n = Some v →
      ∃ g, gate_at i (Z.of_nat n) s = Ok g s ∧ gt_off g = u32 v ∧ gt_sel g = 8 * SEG_KCODE ∧ gt_p g = 1 ∧
        int_allowed 0 g = true ∧ int_allowed DPL_USER g = (Z.of_nat n =? T_SYSCALL) ∧
        gt_type g = if Z.of_nat n =? T_SYSCALL then STS_TG32 else STS_IG32.
Proof.
  intros Hlen Hm Hidt Hi Hlock. unfold tvinit.
  destruct (tvinit_loop_ok vectors hs lk NGATES 0 m Hlen ltac:(lia) Hm) as (m1 & E1 & Hm1 & Hg1 & _).
  rewrite bind_assoc. mstep E1. change (Z.to_nat T_SYSCALL) with 64%nat.
  destruct (lookup_lt_is_Some_2 vectors 64) as [v64 Hv64]; [rewrite Hlen; by vm_compute; lia|].
  rewrite bind_assoc, (ofopt_step _ v64) by done.
  rewrite bind_assoc. mstep (set_idt_ok m1 hs lk 64 (SETGATE true (Z.shiftl SEG_KCODE 3) v64 DPL_USER)
    (idt_room_at m1 64 Hm1 ltac:(unfold NGATES; lia))).
  set (m2 := put_bytes _ _ m1). rewrite bind_assoc.
  rewrite (bind_ok _ _ _ _ _ (on_lk_ok (lock_at tickslock) m2 hs lk lock lk
    ltac:(unfold lock_at; by rewrite Hlock))).
  mstep (on_lk_ok (set_lock tickslock (initlock "time" lock)) m2 hs lk tt _ eq_refl).
  set (lk' := LkState _ _). destruct (lookup_lt_is_Some_2 hs i Hi) as [h Hh].
  unfold idtinit, lidt. rewrite (hw_step _ m2 hs lk' i h Hh).
  assert (table_of (table_operand ld_idt (8 * Z.of_nat NGATES)) = (ld_idt, 2047)) as ->.
  { unfold table_of. rewrite table_operand_base, u32_small by done. done. }
  eexists. split; [reflexivity|]. cbn [sm_mem sm_hw sm_lk]. set (h' := Hw _ _ _ _ _). intros n v Hv.
  pose proof (lookup_lt_Some _ _ _ Hv) as Hn. rewrite Hlen in Hn.
  assert (<[i := h']> hs !! i = Some h') as Hh' by (by apply list_lookup_insert_eq).
  destruct (decide (n = 64%nat)) as [->|Hne].
  - simplify_eq. eexists. split; [eapply gate_at_ok; [exact Hh'|done|apply bytes_at_put|done|by apply gate_of_SETGATE]|done].
  - eexists. split; [eapply gate_at_ok; [exact Hh'|done| |done|]|].
    + apply bytes_at_put_ne; [apply Hg1; [lia|exact Hv]|]. rewrite !length_gatedesc_bytes. lia.
    + by apply gate_of_SETGATE.
    + rewrite (proj2 (Z.eqb_neq (Z.of_nat n) T_SYSCALL)) by (unfold T_SYSCALL; lia). done.
Qed.
End smp.

(** ** Two processors *)

Module Example.

#[local] Instance ex_layout : CpuLayout := {| ld_cpus := 0x80110000; ld_idt := 0x80120000 |}.

Definition ex_hw : hw := Hw (0, 0) (0, 0) None None 0.
Definition ex_cpus : mem := put_bytes 0x80110000 (replicate 376 0) ∅.

Lemma mapped_replicate a n k x m : (k ≤ n)%nat → mapped (put_bytes a (replicate n x) m) a k.
Proof.
  intros Hk i Hi. rewrite lookup_put_bytes, length_replicate, decide_True by lia.
  apply lookup_lt_is_Some. rewrite length_replicate. lia.
Qed.

Lemma ex_room i : (i < 2)%nat → cpu_room ex_cpus i.
Proof.
  intros Hi. unfold cpu_room, cpu_addr, sizeof_cpu. cbn [ld_cpus ex_layout]. split; [done|]. split; [cbn; lia|].
  intros j Hj. unfold ex_cpus. rewrite lookup_put_bytes, length_replicate, decide_True by (cbn; lia).
  apply lookup_lt_is_Some. rewrite length_replicate. cbn. lia.
Qed.

Lemma cpu_local_witness :
  ∃ s, seginits [1%nat; 0%nat] (Smp ex_cpus [ex_hw; ex_hw] (LkState [] [])) = Ok tt s ∧
    gs_load 0 cpu_var s = Ok 0x80110000 s ∧ gs_load 1 cpu_var s = Ok 0x801100bc s.
Proof.
  destruct (cpu_local [1%nat; 0%nat] ex_cpus [ex_hw; ex_hw] (LkState [] [])) as (s & E & H & _).
  - by apply (bool_decide_unpack _).
  - repeat constructor; try apply ex_room; cbn; lia.
  - exists s. split; [exact E|]. split; [apply (H 0%nat)|apply (H 1%nat)]; by apply (bool_decide_unpack _).
Defined.

(** Processor 0 has run seginit(), its current process is at [ex_proc], with
    its kernel stack at 0x80200000 and its page table at 0x80300000. *)
Definition ex_proc : Z := 0x80130000.
Definition ex_switch : smp :=
  Smp (put_bytes ex_proc (concat (le_bytes 4 <$> [0; 0x80300000; 0x80200000]))
        (put_bytes (cpu_addr 0 + CPU_CPU + proc_var) (le_bytes 4 ex_proc) (seg_mem 0 ex_cpus)))
    [seg_hw 0 ex_hw] (LkState [] [Cpu true 0 false]).

Lemma ex_switch_ready : cpu_ready ex_switch 0 ∧ cpu_room (sm_mem ex_switch) 0.
Proof.
  split; [|do 2 apply room_put; apply seg_mem_room, ex_room; lia].
  apply (cpu_ready_ext (Smp (seg_mem 0 ex_cpus) [seg_hw 0 ex_hw] (LkState [] [Cpu true 0 false]))).
  - apply (seg_mem_ready _ _ _ _ ex_hw); [done|apply ex_room; lia].
  - intros h Hh. by exists h.
  - intros a Ha. unfold ex_switch, cpu_addr, ex_proc in *. cbn [ld_cpus ex_layout sm_mem] in *.
    rewrite !lookup_put_bytes_ne; [done|unfold sizeof_cpu, CPU_GDT, CPU_CPU, SEG_TSS, proc_var in *; cbn; lia..].
Qed.

Lemma switchuvm_correct_witness :
  ∃ s h, switchuvm 0 ex_proc ex_switch = Ok tt s ∧ sm_hw s !! 0%nat = Some h ∧ cr3 h = 0x300000 ∧
    get32 (sm_mem s) (cpu_addr 0 + CPU_TS + TS_ESP0) = Some 0x80201000.
Proof.
  destruct (switchuvm_correct ex_switch 0 (Cpu true 0 false) ex_proc ex_proc 0x80200000 0x80300000)
    as (s & h & c & E & _ & _ & Hh & Hc & _ & Hs & _);
    [apply ex_switch_ready|apply ex_switch_ready|done|done|done|vm_compute; reflexivity|right; by vm_compute|
     vm_compute; reflexivity|right; by vm_compute|vm_compute; reflexivity|].
  exists s, h. split; [exact E|]. split; [exact Hh|]. split; [exact Hc|exact Hs].
Defined.

Definition ex_vectors : list Z := (λ i, 0x80105000 + 10 * Z.of_nat i) <$> seq 0 256.
Definition ex_idt : mem := put_bytes 0x80120000 (replicate 2048 0) ∅.

Lemma idt_correct_witness :
  ∃ s g, (tvinit ex_vectors 0;; idtinit 0) (Smp ex_idt [ex_hw] (LkState [Spinlock 1 "t" None []] [])) = Ok tt s ∧
    gate_at 0 14 s = Ok g s ∧ gt_off g = 0x8010508c ∧ int_allowed DPL_USER g = false.
Proof.
  destruct (idt_correct ex_vectors 0 ex_idt [ex_hw] (LkState [Spinlock 1 "t" None []] []) 0 (Spinlock 1 "t" None []))
    as (s & E & H); [by vm_compute|apply mapped_replicate; unfold NGATES; lia|done|cbn; lia|done|].
  destruct (H 14%nat 0x8010508c) as (g & Hg & Ho & _ & _ & _ & Hi & _); [by vm_compute|].
  exists s, g. split; [exact E|]. split; [exact Hg|]. split; [exact Ho|exact Hi].
Defined.

End Example.
