(* ===== verification/Intr.v ===== *)
(** * Interrupt controllers (picirq.c, ioapic.c, timer.c)

    The two 8259A controllers of a uniprocessor and the I/O APIC of a
    multiprocessor.  The drivers are translated from the source; [PicPair] and
    [IoApic] state what the drivers rely on of the chips.  The theorems say which
    interrupts reach the processor, and with which vector, after any sequence
    of enabling calls. *)

From S2P Require Import Prelude Params Mem X86.

(** ** The 8259A controllers *)

Definition IO_PIC1 : Z := 0x20.
Definition IO_PIC2 : Z := 0xA0.
Definition IRQ_SLAVE : Z := 2.

(** The variable irqmask and the devices. *)
Record pics (D : Type) := Pics { irqmask : Z; pic_dev : D }.
Arguments Pics {D}.
Arguments irqmask {D}.
Arguments pic_dev {D}.

Definition irqmask0 : Z := Z.land 0xFFFF (Z.lnot (Z.shiftl 1 IRQ_SLAVE)).

Section pic.
Context {D : Type} `{!Ports D}.

Definition pic_io {A} : M D A → M (pics D) A := zoom pic_dev (λ d s, Pics (irqmask s) d).

Definition picsetmask (mask : Z) : M (pics D) unit :=
  modify (λ s, Pics (u16 mask) (pic_dev s));;
  pic_io (outb (IO_PIC1 + 1) (u16 mask));;
  pic_io (outb (IO_PIC2 + 1) (Z.shiftr (u16 mask) 8)).

Definition picenable (irq : Z) : M (pics D) unit :=
  m ← gets irqmask; picsetmask (Z.land m (Z.lnot (Z.shiftl 1 irq))).

Definition picinit : M (pics D) unit :=
  pic_io (outb (IO_PIC1 + 1) 0xFF);;
  pic_io (outb (IO_PIC2 + 1) 0xFF);;
  pic_io (outb IO_PIC1 0x11);;
  pic_io (outb (IO_PIC1 + 1) T_IRQ0);;
  pic_io (outb (IO_PIC1 + 1) (Z.shiftl 1 IRQ_SLAVE));;
  pic_io (outb (IO_PIC1 + 1) 0x3);;
  pic_io (outb IO_PIC2 0x11);;
  pic_io (outb (IO_PIC2 + 1) (T_IRQ0 + 8));;
  pic_io (outb (IO_PIC2 + 1) IRQ_SLAVE);;
  pic_io (outb (IO_PIC2 + 1) 0x3);;
  pic_io (outb IO_PIC1 0x68);;
  pic_io (outb IO_PIC1 0x0a);;
  pic_io (outb IO_PIC2 0x68);;
  pic_io (outb IO_PIC2 0x0a);;
  m ← gets irqmask;
  if negb (m =? 0xFFFF) then picsetmask m else mret tt.

Definition IO_TIMER1 : Z := 0x040.
Definition TIMER_FREQ : Z := 1193182.
Definition TIMER_DIV (x : Z) : Z := (TIMER_FREQ + x / 2) / x.
Definition TIMER_MODE : Z := IO_TIMER1 + 3.
Definition TIMER_SEL0 : Z := 0x00.
Definition TIMER_RATEGEN : Z := 0x04.
Definition TIMER_16BIT : Z := 0x30.

Definition timerinit : M (pics D) unit :=
  pic_io (outb TIMER_MODE (Z.lor (Z.lor TIMER_SEL0 TIMER_RATEGEN) TIMER_16BIT));;
  pic_io (outb IO_TIMER1 (TIMER_DIV 100 `mod` 256));;
  pic_io (outb IO_TIMER1 (TIMER_DIV 100 / 256));;
  picenable IRQ_TIMER.

End pic.

(** One 8259A: after an ICW1 on its first port it takes ICW2, ICW3 and, if ICW1
    asked for it, ICW4 on its second port; otherwise a byte on its second port
    is the mask of its eight lines. *)
Inductive picphase := PRun | PIcw2 | PIcw3 | PIcw4.
Record pic8259 := Pic8259 { pc_phase : picphase; pc_icw4 : bool; pc_base : Z; pc_cascade : Z; pc_mode : Z; pc_mask : Z }.

Definition pic_write (second : bool) (x : Z) (c : pic8259) : pic8259 :=
  if second then
    match pc_phase c with
    | PRun => Pic8259 PRun (pc_icw4 c) (pc_base c) (pc_cascade c) (pc_mode c) x
    | PIcw2 => Pic8259 PIcw3 (pc_icw4 c) (Z.land x 0xF8) (pc_cascade c) (pc_mode c) (pc_mask c)
    | PIcw3 => Pic8259 (if pc_icw4 c then PIcw4 else PRun) (pc_icw4 c) (pc_base c) x (pc_mode c) (pc_mask c)
    | PIcw4 => Pic8259 PRun (pc_icw4 c) (pc_base c) (pc_cascade c) x (pc_mask c)
    end
  else if Z.testbit x 4 then Pic8259 PIcw2 (Z.testbit x 0) (pc_base c) (pc_cascade c) (pc_mode c) 0
  else c.

(** The two chips behind the ports; other ports leave them alone. *)
Class PicPair (D : Type) `{!Ports D} := {
  pic_rep : D → pic8259 → pic8259 → Prop;
  pic_out1 d c1 c2 b x : pic_rep d c1 c2 → byte_ok x →
    pic_rep (port_out (IO_PIC1 + Z.b2z b) x d) (pic_write b x c1) c2;
  pic_out2 d c1 c2 b x : pic_rep d c1 c2 → byte_ok x →
    pic_rep (port_out (IO_PIC2 + Z.b2z b) x d) c1 (pic_write b x c2);
  pic_other d c1 c2 p x : pic_rep d c1 c2 → byte_ok x →
    p ∉ [IO_PIC1; IO_PIC1 + 1; IO_PIC2; IO_PIC2 + 1] → pic_rep (port_out p x d) c1 c2;
}.

(** The vector with which line [irq] interrupts the processor, if it does: the
    master must let it through, and for the lines of the slave the line that
    the slave is on. *)
Definition pic_vector (c1 c2 : pic8259) (irq : Z) : option Z :=
  if irq <? 8 then
    if negb (Z.testbit (pc_cascade c1) irq) && negb (Z.testbit (pc_mask c1) irq) then Some (pc_base c1 + irq) else None
  else
    let slave := pc_cascade c2 in
    if Z.testbit (pc_cascade c1) slave && negb (Z.testbit (pc_mask c1) slave) && negb (Z.testbit (pc_mask c2) (irq - 8))
    then Some (pc_base c2 + (irq - 8)) else None.

Section pic_proofs.
Context {D : Type} `{!Ports D, !PicPair D}.

(** The chips are set up, with the masks [m1] and [m2]. *)
Definition chips (d : D) (m1 m2 : Z) : Prop :=
  pic_rep d (Pic8259 PRun true T_IRQ0 (Z.shiftl 1 IRQ_SLAVE) 3 m1)
    (Pic8259 PRun true (T_IRQ0 + 8) IRQ_SLAVE 3 m2).

(** The masks are those of the variable. *)
Record pics_ok (s : pics D) (mask : Z) : Prop := PicsOk {
  po_mask : irqmask s = mask;
  po_chips : chips (pic_dev s) (u8 mask) (u8 (Z.shiftr mask 8));
}.

Lemma pic_io_step {A} p x (k : M (pics D) A) s :
  (pic_io (outb p x);; k) s = k (Pics (irqmask s) (port_out (u16 p) (u8 x) (pic_dev s))).
Proof. reflexivity. Qed.

Lemma byte_u8 x : byte_ok (u8 x).
Proof. apply Z.mod_pos_bound. lia. Qed.

Lemma rep_out1 d c1 c2 (b : bool) x :
  pic_rep d c1 c2 → pic_rep (port_out (IO_PIC1 + Z.b2z b) (u8 x) d) (pic_write b (u8 x) c1) c2.
Proof. intros H. apply pic_out1; [done|apply byte_u8]. Qed.
Lemma rep_out2 d c1 c2 (b : bool) x :
  pic_rep d c1 c2 → pic_rep (port_out (IO_PIC2 + Z.b2z b) (u8 x) d) c1 (pic_write b (u8 x) c2).
Proof. intros H. apply pic_out2; [done|apply byte_u8]. Qed.

Lemma picsetmask_ok s m1 m2 mask :
  chips (pic_dev s) m1 m2 → 0 ≤ mask < 2 ^ 16 → ∃ s', picsetmask mask s = Ok tt s' ∧ pics_ok s' mask.
Proof.
  intros Hc Hm. assert (u16 mask = mask) as Hu by (by apply Z.mod_small).
  eexists. split; [reflexivity|]. rewrite Hu. split; [done|]. cbn [pic_dev].
  apply (rep_out1 _ _ _ true mask) in Hc. apply (rep_out2 _ _ _ true (Z.shiftr mask 8)) in Hc. exact Hc.
Qed.

Lemma picenable_ok s mask irq :
  pics_ok s mask → 0 ≤ mask < 2 ^ 16 → 0 ≤ irq →
  ∃ s', picenable irq s = Ok tt s' ∧ pics_ok s' (Z.clearbit mask irq) ∧ 0 ≤ Z.clearbit mask irq < 2 ^ 16.
Proof.
  intros Hs Hm Hi. unfold picenable. rewrite gets_step, (po_mask _ _ Hs).
  replace (Z.land mask (Z.lnot (Z.shiftl 1 irq))) with (Z.clearbit mask irq)
    by (rewrite Z.clearbit_spec', Z.ldiff_land, Z.shiftl_1_l; done).
  assert (0 ≤ Z.clearbit mask irq < 2 ^ 16) as Hr.
  { replace (Z.clearbit mask irq) with (Z.clearbit mask irq `mod` 2 ^ 16); [by apply Z.mod_pos_bound|].
    rewrite <- (Z.mod_small mask (2 ^ 16)) at 2 by done. rewrite !Z.clearbit_spec', <- !Z.land_ones by lia.
    apply Z.bits_inj'. intros n Hn. rewrite !Z.land_spec, !Z.ldiff_spec, Z.land_spec.
    destruct (Z.testbit mask n), (Z.testbit (2 ^ irq) n), (Z.testbit (Z.ones 16) n); done. }
  destruct (picsetmask_ok s _ _ _ (po_chips _ _ Hs) Hr) as (s' & E & Hs'). eauto.
Qed.

Lemma picinit_ok d c1 c2 :
  pic_rep d c1 c2 → ∃ s, picinit (Pics irqmask0 d) = Ok tt s ∧ pics_ok s irqmask0.
Proof.
  intros H.
  apply (rep_out1 _ _ _ true 0xFF), (rep_out2 _ _ _ true 0xFF) in H.
  apply (rep_out1 _ _ _ false 0x11), (rep_out1 _ _ _ true T_IRQ0) in H.
  apply (rep_out1 _ _ _ true (Z.shiftl 1 IRQ_SLAVE)), (rep_out1 _ _ _ true 3) in H.
  apply (rep_out2 _ _ _ false 0x11), (rep_out2 _ _ _ true (T_IRQ0 + 8)) in H.
  apply (rep_out2 _ _ _ true IRQ_SLAVE), (rep_out2 _ _ _ true 3) in H.
  apply (rep_out1 _ _ _ false 0x68), (rep_out1 _ _ _ false 0x0a) in H.
  apply (rep_out2 _ _ _ false 0x68), (rep_out2 _ _ _ false 0x0a) in H.
  set (d' := port_out _ _ (port_out _ _ _)) in H.
  change (∃ s, picsetmask irqmask0 (Pics irqmask0 d') = Ok tt s ∧ pics_ok s irqmask0).
  eapply picsetmask_ok; [exact H|by vm_compute].
Qed.

(** Enabling the lines [l], in this order. *)
Fixpoint picenables (l : list Z) : M (pics D) unit :=
  match l with
  | [] => mret tt
  | irq :: l => picenable irq;; picenables l
  end.

Lemma picenables_ok l s mask :
  pics_ok s mask → 0 ≤ mask < 2 ^ 16 → Forall (λ irq, 0 ≤ irq) l →
  ∃ s', picenables l s = Ok tt s' ∧ pics_ok s' (foldl Z.clearbit mask l) ∧ 0 ≤ foldl Z.clearbit mask l < 2 ^ 16.
Proof.
  intros Hs Hm Hl. revert s mask Hs Hm. induction Hl as [|irq l Hi _ IH]; intros s mask Hs Hm.
  { exists s. done. }
  destruct (picenable_ok s mask irq Hs Hm Hi) as (s1 & E & Hs1 & Hm1). cbn [picenables foldl]. mstep E.
  by apply IH.
Qed.

Lemma testbit_clearbits l mask n :
  0 ≤ n → Forall (λ irq, 0 ≤ irq) l →
  Z.testbit (foldl Z.clearbit mask l) n = Z.testbit mask n && negb (bool_decide (n ∈ l)).
Proof.
  intros Hn Hl. revert mask. induction Hl as [|irq l Hi _ IH]; intros mask; cbn [foldl].
  { rewrite bool_decide_false by apply not_elem_of_nil. by rewrite andb_true_r. }
  rewrite IH. destruct (decide (n = irq)) as [->|Hne].
  - rewrite Z.clearbit_eq. rewrite (bool_decide_true (irq ∈ irq :: l)) by (apply elem_of_cons; by left). by rewrite andb_false_r.
  - rewrite Z.clearbit_neq by congruence. do 2 f_equal. apply bool_decide_ext. rewrite elem_of_cons. tauto.
Qed.

Lemma irqmask0_bits n :
  0 ≤ n < 16 → Z.testbit irqmask0 n = negb (n =? IRQ_SLAVE) ∧ Z.testbit (Z.shiftl 1 IRQ_SLAVE) n = (n =? IRQ_SLAVE).
Proof.
  intros Hn. rewrite <- (Z2Nat.id n) by lia. assert (Z.to_nat n < 16)%nat as Hk by lia.
  generalize dependent (Z.to_nat n). clear n Hn. intros n Hn. do 16 (destruct n as [|n]; [done|]). lia.
Qed.

(** C33: the lines of the 8259A pair.  From any state of the chips, after
    picinit() and picenable() for the lines of [l], line [irq] interrupts the
    processor with vector T_IRQ0 + irq if it is in [l], and does not interrupt
    it otherwise; this takes the four initialization words of each chip in
    their order, and the line that connects the slave left open. *)
Theorem pic_enabled d c1 c2 l :
  pic_rep d c1 c2 → Forall (λ irq, 0 ≤ irq < 16 ∧ irq ≠ IRQ_SLAVE) l →
  ∃ s p1 p2, (picinit;; picenables l) (Pics irqmask0 d) = Ok tt s ∧ pic_rep (pic_dev s) p1 p2 ∧
    ∀ irq, 0 ≤ irq < 16 → pic_vector p1 p2 irq = if bool_decide (irq ∈ l) then Some (T_IRQ0 + irq) else None.
Proof.
  intros H Hl. assert (Forall (λ irq, 0 ≤ irq) l) as Hl0 by (eapply Forall_impl; [exact Hl|]; cbn; lia).
  destruct (picinit_ok d c1 c2 H) as (s1 & E1 & Hs1). mstep E1.
  destruct (picenables_ok l s1 irqmask0 Hs1 ltac:(by vm_compute) Hl0) as (s & E & [_ Hc] & Hm).
  eexists s, _, _. split; [exact E|]. split; [exact Hc|]. intros irq Hirq.
  assert (IRQ_SLAVE ∉ l) as Hslave by (intros Hin; rewrite Forall_forall in Hl; by destruct (Hl _ Hin) as [_ []]).
  assert (Z.testbit (u8 (foldl Z.clearbit irqmask0 l)) IRQ_SLAVE = false) as Hopen.
  { unfold u8. rewrite Z.mod_pow2_bits_low, testbit_clearbits by done. done. }
  unfold pic_vector. cbn [pc_cascade pc_mask pc_base].
  destruct (irqmask0_bits irq Hirq) as [Hbit Hcas]. destruct (Z.ltb_spec irq 8).
  - unfold u8. rewrite Z.mod_pow2_bits_low, testbit_clearbits, Hbit, Hcas by (done || lia).
    destruct (Z.eqb_spec irq IRQ_SLAVE) as [->|]; [by rewrite bool_decide_false|]. cbn [negb andb].
    by destruct (bool_decide (irq ∈ l)).
  - rewrite Hopen. change (Z.testbit (Z.shiftl 1 IRQ_SLAVE) IRQ_SLAVE) with true. cbn [negb andb].
    unfold u8. rewrite Z.mod_pow2_bits_low, Z.shiftr_spec by lia. replace (irq - 8 + 8) with irq by lia.
    rewrite testbit_clearbits, Hbit by (done || lia).
    rewrite (proj2 (Z.eqb_neq irq IRQ_SLAVE)) by (unfold IRQ_SLAVE; lia). cbn [negb andb].
    destruct (bool_decide (irq ∈ l)); cbn [negb]; [f_equal; lia|done].
Qed.
End pic_proofs.

(** ** The I/O APIC *)

Definition IOAPIC : Z := 0xFEC00000.
Definition REG_ID : Z := 0x00.
Definition REG_VER : Z := 0x01.
Definition REG_TABLE : Z := 0x10.
Definition INT_DISABLED : Z := 0x00010000.

Section ioapic.
Context {D : Type} `{!Mmio D}.

(** struct ioapic: the word [reg] at its start and [data] behind the padding. *)
Definition ioapicread (reg : Z) : M D Z := mwrite IOAPIC reg;; mread (IOAPIC + 16).
Definition ioapicwrite (reg data : Z) : M D unit := mwrite IOAPIC reg;; mwrite (IOAPIC + 16) data.

(** [n] interrupts from [i] on. *)
Fixpoint ioapicinit_loop (n : nat) (i : Z) : M D unit :=
  match n with
  | O => mret tt
  | S n =>
      ioapicwrite (REG_TABLE + 2 * i) (Z.lor INT_DISABLED (T_IRQ0 + i));;
      ioapicwrite (REG_TABLE + 2 * i + 1) 0;;
      ioapicinit_loop n (i + 1)
  end.

(** The result is whether the message about the id is printed. *)
Definition ioapicinit (ismp : bool) (ioapicid : Z) : M D bool :=
  if negb ismp then mret false
  else
    v ← ioapicread REG_VER;
    let maxintr := Z.land (Z.shiftr v 16) 0xFF in
    x ← ioapicread REG_ID;
    let id := Z.shiftr x 24 in
    ioapicinit_loop (Z.to_nat (maxintr + 1)) 0;;
    mret (negb (id =? ioapicid)).

Definition ioapicenable (ismp : bool) (irq cpunum : Z) : M D unit :=
  if negb ismp then mret tt
  else
    ioapicwrite (REG_TABLE + 2 * irq) (T_IRQ0 + irq);;
    ioapicwrite (REG_TABLE + 2 * irq + 1) (Z.shiftl cpunum 24).

End ioapic.

(** The chip: the first word selects a register, the word [data] is that
    register.  The registers of the redirection table keep what is written. *)
Class IoApic (D : Type) `{!Mmio D} := {
  io_rep : D → Z → gmap Z Z → Prop;
  io_select d sel r x : io_rep d sel r → 0 ≤ x < 2 ^ 8 → io_rep (reg_write IOAPIC x d) x r;
  io_read d sel r x : io_rep d sel r → r !! sel = Some x →
    (reg_read (IOAPIC + 16) d).1 = x ∧ io_rep (reg_read (IOAPIC + 16) d).2 sel r;
  io_write d sel r x : io_rep d sel r → REG_TABLE ≤ sel → is_Some (r !! sel) →
    io_rep (reg_write (IOAPIC + 16) x d) sel (<[sel := x]> r);
}.

(** Where interrupt [irq] goes: the vector and the APIC id. *)
Definition io_vector (r : gmap Z Z) (irq : Z) : option (Z * Z) :=
  lo ← r !! (REG_TABLE + 2 * irq); hi ← r !! (REG_TABLE + 2 * irq + 1);
  if Z.testbit lo 16 then None else Some (Z.land lo 0xFF, Z.shiftr hi 24).

Section ioapic_proofs.
Context {D : Type} `{!Mmio D, !IoApic D}.

(** The table has the interrupts 0 to [n]. *)
Definition io_table (r : gmap Z Z) (n : Z) : Prop := ∀ k, REG_TABLE ≤ k < REG_TABLE + 2 * n + 2 → is_Some (r !! k).

Lemma ioapicwrite_ok d sel r reg x :
  io_rep d sel r → REG_TABLE ≤ reg < 2 ^ 8 → is_Some (r !! reg) →
  ∃ d', ioapicwrite reg x d = Ok tt d' ∧ io_rep d' reg (<[reg := u32 x]> r).
Proof.
  intros H Hreg Hr. unfold REG_TABLE in *. eexists. split; [reflexivity|]. cbv beta.
  rewrite (u32_small reg) by lia. apply io_write; [|unfold REG_TABLE; lia|done]. eapply io_select; [exact H|lia].
Qed.

Lemma ioapicread_ok d sel r reg x :
  io_rep d sel r → 0 ≤ reg < 2 ^ 8 → r !! reg = Some x → 0 ≤ x < 2 ^ 32 →
  ∃ d', ioapicread reg d = Ok x d' ∧ io_rep d' reg r.
Proof.
  intros H Hreg Hx Hr. apply (io_select _ _ _ reg) in H; [|done].
  destruct (io_read _ _ _ x H Hx) as [E Hd]. unfold ioapicread. rewrite mwrite_step.
  rewrite (u32_small reg) by lia. eexists. split; [|exact Hd]. unfold mread. by rewrite E, u32_small.
Qed.

Lemma io_table_insert r n k x : io_table r n → io_table (<[k := x]> r) n.
Proof.
  intros H j Hj. destruct (decide (k = j)) as [->|]; [rewrite lookup_insert_eq; by eexists|].
  rewrite lookup_insert_ne by done. by apply H.
Qed.

(** The table with interrupt [i] masked, and with it enabled for [cpu]. *)
Definition io_masked (i : Z) (r : gmap Z Z) : gmap Z Z :=
  <[REG_TABLE + 2 * i + 1 := 0]> (<[REG_TABLE + 2 * i := Z.lor INT_DISABLED (T_IRQ0 + i)]> r).
Definition io_enabled (i cpu : Z) (r : gmap Z Z) : gmap Z Z :=
  <[REG_TABLE + 2 * i + 1 := u32 (Z.shiftl cpu 24)]> (<[REG_TABLE + 2 * i := T_IRQ0 + i]> r).

Lemma io_vector_ne r i lo hi irq :
  irq ≠ i → io_vector (<[REG_TABLE + 2 * i + 1 := hi]> (<[REG_TABLE + 2 * i := lo]> r)) irq = io_vector r irq.
Proof. intros Hne. unfold io_vector. by rewrite !lookup_insert_ne by lia. Qed.

Lemma io_vector_masked r i : 0 ≤ i < 120 → io_vector (io_masked i r) i = None.
Proof.
  intros Hi. unfold io_vector, io_masked. rewrite (lookup_insert_ne _ (REG_TABLE + 2 * i + 1) (REG_TABLE + 2 * i)) by lia.
  rewrite !lookup_insert_eq. cbn [mbind option_bind].
  rewrite Z.lor_spec. done.
Qed.

Lemma io_vector_enabled r i cpu :
  0 ≤ i < 120 → 0 ≤ cpu < 2 ^ 8 → io_vector (io_enabled i cpu r) i = Some (T_IRQ0 + i, cpu).
Proof.
  intros Hi Hc. unfold io_vector, io_enabled. rewrite (lookup_insert_ne _ (REG_TABLE + 2 * i + 1) (REG_TABLE + 2 * i)) by lia.
  rewrite !lookup_insert_eq. cbn [mbind option_bind].
  unfold T_IRQ0 in *. rewrite (Z.bits_above_log2 (32 + i)) by (try apply Z.log2_lt_pow2; lia).
  rewrite u32_small by (rewrite Z.shiftl_mul_pow2; lia). rewrite Z.shiftr_shiftl_l by lia. change (24 - 24) with 0.
  rewrite Z.shiftl_0_r. do 2 f_equal. change 0xFF with (Z.ones 8). rewrite Z.land_ones by lia. apply Z.mod_small. lia.
Qed.

Lemma ioapicinit_loop_ok n : ∀ i d sel r m,
  io_rep d sel r → io_table r m → 0 ≤ i → i + Z.of_nat n ≤ m + 1 → m < 120 →
  ∃ d' sel' r', ioapicinit_loop n i d = Ok tt d' ∧ io_rep d' sel' r' ∧ io_table r' m ∧
    (∀ irq, i ≤ irq < i + Z.of_nat n → io_vector r' irq = None) ∧
    (∀ irq, irq < i ∨ i + Z.of_nat n ≤ irq → io_vector r' irq = io_vector r irq).
Proof.
  induction n as [|n IH]; intros i d sel r m H Ht Hi Hn Hm.
  { exists d, sel, r. split; [done|]. split; [done|]. split; [done|]. split; [lia|done]. }
  cbn [ioapicinit_loop]. unfold REG_TABLE in *.
  destruct (ioapicwrite_ok d sel r (16 + 2 * i) (Z.lor INT_DISABLED (T_IRQ0 + i)) H) as (d1 & E1 & H1);
    [unfold REG_TABLE; lia|apply Ht; unfold REG_TABLE; lia|]. mstep E1.
  apply (io_table_insert _ _ (16 + 2 * i) (u32 (Z.lor INT_DISABLED (T_IRQ0 + i)))) in Ht.
  destruct (ioapicwrite_ok d1 _ _ (16 + 2 * i + 1) 0 H1) as (d2 & E2 & H2);
    [unfold REG_TABLE; lia|apply Ht; unfold REG_TABLE; lia|]. mstep E2.
  apply (io_table_insert _ _ (16 + 2 * i + 1) (u32 0)) in Ht.
  destruct (IH (i + 1) d2 _ _ m H2 Ht) as (d' & sel' & r' & E & H' & Ht' & Hv & Hk); [lia..|].
  exists d', sel', r'. split; [done|]. split; [done|]. split; [done|].
  assert (u32 (Z.lor INT_DISABLED (T_IRQ0 + i)) = Z.lor INT_DISABLED (T_IRQ0 + i)) as Hu.
  { apply u32_small. apply (lor_range _ _ 32); unfold INT_DISABLED, T_IRQ0; lia. }
  split; intros irq Hirq.
  - destruct (decide (irq = i)) as [->|]; [|apply Hv; lia]. rewrite Hk by lia. rewrite Hu. apply (io_vector_masked r). lia.
  - rewrite Hk by lia. apply (io_vector_ne r i). lia.
Qed.

Lemma ioapicenable_ok d sel r m irq cpu :
  io_rep d sel r → io_table r m → 0 ≤ irq ≤ m → m < 120 → 0 ≤ cpu < 2 ^ 8 →
  ∃ d' sel' r', ioapicenable true irq cpu d = Ok tt d' ∧ io_rep d' sel' r' ∧ io_table r' m ∧
    io_vector r' irq = Some (T_IRQ0 + irq, cpu) ∧ (∀ j, j ≠ irq → io_vector r' j = io_vector r j).
Proof.
  intros H Ht Hi Hm Hc. unfold ioapicenable. cbn [negb].
  destruct (ioapicwrite_ok d sel r (REG_TABLE + 2 * irq) (T_IRQ0 + irq) H) as (d1 & E1 & H1);
    [unfold REG_TABLE; lia|apply Ht; unfold REG_TABLE; lia|]. mstep E1.
  apply (io_table_insert _ _ (REG_TABLE + 2 * irq) (u32 (T_IRQ0 + irq))) in Ht.
  destruct (ioapicwrite_ok d1 _ _ (REG_TABLE + 2 * irq + 1) (Z.shiftl cpu 24) H1) as (d2 & E2 & H2);
    [unfold REG_TABLE; lia|apply Ht; unfold REG_TABLE; lia|].
  eexists _, _, _. split; [exact E2|]. split; [exact H2|]. split; [by apply io_table_insert|].
  rewrite (u32_small (T_IRQ0 + irq)) by (unfold T_IRQ0; lia). split.
  - apply (io_vector_enabled r); [lia|done].
  - intros j Hj. by apply io_vector_ne.
Qed.

(** Enabling the interrupts [l] for their processors, in this order. *)
Fixpoint ioapicenables (l : list (Z * Z)) : M D unit :=
  match l with
  | [] => mret tt
  | (irq, cpu) :: l => ioapicenable true irq cpu;; ioapicenables l
  end.

(** The processor that [irq] is last enabled for. *)
Definition enabled_for (l : list (Z * Z)) (irq : Z) (dest : option (Z * Z)) : option (Z * Z) :=
  foldl (λ dest p, if irq =? p.1 then Some (T_IRQ0 + irq, p.2) else dest) dest l.

Lemma ioapicenables_ok l : ∀ d sel r m,
  io_rep d sel r → io_table r m → m < 120 → Forall (λ p, 0 ≤ p.1 ≤ m ∧ 0 ≤ p.2 < 2 ^ 8) l →
  ∃ d' sel' r', ioapicenables l d = Ok tt d' ∧ io_rep d' sel' r' ∧
    ∀ irq, io_vector r' irq = enabled_for l irq (io_vector r irq).
Proof.
  induction l as [|[irq cpu] l IH]; intros d sel r m H Ht Hm Hl.
  { by exists d, sel, r. }
  apply Forall_cons in Hl as [[Hi Hc] Hl]. cbn [fst snd] in *.
  destruct (ioapicenable_ok d sel r m irq cpu H Ht Hi Hm Hc) as (d1 & sel1 & r1 & E1 & H1 & Ht1 & Hv & Hk).
  cbn [ioapicenables]. mstep E1. destruct (IH d1 sel1 r1 m H1 Ht1 Hm Hl) as (d' & sel' & r' & E & H' & Hv').
  exists d', sel', r'. split; [done|]. split; [done|]. intros j. rewrite Hv'. unfold enabled_for. cbn [foldl fst snd].
  f_equal. destruct (Z.eqb_spec j irq) as [->|]; [done|]. by apply Hk.
Qed.

(** on a multiprocessor, after ioapicinit() and ioapicenable() for the
    pairs of [l], interrupt [irq] of the I/O APIC goes, with vector
    T_IRQ0 + irq, to the processor that it was last enabled for, and to none if
    it is not in [l].  The message about the id is printed exactly when the
    chip has another id than the multiprocessor table says. *)
Theorem ioapic_enabled d sel r ioapicid v id l :
  io_rep d sel r → r !! REG_VER = Some v → r !! REG_ID = Some id → 0 ≤ v < 2 ^ 32 → 0 ≤ id < 2 ^ 32 →
  let maxintr := Z.land (Z.shiftr v 16) 0xFF in
  maxintr < 120 → io_table r maxintr → Forall (λ p, 0 ≤ p.1 ≤ maxintr ∧ 0 ≤ p.2 < 2 ^ 8) l →
  ∃ b d1 d2 sel' r', ioapicinit true ioapicid d = Ok b d1 ∧ b = negb (id / 2 ^ 24 =? ioapicid) ∧
    ioapicenables l d1 = Ok tt d2 ∧ io_rep d2 sel' r' ∧
    ∀ irq, 0 ≤ irq ≤ maxintr → io_vector r' irq = enabled_for l irq None.
Proof.
  intros H Hv Hid Hvr Hidr maxintr Hm Ht Hl. unfold ioapicinit. cbn [negb].
  destruct (ioapicread_ok d sel r REG_VER v H ltac:(done) Hv Hvr) as (d1 & E1 & H1). mstep E1. fold maxintr. cbv zeta.
  destruct (ioapicread_ok d1 _ r REG_ID id H1 ltac:(done) Hid Hidr) as (d2 & E2 & H2). mstep E2.
  assert (0 ≤ maxintr) as H0 by (apply Z.land_nonneg; right; done).
  destruct (ioapicinit_loop_ok (Z.to_nat (maxintr + 1)) 0 d2 _ r maxintr H2 Ht ltac:(done) ltac:(lia) Hm)
    as (d3 & sel3 & r3 & E3 & H3 & Ht3 & Hmask & _). mstep E3.
  destruct (ioapicenables_ok l d3 sel3 r3 maxintr H3 Ht3 Hm Hl) as (d4 & sel4 & r4 & E4 & H4 & Hv4).
  eexists _, d3, d4, sel4, r4. split; [reflexivity|]. split; [by rewrite Z.shiftr_div_pow2|].
  split; [done|]. split; [done|]. intros irq Hirq. rewrite Hv4, Hmask by lia. done.
Qed.

End ioapic_proofs.

(** ** Chips *)

Module Example.

(** A pair of controllers in some state, behind the ports. *)
#[local] Instance toy_pics : Ports (pic8259 * pic8259) := {|
  port_in p d := (0, d);
  port_in32 p d := (0, d);
  port_out p x d :=
    if p =? IO_PIC1 then (pic_write false x d.1, d.2)
    else if p =? IO_PIC1 + 1 then (pic_write true x d.1, d.2)
    else if p =? IO_PIC2 then (d.1, pic_write false x d.2)
    else if p =? IO_PIC2 + 1 then (d.1, pic_write true x d.2)
    else d;
|}.

#[local] Program Instance toy_pair : PicPair (pic8259 * pic8259) := {| pic_rep d c1 c2 := d = (c1, c2) |}.
Next Obligation. by intros d c1 c2 [] x -> Hx. Qed.
Next Obligation. by intros d c1 c2 [] x -> Hx. Qed.
Next Obligation.
  intros d c1 c2 p x -> Hx Hp. cbn. rewrite !not_elem_of_cons in Hp. destruct Hp as (H1 & H2 & H3 & H4 & _).
  by rewrite !(proj2 (Z.eqb_neq p _)).
Qed.

Lemma pic_enabled_witness :
  ∃ s p1 p2, (picinit;; picenables [IRQ_COM1; IRQ_IDE]) (Pics irqmask0
      (Pic8259 PIcw2 false 0 0 0 0, Pic8259 PRun true 8 0 0 0)) = Ok tt s ∧ pic_rep (pic_dev s) p1 p2 ∧
    pic_vector p1 p2 IRQ_IDE = Some 46 ∧ pic_vector p1 p2 IRQ_KBD = None.
Proof.
  assert (0 ≤ IRQ_IDE < 16 ∧ 0 ≤ IRQ_KBD < 16) as [H1 H2] by done.
  destruct (pic_enabled (Pic8259 PIcw2 false 0 0 0 0, Pic8259 PRun true 8 0 0 0)
    (Pic8259 PIcw2 false 0 0 0 0) (Pic8259 PRun true 8 0 0 0) [IRQ_COM1; IRQ_IDE]) as (s & p1 & p2 & E & Hp & H).
  - reflexivity.
  - repeat constructor; done.
  - exists s, p1, p2. split; [exact E|]. split; [exact Hp|]. 
    split; [rewrite (H _ H1)|rewrite (H _ H2)]; vm_compute; reflexivity.
Defined.

(** An I/O APIC with 24 interrupts and id 2. *)
#[local] Instance toy_mmio : Mmio (Z * gmap Z Z) := {|
  reg_read a d := (if a =? IOAPIC + 16 then default 0 (d.2 !! d.1) else d.1, d);
  reg_write a x d :=
    if a =? IOAPIC then (x, d.2)
    else if (a =? IOAPIC + 16) && (REG_TABLE <=? d.1) then (d.1, <[d.1 := x]> d.2) else d;
|}.

#[local] Program Instance toy_ioapic : IoApic (Z * gmap Z Z) := {| io_rep d sel r := d = (sel, r) |}.
Next Obligation. by intros d sel r x -> Hx. Qed.
Next Obligation. intros d sel r x -> Hx. cbn. by rewrite Hx. Qed.
Next Obligation. intros d sel r x -> Hs Hr. cbn. by rewrite (proj2 (Z.leb_le _ _)). Qed.

Definition ex_ioregs : gmap Z Z :=
  <[REG_ID := Z.shiftl 2 24]> (<[REG_VER := Z.lor (Z.shiftl 23 16) 0x11]> (put_bytes REG_TABLE (replicate 48 7) ∅)).

Lemma ex_iotable : io_table ex_ioregs 23.
Proof.
  intros k Hk. unfold ex_ioregs, REG_TABLE in *. rewrite !lookup_insert_ne by (unfold REG_ID, REG_VER; lia).
  rewrite lookup_put_bytes, length_replicate, decide_True by lia. apply lookup_lt_is_Some. rewrite length_replicate. lia.
Qed.

Lemma ioapic_enabled_witness :
  ∃ b d1 d2 sel r, ioapicinit true 2 (0, ex_ioregs) = Ok b d1 ∧ b = false ∧
    ioapicenables [(IRQ_KBD, 0); (IRQ_IDE, 1)] d1 = Ok tt d2 ∧ io_rep d2 sel r ∧
    io_vector r IRQ_IDE = Some (46, 1) ∧ io_vector r IRQ_COM1 = None.
Proof.
  assert (0 ≤ IRQ_IDE ≤ 23 ∧ 0 ≤ IRQ_COM1 ≤ 23) as [H1 H2] by done.
  destruct (ioapic_enabled (0, ex_ioregs) 0 ex_ioregs 2 (Z.lor (Z.shiftl 23 16) 0x11) (Z.shiftl 2 24)
    [(IRQ_KBD, 0); (IRQ_IDE, 1)]) as (b & d1 & d2 & sel & r & E1 & Eb & E2 & Hr & H).
  - reflexivity.
  - vm_compute. reflexivity.
  - vm_compute. reflexivity.
  - by vm_compute.
  - by vm_compute.
  - by vm_compute.
  - exact ex_iotable.
  - repeat constructor; by vm_compute.
  - exists b, d1, d2, sel, r. split; [exact E1|]. split; [exact Eb|]. split; [exact E2|]. split; [exact Hr|].
    split; [rewrite (H _ H1)|rewrite (H _ H2)]; vm_compute; reflexivity.
Defined.

End Example.
