(* ===== verification/Lapic.v ===== *)
(** * The local interrupt controller and the clock (lapic.c, date.h)

    Every processor has one.  [Lapic] states what the code relies on of it: it
    keeps what is written to its registers, and a command register through which
    one processor interrupts, resets and starts others. *)

From S2P Require Import Prelude Params Mem Str Mmu X86.

(** Registers, as indices of the array [lapic]. *)
Definition ID : Z := 0x0020 / 4.
Definition VER : Z := 0x0030 / 4.
Definition TPR : Z := 0x0080 / 4.
Definition EOI : Z := 0x00B0 / 4.
Definition SVR : Z := 0x00F0 / 4.
Definition ENABLE : Z := 0x00000100.
Definition ESR : Z := 0x0280 / 4.
Definition ICRLO : Z := 0x0300 / 4.
Definition INIT : Z := 0x00000500.
Definition STARTUP : Z := 0x00000600.
Definition DELIVS : Z := 0x00001000.
Definition ASSERT : Z := 0x00004000.
Definition LEVEL : Z := 0x00008000.
Definition BCAST : Z := 0x00080000.
Definition ICRHI : Z := 0x0310 / 4.
Definition TIMER : Z := 0x0320 / 4.
Definition X1 : Z := 0x0000000B.
Definition PERIODIC : Z := 0x00020000.
Definition PCINT : Z := 0x0340 / 4.
Definition LINT0 : Z := 0x0350 / 4.
Definition LINT1 : Z := 0x0360 / 4.
Definition ERROR : Z := 0x0370 / 4.
Definition MASKED : Z := 0x00010000.
Definition TICR : Z := 0x0380 / 4.
Definition TDCR : Z := 0x03E0 / 4.

Section lapic.
Context {D : Type} `{!Mmio D}.

Definition lapicw (index value : Z) : M D unit := mwrite index value;; mread ID;; mret tt.

(** while(lapic[ICRLO] & DELIVS); [polls] bounds the number of reads. *)
Fixpoint wait_delivs (polls : nat) : M D unit :=
  match polls with
  | O => nofuel
  | S polls => x ← mread ICRLO; if negb (Z.land x DELIVS =? 0) then wait_delivs polls else mret tt
  end.

(** [lapic] is whether the pointer is set. *)
Definition lapicinit (polls : nat) (lapic : bool) : M D unit :=
  if negb lapic then mret tt
  else
    lapicw SVR (Z.lor ENABLE (T_IRQ0 + IRQ_SPURIOUS));;
    lapicw TDCR X1;;
    lapicw TIMER (Z.lor PERIODIC (T_IRQ0 + IRQ_TIMER));;
    lapicw TICR 10000000;;
    lapicw LINT0 MASKED;;
    lapicw LINT1 MASKED;;
    v ← mread VER;
    (if 4 <=? Z.land (Z.shiftr v 16) 0xFF then lapicw PCINT MASKED else mret tt);;
    lapicw ERROR (T_IRQ0 + IRQ_ERROR);;
    lapicw ESR 0;;
    lapicw ESR 0;;
    lapicw EOI 0;;
    lapicw ICRHI 0;;
    lapicw ICRLO (Z.lor (Z.lor BCAST INIT) LEVEL);;
    wait_delivs polls;;
    lapicw TPR 0.

Definition lapiceoi (lapic : bool) : M D unit := if lapic then lapicw EOI 0 else mret tt.

(** The loop over cpus[], whose APIC ids are [ids]. *)
Fixpoint cpunum_loop (ids : list Z) (apicid i : Z) : option Z :=
  match ids with
  | [] => None
  | id :: ids => if id =? apicid then Some i else cpunum_loop ids apicid (i + 1)
  end.

(** The static counter of cpunum(), and the addresses it has complained of. *)
Record cpunums := CpuNums { cn_n : Z; cn_out : list Z; cn_dev : D }.

Definition on_lapic {A} : M D A → M cpunums A := zoom cn_dev (λ d s, CpuNums (cn_n s) (cn_out s) d).

(** [fl_if] is FL_IF of the flags and [ra] the return address. *)
Definition cpunum (lapic : bool) (ids : list Z) (fl_if : bool) (ra : Z) : M cpunums Z :=
  (if fl_if then
     n ← gets cn_n;
     modify (λ s, CpuNums (s32 (n + 1)) (cn_out s) (cn_dev s));;
     if n =? 0 then modify (λ s, CpuNums (cn_n s) (cn_out s ++ [ra]) (cn_dev s)) else mret tt
   else mret tt);;
  if negb lapic then mret 0
  else
    x ← on_lapic (mread ID);
    match cpunum_loop ids (Z.shiftr x 24) 0 with
    | Some i => mret i
    | None => panic "unknown apicid"
    end.

End lapic.
Arguments cpunums : clear implicits.
Arguments CpuNums {D}.

(** Starting another processor: the CMOS shutdown code, the warm reset vector
    and the interrupts that reset and start it. *)
Section startap.
Context {D : Type} `{!Ports D, !Mmio D}.

Definition lapicstartap (apicid addr : Z) : M (machine D) unit :=
  on_dev (outb 0x70 0xF);;
  on_dev (outb (0x70 + 1) 0x0A);;
  let wrv := P2V (Z.lor (Z.shiftl 0x40 4) 0x67) in
  on_phys (store16 wrv 0);;
  on_phys (store16 (wrv + 2) (Z.shiftr addr 4));;
  on_dev (lapicw ICRHI (Z.shiftl apicid 24));;
  on_dev (lapicw ICRLO (Z.lor (Z.lor INIT LEVEL) ASSERT));;
  on_dev (lapicw ICRLO (Z.lor INIT LEVEL));;
  on_dev (lapicw ICRHI (Z.shiftl apicid 24));;
  on_dev (lapicw ICRLO (Z.lor STARTUP (Z.shiftr addr 12)));;
  on_dev (lapicw ICRHI (Z.shiftl apicid 24));;
  on_dev (lapicw ICRLO (Z.lor STARTUP (Z.shiftr addr 12))).

End startap.

(** ** The controller *)

(** [lp_rep d r sent]: the registers hold [r], and [sent] are the interrupts
    that went out, as their destinations and commands.  A write to ICRLO sends
    one to the destination in ICRHI; it is delivered after at most [lp_delay]
    reads of ICRLO. *)
Class Lapic (D : Type) `{!Mmio D} := {
  lp_rep : D → gmap Z Z → list (Z * Z) → Prop;
  lp_pend : D → nat;
  lp_delay : nat;
  lp_bound d r l : lp_rep d r l → (lp_pend d ≤ lp_delay)%nat;
  lp_write d r l i x : lp_rep d r l → i ≠ ICRLO → lp_rep (reg_write i x d) (<[i := x]> r) l;
  lp_send d r l x : lp_rep d r l →
    lp_rep (reg_write ICRLO x d) (<[ICRLO := x]> r) (l ++ [(default 0 (r !! ICRHI), x)]);
  lp_read d r l i : lp_rep d r l → lp_rep (reg_read i d).2 r l;
  lp_value d r l i x : lp_rep d r l → i ∈ [ID; VER] → r !! i = Some x → (reg_read i d).1 = x;
  lp_delivs d r l : lp_rep d r l →
    Z.land (u32 (reg_read ICRLO d).1) DELIVS = 0 ∨ (lp_pend (reg_read ICRLO d).2 < lp_pend d)%nat;
}.

Section lapic_proofs.
Context {D : Type} `{!Mmio D, !Lapic D}.

Lemma lapicw_ok d r l i x :
  lp_rep d r l → i ≠ ICRLO → ∃ d', lapicw i x d = Ok tt d' ∧ lp_rep d' (<[i := u32 x]> r) l.
Proof.
  intros H Hi. eexists. split; [reflexivity|]. by apply lp_read, lp_write.
Qed.

Lemma lapicw_send d r l x :
  lp_rep d r l →
  ∃ d', lapicw ICRLO x d = Ok tt d' ∧ lp_rep d' (<[ICRLO := u32 x]> r) (l ++ [(default 0 (r !! ICRHI), u32 x)]).
Proof. intros H. eexists. split; [reflexivity|]. by apply lp_read, lp_send. Qed.

Lemma wait_delivs_ok polls : ∀ d r l,
  lp_rep d r l → (lp_pend d < polls)%nat → ∃ d', wait_delivs polls d = Ok tt d' ∧ lp_rep d' r l.
Proof.
  induction polls as [|polls IH]; intros d r l H Hp; [lia|]. cbn [wait_delivs]. rewrite mread_step.
  apply (lp_read d r l ICRLO) in H as H'. destruct (lp_delivs d r l H) as [->|Hd]; [by eexists|].
  destruct (_ =? 0); [by eexists|]. cbn [negb]. eapply IH; [exact H'|lia].
Qed.

Lemma lapicw_step {A} (k : M D A) d r l i x :
  lp_rep d r l → i ≠ ICRLO → ∃ d', (lapicw i x;; k) d = k d' ∧ lp_rep d' (<[i := u32 x]> r) l.
Proof. intros H Hi. destruct (lapicw_ok d r l i x H Hi) as (d' & E & H'). exists d'. by mstep E. Qed.

Lemma pcint_ok d r l n :
  lp_rep d r l →
  ∃ d' r', (if 4 <=? n then lapicw PCINT MASKED else mret tt) d = Ok tt d' ∧ lp_rep d' r' l ∧
    (4 ≤ n → r' !! PCINT = Some MASKED) ∧ ∀ i, i ≠ PCINT → r' !! i = r !! i.
Proof.
  intros H. destruct (Z.leb_spec 4 n).
  - destruct (lapicw_ok d r l PCINT MASKED H ltac:(done)) as (d' & E & H'). eexists d', _. split; [exact E|].
    split; [exact H'|]. split; [by rewrite lookup_insert_eq|]. intros i Hi. by apply lookup_insert_ne.
  - exists d, r. split; [done|]. split; [done|]. split; [lia|done].
Qed.

(** What lapicinit() leaves: the timer periodic on its vector, the local lines
    masked, errors and spurious interrupts on their vectors, all priorities
    accepted, and the arbitration synchronised by one broadcast. *)
Lemma lapicinit_ok polls d r l v :
  lp_rep d r l → (lp_delay < polls)%nat → r !! VER = Some v → 0 ≤ v < 2 ^ 32 →
  ∃ d' r', lapicinit polls true d = Ok tt d' ∧ lp_rep d' r' (l ++ [(0, Z.lor (Z.lor BCAST INIT) LEVEL)]) ∧
    r' !! SVR = Some (Z.lor ENABLE (T_IRQ0 + IRQ_SPURIOUS)) ∧ r' !! TIMER = Some (Z.lor PERIODIC (T_IRQ0 + IRQ_TIMER)) ∧
    r' !! LINT0 = Some MASKED ∧ r' !! LINT1 = Some MASKED ∧ r' !! ERROR = Some (T_IRQ0 + IRQ_ERROR) ∧
    r' !! TPR = Some 0 ∧ (4 ≤ (v / 2 ^ 16) `mod` 2 ^ 8 → r' !! PCINT = Some MASKED).
Proof.
  intros H Hp Hv Hvr. unfold lapicinit. cbn [negb].
  do 6 (match goal with |- context [(lapicw ?i ?x;; _) ?d0] =>
    eapply (lapicw_step _ d0 _ _ i x) in H as (? & -> & H); [|done] end).
  rewrite mread_step. erewrite (lp_value _ _ l VER v) by
    (first [exact H|by right; left|rewrite !lookup_insert_ne by done; exact Hv]).
  apply (lp_read _ _ _ VER) in H. rewrite (u32_small v) by done.
  replace (Z.land (Z.shiftr v 16) 0xFF) with ((v / 2 ^ 16) `mod` 2 ^ 8)
    by (change 0xFF with (Z.ones 8); by rewrite Z.land_ones, Z.shiftr_div_pow2 by lia).
  apply (pcint_ok _ _ _ ((v / 2 ^ 16) `mod` 2 ^ 8)) in H as (d1 & r1 & E1 & H & Hpc & Hk). mstep E1. clear E1.
  do 5 (match goal with |- context [(lapicw ?i ?x;; _) ?d0] =>
    eapply (lapicw_step _ d0 _ _ i x) in H as (? & -> & H); [|done] end).
  apply (lapicw_send _ _ _ (Z.lor (Z.lor BCAST INIT) LEVEL)) in H as (d2 & E2 & H). mstep E2. clear E2.
  pose proof (lp_bound _ _ _ H) as Hb.
  eapply (wait_delivs_ok polls) in H as (d3 & E3 & H); [|lia]. mstep E3. clear E3.
  apply (lapicw_ok _ _ _ TPR 0) in H as (d4 & E4 & H); [|done].
  eexists d4, _. split; [exact E4|]. split.
  { rewrite lookup_insert_eq in H. exact H. }
  repeat (split; [repeat (rewrite lookup_insert_ne by done); first [by rewrite lookup_insert_eq|
    rewrite Hk by done; repeat (rewrite lookup_insert_ne by done); by rewrite lookup_insert_eq]|]).
  intros Hn. rewrite !lookup_insert_ne by done. by apply Hpc.
Qed.

(** cpunum() finds the processor with the id of the controller. *)
Lemma cpunum_loop_ok ids id i k :
  cpunum_loop ids id k = Some i ↔ ∃ j, i = k + Z.of_nat j ∧ ids !! j = Some id ∧ ∀ j', (j' < j)%nat → ids !! j' ≠ Some id.
Proof.
  revert k. induction ids as [|x ids IH]; intros k; cbn [cpunum_loop].
  { split; [done|]. by intros (j & _ & Hj & _). }
  destruct (Z.eqb_spec x id) as [->|Hne].
  - split; [intros [= <-]; exists 0%nat; split; [lia|]; split; [done|lia]|].
    intros ([|j] & -> & Hj & Hmin); [f_equal; lia|]. by destruct (Hmin 0%nat ltac:(lia)).
  - rewrite IH. split.
    + intros (j & -> & Hj & Hmin). exists (S j). split; [lia|]. split; [done|].
      intros [|j'] Hj'; [cbn; congruence|]. apply Hmin. lia.
    + intros ([|j] & -> & Hj & Hmin); [cbn in Hj; congruence|]. exists j. split; [lia|]. split; [done|].
      intros j' Hj'. apply (Hmin (S j')). lia.
Qed.

(** On the processor whose APIC id is that of cpus[i], cpunum() is [i]; on a
    processor with another id it panics. *)
Lemma cpunum_ok d r l x ids n out ra :
  lp_rep d r l → r !! ID = Some x → 0 ≤ x < 2 ^ 32 → NoDup ids →
  (∀ i, ids !! i = Some (x / 2 ^ 24) →
     ∃ d', cpunum true ids false ra (CpuNums n out d) = Ok (Z.of_nat i) (CpuNums n out d') ∧ lp_rep d' r l) ∧
  (x / 2 ^ 24 ∉ ids → cpunum true ids false ra (CpuNums n out d) = Panic "unknown apicid").
Proof.
  intros H Hx Hr Hnd. unfold cpunum. rewrite ret_step. cbn [negb].
  assert (∀ B (k : Z → M (cpunums D) B), (y ← on_lapic (mread ID); k y) (CpuNums n out d) =
    k x (CpuNums n out (reg_read ID d).2)) as Hstep.
  { intros B k. unfold on_lapic, zoom, mread, mbind, M_bind. cbn [cn_dev cn_n cn_out].
    rewrite (lp_value d r l ID x H) by (done || by left). by rewrite u32_small. }
  rewrite Hstep, Z.shiftr_div_pow2 by lia. split.
  - intros i Hi. assert (cpunum_loop ids (x / 2 ^ 24) 0 = Some (Z.of_nat i)) as ->.
    { apply cpunum_loop_ok. exists i. split; [lia|]. split; [done|]. intros j Hj Hj'.
      rewrite NoDup_alt in Hnd. assert (j = i) by (by eapply Hnd). lia. }
    eexists. split; [reflexivity|]. by apply lp_read.
  - intros Hni. destruct (cpunum_loop ids (x / 2 ^ 24) 0) as [i|] eqn:E; [|done].
    apply cpunum_loop_ok in E as (j & _ & Hj & _). by apply list_elem_of_lookup_2 in Hj.
Qed.

End lapic_proofs.

Section startap_proofs.
Context {D : Type} `{!Ports D, !Mmio D, !Lapic D}.

(** The port instructions do not reach the controller. *)
Hypothesis lp_port : ∀ (d : D) r l p x, lp_rep d r l → lp_rep (port_out p x d) r l.

Lemma on_dev_w {A} (k : M (machine D) A) m d r l i x :
  lp_rep d r l → i ≠ ICRLO →
  ∃ d', (on_dev (lapicw i x);; k) (Mach m d) = k (Mach m d') ∧ lp_rep d' (<[i := u32 x]> r) l.
Proof using Type.
  clear lp_port. intros H Hi. destruct (lapicw_ok d r l i x H Hi) as (d' & E & H'). exists d'.
  by mstep (on_dev_ok _ m _ _ _ E).
Qed.

Lemma on_dev_send {A} (k : M (machine D) A) m d r l hi x :
  lp_rep d (<[ICRHI := hi]> r) l →
  ∃ d', (on_dev (lapicw ICRLO x);; k) (Mach m d) = k (Mach m d') ∧
    lp_rep d' (<[ICRHI := hi]> (<[ICRLO := u32 x]> r)) (l ++ [(hi, u32 x)]).
Proof using Type.
  clear lp_port. intros H. destruct (lapicw_send d _ l x H) as (d' & E & H'). exists d'.
  mstep (on_dev_ok _ m _ _ _ E). split; [done|]. rewrite lookup_insert_eq in H'. cbn [default] in H'.
  by rewrite insert_insert_ne in H' by done.
Qed.

(** The warm reset vector. *)
Definition WRV : Z := P2V (Z.lor (Z.shiftl 0x40 4) 0x67).

(** lapicstartap() points the warm reset vector at [addr] and sends, to the
    processor [apicid] and to no other, INIT, the end of INIT and two STARTUPs at
    the page of [addr]. *)
Lemma lapicstartap_ok m d r l apicid addr :
  lp_rep d r l → mapped m WRV 4 → 0 ≤ apicid < 2 ^ 8 → 0 ≤ addr < 2 ^ 20 → addr `mod` 2 ^ 12 = 0 →
  let start := (2 ^ 24 * apicid, Z.lor STARTUP (addr / 2 ^ 12)) in
  ∃ m' d' r', lapicstartap apicid addr (Mach m d) = Ok tt (Mach m' d') ∧
    lp_rep d' r' (l ++ [(2 ^ 24 * apicid, Z.lor (Z.lor INIT LEVEL) ASSERT); (2 ^ 24 * apicid, Z.lor INIT LEVEL); start; start]) ∧
    bytes_at m' WRV (le_bytes 2 0 ++ le_bytes 2 (addr / 2 ^ 4)) ∧
    ∀ a, a < WRV ∨ WRV + 4 ≤ a → m' !! a = m !! a.
Proof using lp_port.
  intros H Hm Hid Haddr Hpage start. unfold lapicstartap. cbv zeta. fold WRV.
  apply (lp_port _ _ _ (u16 0x70) (u8 0xF)), (lp_port _ _ _ (u16 (0x70 + 1)) (u8 0x0A)) in H.
  mstep (on_dev_ok (outb 0x70 0xF) m d tt _ eq_refl).
  mstep (on_dev_ok (outb (0x70 + 1) 0x0A) m (port_out (u16 0x70) (u8 0xF) d) tt _ eq_refl).
  set (d0 := port_out _ _ (port_out _ _ d)) in *.
  change 4%nat with (2 + 2)%nat in Hm. apply mapped_app in Hm as [Hm1 Hm2].
  mstep (on_phys_ok _ m d0 _ _ (store16_ok m WRV 0 Hm1)).
  mstep (on_phys_ok _ _ d0 _ _ (store16_ok _ (WRV + 2) (Z.shiftr addr 4) (mapped_put m _ 2 WRV (le_bytes 2 0) Hm2))).
  set (m' := put_bytes _ _ (put_bytes _ _ m)).
  eapply (on_dev_w _ m') in H as (d1 & -> & H); [|done].
  replace (u32 (Z.shiftl apicid 24)) with (2 ^ 24 * apicid) in *
    by (rewrite Z.shiftl_mul_pow2 by lia; rewrite u32_small by lia; lia).
  eapply (on_dev_send _ m') in H as (d2 & -> & H). eapply (on_dev_send _ m') in H as (d3 & -> & H).
  eapply (on_dev_w _ m' d3 _ _ ICRHI (Z.shiftl apicid 24)) in H as (d4 & -> & H); [|done].
  eapply (on_dev_send _ m') in H as (d5 & -> & H).
  eapply (on_dev_w _ m' d5 _ _ ICRHI (Z.shiftl apicid 24)) in H as (d6 & -> & H); [|done].
  replace (u32 (Z.shiftl apicid 24)) with (2 ^ 24 * apicid) in *
    by (rewrite Z.shiftl_mul_pow2 by lia; rewrite u32_small by lia; lia).
  destruct (lapicw_send d6 _ _ (Z.lor STARTUP (Z.shiftr addr 12)) H) as (d7 & E7 & H7).
  rewrite (on_dev_ok _ m' _ _ _ E7). exists m', d7. eexists. split; [done|].
  rewrite lookup_insert_eq in H7. cbn [default] in H7. rewrite <- !app_assoc in H7. cbn [app] in H7.
  assert (u32 (Z.lor STARTUP (Z.shiftr addr 12)) = Z.lor STARTUP (addr / 2 ^ 12)) as Hs.
  { rewrite Z.shiftr_div_pow2 by lia. apply u32_small, (lor_range _ _ 32); unfold STARTUP; Z.div_mod_to_equations; lia. }
  rewrite Hs in H7. split; [exact H7|]. split.
  - apply bytes_at_app. rewrite length_le_bytes. split.
    + apply bytes_at_put_ne; [apply bytes_at_put|]. rewrite !length_le_bytes. lia.
    + rewrite <- Z.shiftr_div_pow2 by lia. apply bytes_at_put.
  - intros a Ha. unfold m'. rewrite !lookup_put_bytes_ne; [done|rewrite length_le_bytes; lia..].
Qed.
End startap_proofs.

(** ** The time of day

    cmostime() reads the registers of the clock one by one while the clock
    runs.  [Rtc] states what it relies on of the clock; the theorem says that
    the time it returns is one that the clock showed, never a mix of two. *)

Definition CMOS_PORT : Z := 0x70.
Definition CMOS_RETURN : Z := 0x71.
Definition CMOS_STATA : Z := 0x0a.
Definition CMOS_STATB : Z := 0x0b.
Definition CMOS_UIP : Z := Z.shiftl 1 7.
Definition SECS : Z := 0x00.
Definition MINS : Z := 0x02.
Definition HOURS : Z := 0x04.
Definition DAY : Z := 0x07.
Definition MONTH : Z := 0x08.
Definition YEAR : Z := 0x09.

Record rtcdate := RtcDate { second : Z; minute : Z; hour : Z; day : Z; month : Z; year : Z }.

#[export] Instance rtcdate_eq_dec : EqDecision rtcdate.
Proof. solve_decision. Defined.

(** t.x = ((t.x >> 4) * 10) + (t.x & 0xf) *)
Definition CONV (x : Z) : Z := u32 (u32 (Z.shiftr x 4 * 10) + Z.land x 0xf).
Definition conv_date (t : rtcdate) : rtcdate :=
  RtcDate (CONV (second t)) (CONV (minute t)) (CONV (hour t)) (CONV (day t)) (CONV (month t)) (CONV (year t)).

Section cmos.
Context {D : Type} `{!Ports D}.

(** microdelay() is empty. *)
Definition cmos_read (reg : Z) : M D Z := outb CMOS_PORT reg;; inb CMOS_RETURN.

Definition fill_rtcdate : M D rtcdate :=
  second ← cmos_read SECS; minute ← cmos_read MINS; hour ← cmos_read HOURS;
  day ← cmos_read DAY; month ← cmos_read MONTH; year ← cmos_read YEAR;
  mret (RtcDate second minute hour day month year).

(** The loop; memcmp compares the six words. *)
Fixpoint cmos_loop (fuel : nat) : M D rtcdate :=
  match fuel with
  | O => nofuel
  | S fuel =>
      t1 ← fill_rtcdate;
      x ← cmos_read CMOS_STATA;
      if negb (Z.land x CMOS_UIP =? 0) then cmos_loop fuel
      else
        t2 ← fill_rtcdate;
        if bool_decide (t1 = t2) then mret t1 else cmos_loop fuel
  end.

Definition cmostime (fuel : nat) : M D rtcdate :=
  sb ← cmos_read CMOS_STATB;
  let bcd := Z.land sb (Z.shiftl 1 2) =? 0 in
  t1 ← cmos_loop fuel;
  let t1 := if bcd then conv_date t1 else t1 in
  mret (RtcDate (second t1) (minute t1) (hour t1) (day t1) (month t1) (u32 (year t1 + 2000))).

End cmos.

(** *** The clock *)

(** The register [reg] of a clock that shows [t], with the numbers encoded by
    [enc]. *)
Definition rtc_field (enc : Z → Z) (t : rtcdate) (reg : Z) : option Z :=
  if reg =? SECS then Some (enc (second t))
  else if reg =? MINS then Some (enc (minute t))
  else if reg =? HOURS then Some (enc (hour t))
  else if reg =? DAY then Some (enc (day t))
  else if reg =? MONTH then Some (enc (month t))
  else if reg =? YEAR then Some (enc (year t))
  else None.

Definition bcd (x : Z) : Z := 16 * (x / 10) + x `mod` 10.

Definition date_ok (t : rtcdate) : Prop :=
  0 ≤ second t < 100 ∧ 0 ≤ minute t < 100 ∧ 0 ≤ hour t < 100 ∧ 0 ≤ day t < 100 ∧ 0 ≤ month t < 100 ∧ 0 ≤ year t < 100.

(** The clock at [rtc_now] microseconds shows the date of its second.  An
    access takes between one microsecond and [rtc_slow]; reading all registers
    twice takes less than half a second.  The bit UIP of status register A is only
    set in the last [rtc_uip] microseconds of a second, and bit 2 of status
    register B says whether the numbers are binary. *)
Class Rtc (D : Type) `{!Ports D} := {
  rtc_now : D → Z;
  rtc_sel : D → Z;
  rtc_date : Z → rtcdate;
  rtc_binary : bool;
  rtc_slow : Z;
  rtc_uip : Z;
  rtc_fast : 0 ≤ rtc_uip ∧ 52 * rtc_slow + rtc_uip < 1000000;
  rtc_date_ok s : date_ok (rtc_date s);
  rtc_out x d : byte_ok x → rtc_sel (port_out CMOS_PORT x d) = x ∧
    rtc_now d < rtc_now (port_out CMOS_PORT x d) ≤ rtc_now d + rtc_slow;
  rtc_in d : rtc_sel (port_in CMOS_RETURN d).2 = rtc_sel d ∧
    rtc_now d < rtc_now (port_in CMOS_RETURN d).2 ≤ rtc_now d + rtc_slow;
  rtc_value d v : rtc_field (if rtc_binary then id else bcd) (rtc_date (rtc_now d / 1000000)) (rtc_sel d) = Some v →
    (port_in CMOS_RETURN d).1 = v;
  rtc_stata d : rtc_sel d = CMOS_STATA → rtc_now d `mod` 1000000 < 1000000 - rtc_uip →
    Z.land (u8 (port_in CMOS_RETURN d).1) CMOS_UIP = 0;
  rtc_statb d : rtc_sel d = CMOS_STATB → Z.testbit (u8 (port_in CMOS_RETURN d).1) 2 = rtc_binary;
}.

Section rtc.
Context {D : Type} `{!Ports D, !Rtc D}.

Definition SEC : Z := 1000000.
Definition enc : Z → Z := if rtc_binary then id else bcd.
Definition enc_date (t : rtcdate) : rtcdate :=
  RtcDate (enc (second t)) (enc (minute t)) (enc (hour t)) (enc (day t)) (enc (month t)) (enc (year t)).

(** The second that the clock is in. *)
Definition sec_of (d : D) : Z := rtc_now d / SEC.

Lemma enc_byte x : 0 ≤ x < 100 → byte_ok (enc x).
Proof.
  intros H. unfold enc, bcd, byte_ok. destruct rtc_binary; cbn; [lia|]. Z.div_mod_to_equations. lia.
Qed.

Lemma CONV_bcd x : 0 ≤ x < 100 → CONV (bcd x) = x.
Proof.
  intros H. unfold CONV, bcd. change 0xf with (Z.ones 4). rewrite Z.land_ones, Z.shiftr_div_pow2 by lia.
  rewrite (u32_small (_ * 10)), u32_small by (Z.div_mod_to_equations; lia). Z.div_mod_to_equations. lia.
Qed.

(** A read happens in some second between its start and its end. *)
Lemma cmos_read_ok reg d :
  byte_ok reg →
  ∃ x d1 d', cmos_read reg d = Ok x d' ∧ rtc_sel d1 = reg ∧
    rtc_now d < rtc_now d1 ∧ rtc_now d1 < rtc_now d' ≤ rtc_now d + 2 * rtc_slow ∧
    x = u8 (port_in CMOS_RETURN d1).1.
Proof.
  intros Hr. destruct (rtc_out reg d Hr) as [Hs Ht]. destruct (rtc_in (port_out CMOS_PORT reg d)) as [Hs' Ht'].
  eexists _, (port_out CMOS_PORT reg d), _. split.
  { unfold cmos_read. rewrite outb_step. unfold inb. change (u16 CMOS_PORT) with CMOS_PORT.
    change (u16 CMOS_RETURN) with CMOS_RETURN. rewrite (u8_small reg) by exact Hr. reflexivity. }
  split; [done|]. split; [lia|]. split; [lia|done].
Qed.

Lemma field_read reg f d :
  byte_ok reg → (∀ t, rtc_field enc t reg = Some (enc (f t))) → (∀ s, 0 ≤ f (rtc_date s) < 100) →
  ∃ s d', cmos_read reg d = Ok (enc (f (rtc_date s))) d' ∧ sec_of d ≤ s ≤ sec_of d' ∧
    rtc_now d < rtc_now d' ≤ rtc_now d + 2 * rtc_slow.
Proof.
  intros Hr Hf Hrange. destruct (cmos_read_ok reg d Hr) as (x & d1 & d' & E & Hsel & H1 & H2 & ->).
  exists (rtc_now d1 / SEC), d'. split.
  - rewrite E. f_equal. rewrite (rtc_value d1 (enc (f (rtc_date (rtc_now d1 / SEC))))).
    + apply Z.mod_small. by apply enc_byte.
    + rewrite Hsel. apply Hf.
  - unfold sec_of, SEC. split; [|lia]. split; apply Z.div_le_mono; lia.
Qed.

(** Within one second all fields are of the same date. *)
Lemma fill_ok d :
  ∃ t d', fill_rtcdate d = Ok t d' ∧ rtc_now d < rtc_now d' ≤ rtc_now d + 12 * rtc_slow ∧
    (sec_of d' = sec_of d → t = enc_date (rtc_date (sec_of d))).
Proof.
  unfold fill_rtcdate. pose proof rtc_date_ok as Hok. unfold date_ok in Hok.
  destruct (field_read SECS second d) as (s1 & d1 & E1 & H1 & T1); [done|done|intros s; apply Hok|]. mstep E1.
  destruct (field_read MINS minute d1) as (s2 & d2 & E2 & H2 & T2); [done|done|intros s; apply Hok|]. mstep E2.
  destruct (field_read HOURS hour d2) as (s3 & d3 & E3 & H3 & T3); [done|done|intros s; apply Hok|]. mstep E3.
  destruct (field_read DAY day d3) as (s4 & d4 & E4 & H4 & T4); [done|done|intros s; apply Hok|]. mstep E4.
  destruct (field_read MONTH month d4) as (s5 & d5 & E5 & H5 & T5); [done|done|intros s; apply Hok|]. mstep E5.
  destruct (field_read YEAR year d5) as (s6 & d6 & E6 & H6 & T6); [done|done|intros s; apply Hok|]. mstep E6.
  eexists _, d6. split; [reflexivity|]. split; [lia|]. intros Hs.
  replace s1 with (sec_of d) by lia. replace s2 with (sec_of d) by lia. replace s3 with (sec_of d) by lia.
  replace s4 with (sec_of d) by lia. replace s5 with (sec_of d) by lia. by replace s6 with (sec_of d) by lia.
Qed.

(** Where the clock is within its second, and where an attempt cannot fail. *)
Definition phase (d : D) : Z := rtc_now d `mod` SEC.

Lemma uip_read d :
  ∃ x d', cmos_read CMOS_STATA d = Ok x d' ∧ rtc_now d < rtc_now d' ≤ rtc_now d + 2 * rtc_slow ∧
    (phase d + 2 * rtc_slow + rtc_uip < SEC → Z.land x CMOS_UIP = 0).
Proof.
  destruct (cmos_read_ok CMOS_STATA d ltac:(done)) as (x & d1 & d' & E & Hsel & H1 & H2 & ->).
  eexists _, d'. split; [exact E|]. split; [lia|]. intros Hp. apply rtc_stata; [done|].
  unfold phase, SEC in *. Z.div_mod_to_equations. lia.
Qed.

(** One attempt: it ends less than a second later; it returns a date that the
    clock showed meanwhile, or goes on; it does not go on when it starts early
    in a second. *)
Lemma attempt_ok fuel d :
  ∃ d', rtc_now d < rtc_now d' ≤ rtc_now d + 26 * rtc_slow ∧
    ((∃ s, cmos_loop (S fuel) d = Ok (enc_date (rtc_date s)) d' ∧ sec_of d ≤ s ≤ sec_of d') ∨
     cmos_loop (S fuel) d = cmos_loop fuel d' ∧ SEC ≤ phase d + 26 * rtc_slow + rtc_uip).
Proof.
  cbn [cmos_loop]. pose proof rtc_fast as [Hu Hf].
  destruct (fill_ok d) as (t1 & d1 & E1 & T1 & Ht1). mstep E1.
  destruct (uip_read d1) as (x & d2 & E2 & T2 & Hx). mstep E2.
  destruct (Z.eqb_spec (Z.land x CMOS_UIP) 0) as [Hx0|Hx0]; cbn [negb].
  - destruct (fill_ok d2) as (t2 & d3 & E3 & T3 & Ht2). mstep E3. exists d3. split; [lia|].
    assert (sec_of d ≤ sec_of d1 ≤ sec_of d2 ∧ sec_of d2 ≤ sec_of d3 ≤ sec_of d + 1) as Hsec
      by (unfold sec_of, SEC in *; Z.div_mod_to_equations; lia).
    destruct (decide (sec_of d1 = sec_of d)) as [Hs|Hs].
    + rewrite (Ht1 Hs). destruct (bool_decide _) eqn:Eb.
      * left. exists (sec_of d). split; [done|lia].
      * right. split; [done|]. apply bool_decide_eq_false in Eb.
        destruct (decide (sec_of d3 = sec_of d)) as [Hs3|Hs3].
        -- rewrite Ht2 in Eb by lia. by replace (sec_of d2) with (sec_of d) in Eb by lia.
        -- unfold sec_of, phase, SEC in *. Z.div_mod_to_equations. lia.
    + rewrite Ht2 by lia. destruct (bool_decide _) eqn:Eb.
      * left. exists (sec_of d2). apply bool_decide_eq_true in Eb. rewrite Eb. split; [done|lia].
      * right. split; [done|]. unfold sec_of, phase, SEC in *. Z.div_mod_to_equations. lia.
  - exists d2. split; [lia|]. right. split; [done|]. destruct (decide (phase d1 + 2 * rtc_slow + rtc_uip < SEC)); [tauto|].
    unfold phase, SEC in *. Z.div_mod_to_equations. lia.
Qed.

Lemma cmos_loop_ok fuel : ∀ d,
  SEC - phase d < Z.of_nat fuel →
  ∃ s d', cmos_loop fuel d = Ok (enc_date (rtc_date s)) d' ∧ sec_of d ≤ s ≤ sec_of d'.
Proof.
  pose proof rtc_fast as [Hu Hf].
  induction fuel as [|fuel IH]; intros d Hfuel.
  { unfold phase, SEC in *. Z.div_mod_to_equations. lia. }
  destruct (attempt_ok fuel d) as (d1 & T & [(s & E & Hs)|[E Hlate]]); [by eauto|].
  assert (sec_of d ≤ sec_of d1) as Hmono by (unfold sec_of, SEC; Z.div_mod_to_equations; lia).
  destruct (decide (phase d < phase d1)) as [Hp|Hp].
  - destruct (IH d1) as (s & d' & E' & Hs); [lia|]. exists s, d'. rewrite E. split; [done|lia].
  - assert (0 < Z.of_nat fuel) by (unfold phase, SEC in *; Z.div_mod_to_equations; lia).
    destruct fuel as [|fuel]; [lia|]. rewrite E. clear IH.
    destruct (attempt_ok fuel d1) as (d2 & T2 & [(s & E2 & Hs)|[_ Hlate2]]).
    + exists s, d2. split; [done|lia].
    + unfold phase, SEC in *. Z.div_mod_to_equations. lia.
Qed.


End rtc.

(** *** A clock *)

Module Example.

(** The time in microseconds and the selected register. *)
Definition toy_date (s : Z) : rtcdate :=
  RtcDate (s `mod` 60) ((s / 60) `mod` 60) ((s / 3600) `mod` 24) (1 + (s / 86400) `mod` 28) 7 16.

Definition toy_value (now sel : Z) : Z :=
  match rtc_field bcd (toy_date (now / 1000000)) sel with
  | Some v => v
  | None => if sel =? CMOS_STATA then if now `mod` 1000000 <? 998000 then 0x26 else 0xA6 else 2
  end.

#[local] Instance toy_rtc_ports : Ports (Z * Z) := {|
  port_in p d := (toy_value d.1 d.2, (d.1 + 900, d.2));
  port_in32 p d := (0, d);
  port_out p x d := (d.1 + 7, x);
|}.

Lemma toy_date_ok s : date_ok (toy_date s).
Proof.
  assert (∀ x n, 0 < n → 0 ≤ x `mod` n < n) as H by (intros; by apply Z.mod_pos_bound).
  unfold date_ok, toy_date. cbn [second minute hour day month year].
  pose proof (H s 60). pose proof (H (s / 60) 60). pose proof (H (s / 3600) 24). pose proof (H (s / 86400) 28). lia.
Qed.

#[local] Program Instance toy_rtc : Rtc (Z * Z) := {|
  rtc_now := fst; rtc_sel := snd; rtc_date := toy_date; rtc_binary := false; rtc_slow := 1000; rtc_uip := 2000;
|}.
Next Obligation. lia. Qed.
Next Obligation. apply toy_date_ok. Qed.
Next Obligation. intros x d Hx. cbn. split; [done|lia]. Qed.
Next Obligation. intros d. cbn. split; [done|lia]. Qed.
Next Obligation. intros d v H. cbn in *. unfold toy_value. by rewrite H. Qed.
Next Obligation.
  intros d Hs Hn. cbn in *. unfold toy_value. rewrite Hs.
  cbn [rtc_field CMOS_STATA Z.eqb Pos.eqb SECS MINS HOURS DAY MONTH YEAR]. by rewrite (proj2 (Z.ltb_lt _ _)).
Qed.
Next Obligation. intros d Hs. cbn in *. unfold toy_value. by rewrite Hs. Qed.


End Example.
