(* ===== verification/Console.v ===== *)
(** * The console (console.c, and uartputc and uartgetc of uart.c)

    The screen is the array of its character cells and the cursor, the serial
    line the list of the characters sent.  The input line editor is proved to
    implement a queue of finished characters and a line being edited. *)

From S2P Require Import Prelude Params Mem Mmu.

Definition BACKSPACE : Z := 0x100.
Definition INPUT_BUF : Z := 128.
Definition INPUT_BUF_n : nat := Z.to_nat INPUT_BUF.
Definition CONSOLE : Z := 1.

(** Control-x *)
Definition C (x : Z) : Z := x - 64.
Definition CTRL_D : Z := C 68.
Definition CTRL_H : Z := C 72.
Definition CTRL_P : Z := C 80.
Definition CTRL_U : Z := C 85.
Definition DEL : Z := 0x7f.
Definition NL : Z := 10.
Definition CR : Z := 13.

(** [crt] is the CGA memory, [pos] the cursor registers, [uart] whether there
    is a serial port and [uart_out] what it got; then input, and proc->killed
    of the process that reads. *)
Record cons := Cons_ {
  crt : list Z;
  pos : Z;
  uart : bool;
  uart_out : list Z;
  in_buf : list Z;
  in_r : Z;
  in_w : Z;
  in_e : Z;
  reader_killed : bool;
}.

Definition set_screen (x : list Z) (p : Z) (s : cons) : cons :=
  Cons_ x p (uart s) (uart_out s) (in_buf s) (in_r s) (in_w s) (in_e s) (reader_killed s).
Definition set_uart_out (x : list Z) (s : cons) : cons :=
  Cons_ (crt s) (pos s) (uart s) x (in_buf s) (in_r s) (in_w s) (in_e s) (reader_killed s).
Definition set_input (b : list Z) (r w e : Z) (s : cons) : cons :=
  Cons_ (crt s) (pos s) (uart s) (uart_out s) b r w e (reader_killed s).

(** ** Output *)

(** Without the wait for the transmitter, which is in Uart.v. *)
Definition uartputc (c : Z) : M cons unit := λ s,
  if uart s then Ok tt (set_uart_out (uart_out s ++ [u8 c]) s) else Ok tt s.

(** crt[pos] = x *)
Definition crt_store (p x : Z) (l : list Z) : option (list Z) :=
  if decide (0 ≤ p < Z.of_nat (length l)) then Some (<[Z.to_nat p := x]> l) else None.

(** The character, or the movement of the cursor that it means. *)
Definition cga_char (c p : Z) (l : list Z) : option (Z * list Z) :=
  if c =? NL then Some (p + (80 - p `mod` 80), l)
  else if c =? BACKSPACE then Some (if 0 <? p then p - 1 else p, l)
  else l ← crt_store p (Z.lor (Z.land c 0xff) 0x0700) l; Some (p + 1, l).

(** memmove(crt, crt+80, sizeof(crt[0])*23*80); pos -= 80;
    memset(crt+pos, 0, sizeof(crt[0])*(24*80 - pos)); *)
Definition cga_scroll (p : Z) (l : list Z) : Z * list Z :=
  if 24 <=? p `div` 80 then
    let l := splice 0 (slice 80 (23 * 80) l) l in
    (p - 80, splice (Z.to_nat (p - 80)) (replicate (Z.to_nat (24 * 80 - (p - 80))) 0) l)
  else (p, l).

Definition cgaputc (c : Z) : M cons unit := λ s,
  match cga_char c (pos s) (crt s) with
  | None => Fault
  | Some (p, l) =>
      if (p <? 0) || (25 * 80 <? p) then Panic "pos under/overflow"
      else
        let (p, l) := cga_scroll p l in
        match crt_store p (Z.lor 32 0x0700) l with
        | None => Fault
        | Some l => Ok tt (set_screen l p s)
        end
  end.

(** The loop of a processor that finds [panicked] set is not modelled. *)
Definition consputc (c : Z) : M cons unit :=
  (if c =? BACKSPACE then uartputc 8;; uartputc 32;; uartputc 8 else uartputc c);;
  cgaputc c.

Fixpoint consputs (l : list Z) : M cons unit :=
  match l with
  | [] => mret tt
  | c :: l => consputc c;; consputs l
  end.

(** ** cprintf *)

Definition cons_digits : list Z := [48; 49; 50; 51; 52; 53; 54; 55; 56; 57; 97; 98; 99; 100; 101; 102].

(** do { buf[i++] = digits[x % base]; } while((x /= base) != 0); in reverse *)
Fixpoint cons_digits_of (fuel : nat) (x base : Z) (acc : list Z) : option (list Z) :=
  match fuel with
  | O => None
  | S fuel =>
      d ← cons_digits !! Z.to_nat (x `mod` base);
      if x `div` base =? 0 then Some (d :: acc) else cons_digits_of fuel (x `div` base) base (d :: acc)
  end.

(** The characters that printint puts out; buf[] has 16 entries. *)
Definition cons_printint (xx base : Z) (sign : bool) : option (list Z) :=
  let neg := sign && (xx <? 0) in
  let x := u32 (if neg then - xx else xx) in
  l ← cons_digits_of 16 x base [];
  let l := if neg then 45 :: l else l in
  if decide (length l ≤ 16)%nat then Some l else None.

Section cprintf.
(** The string at an address. *)
Context (str_at : Z → option (list Z)).

(** "(null)" *)
Definition cons_null : list Z := [40; 110; 117; 108; 108; 41].

(** What follows a '%', with the arguments left: the output and the rest. *)
Definition cprintf_conv (c : Z) (argp : list Z) : option (list Z * list Z) :=
  if c =? 100 then
    match argp with x :: argp => l ← cons_printint (s32 x) 10 true; Some (l, argp) | [] => None end
  else if (c =? 120) || (c =? 112) then
    match argp with x :: argp => l ← cons_printint (s32 x) 16 false; Some (l, argp) | [] => None end
  else if c =? 115 then
    match argp with
    | x :: argp => l ← (if x =? 0 then Some cons_null else str_at x); Some (l, argp)
    | [] => None
    end
  else if c =? 37 then Some ([37], argp)
  else Some ([37; c], argp).

Fixpoint cprintf_loop (fmt argp : list Z) : option (list Z) :=
  match fmt with
  | [] => Some []
  | 37 :: fmt =>
      match fmt with
      | [] => Some []
      | c :: fmt =>
          r ← cprintf_conv c argp;
          l ← cprintf_loop fmt r.2;
          Some (r.1 ++ l)
      end
  | c :: fmt => l ← cprintf_loop fmt argp; Some (c :: l)
  end.

(** A null format panics. *)
Definition cprintf (fmt : option (list Z)) (argp : list Z) : M cons unit :=
  match fmt with
  | None => panic "null fmt"
  | Some fmt => match cprintf_loop fmt argp with Some l => consputs l | None => fault end
  end.
End cprintf.

(** ** Input *)

Definition buf_at (s : cons) (i : Z) : Z := default 0 (in_buf s !! Z.to_nat (u32 i `mod` INPUT_BUF)).

(** input.e-- *)
Definition dec_e (s : cons) : cons := set_input (in_buf s) (in_r s) (in_w s) (u32 (in_e s - 1)) s.

(** The loop of control-U, [n] turns at most. *)
Fixpoint kill_line (n : nat) : M cons unit := λ s,
  match n with
  | O => Ok tt s
  | S n =>
      if negb (in_e s =? in_w s) && negb (buf_at s (in_e s - 1) =? NL) then
        (modify dec_e;;
         consputc BACKSPACE;;
         kill_line n) s
      else Ok tt s
  end.

(** One turn of the loop of consoleintr: what it says about procdump and
    whether it wakes the readers. *)
Inductive intr_event := NoEvent | DoProcdump | WakeReaders.

Definition consoleintr_char (c : Z) : M cons intr_event := λ s,
  if c =? CTRL_P then Ok DoProcdump s
  else if c =? CTRL_U then (kill_line (Z.to_nat (u32 (in_e s - in_w s)));; mret NoEvent) s
  else if (c =? CTRL_H) || (c =? DEL) then
    if negb (in_e s =? in_w s) then
      (modify dec_e;;
       consputc BACKSPACE;;
       mret NoEvent) s
    else Ok NoEvent s
  else if negb (c =? 0) && (u32 (in_e s - in_r s) <? INPUT_BUF) then
    let c := if c =? CR then NL else c in
    (modify (λ s, set_input (<[Z.to_nat (in_e s `mod` INPUT_BUF) := u8 c]> (in_buf s))
                    (in_r s) (in_w s) (u32 (in_e s + 1)) s);;
     consputc c;;
     s ← get;
     if (c =? NL) || (c =? CTRL_D) || (in_e s =? u32 (in_r s + INPUT_BUF)) then
       modify (λ s, set_input (in_buf s) (in_r s) (in_e s) (in_e s) s);; mret WakeReaders
     else mret NoEvent) s
  else Ok NoEvent s.

(** consoleintr() on the characters that getc() gives before it is negative. *)
Fixpoint consoleintr (cs : list Z) : M cons (list intr_event) :=
  match cs with
  | [] => mret []
  | c :: cs => e ← consoleintr_char c; es ← consoleintr cs; mret (e :: es)
  end.

(** How the loop of consoleread ends: with [n] left to read and the bytes
    that were stored, by a kill, or asleep. *)
Inductive cread := CReadDone (n : Z) (l : list Z) | CReadKilled (l : list Z) | CReadSleep (n : Z) (l : list Z).

(** [fuel] is [n] as a nat. *)
Fixpoint consoleread_loop (fuel : nat) (target n : Z) (l : list Z) : M cons cread := λ s,
  match fuel with
  | O => Ok (CReadDone n l) s
  | S fuel =>
      if in_r s =? in_w s then
        if reader_killed s then Ok (CReadKilled l) s else Ok (CReadSleep n l) s
      else
        let c := buf_at s (in_r s) in
        if c =? CTRL_D then
          Ok (CReadDone n l)
            (if n <? target then s else set_input (in_buf s) (u32 (in_r s + 1)) (in_w s) (in_e s) s)
        else
          let s := set_input (in_buf s) (u32 (in_r s + 1)) (in_w s) (in_e s) s in
          if c =? NL then Ok (CReadDone (n - 1) (l ++ [c])) s
          else consoleread_loop fuel target (n - 1) (l ++ [c]) s
  end.

(** consoleread() without the inode's lock. *)
Definition cons_read (n : Z) : M cons cread := consoleread_loop (Z.to_nat n) (u32 n) n [].

(** ** The screen *)

Definition screen_ok (s : cons) : Prop := length (crt s) = Z.to_nat (25 * 80) ∧ 0 ≤ pos s < 24 * 80.

(** [s'] differs from [s] only in what was put out. *)
Definition same_input (s s' : cons) : Prop :=
  in_buf s' = in_buf s ∧ in_r s' = in_r s ∧ in_w s' = in_w s ∧ in_e s' = in_e s ∧
  reader_killed s' = reader_killed s.

Lemma crt_store_ok p x l : 0 ≤ p < Z.of_nat (length l) → crt_store p x l = Some (<[Z.to_nat p := x]> l).
Proof. intros. unfold crt_store. by rewrite decide_True. Qed.

Lemma cga_char_ok c p l :
  length l = Z.to_nat (25 * 80) → 0 ≤ p < 24 * 80 →
  ∃ p' l', cga_char c p l = Some (p', l') ∧ length l' = length l ∧ 0 ≤ p' ≤ 24 * 80.
Proof.
  intros Hl Hp. unfold cga_char.
  destruct (c =? NL).
  { do 2 eexists. split; [done|]. split; [done|].
    assert (0 ≤ p `mod` 80 < 80) by (apply Z.mod_pos_bound; lia).
    pose proof (Z.div_mod p 80). assert (p `div` 80 < 24) by (apply Z.div_lt_upper_bound; lia). lia. }
  destruct (c =? BACKSPACE).
  { do 2 eexists. split; [done|]. split; [done|]. destruct (Z.ltb_spec 0 p); lia. }
  rewrite crt_store_ok by lia. do 2 eexists. split; [done|]. split; [by rewrite length_insert|lia].
Qed.

Lemma cga_scroll_ok p l :
  length l = Z.to_nat (25 * 80) → 0 ≤ p ≤ 24 * 80 →
  length (cga_scroll p l).2 = length l ∧ 0 ≤ (cga_scroll p l).1 < 24 * 80.
Proof.
  intros Hl Hp. unfold cga_scroll. destruct (Z.leb_spec 24 (p `div` 80)) as [Hd|Hd].
  - assert (p = 24 * 80) as ->.
    { pose proof (Z.div_mod p 80). assert (0 ≤ p `mod` 80) by (apply Z.mod_pos_bound; lia). lia. }
    cbn [fst snd]. split; [|lia].
    assert (length (splice 0 (slice 80 (23 * 80) l) l) = length l) as E
      by (rewrite length_splice; rewrite ?length_slice; rewrite ?Hl; lia).
    rewrite length_splice; [done|]. rewrite E, length_replicate, Hl. lia.
  - cbn [fst snd]. split; [done|]. split; [lia|]. destruct (decide (p = 24 * 80)) as [->|]; [done|lia].
Qed.

Lemma cgaputc_ok c s :
  screen_ok s → ∃ s', cgaputc c s = Ok tt s' ∧ screen_ok s' ∧ same_input s s'.
Proof.
  intros [Hl Hp]. unfold cgaputc.
  destruct (cga_char_ok c _ _ Hl Hp) as (p & l & -> & Hl' & Hp').
  destruct (Z.ltb_spec p 0); [lia|]. destruct (Z.ltb_spec (25 * 80) p); [lia|]. cbn [orb].
  rewrite Hl in Hl'. destruct (cga_scroll_ok p l Hl' Hp') as [Hl2 Hp2].
  destruct (cga_scroll p l) as [p2 l2]. cbn [fst snd] in *.
  rewrite crt_store_ok by lia. eexists. split; [done|]. split; [|done].
  split; cbn; [rewrite length_insert; lia|done].
Qed.

Lemma uartputc_ok c s : ∃ s', uartputc c s = Ok tt s' ∧ (screen_ok s → screen_ok s') ∧ same_input s s'.
Proof. unfold uartputc. destruct (uart s); eexists; (split; [done|]); done. Qed.

Lemma same_input_trans s1 s2 s3 : same_input s1 s2 → same_input s2 s3 → same_input s1 s3.
Proof. intros (?&?&?&?&?) (?&?&?&?&?). repeat split; congruence. Qed.

Lemma consputc_ok c s :
  screen_ok s → ∃ s', consputc c s = Ok tt s' ∧ screen_ok s' ∧ same_input s s'.
Proof.
  intros Hs. unfold consputc.
  assert (∃ s1, (if c =? BACKSPACE then uartputc 8;; uartputc 32;; uartputc 8 else uartputc c) s = Ok tt s1 ∧
    screen_ok s1 ∧ same_input s s1) as (s1 & E1 & H1 & I1).
  { destruct (c =? BACKSPACE).
    - destruct (uartputc_ok 8 s) as (a & Ea & Ha & Ia). destruct (uartputc_ok 32 a) as (b & Eb & Hb & Ib).
      destruct (uartputc_ok 8 b) as (d & Ed & Hd & Id). exists d. mstep Ea. mstep Eb. split; [done|].
      split; [auto|]. eauto using same_input_trans.
    - destruct (uartputc_ok c s) as (a & Ea & Ha & Ia). eauto. }
  destruct (cgaputc_ok c s1 H1) as (s2 & E2 & H2 & I2). exists s2. mstep E1.
  split; [done|]. split; [done|]. by eapply same_input_trans.
Qed.

(** ** The line editor *)

(** [q] are the characters that readers can take, [line] those that can
    still be edited. *)
Record input_ok (s : cons) (q line : list Z) : Prop := InputOk {
  io_len : length (in_buf s) = INPUT_BUF_n;
  io_r : 0 ≤ in_r s < 2 ^ 32;
  io_w : in_w s = u32 (in_r s + Z.of_nat (length q));
  io_e : in_e s = u32 (in_r s + Z.of_nat (length (q ++ line)));
  io_size : (length (q ++ line) ≤ INPUT_BUF_n)%nat;
  io_chars k x : (q ++ line) !! k = Some x →
    in_buf s !! Z.to_nat ((in_r s + Z.of_nat k) `mod` INPUT_BUF) = Some x;
}.

(** What the editor does with a character. *)
Definition edit (st : list Z * list Z) (c : Z) : list Z * list Z :=
  let (q, line) := st in
  if c =? CTRL_P then (q, line)
  else if c =? CTRL_U then (q, [])
  else if (c =? CTRL_H) || (c =? DEL) then (q, removelast line)
  else if negb (c =? 0) && (Z.of_nat (length (q ++ line)) <? INPUT_BUF) then
    let c := if c =? CR then NL else c in
    let line := line ++ [u8 c] in
    if (c =? NL) || (c =? CTRL_D) || (Z.of_nat (length (q ++ line)) =? INPUT_BUF) then (q ++ line, [])
    else (q, line)
  else (q, line).

Lemma input_ok_same s s' q line : same_input s s' → input_ok s q line → input_ok s' q line.
Proof. intros (Eb & Er & Ew & Ee & _) [Hlen Hr Hw He Hsz Hch]. split; rewrite ?Eb, ?Er, ?Ew, ?Ee; done. Qed.

(** Index arithmetic: 128 divides 2^32. *)
Lemma u32_mod_buf z : u32 z `mod` INPUT_BUF = z `mod` INPUT_BUF.
Proof.
  unfold u32, INPUT_BUF. rewrite <- Znumtheory.Zmod_div_mod; [done|lia|lia|]. by exists (2 ^ 25).
Qed.

Lemma mod_buf_inj r i j :
  0 ≤ i < INPUT_BUF → 0 ≤ j < INPUT_BUF → (r + i) `mod` INPUT_BUF = (r + j) `mod` INPUT_BUF → i = j.
Proof. unfold INPUT_BUF. intros. Z.div_mod_to_equations. lia. Qed.

Lemma u32_diff r a b : u32 (u32 (r + a) - u32 (r + b)) = u32 (a - b).
Proof. unfold u32. rewrite <- Zminus_mod. f_equal. lia. Qed.

Lemma u32_add_l a b : u32 (u32 a + b) = u32 (a + b).
Proof. unfold u32. by rewrite Z.add_mod_idemp_l by lia. Qed.

(** Comparing two indices compares the distances from the read index. *)
Lemma u32_index_eqb r a b :
  0 ≤ a ≤ INPUT_BUF → 0 ≤ b ≤ INPUT_BUF → (u32 (r + a) =? u32 (r + b)) = (a =? b).
Proof.
  intros Ha Hb. destruct (Z.eqb_spec a b) as [->|Hne]; [by rewrite Z.eqb_refl|].
  apply Z.eqb_neq. intros E. apply Hne. unfold u32, INPUT_BUF in *. Z.div_mod_to_equations. lia.
Qed.

Section input.
Context (s : cons) (q line : list Z) (Hs : input_ok s q line).

Lemma input_len : 0 ≤ Z.of_nat (length (q ++ line)) ≤ INPUT_BUF.
Proof. pose proof (io_size _ _ _ Hs). unfold INPUT_BUF_n, INPUT_BUF in *. lia. Qed.

Lemma input_q_len : 0 ≤ Z.of_nat (length q) ≤ INPUT_BUF.
Proof. pose proof input_len as H. rewrite length_app in H. lia. Qed.

Lemma input_edit_count : u32 (in_e s - in_r s) = Z.of_nat (length (q ++ line)).
Proof.
  pose proof input_len. rewrite (io_e _ _ _ Hs).
  replace (in_r s) with (u32 (in_r s + 0)) at 2 by (rewrite Z.add_0_r; apply u32_small, (io_r _ _ _ Hs)).
  rewrite u32_diff, u32_small; unfold INPUT_BUF in *; lia.
Qed.

Lemma input_line_empty : (in_e s =? in_w s) = bool_decide (line = []).
Proof.
  rewrite (io_e _ _ _ Hs), (io_w _ _ _ Hs), u32_index_eqb; [|apply input_len|apply input_q_len].
  rewrite length_app. destruct line; cbn [length].
  - rewrite Nat.add_0_r, Z.eqb_refl. by rewrite bool_decide_true.
  - rewrite (proj2 (Z.eqb_neq _ _)) by lia. by rewrite bool_decide_false.
Qed.

Lemma input_line_count : u32 (in_e s - in_w s) = Z.of_nat (length line).
Proof.
  pose proof input_len. rewrite (io_e _ _ _ Hs), (io_w _ _ _ Hs), u32_diff, length_app.
  rewrite length_app in H. rewrite u32_small; unfold INPUT_BUF in *; lia.
Qed.

(** The last character of the line. *)
Lemma input_last c line0 : line = line0 ++ [c] → buf_at s (in_e s - 1) = c.
Proof.
  intros E. unfold buf_at. rewrite u32_mod_buf.
  pose proof (io_chars _ _ _ Hs (length (q ++ line0)) c) as H.
  rewrite E, app_assoc, lookup_app_r, Nat.sub_diag in H by lia. specialize (H eq_refl).
  rewrite (io_e _ _ _ Hs), E, app_assoc, length_app. cbn [length].
  replace (u32 (in_r s + Z.of_nat (length (q ++ line0) + 1)) - 1)
    with (u32 (in_r s + Z.of_nat (length (q ++ line0) + 1)) + -1) by lia.
  rewrite <- Z.add_mod_idemp_l, u32_mod_buf, Z.add_mod_idemp_l by done.
  replace (in_r s + Z.of_nat (length (q ++ line0) + 1) + -1) with (in_r s + Z.of_nat (length (q ++ line0))) by lia.
  by rewrite H.
Qed.

(** input.e--; *)
Lemma input_backspace c line0 :
  line = line0 ++ [c] → input_ok (dec_e s) q line0.
Proof.
  intros E. destruct Hs as [Hlen Hr Hw He Hsz Hch]. rewrite E, app_assoc, length_app in Hsz. cbn in Hsz.
  split; cbn; [done|done|done| |lia|].
  - rewrite He, E, app_assoc, length_app. cbn [length].
    replace (u32 (in_r s + Z.of_nat (length (q ++ line0) + 1)) - 1)
      with (u32 (in_r s + Z.of_nat (length (q ++ line0) + 1)) + -1) by lia.
    rewrite u32_add_l. f_equal. lia.
  - intros k x Hk. apply Hch. rewrite E, app_assoc. by apply lookup_app_l_Some.
Qed.

(** input.buf[input.e++ % INPUT_BUF] = c; *)
Lemma input_add c :
  Z.of_nat (length (q ++ line)) < INPUT_BUF →
  input_ok (set_input (<[Z.to_nat (in_e s `mod` INPUT_BUF) := u8 c]> (in_buf s))
              (in_r s) (in_w s) (u32 (in_e s + 1)) s) q (line ++ [u8 c]).
Proof.
  intros Hlt. destruct Hs as [Hlen Hr Hw He Hsz Hch].
  split; cbn; [by rewrite length_insert|done|done| | |].
  - rewrite He, u32_add_l, app_assoc, (length_app (q ++ line)). cbn [length]. f_equal. lia.
  - rewrite app_assoc, (length_app (q ++ line)). cbn [length]. unfold INPUT_BUF_n, INPUT_BUF in *. lia.
  - intros k x Hk. rewrite app_assoc in Hk.
    rewrite He, u32_mod_buf. apply lookup_app_Some in Hk as [Hk|[Hge Hk]].
    + pose proof (lookup_lt_Some _ _ _ Hk). rewrite list_lookup_insert_ne; [by apply Hch|].
      intros E. apply Z2Nat.inj in E; [|apply Z.mod_pos_bound; done..].
      apply mod_buf_inj in E; unfold INPUT_BUF in *; lia.
    + apply list_lookup_singleton_Some in Hk as [Hk <-].
      replace k with (length (q ++ line)) by lia. rewrite list_lookup_insert_eq; [done|].
      rewrite Hlen. unfold INPUT_BUF_n. apply Z2Nat.inj_lt; [apply Z.mod_pos_bound; done|done|].
      by apply Z.mod_pos_bound.
Qed.

(** input.w = input.e; *)
Lemma input_commit : input_ok (set_input (in_buf s) (in_r s) (in_e s) (in_e s) s) (q ++ line) [].
Proof.
  destruct Hs as [Hlen Hr Hw He Hsz Hch]. split; cbn; by rewrite ?app_nil_r.
Qed.
End input.

(** Invariant of the editor: the line holds no newline. *)
Definition editor (s : cons) (st : list Z * list Z) : Prop :=
  screen_ok s ∧ input_ok s st.1 st.2 ∧ NL ∉ st.2.

Lemma set_input_screen b r w e s : screen_ok s → screen_ok (set_input b r w e s).
Proof. done. Qed.

(** The loop of control-U empties the line. *)
Lemma kill_line_ok n s q line :
  editor s (q, line) → n = length line → ∃ s', kill_line n s = Ok tt s' ∧ editor s' (q, []).
Proof.
  revert s line. induction n as [|n IH]; intros s line (Hscr & Hin & Hnl) Hn.
  { destruct line; [|done]. exists s. done. }
  destruct line as [|c line _] using rev_ind; [done|]. rewrite length_app in Hn. cbn in Hn.
  cbn in Hin, Hnl. cbn [kill_line].
  rewrite (input_line_empty _ _ _ Hin), (input_last _ _ _ Hin c line eq_refl).
  rewrite bool_decide_false by (by destruct line). cbn [negb andb].
  assert (c ≠ NL) as Hc by (intros ->; apply Hnl, elem_of_app; right; by apply list_elem_of_singleton).
  rewrite (proj2 (Z.eqb_neq _ _) Hc). cbn [negb].
  destruct (consputc_ok BACKSPACE (dec_e s)) as (s2 & E2 & Hscr2 & Hsame); [done|].
  assert (modify dec_e s = Ok tt (dec_e s)) as E1 by done.
  mstep E1. mstep E2. apply (IH s2 line); [|lia]. split; [done|]. split; cbn.
  - eapply input_ok_same; [exact Hsame|]. by eapply input_backspace.
  - intros H. apply Hnl, elem_of_app. by left.
Qed.

Lemma elem_of_removelast {A} (x : A) l : x ∈ removelast l → x ∈ l.
Proof.
  induction l as [|y l IH]; [done|]. cbn. destruct l; [by intros ?%elem_of_nil|].
  intros [->|H]%elem_of_cons; apply elem_of_cons; [by left|right; auto].
Qed.

Lemma erase_ok s q line :
  editor s (q, line) → line ≠ [] →
  ∃ s', (modify dec_e;;
         consputc BACKSPACE;; mret NoEvent) s = Ok NoEvent s' ∧ editor s' (q, removelast line).
Proof.
  intros (Hscr & Hin & Hnl) Hne. cbn in *. destruct line as [|c line _] using rev_ind; [done|].
  destruct (consputc_ok BACKSPACE (dec_e s)) as (s2 & E2 & Hscr2 & Hsame); [done|].
  exists s2. assert (modify dec_e s = Ok tt (dec_e s)) as E1 by done.
  mstep E1. mstep E2. split; [done|]. split; [done|]. rewrite removelast_last. split; cbn.
  - eapply input_ok_same; [exact Hsame|]. by eapply input_backspace.
  - intros H. apply Hnl, elem_of_app. by left.
Qed.

(** One character. *)
Lemma consoleintr_char_ok c s st :
  editor s st → 0 ≤ c < 256 → ∃ e s', consoleintr_char c s = Ok e s' ∧ editor s' (edit st c).
Proof.
  destruct st as [q line]. intros Hed Hc. destruct Hed as (Hscr & Hin & Hnl) eqn:Eed. cbn in Hin, Hnl.
  unfold consoleintr_char, edit.
  destruct (c =? CTRL_P); [by eauto|].
  destruct (c =? CTRL_U).
  { rewrite (input_line_count _ _ _ Hin), Nat2Z.id.
    destruct (kill_line_ok (length line) s q line Hed eq_refl) as (s' & E & H). mstep E. eauto. }
  destruct ((c =? CTRL_H) || (c =? DEL)).
  { rewrite (input_line_empty _ _ _ Hin). case_bool_decide as Hl; cbn [negb].
    - subst line. by eauto.
    - destruct (erase_ok s q line Hed Hl) as (s' & E & H). eauto. }
  rewrite (input_edit_count _ _ _ Hin).
  destruct (negb (c =? 0)); cbn [andb]; [|by eauto].
  destruct (Z.ltb_spec (Z.of_nat (length (q ++ line))) INPUT_BUF) as [Hlt|]; [|by eauto].
  set (c' := if c =? CR then NL else c). clear Eed.
  pose proof (input_add _ _ _ Hin c' Hlt) as Hin1. set (s1 := set_input _ _ _ _ s) in Hin1.
  destruct (consputc_ok c' s1) as (s2 & E2 & Hscr2 & Hsame); [done|].
  apply (input_ok_same _ _ _ _ Hsame) in Hin1.
  match goal with |- context[modify ?f] => assert (modify f s = Ok tt s1) as E1 by done end.
  mstep E1. mstep E2. assert (get s2 = Ok s2 s2) as E3 by done. mstep E3.
  assert ((in_e s2 =? u32 (in_r s2 + INPUT_BUF)) = (Z.of_nat (length (q ++ line ++ [u8 c'])) =? INPUT_BUF)) as ->.
  { rewrite (io_e _ _ _ Hin1). apply u32_index_eqb; [apply (input_len _ _ _ Hin1)|unfold INPUT_BUF; lia]. }
  destruct (_ || _) eqn:Eend.
  - eexists _, _. split; [done|]. split; [done|]. split; [|by intros ?%elem_of_nil]. by apply input_commit.
  - eexists _, _. split; [done|]. split; [done|]. split; [done|]. cbn.
    rewrite elem_of_app, list_elem_of_singleton. intros [?|E]; [done|].
    apply orb_false_iff in Eend as [Eend _]. apply orb_false_iff in Eend as [Eend _].
    apply Z.eqb_neq in Eend. apply Eend. rewrite E. unfold u8. rewrite Z.mod_small; [done|].
    unfold c', NL. destruct (c =? CR); lia.
Qed.

Lemma consoleintr_ok cs s st :
  editor s st → Forall (λ c, 0 ≤ c < 256) cs →
  ∃ es s', consoleintr cs s = Ok es s' ∧ editor s' (foldl edit st cs).
Proof.
  intros H Hcs. revert s st H. induction Hcs as [|c cs Hc _ IH]; intros s st H; [by eauto|].
  destruct (consoleintr_char_ok c s st H Hc) as (e & s1 & E1 & H1).
  destruct (IH s1 _ H1) as (es & s2 & E2 & H2). cbn [consoleintr foldl]. mstep E1. mstep E2. eauto.
Qed.

Lemma consoleintr_length cs s es s' : consoleintr cs s = Ok es s' → length es = length cs.
Proof.
  revert s es. induction cs as [|c cs IH]; intros s es; cbn [consoleintr]; [by intros [= <- <-]|].
  intros (e & s1 & _ & (es1 & s2 & E & [= <- <-])%bind_ok_inv)%bind_ok_inv. cbn. f_equal. by eapply IH.
Qed.

(** ** Reading *)

(** The characters that a read of [n] gets from the queue, and what is left
    of it; None when the queue ends before the read does.  An end-of-file
    character behind other characters stays. *)
Fixpoint take_line (n : nat) (first : bool) (q : list Z) : option (list Z * list Z) :=
  match n, q with
  | O, _ => Some ([], q)
  | S _, [] => None
  | S n, c :: q' =>
      if c =? CTRL_D then Some ([], if first then q' else q)
      else if c =? NL then Some ([c], q')
      else r ← take_line n false q'; Some (c :: r.1, r.2)
  end.

(** input.r++ *)
Lemma input_pop s c q line :
  input_ok s (c :: q) line →
  (in_r s =? in_w s) = false ∧ buf_at s (in_r s) = c ∧
  input_ok (set_input (in_buf s) (u32 (in_r s + 1)) (in_w s) (in_e s) s) q line.
Proof.
  intros Hin. pose proof (input_q_len _ _ _ Hin) as Hq. destruct Hin as [Hlen Hr Hw He Hsz Hch].
  split; [|split].
  - rewrite Hw. replace (in_r s) with (u32 (in_r s + 0)) at 1 by (rewrite Z.add_0_r; by apply u32_small).
    rewrite u32_index_eqb; [|unfold INPUT_BUF; lia|done]. cbn [length]. apply Z.eqb_neq. lia.
  - unfold buf_at. rewrite u32_mod_buf. specialize (Hch 0%nat c eq_refl). rewrite Z.add_0_r in Hch. by rewrite Hch.
  - cbn [length app] in *. split; cbn; [done|apply u32_range| | |lia|].
    + rewrite Hw, u32_add_l. f_equal. lia.
    + rewrite He, u32_add_l. f_equal. lia.
    + intros k x Hk. rewrite <- Z.add_mod_idemp_l, u32_mod_buf, Z.add_mod_idemp_l by done.
      replace (in_r s + 1 + Z.of_nat k) with (in_r s + Z.of_nat (S k)) by lia. by apply Hch.
Qed.

Lemma input_empty s line : input_ok s [] line → (in_r s =? in_w s) = true.
Proof.
  intros [_ Hr Hw _ _ _]. rewrite Hw. cbn [length]. rewrite Z.add_0_r, u32_small by done. apply Z.eqb_refl.
Qed.

Lemma consoleread_loop_ok fuel target l s q line :
  editor s (q, line) → Z.of_nat fuel ≤ target →
  match take_line fuel (Z.of_nat fuel =? target) q with
  | Some (l', q') => ∃ s',
      consoleread_loop fuel target (Z.of_nat fuel) l s =
        Ok (CReadDone (Z.of_nat fuel - Z.of_nat (length l')) (l ++ l')) s' ∧ editor s' (q', line)
  | None => ∃ n l' s',
      consoleread_loop fuel target (Z.of_nat fuel) l s = Ok (if reader_killed s then CReadKilled l' else CReadSleep n l') s' ∧
      editor s' ([], line)
  end.
Proof.
  revert l s q. induction fuel as [|fuel IH]; intros l s q (Hscr & Hin & Hnl) Hn.
  { cbn. exists s. rewrite app_nil_r. done. }
  destruct q as [|c q]; cbn in Hin, Hnl; cbn [take_line consoleread_loop].
  { rewrite (input_empty _ _ Hin). do 3 eexists. split; [by destruct (reader_killed s)|done]. }
  destruct (input_pop _ _ _ _ Hin) as (-> & -> & Hin').
  destruct (c =? CTRL_D).
  { eexists. rewrite app_nil_r, Z.sub_0_r. split; [done|].
    destruct (Z.ltb_spec (Z.of_nat (S fuel)) target) as [Hlt|Hge].
    - rewrite (proj2 (Z.eqb_neq _ _)) by lia. done.
    - rewrite (proj2 (Z.eqb_eq _ _)) by lia. done. }
  destruct (c =? NL); [by eexists|].
  set (s1 := set_input _ _ _ _ s) in *.
  specialize (IH (l ++ [c]) s1 q (conj Hscr (conj Hin' Hnl)) ltac:(lia)).
  rewrite (proj2 (Z.eqb_neq (Z.of_nat fuel) target)) in IH by lia.
  replace (Z.of_nat (S fuel) - 1) with (Z.of_nat fuel) by lia.
  destruct (take_line fuel false q) as [[l' q']|]; cbn [mbind option_bind fst snd].
  - destruct IH as (s' & -> & H'). exists s'. split; [|done]. cbn [length].
    rewrite <- app_assoc. cbn [app]. f_equal. f_equal. lia.
  - exact IH.
Qed.

Lemma cons_read_ok n s q line :
  editor s (q, line) → 0 ≤ n < 2 ^ 32 →
  match take_line (Z.to_nat n) true q with
  | Some (l, q') => ∃ s', cons_read n s = Ok (CReadDone (n - Z.of_nat (length l)) l) s' ∧ editor s' (q', line)
  | None => ∃ k l s',
      cons_read n s = Ok (if reader_killed s then CReadKilled l else CReadSleep k l) s' ∧ editor s' ([], line)
  end.
Proof.
  intros Hed Hn. unfold cons_read. rewrite u32_small by done.
  pose proof (consoleread_loop_ok (Z.to_nat n) n [] s q line Hed ltac:(lia)) as H.
  rewrite Z2Nat.id, Z.eqb_refl in H by lia. exact H.
Qed.

(** ** Lines *)

(** A character that is not an editing command and ends no line. *)
Definition ordinary (c : Z) : bool :=
  (0 <? c) && (c <? 256) &&
  negb (bool_decide (c ∈ [CTRL_D; CTRL_H; CTRL_P; CTRL_U; DEL; NL; CR])).

Lemma ordinary_inv c :
  ordinary c = true →
  0 < c < 256 ∧ c ≠ CTRL_D ∧ c ≠ CTRL_H ∧ c ≠ CTRL_P ∧ c ≠ CTRL_U ∧ c ≠ DEL ∧ c ≠ NL ∧ c ≠ CR.
Proof.
  unfold ordinary. rewrite !andb_true_iff, negb_true_iff, bool_decide_eq_false.
  rewrite !not_elem_of_cons. intros [[H1 H2] H3]. lia.
Qed.

Lemma edit_ordinary q line c :
  ordinary c = true → Z.of_nat (length (q ++ line)) + 1 < INPUT_BUF → edit (q, line) c = (q, line ++ [c]).
Proof.
  intros (Hc & ? & ? & ? & ? & ? & ? & ?)%ordinary_inv Hlen. unfold edit.
  assert (∀ x, c ≠ x → (c =? x) = false) as Hne by (intros; by apply Z.eqb_neq).
  rewrite !Hne by (done || lia). cbn [orb negb].
  rewrite (proj2 (Z.ltb_lt _ _)) by lia. cbn [andb]. 
  assert (u8 c = c) as -> by (unfold u8; rewrite Z.mod_small; lia).
  rewrite app_assoc, (length_app (q ++ line)). cbn [length]. by rewrite (proj2 (Z.eqb_neq _ _)) by lia.
Qed.

Lemma edit_line l line :
  forallb ordinary l = true → Z.of_nat (length (line ++ l)) < INPUT_BUF → foldl edit ([], line) l = ([], line ++ l).
Proof.
  revert line. induction l as [|c l IH]; intros line Hl Hlen; cbn [foldl]; [by rewrite app_nil_r|].
  cbn in Hl. apply andb_true_iff in Hl as [Hc Hl]. rewrite length_app in Hlen. cbn [length] in Hlen.
  rewrite edit_ordinary; [|done|cbn; lia]. rewrite IH; [by rewrite <- app_assoc|done|].
  rewrite !length_app. cbn [length]. lia.
Qed.

Lemma take_line_nl l n b :
  forallb ordinary l = true → (length l < n)%nat → take_line n b (l ++ [NL]) = Some (l ++ [NL], []).
Proof.
  revert n b. induction l as [|c l IH]; intros n b Hl Hn; (destruct n as [|n]; [cbn in Hn; lia|]); [done|].
  cbn in Hl. apply andb_true_iff in Hl as [(_ & ? & _ & _ & _ & _ & ? & _)%ordinary_inv Hl].
  cbn [take_line app]. rewrite !(proj2 (Z.eqb_neq _ _)) by done. rewrite IH; [done|done|]. cbn in Hn. lia.
Qed.

(** C35: The interrupt handler implements the line editor on any characters
    that the keyboard or the serial line gives: it returns, and the state
    represents the edited queue and line; the cursor stays on the screen. *)
Theorem consoleintr_correct cs s q line :
  screen_ok s → input_ok s q line → NL ∉ line → Forall (λ c, 0 ≤ c < 256) cs →
  ∃ es s', consoleintr cs s = Ok es s' ∧ screen_ok s' ∧
    input_ok s' (foldl edit (q, line) cs).1 (foldl edit (q, line) cs).2.
Proof.
  intros Hscr Hin Hnl Hcs.
  destruct (consoleintr_ok cs s (q, line) (conj Hscr (conj Hin Hnl)) Hcs) as (es & s' & E & (? & ? & _)). eauto 10.
Qed.

(** A line of ordinary characters, of any length that fits the buffer,
    is read exactly as it was typed, and nothing is left behind. *)
Theorem console_line_roundtrip l n s :
  screen_ok s → input_ok s [] [] → forallb ordinary l = true → Z.of_nat (length l) + 1 ≤ INPUT_BUF →
  Z.of_nat (length l) < n < 2 ^ 32 →
  ∃ es s1 s2, consoleintr (l ++ [CR]) s = Ok es s1 ∧
    cons_read n s1 = Ok (CReadDone (n - Z.of_nat (length l) - 1) (l ++ [NL])) s2 ∧ input_ok s2 [] [].
Proof.
  intros Hscr Hin Hl Hlen Hn.
  assert (Forall (λ c, 0 ≤ c < 256) (l ++ [CR])) as Hcs.
  { apply Forall_app. split; [|by repeat constructor]. apply Forall_forall. intros c Hc.
    apply Is_true_true in Hl. rewrite forallb_True, Forall_forall in Hl. specialize (Hl c Hc).
    apply Is_true_true, ordinary_inv in Hl. lia. }
  destruct (consoleintr_ok _ s ([], []) (conj Hscr (conj Hin (not_elem_of_nil _))) Hcs) as (es & s1 & E1 & Hed).
  rewrite foldl_app, edit_line in Hed by (done || (cbn; lia)).
  assert (foldl edit ([], [] ++ l) [CR] = (l ++ [NL], [])) as E.
  { cbn. by rewrite (proj2 (Z.ltb_lt _ _)) by lia. }
  rewrite E in Hed. pose proof (cons_read_ok n s1 _ _ Hed ltac:(lia)) as H.
  rewrite take_line_nl in H by (done || lia). destruct H as (s2 & E2 & (_ & ? & _)).
  exists es, s1, s2. split; [done|]. split; [|done]. rewrite E2. do 2 f_equal. rewrite length_app. cbn [length]. lia.
Qed.

Module ConsExample.
Definition ex_cons : cons :=
  Cons_ (replicate (Z.to_nat (25 * 80)) 0) 0 true [] (replicate INPUT_BUF_n 0) (2 ^ 32 - 2) (2 ^ 32 - 2) (2 ^ 32 - 2) false.

Lemma ex_cons_ok : screen_ok ex_cons ∧ input_ok ex_cons [] [].
Proof. split; [split; [by vm_compute|done]|]. split; try done. unfold INPUT_BUF_n, INPUT_BUF. cbn. lia. Qed.
End ConsExample.

Lemma consoleintr_correct_witness :
  ∃ es s', consoleintr [104; 120; 8; 105] ConsExample.ex_cons = Ok es s' ∧ input_ok s' [] [104; 105].
Proof.
  destruct ConsExample.ex_cons_ok as [H1 H2].
  destruct (consoleintr_correct [104; 120; 8; 105] ConsExample.ex_cons [] [] H1 H2) as (es & s' & E & _ & H).
  - apply not_elem_of_nil.
  - repeat (apply Forall_cons_2; [lia|]). apply Forall_nil_2.
  - exists es, s'. split; [exact E|exact H].
Defined.

Lemma console_line_roundtrip_witness :
  ∃ es s1 s2, consoleintr [108; 115; 13] ConsExample.ex_cons = Ok es s1 ∧
    cons_read 100 s1 = Ok (CReadDone 97 [108; 115; 10]) s2 ∧ input_ok s2 [] [].
Proof.
  destruct ConsExample.ex_cons_ok as [H1 H2].
  apply (console_line_roundtrip [108; 115] 100 ConsExample.ex_cons H1 H2); [reflexivity|by vm_compute|cbn; lia].
Defined.
