(* ===== verification/Uart.v ===== *)
(** * The serial port (uart.c)

    The driver on the ports of the 8250.  [Uart] states what it relies on of
    the chip; the theorems say that uartputc() sends its character after the ones
    before it, which is how the console sees it, that uartinit() leaves
    the port at 9600 baud with receive interrupts on, and that the interrupt
    handler takes all characters that have arrived. *)

From S2P Require Import Prelude Params Mem Mmu X86 Intr Console.

Definition COM1 : Z := 0x3f8.

(** The variable uart, and the interrupt controllers with the devices. *)
Record com (D : Type) := Com { co_uart : bool; co_pics : pics D }.
Arguments Com {D}.
Arguments co_uart {D}.
Arguments co_pics {D}.

Section uart.
Context {D : Type} `{!Ports D, !Mmio D}.

Definition on_pics {A} : M (pics D) A → M (com D) A := zoom co_pics (λ p s, Com (co_uart s) p).
Definition com_io {A} (m : M D A) : M (com D) A := on_pics (pic_io m).

(** The loop that waits for the transmitter: [n] rounds left. *)
Fixpoint uart_wait (n : nat) : M (com D) unit :=
  match n with
  | O => mret tt
  | S n => x ← com_io (inb (COM1 + 5)); if Z.land x 0x20 =? 0 then uart_wait n else mret tt
  end.

Definition uart_putc (c : Z) : M (com D) unit :=
  u ← gets co_uart;
  if negb u then mret tt else uart_wait 128;; com_io (outb (COM1 + 0) c).

Fixpoint uart_puts (l : list Z) : M (com D) unit :=
  match l with
  | [] => mret tt
  | c :: l => uart_putc c;; uart_puts l
  end.

(** The characters of "xv6...\n". *)
Definition greeting : list Z := [120; 118; 54; 46; 46; 46; 10].

Definition uartinit (ismp : bool) : M (com D) unit :=
  com_io (outb (COM1 + 2) 0);;
  com_io (outb (COM1 + 3) 0x80);;
  com_io (outb (COM1 + 0) (115200 / 9600));;
  com_io (outb (COM1 + 1) 0);;
  com_io (outb (COM1 + 3) 0x03);;
  com_io (outb (COM1 + 4) 0);;
  com_io (outb (COM1 + 1) 0x01);;
  x ← com_io (inb (COM1 + 5));
  if x =? 0xFF then mret tt
  else
    modify (λ s, Com true (co_pics s));;
    com_io (inb (COM1 + 2));;
    com_io (inb (COM1 + 0));;
    on_pics (picenable IRQ_COM1);;
    com_io (ioapicenable ismp IRQ_COM1 0);;
    uart_puts greeting.

Definition uart_getc : M (com D) Z :=
  u ← gets co_uart;
  if negb u then mret (-1)
  else
    x ← com_io (inb (COM1 + 5));
    if Z.land x 0x01 =? 0 then mret (-1) else com_io (inb (COM1 + 0)).

(** The characters that the loop of consoleintr(uartgetc) takes. *)
Fixpoint uart_chars (fuel : nat) : M (com D) (list Z) :=
  match fuel with
  | O => nofuel
  | S fuel => c ← uart_getc; if 0 <=? c then cs ← uart_chars fuel; mret (c :: cs) else mret []
  end.

(** uartintr(), with the console beside the port. *)
Definition uartintr (fuel : nat) : M (com D * cons) (list intr_event) :=
  cs ← zoom fst (λ p s, (p, s.2)) (uart_chars fuel);
  zoom snd (λ c s, (s.1, c)) (consoleintr cs).

End uart.

(** ** The chip *)

(** The registers, the characters sent, and those received and not read.  With
    bit 7 of the line control register set, the first two ports are the
    divisor of the baud rate. *)
Record uview := UView { uv_lcr : Z; uv_div : Z * Z; uv_ier : Z; uv_sent : list Z; uv_in : list Z }.

Definition uv_dlab (v : uview) : bool := Z.testbit (uv_lcr v) 7.

(** A write to port COM1 + [p]. *)
Definition uv_write (p x : Z) (v : uview) : uview :=
  if p =? 0 then
    if uv_dlab v then UView (uv_lcr v) (x, (uv_div v).2) (uv_ier v) (uv_sent v) (uv_in v)
    else UView (uv_lcr v) (uv_div v) (uv_ier v) (uv_sent v ++ [x]) (uv_in v)
  else if p =? 1 then
    if uv_dlab v then UView (uv_lcr v) ((uv_div v).1, x) (uv_ier v) (uv_sent v) (uv_in v)
    else UView (uv_lcr v) (uv_div v) x (uv_sent v) (uv_in v)
  else if p =? 3 then UView x (uv_div v) (uv_ier v) (uv_sent v) (uv_in v)
  else v.

(** A read of the received character. *)
Definition uv_pop (v : uview) : uview :=
  UView (uv_lcr v) (uv_div v) (uv_ier v) (uv_sent v) (tail (uv_in v)).

(** [ua_busy] is how often the status still says that the transmitter is not
    empty; a character may be written when it is.  The status of a chip that is
    there is never 0xFF.  Other devices do not disturb it. *)
Class Uart (D : Type) `{!Ports D, !Mmio D} := {
  ua_rep : D → uview → Prop;
  ua_busy : D → nat;
  ua_bound d v : ua_rep d v → (ua_busy d < 128)%nat;
  ua_bytes d v : ua_rep d v → Forall byte_ok (uv_in v);
  ua_out d v p x : ua_rep d v → 0 ≤ p ≤ 4 → byte_ok x → (p = 0 → uv_dlab v = false → ua_busy d = 0%nat) →
    ua_rep (port_out (COM1 + p) x d) (uv_write p x v);
  ua_status d v : ua_rep d v →
    let r := port_in (COM1 + 5) d in
    ua_rep r.2 v ∧ u8 r.1 ≠ 0xFF ∧ Z.testbit (u8 r.1) 0 = negb (bool_decide (uv_in v = [])) ∧
    (if Z.testbit (u8 r.1) 5 then ua_busy r.2 = 0%nat else (ua_busy r.2 < ua_busy d)%nat);
  ua_iir d v : ua_rep d v → ua_rep (port_in (COM1 + 2) d).2 v;
  ua_data d v : ua_rep d v → uv_dlab v = false →
    let r := port_in COM1 d in ua_rep r.2 (uv_pop v) ∧ (∀ x l, uv_in v = x :: l → r.1 = x);
  ua_pic d v p x : ua_rep d v → p = IO_PIC1 + 1 ∨ p = IO_PIC2 + 1 → ua_rep (port_out p x d) v;
  ua_mmio d v a x : ua_rep d v → ua_rep (reg_write a x d) v;
}.

Section uart_proofs.
Context {D : Type} `{!Ports D, !Mmio D, !Uart D}.

(** The chip behind the driver. *)
Definition com_rep (s : com D) (v : uview) : Prop := ua_rep (pic_dev (co_pics s)) v.

Lemma uart_wait_ok n : ∀ s v,
  com_rep s v → (ua_busy (pic_dev (co_pics s)) < n)%nat →
  ∃ s', uart_wait n s = Ok tt s' ∧ com_rep s' v ∧ ua_busy (pic_dev (co_pics s')) = 0%nat ∧ co_uart s' = co_uart s.
Proof.
  induction n as [|n IH]; intros s v H Hb; [lia|]. destruct s as [u [m d]]. cbn [co_pics pic_dev] in *.
  destruct (ua_status d v H) as (Hv & _ & _ & Hst). cbn [uart_wait]. unfold com_io, on_pics, pic_io, zoom, inb, mbind, M_bind.
  cbn [co_pics pic_dev co_uart irqmask]. change (u16 (COM1 + 5)) with (COM1 + 5).
  assert (∀ x, (Z.land x 0x20 =? 0) = negb (Z.testbit x 5)) as -> by (intros x; by apply (land_bit x 5)).
  destruct (Z.testbit _ 5); cbn [negb].
  - eexists. split; [reflexivity|]. done.
  - destruct (IH (Com u (Pics m (port_in (COM1 + 5) d).2)) v Hv) as (s' & E & H' & Hb' & Hu); [cbn; lia|].
    exists s'. split; [exact E|]. split; [done|]. by split.
Qed.

Lemma com_out s v p x :
  com_rep s v → 0 ≤ p ≤ 4 → (p = 0 → uv_dlab v = false → ua_busy (pic_dev (co_pics s)) = 0%nat) →
  ∃ s', com_io (outb (COM1 + p) x) s = Ok tt s' ∧ com_rep s' (uv_write p (u8 x) v) ∧ co_uart s' = co_uart s.
Proof.
  intros H Hp Hb. destruct s as [u [m d]]. eexists. split; [reflexivity|]. split; [|done]. unfold com_rep in *. cbn in *.
  replace (u16 (COM1 + p)) with (COM1 + p) by (symmetry; apply Z.mod_small; unfold COM1; lia).
  apply ua_out; [done|done|apply byte_u8|done].
Qed.

(** uartputc() sends the character. *)
Lemma uart_putc_ok s v c :
  com_rep s v → co_uart s = true → uv_dlab v = false →
  ∃ s', uart_putc c s = Ok tt s' ∧ co_uart s' = true ∧
    com_rep s' (UView (uv_lcr v) (uv_div v) (uv_ier v) (uv_sent v ++ [u8 c]) (uv_in v)).
Proof.
  intros H Hu Hd. unfold uart_putc. rewrite gets_step, Hu. cbn [negb].
  destruct (uart_wait_ok 128 s v H (ua_bound _ _ H)) as (s1 & E1 & H1 & Hb1 & Hu1). mstep E1.
  destruct (com_out s1 v 0 c H1 ltac:(lia) ltac:(done)) as (s2 & -> & H2 & Hu2). exists s2. split; [done|].
  split; [congruence|]. unfold uv_write in H2. cbn [Z.eqb] in H2. by rewrite Hd in H2.
Qed.

Lemma uart_puts_ok l : ∀ s v,
  com_rep s v → co_uart s = true → uv_dlab v = false →
  ∃ s', uart_puts l s = Ok tt s' ∧ co_uart s' = true ∧
    com_rep s' (UView (uv_lcr v) (uv_div v) (uv_ier v) (uv_sent v ++ (u8 <$> l)) (uv_in v)).
Proof.
  induction l as [|c l IH]; intros s v H Hu Hd; cbn [uart_puts].
  { exists s. rewrite app_nil_r. by destruct v. }
  destruct (uart_putc_ok s v c H Hu Hd) as (s1 & E1 & Hu1 & H1). mstep E1.
  destruct (IH s1 _ H1 Hu1 Hd) as (s2 & E2 & Hu2 & H2). exists s2. split; [done|]. split; [done|].
  cbn [uv_lcr uv_div uv_ier uv_sent uv_in] in H2. rewrite <- app_assoc in H2. exact H2.
Qed.

(** What the console of Console.v takes the serial port to be. *)
Definition same_port (s : com D) (k : cons) : Prop :=
  co_uart s = uart k ∧ ∃ v, com_rep s v ∧ uv_dlab v = false ∧ uv_sent v = uart_out k.

(** The driver's uartputc() implements the console's. *)
Lemma uart_putc_refines s k c :
  same_port s k →
  ∃ s' k', uart_putc c s = Ok tt s' ∧ uartputc c k = Ok tt k' ∧ same_port s' k'.
Proof.
  intros (Hu & v & H & Hd & Hs). unfold uartputc. destruct (uart k) eqn:Ek.
  - destruct (uart_putc_ok s v c H Hu Hd) as (s' & E & Hu' & H'). eexists s', _. split; [done|]. split; [reflexivity|].
    split; [by rewrite Hu'|]. eexists. split; [exact H'|]. split; [done|]. cbn. by rewrite Hs.
  - exists s, k. split; [unfold uart_putc; by rewrite gets_step, Hu|]. split; [done|]. split; [by rewrite Ek|]. by exists v.
Qed.

(** A write to another register than the one for data. *)
Lemma com_out_step {A} (k : M (com D) A) s v p x :
  com_rep s v → 0 ≤ p ≤ 4 → (p = 0 → uv_dlab v = true) →
  ∃ s', (com_io (outb (COM1 + p) x);; k) s = k s' ∧ com_rep s' (uv_write p (u8 x) v) ∧ co_uart s' = co_uart s.
Proof.
  intros H Hp Hd. destruct (com_out s v p x H Hp) as (s' & E & H' & Hu).
  { intros -> Hd'. by rewrite Hd in Hd'. }
  exists s'. by mstep E.
Qed.

Lemma com_in_step {A} p (k : Z → M (com D) A) u m d :
  (x ← com_io (inb p); k x) (Com u (Pics m d)) = k (u8 (port_in (u16 p) d).1) (Com u (Pics m (port_in (u16 p) d).2)).
Proof. reflexivity. Qed.

Lemma enable_com1 s v ismp :
  com_rep s v → ∃ s', (on_pics (picenable IRQ_COM1);; com_io (ioapicenable ismp IRQ_COM1 0)) s = Ok tt s' ∧
    com_rep s' v ∧ co_uart s' = co_uart s.
Proof.
  intros H. destruct s as [u [m d]]. unfold com_rep in *. cbn [co_pics pic_dev] in H.
  eapply (ua_pic _ _ (IO_PIC1 + 1)) in H; [|by left]. eapply (ua_pic _ _ (IO_PIC2 + 1)) in H; [|by right].
  destruct ismp; (eexists; split; [reflexivity|]); (split; [|done]); cbn [co_pics pic_dev].
  - do 4 apply ua_mmio. exact H.
  - exact H.
Qed.

(** uartinit() on a chip that is there: 9600 baud, eight bits, receive
    interrupts, and the greeting behind what was sent before. *)
Lemma uartinit_ok s v ismp :
  com_rep s v →
  ∃ s', uartinit ismp s = Ok tt s' ∧ co_uart s' = true ∧
    com_rep s' (UView 3 (115200 / 9600, 0) 1 (uv_sent v ++ greeting) (tail (uv_in v))).
Proof.
  intros H. unfold uartinit.
  eapply com_out_step in H as (s1 & -> & H & _); [|lia|lia].
  eapply com_out_step in H as (s2 & -> & H & _); [|lia|lia].
  eapply com_out_step in H as (s3 & -> & H & _); [|lia|done].
  eapply com_out_step in H as (s4 & -> & H & _); [|lia|lia].
  eapply com_out_step in H as (s5 & -> & H & _); [|lia|lia].
  eapply com_out_step in H as (s6 & -> & H & _); [|lia|lia].
  eapply com_out_step in H as (s7 & -> & H & _); [|lia|lia].
  set (v7 := uv_write 1 _ _) in H. destruct s7 as [u [m d]]. unfold com_rep in H. cbn [co_pics pic_dev] in H.
  rewrite com_in_step. destruct (ua_status d v7 H) as (H8 & Hff & _ & _).
  change (u16 (COM1 + 5)) with (COM1 + 5).
  rewrite (proj2 (Z.eqb_neq _ _) Hff), modify_step. cbn [co_pics]. rewrite !com_in_step.
  apply ua_iir in H8. apply ua_data in H8 as [H9 _]; [|done].
  change (u16 (COM1 + 2)) with (COM1 + 2). change (u16 (COM1 + 0)) with COM1.
  set (s9 := Com true (Pics m _)). assert (com_rep s9 (uv_pop v7)) as H9' by exact H9.
  destruct (enable_com1 s9 (uv_pop v7) ismp H9') as (s10 & E10 & H10 & Hu10).
  destruct (uart_puts_ok greeting s10 (uv_pop v7) H10 Hu10 ltac:(done)) as (s11 & E11 & Hu11 & H11).
  exists s11. rewrite <- bind_assoc. mstep E10. split; [done|]. split; [done|]. exact H11.
Qed.

(** uartgetc() takes the first character that has arrived. *)
Lemma uart_getc_ok s v :
  com_rep s v → co_uart s = true → uv_dlab v = false →
  ∃ s', uart_getc s = Ok (default (-1) (head (uv_in v))) s' ∧ co_uart s' = true ∧
    com_rep s' (if bool_decide (uv_in v = []) then v else uv_pop v).
Proof.
  intros H Hu Hd. unfold uart_getc. rewrite gets_step, Hu. destruct s as [u [m d]].
  unfold com_rep in H. cbn [co_pics pic_dev co_uart] in *. cbn [negb]. rewrite com_in_step.
  destruct (ua_status d v H) as (H1 & _ & Hb & _). change (u16 (COM1 + 5)) with (COM1 + 5).
  assert (∀ x, (Z.land x 1 =? 0) = negb (Z.testbit x 0)) as -> by (intros x; by apply (land_bit x 0)).
  rewrite Hb, negb_involutive. destruct (uv_in v) as [|x l] eqn:El.
  - rewrite bool_decide_true by done. eexists. split; [reflexivity|]. split; [exact Hu|exact H1].
  - rewrite bool_decide_false by done. destruct (ua_data _ v H1 Hd) as [H2 Hx].
    pose proof (ua_bytes _ _ H) as Hok. rewrite El in Hok. apply Forall_cons in Hok as [Hok _].
    exists (Com u (Pics m (port_in COM1 (port_in (COM1 + 5) d).2).2)). split; [|split; [exact Hu|exact H2]].
    cbn [default head]. rewrite <- (u8_small x), <- (Hx x l El) by exact Hok. reflexivity.
Qed.

(** The interrupt handler takes all characters that have arrived. *)
Lemma uart_chars_ok fuel : ∀ s v,
  com_rep s v → co_uart s = true → uv_dlab v = false → (length (uv_in v) < fuel)%nat →
  ∃ s', uart_chars fuel s = Ok (uv_in v) s' ∧ co_uart s' = true ∧
    com_rep s' (UView (uv_lcr v) (uv_div v) (uv_ier v) (uv_sent v) []).
Proof.
  induction fuel as [|fuel IH]; intros s v H Hu Hd Hl; [lia|]. cbn [uart_chars].
  destruct (uart_getc_ok s v H Hu Hd) as (s1 & E1 & Hu1 & H1). mstep E1. pose proof (ua_bytes _ _ H) as Hok.
  destruct (uv_in v) as [|x l] eqn:El.
  - rewrite bool_decide_true in H1 by done. exists s1. split; [done|]. split; [done|]. destruct v. cbn in *. by subst.
  - rewrite bool_decide_false in H1 by done. apply Forall_cons in Hok as [Hx _].
    change (default (-1) (head (x :: l))) with x. rewrite (proj2 (Z.leb_le 0 x)) by apply Hx.
    destruct (IH s1 (uv_pop v) H1 Hu1 Hd) as (s2 & E2 & Hu2 & H2); [cbn; rewrite El; cbn in *; lia|].
    cbn [uv_pop uv_in] in E2. rewrite El in E2. cbn [tail] in E2. mstep E2. exists s2. done.
Qed.

End uart_proofs.
