(* ===== verification/Devsw.v ===== *)
(** * The console as a device (consoleread, consolewrite and consoleinit of
    console.c, devsw of file.h)

    The state below the file system is paired with that of the console. *)

From S2P Require Import Prelude Params Disk Superblock Txn Fs Console.

Section prod.
Context {S C : Type} `{!Txn S}.

Definition on_fst {A} (m : M S A) : M (S * C) A := zoom fst (λ x s, (x, s.2)) m.

Lemma on_fst_ok {A} (m : M S A) s a x : m s.1 = Ok a x → on_fst m s = Ok a (x, s.2).
Proof. intros H. unfold on_fst. by rewrite (zoom_ok _ _ _ _ _ _ H). Qed.

#[export] Program Instance txn_prod : Txn (S * C) := {
  t_bread dev b := on_fst (t_bread dev b);
  t_brelse i := on_fst (t_brelse i);
  t_data i := on_fst (t_data i);
  t_set i x := on_fst (t_set i x);
  t_log_write i := on_fst (t_log_write i);
  t_begin_op := on_fst t_begin_op;
  t_end_op := on_fst t_end_op;
  trep s v := trep s.1 v;
}.
Next Obligation. intros s v i b. apply trep_held. Qed.
Next Obligation.
  intros s v b H1 H2 H3 H4. destruct (t_bread_ok _ _ _ H1 H2 H3 H4) as (i & s' & E & ? & ?).
  exists i, (s', s.2). split; [by apply on_fst_ok|done].
Qed.
Next Obligation.
  intros s v i b H1 H2 H3. destruct (t_brelse_ok _ _ _ _ H1 H2 H3) as (s' & E & ?).
  exists (s', s.2). split; [by apply on_fst_ok|done].
Qed.
Next Obligation.
  intros [s1 s2] v i b x H1 H2 H3. by rewrite (on_fst_ok _ _ _ _ (t_data_ok _ _ _ _ _ H1 H2 H3)).
Qed.
Next Obligation.
  intros s v i b x H1 H2. destruct (t_set_ok _ _ _ _ x H1 H2) as (s' & E & ?).
  exists (s', s.2). split; [by apply on_fst_ok|done].
Qed.
Next Obligation.
  intros s v i b H1 H2 H3. destruct (t_log_write_ok _ _ _ _ H1 H2 H3) as (s' & E & ?).
  exists (s', s.2). split; [by apply on_fst_ok|done].
Qed.
End prod.

Section console.
Context {S : Type} `{!Txn S}.
#[local] Abbreviation F := (M (fstate (S * cons))).

Definition on_cons {A} (m : M cons A) : F A := tx (zoom snd (λ x s, (s.1, x)) m).

(** &input.r, the channel of the readers *)
Definition input_chan : Z := 0.

(** A reader that sleeps goes on in the loop that [cons_read] left. *)
Definition consoleread (ip : nat) (n : Z) : F (Z * list Z) :=
  iunlock (Some ip);;
  r ← on_cons (cons_read (s32 n));
  match r with
  | CReadDone n' l => ilock (Some ip);; mret (s32 (u32 n - n'), l)
  | CReadKilled l => ilock (Some ip);; mret (-1, l)
  | CReadSleep _ _ => sleep input_chan
  end.

Definition consolewrite (ip : nat) (buf : list Z) (n : Z) : F Z :=
  iunlock (Some ip);;
  (if decide (s32 n ≤ Z.of_nat (length buf)) then on_cons (consputs (take (Z.to_nat (s32 n)) buf)) else fault);;
  ilock (Some ip);;
  mret n.

(** consoleinit() *)
#[export] Instance console_devsw : DevSw (S * cons) := {
  devsw_read major := if major =? CONSOLE then Some consoleread else None;
  devsw_write major := if major =? CONSOLE then Some consolewrite else None;
}.
End console.
