(* ===== verification/Kbd.v ===== *)
(** * The keyboard (kbd.c, kbd.h)

    kbdgetc on the status and the data that the controller gives, with the
    state of the modifier keys; the interrupt handler hands the characters to
    the console.  The characters are those of a keyboard described by what is
    printed on its keys and by the history of what was pressed. *)

From S2P Require Import Prelude Params Mem Mmu Console.

Definition KBS_DIB : Z := 0x01.
Definition SHIFT : Z := Z.shiftl 1 0.
Definition CTL : Z := Z.shiftl 1 1.
Definition ALT : Z := Z.shiftl 1 2.
Definition CAPSLOCK : Z := Z.shiftl 1 3.
Definition NUMLOCK : Z := Z.shiftl 1 4.
Definition SCROLLLOCK : Z := Z.shiftl 1 5.
Definition E0ESC : Z := Z.shiftl 1 6.

(** A [uchar[256]] with its first entries and some others given. *)
Definition table (first : list Z) (others : list (Z * Z)) : list Z :=
  u8 <$> foldl (λ t e, <[Z.to_nat e.1 := e.2]> t) (first ++ replicate (256 - length first) 0) others.

Definition shiftcode : list Z := table []
  [(0x1D, CTL); (0x2A, SHIFT); (0x36, SHIFT); (0x38, ALT); (0x9D, CTL); (0xB8, ALT)].

Definition togglecode : list Z := table [] [(0x3A, CAPSLOCK); (0x45, NUMLOCK); (0x46, SCROLLLOCK)].

(** KEY_UP, KEY_DN, KEY_PGUP, KEY_PGDN, KEY_LF, KEY_RT, KEY_HOME, KEY_END,
    KEY_INS and KEY_DEL, in all three maps *)
Definition special_keys : list (Z * Z) :=
  [(0xC8, 0xE2); (0xD0, 0xE3); (0xC9, 0xE6); (0xD1, 0xE7); (0xCB, 0xE4); (0xCD, 0xE5); (0x97, 0xE0);
   (0xCF, 0xE1); (0xD2, 0xE8); (0xD3, 0xE9)].

(** Sixteen codes in a row. *)
Definition normalmap : list Z := table [
   0; 27; 49; 50; 51; 52; 53; 54; 55; 56; 57; 48; 45; 61; 8; 9;
   113; 119; 101; 114; 116; 121; 117; 105; 111; 112; 91; 93; 10; 0; 97; 115;
   100; 102; 103; 104; 106; 107; 108; 59; 39; 96; 0; 92; 122; 120; 99; 118;
   98; 110; 109; 44; 46; 47; 0; 42; 0; 32; 0; 0; 0; 0; 0; 0;
   0; 0; 0; 0; 0; 0; 0; 55; 56; 57; 45; 52; 53; 54; 43; 49;
   50; 51; 48; 46; 0; 0; 0; 0]
  ([(0x9C, 10); (0xB5, 47)] ++ special_keys).

Definition shiftmap : list Z := table [
   0; 27; 33; 64; 35; 36; 37; 94; 38; 42; 40; 41; 95; 43; 8; 9;
   81; 87; 69; 82; 84; 89; 85; 73; 79; 80; 123; 125; 10; 0; 65; 83;
   68; 70; 71; 72; 74; 75; 76; 58; 34; 126; 0; 124; 90; 88; 67; 86;
   66; 78; 77; 60; 62; 63; 0; 42; 0; 32; 0; 0; 0; 0; 0; 0;
   0; 0; 0; 0; 0; 0; 0; 55; 56; 57; 45; 52; 53; 54; 43; 49;
   50; 51; 48; 46; 0; 0; 0; 0]
  ([(0x9C, 10); (0xB5, 47)] ++ special_keys).

(** C('/') is negative and wraps around. *)
Definition ctlmap : list Z := table [
   0; 0; 0; 0; 0; 0; 0; 0; 0; 0; 0; 0; 0; 0; 0; 0;
   17; 23; 5; 18; 20; 25; 21; 9; 15; 16; 0; 0; 13; 0; 1; 19;
   4; 6; 7; 8; 10; 11; 12; 0; 0; 0; 0; 28; 26; 24; 3; 22;
   2; 14; 13; 0; 0; -17; 0; 0]
  ([(0x9C, 13); (0xB5, C 47)] ++ special_keys).

Definition at_code (t : list Z) (data : Z) : Z := default 0 (t !! Z.to_nat data).

(** charcode[k] *)
Definition charcode (k : Z) : list Z := if k =? 0 then normalmap else if k =? 1 then shiftmap else ctlmap.

(** The key that goes down: the character and the modifiers. *)
Definition key_down (data shift : Z) : Z * Z :=
  let shift := Z.lor shift (at_code shiftcode data) in
  let shift := Z.lxor shift (at_code togglecode data) in
  let c := at_code (charcode (Z.land shift (Z.lor CTL SHIFT))) data in
  let c :=
    if negb (Z.land shift CAPSLOCK =? 0) then
      if (97 <=? c) && (c <=? 122) then u32 (c + (65 - 97))
      else if (65 <=? c) && (c <=? 90) then c + (97 - 65)
      else c
    else c in
  (c, shift).

(** kbdgetc() with the values of the status and data ports and of [shift]. *)
Definition kbdgetc (st data shift : Z) : Z * Z :=
  if Z.land st KBS_DIB =? 0 then (-1, shift)
  else if data =? 0xE0 then (0, Z.lor shift E0ESC)
  else if negb (Z.land data 0x80 =? 0) then
    let data := if negb (Z.land shift E0ESC =? 0) then data else Z.land data 0x7F in
    (0, Z.land shift (Z.lnot (Z.lor (at_code shiftcode data) E0ESC)))
  else if negb (Z.land shift E0ESC =? 0) then
    key_down (Z.lor data 0x80) (Z.land shift (Z.lnot E0ESC))
  else key_down data shift.

(** The characters that kbdgetc gives for the codes in the controller. *)
Fixpoint kbd_chars (codes : list Z) (shift : Z) : list Z * Z :=
  match codes with
  | [] => ([], shift)
  | data :: codes =>
      let (c, shift) := kbdgetc KBS_DIB data shift in
      let (cs, shift) := kbd_chars codes shift in
      (c :: cs, shift)
  end.

(** kbdintr(): the events of the console and the modifiers *)
Definition kbdintr (codes : list Z) (shift : Z) : M cons (list intr_event * Z) :=
  let (cs, shift) := kbd_chars codes shift in
  es ← consoleintr cs; mret (es, shift).

(** ** Ranges *)

(** All pairs of a code and a state of the modifiers. *)
Definition kbd_range_ok (data shift : Z) : bool :=
  let (c, shift') := kbdgetc KBS_DIB data shift in
  (0 <=? c) && (c <? 256) && (0 <=? shift') && (shift' <? 128).

Lemma kbd_range_all :
  forallb (λ d, forallb (kbd_range_ok (Z.of_nat d)) (Z.of_nat <$> seq 0 128)) (seq 0 256) = true.
Proof. by vm_compute. Qed.

Lemma kbdgetc_range data shift c shift' :
  0 ≤ data < 256 → 0 ≤ shift < 128 → kbdgetc KBS_DIB data shift = (c, shift') → 0 ≤ c < 256 ∧ 0 ≤ shift' < 128.
Proof.
  intros Hd Hs E. pose proof kbd_range_all as H. apply Is_true_true in H.
  rewrite forallb_True, Forall_forall in H. specialize (H (Z.to_nat data)).
  rewrite elem_of_seq, Z2Nat.id in H by lia. specialize (H ltac:(lia)). apply Is_true_true in H.
  apply Is_true_true in H. rewrite forallb_True, Forall_forall in H.
  specialize (H shift). apply Is_true_true in H; [|apply list_elem_of_fmap; exists (Z.to_nat shift); rewrite elem_of_seq; lia].
  unfold kbd_range_ok in H. rewrite E in H. lia.
Qed.

Lemma kbd_chars_range codes shift cs shift' :
  Forall byte_ok codes → 0 ≤ shift < 128 → kbd_chars codes shift = (cs, shift') →
  Forall (λ c, 0 ≤ c < 256) cs ∧ 0 ≤ shift' < 128.
Proof.
  intros Hc. revert shift cs. induction Hc as [|d codes Hd _ IH]; intros shift cs Hs; cbn [kbd_chars].
  { intros [= <- <-]. by split. }
  destruct (kbdgetc KBS_DIB d shift) as [c s1] eqn:E1. destruct (kbd_chars codes s1) as [cs1 s2] eqn:E2.
  intros [= <- <-]. destruct (kbdgetc_range _ _ _ _ Hd Hs E1). destruct (IH _ _ ltac:(done) E2). auto.
Qed.

(** Any codes, in any state of the modifier keys: the line editor gets the
    characters. *)
Lemma kbdintr_ok codes shift s st :
  Forall byte_ok codes → 0 ≤ shift < 128 → editor s st →
  ∃ es s', kbdintr codes shift s = Ok (es, (kbd_chars codes shift).2) s' ∧
    editor s' (foldl edit st (kbd_chars codes shift).1).
Proof.
  intros Hc Hs Hed. unfold kbdintr.
  destruct (kbd_chars codes shift) as [cs shift'] eqn:E. destruct (kbd_chars_range _ _ _ _ Hc Hs E) as [Hcs _].
  destruct (consoleintr_ok cs s st Hed Hcs) as (es & s' & E' & Hed'). exists es, s'. by mstep E'.
Qed.

Lemma kbd_chars_app l k shift :
  kbd_chars (l ++ k) shift =
  ((kbd_chars l shift).1 ++ (kbd_chars k (kbd_chars l shift).2).1, (kbd_chars k (kbd_chars l shift).2).2).
Proof.
  revert shift. induction l as [|d l IH]; intros shift; cbn [app kbd_chars]; [apply surjective_pairing|].
  destruct (kbdgetc KBS_DIB d shift) as [c s1]. rewrite IH. by destruct (kbd_chars l s1).
Qed.

(** ** What a keyboard types

    The keys of the keyboard, what the user does with them, and what is typed
    by it: a function of the history of the keys, with no state. *)

Inductive modifier := MShift | MCtl | MAlt.
Inductive lock := LCaps | LNum | LScroll.

#[export] Instance modifier_eq_dec : EqDecision modifier.
Proof. solve_decision. Defined.
#[export] Instance lock_eq_dec : EqDecision lock.
Proof. solve_decision. Defined.

(** A letter by its place in the alphabet, a symbol without and with shift, a
    key that is the same with every modifier. *)
Inductive key := Letter (i : Z) | Symbol (a b : Z) | Special (c : Z) | Modifier (m : modifier) | Locking (l : lock) | Silent.

#[export] Instance key_eq_dec : EqDecision key.
Proof. solve_decision. Defined.

Fixpoint glyphs (s : string) : list Z :=
  match s with
  | EmptyString => []
  | String a s => Z.of_nat (Ascii.nat_of_ascii a) :: glyphs s
  end.

(** A row of keys: the code of the first, and what is printed on them. *)
Definition row (code : Z) (a b : list Z) : list (Z * key) :=
  imap (λ i x, (code + Z.of_nat i, if (97 <=? x.1) && (x.1 <=? 122) then Letter (x.1 - 97) else Symbol x.1 x.2)) (zip a b).

Definition one (code c : Z) : Z * key := (code, Symbol c c).

(** The main block and the keypad. *)
Definition main_keys : list (Z * key) :=
  row 0x02 (glyphs "1234567890-=") (glyphs "!@#$%^&*()_+") ++
  row 0x10 (glyphs "qwertyuiop[]") (glyphs "QWERTYUIOP{}") ++
  row 0x1E (glyphs "asdfghjkl;'`") (glyphs "ASDFGHJKL:" ++ [34; 126]) ++
  row 0x2B (glyphs "\zxcvbnm,./") (glyphs "|ZXCVBNM<>?") ++
  row 0x47 (glyphs "789-456+1230.") (glyphs "789-456+1230.") ++
  [one 0x01 27; one 0x0E 8; one 0x0F 9; one 0x1C 10; one 0x37 42; one 0x39 32;
   (0x1D, Modifier MCtl); (0x2A, Modifier MShift); (0x36, Modifier MShift); (0x38, Modifier MAlt);
   (0x3A, Locking LCaps); (0x45, Locking LNum); (0x46, Locking LScroll)].

(** The keys whose codes follow an 0xE0.  KEY_HOME is at 0x17, where kbd.h
    has it. *)
Definition extended_keys : list (Z * key) :=
  [one 0x1C 10; one 0x35 47; (0x1D, Modifier MCtl); (0x38, Modifier MAlt);
   (0x48, Special 0xE2); (0x50, Special 0xE3); (0x49, Special 0xE6); (0x51, Special 0xE7); (0x4B, Special 0xE4);
   (0x4D, Special 0xE5); (0x17, Special 0xE0); (0x4F, Special 0xE1); (0x52, Special 0xE8); (0x53, Special 0xE9)].

(** A key is pressed or released. *)
Record action := Action { a_ext : bool; a_code : Z; a_press : bool }.

Definition key_of (a : action) : key :=
  match list_find (λ x, x.1 = a_code a) (if a_ext a then extended_keys else main_keys) with
  | Some (_, (_, k)) => k
  | None => Silent
  end.

(** The codes that the keyboard sends for it. *)
Definition scan (a : action) : list Z :=
  (if a_ext a then [0xE0] else []) ++ [if a_press a then a_code a else a_code a + 0x80].

(** No key has the code whose release would be 0xE0. *)
Definition action_ok (a : action) : Prop := 0 ≤ a_code a < 128 ∧ a_code a ≠ 0x60.

(** A modifier is held when the last that happened to one of its keys is that
    it was pressed; a lock is on when its key was pressed an odd number of
    times. *)
Definition held (m : modifier) (h : list action) : bool :=
  match last (filter (λ a, key_of a = Modifier m) h) with Some a => a_press a | None => false end.

Definition locked (l : lock) (h : list action) : bool :=
  Nat.odd (length (filter (λ a, key_of a = Locking l ∧ a_press a = true) h)).

(** What control makes of a symbol: C('\\'), C('/') as a byte, and carriage
    return for the enter keys. *)
Definition control (a : Z) : option Z :=
  if a =? 92 then Some 28 else if a =? 47 then Some 239 else if a =? 10 then Some 13 else None.

Definition char_of (k : key) (shift ctl caps : bool) : option Z :=
  match k with
  | Letter i => Some (if ctl then i + 1 else if xorb shift caps then 65 + i else 97 + i)
  | Symbol a b => if ctl then control a else Some (if shift then b else a)
  | Special c => Some c
  | Modifier _ | Locking _ | Silent => None
  end.

(** The characters that the actions [l] type after the actions [h]. *)
Fixpoint typed (h l : list action) : list Z :=
  match l with
  | [] => []
  | a :: l =>
      (if a_press a then option_list (char_of (key_of a) (held MShift h) (held MCtl h) (locked LCaps h)) else []) ++
      typed (h ++ [a]) l
  end.

(** ** The modifiers of kbdgetc *)

Record mods := Mods { m_shift : bool; m_ctl : bool; m_alt : bool; m_caps : bool; m_num : bool; m_scroll : bool }.

Definition mods_of (h : list action) : mods :=
  Mods (held MShift h) (held MCtl h) (held MAlt h) (locked LCaps h) (locked LNum h) (locked LScroll h).

Definition mods_bits (m : mods) : Z :=
  (if m_shift m then SHIFT else 0) + (if m_ctl m then CTL else 0) + (if m_alt m then ALT else 0) +
  (if m_caps m then CAPSLOCK else 0) + (if m_num m then NUMLOCK else 0) + (if m_scroll m then SCROLLLOCK else 0).

Definition mods_act (m : mods) (a : action) : mods :=
  let hold x b := if decide (key_of a = Modifier x) then a_press a else b in
  let toggle x b := if decide (key_of a = Locking x ∧ a_press a = true) then negb b else b in
  Mods (hold MShift (m_shift m)) (hold MCtl (m_ctl m)) (hold MAlt (m_alt m))
       (toggle LCaps (m_caps m)) (toggle LNum (m_num m)) (toggle LScroll (m_scroll m)).

Lemma held_snoc m h a : held m (h ++ [a]) = if decide (key_of a = Modifier m) then a_press a else held m h.
Proof.
  unfold held. rewrite filter_app, filter_cons, filter_nil. destruct (decide _); [by rewrite last_snoc|by rewrite app_nil_r].
Qed.

Lemma locked_snoc l h a :
  locked l (h ++ [a]) = if decide (key_of a = Locking l ∧ a_press a = true) then negb (locked l h) else locked l h.
Proof.
  unfold locked. rewrite filter_app, filter_cons, filter_nil, length_app.
  destruct (decide _); cbn [length]; [|by rewrite Nat.add_0_r]. by rewrite Nat.add_1_r, Nat.odd_succ, <- Nat.negb_odd.
Qed.

Lemma mods_of_snoc h a : mods_of (h ++ [a]) = mods_act (mods_of h) a.
Proof. unfold mods_of, mods_act. cbn. by rewrite !held_snoc, !locked_snoc. Qed.

Definition action_typed (m : mods) (a : action) : list Z :=
  if a_press a then option_list (char_of (key_of a) (m_shift m) (m_ctl m) (m_caps m)) else [].

(** One action, on every state of the modifiers. *)
Definition action_agrees (m : mods) (a : action) : bool :=
  let (cs, shift) := kbd_chars (scan a) (mods_bits m) in
  bool_decide (filter (.≠ 0) cs = action_typed m a) && (shift =? mods_bits (mods_act m a)).

Definition bools : list bool := [false; true].

Definition all_mods : list mods :=
  s ← bools; c ← bools; a ← bools; p ← bools; n ← bools; l ← bools; [Mods s c a p n l].

Lemma all_mods_elem m : m ∈ all_mods.
Proof. destruct m as [[] [] [] [] [] []]; vm_compute; set_solver. Qed.

Lemma action_agrees_all e p :
  forallb (λ c, (c =? 0x60) || forallb (λ m, action_agrees m (Action e c p)) all_mods) (Z.of_nat <$> seq 0 128) = true.
Proof. by destruct e, p; vm_compute. Qed.

Lemma action_ok_agrees m a : action_ok a → action_agrees m a = true.
Proof.
  destruct a as [e c p]. intros [Hc Hne]. cbn [a_code] in *. pose proof (action_agrees_all e p) as H.
  rewrite forallb_forall in H. specialize (H c). rewrite <- list_elem_of_In, list_elem_of_fmap in H.
  destruct (orb_prop _ _ (H ltac:(exists (Z.to_nat c); rewrite elem_of_seq; lia))) as [Hn%Z.eqb_eq|Hm]; [done|].
  rewrite forallb_forall in Hm. apply Hm, list_elem_of_In, all_mods_elem.
Qed.

(** The codes of a history of actions. *)
Lemma kbd_chars_typed l h :
  Forall action_ok l →
  (kbd_chars (l ≫= scan) (mods_bits (mods_of h))).2 = mods_bits (mods_of (h ++ l)) ∧
  filter (.≠ 0) (kbd_chars (l ≫= scan) (mods_bits (mods_of h))).1 = typed h l.
Proof.
  intros Hl. revert h. induction Hl as [|a l Ha _ IH]; intros h; [by rewrite app_nil_r|].
  cbn [typed]. rewrite bind_cons, kbd_chars_app. cbn [fst snd].
  pose proof (action_ok_agrees (mods_of h) a Ha) as H. unfold action_agrees in H.
  destruct (kbd_chars (scan a) (mods_bits (mods_of h))) as [cs shift]. apply andb_true_iff in H as [H1%bool_decide_eq_true_1 ->%Z.eqb_eq].
  cbn [fst snd]. rewrite <- mods_of_snoc, filter_app, H1. destruct (IH (h ++ [a])) as [-> ->].
  by rewrite <- app_assoc.
Qed.

Lemma edit_zero st : edit st 0 = st.
Proof. by destruct st. Qed.

Lemma edit_nonzero cs st : foldl edit st (filter (.≠ 0) cs) = foldl edit st cs.
Proof.
  revert st. induction cs as [|c cs IH]; intros st; [done|]. rewrite filter_cons. cbn [foldl].
  destruct (decide (c ≠ 0)) as [|Hc]; [apply IH|]. assert (c = 0) as -> by lia. rewrite edit_zero. apply IH.
Qed.

Lemma scan_bytes l : Forall action_ok l → Forall byte_ok (l ≫= scan).
Proof.
  intros Hl. induction Hl as [|[e c p] l [Hc _] _ IH]; [done|]. rewrite bind_cons. apply Forall_app. split; [|done].
  unfold scan, byte_ok in *. cbn in *. destruct e, p; repeat constructor; lia.
Qed.

(** The interrupts, with the codes that each finds in the controller. *)
Fixpoint kbdintrs (chunks : list (list Z)) (shift : Z) : M cons Z :=
  match chunks with
  | [] => mret shift
  | codes :: chunks => r ← kbdintr codes shift; kbdintrs chunks r.2
  end.

Lemma kbdintrs_ok chunks shift s st :
  Forall byte_ok (concat chunks) → 0 ≤ shift < 128 → editor s st →
  ∃ s', kbdintrs chunks shift s = Ok (kbd_chars (concat chunks) shift).2 s' ∧
    editor s' (foldl edit st (kbd_chars (concat chunks) shift).1).
Proof.
  revert shift s st. induction chunks as [|codes chunks IH]; intros shift s st Hc Hs Hed; cbn [kbdintrs concat]; [by exists s|].
  apply Forall_app in Hc as [Hc1 Hc2]. destruct (kbdintr_ok codes shift s st Hc1 Hs Hed) as (es & s1 & E1 & Hed1).
  destruct (kbd_chars_range codes shift _ _ Hc1 Hs (surjective_pairing _)) as [_ Hs1].
  destruct (IH _ _ _ Hc2 Hs1 Hed1) as (s2 & E2 & Hed2). exists s2. mstep E1. cbn [snd].
  rewrite kbd_chars_app. cbn [fst snd]. by rewrite foldl_app.
Qed.

(** C36: the keyboard types what is printed on its keys.  Whatever keys are
    pressed and released since the machine started, and however their codes
    are spread over interrupts (an 0xE0 may be the last of one and its key the
    first of the next), every interrupt returns and the line editor of the
    console has got exactly the characters of the pressed keys: a letter as
    a capital when just one of shift (held) and caps lock (pressed an odd
    number of times) is on, a symbol by shift, the control character with
    control, the special codes of the cursor keys, and nothing for the other
    keys and for releases; and the bits of [shift] are those of the modifiers
    that are held and of the locks that are on. *)
Theorem kbdintr_types acts chunks s st :
  Forall action_ok acts → concat chunks = (acts ≫= scan) → editor s st →
  ∃ s', kbdintrs chunks 0 s = Ok (mods_bits (mods_of acts)) s' ∧ editor s' (foldl edit st (typed [] acts)).
Proof.
  intros Ha E Hed. destruct (kbdintrs_ok chunks 0 s st ltac:(rewrite E; by apply scan_bytes) ltac:(lia) Hed) as (s' & E' & Hed').
  rewrite E in E', Hed'. destruct (kbd_chars_typed acts [] Ha) as [H1 H2]. change (mods_bits (mods_of [])) with 0 in *.
  exists s'. rewrite E', H1. split; [done|]. by rewrite <- H2, edit_nonzero.
Qed.

(** The keys h, shift with i, right control with u, o, k and enter, with the
    code of right control over two interrupts. *)
Lemma kbdintr_types_witness :
  ∃ s', kbdintrs [[0x23]; [0xA3; 0x2A; 0x17; 0xAA; 0xE0]; [0x1D; 0x16; 0xE0]; [0x9D; 0x18; 0x25; 0x1C]] 0 ConsExample.ex_cons = Ok 0 s' ∧
    editor s' ([111; 107; 10], []).
Proof.
  destruct ConsExample.ex_cons_ok as [H1 H2].
  destruct (kbdintr_types
    [Action false 0x23 true; Action false 0x23 false; Action false 0x2A true; Action false 0x17 true; Action false 0x2A false;
     Action true 0x1D true; Action false 0x16 true; Action true 0x1D false; Action false 0x18 true; Action false 0x25 true;
     Action false 0x1C true]
    [[0x23]; [0xA3; 0x2A; 0x17; 0xAA; 0xE0]; [0x1D; 0x16; 0xE0]; [0x9D; 0x18; 0x25; 0x1C]] ConsExample.ex_cons ([], []))
    as (s' & E & Hed).
  - repeat constructor; cbn; lia.
  - reflexivity.
  - split; [exact H1|]. split; [exact H2|apply not_elem_of_nil].
  - exists s'. split; [exact E|exact Hed].
Defined.

(** The home key sends 0xE0 0x47, beside 0x48 of the up key, and types
    nothing: kbd.h has KEY_HOME at 0x97 and not at 0xC7. *)
Lemma home_key_silent shift : 0 ≤ shift < 64 → (kbd_chars [0xE0; 0x47] shift).1 = [0; 0].
Proof.
  intros Hs. assert (forallb (λ i, bool_decide ((kbd_chars [0xE0; 0x47] (Z.of_nat i)).1 = [0; 0])) (seq 0 64) = true) as H by by vm_compute.
  rewrite forallb_forall in H. specialize (H (Z.to_nat shift)). rewrite Z2Nat.id in H by lia.
  eapply bool_decide_eq_true_1, H, in_seq. lia.
Qed.
