(* ===== verification/Sh.v ===== *)
(** * The shell (sh.c)

    The parser works on the line as the list of its characters; a pointer
    into it is an offset, and the state of the parser is [*ps].  The
    characters of the line are not NUL, the NUL is at its end.  runcmd is the
    tree of the system calls it makes. *)

From S2P Require Import Prelude Params Sysfile.

Definition MAXARGS : Z := 10.

(** A struct cmd; a word is the pair of its begin and its end. *)
Inductive cmd :=
  | EXEC (argv : list (nat * nat))
  | REDIR (c : cmd) (file : nat * nat) (mode fd : Z)
  | PIPE (left right : cmd)
  | LIST (left right : cmd)
  | BACK (c : cmd).

(** ** Tokens *)

(** " \t\r\n\v" *)
Definition whitespace : list Z := [32; 9; 13; 10; 11].
(** "<|>&;()" *)
Definition symbols : list Z := [60; 124; 62; 38; 59; 40; 41].

Definition is_space (c : Z) : bool := bool_decide (c ∈ whitespace).
Definition is_symbol (c : Z) : bool := bool_decide (c ∈ symbols).

Section parse.
(** The line; [es] is its length. *)
Context (line : list Z).

(** *s *)
Definition char_at (s : nat) : Z := default 0 (line !! s).

(** while(s < es && p( *s )) s++; *)
Fixpoint skip (p : Z → bool) (n s : nat) : nat :=
  match n with
  | O => s
  | S n => if p (char_at s) then skip p n (S s) else s
  end.
Definition skip_while (p : Z → bool) (s : nat) : nat := skip p (length line - s) s.

(** The character that names the token, and where it ends. *)
Definition token_at (s : nat) : Z * nat :=
  let c := char_at s in
  if c =? 0 then (0, s)
  else if bool_decide (c ∈ [124; 40; 41; 59; 38; 60]) then (c, S s)
  else if c =? 62 then if char_at (S s) =? 62 then (43, S (S s)) else (62, S s)
  else (97, skip_while (λ c, negb (is_space c) && negb (is_symbol c)) s).

(** The result, and the values of q and eq. *)
Definition gettoken : M nat (Z * nat * nat) := λ ps,
  let q := skip_while is_space ps in
  let (ret, eq) := token_at q in
  Ok (ret, q, eq) (skip_while is_space eq).

Definition peek (toks : list Z) : M nat bool := λ ps,
  let s := skip_while is_space ps in
  Ok (negb (char_at s =? 0) && bool_decide (char_at s ∈ toks)) s.

(** ** The parser *)

Definition redir : Type := (nat * nat) * Z * Z.
Definition redircmd (c : cmd) (r : redir) : cmd := REDIR c r.1.1 r.1.2 r.2.

Definition redir_of (tok : Z) (q eq : nat) : redir :=
  if tok =? 60 then (q, eq, O_RDONLY, 0) else (q, eq, Z.lor O_WRONLY O_CREATE, 1).

(** The redirections that the loop of parseredirs wraps around its command,
    from the inside out. *)
Fixpoint parseredirs_loop (fuel : nat) : M nat (list redir) :=
  match fuel with
  | O => nofuel
  | S fuel =>
      more ← peek [60; 62];
      if (more : bool) then
        tok ← gettoken;
        file ← gettoken;
        if negb (file.1.1 =? 97) then panic "missing file for redirection"
        else
          rs ← parseredirs_loop fuel;
          mret (redir_of tok.1.1 file.1.2 file.2 :: rs)
      else mret []
  end.

(** Every turn takes a character. *)
Definition redirs : M nat (list redir) := parseredirs_loop (S (length line)).
Definition parseredirs (c : cmd) : M nat cmd := rs ← redirs; mret (foldl redircmd c rs).

(** The loop of parseexec: the arguments, and the redirections between them,
    which are wrapped around the struct execcmd that the arguments go to. *)
Fixpoint parseexec_loop (fuel : nat) (argc : Z) : M nat (list (nat * nat) * list redir) :=
  match fuel with
  | O => nofuel
  | S fuel =>
      stop ← peek [124; 41; 38; 59];
      if (stop : bool) then mret ([], [])
      else
        t ← gettoken;
        if t.1.1 =? 0 then mret ([], [])
        else if negb (t.1.1 =? 97) then panic "syntax"
        else if MAXARGS <=? argc + 1 then panic "too many args"
        else
          rs ← redirs;
          rest ← parseexec_loop fuel (argc + 1);
          mret ((t.1.2, t.2) :: rest.1, rs ++ rest.2)
  end.

(** parseexec for a simple command. *)
Definition parsesimple : M nat cmd :=
  rs ← redirs;
  r ← parseexec_loop (S (length line)) 0;
  mret (foldl redircmd (EXEC r.1) (rs ++ r.2)).

(** while(peek(ps, es, "&")) *)
Fixpoint parseback_loop (fuel : nat) (c : cmd) : M nat cmd :=
  match fuel with
  | O => nofuel
  | S fuel =>
      more ← peek [38];
      if (more : bool) then gettoken;; parseback_loop fuel (BACK c) else mret c
  end.

(** parseline, parsepipe, parseexec and parseblock call each other. *)
Inductive nonterminal := NLine | NPipe | NExec | NBlock.

Fixpoint parse (fuel : nat) (nt : nonterminal) : M nat cmd :=
  match fuel with
  | O => nofuel
  | S fuel =>
      match nt with
      | NLine =>
          c ← parse fuel NPipe;
          c ← parseback_loop (S (length line)) c;
          semi ← peek [59];
          if (semi : bool) then gettoken;; r ← parse fuel NLine; mret (LIST c r) else mret c
      | NPipe =>
          c ← parse fuel NExec;
          bar ← peek [124];
          if (bar : bool) then gettoken;; r ← parse fuel NPipe; mret (PIPE c r) else mret c
      | NExec =>
          paren ← peek [40];
          if (paren : bool) then parse fuel NBlock else parsesimple
      | NBlock =>
          paren ← peek [40];
          if negb paren then panic "parseblock"
          else
            gettoken;;
            c ← parse fuel NLine;
            close ← peek [41];
            if negb close then panic "syntax - missing )"
            else gettoken;; parseredirs c
      end
  end.

(** Between two tokens the parser goes through four nonterminals at most. *)
Definition parse_fuel : nat := 4 * length line + 4.

Definition parse_line : M nat cmd :=
  c ← parse parse_fuel NLine;
  peek [];;
  s ← get;
  if decide (s = length line) then mret c else panic "syntax".
End parse.

(** ** nulterminate *)

(** The buffer is the line with its NUL. *)
Fixpoint nulterminate (c : cmd) (buf : list Z) : list Z :=
  match c with
  | EXEC argv => foldl (λ buf w, <[snd w := 0]> buf) buf argv
  | REDIR c file _ _ => <[snd file := 0]> (nulterminate c buf)
  | PIPE l r => nulterminate r (nulterminate l buf)
  | LIST l r => nulterminate r (nulterminate l buf)
  | BACK c => nulterminate c buf
  end.

(** The command and the buffer that its words point into. *)
Definition parsecmd (line : list Z) : outcome nat (cmd * list Z) :=
  match parse_line line 0%nat with
  | Ok c s => Ok (c, nulterminate c (line ++ [0])) s
  | Sleep ch s => Sleep ch s
  | Panic msg => Panic msg
  | Fault => Fault
  | NoFuel => NoFuel
  end.

(** The string at an offset of the buffer. *)
Fixpoint string_of (buf : list Z) : list Z :=
  match buf with
  | [] => []
  | c :: buf => if c =? 0 then [] else c :: string_of buf
  end.
Definition string_at (buf : list Z) (s : nat) : list Z := string_of (drop s buf).

(** ** runcmd *)

(** The system calls of a process, with what it does with their results.
    [Exec] goes on only if it fails, [Fork] goes on with 0 in the child. *)
Inductive prog :=
  | Exit
  | Message (msg : string) (k : prog)
  | Exec (file : list Z) (argv : list (list Z)) (k : prog)
  | Close (fd : Z) (k : prog)
  | Open (file : list Z) (mode : Z) (k : Z → prog)
  | Pipe (k : Z → Z → Z → prog)
  | Dup (fd : Z) (k : prog)
  | Fork (k : Z → prog)
  | Wait (k : prog).

Definition sh_panic (msg : string) : prog := Message msg Exit.

Definition fork1 (k : Z → prog) : prog := Fork (λ pid, if pid =? -1 then sh_panic "fork" else k pid).

Section run.
(** The buffer of the parsed line. *)
Context (buf : list Z).

Definition word_str (w : nat * nat) : list Z := string_at buf w.1.

Fixpoint runcmd (c : cmd) : prog :=
  match c with
  | EXEC [] => Exit
  | EXEC (w :: ws) => Exec (word_str w) (word_str <$> w :: ws) (Message "exec failed" Exit)
  | REDIR c file mode fd =>
      Close fd (Open (word_str file) mode (λ r,
        if r <? 0 then Message "open failed" Exit else runcmd c))
  | LIST l r => fork1 (λ pid, if pid =? 0 then runcmd l else Wait (runcmd r))
  | PIPE l r =>
      Pipe (λ res p0 p1,
        if res <? 0 then sh_panic "pipe"
        else fork1 (λ pid,
          if pid =? 0 then Close 1 (Dup p1 (Close p0 (Close p1 (runcmd l))))
          else fork1 (λ pid,
            if pid =? 0 then Close 0 (Dup p0 (Close p0 (Close p1 (runcmd r))))
            else Close p0 (Close p1 (Wait (Wait Exit))))))
  | BACK c => fork1 (λ pid, if pid =? 0 then runcmd c else Exit)
  end.
End run.

(** One command line of main: a change of directory, or a child that runs
    the command; None if the child does not get that far. *)
Inductive sh_action := Chdir (path : list Z) | Child (p : prog).

Definition sh_line (line : list Z) : option sh_action :=
  match line with
  | 99 :: 100 :: 32 :: path => Some (Chdir (removelast path))
  | _ => match parsecmd line with Ok (c, buf) _ => Some (Child (runcmd buf c)) | _ => None end
  end.
