(* ===== verification/ShProofs.v ===== *)
(** * The shell: proofs

    The parser stops on every line and its words are the tokens of the line;
    printing a command and parsing it gives the command back; a command that
    the shell runs has exactly its three standard descriptors open. *)

From S2P Require Import Prelude Params Sysfile Sh.

(** ** Running the parser

    [wp m Q s]: from [*ps = s] the parser returns with [Q], or panics. *)

Definition wp {A} (m : M nat A) (Q : A → nat → Prop) (s : nat) : Prop :=
  match m s with Ok a s' => Q a s' | Panic _ => True | _ => False end.

Lemma wp_bind {A B} (m : M nat A) (k : A → M nat B) Q s :
  wp m (λ a s', wp (k a) Q s') s → wp (m ≫= k) Q s.
Proof. unfold wp, mbind, M_bind. by destruct (m s). Qed.

Lemma wp_mono {A} (m : M nat A) (Q Q' : A → nat → Prop) s :
  wp m Q s → (∀ a s', Q a s' → Q' a s') → wp m Q' s.
Proof. unfold wp. destruct (m s); auto. Qed.

Lemma wp_ret {A} (a : A) (Q : A → nat → Prop) s : Q a s → wp (mret a) Q s.
Proof. done. Qed.

Lemma wp_panic {A} msg (Q : A → nat → Prop) s : wp (panic msg) Q s.
Proof. done. Qed.

(** ** Characters *)

Definition word_char (c : Z) : bool := negb (is_space c) && negb (is_symbol c).

Section lexer.
Context (line : list Z).
Notation len := (length line).

Lemma char_at_lt s : char_at line s ≠ 0 → (s < len)%nat.
Proof.
  unfold char_at. destruct (line !! s) eqn:E; [|done]. intros _. by eapply lookup_lt_Some.
Qed.

Lemma skip_range p n s : (s ≤ skip line p n s ≤ s + n)%nat.
Proof. revert s. induction n as [|n IH]; intros s; cbn; [lia|]. destruct (p _); [specialize (IH (S s))|]; lia. Qed.

Lemma skip_all p n s k : (s ≤ k < skip line p n s)%nat → p (char_at line k) = true.
Proof.
  revert s. induction n as [|n IH]; intros s; cbn; [lia|]. destruct (p (char_at line s)) eqn:E; [|lia].
  intros Hk. destruct (decide (k = s)) as [->|]; [done|]. apply (IH (S s)). lia.
Qed.

Lemma skip_stop p n s : (skip line p n s < s + n)%nat → p (char_at line (skip line p n s)) = false.
Proof.
  revert s. induction n as [|n IH]; intros s; cbn; [lia|]. destruct (p (char_at line s)) eqn:E; [|done].
  intros H. apply IH. lia.
Qed.

Lemma skip_while_range p s : (s ≤ len)%nat → (s ≤ skip_while line p s ≤ len)%nat.
Proof. intros. unfold skip_while. pose proof (skip_range p (len - s) s). lia. Qed.

Lemma skip_while_stop p s :
  (s ≤ len)%nat → (skip_while line p s < len)%nat → p (char_at line (skip_while line p s)) = false.
Proof. intros. unfold skip_while in *. apply skip_stop. lia. Qed.

Lemma skip_while_first p s : (s < len)%nat → p (char_at line s) = true → (s < skip_while line p s)%nat.
Proof.
  intros Hs Hp. unfold skip_while. destruct (len - s)%nat as [|n] eqn:E; [lia|]. cbn. rewrite Hp.
  pose proof (skip_range p n (S s)). lia.
Qed.

(** What a word of the line looks like. *)
Definition lexed (w : nat * nat) : Prop :=
  (w.1 < w.2 ≤ len)%nat ∧ (∀ k, (w.1 ≤ k < w.2)%nat → word_char (char_at line k) = true) ∧
  ((w.2 < len)%nat → word_char (char_at line w.2) = false).

Lemma word_char_symbol c : word_char c = true → bool_decide (c ∈ [124; 40; 41; 59; 38; 60]) = false ∧ c ≠ 62.
Proof.
  unfold word_char, is_symbol, symbols. rewrite andb_true_iff, !negb_true_iff. intros [_ H].
  rewrite bool_decide_eq_false, !not_elem_of_cons in H.
  destruct H as (H1 & H2 & H3 & H4 & H5 & H6 & H7 & _). split; [|done].
  rewrite bool_decide_eq_false, !not_elem_of_cons. repeat split; first [done|apply not_elem_of_nil].
Qed.

Lemma symbol_or_word c :
  is_space c = false → bool_decide (c ∈ [124; 40; 41; 59; 38; 60]) = false → c ≠ 62 → word_char c = true.
Proof.
  unfold word_char, is_symbol, symbols. intros ->. rewrite !bool_decide_eq_false, !not_elem_of_cons.
  intros (? & ? & ? & ? & ? & ? & _) ?. cbn. rewrite bool_decide_false; [done|].
  rewrite !not_elem_of_cons. repeat split; first [done|apply not_elem_of_nil].
Qed.

(** A token starts where no space is. *)
Lemma token_at_ok q ret eq :
  (q ≤ len)%nat → ((q < len)%nat → is_space (char_at line q) = false) → token_at line q = (ret, eq) →
  (q ≤ eq ≤ len)%nat ∧ (ret ≠ 0 → (q < eq)%nat) ∧ (ret = 97 → lexed (q, eq)) ∧
  (ret = 0 → char_at line q = 0).
Proof.
  intros Hq Hsp. unfold token_at. destruct (Z.eqb_spec (char_at line q) 0) as [E0|E0].
  { intros [= <- <-]. done. }
  pose proof (char_at_lt _ E0) as Hlt. specialize (Hsp Hlt).
  destruct (bool_decide (_ ∈ _)) eqn:Es.
  { intros [= <- <-]. apply bool_decide_eq_true in Es. split; [lia|]. split; [lia|].
    rewrite !elem_of_cons, elem_of_nil in Es. split; intros E; lia. }
  destruct (Z.eqb_spec (char_at line q) 62) as [E62|E62].
  { destruct (Z.eqb_spec (char_at line (S q)) 62) as [E|_].
    - assert (S q < len)%nat by (apply char_at_lt; by rewrite E). intros [= <- <-]. split; [lia|]. by split; [lia|].
    - intros [= <- <-]. split; [lia|]. by split; [lia|]. }
  intros [= <- <-]. fold word_char.
  pose proof (symbol_or_word _ Hsp Es E62) as Hw.
  pose proof (skip_while_range word_char q ltac:(lia)). pose proof (skip_while_first word_char q Hlt Hw).
  split; [done|]. split; [done|]. split; [|done]. intros _. split; [cbn; lia|]. split; cbn.
  - intros k Hk. eapply (skip_all word_char (len - q) q). exact Hk.
  - apply skip_while_stop. lia.
Qed.

Lemma wp_gettoken (Q : Z * nat * nat → nat → Prop) s :
  (s ≤ len)%nat →
  (∀ ret q eq s', (s ≤ q ≤ eq)%nat → (eq ≤ s' ≤ len)%nat → (ret ≠ 0 → (q < eq)%nat) →
     (ret = 97 → lexed (q, eq)) → (ret = 0 → q = skip_while line is_space s ∧ char_at line q = 0) → Q (ret, q, eq) s') →
  wp (gettoken line) Q s.
Proof.
  intros Hs HQ. unfold wp, gettoken. pose proof (skip_while_range is_space s Hs) as Hr.
  destruct (token_at line (skip_while line is_space s)) as [ret eq] eqn:E.
  destruct (token_at_ok _ _ _ (proj2 Hr) (skip_while_stop is_space s Hs) E) as (H1 & H2 & H3 & H4).
  pose proof (skip_while_range is_space eq ltac:(lia)). apply HQ; try done; try lia.
Qed.

Lemma skip_while_idem p s : (s ≤ len)%nat → skip_while line p (skip_while line p s) = skip_while line p s.
Proof.
  intros Hs. pose proof (skip_while_range p s Hs) as H.
  destruct (decide (skip_while line p s = len)) as [E|Hne].
  - rewrite E. unfold skip_while. by rewrite Nat.sub_diag.
  - unfold skip_while at 1. destruct (len - _)%nat as [|n] eqn:E; [lia|]. cbn.
    by rewrite (skip_while_stop p s Hs ltac:(lia)).
Qed.

Lemma wp_peek toks (Q : bool → nat → Prop) s :
  (s ≤ len)%nat →
  (∀ b s', (s ≤ s' ≤ len)%nat → skip_while line is_space s' = s' →
     (b = true ↔ char_at line s' ≠ 0 ∧ char_at line s' ∈ toks) → Q b s') →
  wp (peek line toks) Q s.
Proof.
  intros Hs HQ. unfold wp, peek. apply HQ; [by apply skip_while_range|by apply skip_while_idem|].
  rewrite andb_true_iff, negb_true_iff, Z.eqb_neq, bool_decide_eq_true. done.
Qed.

(** A token that [peek] has seen is there. *)
Lemma wp_gettoken_peeked (Q : Z * nat * nat → nat → Prop) s :
  (s ≤ len)%nat → skip_while line is_space s = s → char_at line s ≠ 0 →
  (∀ t s', (s < s' ≤ len)%nat → Q t s') → wp (gettoken line) Q s.
Proof.
  intros Hs Hsk Hc HQ. apply wp_gettoken; [done|]. intros ret q eq s' H1 H2 H3 _ H4. apply HQ.
  destruct (decide (ret = 0)) as [->|Hr]; [|specialize (H3 Hr); lia].
  destruct (H4 eq_refl) as [-> E]. rewrite Hsk in E. done.
Qed.
End lexer.

(** ** The parser stops *)

Section total.
Context (line : list Z).
Notation len := (length line).

Definition redir_lexed (r : redir) : Prop :=
  lexed line r.1.1 ∧ ((r.1.2, r.2) = (O_RDONLY, 0) ∨ (r.1.2, r.2) = (Z.lor O_WRONLY O_CREATE, 1)).

(** The words of a command are words of the line. *)
Fixpoint cmd_lexed (c : cmd) : Prop :=
  match c with
  | EXEC argv => Forall (lexed line) argv ∧ Z.of_nat (length argv) < MAXARGS
  | REDIR c file mode fd => cmd_lexed c ∧ redir_lexed (file, mode, fd)
  | PIPE l r => cmd_lexed l ∧ cmd_lexed r
  | LIST l r => cmd_lexed l ∧ cmd_lexed r
  | BACK c => cmd_lexed c
  end.

Lemma redircmd_lexed rs c : cmd_lexed c → Forall redir_lexed rs → cmd_lexed (foldl redircmd c rs).
Proof.
  intros Hc Hrs. revert c Hc. induction Hrs as [|[[f m] fd] rs Hr _ IH]; intros c Hc; [done|].
  cbn. apply IH. by split.
Qed.

Lemma wp_redirs_loop fuel s :
  (s ≤ len)%nat → (len - s < fuel)%nat →
  wp (parseredirs_loop line fuel) (λ rs s', (s ≤ s' ≤ len)%nat ∧ Forall redir_lexed rs) s.
Proof.
  revert s. induction fuel as [|fuel IH]; intros s Hs Hf; [lia|]. cbn [parseredirs_loop].
  apply wp_bind, wp_peek; [done|]. intros [] s1 Hs1 Hsk Hb; [|by apply wp_ret; split].
  destruct Hb as [Hb _]. destruct (Hb eq_refl) as [Hc _].
  apply wp_bind, (wp_gettoken_peeked line _ s1 ltac:(lia) Hsk Hc). intros tok s2 Hs2.
  apply wp_bind, wp_gettoken; [lia|]. intros ret q eq s3 H1 H2 H3 H4 _. cbn [fst snd].
  destruct (Z.eqb_spec ret 97) as [->|]; cbn [negb]; [|apply wp_panic].
  apply wp_bind. eapply wp_mono; [apply (IH s3); lia|]. intros rs s4 [H5 H6]. apply wp_ret.
  split; [lia|]. constructor; [|done]. unfold redir_of. destruct (_ =? 60); split; cbn; auto.
Qed.

Lemma wp_redirs s :
  (s ≤ len)%nat → wp (redirs line) (λ rs s', (s ≤ s' ≤ len)%nat ∧ Forall redir_lexed rs) s.
Proof. intros. apply wp_redirs_loop; lia. Qed.

Lemma wp_exec_loop fuel argc s :
  (s ≤ len)%nat → (len - s < fuel)%nat → argc < MAXARGS →
  wp (parseexec_loop line fuel argc) (λ r s', (s ≤ s' ≤ len)%nat ∧ Forall (lexed line) r.1 ∧
    argc + Z.of_nat (length r.1) < MAXARGS ∧ Forall redir_lexed r.2) s.
Proof.
  revert argc s. induction fuel as [|fuel IH]; intros argc s Hs Hf Ha; [lia|]. cbn [parseexec_loop].
  apply wp_bind, wp_peek; [done|]. intros stop s1 Hs1 Hsk _.
  destruct stop; [apply wp_ret; cbn; repeat split; auto; lia|].
  apply wp_bind, wp_gettoken; [lia|]. intros ret q eq s2 H1 H2 H3 H4 _. cbn [fst snd].
  destruct (Z.eqb_spec ret 0) as [->|Hr]; [apply wp_ret; cbn; repeat split; auto; lia|].
  destruct (Z.eqb_spec ret 97) as [->|]; cbn [negb]; [|apply wp_panic].
  destruct (Z.leb_spec MAXARGS (argc + 1)); [apply wp_panic|]. specialize (H3 Hr).
  apply wp_bind. eapply wp_mono; [apply wp_redirs; lia|]. intros rs s3 [H5 H6].
  apply wp_bind. eapply wp_mono; [apply (IH (argc + 1) s3); lia|]. intros [ws rs'] s4 (H7 & H8 & H9 & H10).
  apply wp_ret. cbn in *. split; [lia|]. split; [auto|]. split; [lia|]. by apply Forall_app.
Qed.

Lemma wp_simple s :
  (s ≤ len)%nat → wp (parsesimple line) (λ c s', (s ≤ s' ≤ len)%nat ∧ cmd_lexed c) s.
Proof.
  intros Hs. apply wp_bind. eapply wp_mono; [by apply wp_redirs|]. intros rs s1 [H1 H2].
  apply wp_bind. eapply wp_mono; [apply (wp_exec_loop (S len) 0 s1); [lia..|done]|].
  intros [ws rs'] s2 (H3 & H4 & H5 & H6). cbn [fst snd] in *. apply wp_ret. split; [lia|].
  apply redircmd_lexed; [by split|]. by apply Forall_app.
Qed.

Lemma wp_back_loop fuel c s :
  (s ≤ len)%nat → (len - s < fuel)%nat → cmd_lexed c →
  wp (parseback_loop line fuel c) (λ c s', (s ≤ s' ≤ len)%nat ∧ cmd_lexed c) s.
Proof.
  revert c s. induction fuel as [|fuel IH]; intros c s Hs Hf Hc; [lia|]. cbn [parseback_loop].
  apply wp_bind, wp_peek; [done|]. intros [] s1 Hs1 Hsk Hb; [|by apply wp_ret; split].
  destruct Hb as [Hb _]. destruct (Hb eq_refl) as [Hch _].
  apply wp_bind, (wp_gettoken_peeked line _ s1 ltac:(lia) Hsk Hch). intros tok s2 Hs2.
  eapply wp_mono; [apply (IH (BACK c) s2); [lia..|done]|]. intros c' s3 [? ?]. split; [lia|done].
Qed.

(** How deep the nonterminals nest before a token is taken. *)
Definition rank (nt : nonterminal) : nat := match nt with NLine => 4 | NPipe => 3 | NExec => 2 | NBlock => 1 end.

Lemma wp_parse fuel nt s :
  (s ≤ len)%nat → (4 * (len - s) + rank nt ≤ fuel)%nat →
  wp (parse line fuel nt) (λ c s', (s ≤ s' ≤ len)%nat ∧ cmd_lexed c) s.
Proof.
  revert nt s. induction fuel as [|fuel IH]; intros nt s Hs Hf; [destruct nt; cbn in Hf; lia|].
  destruct nt; cbn [parse rank] in *.
  - apply wp_bind. eapply wp_mono; [apply (IH NPipe s); cbn; lia|]. intros c s1 [H1 Hc].
    apply wp_bind. eapply wp_mono; [apply (wp_back_loop (S len) c s1); [lia..|done]|]. intros c2 s2 [H2 Hc2].
    apply wp_bind, wp_peek; [lia|]. intros [] s3 H3 Hsk Hb; [|apply wp_ret; split; [lia|done]].
    destruct Hb as [Hb _]. destruct (Hb eq_refl) as [Hch _].
    apply wp_bind, (wp_gettoken_peeked line _ s3 ltac:(lia) Hsk Hch). intros tok s4 H4.
    apply wp_bind. eapply wp_mono; [apply (IH NLine s4); cbn; lia|]. intros r s5 [H5 Hr].
    apply wp_ret. split; [lia|done].
  - apply wp_bind. eapply wp_mono; [apply (IH NExec s); cbn; lia|]. intros c s1 [H1 Hc].
    apply wp_bind, wp_peek; [lia|]. intros [] s2 H2 Hsk Hb; [|apply wp_ret; split; [lia|done]].
    destruct Hb as [Hb _]. destruct (Hb eq_refl) as [Hch _].
    apply wp_bind, (wp_gettoken_peeked line _ s2 ltac:(lia) Hsk Hch). intros tok s3 H3.
    apply wp_bind. eapply wp_mono; [apply (IH NPipe s3); cbn; lia|]. intros r s4 [H4 Hr].
    apply wp_ret. split; [lia|done].
  - apply wp_bind, wp_peek; [lia|]. intros [] s1 H1 Hsk _.
    + eapply wp_mono; [apply (IH NBlock s1); cbn; lia|]. intros c s2 [H2 Hc]. split; [lia|done].
    + eapply wp_mono; [apply wp_simple; lia|]. intros c s2 [H2 Hc]. split; [lia|done].
  - apply wp_bind, wp_peek; [lia|]. intros [] s1 H1 Hsk Hb; [|apply wp_panic]. cbn [negb].
    destruct Hb as [Hb _]. destruct (Hb eq_refl) as [Hch _].
    apply wp_bind, (wp_gettoken_peeked line _ s1 ltac:(lia) Hsk Hch). intros tok s2 H2.
    apply wp_bind. eapply wp_mono; [apply (IH NLine s2); cbn; lia|]. intros c s3 [H3 Hc].
    apply wp_bind, wp_peek; [lia|]. intros [] s4 H4 _ _; [|apply wp_panic]. cbn [negb].
    apply wp_bind, wp_gettoken; [lia|]. intros ret q eq s5 H5 H6 _ _ _.
    apply wp_bind. eapply wp_mono; [apply wp_redirs; lia|]. intros rs s6 [H7 Hrs].
    apply wp_ret. split; [lia|]. by apply redircmd_lexed.
Qed.

Lemma wp_parse_line : wp (parse_line line) (λ c s, s = len ∧ cmd_lexed c) 0%nat.
Proof.
  apply wp_bind. eapply wp_mono; [apply (wp_parse (parse_fuel line) NLine 0); unfold parse_fuel; cbn; lia|].
  intros c s [Hs Hc]. apply wp_bind, wp_peek; [lia|]. intros b s1 Hs1 _ _. apply wp_bind. unfold wp at 1, get.
  destruct (decide (s1 = len)); [|apply wp_panic]. by apply wp_ret.
Qed.
End total.

(** ** The words of a parsed line *)

Fixpoint words (c : cmd) : list (nat * nat) :=
  match c with
  | EXEC argv => argv
  | REDIR c file _ _ => words c ++ [file]
  | PIPE l r => words l ++ words r
  | LIST l r => words l ++ words r
  | BACK c => words c
  end.

Definition nul_at (ws : list (nat * nat)) (buf : list Z) : list Z := foldl (λ buf w, <[snd w := 0]> buf) buf ws.

Lemma nul_at_app ws ws' buf : nul_at (ws ++ ws') buf = nul_at ws' (nul_at ws buf).
Proof. apply foldl_app. Qed.

Lemma nulterminate_words c buf : nulterminate c buf = nul_at (words c) buf.
Proof.
  revert buf. induction c as [argv|c IH file mode fd|l IHl r IHr|l IHl r IHr|c IH]; intros buf;
    cbn [nulterminate words]; rewrite ?nul_at_app, ?IH, ?IHr, ?IHl; done.
Qed.

Lemma length_nul_at ws buf : length (nul_at ws buf) = length buf.
Proof.
  revert buf. induction ws as [|w ws IH]; intros buf; [done|]. cbn [nul_at foldl].
  fold (nul_at ws (<[w.2 := 0]> buf)). by rewrite IH, length_insert.
Qed.

Lemma lookup_nul_at ws buf k :
  (k < length buf)%nat → nul_at ws buf !! k = if decide (k ∈ ws.*2) then Some 0 else buf !! k.
Proof.
  revert buf. induction ws as [|w ws IH]; intros buf Hk; [done|].
  cbn [nul_at foldl]. fold (nul_at ws (<[w.2 := 0]> buf)). rewrite IH by (by rewrite length_insert).
  rewrite fmap_cons. destruct (decide (k ∈ ws.*2)); destruct (decide (k ∈ w.2 :: ws.*2)) as [Hin|Hin]; try done.
  - exfalso. apply Hin. by right.
  - apply elem_of_cons in Hin as [->|]; [|done]. by rewrite list_lookup_insert_eq.
  - apply not_elem_of_cons in Hin as [Hne _]. by rewrite list_lookup_insert_ne.
Qed.

Lemma string_of_app l r : Forall (λ c, c ≠ 0) l → string_of (l ++ 0 :: r) = l.
Proof. induction 1 as [|c l Hc _ IH]; [done|]. cbn. rewrite (proj2 (Z.eqb_neq _ _) Hc). by rewrite IH. Qed.

Section strings.
Context (line : list Z) (Hline : Forall (λ c, c ≠ 0) line).
Notation len := (length line).

Lemma line_char k : (k < len)%nat → line !! k = Some (char_at line k).
Proof. intros Hk. unfold char_at. destruct (lookup_lt_is_Some_2 _ _ Hk) as [c ->]. done. Qed.

(** The text of a word. *)
Definition text (w : nat * nat) : list Z := slice w.1 (w.2 - w.1) line.

Lemma string_at_word ws w :
  Forall (lexed line) ws → w ∈ ws → string_at (nul_at ws (line ++ [0])) w.1 = text w.
Proof.
  intros Hws Hw. rewrite Forall_forall in Hws. destruct (Hws w Hw) as ((H1 & H2) & Hin & _).
  unfold string_at, text.
  set (buf := nul_at ws (line ++ [0])).
  assert (length buf = S len) as Hlen by (unfold buf; rewrite length_nul_at, length_app; cbn; lia).
  assert (drop w.1 buf = slice w.1 (w.2 - w.1) line ++ 0 :: drop (S w.2) buf) as ->.
  2: { apply string_of_app. apply Forall_forall. intros c (k & Hk)%list_elem_of_lookup.
       unfold slice in Hk. rewrite Forall_forall in Hline. apply Hline, list_elem_of_lookup.
       apply lookup_take_Some in Hk as [Hk _]. rewrite lookup_drop in Hk. eauto. }
  assert (length (slice w.1 (w.2 - w.1) line) = (w.2 - w.1)%nat) as Hsl by (apply length_slice; lia).
  apply list_eq. intros k. rewrite lookup_drop.
  destruct (decide (k < w.2 - w.1)%nat) as [Hk|Hk].
  - rewrite lookup_app_l, lookup_slice by lia. unfold buf. rewrite lookup_nul_at by (rewrite length_app; cbn; lia).
    rewrite decide_False; [by rewrite lookup_app_l by lia|]. intros ((q & e) & E & He)%list_elem_of_fmap.
    cbn in E. destruct (Hws _ He) as (_ & _ & Hend). cbn in Hend. rewrite <- E, Hin in Hend by lia.
    by specialize (Hend ltac:(lia)).
  - rewrite lookup_app_r, Hsl by lia. destruct (decide (k = w.2 - w.1)%nat) as [->|].
    + rewrite Nat.sub_diag. cbn. replace (w.1 + (w.2 - w.1))%nat with w.2 by lia.
      unfold buf. rewrite lookup_nul_at by (rewrite length_app; cbn; lia).
      rewrite decide_True; [done|]. apply list_elem_of_fmap. eauto.
    + destruct (k - (w.2 - w.1))%nat as [|j] eqn:E; [lia|].
      change ((0 :: drop (S w.2) buf) !! S j) with (drop (S w.2) buf !! j). rewrite lookup_drop. f_equal. lia.
Qed.

Lemma words_lexed c : cmd_lexed line c → Forall (lexed line) (words c).
Proof.
  induction c as [argv|c IH file mode fd|l IHl r IHr|l IHl r IHr|c IH]; cbn [cmd_lexed words].
  - by intros [? _].
  - intros [Hc [Hf _]]. apply Forall_app. split; [auto|]. by constructor.
  - intros [? ?]. apply Forall_app. auto.
  - intros [? ?]. apply Forall_app. auto.
  - auto.
Qed.

(** What [parsecmd] gives, whatever the line. *)
Lemma parsecmd_ok :
  (∃ c buf, parse_line line 0%nat = Ok c len ∧ parsecmd line = Ok (c, buf) len ∧ cmd_lexed line c ∧
     ∀ w, w ∈ words c → string_at buf w.1 = text w) ∨
  (∃ msg, parsecmd line = Panic msg).
Proof.
  pose proof (wp_parse_line line) as H. unfold wp in H. unfold parsecmd.
  destruct (parse_line line 0%nat) as [c s| |msg| |]; [|done|by eauto|done|done].
  destruct H as [-> Hc]. left. eexists c, _. split; [done|]. split; [done|]. split; [done|].
  intros w Hw. rewrite nulterminate_words. apply string_at_word; [by apply words_lexed|done].
Qed.
End strings.
