(* ===== verification/ShSpec.v ===== *)
(** * The shell: printing and parsing, descriptors

    Commands as their text, a printer for them, and the theorems. *)

From S2P Require Import Prelude Params Sysfile Sh ShProofs.

(** ** Commands with their words *)

Inductive acmd :=
  | AExec (argv : list (list Z))
  | ARedir (c : acmd) (file : list Z) (mode fd : Z)
  | APipe (left right : acmd)
  | AList (left right : acmd)
  | ABack (c : acmd).

(** The command that [c] is, when [f] gives the text of its words. *)
Fixpoint denote (f : nat * nat → list Z) (c : cmd) : acmd :=
  match c with
  | EXEC argv => AExec (f <$> argv)
  | REDIR c file mode fd => ARedir (denote f c) (f file) mode fd
  | PIPE l r => APipe (denote f l) (denote f r)
  | LIST l r => AList (denote f l) (denote f r)
  | BACK c => ABack (denote f c)
  end.

Lemma denote_ext f g c : (∀ w, w ∈ words c → f w = g w) → denote f c = denote g c.
Proof.
  induction c as [argv|c IH file mode fd|l IHl r IHr|l IHl r IHr|c IH]; cbn [denote words]; intros H.
  - f_equal. apply list_fmap_ext. intros i w Hw. apply H. by eapply list_elem_of_lookup_2.
  - rewrite IH; [|intros w Hw; apply H, elem_of_app; by left]. f_equal. apply H, elem_of_app. right.
    by apply list_elem_of_singleton.
  - rewrite IHl, IHr; [done|intros w Hw; apply H, elem_of_app; auto..].
  - rewrite IHl, IHr; [done|intros w Hw; apply H, elem_of_app; auto..].
  - by rewrite IH.
Qed.

(** ** Tokens *)

Inductive tok := TSym (c : Z) | TWord (w : list Z).

Definition tok_chars (t : tok) : list Z := match t with TSym c => [c] | TWord w => w end.

(** Every token is followed by a space. *)
Definition render (ts : list tok) : list Z := concat ((λ t, tok_chars t ++ [32]) <$> ts).

Definition good_char (c : Z) : bool := word_char c && negb (c =? 0).
Definition good_word (w : list Z) : bool := negb (bool_decide (w = [])) && forallb good_char w.
Definition good_tok (t : tok) : bool := match t with TSym c => is_symbol c | TWord w => good_word w end.

(** *** Printing *)

Definition redir_toks (file : list Z) (fd : Z) : list tok := [TSym (if fd =? 0 then 60 else 62); TWord file].

(** A command as a line, as the part of a line before [;], as a part of a
    pipe, and as a simple command or block. *)
Record shown := Shown { s_line : list tok; s_back : list tok; s_pipe : list tok; s_exec : list tok }.

Definition block (ts : list tok) : list tok := TSym 40 :: ts ++ [TSym 41].

Fixpoint show (c : acmd) : shown :=
  match c with
  | AExec argv => let e := TWord <$> argv in Shown e e e e
  | ARedir c file _ fd => let e := s_exec (show c) ++ redir_toks file fd in Shown e e e e
  | APipe l r =>
      let p := s_exec (show l) ++ TSym 124 :: s_pipe (show r) in Shown p p p (block p)
  | AList l r =>
      let p := s_back (show l) ++ TSym 59 :: s_line (show r) in Shown p (block p) (block p) (block p)
  | ABack c => let p := s_back (show c) ++ [TSym 38] in Shown p p (block p) (block p)
  end.

Definition print_cmd (c : acmd) : list Z := render (s_line (show c)).

(** What the parser can give: its redirections, its words and their number. *)
Fixpoint printable (c : acmd) : bool :=
  match c with
  | AExec argv => forallb good_word argv && (Z.of_nat (length argv) <? MAXARGS)
  | ARedir c file mode fd =>
      printable c && good_word file &&
      (((mode =? O_RDONLY) && (fd =? 0)) || ((mode =? Z.lor O_WRONLY O_CREATE) && (fd =? 1)))
  | APipe l r => printable l && printable r
  | AList l r => printable l && printable r
  | ABack c => printable c
  end.

(** ** The lexer on a printed line *)

Section printed.
Context (line : list Z).
Notation len := (length line).

(** The parser is in front of the tokens [ts]. *)
Definition at_toks (s : nat) (ts : list tok) : Prop :=
  (s ≤ len)%nat ∧ drop s line = render ts ∧ forallb good_tok ts = true.

Lemma char_at_drop s l : drop s line = l → char_at line s = default 0 (head l).
Proof. intros <-. unfold char_at. rewrite head_lookup, lookup_drop. by rewrite Nat.add_0_r. Qed.

Lemma drop_more s l1 l2 : (s ≤ len)%nat → drop s line = l1 ++ l2 →
  (s + length l1 ≤ len)%nat ∧ drop (s + length l1) line = l2.
Proof.
  intros Hs H. split.
  - apply (f_equal length) in H. rewrite length_drop, length_app in H. lia.
  - by rewrite <- drop_drop, H, drop_app_length.
Qed.

Lemma drop_cons s c l : drop s line = c :: l → drop (S s) line = l.
Proof. intros H. replace (S s) with (s + 1)%nat by lia. by rewrite <- drop_drop, H. Qed.

Lemma skip_exact p n s l1 l2 :
  drop s line = l1 ++ l2 → forallb p l1 = true → (length l1 ≤ n)%nat →
  ((length l1 < n)%nat → p (default 0 (head l2)) = false) → skip line p n s = (s + length l1)%nat.
Proof.
  revert s l1. induction n as [|n IH]; intros s l1 H Hp Hn Hstop; cbn [skip].
  { destruct l1; cbn in *; lia. }
  rewrite (char_at_drop _ _ H). destruct l1 as [|c l1]; cbn in Hp |- *.
  - rewrite Hstop by (cbn; lia). lia.
  - apply andb_true_iff in Hp as [-> Hp]. rewrite (IH (S s) l1); [lia| |done|cbn in Hn; lia|].
    + replace (S s) with (s + length [c])%nat by (cbn; lia). rewrite <- drop_drop, H. done.
    + intros Hlt. apply Hstop. cbn. lia.
Qed.

Lemma skip_while_exact p s l1 l2 :
  (s ≤ len)%nat → drop s line = l1 ++ l2 → forallb p l1 = true →
  (l2 ≠ [] → p (default 0 (head l2)) = false) → skip_while line p s = (s + length l1)%nat.
Proof.
  intros Hs H Hp Hstop. pose proof (f_equal length H) as Hl. rewrite length_drop, length_app in Hl.
  unfold skip_while. eapply skip_exact; [done..|lia|]. intros Hlt. apply Hstop. intros ->. cbn in Hl. lia.
Qed.

Lemma symbol_not_space c : is_symbol c = true → is_space c = false ∧ c ≠ 0 ∧ c ≠ 97.
Proof.
  unfold is_symbol, is_space, symbols, whitespace. rewrite bool_decide_eq_true, bool_decide_eq_false.
  rewrite !elem_of_cons, elem_of_nil. intros H. lia.
Qed.

(** A token starts with a character that is no space. *)
Lemma good_tok_head t ts :
  good_tok t = true → is_space (default 0 (head (render (t :: ts)))) = false ∧ render (t :: ts) ≠ [].
Proof.
  destruct t as [c|w]; cbn.
  - intros H. by destruct (symbol_not_space c H).
  - unfold good_word. destruct w as [|c w]; [done|]. cbn. intros H. split; [|done].
    unfold good_char, word_char in H. destruct (is_space c); [|done]. cbn in H. done.
Qed.

(** No space in front. *)
Lemma at_toks_skip s ts : at_toks s ts → skip_while line is_space s = s.
Proof.
  intros (Hs & H & Hg). rewrite (skip_while_exact is_space s [] (render ts)); [cbn; lia|done|done|done|].
  destruct ts as [|t ts]; [done|]. intros _. cbn in Hg. apply andb_true_iff in Hg as [Hg _].
  by apply good_tok_head.
Qed.

(** The text of the token and what gettoken returns for it. *)
Definition tok_code (t : tok) : Z := match t with TSym c => c | TWord _ => 97 end.

Lemma token_at_sym s c l :
  is_symbol c = true → drop s line = c :: 32 :: l → token_at line s = (c, S s).
Proof.
  intros Hc H. unfold token_at. pose proof (char_at_drop _ _ H) as E. cbn in E. rewrite E.
  assert (char_at line (S s) = 32) as ->.
  { by rewrite (char_at_drop _ _ (drop_cons _ _ _ H)). }
  destruct (symbol_not_space c Hc) as (_ & H0 & _). rewrite (proj2 (Z.eqb_neq _ _) H0).
  unfold is_symbol in Hc. apply bool_decide_eq_true in Hc.
  case_bool_decide as Hin; [done|]. destruct (Z.eqb_spec c 62) as [->|Hne]; [done|].
  exfalso. apply Hin. unfold symbols in Hc. rewrite !elem_of_cons in *. tauto.
Qed.

Lemma token_at_word s w l :
  (s ≤ len)%nat → good_word w = true → drop s line = w ++ 32 :: l → token_at line s = (97, (s + length w)%nat).
Proof.
  unfold good_word. intros Hs Hw H. apply andb_true_iff in Hw as [Hne Hw]. apply negb_true_iff, bool_decide_eq_false in Hne.
  assert (forallb word_char w = true) as Hwc.
  { clear -Hw. induction w as [|c w IH]; [done|]. cbn in *. unfold good_char in Hw.
    destruct (word_char c); [|done]. cbn in *. apply andb_true_iff in Hw as [_ Hw]. auto. }
  destruct w as [|c w]; [done|]. unfold token_at. rewrite (char_at_drop _ _ H). cbn [app head default from_option id].
  cbn in Hw, Hwc. apply andb_true_iff in Hw as [Hc _]. apply andb_true_iff in Hc as [Hc H0].
  apply negb_true_iff in H0. rewrite H0. destruct (word_char_symbol c Hc) as [-> E]. rewrite (proj2 (Z.eqb_neq _ _) E).
  f_equal. apply (skip_while_exact word_char s (c :: w) (32 :: l)); [done|done|exact Hwc|done].
Qed.

Lemma render_cons t ts : render (t :: ts) = tok_chars t ++ 32 :: render ts.
Proof. unfold render. cbn. by rewrite <- app_assoc. Qed.

Lemma gettoken_printed s t ts :
  at_toks s (t :: ts) → ∃ s', gettoken line s = Ok (tok_code t, s, (s + length (tok_chars t))%nat) s' ∧
    at_toks s' ts ∧ (s < s')%nat.
Proof.
  intros Hat. pose proof (at_toks_skip _ _ Hat) as Hsk. destruct Hat as (Hs & H & Hg).
  cbn in Hg. apply andb_true_iff in Hg as [Ht Hg]. rewrite render_cons in H.
  assert (token_at line s = (tok_code t, (s + length (tok_chars t))%nat)) as Htok.
  { destruct t as [c|w]; cbn [tok_code tok_chars good_tok length] in *.
    - rewrite (token_at_sym s c (render ts)); [f_equal; lia|done|done].
    - by apply (token_at_word s w (render ts)). }
  destruct (drop_more s _ _ Hs H) as [Hs1 H1]. set (e := (s + length (tok_chars t))%nat) in *.
  pose proof (drop_cons _ _ _ H1) as H2.
  assert (S e ≤ len)%nat as Hs2 by (apply (f_equal length) in H1; rewrite length_drop in H1; cbn in H1; lia).
  exists (S e). unfold gettoken. rewrite Hsk, Htok.
  rewrite (skip_while_exact is_space e [32] (render ts)); [|done|done|done|].
  - split; [f_equal; cbn; lia|]. split; [by split|]. unfold e. lia.
  - destruct ts as [|t' ts]; [done|]. intros _. cbn in Hg. apply andb_true_iff in Hg as [Hg _]. by apply good_tok_head.
Qed.

(** The next token is one of these symbols. *)
Definition next_in (syms : list Z) (ts : list tok) : bool :=
  match ts with TSym c :: _ => bool_decide (c ∈ syms) | _ => false end.

Lemma peek_printed s syms ts :
  at_toks s ts → (∀ c, c ∈ syms → is_symbol c = true) → peek line syms s = Ok (next_in syms ts) s.
Proof.
  intros Hat Hsy. pose proof (at_toks_skip _ _ Hat) as Hsk. destruct Hat as (Hs & H & Hg).
  unfold peek. rewrite Hsk, (char_at_drop _ _ H). f_equal.
  destruct ts as [|[c|w] ts]; [done| |].
  - cbn in *. apply andb_true_iff in Hg as [Hc _]. destruct (symbol_not_space c Hc) as (_ & H0 & _).
    by rewrite (proj2 (Z.eqb_neq _ _) H0).
  - cbn in Hg. apply andb_true_iff in Hg as [Hw _]. unfold good_word in Hw. destruct w as [|c w]; [done|].
    cbn in Hw. apply andb_true_iff in Hw as [Hc _]. rewrite render_cons. cbn. apply andb_false_iff. right.
    apply bool_decide_eq_false. intros Hin. unfold good_char, word_char in Hc. rewrite (Hsy _ Hin) in Hc.
    by rewrite andb_false_r in Hc.
Qed.

Lemma text_printed s w ts :
  at_toks s (TWord w :: ts) → text line (s, (s + length w)%nat) = w.
Proof.
  intros (Hs & H & _). rewrite render_cons in H. unfold text, slice. cbn.
  replace (s + length w - s)%nat with (length w) by lia. rewrite H. apply take_app_length.
Qed.

(** *** The parser on a printed line *)

Definition aredir : Type := list Z * Z * Z.
Definition awrap (c : acmd) (r : aredir) : acmd := ARedir c r.1.1 r.1.2 r.2.
Definition good_redir (r : aredir) : bool :=
  good_word r.1.1 && (((r.1.2 =? O_RDONLY) && (r.2 =? 0)) || ((r.1.2 =? Z.lor O_WRONLY O_CREATE) && (r.2 =? 1))).
Definition redirs_toks (rs : list aredir) : list tok := concat ((λ r : aredir, redir_toks r.1.1 r.2) <$> rs).

Definition aredir_of (r : redir) : aredir := (text line r.1.1, r.1.2, r.2).

Lemma denote_redirs rs c :
  denote (text line) (foldl redircmd c rs) = foldl awrap (denote (text line) c) (aredir_of <$> rs).
Proof. revert c. induction rs as [|r rs IH]; intros c; [done|]. cbn. by rewrite IH. Qed.

Lemma redirs_printed fuel rs rest s :
  at_toks s (redirs_toks rs ++ rest) → next_in [60; 62] rest = false → forallb good_redir rs = true →
  (len - s < fuel)%nat →
  ∃ rs' s', parseredirs_loop line fuel s = Ok rs' s' ∧ at_toks s' rest ∧ aredir_of <$> rs' = rs ∧ (s ≤ s')%nat.
Proof.
  revert s rs. induction fuel as [|fuel IH]; intros s rs Hat Hnext Hg Hf; [lia|]. cbn [parseredirs_loop].
  assert (∀ c, c ∈ [60; 62] → is_symbol c = true) as Hsy.
  { intros c. rewrite !elem_of_cons, elem_of_nil. intros [->|[->|[]]]; done. }
  mstep (peek_printed s [60; 62] _ Hat Hsy). destruct rs as [|[[f m] fd] rs].
  { cbn [redirs_toks concat fmap list_fmap app] in *. rewrite Hnext. exists [], s. done. }
  cbn in Hg. apply andb_true_iff in Hg as [Hr Hg]. unfold good_redir in Hr. cbn in Hr.
  apply andb_true_iff in Hr as [Hf' Hmode].
  change (redirs_toks ((f, m, fd) :: rs)) with (redir_toks f fd ++ redirs_toks rs) in *.
  unfold redir_toks in *. cbn [app] in *.
  assert (next_in [60; 62] (TSym (if fd =? 0 then 60 else 62) :: TWord f :: redirs_toks rs ++ rest) = true) as ->.
  { cbn. apply bool_decide_eq_true. rewrite !elem_of_cons. destruct (fd =? 0); auto. }
  destruct (gettoken_printed _ _ _ Hat) as (s1 & E1 & Hat1 & Hlt1). mstep E1.
  destruct (gettoken_printed _ _ _ Hat1) as (s2 & E2 & Hat2 & Hlt2). mstep E2. cbn [tok_code tok_chars fst snd Z.eqb negb Pos.eqb].
  pose proof (proj1 Hat2). destruct (IH s2 rs Hat2 Hnext Hg ltac:(lia)) as (rs' & s3 & E3 & Hat3 & Hrs & Hle). mstep E3.
  eexists _, s3. split; [done|]. split; [done|]. split; [|lia]. rewrite fmap_cons, Hrs. f_equal.
  unfold aredir_of, redir_of. apply orb_true_iff in Hmode as [Hm|Hm]; apply andb_true_iff in Hm as [Hm Hfd];
    apply Z.eqb_eq in Hm, Hfd; subst;
    cbn [Z.eqb Pos.eqb fst snd]; by rewrite (text_printed _ _ _ Hat1).
Qed.

(** The line ends, or goes on with one of these symbols. *)
Definition follow (syms : list Z) (rest : list tok) : Prop := rest = [] ∨ next_in syms rest = true.

Lemma follow_not syms syms' rest :
  follow syms rest → (∀ c, c ∈ syms → c ∈ syms' → False) → next_in syms' rest = false.
Proof.
  intros [->|H] Hd; [done|]. destruct rest as [|[c|w] rest]; [done| |done]. cbn in *.
  apply bool_decide_eq_true in H. apply bool_decide_eq_false. eauto.
Qed.

Lemma follow_weaken syms syms' rest : follow syms rest → (∀ c, c ∈ syms → c ∈ syms') → follow syms' rest.
Proof.
  intros [->|H] Hs; [by left|]. right. destruct rest as [|[c|w] rest]; [done| |done]. cbn in *.
  apply bool_decide_eq_true in H. apply bool_decide_eq_true. auto.
Qed.

Lemma gettoken_end s : at_toks s [] → gettoken line s = Ok (0, s, s) s.
Proof.
  intros Hat. pose proof (at_toks_skip _ _ Hat) as Hsk. destruct Hat as (Hs & H & _).
  unfold gettoken, token_at. rewrite Hsk, (char_at_drop _ _ H). cbn. by rewrite Hsk.
Qed.

Lemma all_symbols syms : forallb is_symbol syms = true → ∀ c, c ∈ syms → is_symbol c = true.
Proof.
  intros H c Hc. apply Is_true_true in H. rewrite forallb_True, Forall_forall in H. by apply Is_true_true, H.
Qed.

Definition ends : list Z := [124; 41; 38; 59].

(** The redirections in front of the next word, or all of them. *)
Lemma first_redirs ws rs rest s :
  at_toks s ((TWord <$> ws) ++ redirs_toks rs ++ rest) → follow ends rest → forallb good_redir rs = true →
  ∃ rs1 rs2 s', redirs line s = Ok rs1 s' ∧ at_toks s' ((TWord <$> ws) ++ redirs_toks rs2 ++ rest) ∧
    (ws = [] → rs2 = []) ∧ forallb good_redir rs2 = true ∧ (aredir_of <$> rs1) ++ rs2 = rs ∧ (s ≤ s')%nat.
Proof.
  intros Hat Hfo Hg. pose proof (proj1 Hat). destruct ws as [|w ws].
  - destruct (redirs_printed (S len) rs rest s Hat) as (rs1 & s' & E & Hat' & Hrs & Hle); [|done|lia|].
    + apply (follow_not _ _ _ Hfo). intros c. unfold ends. rewrite !elem_of_cons, elem_of_nil. lia.
    + exists rs1, [], s'. rewrite app_nil_r. done.
  - destruct (redirs_printed (S len) [] ((TWord <$> w :: ws) ++ redirs_toks rs ++ rest) s Hat)
      as (rs1 & s' & E & Hat' & Hrs & Hle); [done|done|lia|].
    exists rs1, rs, s'. rewrite Hrs. done.
Qed.

Lemma exec_loop_printed fuel argc ws rs rest s :
  at_toks s ((TWord <$> ws) ++ redirs_toks rs ++ rest) → (ws = [] → rs = []) → follow ends rest →
  forallb good_redir rs = true → argc + Z.of_nat (length ws) < MAXARGS → (len - s < fuel)%nat →
  ∃ r s', parseexec_loop line fuel argc s = Ok r s' ∧ at_toks s' rest ∧
    text line <$> r.1 = ws ∧ aredir_of <$> r.2 = rs.
Proof.
  revert argc ws rs s. induction fuel as [|fuel IH]; intros argc ws rs s Hat Hws Hfo Hg Hargc Hf; [lia|].
  cbn [parseexec_loop]. mstep (peek_printed s ends _ Hat (all_symbols ends eq_refl)).
  destruct ws as [|w ws].
  { rewrite (Hws eq_refl) in *. cbn [fmap list_fmap app redirs_toks concat] in *. destruct Hfo as [->|Hfo].
    - cbn [next_in]. mstep (gettoken_end s Hat). exists ([], []), s. done.
    - rewrite Hfo. exists ([], []), s. done. }
  cbn [fmap list_fmap app next_in] in *.
  destruct (gettoken_printed _ _ _ Hat) as (s1 & E1 & Hat1 & Hlt1). mstep E1.
  cbn [tok_code tok_chars fst snd Z.eqb negb Pos.eqb].
  cbn [length] in Hargc. destruct (Z.leb_spec MAXARGS (argc + 1)); [lia|]. pose proof (proj1 Hat1).
  destruct (first_redirs ws rs rest s1 Hat1 Hfo Hg) as (rs1 & rs2 & s2 & E2 & Hat2 & Hnil & Hg2 & Hrs & Hle2).
  mstep E2. destruct (IH (argc + 1) ws rs2 s2 Hat2 Hnil Hfo Hg2 ltac:(lia) ltac:(lia)) as (r & s3 & E3 & Hat3 & Hr1 & Hr2).
  mstep E3. eexists _, s3. split; [done|]. split; [done|]. cbn [fst snd]. split.
  - rewrite fmap_cons, Hr1. f_equal. by rewrite (text_printed _ _ _ Hat).
  - by rewrite fmap_app, Hr2.
Qed.

Lemma simple_printed ws rs rest s :
  at_toks s ((TWord <$> ws) ++ redirs_toks rs ++ rest) → follow ends rest →
  forallb good_redir rs = true → Z.of_nat (length ws) < MAXARGS →
  ∃ c s', parsesimple line s = Ok c s' ∧ at_toks s' rest ∧
    denote (text line) c = foldl awrap (AExec ws) rs.
Proof.
  intros Hat Hfo Hg Hlen. unfold parsesimple.
  destruct (first_redirs ws rs rest s Hat Hfo Hg) as (rs1 & rs2 & s2 & E2 & Hat2 & Hnil & Hg2 & Hrs & Hle2).
  mstep E2. destruct (exec_loop_printed (S len) 0 ws rs2 rest s2 Hat2 Hnil Hfo Hg2 Hlen ltac:(lia))
    as (r & s3 & E3 & Hat3 & Hr1 & Hr2).
  mstep E3. eexists _, s3. split; [done|]. split; [done|].
  rewrite denote_redirs, fmap_app, Hr2. cbn [denote]. by rewrite Hr1, Hrs.
Qed.

(** *** Nonterminals *)

Definition reads (nt : nonterminal) (syms : list Z) (ts : list tok) (c : acmd) : Prop := ∀ fuel rest s,
  at_toks s (ts ++ rest) → follow syms rest → (4 * (len - s) + rank nt ≤ fuel)%nat →
  ∃ c' s', parse line fuel nt s = Ok c' s' ∧ at_toks s' rest ∧ denote (text line) c' = c.

Definition reads_exec (c : acmd) : Prop := ∀ rs, forallb good_redir rs = true →
  reads NExec ends (s_exec (show c) ++ redirs_toks rs) (foldl awrap c rs).
Definition reads_pipe (c : acmd) : Prop := reads NPipe [41; 38; 59] (s_pipe (show c)) c.
Definition reads_line (c : acmd) : Prop := reads NLine [41] (s_line (show c)) c.

(** The part of parseline before its last test, up to some turn of its loop. *)
Definition reads_back (c : acmd) : Prop := ∀ fuel rest s,
  at_toks s (s_back (show c) ++ rest) → follow [41; 38; 59] rest → (4 * (len - s) + 3 ≤ fuel)%nat →
  ∃ n c' s', (c ← parse line fuel NPipe; parseback_loop line (S len) c) s = parseback_loop line n c' s' ∧
    at_toks s' rest ∧ denote (text line) c' = c ∧ (len - s' < n)%nat ∧ (s ≤ s')%nat.

Lemma parse_le fuel nt s c s' :
  (s ≤ len)%nat → (4 * (len - s) + rank nt ≤ fuel)%nat → parse line fuel nt s = Ok c s' → (s ≤ s')%nat.
Proof. intros Hs Hf E. pose proof (wp_parse line fuel nt s Hs Hf) as H. unfold wp in H. rewrite E in H. lia. Qed.

Lemma disjoint_syms (l k : list Z) : forallb (λ c, negb (bool_decide (c ∈ k))) l = true → ∀ c, c ∈ l → c ∈ k → False.
Proof.
  intros H c Hl Hk. apply Is_true_true in H. rewrite forallb_True, Forall_forall in H.
  specialize (H c Hl). by rewrite bool_decide_true in H.
Qed.

Lemma subset_syms (l k : list Z) : forallb (λ c, bool_decide (c ∈ k)) l = true → ∀ c, c ∈ l → c ∈ k.
Proof.
  intros H c Hl. apply Is_true_true in H. rewrite forallb_True, Forall_forall in H.
  specialize (H c Hl). by apply bool_decide_unpack in H.
Qed.

(** A command whose text begins with no parenthesis. *)
Lemma reads_exec_simple argv :
  forallb good_word argv = true → Z.of_nat (length argv) < MAXARGS → reads_exec (AExec argv).
Proof.
  intros Hw Hlen rs Hrs fuel rest s Hat Hfo Hf. destruct fuel as [|fuel]; [cbn in Hf; lia|]. cbn [parse].
  cbn [show s_exec] in Hat. rewrite <- app_assoc in Hat.
  mstep (peek_printed s [40] _ Hat (all_symbols [40] eq_refl)).
  assert (next_in [40] ((TWord <$> argv) ++ redirs_toks rs ++ rest) = false) as ->.
  { destruct argv as [|w argv]; [|done]. destruct rs as [|[[f m] fd] rs]; cbn.
    - apply (follow_not _ _ _ Hfo). by apply disjoint_syms.
    - by destruct (fd =? 0). }
  by apply simple_printed.
Qed.

(** A command in parentheses. *)
Lemma reads_exec_block c : reads_line c → s_exec (show c) = block (s_line (show c)) → reads_exec c.
Proof.
  intros Hline Eb rs Hrs fuel rest s Hat Hfo Hf. rewrite Eb in Hat. unfold block in Hat.
  destruct fuel as [|[|fuel]]; [cbn in Hf; lia..|]. rewrite <- app_assoc in Hat. cbn [app] in Hat.
  rewrite <- app_assoc in Hat. cbn [parse].
  mstep (peek_printed s [40] _ Hat (all_symbols [40] eq_refl)). cbn [next_in]. rewrite bool_decide_true by (by left).
  mstep (peek_printed s [40] _ Hat (all_symbols [40] eq_refl)). cbn [next_in]. rewrite bool_decide_true by (by left).
  cbn [negb]. destruct (gettoken_printed _ _ _ Hat) as (s1 & E1 & Hat1 & Hlt1). mstep E1. pose proof (proj1 Hat1).
  cbn [rank] in Hf.
  destruct (Hline fuel _ s1 Hat1) as (c' & s2 & E2 & Hat2 & Hc'); [by right|cbn; lia|]. mstep E2.
  mstep (peek_printed s2 [41] _ Hat2 (all_symbols [41] eq_refl)). cbn [app next_in]. rewrite bool_decide_true by (by left).
  cbn [negb]. cbn [app] in Hat2. destruct (gettoken_printed _ _ _ Hat2) as (s3 & E3 & Hat3 & Hlt3). mstep E3.
  pose proof (proj1 Hat3). unfold parseredirs.
  destruct (redirs_printed (S len) rs rest s3 Hat3) as (rs' & s4 & E4 & Hat4 & Hrs' & _);
    [apply (follow_not _ _ _ Hfo); by apply disjoint_syms|done|lia|].
  fold (redirs line) in E4. mstep E4. eexists _, s4. split; [done|]. split; [done|].
  by rewrite denote_redirs, Hrs', Hc'.
Qed.

Lemma reads_pipe_exec c : reads_exec c → s_pipe (show c) = s_exec (show c) → reads_pipe c.
Proof.
  intros He Ep fuel rest s Hat Hfo Hf. rewrite Ep in Hat. destruct fuel as [|fuel]; [cbn in Hf; lia|]. cbn [parse].
  cbn [rank] in Hf. destruct (He [] eq_refl fuel rest s) as (c' & s1 & E1 & Hat1 & Hc').
  - cbn [redirs_toks concat fmap list_fmap]. by rewrite app_nil_r.
  - apply (follow_weaken _ _ _ Hfo). by apply subset_syms.
  - cbn. lia.
  - mstep E1. mstep (peek_printed s1 [124] _ Hat1 (all_symbols [124] eq_refl)).
    rewrite (follow_not _ _ _ Hfo) by (by apply disjoint_syms). eauto.
Qed.

Lemma reads_back_pipe c : reads_pipe c → s_back (show c) = s_pipe (show c) → reads_back c.
Proof.
  intros Hp Eb fuel rest s Hat Hfo Hf. rewrite Eb in Hat.
  destruct (Hp fuel rest s Hat Hfo Hf) as (c' & s1 & E1 & Hat1 & Hc'). exists (S len), c', s1. mstep E1.
  pose proof (parse_le fuel NPipe s c' s1 (proj1 Hat) Hf E1). split; [done|]. split; [done|]. split; [done|]. split; [lia|done].
Qed.

(** The loop of parseline at its end. *)
Lemma back_loop_end n c rest s :
  at_toks s rest → next_in [38] rest = false → (0 < n)%nat → parseback_loop line n c s = Ok c s.
Proof.
  intros Hat Hn Hpos. destruct n as [|n]; [lia|]. cbn [parseback_loop].
  mstep (peek_printed s [38] _ Hat (all_symbols [38] eq_refl)). by rewrite Hn.
Qed.

Lemma reads_line_back c : reads_back c → s_line (show c) = s_back (show c) → reads_line c.
Proof.
  intros Hb El fuel rest s Hat Hfo Hf. rewrite El in Hat. destruct fuel as [|fuel]; [cbn in Hf; lia|]. cbn [parse].
  cbn [rank] in Hf. destruct (Hb fuel rest s Hat) as (n & c' & s1 & E1 & Hat1 & Hc' & Hn & _).
  - apply (follow_weaken _ _ _ Hfo). by apply subset_syms.
  - lia.
  - rewrite <- bind_assoc. rewrite (back_loop_end n c' rest s1 Hat1) in E1
      by (lia || (apply (follow_not _ _ _ Hfo); by apply disjoint_syms)).
    mstep E1. mstep (peek_printed s1 [59] _ Hat1 (all_symbols [59] eq_refl)).
    rewrite (follow_not _ _ _ Hfo) by (by apply disjoint_syms). eauto.
Qed.

Lemma reads_pipe_pipe l r : reads_exec l → reads_pipe r → reads_pipe (APipe l r).
Proof.
  intros Hl Hr fuel rest s Hat Hfo Hf. destruct fuel as [|fuel]; [cbn in Hf; lia|]. cbn [parse].
  cbn [rank] in Hf. cbn [show s_pipe] in Hat. rewrite <- app_assoc in Hat. cbn [app] in Hat.
  destruct (Hl [] eq_refl fuel (TSym 124 :: s_pipe (show r) ++ rest) s) as (l' & s1 & E1 & Hat1 & Hl').
  - cbn [redirs_toks concat fmap list_fmap]. by rewrite app_nil_r.
  - right. done.
  - cbn. lia.
  - mstep E1. pose proof (parse_le fuel NExec s l' s1 (proj1 Hat) ltac:(cbn; lia) E1).
    mstep (peek_printed s1 [124] _ Hat1 (all_symbols [124] eq_refl)). cbn [next_in]. rewrite bool_decide_true by (by left).
    destruct (gettoken_printed _ _ _ Hat1) as (s2 & E2 & Hat2 & Hlt2). mstep E2. pose proof (proj1 Hat2).
    destruct (Hr fuel rest s2 Hat2 Hfo ltac:(cbn; lia)) as (r' & s3 & E3 & Hat3 & Hr'). mstep E3.
    eexists _, s3. split; [done|]. split; [done|]. cbn [denote]. by rewrite Hl', Hr'.
Qed.

Lemma reads_back_back c : reads_back c → reads_back (ABack c).
Proof.
  intros Hc fuel rest s Hat Hfo Hf. cbn [show s_back] in Hat. rewrite <- app_assoc in Hat. cbn [app] in Hat.
  destruct (Hc fuel (TSym 38 :: rest) s Hat) as (n & c' & s1 & E1 & Hat1 & Hc' & Hn & Hle); [by right|done|].
  rewrite E1. destruct n as [|n]; [lia|]. cbn [parseback_loop].
  mstep (peek_printed s1 [38] _ Hat1 (all_symbols [38] eq_refl)). cbn [next_in]. rewrite bool_decide_true by (by left).
  destruct (gettoken_printed _ _ _ Hat1) as (s2 & E2 & Hat2 & Hlt2). mstep E2. pose proof (proj1 Hat2).
  exists n, (BACK c'), s2. split; [done|]. split; [done|]. cbn [denote]. rewrite Hc'. split; [done|]. lia.
Qed.

Lemma reads_line_list l r : reads_back l → reads_line r → reads_line (AList l r).
Proof.
  intros Hl Hr fuel rest s Hat Hfo Hf. destruct fuel as [|fuel]; [cbn in Hf; lia|]. cbn [parse].
  cbn [rank] in Hf. cbn [show s_line] in Hat. rewrite <- app_assoc in Hat. cbn [app] in Hat.
  destruct (Hl fuel (TSym 59 :: s_line (show r) ++ rest) s Hat) as (n & l' & s1 & E1 & Hat1 & Hl' & Hn & Hle);
    [by right|lia|].
  rewrite <- bind_assoc. rewrite (back_loop_end n l' _ s1 Hat1) in E1 by (lia || done). mstep E1.
  mstep (peek_printed s1 [59] _ Hat1 (all_symbols [59] eq_refl)). cbn [next_in]. rewrite bool_decide_true by (by left).
  destruct (gettoken_printed _ _ _ Hat1) as (s2 & E2 & Hat2 & Hlt2). mstep E2. pose proof (proj1 Hat2).
  destruct (Hr fuel rest s2 Hat2 Hfo ltac:(cbn; lia)) as (r' & s3 & E3 & Hat3 & Hr'). mstep E3.
  eexists _, s3. split; [done|]. split; [done|]. cbn [denote]. by rewrite Hl', Hr'.
Qed.

Lemma reads_exec_redir c f m fd :
  good_redir (f, m, fd) = true → reads_exec c → reads_exec (ARedir c f m fd).
Proof.
  intros Hg Hc rs Hrs fuel rest s Hat Hfo Hf.
  apply (Hc ((f, m, fd) :: rs)); [cbn [forallb]; by rewrite Hg, Hrs| |done|done].
  cbn [show s_exec] in Hat. change (redirs_toks ((f, m, fd) :: rs)) with (redir_toks f fd ++ redirs_toks rs).
  by rewrite app_assoc.
Qed.

Lemma reads_all c : printable c = true → reads_exec c ∧ reads_pipe c ∧ reads_back c ∧ reads_line c.
Proof.
  assert (∀ c, reads_pipe c → s_back (show c) = s_pipe (show c) → s_line (show c) = s_back (show c) →
    reads_back c ∧ reads_line c) as Hup.
  { intros c' Hp E1 E2. assert (reads_back c') by (by apply reads_back_pipe). split; [done|by apply reads_line_back]. }
  induction c as [argv|c IH f m fd|l IHl r IHr|l IHl r IHr|c IH]; cbn [printable]; rewrite ?andb_true_iff.
  - intros [Hw Hl%Z.ltb_lt]. assert (reads_exec (AExec argv)) by (by apply reads_exec_simple).
    assert (reads_pipe (AExec argv)) by (by apply reads_pipe_exec). auto.
  - intros [[Hc Hw] Hm]. assert (reads_exec (ARedir c f m fd)).
    { apply reads_exec_redir; [|apply IH, Hc]. unfold good_redir. cbn [fst snd]. by rewrite Hw, Hm. }
    assert (reads_pipe (ARedir c f m fd)) by (by apply reads_pipe_exec). auto.
  - intros [Hl Hr]. destruct (IHl Hl) as (He & _), (IHr Hr) as (_ & Hp & _).
    assert (reads_pipe (APipe l r)) by (by apply reads_pipe_pipe). destruct (Hup (APipe l r)) as [Hb Hli]; [done..|].
    split; [by apply reads_exec_block|done].
  - intros [Hl Hr]. destruct (IHl Hl) as (_ & _ & Hb & _), (IHr Hr) as (_ & _ & _ & Hli).
    assert (reads_line (AList l r)) by (by apply reads_line_list).
    assert (reads_exec (AList l r)) by (by apply reads_exec_block).
    assert (reads_pipe (AList l r)) by (by apply reads_pipe_exec).
    split; [done|]. split; [done|]. split; [by apply reads_back_pipe|done].
  - intros Hc. destruct (IH Hc) as (_ & _ & Hb & _).
    assert (reads_back (ABack c)) by (by apply reads_back_back).
    assert (reads_line (ABack c)) by (by apply reads_line_back).
    assert (reads_exec (ABack c)) by (by apply reads_exec_block).
    split; [done|]. split; [by apply reads_pipe_exec|done].
Qed.
End printed.

(** *** Printed lines are good *)

Lemma good_toks_app ts us : forallb good_tok (ts ++ us) = forallb good_tok ts && forallb good_tok us.
Proof. apply forallb_app. Qed.

Lemma show_good c : printable c = true →
  forallb good_tok (s_exec (show c)) = true ∧ forallb good_tok (s_pipe (show c)) = true ∧
  forallb good_tok (s_back (show c)) = true ∧ forallb good_tok (s_line (show c)) = true.
Proof.
  assert (∀ ts, forallb good_tok ts = true → forallb good_tok (block ts) = true) as Hblock.
  { intros ts Hts. unfold block. cbn [forallb good_tok]. by rewrite good_toks_app, Hts. }
  induction c as [argv|c IH f m fd|l IHl r IHr|l IHl r IHr|c IH]; cbn [printable show]; rewrite ?andb_true_iff.
  - intros [Hw _]. cbn. assert (forallb good_tok (TWord <$> argv) = true) as H; [|done].
    clear -Hw. induction argv as [|w argv IH]; [done|]. cbn in *. apply andb_true_iff in Hw as [-> Hw]. auto.
  - intros [[Hc Hw] _]. destruct (IH Hc) as (He & _). cbn [s_exec s_pipe s_back s_line].
    assert (forallb good_tok (s_exec (show c) ++ redir_toks f fd) = true) as H; [|done].
    rewrite good_toks_app, He. cbn. rewrite Hw. by destruct (fd =? 0).
  - intros [Hl Hr]. destruct (IHl Hl) as (He & _), (IHr Hr) as (_ & Hp & _). cbn [s_exec s_pipe s_back s_line].
    assert (forallb good_tok (s_exec (show l) ++ TSym 124 :: s_pipe (show r)) = true) as H
      by (rewrite good_toks_app, He; done). auto.
  - intros [Hl Hr]. destruct (IHl Hl) as (_ & _ & Hb & _), (IHr Hr) as (_ & _ & _ & Hli). cbn [s_exec s_pipe s_back s_line].
    assert (forallb good_tok (s_back (show l) ++ TSym 59 :: s_line (show r)) = true) as H
      by (rewrite good_toks_app, Hb; done). auto.
  - intros Hc. destruct (IH Hc) as (_ & _ & Hb & _). cbn [s_exec s_pipe s_back s_line].
    assert (forallb good_tok (s_back (show c) ++ [TSym 38]) = true) as H by (rewrite good_toks_app, Hb; done). auto.
Qed.

Lemma render_nonzero ts : forallb good_tok ts = true → Forall (λ c, c ≠ 0) (render ts).
Proof.
  induction ts as [|t ts IH]; [constructor|]. cbn [forallb]. intros [Ht Hts]%andb_true_iff. rewrite render_cons.
  apply Forall_app. split; [|constructor; [done|auto]]. destruct t as [c|w]; cbn in *.
  - constructor; [|constructor]. by destruct (symbol_not_space c Ht) as (_ & ? & _).
  - unfold good_word in Ht. apply andb_true_iff in Ht as [_ Ht]. apply Is_true_true in Ht.
    rewrite forallb_True in Ht. eapply Forall_impl; [exact Ht|]. intros c Hc%Is_true_true.
    unfold good_char in Hc. apply andb_true_iff in Hc as [_ Hc]. by apply negb_true_iff, Z.eqb_neq in Hc.
Qed.

Lemma parse_line_printed c :
  printable c = true →
  ∃ c' s, parse_line (print_cmd c) 0%nat = Ok c' s ∧ denote (text (print_cmd c)) c' = c.
Proof.
  intros Hc. destruct (show_good c Hc) as (_ & _ & _ & Hg). set (line := print_cmd c).
  assert (at_toks line 0 (s_line (show c) ++ [])) as Hat.
  { split; [lia|]. rewrite app_nil_r. by split. }
  destruct (reads_all line c Hc) as (_ & _ & _ & Hl).
  destruct (Hl (parse_fuel line) [] 0%nat Hat) as (c' & s & E & Hat' & Hd); [by left|unfold parse_fuel; cbn; lia|].
  exists c', s. split; [|done]. unfold parse_line. mstep E.
  mstep (peek_printed line s [] _ Hat' (λ c Hc, match not_elem_of_nil c Hc with end)).
  assert (get s = Ok s s) as Eg by done. mstep Eg. rewrite decide_True; [done|].
  destruct Hat' as (Hs & Hdr & _). apply (f_equal length) in Hdr. rewrite length_drop in Hdr. cbn in Hdr. lia.
Qed.

(** ** Descriptors

    What the processes of a command find open, when every fork, open and exec
    succeeds.  A descriptor table is as in sysfile.c: calls that open take
    the lowest free entry. *)

Inductive object := OInherited (fd : nat) | OFile (file : list Z) (mode : Z) | OPipeR (id : nat) | OPipeW (id : nat).

Definition fdtable : Type := list (option object).

Definition fd_alloc (o : object) (t : fdtable) : option (Z * fdtable) :=
  match list_find (λ x, x = None) t with
  | Some (fd, _) => Some (Z.of_nat fd, <[fd := Some o]> t)
  | None => None
  end.
#[export] Instance object_eq_dec : EqDecision object.
Proof. solve_decision. Defined.

Definition fd_close (fd : Z) (t : fdtable) : fdtable := <[Z.to_nat fd := None]> t.

(** A process that runs a program: its arguments and its descriptors. *)
Definition started : Type := list (list Z) * fdtable.

(** The programs that [p] and its children start; [id] numbers the pipes. *)
Fixpoint launch (p : prog) (t : fdtable) (id : nat) : list started * nat :=
  match p with
  | Exit => ([], id)
  | Message _ k => launch k t id
  | Exec _ argv _ => ([(argv, t)], id)
  | Close fd k => launch k (fd_close fd t) id
  | Open file mode k =>
      match fd_alloc (OFile file mode) t with
      | Some (fd, t) => launch (k fd) t id
      | None => launch (k (-1)) t id
      end
  | Pipe k =>
      match fd_alloc (OPipeR id) t with
      | Some (p0, t0) =>
          match fd_alloc (OPipeW id) t0 with
          | Some (p1, t1) => launch (k 0 p0 p1) t1 (S id)
          | None => launch (k (-1) 0 0) t id
          end
      | None => launch (k (-1) 0 0) t id
      end
  | Dup fd k =>
      match t !! Z.to_nat fd with
      | Some (Some o) => match fd_alloc o t with Some (_, t) => launch k t id | None => launch k t id end
      | _ => launch k t id
      end
  | Fork k =>
      let (l1, id1) := launch (k 0) t id in
      let (l2, id2) := launch (k 1) t id1 in
      (l1 ++ l2, id2)
  | Wait k => launch k t id
  end.

(** Standard input, output and error, and nothing else. *)
Definition std (a b c : object) : fdtable := [Some a; Some b; Some c] ++ replicate 13 None.

(** The programs of a command that is started on these three descriptors. *)
Fixpoint wired (buf : list Z) (c : cmd) (i o e : object) (id : nat) : list started * nat :=
  match c with
  | EXEC [] => ([], id)
  | EXEC argv => ([(word_str buf <$> argv, std i o e)], id)
  | REDIR c file mode fd =>
      let f := OFile (word_str buf file) mode in
      if fd =? 0 then wired buf c f o e id else wired buf c i f e id
  | PIPE l r =>
      let (l1, id1) := wired buf l i (OPipeW id) e (S id) in
      let (l2, id2) := wired buf r (OPipeR id) o e id1 in
      (l1 ++ l2, id2)
  | LIST l r =>
      let (l1, id1) := wired buf l i o e id in
      let (l2, id2) := wired buf r i o e id1 in
      (l1 ++ l2, id2)
  | BACK c => wired buf c i o e id
  end.

(** The calls that runcmd makes for a pipe. *)
Lemma launch_pipe pl pr i o e id :
  launch (Pipe (λ res p0 p1,
    if res <? 0 then sh_panic "pipe"
    else fork1 (λ pid,
      if pid =? 0 then Close 1 (Dup p1 (Close p0 (Close p1 pl)))
      else fork1 (λ pid,
        if pid =? 0 then Close 0 (Dup p0 (Close p0 (Close p1 pr)))
        else Close p0 (Close p1 (Wait (Wait Exit))))))) (std i o e) id =
  let (l1, id1) := launch pl (std i (OPipeW id) e) (S id) in
  let (l2, id2) := launch pr (std (OPipeR id) o e) id1 in
  (l1 ++ l2 ++ [], id2).
Proof.
  etrans; [|by instantiate (1 := let (l1, id1) := launch pl (std i (OPipeW id) e) (S id) in
    let (l2, id2) := (let (l2, id2) := launch pr (std (OPipeR id) o e) id1 in (l2 ++ [], id2)) in (l1 ++ l2, id2));
    destruct (launch pl _ _) as [l1 id1]; destruct (launch pr _ _)]. reflexivity.
Qed.

Lemma launch_wired buf line c i o e id :
  cmd_lexed line c → launch (runcmd buf c) (std i o e) id = wired buf c i o e id.
Proof.
  revert i o e id. induction c as [argv|c IH file mode fd|l IHl r IHr|l IHl r IHr|c IH]; intros i o e id;
    cbn [cmd_lexed runcmd wired].
  - destruct argv as [|w ws]; done.
  - intros [Hc [_ Hr]]. cbn [launch]. destruct Hr as [[= _ ->]|[= _ ->]]; cbn; by apply IH.
  - intros [Hl Hr].
    destruct (wired buf l i (OPipeW id) e (S id)) as [l1 id1] eqn:E1. rewrite <- IHl in E1 by done.
    destruct (wired buf r (OPipeR id) o e id1) as [l2 id2] eqn:E2. rewrite <- IHr in E2 by done.
    rewrite launch_pipe, E1, E2. by rewrite app_nil_r.
  - intros [Hl Hr].
    destruct (wired buf l i o e id) as [l1 id1] eqn:E1. rewrite <- IHl in E1 by done.
    destruct (wired buf r i o e id1) as [l2 id2] eqn:E2. rewrite <- IHr in E2 by done.
    cbn in E1, E2 |- *. by rewrite E1, E2.
  - intros Hc. destruct (wired buf c i o e id) as [l id'] eqn:E. rewrite <- IH in E by done.
    cbn in E |- *. rewrite E. by rewrite app_nil_r.
Qed.

(** ** Theorems *)

(** The parser stops on every line: it panics with a message, or returns
    a command all of whose words are maximal runs of word characters of the
    line and, after nulterminate, C strings in the buffer with exactly the
    text of their tokens. *)
Theorem parsecmd_total line :
  Forall (λ c, c ≠ 0) line →
  (∃ msg, parsecmd line = Panic msg) ∨
  (∃ c buf, parsecmd line = Ok (c, buf) (length line) ∧
     ∀ w, w ∈ words c → lexed line w ∧ string_at buf w.1 = text line w).
Proof.
  intros Hl. destruct (parsecmd_ok line Hl) as [(c & buf & _ & E & Hc & Hw)|H]; [right|by left].
  exists c, buf. split; [done|]. intros w Hin. split; [|by apply Hw].
  pose proof (words_lexed line c Hc) as H. rewrite Forall_forall in H. by apply H.
Qed.

Lemma parsecmd_total_witness :
  (∃ msg, parsecmd [99; 32; 60; 32; 102; 10] = Panic msg) ∨
  (∃ c buf, parsecmd [99; 32; 60; 32; 102; 10] = Ok (c, buf) 6%nat ∧
     ∀ w, w ∈ words c → lexed [99; 32; 60; 32; 102; 10] w ∧ string_at buf w.1 = text [99; 32; 60; 32; 102; 10] w).
Proof.
  apply (parsecmd_total [99; 32; 60; 32; 102; 10]). repeat (apply Forall_cons_2; [discriminate|]). apply Forall_nil_2.
Defined.

(** C37: Every command that the shell can represent, printed with blanks and
    with parentheses where they are needed, is parsed back to itself. *)
Theorem parsecmd_print c :
  printable c = true →
  ∃ c' buf, parsecmd (print_cmd c) = Ok (c', buf) (length (print_cmd c)) ∧ denote (word_str buf) c' = c.
Proof.
  intros Hc. destruct (show_good c Hc) as (_ & _ & _ & Hg).
  destruct (parse_line_printed c Hc) as (c' & s & E & Hd).
  destruct (parsecmd_ok (print_cmd c) (render_nonzero _ Hg)) as [(c2 & buf & E2 & E3 & _ & Hw)|(msg & E3)].
  - rewrite E in E2. injection E2 as <- ->. exists c', buf. split; [done|].
    etrans; [|exact Hd]. apply denote_ext. exact Hw.
  - unfold parsecmd in E3. by rewrite E in E3.
Qed.

(** (a < f ; b c) | d & *)
Lemma parsecmd_print_witness :
  let c := ABack (APipe (AList (ARedir (AExec [[97]]) [102] 0 0) (AExec [[98]; [99]])) (AExec [[100]])) in
  ∃ c' buf, parsecmd (print_cmd c) = Ok (c', buf) (length (print_cmd c)) ∧ denote (word_str buf) c' = c.
Proof. intros c. apply (parsecmd_print c). vm_compute. reflexivity. Defined.


