(* ===== verification/Mp.v ===== *)
(** * The multiprocessor tables (mp.c, mp.h)

    The search for the tables of the BIOS in memory and the walk over their
    entries. *)

From S2P Require Import Prelude Params Mem Mmu X86.

Definition MPPROC : Z := 0x00.
Definition MPBUS : Z := 0x01.
Definition MPIOAPIC : Z := 0x02.
Definition MPIOINTR : Z := 0x03.
Definition MPLINTR : Z := 0x04.

Definition sizeof_mp : Z := 16.
Definition sizeof_mpconf : Z := 44.
Definition sizeof_mpproc : Z := 20.
Definition sizeof_mpioapic : Z := 8.

(** Fields at their offsets. *)
Definition mp_physaddr (mp : Z) : M mem Z := load32 (mp + 4).
Definition mp_imcrp (mp : Z) : M mem Z := load8 (mp + 12).
Definition conf_length (conf : Z) : M mem Z := load16 (conf + 4).
Definition conf_version (conf : Z) : M mem Z := load8 (conf + 6).
Definition conf_lapicaddr (conf : Z) : M mem Z := load32 (conf + 36).

(** The loop of sum with [n] bytes left. *)
Fixpoint sum_loop (n : nat) (addr sum : Z) : M mem Z :=
  match n with
  | O => mret sum
  | S n => x ← load8 addr; sum_loop n (addr + 1) (s32 (sum + x))
  end.
Definition sum (addr len : Z) : M mem Z := x ← sum_loop (Z.to_nat len) addr 0; mret (u8 x).

(** memcmp(p, sig, 4) == 0 *)
Fixpoint has_signature (p : Z) (sig : list Z) : M mem bool :=
  match sig with
  | [] => mret true
  | c :: sig => x ← load8 p; if x =? c then has_signature (p + 1) sig else mret false
  end.

(** "_MP_" and "PCMP" *)
Definition sig_mp : list Z := [95; 77; 80; 95].
Definition sig_pcmp : list Z := [80; 67; 77; 80].

(** [n] structures left; 0 is the null pointer. *)
Fixpoint mpsearch1_loop (n : nat) (p : Z) : M mem Z :=
  match n with
  | O => mret 0
  | S n =>
      b ← has_signature p sig_mp;
      if (b : bool) then
        x ← sum p sizeof_mp;
        if x =? 0 then mret p else mpsearch1_loop n (p + sizeof_mp)
      else mpsearch1_loop n (p + sizeof_mp)
  end.

(** Every length is a multiple of the size of a struct mp. *)
Definition mpsearch1 (a len : Z) : M mem Z := mpsearch1_loop (Z.to_nat (len / sizeof_mp)) (P2V a).

Definition mpsearch : M mem Z :=
  let bda := P2V 0x400 in
  hi ← load8 (bda + 0x0F);
  lo ← load8 (bda + 0x0E);
  let p := Z.shiftl (Z.lor (Z.shiftl hi 8) lo) 4 in
  mp ← (if negb (p =? 0) then mpsearch1 p 1024
        else
          hi ← load8 (bda + 0x14);
          lo ← load8 (bda + 0x13);
          mpsearch1 (u32 (Z.lor (Z.shiftl hi 8) lo * 1024 - 1024)) 1024);
  if negb (mp =? 0) then mret mp else mpsearch1 0xF0000 0x10000.

(** The structure and the table. *)
Definition mpconfig : M mem (option (Z * Z)) :=
  mp ← mpsearch;
  if mp =? 0 then mret None
  else
    pa ← mp_physaddr mp;
    if pa =? 0 then mret None
    else
      let conf := P2V pa in
      b ← has_signature conf sig_pcmp;
      if negb b then mret None
      else
        v ← conf_version conf;
        if negb (v =? 1) && negb (v =? 4) then mret None
        else
          len ← conf_length conf;
          x ← sum conf len;
          if negb (x =? 0) then mret None else mret (Some (mp, conf)).

(** The globals: the APIC ids of cpus[], of which there are ncpu. *)
Record mpinfo := MpInfo { ismp : bool; mp_cpus : list Z; ioapicid : Z; lapic : Z }.

(** The loop over the entries. *)
Fixpoint mpinit_loop (fuel : nat) (p e : Z) (r : mpinfo) : M mem mpinfo :=
  match fuel with
  | O => nofuel
  | S fuel =>
      if p <? e then
        t ← load8 p;
        if t =? MPPROC then
          id ← load8 (p + 1);
          let cpus := if Z.of_nat (length (mp_cpus r)) <? NCPU then mp_cpus r ++ [id] else mp_cpus r in
          mpinit_loop fuel (p + sizeof_mpproc) e (MpInfo (ismp r) cpus (ioapicid r) (lapic r))
        else if t =? MPIOAPIC then
          id ← load8 (p + 1);
          mpinit_loop fuel (p + sizeof_mpioapic) e (MpInfo (ismp r) (mp_cpus r) id (lapic r))
        else if (t =? MPBUS) || (t =? MPIOINTR) || (t =? MPLINTR) then mpinit_loop fuel (p + 8) e r
        else mpinit_loop fuel p e (MpInfo false (mp_cpus r) (ioapicid r) (lapic r))
      else mret r
  end.

(** The interrupt mode register, where the table has it. *)
Definition set_imcr {D} `{!Ports D} : M D unit := outb 0x22 0x70;; x ← inb 0x23; outb 0x23 (Z.lor x 1).

(** [apicid0] is what cpus[0].apicid holds before. *)
Definition mpinit {D} `{!Ports D} (fuel : nat) (apicid0 : Z) (r : mpinfo) : M (machine D) mpinfo :=
  c ← on_phys mpconfig;
  match c with
  | None => mret r
  | Some (mp, conf) =>
      lapicaddr ← on_phys (conf_lapicaddr conf);
      len ← on_phys (conf_length conf);
      r ← on_phys (mpinit_loop fuel (conf + sizeof_mpconf) (conf + len) (MpInfo true (mp_cpus r) (ioapicid r) lapicaddr));
      if negb (ismp r) then mret (MpInfo false (take 1 (mp_cpus r ++ [apicid0])) 0 0)
      else
        imcrp ← on_phys (mp_imcrp mp);
        (if negb (imcrp =? 0) then on_dev set_imcr else mret tt);;
        mret r
  end.

(** ** The entries of a table *)

Inductive entry := EProc (apicid : Z) (rest : list Z) | EIoapic (apicno : Z) (rest : list Z) | EOther (type : Z) (rest : list Z).

Definition entry_bytes (x : entry) : list Z :=
  match x with
  | EProc id rest => MPPROC :: id :: rest
  | EIoapic id rest => MPIOAPIC :: id :: rest
  | EOther t rest => t :: rest
  end.

Definition entry_ok (x : entry) : bool :=
  match x with
  | EProc _ rest => bool_decide (length rest = 18%nat)
  | EIoapic _ rest => bool_decide (length rest = 6%nat)
  | EOther t rest => ((t =? MPBUS) || (t =? MPIOINTR) || (t =? MPLINTR)) && bool_decide (length rest = 7%nat)
  end.

(** What the entries say. *)
Definition entry_apply (r : mpinfo) (x : entry) : mpinfo :=
  match x with
  | EProc id _ => MpInfo (ismp r) (take (Z.to_nat NCPU) (mp_cpus r ++ [id])) (ioapicid r) (lapic r)
  | EIoapic id _ => MpInfo (ismp r) (mp_cpus r) id (lapic r)
  | EOther _ _ => r
  end.

Lemma bytes_at_load8 m a c l : bytes_at m a (c :: l) → load8 a m = Ok c m.
Proof. intros H. unfold load8. specialize (H 0%nat c eq_refl). rewrite Z.add_0_r in H. by rewrite H. Qed.

Lemma bytes_at_tail m a c l : bytes_at m a (c :: l) → bytes_at m (a + 1) l.
Proof. intros H i x Hi. specialize (H (S i) x Hi). by replace (a + 1 + Z.of_nat i) with (a + Z.of_nat (S i)) by lia. Qed.

Definition table_bytes (xs : list entry) : list Z := concat (entry_bytes <$> xs).

Lemma entry_apply_cpus r x :
  (length (mp_cpus r) ≤ Z.to_nat NCPU)%nat → (length (mp_cpus (entry_apply r x)) ≤ Z.to_nat NCPU)%nat.
Proof. intros Hr. destruct x; cbn [entry_apply mp_cpus]; [|done..]. rewrite length_take. lia. Qed.

(** The walk over known entries. *)
Lemma mpinit_loop_prefix m xs fuel p e r :
  forallb entry_ok xs = true → bytes_at m p (table_bytes xs) → p + Z.of_nat (length (table_bytes xs)) ≤ e →
  (length (mp_cpus r) ≤ Z.to_nat NCPU)%nat →
  mpinit_loop (length xs + fuel) p e r m =
    mpinit_loop fuel (p + Z.of_nat (length (table_bytes xs))) e (foldl entry_apply r xs) m.
Proof.
  unfold table_bytes. revert p r. induction xs as [|x xs IH]; intros p r Hok Hm He Hr.
  { cbn [concat fmap list_fmap length foldl]. by rewrite Z.add_0_r. }
  cbn [forallb] in Hok. apply andb_true_iff in Hok as [Hx Hok]. cbn [fmap list_fmap concat] in *.
  rewrite length_app in He |- *. apply bytes_at_app in Hm as [H1 H2]. cbn [length Nat.add mpinit_loop foldl].
  assert (0 < length (entry_bytes x))%nat by (destruct x; cbn; lia).
  rewrite (proj2 (Z.ltb_lt _ _)) by lia.
  rewrite Nat2Z.inj_add, Z.add_assoc.
  rewrite Nat2Z.inj_add, Z.add_assoc in He.
  assert (∃ n, Z.of_nat (length (entry_bytes x)) = n) as [n En] by eauto.
  pose proof (entry_apply_cpus r x Hr) as Hr'. specialize (IH (p + n) (entry_apply r x)). rewrite En in *.
  destruct x as [id rest|id rest|t rest]; cbn [entry_bytes entry_ok entry_apply] in *;
    mstep (bytes_at_load8 _ _ _ _ H1); pose proof (bytes_at_tail _ _ _ _ H1) as H1'.
  - apply bool_decide_eq_true in Hx. cbn [length] in En. rewrite Hx in En. cbn [Z.eqb MPPROC].
    mstep (bytes_at_load8 _ _ _ _ H1'). change sizeof_mpproc with (Z.of_nat 20). rewrite En, <- IH by (done || lia || exact Hr').
    f_equal. unfold entry_apply. f_equal. destruct (Z.ltb_spec (Z.of_nat (length (mp_cpus r))) NCPU).
    + rewrite take_ge; [done|]. rewrite length_app. cbn. lia.
    + rewrite take_app_le, take_ge; [done|lia|lia].
  - apply bool_decide_eq_true in Hx. cbn [length] in En. rewrite Hx in En. cbn [Z.eqb Pos.eqb MPPROC MPIOAPIC].
    mstep (bytes_at_load8 _ _ _ _ H1'). change sizeof_mpioapic with (Z.of_nat 8). by rewrite En, <- IH by (done || lia || exact Hr').
  - apply andb_true_iff in Hx as [Ht Hx]. apply bool_decide_eq_true in Hx. cbn [length] in En. rewrite Hx in En.
    assert ((t =? MPPROC) = false ∧ (t =? MPIOAPIC) = false) as [-> ->].
    { unfold MPPROC, MPBUS, MPIOAPIC, MPIOINTR, MPLINTR in *. split; apply Z.eqb_neq; lia. }
    rewrite Ht. change 8 with (Z.of_nat 8). by rewrite En, <- IH by (done || lia || exact Hr').
Qed.

(** An entry of another type is never left: the [break] ends the switch only. *)
Lemma mpinit_loop_stuck m fuel p e r t :
  load8 p m = Ok t m → p < e → MPLINTR < t → mpinit_loop fuel p e r m = NoFuel.
Proof.
  intros Ht Hp Hlt. unfold MPLINTR in Hlt. revert r. induction fuel as [|fuel IH]; intros r; [done|]. cbn [mpinit_loop].
  rewrite (proj2 (Z.ltb_lt _ _)) by done. mstep Ht.
  unfold MPPROC, MPBUS, MPIOAPIC, MPIOINTR, MPLINTR. rewrite !(proj2 (Z.eqb_neq t _)) by lia. apply IH.
Qed.

(** C39: On a table of known entries the walk ends with the processors that
    it lists, as many as cpus[] holds, and the last I/O APIC.  On a table with
    an entry of another type it does not end, whatever the fuel, although the
    code that follows is there to handle that case. *)
Theorem mpinit_walk m xs p r :
  forallb entry_ok xs = true → bytes_at m p (table_bytes xs) → (length (mp_cpus r) ≤ Z.to_nat NCPU)%nat →
  (∀ fuel, (length xs < fuel)%nat →
     mpinit_loop fuel p (p + Z.of_nat (length (table_bytes xs))) r m = Ok (foldl entry_apply r xs) m) ∧
  (∀ t e k, MPLINTR < t → m !! (p + Z.of_nat (length (table_bytes xs))) = Some t →
     p + Z.of_nat (length (table_bytes xs)) < e → mpinit_loop (length xs + k) p e r m = NoFuel).
Proof.
  intros Hok Hm Hr. split.
  - intros fuel Hf. replace fuel with (length xs + S (fuel - length xs - 1))%nat by lia.
    rewrite mpinit_loop_prefix by (done || lia). cbn [mpinit_loop]. by rewrite Z.ltb_irrefl.
  - intros t e k Ht Hmt He. rewrite mpinit_loop_prefix by (done || lia).
    apply (mpinit_loop_stuck m k _ e _ t); [|done|done]. unfold load8. by rewrite Hmt.
Qed.

(** A processor, a bus, and an entry of type 5. *)
Lemma mpinit_walk_witness :
  let xs := [EProc 3 (replicate 18 0); EOther 1 (replicate 7 0)] in
  let m := put_bytes 100 (table_bytes xs ++ [5]) ∅ in
  mpinit_loop 3 100 128 (MpInfo true [] 0 0) m = Ok (MpInfo true [3] 0 0) m ∧
  ∀ k, mpinit_loop (2 + k) 100 129 (MpInfo true [] 0 0) m = NoFuel.
Proof.
  intros xs m. destruct (mpinit_walk m xs 100 (MpInfo true [] 0 0)) as [H1 H2].
  - reflexivity.
  - intros i x Hi. unfold m. rewrite lookup_put_bytes.
    pose proof (lookup_lt_Some _ _ _ Hi) as Hlt. rewrite decide_True by (rewrite length_app; cbn in *; lia).
    replace (Z.to_nat (100 + Z.of_nat i - 100)) with i by lia. by apply lookup_app_l_Some.
  - cbn. lia.
  - split; [apply (H1 3%nat); cbn; lia|]. intros k. apply (H2 5 129 k); [reflexivity|by vm_compute|cbn; lia].
Defined.
