(* ===== verification/Ide.v ===== *)
(** * The IDE driver (ide.c)

    The driver keeps its requests in a list that starts at idequeue and is
    linked by the qnext fields of the buffers, and drives the controller
    through its ports.  [IdeDisk] states what the driver relies on of the
    controller.  The theorem is about every interleaving of requests,
    interrupts and changes of the buffers that are not queued. *)

From S2P Require Import Prelude Params Disk X86.

Definition SECTOR_SIZE : Z := 512.
Definition IDE_BSY : Z := 0x80.
Definition IDE_DRDY : Z := 0x40.
Definition IDE_DF : Z := 0x20.
Definition IDE_ERR : Z := 0x01.
Definition IDE_CMD_READ : Z := 0x20.
Definition IDE_CMD_WRITE : Z := 0x30.
Definition IDE_CMD_RDMUL : Z := 0xc4.
Definition IDE_CMD_WRMUL : Z := 0xc5.

(** A buffer with its qnext field; a pointer to a buffer is its index. *)
Record ibuf := IBuf { ib_buf : buf; qnext : option nat }.

Record ide (D : Type) := Ide {
  idequeue : option nat;
  havedisk1 : bool;
  ide_bufs : list ibuf;
  ide_dev : D;
}.
Arguments Ide {D}.
Arguments idequeue {D}.
Arguments havedisk1 {D}.
Arguments ide_bufs {D}.
Arguments ide_dev {D}.

Section ide.
Context {D : Type} `{!Ports D, !Ports32 D}.
#[local] Abbreviation I := (M (ide D)).

Definition on_port {A} : M D A → I A :=
  zoom ide_dev (λ d s, Ide (idequeue s) (havedisk1 s) (ide_bufs s) d).
Definition ide_buf (b : nat) : I ibuf := λ s, match ide_bufs s !! b with Some x => Ok x s | None => Fault end.
Definition set_buf (b : nat) (x : ibuf) : I unit :=
  modify (λ s, Ide (idequeue s) (havedisk1 s) (<[b := x]> (ide_bufs s)) (ide_dev s)).
Definition set_queue (p : option nat) : I unit := modify (λ s, Ide p (havedisk1 s) (ide_bufs s) (ide_dev s)).

(** [polls] bounds the number of times that the status is read. *)
Fixpoint idewait (polls : nat) (checkerr : bool) : M D Z :=
  match polls with
  | O => nofuel
  | S polls =>
      r ← inb 0x1f7;
      if negb (Z.land r (Z.lor IDE_BSY IDE_DRDY) =? IDE_DRDY) then idewait polls checkerr
      else if checkerr && negb (Z.land r (Z.lor IDE_DF IDE_ERR) =? 0) then mret (-1)
      else mret 0
  end.

(** The loop of ideinit that looks for disk 1. *)
Fixpoint probe (i : nat) : M D bool :=
  match i with O => mret false | S i => r ← inb 0x1f7; if negb (r =? 0) then mret true else probe i end.

(** The lock and the routing of the interrupt are in Spinlock.v and Intr.v. *)
Definition ideinit (polls : nat) : I unit :=
  on_port (idewait polls false);;
  on_port (outb 0x1f6 (Z.lor 0xe0 (Z.shiftl 1 4)));;
  found ← on_port (probe 1000);
  (if (found : bool) then modify (λ s, Ide (idequeue s) true (ide_bufs s) (ide_dev s)) else mret tt);;
  on_port (outb 0x1f6 (Z.lor 0xe0 (Z.shiftl 0 4))).

Definition sector_per_block : Z := BSIZE / SECTOR_SIZE.

(** The commands of idestart for the request of [b]. *)
Definition idestart_cmd (polls : nat) (b : buf) : M D unit :=
  let sector := s32 (b_blockno b * sector_per_block) in
  let read_cmd := if sector_per_block =? 1 then IDE_CMD_READ else IDE_CMD_RDMUL in
  let write_cmd := if sector_per_block =? 1 then IDE_CMD_WRITE else IDE_CMD_WRMUL in
  idewait polls false;;
  outb 0x3f6 0;;
  outb 0x1f2 sector_per_block;;
  outb 0x1f3 (Z.land sector 0xff);;
  outb 0x1f4 (Z.land (Z.shiftr sector 8) 0xff);;
  outb 0x1f5 (Z.land (Z.shiftr sector 16) 0xff);;
  outb 0x1f6 (Z.lor (Z.lor 0xe0 (Z.shiftl (Z.land (b_dev b) 1) 4)) (Z.land (Z.shiftr sector 24) 0x0f));;
  if flag (b_flags b) B_DIRTY then
    outb 0x1f7 write_cmd;;
    outsl 0x1f0 (b_data b) (Z.to_nat (BSIZE / 4))
  else outb 0x1f7 read_cmd.

Definition idestart (polls : nat) (p : option nat) : I unit :=
  match p with
  | None => panic "idestart"
  | Some b =>
      x ← ide_buf b;
      if FSSIZE <=? b_blockno (ib_buf x) then panic "incorrect blockno"
      else if 7 <? sector_per_block then panic "idestart"
      else on_port (idestart_cmd polls (ib_buf x))
  end.

(** The interrupt handler.  The result is the buffer whose waiters are
    woken. *)
Definition ideintr (polls : nat) : I (option nat) :=
  p ← gets idequeue;
  match p with
  | None => mret None
  | Some b =>
      x ← ide_buf b;
      set_queue (qnext x);;
      data ←
        (if negb (flag (b_flags (ib_buf x)) B_DIRTY) then
           r ← on_port (idewait polls true);
           if 0 <=? r then on_port (insl_words 0x1f0 (Z.to_nat (BSIZE / 4))) else mret (b_data (ib_buf x))
         else mret (b_data (ib_buf x)));
      let y := set_data data (ib_buf x) in
      let y := set_flags (Z.lor (b_flags y) B_VALID) y in
      let y := set_flags (Z.land (b_flags y) (Z.lnot B_DIRTY)) y in
      set_buf b (IBuf y (qnext x));;
      q ← gets idequeue;
      (match q with None => mret tt | Some _ => idestart polls q end);;
      mret (Some b)
  end.

(** The variable [pp] of iderw: the address of idequeue or of a qnext. *)
Inductive ptr := PQueue | PNext (b : nat).

Definition load_pp (pp : ptr) : I (option nat) :=
  match pp with PQueue => gets idequeue | PNext b => x ← ide_buf b; mret (qnext x) end.
Definition store_pp (pp : ptr) (p : option nat) : I unit :=
  match pp with PQueue => set_queue p | PNext b => x ← ide_buf b; set_buf b (IBuf (ib_buf x) p) end.

(** The loop that looks for the end of the list. *)
Fixpoint iderw_walk (fuel : nat) (pp : ptr) : I ptr :=
  p ← load_pp pp;
  match p with
  | None => mret pp
  | Some b => match fuel with O => nofuel | S fuel => iderw_walk fuel (PNext b) end
  end.

(** iderw() up to the loop that waits.  A list without cycles has at most as
    many members as there are buffers. *)
Definition iderw_start (polls : nat) (b : nat) : I unit :=
  x ← ide_buf b;
  if negb (flag (b_flags (ib_buf x)) B_BUSY) then panic "iderw: buf not busy"
  else if Z.land (b_flags (ib_buf x)) (Z.lor B_VALID B_DIRTY) =? B_VALID then panic "iderw: nothing to do"
  else
    h ← gets havedisk1;
    if negb (b_dev (ib_buf x) =? 0) && negb h then panic "iderw: ide disk 1 not present"
    else
      store_pp (PNext b) None;;
      bs ← gets ide_bufs;
      pp ← iderw_walk (length bs) PQueue;
      store_pp pp (Some b);;
      q ← gets idequeue;
      if decide (q = Some b) then idestart polls (Some b) else mret tt.

(** The test of the loop that waits: true when the request is finished. *)
Definition iderw_done (b : nat) : I bool :=
  x ← ide_buf b; mret (Z.land (b_flags (ib_buf x)) (Z.lor B_VALID B_DIRTY) =? B_VALID).

End ide.

(** ** The controller *)

(** The disks behind the controller: device and sector to contents. *)
Abbreviation sectors := (Z * Z → option block).

Definition upd (k : Z * Z) (b : block) (σ : sectors) : sectors := λ k', if decide (k' = k) then Some b else σ k'.

(** What the controller does: nothing, or a read with the bytes that are
    left, or a write with the bytes that have come. *)
Inductive ctst := CIdle | CRead (rest : block) | CFill (k : Z * Z) (got : block).

(** [ct_err] is whether the last command failed. *)
Record idectl := Ctl { ct_sect : sectors; ct_regs : gmap Z Z; ct_st : ctst; ct_err : bool }.

(** The device and sector that a command for one sector names. *)
Definition chs_of (r : gmap Z Z) : option (Z * Z) :=
  n ← r !! 0x1f2; x0 ← r !! 0x1f3; x1 ← r !! 0x1f4; x2 ← r !! 0x1f5; x3 ← r !! 0x1f6;
  if (n =? 1) && (Z.land x3 0xe0 =? 0xe0) then
    Some (Z.land (Z.shiftr x3 4) 1, x0 + 2 ^ 8 * x1 + 2 ^ 16 * x2 + 2 ^ 24 * Z.land x3 0xf)
  else None.

(** [ide_busy] is how often the status still says that the controller is not
    ready.  A write takes effect when its last word has come: no command can
    see the disk between then and the end of the write. *)
Class IdeDisk (D : Type) `{!Ports D, !Ports32 D} := {
  ide_ok : D → Prop;
  ide_view : D → idectl;
  ide_busy : D → nat;
  ide_delay : nat;
  ide_bound d : ide_ok d → (ide_busy d ≤ ide_delay)%nat;
  ide_status d : ide_ok d →
    let r := port_in 0x1f7 d in
    ide_ok r.2 ∧ ide_view r.2 = ide_view d ∧
    (Z.land (u8 r.1) 0xc0 = 0x40 ∧ ide_busy r.2 = 0%nat ∧
       (Z.land (u8 r.1) 0x21 =? 0) = negb (ct_err (ide_view d)) ∨
     Z.land (u8 r.1) 0xc0 ≠ 0x40 ∧ (ide_busy r.2 < ide_busy d)%nat);
  ide_reg d p x : ide_ok d → ide_busy d = 0%nat → 0x1f2 ≤ p ≤ 0x1f6 → byte_ok x →
    let d' := port_out p x d in
    ide_ok d' ∧ ide_busy d' = 0%nat ∧
    ide_view d' = Ctl (ct_sect (ide_view d)) (<[p := x]> (ct_regs (ide_view d))) (ct_st (ide_view d)) (ct_err (ide_view d));
  ide_intr_on d : ide_ok d → ide_busy d = 0%nat →
    let d' := port_out 0x3f6 0 d in ide_ok d' ∧ ide_busy d' = 0%nat ∧ ide_view d' = ide_view d;
  ide_read d k s : ide_ok d → ide_busy d = 0%nat →
    chs_of (ct_regs (ide_view d)) = Some k → ct_sect (ide_view d) k = Some s →
    let d' := port_out 0x1f7 0x20 d in
    ide_ok d' ∧ ∃ err, ide_view d' = Ctl (ct_sect (ide_view d)) (ct_regs (ide_view d)) (CRead s) err;
  ide_write d k s : ide_ok d → ide_busy d = 0%nat →
    chs_of (ct_regs (ide_view d)) = Some k → ct_sect (ide_view d) k = Some s →
    let d' := port_out 0x1f7 0x30 d in
    ide_ok d' ∧ ∃ err, ide_view d' = Ctl (ct_sect (ide_view d)) (ct_regs (ide_view d)) (CFill k []) err;
  ide_word d l rest : ide_ok d → ide_busy d = 0%nat → ct_err (ide_view d) = false →
    ct_st (ide_view d) = CRead (l ++ rest) → length l = 4%nat →
    let r := port_in32 0x1f0 d in
    r.1 = le_value l ∧ ide_ok r.2 ∧ ide_busy r.2 = 0%nat ∧
    ide_view r.2 = Ctl (ct_sect (ide_view d)) (ct_regs (ide_view d)) (CRead rest) false;
  ide_fill d k l w : ide_ok d → ct_st (ide_view d) = CFill k l → 0 ≤ w < 2 ^ 32 →
    let d' := port_out32 0x1f0 w d in
    let l' := l ++ le_bytes 4 w in
    ide_ok d' ∧
    (Z.of_nat (length l') < SECTOR_SIZE → ∃ err,
       ide_view d' = Ctl (ct_sect (ide_view d)) (ct_regs (ide_view d)) (CFill k l') err) ∧
    (Z.of_nat (length l') = SECTOR_SIZE → ∃ err,
       ide_view d' = Ctl (if (err : bool) then ct_sect (ide_view d) else upd k l' (ct_sect (ide_view d)))
         (ct_regs (ide_view d)) CIdle err);
}.

(** ** Commands *)

(** The contents of a sector. *)
Definition sector_ok (s : block) : Prop := Z.of_nat (length s) = BSIZE ∧ Forall byte_ok s.

(** The sector of a buffer, which is one block. *)
Definition key (x : buf) : Z * Z := (Z.land (b_dev x) 1, b_blockno x).

(** A request: its block number is one of the file system. *)
Record req_ok (x : buf) : Prop := ReqOk {
  ro_block : 0 ≤ b_blockno x < FSSIZE;
  ro_data : sector_ok (b_data x);
}.

(** The disks as a request leaves them: [err] is whether it failed. *)
Definition served (σ : sectors) (e : buf * bool) : sectors :=
  if flag (b_flags e.1) B_DIRTY && negb e.2 then upd (key e.1) (b_data e.1) σ else σ.

Section commands.
Context {D : Type} `{!Ports D, !Ports32 D, !IdeDisk D}.

Lemma idewait_ok polls ck d :
  ide_ok d → (ide_delay < polls)%nat →
  ∃ d', idewait polls ck d = Ok (if ck && ct_err (ide_view d) then -1 else 0) d' ∧
    ide_ok d' ∧ ide_busy d' = 0%nat ∧ ide_view d' = ide_view d.
Proof.
  intros Hok Hp. pose proof (ide_bound d Hok) as Hb. assert (ide_busy d < polls)%nat as Hlt by lia. clear Hp Hb.
  revert d Hok Hlt. induction polls as [|polls IH]; intros d Hok Hlt; [lia|].
  destruct (ide_status d Hok) as (Hok' & Hv & Hst). cbn [idewait]. rewrite inb_step.
  change (u16 0x1f7) with 0x1f7. change (Z.lor IDE_BSY IDE_DRDY) with 0xc0.
  change (Z.lor IDE_DF IDE_ERR) with 0x21. change IDE_DRDY with 0x40.
  destruct Hst as [(-> & Hb & ->)|[Hs Hb]].
  - cbn [Z.eqb Pos.eqb negb]. rewrite negb_involutive. exists (port_in 0x1f7 d).2.
    by destruct (ck && _).
  - rewrite (proj2 (Z.eqb_neq _ _) Hs). cbn. rewrite <- Hv. apply IH; [done|lia].
Qed.

Lemma reg_ok d p x :
  ide_ok d → ide_busy d = 0%nat → 0x1f2 ≤ p ≤ 0x1f6 →
  ∃ d', (∀ A (k : M D A), (outb p x;; k) d = k d') ∧ ide_ok d' ∧ ide_busy d' = 0%nat ∧
    ide_view d' = Ctl (ct_sect (ide_view d)) (<[p := u8 x]> (ct_regs (ide_view d))) (ct_st (ide_view d)) (ct_err (ide_view d)).
Proof.
  intros Hok Hb Hp.
  destruct (ide_reg d p (u8 x) Hok Hb Hp ltac:(apply Z.mod_pos_bound; lia)) as (? & ? & ?). eexists.
  split; [|done]. intros A k. rewrite outb_step. by replace (u16 p) with p by (symmetry; apply Z.mod_small; lia).
Qed.

Lemma insl_words_ok n d s :
  ide_ok d → ide_busy d = 0%nat → ct_err (ide_view d) = false → ct_st (ide_view d) = CRead s →
  length s = (4 * n)%nat → Forall byte_ok s →
  ∃ d', insl_words 0x1f0 n d = Ok s d' ∧ ide_ok d' ∧ ct_sect (ide_view d') = ct_sect (ide_view d).
Proof.
  revert d s. induction n as [|n IH]; intros d s Hok Hb He Hst Hl Hs.
  { destruct s; [|done]. by exists d. }
  rewrite <- (take_drop 4 s) in Hst, Hs. apply Forall_app in Hs as [Hs1 Hs2].
  destruct (ide_word d (take 4 s) (drop 4 s) Hok Hb He Hst ltac:(rewrite length_take; lia)) as (Ew & Hok' & Hb' & Hv).
  edestruct (IH (port_in32 0x1f0 d).2 (drop 4 s)) as (d' & E & Hok'' & Hv'');
    [done|done|by rewrite Hv|by rewrite Hv|rewrite length_drop; lia|done|].
  exists d'. rewrite Hv in Hv''. split; [|done]. cbn [insl_words]. unfold mbind, M_bind, inl.
  change (u16 0x1f0) with 0x1f0. rewrite E, Ew. unfold mret, M_ret. f_equal.
  assert (length (take 4 s) = 4%nat) as H4 by (rewrite length_take; lia).
  rewrite u32_small by (pose proof (le_value_range _ Hs1) as Hr; rewrite H4 in Hr; exact Hr).
  rewrite <- H4 at 1. rewrite le_bytes_value by done. apply take_drop.
Qed.

Lemma outsl_ok n d k l rest :
  ide_ok d → ct_st (ide_view d) = CFill k l → length rest = (4 * n)%nat → Forall byte_ok rest →
  n ≠ 0%nat → Z.of_nat (length (l ++ rest)) = SECTOR_SIZE →
  ∃ d' err, outsl 0x1f0 rest n d = Ok tt d' ∧ ide_ok d' ∧ ct_err (ide_view d') = err ∧
    ct_sect (ide_view d') = if (err : bool) then ct_sect (ide_view d) else upd k (l ++ rest) (ct_sect (ide_view d)).
Proof.
  revert d l rest. induction n as [|n IH]; intros d l rest Hok Hst Hl Hs Hn Hlen; [done|].
  rewrite <- (take_drop 4 rest) in Hs. apply Forall_app in Hs as [Hs1 Hs2].
  assert (length (take 4 rest) = 4%nat) as H4 by (rewrite length_take; lia).
  pose proof (le_value_range _ Hs1) as Hr. rewrite H4 in Hr.
  destruct (ide_fill d k l (le_value (take 4 rest)) Hok Hst Hr) as (Hok' & Hmore & Hlast).
  assert (le_bytes 4 (le_value (take 4 rest)) = take 4 rest) as Eb by
    (rewrite <- H4 at 1; by rewrite le_bytes_value).
  cbn [outsl]. unfold outl. rewrite modify_step. change (u16 0x1f0) with 0x1f0. rewrite (u32_small (le_value _)) by done.
  rewrite Eb in *. rewrite length_app, H4 in *. destruct (decide (n = 0%nat)) as [->|Hn0].
  - destruct Hlast as [err Hv]; [lia|]. eexists _, err. split; [reflexivity|].
    split; [done|]. rewrite Hv. cbn [ct_err ct_sect]. split; [done|]. by rewrite (take_ge rest) by lia.
  - destruct Hmore as [err Hv]; [unfold SECTOR_SIZE in *; lia|].
    edestruct (IH _ (l ++ take 4 rest) (drop 4 rest) Hok') as (d' & err' & E & Hok'' & He & Hv');
      [by rewrite Hv|rewrite length_drop; lia|done|done|rewrite !length_app, length_drop; lia|].
    exists d', err'. split; [done|]. split; [done|]. split; [done|].
    rewrite Hv', Hv, <- app_assoc, take_drop. done.
Qed.

Lemma device_high k h : 0 ≤ k < 2 → 0 ≤ h < 16 →
  let x := u8 (Z.lor (Z.lor 0xe0 (Z.shiftl k 4)) h) in
  Z.land x 0xe0 = 0xe0 ∧ Z.land (Z.shiftr x 4) 1 = k ∧ Z.land x 0xf = h.
Proof.
  intros Hk Hh. rewrite <- (Z2Nat.id h) by lia. assert (Z.to_nat h < 16)%nat as Hn by lia.
  clear Hh. generalize dependent (Z.to_nat h). clear h. intros n Hn.
  assert (k = 0 ∨ k = 1) as [-> | ->] by lia; do 16 (destruct n as [|n]; [by vm_compute|]); lia.
Qed.

Lemma land_low8 x : u8 (Z.land x 0xff) = x `mod` 2 ^ 8.
Proof. change 0xff with (Z.ones 8). rewrite Z.land_ones by lia. unfold u8. by rewrite Z.mod_mod by lia. Qed.

Lemma land_dev x : 0 ≤ Z.land x 1 < 2.
Proof. rewrite (Z.land_ones x 1 ltac:(lia) : Z.land x 1 = _). by apply Z.mod_pos_bound. Qed.

(** The registers that idestart programs name its sector. *)
Lemma chs_of_key x r :
  0 ≤ b_blockno x < 2 ^ 28 →
  chs_of (<[0x1f6 := u8 (Z.lor (Z.lor 0xe0 (Z.shiftl (Z.land (b_dev x) 1) 4)) (Z.land (Z.shiftr (b_blockno x) 24) 0x0f))]>
    (<[0x1f5 := u8 (Z.land (Z.shiftr (b_blockno x) 16) 0xff)]> (<[0x1f4 := u8 (Z.land (Z.shiftr (b_blockno x) 8) 0xff)]>
    (<[0x1f3 := u8 (Z.land (b_blockno x) 0xff)]> (<[0x1f2 := 1]> r))))) = Some (key x).
Proof.
  intros Hx. unfold chs_of. rewrite !lookup_insert.
  repeat first [rewrite decide_True by reflexivity | rewrite decide_False by discriminate].
  cbn [mbind option_bind]. rewrite !land_low8, !(Z.shiftr_div_pow2 (b_blockno x)) by lia.
  destruct (device_high (Z.land (b_dev x) 1) (Z.land (b_blockno x / 2 ^ 24) 0xf)) as (-> & -> & ->).
  { apply land_dev. }
  { change 0xf with (Z.ones 4). rewrite Z.land_ones by lia. by apply Z.mod_pos_bound. }
  change 0xf with (Z.ones 4). rewrite Z.land_ones by lia.
  cbn [Z.eqb Pos.eqb andb]. unfold key. do 2 f_equal. Z.div_mod_to_equations. lia.
Qed.

(** idestart hands the request to the controller. *)
Lemma idestart_cmd_ok polls d x s :
  ide_ok d → (ide_delay < polls)%nat → req_ok x → ct_sect (ide_view d) (key x) = Some s →
  ∃ d', idestart_cmd polls x d = Ok tt d' ∧ ide_ok d' ∧
    ct_sect (ide_view d') = served (ct_sect (ide_view d)) (x, ct_err (ide_view d')) ∧
    (flag (b_flags x) B_DIRTY = false → ct_st (ide_view d') = CRead s).
Proof.
  intros Hok Hp [Hn [Hl Hs]] Hk. unfold idestart_cmd.
  change sector_per_block with 1. rewrite Z.mul_1_r.
  replace (s32 (b_blockno x)) with (b_blockno x) by (symmetry; apply s32_small; unfold FSSIZE in Hn; lia).
  destruct (idewait_ok polls false d Hok Hp) as (d1 & E1 & Hok1 & Hb1 & Hv1). mstep E1.
  rewrite outb_step. destruct (ide_intr_on d1 Hok1 Hb1) as (Hok2 & Hb2 & Hv2).
  rewrite Hv1 in Hv2. clear Hv1 Hok1 Hb1 E1. change (u16 0x3f6) with 0x3f6. change (u8 0) with 0.
  set (d2 := port_out 0x3f6 0 d1) in *.
  destruct (reg_ok d2 0x1f2 1 Hok2 Hb2) as (d3 & -> & Hok3 & Hb3 & Hv3); [lia|].
  destruct (reg_ok d3 0x1f3 (Z.land (b_blockno x) 0xff) Hok3 Hb3) as (d4 & -> & Hok4 & Hb4 & Hv4); [lia|].
  destruct (reg_ok d4 0x1f4 (Z.land (Z.shiftr (b_blockno x) 8) 0xff) Hok4 Hb4) as (d5 & -> & Hok5 & Hb5 & Hv5); [lia|].
  destruct (reg_ok d5 0x1f5 (Z.land (Z.shiftr (b_blockno x) 16) 0xff) Hok5 Hb5) as (d6 & -> & Hok6 & Hb6 & Hv6); [lia|].
  destruct (reg_ok d6 0x1f6 (Z.lor (Z.lor 0xe0 (Z.shiftl (Z.land (b_dev x) 1) 4))
    (Z.land (Z.shiftr (b_blockno x) 24) 0x0f)) Hok6 Hb6) as (d7 & -> & Hok7 & Hb7 & Hv7); [lia|].
  rewrite Hv6, Hv5, Hv4, Hv3, Hv2 in Hv7. cbn [ct_sect ct_regs ct_st ct_err] in Hv7.
  assert (chs_of (ct_regs (ide_view d7)) = Some (key x)) as Hchs by
    (rewrite Hv7; apply chs_of_key; unfold FSSIZE in Hn; lia).
  assert (ct_sect (ide_view d7) = ct_sect (ide_view d)) as Hsect by (by rewrite Hv7).
  rewrite <- Hsect in *. clear -Hok7 Hb7 Hchs Hk Hl Hs. unfold served. cbn [fst snd].
  destruct (flag (b_flags x) B_DIRTY).
  - rewrite outb_step. destruct (ide_write d7 _ s Hok7 Hb7 Hchs Hk) as (Hok8 & err & Hv8).
    edestruct (outsl_ok (Z.to_nat (BSIZE / 4)) _ (key x) [] (b_data x) Hok8) as (d9 & err' & E & Hok9 & He & Hs9);
      [by rewrite Hv8|by apply Nat2Z.inj; rewrite Hl|done|done|exact Hl|].
    exists d9. split; [exact E|]. split; [done|]. split; [|done]. rewrite Hs9, Hv8, He. by destruct err'.
  - destruct (ide_read d7 _ s Hok7 Hb7 Hchs Hk) as (Hok8 & err & Hv8). 
    exists (port_out 0x1f7 0x20 d7). split; [reflexivity|]. split; [exact Hok8|]. by rewrite Hv8.
Qed.

End commands.

(** ** The queue *)

(** The list [q] from the pointer [p] on. *)
Fixpoint queue_at (bs : list ibuf) (p : option nat) (q : list nat) : Prop :=
  match q with
  | [] => p = None
  | b :: q => p = Some b ∧ ∃ x, bs !! b = Some x ∧ queue_at bs (qnext x) q
  end.

Lemma queue_at_insert bs p q b x : b ∉ q → queue_at bs p q → queue_at (<[b := x]> bs) p q.
Proof.
  revert p. induction q as [|b' q IH]; intros p Hb; cbn; [done|]. apply not_elem_of_cons in Hb as [Hne Hb].
  intros (-> & y & Hy & Hq). split; [done|]. exists y. rewrite list_lookup_insert_ne by done. split; [done|]. by apply IH.
Qed.

(** Only the qnext field matters. *)
Lemma queue_at_same bs p q b x y :
  bs !! b = Some x → qnext y = qnext x → queue_at bs p q → queue_at (<[b := y]> bs) p q.
Proof.
  intros Hx Hn. revert p. induction q as [|b' q IH]; intros p; cbn; [done|]. intros (-> & z & Hz & Hq). split; [done|].
  destruct (decide (b' = b)) as [->|Hne].
  - exists y. rewrite list_lookup_insert_eq by (by eapply lookup_lt_Some). split; [done|]. rewrite Hn.
    assert (z = x) as -> by congruence. by apply IH.
  - exists z. rewrite list_lookup_insert_ne by done. split; [done|]. by apply IH.
Qed.

Lemma queue_at_length bs p q : NoDup q → queue_at bs p q → (length q ≤ length bs)%nat.
Proof.
  intros Hnd Hq. rewrite <- (length_seq (length bs) 0). apply submseteq_length, NoDup_submseteq; [done|].
  intros b Hb. apply elem_of_seq. split; [lia|]. revert p Hq. induction Hb as [b q|b b' q Hb IH]; intros p; cbn.
  - intros (_ & x & Hx & _). by eapply lookup_lt_Some.
  - intros (_ & x & _ & Hq). apply NoDup_cons in Hnd as [_ Hnd]. by eapply IH.
Qed.

(** Where the list ends. *)
Fixpoint last_pp (pp : ptr) (q : list nat) : ptr := match q with [] => pp | b :: q => last_pp (PNext b) q end.

Lemma last_pp_in pp q : last_pp pp q = pp ∧ q = [] ∨ ∃ b, last_pp pp q = PNext b ∧ b ∈ q.
Proof.
  revert pp. induction q as [|b q IH]; intros pp; [by left|]. right. cbn. destruct (IH (PNext b)) as [[-> ->]|(b' & -> & Hb)].
  - exists b. split; [done|]. by left.
  - exists b'. split; [done|]. by right.
Qed.

Section queue.
Context {D : Type} `{!Ports D, !Ports32 D}.

Lemma iderw_walk_ok fuel pp (s : ide D) p q :
  load_pp pp s = Ok p s → queue_at (ide_bufs s) p q → (length q ≤ fuel)%nat →
  iderw_walk fuel pp s = Ok (last_pp pp q) s.
Proof.
  revert pp p fuel. induction q as [|b q IH]; intros pp p fuel Hp Hq Hf.
  - cbn in Hq. subst p. destruct fuel; cbn [iderw_walk]; by mstep Hp.
  - destruct Hq as (-> & x & Hx & Hq). destruct fuel as [|fuel]; cbn in Hf; [lia|]. cbn [iderw_walk]. mstep Hp.
    cbn [last_pp]. eapply IH; [|exact Hq|lia]. unfold load_pp, ide_buf, mbind, M_bind. by rewrite Hx.
Qed.

(** Storing a buffer at the end of the list appends it. *)
Lemma store_pp_ok (s : ide D) q b x :
  queue_at (ide_bufs s) (idequeue s) q → NoDup q → b ∉ q → ide_bufs s !! b = Some x → qnext x = None →
  ∃ p bs, store_pp (last_pp PQueue q) (Some b) s = Ok tt (Ide p (havedisk1 s) bs (ide_dev s)) ∧
    queue_at bs p (q ++ [b]) ∧
    (p = Some b ↔ q = []) ∧ ∀ b', ib_buf <$> bs !! b' = ib_buf <$> ide_bufs s !! b'.
Proof.
  destruct s as [p h bs d]. cbn. destruct q as [|b0 q _] using rev_ind; intros Hq Hnd Hb Hx Hn.
  { exists (Some b), bs. split; [done|]. cbn. split; [|done]. split; [done|]. by exists x. }
  assert (∃ y, bs !! b0 = Some y ∧ qnext y = None) as (y & Hy & Hyn).
  { clear -Hq. revert p Hq. induction q as [|b' q IH]; intros p; cbn.
    - intros (_ & y & Hy & E). by exists y.
    - intros (_ & y & _ & Hq). by eapply IH. }
  assert (∀ pp, last_pp pp (q ++ [b0]) = PNext b0) as -> by (clear; intros pp; revert pp; induction q; cbn; done).
  exists p, (<[b0 := IBuf (ib_buf y) (Some b)]> bs). apply NoDup_app in Hnd as (Hnd & Hdis & _).
  assert (b0 ∉ q) as Hb0 by (intros Hi; apply (Hdis _ Hi); by left).
  assert (b ≠ b0) as Hne by (intros ->; apply Hb, elem_of_app; right; by left).
  split; [|split; [|split]].
  - unfold store_pp, ide_buf, mbind, M_bind. cbn. by rewrite Hy.
  - clear Hb Hdis Hnd. revert p Hq. induction q as [|b' q IH]; intros p; cbn.
    + intros (-> & _). split; [done|]. exists (IBuf (ib_buf y) (Some b)).
      rewrite list_lookup_insert_eq by (by eapply lookup_lt_Some). split; [done|]. split; [done|]. exists x.
      by rewrite list_lookup_insert_ne.
    + apply not_elem_of_cons in Hb0 as [Hne0 Hb0]. intros (-> & z & Hz & Hq). split; [done|]. exists z.
      rewrite list_lookup_insert_ne by done. split; [done|]. by apply IH.
  - split; [|intros E; by destruct q]. intros ->. exfalso. apply Hb. destruct q; cbn in Hq; destruct Hq as [[= ->] _]; by left.
  - intros b'. destruct (decide (b' = b0)) as [->|].
    + rewrite list_lookup_insert_eq, Hy by (by eapply lookup_lt_Some). done.
    + by rewrite list_lookup_insert_ne.
Qed.

End queue.

(** ** Requests and interrupts *)

(** A request that is finished: the buffer as it was when the request was
    made, whether the controller reported an error, and the buffer as the
    interrupt handler leaves it. *)
Record done := Done { dn_id : nat; dn_req : buf; dn_err : bool; dn_res : buf }.

(** The driver with the requests that were made, oldest first, and those that
    are finished. *)
Record ideconf (D : Type) := IdeConf { ic_s : ide D; ic_asked : list (nat * buf); ic_done : list done }.
Arguments IdeConf {D}.
Arguments ic_s {D}.
Arguments ic_asked {D}.
Arguments ic_done {D}.

Definition pending {D} (c : ideconf D) : list (nat * buf) := drop (length (ic_done c)) (ic_asked c).

(** The disks after the finished requests, starting from [σ]. *)
Definition after (σ : sectors) (l : list done) : sectors :=
  foldl served σ ((λ e, (dn_req e, dn_err e)) <$> l).

(** What a finished request gives when the disks were [σ] before it: a write
    keeps its data, a read has the contents of its sector, or its old data
    after an error. *)
Record finished (σ : sectors) (e : done) : Prop := Finished {
  fi_flags : Z.land (b_flags (dn_res e)) (Z.lor B_VALID B_DIRTY) = B_VALID;
  fi_block : key (dn_res e) = key (dn_req e);
  fi_data : Some (b_data (dn_res e)) =
    if flag (b_flags (dn_req e)) B_DIRTY || dn_err e then Some (b_data (dn_req e)) else σ (key (dn_req e));
}.

(** The disks that are there have contents for every block. *)
Definition disks_ok (h : bool) (σ : sectors) : Prop :=
  ∀ k n, (k = 0 ∨ h = true ∧ k = 1) → 0 ≤ n < FSSIZE → ∃ s, σ (k, n) = Some s ∧ sector_ok s.

(** A buffer that iderw accepts. *)
Record askable (h : bool) (x : buf) : Prop := Askable {
  as_busy : flag (b_flags x) B_BUSY = true;
  as_todo : Z.land (b_flags x) (Z.lor B_VALID B_DIRTY) ≠ B_VALID;
  as_dev : b_dev x = 0 ∨ h = true;
  as_ok : req_ok x;
}.

Lemma disks_ok_key h σ x : disks_ok h σ → askable h x → ∃ s, σ (key x) = Some s ∧ sector_ok s.
Proof.
  intros Hσ [_ _ Hd [Hn _]]. apply Hσ; [|done]. pose proof (land_dev (b_dev x)) as Hl.
  destruct Hd as [->| ->]; [by left|]. assert (Z.land (b_dev x) 1 = 0 ∨ Z.land (b_dev x) 1 = 1) as [E|E] by lia;
    rewrite E; [by left|by right].
Qed.

Lemma disks_ok_served h σ x err : disks_ok h σ → req_ok x → disks_ok h (served σ (x, err)).
Proof.
  intros Hσ [_ Hd] k n Hk Hn. unfold served, upd. cbn [fst snd]. destruct (_ && _); [|by apply Hσ].
  destruct (decide _); [by eexists|by apply Hσ].
Qed.

(** The flags of a finished buffer. *)
Lemma finished_flags f :
  Z.land (Z.land (Z.lor f B_VALID) (Z.lnot B_DIRTY)) (Z.lor B_VALID B_DIRTY) = B_VALID.
Proof.
  apply Z.bits_inj'. intros n Hn. rewrite !Z.land_spec, !Z.lor_spec, Z.lnot_spec by done.
  destruct (decide (n = 1)) as [->|H1]; [by rewrite orb_true_r|]. destruct (decide (n = 2)) as [->|H2]; [by rewrite andb_false_r|].
  assert (Z.testbit B_VALID n = false) as ->.
  { change B_VALID with (2 ^ 1). apply Z.pow2_bits_false. lia. }
  assert (Z.testbit B_DIRTY n = false) as ->.
  { change B_DIRTY with (2 ^ 2). apply Z.pow2_bits_false. lia. }
  by rewrite andb_false_r.
Qed.

Section steps.
Context {D : Type} `{!Ports D, !Ports32 D, !IdeDisk D}.
Context (polls : nat) (Hpolls : (ide_delay < polls)%nat).

(** A caller asks for a buffer that is not queued; the controller interrupts;
    a process changes a buffer that is not queued. *)
Inductive idestep : ideconf D → ideconf D → Prop :=
  | step_rw c b x s :
      b ∉ (pending c).*1 → ib_buf <$> ide_bufs (ic_s c) !! b = Some x → req_ok x →
      iderw_start polls b (ic_s c) = Ok tt s →
      idestep c (IdeConf s (ic_asked c ++ [(b, x)]) (ic_done c))
  | step_intr c b x y s :
      ideintr polls (ic_s c) = Ok (Some b) s →
      head (pending c) = Some (b, x) → ib_buf <$> ide_bufs s !! b = Some y →
      idestep c (IdeConf s (ic_asked c) (ic_done c ++ [Done b x (ct_err (ide_view (ide_dev (ic_s c)))) y]))
  | step_spurious c s :
      ideintr polls (ic_s c) = Ok None s → idestep c (IdeConf s (ic_asked c) (ic_done c))
  | step_client c b x y :
      b ∉ (pending c).*1 → ide_bufs (ic_s c) !! b = Some x →
      idestep c (IdeConf (Ide (idequeue (ic_s c)) (havedisk1 (ic_s c)) (<[b := IBuf y (qnext x)]> (ide_bufs (ic_s c)))
        (ide_dev (ic_s c))) (ic_asked c) (ic_done c)).

Definition ideinitial (c : ideconf D) : Prop :=
  idequeue (ic_s c) = None ∧ ic_asked c = [] ∧ ic_done c = [] ∧ ide_ok (ide_dev (ic_s c)) ∧
  disks_ok (havedisk1 (ic_s c)) (ct_sect (ide_view (ide_dev (ic_s c)))).

(** The controller works on the first request that is pending, and on
    nothing else: [σ] is what the requests before it leave. *)
Definition working (d : D) (σ : sectors) (pend : list (nat * buf)) : Prop :=
  match pend with
  | [] => ct_sect (ide_view d) = σ
  | (_, x) :: _ =>
      ct_sect (ide_view d) = served σ (x, ct_err (ide_view d)) ∧
      (flag (b_flags x) B_DIRTY = false → ∃ s, σ (key x) = Some s ∧ ct_st (ide_view d) = CRead s)
  end.

(** The driver's state for the pending requests. *)
Record driver (s : ide D) (σ : sectors) (pend : list (nat * buf)) : Prop := Driver {
  dr_queue : queue_at (ide_bufs s) (idequeue s) pend.*1;
  dr_nodup : NoDup pend.*1;
  dr_bufs b x : (b, x) ∈ pend → ib_buf <$> ide_bufs s !! b = Some x ∧ askable (havedisk1 s) x;
  dr_ok : ide_ok (ide_dev s);
  dr_disks : disks_ok (havedisk1 s) σ;
  dr_work : working (ide_dev s) σ pend;
}.

Lemma idestart_ok (s : ide D) σ b x rest :
  ide_ok (ide_dev s) → ct_sect (ide_view (ide_dev s)) = σ → disks_ok (havedisk1 s) σ →
  ib_buf <$> ide_bufs s !! b = Some x → askable (havedisk1 s) x →
  ∃ d, idestart polls (Some b) s = Ok tt (Ide (idequeue s) (havedisk1 s) (ide_bufs s) d) ∧ ide_ok d ∧
    working d σ ((b, x) :: rest).
Proof.
  intros Hok Hσ Hd Hb Ha. destruct (ide_bufs s !! b) as [ib|] eqn:Eb; [|done]. injection Hb as <-.
  destruct (disks_ok_key _ _ _ Hd Ha) as (sec & Hk & Hsec). destruct Ha as [_ _ _ Hr].
  destruct (idestart_cmd_ok polls (ide_dev s) (ib_buf ib) sec Hok Hpolls Hr) as (d & E & Hok' & Hsect & Hread);
    [by rewrite Hσ|].
  exists d. split; [|split; [done|]].
  - unfold idestart, ide_buf, mbind, M_bind. rewrite Eb, (proj2 (Z.leb_gt _ _)) by apply Hr.
    change (7 <? sector_per_block) with false. unfold on_port, zoom. by rewrite E.
  - cbn. rewrite Hsect, Hσ. split; [done|]. intros Hf. exists sec. split; [done|]. by apply Hread.
Qed.

(** iderw queues the request and starts the disk when it is idle. *)
Lemma iderw_start_ok (s : ide D) σ pend b x :
  driver s σ pend → b ∉ pend.*1 → ib_buf <$> ide_bufs s !! b = Some x → askable (havedisk1 s) x →
  ∃ s', iderw_start polls b s = Ok tt s' ∧ havedisk1 s' = havedisk1 s ∧ driver s' σ (pend ++ [(b, x)]).
Proof.
  intros Hdr Hb Hx Ha. destruct s as [p h bs d]. destruct Hdr as [Hq Hnd Hbs Hok Hd Hw].
  cbn [ide_bufs idequeue havedisk1 ide_dev] in *.
  destruct (bs !! b) as [ib|] eqn:Eb; [|done]. injection Hx as Hx.
  set (bs1 := <[b := IBuf x None]> bs).
  assert (bs1 !! b = Some (IBuf x None)) as Hb1 by (by apply list_lookup_insert_eq; eapply lookup_lt_Some).
  assert (queue_at bs1 p pend.*1) as Hq1 by (by apply queue_at_insert).
  destruct (store_pp_ok (Ide p h bs1 d) pend.*1 b (IBuf x None) Hq1 Hnd Hb Hb1 eq_refl)
    as (p' & bs2 & E2 & Hq2 & Hp' & Hbs2). cbn [ide_bufs idequeue havedisk1 ide_dev] in *.
  assert (ib_buf <$> bs2 !! b = Some x) as Hb2 by (by rewrite Hbs2, Hb1).
  assert (∀ b' x', (b', x') ∈ pend ++ [(b, x)] → ib_buf <$> bs2 !! b' = Some x' ∧ askable h x') as Hall.
  { intros b' x' [Hi|Hi]%elem_of_app; [|apply list_elem_of_singleton in Hi as [= -> ->]; done].
    destruct (Hbs _ _ Hi) as [E ?]. split; [|done]. rewrite Hbs2. unfold bs1.
    rewrite list_lookup_insert_ne; [done|]. intros ->. apply Hb, list_elem_of_fmap. by eexists (_, _). }
  assert (NoDup (pend ++ [(b, x)]).*1) as Hnd2.
  { rewrite fmap_app. apply NoDup_app. split; [done|]. split; [|apply NoDup_singleton].
    intros y Hy Hi. apply list_elem_of_singleton in Hi as ->. done. }
  replace (pend.*1 ++ [b]) with (pend ++ [(b, x)]).*1 in Hq2 by (by rewrite fmap_app).
  assert (iderw_start polls b (Ide p h bs d) =
    (if decide (p' = Some b) then idestart polls (Some b) else mret tt) (Ide p' h bs2 d)) as ->.
  { assert (ide_buf b (Ide p h bs d) = Ok ib (Ide p h bs d)) as Ei by (unfold ide_buf; cbn; by rewrite Eb).
    assert (store_pp (PNext b) None (Ide p h bs d) = Ok tt (Ide p h bs1 d)) as Es.
    { unfold store_pp. mstep Ei. unfold bs1. by rewrite <- Hx. }
    unfold iderw_start. mstep Ei. rewrite Hx. destruct Ha as [-> Ht Hdev _]. cbn [negb].
    rewrite (proj2 (Z.eqb_neq _ _) Ht), gets_step. cbn [havedisk1].
    replace (negb (b_dev x =? 0) && negb h) with false by (destruct Hdev as [->| ->]; [done|by rewrite andb_false_r]).
    mstep Es. rewrite gets_step.
    mstep (iderw_walk_ok (length bs1) PQueue (Ide p h bs1 d) p pend.*1 eq_refl Hq1 (queue_at_length _ _ _ Hnd Hq1)).
    mstep E2. by rewrite gets_step. }
  destruct (decide (p' = Some b)) as [->|Hne].
  - apply proj1 in Hp'. specialize (Hp' eq_refl). destruct pend; [|done]. cbn [working app] in *.
    destruct (idestart_ok (Ide (Some b) h bs2 d) σ b x [] Hok Hw Hd Hb2 Ha) as (d' & E & Hok' & Hw').
    eexists. split; [exact E|]. split; [done|]. by split.
  - eexists. split; [reflexivity|]. split; [done|]. split; try done. cbn [ide_dev].
    destruct pend as [|[b0 x0] pend]; [|exact Hw]. destruct Hne. by apply Hp'.
Qed.

(** The interrupt handler reads the data, if any, and starts the next
    request. *)
Definition intr_data (x : buf) : M D block :=
  if negb (flag (b_flags x) B_DIRTY) then
    r ← idewait polls true; if 0 <=? r then insl_words 0x1f0 (Z.to_nat (BSIZE / 4)) else mret (b_data x)
  else mret (b_data x).

Lemma intr_data_ok d σ b x rest h :
  ide_ok d → disks_ok h σ → askable h x → working d σ ((b, x) :: rest) →
  ∃ l d', intr_data x d = Ok l d' ∧ ide_ok d' ∧ ct_sect (ide_view d') = served σ (x, ct_err (ide_view d)) ∧
    Some l = if flag (b_flags x) B_DIRTY || ct_err (ide_view d) then Some (b_data x) else σ (key x).
Proof.
  intros Hok Hd Ha [Hs Hr]. unfold intr_data. destruct (flag (b_flags x) B_DIRTY) eqn:Ef; cbn [negb].
  { by eexists _, d. }
  destruct (Hr eq_refl) as (sec & Hk & Hst). destruct (disks_ok_key _ _ _ Hd Ha) as (sec' & Hk' & Hl & Hby).
  assert (sec' = sec) as -> by congruence.
  destruct (idewait_ok polls true d Hok Hpolls) as (d1 & E1 & Hok1 & Hb1 & Hv1). mstep E1. cbn [andb orb].
  destruct (ct_err (ide_view d)) eqn:Ee.
  - eexists _, d1. rewrite Hv1. done.
  - destruct (insl_words_ok (Z.to_nat (BSIZE / 4)) d1 sec) as (d2 & E2 & Hok2 & Hv2);
      [done|done|by rewrite Hv1|by rewrite Hv1|by apply Nat2Z.inj; rewrite Hl|done|].
    exists sec, d2. rewrite Hv2, Hv1, Hk. done.
Qed.

(** The handler up to the start of the next request. *)
Lemma ideintr_head bs d h b ib x l d1 :
  bs !! b = Some ib → ib_buf ib = x → intr_data x d = Ok l d1 →
  ideintr polls (Ide (Some b) h bs d) =
    ((match qnext ib with None => mret tt | Some _ => idestart polls (qnext ib) end);; mret (Some b))
      (Ide (qnext ib) h (<[b := IBuf (set_flags (Z.land (Z.lor (b_flags x) B_VALID) (Z.lnot B_DIRTY)) (set_data l x)) (qnext ib)]> bs) d1).
Proof.
  intros Eb Ex E1. unfold ideintr. rewrite gets_step. cbn [idequeue].
  assert (ide_buf b (Ide (Some b) h bs d) = Ok ib (Ide (Some b) h bs d)) as Ei by (unfold ide_buf; cbn; by rewrite Eb).
  mstep Ei. rewrite Ex. unfold set_queue. rewrite modify_step. cbn [havedisk1 ide_bufs ide_dev].
  assert ((if negb (flag (b_flags x) B_DIRTY) then
         r ← on_port (idewait polls true);
         if 0 <=? r then on_port (insl_words 0x1f0 (Z.to_nat (BSIZE / 4))) else mret (b_data x)
       else mret (b_data x)) (Ide (qnext ib) h bs d) = Ok l (Ide (qnext ib) h bs d1)) as Ed.
  { revert E1. unfold intr_data. generalize (insl_words 0x1f0 (Z.to_nat (BSIZE / 4))). intros W.
    unfold on_port, zoom, mbind, M_bind. destruct (negb _); [|by intros [= <- <-]].
    cbn. destruct (idewait polls true d); try done. cbn. destruct (0 <=? _); cbn; [by intros ->|by intros [= <- <-]]. }
  mstep Ed. reflexivity.
Qed.

Lemma ideintr_ok (s : ide D) σ b x rest :
  driver s σ ((b, x) :: rest) →
  ∃ s' y, ideintr polls s = Ok (Some b) s' ∧ havedisk1 s' = havedisk1 s ∧
    driver s' (served σ (x, ct_err (ide_view (ide_dev s)))) rest ∧
    ib_buf <$> ide_bufs s' !! b = Some y ∧ finished σ (Done b x (ct_err (ide_view (ide_dev s))) y).
Proof.
  intros Hdr. destruct s as [p h bs d]. destruct Hdr as [Hq Hnd Hbs Hok Hd Hw].
  cbn [ide_bufs idequeue havedisk1 ide_dev fmap list_fmap fst] in *.
  destruct Hq as (-> & ib & Eb & Hq). apply NoDup_cons in Hnd as [Hn Hnd].
  destruct (Hbs b x ltac:(by left)) as [Ex Ha]. rewrite Eb in Ex. injection Ex as Ex.
  destruct (intr_data_ok d σ b x rest h Hok Hd Ha Hw) as (l & d1 & E1 & Hok1 & Hs1 & Hl).
  set (y := set_flags (Z.land (Z.lor (b_flags x) B_VALID) (Z.lnot B_DIRTY)) (set_data l x)).
  set (bs1 := <[b := IBuf y (qnext ib)]> bs). set (s1 := Ide (qnext ib) h bs1 d1).
  rewrite (ideintr_head bs d h b ib x l d1 Eb Ex E1).
  fold y bs1 s1.
  assert (Hy1 : bs1 !! b = Some (IBuf y (qnext ib))) by (by apply list_lookup_insert_eq; eapply lookup_lt_Some).
  assert (finished σ (Done b x (ct_err (ide_view d)) y)) as Hfin.
  { split; [apply finished_flags|done|exact Hl]. }
  assert (queue_at bs1 (qnext ib) rest.*1) as Hq1 by (by apply queue_at_insert).
  assert (∀ b' x', (b', x') ∈ rest → ib_buf <$> bs1 !! b' = Some x' ∧ askable h x') as Hall.
  { intros b' x' Hi. destruct (Hbs b' x' ltac:(by right)) as [E ?]. split; [|done]. unfold bs1.
    rewrite list_lookup_insert_ne; [done|]. intros ->. apply Hn, list_elem_of_fmap. by eexists (_, _). }
  assert (disks_ok h (served σ (x, ct_err (ide_view d)))) as Hd1 by (apply disks_ok_served; [done|apply Ha]).
  destruct rest as [|[b' x'] rest].
  - cbn in Hq1. unfold s1. rewrite Hq1. eexists _, y. split; [reflexivity|]. cbn [ide_bufs havedisk1].
    rewrite Hy1. split; [done|]. split; [|done]. by split.
  - destruct Hq1 as [Hq1 Hq1']. destruct (Hall b' x' ltac:(by left)) as [Hb' Ha'].
    destruct (idestart_ok s1 _ b' x' rest Hok1 Hs1 Hd1 Hb' Ha') as (d2 & E2 & Hok2 & Hw2).
    replace (match qnext ib with None => mret tt | Some _ => idestart polls (qnext ib) end)
      with (idestart polls (Some b')) by (by rewrite Hq1).
    mstep E2. eexists _, y. split; [reflexivity|].
    cbn [ide_bufs havedisk1 s1]. rewrite Hy1. split; [done|]. split; [|done]. by split.
Qed.

(** The invariant of the steps. *)
Record ideinv (σ0 : sectors) (c : ideconf D) : Prop := IdeInv {
  ii_order : ic_asked c = ((λ e, (dn_id e, dn_req e)) <$> ic_done c) ++ pending c;
  ii_driver : driver (ic_s c) (after σ0 (ic_done c)) (pending c);
  ii_done i e : ic_done c !! i = Some e → finished (after σ0 (take i (ic_done c))) e;
}.

Lemma ideinv_pending (asked : list (nat * buf)) (l : list done) rest :
  asked = ((λ e, (dn_id e, dn_req e)) <$> l) ++ rest → drop (length l) asked = rest.
Proof. intros ->. by rewrite drop_app_length' by by rewrite length_fmap. Qed.

Lemma after_snoc σ l e : after σ (l ++ [e]) = served (after σ l) (dn_req e, dn_err e).
Proof. unfold after. by rewrite fmap_app, foldl_app. Qed.

Lemma ideintr_idle (s : ide D) σ : driver s σ [] → ideintr polls s = Ok None s.
Proof. intros [Hq _ _ _ _ _]. unfold ideintr. rewrite gets_step. cbn in Hq. by rewrite Hq. Qed.

Lemma step_rw_inv σ0 c b x s :
  ideinv σ0 c → b ∉ (pending c).*1 → ib_buf <$> ide_bufs (ic_s c) !! b = Some x → req_ok x →
  iderw_start polls b (ic_s c) = Ok tt s → ideinv σ0 (IdeConf s (ic_asked c ++ [(b, x)]) (ic_done c)).
Proof.
  intros [Ho Hdr Hf] Hb Hx Hr E.
  assert (askable (havedisk1 (ic_s c)) x) as Ha.
  { revert E. unfold iderw_start, mbind, M_bind, ide_buf at 1, gets.
    destruct (ide_bufs (ic_s c) !! b) as [ib|]; [|done]. injection Hx as ->.
    destruct (flag (b_flags x) B_BUSY) eqn:Hbusy; [|done]. cbn [negb]. destruct (Z.eqb_spec (Z.land (b_flags x) (Z.lor B_VALID B_DIRTY)) B_VALID); [done|].
    intros E. split; [done|done| |done]. destruct (havedisk1 (ic_s c)); [by right|].
    destruct (Z.eqb_spec (b_dev x) 0); [by left|]. done. }
  destruct (iderw_start_ok _ _ _ _ _ Hdr Hb Hx Ha) as (s' & E' & Eh & Hdr'). rewrite E in E'. injection E' as <-.
  assert (ic_asked c ++ [(b, x)] = ((λ e, (dn_id e, dn_req e)) <$> ic_done c) ++ (pending c ++ [(b, x)])) as Ho'
    by (by rewrite Ho at 1; rewrite app_assoc).
  unfold pending at 1 in Ho. split; cbn [ic_asked ic_done ic_s]; unfold pending; cbn [ic_asked ic_done];
    rewrite ?(ideinv_pending _ _ _ Ho'); done.
Qed.

Lemma step_intr_inv σ0 c b x y s :
  ideinv σ0 c → ideintr polls (ic_s c) = Ok (Some b) s → head (pending c) = Some (b, x) →
  ib_buf <$> ide_bufs s !! b = Some y →
  ideinv σ0 (IdeConf s (ic_asked c) (ic_done c ++ [Done b x (ct_err (ide_view (ide_dev (ic_s c)))) y])).
Proof.
  intros [Ho Hdr Hf] E Hh Hy. destruct (pending c) as [|[b' x'] rest] eqn:Ep; [done|]. injection Hh as -> ->.
  destruct (ideintr_ok _ _ _ _ _ Hdr) as (s' & y' & E' & Eh & Hdr' & Hy' & Hfin). rewrite E in E'. injection E' as <-.
  rewrite Hy in Hy'. injection Hy' as <-. set (e := Done b x _ y) in *.
  assert (ic_asked c = ((λ e, (dn_id e, dn_req e)) <$> (ic_done c ++ [e])) ++ rest) as Ho'
    by (by rewrite fmap_app, <- app_assoc).
  split; cbn [ic_asked ic_done ic_s]; unfold pending; cbn [ic_asked ic_done]; rewrite ?(ideinv_pending _ _ _ Ho').
  - done.
  - by rewrite after_snoc.
  - intros i e' He. apply lookup_app_Some in He as [He|[Hi He]].
    + rewrite take_app_le by (apply lookup_lt_Some in He; lia). by apply Hf.
    + apply list_lookup_singleton_Some in He as [He <-]. rewrite take_app_length' by lia. exact Hfin.
Qed.

Lemma ideinv_step σ0 c c' : ideinv σ0 c → idestep c c' → ideinv σ0 c'.
Proof.
  intros Hinv Hs. destruct Hs as [c b x s Hb Hx Hr E|c b x y s E Hh Hy|c s E|c b x y Hb Hx].
  - by eapply step_rw_inv.
  - by eapply step_intr_inv.
  - destruct Hinv as [Ho Hdr Hf]. destruct (pending c) as [|[b x] rest] eqn:Ep.
    + rewrite (ideintr_idle _ _ Hdr) in E. injection E as <-. rewrite <- Ep in *. by split.
    + destruct (ideintr_ok _ _ _ _ _ Hdr) as (? & ? & E' & _). congruence.
  - destruct Hinv as [Ho [Hq Hnd Hbs Hok Hd Hw] Hf]. split; [done| |done]. split; try done; cbn [ic_s ide_bufs].
    + by apply queue_at_insert.
    + intros b' x' Hi. rewrite list_lookup_insert_ne; [by apply Hbs|]. intros ->. apply Hb, list_elem_of_fmap. by eexists (_, _).
Qed.

Lemma ideinv_reach c0 c :
  ideinitial c0 → rtc idestep c0 c → ideinv (ct_sect (ide_view (ide_dev (ic_s c0)))) c.
Proof.
  intros (Hq & Ha & Hd & Hok & Hσ) Hs.
  assert (ideinv (ct_sect (ide_view (ide_dev (ic_s c0)))) c0) as H0.
  { assert (pending c0 = []) as Hp by (unfold pending; by rewrite Ha, Hd). split; rewrite ?Hp, ?Ha, ?Hd; [done| |done].
    split; [done|constructor|by intros ? ? ?%elem_of_nil|done|done|done]. }
  generalize dependent (ct_sect (ide_view (ide_dev (ic_s c0)))). intros σ0 _ H0. clear Hq Ha Hd Hok.
  induction Hs as [|c0 c1 c2 H1 _ IH]; [done|]. by eapply IH, ideinv_step.
Qed.

End steps.

(** C40: However requests, interrupts and changes of other buffers
    interleave: the requests finish in the order in which they were made and
    the buffers that wait are linked in that order from idequeue; each
    finished request left its buffer valid and clean, and a read that the
    controller did not report as failed left it the contents that its sector
    had after the requests before it; the disks hold what the requests wrote
    so far; the controller works on the first request that waits; that buffer
    and the others that wait are as they were handed in and their callers go
    on waiting; and the next interrupt finishes the first one, or does nothing
    when none waits.  A buffer that is not queued can always be handed in. *)
Theorem ide_correct {D} `{!Ports D, !Ports32 D, !IdeDisk D} (polls : nat) (c0 c : ideconf D) :
  (ide_delay < polls)%nat → ideinitial c0 → rtc (idestep polls) c0 c →
  let σ0 := ct_sect (ide_view (ide_dev (ic_s c0))) in
  let s := ic_s c in
  ic_asked c = ((λ e, (dn_id e, dn_req e)) <$> ic_done c) ++ pending c ∧
  queue_at (ide_bufs s) (idequeue s) (pending c).*1 ∧
  (∀ i e, ic_done c !! i = Some e → finished (after σ0 (take i (ic_done c))) e) ∧
  working (ide_dev s) (after σ0 (ic_done c)) (pending c) ∧
  (∀ b x, (b, x) ∈ pending c → ib_buf <$> ide_bufs s !! b = Some x ∧ iderw_done b s = Ok false s) ∧
  (∃ s', ideintr polls s = Ok (fst <$> head (pending c)) s') ∧
  (∀ b x, b ∉ (pending c).*1 → ib_buf <$> ide_bufs s !! b = Some x → askable (havedisk1 s) x →
     ∃ s', iderw_start polls b s = Ok tt s').
Proof.
  intros Hp H0 Hs σ0 s. destruct (ideinv_reach polls Hp c0 c H0 Hs) as [Ho Hdr Hf]. fold σ0 in Hdr, Hf. fold s in Hdr.
  split; [done|]. split; [apply Hdr|]. split; [done|]. split; [apply Hdr|]. split; [|split].
  - intros b x Hi. destruct (dr_bufs _ _ _ Hdr b x Hi) as [Hb [_ Ht _ _]]. split; [done|].
    unfold iderw_done, ide_buf, mbind, M_bind. destruct (ide_bufs s !! b) as [ib|]; [|done]. injection Hb as ->.
    by rewrite (proj2 (Z.eqb_neq _ _) Ht).
  - destruct (pending c) as [|[b x] rest].
    + exists s. by eapply ideintr_idle.
    + destruct (ideintr_ok polls Hp _ _ _ _ _ Hdr) as (s' & _ & E & _). by exists s'.
  - intros b x Hb Hx Ha. destruct (iderw_start_ok polls Hp _ _ _ _ _ Hdr Hb Hx Ha) as (s' & E & _). by exists s'.
Qed.

(** ** A controller, and requests to it *)

Module Example.

Record toy := Toy { toy_ctl : idectl; toy_busy : nat }.

(** After a command the controller is busy for two reads of its status; every
    command for sector 9 fails. *)
Definition toy_bad (k : Z * Z) : bool := k.2 =? 9.

#[export] Instance toy_ports : Ports toy := {|
  port_in p d :=
    if p =? 0x1f7 then
      match toy_busy d with
      | O => (if ct_err (toy_ctl d) then 0x41 else 0x40, d)
      | S n => (0x80, Toy (toy_ctl d) n)
      end
    else (0, d);
  port_in32 p d :=
    match ct_st (toy_ctl d) with
    | CRead l =>
        let v := toy_ctl d in
        (le_value (take 4 l), Toy (Ctl (ct_sect v) (ct_regs v) (CRead (drop 4 l)) (ct_err v)) (toy_busy d))
    | _ => (0, d)
    end;
  port_out p x d :=
    let v := toy_ctl d in
    if (0x1f2 <=? p) && (p <=? 0x1f6) then Toy (Ctl (ct_sect v) (<[p := x]> (ct_regs v)) (ct_st v) (ct_err v)) (toy_busy d)
    else if p =? 0x1f7 then
      match chs_of (ct_regs v) with
      | Some k =>
          if x =? 0x20 then Toy (Ctl (ct_sect v) (ct_regs v) (CRead (default [] (ct_sect v k))) (toy_bad k)) 2
          else Toy (Ctl (ct_sect v) (ct_regs v) (CFill k []) false) 2
      | None => d
      end
    else d;
|}.

#[export] Instance toy_ports32 : Ports32 toy := {|
  port_out32 p w d :=
    let v := toy_ctl d in
    match ct_st v with
    | CFill k l =>
        let l' := l ++ le_bytes 4 w in
        if Z.of_nat (length l') =? SECTOR_SIZE then
          Toy (Ctl (if toy_bad k then ct_sect v else upd k l' (ct_sect v)) (ct_regs v) CIdle (toy_bad k)) 2
        else Toy (Ctl (ct_sect v) (ct_regs v) (CFill k l') false) (toy_busy d)
    | _ => d
    end;
|}.

#[export] Program Instance toy_ide : IdeDisk toy := {|
  ide_ok d := (toy_busy d ≤ 2)%nat;
  ide_view := toy_ctl;
  ide_busy := toy_busy;
  ide_delay := 2;
|}.
Next Obligation. done. Qed.
Next Obligation.
  intros [v [|n]] H; cbn in *.
  - split; [done|]. split; [done|]. left. by destruct (ct_err v).
  - split; [lia|]. split; [done|]. right. split; [done|lia].
Qed.
Next Obligation.
  intros [v n] p x H Hn Hp Hx. cbn in *. by rewrite (proj2 (Z.leb_le _ _)), (proj2 (Z.leb_le _ _)) by lia.
Qed.
Next Obligation. by intros [v n] H Hn. Qed.
Next Obligation.
  intros [v n] k s H Hn Hk Hs. cbn in *. rewrite Hk. cbn. rewrite Hs. split; [lia|by eexists].
Qed.
Next Obligation. intros [v n] k s H Hn Hk Hs. cbn in *. rewrite Hk. cbn. split; [lia|by eexists]. Qed.
Next Obligation.
  intros [v n] l rest H Hn He Hst Hl. cbn in *. rewrite Hst. cbn. by rewrite take_app_length', drop_app_length', He by done.
Qed.
Next Obligation.
  intros [v n] k l w H Hst Hw. cbn -[le_bytes SECTOR_SIZE] in *. rewrite Hst.
  destruct (Z.eqb_spec (Z.of_nat (length (l ++ le_bytes 4 w))) SECTOR_SIZE) as [E|E]; cbn -[le_bytes SECTOR_SIZE].
  - split; [lia|]. split; [lia|]. intros _. by exists (toy_bad k).
  - split; [done|]. split; [|done]. intros _. by eexists.
Qed.

(** Three buffers: a read of sector 5, a write of sector 7, and a read of
    sector 7, which is asked for while the write is in progress. *)
Definition ex_data : block := replicate 512 3.
Definition ex_bufs : list ibuf :=
  [IBuf (Buf B_BUSY 0 5 0 0 (replicate 512 0)) None;
   IBuf (Buf (Z.lor B_BUSY B_DIRTY) 0 7 0 0 ex_data) None;
   IBuf (Buf B_BUSY 0 7 0 0 (replicate 512 0)) None].
Definition ex_ide : ide toy := Ide None false ex_bufs (Toy (Ctl (λ _, Some (replicate 512 1)) ∅ CIdle false) 0).

Definition run_ok {A} (c : M (ide toy) A) (s : ide toy) : ide toy := match c s with Ok _ s' => s' | _ => s end.
Definition ex_s1 : ide toy := run_ok (iderw_start 3 1) ex_ide.
Definition ex_s2 : ide toy := run_ok (iderw_start 3 2) ex_s1.
Definition ex_s3 : ide toy := run_ok (iderw_start 3 0) ex_s2.
Definition ex_s4 : ide toy := run_ok (ideintr 3) ex_s3.
Definition ex_s5 : ide toy := run_ok (ideintr 3) ex_s4.

Definition ex_buf (s : ide toy) (b : nat) : buf := default (Buf 0 0 0 0 0 []) (ib_buf <$> ide_bufs s !! b).
Definition ex_asked : list (nat * buf) := [(1%nat, ex_buf ex_ide 1); (2%nat, ex_buf ex_ide 2); (0%nat, ex_buf ex_ide 0)].
Definition ex_conf : ideconf toy :=
  IdeConf ex_s5 ex_asked
    [Done 1 (ex_buf ex_ide 1) false (ex_buf ex_s4 1); Done 2 (ex_buf ex_ide 2) false (ex_buf ex_s5 2)].

Lemma ex_sector z : byte_ok z → sector_ok (replicate 512 z).
Proof. intros Hz. split; [by rewrite length_replicate|]. by apply Forall_replicate. Qed.

Lemma ex_reach : rtc (idestep 3) (IdeConf ex_ide [] []) ex_conf.
Proof.
  eapply rtc_l; [eapply (step_rw 3 _ 1 (ex_buf ex_ide 1) ex_s1)|].
  { apply not_elem_of_nil. } { reflexivity. } { split; [by vm_compute|by apply ex_sector]. } { vm_compute. reflexivity. }
  eapply rtc_l; [eapply (step_rw 3 _ 2 (ex_buf ex_ide 2) ex_s2)|].
  { by apply (bool_decide_unpack (2%nat ∉ [1%nat])). } { vm_compute. reflexivity. }
  { split; [by vm_compute|by apply ex_sector]. } { vm_compute. reflexivity. }
  eapply rtc_l; [eapply (step_rw 3 _ 0 (ex_buf ex_ide 0) ex_s3)|].
  { by apply (bool_decide_unpack (0%nat ∉ [1%nat; 2%nat])). } { vm_compute. reflexivity. }
  { split; [by vm_compute|by apply ex_sector]. } { vm_compute. reflexivity. }
  eapply rtc_l; [eapply (step_intr 3 _ 1 (ex_buf ex_ide 1) (ex_buf ex_s4 1) ex_s4); vm_compute; reflexivity|].
  eapply rtc_l; [eapply (step_intr 3 _ 2 (ex_buf ex_ide 2) (ex_buf ex_s5 2) ex_s5); vm_compute; reflexivity|].
  match goal with |- rtc _ ?c _ => assert (c = ex_conf) as -> by (vm_compute; reflexivity) end. apply rtc_refl.
Qed.

Lemma ex_initial : ideinitial (IdeConf ex_ide [] []).
Proof.
  split; [done|]. split; [done|]. split; [done|]. split; [cbn; lia|]. intros k n _ _.
  eexists. split; [reflexivity|]. by apply ex_sector.
Qed.

(** The read that waited for the write sees what was written, and the read of
    sector 5 is next. *)
Lemma ide_correct_witness :
  b_data (ex_buf ex_s5 2) = ex_data ∧ (pending ex_conf).*1 = [0%nat] ∧
  (∀ i e, ic_done ex_conf !! i = Some e →
     finished (after (ct_sect (ide_view (ide_dev ex_ide))) (take i (ic_done ex_conf))) e) ∧
  queue_at (ide_bufs (ic_s ex_conf)) (idequeue (ic_s ex_conf)) (pending ex_conf).*1 ∧
  ∃ s, ideintr 3 (ic_s ex_conf) = Ok (fst <$> head (pending ex_conf)) s.
Proof.
  split; [vm_compute; reflexivity|]. split; [vm_compute; reflexivity|].
  assert (@ide_delay toy _ _ toy_ide < 3)%nat as Hp by (apply le_n).
  destruct (ide_correct 3 (IdeConf ex_ide [] []) ex_conf Hp ex_initial ex_reach)
    as (_ & Hq & Hf & _ & _ & Hi & _).
  split; [exact Hf|]. split; [exact Hq|exact Hi].
Defined.

End Example.
