(* ===== verification/Umalloc.v ===== *)
(** * The user memory allocator (umalloc.c)

    Over the bytes of the process.  A Header is two words, the pointer and
    the size in units of a header.  The free blocks are a ring in the order
    of their addresses; the theorem says that programs which call malloc and
    free keep what they put into their blocks. *)

From Stdlib Require Import Sorted.
From S2P Require Import Prelude Params Mem Mmu.

Definition HSIZE : Z := 8.

(** The memory and freep. *)
Record heap := Heap { h_mem : mem; h_freep : Z }.

Definition on_hmem {A} (m : M mem A) : M heap A := zoom h_mem (λ x s, Heap x (h_freep s)) m.
Definition set_freep (p : Z) : M heap unit := modify (λ s, Heap (h_mem s) p).

Definition h_ptr (p : Z) : M heap Z := on_hmem (load32 p).
Definition h_size (p : Z) : M heap Z := on_hmem (load32 (p + 4)).
Definition set_ptr (p x : Z) : M heap unit := on_hmem (store32 p x).
Definition set_hsize (p x : Z) : M heap unit := on_hmem (store32 (p + 4) x).

(** The loop of free: the free block behind which [bp] belongs. *)
Fixpoint free_find (fuel : nat) (bp p : Z) : M heap Z :=
  match fuel with
  | O => nofuel
  | S fuel =>
      q ← h_ptr p;
      if (p <? bp) && (bp <? q) then mret p
      else if (q <=? p) && ((p <? bp) || (bp <? q)) then mret p
      else free_find fuel bp q
  end.

(** Joining [bp] with the free block behind it, or linking it there. *)
Definition join_up (bp next : Z) : M heap unit :=
  n ← h_size bp;
  if u32 (bp + n * HSIZE) =? next then
    k ← h_size next;
    set_hsize bp (u32 (n + k));;
    q ← h_ptr next;
    set_ptr bp q
  else set_ptr bp next.

(** Joining [bp] with the free block [p] before it, or linking it there. *)
Definition join_down (p bp : Z) : M heap unit :=
  k ← h_size p;
  if u32 (p + k * HSIZE) =? bp then
    n ← h_size bp;
    set_hsize p (u32 (k + n));;
    q ← h_ptr bp;
    set_ptr p q
  else set_ptr p bp.

Definition free (fuel : nat) (ap : Z) : M heap unit :=
  let bp := u32 (ap - HSIZE) in
  p ← gets h_freep;
  p ← free_find fuel bp p;
  next ← h_ptr p;
  join_up bp next;;
  join_down p bp;;
  set_freep p.

Section malloc.
(** The system call, and the address of [base]. *)
Context (sbrk : Z → M heap Z) (base : Z).

Definition morecore (fuel : nat) (nu : Z) : M heap Z :=
  let nu := if nu <? 4096 then 4096 else nu in
  p ← sbrk (s32 (nu * HSIZE));
  if p =? -1 then mret 0
  else
    set_hsize p nu;;
    free fuel (u32 (p + HSIZE));;
    gets h_freep.

(** The loop of malloc. *)
Fixpoint malloc_loop (fuel ffuel : nat) (nunits prevp p : Z) : M heap Z :=
  match fuel with
  | O => nofuel
  | S fuel =>
      n ← h_size p;
      if nunits <=? n then
        (if n =? nunits then
           q ← h_ptr p;
           set_ptr prevp q;;
           set_freep prevp;;
           mret (u32 (p + HSIZE))
         else
           set_hsize p (u32 (n - nunits));;
           let p := u32 (p + (n - nunits) * HSIZE) in
           set_hsize p nunits;;
           set_freep prevp;;
           mret (u32 (p + HSIZE)))
      else
        fp ← gets h_freep;
        p ← (if p =? fp then morecore ffuel nunits else mret p);
        if p =? 0 then mret 0
        else
          q ← h_ptr p;
          malloc_loop fuel ffuel nunits p q
  end.

Definition malloc_units (nbytes : Z) : Z := u32 (u32 (nbytes + HSIZE - 1) / HSIZE + 1).

Definition malloc (fuel ffuel : nat) (nbytes : Z) : M heap Z :=
  let nunits := malloc_units nbytes in
  fp ← gets h_freep;
  prevp ← (if fp =? 0 then
             set_freep base;;
             set_ptr base base;;
             set_hsize base 0;;
             mret base
           else mret fp);
  p ← h_ptr prevp;
  malloc_loop fuel ffuel nunits prevp p.
End malloc.

(** A request near the largest uint wraps around to a block of one unit. *)
Lemma malloc_units_wrap : malloc_units (2 ^ 32 - 1) = 1.
Proof. reflexivity. Qed.

(** ** Memory *)

(** The [n] bytes at [a] are mapped. *)
Definition owned (m : mem) (a n : Z) : Prop := ∀ x, a ≤ x < a + n → is_Some (m !! x).

Definition put32 (a x : Z) (m : mem) : mem := put_bytes a (le_bytes 4 x) m.

Lemma owned_mapped m a n b : owned m a n → a ≤ b → b + 4 ≤ a + n → mapped m b 4.
Proof. intros H H1 H2 i Hi. apply H. lia. Qed.

Lemma owned_sub m a n b k : owned m a n → a ≤ b → b + k ≤ a + n → owned m b k.
Proof. intros H H1 H2 x Hx. apply H. lia. Qed.

Lemma put32_ne a x m y : y < a ∨ a + 4 ≤ y → put32 a x m !! y = m !! y.
Proof. intros H. apply lookup_put_bytes_ne. rewrite length_le_bytes. lia. Qed.

Lemma get32_put32 a x m : 0 ≤ x < 2 ^ 32 → get32 (put32 a x m) a = Some x.
Proof. intros H. unfold put32. by rewrite get32_put_eq, u32_small. Qed.

Lemma get32_put32_ne a x m b : b + 4 ≤ a ∨ a + 4 ≤ b → get32 (put32 a x m) b = get32 m b.
Proof. intros H. apply get32_put_ne. rewrite length_le_bytes. lia. Qed.

Lemma put32_some a x m y : is_Some (m !! y) → is_Some (put32 a x m !! y).
Proof.
  intros H. unfold put32. rewrite lookup_put_bytes. case_decide; [|done].
  apply lookup_lt_is_Some_2. lia.
Qed.

Lemma h_ptr_ok m f p x : get32 m p = Some x → h_ptr p (Heap m f) = Ok x (Heap m f).
Proof. intros H. unfold h_ptr, on_hmem. by rewrite (zoom_ok h_mem _ _ (Heap m f) x m (load32_ok m p x H)). Qed.

Lemma h_size_ok m f p x : get32 m (p + 4) = Some x → h_size p (Heap m f) = Ok x (Heap m f).
Proof. intros H. unfold h_size, on_hmem. by rewrite (zoom_ok h_mem _ _ (Heap m f) x m (load32_ok m (p + 4) x H)). Qed.

Lemma set_ptr_ok m f p x : mapped m p 4 → set_ptr p x (Heap m f) = Ok tt (Heap (put32 p x m) f).
Proof. intros H. unfold set_ptr, on_hmem. by rewrite (zoom_ok h_mem _ _ (Heap m f) tt (put32 p x m) (store32_ok m p x H)). Qed.

Lemma set_hsize_ok m f p x : mapped m (p + 4) 4 → set_hsize p x (Heap m f) = Ok tt (Heap (put32 (p + 4) x m) f).
Proof. intros H. unfold set_hsize, on_hmem. by rewrite (zoom_ok h_mem _ _ (Heap m f) tt (put32 (p + 4) x m) (store32_ok m (p + 4) x H)). Qed.

(** ** The free list

    A block is the address of its header and its size in units. *)

Definition bend (x : Z * Z) : Z := x.1 + HSIZE * x.2.

Definition hd_addr (l : list (Z * Z)) (e : Z) : Z := match l with x :: _ => x.1 | [] => e end.

(** The headers of the blocks are linked in this order, the last one to [e]. *)
Fixpoint links (m : mem) (l : list (Z * Z)) (e : Z) : Prop :=
  match l with
  | [] => True
  | x :: l => get32 m x.1 = Some (hd_addr l e) ∧ get32 m (x.1 + 4) = Some x.2 ∧ links m l e
  end.

(** The blocks are in increasing order of addresses from [lo] on, no two of
    them touch, and none is empty. *)
Fixpoint above (lo : Z) (l : list (Z * Z)) : Prop :=
  match l with
  | [] => True
  | x :: l => lo < x.1 ∧ 1 ≤ x.2 ∧ bend x < 2 ^ 32 ∧ above (bend x) l
  end.

Definition fin (lo : Z) (l : list (Z * Z)) : Z := foldl (λ _, bend) lo l.

Lemma links_app m l1 l2 e : links m (l1 ++ l2) e ↔ links m l1 (hd_addr l2 e) ∧ links m l2 e.
Proof.
  induction l1 as [|x l1 IH]; cbn [app links]; [naive_solver|]. rewrite IH.
  assert (hd_addr (l1 ++ l2) e = hd_addr l1 (hd_addr l2 e)) as -> by (by destruct l1). naive_solver.
Qed.

Lemma above_app lo l1 l2 : above lo (l1 ++ l2) ↔ above lo l1 ∧ above (fin lo l1) l2.
Proof. revert lo. induction l1 as [|x l1 IH]; intros lo; cbn [app above fin foldl]; [naive_solver|]. rewrite IH. unfold fin. naive_solver. Qed.

Lemma fin_snoc lo l x : fin lo (l ++ [x]) = bend x.
Proof. unfold fin. by rewrite foldl_app. Qed.

Lemma above_weaken lo lo' l : lo' ≤ lo → above lo l → above lo' l.
Proof. destruct l; [done|]. cbn. intros H (? & ? & ? & ?). repeat split; [lia|done..]. Qed.

Lemma above_in lo l x : above lo l → x ∈ l → lo < x.1 ∧ 1 ≤ x.2 ∧ bend x < 2 ^ 32.
Proof.
  revert lo. induction l as [|y l IH]; intros lo; [by intros _ ?%not_elem_of_nil|]. cbn. intros (H1 & H2 & H3 & H4) [->|Hx]%elem_of_cons; [done|].
  destruct (IH _ H4 Hx) as (H5 & H6 & H7). unfold bend, HSIZE in *. lia.
Qed.

Lemma above_order lo l1 l2 x y : above lo (l1 ++ l2) → x ∈ l1 → y ∈ l2 → bend x < y.1.
Proof.
  revert lo. induction l1 as [|z l1 IH]; intros lo; [by intros _ ?%not_elem_of_nil|]. cbn. intros (H1 & H2 & H3 & H4) [->|Hx]%elem_of_cons Hy.
  - apply (above_in _ (l1 ++ l2)); [done|]. apply elem_of_app. by right.
  - by apply (IH (bend z)).
Qed.

(** Links are in the headers only. *)
Lemma links_ext m m' l e : (∀ x y, x ∈ l → x.1 ≤ y < x.1 + HSIZE → m' !! y = m !! y) → links m l e → links m' l e.
Proof.
  unfold HSIZE. induction l as [|x l IH]; [done|]. cbn [links]. intros H (H1 & H2 & H3).
  assert (∀ b, x.1 ≤ b → b + 4 ≤ x.1 + 8 → get32 m' b = get32 m b) as Hg.
  { intros b Hb1 Hb2. apply get32_ext. intros i Hi. apply (H x); [by left|lia]. }
  rewrite !Hg by lia. split; [done|]. split; [done|]. apply IH; [|done]. intros y z Hy. apply H. by right.
Qed.

(** ** The arena *)

Section arena.
Context (base : Z).

(** The state between calls: [fl] are the free blocks, linked in a ring with
    [base], and [al] the allocated ones.  Every byte is in at most one block,
    and no two free blocks touch. *)
Record arena (m : mem) (f : Z) (fl : list (Z * Z)) (al : gmap Z Z) : Prop := Arena {
  ar_links : links m ((base, 0) :: fl) base;
  ar_above : above (base + 7) fl;
  ar_freep : f ∈ ((base, 0) :: fl).*1;
  ar_base : 0 < base ∧ base + HSIZE < 2 ^ 32 ∧ owned m base HSIZE;
  ar_owned x : x ∈ fl → owned m x.1 (HSIZE * x.2);
  ar_alloc a n : al !! a = Some n → 1 ≤ n ∧ base + HSIZE ≤ a ∧ a + HSIZE * n < 2 ^ 32 ∧
    get32 m (a + 4) = Some n ∧ owned m a (HSIZE * n);
  ar_sep a n b k : al !! a = Some n → al !! b = Some k → a ≠ b → a + HSIZE * n ≤ b ∨ b + HSIZE * k ≤ a;
  ar_free x a n : x ∈ fl → al !! a = Some n → bend x ≤ a ∨ a + HSIZE * n ≤ x.1;
}.

(** The free blocks below and above an address that is in none of them. *)
Lemma split_at fl lo a n :
  above lo fl → (∀ x, x ∈ fl → bend x ≤ a ∨ a + n ≤ x.1) → 0 < n →
  ∃ l1 l2, fl = l1 ++ l2 ∧ (∀ x, x ∈ l1 → bend x ≤ a) ∧ ∀ x, x ∈ l2 → a + n ≤ x.1.
Proof.
  revert lo. induction fl as [|y fl IH]; intros lo Hab Hap Hn.
  { exists [], []. split; [done|]. by split; intros x ?%not_elem_of_nil. }
  pose proof Hab as (H1 & H2 & H3 & H4). destruct (Hap y ltac:(by left)) as [Hy|Hy].
  - destruct (IH _ H4) as (l1 & l2 & -> & Hl1 & Hl2); [intros; apply Hap; by right|done|].
    exists (y :: l1), l2. split; [done|]. split; [|done]. by intros x [->|?%Hl1]%elem_of_cons.
  - exists [], (y :: fl). split; [done|]. split; [by intros x ?%not_elem_of_nil|]. intros x [->|Hx]%elem_of_cons; [done|].
    destruct (above_in _ _ _ H4 Hx) as (H5 & _). unfold bend, HSIZE in *. lia.
Qed.

(** ** free *)

(** The search goes on from a block below [bp] to the last of them. *)
Lemma find_below l1 t k post f fuel m bp :
  links m (l1 ++ (t, k) :: post) base → (∀ x, x ∈ l1 → x.1 < bp ∧ x.1 < t) → StronglySorted (λ x y, x.1 < y.1) l1 →
  t < bp → bp < hd_addr post (2 ^ 33) → base ≤ t → base < bp → (length l1 < fuel)%nat →
  free_find fuel bp (hd_addr l1 t) (Heap m f) = Ok t (Heap m f).
Proof.
  revert fuel. induction l1 as [|x l1 IH]; intros fuel Hl Hx Hs Ht Hp Hbt Hb Hf; (destruct fuel as [|fuel]; [cbn in Hf; lia|]); cbn [free_find hd_addr].
  - cbn [app links fst snd] in Hl. destruct Hl as (H1 & _ & _). mstep (h_ptr_ok m f t _ H1).
    destruct post as [|y post]; cbn [hd_addr] in *.
    + rewrite (proj2 (Z.ltb_ge bp base)) by lia. rewrite andb_false_r. rewrite (proj2 (Z.leb_le base t)), (proj2 (Z.ltb_lt t bp)) by lia. done.
    + rewrite (proj2 (Z.ltb_lt t bp)), (proj2 (Z.ltb_lt bp y.1)) by lia. done.
  - cbn [app links] in Hl. destruct Hl as (H1 & _ & Hl). mstep (h_ptr_ok m f x.1 _ H1).
    assert (hd_addr (l1 ++ (t, k) :: post) base = hd_addr l1 t) as Eh by (by destruct l1).
    rewrite Eh. apply StronglySorted_inv in Hs as [Hs Hall].
    assert (hd_addr l1 t < bp ∧ x.1 < hd_addr l1 t) as [H2 H3].
    { destruct l1 as [|y l1]; cbn; [split; [done|by apply (Hx x); left]|]. split; [by apply (Hx y); right; left|].
      by apply Forall_cons in Hall as [? _]. }
    rewrite (proj2 (Z.ltb_ge bp _)) by lia. rewrite andb_false_r. rewrite (proj2 (Z.leb_gt _ x.1)) by lia. cbn [andb].
    apply IH; [done| |done..|cbn in Hf; lia]. intros y Hy. apply Hx. by right.
Qed.

(** From a block above [bp] it goes round the ring to [base]. *)
Lemma find_above l2 f fuel m bp lo :
  links m l2 base → above lo l2 → (∀ x, x ∈ l2 → bp < x.1) → base < bp →
  free_find (length l2 + fuel) bp (hd_addr l2 base) (Heap m f) = free_find fuel bp base (Heap m f).
Proof.
  revert lo. induction l2 as [|x l2 IH]; intros lo Hl Hab Hx Hb; [done|]. cbn [length Nat.add free_find hd_addr].
  cbn [links] in Hl. destruct Hl as (H1 & _ & Hl). mstep (h_ptr_ok m f x.1 _ H1). pose proof (Hx x ltac:(by left)) as Hbx.
  rewrite (proj2 (Z.ltb_ge x.1 bp)) by lia. cbn [andb orb]. destruct Hab as (A1 & A2 & A3 & A4).
  assert ((hd_addr l2 base <=? x.1) && (bp <? hd_addr l2 base) = false) as ->.
  { destruct l2 as [|y l2]; cbn [hd_addr].
    - rewrite (proj2 (Z.ltb_ge bp base)) by lia. apply andb_false_r.
    - destruct A4 as (A5 & _). rewrite (proj2 (Z.leb_gt y.1 x.1)) by (unfold bend, HSIZE in A5; lia). done. }
  apply (IH (bend x)); [done|done| |done]. intros y Hy. apply Hx. by right.
Qed.

Lemma sorted_app (l1 l2 : list (Z * Z)) : StronglySorted (λ x y, x.1 < y.1) (l1 ++ l2) → StronglySorted (λ x y, x.1 < y.1) l1 ∧ StronglySorted (λ x y, x.1 < y.1) l2.
Proof.
  induction l1 as [|x l1 IH]; cbn [app]; [split; [constructor|done]|]. intros [Hs Hall]%StronglySorted_inv. destruct (IH Hs) as [H1 H2].
  split; [|done]. constructor; [done|]. by apply Forall_app in Hall as [? _].
Qed.

Lemma sorted_lt (l r : list (Z * Z)) x y : StronglySorted (λ x y, x.1 < y.1) (l ++ x :: r) → y ∈ l → y.1 < x.1.
Proof.
  induction l as [|z l IH]; [by intros _ ?%not_elem_of_nil|]. cbn [app]. intros [Hs Hall]%StronglySorted_inv [->|Hy]%elem_of_cons; [|by apply IH].
  rewrite Forall_forall in Hall. apply Hall, elem_of_app. right. by left.
Qed.

Lemma above_sorted lo l : above lo l → StronglySorted (λ x y, x.1 < y.1) l.
Proof.
  revert lo. induction l as [|x l IH]; intros lo; [constructor|]. cbn. intros (H1 & H2 & H3 & H4). constructor; [by apply (IH (bend x))|].
  apply Forall_forall. intros y Hy. destruct (above_in _ _ _ H4 Hy) as (H5 & _). unfold bend, HSIZE in H5. lia.
Qed.

Lemma nodes_sorted fl : above (base + 7) fl → StronglySorted (λ x y, x.1 < y.1) ((base, 0) :: fl).
Proof.
  intros H. constructor; [by eapply above_sorted|]. apply Forall_forall. intros y Hy. destruct (above_in _ _ _ H Hy) as (H5 & _). cbn. lia.
Qed.

(** Wherever freep is, the search ends at the last block below [a]. *)
Lemma find_ok m f fl al l1 l2 pre t kt a fuel :
  arena m f fl al → fl = l1 ++ l2 → (base, 0) :: l1 = pre ++ [(t, kt)] → (∀ x, x ∈ l1 → bend x ≤ a) → (∀ x, x ∈ l2 → a < x.1) →
  base < a < 2 ^ 32 → (length fl + 2 ≤ fuel)%nat → free_find fuel a f (Heap m f) = Ok t (Heap m f).
Proof.
  intros [Hli Hab Hf _ _ _ _ _] -> Epre Hl1 Hl2 Ha Hfuel.
  assert ((base, 0) :: l1 ++ l2 = pre ++ (t, kt) :: l2) as En by (by rewrite app_comm_cons, Epre, <- app_assoc).
  assert (length pre = length l1) as Elen by (apply (f_equal length) in Epre; cbn in Epre; rewrite length_app in Epre; cbn in Epre; lia).
  pose proof (nodes_sorted _ Hab) as Hs. rewrite En in Hli, Hs, Hf.
  assert (∀ x, x ∈ pre ++ [(t, kt)] → base ≤ x.1 < a) as Hlow.
  { rewrite <- Epre. intros x [->|Hx]%elem_of_cons; [cbn; lia|]. pose proof (Hl1 x Hx) as Hx1.
    destruct (above_in _ (l1 ++ l2) x Hab) as (H1 & H2 & _); [apply elem_of_app; by left|]. unfold bend, HSIZE in Hx1. lia. }
  assert (base ≤ t < a) as Ht by (apply (Hlow (t, kt)), elem_of_app; right; by left).
  assert (a < hd_addr l2 (2 ^ 33)) as Hpost by (destruct l2 as [|y l2]; [cbn; lia|apply Hl2; by left]).
  assert (∀ p1 p2 fuel, pre = p1 ++ p2 → (length p2 < fuel)%nat → free_find fuel a (hd_addr p2 t) (Heap m f) = Ok t (Heap m f)) as Hgo.
  { clear fuel Hfuel. intros p1 p2 fuel E Hfuel. rewrite E, <- app_assoc in Hs, Hli. apply links_app in Hli as [_ Hli]. apply sorted_app in Hs as [_ Hs].
    apply (find_below p2 t kt l2); [done| | |lia|done|lia|lia|done].
    - intros x Hx. split; [apply (Hlow x); rewrite E, !elem_of_app; auto|by apply (sorted_lt p2 l2 (t, kt))].
    - by apply sorted_app in Hs as [Hs _]. }
  apply list_elem_of_fmap in Hf as (x & -> & Hx). apply elem_of_app in Hx as [Hx|[->|Hx]%elem_of_cons].
  - apply list_elem_of_split in Hx as (p1 & p2 & E). apply (Hgo p1 (x :: p2)); [done|]. rewrite length_app in Hfuel.
    apply (f_equal length) in E. rewrite length_app in E. cbn in E |- *. lia.
  - apply (Hgo pre []); [by rewrite app_nil_r|]. cbn. lia.
  - apply list_elem_of_split in Hx as (q1 & q2 & E). rewrite E in Hli, Hab, Hfuel.
    rewrite !length_app in Hfuel. cbn [length] in Hfuel.
    replace fuel with (length (x :: q2) + (fuel - length (x :: q2)))%nat by (cbn [length]; lia).
    apply links_app in Hli as [_ (_ & _ & Hli)]. apply links_app in Hli as [_ Hli]. apply above_app in Hab as [_ Hab]. apply above_app in Hab as [_ Hab].
    rewrite (find_above (x :: q2) _ _ _ _ _ Hli Hab) by (try lia; intros y Hy; apply Hl2; rewrite E; apply elem_of_app; by right).
    assert (hd_addr pre t = base) as <- by (destruct pre; [by injection Epre|by injection Epre as <- _]).
    apply (Hgo []); [done|]. cbn [length]. lia.
Qed.

(** The block of [k] units at [b] has no byte of the blocks [l]. *)
Definition apart (b k : Z) (l : list (Z * Z)) : Prop := ∀ x, x ∈ l → bend x ≤ b ∨ b + HSIZE * k ≤ x.1.

Lemma hd_range lo l : above lo l → 0 ≤ lo → 0 ≤ base < 2 ^ 32 → 0 ≤ hd_addr l base < 2 ^ 32.
Proof. destruct l as [|x l]; [done|]. cbn [above hd_addr]. unfold bend, HSIZE. lia. Qed.

(** A block [(a, n)] in front of the free blocks [l2]: what is behind it is
    linked to it, and joined when it touches. *)
Lemma join_up_ok m f l2 a n lo :
  links m l2 base → above (a + HSIZE * n - 1) l2 → (∀ x, x ∈ l2 → owned m x.1 (HSIZE * x.2)) → get32 m (a + 4) = Some n → owned m a (HSIZE * n) →
  1 ≤ n → 0 < base < a → lo < a → a + HSIZE * n < 2 ^ 32 →
  ∃ m' n' l3, join_up a (hd_addr l2 base) (Heap m f) = Ok tt (Heap m' f) ∧ links m' ((a, n') :: l3) base ∧ above lo ((a, n') :: l3) ∧
    n ≤ n' ∧ owned m a (HSIZE * n') ∧ (∀ x, x ∈ l3 → x ∈ l2) ∧ (∀ b k, 1 ≤ k → apart b k ((a, n) :: l2) → apart b k ((a, n') :: l3)) ∧
    (∀ y, y < a ∨ a + HSIZE ≤ y → m' !! y = m !! y) ∧ (∀ y, is_Some (m !! y) → is_Some (m' !! y)) ∧ (length l3 ≤ length l2)%nat.
Proof.
  intros Hli Hab Hown Hn Ho H1 Hb Hlo Hend. unfold join_up, HSIZE in *. mstep (h_size_ok m f a n Hn). rewrite u32_small by lia.
  assert (mapped m a 4 ∧ mapped m (a + 4) 4) as [Hm1 Hm2] by (split; apply (owned_mapped m a (8 * n)); (done || lia)).
  destruct (Z.eqb_spec (a + n * 8) (hd_addr l2 base)) as [E|E].
  - destruct l2 as [|[b k] l3]; cbn [hd_addr fst] in E; [lia|]. subst b. cbn [links above fst snd] in Hli, Hab. destruct Hli as (L1 & L2 & L3), Hab as (A1 & A2 & A3 & A4).
    unfold bend, HSIZE in A3, A4. cbn [fst snd] in A3, A4. cbn [hd_addr fst]. mstep (h_size_ok m f _ k L2). rewrite u32_small by lia. mstep (set_hsize_ok m f a (n + k) Hm2).
    rewrite <- (get32_put32_ne (a + 4) (n + k) m) in L1 by lia. mstep (h_ptr_ok _ f _ _ L1).
    rewrite set_ptr_ok by (intros i Hi; apply put32_some, Hm1, Hi). pose proof (hd_range _ _ A4 ltac:(lia) ltac:(lia)) as Hhd.
    eexists _, (n + k), l3. split; [reflexivity|]. split; [|split].
    + cbn [links fst snd]. rewrite (get32_put32_ne a _ _ (a + 4)), !get32_put32 by lia.
      split; [done|]. split; [done|]. apply (links_ext m); [|done]. intros x y Hx Hy. destruct (above_in _ _ _ A4 Hx) as (Hx1 & _). rewrite !put32_ne by lia. done.
    + cbn [above fst snd]. unfold bend, HSIZE. cbn [fst snd]. split; [done|]. split; [lia|]. split; [lia|]. by replace (a + 8 * (n + k)) with (a + n * 8 + 8 * k) by lia.
    + split; [lia|]. split; [|split; [intros x Hx; by right|split; [|split; [|split; [|cbn; lia]]]]].
      * intros y Hy. destruct (decide (y < a + 8 * n)); [apply Ho; lia|]. apply (Hown (a + n * 8, k)); [by left|cbn; lia].
      * intros b c Hc Hx x [->|Hin]%elem_of_cons; [|apply Hx; by do 2 right].
        pose proof (Hx (a, n) ltac:(by left)) as X1. pose proof (Hx (a + n * 8, k) ltac:(by right; left)) as X2.
        unfold bend, HSIZE in *. cbn [fst snd] in *. lia.
      * intros y Hy. rewrite !put32_ne by lia. done.
      * intros y Hy. by do 2 apply put32_some.
  - rewrite set_ptr_ok by done. exists (put32 a (hd_addr l2 base) m), n, l2. split; [done|].
    pose proof (hd_range _ _ Hab ltac:(lia) ltac:(lia)) as Hhd. split; [|split].
    + cbn [links fst snd]. rewrite (get32_put32_ne a _ m (a + 4)), get32_put32 by lia.
      split; [done|]. split; [done|]. apply (links_ext m); [|done]. intros x y Hx Hy. destruct (above_in _ _ _ Hab Hx) as (Hx1 & _). rewrite put32_ne by lia. done.
    + cbn [above fst snd]. unfold bend, HSIZE. cbn [fst snd]. split; [done|]. split; [lia|]. split; [lia|].
      destruct l2 as [|y l2]; [done|]. cbn [above hd_addr] in *. destruct Hab as (A1 & A2). split; [lia|done].
    + split; [lia|]. split; [done|]. split; [done|]. split; [done|]. split; [intros y Hy; apply put32_ne; lia|]. split; [intros y; apply put32_some|done].
Qed.

(** The block [(t, kt)] before [(a, n)] is linked to it, and joined when it
    touches; [t] is [base] or a free block. *)
Lemma join_down_ok m f l1 pre t kt a n l3 :
  (base, 0) :: l1 = pre ++ [(t, kt)] → links m pre t → get32 m (t + 4) = Some kt → links m ((a, n) :: l3) base →
  above (base + 7) l1 → above (fin (base + 7) l1 - 1) ((a, n) :: l3) → 0 < base → base + HSIZE ≤ a →
  owned m base HSIZE → (∀ x, x ∈ l1 ++ (a, n) :: l3 → owned m x.1 (HSIZE * x.2)) →
  ∃ m' fl', join_down t a (Heap m f) = Ok tt (Heap m' f) ∧ links m' ((base, 0) :: fl') base ∧ above (base + 7) fl' ∧ t ∈ ((base, 0) :: fl').*1 ∧
    (∀ x, x ∈ fl' → owned m x.1 (HSIZE * x.2)) ∧ (∃ x, x ∈ fl' ∧ n ≤ x.2) ∧
    (∀ b k, 1 ≤ k → apart b k (l1 ++ (a, n) :: l3) → apart b k fl') ∧
    (∀ y, y < t ∨ t + HSIZE ≤ y → m' !! y = m !! y) ∧ (∀ y, is_Some (m !! y) → is_Some (m' !! y)) ∧ (length fl' ≤ S (length l1 + length l3))%nat.
Proof.
  intros En Hpre Hkt Hli Hab1 Hab3 Hb Hba Hob Hown. unfold join_down. mstep (h_size_ok m f t kt Hkt).
  pose proof Hab3 as (A1 & A2 & A3 & A4). cbn [fst snd] in A1, A2. unfold bend, HSIZE in A3, A4. cbn [fst snd] in A3, A4.
  pose proof Hli as (L1 & L2 & L3). cbn [fst snd] in L1, L2. unfold HSIZE in Hba.
  assert (pre = [] ∧ l1 = [] ∧ t = base ∧ kt = 0 ∨ ∃ l1', pre = (base, 0) :: l1' ∧ l1 = l1' ++ [(t, kt)]) as Hcase.
  { destruct pre as [|x pre]; cbn in En; [injection En as <- <- ->; by left|]. injection En as <- ->. right. by exists pre. }
  assert (base ≤ t ∧ t + 8 ≤ a ∧ 0 ≤ kt ∧ t + 8 * kt ≤ a ∧ owned m t HSIZE) as (T1 & T2 & T3 & T4 & T5).
  { destruct Hcase as [(_ & _ & -> & ->)|(l1' & _ & ->)]; [split; [lia|]; by repeat split; try lia|].
    rewrite fin_snoc in A1. destruct (above_in _ _ (t, kt) Hab1) as (H1 & H2 & H3); [apply elem_of_app; right; by left|]. unfold bend, HSIZE in *. cbn [fst snd] in *.
    repeat split; try lia. apply (owned_sub m t (8 * kt)); [|lia|lia]. apply (Hown (t, kt)). rewrite !elem_of_app. left. right. by left. }
  assert (mapped m t 4 ∧ mapped m (t + 4) 4) as [Hm1 Hm2] by (unfold HSIZE in T5; split; apply (owned_mapped m t 8); (done || lia)).
  assert (∀ x, x ∈ pre → x.1 + 8 ≤ t) as Hlt.
  { intros x Hx. destruct Hcase as [(-> & _)|(l1' & -> & ->)]; [by apply not_elem_of_nil in Hx|].
    apply elem_of_cons in Hx as [->|Hx].
    - destruct (above_in _ _ (t, kt) Hab1) as (H1 & _); [apply elem_of_app; right; by left|]. cbn [fst snd] in *. lia.
    - pose proof (above_order _ _ _ x (t, kt) Hab1 Hx ltac:(by left)) as H1. destruct (above_in _ _ x Hab1) as (_ & H2 & _); [apply elem_of_app; by left|].
      unfold bend, HSIZE in H1. cbn in H1. lia. }
  assert (∀ m', (∀ y, y < t ∨ t + 8 ≤ y → m' !! y = m !! y) → links m' pre t ∧ links m' ((a, n) :: l3) base) as Hframe.
  { intros m' Hm'. split; (eapply links_ext; [|done]); intros x y Hx Hy; apply Hm'; unfold HSIZE in Hy.
    - specialize (Hlt x Hx). lia.
    - destruct (above_in _ _ x Hab3 Hx) as (H1 & _). apply elem_of_cons in Hx as [->|Hx]; [cbn [fst snd fin foldl] in *; lia|]. destruct (above_in _ _ x A4 Hx) as (H2 & _). lia. }
  rewrite u32_small by (unfold HSIZE; lia). unfold HSIZE. destruct (Z.eqb_spec (t + kt * 8) a) as [E|E].
  - destruct Hcase as [(_ & _ & -> & ->)|(l1' & -> & ->)]; [lia|]. mstep (h_size_ok m f a n L2). rewrite u32_small by lia.
    mstep (set_hsize_ok m f t (kt + n) Hm2). rewrite <- (get32_put32_ne (t + 4) (kt + n) m) in L1 by lia. mstep (h_ptr_ok _ f _ _ L1).
    rewrite set_ptr_ok by (intros i Hi; apply put32_some, Hm1, Hi). pose proof (hd_range _ _ A4 ltac:(lia) ltac:(lia)) as Hhd.
    set (m' := put32 t _ _). assert (∀ y, y < t ∨ t + 8 ≤ y → m' !! y = m !! y) as Hm' by (intros y Hy; unfold m'; rewrite !put32_ne by lia; done).
    destruct (Hframe m' Hm') as [F1 F2]. exists m', (l1' ++ (t, kt + n) :: l3). split; [done|]. split; [|split; [|split; [|split; [|split; [|split; [|split; [done|split]]]]]]].
    + change ((base, 0) :: l1' ++ (t, kt + n) :: l3) with (((base, 0) :: l1') ++ (t, kt + n) :: l3). apply links_app. split; [done|].
      cbn [links fst snd] in F2 |- *. split; [unfold m'; by rewrite get32_put32|]. split; [|apply F2]. unfold m'. rewrite get32_put32_ne, get32_put32 by lia. done.
    + apply above_app in Hab1 as [B1 (B2 & B3 & B4 & _)]. apply above_app. split; [done|]. cbn [above]. unfold bend, HSIZE in *. cbn [fst snd] in *.
      split; [done|]. split; [lia|]. split; [lia|]. by replace (t + 8 * (kt + n)) with (a + 8 * n) by lia.
    + right. apply list_elem_of_fmap. exists (t, kt + n). split; [done|]. apply elem_of_app. right. by left.
    + intros x [Hx|[->|Hx]%elem_of_cons]%elem_of_app; [apply Hown; rewrite !elem_of_app; auto| |apply Hown; rewrite !elem_of_app; right; by right].
      intros y Hy. cbn [fst snd] in Hy. destruct (decide (y < a)).
      * apply (Hown (t, kt)); [rewrite !elem_of_app; left; right; by left|unfold HSIZE; cbn [fst snd]; lia].
      * apply (Hown (a, n)); [rewrite !elem_of_app; right; by left|unfold HSIZE; cbn [fst snd]; lia].
    + exists (t, kt + n). split; [apply elem_of_app; right; by left|cbn; lia].
    + intros b k Hk Hap x [Hx|[->|Hx]%elem_of_cons]%elem_of_app; [apply Hap; rewrite !elem_of_app; auto| |apply Hap; rewrite !elem_of_app; right; by right].
      pose proof (Hap (t, kt) ltac:(rewrite !elem_of_app; left; right; by left)) as X1. pose proof (Hap (a, n) ltac:(rewrite !elem_of_app; right; by left)) as X2.
      unfold bend, HSIZE in *. cbn [fst snd] in *. lia.
    + intros y Hy. unfold m'. by do 2 apply put32_some.
    + rewrite !length_app. cbn. lia.
  - rewrite set_ptr_ok by done. set (m' := put32 t _ _). assert (∀ y, y < t ∨ t + 8 ≤ y → m' !! y = m !! y) as Hm' by (intros y Hy; unfold m'; by rewrite put32_ne by lia).
    destruct (Hframe m' Hm') as [F1 F2]. exists m', (l1 ++ (a, n) :: l3). split; [done|]. split; [|split; [|split; [|split; [done|split; [|split; [done|split; [done|split]]]]]]].
    + rewrite app_comm_cons, En, <- app_assoc. apply links_app. split; [done|]. cbn [app links fst snd]. split; [unfold m'; rewrite get32_put32 by lia; done|].
      split; [|done]. unfold m'. by rewrite get32_put32_ne by lia.
    + apply above_app. split; [done|]. cbn [above fst snd]. unfold bend, HSIZE. cbn [fst snd]. split; [|split; [lia|split; [lia|done]]].
      destruct Hcase as [(_ & -> & -> & ->)|(l1' & _ & ->)]; [cbn [fst snd fin foldl] in *; lia|]. rewrite fin_snoc in A1 |- *. unfold bend, HSIZE in *. cbn [fst snd] in *. lia.
    + rewrite app_comm_cons, fmap_app, En. apply elem_of_app. left. apply list_elem_of_fmap. exists (t, kt). split; [done|]. apply elem_of_app. right. by left.
    + exists (a, n). split; [apply elem_of_app; right; by left|cbn; lia].
    + intros y Hy. by apply put32_some.
    + rewrite length_app. cbn. lia.
Qed.

Lemma above_raise lo lo' l : above lo l → (∀ x, x ∈ l → lo' < x.1) → above lo' l.
Proof. destruct l as [|x l]; [done|]. cbn. intros (H1 & H2) H. split; [apply H; by left|done]. Qed.

(** What is in the allocated blocks, headers included, is left alone. *)
Definition kept (al : gmap Z Z) (m m' : mem) : Prop := ∀ b k y, al !! b = Some k → b ≤ y < b + HSIZE * k → m' !! y = m !! y.

(** An arena whose free blocks changed. *)
Lemma arena_change m f fl al m' f' fl' al' :
  arena m f fl al → links m' ((base, 0) :: fl') base → above (base + 7) fl' → f' ∈ ((base, 0) :: fl').*1 →
  (∀ x, x ∈ fl' → owned m' x.1 (HSIZE * x.2)) → (∀ y, is_Some (m !! y) → is_Some (m' !! y)) → al' ⊆ al → kept al' m m' →
  (∀ b k, al' !! b = Some k → apart b k fl') → arena m' f' fl' al'.
Proof.
  intros [_ _ _ (B1 & B2 & B3) _ Hal Hsep _] H1 H2 H3 H4 H5 Hsub Hk Hap.
  assert (∀ b n, owned m b n → owned m' b n) as Ho by (intros b n Hb y Hy; by apply H5, Hb). split; [done|done|done| | | | |].
  - split; [done|]. split; [done|by apply Ho].
  - done.
  - intros a n Ha. destruct (Hal a n) as (A1 & A2 & A3 & A4 & A5); [by eapply lookup_weaken|]. split; [done|]. split; [done|]. split; [done|]. split; [|by apply Ho].
    rewrite <- A4. apply get32_ext. intros i Hi. apply (Hk a n); [done|]. unfold HSIZE. lia.
  - intros a n b k Ha Hb. apply Hsep; by eapply lookup_weaken.
  - intros x a n Hx Ha. by apply (Hap a n).
Qed.

Lemma free_ok m f fl al a n fuel :
  arena m f fl al → al !! a = Some n → (length fl + 2 ≤ fuel)%nat →
  ∃ m' f' fl', free fuel (a + HSIZE) (Heap m f) = Ok tt (Heap m' f') ∧ arena m' f' fl' (delete a al) ∧ kept (delete a al) m m' ∧
    (∃ x, x ∈ fl' ∧ n ≤ x.2) ∧ (length fl' ≤ S (length fl))%nat.
Proof.
  intros Har Ha Hfuel. pose proof Har as [Hli Hab _ (B1 & B2 & B3) Hown Hal Hsep Hfr]. destruct (Hal a n Ha) as (A1 & A2 & A3 & A4 & A5). unfold HSIZE in A2, A3.
  destruct (split_at fl (base + 7) a (HSIZE * n) Hab) as (l1 & l2 & -> & Hl1 & Hl2); [intros x Hx; by apply Hfr|unfold HSIZE; lia|].
  destruct (exists_last (l := (base, 0) :: l1) ltac:(done)) as (pre & [t kt] & En). unfold free. cbv zeta.
  replace (u32 (a + HSIZE - HSIZE)) with a by (rewrite u32_small; unfold HSIZE; lia). rewrite gets_step. cbn [h_freep].
  mstep (find_ok m f _ al l1 l2 pre t kt a fuel Har eq_refl En Hl1 ltac:(intros x Hx; specialize (Hl2 x Hx); unfold HSIZE in Hl2; lia) ltac:(lia) Hfuel).
  rewrite app_comm_cons, En, <- app_assoc in Hli. apply links_app in Hli as [Lpre (Lt & Lk & L2)]. cbn [fst snd app] in Lpre, Lt, Lk. mstep (h_ptr_ok m f t _ Lt).
  pose proof (proj1 (above_app _ _ _) Hab) as [Hab1 Hab2].
  assert (fin (base + 7) l1 ≤ a ∧ ∀ x, x ∈ pre ++ [(t, kt)] → x.1 + 8 ≤ a) as [Hfin Hpre].
  { split.
    - destruct l1 as [|y l1] using rev_ind; [cbn; lia|]. rewrite fin_snoc. apply Hl1, elem_of_app. right. by left.
    - rewrite <- En. intros x [->|Hx]%elem_of_cons; [done|]. specialize (Hl1 x Hx). destruct (above_in _ _ x Hab1 Hx) as (_ & ? & _). unfold bend, HSIZE in Hl1. lia. }
  destruct (join_up_ok m f l2 a n (fin (base + 7) l1 - 1) L2) as (m1 & n1 & l3 & E1 & J1 & J2 & J3 & J4 & J5 & J6 & J7 & J8 & J9).
  { eapply above_raise; [exact Hab2|]. intros x Hx. specialize (Hl2 x Hx). lia. }
  { intros x Hx. apply Hown, elem_of_app. by right. }
  { done. } { done. } { done. } { lia. } { lia. } { unfold HSIZE. lia. }
  mstep E1.
  destruct (join_down_ok m1 f l1 pre t kt a n1 l3 En) as (m2 & fl' & E2 & K1 & K2 & K3 & K4 & K5 & K6 & K7 & K8 & K9).
  { eapply links_ext; [|exact Lpre]. intros x y Hx Hy. apply J7. specialize (Hpre x ltac:(apply elem_of_app; by left)). unfold HSIZE in Hy. lia. }
  { rewrite <- Lk. apply get32_ext. intros i Hi. apply J7. specialize (Hpre (t, kt) ltac:(apply elem_of_app; right; by left)). cbn in Hpre. lia. }
  { done. } { done. } { done. } { done. } { unfold HSIZE. lia. } { intros y Hy. by apply J8, B3. }
  { intros x Hx y Hy. apply J8. apply elem_of_app in Hx as [Hx|[->|Hx]%elem_of_cons]; [|by apply J4|]; apply (Hown x); try done; apply elem_of_app; auto. }
  mstep E2. exists m2, t, fl'. split; [done|].
  assert (∀ b k, delete a al !! b = Some k → b ≠ a ∧ al !! b = Some k) as Hdel by (intros b k [? ?]%lookup_delete_Some; auto).
  assert (kept (delete a al) m m2) as Hk.
  { intros b k y [Hne Hb]%Hdel Hy. destruct (Hal b k Hb) as (C1 & C2 & C3 & _). pose proof (Hsep a n b k Ha Hb ltac:(done)) as Hs. unfold HSIZE in *.
    rewrite K7, J7; [done|lia|].
    specialize (Hpre (t, kt) ltac:(apply elem_of_app; right; by left)). cbn in Hpre.
    assert ((t, kt) ∈ (base, 0) :: l1) as Hin by (rewrite En; apply elem_of_app; right; by left).
    apply elem_of_cons in Hin as [[= -> ->]|Hin]; [lia|]. destruct (above_in _ _ _ Hab1 Hin) as (_ & D2 & _).
    pose proof (Hfr (t, kt) b k ltac:(apply elem_of_app; by left) Hb) as Hx. unfold bend, HSIZE in Hx. cbn in Hx, D2. lia. }
  split; [|split; [done|split]].
  - eapply (arena_change m f _ al); [done|done|done|done| |intros y Hy; by apply K8, J8|apply delete_subseteq|done|].
    + intros x Hx y Hy. by apply K8, (K4 x).
    + intros b k [Hne Hb]%Hdel. destruct (Hal b k Hb) as (C1 & _). apply K6; [done|]. intros x Hx. apply elem_of_app in Hx as [Hx|Hx].
      * apply Hfr; [apply elem_of_app; by left|done].
      * apply (J6 b k C1); [|done]. intros z [->|Hz]%elem_of_cons; [|apply Hfr; [apply elem_of_app; by right|done]].
        unfold bend. cbn [fst snd]. pose proof (Hsep a n b k Ha Hb ltac:(done)). lia.
  - destruct K5 as (x & Hx & Hn). exists x. split; [done|lia].
  - rewrite length_app. lia.
Qed.

(** ** malloc *)

Context (sbrk : Z → M heap Z).

Definition last_addr (prev : Z) (l : list (Z * Z)) : Z := foldl (λ _ x, x.1) prev l.

Lemma last_addr_ex x l : ∃ pre q kq, x :: l = pre ++ [(q, kq)] ∧ last_addr x.1 l = q.
Proof.
  destruct l as [|y l] using rev_ind; [exists [], x.1, x.2; by destruct x|]. exists (x :: l), y.1, y.2. split; [by destruct y|].
  unfold last_addr. by rewrite foldl_app.
Qed.

(** Blocks that are too small are passed. *)
Lemma walk l e k fuel ff prev m f :
  links m l e → (∀ x, x ∈ l → x.2 < k ∧ x.1 ≠ f ∧ x.1 ≠ 0) →
  malloc_loop sbrk (length l + fuel) ff k prev (hd_addr l e) (Heap m f) = malloc_loop sbrk fuel ff k (last_addr prev l) e (Heap m f).
Proof.
  revert prev. induction l as [|x l IH]; intros prev; [done|]. cbn [links]. intros (H1 & H2 & H3) Hx. cbn [length Nat.add malloc_loop hd_addr].
  destruct (Hx x ltac:(by left)) as (X1 & X2 & X3). mstep (h_size_ok m f _ _ H2). rewrite (proj2 (Z.leb_gt _ _)) by lia. rewrite gets_step. cbn [h_freep].
  rewrite (proj2 (Z.eqb_neq x.1 f)) by done. rewrite ret_step. rewrite (proj2 (Z.eqb_neq x.1 0)) by done. mstep (h_ptr_ok m f _ _ H1). apply IH; [done|]. intros y Hy. apply Hx. by right.
Qed.

Lemma first_fit (k : Z) (l : list (Z * Z)) : (∀ x, x ∈ l → x.2 < k) ∨ ∃ l1 x l2, l = l1 ++ x :: l2 ∧ k ≤ x.2 ∧ ∀ y, y ∈ l1 → y.2 < k.
Proof.
  induction l as [|x l IH]; [left; by intros x ?%not_elem_of_nil|]. destruct (decide (k ≤ x.2)) as [Hx|Hx].
  - right. exists [], x, l. split; [done|]. split; [done|]. by intros y ?%not_elem_of_nil.
  - destruct IH as [IH|(l1 & y & l2 & -> & Hy & Hl)].
    + left. intros y [->|Hy]%elem_of_cons; [lia|by apply IH].
    + right. exists (x :: l1), y, l2. split; [done|]. split; [done|]. intros z [->|Hz]%elem_of_cons; [lia|by apply Hl].
Qed.

(** One more block is allocated. *)
Lemma arena_alloc m f fl al a n :
  arena m f fl al → 1 ≤ n → base + HSIZE ≤ a → a + HSIZE * n < 2 ^ 32 → get32 m (a + 4) = Some n → owned m a (HSIZE * n) → apart a n fl →
  (∀ b k, al !! b = Some k → a + HSIZE * n ≤ b ∨ b + HSIZE * k ≤ a) → arena m f fl (<[a := n]> al).
Proof.
  intros [H1 H2 H3 H4 H5 H6 H7 H8] Hn Hb He Hg Ho Hap Hal. split; [done|done|done|done|done| | |].
  - intros b k. rewrite lookup_insert_Some. intros [[<- <-]|[_ Hbk]]; [done|by apply H6].
  - intros b k c j. rewrite !lookup_insert_Some. intros [[<- <-]|[_ Hbk]] [[<- <-]|[_ Hcj]] Hne; [done|by apply Hal| |by apply H7].
    destruct (Hal b k Hbk); [by right|by left].
  - intros x b k Hx. rewrite lookup_insert_Some. intros [[<- <-]|[_ Hbk]]; [by apply Hap|by apply H8].
Qed.

(** The header of [base] and those of free blocks are in no allocated block. *)
Lemma header_free m f fl al x b k :
  arena m f fl al → x ∈ (base, 0) :: fl → al !! b = Some k → b + HSIZE * k ≤ x.1 ∨ x.1 + HSIZE ≤ b.
Proof.
  intros [_ Hab _ _ _ Hal _ Hfr] Hx Hb. destruct (Hal b k Hb) as (A1 & A2 & _). apply elem_of_cons in Hx as [->|Hx]; [right; done|].
  destruct (above_in _ _ x Hab Hx) as (_ & H1 & _). destruct (Hfr x b k Hx Hb) as [H|H]; [right|by left]. unfold bend, HSIZE in *. lia.
Qed.

Section take.
Context (m : mem) (f : Z) (fl : list (Z * Z)) (al : gmap Z Z) (L1 L2 pre : list (Z * Z)) (p n q kq k : Z).
Context (Har : arena m f fl al) (Efl : fl = L1 ++ (p, n) :: L2) (En : (base, 0) :: L1 = pre ++ [(q, kq)]) (Hk : 1 ≤ k).

(** What is known of the block [p] and the block [q] before it. *)
Lemma take_facts :
  (links m pre q ∧ get32 m q = Some p ∧ get32 m (q + 4) = Some kq ∧ get32 m p = Some (hd_addr L2 base) ∧ get32 m (p + 4) = Some n ∧ links m L2 base) ∧
  above (base + 7) L1 ∧ fin (base + 7) L1 < p ∧ base + HSIZE ≤ p ∧ 1 ≤ n ∧ p + HSIZE * n < 2 ^ 32 ∧ above (p + HSIZE * n) L2 ∧ owned m p (HSIZE * n) ∧
  (∀ x, x ∈ pre ++ [(q, kq)] → x.1 + HSIZE ≤ p) ∧ mapped m q 4 ∧ (∀ x, x ∈ pre → x.1 + HSIZE ≤ q).
Proof using Har Efl En.
  clear Hk. pose proof Har as [Hli Hab _ (B1 & B2 & B3) Hown _ _ _]. rewrite Efl in *.
  rewrite app_comm_cons, En, <- app_assoc in Hli. apply links_app in Hli as [Lpre (Lq & Lkq & Lp & Ln & L2')]. cbn [fst snd app hd_addr] in *.
  pose proof (nodes_sorted _ Hab) as Hs. rewrite app_comm_cons, En in Hs.
  pose proof (proj1 (above_app _ _ _) Hab) as [Hab1 (P1 & P2 & P3 & P4)]. unfold bend in P3, P4. cbn [fst snd] in P1, P2, P3, P4.
  assert (∀ x, x ∈ (base, 0) :: L1 → owned m x.1 HSIZE) as Hhead.
  { intros x [->|Hx]%elem_of_cons; [done|]. destruct (above_in _ _ x Hab1 Hx) as (_ & Hx1 & _).
    eapply owned_sub; [apply (Hown x), elem_of_app; by left|lia|unfold HSIZE; lia]. }
  destruct (above_in _ _ (p, n) Hab) as (P5 & _); [apply elem_of_app; right; by left|]. cbn [fst] in P5.
  assert (∀ x, x ∈ (base, 0) :: L1 → x.1 + HSIZE ≤ p) as Hp.
  { intros x [->|Hx]%elem_of_cons; [unfold HSIZE; cbn; lia|]. pose proof (above_order _ _ _ x (p, n) Hab Hx ltac:(by left)) as Hx1.
    destruct (above_in _ _ x Hab1 Hx) as (_ & Hx2 & _). unfold bend, HSIZE in *. cbn [fst] in Hx1. lia. }
  split; [done|]. split; [done|]. split; [done|]. split; [unfold HSIZE; lia|]. split; [done|]. split; [done|]. split; [done|].
  split; [apply (Hown (p, n)), elem_of_app; right; by left|]. split; [rewrite <- En; exact Hp|]. split.
  - apply (owned_mapped m q HSIZE); [|lia|unfold HSIZE; lia]. apply (Hhead (q, kq)). rewrite En. apply elem_of_app. right. by left.
  - intros x Hx. destruct pre as [|y pre']; [by apply not_elem_of_nil in Hx|]. injection En as <- EL. apply elem_of_cons in Hx as [->|Hx].
    + destruct (above_in _ _ (q, kq) Hab1) as (Hq & _); [rewrite EL; apply elem_of_app; right; by left|]. unfold HSIZE. cbn in Hq |- *. lia.
    + rewrite EL in Hab1. pose proof (above_order _ _ _ x (q, kq) Hab1 Hx ltac:(by left)) as Hx1.
      destruct (above_in _ _ x Hab1) as (_ & Hx2 & _); [apply elem_of_app; by left|]. unfold bend, HSIZE in *. cbn [fst] in Hx1. lia.
Qed.

Lemma take_none a j : (∀ x, x ∈ [(p, n)] → x.1 ≤ a ∧ a + HSIZE * j ≤ bend x) → 1 ≤ j → apart a j (L1 ++ L2) ∧ (∀ b c, al !! b = Some c → a + HSIZE * j ≤ b ∨ b + HSIZE * c ≤ a) ∧ al !! a = None.
Proof using Har Efl En Hk.
  intros Hin Hj. specialize (Hin (p, n) ltac:(by left)). destruct take_facts as (_ & Hab1 & P1 & _ & P3 & _ & Hab2 & _).
  pose proof Har as [_ Hab _ _ _ Hal _ Hfr]. unfold bend in Hin. cbn [fst snd] in Hin.
  assert (∀ b c, al !! b = Some c → a + HSIZE * j ≤ b ∨ b + HSIZE * c ≤ a) as Hap.
  { intros b c Hb. pose proof (Hfr (p, n) b c) as H. rewrite Efl in H. specialize (H ltac:(apply elem_of_app; right; by left) Hb). unfold bend in H. cbn [fst snd] in H. lia. }
  split; [|split; [done|]].
  - intros x [Hx|Hx]%elem_of_app.
    + left. rewrite Efl in Hab. pose proof (above_order _ _ _ x (p, n) Hab Hx ltac:(by left)) as H. cbn [fst] in H. lia.
    + right. destruct (above_in _ _ x Hab2 Hx) as (H & _). lia.
  - destruct (al !! a) as [c|] eqn:E; [|done]. destruct (Hal a c E) as (C1 & _). specialize (Hap a c E). unfold HSIZE in Hap. lia.
Qed.

Lemma take_whole :
  arena (put32 q (hd_addr L2 base) m) q (L1 ++ L2) (<[p := n]> al) ∧ al !! p = None ∧ kept al m (put32 q (hd_addr L2 base) m).
Proof using Har Efl En Hk.
  destruct take_facts as ((Lpre & Lq & Lkq & Lp & Ln & LL2) & Hab1 & P1 & P2 & P3 & P4 & Hab2 & Po & Hlt & Hmq & Hpre). pose proof Har as [_ _ _ (B1 & B2 & _) Hown _ _ _].
  set (m' := put32 q _ m). assert (∀ y, y < q ∨ q + 4 ≤ y → m' !! y = m !! y) as Hm' by (intros; by apply put32_ne).
  assert (q + 8 ≤ p) as Hqp by (apply (Hlt (q, kq)), elem_of_app; right; by left).
  assert ((q, kq) ∈ (base, 0) :: fl) as Hq by (rewrite Efl, app_comm_cons, En, !elem_of_app; left; right; by left).
  assert (kept al m m') as Hkept.
  { intros b c y Hb Hy. apply Hm'. pose proof (header_free _ _ _ _ _ _ _ Har Hq Hb) as H. unfold HSIZE in *. cbn [fst] in H. lia. }
  assert (above (base + 7) (L1 ++ L2)) as Hab' by (apply above_app; split; [done|]; eapply above_weaken; [|exact Hab2]; unfold HSIZE; lia).
  destruct (take_none p n) as (T1 & T2 & T3); [intros x ->%list_elem_of_singleton; unfold bend; cbn; lia|done|].
  split; [|done]. apply arena_alloc; [|done|done|done| | |done|done].
  - eapply (arena_change m f fl al); [done| |done| | |intros; by apply put32_some|done|done|].
    + rewrite app_comm_cons, En, <- app_assoc. apply links_app. cbn [app links fst snd hd_addr]. split; [|split; [|split]].
      * eapply links_ext; [|exact Lpre]. intros x y Hx Hy. apply Hm'. specialize (Hpre x Hx). unfold HSIZE in *. lia.
      * unfold m'. rewrite get32_put32; [done|]. by apply (hd_range _ _ Hab2); unfold HSIZE in *; lia.
      * unfold m'. by rewrite get32_put32_ne by lia.
      * eapply links_ext; [|exact LL2]. intros x y Hx Hy. apply Hm'. destruct (above_in _ _ x Hab2 Hx) as (H & _). unfold HSIZE in *. lia.
    + rewrite app_comm_cons, fmap_app, En. apply elem_of_app. left. apply list_elem_of_fmap. exists (q, kq). split; [done|]. apply elem_of_app. right. by left.
    + intros x Hx y Hy. apply put32_some, (Hown x); [|done]. rewrite Efl. apply elem_of_app in Hx as [Hx|Hx]; apply elem_of_app; [by left|right; by right].
    + intros b c Hb x Hx. apply (ar_free _ _ _ _ Har); [|done]. rewrite Efl. apply elem_of_app in Hx as [Hx|Hx]; apply elem_of_app; [by left|right; by right].
  - unfold m'. by rewrite get32_put32_ne by lia.
  - intros y Hy. by apply put32_some, Po.
Qed.

Lemma take_tail :
  k < n → let a := p + HSIZE * (n - k) in let m' := put32 (a + 4) k (put32 (p + 4) (n - k) m) in
  arena m' q (L1 ++ (p, n - k) :: L2) (<[a := k]> al) ∧ al !! a = None ∧ kept al m m'.
Proof using Har Efl En Hk.
  intros Hkn a m'. destruct take_facts as ((Lpre & Lq & Lkq & Lp & Ln & LL2) & Hab1 & P1 & P2 & P3 & P4 & Hab2 & Po & Hlt & Hmq & Hpre). pose proof Har as [_ _ _ (B1 & B2 & _) Hown _ _ _].
  assert (∀ y, y < p ∨ p + HSIZE * n ≤ y → m' !! y = m !! y) as Hm' by (intros y Hy; unfold m', a, HSIZE in *; rewrite !put32_ne by lia; done).
  assert (∀ y, is_Some (m !! y) → is_Some (m' !! y)) as Hsome by (intros y Hy; unfold m'; by do 2 apply put32_some).
  assert (kept al m m') as Hkept.
  { intros b c y Hb Hy. apply Hm'. pose proof (ar_free _ _ _ _ Har (p, n) b c) as H. rewrite Efl in H. specialize (H ltac:(apply elem_of_app; right; by left) Hb). unfold bend in H. cbn [fst snd] in H. lia. }
  assert (above (base + 7) (L1 ++ (p, n - k) :: L2)) as Hab'.
  { apply above_app. split; [done|]. cbn [above]. unfold bend. cbn [fst snd]. split; [done|]. split; [lia|]. split; [unfold HSIZE in *; lia|].
    eapply above_weaken; [|exact Hab2]. unfold HSIZE. lia. }
  destruct (take_none a k) as (T1 & T2 & T3); [intros x ->%list_elem_of_singleton; unfold bend, a, HSIZE; cbn; lia|done|].
  assert (p + 8 ≤ a ∧ a + 8 * k = p + 8 * n) as [Ha1 Ha2] by (unfold a, HSIZE; lia). unfold HSIZE in P2, P4, Hm'.
  split; [|done]. apply arena_alloc; [|done|unfold HSIZE; lia|unfold HSIZE; lia| | | |done].
  - eapply (arena_change m f fl al); [done| |done| | |done|done|done|].
    + rewrite app_comm_cons, En, <- app_assoc. apply links_app. cbn [app links fst snd hd_addr].
      assert (∀ x, x ∈ pre ++ [(q, kq)] → x.1 + 8 ≤ p) as Hlt' by (intros x Hx; by apply (Hlt x)). pose proof (Hlt' (q, kq) ltac:(apply elem_of_app; right; by left)) as Hqp. cbn [fst] in Hqp.
      split; [|split; [|split; [|split; [|split]]]].
      * eapply links_ext; [|exact Lpre]. intros x y Hx Hy. apply Hm'. specialize (Hlt' x ltac:(apply elem_of_app; by left)). unfold HSIZE in Hy. lia.
      * rewrite <- Lq. apply get32_ext. intros i Hi. apply Hm'. lia.
      * rewrite <- Lkq. apply get32_ext. intros i Hi. apply Hm'. lia.
      * unfold m'. by rewrite !get32_put32_ne by lia.
      * unfold m'. rewrite get32_put32_ne, get32_put32 by lia. done.
      * eapply links_ext; [|exact LL2]. intros x y Hx Hy. apply Hm'. destruct (above_in _ _ x Hab2 Hx) as (H & _). unfold HSIZE in *. lia.
    + rewrite app_comm_cons, fmap_app, En. apply elem_of_app. left. apply list_elem_of_fmap. exists (q, kq). split; [done|]. apply elem_of_app. right. by left.
    + intros x Hx y Hy. apply Hsome. apply elem_of_app in Hx as [Hx|[->|Hx]%elem_of_cons].
      * apply (Hown x); [|done]. rewrite Efl. apply elem_of_app. by left.
      * apply Po. unfold HSIZE in *. cbn [fst snd] in Hy. lia.
      * apply (Hown x); [|done]. rewrite Efl. apply elem_of_app. right. by right.
    + intros b c Hb x [Hx|[->|Hx]%elem_of_cons]%elem_of_app; [apply (ar_free _ _ _ _ Har); [rewrite Efl; apply elem_of_app; by left|done]| |apply (ar_free _ _ _ _ Har); [rewrite Efl; apply elem_of_app; right; by right|done]].
      pose proof (ar_free _ _ _ _ Har (p, n) b c) as H. rewrite Efl in H. specialize (H ltac:(apply elem_of_app; right; by left) Hb). unfold bend, HSIZE in *. cbn [fst snd] in *. lia.
  - unfold m'. rewrite get32_put32 by lia. done.
  - intros y Hy. apply Hsome, Po. unfold HSIZE in *. lia.
  - intros x [Hx|[->|Hx]%elem_of_cons]%elem_of_app; [apply T1, elem_of_app; by left|left; unfold bend, a; cbn; lia|apply T1, elem_of_app; by right].
Qed.

(** A block that is big enough is taken: the whole of it, or its last units. *)
Lemma take_block_ok fuel ff :
  k ≤ n → ∃ m' a fl', malloc_loop sbrk (S fuel) ff k q p (Heap m f) = Ok (a + HSIZE) (Heap m' q) ∧ al !! a = None ∧ arena m' q fl' (<[a := k]> al) ∧ kept al m m'.
Proof using Har Efl En Hk.
  intros Hkn. destruct take_facts as ((_ & _ & _ & Lp & Ln & _) & _ & _ & P2 & P3 & P4 & _ & Po & _ & Hmq & _). pose proof (ar_base _ _ _ _ Har) as (B1 & _).
  unfold HSIZE in P2, P4. cbn [malloc_loop]. mstep (h_size_ok m f p n Ln). rewrite (proj2 (Z.leb_le k n)) by done. destruct (Z.eqb_spec n k) as [Enk|Hne].
  - destruct take_whole as (H1 & H2 & H3). rewrite Enk in H1. mstep (h_ptr_ok m f p _ Lp). mstep (set_ptr_ok m f q (hd_addr L2 base) Hmq). eexists _, p, _. split; [|by split].
    unfold set_freep. rewrite modify_step. cbn [h_mem]. unfold mret, M_ret. by rewrite u32_small by (unfold HSIZE; lia).
  - destruct take_tail as (H1 & H2 & H3); [lia|]. rewrite (u32_small (n - k)) by lia.
    assert (∀ b, p ≤ b → b + 4 ≤ p + 8 * n → mapped m b 4) as Hm by (intros; by eapply (owned_mapped m p (HSIZE * n))).
    mstep (set_hsize_ok m f p (n - k) (Hm (p + 4) ltac:(lia) ltac:(lia))). replace (u32 (p + (n - k) * HSIZE)) with (p + HSIZE * (n - k)) by (rewrite u32_small; unfold HSIZE; lia).
    rewrite (bind_ok _ _ _ _ _ (set_hsize_ok _ f (p + HSIZE * (n - k)) k ltac:(intros i Hi; apply put32_some, (Hm (p + HSIZE * (n - k) + 4)); [unfold HSIZE; lia|unfold HSIZE; lia|done]))).
    eexists _, (p + HSIZE * (n - k)), _. split; [|by split]. unfold set_freep. rewrite modify_step. cbn [h_mem]. unfold mret, M_ret. by rewrite u32_small by (unfold HSIZE; lia).
Qed.
End take.

(** The ring, cut behind freep. *)
Lemma cut_ring m f fl al :
  arena m f fl al → ∃ A kf B, (base, 0) :: fl = A ++ (f, kf) :: B ∧ links m B base ∧ links m (A ++ [(f, kf)]) (hd_addr B base) ∧
    get32 m f = Some (hd_addr B base) ∧ (∀ x, x ∈ A ++ B → x.1 ≠ f) ∧ ∀ x, x ∈ (base, 0) :: fl → x.1 ≠ 0.
Proof.
  intros [Hli Hab Hf (B1 & _) _ _ _ _]. apply list_elem_of_fmap in Hf as ([f' kf] & -> & (A & B & E)%list_elem_of_split). exists A, kf, B. cbn [fst].
  pose proof (nodes_sorted _ Hab) as Hs. rewrite E in Hli, Hs. apply links_app in Hli as [L1 (L2 & L3 & L4)]. cbn [fst snd hd_addr] in *.
  split; [done|]. split; [done|]. split; [apply links_app; cbn; auto|]. split; [done|]. split.
  - intros x [Hx|Hx]%elem_of_app; [pose proof (sorted_lt _ _ _ _ Hs Hx) as H; cbn in H; lia|].
    apply sorted_app in Hs as [_ [_ Hall]%StronglySorted_inv]. rewrite Forall_forall in Hall. specialize (Hall x Hx). cbn in Hall. lia.
  - intros x [->|Hx]%elem_of_cons; [cbn; lia|]. destruct (above_in _ _ x Hab Hx) as (H & _). lia.
Qed.

(** Where a block is big enough, one is taken. *)
Lemma loop_found m f fl al k fuel ff :
  arena m f fl al → 1 ≤ k → (∃ x, x ∈ fl ∧ k ≤ x.2) → (length fl + 2 ≤ fuel)%nat →
  ∃ m' f' a fl', (q ← h_ptr f; malloc_loop sbrk fuel ff k f q) (Heap m f) = Ok (a + HSIZE) (Heap m' f') ∧ al !! a = None ∧ arena m' f' fl' (<[a := k]> al) ∧ kept al m m'.
Proof.
  intros Har Hk Hfit Hfuel. destruct (cut_ring m f fl al Har) as (A & kf & B & E & LB & LA & Hnext & Hne & H0). mstep (h_ptr_ok m f f _ Hnext).
  assert (length fl = length A + length B)%nat as Hlen by (apply (f_equal length) in E; rewrite length_app in E; cbn in E; lia).
  assert (A ++ (f, kf) :: B = (A ++ [(f, kf)]) ++ B) as Eas by (by rewrite <- app_assoc).
  destruct (first_fit k B) as [HB|(b1 & [p n] & b2 & EB & Hn & Hb1)].
  - replace fuel with (length B + (fuel - length B))%nat by lia.
    rewrite (walk B base k _ ff f m f LB).
    2:{ intros x Hx. split; [by apply HB|]. split; [apply Hne, elem_of_app; by right|apply H0; rewrite E, elem_of_app; right; by right]. }
    destruct (first_fit k (A ++ [(f, kf)])) as [HA|(a1 & [p n] & a2 & EA & Hn & Ha1)].
    { destruct Hfit as (x & Hx & Hkx). assert (x ∈ (base, 0) :: fl) as Hin by (by right). rewrite E, Eas, elem_of_app in Hin. destruct Hin as [Hin|Hin]; [specialize (HA x Hin)|specialize (HB x Hin)]; lia. }
    destruct a1 as [|y a1].
    { exfalso. assert ((p, n) = (base, 0)) as [= -> ->]; [|cbn in Hn; lia]. destruct A as [|y A]; cbn in EA, E; congruence. }
    assert ((base, 0) :: fl = y :: a1 ++ (p, n) :: a2 ++ B) as En.
    { rewrite E, Eas, EA. cbn. by rewrite <- !app_assoc. } injection En as <- Efl.
    assert (∀ x, x ∈ (base, 0) :: a1 → x ∈ A) as Hsub.
    { intros x Hx. destruct a2 as [|z a2] using rev_ind; [apply app_inj_tail in EA as [-> _]; done|].
      rewrite app_comm_cons, app_assoc in EA. apply app_inj_tail in EA as [-> _]. apply elem_of_app. by left. }
    rewrite EA in LA. apply links_app in LA as [La1 _]. cbn [hd_addr fst] in La1.
    replace (fuel - length B)%nat with (length ((base, 0%Z) :: a1) + S (fuel - length B - length ((base, 0%Z) :: a1) - 1))%nat.
    2:{ apply (f_equal length) in EA. rewrite !length_app in EA. cbn in EA |- *. lia. }
    pose proof (walk ((base, 0) :: a1) p k (S (fuel - length B - length ((base, 0) :: a1) - 1)) ff (last_addr f B) m f La1) as Hw. cbn [hd_addr fst] in Hw. rewrite Hw.
    2:{ intros x Hx. split; [by apply Ha1|]. split; [apply Hne, elem_of_app; left; by apply Hsub|apply H0; rewrite E, elem_of_app; left; by apply Hsub]. }
    destruct (last_addr_ex (base, 0) a1) as (pre & q & kq & Epre & Eq). cbn [fst] in Eq.
    change (last_addr (last_addr f B) ((base, 0) :: a1)) with (last_addr base a1). rewrite Eq.
    destruct (take_block_ok m f fl al a1 (a2 ++ B) pre p n q kq k Har Efl Epre Hk (fuel - length B - length ((base, 0) :: a1) - 1) ff Hn) as (m' & a & fl' & T1 & T2 & T3 & T4). by exists m', q, a, fl'.
  - assert (∃ L1, (base, 0) :: L1 = A ++ (f, kf) :: b1 ∧ fl = L1 ++ (p, n) :: b2) as (L1 & EL1 & Efl).
    { rewrite EB in E. destruct A as [|y A]; [injection E as <- <- ->; by exists b1|]. injection E as <- ->. exists (A ++ (f, kf) :: b1). split; [done|]. by rewrite <- app_assoc. }
    rewrite EB in LB |- *. apply links_app in LB as [Lb1 _]. cbn [hd_addr fst] in Lb1. assert (hd_addr (b1 ++ (p, n) :: b2) base = hd_addr b1 p) as -> by (by destruct b1).
    replace fuel with (length b1 + S (fuel - length b1 - 1))%nat by (rewrite EB, length_app in Hlen; cbn in Hlen; lia).
    rewrite (walk b1 p k _ ff f m f Lb1).
    2:{ intros x Hx. split; [by apply Hb1|]. split; [apply Hne; rewrite EB, !elem_of_app; auto|apply H0; rewrite E, EB, elem_of_app; right; right; apply elem_of_app; by left]. }
    destruct (last_addr_ex (f, kf) b1) as (pre & q & kq & Epre & Eq). cbn [fst] in Eq. rewrite Eq. rewrite Epre, app_assoc in EL1.
    destruct (take_block_ok m f fl al L1 b2 (A ++ pre) p n q kq k Har Efl EL1 Hk (fuel - length b1 - 1) ff Hn) as (m' & a & fl' & T1 & T2 & T3 & T4). by exists m', q, a, fl'.
Qed.

(** What malloc relies on of sbrk: it refuses, or gives [n] new bytes above
    [base], which may be anywhere. *)
Definition sbrk_law : Prop := ∀ n m f, 0 < n < 2 ^ 31 →
  sbrk n (Heap m f) = Ok (-1) (Heap m f) ∨
  ∃ p l, sbrk n (Heap m f) = Ok p (Heap (put_bytes p l m) f) ∧ Z.of_nat (length l) = n ∧ base + HSIZE ≤ p ∧ p + n < 2 ^ 32 ∧
    ∀ y, p ≤ y < p + n → m !! y = None.

Context (Hsbrk : sbrk_law).

(** The new memory is a block that is then freed. *)
Lemma morecore_ok m f fl al k ff :
  arena m f fl al → 1 ≤ k → HSIZE * k < 2 ^ 31 → (length fl + 2 ≤ ff)%nat →
  morecore sbrk ff k (Heap m f) = Ok 0 (Heap m f) ∧ sbrk (HSIZE * (4096 `max` k)) (Heap m f) = Ok (-1) (Heap m f) ∨
  ∃ m' f' fl', morecore sbrk ff k (Heap m f) = Ok f' (Heap m' f') ∧ arena m' f' fl' al ∧ kept al m m' ∧ (∃ x, x ∈ fl' ∧ k ≤ x.2) ∧
    (length fl' ≤ S (length fl))%nat.
Proof using Hsbrk.
  intros Har Hk Hk2 Hff. pose proof Har as [Hli Hab Hf (B1 & B2 & B3) Hown Hal Hsep Hfr]. unfold morecore. cbv zeta.
  replace (if k <? 4096 then 4096 else k) with (4096 `max` k) by (destruct (Z.ltb_spec k 4096); lia).
  set (nu := 4096 `max` k). assert (4096 ≤ nu ∧ k ≤ nu ∧ 8 * nu < 2 ^ 31) as (N1 & N2 & N3) by (unfold nu, HSIZE in *; lia).
  replace (s32 (nu * HSIZE)) with (HSIZE * nu) by (unfold HSIZE; rewrite s32_small; lia).
  destruct (Hsbrk (HSIZE * nu) m f) as [E|(p & l & E & Hlen & P1 & P2 & Hnew)]; [unfold HSIZE; lia|left; split; [by mstep E|done]|right].
  mstep E. rewrite (proj2 (Z.eqb_neq p (-1))) by (unfold HSIZE in *; lia). set (m1 := put_bytes p l m).
  assert (owned m1 p (HSIZE * nu)) as Ho1 by (intros y Hy; unfold m1; rewrite lookup_put_bytes, decide_True by lia; apply lookup_lt_is_Some_2; lia).
  assert (∀ y, is_Some (m !! y) → y < p ∨ p + HSIZE * nu ≤ y) as Hout.
  { intros y [z Hz]. destruct (decide (p ≤ y < p + HSIZE * nu)) as [Hy|Hy]; [by rewrite (Hnew y Hy) in Hz|lia]. }
  assert (∀ y, is_Some (m !! y) → m1 !! y = m !! y) as Hm1 by (intros y Hy%Hout; apply lookup_put_bytes_ne; lia).
  mstep (set_hsize_ok m1 f p nu ltac:(eapply owned_mapped; [exact Ho1|lia|unfold HSIZE; lia])). set (m2 := put32 (p + 4) nu m1).
  assert (∀ y, is_Some (m !! y) → m2 !! y = m !! y) as Hm2.
  { intros y Hy. unfold m2. rewrite put32_ne; [by apply Hm1|]. specialize (Hout y Hy). unfold HSIZE in Hout. lia. }
  assert (∀ a n, owned m a n → 0 < n → a + n ≤ p ∨ p + HSIZE * nu ≤ a) as Hapart.
  { intros a n Ha Hn. destruct (decide (a + n ≤ p ∨ p + HSIZE * nu ≤ a)) as [|Hno]; [done|]. exfalso.
    destruct (Hout (a `max` p)) as [?|?]; [apply Ha; lia|lia|]. unfold HSIZE in *. lia. }
  assert (arena m2 f fl (<[p := nu]> al)) as Har2.
  { apply arena_alloc; [|lia|done|done| | | |].
    - eapply (arena_change m f fl al); [done| |done|done| | |done| |].
      + eapply links_ext; [|exact Hli]. intros x y Hx Hy. apply Hm2. apply elem_of_cons in Hx as [->|Hx]; [by apply B3|].
        apply (Hown x Hx). destruct (above_in _ _ x Hab Hx) as (_ & ? & _). unfold HSIZE in *. lia.
      + intros x Hx y Hy. rewrite Hm2; by apply (Hown x).
      + intros y Hy. by rewrite Hm2.
      + intros b c y Hb Hy. apply Hm2. destruct (Hal b c Hb) as (_ & _ & _ & _ & Hob). by apply Hob.
      + intros b c Hb x Hx. by apply Hfr.
    - unfold m2. by rewrite get32_put32 by (unfold HSIZE in *; lia).
    - intros y Hy. unfold m2. by apply put32_some, Ho1.
    - intros x Hx. destruct (above_in _ _ x Hab Hx) as (_ & ? & _). unfold bend. apply (Hapart x.1 (HSIZE * x.2)); [by apply Hown|unfold HSIZE; lia].
    - intros b c Hb. destruct (Hal b c Hb) as (? & _ & _ & _ & Hob). destruct (Hapart b (HSIZE * c) Hob); [unfold HSIZE; lia|by right|by left]. }
  assert (al !! p = None) as Hp.
  { destruct (al !! p) as [c|] eqn:Ec; [|done]. destruct (Hal p c Ec) as (? & _ & _ & _ & Hob). destruct (Hapart p _ Hob); unfold HSIZE in *; lia. }
  rewrite u32_small by (unfold HSIZE in *; lia).
  destruct (free_ok m2 f fl _ p nu ff Har2 (lookup_insert_eq _ _ _) Hff) as (m3 & f3 & fl3 & E3 & H3 & K3 & (x & Hx & Hnx) & Hl3). mstep E3.
  rewrite delete_insert_id in H3, K3 by done. exists m3, f3, fl3. split; [done|]. split; [done|]. split; [|split; [exists x; split; [done|lia]|done]].
  intros b c y Hb Hy. rewrite (K3 b c y Hb Hy). apply Hm2. destruct (Hal b c Hb) as (_ & _ & _ & _ & Hob). by apply Hob.
Qed.

(** No block is big enough: the loop goes round to freep and asks for more. *)
Lemma loop_none m f fl al k fuel ff :
  arena m f fl al → 1 ≤ k → (∀ x, x ∈ fl → x.2 < k) → (length fl + 2 ≤ fuel)%nat →
  ∃ fuel', (fuel ≤ fuel' + length fl + 1)%nat ∧
    (q ← h_ptr f; malloc_loop sbrk fuel ff k f q) (Heap m f) =
    (p ← morecore sbrk ff k; if p =? 0 then mret 0 else q ← h_ptr p; malloc_loop sbrk fuel' ff k p q) (Heap m f).
Proof.
  intros Har Hk Hsmall Hfuel. destruct (cut_ring m f fl al Har) as (A & kf & B & E & LB & LA & Hnext & Hne & H0). mstep (h_ptr_ok m f f _ Hnext).
  assert (length fl = length A + length B)%nat as Hlen by (apply (f_equal length) in E; rewrite length_app in E; cbn in E; lia).
  assert (∀ x, x ∈ A ++ (f, kf) :: B → x.2 < k) as Hall by (rewrite <- E; intros x [->|Hx]%elem_of_cons; [cbn; lia|by apply Hsmall]).
  apply links_app in LA as [LA (L1 & L2 & _)]. cbn [fst snd hd_addr] in *.
  replace fuel with (length B + (length A + S (fuel - length B - length A - 1)))%nat by lia.
  rewrite (walk B base k _ ff f m f LB).
  2:{ intros x Hx. split; [apply Hall, elem_of_app; right; by right|]. split; [apply Hne, elem_of_app; by right|apply H0; rewrite E, elem_of_app; right; by right]. }
  assert (hd_addr A f = base) as Ehd by (destruct A; [by injection E|by injection E as <- _]).
  pose proof (walk A f k (S (fuel - length B - length A - 1)) ff (last_addr f B) m f LA) as Hw. rewrite Ehd in Hw. rewrite Hw.
  2:{ intros x Hx. split; [apply Hall, elem_of_app; by left|]. split; [apply Hne, elem_of_app; by left|apply H0; rewrite E, elem_of_app; by left]. }
  exists (fuel - length B - length A - 1)%nat. split; [lia|]. cbn [malloc_loop]. mstep (h_size_ok m f f kf L2).
  rewrite (proj2 (Z.leb_gt k kf)) by (apply (Hall (f, kf)), elem_of_app; right; by left). rewrite gets_step. cbn [h_freep]. by rewrite Z.eqb_refl.
Qed.

(** malloc takes a block for the request, or there is none and sbrk refuses. *)
Lemma malloc_loop_ok m f fl al k fuel ff :
  arena m f fl al → 1 ≤ k → HSIZE * k < 2 ^ 31 → (2 * length fl + 5 ≤ fuel)%nat → (length fl + 2 ≤ ff)%nat →
  let r := (q ← h_ptr f; malloc_loop sbrk fuel ff k f q) (Heap m f) in
  r = Ok 0 (Heap m f) ∧ (∀ x, x ∈ fl → x.2 < k) ∧ sbrk (HSIZE * (4096 `max` k)) (Heap m f) = Ok (-1) (Heap m f) ∨
  ∃ m' f' a fl', r = Ok (a + HSIZE) (Heap m' f') ∧ al !! a = None ∧ arena m' f' fl' (<[a := k]> al) ∧ kept al m m'.
Proof using Hsbrk.
  intros Har Hk Hk2 Hfuel Hff r. destruct (first_fit k fl) as [Hno|(l1 & x & l2 & -> & Hx & _)].
  2:{ right. apply (loop_found m f (l1 ++ x :: l2)); [done|done| |lia]. exists x. split; [apply elem_of_app; right; by left|done]. }
  destruct (loop_none m f fl al k fuel ff Har Hk Hno ltac:(lia)) as (fuel' & Hf' & E). subst r. rewrite E.
  destruct (morecore_ok m f fl al k ff Har Hk Hk2 Hff) as [[E0 Er]|(m1 & f1 & fl1 & E1 & Har1 & K1 & Hfit & Hl1)]; [left; split; [by mstep E0|done]|right].
  mstep E1. rewrite (proj2 (Z.eqb_neq f1 0)).
  2:{ pose proof Har1 as [_ Hab [->|Hin]%elem_of_cons (B1 & _) _ _ _ _]; [cbn; lia|]. apply list_elem_of_fmap in Hin as (x & -> & Hx). destruct (above_in _ _ x Hab Hx). lia. }
  destruct (loop_found m1 f1 fl1 al k fuel' ff Har1 Hk Hfit ltac:(lia)) as (m2 & f2 & a & fl2 & E2 & H1 & H2 & H3).
  exists m2, f2, a, fl2. split; [done|]. split; [done|]. split; [done|]. intros b c y Hb Hy. rewrite (H3 b c y Hb Hy). by apply (K1 b c).
Qed.

(** The state of the allocator: before the first call, or an arena. *)
Definition heap_rep (s : heap) (fl : list (Z * Z)) (al : gmap Z Z) : Prop :=
  (h_freep s = 0 ∧ fl = [] ∧ al = ∅ ∧ 0 < base ∧ base + HSIZE < 2 ^ 32 ∧ owned (h_mem s) base HSIZE) ∨ arena (h_mem s) (h_freep s) fl al.

(** The largest request whose size in bytes is a positive int. *)
Definition MAXREQ : Z := 2 ^ 31 - 24.

Lemma malloc_units_ok nbytes : 0 ≤ nbytes ≤ MAXREQ → 1 ≤ malloc_units nbytes ∧ HSIZE * malloc_units nbytes < 2 ^ 31 ∧ nbytes ≤ HSIZE * (malloc_units nbytes - 1).
Proof.
  unfold MAXREQ, malloc_units, HSIZE. intros H. rewrite (u32_small (nbytes + 8 - 1)) by lia.
  rewrite u32_small by (Z.div_mod_to_equations; lia). Z.div_mod_to_equations. lia.
Qed.

(** The state in which malloc looks for a block: the first call makes a list
    of the block [base], which is empty. *)
Definition started (s : heap) : heap :=
  if h_freep s =? 0 then Heap (put32 (base + 4) 0 (put32 base base (h_mem s))) base else s.

(** The free blocks, in the order of their addresses, linked in a ring with
    [base]. *)
Definition free_list (m : mem) (fl : list (Z * Z)) : Prop := links m ((base, 0) :: fl) base ∧ above (base + 7) fl.

Lemma malloc_ok s fl al nbytes fuel ff :
  heap_rep s fl al → 0 ≤ nbytes ≤ MAXREQ → (2 * length fl + 5 ≤ fuel)%nat → (length fl + 2 ≤ ff)%nat →
  let k := malloc_units nbytes in
  ∃ r s', malloc sbrk base fuel ff nbytes s = Ok r s' ∧ kept al (h_mem s) (h_mem s') ∧
    ((r = 0 ∧ s' = started s ∧ arena (h_mem s') (h_freep s') fl al ∧ (∀ x, x ∈ fl → x.2 < k) ∧
      sbrk (HSIZE * (4096 `max` k)) (started s) = Ok (-1) (started s)) ∨
     ∃ fl', al !! (r - HSIZE) = None ∧ arena (h_mem s') (h_freep s') fl' (<[r - HSIZE := k]> al)).
Proof using Hsbrk.
  intros Hrep Hn Hfuel Hff k. destruct (malloc_units_ok nbytes Hn) as (K1 & K2 & _). fold k in K1, K2. destruct s as [m f].
  assert (∃ m1 f1, (fp ← gets h_freep;
      prevp ← (if fp =? 0 then set_freep base;; set_ptr base base;; set_hsize base 0;; mret base else mret fp);
      p ← h_ptr prevp; malloc_loop sbrk fuel ff k prevp p) (Heap m f) = (q ← h_ptr f1; malloc_loop sbrk fuel ff k f1 q) (Heap m1 f1) ∧
    arena m1 f1 fl al ∧ kept al m m1 ∧ started (Heap m f) = Heap m1 f1) as (m1 & f1 & E & Har & Hk1 & Est).
  { rewrite gets_step. cbn [h_freep]. destruct Hrep as [(Ef & -> & -> & B1 & B2 & Ho)|Har]; cbn [h_mem h_freep] in *.
    - subst f. cbn [Z.eqb]. exists (put32 (base + 4) 0 (put32 base base m)), base. unfold HSIZE in *.
      assert (∀ b, base ≤ b → b + 4 ≤ base + 8 → mapped m b 4) as Hm by (intros; by apply (owned_mapped m base 8)).
      split; [|split; [|split; [done|reflexivity]]].
      + unfold set_freep. rewrite bind_assoc, modify_step. cbn [h_mem]. rewrite bind_assoc. mstep (set_ptr_ok m base base base (Hm base ltac:(lia) ltac:(lia))).
        rewrite bind_assoc. mstep (set_hsize_ok (put32 base base m) base base 0 ltac:(intros i Hi; by apply put32_some, (Hm (base + 4)); [lia|lia|])). done.
      + split; [|done|by left| | |done|done|]; [| |by intros x ?%not_elem_of_nil|by intros x a n ?%not_elem_of_nil].
        * cbn [links fst snd hd_addr]. rewrite get32_put32_ne, !get32_put32 by lia. done.
        * split; [done|]. split; [unfold HSIZE; lia|]. intros y Hy. by do 2 apply put32_some; apply Ho.
    - assert (f ≠ 0) as Hf.
      { pose proof Har as [_ Hab [->|Hin]%elem_of_cons (B1 & _) _ _ _ _]; [cbn; lia|]. apply list_elem_of_fmap in Hin as (x & -> & Hx). destruct (above_in _ _ x Hab Hx). lia. }
      exists m, f. rewrite (proj2 (Z.eqb_neq f 0)) by done. split; [done|]. split; [done|].
      split; [by intros b c y|]. unfold started. cbn [h_freep]. by rewrite (proj2 (Z.eqb_neq f 0)). }
  unfold malloc. cbv zeta. fold k. rewrite E. cbn [h_mem].
  destruct (malloc_loop_ok m1 f1 fl al k fuel ff Har K1 K2 Hfuel Hff) as [(-> & Hno & Er)|(m2 & f2 & a & fl' & -> & H1 & H2 & H3)].
  - eexists _, _. split; [done|]. split; [done|]. left. rewrite Est. done.
  - eexists _, _. split; [done|]. split; [intros b c y Hb Hy; cbn [h_mem]; rewrite (H3 b c y Hb Hy); by apply (Hk1 b c)|]. right. exists fl'. by replace (a + HSIZE - HSIZE) with a by lia.
Qed.

(** *** More fuel gives the same result *)

Lemma free_find_mono fuel fuel' bp p s a s' : free_find fuel bp p s = Ok a s' → (fuel ≤ fuel')%nat → free_find fuel' bp p s = Ok a s'.
Proof.
  revert fuel' p s. induction fuel as [|fuel IH]; intros fuel' p s; [done|]. destruct fuel' as [|fuel']; [lia|]. cbn [free_find]. intros (q & s1 & E1 & E2)%bind_ok_inv Hle.
  mstep E1. destruct (_ && _); [done|]. destruct (_ && _); [done|]. apply IH; [done|lia].
Qed.

Lemma free_mono fuel fuel' ap s a s' : free fuel ap s = Ok a s' → (fuel ≤ fuel')%nat → free fuel' ap s = Ok a s'.
Proof.
  unfold free. cbv zeta. rewrite !gets_step. intros (p & s1 & E1 & E2)%bind_ok_inv Hle. mstep (free_find_mono _ fuel' _ _ _ _ _ E1 Hle). done.
Qed.

Lemma morecore_mono ff ff' nu s a s' : morecore sbrk ff nu s = Ok a s' → (ff ≤ ff')%nat → morecore sbrk ff' nu s = Ok a s'.
Proof.
  unfold morecore. cbv zeta. intros (p & s1 & E1 & E2)%bind_ok_inv Hle. mstep E1. destruct (p =? -1); [done|]. apply bind_ok_inv in E2 as ([] & s2 & E2 & E3).
  mstep E2. apply bind_ok_inv in E3 as ([] & s3 & E3 & E4). by mstep (free_mono _ ff' _ _ _ _ E3 Hle).
Qed.

Lemma malloc_loop_mono fuel fuel' ff ff' k prevp p s a s' :
  malloc_loop sbrk fuel ff k prevp p s = Ok a s' → (fuel ≤ fuel')%nat → (ff ≤ ff')%nat → malloc_loop sbrk fuel' ff' k prevp p s = Ok a s'.
Proof.
  revert fuel' prevp p s. induction fuel as [|fuel IH]; intros fuel' prevp p s; [done|]. destruct fuel' as [|fuel']; [lia|]. cbn [malloc_loop].
  intros (n & s1 & E1 & E2)%bind_ok_inv Hle Hff. mstep E1. destruct (k <=? n); [done|]. apply bind_ok_inv in E2 as (fp & s2 & E2 & E3). mstep E2.
  apply bind_ok_inv in E3 as (p' & s3 & E3 & E4).
  assert ((if p =? fp then morecore sbrk ff' k else mret p) s2 = Ok p' s3) as E3' by (destruct (p =? fp); [by eapply morecore_mono|done]). mstep E3'.
  destruct (p' =? 0); [done|]. apply bind_ok_inv in E4 as (q & s4 & E4 & E5). mstep E4. apply IH; [done|lia|done].
Qed.

Lemma malloc_mono fuel fuel' nbytes s a s' : malloc sbrk base fuel fuel nbytes s = Ok a s' → (fuel ≤ fuel')%nat → malloc sbrk base fuel' fuel' nbytes s = Ok a s'.
Proof.
  unfold malloc. cbv zeta. intros (fp & s1 & E1 & E2)%bind_ok_inv Hle. mstep E1. apply bind_ok_inv in E2 as (p & s2 & E2 & E3). mstep E2.
  apply bind_ok_inv in E3 as (q & s3 & E3 & E4). mstep E3. by eapply malloc_loop_mono.
Qed.

(** ** A program that uses the allocator

    It remembers which blocks it has and what it has put into them.  It
    calls malloc and free, and writes to bytes of its blocks. *)

Inductive ustep : heap * gmap Z (list Z) → heap * gmap Z (list Z) → Prop :=
  | u_malloc s B fuel nbytes r s' l :
      0 ≤ nbytes ≤ MAXREQ → malloc sbrk base fuel fuel nbytes s = Ok r s' → r ≠ 0 →
      Z.of_nat (length l) = nbytes → bytes_at (h_mem s') r l → ustep (s, B) (s', <[r := l]> B)
  | u_refused s B fuel nbytes s' :
      0 ≤ nbytes ≤ MAXREQ → malloc sbrk base fuel fuel nbytes s = Ok 0 s' → ustep (s, B) (s', B)
  | u_free s B fuel p l s' :
      B !! p = Some l → free fuel p s = Ok tt s' → ustep (s, B) (s', delete p B)
  | u_write m f B p l i x :
      B !! p = Some l → (i < length l)%nat → ustep (Heap m f, B) (Heap (<[p + Z.of_nat i := x]> m) f, <[p := <[i := x]> l]> B).

(** The blocks of the program are allocated, and hold what it put there. *)
Definition blocks_ok (s : heap) (B : gmap Z (list Z)) (al : gmap Z Z) : Prop :=
  ∀ p l, B !! p = Some l → ∃ n, al !! (p - HSIZE) = Some n ∧ Z.of_nat (length l) ≤ HSIZE * (n - 1) ∧ bytes_at (h_mem s) p l.

Definition uinv (x : heap * gmap Z (list Z)) : Prop := ∃ fl al, heap_rep x.1 fl al ∧ blocks_ok x.1 x.2 al.

Lemma heap_rep_alloc s fl al a n : heap_rep s fl al → al !! a = Some n → arena (h_mem s) (h_freep s) fl al.
Proof. intros [(_ & _ & -> & _)|H]; [by rewrite lookup_empty|done]. Qed.

Lemma kept_blocks s s' B al : blocks_ok s B al → kept al (h_mem s) (h_mem s') → blocks_ok s' B al.
Proof.
  intros HB Hk p l Hp. destruct (HB p l Hp) as (n & Hn & Hl & Hb). exists n. split; [done|]. split; [done|]. intros i x Hi.
  rewrite (Hk _ n _ Hn); [by apply Hb|]. apply lookup_lt_Some in Hi. unfold HSIZE in *. lia.
Qed.

(** A byte of an allocated block is written. *)
Lemma arena_write m f fl al a n y x : arena m f fl al → al !! a = Some n → a + HSIZE ≤ y < a + HSIZE * n → arena (<[y := x]> m) f fl al.
Proof.
  intros Har Ha Hy. pose proof Har as [Hli Hab Hf (B1 & B2 & B3) Hown Hal Hsep Hfr].
  assert (∀ z, is_Some (m !! z) → is_Some (<[y := x]> m !! z)) as Hs by (intros z Hz; apply lookup_insert_is_Some'; by right).
  split; [|done|done| | | |done|done].
  - eapply links_ext; [|exact Hli]. intros b z Hb Hz. rewrite lookup_insert_ne; [done|].
    pose proof (header_free _ _ _ _ _ _ _ Har Hb Ha) as H. lia.
  - split; [done|]. split; [done|]. intros z Hz. by apply Hs, B3.
  - intros b Hb z Hz. by apply Hs, (Hown b).
  - intros b k Hb. destruct (Hal b k Hb) as (A1 & A2 & A3 & A4 & A5). split; [done|]. split; [done|]. split; [done|]. split.
    + rewrite <- A4. apply get32_ext. intros i Hi. apply lookup_insert_ne. destruct (decide (a = b)) as [->|Hne]; [unfold HSIZE in *; lia|].
      pose proof (Hsep a n b k Ha Hb Hne). unfold HSIZE in *. lia.
    + intros z Hz. by apply Hs, A5.
Qed.

Lemma uinv_write m f B p l i x :
  uinv (Heap m f, B) → B !! p = Some l → (i < length l)%nat → uinv (Heap (<[p + Z.of_nat i := x]> m) f, <[p := <[i := x]> l]> B).
Proof.
  intros (fl & al & Hrep & HB) Hp Hi. cbn [fst snd] in *. destruct (HB p l Hp) as (n & Hn & Hl & Hb). pose proof (heap_rep_alloc _ _ _ _ _ Hrep Hn) as Har. cbn [h_mem h_freep] in *.
  exists fl, al. cbn [fst snd]. split.
  - right. cbn [h_mem h_freep]. eapply arena_write; [done|exact Hn|unfold HSIZE in *; lia].
  - intros q k. rewrite lookup_insert_Some. cbn [h_mem]. intros [[<- <-]|[Hne Hq]].
    + exists n. split; [done|]. split; [by rewrite length_insert|]. intros j y Hj. destruct (decide (i = j)) as [->|Hij].
      * rewrite list_lookup_insert_eq in Hj by done. injection Hj as <-. apply lookup_insert_eq.
      * rewrite list_lookup_insert_ne in Hj by done. rewrite lookup_insert_ne by lia. by apply Hb.
    + destruct (HB q k Hq) as (c & Hc & Hk & Hbk). exists c. split; [done|]. split; [done|]. intros j y Hj. rewrite lookup_insert_ne; [by apply Hbk|].
      pose proof (ar_sep _ _ _ _ Har _ _ _ _ Hn Hc ltac:(lia)). apply lookup_lt_Some in Hj. unfold HSIZE in *. lia.
Qed.

Lemma uinv_step x y : ustep x y → uinv x → uinv y.
Proof using Hsbrk.
  intros Hstep. destruct Hstep as [s B fuel nbytes r s' l Hn E Hr Hlen Hl|s B fuel nbytes s' Hn E|s B fuel p l s' Hp E|m f B p l i x Hp Hi]; [..|by intros; apply uinv_write];
    intros (fl & al & Hrep & HB); cbn [fst snd] in *.
  - destruct (malloc_ok s fl al nbytes (fuel + 2 * length fl + 5) (fuel + 2 * length fl + 5) Hrep Hn ltac:(lia) ltac:(lia)) as (r' & s'' & E' & Hk & Hres).
    rewrite (malloc_mono _ (fuel + 2 * length fl + 5) _ _ _ _ E) in E' by lia. injection E' as <- <-. destruct Hres as [(-> & _)|(fl' & Hnone & Har)]; [done|].
    exists fl', (<[r - HSIZE := malloc_units nbytes]> al). split; [by right|]. pose proof (kept_blocks _ _ _ _ HB Hk) as HB'. intros q k. cbn [fst snd]. rewrite lookup_insert_Some. intros [[<- <-]|[Hne Hq]].
    + eexists. split; [apply lookup_insert_eq|]. destruct (malloc_units_ok nbytes Hn) as (_ & _ & ?). split; [lia|done].
    + destruct (HB' q k Hq) as (c & Hc & ? & ?). exists c. split; [|done]. rewrite lookup_insert_ne; [done|]. congruence.
  - destruct (malloc_ok s fl al nbytes (fuel + 2 * length fl + 5) (fuel + 2 * length fl + 5) Hrep Hn ltac:(lia) ltac:(lia)) as (r' & s'' & E' & Hk & Hres).
    rewrite (malloc_mono _ (fuel + 2 * length fl + 5) _ _ _ _ E) in E' by lia. injection E' as <- <-. pose proof (kept_blocks _ _ _ _ HB Hk) as HB'.
    destruct Hres as [(_ & _ & Har & _)|(fl' & _ & Har)]; [exists fl, al; split; [by right|done]|]. exfalso.
    destruct (ar_alloc _ _ _ _ Har (0 - HSIZE) _ (lookup_insert_eq _ _ _)) as (_ & H1 & _). pose proof (ar_base _ _ _ _ Har). unfold HSIZE in *. lia.
  - destruct (HB p l Hp) as (n & Hpn & Hl & Hb). pose proof (heap_rep_alloc _ _ _ _ _ Hrep Hpn) as Har. destruct s as [m f]. cbn [h_mem h_freep] in *.
    destruct (free_ok m f fl al (p - HSIZE) n (fuel + length fl + 2) Har Hpn ltac:(lia)) as (m' & f' & fl' & E' & Har' & Hk & _). replace (p - HSIZE + HSIZE) with p in E' by lia.
    rewrite (free_mono _ (fuel + length fl + 2) _ _ _ _ E) in E' by lia. injection E' as ->. exists fl', (delete (p - HSIZE) al). split; [by right|].
    intros q k. cbn [fst snd h_mem]. rewrite lookup_delete_Some. intros [Hne Hq]. destruct (HB q k Hq) as (c & Hc & ? & Hbk). exists c.
    assert (delete (p - HSIZE) al !! (q - HSIZE) = Some c) as Hc' by (rewrite lookup_delete_ne; [done|lia]). split; [done|]. split; [done|].
    intros j y Hj. rewrite (Hk _ c _ Hc'); [by apply Hbk|]. apply lookup_lt_Some in Hj. unfold HSIZE in *. lia.
Qed.

(** C20: the allocator is sound.  Whatever sequence of calls of malloc and free
    and of writes into its blocks a program makes, every block it has holds
    what the program put into it, no two blocks share a byte, and free of a
    block returns.  malloc of up to 2^31 - 24 bytes returns: a new block of
    that many bytes that shares none with the others, or 0, and 0 only when no
    block of the free list is large enough and sbrk refuses, in this very
    state, to give max(4096, units of the request) units.  sbrk may give its
    memory anywhere above [base]. *)
Theorem umalloc_sound m s B :
  0 < base → base + HSIZE < 2 ^ 32 → owned m base HSIZE → rtc ustep (Heap m 0, ∅) (s, B) →
  (∀ p l, B !! p = Some l → bytes_at (h_mem s) p l) ∧
  (∀ p l q k, B !! p = Some l → B !! q = Some k → p ≠ q → p + Z.of_nat (length l) ≤ q ∨ q + Z.of_nat (length k) ≤ p) ∧
  (∀ p l, B !! p = Some l → ∃ fuel s', free fuel p s = Ok tt s') ∧
  (∀ nbytes, 0 ≤ nbytes ≤ MAXREQ → ∃ fuel r s', malloc sbrk base fuel fuel nbytes s = Ok r s' ∧
     (r = 0 → s' = started s ∧
        (∃ fl, free_list (h_mem s') fl ∧ ∀ x, x ∈ fl → x.2 < malloc_units nbytes) ∧
        sbrk (HSIZE * (4096 `max` malloc_units nbytes)) s' = Ok (-1) s') ∧
     (r ≠ 0 → owned (h_mem s') r nbytes ∧
        ∀ p l, B !! p = Some l → p + Z.of_nat (length l) ≤ r ∨ r + nbytes ≤ p)).
Proof using Hsbrk.
  intros B1 B2 B3 Hreach.
  assert (uinv (s, B)) as (fl & al & Hrep & HB).
  { cut (uinv (Heap m 0, ∅)); [|exists [], ∅; split; [by left|by intros p l; rewrite lookup_empty]]. intros Hi. revert Hi.
    induction Hreach as [|x y z H1 _ IH]; [done|]. intros Hx. by eapply IH, uinv_step. }
  cbn [fst snd] in *. split; [|split; [|split]].
  - intros p l Hp. by destruct (HB p l Hp) as (n & _ & _ & Hb).
  - intros p l q k Hp Hq Hne. destruct (HB p l Hp) as (n & Hn & Hl & _), (HB q k Hq) as (c & Hc & Hk & _). pose proof (heap_rep_alloc _ _ _ _ _ Hrep Hn) as Har.
    pose proof (ar_sep _ _ _ _ Har _ _ _ _ Hn Hc ltac:(lia)). unfold HSIZE in *. lia.
  - intros p l Hp. destruct (HB p l Hp) as (n & Hn & _). pose proof (heap_rep_alloc _ _ _ _ _ Hrep Hn) as Har. destruct s as [m1 f1]. cbn [h_mem h_freep] in Har.
    destruct (free_ok m1 f1 fl al (p - HSIZE) n _ Har Hn (Nat.le_refl _)) as (m' & f' & fl' & E & _). replace (p - HSIZE + HSIZE) with p in E by lia. by eexists _, _.
  - intros nbytes Hn. destruct (malloc_ok s fl al nbytes (2 * length fl + 5) (2 * length fl + 5) Hrep Hn ltac:(lia) ltac:(lia)) as (r & s' & E & _ & Hres).
    eexists _, r, s'. split; [exact E|]. destruct (malloc_units_ok nbytes Hn) as (Hu0 & _ & Hu). destruct Hres as [(-> & -> & Har & Hno & Es)|(fl' & Hnone & Har)].
    + split; [|done]. intros _. split; [done|]. split; [|done]. exists fl. split; [split; [apply Har|apply Har]|done].
    + destruct (ar_alloc _ _ _ _ Har (r - HSIZE) _ (lookup_insert_eq _ _ _)) as (_ & H1 & _ & _ & Ho). split; [intros ->; unfold HSIZE in *; lia|]. intros _. split.
      * eapply owned_sub; [exact Ho|unfold HSIZE in *; lia..].
      * intros p l Hp. destruct (HB p l Hp) as (n & Hpn & Hl & _). assert (p - HSIZE ≠ r - HSIZE) as Hne by congruence.
        pose proof (ar_sep _ _ _ _ Har (p - HSIZE) n (r - HSIZE) (malloc_units nbytes) ltac:(by rewrite lookup_insert_ne) (lookup_insert_eq _ _ _) Hne). unfold HSIZE in *. lia.
Qed.
End arena.

(** ** An example *)
Module Example.

(** A process with [base] at 100 whose break is its number of bytes above, and
    which may grow to 50000 bytes. *)
Definition ex_base : Z := 100.
Definition ex_sbrk (n : Z) : M heap Z := λ s,
  let p := 1000 + Z.of_nat (size (h_mem s)) in
  if (p + n <? 50000) && forallb (λ x, (x.1 <? p) || (p + n <=? x.1)) (map_to_list (h_mem s))
  then Ok p (Heap (put_bytes p (replicate (Z.to_nat n) 0) (h_mem s)) (h_freep s)) else Ok (-1) s.

Lemma ex_sbrk_law : sbrk_law ex_base ex_sbrk.
Proof.
  intros n m f Hn. unfold ex_sbrk. cbn [h_mem h_freep]. set (p := 1000 + _). destruct (_ && _) eqn:E; [right|by left].
  apply andb_true_iff in E as [E1%Z.ltb_lt E2]. exists p, (replicate (Z.to_nat n) 0). split; [done|]. split; [rewrite length_replicate; lia|].
  split; [unfold p, ex_base, HSIZE; lia|]. split; [lia|]. intros y Hy. destruct (m !! y) as [z|] eqn:Ey; [|done].
  rewrite forallb_forall in E2. specialize (E2 (y, z)). rewrite <- list_elem_of_In, elem_of_map_to_list in E2. specialize (E2 Ey). cbn [fst] in E2.
  apply orb_true_iff in E2 as [E2%Z.ltb_lt|E2%Z.leb_le]; lia.
Qed.

Definition ex_mem : mem := put_bytes ex_base (replicate 8 0) ∅.

Lemma ex_owned : owned ex_mem ex_base HSIZE.
Proof.
  intros y Hy. unfold ex_mem. rewrite lookup_put_bytes, length_replicate, decide_True by (unfold HSIZE in Hy; lia).
  apply lookup_lt_is_Some_2. rewrite length_replicate. unfold HSIZE in Hy. lia.
Qed.

(** A call that returns a block of [n] zeroes. *)
Definition zero_block (n : nat) (o : outcome heap Z) : bool :=
  match o with
  | Ok r s => negb (r =? 0) && forallb (λ i, bool_decide (h_mem s !! (r + Z.of_nat i) = Some 0)) (seq 0 n)
  | _ => false
  end.

Lemma zero_block_ok n o : zero_block n o = true → ∃ r s, o = Ok r s ∧ r ≠ 0 ∧ bytes_at (h_mem s) r (replicate n 0).
Proof.
  destruct o as [r s| | | |]; [|done..]. intros [H1%negb_true_iff%Z.eqb_neq H2]%andb_true_iff. exists r, s. split; [done|]. split; [done|].
  intros i x [-> Hi]%lookup_replicate. rewrite forallb_forall in H2. eapply bool_decide_eq_true_1, H2, in_seq. lia.
Qed.

(** malloc(10) and a write of 7 into the third byte. *)
Lemma umalloc_sound_witness :
  ∃ s p, rtc (ustep ex_base ex_sbrk) (Heap ex_mem 0, ∅) (s, {[p := [0; 0; 7; 0; 0; 0; 0; 0; 0; 0]]}) ∧
    bytes_at (h_mem s) p [0; 0; 7; 0; 0; 0; 0; 0; 0; 0] ∧ ∃ fuel s', free fuel p s = Ok tt s'.
Proof.
  destruct (zero_block_ok 10 (malloc ex_sbrk ex_base 9 9 10 (Heap ex_mem 0))) as (p & [m f] & E & Hp & Hl); [vm_compute; reflexivity|].
  assert (rtc (ustep ex_base ex_sbrk) (Heap ex_mem 0, ∅) (Heap (<[p + Z.of_nat 2 := 7]> m) f, <[p := <[2%nat := 7]> (replicate 10 0)]> {[p := replicate 10 0]})) as Hr.
  { eapply rtc_l; [eapply u_malloc; [|exact E|exact Hp| |exact Hl]; [split; [done|by vm_compute]|done]|].
    eapply rtc_l; [|apply rtc_refl]. apply u_write; [apply lookup_insert_eq|cbn; lia]. }
  rewrite insert_singleton_eq in Hr. exists (Heap (<[p + Z.of_nat 2 := 7]> m) f), p. split; [exact Hr|].
  destruct (umalloc_sound ex_base ex_sbrk ex_sbrk_law ex_mem _ _ ltac:(done) ltac:(done) ex_owned Hr) as (H1 & _ & H3 & _).
  split; [apply H1|eapply H3]; apply lookup_singleton_eq.
Defined.
End Example.
