(* ===== verification/Mkfs.v ===== *)
(** * The file system image (mkfs.c)

    The image is built block by block.  The host's files are lists of bytes,
    and a failed assertion or call of the host's library ends the program. *)

From S2P Require Import Prelude Params Disk Superblock Fs.

Definition NINODES : Z := 200.
Definition nbitmap : Z := FSSIZE / (BSIZE * 8) + 1.
Definition ninodeblocks : Z := NINODES / IPB + 1.
Definition nlog : Z := LOGSIZE.
Definition nmeta : Z := 2 + nlog + ninodeblocks + nbitmap.
Definition nblocks : Z := FSSIZE - nmeta.

(** The superblock that main() fills in. *)
Definition mkfs_sb : superblock :=
  Superblock FSSIZE nblocks NINODES nlog 2 (2 + nlog) (2 + nlog + ninodeblocks).

Definition sb_encode (sb : superblock) : list Z :=
  concat (le_bytes 4 <$> [sb_size sb; sb_nblocks sb; sb_ninodes sb; sb_nlog sb; sb_logstart sb;
                          sb_inodestart sb; sb_bmapstart sb]).

(** The image, freeinode and freeblock. *)
Record image := Image { im_blocks : gmap Z block; im_freeinode : Z; im_freeblock : Z }.

(** assert() *)
Definition check (b : bool) : M image unit := if b then mret tt else panic "assertion failed".

Definition wsect (sec : Z) (buf : block) : M image unit :=
  modify (λ s, Image (<[sec := buf]> (im_blocks s)) (im_freeinode s) (im_freeblock s)).
Definition rsect (sec : Z) : M image block := λ s,
  match im_blocks s !! sec with Some x => Ok x s | None => Panic "read" end.

Definition winode (inum : Z) (ip : dinode) : M image unit :=
  let bn := IBLOCK inum mkfs_sb in
  buf ← rsect bn;
  wsect bn (put_dinode inum ip buf).

Definition rinode (inum : Z) : M image dinode :=
  buf ← rsect (IBLOCK inum mkfs_sb); mret (get_dinode inum buf).

Definition mk_ialloc (type : Z) : M image Z :=
  s ← get;
  let inum := im_freeinode s in
  modify (λ s, Image (im_blocks s) (u32 (inum + 1)) (im_freeblock s));;
  winode inum (DInode type 0 0 1 0 (replicate (Z.to_nat (NDIRECT + 1)) 0));;
  mret inum.

(** The loop of balloc, [n] bits left. *)
Fixpoint bitmap_loop (n : nat) (i : Z) (buf : block) : block :=
  match n with
  | O => buf
  | S n =>
      bitmap_loop n (i + 1)
        (alter (λ y, Z.lor y (Z.shiftl 1 (i `mod` 8))) (Z.to_nat (i / 8)) buf)
  end.

Definition mk_balloc (used : Z) : M image unit :=
  check (used <? BSIZE * 8);;
  wsect (sb_bmapstart mkfs_sb) (bitmap_loop (Z.to_nat used) 0 (replicate BSIZE_n 0)).

(** freeblock++ *)
Definition take_block : M image Z :=
  s ← get;
  modify (λ s, Image (im_blocks s) (im_freeinode s) (u32 (im_freeblock s + 1)));;
  mret (im_freeblock s).

(** The block of the file for [fbn], with the inode that now points to it. *)
Definition file_block (din : dinode) (fbn : Z) : M image (Z * dinode) :=
  if fbn <? NDIRECT then
    let a := default 0 (d_addrs din !! Z.to_nat fbn) in
    if a =? 0 then b ← take_block; mret (b, set_addr (Z.to_nat fbn) b din) else mret (a, din)
  else
    let a := default 0 (d_addrs din !! Z.to_nat NDIRECT) in
    r ← (if a =? 0 then b ← take_block; mret (b, set_addr (Z.to_nat NDIRECT) b din) else mret (a, din));
    ind ← rsect r.1;
    let x := word_at ind (Z.to_nat (fbn - NDIRECT)) in
    if x =? 0 then
      b ← take_block;
      wsect r.1 (set_word (Z.to_nat (fbn - NDIRECT)) b ind);;
      mret (b, r.2)
    else mret (x, r.2).

(** The loop of iappend on the bytes [p]. *)
Fixpoint iappend_loop (fuel : nat) (din : dinode) (off : Z) (p : list Z) : M image (dinode * Z) :=
  match fuel with
  | O => nofuel
  | S fuel =>
      if bool_decide (p = []) then mret (din, off)
      else
        let fbn := off / BSIZE in
        check (fbn <? MAXFILE);;
        r ← file_block din fbn;
        let n1 := Z.min (Z.of_nat (length p)) ((fbn + 1) * BSIZE - off) in
        buf ← rsect r.1;
        wsect r.1 (splice (Z.to_nat (off - fbn * BSIZE)) (take (Z.to_nat n1) p) buf);;
        iappend_loop fuel r.2 (off + n1) (drop (Z.to_nat n1) p)
  end.

Definition iappend (inum : Z) (p : list Z) : M image unit :=
  din ← rinode inum;
  r ← iappend_loop (S (length p)) din (d_size din) p;
  winode inum (set_size r.2 r.1).

(** The calls of read() deliver BSIZE bytes at a time. *)
Fixpoint append_file (fuel : nat) (inum : Z) (p : list Z) : M image unit :=
  match fuel with
  | O => nofuel
  | S fuel =>
      if bool_decide (p = []) then mret tt
      else iappend inum (take BSIZE_n p);; append_file fuel inum (drop BSIZE_n p)
  end.

(** if(argv[i][0] == '_') ++argv[i]; *)
Definition strip_underscore (name : list Z) : list Z :=
  match name with 95 :: name => name | _ => name end.

Fixpoint mkfs_files (rootino : Z) (files : list (list Z * list Z)) : M image unit :=
  match files with
  | [] => mret tt
  | (name, contents) :: files =>
      check (negb (bool_decide (SLASH ∈ name)));;
      inum ← mk_ialloc T_FILE;
      iappend rootino (mk_dirent (strip_underscore name) inum);;
      append_file (S (length contents)) inum contents;;
      mkfs_files rootino files
  end.

Definition zero_image : image :=
  Image (list_to_map ((λ i, (Z.of_nat i, replicate BSIZE_n 0)) <$> seq 0 (Z.to_nat FSSIZE))) 1 nmeta.

(** main() on the host's files, each a name and its contents. *)
Definition mkfs (files : list (list Z * list Z)) : M image unit :=
  put zero_image;;
  wsect 1 (splice 0 (sb_encode mkfs_sb) (replicate BSIZE_n 0));;
  rootino ← mk_ialloc T_DIR;
  check (rootino =? ROOTINO);;
  iappend rootino (mk_dirent [46] rootino);;
  iappend rootino (mk_dirent [46; 46] rootino);;
  mkfs_files rootino files;;
  din ← rinode rootino;
  winode rootino (set_size ((d_size din / BSIZE + 1) * BSIZE) din);;
  s ← get;
  mk_balloc (im_freeblock s).
