(* ===== verification/MkfsProofs.v ===== *)
(** * The file system image: appending to a file

    iappend against the contents of inodes.  The map of free blocks is written
    last, so the blocks of the image are seen here with the map that mkfs
    would write now; a block that mkfs takes is then one that balloc of the
    kernel could have given. *)

From S2P Require Import Prelude Params Disk Superblock Txn Fs FsBlocks FsInode FsBmap FsIo FsDinode FsWrite FsDir Mkfs.

Definition zeros : block := replicate BSIZE_n 0.

(** ** The free map *)

Definition set_bit (i : Z) (buf : block) : block := alter (λ y, Z.lor y (Z.shiftl 1 (i `mod` 8))) (Z.to_nat (i / 8)) buf.

Lemma bitmap_loop_last n i buf : bitmap_loop (S n) i buf = set_bit (i + Z.of_nat n) (bitmap_loop n i buf).
Proof.
  revert i buf. induction n as [|n IH]; intros i buf; [cbn [bitmap_loop]; by rewrite Z.add_0_r|].
  change (bitmap_loop (S (S n)) i buf) with (bitmap_loop (S n) (i + 1) (set_bit i buf)). rewrite IH.
  change (bitmap_loop (S n) i buf) with (bitmap_loop n (i + 1) (set_bit i buf)). f_equal. lia.
Qed.

(** The map with the first [n] blocks in use. *)
Definition bits (n : Z) : block := bitmap_loop (Z.to_nat n) 0 zeros.

Lemma set_bit_mark i x : Forall byte_ok x → length x = BSIZE_n → 0 ≤ i < BPB → set_bit i x = mark i x ∧ Forall byte_ok (set_bit i x).
Proof.
  intros Hb Hl Hi. pose proof (bit_byte_lt x i Hl Hi) as Hlt. destruct (lookup_lt_is_Some_2 _ _ Hlt) as [y Hy].
  pose proof (Forall_lookup_1 _ _ _ _ Hb Hy) as Hyb. assert (0 ≤ i `mod` 8 < 8) by (apply Z.mod_pos_bound; lia).
  unfold set_bit. change (Z.to_nat (i / 8)) with (bit_byte i). rewrite (alter_insert_some _ _ _ _ Hy).
  assert (byte_ok (Z.lor y (Z.shiftl 1 (i `mod` 8)))) as Hlor.
  { unfold byte_ok in *. rewrite Z.shiftl_1_l. change 256 with (2 ^ 8). split; [apply Z.lor_nonneg; lia|].
    apply Z.log2_lt_cancel. rewrite Z.log2_lor, Z.log2_pow2, (Z.log2_pow2 8) by lia. apply Z.max_lub_lt; [|lia].
    destruct (decide (y = 0)) as [->|]; [done|]. apply Z.log2_lt_pow2; lia. }
  split; [|by apply Forall_insert]. unfold mark, bit_mask. rewrite Hy. cbn [from_option id]. by rewrite u8_byte.
Qed.

Lemma bits_ok n : 0 ≤ n ≤ BPB → length (bits n) = BSIZE_n ∧ Forall byte_ok (bits n) ∧ (n < BPB → bits (n + 1) = mark n (bits n)).
Proof.
  intros Hn. assert (length (bits n) = BSIZE_n ∧ Forall byte_ok (bits n)) as [H1 H2].
  { unfold bits. assert (Z.of_nat (Z.to_nat n) ≤ BPB) as Hk by lia. clear Hn. induction (Z.to_nat n) as [|k IH].
    - split; [apply length_replicate|by apply Forall_replicate].
    - destruct IH as [H1 H2]; [lia|]. rewrite bitmap_loop_last, Z.add_0_l. destruct (set_bit_mark (Z.of_nat k) _ H2 H1 ltac:(lia)) as [E H3].
      split; [|done]. rewrite E. unfold mark. by rewrite length_insert. }
  split; [done|]. split; [done|]. intros Hlt. unfold bits at 1. replace (Z.to_nat (n + 1)) with (S (Z.to_nat n)) by lia.
  rewrite bitmap_loop_last, Z.add_0_l, Z2Nat.id by lia. apply (set_bit_mark n (bits n) H2 H1). lia.
Qed.

(** ** The bytes of inodes

    Block 0 of the image is zero, so that the bytes that an inode does not
    have are zero as well. *)

Lemma zeros_byte o : default 0 (zeros !! o) = 0.
Proof. unfold zeros. destruct (replicate BSIZE_n 0 !! o) as [y|] eqn:E; [|done]. by apply lookup_replicate in E as [-> _]. Qed.

Lemma byte_zeros m d o : m !! addr_of m d (o / BSIZE_n) = Some zeros → byte_at m d o = 0.
Proof. intros H. unfold byte_at, FsInode.file_block. rewrite H. apply zeros_byte. Qed.

Lemma addr_insert m m' d d' p f bn :
  blk m' d' = <[p := f]> (blk m d) → (p < length (blk m d))%nat → addr_of m' d' bn = if decide (p = S bn) then f else addr_of m d bn.
Proof.
  intros E Hp. unfold addr_of. change (addrs_of m' d' !! bn) with (blk m' d' !! S bn). rewrite E. destruct (decide (p = S bn)) as [->|Hne].
  - by rewrite list_lookup_insert_eq.
  - by rewrite list_lookup_insert_ne by done.
Qed.

Section bytes.
Context (sb : superblock) (m m' : gmap Z block) (ds : gmap Z dinode) (inum : Z) (d : dinode).
Context (Hok : fs_ok sb m ds) (Hd : ds !! inum = Some d) (H0 : m !! 0 = Some zeros) (H0' : m' !! 0 = Some zeros).

(** A new block is zero. *)
Lemma grown_bytes d' p f i e o :
  grown sb m m' d d' p f → m' !! f = Some zeros → ds !! i = Some e →
  byte_at m' (if decide (i = inum) then d' else e) o = byte_at m e o.
Proof using Hok Hd H0 H0'.
  intros Hg Hf He. destruct (decide (addr_of m e (o / BSIZE_n) = 0)) as [Ha|Ha].
  2: { apply byte_at_ext, (grown_keeps sb m m' ds inum d d' p f Hok Hd Hg i e _ He Ha). }
  rewrite (byte_zeros m e) by (by rewrite Ha). apply byte_zeros. destruct (decide (i = inum)) as [->|Hi].
  - assert (e = d) as -> by congruence. rewrite (addr_insert m m' d d' p f _ (g_blk Hg) (lookup_lt_Some _ _ _ (g_at Hg))), Ha.
    by destruct (decide _).
  - rewrite (blk_addr_of m m' e e) by (by rewrite (grown_other sb m m' ds inum d d' p f Hok Hd Hg i e Hi He)). by rewrite Ha.
Qed.

Lemma leaf_bytes bn k bytes i e o :
  addr_of m d bn ≠ 0 → (k + length bytes ≤ BSIZE_n)%nat → ds !! i = Some e →
  byte_at (<[addr_of m d bn := splice k bytes (FsInode.file_block m d bn)]> m) e o =
    if decide (i = inum ∧ bn * BSIZE_n + k ≤ o < bn * BSIZE_n + k + length bytes)%nat then default 0 (bytes !! (o - (bn * BSIZE_n + k))%nat)
    else byte_at m e o.
Proof using Hok Hd H0.
  intros Ha Hk He. set (x := splice _ _ _). assert (BSIZE_n ≠ 0)%nat as Hnz by done.
  pose proof (leaf_data sb m ds inum d bn Hok Hd Ha) as Hdb. pose proof (data_block_pos _ _ _ (fo_map Hok) Hdb) as Hpos.
  destruct (decide (addr_of m e (o / BSIZE_n) = 0)) as [Hz|Hz].
  - rewrite decide_False.
    + rewrite (byte_zeros m e) by (by rewrite Hz). apply byte_zeros.
      rewrite (blk_addr_of m _ e e) by (by rewrite (leaf_blk sb m ds inum d bn x Hok Hd Ha i e He)).
      rewrite Hz, lookup_insert_ne by lia. done.
    + intros [-> Hin]. assert (e = d) as -> by congruence. apply Ha.
      by rewrite (Nat.div_unique o BSIZE_n bn (o - bn * BSIZE_n)) by lia.
  - destruct (decide (i = inum)) as [->|Hi].
    + assert (e = d) as -> by congruence. unfold x. rewrite (leaf_byte sb m ds inum d bn k bytes o Hok Hd Ha Hz Hk). cbv zeta.
      destruct (decide _), (decide _); [done|by exfalso; naive_solver..|done].
    + rewrite decide_False by (by intros [? _]). apply byte_at_ext.
      rewrite (leaf_file_block sb m ds inum d bn x Hok Hd Ha i e _ He Hz). by rewrite decide_False by (by intros [? _]).
Qed.
End bytes.

(** ** The image under construction *)

(** The blocks of the image with the map of what is in use now. *)
Definition imap (s : image) : gmap Z block := <[sb_bmapstart mkfs_sb := bits (im_freeblock s)]> (im_blocks s).

Record laid (s : image) (ds : gmap Z dinode) : Prop := Laid {
  la_ok : fs_ok mkfs_sb (imap s) ds;
  la_range : nmeta ≤ im_freeblock s ≤ FSSIZE;
  la_free b : im_freeblock s ≤ b < FSSIZE → im_blocks s !! b = Some zeros;
  la_zero : im_blocks s !! 0 = Some zeros;
}.

#[global] Arguments la_ok {_ _}.
#[global] Arguments la_range {_ _}.
#[global] Arguments la_free {_ _}.
#[global] Arguments la_zero {_ _}.

Lemma imap_data s b : b ≠ sb_bmapstart mkfs_sb → imap s !! b = im_blocks s !! b.
Proof. intros Hb. unfold imap. by rewrite lookup_insert_ne. Qed.

Lemma imap_write s b x : b ≠ sb_bmapstart mkfs_sb → imap (Image (<[b := x]> (im_blocks s)) (im_freeinode s) (im_freeblock s)) = <[b := x]> (imap s).
Proof. intros Hb. unfold imap. cbn [im_blocks im_freeblock]. by rewrite insert_insert_ne. Qed.

Lemma BBLOCK_mkfs f : 0 ≤ f < FSSIZE → BBLOCK f mkfs_sb = sb_bmapstart mkfs_sb.
Proof. intros Hf. unfold BBLOCK. rewrite Z.div_small; [done|]. unfold FSSIZE, BPB, BSIZE in *. lia. Qed.

Lemma bits_bit n g : 0 ≤ n ≤ BPB → 0 ≤ g < BPB → bit_of (bits n) g = bool_decide (g < n).
Proof.
  intros Hn Hg. destruct Hn as [Hn Hle]. revert Hle. pattern n. apply natlike_ind; [| |done]; clear n Hn.
  - intros _. unfold bits, bit_of. cbn [bitmap_loop Z.to_nat]. rewrite zeros_byte, Z.bits_0. by rewrite bool_decide_false by lia.
  - intros n Hn IH Hle. rewrite <- Z.add_1_r in *. destruct (bits_ok n ltac:(lia)) as (Hl & _ & E). rewrite E by lia.
    rewrite bit_of_mark, IH by (done || lia). rewrite <- bool_decide_or. apply bool_decide_ext. lia.
Qed.

Section take.
Context (s : image) (ds : gmap Z dinode) (Hs : laid s ds) (Hf : im_freeblock s < FSSIZE).
#[local] Abbreviation f := (im_freeblock s).
#[local] Abbreviation s1 := (Image (im_blocks s) (im_freeinode s) (f + 1)).

Lemma take_ok : take_block s = Ok f s1.
Proof using Hs Hf.
  unfold take_block, get, modify, mbind, M_bind, mret, M_ret. do 2 f_equal. apply u32_small.
  pose proof (la_range Hs) as Hr. change nmeta with 59 in Hr. unfold FSSIZE in *. lia.
Qed.

Lemma take_fresh : data_block mkfs_sb f ∧ used mkfs_sb (imap s) f = false.
Proof using Hs Hf.
  pose proof (la_range Hs) as Hr. change nmeta with 59 in Hr. split; [change (59 ≤ f < 1000); unfold FSSIZE in Hf; lia|].
  unfold used. rewrite BBLOCK_mkfs by lia. unfold imap. rewrite lookup_insert_eq. unfold bit_index.
  rewrite Z.mod_small by (unfold FSSIZE, BPB, BSIZE in *; lia). rewrite bits_bit by (unfold FSSIZE, BPB, BSIZE in *; lia).
  apply bool_decide_false. lia.
Qed.

Lemma take_map : imap s1 = alloc_map mkfs_sb f (imap s).
Proof using Hs Hf.
  pose proof (la_range Hs) as Hr. change nmeta with 59 in Hr. unfold alloc_map, imap at 1. cbn [im_blocks im_freeblock].
  rewrite BBLOCK_mkfs by lia. unfold imap. rewrite lookup_insert_eq, insert_insert_eq. cbn [from_option id]. unfold bit_index.
  rewrite Z.mod_small by (unfold FSSIZE, BPB, BSIZE in *; lia).
  destruct (bits_ok f ltac:(unfold FSSIZE, BPB, BSIZE in *; lia)) as (_ & _ & E).
  rewrite E by (unfold FSSIZE, BPB, BSIZE in *; lia).
  symmetry. apply insert_id. rewrite lookup_insert_ne by (change (58 ≠ f); lia). apply (la_free Hs). lia.
Qed.
End take.

(** ** Attaching blocks *)

(** From [s] to [s1] the bytes at [off] of inode [inum], which has become
    [d1], have become [bytes]; all other bytes are the same. *)
Record appended (s s1 : image) (ds : gmap Z dinode) (inum : Z) (d d1 : dinode) (off : nat) (bytes : list Z) : Prop := Appended {
  ap_laid : laid s1 (<[inum := d1]> ds);
  ap_byte i e o : ds !! i = Some e →
    byte_at (imap s1) (if decide (i = inum) then d1 else e) o =
      if decide (i = inum ∧ off ≤ o < off + length bytes)%nat then default 0 (bytes !! (o - off)%nat) else byte_at (imap s) e o;
  ap_other i e : i ≠ inum → ds !! i = Some e → blk (imap s1) e = blk (imap s) e;
  ap_meta : same_meta d d1;
  ap_low b : b < nmeta → b ≠ sb_bmapstart mkfs_sb → im_blocks s1 !! b = im_blocks s !! b;
  ap_inode : im_freeinode s1 = im_freeinode s;
}.

Lemma appended_nil s ds inum d off : laid s ds → ds !! inum = Some d → appended s s ds inum d d off [].
Proof.
  intros Hs Hd. split; [by rewrite insert_id| |done..]. intros i e o He.
  rewrite (decide_False (P := i = inum ∧ _)) by (cbn; lia). destruct (decide (i = inum)) as [->|]; [|done].
  by assert (e = d) as -> by congruence.
Qed.

Lemma same_meta_trans d d1 d2 : same_meta d d1 → same_meta d1 d2 → same_meta d d2.
Proof. intros (M1 & M2 & M3 & M4 & M5) (N1 & N2 & N3 & N4 & N5). repeat split; congruence. Qed.

Lemma appended_trans s s1 s2 ds inum d d1 d2 off off1 b1 b2 :
  ds !! inum = Some d → off1 = (off + length b1)%nat → appended s s1 ds inum d d1 off b1 →
  appended s1 s2 (<[inum := d1]> ds) inum d1 d2 off1 b2 → appended s s2 ds inum d d2 off (b1 ++ b2).
Proof.
  intros Hd -> [L1 B1 O1 M1 W1 I1] [L2 B2 O2 M2 W2 I2].
  split; [by rewrite insert_insert_eq in L2| | |by eapply same_meta_trans|intros b Hb Hn; by rewrite W2, W1|congruence].
  - intros i e o He. rewrite length_app. specialize (B1 i e o He). destruct (decide (i = inum)) as [->|Hi].
    + specialize (B2 inum d1 o (lookup_insert_eq _ _ _)). rewrite decide_True in B2 by done. rewrite B2, B1.
      destruct (decide (off ≤ o < off + length b1)%nat) as [H1|H1].
      * rewrite (decide_False (P := _ ∧ (_ + length b1 ≤ o < _)%nat)) by lia. rewrite !decide_True by lia. by rewrite lookup_app_l by lia.
      * destruct (decide (off + length b1 ≤ o < off + length b1 + length b2)%nat) as [H2|H2].
        -- rewrite !decide_True by lia. rewrite lookup_app_r by lia. do 2 f_equal. lia.
        -- rewrite !decide_False by lia. done.
    + specialize (B2 i e o). rewrite lookup_insert_ne in B2 by done. specialize (B2 He).
      rewrite (decide_False (P := i = inum)) in B2 by done.
      rewrite (decide_False (P := i = inum ∧ _)) by (by intros [? _]). rewrite decide_False in B1 by (by intros [? _]). rewrite decide_False in B2 by (by intros [? _]). congruence.
  - intros i e Hi He. rewrite (O2 i e), (O1 i e); [done..|by rewrite lookup_insert_ne].
Qed.

(** One more block for inode [inum]. *)
Lemma appended_grown s s1 ds inum d d1 off p :
  laid s ds → ds !! inum = Some d → im_freeblock s < FSSIZE → im_freeblock s1 = im_freeblock s + 1 → im_freeinode s1 = im_freeinode s →
  (∀ b, b < nmeta ∨ im_freeblock s ≤ b → im_blocks s1 !! b = im_blocks s !! b) →
  grown mkfs_sb (imap s) (imap s1) d d1 p (im_freeblock s) → same_meta d d1 → appended s s1 ds inum d d1 off [].
Proof.
  intros Hs Hd Hf Ef Ei Hb Hg Hm. pose proof (la_range Hs) as Hr. change nmeta with 59 in *. pose proof (la_ok Hs) as Hok.
  assert (∀ s, im_blocks s !! 0 = Some zeros → imap s !! 0 = Some zeros) as H0 by (intros s' E; by rewrite imap_data by done).
  assert (im_blocks s1 !! 0 = Some zeros) as Hz by (rewrite Hb by lia; apply (la_zero Hs)).
  split; [split| | |done|intros b Hlt _; apply Hb; left; exact Hlt|done].
  - by apply (grown_ok mkfs_sb (imap s) _ ds inum d d1 p (im_freeblock s) Hok Hd).
  - change nmeta with 59. lia.
  - intros b Hlt. rewrite Hb by lia. apply (la_free Hs). lia.
  - done.
  - intros i e o He. rewrite (decide_False (P := i = inum ∧ _)) by (cbn; lia).
    apply (grown_bytes mkfs_sb _ _ ds inum d Hok Hd (H0 _ (la_zero Hs)) (H0 _ Hz) d1 p (im_freeblock s) i e o Hg); [|done].
    rewrite imap_data by (change (im_freeblock s ≠ 58); lia). rewrite Hb by lia. apply (la_free Hs). lia.
  - intros i e Hi He. by apply (grown_other mkfs_sb (imap s) _ ds inum d d1 p (im_freeblock s) Hok Hd Hg i e).
Qed.

(** The inode has its first [k] blocks, and the indirect block if it needs it. *)
Record shape (m : gmap Z block) (d : dinode) (k : nat) : Prop := Shape {
  sh_addr bn : addr_of m d bn ≠ 0 ↔ (bn < k)%nat;
  sh_ind : ind_addr d ≠ 0 ↔ (NDIRECT_n < k)%nat;
}.

#[global] Arguments sh_addr {_ _ _}.
#[global] Arguments sh_ind {_ _ _}.

(** The blocks of a file with [k] blocks of contents. *)
Definition need (k : nat) : Z := Z.of_nat k + (if decide (NDIRECT_n < k)%nat then 1 else 0).

(** What [Mkfs.file_block] does, with [k] blocks there. *)
Record got_block (s s1 : image) (ds : gmap Z dinode) (inum : Z) (d d1 : dinode) (bn : nat) (a : Z) (k : nat) : Prop := GotBlock {
  gb_appended off : appended s s1 ds inum d d1 off [];
  gb_addr : addr_of (imap s1) d1 bn = a;
  gb_shape : shape (imap s1) d1 (Nat.max k (S bn));
  gb_used : im_freeblock s1 = im_freeblock s + (need (Nat.max k (S bn)) - need k);
}.

Section file_block.
Context (s : image) (ds : gmap Z dinode) (inum : Z) (d : dinode) (k : nat).
Context (Hs : laid s ds) (Hd : ds !! inum = Some d) (Hsh : shape (imap s) d k).

(** The blocks of an inode can be read. *)
Lemma owned_read q a :
  blk (imap s) d !! q = Some a → a ≠ 0 →
  ∃ x, imap s !! a = Some x ∧ length x = BSIZE_n ∧ rsect a s = Ok x s ∧ 59 ≤ a < im_freeblock s.
Proof using Hs Hd.
  intros Hq Hne. destruct (fo_owned (la_ok Hs) inum d q _ Hd Hq Hne) as [Hdb Hu].
  destruct (fo_block (la_ok Hs) _ Hdb) as (x & Hx & Hl). exists x. split; [done|]. split; [done|]. destruct Hdb as [H1 H2].
  change (data_start mkfs_sb) with 59 in H1. change (sb_size mkfs_sb) with FSSIZE in H2. split.
  - unfold rsect. rewrite imap_data in Hx by (change (a ≠ 58); lia). by rewrite Hx.
  - split; [done|]. unfold used in Hu. rewrite BBLOCK_mkfs in Hu by lia. unfold imap in Hu. rewrite lookup_insert_eq in Hu.
    unfold bit_index in Hu. pose proof (la_range Hs) as Hr. change nmeta with 59 in Hr.
    rewrite Z.mod_small, bits_bit in Hu by (unfold FSSIZE, BPB, BSIZE in *; lia). by apply bool_decide_eq_true in Hu.
Qed.

Lemma file_block_old bn :
  (bn < k)%nat → (bn < NDIRECT_n + NINDIRECT_n)%nat →
  ∃ a, Mkfs.file_block d (Z.of_nat bn) s = Ok (a, d) s ∧ got_block s s ds inum d d bn a k.
Proof using Hs Hd Hsh.
  intros Hk Hbn. pose proof (fo_len (la_ok Hs) inum d Hd) as Hlen. pose proof (proj2 (sh_addr Hsh bn) Hk) as Ha.
  exists (addr_of (imap s) d bn). split.
  2: { split; [intros off; by apply appended_nil|done|by rewrite Nat.max_l by lia|rewrite Nat.max_l by lia; lia]. }
  unfold Mkfs.file_block. destruct (Z.ltb_spec (Z.of_nat bn) NDIRECT) as [Hlt|Hge].
  - assert (bn < NDIRECT_n)%nat as Hn by (unfold NDIRECT_n; lia). rewrite Nat2Z.id. cbv zeta.
    rewrite (addr_direct (imap s) d bn Hlen Hn). cbn [from_option id]. by rewrite (proj2 (Z.eqb_neq _ 0)).
  - assert (∃ j, bn = NDIRECT_n + j ∧ j < NINDIRECT_n)%nat as (j & -> & Hj).
    { exists (bn - NDIRECT_n)%nat. unfold NDIRECT_n, NDIRECT in *. lia. }
    rewrite addr_indirect in Ha by done. destruct (decide (ind_addr d = 0)) as [|Hi]; [done|].
    change (Z.to_nat NDIRECT) with NDIRECT_n. rewrite (addr_ind d Hlen). cbn [from_option id]. cbv zeta.
    rewrite (proj2 (Z.eqb_neq _ 0)) by done. rewrite ret_step. cbn [fst snd].
    destruct (owned_read 0 _ (blk_ind _ d) Hi) as (x & Hx & _ & Er & _). mstep Er. rewrite Hx in Ha. cbn [from_option id] in Ha.
    replace (Z.to_nat (Z.of_nat (NDIRECT_n + j) - NDIRECT)) with j by (unfold NDIRECT_n, NDIRECT; lia).
    rewrite (proj2 (Z.eqb_neq _ 0)) by done. rewrite addr_indirect, decide_False, Hx by done. done.
Qed.
End file_block.

(** The result of taking a block for position [p] of inode [inum]. *)
Record took (s s1 : image) (ds : gmap Z dinode) (inum : Z) (d d1 : dinode) (p : nat) : Prop := Took {
  tk_appended off : appended s s1 ds inum d d1 off [];
  tk_addr bn : addr_of (imap s1) d1 bn = if decide (p = S bn) then im_freeblock s else addr_of (imap s) d bn;
  tk_free : im_freeblock s1 = im_freeblock s + 1;
  tk_pos : 0 < im_freeblock s;
}.

Section new_block.
Context (s : image) (ds : gmap Z dinode) (inum : Z) (d : dinode).
Context (Hs : laid s ds) (Hd : ds !! inum = Some d) (Hf : im_freeblock s < FSSIZE).

Lemma took_grown s1 d1 p :
  im_freeblock s1 = im_freeblock s + 1 → im_freeinode s1 = im_freeinode s →
  (∀ b, b < nmeta ∨ im_freeblock s ≤ b → im_blocks s1 !! b = im_blocks s !! b) →
  grown mkfs_sb (imap s) (imap s1) d d1 p (im_freeblock s) → same_meta d d1 → took s s1 ds inum d d1 p.
Proof using Hs Hd Hf.
  intros H1 H2 H3 Hg Hm. split; [intros off; by apply (appended_grown s s1 ds inum d d1 off p)| |done|].
  - intros bn. apply (addr_insert _ _ d d1 p); [apply Hg|apply (lookup_lt_Some _ _ _ (g_at Hg))].
  - pose proof (la_range Hs) as Hr. change nmeta with 59 in Hr. lia.
Qed.

(** din.addrs[n] = xint(freeblock++) *)
Lemma took_addr n p :
  n = NDIRECT_n ∧ p = 0%nat ∧ ind_addr d = 0 ∨ (n < NDIRECT_n)%nat ∧ p = S n ∧ addr_of (imap s) d n = 0 →
  ∃ s1, (b ← take_block; mret (b, set_addr n b d)) s = Ok (im_freeblock s, set_addr n (im_freeblock s) d) s1 ∧
    took s s1 ds inum d (set_addr n (im_freeblock s) d) p.
Proof using Hs Hd Hf.
  intros Hp. destruct (take_fresh s ds Hs Hf) as [Hdb Hu]. mstep (take_ok s ds Hs Hf). eexists. split; [done|].
  apply took_grown; [done..| |done]. rewrite (take_map s ds Hs Hf). pose proof (la_ok Hs) as Hok.
  destruct Hp as [(-> & -> & H0)|(Hn & -> & H0)].
  - by apply (grown_ind mkfs_sb (imap s) ds inum d _ Hok Hd Hdb Hu).
  - apply (grown_direct mkfs_sb (imap s) ds inum d _ Hok Hd Hdb Hu n Hn).
    rewrite (addr_direct (imap s) d n (fo_len Hok inum d Hd) Hn). by rewrite H0.
Qed.

(** indirect[j] = xint(freeblock++) *)
Lemma took_entry j x :
  (j < NINDIRECT_n)%nat → ind_addr d ≠ 0 → imap s !! ind_addr d = Some x → word_at x j = 0 →
  ∃ s1, (b ← take_block; wsect (ind_addr d) (set_word j b x);; mret (b, d)) s = Ok (im_freeblock s, d) s1 ∧
    took s s1 ds inum d d (S (NDIRECT_n + j)).
Proof using Hs Hd Hf.
  intros Hj Hi Hx Hw. destruct (take_fresh s ds Hs Hf) as [Hdb Hu]. mstep (take_ok s ds Hs Hf).
  destruct (owned_read s ds inum d Hs Hd 0 _ (blk_ind _ d) Hi) as (_ & _ & _ & _ & Hlt & Hge). eexists. split; [done|].
  apply took_grown; [done|done| | |done].
  - intros b Hb. change nmeta with 59 in Hb. cbn [im_blocks]. rewrite lookup_insert_ne by lia. done.
  - rewrite (imap_write (Image (im_blocks s) (im_freeinode s) (im_freeblock s + 1))) by (change (ind_addr d ≠ 58); lia).
    rewrite (take_map s ds Hs Hf). by apply (grown_indirect mkfs_sb (imap s) ds inum d _ (la_ok Hs) Hd Hdb Hu j x).
Qed.
End new_block.

Section file_block_new.
Context (s : image) (ds : gmap Z dinode) (inum : Z) (d : dinode) (k : nat).
Context (Hs : laid s ds) (Hd : ds !! inum = Some d) (Hsh : shape (imap s) d k).

Lemma indirect_ok :
  im_freeblock s < FSSIZE →
  ∃ s1 d1, (if ind_addr d =? 0 then b ← take_block; mret (b, set_addr NDIRECT_n b d) else mret (ind_addr d, d)) s = Ok (ind_addr d1, d1) s1 ∧
    (∀ off, appended s s1 ds inum d d1 off []) ∧ ind_addr d1 ≠ 0 ∧ (∀ bn, addr_of (imap s1) d1 bn = addr_of (imap s) d bn) ∧
    im_freeblock s1 = im_freeblock s + (if decide (ind_addr d = 0) then 1 else 0).
Proof using Hs Hd.
  intros Hf. destruct (Z.eqb_spec (ind_addr d) 0) as [H0|Hne].
  - destruct (took_addr s ds inum d Hs Hd Hf NDIRECT_n 0) as (s1 & E & [T1 T2 T3 T4]); [by left|].
    eexists s1, _. rewrite E, ind_addr_set_ind by (by apply (fo_len (la_ok Hs) inum)). split; [done|]. split; [done|]. split; [lia|].
    split; [|by rewrite decide_True]. intros bn. by rewrite T2.
  - exists s, d. split; [done|]. split; [intros off; by apply appended_nil|]. split; [done|]. split; [done|]. rewrite decide_False by done. lia.
Qed.

Lemma appended_nil_trans s1 s2 d1 d2 :
  (∀ off, appended s s1 ds inum d d1 off []) → (∀ off, appended s1 s2 (<[inum := d1]> ds) inum d1 d2 off []) →
  ∀ off, appended s s2 ds inum d d2 off [].
Proof using Hd. intros H1 H2 off. by apply (appended_trans s s1 s2 ds inum d d1 d2 off (off + 0) [] []). Qed.

Lemma need_S : (NDIRECT_n ≤ k)%nat → need (S k) - need k = 1 + (if decide (ind_addr d = 0) then 1 else 0).
Proof using Hsh.
  intros Hk. unfold need. rewrite (decide_True (P := (NDIRECT_n < S k)%nat)) by lia. pose proof (sh_ind Hsh).
  destruct (decide (NDIRECT_n < k)%nat), (decide (ind_addr d = 0)); try lia; tauto.
Qed.

Lemma file_block_new :
  (k < NDIRECT_n + NINDIRECT_n)%nat → im_freeblock s + (need (S k) - need k) ≤ FSSIZE →
  ∃ a d1 s1, Mkfs.file_block d (Z.of_nat k) s = Ok (a, d1) s1 ∧ got_block s s1 ds inum d d1 k a k.
Proof using Hs Hd Hsh.
  intros Hk Hfit. pose proof (fo_len (la_ok Hs) inum d Hd) as Hlen. unfold Mkfs.file_block.
  assert (addr_of (imap s) d k = 0) as H0 by (destruct (decide (addr_of (imap s) d k = 0)) as [|H%(sh_addr Hsh)]; [done|lia]).
  destruct (Z.ltb_spec (Z.of_nat k) NDIRECT) as [Hlt|Hge].
  - assert (k < NDIRECT_n)%nat as Hn by (unfold NDIRECT_n; lia). rewrite Nat2Z.id. cbv zeta.
    rewrite (addr_direct (imap s) d k Hlen Hn), H0. cbn [from_option id]. rewrite Z.eqb_refl.
    assert (need (S k) - need k = 1) as En by (unfold need; rewrite !decide_False by lia; lia).
    destruct (took_addr s ds inum d Hs Hd ltac:(lia) k (S k)) as (s1 & -> & [T1 T2 T3 T4]); [by right|].
    eexists _, _, s1. split; [done|]. split; [done|by rewrite T2, decide_True| |rewrite Nat.max_r by lia; lia].
    rewrite Nat.max_r by lia. split; [|rewrite ind_addr_set, (sh_ind Hsh) by done; lia]. intros bn. rewrite T2. destruct (decide _) as [[= <-]|Hne]; [lia|].
    rewrite (sh_addr Hsh). assert (bn ≠ k) by congruence. lia.
  - assert (∃ j, k = NDIRECT_n + j ∧ j < NINDIRECT_n)%nat as (j & Ek & Hj).
    { exists (k - NDIRECT_n)%nat. unfold NDIRECT_n, NDIRECT in *. lia. }
    rewrite need_S in Hfit by lia. change (Z.to_nat NDIRECT) with NDIRECT_n. rewrite (addr_ind d Hlen). cbn [from_option id]. cbv zeta.
    destruct indirect_ok as (s1 & d1 & E1 & A1 & Hi & Ha & Hf1); [destruct (decide _); lia|]. mstep E1. clear E1. cbn [fst snd].
    pose proof (ap_laid _ _ _ _ _ _ _ _ (A1 0%nat)) as Hs1. pose proof (lookup_insert_eq ds inum d1) as Hd1.
    destruct (owned_read s1 _ inum d1 Hs1 Hd1 0 _ (blk_ind _ d1) Hi) as (x & Hx & _ & Er & _). mstep Er. clear Er.
    assert (word_at x j = 0) as Hw.
    { rewrite <- (Ha k), Ek, addr_indirect, decide_False, Hx in H0 by (done || by apply (fo_len (la_ok Hs1) inum)). done. }
    replace (Z.to_nat (Z.of_nat k - NDIRECT)) with j by (unfold NDIRECT_n, NDIRECT in *; lia). rewrite Hw, Z.eqb_refl.
    destruct (took_entry s1 _ inum d1 Hs1 Hd1 ltac:(destruct (decide _); lia) j x Hj Hi Hx Hw) as (s2 & -> & [T1 T2 T3 T4]).
    eexists _, d1, s2. split; [done|]. rewrite <- Ek in T2.
    split; [by eapply appended_nil_trans|by rewrite T2, decide_True| |rewrite Nat.max_r, need_S, T3, Hf1 by lia; destruct (decide (ind_addr d = 0)); lia].
    rewrite Nat.max_r by lia. split; [|split; [lia|done]]. intros bn. rewrite T2, Ha. destruct (decide (S k = S bn)) as [Hbn|Hne]; [lia|].
    rewrite (sh_addr Hsh). lia.
Qed.
End file_block_new.

(** ** Appending *)

(** The blocks of [sz] bytes. *)
Definition nblk (sz : nat) : nat := ((sz + (BSIZE_n - 1)) / BSIZE_n)%nat.

Lemma nblk_end bn sz : (bn * BSIZE_n < sz ≤ S bn * BSIZE_n)%nat → nblk sz = S bn.
Proof. intros H. unfold nblk. symmetry. change BSIZE_n with 512%nat in *. apply (Nat.div_unique _ 512 _ (sz - 1 - 512 * bn)); lia. Qed.

Lemma div_succ o : (S (o / BSIZE_n) = (o + BSIZE_n) / BSIZE_n)%nat.
Proof. assert (BSIZE_n ≠ 0)%nat by done. rewrite <- (Nat.mul_1_l BSIZE_n) at 2. rewrite Nat.div_add by done. lia. Qed.

Lemma nblk_off off : (off / BSIZE_n ≤ nblk off ≤ S (off / BSIZE_n))%nat.
Proof.
  unfold nblk. rewrite div_succ. change BSIZE_n with 512%nat. split; apply Nat.div_le_mono; lia.
Qed.

Lemma nblk_full o sz : (o < sz)%nat → (o / BSIZE_n < nblk sz)%nat.
Proof.
  intros H. change (S (o / BSIZE_n) ≤ nblk sz)%nat. unfold nblk. rewrite div_succ. change BSIZE_n with 512%nat. apply Nat.div_le_mono; lia.
Qed.

Lemma file_block_ok s ds inum d off :
  laid s ds → ds !! inum = Some d → shape (imap s) d (nblk off) → (off / BSIZE_n < NDIRECT_n + NINDIRECT_n)%nat →
  im_freeblock s + (need (S (off / BSIZE_n)) - need (nblk off)) ≤ FSSIZE →
  ∃ a d1 s1, Mkfs.file_block d (Z.of_nat (off / BSIZE_n)) s = Ok (a, d1) s1 ∧
    got_block s s1 ds inum d d1 (off / BSIZE_n) a (nblk off) ∧ (nblk off `max` S (off / BSIZE_n) = S (off / BSIZE_n))%nat.
Proof.
  intros Hs Hd Hsh Hk Hfit. pose proof (nblk_off off) as Hn. destruct (decide (off / BSIZE_n < nblk off)%nat) as [Hlt|Hge].
  - destruct (file_block_old s ds inum d _ Hs Hd Hsh _ Hlt Hk) as (a & E & Hg). exists a, d, s. split; [done|]. split; [done|lia].
  - assert (nblk off = off / BSIZE_n)%nat as En by lia. rewrite En in *.
    destruct (file_block_new s ds inum d _ Hs Hd Hsh Hk Hfit) as (a & d1 & s1 & E & Hg). exists a, d1, s1. split; [done|]. split; [done|lia].
Qed.

(** Writing bytes of a block that the inode has. *)
Lemma leaf_appended s ds inum d bn k bytes x :
  laid s ds → ds !! inum = Some d → addr_of (imap s) d bn ≠ 0 → imap s !! addr_of (imap s) d bn = Some x → (k + length bytes ≤ BSIZE_n)%nat →
  let s1 := Image (<[addr_of (imap s) d bn := splice k bytes x]> (im_blocks s)) (im_freeinode s) (im_freeblock s) in
  appended s s1 ds inum d d (bn * BSIZE_n + k) bytes ∧ (∀ i e, ds !! i = Some e → blk (imap s1) e = blk (imap s) e).
Proof.
  intros Hs Hd Ha Hx Hk s1. destruct (owned_read s ds inum d Hs Hd _ _ (blk_addr _ _ _ _ Ha eq_refl) Ha) as (x' & Hx' & Hl & _ & Hr).
  assert (x' = x) as -> by congruence. set (a := addr_of (imap s) d bn) in *.
  assert (x = FsInode.file_block (imap s) d bn) as Ex by (unfold FsInode.file_block; fold a; by rewrite Hx).
  assert (imap s1 = <[a := splice k bytes x]> (imap s)) as Em by (unfold s1; apply imap_write; change (a ≠ 58); lia).
  assert (∀ i e, ds !! i = Some e → blk (imap s1) e = blk (imap s) e) as Hblk.
  { intros i e He. rewrite Em. by apply (leaf_blk mkfs_sb (imap s) ds inum d bn _ (la_ok Hs) Hd Ha i). }
  split; [|done]. split; [rewrite (insert_id _ _ _ Hd); split| | |done| |done].
  - rewrite Em. apply (leaf_ok mkfs_sb (imap s) ds inum d bn _ (la_ok Hs) Hd Ha). rewrite length_splice; lia.
  - apply (la_range Hs).
  - intros b Hb. cbn [s1 im_blocks]. rewrite lookup_insert_ne by (cbn [s1 im_freeblock] in Hb; lia). by apply (la_free Hs).
  - cbn [s1 im_blocks]. rewrite lookup_insert_ne by lia. apply (la_zero Hs).
  - intros i e o He. rewrite Em, Ex. assert (imap s !! 0 = Some zeros) as H0 by (rewrite imap_data by done; apply (la_zero Hs)).
    rewrite <- (leaf_bytes mkfs_sb (imap s) ds inum d (la_ok Hs) Hd H0 bn k bytes i e o Ha Hk He). fold a.
    destruct (decide (i = inum)) as [->|]; [|done]. by assert (e = d) as -> by congruence.
  - intros i e _. apply Hblk.
  - intros b Hb _. change nmeta with 59 in Hb. cbn [s1 im_blocks]. by rewrite lookup_insert_ne by lia.
Qed.

Lemma need_mono k k' : (k ≤ k')%nat → need k ≤ need k'.
Proof. intros H. unfold need. destruct (decide _), (decide _); lia. Qed.

Lemma nblk_mono n n' : (n ≤ n')%nat → (nblk n ≤ nblk n')%nat.
Proof. intros H. unfold nblk. change BSIZE_n with 512%nat. apply Nat.div_le_mono; lia. Qed.

Lemma shape_blk m m' d k : blk m' d = blk m d → shape m d k → shape m' d k.
Proof. intros E [H1 H2]. split; [|done]. intros bn. rewrite <- H1. by rewrite (blk_addr_of m m' d d) by (by rewrite E). Qed.

(** What iappend does to the image, the size of the inode left aside. *)
Record extended (s s' : image) (ds : gmap Z dinode) (inum : Z) (d d' : dinode) (off : nat) (p : list Z) : Prop := Extended {
  ex_appended : appended s s' ds inum d d' off p;
  ex_shape : shape (imap s') d' (nblk (off + length p));
  ex_free : im_freeblock s' = im_freeblock s + (need (nblk (off + length p)) - need (nblk off));
}.

Lemma extended_trans s s1 s2 ds inum d d1 d2 off off1 b1 b2 :
  ds !! inum = Some d → off1 = (off + length b1)%nat → extended s s1 ds inum d d1 off b1 →
  extended s1 s2 (<[inum := d1]> ds) inum d1 d2 off1 b2 → extended s s2 ds inum d d2 off (b1 ++ b2).
Proof.
  intros Hd -> [A1 S1 F1] [A2 S2 F2].
  split; [by eapply appended_trans|rewrite length_app, Nat.add_assoc; done|rewrite length_app, Nat.add_assoc; lia].
Qed.

(** One turn of the loop of iappend. *)
Lemma iappend_turn fuel d off p s ds inum :
  laid s ds → ds !! inum = Some d → shape (imap s) d (nblk off) → p ≠ [] → Z.of_nat off < MAXFILE * BSIZE →
  let n1 := Nat.min (length p) (S (off / BSIZE_n) * BSIZE_n - off) in
  im_freeblock s + (need (nblk (off + n1)) - need (nblk off)) ≤ FSSIZE →
  ∃ d1 s1, iappend_loop (S fuel) d (Z.of_nat off) p s = iappend_loop fuel d1 (Z.of_nat (off + n1)) (drop n1 p) s1 ∧
    extended s s1 ds inum d d1 off (take n1 p).
Proof.
  intros Hs Hd Hsh Hp Hmax n1 Hfit. set (bn := (off / BSIZE_n)%nat) in *. assert (BSIZE_n ≠ 0)%nat as Hnz by done.
  pose proof (Nat.div_mod_eq off BSIZE_n) as Eo. pose proof (Nat.mod_upper_bound off BSIZE_n Hnz) as Hr. fold bn in Eo.
  assert (0 < length p)%nat as Hlen by (destruct p; [done|cbn; lia]).
  assert (0 < n1 ≤ length p ∧ off + n1 ≤ S bn * BSIZE_n)%nat as [[Hn1 Hnp] Hn] by (unfold n1; lia).
  assert (nblk (off + n1) = S bn) as En by (apply nblk_end; lia). rewrite En in Hfit.
  assert (Z.of_nat off / BSIZE = Z.of_nat bn) as Ebn by (unfold bn; by rewrite Nat2Z.inj_div).
  assert (Z.of_nat bn < MAXFILE) as Hbn by (rewrite <- Ebn; apply Z.div_lt_upper_bound; [done|lia]).
  destruct (file_block_ok s ds inum d off Hs Hd Hsh) as (a & d1 & s1 & E & [G1 G2 G3 G4] & Emax);
    [fold bn; unfold MAXFILE, NDIRECT_n, NINDIRECT_n in *; lia|done|]. fold bn in E, G2, G3, G4, Emax.
  rewrite Emax in *. pose proof (proj2 (sh_addr G3 bn) ltac:(lia)) as Ha.
  pose proof (ap_laid _ _ _ _ _ _ _ _ (G1 off)) as Hs1. pose proof (lookup_insert_eq ds inum d1) as Hd1.
  destruct (owned_read s1 _ inum d1 Hs1 Hd1 _ _ (blk_addr _ _ _ _ Ha eq_refl) Ha) as (x & Hx & _ & Er & _).
  assert (length (take n1 p) = n1) as Hl1 by (rewrite length_take; lia).
  destruct (leaf_appended s1 _ inum d1 bn (off - bn * BSIZE_n) (take n1 p) x Hs1 Hd1 Ha Hx) as [A2 B2]; [rewrite Hl1; lia|].
  cbn [iappend_loop]. rewrite bool_decide_false by done. cbv zeta. rewrite Ebn. unfold check.
  rewrite (proj2 (Z.ltb_lt _ _) Hbn), ret_step. mstep E. cbn [fst snd]. rewrite <- G2. mstep Er.
  assert (Z.min (Z.of_nat (length p)) ((Z.of_nat bn + 1) * BSIZE - Z.of_nat off) = Z.of_nat n1) as ->.
  { unfold n1. change BSIZE with (Z.of_nat BSIZE_n). lia. }
  rewrite Nat2Z.id. replace (Z.to_nat (Z.of_nat off - Z.of_nat bn * BSIZE)) with (off - bn * BSIZE_n)%nat by (change BSIZE with (Z.of_nat BSIZE_n); lia).
  rewrite <- Nat2Z.inj_add. eexists d1, _. split; [done|].
  replace (bn * BSIZE_n + (off - bn * BSIZE_n))%nat with off in A2 by lia. split; rewrite ?Hl1, ?En.
  - by apply (appended_trans s s1 _ ds inum d d1 d1 off off [] (take n1 p)); [|rewrite Nat.add_0_r| |].
  - by apply (shape_blk (imap s1)), G3; apply (B2 inum).
  - done.
Qed.

Lemma iappend_loop_ok fuel d off p s ds inum :
  laid s ds → ds !! inum = Some d → shape (imap s) d (nblk off) → (length p < fuel)%nat → Z.of_nat (off + length p) ≤ MAXFILE * BSIZE →
  im_freeblock s + (need (nblk (off + length p)) - need (nblk off)) ≤ FSSIZE →
  ∃ d' s', iappend_loop fuel d (Z.of_nat off) p s = Ok (d', Z.of_nat (off + length p)) s' ∧ extended s s' ds inum d d' off p.
Proof.
  revert d off p s ds. induction fuel as [|fuel IH]; intros d off p s ds Hs Hd Hsh Hf Hmax Hfit; [lia|].
  destruct (decide (p = [])) as [->|Hp].
  { exists d, s. cbn [iappend_loop length]. rewrite bool_decide_true, Nat.add_0_r by done. split; [done|].
    split; cbn [length]; [by apply appended_nil|by rewrite Nat.add_0_r|rewrite Nat.add_0_r; lia]. }
  assert (0 < length p)%nat as Hlen by (destruct p; [done|cbn; lia]).
  set (n1 := Nat.min (length p) (S (off / BSIZE_n) * BSIZE_n - off)).
  assert (BSIZE_n ≠ 0)%nat as Hnz by done. pose proof (Nat.mul_succ_div_gt off BSIZE_n Hnz) as Hgt.
  assert (0 < n1 ≤ length p)%nat as [Hn1 Hnp] by (unfold n1; lia).
  destruct (iappend_turn fuel d off p s ds inum Hs Hd Hsh Hp ltac:(lia)) as (d1 & s1 & E1 & X1).
  { pose proof (need_mono _ _ (nblk_mono (off + n1) (off + length p) ltac:(lia))). fold n1. lia. }
  fold n1 in E1, X1. pose proof X1 as [A1 S1 F1]. rewrite length_take_le in S1, F1 by done.
  destruct (IH d1 (off + n1)%nat (drop n1 p) s1 (<[inum := d1]> ds)) as (d2 & s2 & E2 & X2);
    [apply A1|apply lookup_insert_eq|done|rewrite length_drop; lia|rewrite length_drop; lia| |].
  { rewrite length_drop. replace (off + n1 + (length p - n1))%nat with (off + length p)%nat by lia. lia. }
  rewrite length_drop in E2. replace (off + n1 + (length p - n1))%nat with (off + length p)%nat in E2 by lia.
  exists d2, s2. rewrite E1, E2. split; [done|]. rewrite <- (take_drop n1 p).
  apply (extended_trans s s1 s2 ds inum d d1 d2 off (off + n1)); [done|by rewrite length_take_le|done|done].
Qed.
