(* ===== verification/MkfsSpec.v ===== *)
(** * The file system image: mkfs

    The inode table of the image and the files in it, and the theorem about
    mkfs: the image is a file system in the sense of the kernel, in which the
    names of the files lead to their contents. *)

From S2P Require Import Prelude Params Disk Superblock Txn Fs FsBlocks FsInode FsBmap FsIo FsDinode FsWrite FsTrunc FsDir FsPath FsCheck FsLife Mkfs MkfsProofs.

(** ** Writing inodes *)

Section meta.
Context (sb : superblock) (m : gmap Z block) (ds : gmap Z dinode) (b : Z) (x : block).
Context (Hok : fs_ok sb m ds) (Hb : 0 < b < data_start sb).

Lemma meta_bytes i e o : ds !! i = Some e → byte_at (<[b := x]> m) e o = byte_at m e o.
Proof using Hok Hb.
  intros He. apply byte_at_ext. unfold FsInode.file_block.
  rewrite (blk_addr_of m _ e e) by (by rewrite (meta_blk sb m ds b x Hok ltac:(lia) i e He)).
  destruct (decide (addr_of m e (o / BSIZE_n) = 0)) as [->|Hne]; [by rewrite lookup_insert_ne by lia|].
  destruct (fo_owned Hok i e _ _ He (blk_addr _ _ _ _ Hne eq_refl) Hne) as [[Hs _] _]. by rewrite lookup_insert_ne by lia.
Qed.
End meta.

(** Only the inode table is written. *)
Record table_only (s s' : image) (ds : gmap Z dinode) : Prop := TableOnly {
  to_blk i e : ds !! i = Some e → blk (imap s') e = blk (imap s) e;
  to_byte i e o : ds !! i = Some e → byte_at (imap s') e o = byte_at (imap s) e o;
  to_low b : b < sb_inodestart mkfs_sb → im_blocks s' !! b = im_blocks s !! b;
  to_free : im_freeblock s' = im_freeblock s;
  to_inode : im_freeinode s' = im_freeinode s;
}.

Lemma winode_ok s ds inum d :
  laid s ds → itable mkfs_sb (imap s) ds {[inum]} → ds !! inum = Some d →
  ∃ s', winode inum d s = Ok tt s' ∧ laid s' ds ∧ itable mkfs_sb (imap s') ds ∅ ∧ table_only s s' ds.
Proof.
  intros Hs Hit Hd. destruct (it_block _ _ _ _ Hit _ _ Hd) as (x & Hx & Hxl & _). pose proof (la_ok Hs) as Hok.
  destruct (inode_place _ _ _ _ Hok Hit _ _ Hd) as [P1 P2]. change (data_start mkfs_sb) with 59 in P1.
  pose proof (IBLOCK_eq _ _ _ _ Hok Hit _ _ Hd) as EI. change (sb_inodestart mkfs_sb) with 32 in EI.
  assert (0 ≤ inum / IPB) by (apply Z.div_pos; [by eapply (it_range _ _ _ _ Hit)|done]).
  specialize (P2 0 ltac:(done)). rewrite BBLOCK_mkfs in P2 by done.
  set (b := IBLOCK inum mkfs_sb) in *. rewrite imap_data in Hx by done.
  set (s' := Image (<[b := put_dinode inum d x]> (im_blocks s)) (im_freeinode s) (im_freeblock s)).
  assert (imap s' = <[b := put_dinode inum d x]> (imap s)) as Em by (by apply imap_write).
  assert (∀ g, 0 ≤ g < sb_size mkfs_sb → b ≠ BBLOCK g mkfs_sb) as Hbm by (intros g Hg; by rewrite BBLOCK_mkfs).
  pose proof (la_range Hs) as Hr. change nmeta with 59 in Hr.
  exists s'. split; [|split; [split|split; [|split]]].
  - unfold winode, rsect, wsect, mbind, M_bind. cbv zeta. fold b. by rewrite Hx.
  - rewrite Em. by apply meta_ok.
  - done.
  - intros c Hc. cbn [s' im_blocks im_freeblock] in *. rewrite lookup_insert_ne by lia. by apply (la_free Hs).
  - cbn [s' im_blocks]. rewrite lookup_insert_ne by lia. apply (la_zero Hs).
  - rewrite Em. rewrite <- (difference_diag_L {[inum]}). apply itable_put; [done..|]. by rewrite imap_data.
  - intros i e He. rewrite Em. by apply (meta_blk mkfs_sb _ ds b _ Hok P1 i).
  - intros i e o He. rewrite Em. apply (meta_bytes mkfs_sb _ ds b _ Hok ltac:(change (data_start mkfs_sb) with 59; lia) i e o He).
  - intros c Hc. change (sb_inodestart mkfs_sb) with 32 in Hc. cbn [s' im_blocks]. by rewrite lookup_insert_ne by lia.
  - done.
  - done.
Qed.

Lemma rinode_ok s ds inum d : laid s ds → itable mkfs_sb (imap s) ds ∅ → ds !! inum = Some d → rinode inum s = Ok d s.
Proof.
  intros Hs Hit Hd. destruct (it_block _ _ _ _ Hit _ _ Hd) as (x & Hx & _ & Hg).
  destruct (inode_place _ _ _ _ (la_ok Hs) Hit _ _ Hd) as [_ P2]. specialize (P2 0 ltac:(done)). rewrite BBLOCK_mkfs in P2 by done.
  rewrite imap_data in Hx by done. unfold rinode, rsect, mbind, M_bind. rewrite Hx. unfold mret, M_ret. by rewrite Hg by set_solver.
Qed.

(** ** Files *)

(** All inodes are on disk, and behind the end of a file there are zeros. *)
Record built (s : image) (ds : gmap Z dinode) : Prop := Built {
  bu_laid : laid s ds;
  bu_table : itable mkfs_sb (imap s) ds ∅;
  bu_shape i d : ds !! i = Some d → shape (imap s) d (nblk (Z.to_nat (d_size d)));
  bu_zero i d o : ds !! i = Some d → d_size d ≤ Z.of_nat o → byte_at (imap s) d o = 0;
}.

#[global] Arguments bu_laid {_ _}.
#[global] Arguments bu_table {_ _}.
#[global] Arguments bu_shape {_ _}.
#[global] Arguments bu_zero {_ _}.

(** [p] has been appended to inode [inum], which has become [d']. *)
Record grew (s s' : image) (ds : gmap Z dinode) (inum : Z) (d d' : dinode) (p : list Z) : Prop := Grew {
  gr_built : built s' (<[inum := d']> ds);
  gr_content : content (imap s') d' = content (imap s) d ++ p;
  gr_other j e : j ≠ inum → ds !! j = Some e → content (imap s') e = content (imap s) e;
  gr_type : d_type d' = d_type d;
  gr_nlink : d_nlink d' = d_nlink d;
  gr_size : d_size d' = d_size d + Z.of_nat (length p);
  gr_low b : b < sb_inodestart mkfs_sb → im_blocks s' !! b = im_blocks s !! b;
  gr_inode : im_freeinode s' = im_freeinode s;
  gr_free : im_freeblock s' = im_freeblock s + (need (nblk (Z.to_nat (d_size d'))) - need (nblk (Z.to_nat (d_size d))));
}.

Lemma content_same m m' d : (∀ o, byte_at m' d o = byte_at m d o) → content m' d = content m d.
Proof. intros H. unfold content. apply list_fmap_ext. intros _ o _. apply H. Qed.

Lemma content_app m m' d d' p :
  0 ≤ d_size d → d_size d' = d_size d + Z.of_nat (length p) →
  (∀ o, byte_at m' d' o = if decide (Z.to_nat (d_size d) ≤ o < Z.to_nat (d_size d) + length p)%nat then default 0 (p !! (o - Z.to_nat (d_size d))%nat)
                          else byte_at m d o) →
  content m' d' = content m d ++ p.
Proof.
  intros Hs Es Hb. apply list_eq. intros o. destruct (decide (Z.of_nat o < d_size d')) as [Ho|Ho].
  - rewrite lookup_content, Hb by done. destruct (decide _) as [Hin|Hout].
    + rewrite lookup_app_r by (rewrite length_fcontent; lia). rewrite length_fcontent.
      destruct (lookup_lt_is_Some_2 p (o - Z.to_nat (d_size d))%nat ltac:(lia)) as [y ->]. done.
    + rewrite lookup_app_l by (rewrite length_fcontent; lia). by rewrite lookup_content by lia.
  - rewrite !lookup_ge_None_2; [done|rewrite length_app, length_fcontent; lia|rewrite length_fcontent; lia].
Qed.

Section iappend.
Context (s : image) (ds : gmap Z dinode) (inum : Z) (d : dinode) (p : list Z).
Context (Hs : built s ds) (Hd : ds !! inum = Some d).
#[local] Abbreviation off := (Z.to_nat (d_size d)).

(** The new size, before the inode is written. *)
Lemma sized_ok s1 d1 :
  extended s s1 ds inum d d1 off p → Z.of_nat (off + length p) < 2 ^ 32 →
  let d2 := set_size (Z.of_nat (off + length p)) d1 in
  laid s1 (<[inum := d2]> ds) ∧ itable mkfs_sb (imap s1) (<[inum := d2]> ds) {[inum]}.
Proof using Hs Hd.
  intros [A1 S1 F1] Hmax d2. pose proof (ap_laid _ _ _ _ _ _ _ _ A1) as Hs1.
  assert (fs_ok mkfs_sb (imap s1) (<[inum := d2]> ds)) as Hok2.
  { rewrite <- (insert_insert_eq ds inum d2 d1). apply set_size_ok; [apply (la_ok Hs1)|apply lookup_insert_eq|lia|].
    intros o Ho. apply (sh_addr S1), nblk_full. lia. }
  split; [split; [done|apply (la_range Hs1)|apply (la_free Hs1)|apply (la_zero Hs1)]|].
  rewrite <- (union_empty_r_L {[inum]}). apply (itable_change mkfs_sb (imap s) _ ds ∅ inum d); [apply (la_ok (bu_laid Hs))|apply Hs|done| |].
  - destruct (ap_meta _ _ _ _ _ _ _ _ A1) as (M1 & M2 & M3 & M4 & M5).
    apply (dinode_ok_next mkfs_sb (imap s1) (<[inum := d2]> ds) inum d d2 Hok2); [apply lookup_insert_eq| |done..|cbn [d2 set_size d_size]; lia].
    by apply (it_dinode _ _ _ _ (bu_table Hs) inum).
  - intros b Hb Hbm. specialize (Hbm 0 ltac:(done)). rewrite BBLOCK_mkfs in Hbm by done. rewrite !imap_data by done.
    by apply (ap_low _ _ _ _ _ _ _ _ A1).
Qed.

Lemma iappend_ok :
  d_size d + Z.of_nat (length p) ≤ MAXFILE * BSIZE →
  im_freeblock s + (need (nblk (off + length p)) - need (nblk off)) ≤ FSSIZE →
  ∃ d' s', iappend inum p s = Ok tt s' ∧ grew s s' ds inum d d' p.
Proof using Hs Hd.
  intros Hmax Hfit. pose proof (fo_size (la_ok (bu_laid Hs)) _ _ Hd) as Hsz.
  unfold iappend. mstep (rinode_ok s ds inum d (bu_laid Hs) (bu_table Hs) Hd).
  destruct (iappend_loop_ok (S (length p)) d off p s ds inum (bu_laid Hs) Hd (bu_shape Hs _ _ Hd)) as (d1 & s1 & E1 & X1); [lia|lia|done|].
  rewrite Z2Nat.id in E1 by done. mstep E1. clear E1. cbn [fst snd]. change (MAXFILE * BSIZE) with 71680 in Hmax.
  destruct (sized_ok s1 d1 X1 ltac:(lia)) as [Hs2 Hit2]. set (d2 := set_size _ d1) in *.
  destruct (winode_ok s1 _ inum d2 Hs2 Hit2 (lookup_insert_eq _ _ _)) as (s2 & E2 & Hs3 & Hit3 & [W1 W2 W3 W4 W5]).
  exists d2, s2. split; [done|]. destruct X1 as [[A1 A2 A3 (M1 & M2 & M3 & M4 & M5) A5 A6] S1 F1].
  assert (∀ o, byte_at (imap s2) d2 o = if decide (off ≤ o < off + length p)%nat then default 0 (p !! (o - off)%nat) else byte_at (imap s) d o) as B1.
  { intros o. rewrite (W2 inum d2 o (lookup_insert_eq _ _ _)). specialize (A2 inum d o Hd). rewrite decide_True in A2 by done.
    change (byte_at (imap s1) d2 o) with (byte_at (imap s1) d1 o). rewrite A2. destruct (decide _), (decide _); [done|by exfalso; naive_solver..|done]. }
  assert (∀ j e o, j ≠ inum → ds !! j = Some e → byte_at (imap s2) e o = byte_at (imap s) e o) as B2.
  { intros j e o Hj He. rewrite (W2 j) by (by rewrite lookup_insert_ne). specialize (A2 j e o He). rewrite decide_False in A2 by done.
    by rewrite A2, decide_False by (by intros [? _]). }
  assert (d_size d2 = d_size d + Z.of_nat (length p)) as Esz by (cbn [d2 set_size d_size]; lia).
  split; [split; [done|done|..]|by apply content_app|intros j e Hj He; apply content_same; intros o; by apply (B2 j)|done|done|done| |congruence|].
  - intros i e. destruct (decide (i = inum)) as [->|Hi]; [rewrite lookup_insert_eq; intros [= <-]|rewrite lookup_insert_ne by done; intros He].
    + apply (shape_blk (imap s1)); [apply (W1 inum), lookup_insert_eq|]. cbn [d2 set_size d_size]. rewrite Nat2Z.id.
      destruct S1 as [S1 S2]. by split.
    + apply (shape_blk (imap s)); [|by apply (bu_shape Hs i)]. rewrite (W1 i) by (by rewrite lookup_insert_ne). by apply (A3 i).
  - intros i e o. destruct (decide (i = inum)) as [->|Hi]; [rewrite lookup_insert_eq; intros [= <-]|rewrite lookup_insert_ne by done; intros He].
    + rewrite Esz. intros Ho. rewrite B1, decide_False by lia. apply (bu_zero Hs inum d o Hd). lia.
    + intros Ho. rewrite (B2 i e o Hi He). by apply (bu_zero Hs i).
  - intros b Hb. rewrite W3 by done. change (sb_inodestart mkfs_sb) with 32 in Hb. apply A5; [change nmeta with 59; lia|change (b ≠ 58); lia].
  - rewrite W4, F1, Esz. rewrite Z2Nat.inj_add, Nat2Z.id by lia. done.
Qed.
End iappend.

Lemma grew_nil s ds inum d : built s ds → ds !! inum = Some d → grew s s ds inum d d [].
Proof. intros Hs Hd. split; [by rewrite insert_id|by rewrite app_nil_r|done|done|done|cbn; lia|done|done|lia]. Qed.

Lemma grew_trans s s1 s2 ds inum d d1 d2 p1 p2 :
  grew s s1 ds inum d d1 p1 → grew s1 s2 (<[inum := d1]> ds) inum d1 d2 p2 → grew s s2 ds inum d d2 (p1 ++ p2).
Proof.
  intros [B1 C1 O1 T1 N1 S1 L1 I1 F1] [B2 C2 O2 T2 N2 S2 L2 I2 F2].
  split; [by rewrite insert_insert_eq in B2|by rewrite C2, C1, app_assoc| |congruence|congruence|rewrite length_app; lia| |congruence|lia].
  - intros j e Hj He. rewrite (O2 j), (O1 j e Hj He); [done|done|by rewrite lookup_insert_ne].
  - intros b Hb. by rewrite L2, L1.
Qed.

Lemma append_file_ok fuel p s ds inum d :
  built s ds → ds !! inum = Some d → (length p < fuel)%nat → d_size d + Z.of_nat (length p) ≤ MAXFILE * BSIZE →
  im_freeblock s + (need (nblk (Z.to_nat (d_size d) + length p)) - need (nblk (Z.to_nat (d_size d)))) ≤ FSSIZE →
  ∃ d' s', append_file fuel inum p s = Ok tt s' ∧ grew s s' ds inum d d' p.
Proof.
  revert p s ds d. induction fuel as [|fuel IH]; intros p s ds d Hs Hd Hf Hmax Hfit; [lia|]. cbn [append_file].
  destruct (decide (p = [])) as [->|Hp]; [exists d, s; rewrite bool_decide_true by done; split; [done|by apply grew_nil]|].
  rewrite bool_decide_false by done. assert (0 < length p)%nat as Hlen by (destruct p; [done|cbn; lia]).
  pose proof (fo_size (la_ok (bu_laid Hs)) _ _ Hd) as Hsz. assert (0 < BSIZE_n)%nat as HB by (apply Nat.neq_0_lt_0; done).
  set (p1 := take BSIZE_n p). assert (length p1 + length (drop BSIZE_n p) = length p)%nat as El by (unfold p1; by rewrite <- length_app, take_drop).
  assert (0 < length p1)%nat as Hp1 by (unfold p1; rewrite length_take; lia).
  destruct (iappend_ok s ds inum d p1 Hs Hd) as (d1 & s1 & E1 & G1); [lia| |].
  { pose proof (need_mono _ _ (nblk_mono (Z.to_nat (d_size d) + length p1) (Z.to_nat (d_size d) + length p) ltac:(lia))). lia. }
  mstep E1. pose proof (gr_size _ _ _ _ _ _ _ G1) as Es1. pose proof (gr_free _ _ _ _ _ _ _ G1) as F1.
  destruct (IH (drop BSIZE_n p) s1 _ d1 (gr_built _ _ _ _ _ _ _ G1) (lookup_insert_eq _ _ _)) as (d2 & s2 & E2 & G2); [lia|lia| |].
  { replace (Z.to_nat (d_size d1) + length (drop BSIZE_n p))%nat with (Z.to_nat (d_size d) + length p)%nat by lia. lia. }
  exists d2, s2. split; [done|]. rewrite <- (take_drop BSIZE_n p). by eapply grew_trans.
Qed.

(** ** New inodes *)

Definition zero_dinode : dinode := DInode 0 0 0 0 0 (replicate (S NDIRECT_n) 0).
Definition fresh_dinode (type : Z) : dinode := DInode type 0 0 1 0 (replicate (S NDIRECT_n) 0).

(** An inode without blocks. *)
Lemma blank_shape m d : d_addrs d = replicate (S NDIRECT_n) 0 → shape m d 0.
Proof.
  intros E. split.
  - intros bn. split; [|lia]. intros Hne. destruct Hne. destruct (decide (addr_of m d bn = 0)) as [|Hne]; [done|].
    by apply (blk_no_addrs m d (S bn) _ E), blk_addr.
  - split; [|lia]. intros Hne. destruct Hne. unfold ind_addr. by rewrite E.
Qed.

Lemma blank_byte m d o : m !! 0 = Some zeros → d_addrs d = replicate (S NDIRECT_n) 0 → byte_at m d o = 0.
Proof.
  intros H0 E. apply byte_zeros. assert (addr_of m d (o / BSIZE_n) = 0) as ->; [|done].
  destruct (decide (addr_of m d (o / BSIZE_n) = 0)) as [|Hne]; [done|]. pose proof (proj1 (sh_addr (blank_shape m d E) _) Hne). lia.
Qed.

Lemma mk_ialloc_ok s ds type :
  built s ds → 0 ≤ im_freeinode s < NINODES → ds !! im_freeinode s = Some zero_dinode → - 2 ^ 15 ≤ type < 2 ^ 15 →
  let inum := im_freeinode s in
  ∃ s', mk_ialloc type s = Ok inum s' ∧ built s' (<[inum := fresh_dinode type]> ds) ∧ im_freeinode s' = inum + 1 ∧
    im_freeblock s' = im_freeblock s ∧ (∀ b, b < sb_inodestart mkfs_sb → im_blocks s' !! b = im_blocks s !! b) ∧
    ∀ j e, j ≠ inum → ds !! j = Some e → content (imap s') e = content (imap s) e.
Proof.
  intros Hs Hr Hd Hty inum. pose proof (bu_laid Hs) as [L1 L2 L3 L4]. set (d1 := fresh_dinode type).
  set (s1 := Image (im_blocks s) (inum + 1) (im_freeblock s)). assert (imap s1 = imap s) as Em by done.
  assert (laid s1 (<[inum := d1]> ds)) as Hs1 by (split; [by apply (fields_ok mkfs_sb (imap s) ds inum zero_dinode)|done..]).
  assert (dinode_ok d1) as Hdk by (split; [exact Hty|done|done|done|done|done|by apply (Forall_replicate _ (S NDIRECT_n) 0)]).
  assert (itable mkfs_sb (imap s1) (<[inum := d1]> ds) {[inum]}) as Hit1.
  { rewrite <- (union_empty_r_L {[inum]}). by apply (itable_change mkfs_sb (imap s) _ ds ∅ inum zero_dinode); [|apply Hs|..]. }
  destruct (winode_ok s1 _ inum d1 Hs1 Hit1 (lookup_insert_eq _ _ _)) as (s2 & E2 & Hs2 & Hit2 & [W1 W2 W3 W4 W5]).
  assert (imap s2 !! 0 = Some zeros) as H0 by (rewrite imap_data by done; apply (la_zero Hs2)).
  exists s2. split; [|split; [split; [done|done|..]|split; [done|split; [done|split; [done|]]]]].
  - assert (mk_ialloc type s = (winode inum d1;; mret inum) s1) as ->; [|by mstep E2].
    change (mk_ialloc type s) with ((winode inum d1;; mret inum) (Image (im_blocks s) (u32 (inum + 1)) (im_freeblock s))).
    by rewrite (u32_small (inum + 1)) by (unfold NINODES in Hr; lia).
  - intros i e. destruct (decide (i = inum)) as [->|Hi]; [rewrite lookup_insert_eq; intros [= <-]; by apply blank_shape|].
    rewrite lookup_insert_ne by done. intros He. apply (shape_blk (imap s)); [|by apply (bu_shape Hs i)].
    apply (W1 i). by rewrite lookup_insert_ne.
  - intros i e o. destruct (decide (i = inum)) as [->|Hi]; [rewrite lookup_insert_eq; intros [= <-] _; by apply blank_byte|].
    rewrite lookup_insert_ne by done. intros He Ho. rewrite (W2 i) by (by rewrite lookup_insert_ne). by apply (bu_zero Hs i).
  - intros j e Hj He. apply content_same. intros o. apply (W2 j). by rewrite lookup_insert_ne.
Qed.

(** ** The files of the image *)

(** The name that a file gets, and the entries of the root directory for the
    files from the [k]th on. *)
Definition fname (f : list Z * list Z) : list Z := take (Z.to_nat DIRSIZ) (strip_underscore f.1).
Definition file_inum (k : nat) : Z := 2 + Z.of_nat k.

Fixpoint dir_bytes (k : nat) (files : list (list Z * list Z)) : list Z :=
  match files with
  | [] => []
  | f :: files => mk_dirent (fname f) (file_inum k) ++ dir_bytes (S k) files
  end.
Definition root_bytes (files : list (list Z * list Z)) : list Z :=
  mk_dirent [46] ROOTINO ++ mk_dirent [46; 46] ROOTINO ++ dir_bytes 0 files.

(** The blocks that their contents take. *)
Fixpoint files_blocks (files : list (list Z * list Z)) : Z :=
  match files with
  | [] => 0
  | f :: files => need (nblk (length f.2)) + files_blocks files
  end.
Definition image_blocks (files : list (list Z * list Z)) : Z :=
  nmeta + need (nblk (DE * (2 + length files))) + files_blocks files.

Lemma dir_bytes_app k files f : dir_bytes k (files ++ [f]) = dir_bytes k files ++ mk_dirent (fname f) (file_inum (k + length files)).
Proof.
  revert k. induction files as [|g files IH]; intros k; cbn [dir_bytes app length]; [by rewrite Nat.add_0_r, app_nil_r|].
  rewrite IH, <- app_assoc. by rewrite Nat.add_succ_comm.
Qed.

Lemma root_bytes_app files f : root_bytes (files ++ [f]) = root_bytes files ++ mk_dirent (fname f) (file_inum (length files)).
Proof. unfold root_bytes. rewrite dir_bytes_app. by rewrite <- !app_assoc. Qed.

Lemma length_root_bytes files : length (root_bytes files) = (DE * (2 + length files))%nat.
Proof.
  unfold root_bytes. rewrite !length_app, !length_mk_dirent.
  assert (∀ k, length (dir_bytes k files) = DE * length files)%nat as ->; [|lia].
  induction files as [|f files IH]; intros k; cbn [dir_bytes length]; [lia|]. rewrite length_app, length_mk_dirent, IH. lia.
Qed.

Lemma files_blocks_app files f : files_blocks (files ++ [f]) = files_blocks files + need (nblk (length f.2)).
Proof. induction files as [|g files IH]; cbn [files_blocks app]; lia. Qed.

Lemma files_blocks_nonneg files : 0 ≤ files_blocks files.
Proof. induction files as [|g files IH]; cbn [files_blocks]; [done|]. unfold need. destruct (decide _); lia. Qed.

Lemma image_blocks_mono files files' : image_blocks files ≤ image_blocks (files ++ files').
Proof.
  unfold image_blocks. rewrite length_app.
  assert (files_blocks files ≤ files_blocks (files ++ files')).
  { induction files as [|g files IH]; cbn [files_blocks app]; [apply files_blocks_nonneg|lia]. }
  pose proof (need_mono _ _ (nblk_mono (DE * (2 + length files)) (DE * (2 + (length files + length files'))) ltac:(lia))). lia.
Qed.

Lemma mk_dirent_take name inum : mk_dirent (take (Z.to_nat DIRSIZ) name) inum = mk_dirent name inum.
Proof.
  unfold mk_dirent. f_equal. destruct (decide (length name ≤ Z.to_nat DIRSIZ)%nat) as [Hl|Hl]; [by rewrite (take_ge name)|].
  rewrite !take_app_le by (rewrite ?length_take; lia). by rewrite take_take, Nat.min_id.
Qed.

(** The files stored in the image so far. *)
Record stored (s : image) (ds : gmap Z dinode) (files : list (list Z * list Z)) : Prop := Stored {
  st_built : built s ds;
  st_root : ∃ d, ds !! ROOTINO = Some d ∧ d_type d = T_DIR ∧ d_nlink d = 1 ∧ content (imap s) d = root_bytes files;
  st_file k f : files !! k = Some f →
    ∃ d, ds !! file_inum k = Some d ∧ d_type d = T_FILE ∧ d_nlink d = 1 ∧ content (imap s) d = f.2;
  st_rest i : i = 0 ∨ file_inum (length files) ≤ i → 0 ≤ i < NINODES → ds !! i = Some zero_dinode;
  st_dom i d : ds !! i = Some d → 0 ≤ i < NINODES;
  st_inode : im_freeinode s = file_inum (length files);
  st_block : im_freeblock s = image_blocks files;
  st_low b : b < sb_inodestart mkfs_sb → im_blocks s !! b =
    if decide (b = 1) then Some (splice 0 (sb_encode mkfs_sb) zeros) else im_blocks zero_image !! b;
}.

Lemma content_size m ds d i l : fs_ok mkfs_sb m ds → ds !! i = Some d → content m d = l → Z.to_nat (d_size d) = length l ∧ 0 ≤ d_size d.
Proof. intros Hok Hd <-. rewrite length_fcontent. split; [done|by apply (fo_size Hok i)]. Qed.

(** One more file: its inode is number [n], and the root directory, which had
    [sz] bytes, has an entry for it. *)
Record added (s s' : image) (ds ds' : gmap Z dinode) (n : Z) (sz : nat) (dr : dinode) (name c : list Z) : Prop := Added {
  ad_built : built s' ds';
  ad_root : ∃ d, ds' !! ROOTINO = Some d ∧ d_type d = d_type dr ∧ d_nlink d = d_nlink dr ∧
    content (imap s') d = content (imap s) dr ++ mk_dirent (strip_underscore name) n;
  ad_file : ∃ d, ds' !! n = Some d ∧ d_type d = T_FILE ∧ d_nlink d = 1 ∧ content (imap s') d = c;
  ad_old i : i ≠ ROOTINO → i ≠ n → ds' !! i = ds !! i;
  ad_content i e : i ≠ ROOTINO → i ≠ n → ds !! i = Some e → content (imap s') e = content (imap s) e;
  ad_inode : im_freeinode s' = n + 1;
  ad_block : im_freeblock s' = im_freeblock s + (need (nblk (sz + DE)) - need (nblk sz)) + need (nblk (length c));
  ad_low b : b < sb_inodestart mkfs_sb → im_blocks s' !! b = im_blocks s !! b;
}.

Lemma add_file s ds name c files n dr :
  built s ds → im_freeinode s = n → ds !! n = Some zero_dinode → ds !! ROOTINO = Some dr → ROOTINO < n < NINODES → SLASH ∉ name →
  d_size dr + sizeof_dirent ≤ MAXFILE * BSIZE → Z.of_nat (length c) ≤ MAXFILE * BSIZE →
  let sz := Z.to_nat (d_size dr) in
  im_freeblock s + (need (nblk (sz + DE)) - need (nblk sz)) + need (nblk (length c)) ≤ FSSIZE →
  ∃ s' ds', mkfs_files ROOTINO ((name, c) :: files) s = mkfs_files ROOTINO files s' ∧ added s s' ds ds' n sz dr name c.
Proof.
  intros B <- Hn Hdr Hr Hname Hroot Hc sz Hfit. set (n := im_freeinode s) in *. pose proof (fo_size (la_ok (bu_laid B)) _ _ Hdr) as Hsz.
  assert (ROOTINO ≠ n) as Hne by lia. assert (0 ≤ need (nblk (length c))) by (unfold need; destruct (decide _); lia).
  destruct (mk_ialloc_ok s ds T_FILE B ltac:(unfold ROOTINO in Hr; lia) Hn ltac:(done)) as (s1 & E1 & B1 & I1 & F1 & L1 & C1). fold n in E1, B1, I1, C1.
  set (ds1 := <[n := fresh_dinode T_FILE]> ds) in *. assert (ds1 !! ROOTINO = Some dr) as Hdr1 by (unfold ds1; by rewrite lookup_insert_ne).
  set (de := mk_dirent (strip_underscore name) n). assert (length de = DE) as Hde by apply length_mk_dirent.
  destruct (iappend_ok s1 ds1 ROOTINO dr de B1 Hdr1) as (dr2 & s2 & E2 & G2); [rewrite Hde; done|rewrite Hde, F1; fold sz; lia|].
  pose proof G2 as [B2 C2 O2 T2 N2 S2 L2 I2 F2]. set (ds2 := <[ROOTINO := dr2]> ds1) in *.
  assert (Z.to_nat (d_size dr2) = sz + DE)%nat as Esz by (rewrite S2, Hde; unfold sz; lia). rewrite Esz, F1 in F2. fold sz in F2.
  assert (ds2 !! n = Some (fresh_dinode T_FILE)) as Hf2 by (unfold ds2, ds1; rewrite lookup_insert_ne by done; apply lookup_insert_eq).
  destruct (append_file_ok (S (length c)) c s2 ds2 n _ B2 Hf2) as (df & s3 & E3 & G3);
    [lia|cbn [fresh_dinode d_size]; lia|rewrite F2; cbn [fresh_dinode d_size]; change (Z.to_nat 0) with 0%nat; rewrite Nat.add_0_l; change (need (nblk 0)) with 0; lia|].
  pose proof G3 as [B3 C3 O3 T3 N3 S3 L3 I3 F3]. cbn [fresh_dinode d_size d_type d_nlink] in *.
  exists s3, (<[n := df]> ds2). split.
  { cbn [mkfs_files]. unfold check. rewrite bool_decide_false by done. cbn [negb]. rewrite ret_step. mstep E1. mstep E2. by mstep E3. }
  split; [done| | | | |congruence| |intros b Hb; by rewrite L3, L2, L1].
  - exists dr2. rewrite lookup_insert_ne by done. split; [apply lookup_insert_eq|]. split; [done|]. split; [done|].
    rewrite (O3 ROOTINO dr2 Hne (lookup_insert_eq _ _ _)), C2. f_equal. by apply (C1 ROOTINO).
  - exists df. rewrite lookup_insert_eq, C3. done.
  - intros i H1 H2. unfold ds2, ds1. by rewrite !lookup_insert_ne.
  - intros i e H1 H2 He. assert (ds1 !! i = Some e) as He1 by (unfold ds1; by rewrite lookup_insert_ne).
    rewrite (O3 i e H2) by (unfold ds2; by rewrite lookup_insert_ne). by rewrite (O2 i e H1 He1), (C1 i e H2 He).
  - rewrite F3, F2, S3. change (need (nblk (Z.to_nat 0))) with 0. rewrite Z.add_0_l, Nat2Z.id. lia.
Qed.

Lemma store_file s ds done name c files :
  stored s ds done → SLASH ∉ name → (3 + length done ≤ Z.to_nat NINODES)%nat → Z.of_nat (length c) ≤ MAXFILE * BSIZE →
  image_blocks (done ++ [(name, c)]) ≤ FSSIZE →
  ∃ s' ds', mkfs_files ROOTINO ((name, c) :: files) s = mkfs_files ROOTINO files s' ∧ stored s' ds' (done ++ [(name, c)]).
Proof.
  intros [B (dr & Hdr & Tr & Nr & Cr) Hfile Hrest Hdom Hi Hb Hlow] Hname Hn Hc Hfit. change (Z.to_nat NINODES) with 200%nat in Hn.
  destruct (content_size _ _ _ _ _ (la_ok (bu_laid B)) Hdr Cr) as [Sr Pr]. rewrite length_root_bytes in Sr.
  unfold image_blocks in Hfit, Hb. rewrite length_app, files_blocks_app in Hfit. cbn [length snd] in Hfit.
  replace (DE * (2 + (length done + 1)))%nat with (DE * (2 + length done) + DE)%nat in Hfit by lia.
  destruct (add_file s ds name c files (file_inum (length done)) dr B Hi) as (s' & ds' & E & [A1 A2 A3 A4 A5 A6 A7 A8]);
    [apply Hrest; unfold NINODES, file_inum; lia|done|unfold NINODES, file_inum, ROOTINO; lia|done| |done|rewrite Sr, Hb; lia|].
  { change (MAXFILE * BSIZE) with 71680. change DE with 16%nat in Sr. change sizeof_dirent with 16. lia. }
  exists s', ds'. split; [done|]. assert (length (done ++ [(name, c)]) = S (length done)) as El by (rewrite length_app; cbn; lia).
  assert (∀ k, k ≠ length done → file_inum k ≠ ROOTINO ∧ file_inum k ≠ file_inum (length done)) as Hk by (unfold file_inum, ROOTINO; lia).
  split; [done| | | | | | |].
  - destruct A2 as (d & Hd & T & N & C). exists d. split; [done|]. split; [congruence|]. split; [congruence|].
    rewrite C, Cr, root_bytes_app. unfold fname. cbn [fst]. by rewrite mk_dirent_take.
  - intros k f Hf. destruct (decide (k = length done)) as [->|Hne].
    + rewrite lookup_app_r, Nat.sub_diag in Hf by done. injection Hf as <-. done.
    + assert (done !! k = Some f) as Hf' by (apply lookup_lt_Some in Hf as Hlt; rewrite lookup_app_l in Hf by lia; done).
      destruct (Hfile k f Hf') as (d & Hd & T & N & C), (Hk k Hne) as [H1 H2]. exists d. rewrite A4, (A5 (file_inum k)) by done. done.
  - intros i Hor Hr. rewrite El in Hor. rewrite A4 by (unfold file_inum, ROOTINO in *; lia). apply Hrest; [unfold file_inum in *; lia|done].
  - intros i e He. destruct (decide (i = file_inum (length done))) as [->|H2]; [unfold file_inum, NINODES; lia|].
    destruct (decide (i = ROOTINO)) as [->|H1]; [done|]. rewrite A4 in He by done. by eapply Hdom.
  - rewrite A6, El. unfold file_inum. lia.
  - rewrite A7, Sr, Hb. unfold image_blocks. rewrite El, files_blocks_app. cbn [snd].
    replace (DE * (2 + S (length done)))%nat with (DE * (2 + length done) + DE)%nat by lia. lia.
  - intros b Hlt. rewrite A8 by done. by apply Hlow.
Qed.

(** ** The empty image *)

Definition zero_inodes : gmap Z dinode := gset_to_gmap zero_dinode (list_to_set (seqZ 0 NINODES)).
Definition first_image : image :=
  Image (<[1 := splice 0 (sb_encode mkfs_sb) zeros]> (im_blocks zero_image)) (im_freeinode zero_image) (im_freeblock zero_image).

Lemma zero_inodes_lookup i d : zero_inodes !! i = Some d ↔ 0 ≤ i < NINODES ∧ d = zero_dinode.
Proof.
  unfold zero_inodes. rewrite lookup_gset_to_gmap_Some, elem_of_list_to_set, elem_of_seqZ. split; intros [H1 H2]; (split; [lia|done]).
Qed.

Lemma zero_image_lookup b : 0 ≤ b < FSSIZE → im_blocks zero_image !! b = Some zeros.
Proof.
  intros Hb. cbn [zero_image im_blocks]. apply elem_of_list_to_map_1.
  - rewrite <- list_fmap_compose. apply NoDup_fmap_2; [intros x y H; by apply Nat2Z.inj|apply NoDup_seq].
  - apply list_elem_of_fmap. exists (Z.to_nat b). rewrite Z2Nat.id by lia. split; [done|]. apply elem_of_seq. unfold FSSIZE in *. lia.
Qed.

Lemma first_image_lookup b : 1 < b < FSSIZE → im_blocks first_image !! b = Some zeros.
Proof. intros Hb. cbn [first_image im_blocks]. rewrite lookup_insert_ne by lia. apply zero_image_lookup. lia. Qed.

Lemma first_image_ok : fs_ok mkfs_sb (imap first_image) zero_inodes.
Proof.
  assert (∀ i d p b, zero_inodes !! i = Some d → blk (imap first_image) d !! p = Some b → b = 0) as H0.
  { intros i d p b [_ ->]%zero_inodes_lookup. by apply blk_no_addrs. }
  split.
  - split; [done|done|]. intros b Hb. rewrite BBLOCK_mkfs by done. exists (bits 59). split; [apply lookup_insert_eq|]. by apply bits_ok.
  - intros b Hr Hs. unfold used. change (sb_size mkfs_sb) with FSSIZE in Hs. rewrite BBLOCK_mkfs by lia.
    unfold imap. rewrite lookup_insert_eq. change (im_freeblock first_image) with 59.
    change (data_start mkfs_sb) with 59 in Hr. unfold bit_index. rewrite Z.mod_small by (unfold BPB, BSIZE; lia).
    rewrite bits_bit by (unfold BPB, BSIZE; lia). apply bool_decide_true. lia.
  - intros b [Hr Hs]. change (data_start mkfs_sb) with 59 in Hr. change (sb_size mkfs_sb) with FSSIZE in Hs.
    rewrite imap_data by (change (b ≠ 58); lia). exists zeros. split; [apply first_image_lookup; lia|apply length_replicate].
  - by intros i d [_ ->]%zero_inodes_lookup.
  - intros i d p b Hd Hp Hne. by destruct Hne; eapply H0.
  - intros i1 i2 d1 d2 p1 p2 b Hd1 _ Hp1 _ Hne. by destruct Hne; eapply H0.
  - by intros i d [_ ->]%zero_inodes_lookup.
  - intros i d o [_ ->]%zero_inodes_lookup Ho. cbn in Ho. lia.
Qed.

Lemma get_zeros i : 0 ≤ i → get_dinode i zeros = zero_dinode.
Proof.
  intros Hi. unfold get_dinode. assert (slice (dinode_off i) (Z.to_nat sizeof_dinode) zeros = replicate (Z.to_nat sizeof_dinode) 0) as ->; [|done].
  pose proof (dinode_off_range i Hi). unfold slice, zeros. rewrite drop_replicate, take_replicate. f_equal. lia.
Qed.

Lemma first_image_zero : im_blocks first_image !! 0 = Some zeros.
Proof. cbn [first_image im_blocks]. rewrite lookup_insert_ne by done. by apply zero_image_lookup. Qed.

Lemma first_image_built : built first_image zero_inodes.
Proof.
  split.
  - split; [apply first_image_ok|done| |apply first_image_zero]. intros b Hb. apply first_image_lookup. change (im_freeblock first_image) with 59 in Hb. lia.
  - assert (∀ i d, zero_inodes !! i = Some d → 0 ≤ i < 200 ∧ d = zero_dinode ∧ 0 ≤ i / IPB < 25) as Hl.
    { intros i d [Hr ->]%zero_inodes_lookup. change NINODES with 200 in Hr. split; [done|]. split; [done|].
      split; [apply Z.div_pos; [lia|done]|apply Z.div_lt_upper_bound; [done|]]. change IPB with 8. lia. }
    split.
    + intros i d (? & _)%Hl. lia.
    + done.
    + intros i d (_ & _ & ?)%Hl. change (i / IPB + 32 < 58). lia.
    + intros i d (_ & -> & _)%Hl. by split; [..|apply (Forall_replicate _ (S NDIRECT_n) 0)].
    + intros i d (Hr & -> & Hq)%Hl. exists zeros. unfold IBLOCK. change (sb_inodestart mkfs_sb) with 32. rewrite u32_small by lia.
      rewrite imap_data by (change (i / IPB + 32 ≠ 58); lia). split; [apply first_image_lookup; unfold FSSIZE; lia|]. split; [apply length_replicate|]. intros _. apply get_zeros. lia.
  - intros i d [_ ->]%zero_inodes_lookup. by apply blank_shape.
  - intros i d o [_ ->]%zero_inodes_lookup _. apply blank_byte; [|done]. rewrite imap_data by done. apply first_image_zero.
Qed.

(** The part of main() behind the root directory's first two entries. *)
Definition mkfs_rest (files : list (list Z * list Z)) : M image unit :=
  mkfs_files ROOTINO files;;
  din ← rinode ROOTINO;
  winode ROOTINO (set_size ((d_size din / BSIZE + 1) * BSIZE) din);;
  s ← get;
  mk_balloc (im_freeblock s).

Lemma first_stored : ∃ s ds, (∀ s0 files, mkfs files s0 = mkfs_rest files s) ∧ stored s ds [].
Proof.
  pose proof first_image_built as B0.
  destruct (mk_ialloc_ok first_image zero_inodes T_DIR B0) as (s1 & E1 & B1 & I1 & F1 & L1 & C1); [done|by apply zero_inodes_lookup|done|].
  change (im_freeinode first_image) with ROOTINO in *. change (im_freeblock first_image) with 59 in F1. set (ds1 := <[ROOTINO := _]> zero_inodes) in *.
  destruct (iappend_ok s1 ds1 ROOTINO _ (mk_dirent [46] ROOTINO) B1 (lookup_insert_eq _ _ _)) as (d2 & s2 & E2 & [B2 C2 _ T2 N2 S2 L2 I2 F2]);
    [done|by rewrite F1|]. unfold ds1 in B2. rewrite insert_insert_eq in B2. cbn [fresh_dinode d_size d_type d_nlink] in *.
  rewrite length_mk_dirent in S2. change (0 + Z.of_nat DE) with 16 in S2. rewrite S2, F1 in F2. change (im_freeblock s2 = 60) in F2.
  destruct (iappend_ok s2 _ ROOTINO d2 (mk_dirent [46; 46] ROOTINO) B2 (lookup_insert_eq _ _ _)) as (d3 & s3 & E3 & [B3 C3 _ T3 N3 S3 L3 I3 F3]);
    [by rewrite S2|by rewrite F2, S2|]. rewrite insert_insert_eq in B3. rewrite length_mk_dirent, S2 in S3. change (16 + Z.of_nat DE) with 32 in S3.
  rewrite S3, S2, F2 in F3. change (im_freeblock s3 = 60) in F3.
  exists s3, (<[ROOTINO := d3]> zero_inodes). split.
  { intros s0 files. unfold mkfs. change (put zero_image s0) with (Ok (A := unit) tt zero_image).
    mstep (eq_refl : put zero_image s0 = Ok tt zero_image). mstep (eq_refl : wsect 1 (splice 0 (sb_encode mkfs_sb) zeros) zero_image = Ok tt first_image).
    mstep E1. unfold check. rewrite Z.eqb_refl, ret_step. mstep E2. mstep E3. done. }
  clear E1 E2 E3. split; [done| |done| | |by rewrite I3, I2, I1|by rewrite F3| ].
  - exists d3. split; [apply lookup_insert_eq|]. split; [congruence|]. split; [congruence|]. by rewrite C3, C2.
  - intros i Hor Hr. rewrite lookup_insert_ne by (unfold ROOTINO, file_inum in *; cbn in Hor; lia). by apply zero_inodes_lookup.
  - intros i d. destruct (decide (i = ROOTINO)) as [->|Hi]; [intros _; unfold ROOTINO, NINODES; lia|]. rewrite lookup_insert_ne by done. by intros [? _]%zero_inodes_lookup.
  - intros b Hb. rewrite L3, L2, L1 by done. cbn [first_image im_blocks]. destruct (decide (b = 1)) as [->|]; [apply lookup_insert_eq|by apply lookup_insert_ne].
Qed.

Lemma mkfs_files_ok files s ds done :
  stored s ds done → Forall (λ f, SLASH ∉ f.1 ∧ Z.of_nat (length f.2) ≤ MAXFILE * BSIZE) files →
  (2 + (length done + length files) ≤ Z.to_nat NINODES)%nat → image_blocks (done ++ files) ≤ FSSIZE →
  ∃ s' ds', mkfs_files ROOTINO files s = Ok tt s' ∧ stored s' ds' (done ++ files).
Proof.
  revert s ds done. induction files as [|[name c] files IH]; intros s ds done Hs Hall Hn Hfit.
  { exists s, ds. by rewrite app_nil_r. }
  apply Forall_cons in Hall as [[Hname Hc] Hall]. cbn [length fst snd] in *. change (Z.to_nat NINODES) with 200%nat in *.
  assert (done ++ (name, c) :: files = (done ++ [(name, c)]) ++ files) as El by (by rewrite <- app_assoc). rewrite El in *.
  pose proof (image_blocks_mono (done ++ [(name, c)]) files).
  destruct (store_file s ds done name c files Hs Hname) as (s1 & ds1 & E1 & Hs1); [change (Z.to_nat NINODES) with 200%nat; lia|done|lia|].
  rewrite E1. apply (IH s1 ds1 _ Hs1 Hall); [rewrite length_app; cbn; lia|done].
Qed.

(** ** The root directory *)

Lemma dirents_cons de l : length de = DE → dirents (de ++ l) = de :: dirents l.
Proof.
  intros Hde. assert (DE ≠ 0)%nat as HD by done. unfold dirents. rewrite length_app, Hde.
  assert ((DE + length l) / DE = S (length l / DE))%nat as ->.
  { rewrite <- (Nat.mul_1_l DE) at 1. rewrite Nat.add_comm, Nat.div_add by done. lia. }
  cbn [seq]. rewrite fmap_cons. f_equal.
  - unfold slice. rewrite Nat.mul_0_r, drop_0. by apply take_app_length'.
  - rewrite <- fmap_S_seq, <- list_fmap_compose. apply list_fmap_ext. intros _ k _. unfold compose, slice. f_equal.
    rewrite Nat.mul_succ_r, (Nat.add_comm _ DE), <- Hde at 1. by rewrite drop_app_add.
Qed.

Lemma dir_lookup_cons n name inum l :
  name_ok name → 0 < inum < 2 ^ 16 → dir_lookup n (mk_dirent name inum ++ l) = if decide (n = name) then Some inum else dir_lookup n l.
Proof.
  intros Hname Hi. unfold dir_lookup, dir_find. rewrite dirents_cons by apply length_mk_dirent. cbn [list_find].
  assert (entry_is n (mk_dirent name inum) ↔ n = name) as He.
  { unfold entry_is. rewrite mk_dirent_inum, mk_dirent_name by (done || lia). split; [by intros [_ ->]|intros ->; split; [lia|done]]. }
  destruct (decide (n = name)) as [E|E].
  - rewrite decide_True by (by apply He). cbn [fmap option_fmap option_map snd]. by rewrite mk_dirent_inum by lia.
  - rewrite decide_False by (by intros ?%He). by destruct (list_find _ _) as [[]|].
Qed.

Lemma dir_lookup_zeros n k : dir_lookup n (replicate k 0) = None.
Proof.
  unfold dir_lookup, dir_find. assert (list_find (entry_is n) (dirents (replicate k 0)) = None) as ->; [|done].
  apply list_find_None, Forall_forall. intros de. unfold dirents. rewrite list_elem_of_fmap. intros (j & -> & _) [Hne _]. apply Hne.
  unfold slice, dirent_inum, half_at, slice. rewrite drop_replicate, take_replicate, drop_replicate, take_replicate.
  generalize ((2 `min` ((DE `min` (k - DE * j)) - 2 * 0))%nat). intros i. induction i as [|i IH]; [done|]. cbn [replicate le_value]. by rewrite IH.
Qed.

(** The names in use in a directory that mkfs writes. *)
Lemma used_names_cons name inum l : name_ok name → 0 < inum < 2 ^ 16 → used_names (mk_dirent name inum ++ l) = name :: used_names l.
Proof.
  intros Hname Hi. unfold used_names. rewrite dirents_cons by apply length_mk_dirent. rewrite filter_cons_True by (rewrite mk_dirent_inum; lia).
  rewrite fmap_cons. f_equal. unfold compose. by apply mk_dirent_name.
Qed.

Lemma used_names_zeros k : used_names (replicate k 0) = [].
Proof.
  unfold used_names. enough (filter (λ de, dirent_inum de ≠ 0) (dirents (replicate k 0)) = []) as -> by done.
  destruct (filter _ _) as [|de des] eqn:Ef; [done|]. exfalso.
  assert (de ∈ filter (λ de, dirent_inum de ≠ 0) (dirents (replicate k 0))) as [Hne Hde]%list_elem_of_filter by (rewrite Ef; by left). pose proof (dir_lookup_zeros (cname (dirent_name de)) k) as H.
  unfold dir_lookup, dir_find in H. destruct (list_find _ _) eqn:E; [done|]. apply list_find_None in E. rewrite Forall_forall in E. by apply (E de).
Qed.

Lemma used_names_files k files z :
  Forall (λ f, name_ok (fname f)) files → Z.of_nat (k + length files) < 65000 → used_names (dir_bytes k files ++ replicate z 0) = fname <$> files.
Proof.
  revert k. induction files as [|f files IH]; intros k Hall Hk; cbn [dir_bytes]; [apply used_names_zeros|].
  apply Forall_cons in Hall as [Hf Hall]. cbn [length] in Hk. rewrite <- app_assoc, used_names_cons by (done || unfold file_inum; lia).
  by rewrite IH by (done || lia).
Qed.

(** The number of the file called [n]. *)
Fixpoint named (n : list Z) (k : nat) (files : list (list Z * list Z)) : option Z :=
  match files with
  | [] => None
  | f :: files => if decide (n = fname f) then Some (file_inum k) else named n (S k) files
  end.

Lemma dir_bytes_lookup n k files z :
  Forall (λ f, name_ok (fname f)) files → Z.of_nat (k + length files) < 65000 →
  dir_lookup n (dir_bytes k files ++ replicate z 0) = named n k files.
Proof.
  revert k. induction files as [|f files IH]; intros k Hall Hk; cbn [dir_bytes named]; [apply dir_lookup_zeros|].
  apply Forall_cons in Hall as [Hf Hall]. cbn [length] in Hk. rewrite <- app_assoc, dir_lookup_cons by (done || unfold file_inum; lia).
  by rewrite IH by (done || lia).
Qed.

Lemma named_lookup k files i f :
  files !! i = Some f → NoDup (fname <$> files) → named (fname f) k files = Some (file_inum (k + i)).
Proof.
  revert k i. induction files as [|g files IH]; intros k i Hi Hnd; [done|]. cbn [named]. rewrite fmap_cons, NoDup_cons in Hnd.
  destruct Hnd as [Hg Hnd]. destruct i as [|i]; [injection Hi as ->; by rewrite decide_True, Nat.add_0_r|].
  rewrite decide_False; [rewrite (IH (S k) i) by done; f_equal; f_equal; lia|].
  intros E. apply Hg. rewrite <- E. apply list_elem_of_fmap. exists f. split; [done|]. by apply (list_elem_of_lookup_2 _ i).
Qed.

Lemma named_None n k files : n ∉ fname <$> files → named n k files = None.
Proof.
  revert k. induction files as [|f files IH]; intros k Hn; [done|]. rewrite fmap_cons, not_elem_of_cons in Hn. destruct Hn as [H1 H2].
  cbn [named]. rewrite decide_False by done. by apply IH.
Qed.

Lemma named_Some n k files i : named n k files = Some i → file_inum k ≤ i < file_inum (k + length files).
Proof.
  revert k. induction files as [|f files IH]; intros k; [done|]. cbn [named length]. destruct (decide _); [intros [= <-]; unfold file_inum; lia|].
  intros H%IH. unfold file_inum in *. lia.
Qed.

(** ** The finished image *)

(** What the files have to satisfy: they fit, their names differ, and the
    entries of the root directory do not fill its last block. *)
Record mkfs_fits (files : list (list Z * list Z)) : Prop := MkfsFits {
  mk_name f : f ∈ files → Forall byte_ok f.1 ∧ 0 ∉ f.1 ∧ SLASH ∉ f.1;
  mk_distinct : NoDup ([46] :: [46; 46] :: (fname <$> files));
  mk_inodes : 2 + Z.of_nat (length files) ≤ NINODES;
  mk_size f : f ∈ files → Z.of_nat (length f.2) ≤ MAXFILE * BSIZE;
  mk_blocks : image_blocks files ≤ FSSIZE;
  mk_slack : ((DE * (2 + length files)) `mod` BSIZE_n ≠ 0)%nat;
}.

Lemma strip_cases l : strip_underscore l = l ∨ l = 95 :: strip_underscore l.
Proof. destruct l as [|c l]; [by left|]. destruct c as [|p|p]; [by left| |by left]. do 7 (destruct p as [p|p|]; try by left). by right. Qed.

Lemma fname_ok f : Forall byte_ok f.1 → 0 ∉ f.1 → name_ok (fname f).
Proof.
  intros Hb H0. assert (∀ x, x ∈ strip_underscore f.1 → x ∈ f.1) as Hin.
  { intros x Hx. destruct (strip_cases f.1) as [E|E]; [by rewrite E in Hx|]. rewrite E. by right. }
  split.
  - apply Forall_take, Forall_forall. intros x Hx. rewrite Forall_forall in Hb. by apply Hb, Hin.
  - intros H. by apply H0, Hin, (subseteq_take (Z.to_nat DIRSIZ)).
  - unfold fname. rewrite length_take. lia.
Qed.

Lemma fs_ok_sub sb m ds ds' : fs_ok sb m ds → ds' ⊆ ds → fs_ok sb m ds'.
Proof.
  intros [H1 H2 H3 H4 H5 H6 H7 H8] Hsub. assert (∀ i d, ds' !! i = Some d → ds !! i = Some d) as Hl by (intros i d Hd; by eapply lookup_weaken).
  split; [done|done|done| | | | |]; intros; eauto.
Qed.

Lemma itable_sub sb m ds ds' : itable sb m ds ∅ → ds' ⊆ ds → itable sb m ds' ∅.
Proof.
  intros [H1 H2 H3 H4 H5] Hsub. assert (∀ i d, ds' !! i = Some d → ds !! i = Some d) as Hl by (intros i d Hd; by eapply lookup_weaken).
  split; [|done|..]; intros; eauto.
Qed.

(** The blocks of the finished image. *)
Record finished (m : gmap Z block) (ds : gmap Z dinode) (files : list (list Z * list Z)) : Prop := Finished {
  fi_ok : fs_ok mkfs_sb m ds;
  fi_table : itable mkfs_sb m ds ∅;
  fi_root : ∃ d z, ds !! ROOTINO = Some d ∧ d_type d = T_DIR ∧ d_nlink d = 1 ∧ content m d = root_bytes files ++ replicate z 0 ∧
    (length (content m d) `mod` DE = 0)%nat;
  fi_file k f : files !! k = Some f → ∃ d, ds !! file_inum k = Some d ∧ d_type d = T_FILE ∧ d_nlink d = 1 ∧ content m d = f.2;
  fi_rest i : i = 0 ∨ file_inum (length files) ≤ i → 0 ≤ i < NINODES → ds !! i = Some zero_dinode;
  fi_dom i d : ds !! i = Some d → 0 ≤ i < NINODES;
  fi_used g : 0 ≤ g < FSSIZE → used mkfs_sb m g = bool_decide (g < image_blocks files);
  fi_low b : b < sb_inodestart mkfs_sb → m !! b =
    if decide (b = 1) then Some (splice 0 (sb_encode mkfs_sb) zeros) else im_blocks zero_image !! b;
}.

(** The last block of the root directory is there up to its end. *)
Lemma round_full sz o : (sz `mod` BSIZE_n ≠ 0)%nat → (o < (sz / BSIZE_n + 1) * BSIZE_n)%nat → (o / BSIZE_n < nblk sz)%nat.
Proof.
  intros Hm Ho. assert (BSIZE_n ≠ 0)%nat as Hnz by done. pose proof (Nat.div_mod_eq sz BSIZE_n) as E.
  assert (o / BSIZE_n ≤ sz / BSIZE_n)%nat as Hle by (apply Nat.lt_succ_r, Nat.div_lt_upper_bound; [done|lia]).
  pose proof (nblk_full (BSIZE_n * (sz / BSIZE_n)) sz ltac:(lia)) as Hlt. rewrite Nat.mul_comm, Nat.div_mul in Hlt by done. lia.
Qed.

Lemma round_content m d sz :
  0 ≤ d_size d ≤ sz → (∀ o, d_size d ≤ Z.of_nat o → byte_at m d o = 0) →
  content m (set_size sz d) = content m d ++ replicate (Z.to_nat (sz - d_size d)) 0.
Proof.
  intros Hs Hz. apply content_app; [lia|rewrite length_replicate; cbn [set_size d_size]; lia|]. intros o. rewrite length_replicate.
  change (byte_at m (set_size sz d) o) with (byte_at m d o). destruct (decide _) as [Hin|]; [|done].
  rewrite lookup_replicate_2 by lia. apply Hz. lia.
Qed.

(** The size of the root directory is rounded up to whole blocks. *)
Definition rounded (d : dinode) : dinode := set_size ((d_size d / BSIZE + 1) * BSIZE) d.

Lemma rounded_size d : 0 ≤ d_size d →
  d_size (rounded d) = Z.of_nat ((Z.to_nat (d_size d) / BSIZE_n + 1) * BSIZE_n) ∧ d_size d ≤ d_size (rounded d) ≤ d_size d + BSIZE.
Proof.
  intros Hd. assert (d_size (rounded d) = Z.of_nat ((Z.to_nat (d_size d) / BSIZE_n + 1) * BSIZE_n)) as E.
  { cbn [rounded set_size d_size]. rewrite Nat2Z.inj_mul, Nat2Z.inj_add, Nat2Z.inj_div, Z2Nat.id by done. done. }
  split; [done|]. pose proof (Nat.mul_succ_div_gt (Z.to_nat (d_size d)) BSIZE_n ltac:(done)).
  pose proof (Nat.Div0.mul_div_le (Z.to_nat (d_size d)) BSIZE_n). change BSIZE with (Z.of_nat BSIZE_n). lia.
Qed.

Lemma rounded_ok s ds inum d :
  built s ds → ds !! inum = Some d → (Z.to_nat (d_size d) `mod` BSIZE_n ≠ 0)%nat → d_size d + BSIZE < 2 ^ 32 →
  laid s (<[inum := rounded d]> ds) ∧ itable mkfs_sb (imap s) (<[inum := rounded d]> ds) {[inum]}.
Proof.
  intros B Hd Hm Hs. pose proof (fo_size (la_ok (bu_laid B)) _ _ Hd) as Hp. destruct (rounded_size d Hp) as [E [Hle Hge]].
  assert (fs_ok mkfs_sb (imap s) (<[inum := rounded d]> ds)) as Hok.
  { apply set_size_ok; [apply (la_ok (bu_laid B))|done|cbn [rounded set_size d_size] in Hle; lia|].
    intros o Ho. apply (sh_addr (bu_shape B _ _ Hd)), round_full; [done|]. cbn [rounded set_size d_size] in E. lia. }
  split; [destruct (bu_laid B) as [_ L2 L3 L4]; by split|].
  rewrite <- (union_empty_r_L {[inum]}). apply (itable_change mkfs_sb (imap s) _ ds ∅ inum d); [apply (la_ok (bu_laid B))|apply (bu_table B)|done| |done].
  apply (dinode_ok_next mkfs_sb _ _ inum d _ Hok); [apply lookup_insert_eq|by apply (it_dinode _ _ _ _ (bu_table B) inum)|done..|lia].
Qed.

Lemma finish_ok s ds files :
  stored s ds files → ((DE * (2 + length files)) `mod` BSIZE_n ≠ 0)%nat → 2 + Z.of_nat (length files) ≤ NINODES →
  ∃ s' ds', (din ← rinode ROOTINO; winode ROOTINO (set_size ((d_size din / BSIZE + 1) * BSIZE) din);; s ← get; mk_balloc (im_freeblock s)) s = Ok tt s' ∧
    finished (im_blocks s') ds' files.
Proof.
  intros [B (dr & Hdr & Tr & Nr & Cr) Hfile Hrest Hdom Hi Hb Hlow] Hslack Hn.
  destruct (content_size _ _ _ _ _ (la_ok (bu_laid B)) Hdr Cr) as [Sr Pr]. rewrite length_root_bytes in Sr.
  mstep (rinode_ok s ds ROOTINO dr (bu_laid B) (bu_table B) Hdr). fold (rounded dr). set (d' := rounded dr).
  destruct (rounded_size dr Pr) as [Esz [Hle _]]. fold d' in Esz, Hle.
  destruct (rounded_ok s ds ROOTINO dr B Hdr) as [Hs1 Hit1]; [by rewrite Sr|change DE with 16%nat in Sr; unfold NINODES, BSIZE in *; lia|].
  destruct (winode_ok s _ ROOTINO d' Hs1 Hit1 (lookup_insert_eq _ _ _)) as (s1 & E1 & Hs2 & Hit2 & [W1 W2 W3 W4 W5]). mstep E1. clear E1.
  pose proof (la_range Hs2) as Hr. change nmeta with 59 in Hr.
  exists (Image (imap s1) (im_freeinode s1) (im_freeblock s1)), (<[ROOTINO := d']> ds). split.
  { assert (im_freeblock s1 <? BSIZE * 8 = true) as Hlt by (apply Z.ltb_lt; unfold FSSIZE, BSIZE in *; lia).
    unfold get, mbind, M_bind, mk_balloc, check. by rewrite Hlt. }
  cbn [im_blocks]. assert (∀ i e, <[ROOTINO := d']> ds !! i = Some e → content (imap s1) e = content (imap s) e) as Hc.
  { intros i e He. apply content_same. intros o. by apply (W2 i). }
  split; [apply (la_ok Hs2)|done| | | | | |].
  - exists d', (Z.to_nat (d_size d' - d_size dr)). rewrite (Hc ROOTINO d') by apply lookup_insert_eq.
    assert (content (imap s) d' = root_bytes files ++ replicate (Z.to_nat (d_size d' - d_size dr)) 0) as Ec.
    { unfold d', rounded. rewrite round_content, Cr; [done|done|intros o; by apply (bu_zero B ROOTINO)]. }
    split; [apply lookup_insert_eq|]. split; [done|]. split; [done|]. split; [done|].
    rewrite length_fcontent. rewrite Esz, Nat2Z.id. change BSIZE_n with (32 * DE)%nat. rewrite Nat.mul_assoc. by apply Nat.Div0.mod_mul.
  - intros k f Hf. destruct (Hfile k f Hf) as (d & Hd & T & N & C). exists d. assert (file_inum k ≠ ROOTINO) by (unfold file_inum, ROOTINO; lia).
    rewrite lookup_insert_ne by done. rewrite (Hc (file_inum k)) by (by rewrite lookup_insert_ne). done.
  - intros i Hor Hir. rewrite lookup_insert_ne by (unfold file_inum, ROOTINO in *; lia). by apply Hrest.
  - intros i e. destruct (decide (i = ROOTINO)) as [->|Hne]; [intros _; unfold ROOTINO, NINODES; lia|]. rewrite lookup_insert_ne by done. apply Hdom.
  - intros g Hg. unfold used. rewrite BBLOCK_mkfs by done. unfold imap. rewrite lookup_insert_eq. unfold bit_index.
    rewrite Z.mod_small, bits_bit by (unfold FSSIZE, BPB, BSIZE in *; lia). by rewrite W4, Hb.
  - intros b Hlt. rewrite imap_data by (change (sb_inodestart mkfs_sb) with 32 in Hlt; change (b ≠ 58); lia). rewrite W3 by done. by apply Hlow.
Qed.

(** ** The theorem *)

(** What the kernel finds in the image [m]. *)
Record mkfs_image (m : gmap Z block) (ds : gmap Z dinode) (files : list (list Z * list Z)) : Prop := MkfsImage {
  mi_super : ∃ x, m !! 1 = Some x ∧ sb_decode x = mkfs_sb;
  mi_log : m !! sb_logstart mkfs_sb = Some zeros;
  mi_ok : fs_ok mkfs_sb m ds;
  mi_table : itable mkfs_sb m ds ∅;
  mi_tree : tree_ok m ds;
  mi_used g : 0 ≤ g < FSSIZE → used mkfs_sb m g = bool_decide (g < image_blocks files);
  mi_free i : 1 ≤ i < NINODES → ds !! i = None ↔ d_type (idisk mkfs_sb m i) = 0;
  mi_type i d : ds !! i = Some d → d_type d ≠ 0 ∧ d_nlink d = 1;
  mi_root : is_Some (ds !! ROOTINO);
  mi_dot n : n = [46] ∨ n = [46; 46] → resolve m ds ROOTINO [n] = Some ROOTINO;
  mi_file k f : files !! k = Some f → resolve m ds ROOTINO [fname f] = Some (file_inum k) ∧
    ∃ d, ds !! file_inum k = Some d ∧ d_type d = T_FILE ∧ content m d = f.2;
  mi_none n : n ∉ [46] :: [46; 46] :: (fname <$> files) → resolve m ds ROOTINO [n] = None;
}.

Lemma root_bytes_ok files : Forall (λ f, name_ok (fname f)) files → Forall byte_ok (root_bytes files).
Proof.
  intros Hall. unfold root_bytes. rewrite !Forall_app. split; [by apply forallb_range|]. split; [by apply forallb_range|].
  generalize 0%nat. induction Hall as [|f files Hf _ IH]; intros k; cbn [dir_bytes]; [done|]. apply Forall_app. split; [by apply mk_dirent_byte|apply IH].
Qed.

(** The names in the root directory. *)
Lemma root_lookup n files z :
  Forall (λ f, name_ok (fname f)) files → 2 + Z.of_nat (length files) ≤ NINODES →
  dir_lookup n (root_bytes files ++ replicate z 0) = if decide (n = [46] ∨ n = [46; 46]) then Some ROOTINO else named n 0 files.
Proof.
  intros Hall Hn. unfold root_bytes. rewrite <- !app_assoc.
  pose proof (dot_ok 1%nat ltac:(lia) : name_ok [46]). pose proof (dot_ok 2%nat ltac:(lia) : name_ok [46; 46]).
  rewrite (dir_lookup_cons n [46]), (dir_lookup_cons n [46; 46]) by done.
  rewrite dir_bytes_lookup by (done || unfold NINODES in Hn; lia).
  destruct (decide (n = [46])), (decide (n = [46; 46])), (decide (n = [46] ∨ n = [46; 46])); naive_solver.
Qed.

Section image.
Context (m : gmap Z block) (ds0 : gmap Z dinode) (files : list (list Z * list Z)).
Context (Hf : mkfs_fits files) (Hm : finished m ds0 files).
#[local] Abbreviation ds := (filter (λ p, d_type p.2 ≠ 0) ds0).

Lemma image_names : Forall (λ f, name_ok (fname f)) files.
Proof using Hf. apply Forall_forall. intros f Hin. destruct (mk_name _ Hf f Hin) as (H1 & H2 & _). by apply fname_ok. Qed.

(** The inodes in use. *)
Lemma image_inode i d :
  ds !! i = Some d → i = ROOTINO ∧ d_type d = T_DIR ∧ d_nlink d = 1 ∨
    ∃ k f, files !! k = Some f ∧ i = file_inum k ∧ d_type d = T_FILE ∧ d_nlink d = 1.
Proof using Hm.
  intros [Hd Hty]%map_lookup_filter_Some. cbn [snd] in Hty. pose proof (fi_dom _ _ _ Hm i d Hd) as Hr.
  destruct (decide (i = ROOTINO)) as [->|H1].
  - destruct (fi_root _ _ _ Hm) as (d' & z & Hd' & T & N & _). left. assert (d' = d) as -> by congruence. done.
  - destruct (decide (i = 0 ∨ file_inum (length files) ≤ i)) as [Hor|Hnor].
    { rewrite (fi_rest _ _ _ Hm i Hor Hr) in Hd. injection Hd as <-. done. }
    assert (i = file_inum (Z.to_nat (i - 2)) ∧ (Z.to_nat (i - 2) < length files)%nat) as [Ei Hlt] by (unfold file_inum, ROOTINO in *; lia).
    destruct (lookup_lt_is_Some_2 _ _ Hlt) as [f Hfk]. right. exists (Z.to_nat (i - 2)), f.
    destruct (fi_file _ _ _ Hm _ f Hfk) as (d' & Hd' & T & N & _). rewrite <- Ei in Hd'. assert (d' = d) as -> by congruence. done.
Qed.

Lemma image_resolve n : resolve m ds ROOTINO [n] = if decide (n = [46] ∨ n = [46; 46]) then Some ROOTINO else named n 0 files.
Proof using Hf Hm.
  destruct (fi_root _ _ _ Hm) as (d & z & Hd & T & N & C & _). cbn [resolve].
  assert (ds !! ROOTINO = Some d) as -> by (apply map_lookup_filter_Some; split; [done|cbn [snd]; by rewrite T]).
  cbn [mbind option_bind]. rewrite decide_True, C, (root_lookup n files z image_names (mk_inodes _ Hf)) by done. by destruct (decide _); [|destruct (named n 0 files)].
Qed.

Lemma image_used z : NoDup (used_names (root_bytes files ++ replicate z 0)).
Proof using Hf.
  pose proof (mk_inodes _ Hf) as Hl. unfold NINODES in Hl. unfold root_bytes. rewrite <- !app_assoc.
  rewrite (used_names_cons [46]), (used_names_cons [46; 46]) by (done || (apply (dot_ok 1); lia) || (apply (dot_ok 2); lia)).
  rewrite used_names_files by (apply image_names || lia). apply (mk_distinct _ Hf).
Qed.

Lemma image_tree : tree_ok m ds.
Proof using Hf Hm.
  destruct (fi_root _ _ _ Hm) as (d & z & Hd & T & N & C & L).
  assert (∀ i e, ds !! i = Some e → d_type e = T_DIR → e = d) as Hdir.
  { intros i e He Te. destruct (image_inode i e He) as [(-> & _)|(k & f & _ & _ & Tf & _)]; [|by rewrite Te in Tf].
    apply map_lookup_filter_Some in He as [He _]. congruence. }
  split.
  - intros i e He Te. rewrite (Hdir i e He Te), C in *. split; [|done|].
    + apply Forall_app. split; [by apply root_bytes_ok, image_names|by apply Forall_replicate].
    + intros j k x y Hx Hy Hx0 Hy0. by apply (NoDup_filter_index _ _ _ _ _ _ _ (image_used z)).
  - intros i e n k He Te Hk. rewrite (Hdir i e He Te), C, (root_lookup n files z image_names (mk_inodes _ Hf)) in Hk. destruct (decide _).
    + injection Hk as <-. exists d. split; [apply map_lookup_filter_Some; split; [done|cbn [snd]; by rewrite T]|by rewrite N].
    + apply named_Some in Hk as Hr. assert (k = file_inum (Z.to_nat (k - 2)) ∧ (Z.to_nat (k - 2) < length files)%nat) as [Ek Hlt] by (unfold file_inum in *; lia).
      destruct (lookup_lt_is_Some_2 _ _ Hlt) as [f Hfk]. destruct (fi_file _ _ _ Hm _ f Hfk) as (d' & Hd' & T' & N' & _). rewrite <- Ek in Hd'.
      exists d'. split; [apply map_lookup_filter_Some; split; [done|cbn [snd]; by rewrite T']|by rewrite N'].
Qed.

Lemma image_free i : 1 ≤ i < NINODES → ds !! i = None ↔ d_type (idisk mkfs_sb m i) = 0.
Proof using Hm.
  intros Hi. assert (is_Some (ds0 !! i)) as [d Hd].
  { destruct (decide (i = ROOTINO)) as [->|H1]; [destruct (fi_root _ _ _ Hm) as (d & _ & Hd & _); eauto|].
    destruct (decide (file_inum (length files) ≤ i)) as [Hge|Hlt]; [rewrite (fi_rest _ _ _ Hm i) by (by right || lia); eauto|].
    destruct (lookup_lt_is_Some_2 files (Z.to_nat (i - 2))) as [f Hfk]; [unfold file_inum, ROOTINO in *; lia|].
    destruct (fi_file _ _ _ Hm _ f Hfk) as (d & Hd & _). exists d. rewrite <- Hd. f_equal. unfold file_inum, ROOTINO in *. lia. }
  destruct (it_block _ _ _ _ (fi_table _ _ _ Hm) i d Hd) as (x & Hx & _ & Hg). unfold idisk. rewrite Hx. cbn [from_option id].
  rewrite Hg by apply not_elem_of_empty. rewrite map_lookup_filter_None. split.
  - intros [Hn|Hn]; [congruence|]. specialize (Hn d Hd). cbn [snd] in Hn. by apply dec_stable.
  - intros H0. right. intros e He Hne. cbn [snd] in Hne. congruence.
Qed.

Lemma image_ok : mkfs_image m ds files.
Proof using Hf Hm.
  pose proof (map_filter_subseteq (λ p : Z * dinode, d_type p.2 ≠ 0) ds0) as Hsub. pose proof (mk_distinct _ Hf) as Hnd.
  rewrite !NoDup_cons in Hnd. destruct Hnd as (H1 & H2 & Hnd). split.
  - eexists. rewrite (fi_low _ _ _ Hm 1) by done. split; [done|]. by vm_compute.
  - rewrite (fi_low _ _ _ Hm) by done. by apply zero_image_lookup.
  - by apply (fs_ok_sub _ _ ds0), Hsub; apply Hm.
  - by apply (itable_sub _ _ ds0), Hsub; apply Hm.
  - apply image_tree.
  - apply (fi_used _ _ _ Hm).
  - apply image_free.
  - intros i d [(_ & -> & ->)|(k & f & _ & _ & -> & ->)]%image_inode; done.
  - destruct (fi_root _ _ _ Hm) as (d & z & Hd & T & _). exists d. apply map_lookup_filter_Some. split; [done|]. cbn [snd]. by rewrite T.
  - intros n Hn. by rewrite image_resolve, decide_True.
  - intros k f Hk. rewrite image_resolve, decide_False.
    + rewrite (named_lookup 0 files k f Hk Hnd). split; [done|]. destruct (fi_file _ _ _ Hm k f Hk) as (d & Hd & T & N & C).
      exists d. split; [apply map_lookup_filter_Some; split; [done|cbn [snd]; by rewrite T]|done].
    + assert (fname f ∈ fname <$> files) as Hin by (apply list_elem_of_fmap; exists f; split; [done|by apply (list_elem_of_lookup_2 _ k)]).
      intros [E|E]; rewrite E in Hin; [apply H1; by right|by apply H2].
  - intros n Hn. rewrite image_resolve, decide_False by set_solver. apply named_None. set_solver.
Qed.
End image.

Lemma mkfs_ok files s0 :
  mkfs_fits files → ∃ s ds, mkfs files s0 = Ok tt s ∧ mkfs_image (im_blocks s) ds files.
Proof.
  intros Hf. destruct first_stored as (s & ds & E & Hs). rewrite E. unfold mkfs_rest.
  destruct (mkfs_files_ok files s ds [] Hs) as (s1 & ds1 & E1 & Hs1).
  - apply Forall_forall. intros f Hin. by split; [apply (mk_name _ Hf)|apply (mk_size _ Hf)].
  - pose proof (mk_inodes _ Hf). unfold NINODES in *. cbn. lia.
  - apply (mk_blocks _ Hf).
  - destruct (finish_ok s1 ds1 files Hs1 (mk_slack _ Hf) (mk_inodes _ Hf)) as (s2 & ds2 & E2 & Hfin). mstep E1. rewrite E2.
    eexists s2, _. split; [done|]. by apply image_ok.
Qed.

(** C6: mkfs, on files that fit, makes an image that is a consistent file
    system for the kernel: the superblock and the empty log are in place, the
    free map marks exactly the blocks in use, no block has two owners, the
    inodes are on disk and the other ones are free, and in the root directory
    each file's name, without its leading underscore, leads to an inode with
    the contents of the file, while no other name leads anywhere. *)
Theorem mkfs_correct files s0 :
  mkfs_fits files → ∃ s ds, mkfs files s0 = Ok tt s ∧ mkfs_image (im_blocks s) ds files.
Proof. apply mkfs_ok. Qed.

(** ** An example: _cat with 3 bytes and README with 700 *)
Module Example.
Definition ex_files : list (list Z * list Z) := [([95; 99; 97; 116], [1; 2; 3]); ([82; 69; 65; 68; 77; 69], replicate 700 65)].

Lemma ex_fits : mkfs_fits ex_files.
Proof.
  split.
  - intros f Hin. assert (Forall (λ f, Forall byte_ok f.1 ∧ 0 ∉ f.1 ∧ SLASH ∉ f.1) ex_files) as Hall.
    { repeat constructor; cbn [fst]; try (by apply (bool_decide_unpack _)); unfold byte_ok; try lia; apply (bool_decide_unpack _); reflexivity. }
    rewrite Forall_forall in Hall. by apply Hall.
  - apply (bool_decide_unpack _). reflexivity.
  - vm_compute. discriminate.
  - intros f Hin. assert (Forall (λ f, Z.of_nat (length f.2) ≤ MAXFILE * BSIZE) ex_files) as Hall by (repeat constructor; vm_compute; discriminate).
    rewrite Forall_forall in Hall. by apply Hall.
  - vm_compute. discriminate.
  - vm_compute. discriminate.
Qed.
End Example.

Lemma mkfs_correct_witness :
  mkfs_fits Example.ex_files ∧ ∃ s ds, mkfs Example.ex_files zero_image = Ok tt s ∧ resolve (im_blocks s) ds ROOTINO [[99; 97; 116]] = Some 2.
Proof.
  split; [exact Example.ex_fits|]. destruct (mkfs_correct Example.ex_files zero_image Example.ex_fits) as (s & ds & E & H).
  exists s, ds. split; [exact E|]. exact (proj1 (mi_file _ _ _ H 0 _ eq_refl)).
Defined.
