(* ===== verification/MkfsBoot.v ===== *)
(** * The file system image and the kernel

    The kernel on the image that mkfs has made: the path of a file leads to
    its inode, and reading the inode gives the bytes of the file. *)

From S2P Require Import Prelude Params Disk Superblock Txn Fs FsBlocks FsInode FsBmap FsIo FsDinode FsIcache FsWrite FsDir FsPath Mkfs MkfsProofs MkfsSpec.

Section boot.
Context {S : Type} `{!Txn S, !DevSw S}.
Implicit Types (sb : superblock) (ic : list inode) (t : S) (v : tview).

(** The inode cache at boot. *)
Lemma icache0_ok ds : icache_ok icache0 ds ∧ refs icache0 = ∅ ∧ quiet_but icache0 None.
Proof.
  assert (∀ ip i, icache0 !! ip = Some i → i_ref i = 0) as Hl by (intros ip i [-> _]%lookup_replicate; done).
  split; [|split; [by vm_compute|intros ip i Hi%Hl; lia]].
  split; [intros ip i Hi%Hl; lia|intros ip i Hi%Hl; lia|intros ip jp i j Hi%Hl; lia|intros ip i Hi%Hl; lia].
Qed.

(** The kernel mounts the image. *)
Lemma image_mounted m ds files t v :
  mkfs_image m ds files → trep t v → t_blocks v = m → t_held v = ∅ → t_pending v = ∅ → fs_rep mkfs_sb icache0 t v ds.
Proof.
  intros Hm Ht Hb Hh Hp. split; [done|done|done|rewrite Hb; apply Hm|rewrite Hb; apply Hm|apply icache0_ok|].
  intros i d Hd. by apply (mi_type _ _ _ Hm i).
Qed.

Lemma iinit_ok sb ic t v x :
  trep t v → t_held v = ∅ → t_pending v = ∅ → t_blocks v !! 1 = Some x →
  ∃ t', iinit ROOTDEV (FState sb ic t) = Ok tt (FState (sb_decode x) ic t') ∧ trep t' v.
Proof.
  intros Ht Hh Hp Hx. destruct (fs_readsb_ok sb ic t v x Ht (can_read_empty _ _ _ Hh Hx) Hx) as (t' & E & Ht'); [rewrite Hp; apply not_elem_of_empty|].
  exists t'. unfold iinit. by mstep E.
Qed.

(** namei("/") *)
Lemma namei_root cwd sb ic t v ds :
  fs_rep sb ic t v ds → is_Some (ds !! ROOTINO) → (size (refs ic) < length ic)%nat →
  ∃ ip ic', namei cwd [SLASH] (FState sb ic t) = Ok (Some ip) (FState sb ic' t) ∧ fs_rep sb ic' t v ds ∧ got ic ic' ip ROOTINO.
Proof.
  intros Hfs Hr Hs. destruct (iget_ok sb ic t v ds ROOTINO Hfs Hr Hs) as (ip & ic' & E & Hfs' & Hgot). exists ip, ic'. split; [|done].
  unfold namei, namex. rewrite bind_assoc. by mstep E.
Qed.

(** A system that boots, opens the file at [path] and reads [n] bytes of it:
    iinit, the working directory of the first process, namei, ilock and
    readi. *)
Definition boot_read (path : list Z) (n : Z) : M (fstate S) (option (Z * list Z)) :=
  iinit ROOTDEV;;
  root ← namei 0 [SLASH];
  r ← (match root with Some cwd => namei cwd path | None => mret None end);
  match r with
  | Some ip => ilock (Some ip);; x ← readi ip 0 n; mret (Some x)
  | None => mret None
  end.

Section run.
Context (files : list (list Z * list Z)) (m : gmap Z block) (ds : gmap Z dinode) (t : S) (v : tview) (sb : superblock).
Context (Hm : mkfs_image m ds files) (Ht : trep t v) (Hb : t_blocks v = m) (Hh : t_held v = ∅) (Hp : t_pending v = ∅).

(** Up to namei of the path. *)
Lemma boot_namei path :
  Forall byte_ok path → 0 ∉ path →
  ∃ r st, (iinit ROOTDEV;; root ← namei 0 [SLASH]; match root with Some cwd => namei cwd (SLASH :: path) | None => mret None end)
      (FState sb icache0 t) = Ok r st ∧
    match resolve m ds ROOTINO (names (SLASH :: path)) with
    | Some inum => ∃ ip ic0 ic' t', r = Some ip ∧ st = FState mkfs_sb ic' t' ∧ holds ic0 mkfs_sb ic' t' v ds ip inum
    | None => r = None
    end.
Proof using All.
  intros Hpath H0. destruct (mi_super _ _ _ Hm) as (x & Hx & Esb). rewrite <- Hb in Hx.
  destruct (iinit_ok sb icache0 t v x Ht Hh Hp Hx) as (t1 & E1 & Ht1). rewrite Esb in E1. mstep E1. clear E1.
  destruct (icache0_ok ds) as (Hic & Hrefs & Hq). pose proof (image_mounted m ds files t1 v Hm Ht1 Hb Hh Hp) as Hfs.
  destruct (namei_root 0 mkfs_sb icache0 t1 v ds Hfs (mi_root _ _ _ Hm)) as (cwd & ic1 & E2 & Hfs1 & [G1 G2 G3 G4 G5 G6]);
    [rewrite Hrefs, map_size_empty; change (length icache0) with 50%nat; lia|].
  mstep E2. clear E2. destruct (mi_root _ _ _ Hm) as [dr Hdr]. destruct (mi_type _ _ _ Hm _ _ Hdr) as [_ Hnl].
  assert (can_walk mkfs_sb ic1 t1 v ds cwd ROOTINO (SLASH :: path)) as Hw.
  { split; [done|rewrite Hb; apply Hm|by apply G4| |done|exists dr; by rewrite Hnl|split; [by constructor|set_solver]].
    rewrite G1, Hrefs, G3. unfold incr. rewrite map_size_insert, lookup_empty, map_size_empty. change (length icache0) with 50%nat. lia. }
  pose proof (namex_ok mkfs_sb ic1 t1 v ds cwd ROOTINO (SLASH :: path) false Hw) as H. cbn [start] in H. rewrite Z.eqb_refl in H.
  rewrite <- Hb, <- (walk_resolve _ _ _ _ []). unfold namei. destruct (walk _ _ _ _ _ _) as [[inum name]|]; cbn [namex_result fmap option_fmap option_map fst] in *.
  - destruct H as (ip & ic' & t' & E & Hho). exists (Some ip), (FState mkfs_sb ic' t'). split; [by mstep E|]. by exists ip, ic1, ic', t'.
  - destruct H as (ic' & t' & E & _). exists None, (FState mkfs_sb ic' t'). split; [by mstep E|done].
Qed.

Lemma boot_read_ok path n :
  Forall byte_ok path → 0 ∉ path → 0 ≤ n < 2 ^ 32 →
  match resolve m ds ROOTINO (names (SLASH :: path)) with
  | Some inum => ∀ d, ds !! inum = Some d → d_type d = T_FILE →
      ∃ st, boot_read (SLASH :: path) n (FState sb icache0 t) =
        Ok (Some (Z.min n (d_size d), take (Z.to_nat n) (content m d))) st
  | None => ∃ st, boot_read (SLASH :: path) n (FState sb icache0 t) = Ok None st
  end.
Proof using All.
  intros Hpath H0 Hn. destruct (boot_namei path Hpath H0) as (r & st & E & Hr). unfold boot_read.
  assert (∀ k : option nat → M (fstate S) (option (Z * list Z)),
    (iinit ROOTDEV;; root ← namei 0 [SLASH]; r ← (match root with Some cwd => namei cwd (SLASH :: path) | None => mret None end); k r) (FState sb icache0 t) = k r st) as Erun.
  { intros k. revert E. unfold mbind, M_bind. destruct (iinit ROOTDEV _) as [? s'| | | |]; [|done..]. destruct (namei 0 [SLASH] s'); [|done..]. by intros ->. }
  rewrite Erun. clear E Erun. destruct (resolve _ _ _ _) as [inum|]; [|rewrite Hr; by exists st].
  intros d Hd Hty. destruct Hr as (ip & ic0 & ic' & t' & -> & -> & [Hfs Href Hk Hq Hl [i Hsl]]).
  assert (iflag i I_BUSY = false) as Hbusy by (destruct Hsl as [Hip Hi _]; by apply (Hq ip i Hip Hi)).
  destruct (ilock_ok mkfs_sb ic' t' v ds ip inum i d Hfs Hsl Hbusy Hd) as (i' & t2 & E2 & Hfs2 & Hlk & Hi' & _). mstep E2. clear E2.
  pose proof (locked_at _ _ _ _ _ _ _ _ Hfs2 Hlk) as Hat. pose proof (fo_size (fr_ok Hfs2) _ _ Hd) as Hsz.
  destruct (readi_ok ip i' 0 n _ _ _ _ _ Hat) as (t3 & E3 & _); [by rewrite Hi', Hty|lia|done|]. rewrite Hi' in E3. rewrite Z.sub_0_r in E3.
  rewrite (proj2 (Z.ltb_ge (d_size d) 0)), (proj2 (Z.leb_gt (2 ^ 32) (0 + n))) in E3 by lia. cbn [orb] in E3. mstep E3.
  eexists. unfold mret, M_ret. do 3 f_equal. unfold slice. change (Z.to_nat 0) with 0%nat. rewrite drop_0, Hb.
  pose proof (length_fcontent m d) as Hlen. destruct (decide (n ≤ d_size d)); [by rewrite Z.min_l|].
  rewrite Z.min_r, !take_ge by lia. done.
Qed.
End run.

Lemma names_one w : w ≠ [] → SLASH ∉ w → (length w ≤ Z.to_nat DIRSIZ)%nat → names (SLASH :: w) = [w].
Proof.
  intros Hne Hs Hl. assert (split_path w = [w]) as Ew.
  { clear Hne Hl. induction w as [|c w IH]; [done|]. rewrite not_elem_of_cons in Hs. destruct Hs as [Hc Hs]. cbn [split_path].
    rewrite (proj2 (Z.eqb_neq c SLASH)) by congruence. by rewrite IH. }
  unfold names. cbn [split_path]. rewrite Z.eqb_refl, Ew, filter_empty, filter_cons_True by done. cbn. by rewrite take_ge.
Qed.

Lemma fname_slash f : SLASH ∉ f.1 → SLASH ∉ fname f.
Proof.
  intros Hs Hin. apply Hs. apply (subseteq_take (Z.to_nat DIRSIZ)) in Hin. destruct (strip_cases f.1) as [E|E]; [by rewrite E in Hin|]. rewrite E. by right.
Qed.

(** C5: what mkfs stores is what the kernel reads: on the image that mkfs
    made of the files, a kernel that boots, looks up the name of a file in the
    root and reads from its start gets the bytes of that file, cut at its end
    and at the number of bytes asked for; and it finds no file with any other
    name. *)
Theorem mkfs_boot files s0 s sb t v :
  mkfs_fits files → mkfs files s0 = Ok tt s → trep t v → t_blocks v = im_blocks s → t_held v = ∅ → t_pending v = ∅ →
  ∀ n, 0 ≤ n < 2 ^ 32 →
  (∀ f, f ∈ files → fname f ≠ [] →
     ∃ st, boot_read (SLASH :: fname f) n (FState sb icache0 t) = Ok (Some (Z.min n (Z.of_nat (length f.2)), take (Z.to_nat n) f.2)) st) ∧
  (∀ w, name_ok w → SLASH ∉ w → w ∉ [] :: [46] :: [46; 46] :: (fname <$> files) →
     ∃ st, boot_read (SLASH :: w) n (FState sb icache0 t) = Ok None st).
Proof.
  intros Hf E Ht Hb Hh Hp n Hn. destruct (mkfs_ok files s0 Hf) as (s' & ds & E' & Hm). assert (s' = s) as -> by congruence. clear E E'.
  pose proof (λ w, boot_read_ok files (im_blocks s) ds t v sb Hm Ht Hb Hh Hp w n) as Hread. split.
  - intros f [k Hk]%list_elem_of_lookup Hne. destruct (mk_name _ Hf f (list_elem_of_lookup_2 _ _ _ Hk)) as (H1 & H2 & H3).
    destruct (fname_ok f H1 H2) as [N1 N2 N3]. specialize (Hread (fname f) N1 N2 Hn).
    rewrite names_one in Hread by (done || by apply fname_slash). destruct (mi_file _ _ _ Hm k f Hk) as (Er & d & Hd & Hty & Hc).
    rewrite Er in Hread. destruct (Hread d Hd Hty) as [st Hst]. exists st. rewrite Hst, Hc, <- Hc, length_fcontent.
    rewrite Z2Nat.id by (by apply (fo_size (mi_ok _ _ _ Hm) _ _ Hd)). done.
  - intros w [N1 N2 N3] Hs Hw. rewrite not_elem_of_cons in Hw. destruct Hw as [Hne Hw]. specialize (Hread w N1 N2 Hn).
    rewrite names_one in Hread by done. by rewrite (mi_none _ _ _ Hm w Hw) in Hread.
Qed.
End boot.

Module Example.
#[export] Instance ex_nodevsw : DevSw tview := { devsw_read _ := None; devsw_write _ := None }.
Definition ex_view (s : image) : tview := TView (im_blocks s) ∅ ∅ ∅ 0 (im_blocks s).

Lemma ex_view_rep s : trep (ex_view s) (ex_view s).
Proof. split; [done|]. intros i b H. cbn [ex_view t_held] in H. by rewrite lookup_empty in H. Qed.
End Example.
Import Example.

Lemma mkfs_boot_witness :
  ∃ s st, mkfs MkfsSpec.Example.ex_files zero_image = Ok tt s ∧
    boot_read [47; 99; 97; 116] 512 (FState (Superblock 0 0 0 0 0 0 0) icache0 (ex_view s)) = Ok (Some (3, [1; 2; 3])) st.
Proof.
  destruct (mkfs_ok MkfsSpec.Example.ex_files zero_image MkfsSpec.Example.ex_fits) as (s & ds & E & _). exists s.
  destruct (mkfs_boot MkfsSpec.Example.ex_files zero_image s (Superblock 0 0 0 0 0 0 0) (ex_view s) (ex_view s)
    MkfsSpec.Example.ex_fits E (ex_view_rep s) eq_refl eq_refl eq_refl 512 ltac:(lia)) as [H _].
  destruct (H ([95; 99; 97; 116], [1; 2; 3])) as [st Hst]; [left|discriminate|]. exists st. split; [exact E|exact Hst].
Defined.
